(* ===== verification/_CoqProject ===== *)
-Q . S2P
Prelude.v
Ioport.v
Locks.v
Vsprintf.v
Ipc.v
IpcTable.v
Sem.v
SemInv.v
SemSafe.v
SemProps.v
Msg.v
MsgInv.v
MsgSafe.v
MsgFree.v
MsgProps.v
Timer.v
Sched.v
Mktime.v
Clock.v
Itimer.v
PageAlloc.v
Kmalloc.v
Vm.v
VmBits.v
VmInv.v
VmCount.v
VmSwap.v
VmReclaim.v
VmAlloc.v
VmTables.v
VmFree.v
VmDir.v
VmCopy.v
VmRange.v
VmFault.v
VmNoPage.v
VmStep.v
VmView.v
VmBoot.v
VmStore.v
VmRun.v
VmProps.v
Sys.v
Dll.v
Ring.v
Tasks.v
Kill.v
Procs.v
ProcsFork.v
ProcsInv.v
ProcsStep.v
ProcsSafe.v
ProcsBorn.v
ProcsReach.v
Jobs.v
Pipe.v
PipeInv.v
PipeSafe.v
PipeOpen.v
PipeReach.v
FileTable.v
Fd.v
FdInv.v
FdSafe.v
FdOpen.v
Signal.v
SignalFrame.v
SignalDeliver.v
SignalProps.v
