(* ===== verification/Prelude.v ===== *)
(** * Verification of the Linux 1.0 kernel sources under [src/]

    The program is an operating system kernel in C for one 32-bit processor.  It is
    not preemptible: a process in the kernel runs until it returns to user mode or
    sleeps, and only interrupts come in between.  The parts of it that are
    modelled here, the files that model them and what is proved:

    - processes ([Tasks], [Kill], [Procs] and the [Procs...] files): the task table
      with the ring of tasks and the family pointers ([include/linux/sched.h]),
      [fork] ([kernel/fork.c]), [exit], [wait4] and [kill] ([kernel/exit.c]),
      attaching and detaching with [ptrace] ([kernel/ptrace.c]).  [Dll] has the
      theory of doubly linked lists they share.  Calls are cut where they can
      sleep; [ProcsStep] runs the pieces of all processes in any order, and
      [ProcsReach] states what holds in every state that can be reached: the
      pointers form a tree, its audit is clean, every step succeeds, process
      numbers are unique, parents are alive.  [ProcsFork]: the search for a
      process number ends and finds a free one.  [Kill]: who is signalled by
      [kill].
    - the scheduler ([Sched]: [schedule], the tick and [sys_nice] of
      [kernel/sched.c], [send_sig]): the choice of the next task, a bound on the
      ticks that a runnable task waits for the processor whatever the others do,
      the ranges of counters and priorities, the load average.
    - timers and time ([Timer]: [add_timer], [del_timer], [timer_bh]; [Itimer]:
      [kernel/itimer.c]; [Clock]: the clock variables of [kernel/sched.c] and
      [kernel/time.c]; [Mktime]: [kernel/mktime.c]): the delta list against the
      list of deadlines, timers that run exactly when their ticks have been
      counted, with ticks, bottom halves and other timers in any order, the
      phase-lock loop, [adjtimex], the calendar.
    - memory ([PageAlloc]: the free page lists of [mm/swap.c]; [Kmalloc]:
      [mm/kmalloc.c]): [Kmalloc] is proved against the class [PageAllocator], of
      which [PageAlloc] is the instance; both refine a map of what is in use.
    - virtual memory ([Vm]: page tables, copy on write, page faults, swapping of
      [mm/memory.c] and [mm/swap.c], and how [fork], [exec] and [exit] use them).
      [VmInv] has the invariant: a ghost state lists directories, tables and
      entries, memory realises it, and [mem_map] and the swap maps count exactly
      the references in it ([VmBits], [VmCount]: bits and sums).  Each function
      keeps it: [VmSwap], [VmReclaim] (swapping out), [VmAlloc], [VmTables],
      [VmFree], [VmDir] (directories), [VmCopy] ([fork]), [VmRange], [VmFault]
      (write protection), [VmNoPage].  [VmStep] has the operations as steps of a
      machine, with the memory that a process sees ([view]) and the processor's
      write with its faults; [VmView], [VmStore] and [VmRun] relate them to the
      ghost state.  [VmProps]: every sequence of operations is safe, processes
      are isolated, [fork] copies, writes after it are private, a write changes
      one word, faults and swapping are not seen, no page is lost.  [VmBoot] is
      a small machine on which the theorems are used.
    - System V semaphores ([Ipc], [IpcTable], [Sem], [SemInv], [SemSafe],
      [SemProps]: [ipc/sem.c], [ipc/util.c]): all processes in any interleaving,
      with removal, undo, sleeping and exit; memory safety, no lost wake-up,
      atomicity, accounting.
    - System V message queues ([Msg], [MsgInv], [MsgSafe], [MsgFree], [MsgProps]:
      [ipc/msg.c]): again all processes in any interleaving.  The pointers of a
      queue are read off as a list of messages ([abs]) and every run is shown to
      change these lists as the specification [effect] says for what the process
      asked for ([req]); memory safety, no
      lost wake-up, and examples of what the code gets wrong.  The queues and the
      semaphores share the theory of their tables of identifiers ([IpcTable]).
    - signals ([Signal]: all of [kernel/signal.c]; [SignalFrame]: the frames on the
      user's stack; [SignalDeliver]: the loop of [do_signal]; [SignalProps]): the
      mask calls, the choice of a handler, stack frames that lie in user space,
      the return through every handler to the interrupted program, restart of
      system calls, [SIGKILL].
    - process groups, sessions and priorities ([Jobs]: [kernel/sys.c]) as steps on
      the process tree.
    - pipes and FIFOs ([Pipe], [PipeInv], [PipeSafe], [PipeOpen], [PipeReach]:
      [fs/pipe.c], [fs/fifo.c]): readers, writers and openers in any interleaving;
      what is read is what was written, in order; short writes are atomic; no
      lost wake-up and no deadlock between a reader and a writer.
    - open files and descriptors ([Ring] with the
      theory of rings, [FileTable]: [fs/file_table.c]; [Fd], [FdInv], [FdSafe], [FdOpen]: [fs/open.c],
      [fs/fcntl.c], the descriptor part of [fork], [exit] and [exec]): reference
      counts of files and inodes are exact, every call is safe, [dup2].
    - record locks ([Locks]: [fs/locks.c]): refinement of the list of locks to a
      map from offsets to lock types, mutual exclusion.
    - I/O port bitmaps ([Ioport]: [kernel/ioport.c]), formatted output ([Vsprintf]:
      [kernel/vsprintf.c], [lib/ctype.c]), and calls on the ids, limits and names
      of the calling process ([Sys]: [kernel/sys.c]).

    Conventions.  A C integer is a [Z]; [u32], [s32], [u16], [s16] and [u8] wrap it
    where the code computes.  An error number is returned as in C, negative.
    What C leaves undefined (a null or dangling pointer, an index or a shift
    count out of range) and a [panic] is [None], so "the result is [Some]" is a
    statement of safety.  Values read from user memory or hardware and the
    answers of functions outside the model are arguments; what is written there
    is a result.  Interrupts are an arbitrary function on the state that is
    assumed to keep the invariant, with a witness that there is one.

    Bounds and fuel.  Loops over the ring of tasks have fuel 128 ([NR_TASKS], the
    size of the table, which the ring cannot exceed); the loop of
    [find_empty_process] has 382, one more than the numbers that 127 tasks can
    keep in use; loops over children have one more than the ring.  The loops of
    [timer_bh], [vsprintf], [kmalloc] and the lists of page descriptors have fuel
    that is shown to be enough where they are used; the searches in a message
    queue have one more than the messages in memory, and the loop of
    [do_signal] 33 for every time the process is continued after a stop, and 33
    more, since every round takes one of the 32 pending bits.  The search for a
    task to swap has 257, twice round the table; [__get_free_page] has two
    rounds more than the secondary list can have pages, since what
    [try_to_free_page] frees goes there until it is full; the loops
    over ranges have one round more than a directory has entries; a write by a
    program has three attempts, which is shown to be enough.  In every such function
    running out of fuel is [None], so theorems that a result exists include
    termination.

    Conditions.  Where the code is wrong for some requests the theorems exclude
    them, and a theorem shows what happens: [init] exits or a process attaches to
    an ancestor ([attach_parent_exit_fails]); [semop] with a number equal to the
    size of the array, the same semaphore twice, or SEM_UNDO on an old identifier
    ([good_call]; [semop_num_out_of_bounds], [semop_same_semaphore_wraps],
    [semop_stale_undo_dangles]); a record lock to the end of file by an owner with
    a lock of that type ([no_wrap]; [lock_to_eof_keeps_write_lock]); a sender that
    comes back from [kmalloc] to another queue in its table entry ([entry_kept]).

    Limits of the model of virtual memory.  The theorems are about anonymous
    memory: the functions for pages of mapped files and of shared memory are
    parameters, and a fault for such a page is excluded ([allowed]).  So are
    zero mappings that are writable at once and writes of the kernel to pages
    that are not to be copied; [VmProps] has examples of what the code does then.
    The swap device does not fail, the buffer cache and shared memory give no page
    back, and the functions run one at a time: they do not sleep in between.

    Not modelled.  Of [fork] the copying of registers; in the model of the process
    tree also that of memory, which [Vm] has on its own; of [ptrace] access to memory and registers; interrupts, traps and
    descriptor tables ([kernel/irq.c], [kernel/traps.c], [kernel/sys_call.S],
    assembly); mapped areas ([mm/mmap.c]), [vmalloc], [remap_page_range], the
    sharing of pages of executables, [swapon] and [swapoff]; shared memory ([ipc/shm.c]); path lookup, the file
    systems and the buffer cache (the rest of [fs/]), the network ([net/]), the
    drivers and the floating point emulator ([drivers/]), which are I/O or of a
    size beyond this development; boot code and build tools. *)

From Stdlib Require Import ZArith Lia.
From stdpp Require Import base list gmap numbers.

Declare Scope cint_scope.
Delimit Scope cint_scope with cint.
Open Scope Z_scope.

(** ** Machine integers *)

(** The value of an [unsigned int]/[unsigned long] (32 bits). *)
Definition u32 (z : Z) : Z := z mod 2 ^ 32.

(** The value of an [int]/[long] (32 bits, two's complement). *)
Definition s32 (z : Z) : Z := (z + 2 ^ 31) mod 2 ^ 32 - 2 ^ 31.

Definition u16 (z : Z) : Z := z mod 2 ^ 16.

Definition s16 (z : Z) : Z := (z + 2 ^ 15) mod 2 ^ 16 - 2 ^ 15.

Definition u8 (z : Z) : Z := z mod 2 ^ 8.

Notation "a .& b" := (Z.land a b) (at level 40, left associativity) : cint_scope.
Notation "a .| b" := (Z.lor a b) (at level 41, left associativity) : cint_scope.
Notation "~. a" := (Z.lnot a) (at level 35, right associativity) : cint_scope.
Notation "a <<. n" := (Z.shiftl a n) (at level 39, left associativity) : cint_scope.
Notation "a >>. n" := (Z.shiftr a n) (at level 39, left associativity) : cint_scope.

(** [x & m] used as a C condition. *)
Definition has (x m : Z) : bool := negb (Z.land x m =? 0).

(** ** Arrays: a C array is a list; an access outside it is [None]. *)

Definition get {A} (l : list A) (i : Z) : option A :=
  if i <? 0 then None else l !! Z.to_nat i.

Definition put {A} (l : list A) (i : Z) (x : A) : option (list A) :=
  if (i <? 0) || (Z.of_nat (length l) <=? i) then None
  else Some (<[Z.to_nat i := x]> l).

(** ** Error numbers ([include/linux/errno.h]) *)

Definition EPERM : Z := 1.
Definition ENOENT : Z := 2.
Definition ESRCH : Z := 3.
Definition EINTR : Z := 4.
Definition EIO : Z := 5.
Definition ENXIO : Z := 6.
Definition E2BIG : Z := 7.
Definition ENOEXEC : Z := 8.
Definition EBADF : Z := 9.
Definition ECHILD : Z := 10.
Definition EAGAIN : Z := 11.
Definition ENOMEM : Z := 12.
Definition EACCES : Z := 13.
Definition EFAULT : Z := 14.
Definition EBUSY : Z := 16.
Definition EEXIST : Z := 17.
Definition EXDEV : Z := 18.
Definition ENODEV : Z := 19.
Definition ENOTDIR : Z := 20.
Definition EISDIR : Z := 21.
Definition EINVAL : Z := 22.
Definition ENFILE : Z := 23.
Definition EMFILE : Z := 24.
Definition EFBIG : Z := 27.
Definition ENOSPC : Z := 28.
Definition ESPIPE : Z := 29.
Definition EROFS : Z := 30.
Definition EMLINK : Z := 31.
Definition EPIPE : Z := 32.
Definition ERANGE : Z := 34.
Definition ENAMETOOLONG : Z := 36.
Definition ENOLCK : Z := 37.
Definition ENOSYS : Z := 38.
Definition ENOTEMPTY : Z := 39.
Definition ELOOP : Z := 40.
Definition ENOMSG : Z := 42.
Definition EIDRM : Z := 43.
Definition ERESTARTSYS : Z := 512.
Definition ERESTARTNOHAND : Z := 514.

(** ** Tactics *)

(** Split on the first boolean comparison that guards the goal. *)
Ltac case_bool :=
  match goal with
  | |- context [if ?b then _ else _] => destruct b eqn:?
  end.

Ltac case_bool_in H :=
  match type of H with
  | context [if ?b then _ else _] => destruct b eqn:?
  end.

(** ** Lemmas on machine integers *)

Create HintDb cint.

Lemma u32_range z : 0 <= u32 z < 2 ^ 32.
Proof. apply Z.mod_pos_bound. lia. Qed.

Lemma u32_small z : 0 <= z < 2 ^ 32 -> u32 z = z.
Proof. apply Z.mod_small. Qed.

Lemma u32_idem z : u32 (u32 z) = u32 z.
Proof. apply u32_small, u32_range. Qed.

Lemma s32_range z : - 2 ^ 31 <= s32 z < 2 ^ 31.
Proof. unfold s32. pose proof (Z.mod_pos_bound (z + 2 ^ 31) (2 ^ 32)). lia. Qed.

Lemma s32_small z : - 2 ^ 31 <= z < 2 ^ 31 -> s32 z = z.
Proof. intros H. unfold s32. rewrite Z.mod_small; lia. Qed.

(** One wrap-around upwards or downwards. *)
Lemma s32_over z : 2 ^ 31 <= z < 3 * 2 ^ 31 -> s32 z = z - 2 ^ 32.
Proof. intros H. unfold s32. rewrite <- (Z.mod_unique (z + 2 ^ 31) (2 ^ 32) 1 (z - 2 ^ 31)); lia. Qed.

Lemma s32_under z : - 3 * 2 ^ 31 <= z < - 2 ^ 31 -> s32 z = z + 2 ^ 32.
Proof. intros H. unfold s32. rewrite <- (Z.mod_unique (z + 2 ^ 31) (2 ^ 32) (-1) (z + 3 * 2 ^ 31)); lia. Qed.

Lemma s32_add a b : s32 (s32 a + b) = s32 (a + b).
Proof.
  unfold s32. f_equal. replace ((a + 2 ^ 31) mod 2 ^ 32 - 2 ^ 31 + b + 2 ^ 31)
    with ((a + 2 ^ 31) mod 2 ^ 32 + b) by lia.
  rewrite Z.add_mod_idemp_l by lia. f_equal. lia.
Qed.

Lemma s32_sub a b : s32 (s32 a - b) = s32 (a - b).
Proof. apply (s32_add a (- b)). Qed.

Lemma u16_range z : 0 <= u16 z < 2 ^ 16.
Proof. apply Z.mod_pos_bound. lia. Qed.

Lemma u16_small z : 0 <= z < 2 ^ 16 -> u16 z = z.
Proof. apply Z.mod_small. Qed.

Lemma s16_small z : - 2 ^ 15 <= z < 2 ^ 15 -> s16 z = z.
Proof. intros H. unfold s16. rewrite Z.mod_small; lia. Qed.

Lemma s16_range z : - 2 ^ 15 <= s16 z < 2 ^ 15.
Proof. unfold s16. pose proof (Z.mod_pos_bound (z + 2 ^ 15) (2 ^ 16)). lia. Qed.

#[export] Hint Resolve u32_range s32_range u16_range s16_range : cint.

Lemma testbit_u32 z i : Z.testbit (u32 z) i = (i <? 32) && Z.testbit z i.
Proof.
  unfold u32. destruct (Z.ltb_spec i 32) as [H|H].
  - now rewrite Z.mod_pow2_bits_low.
  - destruct (Z.ltb_spec i 0); [lia|]. rewrite Z.mod_pow2_bits_high; [done|lia].
Qed.

Lemma testbit_ones_above n i :
  0 <= n -> 0 <= i -> Z.testbit (Z.shiftl (Z.lnot 0) n) i = (n <=? i).
Proof.
  intros Hn Hi. rewrite Z.shiftl_spec by lia.
  destruct (Z.leb_spec n i).
  - now rewrite Z.lnot_spec, Z.bits_0 by lia.
  - now rewrite Z.testbit_neg_r by lia.
Qed.

(** A number below [2^32] is determined by its 32 low bits. *)
Lemma bits_above_u32 z i : 0 <= z < 2 ^ 32 -> 32 <= i -> Z.testbit z i = false.
Proof.
  intros Hz Hi. rewrite <- (u32_small z Hz), testbit_u32.
  destruct (Z.ltb_spec i 32); [lia|done].
Qed.

Lemma u32_bits_inj a b :
  0 <= a < 2 ^ 32 -> 0 <= b < 2 ^ 32 ->
  (forall i, 0 <= i < 32 -> Z.testbit a i = Z.testbit b i) -> a = b.
Proof.
  intros Ha Hb H. apply Z.bits_inj'. intros i Hi.
  destruct (Z.lt_ge_cases i 32); [apply H; lia|].
  now rewrite !bits_above_u32 by lia.
Qed.

(** ** Lemmas on arrays *)

Lemma get_Some_range {A} (l : list A) i x :
  get l i = Some x -> 0 <= i < Z.of_nat (length l).
Proof.
  unfold get. destruct (Z.ltb_spec i 0); [done|].
  intros Hl%lookup_lt_Some. lia.
Qed.

Lemma get_in_range {A} (l : list A) i :
  0 <= i < Z.of_nat (length l) -> exists x, get l i = Some x.
Proof.
  intros H. unfold get. destruct (Z.ltb_spec i 0); [lia|].
  apply lookup_lt_is_Some_2. lia.
Qed.

Lemma put_in_range {A} (l : list A) i x :
  0 <= i < Z.of_nat (length l) -> put l i x = Some (<[Z.to_nat i := x]> l).
Proof.
  intros H. unfold put.
  destruct (Z.ltb_spec i 0), (Z.leb_spec (Z.of_nat (length l)) i); simpl; lia || done.
Qed.

Lemma put_of_get {A} (l : list A) i x y : get l i = Some y -> exists l', put l i x = Some l'.
Proof. intros H%get_Some_range. eexists. by apply put_in_range. Qed.

Lemma put_length {A} (l l' : list A) i x :
  put l i x = Some l' -> length l' = length l.
Proof.
  unfold put. case_bool; [done|]. intros [= <-]. apply length_insert.
Qed.

Lemma get_put {A} (l l' : list A) i j x :
  put l i x = Some l' -> get l' j = if j =? i then Some x else get l j.
Proof.
  unfold put, get. destruct (Z.ltb_spec i 0); [done|]. simpl.
  destruct (Z.leb_spec (Z.of_nat (length l)) i); [done|]. intros [= <-].
  destruct (Z.ltb_spec j 0), (Z.eqb_spec j i); subst; try lia; try done.
  - rewrite list_lookup_insert_eq; [done|lia].
  - rewrite list_lookup_insert_ne; [done|lia].
Qed.

Lemma put_same {A} (l : list A) i x : get l i = Some x -> put l i x = Some l.
Proof.
  intros H. rewrite put_in_range by (by eapply get_Some_range). f_equal. unfold get in H. case_bool_in H; [done|].
  by apply list_insert_id.
Qed.

(** A component that a [put] leaves alone. *)
Lemma put_fmap_same {A B} (f : A -> B) (l l' : list A) i x y :
  put l i x = Some l' -> get l i = Some y -> f x = f y -> f <$> l' = f <$> l.
Proof.
  unfold put, get. case_bool; [done|]. intros [= <-]. case_bool; [done|]. intros Hy Hf.
  rewrite list_fmap_insert, Hf. apply list_insert_id. by rewrite list_lookup_fmap, Hy.
Qed.

Lemma NoDup_app_l {A} (l1 l2 : list A) : NoDup (l1 ++ l2) -> NoDup l1.
Proof. by intros (H & _ & _)%list.NoDup_app. Qed.

Lemma NoDup_perm {A} (l1 l2 : list A) : l1 ≡ₚ l2 -> NoDup l1 -> NoDup l2.
Proof. by intros ->. Qed.

(** ** Sums over lists and finite maps *)

Definition lsum {A} (f : A -> Z) (l : list A) : Z := foldr (fun x n => f x + n) 0 l.

Definition msum {A} (f : A -> Z) (m : gmap Z A) : Z := map_fold (fun _ x n => f x + n) 0 m.

Lemma lsum_app {A} (f : A -> Z) l1 l2 : lsum f (l1 ++ l2) = lsum f l1 + lsum f l2.
Proof. induction l1 as [|x l1 IH]; simpl; [lia|]. rewrite IH. lia. Qed.

Lemma lsum_insert {A} (f : A -> Z) l i x y :
  l !! i = Some y -> lsum f (<[i := x]> l) = lsum f l - f y + f x.
Proof.
  revert i. induction l as [|z l IH]; intros [|i] H; simplify_eq/=; [lia|].
  rewrite (IH i H). lia.
Qed.

Lemma lsum_ext {A} (f g : A -> Z) l : (forall x, x ∈ l -> f x = g x) -> lsum f l = lsum g l.
Proof.
  induction l as [|x l IH]; intros H; [done|]. simpl.
  rewrite H, IH; [done|..]; intros; [apply H|]; set_solver.
Qed.

Lemma lsum_nonneg {A} (f : A -> Z) l : (forall x, x ∈ l -> 0 <= f x) -> 0 <= lsum f l.
Proof.
  induction l as [|x l IH]; intros H; simpl; [lia|].
  assert (0 <= f x) by (apply H; set_solver). assert (0 <= lsum f l) by (apply IH; set_solver). lia.
Qed.

Lemma msum_insert {A} (f : A -> Z) m k x :
  m !! k = None -> msum f (<[k := x]> m) = f x + msum f m.
Proof. intros H. unfold msum. rewrite map_fold_insert_L; [done|intros; lia|done]. Qed.

Lemma msum_delete {A} (f : A -> Z) m k x :
  m !! k = Some x -> msum f m = f x + msum f (delete k m).
Proof.
  intros H. rewrite <- (insert_delete_id m k x H) at 1.
  apply msum_insert, lookup_delete_eq.
Qed.

Lemma msum_insert_gen {A} (f : A -> Z) m k x :
  msum f (<[k := x]> m) = f x + msum f (delete k m).
Proof. rewrite <- insert_delete_eq. apply msum_insert, lookup_delete_eq. Qed.

Lemma msum_fmap {A B} (f : B -> Z) (g : A -> B) m : msum f (g <$> m) = msum (fun x => f (g x)) m.
Proof.
  induction m as [|k x m Hk IH] using map_ind; [by rewrite fmap_empty|].
  rewrite fmap_insert, !msum_insert, IH; [done|done|]. by rewrite lookup_fmap, Hk.
Qed.

Lemma msum_ext {A} (f g : A -> Z) m : (forall k x, m !! k = Some x -> f x = g x) -> msum f m = msum g m.
Proof.
  induction m as [|k x m Hk IH] using map_ind; intros H; [done|].
  rewrite !msum_insert by done. rewrite (H k x), IH; [done|..].
  - intros j y Hj. apply (H j). rewrite lookup_insert_ne; [done|]. by intros ->; simplify_eq.
  - apply lookup_insert_eq.
Qed.

Lemma msum_nonneg {A} (f : A -> Z) m : (forall k x, m !! k = Some x -> 0 <= f x) -> 0 <= msum f m.
Proof.
  induction m as [|k x m Hk IH] using map_ind; intros H; [done|].
  rewrite msum_insert by done. assert (0 <= f x) by (apply (H k), lookup_insert_eq).
  assert (0 <= msum f m); [|lia]. apply IH. intros j y Hj. apply (H j).
  rewrite lookup_insert_ne; [done|]. by intros ->; simplify_eq.
Qed.

Lemma msum_zero {A} (f : A -> Z) m : (forall k x, m !! k = Some x -> f x = 0) -> msum f m = 0.
Proof.
  intros H. rewrite (msum_ext _ (fun _ => 0) m H). clear H.
  induction m as [|k x m Hk IH] using map_ind; [done|]. rewrite msum_insert by done. lia.
Qed.

(** The sum depends only on what each key contributes. *)
Lemma msum_contrib {A} (f : A -> Z) (m m' : gmap Z A) :
  (forall k, from_option f 0 (m !! k) = from_option f 0 (m' !! k)) -> msum f m = msum f m'.
Proof.
  revert m'. induction m as [|k x m Hk IH] using map_ind; intros m' H.
  - symmetry. apply msum_zero. intros j y Hj. specialize (H j). rewrite lookup_empty, Hj in H. simpl in H. lia.
  - rewrite msum_insert by done.
    assert (msum f m' = from_option f 0 (m' !! k) + msum f (delete k m')) as ->.
    { destruct (m' !! k) as [y|] eqn:E; simpl; [by apply msum_delete|]. by rewrite delete_id. }
    rewrite <- (H k), lookup_insert_eq. simpl. rewrite (IH (delete k m')); [done|]. intros j.
    destruct (decide (j = k)) as [-> |N]; [by rewrite Hk, lookup_delete_eq|].
    rewrite lookup_delete_ne by done. specialize (H j). by rewrite lookup_insert_ne in H.
Qed.

Lemma msum_contrib_at {A} (f : A -> Z) (m m' : gmap Z A) k :
  (forall j, j <> k -> from_option f 0 (m !! j) = from_option f 0 (m' !! j)) ->
  msum f m' = msum f m - from_option f 0 (m !! k) + from_option f 0 (m' !! k).
Proof.
  intros H.
  assert (forall n : gmap Z A, msum f n = from_option f 0 (n !! k) + msum f (delete k n)) as S.
  { intros n. destruct (n !! k) as [y|] eqn:E; simpl; [by apply msum_delete|]. by rewrite delete_id. }
  rewrite (S m), (S m'). rewrite (msum_contrib f (delete k m) (delete k m')); [lia|]. intros j.
  destruct (decide (j = k)) as [-> |N]; [by rewrite !lookup_delete_eq|]. rewrite !lookup_delete_ne by done. by apply H.
Qed.

Lemma msum_le_size {A} (f : A -> Z) (m : gmap Z A) b :
  (forall k x, m !! k = Some x -> f x <= b) -> msum f m <= b * Z.of_nat (size m).
Proof.
  induction m as [|k x m Hk IH] using map_ind; intros H; [by rewrite map_size_empty, Z.mul_0_r|].
  rewrite msum_insert, map_size_insert_None by done. pose proof (H k x ltac:(apply lookup_insert_eq)) as Hx.
  assert (msum f m <= b * Z.of_nat (size m)); [|lia]. apply IH. intros j y Hj. apply (H j).
  rewrite lookup_insert_ne; [done|]. by intros ->; simplify_eq.
Qed.

(** ** Filters *)

Lemma filter_all {A} (P : A -> Prop) `{forall x, Decision (P x)} (l : list A) : Forall P l -> filter P l = l.
Proof. induction 1 as [|x l Hx _ IH]; [done|]. by rewrite filter_cons_True, IH. Qed.

Lemma filter_none {A} (P : A -> Prop) `{forall x, Decision (P x)} (l : list A) :
  Forall (fun x => ~ P x) l -> filter P l = [].
Proof. induction 1 as [|x l Hx _ IH]; [done|]. by rewrite filter_cons_False. Qed.

Lemma filter_fmap {A B} (f : A -> B) (P : B -> Prop) (Q : A -> Prop)
    `{forall x, Decision (P x)} `{forall x, Decision (Q x)} (l : list A) :
  (forall x, P (f x) <-> Q x) -> filter P (f <$> l) = f <$> filter Q l.
Proof.
  intros Heq. induction l as [|x l IH]; [done|]. rewrite fmap_cons, !filter_cons, IH.
  repeat case_decide; naive_solver.
Qed.

(** ** Linked lists

    [chain nx p l]: following the pointers [nx] from [p] visits the addresses [l]
    and ends with a null pointer. *)

Fixpoint chain (nx : Z -> option Z) (p : Z) (l : list Z) : Prop :=
  match l with
  | [] => p = 0
  | x :: l => p = x /\ x <> 0 /\ exists n, nx x = Some n /\ chain nx n l
  end.

Lemma chain_ext nx nx' p l : (forall x, x ∈ l -> nx x = nx' x) -> chain nx p l -> chain nx' p l.
Proof.
  revert p. induction l as [|x l IH]; intros p H; [done|]. intros (-> & Hx & n & Hn & Hc).
  split; [done|]. split; [done|]. exists n. rewrite <- H by set_solver. split; [done|].
  apply IH; [|done]. intros y Hy. apply H. set_solver.
Qed.

Lemma chain_unique nx p l l' : chain nx p l -> chain nx p l' -> l = l'.
Proof.
  revert p l'. induction l as [|x l IH]; intros p [|y l'].
  - done.
  - intros -> (<- & Hy & _). done.
  - intros (-> & Hx & _) ->. done.
  - intros (-> & Hx & n & Hn & Hc) (<- & _ & n' & Hn' & Hc'). simplify_eq. f_equal. by eapply IH.
Qed.

Lemma chain_nonzero nx p l : chain nx p l -> p <> 0 ->
  exists n l', l = p :: l' /\ nx p = Some n /\ chain nx n l'.
Proof. destruct l as [|x l]; [done|]. intros (-> & _ & n & Hn & Hc) _. by exists n, l. Qed.

Lemma chain_suffix nx p l1 x l2 : chain nx p (l1 ++ x :: l2) -> chain nx x (x :: l2).
Proof.
  revert p. induction l1 as [|y l1 IH]; intros p; simpl.
  - intros (-> & Hx & n & Hn & Hc). eauto 10.
  - intros (_ & _ & n & _ & Hc). by eapply IH.
Qed.

Lemma chain_NoDup nx p l : chain nx p l -> NoDup l.
Proof.
  revert p. induction l as [|x l IH]; intros p Hc; [constructor|]. apply list.NoDup_cons.
  destruct Hc as (-> & Hx & n & Hn & Hc). split; [|by eapply IH].
  intros Hin. apply list_elem_of_split in Hin as (l1 & l2 & ->).
  pose proof (chain_suffix _ _ _ _ _ Hc) as Hs.
  assert (Hx' : chain nx x (x :: l1 ++ x :: l2)) by (simpl; eauto 10).
  pose proof (chain_unique _ _ _ _ Hs Hx') as E. apply (f_equal length) in E. simpl in E.
  rewrite length_app in E. simpl in E. lia.
Qed.

(** Taking [x] out: its predecessor [a] gets its next pointer. *)
Lemma chain_unlink nx nx' p l1 a x l2 n :
  chain nx p (l1 ++ a :: x :: l2) -> nx x = Some n -> nx' a = Some n ->
  (forall y, y <> a -> y ∈ l1 ++ l2 -> nx' y = nx y) ->
  chain nx' p (l1 ++ a :: l2).
Proof.
  intros Hc Hx Ha Hy. pose proof (chain_NoDup _ _ _ Hc) as Hnd. revert p Hc.
  induction l1 as [|z l1 IH]; intros p Hc; simpl in *.
  - destruct Hc as (-> & Ha0 & b & _ & (-> & Hx0 & n' & Hn' & Hc)). simplify_eq.
    split; [done|]. split; [done|]. exists n. split; [done|]. eapply chain_ext; [|exact Hc].
    intros y Hin. symmetry. apply Hy; [|done]. intros ->. apply list.NoDup_cons in Hnd as [Hnd _]. set_solver.
  - destruct Hc as (-> & Hz0 & b & Hb & Hc). apply list.NoDup_cons in Hnd as [Hz Hnd].
    split; [done|]. split; [done|]. exists b. rewrite Hy; [|set_solver|set_solver]. split; [done|].
    apply IH; [|done|done]. intros y Hya Hin. apply Hy; [done|set_solver].
Qed.

Lemma chain_next nx p l x n : chain nx p l -> x ∈ l -> nx x = Some n -> n = 0 \/ n ∈ l.
Proof.
  revert p. induction l as [|y l IH]; intros p Hc Hx Hn; [set_solver|].
  destruct Hc as (-> & _ & n' & Hn' & Hc). apply elem_of_cons in Hx as [->|Hx].
  - rewrite Hn in Hn'. injection Hn' as <-. destruct l as [|z l]; [by left|]. destruct Hc as (-> & _). set_solver.
  - destruct (IH n' Hc Hx Hn); [by left|set_solver].
Qed.
