(* ===== verification/Ioport.v ===== *)
(** * I/O port bitmaps ([src/kernel/ioport.c])

    [set_bitmap] and [check_bitmap] work on an array of 32-bit words; the
    pointer [bitmap_base] is a word index.  An access outside the array and a
    shift by a count outside [0..31] are undefined behaviour of the C code and
    are [None] here. *)

From S2P Require Import Prelude.
From Stdlib Require Import ZArith Lia.
From stdpp Require Import base list gmap numbers.
Local Open Scope Z_scope.
Local Open Scope cint_scope.

Module Ioport.

Definition IO_BITMAP_SIZE : Z := 32.

(** [mask = (~0 << low_index); if (length < 32) mask &= ~(~0 << length);] *)
Definition first_mask (low_index length : Z) : option Z :=
  let mask := u32 (~. 0 <<. low_index) in
  if length <? 32 then
    if length <? 0 then None
    else Some (mask .& u32 (~. (~. 0 <<. length)))
  else Some mask.

(** [if (new_value) *p |= mask; else *p &= ~mask;] *)
Definition update_word (bm : list Z) (p mask : Z) (new_value : bool) : option (list Z) :=
  w ← get bm p;
  put bm p (if new_value then w .| mask else w .& u32 (~. mask)).

(** [while (length >= 32) { *bitmap_base++ = mask; length -= 32; }] *)
Fixpoint fill_words (fuel : nat) (bm : list Z) (p length mask : Z)
  : option (list Z * Z * Z) :=
  match fuel with
  | O => None
  | S fuel =>
      if 32 <=? length then
        bm' ← put bm p mask;
        fill_words fuel bm' (p + 1) (length - 32) mask
      else Some (bm, p, length)
  end.

Definition set_bitmap (bm : list Z) (base extent : Z) (new_value : bool)
  : option (list Z) :=
  let p := base >>. 5 in
  let low_index := base .& 31 in
  let length := low_index + extent in
  '(bm, p, length) ←
    (if negb (low_index =? 0) then
       mask ← first_mask low_index length;
       bm ← update_word bm p mask new_value;
       Some (bm, p + 1, length - 32)
     else Some (bm, p, length));
  '(bm, p, length) ←
    fill_words (S (Z.to_nat length)) bm p length (if new_value then u32 (~. 0) else 0);
  if 0 <? length then
    update_word bm p (u32 (~. (~. 0 <<. length))) new_value
  else Some bm.

(** The [while] loop and the tail of [check_bitmap]. *)
Fixpoint check_words (fuel : nat) (bm : list Z) (p length : Z) : option Z :=
  match fuel with
  | O => None
  | S fuel =>
      if 32 <=? length then
        w ← get bm p;
        if negb (w =? 0) then Some 1
        else check_words fuel bm (p + 1) (length - 32)
      else if 0 <? length then
        w ← get bm p;
        if has w (u32 (~. (~. 0 <<. length))) then Some 1 else Some 0
      else Some 0
  end.

Definition check_bitmap (bm : list Z) (base extent : Z) : option Z :=
  let p := base >>. 5 in
  let low_index := base .& 31 in
  let length := low_index + extent in
  if negb (low_index =? 0) then
    mask ← first_mask low_index length;
    w ← get bm p;
    if has w mask then Some 1
    else check_words (S (Z.to_nat (length - 32))) bm (p + 1) (length - 32)
  else check_words (S (Z.to_nat length)) bm p length.

(** [sys_ioperm]: the arguments of [set_bitmap] are [short]s; the result pairs
    the return value with the task's new bitmap. *)
Definition sys_ioperm (suser : bool) (io_bitmap : list Z) (from num turn_on : Z)
  : option (Z * list Z) :=
  if u32 (from + num) <=? from then Some (- EINVAL, io_bitmap)
  else if IO_BITMAP_SIZE * 32 <? u32 (from + num) then Some (- EINVAL, io_bitmap)
  else if negb suser then Some (- EPERM, io_bitmap)
  else
    bm ← set_bitmap io_bitmap (s16 from) (s16 num) (turn_on =? 0);
    Some (0, bm).

(** [sys_iopl]: returns the error code and the new [eflags]. *)
Definition sys_iopl (suser : bool) (ebx eflags : Z) : Z * Z :=
  let level := u32 ebx in
  if 3 <? level then (- EINVAL, eflags)
  else if negb suser then (- EPERM, eflags)
  else (0, (eflags .& 0xffffcfff) .| (level <<. 12)).

Definition snarf_region (ioport_registrar : list Z) (from num : Z) : option (list Z) :=
  if IO_BITMAP_SIZE * 32 <? from then Some ioport_registrar
  else
    let num := if IO_BITMAP_SIZE * 32 <? u32 (from + num)
               then IO_BITMAP_SIZE * 32 - from else num in
    set_bitmap ioport_registrar (s16 from) (s16 num) true.

Definition check_region (ioport_registrar : list Z) (from num : Z) : option Z :=
  if IO_BITMAP_SIZE * 32 <? from then Some 0
  else
    let num := if IO_BITMAP_SIZE * 32 <? u32 (from + num)
               then IO_BITMAP_SIZE * 32 - from else num in
    check_bitmap ioport_registrar (s16 from) (s16 num).

(** [for (i = 1; i < ints[0]; i += 2) snarf_region(ints[i], ints[i+1]);]
    [ints] is the argument array, [ints[0]] the number of arguments. *)
Fixpoint reserve_loop (fuel : nat) (reg : list Z) (ints : list Z) (i : Z)
  : option (list Z) :=
  match fuel with
  | O => None
  | S fuel =>
      n ← get ints 0;
      if i <? n then
        a ← get ints i;
        b ← get ints (i + 1);
        reg ← snarf_region reg (u32 a) (u32 b);
        reserve_loop fuel reg ints (i + 2)
      else Some reg
  end.

Definition reserve_setup (reg : list Z) (ints : list Z) : option (list Z) :=
  reserve_loop (S (length ints)) reg ints 1.

(** ** Reading a bitmap as a set of port numbers *)

(** Bit [i] of the array: bit [i mod 32] of word [i / 32]. *)
Definition bit (bm : list Z) (i : Z) : bool :=
  match get bm (i / 32) with
  | Some w => Z.testbit w (i mod 32)
  | None => false
  end.

Definition words_ok (bm : list Z) : Prop := Forall (fun w => 0 <= w < 2 ^ 32) bm.

Lemma words_ok_repeat w n : 0 <= w < 2 ^ 32 -> words_ok (repeat w n).
Proof. intros H. induction n; simpl; constructor; auto. Qed.

(** [bm'] is [bm] with the bits of [lo..hi-1] set to [v]. *)
Definition range_set (bm bm' : list Z) (lo hi : Z) (v : bool) : Prop :=
  length bm' = length bm /\ words_ok bm' /\
  forall i, 0 <= i -> bit bm' i = if (lo <=? i) && (i <? hi) then v else bit bm i.

Lemma range_set_refl bm lo hi v : words_ok bm -> hi <= lo -> range_set bm bm lo hi v.
Proof.
  intros Hw Hle. split; [done|]. split; [done|]. intros i Hi.
  destruct (Z.leb_spec lo i), (Z.ltb_spec i hi); simpl; lia || done.
Qed.

Lemma range_set_trans a b c lo mid hi v :
  lo <= mid -> mid <= hi ->
  range_set a b lo mid v -> range_set b c mid hi v -> range_set a c lo hi v.
Proof.
  intros H1 H2 (L1 & W1 & B1) (L2 & W2 & B2).
  split; [congruence|]. split; [done|]. intros i Hi. rewrite B2, B1 by done.
  destruct (Z.leb_spec mid i), (Z.ltb_spec i hi), (Z.leb_spec lo i), (Z.ltb_spec i mid);
    simpl; lia || done.
Qed.

Lemma words_ok_get bm i w : words_ok bm -> get bm i = Some w -> 0 <= w < 2 ^ 32.
Proof.
  intros Hw. unfold get. case_bool; [done|]. intros Hl.
  exact (Forall_lookup_1 _ _ _ _ Hw Hl).
Qed.

Lemma put_words_ok bm bm' i w :
  words_ok bm -> 0 <= w < 2 ^ 32 -> put bm i w = Some bm' -> words_ok bm'.
Proof.
  intros Hw Hr. unfold put. case_bool; [done|]. intros [= <-].
  by apply Forall_insert.
Qed.

(** Writing one word changes exactly the bits of that word. *)
Lemma put_bit bm bm' p w i :
  put bm p w = Some bm' ->
  bit bm' i = if i / 32 =? p then Z.testbit w (i mod 32) else bit bm i.
Proof.
  intros H. unfold bit. rewrite (get_put _ _ _ _ _ H).
  by destruct (Z.eqb_spec (i / 32) p).
Qed.

(** A write of the mask [lo..hi-1] of word [p] sets that range of the map. *)
Lemma put_mask bm p w new lo hi v :
  words_ok bm -> get bm p = Some w -> 0 <= new < 2 ^ 32 -> 0 <= lo -> hi <= 32 ->
  (forall j, 0 <= j < 32 ->
     Z.testbit new j = if (lo <=? j) && (j <? hi) then v else Z.testbit w j) ->
  exists bm', put bm p new = Some bm' /\ range_set bm bm' (32 * p + lo) (32 * p + hi) v.
Proof.
  intros Hw Hg Hn Hlo Hhi Hbits. pose proof (get_Some_range _ _ _ Hg) as Hr.
  rewrite put_in_range by done. eexists; split; [done|].
  assert (Hput := put_in_range bm p new Hr).
  split; [apply length_insert|]. split; [by eapply put_words_ok|].
  intros i Hi. rewrite (put_bit _ _ _ _ _ Hput).
  pose proof (Z.div_mod i 32 ltac:(lia)) as Hdm.
  pose proof (Z.mod_pos_bound i 32 ltac:(lia)) as Hm.
  destruct (Z.eqb_spec (i / 32) p) as [E|E].
  - rewrite Hbits by lia. unfold bit. rewrite E, Hg.
    replace (32 * p + lo <=? i) with (lo <=? i mod 32) by lia.
    by replace (i <? 32 * p + hi) with (i mod 32 <? hi) by lia.
  - destruct (Z.leb_spec (32 * p + lo) i), (Z.ltb_spec i (32 * p + hi)); simpl; lia || done.
Qed.

Lemma land_u32_range a b : 0 <= a < 2 ^ 32 -> 0 <= b -> 0 <= a .& b < 2 ^ 32.
Proof.
  intros Ha Hb. assert (Hnn : 0 <= a .& b) by (rewrite Z.land_nonneg; lia).
  split; [done|].
  replace (a .& b) with (u32 (a .& b)); [apply u32_range|].
  apply Z.bits_inj'. intros i Hi. rewrite testbit_u32, Z.land_spec.
  destruct (Z.ltb_spec i 32); [done|]. by rewrite (bits_above_u32 a) by lia.
Qed.

Lemma lor_u32_range a b : 0 <= a < 2 ^ 32 -> 0 <= b < 2 ^ 32 -> 0 <= a .| b < 2 ^ 32.
Proof.
  intros Ha Hb. replace (a .| b) with (u32 (a .| b)); [apply u32_range|].
  apply Z.bits_inj'. intros i Hi. rewrite testbit_u32, Z.lor_spec.
  destruct (Z.ltb_spec i 32); [done|]. by rewrite !bits_above_u32 by lia.
Qed.

Lemma update_word_range bm p mask lo hi v :
  words_ok bm -> 0 <= p < Z.of_nat (length bm) -> 0 <= mask < 2 ^ 32 ->
  0 <= lo -> hi <= 32 ->
  (forall j, 0 <= j < 32 -> Z.testbit mask j = (lo <=? j) && (j <? hi)) ->
  exists bm', update_word bm p mask v = Some bm' /\
    range_set bm bm' (32 * p + lo) (32 * p + hi) v.
Proof.
  intros Hw Hp Hm Hlo Hhi Hbits. destruct (get_in_range bm p Hp) as [w Hg].
  pose proof (words_ok_get _ _ _ Hw Hg). unfold update_word. rewrite Hg. simpl.
  apply (put_mask bm p w); try done.
  - pose proof (u32_range (~. mask)).
    destruct v; [by apply lor_u32_range | apply land_u32_range; lia].
  - intros j Hj. destruct v.
    + rewrite Z.lor_spec, Hbits by done. by destruct ((lo <=? j) && (j <? hi)), (Z.testbit w j).
    + rewrite Z.land_spec, testbit_u32, Z.lnot_spec, Hbits by lia.
      destruct (Z.ltb_spec j 32); [|lia]. by destruct ((lo <=? j) && (j <? hi)), (Z.testbit w j).
Qed.

(** ** Masks *)

Lemma tail_mask_bits n j :
  0 <= n -> 0 <= j < 32 -> Z.testbit (u32 (~. (~. 0 <<. n))) j = (0 <=? j) && (j <? n).
Proof.
  intros Hn Hj. rewrite testbit_u32, Z.lnot_spec, testbit_ones_above by lia.
  destruct (Z.ltb_spec j 32), (Z.leb_spec 0 j), (Z.leb_spec n j), (Z.ltb_spec j n);
    simpl; lia || done.
Qed.

Lemma first_mask_spec low len :
  0 <= low < 32 -> 0 <= len ->
  exists m, first_mask low len = Some m /\ 0 <= m < 2 ^ 32 /\
    forall j, 0 <= j < 32 -> Z.testbit m j = (low <=? j) && (j <? Z.min 32 len).
Proof.
  intros Hl Hn. unfold first_mask.
  assert (Hh : forall j, 0 <= j < 32 -> Z.testbit (u32 (~. 0 <<. low)) j = (low <=? j)).
  { intros j Hj. rewrite testbit_u32, testbit_ones_above by lia.
    destruct (Z.ltb_spec j 32); [done|lia]. }
  destruct (Z.ltb_spec len 32), (Z.ltb_spec len 0); try lia.
  - eexists; split; [done|]. split.
    { pose proof (u32_range (~. 0 <<. low)). pose proof (u32_range (~. (~. 0 <<. len))).
      apply land_u32_range; lia. }
    intros j Hj. rewrite Z.land_spec, Hh, tail_mask_bits by lia.
    rewrite Z.min_r by lia. by destruct (Z.leb_spec 0 j); [|lia].
  - eexists; split; [done|]. split; [apply u32_range|]. intros j Hj. rewrite Hh by done.
    rewrite Z.min_l by lia. destruct (Z.ltb_spec j 32); [|lia]. by destruct (low <=? j).
Qed.

Lemma split_base base :
  0 <= base -> base = 32 * (base >>. 5) + (base .& 31) /\ 0 <= base .& 31 < 32 /\ 0 <= base >>. 5.
Proof.
  intros H. rewrite Z.shiftr_div_pow2 by lia. change (2 ^ 5) with 32.
  change 31 with (Z.ones 5). rewrite Z.land_ones by lia. change (2 ^ 5) with 32.
  pose proof (Z.div_mod base 32). pose proof (Z.mod_pos_bound base 32).
  pose proof (Z.div_pos base 32). lia.
Qed.

(** ** The loops *)

Lemma fill_words_spec fuel bm p len v :
  words_ok bm -> 0 <= p -> (Z.to_nat len < fuel)%nat -> 32 * p + len <= 32 * Z.of_nat (length bm) ->
  exists bm' p' len',
    fill_words fuel bm p len (if v : bool then u32 (~. 0) else 0) = Some (bm', p', len') /\
    len' < 32 /\ 32 * p' + len' = 32 * p + len /\ p <= p' /\ (0 <= len -> 0 <= len') /\
    (len < 0 -> p' = p) /\
    range_set bm bm' (32 * p) (32 * p') v.
Proof.
  revert bm p len. induction fuel as [|fuel IH]; intros bm p len Hw Hp Hf Hb; simpl.
  - exists bm, p, len. exfalso. lia.
  - destruct (Z.leb_spec 32 len).
    + destruct (get_in_range bm p) as [w Hg]; [lia|].
      destruct (put_mask bm p w (if v then u32 (~. 0) else 0) 0 32 v) as (bm1 & Hput & Hrs);
        try done; try lia.
      { destruct v; [apply u32_range|lia]. }
      { intros j Hj. destruct (Z.leb_spec 0 j), (Z.ltb_spec j 32); try lia. simpl.
        destruct v; [|apply Z.bits_0]. rewrite testbit_u32, Z.lnot_spec, Z.bits_0 by lia.
        by destruct (Z.ltb_spec j 32); [|lia]. }
      rewrite Hput. simpl. destruct Hrs as (HL & HW & HB).
      destruct (IH bm1 (p + 1) (len - 32)) as (bm' & p' & len' & -> & ? & ? & ? & ? & ? & Hrs');
        try done; try lia.
      exists bm', p', len'. split; [done|]. repeat (split; [lia|]).
      eapply (range_set_trans _ bm1 _ _ (32 * (p + 1))); try lia; [|done].
      replace (32 * (p + 1)) with (32 * p + 32) by lia.
      replace (32 * p) with (32 * p + 0) at 1 by lia. done.
    + exists bm, p, len. repeat (split; [done || lia|]). by apply range_set_refl; [|lia].
Qed.

(** [some_bit bm lo hi]: a bit of [lo..hi-1] is set. *)
Definition some_bit (bm : list Z) (lo hi : Z) : Prop :=
  exists i, lo <= i < hi /\ bit bm i = true.

Lemma some_bit_split bm lo mid hi :
  lo <= mid -> mid <= hi ->
  some_bit bm lo hi <-> some_bit bm lo mid \/ some_bit bm mid hi.
Proof.
  intros H1 H2. split.
  - intros (i & Hi & Hb). destruct (Z.lt_ge_cases i mid); [left|right]; exists i; split; lia || done.
  - intros [(i & Hi & Hb)|(i & Hi & Hb)]; exists i; split; lia || done.
Qed.

Lemma some_bit_word bm p w lo hi :
  get bm p = Some w -> 0 <= lo -> hi <= 32 ->
  some_bit bm (32 * p + lo) (32 * p + hi) <->
  exists j, lo <= j < hi /\ Z.testbit w j = true.
Proof.
  intros Hg Hlo Hhi. unfold some_bit, bit. split.
  - intros (i & Hi & Hb). exists (i - 32 * p).
    replace (i / 32) with p in Hb by (apply Z.div_unique with (i - 32 * p); lia).
    rewrite Hg in Hb. split; [lia|].
    by replace (i - 32 * p) with (i mod 32) by (symmetry; apply Z.mod_unique with p; lia).
  - intros (j & Hj & Hb). exists (32 * p + j). split; [lia|].
    replace ((32 * p + j) / 32) with p by (apply Z.div_unique with j; lia).
    rewrite Hg. by replace ((32 * p + j) mod 32) with j by (apply Z.mod_unique with p; lia).
Qed.

Lemma has_bits w m :
  0 <= m < 2 ^ 32 ->
  has w m = true <-> exists j, 0 <= j < 32 /\ Z.testbit m j = true /\ Z.testbit w j = true.
Proof.
  intros Hm. unfold has. rewrite negb_true_iff, Z.eqb_neq. split.
  - intros Hne.
    destruct (decide (Exists (fun j => Z.testbit m j = true /\ Z.testbit w j = true) (seqZ 0 32)))
      as [He|He].
    + apply Exists_exists in He as (j & Hin%list_elem_of_In & Hj). apply elem_of_seqZ in Hin.
      exists j. split; [lia|done].
    + exfalso. apply Hne, Z.bits_inj'. intros i Hi. rewrite Z.bits_0, Z.land_spec.
      destruct (Z.lt_ge_cases i 32).
      * destruct (Z.testbit w i) eqn:Ew, (Z.testbit m i) eqn:Em; try done.
        exfalso. apply He, Exists_exists. exists i. split; [|done].
        apply list_elem_of_In, elem_of_seqZ. lia.
      * rewrite (bits_above_u32 m) by lia. apply andb_false_r.
  - intros (j & Hj & Hmj & Hwj) E. apply (f_equal (fun z => Z.testbit z j)) in E.
    by rewrite Z.land_spec, Hmj, Hwj, Z.bits_0 in E.
Qed.

Lemma has_mask_some_bit bm p w m lo hi :
  get bm p = Some w -> 0 <= m < 2 ^ 32 -> 0 <= lo -> hi <= 32 ->
  (forall j, 0 <= j < 32 -> Z.testbit m j = (lo <=? j) && (j <? hi)) ->
  has w m = true <-> some_bit bm (32 * p + lo) (32 * p + hi).
Proof.
  intros Hg Hm Hlo Hhi Hbits. rewrite has_bits, some_bit_word by eauto. split.
  - intros (j & Hj & Hmj & Hwj). rewrite Hbits in Hmj by lia. exists j. split; [lia|done].
  - intros (j & Hj & Hwj). exists j. rewrite Hbits by lia. split; [lia|]. split; [lia|done].
Qed.

(** The result of a check: 1 exactly when some bit of the range is set. *)
Definition check_result (bm : list Z) (lo hi : Z) (r : option Z) : Prop :=
  (r = Some 1 /\ some_bit bm lo hi) \/ (r = Some 0 /\ ~ some_bit bm lo hi).

Lemma check_words_spec fuel bm p len :
  words_ok bm -> 0 <= p -> (Z.to_nat len < fuel)%nat ->
  32 * p + len <= 32 * Z.of_nat (length bm) ->
  check_result bm (32 * p) (32 * p + len) (check_words fuel bm p len).
Proof.
  revert p len. induction fuel as [|fuel IH]; intros p len Hw Hp Hf Hb; [lia|]. simpl.
  destruct (Z.leb_spec 32 len).
  - destruct (get_in_range bm p) as [w Hg]; [lia|]. rewrite Hg. simpl.
    pose proof (words_ok_get _ _ _ Hw Hg) as Hr.
    assert (Hone : w <> 0 <-> some_bit bm (32 * p) (32 * p + 32)).
    { replace (32 * p) with (32 * p + 0) at 1 by lia. rewrite some_bit_word by (done || lia).
      split.
      - intros Hne. destruct (proj1 (has_bits (Z.ones 32) w Hr)) as (j & Hj & ? & ?); [|by exists j].
        unfold has. rewrite Z.land_comm, Z.land_ones, Z.mod_small by lia. lia.
      - intros (j & Hj & Hbj) ->. by rewrite Z.bits_0 in Hbj. }
    destruct (Z.eqb_spec w 0); simpl.
    + replace (32 * p + len) with (32 * (p + 1) + (len - 32)) by lia.
      destruct (IH (p + 1) (len - 32)) as [(-> & Hs)|(-> & Hs)]; try done; try lia.
      * left. split; [done|]. apply (some_bit_split _ _ (32 * (p + 1))); [lia|lia|]. by right.
      * right. split; [done|]. rewrite (some_bit_split _ _ (32 * (p + 1))) by lia.
        replace (32 * (p + 1)) with (32 * p + 32) at 1 by lia. tauto.
    + left. split; [done|]. apply (some_bit_split _ _ (32 * p + 32)); [lia|lia|]. left. tauto.
  - destruct (Z.ltb_spec 0 len).
    + destruct (get_in_range bm p) as [w Hg]; [lia|]. rewrite Hg. simpl.
      pose proof (has_mask_some_bit bm p w (u32 (~. (~. 0 <<. len))) 0 len Hg) as Hh.
      rewrite Z.add_0_r in Hh.
      destruct (has w _) eqn:E.
      * left. split; [done|]. apply Hh; try done; try lia; [apply u32_range|].
        intros j Hj. by rewrite tail_mask_bits by lia.
      * right. split; [done|]. rewrite <- Hh; try done; try lia; [apply u32_range|].
        intros j Hj. by rewrite tail_mask_bits by lia.
    + right. split; [done|]. intros (i & Hi & _). lia.
Qed.

Lemma set_bitmap_range bm base extent v :
  words_ok bm -> 0 <= base -> 0 <= extent ->
  base + extent <= 32 * Z.of_nat (length bm) ->
  exists bm', set_bitmap bm base extent v = Some bm' /\
    range_set bm bm' base (base + extent) v.
Proof.
  intros Hw Hb He Hlen. unfold set_bitmap.
  destruct (split_base base Hb) as (Hbase & Hlow & Hp).
  set (p := base >>. 5) in *. set (low := base .& 31) in *.
  (* the first, partial, word *)
  assert (exists bm1 p1 len1,
    (if negb (low =? 0) then
       mask ← first_mask low (low + extent);
       bm ← update_word bm p mask v;
       Some (bm, p + 1, low + extent - 32)
     else Some (bm, p, low + extent)) = Some (bm1, p1, len1) /\
    0 <= p1 /\ 32 * p1 + len1 = base + extent /\ base <= 32 * p1 /\
    range_set bm bm1 base (Z.min (32 * p1) (base + extent)) v) as (bm1 & p1 & len1 & -> & ?&?&?& Hrs).
  { destruct (Z.eqb_spec low 0); simpl.
    - exists bm, p, (low + extent). split; [done|]. repeat (split; [lia|]).
      apply range_set_refl; [done|lia].
    - destruct (first_mask_spec low (low + extent)) as (m & -> & Hm & Hbits); [lia..|]. simpl.
      destruct (update_word_range bm p m low (Z.min 32 (low + extent)) v) as (bm1 & -> & Hrs);
        try done; try lia. simpl.
      exists bm1, (p + 1), (low + extent - 32). split; [done|]. repeat (split; [lia|]).
      replace (Z.min (32 * (p + 1)) (base + extent)) with (32 * p + Z.min 32 (low + extent)) by lia.
      by rewrite Hbase at 1. }
  cbn [mbind option_bind]. pose proof Hrs as (HL & HW & _).
  destruct (fill_words_spec (S (Z.to_nat len1)) bm1 p1 len1 v)
    as (bm2 & p2 & len2 & -> & ? & ? & ? & ? & ? & Hrs2); try done; try lia.
  cbn [mbind option_bind].
  assert (Hrs1 : range_set bm bm2 base (Z.min (32 * p2) (base + extent)) v).
  { eapply (range_set_trans _ bm1 _ _ (Z.min (32 * p1) (base + extent))); [lia|lia|done|].
    destruct Hrs2 as (? & ? & HB). split; [done|]. split; [done|]. intros i Hi. rewrite HB by done.
    destruct (Z.leb_spec (32 * p1) i), (Z.ltb_spec i (32 * p2)),
      (Z.leb_spec (Z.min (32 * p1) (base + extent)) i),
      (Z.ltb_spec i (Z.min (32 * p2) (base + extent))); simpl; lia || done. }
  destruct (Z.ltb_spec 0 len2).
  - destruct Hrs1 as (HL1 & HW1 & HB1).
    destruct (update_word_range bm2 p2 (u32 (~. (~. 0 <<. len2))) 0 len2 v) as (bm3 & -> & Hrs3);
      try done; try lia.
    { apply u32_range. }
    { intros j Hj. by apply tail_mask_bits; [lia|]. }
    exists bm3. split; [done|].
    eapply (range_set_trans _ bm2 _ _ (32 * p2)); [lia|lia| |].
    + by replace (32 * p2) with (Z.min (32 * p2) (base + extent)) by lia.
    + by replace (32 * p2) with (32 * p2 + 0) by lia; replace (base + extent) with (32 * p2 + len2) by lia.
  - exists bm2. split; [done|]. by rewrite Z.min_r in Hrs1 by lia.
Qed.

Lemma check_bitmap_result bm base extent :
  words_ok bm -> 0 <= base -> 0 <= extent ->
  base + extent <= 32 * Z.of_nat (length bm) ->
  check_result bm base (base + extent) (check_bitmap bm base extent).
Proof.
  intros Hw Hb He Hlen. unfold check_bitmap.
  destruct (split_base base Hb) as (Hbase & Hlow & Hp).
  set (p := base >>. 5) in *. set (low := base .& 31) in *.
  destruct (Z.eqb_spec low 0); cbn [negb].
  - pose proof (check_words_spec (S (Z.to_nat (low + extent))) bm p (low + extent)) as H.
    replace (32 * p + (low + extent)) with (base + extent) in H by lia.
    replace (32 * p) with base in H by lia. apply H; try done; lia.
  - destruct (first_mask_spec low (low + extent)) as (m & -> & Hm & Hbits); [lia..|].
    cbn [mbind option_bind].
    destruct (get_in_range bm p) as [w Hg]; [lia|]. rewrite Hg. cbn [mbind option_bind].
    pose proof (has_mask_some_bit bm p w m low (Z.min 32 (low + extent)) Hg Hm) as Hh.
    rewrite <- Hbase in Hh.
    set (mid := 32 * p + Z.min 32 (low + extent)) in *.
    assert (Hsp := some_bit_split bm base mid (base + extent) ltac:(lia) ltac:(lia)).
    destruct (has w m).
    + left. split; [done|]. apply Hsp. left. apply Hh; [lia|lia|done|done].
    + assert (~ some_bit bm base mid) by (rewrite <- Hh; [done|lia|lia|done]).
      destruct (Z.lt_ge_cases (low + extent) 32).
      * right. replace (check_words _ _ _ _) with (Some 0).
        2: { simpl. destruct (Z.leb_spec 32 (low + extent - 32)); [lia|].
             by destruct (Z.ltb_spec 0 (low + extent - 32)); [lia|]. }
        split; [done|]. by replace (base + extent) with mid by lia.
      * pose proof (check_words_spec (S (Z.to_nat (low + extent - 32))) bm (p + 1) (low + extent - 32)) as Hc.
        replace (32 * (p + 1) + (low + extent - 32)) with (base + extent) in Hc by lia.
        replace (32 * (p + 1)) with mid in Hc by lia.
        destruct Hc as [[-> ?]|[-> ?]]; try done; try lia; [left|right]; (split; [done|]); tauto.
Qed.

(** The registrar range that a driver's [from, num] denotes after clamping. *)
Definition region_end (from num : Z) : Z := Z.min 1024 (from + num).

Lemma snarf_region_range reg from num :
  words_ok reg -> length reg = 32%nat -> 0 <= from -> 0 <= num -> from + num < 2 ^ 32 ->
  exists reg', snarf_region reg from num = Some reg' /\
    range_set reg reg' from (region_end from num) true.
Proof.
  intros Hw Hl Hf Hn Hs. unfold snarf_region, region_end, IO_BITMAP_SIZE.
  rewrite (u32_small (from + num)) by lia. destruct (Z.ltb_spec (32 * 32) from).
  - exists reg. split; [done|]. by apply range_set_refl; [|lia].
  - destruct (Z.ltb_spec (32 * 32) (from + num)); rewrite !s16_small by lia.
    + destruct (set_bitmap_range reg from (32 * 32 - from) true) as (reg' & -> & Hr); try done; try lia.
      exists reg'. split; [done|]. by replace (Z.min 1024 (from + num)) with (from + (32 * 32 - from)) by lia.
    + destruct (set_bitmap_range reg from num true) as (reg' & -> & Hr); try done; try lia.
      exists reg'. split; [done|]. by replace (Z.min 1024 (from + num)) with (from + num) by lia.
Qed.

Lemma check_region_result reg from num :
  words_ok reg -> length reg = 32%nat -> 0 <= from -> 0 <= num -> from + num < 2 ^ 32 ->
  check_result reg from (region_end from num) (check_region reg from num).
Proof.
  intros Hw Hl Hf Hn Hs. unfold check_region, region_end, IO_BITMAP_SIZE.
  rewrite (u32_small (from + num)) by lia. destruct (Z.ltb_spec (32 * 32) from).
  - right. split; [done|]. intros (i & Hi & _). lia.
  - destruct (Z.ltb_spec (32 * 32) (from + num)); rewrite !s16_small by lia.
    + replace (Z.min 1024 (from + num)) with (from + (32 * 32 - from)) by lia.
      apply check_bitmap_result; try done; lia.
    + replace (Z.min 1024 (from + num)) with (from + num) by lia.
      apply check_bitmap_result; try done; lia.
Qed.

(** ** Properties *)

(** [sys_ioperm] on the 33-word bitmap of a task never reads or writes outside
    it; it answers [-EINVAL] exactly for an empty, wrapping or too high range,
    [-EPERM] for the others unless the caller is the super-user, leaving the
    bitmap as it was, and otherwise returns 0 having set the bits of the ports
    [from .. from+num-1] to "denied" (1) or "allowed" (0) and no other bit. *)
Theorem sys_ioperm_spec suser bm from num turn_on :
  0 <= from < 2 ^ 32 -> 0 <= num < 2 ^ 32 -> words_ok bm -> length bm = 33%nat ->
  exists r bm', sys_ioperm suser bm from num turn_on = Some (r, bm') /\
    if (0 <? num) && (from + num <=? 1024) then
      if suser : bool then r = 0 /\ range_set bm bm' from (from + num) (turn_on =? 0)
      else r = - EPERM /\ bm' = bm
    else r = - EINVAL /\ bm' = bm.
Proof.
  intros Hf Hn Hw Hl. unfold sys_ioperm, IO_BITMAP_SIZE.
  assert (Hwrap : u32 (from + num) = from + num \/ u32 (from + num) = from + num - 2 ^ 32).
  { unfold u32. destruct (Z.lt_ge_cases (from + num) (2 ^ 32)).
    - left. apply Z.mod_small. lia.
    - right. symmetry. apply Z.mod_unique with 1; lia. }
  pose proof (u32_range (from + num)).
  destruct (Z.leb_spec (u32 (from + num)) from), (Z.ltb_spec 0 num), (Z.leb_spec (from + num) 1024);
    simpl; try lia; try (eexists _, _; split; [done|]; done);
    destruct (Z.ltb_spec (32 * 32) (u32 (from + num))); try lia;
    try (eexists _, _; split; [done|]; done).
  destruct suser; simpl; [|eexists _, _; split; [done|]; done].
  rewrite !s16_small by lia.
  destruct (set_bitmap_range bm from num (turn_on =? 0)) as (bm' & -> & Hr); try done; try lia.
  eexists _, _; split; [done|]; done.
Qed.

Lemma sys_ioperm_spec_witness :
  exists r bm', sys_ioperm true (repeat (2 ^ 32 - 1) 33) 0x3f0 8 1 = Some (r, bm') /\
    r = 0 /\ range_set (repeat (2 ^ 32 - 1) 33) bm' 0x3f0 (0x3f0 + 8) false.
Proof.
  apply (sys_ioperm_spec true (repeat (2 ^ 32 - 1) 33) 0x3f0 8 1); try lia; [|done].
  apply words_ok_repeat. lia.
Defined.

(** after a driver claims [from, num] with [snarf_region], [check_region] of any
    range answers 1 exactly when it answered 1 before or when the two ranges
    (clamped to the 1024 ports of the registrar) intersect, and 0 otherwise. *)
Theorem snarf_then_check reg from num from' num' :
  words_ok reg -> length reg = 32%nat ->
  0 <= from -> 0 <= num -> from + num < 2 ^ 32 ->
  0 <= from' -> 0 <= num' -> from' + num' < 2 ^ 32 ->
  exists reg', snarf_region reg from num = Some reg' /\
    check_region reg' from' num' =
      if decide (check_region reg from' num' = Some 1 \/
                 Z.max from from' < Z.min (region_end from num) (region_end from' num'))
      then Some 1 else Some 0.
Proof.
  intros Hw Hl Hf Hn Hs Hf' Hn' Hs'.
  destruct (snarf_region_range reg from num) as (reg' & Hsn & HL & HW & HB); try done.
  exists reg'. split; [done|].
  pose proof (check_region_result reg from' num' Hw Hl Hf' Hn' Hs') as H0.
  assert (Hex : some_bit reg' from' (region_end from' num') <->
    some_bit reg from' (region_end from' num') \/
    Z.max from from' < Z.min (region_end from num) (region_end from' num')).
  { split.
    - intros (i & Hi & Hb). rewrite HB in Hb by lia.
      destruct (Z.leb_spec from i), (Z.ltb_spec i (region_end from num)); simpl in Hb;
        try (left; by exists i); right; lia.
    - intros [(i & Hi & Hb)|Hlt].
      + exists i. split; [done|]. rewrite HB, Hb by lia. by destruct (_ && _).
      + exists (Z.max from from'). split; [lia|]. rewrite HB by lia.
        by rewrite (proj2 (Z.leb_le _ _)), (proj2 (Z.ltb_lt _ _)) by lia. }
  destruct (check_region_result reg' from' num' HW ltac:(lia) Hf' Hn' Hs') as [(-> & Hs1)|(-> & Hs1)];
    destruct H0 as [(-> & H0)|(-> & H0)]; case_decide; naive_solver.
Qed.

Lemma snarf_then_check_witness :
  exists reg', snarf_region (repeat 0 32) 0x1f0 8 = Some reg' /\
    check_region reg' 0x1f7 1 = Some 1 /\ check_region reg' 0x1f8 8 = Some 0.
Proof.
  destruct (snarf_then_check (repeat 0 32) 0x1f0 8 0x1f7 1) as (reg' & E & H); try lia; try done.
  { apply words_ok_repeat. lia. }
  exists reg'. split; [done|]. split.
  - rewrite H. by rewrite decide_True by (right; vm_compute; done).
  - vm_compute in E. injection E as <-. by vm_compute.
Defined.

(** [sys_iopl] lets only the super-user change the I/O privilege level, rejects
    levels above 3, and changes nothing of [eflags] but its bits 12 and 13. *)
Theorem sys_iopl_spec suser ebx eflags :
  0 <= eflags < 2 ^ 32 ->
  let '(r, eflags') := sys_iopl suser ebx eflags in
  if 3 <? u32 ebx then r = - EINVAL /\ eflags' = eflags
  else if suser : bool then
    r = 0 /\ 0 <= eflags' < 2 ^ 32 /\ Z.land (Z.shiftr eflags' 12) 3 = u32 ebx /\
    forall i, 0 <= i -> i <> 12 -> i <> 13 -> Z.testbit eflags' i = Z.testbit eflags i
  else r = - EPERM /\ eflags' = eflags.
Proof.
  intros He. unfold sys_iopl. pose proof (u32_range ebx). set (l := u32 ebx) in *.
  destruct (Z.ltb_spec 3 l); [done|]. destruct suser; simpl; [|done]. split; [done|].
  assert (Hl : l = 0 \/ l = 1 \/ l = 2 \/ l = 3) by lia.
  assert (Hmask : forall i, 0 <= i -> Z.testbit 0xffffcfff i = (i <? 32) && negb ((i =? 12) || (i =? 13))).
  { intros i Hi. destruct (Z.ltb_spec i 32) as [Hlt|Hge]; [|by apply (bits_above_u32 0xffffcfff); lia].
    rewrite <- (Z2Nat.id i) by lia. assert (Z.to_nat i < 32)%nat as Hlt' by lia. revert Hlt'.
    generalize (Z.to_nat i). intros n Hn. do 32 (destruct n as [|n]; [reflexivity|]). lia. }
  assert (Hlev : forall i, 0 <= i -> Z.testbit (l <<. 12) i = (12 <=? i) && Z.testbit l (i - 12)).
  { intros i Hi. destruct (Z.leb_spec 12 i); simpl.
    - by rewrite Z.shiftl_spec by lia.
    - by rewrite Z.shiftl_spec_low by lia. }
  assert (Hl2 : forall j, 2 <= j -> Z.testbit l j = false).
  { intros j Hj. destruct (Z.eq_dec l 0) as [->|]; [apply Z.bits_0|].
    apply Z.bits_above_log2; [lia|]. apply Z.log2_lt_pow2; [lia|].
    pose proof (Z.pow_le_mono_r 2 2 j). lia. }
  split; [|split].
  - apply lor_u32_range; [by apply land_u32_range|].
    destruct Hl as [->|[->|[->| ->]]]; split; done.
  - apply Z.bits_inj'. intros i Hi. rewrite Z.land_spec, Z.shiftr_spec, Z.lor_spec, Z.land_spec by lia.
    rewrite Hmask, Hlev by lia. replace (i + 12 - 12) with i by lia.
    destruct (Z.lt_ge_cases i 2).
    + assert (i = 0 \/ i = 1) as [->| ->] by lia; simpl; by rewrite !andb_false_r, andb_true_r.
    + rewrite (Hl2 i) by lia. change 3 with (Z.ones 2). rewrite Z.ones_spec_high by lia.
      apply andb_false_r.
  - intros i Hi H12 H13. rewrite Z.lor_spec, Z.land_spec, Hmask, Hlev by lia.
    destruct (Z.eqb_spec i 12), (Z.eqb_spec i 13); try lia. simpl. rewrite andb_true_r.
    replace (Z.testbit l (i - 12)) with false.
    2: { destruct (Z.lt_ge_cases i 12); [by rewrite Z.testbit_neg_r by lia|]. by rewrite Hl2 by lia. }
    rewrite andb_false_r, orb_false_r. destruct (Z.ltb_spec i 32); [by rewrite andb_true_r|].
    by rewrite (bits_above_u32 eflags), andb_false_l by lia.
Qed.

Lemma sys_iopl_spec_witness :
  let '(r, eflags') := sys_iopl true 3 0x202 in
  r = 0 /\ 0 <= eflags' < 2 ^ 32 /\ Z.land (Z.shiftr eflags' 12) 3 = 3 /\
  forall i, 0 <= i -> i <> 12 -> i <> 13 -> Z.testbit eflags' i = Z.testbit 0x202 i.
Proof. apply (sys_iopl_spec true 3 0x202). lia. Defined.

End Ioport.
