(* ===== verification/Locks.v ===== *)
(** * POSIX record locks ([src/fs/locks.c])

    The entries of [file_lock_table] are nodes with an identity ([nid], the
    index in the table) and a value ([lk]).  The [fl_next] links are the order
    of the lists: the locks of one inode ([i_flock]) and the free list.  A
    pointer to an entry is its identity; [struct file_lock **before] is a cut of
    the list in the nodes before the cursor and the nodes from it on.  A pointer
    to the caller's own [struct file_lock] (a local variable of [fcntl_setlk])
    is [Local]; [lock_it] redirects [caller] to an entry of the list ([Node]).
    A [panic] is [None].  [wake_up] appends the queue's tasks to a log. *)

From S2P Require Import Prelude.
From Stdlib Require Import ZArith Lia Sorted.
From stdpp Require Import base list gmap numbers.
Local Open Scope Z_scope.

Module Locks.

Definition OFFSET_MAX : Z := 0x7fffffff.
Definition NR_FILE_LOCKS : nat := 64.
Definition NR_OPEN : Z := 256.

Definition F_RDLCK : Z := 0.
Definition F_WRLCK : Z := 1.
Definition F_UNLCK : Z := 2.
Definition F_EXLCK : Z := 4.
Definition F_SHLCK : Z := 8.
Definition F_SETLK : Z := 6.
Definition F_SETLKW : Z := 7.

(** [fl_owner] is a task ([None] is NULL); [fl_wait] the tasks of the queue. *)
Record file_lock := mk_lock {
  fl_owner : option Z;
  fl_fd : Z;
  fl_wait : list Z;
  fl_type : Z;
  fl_whence : Z;
  fl_start : Z;
  fl_end : Z
}.

Record node := mk_node { nid : nat; lk : file_lock }.

Record flock := mk_flock {
  l_type : Z; l_whence : Z; l_start : Z; l_len : Z; l_pid : Z
}.

(** The fields of [struct file] and of its inode that this file reads. *)
Record file := mk_file {
  f_mode : Z;
  f_pos : Z;
  f_inode : option (Z * Z)  (* i_mode, i_size; None is a NULL inode *)
}.

(** The locks of the inode, the free list, the log of woken tasks. *)
Record lstate := mk_lstate {
  i_flock : list node;
  free_list : list node;
  woken : list Z
}.

Definition set_range (s e : Z) (fl : file_lock) : file_lock :=
  mk_lock (fl_owner fl) (fl_fd fl) (fl_wait fl) (fl_type fl) (fl_whence fl) s e.
Definition set_start (s : Z) (fl : file_lock) : file_lock := set_range s (fl_end fl) fl.
Definition set_end (e : Z) (fl : file_lock) : file_lock := set_range (fl_start fl) e fl.
Definition set_type (t : Z) (fl : file_lock) : file_lock :=
  mk_lock (fl_owner fl) (fl_fd fl) (fl_wait fl) t (fl_whence fl) (fl_start fl) (fl_end fl).
Definition set_owner (o : option Z) (fl : file_lock) : file_lock :=
  mk_lock o (fl_fd fl) (fl_wait fl) (fl_type fl) (fl_whence fl) (fl_start fl) (fl_end fl).

(** Write through a pointer to an entry of a list. *)
Definition upd (p : nat) (f : file_lock -> file_lock) (l : list node) : list node :=
  map (fun n => if Nat.eqb (nid n) p then mk_node (nid n) (f (lk n)) else n) l.

(** [fcntl_init_locks]: every entry is on the free list, in table order. *)
Definition fcntl_init_locks : list node :=
  map (fun i => mk_node i (mk_lock None 0 [] 0 0 0 0)) (seq 0 NR_FILE_LOCKS).

Definition overlap (fl1 fl2 : file_lock) : bool :=
  (fl_start fl2 <=? fl_end fl1) && (fl_start fl1 <=? fl_end fl2).

Definition same_owner (a b : file_lock) : bool :=
  bool_decide (fl_owner a = fl_owner b) && (fl_fd a =? fl_fd b).

Definition conflict (caller_fl sys_fl : file_lock) : bool :=
  if same_owner caller_fl sys_fl then false
  else if negb (overlap caller_fl sys_fl) then false
  else if fl_type caller_fl =? F_RDLCK then negb (fl_type sys_fl =? F_RDLCK)
  else if fl_type caller_fl =? F_WRLCK then true
  else false.

Definition S_ISREG (m : Z) : bool := Z.land m 0xf000 =? 0x8000.

(** [copy_flock]: [None] is the result 0 (rejected). *)
Definition copy_flock (current : Z) (filp : file) (l : flock) (fd : Z) : option file_lock :=
  match f_inode filp with
  | None => None
  | Some (i_mode, i_size) =>
      if negb (S_ISREG i_mode) then None
      else if negb (l_type l =? F_UNLCK) && negb (l_type l =? F_RDLCK)
              && negb (l_type l =? F_WRLCK) && negb (l_type l =? F_SHLCK)
              && negb (l_type l =? F_EXLCK) then None
      else
        start0 ← (if l_whence l =? 0 then Some 0
                  else if l_whence l =? 1 then Some (f_pos filp)
                  else if l_whence l =? 2 then Some i_size
                  else None);
        let start := s32 (start0 + l_start l) in
        if (start <? 0) || (l_len l <? 0) then None
        else
          let fin := s32 (s32 (start + l_len l) - 1) in
          let fin := if (l_len l =? 0) || (fin <? 0) then OFFSET_MAX else fin in
          Some (mk_lock (Some current) fd [] (l_type l) 0 start fin)
  end.

(** [alloc_lock(pos, fl, fd)] takes the head of the free list; the list is given
    from [pos] on.  Result: [None] panics, [Some None] is NULL. *)
Definition alloc_lock (current : Z) (pos : list node) (fl : file_lock) (fd : Z) (free : list node)
  : option (option (node * list node * list node)) :=
  match free with
  | [] => Some None
  | tmp :: free' =>
      match fl_owner (lk tmp) with
      | Some _ => None
      | None =>
          let n := mk_node (nid tmp)
                     (mk_lock (Some current) fd [] (fl_type fl) (fl_whence fl)
                              (fl_start fl) (fl_end fl)) in
          Some (Some (n, n :: pos, free'))
      end
  end.

(** [free_lock(before)]: the node at the cursor goes to the head of the free
    list; the list from the cursor on, the free list and the log are returned. *)
Definition free_lock (n : node) (free : list node) (wk : list Z) : option (list node * list Z) :=
  match fl_owner (lk n) with
  | None => None
  | Some _ => Some (mk_node (nid n) (set_owner None (lk n)) :: free, wk ++ fl_wait (lk n))
  end.

(** The [caller] variable of [lock_it]. *)
Inductive cref :=
| Local (fl : file_lock)
| Node (p : nat).

Definition deref (c : cref) (l : list node) : option file_lock :=
  match c with
  | Local fl => Some fl
  | Node p => lk <$> List.find (fun n => Nat.eqb (nid n) p) l
  end.

(** The variables of the second [while] loop of [lock_it] when it ends. *)
Record scan_res := mk_scan {
  s_caller : cref;
  s_pre : list node;     (* the nodes before the cursor *)
  s_rest : list node;    (* the nodes from the cursor on *)
  s_left : option nat;
  s_right : option nat;
  s_added : bool;
  s_free : list node;
  s_woken : list Z
}.

(** "Look up all locks of this owner": one iteration per node of [rest]. *)
Fixpoint scan (c : cref) (pre rest : list node) (left : option nat) (added : bool)
    (free : list node) (wk : list Z) : option scan_res :=
  match rest with
  | [] => Some (mk_scan c pre [] left None added free wk)
  | n :: tl =>
      cv ← deref c pre;
      let fl := lk n in
      let stop right := Some (mk_scan c pre rest left right added free wk) in
      if negb (same_owner cv fl) then stop None
      else if fl_type cv =? fl_type fl then
        if fl_end fl <? s32 (fl_start cv - 1) then
          scan c (pre ++ [n]) tl left added free wk
        else if s32 (fl_end cv + 1) <? fl_start fl then stop None
        else
          let st := if fl_start cv <? fl_start fl then fl_start cv else fl_start fl in
          let en := if fl_end fl <? fl_end cv then fl_end cv else fl_end fl in
          let fl' := set_range st en fl in
          if added then
            '(free', wk') ← free_lock (mk_node (nid n) fl') free wk;
            match c with
            | Local v => scan (Local (set_range st en v)) pre tl left added free' wk'
            | Node p => scan c (upd p (set_range st en) pre) tl left added free' wk'
            end
          else scan (Node (nid n)) (pre ++ [mk_node (nid n) fl']) tl left true free wk
      else if fl_end fl <? fl_start cv then
        scan c (pre ++ [n]) tl left added free wk
      else if fl_end cv <? fl_start fl then stop None
      else
        let added := if fl_type cv =? F_UNLCK then true else added in
        let left := if fl_start fl <? fl_start cv then Some (nid n) else left in
        if fl_end cv <? fl_end fl then
          Some (mk_scan c pre rest left (Some (nid n)) added free wk)
        else if fl_start cv <=? fl_start fl then
          if added then
            '(free', wk') ← free_lock n free wk;
            scan c pre tl left added free' wk'
          else
            let fl' := set_type (fl_type cv) (set_range (fl_start cv) (fl_end cv) fl) in
            scan (Node (nid n)) (pre ++ [mk_node (nid n) fl']) tl left true free
              (wk ++ fl_wait fl)
        else scan c (pre ++ [n]) tl left added free wk
  end.

(** "Find the first old lock with the same owner as the new lock." *)
Fixpoint find_owner (c : file_lock) (pre rest : list node) : list node * list node :=
  match rest with
  | [] => (pre, [])
  | n :: tl => if same_owner c (lk n) then (pre, rest) else find_owner c (pre ++ [n]) tl
  end.

(** The splitting at the end of [lock_it]: [caller] is the inserted lock. *)
Definition split_locks (current : Z) (cv : file_lock) (l_pre l_rest : list node)
    (left right : option nat) (added : bool) (fd : Z) (free : list node) (wk : list Z)
  : option (Z * lstate) :=
  match right with
  | None =>
      let l := l_pre ++ l_rest in
      let l := match left with Some p => upd p (set_end (s32 (fl_start cv - 1))) l | None => l end in
      Some (0, mk_lstate l free wk)
  | Some r =>
      '(ok, l_rest, left, free, wk) ←
        (if bool_decide (left = right) then
           rv ← deref (Node r) l_rest;
           res ← alloc_lock current l_rest rv fd free;
           match res with
           | None =>
               if added then Some (false, l_rest, left, free, wk)
               else
                 match l_rest with
                 | n :: tl =>
                     '(free', wk') ← free_lock n free wk;
                     Some (false, tl, left, free', wk')
                 | [] => None
                 end
           | Some (n, l_rest', free') => Some (true, l_rest', Some (nid n), free', wk)
           end
         else Some (true, l_rest, left, free, wk));
      if negb ok then Some (- ENOLCK, mk_lstate (l_pre ++ l_rest) free wk)
      else
        let l := upd r (set_start (s32 (fl_end cv + 1))) (l_pre ++ l_rest) in
        let l := match left with Some p => upd p (set_end (s32 (fl_start cv - 1))) l | None => l end in
        Some (0, mk_lstate l free wk)
  end.

Definition lock_it (current : Z) (s : lstate) (caller : file_lock) (fd : Z)
  : option (Z * lstate) :=
  let '(pre, rest) := find_owner caller [] (i_flock s) in
  r ← scan (Local caller) pre rest None false (free_list s) (woken s);
  cv ← deref (s_caller r) (s_pre r);
  let out l free := mk_lstate l free (s_woken r) in
  if s_added r then
    split_locks current cv (s_pre r) (s_rest r) (s_left r) (s_right r) true fd (s_free r) (s_woken r)
  else if fl_type cv =? F_UNLCK then
    Some (- EINVAL, out (s_pre r ++ s_rest r) (s_free r))
  else
    res ← alloc_lock current (s_rest r) cv fd (s_free r);
    match res with
    | None => Some (- ENOLCK, out (s_pre r ++ s_rest r) (s_free r))
    | Some (n, l_rest, free') =>
        split_locks current (lk n) (s_pre r) l_rest (s_left r) (s_right r) false fd free' (s_woken r)
    end.

(** What a call of [fcntl_setlk] does: return a value in a new state, or sleep
    on the wait queue of a lock (and then run again from [repeat]). *)
Inductive setlk_res :=
| Done (r : Z) (s : lstate)
| Sleep (on : nat).

(** The [switch (file_lock.fl_type)] of [fcntl_setlk]: the converted lock, or
    [None] for [-EBADF]. *)
Definition check_mode (filp : file) (fl : file_lock) : option file_lock :=
  if fl_type fl =? F_RDLCK then (if has (f_mode filp) 1 then Some fl else None)
  else if fl_type fl =? F_WRLCK then (if has (f_mode filp) 2 then Some fl else None)
  else if fl_type fl =? F_SHLCK then
    (if has (f_mode filp) 3 then Some (set_type F_RDLCK fl) else None)
  else if fl_type fl =? F_EXLCK then
    (if has (f_mode filp) 3 then Some (set_type F_WRLCK fl) else None)
  else Some fl.

(** [fcntl_setlk]; [verify] is what [verify_area] answers for the user's
    [struct flock], [sig_pending] is [current->signal & ~current->blocked]. *)
Definition fcntl_setlk (current : Z) (sig_pending : bool) (verify : Z) (filp : option file)
    (s : lstate) (fd cmd : Z) (l : flock) : option setlk_res :=
  match (if NR_OPEN <=? fd then None else filp) with
  | None => Some (Done (- EBADF) s)
  | Some filp =>
      if negb (verify =? 0) then Some (Done verify s)
      else
        match copy_flock current filp l fd with
        | None => Some (Done (- EINVAL) s)
        | Some file_lock =>
            match check_mode filp file_lock with
            | None => Some (Done (- EBADF) s)
            | Some file_lock =>
                match (if fl_type file_lock =? F_UNLCK then None
                       else List.find (fun n => conflict file_lock (lk n)) (i_flock s)) with
                | Some n =>
                    if cmd =? F_SETLKW then
                      if sig_pending then Some (Done (- ERESTARTSYS) s)
                      else Some (Sleep (nid n))
                    else Some (Done (- EAGAIN) s)
                | None =>
                    '(r, s') ← lock_it current s file_lock fd;
                    Some (Done r s')
                end
            end
        end
  end.

(** [fcntl_getlk]: the return value and the [struct flock] written back to user
    space ([None]: nothing written).  [pid_of] reads [fl_owner->pid]. *)
Definition fcntl_getlk (pid_of : Z -> Z) (current : Z) (verify : Z) (filp : option file)
    (s : lstate) (fd : Z) (l : flock) : Z * option flock :=
  match (if NR_OPEN <=? fd then None else filp) with
  | None => (- EBADF, None)
  | Some filp =>
      if negb (verify =? 0) then (verify, None)
      else if l_type l =? F_UNLCK then (- EINVAL, None)
      else
        match copy_flock current filp l fd with
        | None => (- EINVAL, None)
        | Some file_lock =>
            match List.find (fun n => conflict file_lock (lk n)) (i_flock s) with
            | Some n =>
                let fl := lk n in
                (0, Some (mk_flock (fl_type fl) (fl_whence fl) (fl_start fl)
                            (if fl_end fl =? OFFSET_MAX then 0
                             else s32 (s32 (fl_end fl - fl_start fl) + 1))
                            (match fl_owner fl with Some o => pid_of o | None => 0 end)))
            | None => (0, Some (mk_flock F_UNLCK (l_whence l) (l_start l) (l_len l) (l_pid l)))
            end
        end
  end.

(** [fcntl_remove_locks]: free the run of locks of [task, fd] at the cursor. *)
Fixpoint free_run (task : Z) (fd : Z) (rest : list node) (free : list node) (wk : list Z)
  : option (list node * list node * list Z) :=
  match rest with
  | n :: tl =>
      if bool_decide (fl_owner (lk n) = Some task) && (fl_fd (lk n) =? fd) then
        '(free', wk') ← free_lock n free wk;
        free_run task fd tl free' wk'
      else Some (rest, free, wk)
  | [] => Some ([], free, wk)
  end.

Definition fcntl_remove_locks (task : Z) (fd : Z) (s : lstate) : option lstate :=
  let key := mk_lock (Some task) fd [] 0 0 0 0 in
  let '(pre, rest) := find_owner key [] (i_flock s) in
  '(rest', free, wk) ← free_run task fd rest (free_list s) (woken s);
  Some (mk_lstate (pre ++ rest') free wk).

(** ** Views of a lock list *)

Definition nstart (n : node) : Z := fl_start (lk n).
Definition nend (n : node) : Z := fl_end (lk n).
Definition ntype (n : node) : Z := fl_type (lk n).
Definition ids (l : list node) : list nat := map nid l.

(** The list records a lock of type [t] on offset [x]. *)
Definition hin (l : list node) (x t : Z) : Prop :=
  exists n, n ∈ l /\ nstart n <= x <= nend n /\ ntype n = t.

(** ... for the owner [o] through its descriptor [fd]. *)
Definition held (l : list node) (o : option Z) (fd x t : Z) : Prop :=
  exists n, n ∈ l /\ fl_owner (lk n) = o /\ fl_fd (lk n) = fd /\
    nstart n <= x <= nend n /\ ntype n = t.

Definition node_ok (n : node) : Prop :=
  0 <= nstart n /\ nstart n <= nend n /\ nend n <= OFFSET_MAX /\
  (ntype n = F_RDLCK \/ ntype n = F_WRLCK).

(** Sorted by address, without overlaps. *)
Definition sorted (l : list node) : Prop := StronglySorted (fun a b => nend a < nstart b) l.

(** A lock list is sorted by owner (the locks of an owner are consecutive), then
    by address. *)
Definition own (c : file_lock) (n : node) : Prop := same_owner c (lk n) = true.
Definition not_own (c : file_lock) (n : node) : Prop := same_owner c (lk n) = false.

Definition grouped (c : file_lock) (l : list node) : Prop :=
  exists A G B, l = A ++ G ++ B /\ Forall (not_own c) A /\ Forall (own c) G /\
    Forall (not_own c) B /\ sorted G /\ (G = [] -> B = []).

Definition wf (s : lstate) : Prop :=
  (forall c, grouped c (i_flock s)) /\
  Forall (fun n => node_ok n /\ is_Some (fl_owner (lk n))) (i_flock s) /\
  Forall (fun n => fl_owner (lk n) = None) (free_list s) /\
  NoDup (ids (i_flock s ++ free_list s)).

(** ** Lists of nodes *)

Lemma same_owner_iff a b :
  same_owner a b = true <-> fl_owner a = fl_owner b /\ fl_fd a = fl_fd b.
Proof.
  unfold same_owner. rewrite andb_true_iff, bool_decide_eq_true, Z.eqb_eq. done.
Qed.

Lemma ids_app l1 l2 : ids (l1 ++ l2) = ids l1 ++ ids l2.
Proof. apply map_app. Qed.

(** Push [ids] through a list expression and associate it to the right. *)
Ltac ids_norm := repeat first [rewrite ids_app | rewrite <- app_assoc | progress simpl].

Lemma hin_app l1 l2 x t : hin (l1 ++ l2) x t <-> hin l1 x t \/ hin l2 x t.
Proof. unfold hin. setoid_rewrite elem_of_app. naive_solver. Qed.

Lemma hin_cons n l x t :
  hin (n :: l) x t <-> (nstart n <= x <= nend n /\ ntype n = t) \/ hin l x t.
Proof. unfold hin. setoid_rewrite elem_of_cons. naive_solver. Qed.

Lemma hin_nil x t : hin [] x t <-> False.
Proof. unfold hin. set_solver. Qed.

Lemma upd_app p f l1 l2 : upd p f (l1 ++ l2) = upd p f l1 ++ upd p f l2.
Proof. apply map_app. Qed.

Lemma upd_notin p f l : p ∉ ids l -> upd p f l = l.
Proof.
  induction l as [|n l IH]; simpl; [done|]. intros [Hne Hni]%not_elem_of_cons.
  rewrite IH by done. destruct (Nat.eqb_spec (nid n) p); [congruence|done].
Qed.

Lemma upd_one p f n : nid n = p -> upd p f [n] = [mk_node p (f (lk n))].
Proof. intros <-. simpl. by rewrite Nat.eqb_refl. Qed.

Lemma find_skip p l n : p ∉ ids l -> nid n = p ->
  forall tl, List.find (fun n => Nat.eqb (nid n) p) (l ++ n :: tl) = Some n.
Proof.
  intros Hni Hn tl. induction l as [|m l IH]; simpl.
  - by rewrite Hn, Nat.eqb_refl.
  - simpl in Hni. apply not_elem_of_cons in Hni as [Hne Hni].
    destruct (Nat.eqb_spec (nid m) p); [congruence|]. by apply IH.
Qed.

Lemma sorted_app l1 l2 :
  sorted (l1 ++ l2) <->
  sorted l1 /\ sorted l2 /\ forall a b, a ∈ l1 -> b ∈ l2 -> nend a < nstart b.
Proof.
  unfold sorted. induction l1 as [|n l1 IH]; simpl.
  - split; [|tauto]. intros H. split; [constructor|]. split; [done|]. set_solver.
  - split.
    + inversion 1 as [|? ? Hs Hf]; subst. apply IH in Hs as (H1 & H2 & H3).
      apply Forall_app in Hf as [Hf1 Hf2]. split; [by constructor|]. split; [done|].
      intros a b [->|Ha]%elem_of_cons Hb; [|by apply H3]. by rewrite list.Forall_forall in Hf2; apply Hf2.
    + intros (Hs1 & Hs2 & H3). inversion Hs1 as [|? ? Hs Hf]; subst. constructor.
      * apply IH. split; [done|]. split; [done|]. intros a b Ha Hb. apply H3; set_solver.
      * apply Forall_app. split; [done|]. apply list.Forall_forall. intros b Hb. apply H3; set_solver.
Qed.

Lemma sorted_cons n l :
  sorted (n :: l) <-> sorted l /\ forall b, b ∈ l -> nend n < nstart b.
Proof.
  unfold sorted. split.
  - inversion 1 as [|? ? Hs Hf]; subst. split; [done|]. by apply list.Forall_forall.
  - intros [Hs Hf]. constructor; [done|]. by apply list.Forall_forall.
Qed.

(** ** The loop of [lock_it]

    [G0] are the locks of the caller's owner, [A] the nodes before them and [B]
    the nodes after them.  The nodes passed by the cursor are [P0 ++ L ++ V]:
    locks below the new one, the lock that overlaps its beginning (the one
    [left] points to, if any), and the list entry that now is the new lock (if
    any); [G] is what is left to look at.  The new lock has grown to [vs..ve]. *)

Section Scan.

Context (c0 : file_lock) (A B G0 : list node) (ids0 : list nat)
        (free0 : list node) (wk0 : list Z).

Let t0 := fl_type c0.

(** What the locks of this owner have to be at the end. *)
Definition target (G : list node) (x t : Z) : Prop :=
  (fl_start c0 <= x <= fl_end c0 /\ t = t0 /\ t0 <> F_UNLCK) \/
  (~ (fl_start c0 <= x <= fl_end c0) /\ hin G x t).

Definition unchanged (P0 L G free : list node) (wk : list Z) : Prop :=
  P0 ++ L ++ G = G0 /\ free = free0 /\ wk = wk0.

Definition below (vs : Z) (G : list node) : Prop := forall n, n ∈ G -> vs < nstart n.

Definition left_ok (L : list node) (left : option nat) (vs ve : Z) : Prop :=
  match L with
  | [] => left = None
  | [l] => left = Some (nid l) /\ nstart l < vs <= nend l /\ nend l <= ve /\ ntype l <> t0
  | _ => False
  end.

Inductive mode (same abs : Prop) : cref -> list node -> bool -> Z -> Z -> Prop :=
| mode_search :
    same -> mode same abs (Local c0) [] false (fl_start c0) (fl_end c0)
| mode_unlock :
    t0 = F_UNLCK -> same \/ abs -> mode same abs (Local c0) [] true (fl_start c0) (fl_end c0)
| mode_node v :
    t0 <> F_UNLCK -> abs -> own c0 v -> ntype v = t0 ->
    mode same abs (Node (nid v)) [v] true (nstart v) (nend v).

Record inv (cr : cref) (P0 L V G : list node) (left : option nat) (added : bool)
    (free : list node) (wk : list Z) (vs ve : Z) : Prop := mk_inv {
  inv_own : Forall (own c0) (P0 ++ L ++ G);
  inv_ok : Forall node_ok (P0 ++ L ++ G);
  inv_sorted : sorted (P0 ++ L ++ G);
  inv_P0 : forall n, n ∈ P0 -> nend n < vs;
  inv_left : left_ok L left vs ve;
  inv_range : 0 <= vs /\ vs <= ve /\ ve <= OFFSET_MAX;
  inv_mode : mode (unchanged P0 L G free wk) (below vs G) cr V added vs ve;
  inv_sem : forall x t, target G0 x t <->
    (vs <= x <= ve /\ t = t0 /\ t0 <> F_UNLCK) \/ (~ (vs <= x <= ve) /\ hin (P0 ++ L ++ G) x t);
  inv_ovf : ve < OFFSET_MAX \/ forall n, n ∈ G -> ntype n <> t0;
  inv_ids : ids (A ++ P0 ++ L ++ V ++ G ++ B ++ free) ≡ₚ ids0;
  inv_free : Forall (fun n => fl_owner (lk n) = None) free;
  inv_unlock : t0 = F_UNLCK -> added = false -> L = []
}.

Context (HA : Forall (not_own c0) A) (HB : Forall (not_own c0) B) (Hids0 : NoDup ids0)
        (Hown0 : is_Some (fl_owner c0)).

Lemma inv_caller cr P0 L V G left added free wk vs ve :
  inv cr P0 L V G left added free wk vs ve ->
  exists cv, deref cr (A ++ P0 ++ L ++ V) = Some cv /\ same_owner c0 cv = true /\
    fl_type cv = t0 /\ fl_start cv = vs /\ fl_end cv = ve.
Proof.
  intros I. pose proof (inv_ids _ _ _ _ _ _ _ _ _ _ _ I) as Hids.
  destruct (inv_mode _ _ _ _ _ _ _ _ _ _ _ I) as [| |v Hu Ha Ho Ht].
  1-2: exists c0; split; [done|]; split; [by apply same_owner_iff|done].
  exists (lk v). split; [|done]. simpl. rewrite !app_assoc.
  rewrite find_skip; [done| |done].
  assert (Hnd : NoDup (ids (A ++ P0 ++ L ++ [v] ++ G ++ B ++ free))) by (by rewrite Hids).
  rewrite !app_assoc in Hnd. rewrite <- !app_assoc in Hnd.
  replace (A ++ P0 ++ L ++ [v] ++ G ++ B ++ free)
    with (((A ++ P0) ++ L) ++ v :: (G ++ B ++ free)) in Hnd by (rewrite <- !app_assoc; done).
  rewrite ids_app in Hnd. apply list.NoDup_app in Hnd as (_ & Hd & _).
  intros Hin. apply (Hd _ Hin). simpl. left.
Qed.

(** The owner test of the loop depends on the owner of the caller only. *)
Lemma same_owner_trans cv fl : same_owner c0 cv = true -> same_owner cv fl = same_owner c0 fl.
Proof.
  intros [H1 H2]%same_owner_iff. unfold same_owner. by rewrite H1, H2.
Qed.

Lemma hin_middle P0 L n G x t :
  hin (P0 ++ L ++ n :: G) x t <->
  hin (P0 ++ L ++ G) x t \/ (nstart n <= x <= nend n /\ ntype n = t).
Proof. rewrite !hin_app, hin_cons. tauto. Qed.

Lemma Forall_middle (P : node -> Prop) P0 L n G :
  Forall P (P0 ++ L ++ n :: G) <-> P n /\ Forall P (P0 ++ L ++ G).
Proof. rewrite !Forall_app, Forall_cons_iff. tauto. Qed.

(** The node at the cursor: well formed, after the nodes passed, before the rest. *)
Lemma inv_head cr P0 L V n G left added free wk vs ve :
  inv cr P0 L V (n :: G) left added free wk vs ve ->
  own c0 n /\ node_ok n /\
  (forall a, a ∈ P0 \/ a ∈ L -> nend a < nstart n) /\
  (forall b, b ∈ G -> nend n < nstart b) /\
  (nstart n <= vs -> L = [] /\ V = [] /\ left = None) /\
  sorted (P0 ++ L ++ G).
Proof.
  intros I. pose proof (inv_own _ _ _ _ _ _ _ _ _ _ _ I) as Ho.
  pose proof (inv_ok _ _ _ _ _ _ _ _ _ _ _ I) as Hk.
  pose proof (inv_sorted _ _ _ _ _ _ _ _ _ _ _ I) as Hs.
  pose proof (inv_left _ _ _ _ _ _ _ _ _ _ _ I) as Hl.
  apply Forall_middle in Ho as [Ho _]. apply Forall_middle in Hk as [Hk _].
  rewrite !sorted_app, sorted_cons in Hs. destruct Hs as (H1 & (H2 & (H3 & H4) & H5) & H6).
  split; [done|]. split; [done|].
  assert (Hlow : forall a, a ∈ P0 \/ a ∈ L -> nend a < nstart n).
  { intros a [Ha|Ha]; [apply H6|apply H5]; set_solver. }
  split; [done|]. split; [done|]. split.
  - intros Hle. assert (L = [] /\ left = None) as [-> ->].
    { destruct L as [|l [|? ?]]; simpl in Hl; [done| |done].
      destruct Hl as (_ & Hl & _). specialize (Hlow l). set_solver by lia. }
    split; [done|]. split; [|done].
    destruct (inv_mode _ _ _ _ _ _ _ _ _ _ _ I) as [| |v ? Hb]; try done.
    specialize (Hb n ltac:(left)). lia.
  - rewrite !sorted_app. split; [done|]. split; [|set_solver].
    split; [done|]. split; [done|]. set_solver.
Qed.

Lemma inv_target_drop cr P0 L V n G left added free wk vs ve :
  inv cr P0 L V (n :: G) left added free wk vs ve ->
  vs <= nstart n -> nend n <= ve ->
  forall x t, target G0 x t <->
    (vs <= x <= ve /\ t = t0 /\ t0 <> F_UNLCK) \/ (~ (vs <= x <= ve) /\ hin (P0 ++ L ++ G) x t).
Proof.
  intros I H1 H2 x t. rewrite (inv_sem _ _ _ _ _ _ _ _ _ _ _ I), hin_middle.
  intuition lia.
Qed.

(** A lock that ends below the new one is passed. *)
Lemma inv_pass cr P0 L V n G left added free wk vs ve :
  inv cr P0 L V (n :: G) left added free wk vs ve -> nend n < vs ->
  L = [] /\ V = [] /\ inv cr (P0 ++ [n]) [] [] G left added free wk vs ve.
Proof.
  intros I Hlt. destruct (inv_head _ _ _ _ _ _ _ _ _ _ _ _ I) as (Ho & Hk & Hlow & Hhi & Hle & _).
  destruct Hle as (-> & -> & ->); [unfold node_ok in Hk; lia|].
  split; [done|]. split; [done|]. destruct I as [I1 I2 I3 I4 I5 I6 I7 I8 I9 I10 I11 I12].
  simpl in *. constructor; simpl; rewrite <- ?app_assoc; try done.
  - intros a [Ha|Ha]%elem_of_app; [by apply I4|]. by apply list_elem_of_singleton in Ha as ->.
  - inversion I7 as [Hm|? Hm|]; subst; constructor; try done.
    + unfold unchanged in *. simpl in *. by rewrite <- app_assoc.
    + unfold unchanged, below in *. simpl in *. rewrite <- app_assoc. set_solver.
  - set_solver.
Qed.

(** A lock that overlaps the beginning of the new one becomes [left]. *)
Lemma inv_overlap_left cr P0 L V n G left added free wk vs ve :
  inv cr P0 L V (n :: G) left added free wk vs ve ->
  nstart n < vs -> vs <= nend n -> nend n <= ve -> ntype n <> t0 ->
  L = [] /\ V = [] /\
  inv cr P0 [n] [] G (Some (nid n)) (if t0 =? F_UNLCK then true else added) free wk vs ve.
Proof.
  intros I H1 H2 H3 H4.
  destruct (inv_head _ _ _ _ _ _ _ _ _ _ _ _ I) as (Ho & Hk & Hlow & Hhi & Hle & _).
  destruct Hle as (-> & -> & ->); [lia|].
  split; [done|]. split; [done|]. destruct I as [I1 I2 I3 I4 I5 I6 I7 I8 I9 I10 I11 I12].
  simpl in *. constructor; simpl; try done.
  - assert (Hb : below vs G) by (intros b Hb; specialize (Hhi b Hb); lia).
    unfold t0 in *. destruct (Z.eqb_spec (fl_type c0) F_UNLCK);
      inversion I7; subst; constructor; tauto || done.
  - set_solver.
  - by intros ->.
Qed.

Lemma below_tail cr P0 L V n G left added free wk vs ve v :
  inv cr P0 L V (n :: G) left added free wk vs ve -> v <= nend n -> below v G.
Proof.
  intros I Hv b Hb.
  destruct (inv_head _ _ _ _ _ _ _ _ _ _ _ _ I) as (_ & _ & _ & Hhi & _).
  specialize (Hhi b Hb). lia.
Qed.

Lemma left_ok_grow L left vs ve ve' :
  left_ok L left vs ve -> ve <= ve' -> left_ok L left vs ve'.
Proof. destruct L as [|l [|? ?]]; simpl; intros; [done|intuition lia|done]. Qed.

(** A lock of another type that the new one covers is freed, or, when the new
    lock has no list entry yet, becomes it. *)
Lemma inv_absorb cr P0 L V n G left added free wk wk' vs ve :
  inv cr P0 L V (n :: G) left added free wk vs ve ->
  (if t0 =? F_UNLCK then true else added) = true ->
  vs <= nstart n -> nend n <= ve -> ntype n <> t0 ->
  inv cr P0 L V G left true (mk_node (nid n) (set_owner None (lk n)) :: free) wk' vs ve.
Proof.
  intros I Had H1 H2 H3.
  destruct (inv_head _ _ _ _ _ _ _ _ _ _ _ _ I) as (Ho & Hk & _ & _ & _ & Hs).
  pose proof (inv_target_drop _ _ _ _ _ _ _ _ _ _ _ _ I H1 H2) as Ht.
  assert (Hb : below vs G) by (eapply below_tail; [done|unfold node_ok in Hk; lia]).
  destruct I as [I1 I2 I3 I4 I5 I6 I7 I8 I9 I10 I11 I12].
  constructor; try done.
  - by apply Forall_middle in I1 as [_ ?].
  - by apply Forall_middle in I2 as [_ ?].
  - unfold t0 in *. destruct (Z.eqb_spec (fl_type c0) F_UNLCK);
      inversion I7; subst; try congruence; constructor; try done; by right.
  - set_solver.
  - rewrite <- I10. rewrite !ids_app. simpl. solve_Permutation.
  - by constructor.
Qed.

Lemma inv_replace P0 L V n G left free wk wk' vs ve cv :
  inv (Local c0) P0 L V (n :: G) left false free wk vs ve ->
  t0 <> F_UNLCK -> fl_type cv = t0 ->
  vs <= nstart n -> nend n <= ve -> ntype n <> t0 ->
  inv (Node (nid n)) P0 L [mk_node (nid n) (set_type (fl_type cv) (set_range vs ve (lk n)))] G
    left true free wk' vs ve.
Proof.
  intros I Hu Hcv H1 H2 H3.
  destruct (inv_head _ _ _ _ _ _ _ _ _ _ _ _ I) as (Ho & Hk & _ & _ & _ & Hs).
  pose proof (inv_target_drop _ _ _ _ _ _ _ _ _ _ _ _ I H1 H2) as Ht.
  assert (Hb : below vs G) by (eapply below_tail; [done|unfold node_ok in Hk; lia]).
  destruct I as [I1 I2 I3 I4 I5 I6 I7 I8 I9 I10 I11 I12].
  constructor; try done.
  - by apply Forall_middle in I1 as [_ ?].
  - by apply Forall_middle in I2 as [_ ?].
  - apply (mode_node _ _ (mk_node (nid n) (set_type (fl_type cv) (set_range vs ve (lk n))))); done.
  - set_solver.
  - inversion I7; subst. rewrite <- I10. rewrite !ids_app. simpl. done.
Qed.

(** A lock of the same type that overlaps the new one or is adjacent to it. *)
Lemma inv_merge_facts cr P0 L V n G left added free wk vs ve st en :
  inv cr P0 L V (n :: G) left added free wk vs ve ->
  ntype n = t0 -> vs - 1 <= nend n -> nstart n <= ve + 1 ->
  st = (if vs <? nstart n then vs else nstart n) ->
  en = (if nend n <? ve then ve else nend n) ->
  t0 <> F_UNLCK /\ below st G /\ (forall a, a ∈ P0 -> nend a < st) /\ left_ok L left st en /\
  (0 <= st /\ st <= en /\ en <= OFFSET_MAX) /\
  (en < OFFSET_MAX \/ forall a, a ∈ G -> ntype a <> t0) /\
  forall x t, target G0 x t <->
    (st <= x <= en /\ t = t0 /\ t0 <> F_UNLCK) \/ (~ (st <= x <= en) /\ hin (P0 ++ L ++ G) x t).
Proof.
  intros I Hty H1 H2 -> ->.
  destruct (inv_head _ _ _ _ _ _ _ _ _ _ _ _ I) as (Ho & Hk & Hlow & Hhi & Hle & Hs).
  assert (Hu : t0 <> F_UNLCK).
  { destruct Hk as (_ & _ & _ & Hk). unfold F_RDLCK, F_WRLCK, F_UNLCK in *. lia. }
  pose proof (inv_P0 _ _ _ _ _ _ _ _ _ _ _ I) as HP0.
  pose proof (inv_left _ _ _ _ _ _ _ _ _ _ _ I) as Hl.
  pose proof (inv_range _ _ _ _ _ _ _ _ _ _ _ I) as Hr.
  pose proof (inv_ok _ _ _ _ _ _ _ _ _ _ _ I) as Hok. apply Forall_middle in Hok as [_ Hok].
  rewrite list.Forall_forall in Hok.
  pose proof (inv_ovf _ _ _ _ _ _ _ _ _ _ _ I) as Hovf.
  split; [done|].
  assert (HG : forall b, b ∈ G -> nend n < nstart b /\ nend b <= OFFSET_MAX /\ nstart b <= nend b).
  { intros b Hb. destruct (Hok b) as (? & ? & ? & _); [set_solver|]. split; [by apply Hhi|lia]. }
  unfold node_ok in Hk.
  split; [intros b Hb; specialize (HG b Hb); case_bool; lia|].
  split; [intros a Ha; specialize (HP0 a Ha); specialize (Hlow a (or_introl Ha)); case_bool; lia|].
  split.
  { destruct (Z.ltb_spec vs (nstart n)).
    - eapply left_ok_grow; [done|]. case_bool; lia.
    - destruct Hle as (-> & _ & ->); [lia|done]. }
  split; [repeat case_bool; lia|].
  split.
  { destruct (Z.eq_dec (nend n) OFFSET_MAX) as [E|E].
    - right. intros b Hb. specialize (HG b Hb). lia.
    - destruct Hovf as [?|Hne]; [left; case_bool; lia|]. right. set_solver. }
  intros x t. rewrite (inv_sem _ _ _ _ _ _ _ _ _ _ _ I), hin_middle.
  assert (Huniq : nstart n <= x <= nend n -> ~ hin (P0 ++ L ++ G) x t).
  { rewrite !hin_app. intros Hx [Hin|[Hin|Hin]]; destruct Hin as (a & Ha & Hxa & _).
    - specialize (Hlow a (or_introl Ha)). lia.
    - specialize (Hlow a (or_intror Ha)). lia.
    - specialize (HG a Ha). lia. }
  assert (Hcov : (if vs <? nstart n then vs else nstart n) <= x <= (if nend n <? ve then ve else nend n)
    <-> vs <= x <= ve \/ nstart n <= x <= nend n) by (repeat case_bool; lia).
  rewrite Hcov. clear -Huniq Hty Hu.
  destruct (decide (vs <= x <= ve)), (decide (nstart n <= x <= nend n)); intuition congruence.
Qed.

Lemma inv_merge_first P0 L V n G left free wk vs ve st en :
  inv (Local c0) P0 L V (n :: G) left false free wk vs ve ->
  ntype n = t0 -> vs - 1 <= nend n -> nstart n <= ve + 1 ->
  st = (if vs <? nstart n then vs else nstart n) ->
  en = (if nend n <? ve then ve else nend n) ->
  V = [] /\
  inv (Node (nid n)) P0 L [mk_node (nid n) (set_range st en (lk n))] G left true free wk st en.
Proof.
  intros I Hty H1 H2 Hst Hen.
  destruct (inv_merge_facts _ _ _ _ _ _ _ _ _ _ _ _ _ _ I Hty H1 H2 Hst Hen)
    as (Hu & Hb & HP0 & Hl & Hr & Hovf & Hsem).
  destruct (inv_head _ _ _ _ _ _ _ _ _ _ _ _ I) as (Ho & _ & _ & _ & _ & Hs).
  destruct I as [I1 I2 I3 I4 I5 I6 I7 I8 I9 I10 I11 I12].
  apply Forall_middle in I1 as [_ I1]. apply Forall_middle in I2 as [_ I2].
  assert (V = []) as -> by (by inversion I7). split; [done|].
  constructor; try done.
  - by apply (mode_node _ _ (mk_node (nid n) (set_range st en (lk n)))).
  - by rewrite <- I10, !ids_app.
Qed.

Lemma inv_merge_more cr P0 L V n G left free wk wk' vs ve st en :
  inv cr P0 L V (n :: G) left true free wk vs ve ->
  ntype n = t0 -> vs - 1 <= nend n -> nstart n <= ve + 1 ->
  st = (if vs <? nstart n then vs else nstart n) ->
  en = (if nend n <? ve then ve else nend n) ->
  exists v, cr = Node (nid v) /\ V = [v] /\
    upd (nid v) (set_range st en) (A ++ P0 ++ L ++ V)
      = A ++ P0 ++ L ++ [mk_node (nid v) (set_range st en (lk v))] /\
    inv cr P0 L [mk_node (nid v) (set_range st en (lk v))] G left true
      (mk_node (nid n) (set_owner None (set_range st en (lk n))) :: free) wk' st en.
Proof.
  intros I Hty H1 H2 Hst Hen.
  destruct (inv_merge_facts _ _ _ _ _ _ _ _ _ _ _ _ _ _ I Hty H1 H2 Hst Hen)
    as (Hu & Hb & HP0 & Hl & Hr & Hovf & Hsem).
  destruct (inv_head _ _ _ _ _ _ _ _ _ _ _ _ I) as (Ho & _ & _ & _ & _ & Hs).
  destruct I as [I1 I2 I3 I4 I5 I6 I7 I8 I9 I10 I11 I12].
  apply Forall_middle in I1 as [_ I1]. apply Forall_middle in I2 as [_ I2].
  inversion I7 as [|? Hor|v Hu' Hb' Hov Htv]; subst cr V; [congruence|].
  exists v. split; [done|]. split; [done|]. split.
  - assert (Hnd : NoDup (ids (A ++ P0 ++ L ++ [v] ++ (n :: G) ++ B ++ free))) by (by rewrite I10).
    replace (A ++ P0 ++ L ++ [v] ++ (n :: G) ++ B ++ free)
      with ((A ++ P0 ++ L) ++ v :: ((n :: G) ++ B ++ free)) in Hnd by (rewrite <- !app_assoc; done).
    rewrite ids_app in Hnd. apply list.NoDup_app in Hnd as (_ & Hd & _).
    replace (A ++ P0 ++ L ++ [v]) with ((A ++ P0 ++ L) ++ [v]) by (rewrite <- !app_assoc; done).
    rewrite upd_app, upd_one, upd_notin by (done || (intros Hi; apply (Hd _ Hi); simpl; left)).
    by rewrite <- !app_assoc.
  - constructor; try done.
    + by apply (mode_node _ _ (mk_node (nid v) (set_range st en (lk v)))).
    + rewrite <- I10. rewrite !ids_app. simpl. solve_Permutation.
    + by constructor.
Qed.

(** How the loop ends. *)
Inductive scan_end (r : scan_res) (P0 L V G : list node) (vs ve : Z) : Prop :=
| end_plain :
    inv (s_caller r) P0 L V G (s_left r) (s_added r) (s_free r) (s_woken r) vs ve ->
    s_right r = None -> (forall n, n ∈ G -> ve < nstart n) ->
    scan_end r P0 L V G vs ve
| end_right g R left added :
    G = g :: R ->
    inv (s_caller r) P0 L V G left added (s_free r) (s_woken r) vs ve ->
    s_right r = Some (nid g) ->
    s_left r = (if nstart g <? vs then Some (nid g) else left) ->
    s_added r = (if t0 =? F_UNLCK then true else added) ->
    nstart g <= ve -> ve < nend g -> vs <= nend g -> ntype g <> t0 ->
    scan_end r P0 L V G vs ve.

Lemma scan_spec G cr P0 L V left added free wk vs ve :
  inv cr P0 L V G left added free wk vs ve ->
  exists r P0' L' V' G' vs' ve',
    scan cr (A ++ P0 ++ L ++ V) (G ++ B) left added free wk = Some r /\
    s_pre r = A ++ P0' ++ L' ++ V' /\ s_rest r = G' ++ B /\
    scan_end r P0' L' V' G' vs' ve'.
Proof.
  revert cr P0 L V left added free wk vs ve.
  induction G as [|n G IH]; intros cr P0 L V left added free wk vs ve I;
    destruct (inv_caller _ _ _ _ _ _ _ _ _ _ _ I) as (cv & Hcv & Hown & Hty & Hst & Hen).
  { destruct B as [|b B']; simpl.
    - eexists _, P0, L, V, [], vs, ve. split; [done|]. split; [done|]. split; [done|].
      apply end_plain; simpl; [done|done|set_solver].
    - rewrite Hcv. simpl. apply Forall_cons_iff in HB as [Hb _].
      rewrite (same_owner_trans cv _ Hown), Hb. simpl.
      eexists _, P0, L, V, [], vs, ve. split; [done|]. split; [done|]. split; [done|].
      apply end_plain; simpl; [done|done|set_solver]. }
  destruct (inv_head _ _ _ _ _ _ _ _ _ _ _ _ I) as (Ho & Hk & Hlow & Hhi & Hle & Hs).
  pose proof (inv_range _ _ _ _ _ _ _ _ _ _ _ I) as Hr. unfold OFFSET_MAX in Hr.
  cbn [scan app]. rewrite Hcv. cbn [mbind option_bind].
  rewrite (same_owner_trans cv _ Hown), Ho. cbn [negb].
  rewrite Hty, Hst, Hen. fold (ntype n) (nstart n) (nend n) t0.
  assert (Hpass : nend n < vs -> exists r P0' L' V' G' vs' ve',
    scan cr ((A ++ P0 ++ L ++ V) ++ [n]) (G ++ B) left added free wk = Some r /\
    s_pre r = A ++ P0' ++ L' ++ V' /\ s_rest r = G' ++ B /\ scan_end r P0' L' V' G' vs' ve').
  { intros Hlt. destruct (inv_pass _ _ _ _ _ _ _ _ _ _ _ _ I Hlt) as (-> & -> & I').
    apply IH in I'. rewrite ?app_nil_r in I' |- *. by rewrite <- !app_assoc. }
  assert (Hstop : (forall m, m ∈ n :: G -> ve < nstart m) -> exists r P0' L' V' G' vs' ve',
    Some (mk_scan cr (A ++ P0 ++ L ++ V) (n :: G ++ B) left None added free wk) = Some r /\
    s_pre r = A ++ P0' ++ L' ++ V' /\ s_rest r = G' ++ B /\ scan_end r P0' L' V' G' vs' ve').
  { intros Hb. eexists _, P0, L, V, (n :: G), vs, ve. split; [done|]. split; [done|].
    split; [done|]. by apply end_plain. }
  assert (Hin : forall m, m ∈ n :: G -> nstart n <= nstart m).
  { intros m [->|Hm]%elem_of_cons; [lia|]. specialize (Hhi m Hm). unfold node_ok in Hk. lia. }
  destruct (Z.eqb_spec t0 (ntype n)) as [Heq|Hne].
  - (* same type *)
    rewrite (s32_small (vs - 1)) by lia.
    destruct (Z.ltb_spec (nend n) (vs - 1)) as [Hlt|Hge]; [apply Hpass; lia|].
    assert (Hmax : ve < OFFSET_MAX).
    { destruct (inv_ovf _ _ _ _ _ _ _ _ _ _ _ I) as [?|Hno]; [done|].
      specialize (Hno n ltac:(left)). congruence. }
    unfold OFFSET_MAX in Hmax. rewrite (s32_small (ve + 1)) by lia.
    destruct (Z.ltb_spec (ve + 1) (nstart n)) as [Hlt|Hge2].
    { apply Hstop. intros m Hm. specialize (Hin m Hm). lia. }
    symmetry in Heq. destruct added.
    + destruct (inv_merge_more _ _ _ _ _ _ _ _ _ (wk ++ fl_wait (lk n)) _ _ _ _ I Heq ltac:(lia) Hge2
        eq_refl eq_refl) as (v & -> & -> & Hupd & I').
      unfold free_lock. cbn [lk nid set_range fl_owner fl_wait].
      destruct Hown0 as [o Eo]. apply same_owner_iff in Ho as [Ho1 _]. rewrite <- Ho1, Eo.
      cbn [mbind option_bind]. rewrite Hupd. by apply IH in I'.
    + assert (Hc : cr = Local c0) by (pose proof (inv_mode _ _ _ _ _ _ _ _ _ _ _ I) as Hm; by inversion Hm).
      rewrite Hc in I.
      destruct (inv_merge_first _ _ _ _ _ _ _ _ _ _ _ _ I Heq ltac:(lia) Hge2 eq_refl eq_refl)
        as (-> & I').
      apply IH in I'. rewrite ?app_nil_r in I' |- *. by rewrite <- !app_assoc.
  - (* another type *)
    destruct (Z.ltb_spec (nend n) vs) as [Hlt|Hge]; [by apply Hpass|].
    destruct (Z.ltb_spec ve (nstart n)) as [Hlt|Hge2].
    { apply Hstop. intros m Hm. specialize (Hin m Hm). lia. }
    destruct (Z.ltb_spec ve (nend n)) as [Hlt|Hge3].
    { eexists _, P0, L, V, (n :: G), vs, ve. split; [done|]. split; [done|]. split; [done|].
      eapply end_right; done || congruence. }
    destruct (Z.leb_spec vs (nstart n)) as [Hcov|Hov].
    + destruct (Z.ltb_spec (nstart n) vs); [lia|].
      destruct (if t0 =? F_UNLCK then true else added) eqn:Had.
      * unfold free_lock. pose proof Ho as [Ho1 _]%same_owner_iff.
        destruct Hown0 as [o Eo]. rewrite <- Ho1, Eo. cbn [mbind option_bind].
        eapply IH, inv_absorb; done || congruence.
      * destruct (Z.eqb_spec t0 F_UNLCK); [done|]. subst added.
        assert (Hc : cr = Local c0 /\ V = []) by (pose proof (inv_mode _ _ _ _ _ _ _ _ _ _ _ I) as Hm; by inversion Hm).
        destruct Hc as [Hc ->]. rewrite Hc in I.
        pose proof (inv_replace _ _ _ _ _ _ _ _ (wk ++ fl_wait (lk n)) _ _ cv I) as I'.
        rewrite Hty in I'. apply IH in I'; try done; try congruence.
        rewrite ?app_nil_r in I' |- *. by rewrite <- !app_assoc.
    + destruct (Z.ltb_spec (nstart n) vs); [|lia].
      destruct (inv_overlap_left _ _ _ _ _ _ _ _ _ _ _ _ I) as (-> & -> & I'); try done; try congruence.
      apply IH in I'. rewrite ?app_nil_r in I' |- *. by rewrite <- !app_assoc.
Qed.

End Scan.

(** ** The end of [lock_it] *)

Definition trim_end (e : Z) (n : node) : node := mk_node (nid n) (set_end e (lk n)).
Definition trim_start (s : Z) (n : node) : node := mk_node (nid n) (set_start s (lk n)).

Lemma ids_trim e l : ids (map (trim_end e) l) = ids l.
Proof. unfold ids. by rewrite map_map. Qed.

Lemma upd_at l1 n l2 f :
  NoDup (ids (l1 ++ n :: l2)) ->
  upd (nid n) f (l1 ++ n :: l2) = l1 ++ mk_node (nid n) (f (lk n)) :: l2.
Proof.
  rewrite ids_app. intros (_ & Hd & Hnd)%list.NoDup_app. simpl in Hnd.
  apply list.NoDup_cons in Hnd as [Hni _].
  change (n :: l2) with ([n] ++ l2). rewrite !upd_app, upd_one by done.
  rewrite !upd_notin; [done|done|]. intros Hi. apply (Hd _ Hi). simpl. left.
Qed.

(** The three zones of the final list: below, in and above the new lock. *)
Lemma zones_hin (Lo Vf Hi M : list node) (vs ve t0 : Z) (nonempty : Prop) x t :
  vs <= ve ->
  (forall n, n ∈ Lo -> nend n < vs) -> (forall n, n ∈ Hi -> ve < nstart n) ->
  (forall x t, x < vs -> hin Lo x t <-> hin M x t) ->
  (forall x t, ve < x -> hin Hi x t <-> hin M x t) ->
  (forall x t, hin Vf x t <-> vs <= x <= ve /\ t = t0 /\ nonempty) ->
  hin (Lo ++ Vf ++ Hi) x t <->
    (vs <= x <= ve /\ t = t0 /\ nonempty) \/ (~ (vs <= x <= ve) /\ hin M x t).
Proof.
  intros Hle HLo HHi ELo EHi EV. rewrite !hin_app, EV.
  assert (hin Lo x t -> x < vs) by (intros (n & Hn & ? & _); specialize (HLo n Hn); lia).
  assert (hin Hi x t -> ve < x) by (intros (n & Hn & ? & _); specialize (HHi n Hn); lia).
  specialize (ELo x t). specialize (EHi x t).
  destruct (decide (x < vs)), (decide (ve < x)); intuition lia.
Qed.

Lemma zones_sorted (Lo Vf Hi : list node) (vs ve : Z) :
  vs <= ve -> sorted Lo -> sorted Vf -> sorted Hi ->
  (forall n, n ∈ Lo -> nend n < vs) -> (forall n, n ∈ Hi -> ve < nstart n) ->
  (forall n, n ∈ Vf -> vs <= nstart n /\ nend n <= ve) ->
  sorted (Lo ++ Vf ++ Hi).
Proof.
  intros Hle S1 S2 S3 H1 H2 H3. rewrite !sorted_app. split; [done|]. split.
  - split; [done|]. split; [done|]. intros a b Ha Hb. specialize (H3 a Ha). specialize (H2 b Hb). lia.
  - intros a b Ha Hb. specialize (H1 a Ha). apply elem_of_app in Hb as [Hb|Hb].
    + specialize (H3 b Hb). lia.
    + specialize (H2 b Hb). lia.
Qed.

Lemma find_owner_skip c0 pre l : Forall (not_own c0) l ->
  forall rest, find_owner c0 pre (l ++ rest) = find_owner c0 (pre ++ l) rest.
Proof.
  revert pre. induction l as [|n l IH]; intros pre H rest; simpl; [by rewrite app_nil_r|].
  apply Forall_cons_iff in H as [Hn H]. rewrite Hn, IH by done. by rewrite <- app_assoc.
Qed.

Lemma find_owner_split c0 A G0 B :
  Forall (not_own c0) A ->  Forall (own c0) G0 -> (G0 = [] -> B = []) ->
  find_owner c0 [] (A ++ G0 ++ B) = (A, G0 ++ B).
Proof.
  intros HA Ho Hnil. rewrite find_owner_skip by done. simpl.
  destruct G0 as [|g G]; simpl; [by rewrite Hnil by done|].
  by apply Forall_cons_iff in Ho as [-> _].
Qed.

Section Finish.

Context (c0 : file_lock) (A B G0 : list node) (ids0 : list nat)
        (free0 : list node) (wk0 : list Z).
Context (HA : Forall (not_own c0) A) (HB : Forall (not_own c0) B) (Hids0 : NoDup ids0)
        (current : Z) (Hown0 : fl_owner c0 = Some current).

Let inv := inv c0 A B G0 ids0 free0 wk0.

(** The new locks [G1] of the owner, as the abstract update wants them. *)
Definition replaced (s' : lstate) : Prop :=
  exists G1, i_flock s' = A ++ G1 ++ B /\ Forall (own c0) G1 /\ Forall node_ok G1 /\
    sorted G1 /\ (forall x t, hin G1 x t <-> target c0 G0 x t) /\
    Forall (fun n => fl_owner (lk n) = None) (free_list s') /\
    ids (A ++ G1 ++ B ++ free_list s') ≡ₚ ids0.

(** The entry of the new lock in the list. *)
Definition entry (Vf : list node) (vs ve : Z) : Prop :=
  (fl_type c0 = F_UNLCK /\ Vf = []) \/
  (exists v, Vf = [v] /\ fl_type c0 <> F_UNLCK /\ own c0 v /\ ntype v = fl_type c0 /\
     nstart v = vs /\ nend v = ve).

Lemma entry_hin Vf vs ve x t :
  entry Vf vs ve -> hin Vf x t <-> vs <= x <= ve /\ t = fl_type c0 /\ fl_type c0 <> F_UNLCK.
Proof.
  intros [[Hu ->]|(v & -> & Hu & _ & Ht & Hs & He)].
  - rewrite hin_nil. tauto.
  - rewrite hin_cons, hin_nil, Hs, He, Ht. intuition congruence.
Qed.

Lemma build_replaced Lo Vf Hi M vs ve free wk :
  0 <= vs -> vs <= ve -> ve <= OFFSET_MAX ->
  (fl_type c0 = F_RDLCK \/ fl_type c0 = F_WRLCK \/ fl_type c0 = F_UNLCK) ->
  entry Vf vs ve ->
  sorted Lo -> sorted Hi -> Forall (own c0) (Lo ++ Hi) -> Forall node_ok (Lo ++ Hi) ->
  (forall n, n ∈ Lo -> nend n < vs) -> (forall n, n ∈ Hi -> ve < nstart n) ->
  (forall x t, x < vs -> hin Lo x t <-> hin M x t) ->
  (forall x t, ve < x -> hin Hi x t <-> hin M x t) ->
  (forall x t, target c0 G0 x t <->
    (vs <= x <= ve /\ t = fl_type c0 /\ fl_type c0 <> F_UNLCK) \/ (~ (vs <= x <= ve) /\ hin M x t)) ->
  Forall (fun n => fl_owner (lk n) = None) free ->
  ids (A ++ Lo ++ Vf ++ Hi ++ B ++ free) ≡ₚ ids0 ->
  replaced (mk_lstate (A ++ Lo ++ Vf ++ Hi ++ B) free wk).
Proof.
  intros H0 Hle Hmax Hty He S1 S3 Ho Hk H1 H2 E1 E2 Hsem Hf Hp.
  apply Forall_app in Ho as [Ho1 Ho2]. apply Forall_app in Hk as [Hk1 Hk2].
  exists (Lo ++ Vf ++ Hi). simpl. rewrite <- !app_assoc. split; [done|].
  assert (Forall (own c0) Vf /\ Forall node_ok Vf /\ sorted Vf /\
    forall n, n ∈ Vf -> vs <= nstart n /\ nend n <= ve) as (Vo & Vk & Vs & Vr).
  { destruct He as [[Hu ->]|(v & -> & Hu & Hov & Ht & Hs & He)].
    - split; [constructor|]. split; [constructor|]. split; [constructor|]. set_solver.
    - split; [by constructor|]. split.
      { constructor; [|constructor]. unfold node_ok. rewrite Hs, He, Ht. intuition lia. }
      split; [repeat constructor|]. intros n ->%list_elem_of_singleton. lia. }
  split; [rewrite !Forall_app; tauto|]. split; [rewrite !Forall_app; tauto|].
  split; [by apply (zones_sorted _ _ _ vs ve)|]. split; [|done].
  intros x t. rewrite Hsem. apply zones_hin; try done. intros. by apply entry_hin.
Qed.

Lemma own_trim_end e n : own c0 (trim_end e n) <-> own c0 n.
Proof. done. Qed.

(** The locks below the new one when [left] is not the lock that [right] is. *)
Lemma lo_facts cr P0 L V G left added free wk vs ve :
  inv cr P0 L V G left added free wk vs ve -> (forall n, n ∈ G -> vs <= nstart n) ->
  let Lo := P0 ++ map (trim_end (vs - 1)) L in
  sorted Lo /\ Forall (own c0) Lo /\ Forall node_ok Lo /\
  (forall n, n ∈ Lo -> nend n < vs) /\
  (forall x t, x < vs -> hin Lo x t <-> hin (P0 ++ L ++ G) x t).
Proof.
  intros I HG. destruct I as [I1 I2 I3 I4 I5 I6 I7 I8 I9 I10 I11 I12].
  rewrite !sorted_app in I3. destruct I3 as (S1 & (S2 & S3 & S4) & S5).
  rewrite !Forall_app in I1, I2. destruct I1 as (O1 & O2 & _), I2 as (K1 & K2 & _).
  assert (HGx : forall x t, x < vs -> ~ hin G x t).
  { intros x t Hx (n & Hn & ? & _). specialize (HG n Hn). lia. }
  destruct L as [|l [|? ?]]; simpl in I5; [| |done]; cbn [map].
  - rewrite app_nil_r. split; [done|]. split; [done|]. split; [done|]. split; [done|].
    intros x t Hx. rewrite !hin_app, hin_nil. specialize (HGx x t Hx). tauto.
  - destruct I5 as (_ & Hl1 & Hl2 & _).
    apply Forall_cons_iff in O2 as [O2 _]. apply Forall_cons_iff in K2 as [K2 _].
    assert (Htl : nstart (trim_end (vs - 1) l) = nstart l /\ nend (trim_end (vs - 1) l) = vs - 1 /\
      ntype (trim_end (vs - 1) l) = ntype l) by done. destruct Htl as (T1 & T2 & T3).
    split; [|split; [|split; [|split]]].
    + apply sorted_app. split; [done|]. split; [repeat constructor|].
      intros a b Ha ->%list_elem_of_singleton. rewrite T1. apply S5; set_solver.
    + rewrite Forall_app. split; [done|]. by repeat constructor.
    + rewrite Forall_app. split; [done|]. constructor; [|constructor].
      unfold node_ok in *. rewrite T1, T2, T3. intuition lia.
    + intros n [Hn|Hn]%elem_of_app; [by apply I4|].
      apply list_elem_of_singleton in Hn as ->. lia.
    + intros x t Hx. rewrite !hin_app, !hin_cons, !hin_nil, T1, T2, T3.
      specialize (HGx x t Hx). intuition lia.
Qed.

(** The locks above the new one when nothing is cut. *)
Lemma hi_facts cr P0 L V G left added free wk vs ve :
  inv cr P0 L V G left added free wk vs ve -> (forall n, n ∈ G -> ve < nstart n) ->
  sorted G /\ Forall (own c0) G /\ Forall node_ok G /\
  (forall x t, ve < x -> hin G x t <-> hin (P0 ++ L ++ G) x t).
Proof.
  intros I HG. destruct I as [I1 I2 I3 I4 I5 I6 I7 I8 I9 I10 I11 I12].
  rewrite !sorted_app in I3. rewrite !Forall_app in I1, I2.
  split; [tauto|]. split; [tauto|]. split; [tauto|].
  intros x t Hx. rewrite !hin_app.
  assert (~ hin P0 x t) by (intros (n & Hn & ? & _); specialize (I4 n Hn); lia).
  assert (~ hin L x t).
  { intros (n & Hn & ? & _). destruct L as [|l [|? ?]]; simpl in I5; [set_solver| |done].
    apply list_elem_of_singleton in Hn as ->. lia. }
  tauto.
Qed.

(** ... and when [right] (the node [g]) loses its beginning. *)
Lemma hi_cut_facts cr P0 L V g R left added free wk vs ve :
  inv cr P0 L V (g :: R) left added free wk vs ve -> nstart g <= ve -> ve < nend g ->
  let Hi := trim_start (ve + 1) g :: R in
  sorted Hi /\ Forall (own c0) Hi /\ Forall node_ok Hi /\ (forall n, n ∈ Hi -> ve < nstart n) /\
  (forall x t, ve < x -> hin Hi x t <-> hin (P0 ++ L ++ g :: R) x t).
Proof.
  intros I Hg1 Hg2.
  pose proof I as I0. apply (inv_head _ _ _ _ _ _ _ HA HB Hids0 (mk_is_Some _ _ Hown0)) in I0 as (Ho & Hk & _ & Hhi & _ & _).
  destruct I as [I1 I2 I3 I4 I5 I6 I7 I8 I9 I10 I11 I12].
  rewrite !sorted_app, sorted_cons in I3. rewrite !Forall_app, Forall_cons_iff in I1, I2.
  assert (T : nstart (trim_start (ve + 1) g) = ve + 1 /\ nend (trim_start (ve + 1) g) = nend g /\
      ntype (trim_start (ve + 1) g) = ntype g) by done. destruct T as (T1 & T2 & T3).
  split; [|split; [|split; [|split]]].
  - apply sorted_cons. split; [tauto|]. intros b Hb. rewrite T2. by apply Hhi.
  - constructor; [done|]. tauto.
  - constructor; [|tauto]. unfold node_ok in *. rewrite T1, T2, T3. intuition lia.
  - intros n [->|Hn]%elem_of_cons; [lia|]. specialize (Hhi n Hn). lia.
  - intros x t Hx. rewrite !hin_app, !hin_cons, T1, T2, T3.
    assert (~ hin P0 x t) by (intros (n & Hn & ? & _); specialize (I4 n Hn); lia).
    assert (~ hin L x t).
    { intros (n & Hn & ? & _). destruct L as [|l [|? ?]]; simpl in I5; [set_solver| |done].
      apply list_elem_of_singleton in Hn as ->. lia. }
    intuition lia.
Qed.

(** Nothing is cut above the new lock. *)
Lemma split_plain cr P0 L V Vf G left added added' free wk vs ve cv l_pre l_rest free' fd :
  inv cr P0 L V G left added free wk vs ve -> (forall n, n ∈ G -> ve < nstart n) ->
  (fl_type c0 = F_RDLCK \/ fl_type c0 = F_WRLCK \/ fl_type c0 = F_UNLCK) ->
  entry Vf vs ve -> fl_start cv = vs ->
  l_pre ++ l_rest = A ++ P0 ++ L ++ Vf ++ G ++ B ->
  ids (A ++ P0 ++ L ++ Vf ++ G ++ B ++ free') ≡ₚ ids0 ->
  Forall (fun n => fl_owner (lk n) = None) free' ->
  exists s', split_locks current cv l_pre l_rest left None added' fd free' wk = Some (0, s') /\
    replaced s'.
Proof.
  intros I HG Hty He Hcv Hl Hids Hf. unfold split_locks. rewrite Hl.
  pose proof (inv_range _ _ _ _ _ _ _ _ _ _ _ _ _ _ _ _ _ _ I) as (R1 & R2 & R3).
  pose proof (lo_facts _ _ _ _ _ _ _ _ _ _ _ I) as Hlo.
  pose proof (hi_facts _ _ _ _ _ _ _ _ _ _ _ I HG) as (S2 & O2 & K2 & E2).
  destruct Hlo as (S1 & O1 & K1 & B1 & E1); [intros n Hn; specialize (HG n Hn); lia|].
  pose proof (inv_sem _ _ _ _ _ _ _ _ _ _ _ _ _ _ _ _ _ _ I) as Hsem.
  eexists; split; [done|].
  replace (match left with Some p => _ | None => _ end)
    with (A ++ (P0 ++ map (trim_end (vs - 1)) L) ++ Vf ++ G ++ B).
  { apply (build_replaced _ _ _ (P0 ++ L ++ G) vs ve); try done.
    - rewrite Forall_app. done.
    - rewrite Forall_app. done.
    - by rewrite <- Hids, !ids_app, ids_trim, <- !app_assoc. }
  pose proof (inv_left _ _ _ _ _ _ _ _ _ _ _ _ _ _ _ _ _ _ I) as Hleft.
  destruct L as [|l [|? ?]]; simpl in Hleft; [| |done].
  - subst left. simpl. by rewrite app_nil_r.
  - destruct Hleft as (-> & Hl1 & Hl2 & _). rewrite Hcv, s32_small by (unfold OFFSET_MAX in *; lia).
    replace (A ++ P0 ++ [l] ++ Vf ++ G ++ B) with ((A ++ P0) ++ l :: (Vf ++ G ++ B))
      by (rewrite <- !app_assoc; done).
    rewrite upd_at; [by rewrite <- !app_assoc|].
    apply (NoDup_app_l _ (ids free')). rewrite <- ids_app.
    rewrite <- !app_assoc. simpl. rewrite <- !app_assoc. by rewrite Hids.
Qed.

(** The lock [g] above loses its beginning; [left] is another lock, if any. *)
Lemma split_right cr P0 L V Vf g R left added added' free wk vs ve cv l_pre l_rest free' fd :
  inv cr P0 L V (g :: R) left added free wk vs ve ->
  vs <= nstart g -> nstart g <= ve -> ve < nend g ->
  (fl_type c0 = F_RDLCK \/ fl_type c0 = F_WRLCK \/ fl_type c0 = F_UNLCK) ->
  entry Vf vs ve -> fl_start cv = vs -> fl_end cv = ve ->
  l_pre ++ l_rest = A ++ P0 ++ L ++ Vf ++ (g :: R) ++ B ->
  ids (A ++ P0 ++ L ++ Vf ++ (g :: R) ++ B ++ free') ≡ₚ ids0 ->
  Forall (fun n => fl_owner (lk n) = None) free' ->
  exists s', split_locks current cv l_pre l_rest left (Some (nid g)) added' fd free' wk
    = Some (0, s') /\ replaced s'.
Proof.
  intros I Hg0 Hg1 Hg2 Hty He Hcv1 Hcv2 Hl Hids Hf.
  pose proof (inv_range _ _ _ _ _ _ _ _ _ _ _ _ _ _ _ _ _ _ I) as (R1 & R2 & R3).
  pose proof (hi_cut_facts _ _ _ _ _ _ _ _ _ _ _ _ I Hg1 Hg2) as (S2 & O2 & K2 & B2 & E2).
  pose proof I as I0.
  apply (inv_head _ _ _ _ _ _ _ HA HB Hids0 (mk_is_Some _ _ Hown0)) in I0 as (_ & Hk & Hlow & Hhi & _ & _).
  pose proof (lo_facts _ _ _ _ _ _ _ _ _ _ _ I) as (S1 & O1 & K1 & B1 & E1).
  { intros n [->|Hn]%elem_of_cons; [lia|]. specialize (Hhi n Hn). lia. }
  pose proof (inv_sem _ _ _ _ _ _ _ _ _ _ _ _ _ _ _ _ _ _ I) as Hsem.
  pose proof (inv_left _ _ _ _ _ _ _ _ _ _ _ _ _ _ _ _ _ _ I) as Hleft.
  assert (Hnd : NoDup (ids (A ++ P0 ++ L ++ Vf ++ (g :: R) ++ B))).
  { apply (NoDup_app_l _ (ids free')). rewrite <- ids_app, <- !app_assoc. by rewrite Hids. }
  unfold split_locks. rewrite bool_decide_eq_false_2.
  2: { destruct L as [|l [|? ?]]; simpl in Hleft; [congruence| |done].
       destruct Hleft as (-> & _). intros [= E].
       rewrite !ids_app in Hnd. simpl in Hnd. rewrite E in Hnd.
       apply list.NoDup_app in Hnd as (_ & _ & Hnd). apply list.NoDup_app in Hnd as (_ & _ & Hnd).
       apply list.NoDup_cons in Hnd as [Hni _]. set_solver. }
  cbn [mbind option_bind negb]. rewrite Hl, Hcv1, Hcv2.
  rewrite (s32_small (ve + 1)), (s32_small (vs - 1)) by (unfold node_ok, OFFSET_MAX in *; lia).
  replace (A ++ P0 ++ L ++ Vf ++ (g :: R) ++ B) with ((A ++ P0 ++ L ++ Vf) ++ g :: (R ++ B)) in *
    by (rewrite <- !app_assoc; done).
  rewrite upd_at by done. eexists; split; [done|].
  replace (match left with Some p => _ | None => _ end)
    with (A ++ (P0 ++ map (trim_end (vs - 1)) L) ++ Vf ++ (trim_start (ve + 1) g :: R) ++ B).
  { apply (build_replaced _ _ _ (P0 ++ L ++ g :: R) vs ve); try done.
    - rewrite Forall_app. done.
    - rewrite Forall_app. done.
    - by rewrite <- Hids, !ids_app, ids_trim, <- !app_assoc. }
  destruct L as [|l [|? ?]]; simpl in Hleft; [| |done].
  - subst left. simpl. by rewrite app_nil_r, <- !app_assoc.
  - destruct Hleft as (-> & _). set (g' := mk_node (nid g) _).
    replace ((A ++ P0 ++ [l] ++ Vf) ++ g' :: R ++ B) with ((A ++ P0) ++ l :: (Vf ++ g' :: R ++ B))
      by (rewrite <- !app_assoc; done).
    rewrite upd_at; [by rewrite <- !app_assoc|].
    revert Hnd. by ids_norm.
Qed.

(** The lock [g] contains the new one: it is split, if a free entry is left. *)
Lemma split_hole cr P0 L V Vf g R left added added' free wk vs ve cv l_pre l_rest free' fd :
  inv cr P0 L V (g :: R) left added free wk vs ve ->
  nstart g < vs -> vs <= nend g -> nstart g <= ve -> ve < nend g ->
  (fl_type c0 = F_RDLCK \/ fl_type c0 = F_WRLCK \/ fl_type c0 = F_UNLCK) -> fd = fl_fd c0 ->
  entry Vf vs ve -> fl_start cv = vs -> fl_end cv = ve ->
  l_pre = A ++ P0 -> l_rest = Vf ++ g :: R ++ B ->
  ids (A ++ P0 ++ Vf ++ (g :: R) ++ B ++ free') ≡ₚ ids0 ->
  Forall (fun n => fl_owner (lk n) = None) free' -> free' <> [] ->
  exists s', split_locks current cv l_pre l_rest (Some (nid g)) (Some (nid g)) added' fd free' wk
    = Some (0, s') /\ replaced s'.
Proof.
  intros I Hg0 Hg Hg1 Hg2 Hty Hfd He Hcv1 Hcv2 -> -> Hids Hf Hne.
  pose proof (inv_range _ _ _ _ _ _ _ _ _ _ _ _ _ _ _ _ _ _ I) as (R1 & R2 & R3).
  pose proof (hi_cut_facts _ _ _ _ _ _ _ _ _ _ _ _ I Hg1 Hg2) as (S2 & O2 & K2 & B2 & E2).
  pose proof I as I0.
  apply (inv_head _ _ _ _ _ _ _ HA HB Hids0 (mk_is_Some _ _ Hown0)) in I0 as (Ho & Hk & Hlow & Hhi & HL & _).
  destruct HL as (-> & -> & ->); [lia|].
  pose proof (inv_sem _ _ _ _ _ _ _ _ _ _ _ _ _ _ _ _ _ _ I) as Hsem.
  destruct I as [I1 I2 I3 I4 I5 I6 I7 I8 I9 I10 I11 I12]. simpl in *.
  apply sorted_app in I3 as (S1 & _ & _). apply Forall_app in I1 as [O1 _].
  apply Forall_app in I2 as [K1 _].
  destruct free' as [|tmp free'']; [done|]. apply Forall_cons_iff in Hf as [Htmp Hf].
  assert (Hnd : NoDup (ids ((A ++ P0 ++ Vf) ++ (g :: R) ++ B ++ tmp :: free''))).
  { rewrite <- !app_assoc. by rewrite Hids. }
  assert (Hg_fresh : nid g ∉ ids Vf).
  { rewrite !ids_app in Hnd. apply list.NoDup_app in Hnd as (_ & Hd & _). simpl in Hd.
    intros Hin. apply (Hd (nid g)); set_solver. }
  unfold split_locks. rewrite bool_decide_eq_true_2 by done. unfold deref.
  rewrite (find_skip _ _ _ Hg_fresh eq_refl). cbn [fmap option_fmap option_map mbind option_bind].
  unfold alloc_lock. rewrite Htmp. cbn [mbind option_bind negb]. rewrite Hcv1, Hcv2.
  rewrite (s32_small (ve + 1)), (s32_small (vs - 1)) by (unfold node_ok, OFFSET_MAX in *; lia).
  set (gl := mk_node (nid tmp) _).
  replace ((A ++ P0) ++ gl :: Vf ++ g :: R ++ B) with ((A ++ P0 ++ gl :: Vf) ++ g :: (R ++ B))
    by (rewrite <- !app_assoc; done).
  assert (Hnd2 : NoDup (ids ((A ++ P0 ++ gl :: Vf) ++ g :: R ++ B))).
  { apply (NoDup_app_l _ (ids free'')). rewrite <- ids_app. revert Hnd. apply NoDup_perm.
    ids_norm. solve_Permutation. }
  rewrite upd_at by done. cbn [nid gl].
  replace ((A ++ P0 ++ gl :: Vf) ++ mk_node (nid g) _ :: R ++ B)
    with ((A ++ P0) ++ gl :: (Vf ++ (trim_start (ve + 1) g :: R) ++ B)) by (rewrite <- !app_assoc; done).
  change (nid tmp) with (nid gl). rewrite upd_at.
  2: { revert Hnd2. by ids_norm. }
  eexists; split; [done|].
  assert (T : nstart (trim_end (vs - 1) gl) = nstart g /\ nend (trim_end (vs - 1) gl) = vs - 1 /\
     ntype (trim_end (vs - 1) gl) = ntype g) by done. destruct T as (T1 & T2 & T3).
  replace ((A ++ P0) ++ mk_node (nid gl) _ :: _)
    with (A ++ (P0 ++ [trim_end (vs - 1) gl]) ++ Vf ++ (trim_start (ve + 1) g :: R) ++ B)
    by (rewrite <- !app_assoc; done).
  apply (build_replaced _ _ _ (P0 ++ g :: R) vs ve); try done.
  - apply sorted_app. split; [done|]. split; [repeat constructor|].
    intros a b Ha ->%list_elem_of_singleton. rewrite T1. apply Hlow. by left.
  - rewrite !Forall_app. split; [|done]. split; [done|]. constructor; [|constructor].
    by apply same_owner_iff.
  - rewrite !Forall_app. split; [|done]. split; [done|]. constructor; [|constructor].
    unfold node_ok in *. rewrite T1, T2, T3. intuition lia.
  - intros n [Hn|Hn]%elem_of_app; [by apply I4|]. apply list_elem_of_singleton in Hn as ->. lia.
  - intros x t Hx. rewrite !hin_app, !hin_cons, hin_nil, T1, T2, T3.
    assert (~ hin R x t) by (intros (n & Hn & ? & _); specialize (Hhi n Hn); lia).
    intuition lia.
  - rewrite <- Hids. ids_norm. solve_Permutation.
Qed.

(** The outcomes of [lock_it]. *)
Inductive lock_outcome (s : lstate) : Z -> lstate -> Prop :=
| out_ok s' : replaced s' -> lock_outcome s 0 s'
| out_inval :
    fl_type c0 = F_UNLCK ->
    (forall x t, fl_start c0 <= x <= fl_end c0 -> ~ hin G0 x t) ->
    lock_outcome s (- EINVAL) s
| out_nolck s' :
    (length (free_list s) <= 1)%nat ->
    i_flock s' = i_flock s -> woken s' = woken s -> ids (free_list s') = ids (free_list s) ->
    Forall (fun n => fl_owner (lk n) = None) (free_list s') ->
    lock_outcome s (- ENOLCK) s'.

Context (s : lstate) (Hs : i_flock s = A ++ G0 ++ B) (Hfree0 : free_list s = free0)
        (Hwk0 : woken s = wk0) (Hids : ids (A ++ G0 ++ B ++ free0) = ids0)
        (Hfn : Forall (fun n => fl_owner (lk n) = None) free0)
        (HoG : Forall (own c0) G0) (HkG : Forall node_ok G0) (HsG : sorted G0)
        (HB0 : G0 = [] -> B = [])
        (Hc : 0 <= fl_start c0 /\ fl_start c0 <= fl_end c0 /\ fl_end c0 <= OFFSET_MAX)
        (Hty : fl_type c0 = F_RDLCK \/ fl_type c0 = F_WRLCK \/ fl_type c0 = F_UNLCK)
        (Hovf : fl_end c0 < OFFSET_MAX \/ forall n, n ∈ G0 -> ntype n <> fl_type c0).

Lemma inv_start : inv (Local c0) [] [] [] G0 None false free0 wk0 (fl_start c0) (fl_end c0).
Proof.
  constructor; simpl; try done.
  - set_solver.
  - by constructor.
  - by rewrite Hids.
Qed.

Lemma inv_search cr P0 L V G left free wk vs ve :
  inv cr P0 L V G left false free wk vs ve ->
  cr = Local c0 /\ V = [] /\ vs = fl_start c0 /\ ve = fl_end c0 /\
  P0 ++ L ++ G = G0 /\ free = free0 /\ wk = wk0.
Proof.
  intros I. pose proof (inv_mode _ _ _ _ _ _ _ _ _ _ _ _ _ _ _ _ _ _ I) as Hm.
  inversion Hm as [Hsm| |]; subst. by destruct Hsm as (? & ? & ?).
Qed.

(** The entry that [alloc_lock] makes for the caller's lock. *)
Lemma alloc_entry pos tmp free' :
  fl_owner (lk tmp) = None ->
  exists n, alloc_lock current pos c0 (fl_fd c0) (tmp :: free') = Some (Some (n, n :: pos, free')) /\
    nid n = nid tmp /\ fl_wait (lk n) = [] /\ fl_owner (lk n) = Some current /\
    fl_start (lk n) = fl_start c0 /\ fl_end (lk n) = fl_end c0 /\
    (fl_type c0 <> F_UNLCK -> entry [n] (fl_start c0) (fl_end c0)).
Proof.
  intros Htmp. unfold alloc_lock. rewrite Htmp. eexists; split; [done|].
  do 5 (split; [done|]). intros Hu. right. eexists; split; [done|]. split; [done|].
  split; [by apply same_owner_iff|]. done.
Qed.

(** No entry is left for the second half: the insertion is undone. *)
Lemma split_hole_fail cv l_pre n g rest fd wk :
  nid g <> nid n -> fl_owner (lk n) = Some current -> fl_wait (lk n) = [] ->
  split_locks current cv l_pre (n :: g :: rest) (Some (nid g)) (Some (nid g)) false fd [] wk
  = Some (- ENOLCK, mk_lstate (l_pre ++ g :: rest) [mk_node (nid n) (set_owner None (lk n))] wk).
Proof.
  intros Hne Ho Hw. unfold split_locks. rewrite bool_decide_eq_true_2 by done.
  unfold deref. change (n :: g :: rest) with ([n] ++ g :: rest).
  rewrite (find_skip (nid g) [n] g); [|set_solver|done].
  simpl. unfold free_lock. rewrite Ho. simpl. by rewrite Hw, app_nil_r.
Qed.

Lemma split_hole_fail_unlock cv l_pre g rest fd wk :
  split_locks current cv l_pre (g :: rest) (Some (nid g)) (Some (nid g)) true fd [] wk
  = Some (- ENOLCK, mk_lstate (l_pre ++ g :: rest) [] wk).
Proof.
  unfold split_locks. rewrite bool_decide_eq_true_2 by done.
  unfold deref. change (g :: rest) with ([] ++ g :: rest).
  by rewrite (find_skip (nid g) [] g) by set_solver.
Qed.

(** No list entry has been touched: the new lock gets a new entry. *)
Lemma finish_insert r P0 L V G vs ve :
  scan_end c0 A B G0 ids0 free0 wk0 r P0 L V G vs ve ->
  s_pre r = A ++ P0 ++ L ++ V -> s_rest r = G ++ B ->
  s_added r = false -> fl_type c0 <> F_UNLCK ->
  exists r' s',
    (res ← alloc_lock current (s_rest r) c0 (fl_fd c0) (s_free r);
     match res with
     | None => Some (- ENOLCK, mk_lstate (s_pre r ++ s_rest r) (s_free r) (s_woken r))
     | Some (n, l_rest, free') =>
         split_locks current (lk n) (s_pre r) l_rest (s_left r) (s_right r) false
           (fl_fd c0) free' (s_woken r)
     end) = Some (r', s') /\ lock_outcome s r' s'.
Proof.
  intros He Hpre Hrest Hadd Hu.
  assert (Hi : exists left, inv (s_caller r) P0 L V G left false (s_free r) (s_woken r) vs ve).
  { destruct He as [I ? ?|g R left added -> I ? ? Ha]; [rewrite Hadd in I; by eexists|].
    rewrite Hadd in Ha. destruct (Z.eqb_spec (fl_type c0) F_UNLCK); [done|]. subst added. by eexists. }
  destruct Hi as (left0 & I0). apply inv_search in I0 as (Hcr & -> & -> & -> & Hsame & Hfr & Hwr).
  rewrite app_nil_r in Hpre. rewrite Hpre, Hrest, Hfr, Hwr.
  assert (Hall : (A ++ P0 ++ L) ++ G ++ B = i_flock s).
  { rewrite Hs, <- Hsame. by rewrite <- !app_assoc. }
  assert (free0 = [] \/ exists tmp free', free0 = tmp :: free') as [Ef|(tmp & free' & Ef)]
    by (clear; destruct free0; eauto).
  { rewrite Ef. simpl. eexists _, _; split; [done|]. rewrite Hall.
    apply out_nolck; simpl; rewrite ?Hfree0, ?Ef; simpl; done || lia. }
  assert (Htmp : fl_owner (lk tmp) = None) by (pose proof Hfn as H; rewrite Ef in H; by inversion H).
  assert (Hfn' : Forall (fun n => fl_owner (lk n) = None) free')
    by (pose proof Hfn as H; rewrite Ef in H; by inversion H).
  rewrite Ef.
  destruct (alloc_entry (G ++ B) tmp free' Htmp) as (n & -> & Hn & Hnw & Hno & Hns & Hne & Hent).
  specialize (Hent Hu). cbn [mbind option_bind].
  assert (Hp : ids (A ++ P0 ++ L ++ [n] ++ G ++ B ++ free') ≡ₚ ids0).
  { rewrite <- Hids, <- Hsame, Ef. ids_norm. rewrite Hn. solve_Permutation. }
  assert (Hl : (A ++ P0 ++ L) ++ n :: G ++ B = A ++ P0 ++ L ++ [n] ++ G ++ B)
    by (rewrite <- !app_assoc; done).
  destruct He as [I Hr HG|g R left added HG I Hr Hl0 Ha Hg1 Hg2 Hg3 Hg4].
  - rewrite Hr.
    destruct (split_plain _ _ _ _ [n] _ _ _ false _ (s_woken r) _ _ (lk n) (A ++ P0 ++ L) (n :: G ++ B)
      free' (fl_fd c0) I HG Hty Hent Hns Hl Hp Hfn') as (s' & E & Hrep).
    rewrite Hwr in E. exists 0, s'. split; [exact E|]. by apply out_ok.
  - subst G. rewrite Hr, Hl0. rewrite Ha in Hadd. destruct (Z.ltb_spec (nstart g) (fl_start c0)).
    + pose proof I as I1.
      apply (inv_head _ _ _ _ _ _ _ HA HB Hids0 (mk_is_Some _ _ Hown0)) in I1 as (_ & _ & _ & _ & HL & _).
      destruct HL as (-> & _ & _); [lia|]. rewrite app_nil_r in *. simpl app in *.
      destruct free' as [|tmp2 free''].
      * rewrite split_hole_fail; [|intros E|done|done].
        2: { assert (Hnd : NoDup ids0) by done. rewrite <- Hp in Hnd. rewrite !ids_app in Hnd.
             simpl in Hnd. rewrite E in Hnd. apply list.NoDup_app in Hnd as (_ & _ & Hnd).
             apply list.NoDup_app in Hnd as (_ & _ & Hnd). apply list.NoDup_cons in Hnd as [Hni _].
             set_solver. }
        eexists _, _; split; [done|].
        apply out_nolck; simpl; rewrite ?Hfree0, ?Ef, ?Hn; simpl; try done; try lia.
        by repeat constructor.
      * destruct (split_hole _ _ _ _ [n] _ _ _ _ false _ (s_woken r) _ _ (lk n) (A ++ P0) ([n] ++ g :: R ++ B)
          (tmp2 :: free'') (fl_fd c0) I ltac:(lia) Hg3 Hg1 Hg2 Hty eq_refl Hent Hns Hne eq_refl eq_refl Hp Hfn'
          ltac:(done)) as (s' & E & Hrep).
        rewrite Hwr in E. exists 0, s'. split; [exact E|]. by apply out_ok.
    + destruct (split_right _ _ _ _ [n] _ _ _ _ false _ (s_woken r) _ _ (lk n) (A ++ P0 ++ L) (n :: (g :: R) ++ B)
      free' (fl_fd c0) I ltac:(lia) Hg1 Hg2 Hty Hent Hns Hne Hl Hp Hfn') as (s' & E & Hrep).
      rewrite Hwr in E. exists 0, s'. split; [exact E|]. by apply out_ok.
Qed.

(** The new lock has an entry already, or is an unlock that met a lock. *)
Lemma finish_added r P0 L V G vs ve cv :
  scan_end c0 A B G0 ids0 free0 wk0 r P0 L V G vs ve ->
  s_pre r = A ++ P0 ++ L ++ V -> s_rest r = G ++ B -> s_added r = true ->
  fl_start cv = vs -> fl_end cv = ve ->
  exists r' s',
    split_locks current cv (s_pre r) (s_rest r) (s_left r) (s_right r) true (fl_fd c0)
      (s_free r) (s_woken r) = Some (r', s') /\ lock_outcome s r' s'.
Proof.
  intros He Hpre Hrest Hadd Hcs Hce.
  assert (Hi : exists left added, inv (s_caller r) P0 L V G left added (s_free r) (s_woken r) vs ve /\
    (added = false -> fl_type c0 = F_UNLCK)).
  { destruct He as [I ? ?|g R left added -> I ? ? Ha]; [rewrite Hadd in I; by eexists _, _|].
    rewrite Hadd in Ha. exists left, added. split; [done|]. intros ->.
    by destruct (Z.eqb_spec (fl_type c0) F_UNLCK). }
  destruct Hi as (left0 & added0 & I0 & Hadd0).
  assert (Hent : entry V vs ve).
  { pose proof (inv_mode _ _ _ _ _ _ _ _ _ _ _ _ _ _ _ _ _ _ I0) as Hm.
    inversion Hm as [| |v ? ? ? ? E]; subst; [left; tauto|by left|]. right. by exists v. }
  pose proof (inv_ids _ _ _ _ _ _ _ _ _ _ _ _ _ _ _ _ _ _ I0) as Hp.
  pose proof (inv_free _ _ _ _ _ _ _ _ _ _ _ _ _ _ _ _ _ _ I0) as Hf.
  assert (Hl : (A ++ P0 ++ L ++ V) ++ G ++ B = A ++ P0 ++ L ++ V ++ G ++ B)
    by (rewrite <- !app_assoc; done).
  rewrite Hpre, Hrest.
  destruct He as [I Hr HG|g R left added HG I Hr Hl0 Ha Hg1 Hg2 Hg3 Hg4].
  - rewrite Hr.
    destruct (split_plain _ _ _ _ V _ _ _ true _ (s_woken r) _ _ cv (A ++ P0 ++ L ++ V) (G ++ B)
      (s_free r) (fl_fd c0) I HG Hty Hent Hcs Hl Hp Hf) as (s' & E & Hrep).
    exists 0, s'. split; [exact E|]. by apply out_ok.
  - subst G. rewrite Hr, Hl0. destruct (Z.ltb_spec (nstart g) vs).
    + pose proof I as I1.
      apply (inv_head _ _ _ _ _ _ _ HA HB Hids0 (mk_is_Some _ _ Hown0)) in I1 as (_ & _ & _ & _ & HL & _).
      destruct HL as (-> & -> & _); [lia|]. rewrite !app_nil_r in *. simpl app in *.
      destruct (s_free r) as [|tmp2 free''] eqn:Ef.
      * rewrite split_hole_fail_unlock. eexists _, _; split; [done|].
        pose proof (inv_mode _ _ _ _ _ _ _ _ _ _ _ _ _ _ _ _ _ _ I0) as Hm.
        assert (Hsame : unchanged G0 free0 wk0 P0 [] (g :: R) [] (s_woken r)).
        { inversion Hm as [| ? [?|Hb]|]; subst; [done|done|]. specialize (Hb g ltac:(left)). lia. }
        destruct Hsame as (HG & Hfr & Hwr).
        apply out_nolck; simpl; rewrite ?Hfree0, <- ?Hfr; simpl; try done; try lia; [|by rewrite Hwr].
        rewrite Hs, <- HG. by rewrite <- !app_assoc.
      * destruct (split_hole _ _ _ _ [] _ _ _ _ true _ (s_woken r) _ _ cv (A ++ P0) ([] ++ g :: R ++ B)
          (tmp2 :: free'') (fl_fd c0) I ltac:(lia) Hg3 Hg1 Hg2 Hty eq_refl Hent Hcs Hce eq_refl eq_refl Hp Hf
          ltac:(done)) as (s' & E & Hrep).
        exists 0, s'. split; [exact E|]. by apply out_ok.
    + destruct (split_right _ _ _ _ V _ _ _ _ true _ (s_woken r) _ _ cv (A ++ P0 ++ L ++ V) ((g :: R) ++ B)
      (s_free r) (fl_fd c0) I ltac:(lia) Hg1 Hg2 Hty Hent Hcs Hce Hl Hp Hf) as (s' & E & Hrep).
      exists 0, s'. split; [exact E|]. by apply out_ok.
Qed.

Lemma lock_it_outcome :
  exists r s', lock_it current s c0 (fl_fd c0) = Some (r, s') /\ lock_outcome s r s'.
Proof.
  unfold lock_it. rewrite Hs, find_owner_split by done.
  destruct (scan_spec c0 A B G0 ids0 free0 wk0 HA HB Hids0 (mk_is_Some _ _ Hown0) _ _ _ _ _ _ _ _ _ _ _ inv_start)
    as (r & P0 & L & V & G & vs & ve & Hscan & Hpre & Hrest & He).
  simpl app in Hscan. rewrite app_nil_r in Hscan. rewrite Hfree0, Hwk0, Hscan.
  cbn [mbind option_bind].
  assert (Hi : exists left added, inv (s_caller r) P0 L V G left added (s_free r) (s_woken r) vs ve /\
    (s_added r = false -> added = false)).
  { destruct He as [I ? ?|g R left added -> I ? ? Ha]; [by eexists _, _|].
    exists left, added. split; [done|]. rewrite Ha. by case_bool. }
  destruct Hi as (left & added & I & Hadd).
  destruct (inv_caller _ _ _ _ _ _ _ Hids0 _ _ _ _ _ _ _ _ _ _ _ I)
    as (cv & Hcv & _ & Htc & Hcs & Hce).
  rewrite Hpre, Hcv. cbn [mbind option_bind]. rewrite <- Hpre.
  destruct (s_added r) eqn:Ea; [by eapply finish_added|].
  rewrite (Hadd eq_refl) in I. pose proof I as I1.
  apply inv_search in I1 as (Hcr & -> & -> & -> & Hsame & Hfr & Hwr).
  rewrite Hcr in Hcv. injection Hcv as <-.
  destruct (Z.eqb_spec (fl_type c0) F_UNLCK) as [Hu|Hu].
  - eexists _, _; split; [done|].
    replace (mk_lstate _ _ _) with s.
    2: { rewrite Hfr, Hwr, Hpre, Hrest, app_nil_r, <- Hfree0, <- Hwk0. destruct s; simpl in *.
         f_equal. rewrite Hs, <- Hsame. by rewrite <- !app_assoc. }
    apply out_inval; [done|]. intros x t Hx.
    pose proof (inv_unlock _ _ _ _ _ _ _ _ _ _ _ _ _ _ _ _ _ _ I Hu eq_refl) as ->.
    rewrite <- Hsame. simpl. rewrite hin_app.
    destruct He as [? ? HG|g R ? ? ? ? ? ? Ha]; [|rewrite Hu in Ha; simpl in Ha; congruence].
    intros [(n & Hn & ? & _)|(n & Hn & ? & _)].
    + pose proof (inv_P0 _ _ _ _ _ _ _ _ _ _ _ _ _ _ _ _ _ _ I n Hn). lia.
    + specialize (HG n Hn). lia.
  - by eapply finish_insert.
Qed.

End Finish.

(** ** Replacing the locks of one owner *)

Lemma held_app l1 l2 o fd x t : held (l1 ++ l2) o fd x t <-> held l1 o fd x t \/ held l2 o fd x t.
Proof. unfold held. setoid_rewrite elem_of_app. naive_solver. Qed.

Lemma held_own c G o fd x t :
  Forall (own c) G ->
  held G o fd x t <-> (fl_owner c = o /\ fl_fd c = fd) /\ hin G x t.
Proof.
  intros Ho. rewrite list.Forall_forall in Ho. unfold own in Ho.
  setoid_rewrite same_owner_iff in Ho. unfold held, hin. split.
  - intros (n & Hn & H1 & H2 & H3). destruct (Ho n Hn) as [E1 E2].
    split; [split; congruence|]. by exists n.
  - intros ((H1 & H2) & n & Hn & H3). destruct (Ho n Hn) as [E1 E2].
    exists n. split; [done|]. split; [congruence|]. by split; [congruence|].
Qed.

Lemma held_not_own c l x t : Forall (not_own c) l -> ~ held l (fl_owner c) (fl_fd c) x t.
Proof.
  intros Ho (n & Hn & H1 & H2 & _). rewrite list.Forall_forall in Ho. specialize (Ho n Hn).
  unfold not_own in Ho. assert (same_owner c (lk n) = true) by (by apply same_owner_iff). congruence.
Qed.

(** Another owner's locks stay grouped. *)
Lemma grouped_other c c' A G0 G1 B :
  same_owner c c' = false -> Forall (own c) G0 -> Forall (own c) G1 -> (G0 = [] -> B = []) ->
  grouped c' (A ++ G0 ++ B) -> grouped c' (A ++ G1 ++ B).
Proof.
  intros Hne Ho0 Ho1 HB0 (A' & G' & B' & E & HA' & HG' & HB' & Hs & Hn).
  assert (Hex : forall n, own c n -> own c' n -> False).
  { unfold own. intros n [H1 H2]%same_owner_iff [H3 H4]%same_owner_iff.
    assert (same_owner c c' = true) by (apply same_owner_iff; split; congruence). congruence. }
  assert (Hno1 : Forall (not_own c') G1).
  { eapply list.Forall_impl; [exact Ho1|]. intros n Hn1. unfold not_own.
    destruct (same_owner c' (lk n)) eqn:E'; [|done]. exfalso. by apply (Hex n). }
  destruct G' as [|g G'].
  { rewrite Hn in E by done. rewrite !app_nil_r in E.
    exists (A ++ G1 ++ B), [], []. rewrite !app_nil_r. split; [done|].
    rewrite <- E in HA'. rewrite !Forall_app in HA' |- *.
    split; [tauto|]. split; [constructor|]. split; [constructor|]. split; [constructor|done]. }
  assert (Hjoin : forall k, Forall (own c') k -> forall rest, G0 ++ B = k ++ rest -> k = []).
  { intros [|k0 k] Hk rest Ek; [done|]. exfalso. destruct G0 as [|g0 G0'].
    - by rewrite HB0 in Ek.
    - injection Ek as -> _. inversion Hk; inversion Ho0; subst. by eapply Hex. }
  apply app_eq_inv in E as [(k & -> & E)|(k & -> & E)].
  - (* the group starts in A *)
    apply app_eq_inv in E as [(j & E1 & E2)|(j & -> & ->)].
    + assert (j = []) as ->.
      { apply (Hjoin j) with B'; [|done]. rewrite E1 in HG'. by apply Forall_app in HG' as [_ ?]. }
      rewrite app_nil_r in E1. subst k.
      exists A', (g :: G'), (G1 ++ B). rewrite <- !app_assoc. split; [done|].
      simpl in E2. rewrite <- E2 in HB'. rewrite !Forall_app in HB' |- *.
      split; [done|]. split; [done|]. split; [tauto|]. split; [done|]. done.
    + exists A', (g :: G'), (j ++ G1 ++ B). rewrite <- !app_assoc. split; [done|].
      rewrite !Forall_app in HB' |- *. split; [done|]. split; [done|]. split; [tauto|]. done.
  - (* the group starts after A *)
    apply app_eq_inv in E as [(j & -> & E)|(j & -> & ->)].
    + assert (j = []) as ->.
      { destruct j as [|j0 j]; [done|]. injection E as -> E. exfalso.
        apply Forall_app in Ho0 as [_ Ho0]. inversion Ho0; inversion HG'; subst. by eapply Hex. }
      rewrite app_nil_r in *. simpl in E. subst B.
      exists (A ++ G1), (g :: G'), B'. rewrite <- !app_assoc. split; [done|].
      rewrite !Forall_app in HA' |- *. split; [tauto|]. done.
    + exists (A ++ G1 ++ j), (g :: G'), B'. rewrite <- !app_assoc. split; [done|].
      rewrite !Forall_app in HA' |- *. split; [tauto|]. done.
Qed.

Lemma grouped_ext c c' l : same_owner c c' = true -> grouped c l -> grouped c' l.
Proof.
  intros [H1 H2]%same_owner_iff. unfold grouped, own, not_own, same_owner. by rewrite H1, H2.
Qed.

(** A list whose locks of owner [c] are replaced by well-formed ones is well formed. *)
Lemma wf_replace c s s' A G0 G1 B :
  wf s -> i_flock s = A ++ G0 ++ B -> i_flock s' = A ++ G1 ++ B ->
  is_Some (fl_owner c) ->
  Forall (not_own c) A -> Forall (not_own c) B -> Forall (own c) G0 -> (G0 = [] -> B = []) ->
  Forall (own c) G1 -> Forall node_ok G1 -> sorted G1 ->
  Forall (fun n => fl_owner (lk n) = None) (free_list s') ->
  ids (A ++ G1 ++ B ++ free_list s') ≡ₚ ids (A ++ G0 ++ B ++ free_list s) ->
  wf s'.
Proof.
  intros (W1 & W2 & W3 & W4) E0 E1 Hoc HA HB Ho0 HB0 Ho1 Hk1 Hs1 Hf Hp.
  rewrite E0 in W2, W4. rewrite <- !app_assoc in W4. split; [|split; [|split; [done|]]].
  - intros c'. rewrite E1. destruct (same_owner c c') eqn:Ec.
    + apply (grouped_ext c); [done|]. destruct G1 as [|g G1].
      * exists (A ++ B), [], []. rewrite !app_nil_r. split; [done|]. rewrite Forall_app.
        split; [tauto|]. repeat (split; [constructor|]). done.
      * by exists A, (g :: G1), B.
    + apply (grouped_other c c' A G0); try done. rewrite <- E0. apply W1.
  - rewrite E1. rewrite !Forall_app in W2 |- *. destruct W2 as (Wa & _ & Wb).
    split; [done|]. split; [|done]. rewrite list.Forall_forall in Ho1, Hk1 |- *.
    intros n Hn. split; [by apply Hk1|]. specialize (Ho1 n Hn). apply same_owner_iff in Ho1 as [<- _]. done.
  - rewrite E1, <- !app_assoc. eapply NoDup_perm; [symmetry; exact Hp|]. done.
Qed.

(** A request as [copy_flock] and the type switch of [fcntl_setlk] make it. *)
Definition request_ok (current : Z) (c : file_lock) : Prop :=
  fl_owner c = Some current /\
  (0 <= fl_start c /\ fl_start c <= fl_end c /\ fl_end c <= OFFSET_MAX) /\
  (fl_type c = F_RDLCK \/ fl_type c = F_WRLCK \/ fl_type c = F_UNLCK).

(** The request ends before the last offset, or the caller holds no lock of the
    same type (always so for an unlock): the test [fl_start > fl_end + 1] of
    [lock_it] does not overflow. *)
Definition no_wrap (l : list node) (c : file_lock) : Prop :=
  fl_end c < OFFSET_MAX \/ forall n, n ∈ l -> own c n -> ntype n <> fl_type c.

(** The abstract effect of a request on the locks of all owners. *)
Definition locks_updated (l l' : list node) (c : file_lock) : Prop :=
  forall o fd x t, held l' o fd x t <->
    if decide ((o = fl_owner c /\ fd = fl_fd c) /\ fl_start c <= x <= fl_end c)
    then t = fl_type c /\ fl_type c <> F_UNLCK
    else held l o fd x t.

Lemma lock_it_correct current s c :
  wf s -> request_ok current c -> no_wrap (i_flock s) c ->
  exists r s', lock_it current s c (fl_fd c) = Some (r, s') /\ wf s' /\
    ((r = 0 /\ locks_updated (i_flock s) (i_flock s') c) \/
     (r = - EINVAL /\ s' = s /\ fl_type c = F_UNLCK /\
        forall x t, fl_start c <= x <= fl_end c -> ~ held (i_flock s) (fl_owner c) (fl_fd c) x t) \/
     (r = - ENOLCK /\ (length (free_list s) <= 1)%nat /\
        i_flock s' = i_flock s /\ woken s' = woken s)).
Proof.
  intros Hw (Ho & Hr & Ht) Hnw. pose proof Hw as (W1 & W2 & W3 & W4).
  destruct (W1 c) as (A & G0 & B & E & HA & HG & HB & Hs & Hn).
  assert (Hk : Forall node_ok G0).
  { rewrite E, !Forall_app in W2. destruct W2 as (_ & W2 & _).
    eapply list.Forall_impl; [exact W2|]. tauto. }
  assert (Hheld : forall x t, held (i_flock s) (fl_owner c) (fl_fd c) x t <-> hin G0 x t).
  { intros x t. rewrite E, !held_app, (held_own c G0) by done.
    pose proof (held_not_own c A x t HA). pose proof (held_not_own c B x t HB). tauto. }
  rewrite E, <- !app_assoc in W4.
  destruct (lock_it_outcome c A B G0 (ids (A ++ G0 ++ B ++ free_list s)) (free_list s) (woken s)
    HA HB W4 current Ho s E eq_refl eq_refl eq_refl W3 HG Hk Hs Hn Hr Ht) as (r & s' & Hl & Hout).
  { destruct Hnw as [?|Hno]; [by left|]. right. intros n Hn'. apply Hno.
    - rewrite E. set_solver.
    - rewrite list.Forall_forall in HG. by apply HG. }
  exists r, s'. split; [done|]. destruct Hout as [s' (G1 & E1 & O1 & K1 & S1 & T1 & F1 & P1)|Hu Hno|s' Hlen Hi Hwk Hid Hf].
  - split.
    { by eapply (wf_replace c s s' A G0 G1 B). }
    left. split; [done|]. intros o fd x t. rewrite E, E1.
    assert (H0 := held_own c G0 o fd x t HG). assert (H1 := held_own c G1 o fd x t O1).
    rewrite T1 in H1. unfold target in H1. rewrite !held_app.
    set (h0 := held (A ++ G0 ++ B) o fd x t). assert (Hh0 : h0 <-> held A o fd x t \/ held G0 o fd x t \/ held B o fd x t)
      by (unfold h0; by rewrite !held_app).
    destruct (decide (o = fl_owner c /\ fd = fl_fd c)) as [[-> ->]|Hoth].
    + pose proof (held_not_own c A x t HA). pose proof (held_not_own c B x t HB).
      destruct (decide (fl_start c <= x <= fl_end c)); [rewrite decide_True by done|rewrite decide_False by tauto];
        tauto.
    + rewrite decide_False by tauto. assert (~ (fl_owner c = o /\ fl_fd c = fd)) by (intros [??]; apply Hoth; done).
      tauto.
  - split; [done|]. right. left. do 3 (split; [done|]). intros x t Hx. rewrite Hheld. by apply Hno.
  - split.
    { split; [by rewrite Hi|]. split; [by rewrite Hi|]. split; [done|].
      rewrite Hi, E, ids_app, Hid, <- ids_app, <- !app_assoc. done. }
    right. right. done.
Qed.

(** C7: Refinement of [lock_it] to the abstract lock table: from any well-formed
    state (the lists sorted by owner and address, without overlaps, free entries
    marked free) a request never panics, keeps the state well formed, and either returns 0 having
    given the offsets [start..end] of the caller (owner and descriptor) the
    requested type (or no lock, for an unlock) and left every other offset of
    every owner as it was; or returns [-EINVAL] for an unlock of offsets the
    caller had no lock on; or returns [-ENOLCK], with at most one free table
    entry left, and no lock is changed by a failing request.  Condition
    ([no_wrap]): a request that reaches the last offset, such as every one to the
    end of file, comes from a caller that holds no lock of that type on the file;
    otherwise [fl_end + 1] overflows, see [lock_to_eof_keeps_write_lock]. *)
Theorem lock_it_refines current s c :
  wf s -> request_ok current c -> no_wrap (i_flock s) c ->
  exists r s', lock_it current s c (fl_fd c) = Some (r, s') /\ wf s' /\
    ((r = 0 /\ locks_updated (i_flock s) (i_flock s') c) \/
     (r = - EINVAL /\ s' = s /\ fl_type c = F_UNLCK /\
        forall x t, fl_start c <= x <= fl_end c -> ~ held (i_flock s) (fl_owner c) (fl_fd c) x t) \/
     (r = - ENOLCK /\ (length (free_list s) <= 1)%nat /\
        i_flock s' = i_flock s /\ woken s' = woken s)).
Proof. apply lock_it_correct. Qed.

Lemma wf_init : wf (mk_lstate [] fcntl_init_locks []).
Proof.
  split; [|split; [|split]]; cbn [i_flock free_list app].
  - intros c. exists [], [], []. repeat (split; [done || constructor|]). done.
  - constructor.
  - apply list.Forall_forall. intros n. unfold fcntl_init_locks.
    rewrite list_elem_of_In, in_map_iff. by intros (i & <- & _).
  - unfold fcntl_init_locks, ids. rewrite map_map. cbn [nid]. rewrite map_id.
    apply NoDup_ListNoDup, seq_NoDup.
Qed.

Definition ex_request (t s e : Z) : file_lock := mk_lock (Some 7) 3 [] t 0 s e.

Lemma lock_it_refines_witness :
  exists r s', lock_it 7 (mk_lstate [] fcntl_init_locks []) (ex_request F_WRLCK 10 19) 3 = Some (r, s') /\
    wf s' /\ r = 0 /\ held (i_flock s') (Some 7) 3 15 F_WRLCK /\ ~ held (i_flock s') (Some 7) 3 20 F_WRLCK.
Proof.
  destruct (lock_it_refines 7 (mk_lstate [] fcntl_init_locks []) (ex_request F_WRLCK 10 19))
    as (r & s' & E & Hw & Hc).
  - apply wf_init.
  - split; [done|]. split; [unfold OFFSET_MAX; simpl; lia|]. simpl. tauto.
  - left. unfold OFFSET_MAX. simpl. lia.
  - exists r, s'. split; [exact E|]. split; [done|].
    destruct Hc as [[-> Hu]|[(_ & _ & Hu & _)|(-> & Hl & _)]]; [|done|].
    + split; [done|]. split.
      * apply Hu. rewrite decide_True; [done|]. split; [done|]. simpl. lia.
      * rewrite (Hu _ _ _ _). rewrite decide_False; [|simpl; lia]. intros (n & Hn & _). set_solver.
    + exfalso. revert Hl. vm_compute. lia.
Defined.

(** ** Whole calls *)

(** No two owners hold locks on a common offset unless both are read locks. *)
Definition exclusive (l : list node) : Prop :=
  forall o fd o' fd' x t t',
    held l o fd x t -> held l o' fd' x t' -> (o <> o' \/ fd <> fd') -> t = F_RDLCK /\ t' = F_RDLCK.

Lemma copy_flock_ok current filp l fd fl :
  l_len l < 2 ^ 31 ->
  copy_flock current filp l fd = Some fl ->
  fl_owner fl = Some current /\ fl_fd fl = fd /\
  (0 <= fl_start fl /\ fl_start fl <= fl_end fl /\ fl_end fl <= OFFSET_MAX) /\
  fl_type fl = l_type l /\
  (l_type l = F_UNLCK \/ l_type l = F_RDLCK \/ l_type l = F_WRLCK \/
   l_type l = F_SHLCK \/ l_type l = F_EXLCK).
Proof.
  intros Hlen. unfold copy_flock. destruct (f_inode filp) as [[m sz]|]; [|done].
  destruct (S_ISREG m); [|done]. simpl.
  destruct (_ && _ && _ && _ && _) eqn:Et; [done|].
  destruct (if l_whence l =? 0 then _ else _) as [st0|]; [|done]. simpl.
  pose proof (s32_range (st0 + l_start l)) as Hr. set (st := s32 (st0 + l_start l)) in *.
  destruct ((st <? 0) || (l_len l <? 0)) eqn:Es; [done|].
  apply orb_false_iff in Es as [Es1%Z.ltb_ge Es2%Z.ltb_ge].
  intros [= <-]. simpl. split; [done|]. split; [done|]. split; [|split; [done|]].
  - unfold OFFSET_MAX.
    assert (Hw : s32 (s32 (st + l_len l) - 1) < 0 \/ l_len l = 0 \/
                 st <= s32 (s32 (st + l_len l) - 1) < 2 ^ 31).
    { destruct (Z.lt_ge_cases (st + l_len l) (2 ^ 31)).
      - rewrite (s32_small (st + l_len l)), s32_small by lia. lia.
      - rewrite (s32_over (st + l_len l)) by lia. destruct (Z.eq_dec (st + l_len l) (2 ^ 31)).
        + rewrite s32_under by lia. lia.
        + rewrite s32_small by lia. lia. }
    destruct (Z.eqb_spec (l_len l) 0), (Z.ltb_spec (s32 (s32 (st + l_len l) - 1)) 0); simpl; lia.
  - unfold F_UNLCK, F_RDLCK, F_WRLCK, F_SHLCK, F_EXLCK in *. lia.
Qed.

Lemma check_mode_ok filp fl fl' :
  check_mode filp fl = Some fl' ->
  (fl_type fl = F_UNLCK \/ fl_type fl = F_RDLCK \/ fl_type fl = F_WRLCK \/
   fl_type fl = F_SHLCK \/ fl_type fl = F_EXLCK) ->
  fl_owner fl' = fl_owner fl /\ fl_fd fl' = fl_fd fl /\ fl_start fl' = fl_start fl /\
  fl_end fl' = fl_end fl /\
  (fl_type fl' = F_RDLCK \/ fl_type fl' = F_WRLCK \/ fl_type fl' = F_UNLCK) /\
  (fl_type fl = F_UNLCK -> fl_type fl' = F_UNLCK).
Proof.
  unfold check_mode, F_UNLCK, F_RDLCK, F_WRLCK, F_SHLCK, F_EXLCK.
  intros H Ht. repeat (case_bool_in H; simplify_eq); simpl; repeat split; try done; lia.
Qed.

(** What [fcntl_setlk] asks [lock_it] for. *)
Definition setlk_request (current : Z) (filp : file) (l : flock) (fd : Z) : option file_lock :=
  copy_flock current filp l fd ≫= check_mode filp.

Lemma setlk_request_ok current filp l fd c :
  l_len l < 2 ^ 31 -> setlk_request current filp l fd = Some c ->
  request_ok current c /\ fl_fd c = fd /\ (l_type l = F_UNLCK -> fl_type c = F_UNLCK).
Proof.
  unfold setlk_request. intros Hlen. destruct (copy_flock current filp l fd) as [fl|] eqn:E; [|done].
  simpl. intros Hm. apply copy_flock_ok in E as (E1 & E2 & E3 & E4 & E5); [|done].
  rewrite <- E4 in E5. apply check_mode_ok in Hm as (M1 & M2 & M3 & M4 & M5 & M6); [|done].
  unfold request_ok. rewrite M1, M2, M3, M4, E1, E2, <- E4. done.
Qed.

(** A request that conflicts with nothing keeps the locks exclusive. *)
Lemma exclusive_update l l' c :
  (fl_type c = F_RDLCK \/ fl_type c = F_WRLCK \/ fl_type c = F_UNLCK) ->
  (fl_type c = F_UNLCK \/ List.find (fun n => conflict c (lk n)) l = None) ->
  exclusive l -> locks_updated l l' c -> exclusive l'.
Proof.
  intros Ht Hno Hex Hu.
  assert (Hfree : forall o fd x t, fl_type c <> F_UNLCK -> (o <> fl_owner c \/ fd <> fl_fd c) ->
    fl_start c <= x <= fl_end c -> held l o fd x t -> fl_type c = F_RDLCK /\ t = F_RDLCK).
  { intros o fd x t Hnu Hoth Hx (n & Hn & H1 & H2 & H3 & H4).
    destruct Hno as [?|Hno]; [done|].
    pose proof (List.find_none _ _ Hno n (proj1 (list_elem_of_In _ _) Hn)) as Hc. simpl in Hc.
    unfold conflict in Hc. unfold nstart, nend, ntype in *.
    destruct (same_owner c (lk n)) eqn:Es.
    { apply same_owner_iff in Es as [??]. exfalso. destruct Hoth; congruence. }
    replace (overlap c (lk n)) with true in Hc
      by (symmetry; unfold overlap; apply andb_true_iff; rewrite !Z.leb_le; lia).
    simpl in Hc. unfold F_RDLCK, F_WRLCK, F_UNLCK in *.
    destruct (Z.eqb_spec (fl_type c) 0), (Z.eqb_spec (fl_type c) 1), (Z.eqb_spec (fl_type (lk n)) 0);
      simpl in Hc; lia || done. }
  intros o fd o' fd' x t t' H1 H2 Hne. apply Hu in H1. apply Hu in H2.
  destruct (decide ((o = fl_owner c /\ fd = fl_fd c) /\ _)) as [[[-> ->] Hx]|N1],
           (decide ((o' = fl_owner c /\ fd' = fl_fd c) /\ _)) as [[[-> ->] Hx']|N2].
  - naive_solver.
  - destruct H1 as [-> Hnu]. destruct (Hfree o' fd' x t'); try done; naive_solver.
  - destruct H2 as [-> Hnu]. destruct (Hfree o fd x t); try done; naive_solver.
  - by eapply Hex.
Qed.

(** C8: Mutual exclusion: [fcntl_setlk] (with F_SETLK or F_SETLKW, any descriptor,
    any [struct flock] from user space) never panics, and from a well-formed
    state in which locks of different owners overlap only when both are read
    locks it ends in such a state again, or sleeps with nothing changed.
    Condition ([no_wrap]): a request that reaches the last offset (one to the
    end of file) comes from a caller that holds no lock of that type on the file. *)
Theorem setlk_mutual_exclusion current sig_pending verify filp s fd cmd l :
  wf s -> exclusive (i_flock s) -> l_len l < 2 ^ 31 ->
  (forall f c, filp = Some f -> setlk_request current f l fd = Some c -> no_wrap (i_flock s) c) ->
  exists res, fcntl_setlk current sig_pending verify filp s fd cmd l = Some res /\
    match res with
    | Done r s' => wf s' /\ exclusive (i_flock s') /\ (r <> 0 -> i_flock s' = i_flock s)
    | Sleep n => cmd = F_SETLKW /\ exists m, m ∈ i_flock s /\ nid m = n
    end.
Proof.
  intros Hw Hex Hlen Hnw. unfold fcntl_setlk.
  destruct (if NR_OPEN <=? fd then None else filp) as [f|] eqn:Ef; [|eexists; by split].
  assert (filp = Some f) as -> by (by case_bool_in Ef).
  specialize (Hnw f). unfold setlk_request in Hnw.
  case_bool; [eexists; by split|].
  pose proof (setlk_request_ok current f l fd) as Hreq. unfold setlk_request in Hreq.
  destruct (copy_flock current f l fd) as [fl|]; [|eexists; by split]. simpl in *.
  destruct (check_mode f fl) as [c|] eqn:Em; [|eexists; by split].
  specialize (Hnw c eq_refl eq_refl). destruct (Hreq c Hlen eq_refl) as ((R1 & R2 & R3) & <- & _).
  destruct (if fl_type c =? F_UNLCK then None else _) as [n|] eqn:Ec.
  - case_bool_in Ec; [done|]. apply List.find_some in Ec as [Hin _].
    destruct (Z.eqb_spec cmd F_SETLKW) as [->|]; [|eexists; by split].
    destruct sig_pending; [eexists; by split|]. eexists; split; [done|]. split; [done|].
    exists n. split; [by apply list_elem_of_In|done].
  - destruct (lock_it_correct current s c) as (r & s' & -> & Hw' & Hcases); try done.
    simpl. eexists; split; [done|]. split; [done|].
    destruct Hcases as [[-> Hu]|[(-> & -> & _)|(-> & _ & Hi & _)]].
    + split; [|done]. eapply exclusive_update; try done.
      destruct (Z.eqb_spec (fl_type c) F_UNLCK); [by left|by right].
    + done.
    + by rewrite Hi.
Qed.

Lemma exclusive_nil : exclusive [].
Proof. intros o fd o' fd' x t t' (n & Hn & _). set_solver. Qed.

Definition ex_file : file := mk_file 3 0 (Some (0x81a4, 100)).

Lemma setlk_mutual_exclusion_witness :
  exists res, fcntl_setlk 7 false 0 (Some ex_file) (mk_lstate [] fcntl_init_locks []) 3 F_SETLK
      (mk_flock F_WRLCK 0 10 10 0) = Some res /\
    match res with
    | Done r s' => wf s' /\ exclusive (i_flock s') /\ (r <> 0 -> i_flock s' = [])
    | Sleep n => F_SETLK = F_SETLKW /\ exists m, m ∈ @nil node /\ nid m = n
    end.
Proof.
  apply (setlk_mutual_exclusion 7 false 0 (Some ex_file) (mk_lstate [] fcntl_init_locks []) 3 F_SETLK
      (mk_flock F_WRLCK 0 10 10 0)).
  - apply wf_init.
  - apply exclusive_nil.
  - simpl. lia.
  - intros f c _ _. right. intros n Hn. simpl in Hn. set_solver.
Defined.

Lemma free_run_spec c task fd G B free wk :
  fl_owner c = Some task -> fl_fd c = fd ->
  Forall (own c) G -> Forall (not_own c) B -> Forall (fun n => fl_owner (lk n) = None) free ->
  exists free' wk', free_run task fd (G ++ B) free wk = Some (B, free', wk') /\
    Forall (fun n => fl_owner (lk n) = None) free' /\ ids free' ≡ₚ ids (G ++ free) /\
    wk' = wk ++ concat (map (fun n => fl_wait (lk n)) G).
Proof.
  intros Ho Hfd. revert free wk. induction G as [|n G IH]; intros free wk HG HB Hf; simpl.
  - exists free, wk. rewrite app_nil_r. split; [|done]. destruct B as [|b B]; [done|]. simpl.
    apply Forall_cons_iff in HB as [Hb _]. unfold not_own, same_owner in Hb. rewrite Ho, Hfd in Hb.
    replace (bool_decide (fl_owner (lk b) = Some task)) with (bool_decide (Some task = fl_owner (lk b)))
      by (apply bool_decide_ext; split; done).
    by rewrite (Z.eqb_sym (fl_fd (lk b))), Hb.
  - apply Forall_cons_iff in HG as [Hn HG]. apply same_owner_iff in Hn as [Hn1 Hn2].
    rewrite Ho in Hn1. rewrite bool_decide_eq_true_2 by done.
    replace (fl_fd (lk n) =? fd) with true by lia. simpl.
    unfold free_lock. rewrite <- Hn1. simpl.
    destruct (IH (mk_node (nid n) (set_owner None (lk n)) :: free) (wk ++ fl_wait (lk n)))
      as (free' & wk' & -> & Hf' & Hp & ->); try done; [by constructor|].
    eexists _, _. split; [done|]. split; [done|]. split; [|by rewrite <- app_assoc].
    rewrite Hp. ids_norm. solve_Permutation.
Qed.

(** closing a descriptor: from a well-formed state [fcntl_remove_locks] never
    panics, keeps the state well formed, removes every lock of this task and
    descriptor and no other, and wakes every task that waits for one of them. *)
Theorem remove_locks_spec task fd s :
  wf s ->
  exists s', fcntl_remove_locks task fd s = Some s' /\ wf s' /\
    (forall o fd' x t, held (i_flock s') o fd' x t <->
       held (i_flock s) o fd' x t /\ ~ (o = Some task /\ fd' = fd)) /\
    (forall n w, n ∈ i_flock s -> fl_owner (lk n) = Some task -> fl_fd (lk n) = fd ->
       w ∈ fl_wait (lk n) -> w ∈ woken s').
Proof.
  intros Hw. pose proof Hw as (W1 & W2 & W3 & W4). set (c := mk_lock (Some task) fd [] 0 0 0 0).
  destruct (W1 c) as (A & G0 & B & E & HA & HG & HB & Hs & Hn).
  unfold fcntl_remove_locks. fold c. rewrite E, (find_owner_split c A G0 B) by done.
  destruct (free_run_spec c task fd G0 B (free_list s) (woken s)) as (free' & wk' & -> & Hf & Hp & ->);
    try done.
  simpl. eexists; split; [done|]. split; [|split].
  - eapply (wf_replace c s _ A G0 [] B); try done; [constructor..|].
    simpl. rewrite !ids_app, Hp, ids_app. solve_Permutation.
  - intros o fd' x t. simpl. rewrite !held_app, (held_own c G0) by done. simpl.
    destruct (decide (o = Some task /\ fd' = fd)) as [[-> ->]|Hne].
    + pose proof (held_not_own c A x t HA). pose proof (held_not_own c B x t HB). simpl in *. tauto.
    + assert (~ (Some task = o /\ fd = fd')) by (intros [? ?]; apply Hne; done). tauto.
  - intros n w Hin Ho Hfd Hwt. simpl. apply elem_of_app. right.
    rewrite !elem_of_app in Hin. assert (Hown : own c n) by (by apply same_owner_iff).
    rewrite !list.Forall_forall in *.
    assert (n ∈ G0) as HinG.
    { destruct Hin as [Hi|[Hi|Hi]]; [|done|].
      - specialize (HA n Hi). unfold own, not_own in *. congruence.
      - specialize (HB n Hi). unfold own, not_own in *. congruence. }
    apply list_elem_of_In, in_concat. exists (fl_wait (lk n)).
    split; [|by apply list_elem_of_In]. apply in_map_iff. exists n. split; [done|by apply list_elem_of_In].
Qed.

Lemma remove_locks_spec_witness :
  exists s', fcntl_remove_locks 7 3 (mk_lstate [] fcntl_init_locks []) = Some s' /\ wf s'.
Proof.
  destruct (remove_locks_spec 7 3 (mk_lstate [] fcntl_init_locks []) wf_init) as (s' & E & Hw & _).
  by exists s'.
Defined.

(** [fcntl_getlk] on a valid request answers with the first lock of the file
    that conflicts with it, its range given back as absolute start and length
    (0 for "to the end of the file"), or says F_UNLCK exactly when no lock of
    the file conflicts. *)
Theorem getlk_spec pid_of current filp s fd l c :
  wf s -> fd < NR_OPEN -> l_type l <> F_UNLCK -> copy_flock current filp l fd = Some c ->
  exists out, fcntl_getlk pid_of current 0 (Some filp) s fd l = (0, Some out) /\
    ((l_type out = F_UNLCK /\ forall n, n ∈ i_flock s -> conflict c (lk n) = false) \/
     (exists n o, n ∈ i_flock s /\ conflict c (lk n) = true /\ fl_owner (lk n) = Some o /\
        l_type out = ntype n /\ l_pid out = pid_of o /\ l_start out = nstart n /\
        (if nend n =? OFFSET_MAX then l_len out = 0
         else l_len out = nend n - nstart n + 1 /\ 0 < l_len out))).
Proof.
  intros Hw Hfd Hu Hc. unfold fcntl_getlk.
  destruct (Z.leb_spec NR_OPEN fd); [lia|]. cbn [Z.eqb negb].
  destruct (Z.eqb_spec (l_type l) F_UNLCK) as [?|_]; [done|]. rewrite Hc.
  destruct (List.find _ (i_flock s)) as [n|] eqn:Ef.
  - apply List.find_some in Ef as [Hin Hcf]. apply list_elem_of_In in Hin.
    destruct Hw as (_ & W2 & _). rewrite list.Forall_forall in W2.
    destruct (W2 n Hin) as [(K1 & K2 & K3 & _) [o Ho]]. rewrite Ho.
    eexists; split; [done|]. right. exists n, o. do 6 (split; [done|]). simpl.
    unfold nstart, nend, OFFSET_MAX in *. case_bool; [done|].
    rewrite (s32_small (fl_end _ - _)), s32_small by lia. lia.
  - eexists; split; [done|]. left. split; [done|]. intros n Hn.
    by apply (List.find_none _ _ Ef n), list_elem_of_In.
Qed.

Lemma getlk_spec_witness :
  exists out, fcntl_getlk (fun t => t) 7 0 (Some ex_file) (mk_lstate [] fcntl_init_locks []) 3
      (mk_flock F_RDLCK 0 5 1 0) = (0, Some out) /\ l_type out = F_UNLCK.
Proof.
  destruct (getlk_spec (fun t => t) 7 ex_file (mk_lstate [] fcntl_init_locks []) 3 (mk_flock F_RDLCK 0 5 1 0)
    (mk_lock (Some 7) 3 [] F_RDLCK 0 5 5)) as (out & E & [[Ht _]|(n & _ & Hn & _)]); try done.
  - apply wf_init.
  - by exists out.
  - simpl in Hn. set_solver.
Defined.

(** the end-of-file overflow: an owner with a read lock on 0..10 and a write
    lock on 20..30 asks for a read lock from 0 to the end of the file.  The test
    [fl_start > fl_end + 1] wraps, the loop stops at the first lock of the same
    type, and the old write lock stays: offset 25 is read-locked and
    write-locked by the same owner, and the list is no longer sorted. *)
Theorem lock_to_eof_keeps_write_lock :
  exists s1 s2 s3,
    lock_it 7 (mk_lstate [] fcntl_init_locks []) (ex_request F_RDLCK 0 10) 3 = Some (0, s1) /\
    lock_it 7 s1 (ex_request F_WRLCK 20 30) 3 = Some (0, s2) /\
    lock_it 7 s2 (ex_request F_RDLCK 0 OFFSET_MAX) 3 = Some (0, s3) /\
    held (i_flock s3) (Some 7) 3 25 F_RDLCK /\ held (i_flock s3) (Some 7) 3 25 F_WRLCK /\
    ~ sorted (i_flock s3).
Proof.
  eexists _, _, _. split; [vm_compute; reflexivity|]. split; [vm_compute; reflexivity|].
  split; [vm_compute; reflexivity|]. cbn [i_flock]. unfold held, nstart, nend, ntype. split; [|split].
  - eexists. split; [left|]. repeat split; done.
  - eexists. split; [right; right; left|]. repeat split; done.
  - intros Hs. apply sorted_cons in Hs as [_ Hs].
    specialize (Hs _ ltac:(left)). by vm_compute in Hs.
Qed.

End Locks.
