(* ===== verification/Vsprintf.v ===== *)
(** * Number parsing and formatted output ([src/kernel/vsprintf.c], [src/lib/ctype.c])

    Characters are their codes, strings are lists without the terminating NUL;
    reading at the end of a string gives 0.  [vsprintf] takes the list of its
    variadic arguments and returns the characters written, and the stores made
    by [%n].  A missing argument or one of another type is [BadArg] (undefined
    behaviour in C). *)

From S2P Require Import Prelude.
From Stdlib Require Import ZArith Lia Ascii.
From Stdlib Require String.
Import String.StringSyntax.
From stdpp Require Import base list gmap numbers.
Local Open Scope string_scope.
Local Open Scope Z_scope.

Module Vsprintf.

(** Character codes of a literal. *)
Fixpoint codes (s : String.string) : list Z :=
  match s with
  | String.EmptyString => []
  | String.String a s => Z.of_nat (nat_of_ascii a) :: codes s
  end.

Definition ch (s : String.string) : Z := hd 0 (codes s).

(** ** Character classes *)

Definition _U : Z := 0x01.
Definition _L : Z := 0x02.
Definition _D : Z := 0x04.
Definition _C : Z := 0x08.
Definition _P : Z := 0x10.
Definition _S : Z := 0x20.
Definition _X : Z := 0x40.
Definition _SP : Z := 0x80.

(** The table; entry 0 is for EOF. *)
Definition _ctype : list Z :=
  [0x00] ++
  repeat _C 8 ++                                                       (* 0-7 *)
  [_C] ++ repeat (_C + _S) 5 ++ [_C; _C] ++                            (* 8-15 *)
  repeat _C 8 ++ repeat _C 8 ++                                        (* 16-31 *)
  [_S + _SP] ++ repeat _P 7 ++ repeat _P 8 ++                          (* 32-47 *)
  repeat _D 8 ++ [_D; _D] ++ repeat _P 6 ++                            (* 48-63 *)
  [_P] ++ repeat (_U + _X) 6 ++ [_U] ++ repeat _U 8 ++ repeat _U 8 ++  (* 64-87 *)
  repeat _U 3 ++ repeat _P 5 ++                                        (* 88-95 *)
  [_P] ++ repeat (_L + _X) 6 ++ [_L] ++ repeat _L 8 ++ repeat _L 8 ++  (* 96-119 *)
  repeat _L 3 ++ repeat _P 4 ++ [_C] ++                                (* 120-127 *)
  repeat 0 128.                                                        (* 128-255 *)

(** [(_ctype+1)[c]]; the table has no entry outside -1..255. *)
Definition ctype (c : Z) : Z := match get _ctype (c + 1) with Some v => v | None => 0 end.

Definition isdigit (c : Z) : bool := has (ctype c) _D.
Definition islower (c : Z) : bool := has (ctype c) _L.
Definition isxdigit (c : Z) : bool := has (ctype c) (_D + _X).
Definition toupper (c : Z) : Z := if islower c then c - (ch "a" - ch "A") else c.

(** ** [simple_strtoul] *)

Definition digit_value (c : Z) : Z :=
  if isdigit c then c - ch "0"
  else (if islower c then toupper c else c) - ch "A" + 10.

Definition at0 (s : list Z) : Z := hd 0 s.

(** The [while] loop; the result is 32 bits wide. *)
Fixpoint strtoul_loop (cp : list Z) (base result : Z) : Z * list Z :=
  match cp with
  | [] => (result, [])
  | c :: tl =>
      if isxdigit c && (digit_value c <? base)
      then strtoul_loop tl base (u32 (result * base + digit_value c))
      else (result, cp)
  end.

(** Result and the rest of the string ([*endp]). *)
Definition simple_strtoul (cp : list Z) (base : Z) : Z * list Z :=
  if base =? 0 then
    if at0 cp =? ch "0" then
      let cp := tl cp in
      if (at0 cp =? ch "x") && isxdigit (at0 (tl cp))
      then strtoul_loop (tl cp) 16 0
      else strtoul_loop cp 8 0
    else strtoul_loop cp 10 0
  else strtoul_loop cp base 0.

(** ** [skip_atoi] and [number] *)

Definition is_digit (c : Z) : bool := (ch "0" <=? c) && (c <=? ch "9").

Fixpoint skip_atoi_loop (s : list Z) (i : Z) : Z * list Z :=
  match s with
  | c :: tl => if is_digit c then skip_atoi_loop tl (s32 (i * 10 + c - ch "0")) else (i, s)
  | [] => (i, [])
  end.

Definition skip_atoi (s : list Z) : Z * list Z := skip_atoi_loop s 0.

Definition ZEROPAD : Z := 1.
Definition SIGN : Z := 2.
Definition PLUS : Z := 4.
Definition SPACE : Z := 8.
Definition LEFT : Z := 16.
Definition SPECIAL : Z := 32.
Definition SMALL : Z := 64.

Definition upper_digits : list Z := codes "0123456789ABCDEFGHIJKLMNOPQRSTUVWXYZ".
Definition lower_digits : list Z := codes "0123456789abcdefghijklmnopqrstuvwxyz".

(** [while (num != 0) tmp[i++] = digits[do_div(num,base)];] least significant
    digit first.  [do_div] divides the 32-bit pattern as an unsigned number. *)
Fixpoint tmp_digits (fuel : nat) (digits : list Z) (num base : Z) : list Z :=
  match fuel with
  | O => []
  | S fuel =>
      if num =? 0 then []
      else match get digits (num mod base) with
           | Some d => d :: tmp_digits fuel digits (num / base) base
           | None => []
           end
  end.

(** [while (size-- > 0) *str++ = c;]: what is written and the final [size]. *)
Definition pad (size c : Z) : list Z * Z :=
  (repeat c (Z.to_nat size), if 0 <? size then -1 else size - 1).

(** [number]: [None] is the result 0 (bad base). *)
Definition number (num base size precision type : Z) : option (list Z) :=
  let digits := if has type SMALL then lower_digits else upper_digits in
  let type := if has type LEFT then Z.land type (Z.lnot ZEROPAD) else type in
  if (base <? 2) || (36 <? base) then None
  else
    let c := if has type ZEROPAD then ch "0" else ch " " in
    let '(sign, num) :=
      if has type SIGN && (num <? 0) then (ch "-", s32 (- num))
      else ((if has type PLUS then ch "+" else if has type SPACE then ch " " else 0), num) in
    let size := if sign =? 0 then size else size - 1 in
    let size := if has type SPECIAL
                then (if base =? 16 then size - 2 else if base =? 8 then size - 1 else size)
                else size in
    let tmp := if num =? 0 then [ch "0"] else tmp_digits 32 digits (u32 num) base in
    let i := Z.of_nat (length tmp) in
    let precision := if precision <? i then i else precision in
    let size := size - precision in
    let '(s1, size) := if negb (has type (ZEROPAD + LEFT)) then pad size (ch " ") else ([], size) in
    let s2 := if sign =? 0 then [] else [sign] in
    let s3 := if has type SPECIAL
              then (if base =? 8 then [ch "0"]
                    else if base =? 16 then [ch "0"; List.nth 33 digits 0] else [])
              else [] in
    let '(s4, size) := if negb (has type LEFT) then pad size c else ([], size) in
    let '(s5, _) := pad (precision - i) (ch "0") in
    let '(s6, _) := pad size (ch " ") in
    Some (s1 ++ s2 ++ s3 ++ s4 ++ s5 ++ rev tmp ++ s6).

(** ** [vsprintf] *)

Inductive arg :=
| AInt (n : Z)                    (* int, unsigned long, pointer printed by %p *)
| AStr (s : option (list Z))      (* char *, None is NULL *)
| APtr (p : Z).                   (* int * of %n *)

Inductive outcome :=
| Ok (out : list Z) (stores : list (Z * Z))
| BadArg
| NoFuel.

(** "process flags": the characters after '%' until the first that is no flag. *)
Fixpoint flags_of (fmt : list Z) (flags : Z) : Z * list Z :=
  match fmt with
  | c :: tl =>
      if c =? ch "-" then flags_of tl (Z.lor flags LEFT)
      else if c =? ch "+" then flags_of tl (Z.lor flags PLUS)
      else if c =? ch " " then flags_of tl (Z.lor flags SPACE)
      else if c =? ch "#" then flags_of tl (Z.lor flags SPECIAL)
      else if c =? ch "0" then flags_of tl (Z.lor flags ZEROPAD)
      else (flags, fmt)
  | [] => (flags, [])
  end.

(** "get field width": width, flags, rest of the format and of the arguments.
    After '*' the format pointer is not advanced. *)
Definition width_of (fmt : list Z) (flags : Z) (args : list arg)
  : option (Z * Z * list Z * list arg) :=
  if is_digit (at0 fmt) then
    let '(w, fmt) := skip_atoi fmt in Some (w, flags, fmt, args)
  else if at0 fmt =? ch "*" then
    match args with
    | AInt w :: args =>
        if w <? 0 then Some (s32 (- w), Z.lor flags LEFT, fmt, args)
        else Some (w, flags, fmt, args)
    | _ => None
    end
  else Some (-1, flags, fmt, args).

(** "get the precision" *)
Definition precision_of (fmt : list Z) (args : list arg) : option (Z * list Z * list arg) :=
  if at0 fmt =? ch "." then
    let fmt := tl fmt in
    p ← (if is_digit (at0 fmt) then
           let '(p, fmt) := skip_atoi fmt in Some (p, fmt, args)
         else if at0 fmt =? ch "*" then
           match args with
           | AInt p :: args => Some (p, fmt, args)
           | _ => None
           end
         else Some (-1, fmt, args));
    let '(p, fmt, args) := p in
    Some (if p <? 0 then 0 else p, fmt, args)
  else Some (-1, fmt, args).

(** "get the conversion qualifier": it is skipped and not used. *)
Definition skip_qualifier (fmt : list Z) : list Z :=
  let c := at0 fmt in
  if (c =? ch "h") || (c =? ch "l") || (c =? ch "L") then tl fmt else fmt.

(** The padding of %c: [while (--field_width > 0) *str++ = ' ';] *)
Definition pad_c (w : Z) : list Z * Z :=
  (repeat (ch " ") (Z.to_nat (w - 1)), if 1 <? w then 0 else w - 1).

(** The padding of %s: [while (len < field_width--) *str++ = ' ';] *)
Definition pad_s (len w : Z) : list Z * Z :=
  (repeat (ch " ") (Z.to_nat (w - len)), if len <? w then len - 1 else w - 1).

Definition conv_c (flags w : Z) (n : Z) : list Z :=
  let '(s1, w) := if negb (has flags LEFT) then pad_c w else ([], w) in
  let '(s2, _) := pad_c w in
  s1 ++ [u8 n] ++ s2.

Definition conv_s (flags w precision : Z) (s : option (list Z)) : list Z :=
  let s := match s with Some s => s | None => codes "<NULL>" end in
  let len := Z.of_nat (length s) in
  let len := if precision <? 0 then len else if precision <? len then precision else len in
  let '(s1, w) := if negb (has flags LEFT) then pad_s len w else ([], w) in
  let '(s2, _) := pad_s len w in
  s1 ++ take (Z.to_nat len) s ++ s2.

(** The conversion of one integer argument. *)
Definition conv_num (args : list arg) (base flags w precision : Z) : option (list Z * list arg) :=
  match args with
  | AInt n :: args =>
      s ← number (s32 n) base w precision flags;
      Some (s, args)
  | _ => None
  end.

(** The [switch] on the conversion character [c]: what is written, the store of
    %n, the arguments left, and whether the character was consumed ([--fmt] of
    the default case at the end of the format). [written] is [str - buf]. *)
Definition convert (c : Z) (flags w precision : Z) (args : list arg) (written : Z)
  : option (list Z * list (Z * Z) * list arg) :=
  let int base flags w :=
    '(s, args) ← conv_num args base flags w precision; Some (s, [], args) in
  if c =? ch "c" then
    match args with AInt n :: args => Some (conv_c flags w n, [], args) | _ => None end
  else if c =? ch "s" then
    match args with AStr s :: args => Some (conv_s flags w precision s, [], args) | _ => None end
  else if c =? ch "o" then int 8 flags w
  else if c =? ch "p" then
    if w =? -1 then int 16 (Z.lor flags ZEROPAD) 8 else int 16 flags w
  else if c =? ch "x" then int 16 (Z.lor flags SMALL) w
  else if c =? ch "X" then int 16 flags w
  else if (c =? ch "d") || (c =? ch "i") then int 10 (Z.lor flags SIGN) w
  else if c =? ch "u" then int 10 flags w
  else if c =? ch "n" then
    match args with APtr p :: args => Some ([], [(p, written)], args) | _ => None end
  else
    Some ((if c =? ch "%" then [] else [ch "%"]) ++ (if c =? 0 then [] else [c]), [], args).

(** The main loop: [out] is what has been written so far. *)
Fixpoint vsprintf_loop (fuel : nat) (fmt : list Z) (args : list arg)
    (out : list Z) (stores : list (Z * Z)) : outcome :=
  match fuel with
  | O => NoFuel
  | S fuel =>
      match fmt with
      | [] => Ok out stores
      | c :: fmt =>
          if negb (c =? ch "%") then vsprintf_loop fuel fmt args (out ++ [c]) stores
          else
            let '(flags, fmt) := flags_of fmt 0 in
            match width_of fmt flags args with
            | None => BadArg
            | Some (w, flags, fmt, args) =>
                match precision_of fmt args with
                | None => BadArg
                | Some (precision, fmt, args) =>
                    let fmt := skip_qualifier fmt in
                    match convert (at0 fmt) flags w precision args (Z.of_nat (length out)) with
                    | None => BadArg
                    | Some (s, st, args) =>
                        vsprintf_loop fuel (tl fmt) args (out ++ s) (stores ++ st)
                    end
                end
            end
      end
  end.

(** The characters written (without the NUL); the return value is their number. *)
Definition vsprintf (fmt : list Z) (args : list arg) : outcome :=
  vsprintf_loop (S (length fmt)) fmt args [] [].

(** ** Digits *)

(** Both digit tables print [d < 16] as a character [simple_strtoul] reads as [d]. *)
Lemma digit_table d digits :
  0 <= d < 16 -> digits = lower_digits \/ digits = upper_digits ->
  exists c, get digits d = Some c /\ isxdigit c = true /\ digit_value c = d.
Proof.
  intros Hd Hdig.
  assert (Hall : forallb (fun k => match get digits (Z.of_nat k) with
     | Some c => isxdigit c && (digit_value c =? Z.of_nat k) | None => false end) (seq 0 16) = true).
  { destruct Hdig as [-> | ->]; vm_compute; reflexivity. }
  rewrite forallb_forall in Hall. specialize (Hall (Z.to_nat d)).
  rewrite in_seq, Z2Nat.id in Hall by lia.
  destruct (get digits d) as [c|]; [|now discriminate Hall; lia].
  specialize (Hall ltac:(lia)). apply andb_true_iff in Hall as [Hx Hv%Z.eqb_eq].
  now exists c.
Qed.

Lemma strtoul_digit c tl base r :
  isxdigit c = true -> digit_value c < base ->
  strtoul_loop (c :: tl) base r = strtoul_loop tl base (u32 (r * base + digit_value c)).
Proof. intros Hx Hv%Z.ltb_lt. simpl. now rewrite Hx, Hv. Qed.

(** Reading back the digits written by [number]. *)
Lemma strtoul_tmp fuel digits base n rest r :
  digits = lower_digits \/ digits = upper_digits ->
  2 <= base <= 16 -> 0 <= n < base ^ Z.of_nat fuel ->
  let tmp := tmp_digits fuel digits n base in
  strtoul_loop (rev tmp ++ rest) base (u32 r) =
  strtoul_loop rest base (u32 (r * base ^ Z.of_nat (length tmp) + n)).
Proof.
  intros Hdig Hb. revert n rest r. induction fuel as [|fuel IH]; intros n rest r Hn.
  - simpl in *. do 2 f_equal. lia.
  - rewrite Nat2Z.inj_succ, Z.pow_succ_r in Hn by lia. simpl.
    destruct (Z.eqb_spec n 0) as [->|Hn0]; [simpl; do 2 f_equal; lia|].
    pose proof (Z.mod_pos_bound n base). pose proof (Z.div_mod n base).
    destruct (digit_table (n mod base) digits) as (c & -> & Hx & Hv); [lia|done|].
    cbn [rev length]. rewrite <- app_assoc. cbn [app].
    rewrite IH by (split; [apply Z.div_pos; lia|apply Z.div_lt_upper_bound; lia]).
    rewrite strtoul_digit by (done || lia). f_equal.
    rewrite Hv, Nat2Z.inj_succ, Z.pow_succ_r by lia. unfold u32.
    rewrite <- Zplus_mod_idemp_l, Zmult_mod_idemp_l, Zplus_mod_idemp_l. f_equal.
    set (B := base ^ _).
    transitivity (r * (base * B) + (base * (n / base) + n mod base)); [ring|lia].
Qed.

Lemma tmp_digits_length fuel digits n base :
  2 <= base <= 36 -> length digits = 36%nat -> 0 < n -> fuel <> O ->
  (1 <= length (tmp_digits fuel digits n base) <= fuel)%nat.
Proof.
  intros Hb Hd Hn Hf. assert (Hle : forall fuel n, (length (tmp_digits fuel digits n base) <= fuel)%nat).
  { clear. intros fuel. induction fuel as [|k IH]; intros n; simpl; [lia|].
    repeat case_match; simpl; specialize (IH (n / base)); lia. }
  split; [|apply Hle]. destruct fuel; [done|]. simpl.
  destruct (Z.eqb_spec n 0); [lia|].
  destruct (get_in_range digits (n mod base)) as [d ->]; [|simpl; lia].
  pose proof (Z.mod_pos_bound n base). lia.
Qed.

(** Leading zeros do not change the value. *)
Lemma strtoul_zeros k rest base :
  2 <= base <= 16 ->
  strtoul_loop (repeat (ch "0") k ++ rest) base 0 = strtoul_loop rest base 0.
Proof.
  intros Hb. induction k as [|k IH]; [done|]. cbn [repeat app].
  rewrite strtoul_digit; [|done|change (digit_value (ch "0")) with 0; lia].
  exact IH.
Qed.

(** A string that does not go on with a digit of [base]. *)
Definition no_digit (base : Z) (s : list Z) : Prop :=
  match s with [] => True | c :: _ => isxdigit c && (digit_value c <? base) = false end.

Lemma strtoul_stop s base r : no_digit base s -> strtoul_loop s base r = (r, s).
Proof. destruct s; simpl; [done|]. now intros ->. Qed.

(** The digits of [num] as [number] collects them. *)
Definition tmp_of (digits : list Z) (num base : Z) : list Z :=
  if num =? 0 then [ch "0"] else tmp_digits 32 digits (u32 num) base.

Lemma u32_of_s32 n : - 2 ^ 31 <= n < 2 ^ 31 -> u32 n = if n <? 0 then n + 2 ^ 32 else n.
Proof.
  intros H. unfold u32. destruct (Z.ltb_spec n 0); [|apply Z.mod_small; lia].
  rewrite <- (Z.mod_unique n (2 ^ 32) (-1) (n + 2 ^ 32)); lia.
Qed.

Lemma strtoul_tmp_of digits base num rest k :
  digits = lower_digits \/ digits = upper_digits ->
  2 <= base <= 16 -> - 2 ^ 31 <= num < 2 ^ 31 -> no_digit base rest ->
  strtoul_loop (repeat (ch "0") k ++ rev (tmp_of digits num base) ++ rest) base 0
  = (u32 num, rest).
Proof.
  intros Hdig Hb Hnum Hrest. rewrite strtoul_zeros by done. unfold tmp_of.
  destruct (Z.eqb_spec num 0) as [->|Hn].
  - change (rev [ch "0"]) with (repeat (ch "0") 1). rewrite strtoul_zeros by done.
    now apply strtoul_stop.
  - change 0 with (u32 0) at 1. rewrite strtoul_tmp; [|done..|].
    + rewrite Z.mul_0_l, Z.add_0_l, u32_idem. now apply strtoul_stop.
    + pose proof (u32_range num). pose proof (Z.pow_le_mono_l 2 base 32). simpl Z.of_nat. lia.
Qed.

Lemma tmp_of_length digits num base :
  2 <= base <= 36 -> length digits = 36%nat -> - 2 ^ 31 <= num < 2 ^ 31 ->
  (1 <= length (tmp_of digits num base) <= 32)%nat.
Proof.
  intros Hb Hd Hn. unfold tmp_of. destruct (Z.eqb_spec num 0); [simpl; lia|].
  apply tmp_digits_length; try done.
  rewrite u32_of_s32 by done. destruct (Z.ltb_spec num 0); lia.
Qed.

(** ** The layout of [number] *)

(** The flags after a '-' cancelled '0'. *)
Definition norm (type : Z) : Z := if has type LEFT then Z.land type (Z.lnot ZEROPAD) else type.

Lemma has_norm type m : Z.land (Z.lnot ZEROPAD) m = m -> has (norm type) m = has type m.
Proof. intros H. unfold norm. case_bool; [|done]. unfold has. now rewrite <- Z.land_assoc, H. Qed.

Lemma has_or x m k : has x (Z.lor m k) = has x m || has x k.
Proof.
  unfold has. rewrite Z.land_lor_distr_r.
  destruct (Z.eqb_spec (Z.lor (Z.land x m) (Z.land x k)) 0) as [E|E].
  - apply Z.lor_eq_0_iff in E as [-> ->]. done.
  - destruct (Z.eqb_spec (Z.land x m) 0) as [E1|]; [|done].
    destruct (Z.eqb_spec (Z.land x k) 0) as [E2|]; [|done]. now rewrite E1, E2 in E.
Qed.

(** The sign character written and the magnitude printed. *)
Definition sign_chars (num type : Z) : list Z :=
  if has type SIGN && (num <? 0) then [ch "-"]
  else if has type PLUS then [ch "+"] else if has type SPACE then [ch " "] else [].

Definition magnitude (num type : Z) : Z :=
  if has type SIGN && (num <? 0) then s32 (- num) else num.

Definition table (type : Z) : list Z := if has type SMALL then lower_digits else upper_digits.

(** The prefix of the '#' flag. *)
Definition prefix_chars (base type : Z) : list Z :=
  if has type SPECIAL
  then (if base =? 8 then [ch "0"] else if base =? 16 then [ch "0"; List.nth 33 (table type) 0] else [])
  else [].

(** Size of the field that is left to fill. *)
Definition slack (num base size precision type : Z) : Z :=
  size - Z.of_nat (length (sign_chars num type)) - Z.of_nat (length (prefix_chars base type))
  - Z.max precision (Z.of_nat (length (tmp_of (table type) (magnitude num type) base))).

Lemma sign_split num type :
  exists sign,
    (if has type SIGN && (num <? 0) then (ch "-", s32 (- num))
     else ((if has type PLUS then ch "+" else if has type SPACE then ch " " else 0), num))
    = (sign, magnitude num type) /\
    (if sign =? 0 then [] else [sign]) = sign_chars num type.
Proof.
  unfold magnitude, sign_chars.
  repeat case_bool; eexists; (split; [reflexivity|done]).
Qed.

Lemma slack_eq sign num base size precision type :
  (if sign =? 0 then [] else [sign]) = sign_chars num type ->
  let tmp := tmp_of (table type) (magnitude num type) base in
  let i := Z.of_nat (length tmp) in
  let size1 := if sign =? 0 then size else size - 1 in
  (if has type SPECIAL
   then (if base =? 16 then size1 - 2 else if base =? 8 then size1 - 1 else size1)
   else size1) - (if precision <? i then i else precision)
  = slack num base size precision type.
Proof.
  intros Hs tmp i size1. unfold slack. fold tmp. rewrite <- Hs. unfold prefix_chars.
  fold i. unfold size1.
  destruct (Z.eqb_spec base 16), (Z.eqb_spec base 8), (has type SPECIAL), (sign =? 0),
    (Z.ltb_spec precision i); subst; simpl; lia.
Qed.

(** Exactly one of the three places is padded: spaces before the sign, zeros
    after the prefix, or spaces at the end. *)
Lemma number_layout num base size precision type :
  2 <= base <= 36 ->
  let tmp := tmp_of (table type) (magnitude num type) base in
  let k := Z.to_nat (slack num base size precision type) in
  let left := has type LEFT in
  let zero := has type ZEROPAD in
  number num base size precision type = Some (
    (if left || zero then [] else repeat (ch " ") k) ++
    sign_chars num type ++ prefix_chars base type ++
    (if negb left && zero then repeat (ch "0") k else []) ++
    repeat (ch "0") (Z.to_nat (precision - Z.of_nat (length tmp))) ++ rev tmp ++
    (if left then repeat (ch " ") k else [])).
Proof.
  intros Hb tmp k left zero. unfold number. fold (table type).
  replace ((base <? 2) || (36 <? base)) with false by lia.
  change (if has type LEFT then Z.land type (Z.lnot ZEROPAD) else type) with (norm type).
  assert (Hz : has (norm type) ZEROPAD = negb left && zero).
  { unfold norm, left, zero. destruct (has type LEFT) eqn:E; [|done].
    unfold has. rewrite <- Z.land_assoc. now rewrite Z.land_0_r. }
  assert (Hzl : has (norm type) (ZEROPAD + LEFT) = left || zero).
  { change (ZEROPAD + LEFT) with (Z.lor ZEROPAD LEFT).
    rewrite has_or, Hz, has_norm by done. fold left. now destruct left, zero. }
  rewrite Hz, Hzl, ?(has_norm type SIGN), ?(has_norm type PLUS), ?(has_norm type SPACE),
    ?(has_norm type SPECIAL), ?(has_norm type LEFT) by done.
  destruct (sign_split num type) as (sign & -> & Hs). cbv beta iota zeta.
  fold (tmp_of (table type) (magnitude num type) base).
  rewrite (slack_eq sign num base size precision type Hs : _ = _), Hs. fold tmp.
  set (q := slack _ _ _ _ _) in *. fold left. fold (prefix_chars base type).
  replace ((if precision <? Z.of_nat (length tmp) then Z.of_nat (length tmp) else precision)
           - Z.of_nat (length tmp))
    with (Z.max 0 (precision - Z.of_nat (length tmp))) by (case_bool; lia).
  replace (Z.to_nat (precision - Z.of_nat (length tmp)))
    with (Z.to_nat (Z.max 0 (precision - Z.of_nat (length tmp)))) by lia.
  assert (Hneg : forall z, z <= 0 -> Z.to_nat z = O) by lia.
  unfold pad. destruct left, zero; cbn [negb andb orb]; destruct (Z.ltb_spec 0 q);
    rewrite ?(Hneg (-1)), ?(Hneg (q - 1)), ?(Hneg (q - 1 - 1)) by lia;
    subst k; cbn [repeat app]; rewrite ?(Hneg q) by lia;
    rewrite ?(Hneg (if 0 <? q - 1 then -1 else q - 1 - 1)) by (case_bool; lia);
    cbn [repeat app]; rewrite ?app_nil_r; done.
Qed.

Lemma table_cases type : table type = lower_digits \/ table type = upper_digits.
Proof. unfold table. case_bool; auto. Qed.

Lemma magnitude_range num type :
  - 2 ^ 31 <= num < 2 ^ 31 -> - 2 ^ 31 <= magnitude num type < 2 ^ 31.
Proof. intros H. unfold magnitude. case_bool; [apply s32_range|done]. Qed.

(** [number] fills the field exactly: the output has the requested width,
    or the width of sign, prefix and digits (at least [precision] of them) where
    that is larger, for every combination of flags. *)
Theorem number_width num base size precision type :
  2 <= base <= 36 ->
  exists out, number num base size precision type = Some out /\
    Z.of_nat (length out) =
    Z.max size (Z.of_nat (length (sign_chars num type)) + Z.of_nat (length (prefix_chars base type))
      + Z.max precision (Z.of_nat (length (tmp_of (table type) (magnitude num type) base)))).
Proof.
  intros Hb. eexists. split; [by apply number_layout|].
  rewrite !length_app, length_rev, repeat_length.
  pose proof (eq_refl (slack num base size precision type)) as Hk. unfold slack at 2 in Hk.
  destruct (has type LEFT), (has type ZEROPAD); simpl;
    rewrite repeat_length; lia.
Qed.

(** The flag sets whose output starts with the digits. *)
Definition plain (type : Z) : bool := negb (has type (SIGN + PLUS + SPACE + SPECIAL + LEFT)).

Lemma has_sub x m k : Z.land k m = m -> has x k = false -> has x m = false.
Proof.
  intros Hm. unfold has. rewrite !negb_false_iff, !Z.eqb_eq. intros H.
  rewrite <- Hm, Z.land_assoc, H. apply Z.land_0_l.
Qed.

Lemma plain_flags type :
  plain type = true ->
  has type SIGN = false /\ has type PLUS = false /\ has type SPACE = false /\
  has type SPECIAL = false /\ has type LEFT = false.
Proof.
  unfold plain. rewrite negb_true_iff. intros H.
  repeat split; (eapply has_sub; [|exact H]); done.
Qed.

(** C40: printing and reading back is the identity on 32-bit patterns: for every
    base up to 16, every precision and zero-padded width, [simple_strtoul] reads
    what [number] wrote as the unsigned value of the argument, and stops right
    after it. *)
Theorem number_strtoul num base size precision type rest :
  2 <= base <= 16 -> - 2 ^ 31 <= num < 2 ^ 31 -> plain type = true ->
  has type ZEROPAD = true \/ size <= 0 -> no_digit base rest ->
  exists out, number num base size precision type = Some out /\
    simple_strtoul (out ++ rest) base = (u32 num, rest).
Proof.
  intros Hb Hn (Hs & Hp & Hsp & Hspec & Hl)%plain_flags Hpad Hrest.
  eexists. split; [apply number_layout; lia|].
  unfold sign_chars, prefix_chars, magnitude. rewrite Hs, Hp, Hsp, Hspec, Hl. simpl.
  unfold simple_strtoul. replace (base =? 0) with false by lia.
  assert (Hk : has type ZEROPAD = false -> Z.to_nat (slack num base size precision type) = O).
  { intros Hz. destruct Hpad as [?|?]; [congruence|].
    unfold slack, sign_chars, prefix_chars, magnitude. rewrite Hs, Hp, Hsp, Hspec. simpl. lia. }
  destruct (has type ZEROPAD); rewrite ?Hk by done; simpl;
    rewrite app_nil_r, <- ?app_assoc, ?app_assoc, <- ?repeat_app, <- ?app_assoc;
    apply strtoul_tmp_of; auto using table_cases.
Qed.

Lemma number_strtoul_witness :
  exists out, number (-1) 16 12 (-1) (Z.lor ZEROPAD SMALL) = Some out /\
    simple_strtoul (out ++ codes " rest") 16 = (2 ^ 32 - 1, codes " rest").
Proof.
  apply (number_strtoul (-1) 16 12 (-1) (Z.lor ZEROPAD SMALL) (codes " rest"));
    first [lia | reflexivity | left; reflexivity].
Defined.

Lemma number_width_witness :
  exists out, number 42 10 8 (-1) LEFT = Some out /\ Z.of_nat (length out) = 8.
Proof. apply (number_width 42 10 8 (-1) LEFT). lia. Defined.

(** %d prints the sign and the decimal magnitude of every [int], the most
    negative one included. *)
Lemma number_signed num rest :
  - 2 ^ 31 <= num < 2 ^ 31 -> no_digit 10 rest ->
  exists digits,
    number num 10 (-1) (-1) SIGN = Some ((if num <? 0 then [ch "-"] else []) ++ digits) /\
    simple_strtoul (digits ++ rest) 10 = (Z.abs num, rest).
Proof.
  intros Hn Hrest. rewrite number_layout by lia. simpl.
  assert (Hsl : Z.to_nat (slack num 10 (-1) (-1) SIGN) = O).
  { unfold slack. simpl. lia. }
  rewrite Hsl. simpl. rewrite app_nil_r. unfold sign_chars. simpl.
  eexists. split; [reflexivity|].
  unfold simple_strtoul. simpl (10 =? 0). cbn iota.
  rewrite <- app_assoc, strtoul_tmp_of by (auto using table_cases, magnitude_range; lia).
  f_equal. unfold magnitude. simpl. destruct (Z.ltb_spec num 0).
  - destruct (decide (num = - 2 ^ 31)) as [->|]; [reflexivity|].
    rewrite s32_small, u32_small; lia.
  - rewrite u32_small; lia.
Qed.

(** ** The format loop *)

Lemma flags_of_length fmt flags f fmt' :
  flags_of fmt flags = (f, fmt') -> (length fmt' <= length fmt)%nat.
Proof.
  revert flags. induction fmt as [|c tl IH]; intros flags; simpl; [by intros [= _ <-]|].
  repeat case_bool; intros H; try (apply IH in H; simpl; lia).
  injection H as _ <-. simpl. lia.
Qed.

Lemma skip_atoi_length s i r s' :
  skip_atoi_loop s i = (r, s') -> (length s' <= length s)%nat.
Proof.
  revert i. induction s as [|c tl IH]; intros i; simpl; [by intros [= _ <-]|].
  case_bool; [intros H; apply IH in H; simpl; lia|]. intros [= _ <-]. simpl. lia.
Qed.

Lemma width_of_length fmt flags args w f fmt' args' :
  width_of fmt flags args = Some (w, f, fmt', args') -> (length fmt' <= length fmt)%nat.
Proof.
  unfold width_of, skip_atoi. case_bool.
  - destruct (skip_atoi_loop fmt 0) eqn:E. apply skip_atoi_length in E. by intros [= _ _ <- _].
  - repeat case_match; intros; simplify_eq; done.
Qed.

Lemma precision_of_length fmt args p fmt' args' :
  precision_of fmt args = Some (p, fmt', args') -> (length fmt' <= length fmt)%nat.
Proof.
  assert (Htl : (length (tl fmt) <= length fmt)%nat) by (destruct fmt; simpl; lia).
  unfold precision_of, skip_atoi. case_bool; [|by intros [= _ <- _]].
  case_bool.
  - destruct (skip_atoi_loop (tl fmt) 0) eqn:E. apply skip_atoi_length in E.
    simpl. intros [= _ <- _]. lia.
  - repeat case_match; intros; simplify_eq/=; lia.
Qed.

Lemma skip_qualifier_length fmt : (length (skip_qualifier fmt) <= length fmt)%nat.
Proof. unfold skip_qualifier. case_bool; [destruct fmt; simpl; lia|done]. Qed.

(** [vsprintf] always ends: the loop reads every format character at most
    once, so as many rounds as the format has characters suffice. *)
Theorem vsprintf_terminates fmt args : vsprintf fmt args <> NoFuel.
Proof.
  unfold vsprintf. generalize (@nil Z) as out, (@nil (Z * Z)) as stores.
  assert (H : forall fuel fmt args out stores, (length fmt < fuel)%nat ->
    vsprintf_loop fuel fmt args out stores <> NoFuel); [|intros; apply H; lia].
  clear. intros fuel. induction fuel as [|fuel IH]; intros fmt args out stores Hf; [lia|].
  destruct fmt as [|c fmt]; simpl in *; [done|].
  case_bool; [apply IH; lia|].
  destruct (flags_of fmt 0) as [f fmt1] eqn:E1. apply flags_of_length in E1.
  destruct (width_of fmt1 f args) as [[[[w f2] fmt2] args2]|] eqn:E2; [|done].
  apply width_of_length in E2.
  destruct (precision_of fmt2 args2) as [[[p fmt3] args3]|] eqn:E3; [|done].
  apply precision_of_length in E3. pose proof (skip_qualifier_length fmt3).
  destruct (convert _ _ _ _ _ _) as [[[s st] args4]|]; [|done].
  apply IH. destruct (skip_qualifier fmt3); simpl in *; lia.
Qed.

(** Text without '%' is copied. *)
Lemma vsprintf_loop_text text fuel fmt args out stores :
  Forall (fun c => c <> ch "%") text ->
  vsprintf_loop (length text + fuel) (text ++ fmt) args out stores =
  vsprintf_loop fuel fmt args (out ++ text) stores.
Proof.
  intros Ht. revert out. induction Ht as [|c text Hc Ht IH]; intros out.
  - by rewrite app_nil_r.
  - cbn [app length Nat.add vsprintf_loop]. apply Z.eqb_neq in Hc. rewrite Hc. cbn [negb].
    rewrite IH, <- app_assoc. done.
Qed.

Lemma convert_d n digits k :
  number (s32 n) 10 (-1) (-1) SIGN = Some digits ->
  convert (ch "d") 0 (-1) (-1) [AInt n] k = Some (digits, [], []).
Proof.
  intros H. unfold convert, conv_num. change (Z.lor 0 SIGN) with SIGN. rewrite H. done.
Qed.

Lemma vsprintf_d pre post n digits :
  Forall (fun c => c <> ch "%") pre -> Forall (fun c => c <> ch "%") post ->
  number (s32 n) 10 (-1) (-1) SIGN = Some digits ->
  vsprintf (pre ++ codes "%d" ++ post) [AInt n] = Ok (pre ++ digits ++ post) [].
Proof.
  intros Hpre Hpost Hd. unfold vsprintf.
  replace (S (length (pre ++ codes "%d" ++ post)))
    with (length pre + S (length post + 2))%nat by (rewrite !length_app; simpl; lia).
  rewrite vsprintf_loop_text by done. simpl codes. cbn [app vsprintf_loop].
  change (Z.of_nat _ =? ch "%") with true. cbn [negb].
  change (flags_of _ 0) with (0, ch "d" :: post). cbv iota beta.
  change (width_of _ _ _) with (Some (-1, 0, ch "d" :: post, [AInt n])). cbv iota beta.
  change (precision_of _ _) with (Some (-1, ch "d" :: post, [AInt n])). cbv iota beta.
  change (at0 _) with (ch "d"). rewrite (convert_d n digits) by done. cbv iota beta. simpl tl.
  rewrite <- (app_nil_r post) at 2. rewrite vsprintf_loop_text by done. simpl.
  by rewrite <- app_assoc.
Qed.

(** text around a %d conversion is copied, and the conversion prints the
    sign and the decimal digits of its argument, which [simple_strtoul] reads
    back as the magnitude, for every [int] including the most negative one. *)
Theorem vsprintf_signed pre post n :
  Forall (fun c => c <> ch "%") pre -> Forall (fun c => c <> ch "%") post ->
  - 2 ^ 31 <= n < 2 ^ 31 ->
  exists digits, simple_strtoul digits 10 = (Z.abs n, []) /\
    vsprintf (pre ++ codes "%d" ++ post) [AInt n] =
    Ok (pre ++ (if n <? 0 then [ch "-"] else []) ++ digits ++ post) [].
Proof.
  intros Hpre Hpost Hn.
  destruct (number_signed n []) as (digits & Hd & Hback); [done..|].
  rewrite app_nil_r in Hback. exists digits. split; [done|].
  erewrite vsprintf_d; [|done..|by rewrite s32_small]. by rewrite <- app_assoc.
Qed.

Lemma vsprintf_signed_witness :
  exists digits, simple_strtoul digits 10 = (7, []) /\
    vsprintf (codes "pid " ++ codes "%d" ++ codes ".") [AInt (-7)] =
    Ok (codes "pid " ++ [ch "-"] ++ digits ++ codes ".") [].
Proof.
  apply (vsprintf_signed (codes "pid ") (codes ".") (-7)); [..|lia]; repeat constructor; discriminate.
Defined.

(** a width or a precision given as '*' takes its argument but the format
    pointer stays on the '*', which is then printed as an unknown conversion:
    "%*d" prints itself and the number is lost. *)
Theorem vsprintf_star w n :
  vsprintf (codes "%*d") [AInt w; AInt n] = Ok (codes "%*d") [] /\
  vsprintf (codes "%.*d") [AInt w; AInt n] = Ok (codes "%*d") [].
Proof.
  split; [|reflexivity]. unfold vsprintf. cbn [codes length vsprintf_loop].
  destruct w; reflexivity.
Qed.

End Vsprintf.
