(* ===== verification/Ipc.v ===== *)
(** * System V IPC: permissions shared by semaphores and message queues
    ([src/ipc/util.c], [src/include/linux/ipc.h], [in_group_p] of [src/kernel/sys.c]) *)

From S2P Require Import Prelude.
From Stdlib Require Import ZArith Lia.
From stdpp Require Import base list gmap numbers.
Local Open Scope Z_scope.

Module Ipc.

Definition IPC_PRIVATE : Z := 0.
Definition IPC_CREAT : Z := 512.
Definition IPC_EXCL : Z := 1024.
Definition IPC_NOWAIT : Z := 2048.

Definition IPC_RMID : Z := 0.
Definition IPC_SET : Z := 1.
Definition IPC_STAT : Z := 2.
Definition IPC_INFO : Z := 3.

(** Octal 0777, 0444 and 0222. *)
Definition S_IRWXUGO : Z := 511.
Definition S_IRUGO : Z := 292.
Definition S_IWUGO : Z := 146.

Definition NGROUPS : nat := 32.
Definition NOGROUP : Z := -1.

(** What the IPC code uses of [current] and of the clock: effective ids,
    supplementary groups, [signal & ~blocked != 0], [CURRENT_TIME]. *)
Record cred := Cred {
  pid : Z;
  euid : Z;
  egid : Z;
  groups : list Z;
  pending : bool;
  time : Z
}.

Record ipc_perm := IpcPerm {
  key : Z;
  uid : Z;
  gid : Z;
  cuid : Z;
  cgid : Z;
  mode : Z;
  seq : Z
}.

(** Entries of [semary] and [msgque]. *)
Inductive slot := UNUSED | NOID | Ptr (p : Z).

#[export] Instance slot_eq_dec : EqDecision slot.
Proof. solve_decision. Defined.

Definition suser (c : cred) : bool := euid c =? 0.

Fixpoint in_groups (l : list Z) (grp : Z) : bool :=
  match l with
  | [] => false
  | g :: l => if g =? NOGROUP then false else if g =? grp then true else in_groups l grp
  end.

Definition in_group_p (c : cred) (grp : Z) : bool :=
  if grp =? egid c then true else in_groups (take NGROUPS (groups c)) grp.

(** 0 if allowed, -1 if not. *)
Definition ipcperms (c : cred) (ipcp : ipc_perm) (flag : Z) : Z :=
  if suser c then 0
  else
    let requested_mode := Z.lor (Z.lor (Z.shiftr flag 6) (Z.shiftr flag 3)) flag in
    let granted_mode :=
      if (euid c =? cuid ipcp) || (euid c =? uid ipcp) then Z.shiftr (mode ipcp) 6
      else if in_group_p c (cgid ipcp) || in_group_p c (gid ipcp) then Z.shiftr (mode ipcp) 3
      else mode ipcp in
    if has (Z.land requested_mode (Z.lnot granted_mode)) 7 then -1 else 0.

(** ** The tables of identifiers

    [semary] and [msgque] are searched and trimmed by the same loops. *)

(** The first free entry of a table from [id] on. *)
Fixpoint first_unused (l : list slot) (id : Z) : option Z :=
  match l with
  | [] => None
  | s :: l => if bool_decide (s = UNUSED) then Some id else first_unused l (id + 1)
  end.

(** The loop [while (max && (table[--max] == IPC_UNUSED));] of [freeary] and
    [freeque]. *)
Fixpoint lower_max (ary : list slot) (m : nat) : option Z :=
  match m with
  | O => Some 0
  | S m =>
      match get ary (Z.of_nat m) with
      | None => None
      | Some UNUSED => lower_max ary m
      | Some _ => Some (Z.of_nat m)
      end
  end.

(** ** What [ipcperms] decides *)

(** The three permission bits of the class the caller is in. *)
Definition class_shift (c : cred) (ipcp : ipc_perm) : Z :=
  if (euid c =? cuid ipcp) || (euid c =? uid ipcp) then 6
  else if in_group_p c (cgid ipcp) || in_group_p c (gid ipcp) then 3 else 0.

Lemma has_false_bits x m : has x m = false <-> forall i, 0 <= i -> Z.testbit x i && Z.testbit m i = false.
Proof.
  unfold has. rewrite negb_false_iff, Z.eqb_eq. split.
  - intros H i Hi. rewrite <- Z.land_spec, H. apply Z.bits_0.
  - intros H. apply Z.bits_inj'. intros i Hi. rewrite Z.land_spec, Z.bits_0. auto.
Qed.

Lemma testbit_7 i : 0 <= i -> Z.testbit 7 i = (i <? 3).
Proof. intros Hi. change 7 with (Z.ones 3). rewrite Z.testbit_ones by lia. lia. Qed.

(** A request that asks the same three bits of every class. *)
Lemma requested_bits r i :
  0 <= r < 8 -> 0 <= i < 3 ->
  let flag := r * 64 + r * 8 + r in
  Z.testbit (Z.lor (Z.lor (Z.shiftr flag 6) (Z.shiftr flag 3)) flag) i = Z.testbit r i.
Proof.
  intros Hr Hi flag.
  assert (Hall : forallb (fun r => forallb (fun i =>
    Bool.eqb (Z.testbit (Z.lor (Z.lor (Z.shiftr (r * 64 + r * 8 + r) 6) (Z.shiftr (r * 64 + r * 8 + r) 3))
      (r * 64 + r * 8 + r)) i) (Z.testbit r i)) [0;1;2]) [0;1;2;3;4;5;6;7] = true) by reflexivity.
  rewrite forallb_forall in Hall. assert (In r [0;1;2;3;4;5;6;7]) as Hin by (simpl; lia).
  specialize (Hall r Hin). rewrite forallb_forall in Hall.
  assert (In i [0;1;2]) as Hini by (simpl; lia). specialize (Hall i Hini).
  by apply eqb_prop in Hall.
Qed.

(** [ipcperms] lets a caller through exactly when it is the superuser or
    every requested permission is granted to the class it belongs to: owner or
    creator first, then the two groups, then the others. *)
Theorem ipcperms_spec c ipcp r :
  0 <= r < 8 ->
  ipcperms c ipcp (r * 64 + r * 8 + r) = 0 <->
  (euid c = 0 \/
   forall i, 0 <= i < 3 -> Z.testbit r i = true ->
     Z.testbit (mode ipcp) (class_shift c ipcp + i) = true).
Proof.
  intros Hr. unfold ipcperms, suser. destruct (Z.eqb_spec (euid c) 0) as [|Hroot]; [tauto|].
  cbv zeta. set (req := Z.lor _ _).
  assert (Hg : (if (euid c =? cuid ipcp) || (euid c =? uid ipcp) then Z.shiftr (mode ipcp) 6
      else if in_group_p c (cgid ipcp) || in_group_p c (gid ipcp) then Z.shiftr (mode ipcp) 3
      else mode ipcp) = Z.shiftr (mode ipcp) (class_shift c ipcp)).
  { unfold class_shift. repeat case_bool; done. }
  rewrite Hg. assert (0 <= class_shift c ipcp) by (unfold class_shift; repeat case_bool; lia).
  transitivity (has (Z.land req (Z.lnot (Z.shiftr (mode ipcp) (class_shift c ipcp)))) 7 = false).
  { case_bool; intuition discriminate. }
  rewrite has_false_bits. split.
  - intros Hbits. right. intros i Hi Hri. specialize (Hbits i ltac:(lia)).
    rewrite Z.land_spec, Z.lnot_spec, Z.shiftr_spec, testbit_7 in Hbits by lia.
    unfold req in Hbits. rewrite requested_bits, Hri in Hbits by lia.
    replace (i <? 3) with true in Hbits by lia.
    rewrite Z.add_comm. destruct (Z.testbit (mode ipcp) (i + _)); done.
  - intros [?|Hcl] i Hi; [done|].
    rewrite Z.land_spec, Z.lnot_spec, Z.shiftr_spec, testbit_7 by lia.
    destruct (Z.ltb_spec i 3); [|by rewrite andb_false_r].
    unfold req. rewrite requested_bits by lia. specialize (Hcl i ltac:(lia)).
    rewrite Z.add_comm in Hcl. destruct (Z.testbit r i); [by rewrite Hcl|done].
Qed.

Lemma ipcperms_spec_witness :
  let c := Cred 5 100 10 [20; NOGROUP] false 0 in
  let p := IpcPerm 1 7 20 8 9 0x1B0 0 in
  0 <= 4 < 8 /\ ipcperms c p (4 * 64 + 4 * 8 + 4) = 0.
Proof.
  split; [lia|]. apply (ipcperms_spec (Cred 5 100 10 [20; NOGROUP] false 0)
    (IpcPerm 1 7 20 8 9 0x1B0 0) 4); [lia|].
  right. intros i Hi. assert (i = 0 \/ i = 1 \/ i = 2) as [-> | [-> | ->]] by lia;
    first [reflexivity | discriminate].
Defined.

End Ipc.
