(* ===== verification/IpcTable.v ===== *)
(** * Identifier tables of semaphores and message queues: allocation and release

    [table] relates a table of identifiers ([semary] of [src/ipc/sem.c],
    [msgque] of [src/ipc/msg.c]), its counters and the allocated objects to the
    processes that are in the middle of [newary]/[newque] or
    [freeary]/[freeque].  It is stated on what those operations look at: an
    object is its size, length and sequence number; a process is creating an
    entry of some size ([inl]) or freeing an object ([inr]).  The other
    operations then keep it without a proof of their own. *)

From S2P Require Import Prelude Ipc.
From Stdlib Require Import ZArith Lia.
From stdpp Require Import base list gmap numbers.
Local Open Scope Z_scope.

Module IpcTable.
Import Ipc.

(** Identifiers per table and objects per identifier. *)
Definition MNI : Z := 128.
Definition MSL : Z := 32.

Definition slot_ptr (s : slot) : Z := match s with Ptr _ => 1 | _ => 0 end.

Definition slot_sems (h : gmap Z (Z * nat * Z)) (s : slot) : Z :=
  match s with Ptr p => match h !! p with Some (n, _, _) => n | None => 0 end | _ => 0 end.

Definition proc_sems (x : Z * Z + Z) : Z := match x with inl (_, n) => n | inr _ => 0 end.

Record table (ary : list slot) (us ui mx sq bk : Z)
    (h : gmap Z (Z * nat * Z)) (ps : gmap Z (Z * Z + Z)) : Prop := Table {
  t_len : length ary = Z.to_nat MNI;
  t_heap id p : get ary id = Some (Ptr p) -> is_Some (h !! p);
  t_inj id id' p : get ary id = Some (Ptr p) -> get ary id' = Some (Ptr p) -> id = id';
  t_ds p n l q : h !! p = Some (n, l, q) -> l = Z.to_nat n /\ 1 <= n <= MSL /\ 0 <= q < 2 ^ 16 /\ p < bk;
  t_noid id : get ary id = Some NOID -> exists k n, ps !! k = Some (inl (id, n));
  t_new k id n : ps !! k = Some (inl (id, n)) -> get ary id = Some NOID /\ 1 <= n <= MSL;
  t_new_inj k k' id n n' : ps !! k = Some (inl (id, n)) -> ps !! k' = Some (inl (id, n')) -> k = k';
  t_free k p : ps !! k = Some (inr p) -> is_Some (h !! p) /\ forall id, get ary id <> Some (Ptr p);
  t_free_inj k k' p : ps !! k = Some (inr p) -> ps !! k' = Some (inr p) -> k = k';
  t_owned p : is_Some (h !! p) -> (exists id, get ary id = Some (Ptr p)) \/ exists k, ps !! k = Some (inr p);
  t_max : 0 <= mx < MNI;
  t_max_ge id p : get ary id = Some (Ptr p) -> id <= mx;
  t_ids : ui = lsum slot_ptr ary;
  t_sems : us = lsum (slot_sems h) ary + msum proc_sems ps;
  t_seq : 0 <= sq < 2 ^ 16
}.

(** ** Generic facts *)

Lemma get_lookup {A} (l : list A) i x : get l i = Some x -> 0 <= i /\ l !! Z.to_nat i = Some x.
Proof. unfold get. case_bool; [done|]. intros H. split; [lia|done]. Qed.

Lemma get_elem {A} (l : list A) x : x ∈ l -> exists i, get l i = Some x.
Proof.
  intros [i Hi]%list_elem_of_lookup. exists (Z.of_nat i). unfold get.
  destruct (Z.ltb_spec (Z.of_nat i) 0); [lia|]. by rewrite Nat2Z.id.
Qed.

Lemma lsum_put {A} (f : A -> Z) l l' i x y :
  get l i = Some y -> put l i x = Some l' -> lsum f l' = lsum f l - f y + f x.
Proof.
  intros [Hi Hy]%get_lookup. unfold put. case_bool; [done|]. intros [= <-].
  by apply lsum_insert.
Qed.

Lemma first_unused_spec ary k id :
  first_unused ary k = Some id -> k <= id /\ ary !! Z.to_nat (id - k) = Some UNUSED.
Proof.
  revert k. induction ary as [|s ary IH]; intros k; simpl; [done|].
  case_bool_decide as Hs.
  - intros [= <-]. rewrite Z.sub_diag. subst. split; [lia|done].
  - intros [Hk Hl]%IH. split; [lia|].
    replace (Z.to_nat (id - k)) with (S (Z.to_nat (id - (k + 1)))) by lia. done.
Qed.

Lemma first_unused_get ary id : first_unused ary 0 = Some id -> get ary id = Some UNUSED.
Proof.
  intros [H0 H]%first_unused_spec. unfold get. destruct (Z.ltb_spec id 0); [lia|].
  by rewrite Z.sub_0_r in H.
Qed.

Lemma lower_max_spec ary m mx :
  lower_max ary m = Some mx ->
  0 <= mx <= Z.of_nat m /\ forall id p, id < Z.of_nat m -> get ary id = Some (Ptr p) -> id <= mx.
Proof.
  revert mx. induction m as [|m IH]; intros mx; simpl lower_max.
  - intros [= <-]. split; [lia|]. intros id p Hid [? _]%get_lookup. lia.
  - destruct (get ary (Z.of_nat m)) as [[| |q]|] eqn:Hm; [|intros [= <-]..|done].
    + intros [Hmx Hb]%IH. split; [lia|]. intros id p Hid Hp.
      destruct (decide (id = Z.of_nat m)); [congruence|]. apply (Hb id p); [lia|done].
    + split; [lia|]. intros id p Hid _. lia.
    + split; [lia|]. intros id p Hid _. lia.
Qed.

Lemma lower_max_total ary m :
  (m <= length ary)%nat -> exists mx, lower_max ary m = Some mx.
Proof.
  induction m as [|m IH]; intros Hm; simpl; [eauto|].
  destruct (get_in_range ary (Z.of_nat m)) as [s ->]; [lia|].
  destruct s; eauto. apply IH. lia.
Qed.

(** A change of an entry, seen from another one. *)
Lemma get_put_other {A} (l l' : list A) i j x y :
  put l i x = Some l' -> get l' j = Some y -> x <> y -> j <> i /\ get l j = Some y.
Proof.
  intros Hput Hget Hne. rewrite (get_put l l' i j x Hput) in Hget.
  destruct (Z.eqb_spec j i); [congruence|done].
Qed.

(** ** The transitions *)

(** Reduce lookups in an updated table and in updated maps to the old ones. *)
Ltac table_lookups :=
  repeat match goal with
  | Hp : put ?l ?i ?x = Some ?l', H : get ?l' _ = _ |- _ => rewrite (get_put l l' i _ x Hp) in H
  | Hp : put ?l ?i ?x = Some ?l' |- context [get ?l' _] => rewrite (get_put l l' i _ x Hp)
  | H : context [if ?a =? ?b then _ else _] |- _ => destruct (Z.eqb_spec a b)
  | H : <[_ := _]> _ !! _ = Some _ |- _ => apply lookup_insert_Some in H as [[??]|[??]]
  | H : delete _ _ !! _ = Some _ |- _ => apply lookup_delete_Some in H as [??]
  | H : is_Some (<[_ := _]> _ !! _) |- _ => apply lookup_insert_is_Some in H as [?|[??]]
  | H : is_Some (delete _ _ !! _) |- _ => apply lookup_delete_is_Some in H as [??]
  end; simplify_eq.

Section transitions.
Context (ary ary' : list slot) (us ui mx sq bk : Z).
Context (h : gmap Z (Z * nat * Z)) (ps : gmap Z (Z * Z + Z)).
Context (HT : table ary us ui mx sq bk h ps).

Lemma table_reserve k id n :
  get ary id = Some UNUSED -> put ary id NOID = Some ary' ->
  1 <= n <= MSL -> ps !! k = None ->
  table ary' (us + n) ui mx sq bk h (<[k := inl (id, n)]> ps).
Proof.
  intros Hid Hput Hn Hk. destruct HT. constructor; try done.
  - by rewrite (put_length _ _ _ _ Hput).
  - intros j p H. table_lookups. eauto.
  - intros j j' p H H'. table_lookups. eauto.
  - intros j H. table_lookups.
    + exists k, n. apply lookup_insert_eq.
    + destruct (t_noid0 j H) as (k' & n' & H'). exists k', n'.
      rewrite lookup_insert_ne; [done|]. by intros ->; simplify_eq.
  - intros k' j n' H. table_lookups; [by rewrite Z.eqb_refl|].
    destruct (t_new0 k' j n') as [Hg ?]; [done|]. case_bool; [done|by split].
  - intros k1 k2 j n1 n2 H1 H2. table_lookups; try done; try (by eauto);
      match goal with H : ps !! _ = Some _ |- _ => apply t_new0 in H as [??] end; congruence.
  - intros k' p H. table_lookups. destruct (t_free0 k' p) as [? Hf]; [done|]. split; [done|].
    intros j. rewrite (get_put _ _ _ _ _ Hput). case_bool; [done|apply Hf].
  - intros k1 k2 p H1 H2. table_lookups. eauto.
  - intros p H. destruct (t_owned0 p H) as [[j Hj]|[k' Hk']].
    + left. exists j. rewrite (get_put _ _ _ _ _ Hput). case_bool; [|done].
      apply Z.eqb_eq in Heqb. congruence.
    + right. exists k'. rewrite lookup_insert_ne; [done|]. by intros ->; simplify_eq.
  - intros j p H. table_lookups. eauto.
  - rewrite (lsum_put _ _ _ _ _ _ Hid Hput). simpl. lia.
  - rewrite (lsum_put _ _ _ _ _ _ Hid Hput), msum_insert by done. simpl. lia.
Qed.

Lemma table_fail k id n :
  ps !! k = Some (inl (id, n)) -> put ary id UNUSED = Some ary' ->
  table ary' (us - n) ui mx sq bk h (delete k ps).
Proof.
  intros Hk Hput. destruct HT. destruct (t_new0 k id n Hk) as [Hid Hn]. constructor; try done.
  - by rewrite (put_length _ _ _ _ Hput).
  - intros j p H. table_lookups. eauto.
  - intros j j' p H H'. table_lookups. eauto.
  - intros j H. table_lookups. destruct (t_noid0 j H) as (k' & n' & H'). exists k', n'.
    rewrite lookup_delete_ne; [done|]. by intros ->; simplify_eq.
  - intros k' j n' H. table_lookups. destruct (t_new0 k' j n') as [Hg ?]; [done|].
    case_bool; [|done]. apply Z.eqb_eq in Heqb. subst. exfalso. eauto.
  - intros k1 k2 j n1 n2 H1 H2. table_lookups. eauto.
  - intros k' p H. table_lookups. destruct (t_free0 k' p) as [? Hf]; [done|]. split; [done|].
    intros j. rewrite (get_put _ _ _ _ _ Hput). case_bool; [done|apply Hf].
  - intros k1 k2 p H1 H2. table_lookups. eauto.
  - intros p H. destruct (t_owned0 p H) as [[j Hj]|[k' Hk']].
    + left. exists j. rewrite (get_put _ _ _ _ _ Hput). case_bool; [|done].
      apply Z.eqb_eq in Heqb. congruence.
    + right. exists k'. rewrite lookup_delete_ne; [done|]. by intros ->; simplify_eq.
  - intros j p H. table_lookups. eauto.
  - rewrite (lsum_put _ _ _ _ _ _ Hid Hput). simpl. lia.
  - rewrite (lsum_put _ _ _ _ _ _ Hid Hput). simpl.
    rewrite (msum_delete _ _ _ _ Hk) in t_sems0. simpl in t_sems0. lia.
Qed.

(** Adding or changing an array does not disturb the sum over entries that do
    not point to it. *)
Lemma slot_sems_fresh p x :
  (forall id, get ary id <> Some (Ptr p)) -> lsum (slot_sems (<[p := x]> h)) ary = lsum (slot_sems h) ary.
Proof.
  intros Hp. apply lsum_ext. intros [| |q] Hin; try done. simpl.
  rewrite lookup_insert_ne; [done|]. intros ->. destruct (get_elem _ _ Hin) as [i Hi]. by eapply Hp.
Qed.

Lemma table_alloc k id n :
  ps !! k = Some (inl (id, n)) -> put ary id (Ptr bk) = Some ary' ->
  table ary' us (ui + 1) (if mx <? id then id else mx) sq (bk + 1)
    (<[bk := (n, Z.to_nat n, sq)]> h) (delete k ps).
Proof.
  intros Hk Hput. destruct HT. destruct (t_new0 k id n Hk) as [Hid Hn].
  assert (Hfresh : h !! bk = None).
  { destruct (h !! bk) as [[[n' l'] q']|] eqn:E; [|done]. apply t_ds0 in E. lia. }
  assert (Hno : forall j, get ary j <> Some (Ptr bk)).
  { intros j [x Hx]%t_heap0. congruence. }
  constructor; try done.
  - by rewrite (put_length _ _ _ _ Hput).
  - intros j p H. table_lookups; [by rewrite lookup_insert_eq|].
    apply lookup_insert_is_Some'. eauto.
  - intros j j' p H H'. table_lookups; eauto; by destruct (Hno j) || destruct (Hno j').
  - intros p n' l q H. table_lookups; [lia|]. destruct (t_ds0 p n' l q) as (? & ? & ? & ?); [done|].
    repeat split; lia.
  - intros j H. table_lookups. destruct (t_noid0 j H) as (k' & n' & H'). exists k', n'.
    rewrite lookup_delete_ne; [done|]. by intros ->; simplify_eq.
  - intros k' j n' H. table_lookups. destruct (t_new0 k' j n') as [Hg ?]; [done|].
    case_bool; [|done]. apply Z.eqb_eq in Heqb. subst. exfalso. eauto.
  - intros k1 k2 j n1 n2 H1 H2. table_lookups. eauto.
  - intros k' p H. table_lookups. destruct (t_free0 k' p) as [? Hf]; [done|].
    split; [apply lookup_insert_is_Some'; by right|].
    intros j. rewrite (get_put _ _ _ _ _ Hput). case_bool; [|apply Hf].
    intros [= <-]. rewrite Hfresh in *. by eapply is_Some_None.
  - intros k1 k2 p H1 H2. table_lookups. eauto.
  - intros p H. table_lookups.
    + left. exists id. rewrite (get_put _ _ _ _ _ Hput). by rewrite Z.eqb_refl.
    + destruct (t_owned0 p) as [[j Hj]|[k' Hk']]; [done|..].
      * left. exists j. rewrite (get_put _ _ _ _ _ Hput). case_bool; [|done].
        apply Z.eqb_eq in Heqb. congruence.
      * right. exists k'. rewrite lookup_delete_ne; [done|]. by intros ->; simplify_eq.
  - apply get_Some_range in Hid. rewrite t_len0 in Hid. simpl in Hid. unfold MNI in *.
    destruct (Z.ltb_spec mx id); lia.
  - intros j p H. table_lookups.
    + destruct (Z.ltb_spec mx id); lia.
    + specialize (t_max_ge0 j p). destruct (Z.ltb_spec mx id); naive_solver lia.
  - rewrite (lsum_put _ _ _ _ _ _ Hid Hput). simpl. lia.
  - rewrite (lsum_put _ _ _ _ _ _ Hid Hput), slot_sems_fresh by done.
    cbn [slot_sems]. rewrite lookup_insert_eq.
    rewrite (msum_delete _ _ _ _ Hk) in t_sems0. simpl in t_sems0. lia.
Qed.

(** The part of [freeary] before it waits. *)
Lemma table_unlink k id p n l q mx' :
  get ary id = Some (Ptr p) -> h !! p = Some (n, l, q) -> put ary id UNUSED = Some ary' ->
  ps !! k = None -> 0 <= mx' < MNI ->
  (forall j r, j <> id -> get ary j = Some (Ptr r) -> j <= mx') ->
  table ary' (us - n) (ui - 1) mx' (u16 (sq + 1)) bk
    (<[p := (n, l, u16 (q + 1))]> h) (<[k := inr p]> ps).
Proof.
  intros Hid Hp Hput Hk Hmx Hge. destruct HT. constructor; try done.
  - by rewrite (put_length _ _ _ _ Hput).
  - intros j r H. table_lookups. apply lookup_insert_is_Some'. eauto.
  - intros j j' r H H'. table_lookups. eauto.
  - intros r n' l' q' H. table_lookups; [|by eauto].
    destruct (t_ds0 _ _ _ _ Hp) as (? & ? & ? & ?). pose proof (u16_range (q + 1)). repeat split; lia || done.
  - intros j H. table_lookups. destruct (t_noid0 j H) as (k' & n' & H'). exists k', n'.
    rewrite lookup_insert_ne; [done|]. by intros ->; simplify_eq.
  - intros k' j n' H. table_lookups. destruct (t_new0 k' j n') as [Hg ?]; [done|].
    case_bool; [|done]. apply Z.eqb_eq in Heqb. congruence.
  - intros k1 k2 j n1 n2 H1 H2. table_lookups. eauto.
  - intros k' r H. rewrite lookup_insert_is_Some'. table_lookups.
    + split; [by left|]. intros j. rewrite (get_put _ _ _ _ _ Hput).
      destruct (Z.eqb_spec j id); [done|]. intros Hj. eauto.
    + destruct (t_free0 k' r) as [? Hf]; [done|]. split; [by right|].
      intros j. rewrite (get_put _ _ _ _ _ Hput). case_bool; [done|apply Hf].
  - intros k1 k2 r H1 H2. table_lookups; try done; try (by eauto);
      match goal with H : ps !! _ = Some _ |- _ => apply t_free0 in H as [? Hf] end;
      by destruct (Hf id).
  - intros r H. destruct (decide (r = p)) as [->|]; [right; exists k; apply lookup_insert_eq|].
    rewrite lookup_insert_ne in H by done. destruct (t_owned0 r H) as [[j Hj]|[k' Hk']].
    + left. exists j. rewrite (get_put _ _ _ _ _ Hput). case_bool; [|done].
      apply Z.eqb_eq in Heqb. congruence.
    + right. exists k'. rewrite lookup_insert_ne; [done|]. by intros ->; simplify_eq.
  - intros j r H. table_lookups. eauto.
  - rewrite (lsum_put _ _ _ _ _ _ Hid Hput). simpl. lia.
  - rewrite (lsum_put _ _ _ _ _ _ Hid Hput), msum_insert by done. cbn [slot_sems proc_sems].
    rewrite lookup_insert_eq.
    rewrite (lsum_ext (slot_sems (<[p := _]> h)) (slot_sems h)); [lia|].
    intros [| |r] _; try done. simpl. destruct (decide (r = p)) as [->|].
    + by rewrite lookup_insert_eq, Hp.
    + by rewrite lookup_insert_ne.
  - apply u16_range.
Qed.

(** The end of [freeary]. *)
Lemma table_kfree k p :
  ps !! k = Some (inr p) -> table ary us ui mx sq bk (delete p h) (delete k ps).
Proof.
  intros Hk. destruct HT. destruct (t_free0 k p Hk) as [_ Hno]. constructor; try done.
  - intros j r H. rewrite lookup_delete_ne; [eauto|]. intros ->. by destruct (Hno j).
  - intros r n l q H. table_lookups. eauto.
  - intros j H. destruct (t_noid0 j H) as (k' & n' & H'). exists k', n'.
    rewrite lookup_delete_ne; [done|]. by intros ->; simplify_eq.
  - intros k' j n' H. table_lookups. eauto.
  - intros k1 k2 j n1 n2 H1 H2. table_lookups. eauto.
  - intros k' r H. table_lookups. destruct (t_free0 k' r) as [? Hf]; [done|]. split; [|done].
    rewrite lookup_delete_ne; [done|]. intros ->. eauto.
  - intros k1 k2 r H1 H2. table_lookups. eauto.
  - intros r H. table_lookups. destruct (t_owned0 r) as [?|[k' Hk']]; [done|by left|].
    right. exists k'. rewrite lookup_delete_ne; [done|]. by intros ->; simplify_eq.
  - rewrite (lsum_ext (slot_sems (delete p h)) (slot_sems h)).
    + rewrite (msum_delete _ _ _ _ Hk) in t_sems0. simpl in t_sems0. lia.
    + intros [| |r] Hin; try done. simpl. rewrite lookup_delete_ne; [done|]. intros ->.
      destruct (get_elem _ _ Hin) as [i Hi]. by destruct (Hno i).
Qed.

Lemma table_brk bk' : bk <= bk' -> table ary us ui mx sq bk' h ps.
Proof.
  intros Hle. destruct HT. constructor; try done.
  intros p n l q H. destruct (t_ds0 p n l q H) as (? & ? & ? & ?). repeat split; lia || done.
Qed.

(** The maximal identifier after the removal of [id]. *)
Lemma table_max id :
  exists mx', (if id =? mx then lower_max ary (Z.to_nat mx) else Some mx) = Some mx' /\ 0 <= mx' < MNI
    /\ forall j r, j <> id -> get ary j = Some (Ptr r) -> j <= mx'.
Proof.
  destruct HT. destruct (Z.eqb_spec id mx) as [->|Hne].
  - destruct (lower_max_total ary (Z.to_nat mx)) as [mx' Hl]; [unfold MNI in *; lia|].
    exists mx'. apply lower_max_spec in Hl as Hs. destruct Hs as [Hb Hs].
    split; [done|]. split; [lia|]. intros j r Hj Hr. apply (Hs j r); [|done].
    specialize (t_max_ge0 _ _ Hr). lia.
  - exists mx. split; [done|]. split; [done|]. intros j r _ Hr. by eapply t_max_ge0.
Qed.

End transitions.

End IpcTable.
