(* ===== verification/Sem.v ===== *)
(** * System V semaphores ([src/ipc/sem.c], [src/include/linux/sem.h])

    The kernel is not preemptible: a process runs until it returns from the
    system call or sleeps.  Each operation below is one such uninterrupted run;
    it changes the shared state and ends in [Ret r] (the call returned [r]) or
    [Blocked] (the process sleeps, or is inside a [kmalloc] that may sleep, and
    what it needs to go on is recorded in [procs]).  [resume] is the run after a
    wake-up.  [None] is undefined behaviour: an access outside an array or
    through a pointer to memory that is not allocated.

    Structures are named by their addresses; [kmalloc] returns a fresh address
    or fails when [mem], the number of allocations that still succeed, is 0. *)

From S2P Require Import Prelude Ipc.
From Stdlib Require Import ZArith Lia.
From stdpp Require Import base list gmap numbers.
Local Open Scope Z_scope.

Module Sem.
Import Ipc.

Definition SEM_UNDO : Z := 4096.
Definition GETPID : Z := 11.
Definition GETVAL : Z := 12.
Definition GETALL : Z := 13.
Definition GETNCNT : Z := 14.
Definition GETZCNT : Z := 15.
Definition SETVAL : Z := 16.
Definition SETALL : Z := 17.
Definition SEM_STAT : Z := 18.
Definition SEM_INFO : Z := 19.

Definition SEMMNI : Z := 128.
Definition SEMMSL : Z := 32.
Definition SEMMNS : Z := SEMMNI * SEMMSL.
Definition SEMOPM : Z := 32.
Definition SEMVMX : Z := 32767.
Definition SEMUME : Z := SEMOPM.
Definition SEMMNU : Z := SEMMNS.
Definition SEMAEM : Z := Z.shiftr SEMVMX 1.
Definition SEMMAP : Z := SEMMNS.
Definition SEMUSZ : Z := 20.

Record sem := Sem { sempid : Z; semval : Z; semncnt : Z; semzcnt : Z }.

Record semid_ds := SemidDs {
  sem_perm : ipc_perm;
  sem_otime : Z;
  sem_ctime : Z;
  sem_base : list sem;
  undo : list Z;          (* the id_next chain: addresses of sem_undo *)
  sem_nsems : Z
}.

Record sembuf := Sembuf { sem_num : Z; sem_op : Z; sem_flg : Z }.

Record sem_undo := SemUndo { un_semid : Z; semadj : Z; un_num : Z }.

(** The two wait queues of an array. *)
Inductive event := EvN | EvZ.

#[export] Instance event_eq_dec : EqDecision event.
Proof. solve_decision. Defined.

(** Where a process is inside the semaphore code. [awake]: it is runnable
    again but has not left the wait queue yet. *)
Inductive proc :=
| InFindkey (id key nsems semflg : Z) (awake : bool)      (* on sem_lock *)
| InNewary (id key nsems semflg : Z)                      (* in kmalloc *)
| InSemop (p semid : Z) (sops : list sembuf) (ncnt : Z) (ev : event) (num : Z) (awake : bool)
| InExit (p u num : Z) (awake : bool)                     (* on eventn, in sem_exit *)
| InFreeary (p : Z).                                      (* in schedule(), in freeary *)

Record sst := Sst {
  semary : list slot;
  used_sems : Z;
  used_semids : Z;
  max_semid : Z;
  sem_seq : Z;
  heap : gmap Z semid_ds;
  undos : gmap Z sem_undo;
  semun : gmap Z (list Z);     (* per process: the proc_next chain *)
  procs : gmap Z proc;
  mem : nat;
  brk : Z
}.

Inductive outcome := Ret (r : Z) | Blocked.

Definition set_heap (st : sst) (h : gmap Z semid_ds) : sst :=
  Sst (semary st) (used_sems st) (used_semids st) (max_semid st) (sem_seq st)
    h (undos st) (semun st) (procs st) (mem st) (brk st).
Definition set_undos (st : sst) (u : gmap Z sem_undo) : sst :=
  Sst (semary st) (used_sems st) (used_semids st) (max_semid st) (sem_seq st)
    (heap st) u (semun st) (procs st) (mem st) (brk st).
Definition set_semun (st : sst) (u : gmap Z (list Z)) : sst :=
  Sst (semary st) (used_sems st) (used_semids st) (max_semid st) (sem_seq st)
    (heap st) (undos st) u (procs st) (mem st) (brk st).
Definition set_procs (st : sst) (ps : gmap Z proc) : sst :=
  Sst (semary st) (used_sems st) (used_semids st) (max_semid st) (sem_seq st)
    (heap st) (undos st) (semun st) ps (mem st) (brk st).

(** The process leaves the semaphore code. *)
Definition leave (c : cred) (st : sst) : sst := set_procs st (delete (pid c) (procs st)).
Definition enter (c : cred) (pr : proc) (st : sst) : sst := set_procs st (<[pid c := pr]> (procs st)).

Definition ret (c : cred) (st : sst) (r : Z) : option (sst * outcome) := Some (leave c st, Ret r).

Definition kmalloc (st : sst) : option (Z * sst) :=
  match mem st with
  | O => None
  | S m => Some (brk st, Sst (semary st) (used_sems st) (used_semids st) (max_semid st) (sem_seq st)
      (heap st) (undos st) (semun st) (procs st) m (brk st + 1))
  end.

(** [wake_up]: every process on the queue becomes runnable. *)
Definition wake_proc (p : Z) (ev : event) (pr : proc) : proc :=
  match pr with
  | InSemop q semid sops ncnt e num _ =>
      if bool_decide (q = p /\ e = ev) then InSemop q semid sops ncnt e num true else pr
  | InExit q u num _ => if bool_decide (q = p /\ ev = EvN) then InExit q u num true else pr
  | _ => pr
  end.

Definition wake_up (p : Z) (ev : event) (st : sst) : sst :=
  set_procs st (wake_proc p ev <$> procs st).

Definition wake_lock_proc (pr : proc) : proc :=
  match pr with
  | InFindkey id key nsems semflg _ => InFindkey id key nsems semflg true
  | _ => pr
  end.

(** [if (sem_lock) wake_up (&sem_lock);] *)
Definition wake_sem_lock (st : sst) : sst := set_procs st (wake_lock_proc <$> procs st).

(** Is the process on a wait queue of the array at [p]? *)
Definition waits_on (p : Z) (pr : proc) : bool :=
  match pr with
  | InSemop q _ _ _ _ _ _ => q =? p
  | InExit q _ _ _ => q =? p
  | _ => false
  end.

(** [sma->eventz || sma->eventn] *)
Definition queued (p : Z) (st : sst) : bool :=
  existsb (fun kv => waits_on p kv.2) (map_to_list (procs st)).

(** ** Creation *)

Definition sem_init (m : nat) : sst :=
  Sst (repeat UNUSED (Z.to_nat SEMMNI)) 0 0 0 0 ∅ ∅ ∅ ∅ m 1.

Inductive found := FoundId (id : Z) | NotFound | WaitAt (id : Z).

(** The loop of [findkey] from [id] on; [n] ids are left. *)
Fixpoint findkey_loop (n : nat) (st : sst) (key0 id : Z) : option found :=
  match n with
  | O => Some NotFound
  | S n =>
      match get (semary st) id with
      | None => None
      | Some NOID => Some (WaitAt id)
      | Some UNUSED => findkey_loop n st key0 (id + 1)
      | Some (Ptr p) =>
          sma ← heap st !! p;
          if key0 =? key (sem_perm sma) then Some (FoundId id)
          else findkey_loop n st key0 (id + 1)
      end
  end.

(** The entry at [id] is looked at before [id <= max_semid] is tested again. *)
Definition findkey (st : sst) (key0 id : Z) : option found :=
  findkey_loop (S (Z.to_nat (max_semid st - id))) st key0 id.

(** [newary] up to [kmalloc], which may sleep. *)
Definition newary (c : cred) (st : sst) (key0 nsems semflg : Z) : option (sst * outcome) :=
  if nsems =? 0 then ret c st (- EINVAL)
  else if SEMMNS <? used_sems st + nsems then ret c st (- ENOSPC)
  else
    match first_unused (semary st) 0 with
    | None => ret c st (- ENOSPC)
    | Some id =>
        ary ← put (semary st) id NOID;
        Some (enter c (InNewary id key0 nsems semflg)
          (Sst ary (used_sems st + nsems) (used_semids st) (max_semid st) (sem_seq st)
             (heap st) (undos st) (semun st) (procs st) (mem st) (brk st)), Blocked)
    end.

(** [newary] from the return of [kmalloc] on. *)
Definition newary_alloc (c : cred) (st : sst) (id key0 nsems semflg : Z) : option (sst * outcome) :=
  match kmalloc st with
  | None =>
      ary ← put (semary st) id UNUSED;
      ret c (wake_sem_lock
        (Sst ary (used_sems st - nsems) (used_semids st) (max_semid st) (sem_seq st)
           (heap st) (undos st) (semun st) (procs st) (mem st) (brk st))) (- ENOMEM)
  | Some (p, st) =>
      let ipcp := IpcPerm key0 (euid c) (egid c) (euid c) (egid c)
                    (Z.land semflg S_IRWXUGO) (sem_seq st) in
      let sma := SemidDs ipcp 0 (time c) (repeat (Sem 0 0 0 0) (Z.to_nat nsems)) [] nsems in
      ary ← put (semary st) id (Ptr p);
      ret c (wake_sem_lock
        (Sst ary (used_sems st) (used_semids st + 1)
           (if max_semid st <? id then id else max_semid st) (sem_seq st)
           (<[p := sma]> (heap st)) (undos st) (semun st) (procs st) (mem st) (brk st)))
        (sem_seq st * SEMMNI + id)
  end.

(** [sys_semget] once the lookup of the key has ended. *)
Definition semget_found (c : cred) (st : sst) (key0 nsems semflg : Z) (f : found)
  : option (sst * outcome) :=
  match f with
  | WaitAt id => Some (enter c (InFindkey id key0 nsems semflg false) st, Blocked)
  | NotFound =>
      if negb (has semflg IPC_CREAT) then ret c st (- ENOENT)
      else newary c st key0 nsems semflg
  | FoundId id =>
      if has semflg IPC_CREAT && has semflg IPC_EXCL then ret c st (- EEXIST)
      else
        match get (semary st) id with
        | Some (Ptr p) =>
            sma ← heap st !! p;
            if sem_nsems sma <? nsems then ret c st (- EINVAL)
            else if negb (ipcperms c (sem_perm sma) semflg =? 0) then ret c st (- EACCES)
            else ret c st (seq (sem_perm sma) * SEMMNI + id)
        | _ => None
        end
  end.

Definition sys_semget (c : cred) (st : sst) (key0 nsems semflg : Z) : option (sst * outcome) :=
  if (nsems <? 0) || (SEMMSL <? nsems) then ret c st (- EINVAL)
  else if key0 =? IPC_PRIVATE then newary c st key0 nsems semflg
  else
    f ← findkey st key0 0;
    semget_found c st key0 nsems semflg f.

(** ** Removal *)

(** Clear [semadj] in the records of an undo chain that satisfy [f]. *)
Fixpoint clear_adj (f : sem_undo -> bool) (chain : list Z) (us : gmap Z sem_undo)
  : option (gmap Z sem_undo) :=
  match chain with
  | [] => Some us
  | u :: chain =>
      un ← us !! u;
      clear_adj f chain (if f un then <[u := SemUndo (un_semid un) 0 (un_num un)]> us else us)
  end.

(** The loop of [freeary] that waits for the sleepers to leave. *)
Definition freeary_wait (c : cred) (st : sst) (p : Z) : option (sst * outcome) :=
  if queued p st then
    Some (enter c (InFreeary p) (wake_up p EvN (wake_up p EvZ st)), Blocked)
  else
    _ ← heap st !! p;
    ret c (set_heap st (delete p (heap st))) 0.

Definition set_perm (sma : semid_ds) (ipcp : ipc_perm) : semid_ds :=
  SemidDs ipcp (sem_otime sma) (sem_ctime sma) (sem_base sma) (undo sma) (sem_nsems sma).

Definition set_base (sma : semid_ds) (base : list sem) : semid_ds :=
  SemidDs (sem_perm sma) (sem_otime sma) (sem_ctime sma) base (undo sma) (sem_nsems sma).

Definition freeary (c : cred) (st : sst) (id p : Z) : option (sst * outcome) :=
  sma ← heap st !! p;
  let ipcp := sem_perm sma in
  let sma1 := set_perm sma (IpcPerm (key ipcp) (uid ipcp) (gid ipcp) (cuid ipcp) (cgid ipcp)
                              (mode ipcp) (u16 (seq ipcp + 1))) in
  mx ← (if id =? max_semid st then lower_max (semary st) (Z.to_nat (max_semid st))
        else Some (max_semid st));
  ary ← put (semary st) id UNUSED;
  us ← clear_adj (fun _ => true) (undo sma) (undos st);
  freeary_wait c
    (Sst ary (used_sems st - sem_nsems sma) (used_semids st - 1) mx (u16 (sem_seq st + 1))
       (<[p := sma1]> (heap st)) us (semun st) (procs st) (mem st) (brk st)) p.

(** ** [sys_semctl] *)

(** What the code reads of the caller's memory: [get_fs_long] and 16-bit reads,
    the answer of [verify_area type addr size], and the [uid], [gid] and [mode]
    of a [struct semid_ds] at an address. *)
Record user := User {
  get_fs_long : Z -> Z;
  get_fs_word : Z -> Z;
  verify_area : Z -> Z -> Z -> Z;
  fs_perm : Z -> Z * Z * Z
}.

Definition VERIFY_READ : Z := 0.
Definition VERIFY_WRITE : Z := 1.
Definition SIZEOF_SEMID_DS : Z := 44.
Definition SIZEOF_SEMINFO : Z := 40.

(** What is copied to the caller's memory. *)
Inductive copied :=
| CInfo (semmap semmni semmns semmnu semmsl semopm semume semusz semvmx semaem : Z)
| CDs (sma : semid_ds)
| CShorts (l : list Z).

Definition ctl_result : Type := option (sst * outcome * list (Z * copied)).

Definition ctl (c : cred) (st : sst) (r : Z) (out : list (Z * copied)) : ctl_result :=
  Some (leave c st, Ret r, out).

(** IPC_INFO and SEM_INFO *)
Definition semctl_info (c : cred) (st : sst) (cmd : Z) (m : user) (arg : Z) : ctl_result :=
  let tmp := get_fs_long m arg in
  if (arg =? 0) || (tmp =? 0) then ctl c st (- EFAULT) []
  else
    let usz := if cmd =? SEM_INFO then used_semids st else SEMUSZ in
    let aem := if cmd =? SEM_INFO then used_sems st else SEMAEM in
    let i := verify_area m VERIFY_WRITE tmp SIZEOF_SEMINFO in
    if negb (i =? 0) then ctl c st i []
    else ctl c st (max_semid st)
           [(tmp, CInfo SEMMAP SEMMNI SEMMNS SEMMNU SEMMSL SEMOPM SEMUME usz SEMVMX aem)].

Definition semctl_stat (c : cred) (st : sst) (semid : Z) (m : user) (arg : Z) : ctl_result :=
  let buf := get_fs_long m arg in
  if (arg =? 0) || (buf =? 0) then ctl c st (- EFAULT) []
  else
    let i := verify_area m VERIFY_WRITE buf SIZEOF_SEMID_DS in
    if negb (i =? 0) then ctl c st i []
    else if max_semid st <? semid then ctl c st (- EINVAL) []
    else
      match get (semary st) semid with
      | None => None
      | Some (Ptr p) =>
          sma ← heap st !! p;
          if negb (ipcperms c (sem_perm sma) S_IRUGO =? 0) then ctl c st (- EACCES) []
          else ctl c st (semid + seq (sem_perm sma) * SEMMNI) [(buf, CDs sma)]
      | Some _ => ctl c st (- EINVAL) []
      end.

(** [nsems] 16-bit words read from the caller's memory. *)
Definition read_shorts (m : user) (a : Z) (n : nat) : list Z :=
  (fun k => u16 (get_fs_word m (a + 2 * Z.of_nat k))) <$> List.seq 0 n.

Definition set_ctime (sma : semid_ds) (t : Z) : semid_ds :=
  SemidDs (sem_perm sma) (sem_otime sma) t (sem_base sma) (undo sma) (sem_nsems sma).

Definition set_val (s : sem) (v : Z) : sem := Sem (sempid s) v (semncnt s) (semzcnt s).

(** SETVAL, after the checks: clear the undo records of the semaphore, set the
    value, wake both queues. *)
Definition semctl_setval (c : cred) (st : sst) (p : Z) (sma : semid_ds) (semnum val : Z) : ctl_result :=
  if negb (ipcperms c (sem_perm sma) S_IWUGO =? 0) then ctl c st (- EACCES) []
  else
    us ← clear_adj (fun un => semnum =? un_num un) (undo sma) (undos st);
    curr ← get (sem_base sma) semnum;
    base ← put (sem_base sma) semnum (set_val curr (u16 val));
    let sma1 := set_base (set_ctime sma (time c)) base in
    ctl c (wake_up p EvZ (wake_up p EvN (set_undos (set_heap st (<[p := sma1]> (heap st))) us))) 0 [].

(** SETALL *)
Definition semctl_setall (c : cred) (st : sst) (p : Z) (sma : semid_ds) (sem_io : list Z) : ctl_result :=
  if negb (ipcperms c (sem_perm sma) S_IWUGO =? 0) then ctl c st (- EACCES) []
  else
    us ← clear_adj (fun _ => true) (undo sma) (undos st);
    let sma1 := set_ctime (set_base sma (zip_with set_val (sem_base sma) sem_io)) (time c) in
    ctl c (wake_up p EvZ (wake_up p EvN (set_undos (set_heap st (<[p := sma1]> (heap st))) us))) 0 [].

(** IPC_SET *)
Definition semctl_set (c : cred) (st : sst) (p : Z) (sma : semid_ds) (tbuf : Z * Z * Z) : ctl_result :=
  let ipcp := sem_perm sma in
  if suser c || (euid c =? cuid ipcp) || (euid c =? uid ipcp) then
    let '(uid0, gid0, mode0) := tbuf in
    let perm := IpcPerm (key ipcp) uid0 gid0 (cuid ipcp) (cgid ipcp)
      (Z.lor (Z.land (mode ipcp) (Z.lnot S_IRWXUGO)) (Z.land mode0 S_IRWXUGO)) (seq ipcp) in
    ctl c (set_heap st (<[p := set_ctime (set_perm sma perm) (time c)]> (heap st))) 0 []
  else ctl c st (- EPERM) [].

Definition sys_semctl (c : cred) (st : sst) (semid semnum cmd : Z) (m : user) (arg : Z) : ctl_result :=
  if (semid <? 0) || (semnum <? 0) || (cmd <? 0) then ctl c st (- EINVAL) []
  else if (cmd =? IPC_INFO) || (cmd =? SEM_INFO) then semctl_info c st cmd m arg
  else if cmd =? SEM_STAT then semctl_stat c st semid m arg
  else
    let id := semid mod SEMMNI in
    match get (semary st) id with
    | None => None
    | Some (Ptr p) =>
        sma ← heap st !! p;
        let ipcp := sem_perm sma in
        let nsems := sem_nsems sma in
        if negb (seq ipcp =? semid / SEMMNI) then ctl c st (- EIDRM) []
        else if nsems <=? semnum then ctl c st (- EINVAL) []
        else
          curr ← get (sem_base sma) semnum;
          let ptr := get_fs_long m arg in
          let no_arg := (arg =? 0) || (ptr =? 0) in
          if cmd =? GETVAL then
            if negb (ipcperms c ipcp S_IRUGO =? 0) then ctl c st (- EACCES) [] else ctl c st (semval curr) []
          else if cmd =? GETPID then
            if negb (ipcperms c ipcp S_IRUGO =? 0) then ctl c st (- EACCES) [] else ctl c st (sempid curr) []
          else if cmd =? GETNCNT then
            if negb (ipcperms c ipcp S_IRUGO =? 0) then ctl c st (- EACCES) [] else ctl c st (semncnt curr) []
          else if cmd =? GETZCNT then
            if negb (ipcperms c ipcp S_IRUGO =? 0) then ctl c st (- EACCES) [] else ctl c st (semzcnt curr) []
          else if cmd =? GETALL then
            if negb (ipcperms c ipcp S_IRUGO =? 0) then ctl c st (- EACCES) []
            else if no_arg then ctl c st (- EFAULT) []
            else
              let i := verify_area m VERIFY_WRITE ptr (nsems * 2) in
              if negb (i =? 0) then ctl c st i []
              else ctl c st 0 [(ptr, CShorts (semval <$> sem_base sma))]
          else if cmd =? SETVAL then
            if arg =? 0 then ctl c st (- EFAULT) []
            else
              let val := s32 ptr in
              if (SEMVMX <? val) || (val <? 0) then ctl c st (- ERANGE) []
              else semctl_setval c st p sma semnum val
          else if cmd =? IPC_RMID then
            if suser c || (euid c =? cuid ipcp) || (euid c =? uid ipcp)
            then '(st, o) ← freeary c st id p; Some (st, o, [])
            else ctl c st (- EPERM) []
          else if cmd =? SETALL then
            if no_arg then ctl c st (- EFAULT) []
            else
              let i := verify_area m VERIFY_READ ptr SIZEOF_SEMID_DS in
              if negb (i =? 0) then ctl c st i []
              else
                let sem_io := read_shorts m ptr (Z.to_nat nsems) in
                if existsb (fun v => SEMVMX <? v) sem_io then ctl c st (- ERANGE) []
                else semctl_setall c st p sma sem_io
          else if cmd =? IPC_STAT then
            if no_arg then ctl c st (- EFAULT) []
            else
              let i := verify_area m VERIFY_WRITE arg SIZEOF_SEMID_DS in
              if negb (i =? 0) then ctl c st i []
              else if negb (ipcperms c ipcp S_IRUGO =? 0) then ctl c st (- EACCES) []
              else ctl c st 0 [(ptr, CDs sma)]
          else if cmd =? IPC_SET then
            if no_arg then ctl c st (- EFAULT) []
            else
              let i := verify_area m VERIFY_READ ptr SIZEOF_SEMID_DS in
              if negb (i =? 0) then ctl c st i []
              else semctl_set c st p sma (fs_perm m ptr)
          else ctl c st (- EINVAL) []
    | Some _ => ctl c st (- EINVAL) []
    end.

(** ** [sys_semop] *)

(** The first loop: [None] is the EFBIG return; otherwise the counts of
    operations with SEM_UNDO ([undos]), that alter ([alter]) and that increment
    ([semncnt]). *)
Fixpoint semop_scan (nsems : Z) (sops : list sembuf) (undos0 alter ncnt : Z) : option (Z * Z * Z) :=
  match sops with
  | [] => Some (undos0, alter, ncnt)
  | sop :: sops =>
      if nsems <? sem_num sop then None
      else
        let undos0 := if has (sem_flg sop) SEM_UNDO then undos0 + 1 else undos0 in
        let alter' := if sem_op sop =? 0 then alter else alter + 1 in
        let ncnt := if negb (sem_op sop =? 0) && (0 <? sem_op sop) then ncnt + 1 else ncnt in
        semop_scan nsems sops undos0 alter' ncnt
  end.

(** Search a process's chain for the record of [semid] and [num];
    the outer [None] is a dangling pointer. *)
Fixpoint find_undo (us : gmap Z sem_undo) (chain : list Z) (semid num : Z) : option (option Z) :=
  match chain with
  | [] => Some None
  | u :: chain =>
      un ← us !! u;
      if (un_semid un =? semid) && (un_num un =? num) then Some (Some u)
      else find_undo us chain semid num
  end.

Definition chain_of (c : cred) (st : sst) : list Z := default [] (semun st !! pid c).

(** "ensure every sop with undo gets an undo structure"; the boolean is false
    when [kmalloc] failed. *)
Fixpoint ensure_undo (c : cred) (st : sst) (p semid : Z) (sops : list sembuf) : option (sst * bool) :=
  match sops with
  | [] => Some (st, true)
  | sop :: sops =>
      if negb (has (sem_flg sop) SEM_UNDO) then ensure_undo c st p semid sops
      else
        r ← find_undo (undos st) (chain_of c st) semid (sem_num sop);
        match r with
        | Some _ => ensure_undo c st p semid sops
        | None =>
            match kmalloc st with
            | None => Some (st, false)
            | Some (u, st) =>
                sma ← heap st !! p;
                let sma1 := SemidDs (sem_perm sma) (sem_otime sma) (sem_ctime sma) (sem_base sma)
                              (u :: undo sma) (sem_nsems sma) in
                let st1 := set_undos st (<[u := SemUndo semid 0 (sem_num sop)]> (undos st)) in
                let st2 := set_semun st1 (<[pid c := u :: chain_of c st]> (semun st)) in
                ensure_undo c (set_heap st2 (<[p := sma1]> (heap st))) p semid sops
            end
        end
  end.

Inductive verdict := Go | Fails (e : Z) | Sleeps (ev : event) (num : Z).

(** The checking loop after [slept:]. *)
Fixpoint semop_check (c : cred) (base : list sem) (sops : list sembuf) : option verdict :=
  match sops with
  | [] => Some Go
  | sop :: sops =>
      curr ← get base (sem_num sop);
      let v := sem_op sop + semval curr in
      if SEMVMX <? v then Some (Fails (- ERANGE))
      else if (sem_op sop =? 0) && negb (semval curr =? 0) then
        if has (sem_flg sop) IPC_NOWAIT then Some (Fails (- EAGAIN))
        else if pending c then Some (Fails (- EINTR))
        else Some (Sleeps EvZ (sem_num sop))
      else if v <? 0 then
        if has (sem_flg sop) IPC_NOWAIT then Some (Fails (- EAGAIN))
        else if pending c then Some (Fails (- EINTR))
        else Some (Sleeps EvN (sem_num sop))
      else semop_check c base sops
  end.

(** The loop that performs the operations: semaphores, undo records, number of
    semaphores that became 0, last value. *)
Fixpoint semop_apply (c : cred) (semid : Z) (chain : list Z) (sops : list sembuf)
    (base : list sem) (us : gmap Z sem_undo) (zcnt last : Z)
  : option (list sem * gmap Z sem_undo * Z * Z) :=
  match sops with
  | [] => Some (base, us, zcnt, last)
  | sop :: sops =>
      curr ← get base (sem_num sop);
      let v := u16 (semval curr + sem_op sop) in
      base ← put base (sem_num sop) (Sem (s16 (pid c)) v (semncnt curr) (semzcnt curr));
      let zcnt := if v =? 0 then zcnt + 1 else zcnt in
      us ← (if negb (has (sem_flg sop) SEM_UNDO) then Some us
            else
              r ← find_undo us chain semid (sem_num sop);
              match r with
              | None => Some us
              | Some u =>
                  un ← us !! u;
                  Some (<[u := SemUndo (un_semid un) (s16 (semadj un - sem_op sop)) (un_num un)]> us)
              end);
      semop_apply c semid chain sops base us zcnt v
  end.

(** Add [dn] and [dz] to the wait counters of a semaphore. *)
Definition bump (base : list sem) (num : Z) (ev : event) (d : Z) : option (list sem) :=
  curr ← get base num;
  put base num
    (match ev with
     | EvN => Sem (sempid curr) (semval curr) (u16 (semncnt curr + d)) (semzcnt curr)
     | EvZ => Sem (sempid curr) (semval curr) (semncnt curr) (u16 (semzcnt curr + d))
     end).

Definition set_otime (sma : semid_ds) (t : Z) : semid_ds :=
  SemidDs (sem_perm sma) t (sem_ctime sma) (sem_base sma) (undo sma) (sem_nsems sma).

(** From the label [slept:] on. *)
Definition semop_slept (c : cred) (st : sst) (p semid : Z) (sops : list sembuf) (ncnt : Z)
  : option (sst * outcome) :=
  sma ← heap st !! p;
  if negb (seq (sem_perm sma) =? semid / SEMMNI) then ret c st (- EIDRM)
  else
    v ← semop_check c (sem_base sma) sops;
    match v with
    | Fails e => ret c st e
    | Sleeps ev num =>
        base ← bump (sem_base sma) num ev 1;
        Some (enter c (InSemop p semid sops ncnt ev num false)
                (set_heap st (<[p := set_base sma base]> (heap st))), Blocked)
    | Go =>
        '(base, us, zcnt, last) ← semop_apply c semid (chain_of c st) sops (sem_base sma) (undos st) 0 0;
        let sma1 := set_otime (set_base sma base) (time c) in
        let st1 := set_undos (set_heap st (<[p := sma1]> (heap st))) us in
        let st2 := if ncnt =? 0 then st1 else wake_up p EvN st1 in
        let st3 := if zcnt =? 0 then st2 else wake_up p EvZ st2 in
        ret c st3 last
    end.

Definition sys_semop (c : cred) (st : sst) (semid tsops : Z) (sops : list sembuf)
  : option (sst * outcome) :=
  let nsops := Z.of_nat (length sops) in
  if (nsops <? 1) || (semid <? 0) then ret c st (- EINVAL)
  else if SEMOPM <? nsops then ret c st (- E2BIG)
  else if tsops =? 0 then ret c st (- EFAULT)
  else
    match get (semary st) (semid mod SEMMNI) with
    | None => None
    | Some (Ptr p) =>
        sma ← heap st !! p;
        match semop_scan (sem_nsems sma) sops 0 0 0 with
        | None => ret c st (- EFBIG)
        | Some (undos0, alter, ncnt) =>
            if negb (ipcperms c (sem_perm sma) (if alter =? 0 then S_IRUGO else S_IWUGO) =? 0)
            then ret c st (- EACCES)
            else
              '(st, ok) ← (if undos0 =? 0 then Some (st, true) else ensure_undo c st p semid sops);
              if negb ok then ret c st (- ENOMEM)
              else semop_slept c st p semid sops ncnt
        end
    | Some _ => ret c st (- EINVAL)
    end.

(** A semop sleeper runs again: take back the wait count, retry. *)
Definition semop_resume (c : cred) (st : sst) (p semid : Z) (sops : list sembuf)
    (ncnt : Z) (ev : event) (num : Z) : option (sst * outcome) :=
  sma ← heap st !! p;
  base ← bump (sem_base sma) num ev (-1);
  semop_slept c (leave c (set_heap st (<[p := set_base sma base]> (heap st)))) p semid sops ncnt.

(** ** [sem_exit] *)

(** One round of the [while (1)] loop for the record [un]; the boolean is false
    when the process goes to sleep. *)
Definition exit_adjust (c : cred) (st : sst) (p u : Z) (un : sem_undo) : option (sst * bool) :=
  sma ← heap st !! p;
  if negb (seq (sem_perm sma) =? un_semid un / SEMMNI) then Some (st, true)
  else
    s ← get (sem_base sma) (un_num un);
    if 0 <=? semval s + semadj un then
      let v := u16 (semval s + semadj un) in
      base ← put (sem_base sma) (un_num un) (Sem (s16 (pid c)) v (semncnt s) (semzcnt s));
      let st1 := set_heap st (<[p := set_otime (set_base sma base) (time c)]> (heap st)) in
      let st2 := if 0 <? semadj un then wake_up p EvN st1 else st1 in
      Some (if v =? 0 then wake_up p EvZ st2 else st2, true)
    else if pending c then Some (st, true)
    else
      base ← bump (sem_base sma) (un_num un) EvN 1;
      Some (enter c (InExit p u (un_num un) false)
              (set_heap st (<[p := set_base sma base]> (heap st))), false).

(** The step of the [for] loop: [*up = u->proc_next, kfree(u)]. *)
Definition exit_next (c : cred) (st : sst) (u : Z) (chain : list Z) : sst :=
  set_semun (set_undos st (delete u (undos st))) (<[pid c := chain]> (semun st)).

(** [current->semun = NULL; return;] *)
Definition exit_done (c : cred) (st : sst) : option (sst * outcome) :=
  ret c (set_semun st (delete (pid c) (semun st))) 0.

(** [*unp = un->id_next] *)
Definition unlink (sma : semid_ds) (u : Z) : semid_ds :=
  SemidDs (sem_perm sma) (sem_otime sma) (sem_ctime sma) (sem_base sma)
    (filter (fun v => v <> u) (undo sma)) (sem_nsems sma).

Fixpoint sem_exit_loop (c : cred) (chain : list Z) (st : sst) : option (sst * outcome) :=
  match chain with
  | [] => exit_done c st
  | u :: chain =>
      un ← undos st !! u;
      match get (semary st) (un_semid un mod SEMMNI) with
      | None => None
      | Some (Ptr p) =>
          sma ← heap st !! p;
          if negb (seq (sem_perm sma) =? un_semid un / SEMMNI)
          then sem_exit_loop c chain (exit_next c st u chain)
          else if negb (bool_decide (u ∈ undo sma)) then exit_done c st
          else
            let st := set_heap st (<[p := unlink sma u]> (heap st)) in
            if semadj un =? 0 then sem_exit_loop c chain (exit_next c st u chain)
            else
              '(st, fin) ← exit_adjust c st p u un;
              if negb fin then Some (st, Blocked)
              else sem_exit_loop c chain (exit_next c st u chain)
      | Some _ => sem_exit_loop c chain (exit_next c st u chain)
      end
  end.

Definition sem_exit (c : cred) (st : sst) : option (sst * outcome) :=
  sem_exit_loop c (chain_of c st) st.

(** A sleeper of [sem_exit] runs again. *)
Definition exit_resume (c : cred) (st : sst) (p u num : Z) : option (sst * outcome) :=
  un ← undos st !! u;
  sma ← heap st !! p;
  base ← bump (sem_base sma) num EvN (-1);
  '(st, fin) ← exit_adjust c (leave c (set_heap st (<[p := set_base sma base]> (heap st)))) p u un;
  if negb fin then Some (st, Blocked)
  else
    let chain := tl (chain_of c st) in
    sem_exit_loop c chain (exit_next c st u chain).

(** ** The system: calls, resumptions and signals in any order *)

Inductive call :=
| Semget (key nsems semflg : Z)
| Semctl (semid semnum cmd : Z) (m : user) (arg : Z)
| Semop (semid tsops : Z) (sops : list sembuf)
| Exit
| Resume
| Signal.                    (* a signal makes the process runnable *)

Definition runnable (pr : proc) : bool :=
  match pr with
  | InFindkey _ _ _ _ awake => awake
  | InSemop _ _ _ _ _ _ awake => awake
  | InExit _ _ _ awake => awake
  | InNewary _ _ _ _ | InFreeary _ => true
  end.

Definition rouse (pr : proc) : proc :=
  match pr with
  | InFindkey id key nsems semflg _ => InFindkey id key nsems semflg true
  | InSemop p semid sops ncnt ev num _ => InSemop p semid sops ncnt ev num true
  | InExit p u num _ => InExit p u num true
  | _ => pr
  end.

Definition resume (c : cred) (st : sst) (pr : proc) : option (sst * outcome) :=
  match pr with
  | InFindkey id key0 nsems semflg _ =>
      f ← findkey st key0 id;
      semget_found c st key0 nsems semflg f
  | InNewary id key0 nsems semflg => newary_alloc c st id key0 nsems semflg
  | InSemop p semid sops ncnt ev num _ => semop_resume c st p semid sops ncnt ev num
  | InExit p u num _ => exit_resume c st p u num
  | InFreeary p => freeary_wait c st p
  end.

(** One uninterrupted run of process [pid c]; a call that the process cannot
    make in its present place leaves the state as it is. *)
Definition exec (c : cred) (k : call) (st : sst) : option (sst * outcome) :=
  match k, procs st !! pid c with
  | Semget key0 nsems semflg, None => sys_semget c st key0 nsems semflg
  | Semctl semid semnum cmd m arg, None => '(st, o, _) ← sys_semctl c st semid semnum cmd m arg; Some (st, o)
  | Semop semid tsops sops, None => sys_semop c st semid tsops sops
  | Exit, None => sem_exit c st
  | Resume, Some pr => if runnable pr then resume c st pr else Some (st, Blocked)
  | Signal, Some pr => Some (enter c (rouse pr) st, Blocked)
  | _, _ => Some (st, Blocked)
  end.

(** ** The two loops of [sys_semop] *)

(** Every operation of the list can be performed on the values of [base]. *)
Definition can_go (base : list sem) (sop : sembuf) : Prop :=
  exists s, get base (sem_num sop) = Some s /\
    0 <= sem_op sop + semval s <= SEMVMX /\ (sem_op sop = 0 -> semval s = 0).

(** What operation number [i] is changed by. *)
Definition delta (sops : list sembuf) (i : Z) : Z :=
  lsum (fun sop => if sem_num sop =? i then sem_op sop else 0) sops.

Lemma semop_check_total c base sops :
  Forall (fun sop => 0 <= sem_num sop < Z.of_nat (length base)) sops ->
  exists v, semop_check c base sops = Some v.
Proof.
  induction 1 as [|sop sops Hr _ IH]; simpl; [eauto|].
  destruct (get_in_range _ _ Hr) as [s ->]. simpl. repeat case_bool; eauto.
Qed.

Lemma semop_check_go c base sops :
  semop_check c base sops = Some Go -> Forall (can_go base) sops.
Proof.
  induction sops as [|sop sops IH]; simpl; [done|].
  destruct (get base (sem_num sop)) as [s|] eqn:Hs; simpl; [|done].
  destruct (Z.ltb_spec SEMVMX (sem_op sop + semval s)); [done|].
  destruct (Z.eqb_spec (sem_op sop) 0), (Z.eqb_spec (semval s) 0); simpl;
    try (repeat case_bool; discriminate);
    (destruct (Z.ltb_spec (sem_op sop + semval s) 0); [repeat case_bool; discriminate|]);
    intros ?%IH; constructor; try done; exists s; (split; [done|]); lia.
Qed.

Lemma semop_check_go_conv c base sops :
  Forall (can_go base) sops -> semop_check c base sops = Some Go.
Proof.
  induction 1 as [|sop sops (s & Hs & Hr & Hz) _ IH]; simpl; [done|]. rewrite Hs. simpl.
  destruct (Z.ltb_spec SEMVMX (sem_op sop + semval s)); [lia|].
  destruct (Z.ltb_spec (sem_op sop + semval s) 0); [lia|].
  destruct (Z.eqb_spec (sem_op sop) 0), (Z.eqb_spec (semval s) 0); simpl; done || lia.
Qed.

Lemma semop_check_sleeps c base sops ev num :
  semop_check c base sops = Some (Sleeps ev num) ->
  exists sop s, sop ∈ sops /\ sem_num sop = num /\ get base num = Some s /\ pending c = false /\
    match ev with EvN => sem_op sop + semval s < 0 | EvZ => sem_op sop = 0 /\ semval s <> 0 end.
Proof.
  induction sops as [|sop sops IH]; simpl; [done|].
  destruct (get base (sem_num sop)) as [s|] eqn:Hs; simpl; [|done].
  destruct (Z.ltb_spec SEMVMX (sem_op sop + semval s)); [done|].
  destruct (Z.eqb_spec (sem_op sop) 0), (Z.eqb_spec (semval s) 0); simpl;
    (destruct (Z.ltb_spec (sem_op sop + semval s) 0);
     try (destruct (has (sem_flg sop) IPC_NOWAIT); [discriminate|];
          destruct (pending c) eqn:?; [discriminate|]; intros [= <- <-];
          exists sop, s; split_and!; [set_solver|done|done|done|lia..]);
     intros (sop' & s' & ? & ?)%IH; exists sop', s'; (split; [set_solver|done])).
Qed.

Lemma find_undo_total us chain semid num :
  (forall u, u ∈ chain -> is_Some (us !! u)) ->
  exists r, find_undo us chain semid num = Some r /\ forall u, r = Some u -> u ∈ chain.
Proof.
  induction chain as [|u chain IH]; intros H; simpl; [exists None; by split|].
  destruct (H u) as [un ->]; [set_solver|]. simpl. case_bool.
  - exists (Some u). split; [done|]. intros ? [= ->]. set_solver.
  - destruct IH as (r & -> & Hr); [set_solver|]. exists r. split; [done|]. set_solver.
Qed.

Lemma delta_other sops i : i ∉ sem_num <$> sops -> delta sops i = 0.
Proof.
  induction sops as [|sop sops IH]; intros Hi; [done|]. simpl in *.
  destruct (Z.eqb_spec (sem_num sop) i); [set_solver|]. rewrite IH; [done|set_solver].
Qed.

(** The array and semaphore an undo record is for. *)
Definition ukey (un : sem_undo) : Z * Z := (un_semid un, un_num un).

(** The record update of one operation with SEM_UNDO. *)
Lemma undo_update us chain semid sop :
  (forall u, u ∈ chain -> is_Some (us !! u)) ->
  exists us',
    (if negb (has (sem_flg sop) SEM_UNDO) then Some us
     else
       r ← find_undo us chain semid (sem_num sop);
       match r with
       | None => Some us
       | Some u =>
           un ← us !! u;
           Some (<[u := SemUndo (un_semid un) (s16 (semadj un - sem_op sop)) (un_num un)]> us)
       end) = Some us' /\
    ukey <$> us' = ukey <$> us /\ forall u, u ∉ chain -> us' !! u = us !! u.
Proof.
  intros H. case_bool; [by eexists|].
  destruct (find_undo_total us chain semid (sem_num sop) H) as ([u|] & -> & Hu); simpl; [|by eexists].
  specialize (Hu u eq_refl). destruct (H u Hu) as [un Hun]. rewrite Hun. simpl. eexists.
  split; [done|]. split.
  - rewrite fmap_insert. apply insert_id. by rewrite lookup_fmap, Hun.
  - intros v Hv. rewrite lookup_insert_ne; [done|]. by intros ->.
Qed.

Lemma fmap_dom_lookup {A B} (f : A -> B) (m m' : gmap Z A) k :
  f <$> m' = f <$> m -> is_Some (m !! k) -> is_Some (m' !! k).
Proof.
  intros H [x Hx]. assert (H' : (f <$> m') !! k = Some (f x)) by (by rewrite H, lookup_fmap, Hx).
  rewrite lookup_fmap in H'. destruct (m' !! k); [eauto|done].
Qed.

Lemma can_go_put base base' sop0 s0 sop :
  put base (sem_num sop0) s0 = Some base' -> sem_num sop <> sem_num sop0 ->
  can_go base sop -> can_go base' sop.
Proof.
  intros Hput Hne (s & Hs & ?). exists s. rewrite (get_put _ _ _ _ _ Hput).
  by destruct (Z.eqb_spec (sem_num sop) (sem_num sop0)).
Qed.

Lemma semop_apply_spec c semid chain sops base us zcnt last :
  NoDup (sem_num <$> sops) -> Forall (can_go base) sops ->
  (forall u, u ∈ chain -> is_Some (us !! u)) ->
  exists base' us' zcnt' last',
    semop_apply c semid chain sops base us zcnt last = Some (base', us', zcnt', last') /\
    length base' = length base /\
    (forall i s, get base i = Some s -> exists s', get base' i = Some s' /\
       semval s' = semval s + delta sops i /\ semncnt s' = semncnt s /\ semzcnt s' = semzcnt s) /\
    ukey <$> us' = ukey <$> us /\ (forall u, u ∉ chain -> us' !! u = us !! u) /\
    zcnt <= zcnt' /\
    (zcnt' = zcnt -> forall i s', i ∈ sem_num <$> sops -> get base' i = Some s' -> semval s' <> 0).
Proof.
  revert base us zcnt last. induction sops as [|sop sops IH]; intros base us zcnt last Hnd Hgo Hch.
  { exists base, us, zcnt, last. split_and!; try done; try set_solver.
    intros i s Hs. exists s. split_and!; try done. simpl. lia. }
  apply Forall_cons_iff in Hgo as [(s & Hs & Hr & Hz) Hgo].
  rewrite fmap_cons in Hnd. apply list.NoDup_cons in Hnd as [Hni Hnd].
  simpl semop_apply. rewrite Hs. simpl.
  rewrite u16_small by (unfold SEMVMX in Hr; lia).
  destruct (put_of_get base (sem_num sop) (Sem (s16 (pid c)) (semval s + sem_op sop) (semncnt s) (semzcnt s)) s Hs)
    as [base1 Hput]. rewrite Hput. simpl.
  destruct (undo_update us chain semid sop Hch) as (us1 & Hus1 & Hk1 & Ho1).
  setoid_rewrite Hus1. simpl.
  destruct (IH base1 us1 (if semval s + sem_op sop =? 0 then zcnt + 1 else zcnt) (semval s + sem_op sop))
    as (base' & us' & zcnt' & last' & -> & Hlen & Hval & Hk & Ho & Hzle & Hznz); [done|..].
  { apply list.Forall_forall. intros sop' Hin. rewrite list.Forall_forall in Hgo.
    eapply can_go_put; [exact Hput| |by apply Hgo]. intros Heq. apply Hni. rewrite <- Heq.
    by apply list_elem_of_fmap_2. }
  { intros u Hu. eapply fmap_dom_lookup; [exact Hk1|by apply Hch]. }
  exists base', us', zcnt', last'. split_and!; try done.
  - rewrite Hlen. by eapply put_length.
  - intros i t Ht.
    assert (exists t1, get base1 i = Some t1 /\ semncnt t1 = semncnt t /\ semzcnt t1 = semzcnt t /\
      semval t1 = semval t + (if sem_num sop =? i then sem_op sop else 0)) as (t1 & Ht1 & En & Ez & Ev).
    { rewrite (get_put _ _ _ _ _ Hput). rewrite (Z.eqb_sym i). destruct (Z.eqb_spec (sem_num sop) i).
      - subst i. rewrite Hs in Ht. injection Ht as <-. by eexists.
      - exists t. split_and!; try done. lia. }
    destruct (Hval _ _ Ht1) as (s' & Hs' & Hv' & Hn' & Hz'). exists s'.
    rewrite Hv', Ev, Hn', Hz'. split_and!; try done. simpl. lia.
  - by rewrite Hk.
  - intros u Hu. rewrite Ho by done. by apply Ho1.
  - destruct (semval s + sem_op sop =? 0); lia.
  - intros Heq i s' Hi Hs'.
    destruct (Z.eqb_spec (semval s + sem_op sop) 0); [lia|].
    apply elem_of_cons in Hi as [->|Hi]; [|by eapply Hznz].
    assert (Hb1 : get base1 (sem_num sop) =
      Some (Sem (s16 (pid c)) (semval s + sem_op sop) (semncnt s) (semzcnt s))).
    { by rewrite (get_put _ _ _ _ _ Hput), Z.eqb_refl. }
    destruct (Hval _ _ Hb1) as (s1 & Hs1 & Hv1 & _). rewrite delta_other in Hv1 by done.
    simpl in Hv1. rewrite Hs1 in Hs'. injection Hs' as <-. lia.
Qed.

End Sem.
