(* ===== verification/SemInv.v ===== *)
(** * The invariant of the semaphore system ([src/ipc/sem.c])

    [inv] has three parts: [table] (IpcTable.v), [chains] for the undo records
    and their two lists, and [waits] for the processes asleep on a semaphore:
    their wait counters, the arrays they point to, and that whoever is not yet
    runnable still has to wait. *)

From S2P Require Import Prelude Ipc Sem IpcTable.
From Stdlib Require Import ZArith Lia.
From stdpp Require Import base list gmap numbers.
Local Open Scope Z_scope.

Module SemInv.
Import Ipc Sem IpcTable.

(** What the table needs to know of an array: size, length, sequence number. *)
Definition shape (sma : semid_ds) : Z * nat * Z :=
  (sem_nsems sma, length (sem_base sma), seq (sem_perm sma)).

(** ... and of a process: in [newary] for an entry and a size, or in [freeary]. *)
Definition tproc (pr : proc) : option (Z * Z + Z) :=
  match pr with
  | InNewary id _ n _ => Some (inl (id, n))
  | InFreeary p => Some (inr p)
  | _ => None
  end.

Definition sleeps (ev : event) (p i : Z) (pr : proc) : bool :=
  match pr with
  | InSemop q _ _ _ e num _ => bool_decide (q = p /\ e = ev /\ num = i)
  | InExit q _ num _ => bool_decide (q = p /\ ev = EvN /\ num = i)
  | _ => false
  end.

(** Number of processes asleep on semaphore [i] of the array at [p]. *)
Definition sleepers (ev : event) (p i : Z) (ps : gmap Z proc) : Z :=
  msum (fun pr => Z.b2z (sleeps ev p i pr)) ps.

(** An operation that cannot proceed at value [v]. *)
Definition blocked (ev : event) (op v : Z) : Prop :=
  match ev with EvN => op + v < 0 | EvZ => op = 0 /\ v <> 0 end.

Definition linked (st : sst) (p : Z) : Prop := exists id, get (semary st) id = Some (Ptr p).

Record waits (st : sst) : Prop := Waits {
  w_cnt p sma i s : heap st !! p = Some sma -> get (sem_base sma) i = Some s ->
    semncnt s = u16 (sleepers EvN p i (procs st)) /\
    semzcnt s = u16 (sleepers EvZ p i (procs st)) /\ 0 <= semval s < 2 ^ 16;
  w_semop k p semid sops ncnt ev num aw :
    procs st !! k = Some (InSemop p semid sops ncnt ev num aw) ->
    exists sma, heap st !! p = Some sma /\ 0 <= num < sem_nsems sma /\
      Forall (fun sop => 0 <= sem_num sop < sem_nsems sma) sops /\ NoDup (sem_num <$> sops) /\
      (ncnt = 0 -> Forall (fun sop => sem_op sop <= 0) sops) /\
      (seq (sem_perm sma) = semid / SEMMNI <-> linked st p) /\
      (aw = false -> linked st p /\
        exists sop s, sop ∈ sops /\ sem_num sop = num /\ get (sem_base sma) num = Some s /\
          blocked ev (sem_op sop) (semval s));
  w_exit k p u num aw :
    procs st !! k = Some (InExit p u num aw) ->
    exists sma un, heap st !! p = Some sma /\ undos st !! u = Some un /\
      un_num un = num /\ 0 <= num < sem_nsems sma /\
      (seq (sem_perm sma) = un_semid un / SEMMNI <-> linked st p) /\
      (aw = false -> linked st p /\
        exists s, get (sem_base sma) num = Some s /\ semval s + semadj un < 0);
  w_find k id key0 nsems semflg aw :
    procs st !! k = Some (InFindkey id key0 nsems semflg aw) ->
    0 <= id < SEMMNI /\ 0 <= nsems <= SEMMSL
}.

Record chains (st : sst) : Prop := Chains {
  u_live id p sma u :
    get (semary st) id = Some (Ptr p) -> heap st !! p = Some sma -> u ∈ undo sma ->
    exists un, undos st !! u = Some un /\
      un_semid un = seq (sem_perm sma) * SEMMNI + id /\ 0 <= un_num un < sem_nsems sma;
  u_chain k l u : semun st !! k = Some l -> u ∈ l -> is_Some (undos st !! u);
  u_nodup k l : semun st !! k = Some l -> NoDup l;
  u_disj k k' l l' u :
    semun st !! k = Some l -> semun st !! k' = Some l' -> u ∈ l -> u ∈ l' -> k = k';
  u_exit k p u num aw :
    procs st !! k = Some (InExit p u num aw) ->
    (exists l, semun st !! k = Some (u :: l)) /\
    forall id q sma, get (semary st) id = Some (Ptr q) -> heap st !! q = Some sma -> u ∉ undo sma;
  u_brk u : is_Some (undos st !! u) -> u < brk st
}.

Definition tbl (st : sst) : Prop :=
  table (semary st) (used_sems st) (used_semids st) (max_semid st) (sem_seq st) (brk st)
    (shape <$> heap st) (omap tproc (procs st)).

Definition inv (st : sst) : Prop := tbl st /\ chains st /\ waits st.

(** ** Processes under [wake_up] *)

Lemma wake_semop p0 ev0 pr p semid sops ncnt ev num aw :
  wake_proc p0 ev0 pr = InSemop p semid sops ncnt ev num aw ->
  exists aw', pr = InSemop p semid sops ncnt ev num aw' /\
    (aw = false -> aw' = false /\ ~ (p = p0 /\ ev = ev0)).
Proof.
  destruct pr; simpl; try case_bool_decide; intros Heq; try discriminate Heq;
    injection Heq; intros; subst; eexists; (split; [reflexivity|naive_solver]).
Qed.

Lemma wake_exit p0 ev0 pr p u num aw :
  wake_proc p0 ev0 pr = InExit p u num aw ->
  exists aw', pr = InExit p u num aw' /\
    (aw = false -> aw' = false /\ ~ (p = p0 /\ ev0 = EvN)).
Proof.
  destruct pr; simpl; try case_bool_decide; intros Heq; try discriminate Heq;
    injection Heq; intros; subst; eexists; (split; [reflexivity|naive_solver]).
Qed.

Lemma sleeps_wake p0 ev0 ev p i pr : sleeps ev p i (wake_proc p0 ev0 pr) = sleeps ev p i pr.
Proof. destruct pr; simpl; try case_bool_decide; done. Qed.

Lemma sleepers_wake p0 ev0 ev p i ps :
  sleepers ev p i (wake_proc p0 ev0 <$> ps) = sleepers ev p i ps.
Proof.
  unfold sleepers. rewrite msum_fmap. apply msum_ext. intros k x _. by rewrite sleeps_wake.
Qed.

Lemma tproc_map (f : proc -> proc) (ps : gmap Z proc) :
  (forall pr, tproc (f pr) = tproc pr) -> omap tproc (f <$> ps) = omap tproc ps.
Proof.
  intros Hf. apply map_eq. intros k. rewrite !lookup_omap, lookup_fmap.
  destruct (ps !! k); simpl; [apply Hf|done].
Qed.

Lemma tproc_wake p ev pr : tproc (wake_proc p ev pr) = tproc pr.
Proof. destruct pr; simpl; try case_bool_decide; done. Qed.

Lemma tproc_lock pr : tproc (wake_lock_proc pr) = tproc pr.
Proof. by destruct pr. Qed.

Lemma tproc_rouse pr : tproc (rouse pr) = tproc pr.
Proof. by destruct pr. Qed.

(** A process that enters or leaves, as the table sees it. *)
Lemma tprocs_insert k pr (ps : gmap Z proc) :
  omap tproc (<[k := pr]> ps) =
  match tproc pr with Some x => <[k := x]> (omap tproc ps) | None => delete k (omap tproc ps) end.
Proof.
  apply map_eq. intros j. rewrite lookup_omap. destruct (decide (j = k)) as [->|Hne].
  - rewrite lookup_insert_eq. simpl. destruct (tproc pr); by rewrite ?lookup_insert_eq, ?lookup_delete_eq.
  - rewrite lookup_insert_ne by done.
    destruct (tproc pr); by rewrite ?lookup_insert_ne, ?lookup_delete_ne, lookup_omap.
Qed.

Lemma tprocs_delete k (ps : gmap Z proc) : omap tproc (delete k ps) = delete k (omap tproc ps).
Proof. apply omap_delete. Qed.

Lemma tprocs_none k (ps : gmap Z proc) : ps !! k = None -> omap tproc ps !! k = None.
Proof. intros H. by rewrite lookup_omap, H. Qed.

(** ** Sleepers under entering and leaving *)

Lemma sleepers_delete_none ev p i k ps : ps !! k = None -> sleepers ev p i (delete k ps) = sleepers ev p i ps.
Proof. intros H. by rewrite delete_id. Qed.

Lemma sleepers_insert ev p i k pr ps :
  ps !! k = None -> sleepers ev p i (<[k := pr]> ps) = Z.b2z (sleeps ev p i pr) + sleepers ev p i ps.
Proof. apply (msum_insert (fun pr => Z.b2z (sleeps ev p i pr))). Qed.

Lemma sleepers_delete ev p i k pr ps :
  ps !! k = Some pr -> sleepers ev p i (delete k ps) = sleepers ev p i ps - Z.b2z (sleeps ev p i pr).
Proof.
  intros H. unfold sleepers. rewrite (msum_delete (fun pr => Z.b2z (sleeps ev p i pr)) ps k pr H). lia.
Qed.

Lemma sleepers_zero ev p i ps :
  (forall k pr, ps !! k = Some pr -> sleeps ev p i pr = false) -> sleepers ev p i ps = 0.
Proof.
  intros H. unfold sleepers. rewrite (msum_ext _ (fun _ => 0)).
  - clear H. induction ps as [|k x ps Hk IH] using map_ind; [done|].
    rewrite (msum_insert (fun _ : proc => 0)) by done. lia.
  - intros k x Hx. by rewrite (H k x).
Qed.

(** ** What the two other parts depend on *)

(** The processes asleep on an array or in [findkey]. *)
Definition wproc (pr : proc) : option proc :=
  match pr with
  | InSemop _ _ _ _ _ _ _ | InExit _ _ _ _ => Some pr
  | InFindkey id key0 nsems semflg _ => Some (InFindkey id key0 nsems semflg true)
  | _ => None
  end.

Lemma wproc_find (ps ps' : gmap Z proc) k id key0 nsems semflg aw :
  omap wproc ps' = omap wproc ps -> ps' !! k = Some (InFindkey id key0 nsems semflg aw) ->
  exists aw', ps !! k = Some (InFindkey id key0 nsems semflg aw').
Proof.
  intros Heq Hk. assert (H : omap wproc ps !! k = Some (InFindkey id key0 nsems semflg true)).
  { by rewrite <- Heq, lookup_omap, Hk. }
  rewrite lookup_omap in H. destruct (ps !! k) as [[]|]; simplify_eq/=; eauto.
Qed.

Definition asleep (pr : proc) : bool :=
  match pr with InSemop _ _ _ _ _ _ _ | InExit _ _ _ _ => true | _ => false end.

Lemma wproc_lookup (ps : gmap Z proc) k pr : asleep pr = true -> ps !! k = Some pr <-> omap wproc ps !! k = Some pr.
Proof.
  intros Hw. rewrite lookup_omap. destruct (ps !! k) as [x|]; simpl; [|done].
  split; [intros [= ->]; by destruct pr|]. destruct x; simpl in *; intros [= <-]; done.
Qed.

Lemma sleepers_wproc ev p i ps : sleepers ev p i ps = sleepers ev p i (omap wproc ps).
Proof.
  unfold sleepers. induction ps as [|k x ps Hk IH] using map_ind; [by rewrite omap_empty|].
  rewrite msum_insert, IH by done.
  assert (omap wproc ps !! k = None) by (by rewrite lookup_omap, Hk).
  destruct (wproc x) as [y|] eqn:Hx.
  - rewrite (omap_insert_Some wproc _ k x y), msum_insert by done.
    destruct x; simpl in *; by simplify_eq.
  - rewrite omap_insert_None, delete_id by done. destruct x; simpl in *; simplify_eq; lia.
Qed.

(** The same arrays are in the table. *)
Definition same_links (st st' : sst) : Prop :=
  forall id p, get (semary st') id = Some (Ptr p) <-> get (semary st) id = Some (Ptr p).

Lemma same_linked st st' p : same_links st st' -> linked st' p <-> linked st p.
Proof. intros H. unfold linked. split; intros [id Hid]; exists id; by apply H. Qed.

Lemma waits_ext st st' :
  heap st' = heap st -> same_links st st' -> undos st' = undos st ->
  omap wproc (procs st') = omap wproc (procs st) -> waits st -> waits st'.
Proof.
  intros Hh Hl Hu Hp [Hc Hs He Hf]. constructor.
  - intros p sma i s. rewrite Hh, !(sleepers_wproc _ _ _ (procs st')), Hp, <- !sleepers_wproc. apply Hc.
  - intros k p semid sops ncnt ev num aw.
    rewrite wproc_lookup, Hp, <- wproc_lookup, Hh by done. intros H.
    destruct (Hs _ _ _ _ _ _ _ _ H) as (sma & ? & ? & ? & ? & ? & ? & Haw).
    exists sma. rewrite (same_linked _ _ _ Hl). eauto 10.
  - intros k p u num aw. rewrite wproc_lookup, Hp, <- wproc_lookup, Hh, Hu by done. intros H.
    destruct (He _ _ _ _ _ H) as (sma & un & ? & ? & ? & ? & ? & Haw).
    exists sma, un. rewrite (same_linked _ _ _ Hl). eauto 10.
  - intros k id key0 nsems semflg aw Hk. destruct (wproc_find _ _ _ _ _ _ _ _ Hp Hk) as [aw' Hk'].
    by eapply Hf.
Qed.

(** Of an undo record the lists only need array and semaphore number ([ukey]);
    of an array its undo list, sequence number and size. *)
Definition ushape (sma : semid_ds) : list Z * Z * Z := (undo sma, seq (sem_perm sma), sem_nsems sma).

Lemma fmap_eq_lookup {A B} (f : A -> B) (m m' : gmap Z A) k x :
  f <$> m' = f <$> m -> m !! k = Some x -> exists x', m' !! k = Some x' /\ f x' = f x.
Proof.
  intros H Hx. assert (H' : (f <$> m') !! k = Some (f x)) by (by rewrite H, lookup_fmap, Hx).
  rewrite lookup_fmap in H'. destruct (m' !! k) as [x'|]; simplify_eq/=. eauto.
Qed.

(** The lists survive when arrays leave the table. *)
Lemma chains_sub st st' :
  (forall id p sma', get (semary st') id = Some (Ptr p) -> heap st' !! p = Some sma' ->
     get (semary st) id = Some (Ptr p) /\ exists sma, heap st !! p = Some sma /\ ushape sma = ushape sma') ->
  ukey <$> undos st' = ukey <$> undos st -> semun st' = semun st -> brk st <= brk st' ->
  (forall k p u num aw, procs st' !! k = Some (InExit p u num aw) ->
     exists aw', procs st !! k = Some (InExit p u num aw')) ->
  chains st -> chains st'.
Proof.
  intros Hsub Hu Hs Hb Hp [Hlive Hch Hnd Hd He Hbk].
  assert (Hun : forall u un, undos st !! u = Some un ->
    exists un', undos st' !! u = Some un' /\ ukey un' = ukey un)
    by (intros; by eapply (fmap_eq_lookup ukey (undos st) (undos st'))).
  constructor.
  - intros id p sma u Hid Hsma Hin. destruct (Hsub _ _ _ Hid Hsma) as (Hid' & sma' & Hsma' & Heq).
    unfold ushape in Heq. injection Heq as Eu Eq En. rewrite <- Eu in Hin.
    destruct (Hlive _ _ _ _ Hid' Hsma' Hin) as (un & Hu1 & ? & ?).
    destruct (Hun _ _ Hu1) as (un' & ? & [= ??]). exists un'. split; [done|]. split; congruence || lia.
  - intros k l u. rewrite Hs. intros Hk Hin. destruct (Hch _ _ _ Hk Hin) as [un Hu1].
    destruct (Hun _ _ Hu1) as (un' & -> & _). eauto.
  - intros k l. rewrite Hs. apply Hnd.
  - intros k k' l l' u. rewrite !Hs. apply Hd.
  - intros k p u num aw Hk. destruct (Hp _ _ _ _ _ Hk) as [aw' Hk']. rewrite Hs.
    destruct (He _ _ _ _ _ Hk') as [Hc Hno]. split; [done|].
    intros id q sma Hid Hsma. destruct (Hsub _ _ _ Hid Hsma) as (Hid' & sma' & Hsma' & Heq).
    unfold ushape in Heq. injection Heq as Eu Eq En. rewrite <- Eu. eauto.
  - intros u [un Hu1]. apply (fmap_eq_lookup ukey (undos st') (undos st)) in Hu1 as (un' & ? & _); [|done].
    enough (u < brk st) by lia. apply Hbk. eauto.
Qed.

Lemma chains_ext st st' :
  ushape <$> heap st' = ushape <$> heap st -> same_links st st' ->
  ukey <$> undos st' = ukey <$> undos st -> semun st' = semun st -> brk st <= brk st' ->
  (forall k p u num aw, procs st' !! k = Some (InExit p u num aw) ->
     exists aw', procs st !! k = Some (InExit p u num aw')) ->
  chains st -> chains st'.
Proof.
  intros Hh Hl Hu Hs Hb Hp HU. eapply chains_sub; [|exact Hu|exact Hs|exact Hb|exact Hp|exact HU].
  intros id p sma' Hid Hsma. split; [by apply Hl|].
  by eapply (fmap_eq_lookup ushape (heap st') (heap st)).
Qed.

Lemma omap_tbl_ext st st' :
  semary st' = semary st -> used_sems st' = used_sems st -> used_semids st' = used_semids st ->
  max_semid st' = max_semid st -> sem_seq st' = sem_seq st -> brk st <= brk st' ->
  shape <$> heap st' = shape <$> heap st -> omap tproc (procs st') = omap tproc (procs st) ->
  tbl st -> tbl st'.
Proof.
  unfold tbl. intros -> -> -> -> -> Hb -> -> HT. by eapply table_brk.
Qed.

(** ** Changes of semaphore values *)

Definition wake_if (b : bool) (p : Z) (ev : event) (st : sst) : sst :=
  if b then wake_up p ev st else st.

(** The processes after both queues were woken or not. *)
Definition wake2 (bN bZ : bool) (p : Z) (pr : proc) : proc :=
  let pr := if bN then wake_proc p EvN pr else pr in
  if bZ then wake_proc p EvZ pr else pr.

Lemma wake2_semop bN bZ p0 pr p semid sops ncnt ev num aw :
  wake2 bN bZ p0 pr = InSemop p semid sops ncnt ev num aw ->
  exists aw', pr = InSemop p semid sops ncnt ev num aw' /\
    (aw = false -> aw' = false /\ (p = p0 -> (ev = EvN -> bN = false) /\ (ev = EvZ -> bZ = false))).
Proof.
  unfold wake2. destruct bZ; [intros (aw1 & H1 & Hw1)%wake_semop|intros H1];
    destruct bN; try (apply wake_semop in H1 as (aw2 & -> & Hw2)); try subst pr;
    eexists; (split; [reflexivity|naive_solver]).
Qed.

Lemma wake2_exit bN bZ p0 pr p u num aw :
  wake2 bN bZ p0 pr = InExit p u num aw ->
  exists aw', pr = InExit p u num aw' /\ (aw = false -> aw' = false /\ (p = p0 -> bN = false)).
Proof.
  unfold wake2. destruct bZ; [intros (aw1 & H1 & Hw1)%wake_exit|intros H1];
    destruct bN; try (apply wake_exit in H1 as (aw2 & -> & Hw2)); try subst pr;
    eexists; (split; [reflexivity|naive_solver]).
Qed.

Lemma wake_find p0 ev0 pr id key0 nsems semflg aw :
  wake_proc p0 ev0 pr = InFindkey id key0 nsems semflg aw -> pr = InFindkey id key0 nsems semflg aw.
Proof. destruct pr; simpl; try case_bool_decide; done. Qed.

Lemma wake2_find bN bZ p0 pr id key0 nsems semflg aw :
  wake2 bN bZ p0 pr = InFindkey id key0 nsems semflg aw -> pr = InFindkey id key0 nsems semflg aw.
Proof. unfold wake2. destruct bN, bZ; intros H; do 2 try apply wake_find in H; done. Qed.

Lemma sleepers_wake2 bN bZ p0 ev p i ps :
  sleepers ev p i (wake2 bN bZ p0 <$> ps) = sleepers ev p i ps.
Proof.
  unfold sleepers. rewrite msum_fmap. apply msum_ext. intros k x _. unfold wake2.
  destruct bN, bZ; by rewrite ?sleeps_wake.
Qed.

Lemma tproc_wake2 bN bZ p pr : tproc (wake2 bN bZ p pr) = tproc pr.
Proof. unfold wake2. destruct bN, bZ; by rewrite ?tproc_wake. Qed.

Lemma wake_if_both bN bZ p st :
  wake_if bZ p EvZ (wake_if bN p EvN st) = set_procs st (wake2 bN bZ p <$> procs st).
Proof.
  unfold wake_if, wake_up, wake2. destruct st, bN, bZ; unfold set_procs; simpl; f_equal;
    rewrite <- ?map_fmap_compose, ?map_fmap_id; done.
Qed.

(** A change of the values of one array keeps the invariant when the queue of
    every process that may go on is woken: [eventn] unless no value grows,
    [eventz] unless no value becomes 0. *)
Definition values_ok (bN bZ : bool) (base base' : list sem) : Prop :=
  forall i s', get base' i = Some s' -> exists s, get base i = Some s /\
    semncnt s' = semncnt s /\ semzcnt s' = semzcnt s /\ 0 <= semval s' < 2 ^ 16 /\
    (bN = false -> semval s' <= semval s) /\ (bZ = false -> semval s' = 0 -> semval s = 0).

(** Undo records change without harm to sleepers in [sem_exit]. *)
Definition undos_ok (st : sst) (us' : gmap Z sem_undo) : Prop :=
  ukey <$> us' = ukey <$> undos st /\
  forall k q u num aw, procs st !! k = Some (InExit q u num aw) -> us' !! u = undos st !! u.

Section update.
Context (st : sst) (p : Z) (sma sma' : semid_ds) (us' : gmap Z sem_undo) (bN bZ : bool).
Context (Hsma : heap st !! p = Some sma).
Context (Hshape : shape sma' = shape sma) (Hundo : undo sma' = undo sma).
Context (Hus : undos_ok st us').
Context (Hval : values_ok bN bZ (sem_base sma) (sem_base sma')).

Let st' := wake_if bZ p EvZ (wake_if bN p EvN (set_undos (set_heap st (<[p := sma']> (heap st))) us')).

Lemma fmap_insert_same {B} (f : semid_ds -> B) :
  f sma' = f sma -> f <$> <[p := sma']> (heap st) = f <$> heap st.
Proof. intros H. rewrite fmap_insert, H. apply insert_id. by rewrite lookup_fmap, Hsma. Qed.

Lemma shape_parts :
  sem_nsems sma' = sem_nsems sma /\ length (sem_base sma') = length (sem_base sma) /\
  seq (sem_perm sma') = seq (sem_perm sma).
Proof. unfold shape in Hshape. by injection Hshape. Qed.

Lemma update_blocked i s ev op :
  get (sem_base sma) i = Some s -> blocked ev op (semval s) ->
  (ev = EvN -> bN = false) -> (ev = EvZ -> bZ = false) ->
  exists s', get (sem_base sma') i = Some s' /\ blocked ev op (semval s').
Proof.
  intros Hi Hb HN HZ. assert (Hr := get_Some_range _ _ _ Hi).
  destruct shape_parts as (_ & Hlen & _).
  rewrite <- Hlen in Hr. destruct (get_in_range _ _ Hr) as [s' Hs']. exists s'. split; [done|].
  destruct (Hval _ _ Hs') as (s0 & H0 & _ & _ & _ & Hle & Hz). simplify_eq.
  destruct ev; simpl in *; [specialize (Hle (HN eq_refl)); lia|].
  split; [tauto|]. specialize (Hz (HZ eq_refl)). tauto.
Qed.

Lemma update_waits : waits st -> waits st'.
Proof.
  intros [Hc Hs He Hfk]. destruct shape_parts as (En & _ & Eq).
  unfold st'. rewrite wake_if_both. constructor; simpl.
  - intros q sma1 i s Hq Hi. rewrite !sleepers_wake2.
    apply lookup_insert_Some in Hq as [[<- <-]|[_ Hq]]; [|by eauto].
    destruct (Hval _ _ Hi) as (s0 & H0 & -> & -> & ? & _).
    destruct (Hc _ _ _ _ Hsma H0) as (? & ? & _). done.
  - intros k q semid sops ncnt ev num aw Hk. apply lookup_fmap_Some in Hk as (pr & Hpr & Hk).
    apply wake2_semop in Hpr as (aw' & -> & Haw).
    destruct (Hs _ _ _ _ _ _ _ _ Hk) as (sma1 & Hq & ? & ? & ? & ? & ? & Hf).
    destruct (decide (q = p)) as [->|Hne].
    + rewrite Hsma in Hq. injection Hq as <-. exists sma'. rewrite lookup_insert_eq.
      rewrite En, Eq. split_and!; try done; try lia.
      intros Hfalse. destruct (Haw Hfalse) as [-> Hb].
      destruct (Hf eq_refl) as (? & sop & s & ? & ? & Hg & Hblk). split; [done|].
      destruct (update_blocked _ _ _ _ Hg Hblk) as (s' & ? & ?); [naive_solver..|]. eauto 10.
    + exists sma1. rewrite lookup_insert_ne by done. split_and!; try done; try lia;
        intros Hfalse; destruct (Haw Hfalse) as [-> _]; naive_solver.
  - intros k q u num aw Hk. apply lookup_fmap_Some in Hk as (pr & Hpr & Hk).
    apply wake2_exit in Hpr as (aw' & -> & Haw). rewrite (proj2 Hus _ _ _ _ _ Hk).
    destruct (He _ _ _ _ _ Hk) as (sma1 & un & Hq & ? & ? & ? & ? & Hf).
    destruct (decide (q = p)) as [->|Hne].
    + rewrite Hsma in Hq. injection Hq as <-. exists sma', un. rewrite lookup_insert_eq.
      rewrite En, Eq. split_and!; try done; try lia.
      intros Hfalse. destruct (Haw Hfalse) as [-> Hb].
      destruct (Hf eq_refl) as (? & s & Hg & Hblk). split; [done|].
      destruct (update_blocked _ _ EvN (semadj un) Hg) as (s' & ? & ?); simpl in *; [lia|naive_solver..|].
      exists s'. split; [done|]. lia.
    + exists sma1, un. rewrite lookup_insert_ne by done. split_and!; try done; try lia;
        intros Hfalse; destruct (Haw Hfalse) as [-> _]; naive_solver.
  - intros k id key0 nsems semflg aw Hk. apply lookup_fmap_Some in Hk as (pr & Hpr & Hk).
    apply wake2_find in Hpr as ->. by eapply Hfk.
Qed.

Lemma update_inv : inv st -> inv st'.
Proof.
  intros (HT & HU & HW). split; [|split]; [..|by apply update_waits].
  - unfold st'. rewrite wake_if_both. eapply omap_tbl_ext; [..|exact HT]; simpl; try done.
    + by apply fmap_insert_same.
    + apply tproc_map, tproc_wake2.
  - unfold st'. rewrite wake_if_both. eapply chains_ext; [..|exact HU]; simpl; try done.
    + apply fmap_insert_same. unfold ushape, shape in *. congruence.
    + apply Hus.
    + intros k q u num aw Hk. apply lookup_fmap_Some in Hk as (pr & Hpr & Hk).
      apply wake2_exit in Hpr as (aw' & -> & _). eauto.
Qed.

End update.

(** ** Going to sleep and leaving the queue *)

(** The clause of [waits] for one process. *)
Definition proc_ok (st : sst) (pr : proc) : Prop :=
  match pr with
  | InSemop p semid sops ncnt ev num aw =>
      exists sma, heap st !! p = Some sma /\ 0 <= num < sem_nsems sma /\
        Forall (fun sop => 0 <= sem_num sop < sem_nsems sma) sops /\ NoDup (sem_num <$> sops) /\
        (ncnt = 0 -> Forall (fun sop => sem_op sop <= 0) sops) /\
        (seq (sem_perm sma) = semid / SEMMNI <-> linked st p) /\
      (aw = false -> linked st p /\
          exists sop s, sop ∈ sops /\ sem_num sop = num /\ get (sem_base sma) num = Some s /\
            blocked ev (sem_op sop) (semval s))
  | InExit p u num aw =>
      exists sma un, heap st !! p = Some sma /\ undos st !! u = Some un /\
        un_num un = num /\ 0 <= num < sem_nsems sma /\
        (seq (sem_perm sma) = un_semid un / SEMMNI <-> linked st p) /\
      (aw = false -> linked st p /\
          exists s, get (sem_base sma) num = Some s /\ semval s + semadj un < 0)
  | InFindkey id _ nsems _ _ => 0 <= id < SEMMNI /\ 0 <= nsems <= SEMMSL
  | _ => True
  end.

Lemma waits_proc st k pr : waits st -> procs st !! k = Some pr -> proc_ok st pr.
Proof. intros [_ Hs He Hf] Hk. destruct pr; simpl; eauto. Qed.

Lemma waits_intro st :
  (forall p sma i s, heap st !! p = Some sma -> get (sem_base sma) i = Some s ->
    semncnt s = u16 (sleepers EvN p i (procs st)) /\
    semzcnt s = u16 (sleepers EvZ p i (procs st)) /\ 0 <= semval s < 2 ^ 16) ->
  (forall k pr, procs st !! k = Some pr -> proc_ok st pr) -> waits st.
Proof.
  intros Hc Hp. constructor; [done|..]; intros; match goal with H : _ |- _ => by apply Hp in H end.
Qed.

(** A process's clause survives changes that keep sizes, sequence numbers,
    values, links and undo records. *)
Lemma proc_ok_mono st st' pr :
  same_links st st' ->
  (forall p sma, heap st !! p = Some sma -> exists sma', heap st' !! p = Some sma' /\
    sem_nsems sma' = sem_nsems sma /\ seq (sem_perm sma') = seq (sem_perm sma) /\
    forall i s, get (sem_base sma) i = Some s ->
      exists s', get (sem_base sma') i = Some s' /\ semval s' = semval s) ->
  (forall p u num aw, pr = InExit p u num aw -> undos st' !! u = undos st !! u) ->
  proc_ok st pr -> proc_ok st' pr.
Proof.
  intros Hl Hh Hu. destruct pr as [| |p semid sops ncnt ev num aw|p u num aw|]; simpl; try done.
  - intros (sma & Hp & ? & ? & ? & ? & ? & Haw). destruct (Hh _ _ Hp) as (sma' & Hp' & En & Es & Hg).
    exists sma'. rewrite En, Es, (same_linked st st') by done. split_and!; try done; try lia. intros Hf.
    destruct (Haw Hf) as (? & sop & s & ? & ? & Hs & ?).
    destruct (Hg _ _ Hs) as (s' & ? & Ev).
    split; [done|]. exists sop, s'. rewrite Ev. done.
  - intros (sma & un & Hp & ? & ? & ? & ? & Haw). destruct (Hh _ _ Hp) as (sma' & Hp' & En & Es & Hg).
    exists sma', un. rewrite En, Es, (Hu _ _ _ _ eq_refl), (same_linked st st') by done.
    split_and!; try done; try lia. intros Hf.
    destruct (Haw Hf) as (? & s & Hs & ?). destruct (Hg _ _ Hs) as (s' & ? & Ev).
    split; [done|]. exists s'. rewrite Ev. done.
Qed.

Lemma bump_total base num ev d s :
  get base num = Some s -> exists base', bump base num ev d = Some base'.
Proof. intros H. unfold bump. rewrite H. simpl. by eapply put_of_get. Qed.

Lemma bump_spec base num ev d base' :
  bump base num ev d = Some base' ->
  length base' = length base /\
  forall i s', get base' i = Some s' -> exists s, get base i = Some s /\ semval s' = semval s /\
    semncnt s' = (if bool_decide (i = num /\ ev = EvN) then u16 (semncnt s + d) else semncnt s) /\
    semzcnt s' = (if bool_decide (i = num /\ ev = EvZ) then u16 (semzcnt s + d) else semzcnt s).
Proof.
  unfold bump. destruct (get base num) as [s|] eqn:Hs; simpl; [|done]. intros Hput.
  split; [by eapply put_length|]. intros i s' Hi. rewrite (get_put _ _ _ _ _ Hput) in Hi.
  destruct (Z.eqb_spec i num) as [->|Hne].
  - injection Hi as <-. exists s. destruct ev; simpl; repeat case_bool_decide; naive_solver.
  - exists s'. repeat case_bool_decide; naive_solver.
Qed.

Lemma bump_back base num ev d base' i s :
  bump base num ev d = Some base' -> get base i = Some s ->
  exists s', get base' i = Some s' /\ semval s' = semval s.
Proof.
  intros [Hlen Hb]%bump_spec Hi. pose proof (get_Some_range _ _ _ Hi) as Hr.
  rewrite <- Hlen in Hr. destruct (get_in_range _ _ Hr) as [s' Hs'].
  destruct (Hb _ _ Hs') as (s0 & ? & ? & _). exists s'. split; [done|]. congruence.
Qed.

Section bump.
Context (st : sst) (p num d : Z) (sma : semid_ds) (ev : event) (base' : list sem) (ps' : gmap Z proc).
Context (Hsma : heap st !! p = Some sma).
Context (Hbump : bump (sem_base sma) num ev d = Some base').

Let st' := set_procs (set_heap st (<[p := set_base sma base']> (heap st))) ps'.

(** The wait counter moves together with the number of sleepers. *)
Context (Hcount : forall e q i, sleepers e q i ps' =
  sleepers e q i (procs st) + (if bool_decide (q = p /\ e = ev /\ i = num) then d else 0)).

Lemma bump_waits :
  waits st ->
  (forall k pr, ps' !! k = Some pr -> procs st !! k = Some pr \/ proc_ok st' pr) -> waits st'.
Proof.
  intros HW Hps. apply waits_intro; simpl.
  - intros q sma1 i s' Hq Hi. rewrite !Hcount.
    apply lookup_insert_Some in Hq as [[<- <-]|[Hne Hq]].
    + simpl in Hi. destruct (proj2 (bump_spec _ _ _ _ _ Hbump) _ _ Hi) as (s & Hs & -> & -> & ->).
      destruct (w_cnt _ HW _ _ _ _ Hsma Hs) as (-> & -> & ?).
      rewrite (bool_decide_ext (p = p /\ EvN = ev /\ i = num) (i = num /\ ev = EvN)) by naive_solver.
      rewrite (bool_decide_ext (p = p /\ EvZ = ev /\ i = num) (i = num /\ ev = EvZ)) by naive_solver.
      split_and!; [..|lia|lia]; case_bool_decide;
        unfold u16; by rewrite ?Zplus_mod_idemp_l, ?Z.add_0_r.
    + destruct (w_cnt _ HW _ _ _ _ Hq Hi) as (-> & -> & ?).
      do 2 (rewrite bool_decide_false by naive_solver). by rewrite !Z.add_0_r.
  - intros k pr Hk. destruct (Hps _ _ Hk) as [Hold|]; [|done].
    eapply proc_ok_mono; [..|by eapply waits_proc]; [done| |done].
    intros q sma1 Hq. simpl. destruct (decide (q = p)) as [->|Hne].
    + rewrite lookup_insert_eq. simplify_eq. eexists. split; [done|]. simpl.
      split_and!; try done. intros i s Hs. by eapply bump_back.
    + rewrite lookup_insert_ne by done. exists sma1. naive_solver.
Qed.

Lemma bump_tbl : omap tproc ps' = omap tproc (procs st) -> tbl st -> tbl st'.
Proof.
  intros Hps HT. eapply omap_tbl_ext; [..|exact HT]; simpl; try done.
  eapply fmap_insert_same; [done|]. unfold shape. simpl. by rewrite (proj1 (bump_spec _ _ _ _ _ Hbump)).
Qed.

Lemma bump_chains :
  (forall k q u n aw, ps' !! k = Some (InExit q u n aw) ->
     exists aw', procs st !! k = Some (InExit q u n aw')) -> chains st -> chains st'.
Proof.
  intros Hps HU. eapply chains_ext; [..|exact HU]; simpl; try done.
  eapply fmap_insert_same; done.
Qed.

End bump.

End SemInv.
