(* ===== verification/SemSafe.v ===== *)
(** * Every run of the semaphore code keeps the invariant ([src/ipc/sem.c])

    One lemma per operation: started in a state that satisfies [inv], it does
    not access memory outside its arrays or freed memory, and ends in a state
    that satisfies [inv]. *)

From S2P Require Import Prelude Ipc Sem IpcTable SemInv.
From Stdlib Require Import ZArith Lia.
From stdpp Require Import base list gmap numbers.
Local Open Scope Z_scope.

Module SemSafe.
Import Ipc Sem IpcTable SemInv.

Definition safe (r : option (sst * outcome)) : Prop := exists st' o, r = Some (st', o) /\ inv st'.

(** ** Returning *)

Lemma set_procs_same st : set_procs st (procs st) = st.
Proof. by destruct st. Qed.

Lemma leave_idle c st : procs st !! pid c = None -> leave c st = st.
Proof. intros H. unfold leave. rewrite delete_id by done. apply set_procs_same. Qed.

Lemma safe_ret c st r : inv st -> procs st !! pid c = None -> safe (ret c st r).
Proof. intros H Hp. exists st, (Ret r). unfold ret. by rewrite leave_idle. Qed.

Lemma wake_if_procs b p ev st k :
  procs st !! k = None -> procs (wake_if b p ev st) !! k = None.
Proof. intros H. destruct b; simpl; [|done]. by rewrite lookup_fmap, H. Qed.

Lemma wake_if_negb (z : Z) p ev st : (if z =? 0 then st else wake_up p ev st) = wake_if (negb (z =? 0)) p ev st.
Proof. by destruct (z =? 0). Qed.

(** The size and length of an allocated array. *)
Lemma inv_len st p sma :
  inv st -> heap st !! p = Some sma ->
  Z.of_nat (length (sem_base sma)) = sem_nsems sma /\ 1 <= sem_nsems sma <= SEMMSL /\
  0 <= seq (sem_perm sma) < 2 ^ 16 /\ p < brk st.
Proof.
  intros (HT & _ & _) Hp.
  destruct (t_ds _ _ _ _ _ _ _ _ HT p (sem_nsems sma) (length (sem_base sma)) (seq (sem_perm sma)))
    as (? & ? & ? & ?); [by rewrite lookup_fmap, Hp|]. unfold MSL, SEMMSL in *. split_and!; lia.
Qed.

(** ** [sys_semop] *)

(** The process's own chain is not used by a sleeper of [sem_exit]. *)
Lemma chain_undos st c us' :
  inv st -> procs st !! pid c = None -> ukey <$> us' = ukey <$> undos st ->
  (forall u, u ∉ chain_of c st -> us' !! u = undos st !! u) -> undos_ok st us'.
Proof.
  intros (_ & HU & _) Hidle Hk Ho. split; [done|]. intros k q u num aw Hex. apply Ho.
  destruct (u_exit _ HU _ _ _ _ _ Hex) as [[l Hl] _]. unfold chain_of.
  destruct (semun st !! pid c) as [l'|] eqn:Hc; simpl; [|set_solver]. intros Hin.
  assert (k = pid c) by (apply (u_disj _ HU k (pid c) (u :: l) l' u); [done..|set_solver|done]). congruence.
Qed.

Lemma chain_alloc st c u : inv st -> u ∈ chain_of c st -> is_Some (undos st !! u).
Proof.
  intros (_ & HU & _). unfold chain_of. destruct (semun st !! pid c) eqn:Hc; simpl; [|set_solver].
  by apply (u_chain _ HU _ _ _ Hc).
Qed.

Lemma delta_nonpos sops i : Forall (fun sop => sem_op sop <= 0) sops -> delta sops i <= 0.
Proof. induction 1 as [|sop sops H _ IH]; simpl; [lia|]. case_bool; lia. Qed.

(** With distinct semaphores the change is that of the operation. *)
Lemma delta_in sops sop :
  NoDup (sem_num <$> sops) -> sop ∈ sops -> delta sops (sem_num sop) = sem_op sop.
Proof.
  induction sops as [|x sops IH]; intros Hnd Hin; [set_solver|].
  rewrite fmap_cons in Hnd. apply list.NoDup_cons in Hnd as [Hni Hnd]. simpl.
  apply elem_of_cons in Hin as [->|Hin].
  - rewrite Z.eqb_refl, delta_other by done. lia.
  - destruct (Z.eqb_spec (sem_num x) (sem_num sop)) as [Heq|].
    + destruct Hni. rewrite Heq. by apply list_elem_of_fmap_2.
    + rewrite IH by done. lia.
Qed.

Lemma apply_values_ok sops base base' ncnt zcnt :
  NoDup (sem_num <$> sops) -> Forall (can_go base) sops ->
  (ncnt = 0 -> Forall (fun sop => sem_op sop <= 0) sops) ->
  (forall i s, get base i = Some s -> 0 <= semval s < 2 ^ 16) ->
  length base' = length base ->
  (forall i s, get base i = Some s -> exists s', get base' i = Some s' /\
     semval s' = semval s + delta sops i /\ semncnt s' = semncnt s /\ semzcnt s' = semzcnt s) ->
  (zcnt = 0 -> forall i s', i ∈ sem_num <$> sops -> get base' i = Some s' -> semval s' <> 0) ->
  values_ok (negb (ncnt =? 0)) (negb (zcnt =? 0)) base base'.
Proof.
  intros Hnd Hgo Hn Hrange Hlen Hval Hz i s' Hs'.
  assert (exists s, get base i = Some s) as [s Hs].
  { apply get_in_range. rewrite <- Hlen. by eapply get_Some_range. }
  exists s. destruct (Hval _ _ Hs) as (s1 & Hs1 & Ev & En & Ez). simplify_eq.
  specialize (Hrange _ _ Hs).
  assert (Hcase : delta sops i = 0 /\ i ∉ sem_num <$> sops \/
    i ∈ sem_num <$> sops /\ 0 <= semval s + delta sops i <= SEMVMX).
  { destruct (decide (i ∈ sem_num <$> sops)) as [Hi|Hi]; [right|left; by rewrite delta_other].
    split; [done|]. apply list_elem_of_fmap in Hi as (sop & -> & Hin).
    rewrite delta_in by done. rewrite list.Forall_forall in Hgo.
    destruct (Hgo _ Hin) as (s2 & Hs2 & ? & _). simplify_eq. lia. }
  split_and!; try done.
  - unfold SEMVMX in Hcase. lia.
  - unfold SEMVMX in Hcase. lia.
  - intros Hb%negb_false_iff%Z.eqb_eq. pose proof (delta_nonpos sops i (Hn Hb)). lia.
  - intros Hb%negb_false_iff%Z.eqb_eq Hz0. destruct Hcase as [[Hd _]|[Hin _]]; [lia|].
    by destruct (Hz Hb i s').
Qed.

Section slept.
Context (c : cred) (st : sst) (p semid : Z) (sma : semid_ds) (sops : list sembuf) (ncnt : Z).
Context (Hinv : inv st) (Hidle : procs st !! pid c = None) (Hsma : heap st !! p = Some sma).
Context (Hrange : Forall (fun sop => 0 <= sem_num sop < sem_nsems sma) sops).
Context (Hnd : NoDup (sem_num <$> sops)).
Context (Hn : ncnt = 0 -> Forall (fun sop => sem_op sop <= 0) sops).
Context (Hseq : seq (sem_perm sma) = semid / SEMMNI <-> linked st p).

Lemma slept_go base us zcnt last :
  Forall (can_go (sem_base sma)) sops ->
  semop_apply c semid (chain_of c st) sops (sem_base sma) (undos st) 0 0 = Some (base, us, zcnt, last) ->
  inv (wake_if (negb (zcnt =? 0)) p EvZ (wake_if (negb (ncnt =? 0)) p EvN
    (set_undos (set_heap st (<[p := set_otime (set_base sma base) (time c)]> (heap st))) us))).
Proof.
  intros Hgo Happ.
  destruct (semop_apply_spec c semid (chain_of c st) sops (sem_base sma) (undos st) 0 0)
    as (base' & us' & zcnt' & last' & Happ' & Hlen & Hval & Hk & Ho & Hzle & Hz);
    [done..|intros; by eapply chain_alloc|].
  simplify_eq. apply update_inv with (sma := sma); try done.
  - unfold shape. simpl. by rewrite Hlen.
  - by eapply chain_undos.
  - eapply apply_values_ok; try done. intros i s Hs.
    by destruct (w_cnt _ (proj2 (proj2 Hinv)) _ _ _ _ Hsma Hs) as (_ & _ & ?).
Qed.

Lemma slept_sleeps ev num base :
  semop_check c (sem_base sma) sops = Some (Sleeps ev num) ->
  bump (sem_base sma) num ev 1 = Some base -> linked st p ->
  inv (enter c (InSemop p semid sops ncnt ev num false)
         (set_heap st (<[p := set_base sma base]> (heap st)))).
Proof.
  intros (sop & s & Hin & Hnum & Hs & _ & Hblk)%semop_check_sleeps Hb Hlink.
  destruct Hinv as (HT & HU & HW).
  assert (Hps : procs (set_heap st (<[p := set_base sma base]> (heap st))) = procs st) by done.
  unfold enter. rewrite Hps. split; [|split].
  - eapply bump_tbl; [done..| |done]. rewrite tprocs_insert. simpl.
    rewrite delete_id; [done|]. by apply tprocs_none.
  - eapply bump_chains; [done..| |done]. intros k q u n aw [[_ ?]|[_ ?]]%lookup_insert_Some; [done|eauto].
  - eapply bump_waits; [done..| |done|].
    + intros e q i. rewrite sleepers_insert by done. simpl.
      rewrite (bool_decide_ext (p = q /\ ev = e /\ num = i) (q = p /\ e = ev /\ i = num)) by naive_solver.
      case_bool_decide; simpl; lia.
    + intros k pr [[_ <-]|[_ ?]]%lookup_insert_Some; [right|by left]. simpl.
      exists (set_base sma base). rewrite lookup_insert_eq. simpl. split_and!; try done.
      * apply get_Some_range in Hs. destruct (inv_len _ _ _ Hinv Hsma). lia.
      * apply get_Some_range in Hs. destruct (inv_len _ _ _ Hinv Hsma). lia.
      * intros _. split; [done|]. destruct (bump_back _ _ _ _ _ _ _ Hb Hs) as (s' & ? & Ev).
        exists sop, s'. by rewrite Ev.
Qed.

Lemma semop_slept_safe : safe (semop_slept c st p semid sops ncnt).
Proof.
  unfold semop_slept. rewrite Hsma. simpl.
  destruct (Z.eqb_spec (seq (sem_perm sma)) (semid / SEMMNI)) as [Hs|]; simpl; [|by apply safe_ret].
  destruct (inv_len _ _ _ Hinv Hsma) as (Hlen & _).
  destruct (semop_check_total c (sem_base sma) sops) as [v Hv]; [by rewrite Hlen|].
  rewrite Hv. simpl. destruct v as [|e|ev num].
  - apply semop_check_go in Hv as Hgo.
    destruct (semop_apply_spec c semid (chain_of c st) sops (sem_base sma) (undos st) 0 0)
      as (base' & us' & zcnt' & last' & Happ & _); [done..|intros; by eapply chain_alloc|].
    rewrite Happ. simpl. rewrite !wake_if_negb. apply safe_ret.
    + by eapply slept_go.
    + by repeat apply wake_if_procs.
  - by apply safe_ret.
  - apply semop_check_sleeps in Hv as Hslp. destruct Hslp as (sop & s & _ & _ & Hs' & _).
    destruct (bump_total _ _ ev 1 _ Hs') as [base Hb]. rewrite Hb. simpl.
    eexists _, _. split; [done|]. by eapply slept_sleeps; [..|apply Hseq].
Qed.

End slept.

Lemma bump_leave_inv c st p sma pr base num ev :
  inv st -> procs st !! pid c = Some pr -> heap st !! p = Some sma ->
  (forall e q i, sleeps e q i pr = bool_decide (q = p /\ e = ev /\ i = num)) -> tproc pr = None ->
  bump (sem_base sma) num ev (-1) = Some base ->
  inv (leave c (set_heap st (<[p := set_base sma base]> (heap st)))).
Proof.
  intros (HT & HU & HW) Hpr Hsma Hsl Ht Hb. unfold leave. simpl. split; [|split].
  - eapply bump_tbl; [done..| |done]. rewrite tprocs_delete, delete_id; [done|].
    rewrite lookup_omap, Hpr. done.
  - eapply bump_chains; [done..| |done]. intros k q u n aw [_ ?]%lookup_delete_Some. eauto.
  - eapply bump_waits; [done..| |done|].
    + intros e q i. rewrite (sleepers_delete _ _ _ _ pr) by done. rewrite Hsl.
      case_bool_decide; simpl; lia.
    + intros k pr' [_ ?]%lookup_delete_Some. by left.
Qed.

Lemma semop_resume_safe c st p semid sops ncnt ev num aw :
  inv st -> procs st !! pid c = Some (InSemop p semid sops ncnt ev num aw) ->
  safe (semop_resume c st p semid sops ncnt ev num).
Proof.
  intros Hinv Hpr. destruct (waits_proc _ _ _ (proj2 (proj2 Hinv)) Hpr)
    as (sma & Hsma & Hnum & Hrange & Hnd & Hn & Hseq & _).
  unfold semop_resume. rewrite Hsma. simpl.
  destruct (inv_len _ _ _ Hinv Hsma) as (Hlen & _). rewrite <- Hlen in Hnum.
  destruct (get_in_range _ _ Hnum) as [s Hs].
  destruct (bump_total _ _ ev (-1) _ Hs) as [base Hb]. rewrite Hb. simpl.
  eapply (semop_slept_safe _ _ _ _ (set_base sma base)); try done.
  - eapply bump_leave_inv; try done. intros e q i. simpl. apply bool_decide_ext. naive_solver.
  - simpl. apply lookup_delete_eq.
  - simpl. apply lookup_insert_eq.
Qed.

Lemma semop_scan_spec nsems sops un al n un' al' n' :
  semop_scan nsems sops un al n = Some (un', al', n') -> 0 <= n ->
  n <= n' /\ Forall (fun sop => sem_num sop <= nsems) sops /\
  (n' = 0 -> Forall (fun sop => sem_op sop <= 0) sops).
Proof.
  revert un al n. induction sops as [|sop sops IH]; intros un al n; simpl.
  - intros [= <- <- <-] ?. split_and!; [lia|constructor..].
  - destruct (Z.ltb_spec nsems (sem_num sop)); [done|]. intros Hs Hn.
    apply IH in Hs as (Hle & Hf & Hz); [|by case_bool; lia].
    destruct (Z.eqb_spec (sem_op sop) 0), (Z.ltb_spec 0 (sem_op sop)); simpl in Hle;
      (split_and!; [lia|constructor; [lia|done]|intros; constructor; [lia|apply Hz; lia]]).
Qed.

(** Records are counted only where a flag asks for one. *)
Lemma semop_scan_undos nsems sops un al n un' al' n' :
  semop_scan nsems sops un al n = Some (un', al', n') ->
  Exists (fun sop => has (sem_flg sop) SEM_UNDO = true) sops \/ un' = un.
Proof.
  revert un al n. induction sops as [|sop sops IH]; intros un al n; simpl; [by intros [= <- <- <-]; right|].
  case_bool; [done|]. intros [?| ->]%IH; [left; by constructor|].
  destruct (has (sem_flg sop) SEM_UNDO) eqn:?; [left; by constructor|by right].
Qed.

(** A new undo record, linked into both lists. *)
Definition add_undo (c : cred) (st : sst) (p semid num : Z) (sma : semid_ds) : sst :=
  let u := brk st in
  Sst (semary st) (used_sems st) (used_semids st) (max_semid st) (sem_seq st)
    (<[p := SemidDs (sem_perm sma) (sem_otime sma) (sem_ctime sma) (sem_base sma)
              (u :: undo sma) (sem_nsems sma)]> (heap st))
    (<[u := SemUndo semid 0 num]> (undos st))
    (<[pid c := u :: chain_of c st]> (semun st)) (procs st) (pred (mem st)) (u + 1).

Section add.
Context (c : cred) (st : sst) (p id semid num : Z) (sma : semid_ds).
Context (Hinv : inv st) (Hidle : procs st !! pid c = None) (Hsma : heap st !! p = Some sma).
Context (Hid : get (semary st) id = Some (Ptr p)).
Context (Hsemid : semid = seq (sem_perm sma) * SEMMNI + id) (Hnum : 0 <= num < sem_nsems sma).

Lemma fresh_undo : undos st !! brk st = None.
Proof.
  destruct Hinv as (_ & HU & _). destruct (undos st !! brk st) eqn:E; [|done].
  pose proof (u_brk _ HU (brk st) ltac:(by rewrite E)). lia.
Qed.

Lemma fresh_chain k l : semun st !! k = Some l -> brk st ∉ l.
Proof.
  intros Hl Hin. destruct Hinv as (_ & HU & _).
  destruct (u_chain _ HU _ _ _ Hl Hin) as [? E]. by rewrite fresh_undo in E.
Qed.

Lemma chain_lookup k l u :
  <[pid c := brk st :: chain_of c st]> (semun st) !! k = Some l -> u ∈ l ->
  (k = pid c /\ u = brk st) \/ exists l', semun st !! k = Some l' /\ u ∈ l'.
Proof.
  intros [[<- <-]|[_ Hl]]%lookup_insert_Some Hin; [|right; eauto].
  apply elem_of_cons in Hin as [->|Hin]; [by left|]. right. unfold chain_of in Hin.
  destruct (semun st !! pid c) as [l'|] eqn:E; simpl in Hin; [eauto|set_solver].
Qed.

Lemma add_undo_chains : chains (add_undo c st p semid num sma).
Proof.
  destruct Hinv as (HT & HU & HW). pose proof fresh_undo as Hfu. constructor; simpl.
  - intros j q sma1 u Hj Hq Hin. apply lookup_insert_Some in Hq as [[<- <-]|[Hne Hq]]; simpl in *.
    + assert (j = id) by (by eapply (t_inj _ _ _ _ _ _ _ _ HT)). subst j.
      apply elem_of_cons in Hin as [->|Hin]; [rewrite lookup_insert_eq; by eexists|].
      destruct (u_live _ HU _ _ _ _ Hj Hsma Hin) as (un & Hu & ?). exists un.
      rewrite lookup_insert_ne; [done|]. intros Heq. congruence.
    + destruct (u_live _ HU _ _ _ _ Hj Hq Hin) as (un & Hu & ?). exists un.
      rewrite lookup_insert_ne; [done|]. intros Heq. congruence.
  - intros k l u Hl Hin. apply lookup_insert_is_Some'.
    destruct (chain_lookup _ _ _ Hl Hin) as [[_ ->]|(l' & Hl' & Hin')]; [by left|right].
    by eapply (u_chain _ HU).
  - intros k l [[<- <-]|[_ Hl]]%lookup_insert_Some; [|by eapply (u_nodup _ HU)].
    unfold chain_of. destruct (semun st !! pid c) as [l'|] eqn:E; simpl.
    + apply list.NoDup_cons. split; [by eapply fresh_chain|by eapply (u_nodup _ HU)].
    + apply list.NoDup_cons. split; [set_solver|constructor].
  - intros k k' l l' u Hl Hl' Hin Hin'.
    destruct (chain_lookup _ _ _ Hl Hin) as [[-> ->]|(l1 & Hl1 & Hin1)],
      (chain_lookup _ _ _ Hl' Hin') as [[-> Hu]|(l2 & Hl2 & Hin2)]; try done.
    + by destruct (fresh_chain _ _ Hl2).
    + subst u. by destruct (fresh_chain _ _ Hl1).
    + by eapply (u_disj _ HU).
  - intros k q u n aw Hk. destruct (u_exit _ HU _ _ _ _ _ Hk) as [[l Hl] Hno].
    assert (k <> pid c) by congruence. rewrite lookup_insert_ne by done. split; [eauto|].
    intros j r sma1 Hj Hr. apply lookup_insert_Some in Hr as [[<- <-]|[_ Hr]]; [|by eauto]. simpl.
    intros [->|Hin]%elem_of_cons; [|by eapply Hno]. eapply (fresh_chain _ _ Hl). set_solver.
  - intros u Hu. apply lookup_insert_is_Some' in Hu as [<-|Hu]; [lia|].
    pose proof (u_brk _ HU _ Hu). lia.
Qed.

Lemma add_undo_inv : inv (add_undo c st p semid num sma).
Proof.
  destruct Hinv as (HT & HU & HW). split; [|split; [apply add_undo_chains|]].
  - eapply omap_tbl_ext; [..|exact HT]; simpl; try done; [lia|].
    by eapply fmap_insert_same.
  - apply waits_intro; simpl.
    + intros q sma1 i s [[<- <-]|[_ Hq]]%lookup_insert_Some Hi; simpl in *;
        by eapply (w_cnt _ HW).
    + intros k pr Hk. eapply proc_ok_mono; [..|by eapply waits_proc]; [done|..]; simpl.
      * intros q sma1 Hq. destruct (decide (q = p)) as [->|].
        -- rewrite lookup_insert_eq. simplify_eq. eexists. split; [done|]. simpl. eauto.
        -- rewrite lookup_insert_ne by done. eauto 10.
      * intros q u n aw ->. rewrite lookup_insert_ne; [done|].
        destruct (u_exit _ HU _ _ _ _ _ Hk) as [[l Hl] _]. intros Heq.
        eapply (fresh_chain _ _ Hl). set_solver.
Qed.

End add.

Lemma ensure_undo_safe c p id semid sops st sma :
  inv st -> procs st !! pid c = None -> heap st !! p = Some sma ->
  get (semary st) id = Some (Ptr p) -> semid = seq (sem_perm sma) * SEMMNI + id ->
  Forall (fun sop => 0 <= sem_num sop < sem_nsems sma) sops ->
  exists st' ok sma', ensure_undo c st p semid sops = Some (st', ok) /\ inv st' /\
    procs st' = procs st /\ semary st' = semary st /\ heap st' !! p = Some sma' /\
    sem_perm sma' = sem_perm sma /\ sem_nsems sma' = sem_nsems sma.
Proof.
  intros Hinv Hidle Hsma Hid Hsemid Hr. revert st sma Hinv Hidle Hsma Hid Hsemid Hr.
  induction sops as [|sop sops IH]; intros st sma Hinv Hidle Hsma Hid Hsemid Hr; simpl; [by eauto 10|].
  apply Forall_cons_iff in Hr as [Hnum Hr].
  case_bool; [by eapply IH|].
  destruct (find_undo_total (undos st) (chain_of c st) semid (sem_num sop)) as ([u|] & -> & _);
    [intros; by eapply chain_alloc|by eapply IH|]. simpl.
  unfold kmalloc. destruct (mem st) as [|m] eqn:Hm; [by eauto 10|]. simpl. rewrite Hsma. simpl.
  pose proof (add_undo_inv c st p id semid (sem_num sop) sma) as Hadd.
  unfold add_undo in Hadd. rewrite Hm in Hadd. simpl in Hadd.
  set (sma1 := SemidDs (sem_perm sma) (sem_otime sma) (sem_ctime sma) (sem_base sma)
                 (brk st :: undo sma) (sem_nsems sma)) in *.
  match goal with |- context [ensure_undo c ?s p semid sops] =>
    destruct (IH s sma1) as (st' & ok & sma' & -> & ? & ? & ? & ? & ? & ?); try done
  end.
  - by apply Hadd.
  - simpl. apply lookup_insert_eq.
  - exists st', ok, sma'. split_and!; done.
Qed.

(** What a caller of [semop] must respect for the code to be safe: no semaphore
    number equal to the size of the array, no two operations on one semaphore,
    and no SEM_UNDO with an identifier whose array is gone. *)
Definition good_semop (st : sst) (semid : Z) (sops : list sembuf) : Prop :=
  NoDup (sem_num <$> sops) /\
  forall p sma, get (semary st) (semid mod SEMMNI) = Some (Ptr p) -> heap st !! p = Some sma ->
    Forall (fun sop => 0 <= sem_num sop /\ sem_num sop <> sem_nsems sma) sops /\
    (Exists (fun sop => has (sem_flg sop) SEM_UNDO = true) sops -> seq (sem_perm sma) = semid / SEMMNI).

Lemma get_semary st i : inv st -> exists s, get (semary st) (i mod SEMMNI) = Some s.
Proof.
  intros (HT & _). apply get_in_range. rewrite (t_len _ _ _ _ _ _ _ _ HT).
  pose proof (Z.mod_pos_bound i SEMMNI). unfold SEMMNI, MNI in *. simpl Z.to_nat. lia.
Qed.

Lemma linked_heap st id p : inv st -> get (semary st) id = Some (Ptr p) -> exists sma, heap st !! p = Some sma.
Proof.
  intros (HT & _) Hid. pose proof (t_heap _ _ _ _ _ _ _ _ HT _ _ Hid) as [x Hx].
  rewrite lookup_fmap in Hx. destruct (heap st !! p); [eauto|done].
Qed.

Lemma sys_semop_safe c st semid tsops sops :
  inv st -> procs st !! pid c = None -> good_semop st semid sops ->
  safe (sys_semop c st semid tsops sops).
Proof.
  intros Hinv Hidle [Hnd Hgood]. unfold sys_semop.
  do 3 (case_bool; [by apply safe_ret|]).
  destruct (get_semary st semid Hinv) as [s Hs]. rewrite Hs.
  destruct s as [| |p]; [by apply safe_ret..|].
  destruct (linked_heap _ _ _ Hinv Hs) as [sma Hsma]. rewrite Hsma. simpl.
  destruct (Hgood _ _ Hs Hsma) as [Hne Hundo].
  destruct (semop_scan _ sops 0 0 0) as [[[un al] ncnt]|] eqn:Hscan; [|by apply safe_ret].
  apply semop_scan_spec in Hscan as Hspec; [|lia]. destruct Hspec as (_ & Hle & Hn).
  apply semop_scan_undos in Hscan as Hun.
  case_bool; [by apply safe_ret|].
  assert (Hr : Forall (fun sop => 0 <= sem_num sop < sem_nsems sma) sops).
  { apply list.Forall_forall. intros sop Hin. rewrite list.Forall_forall in Hne, Hle.
    specialize (Hne _ Hin). specialize (Hle _ Hin). lia. }
  assert (Hslept : forall st' sma', inv st' -> procs st' = procs st -> semary st' = semary st ->
    heap st' !! p = Some sma' -> sem_perm sma' = sem_perm sma -> sem_nsems sma' = sem_nsems sma ->
    (seq (sem_perm sma) = semid / SEMMNI) -> safe (semop_slept c st' p semid sops ncnt)).
  { intros st' sma' Hinv' Hp Ha Hsma' Eperm En Hseq.
    eapply (semop_slept_safe _ _ _ _ sma'); try done; [congruence|by rewrite En|].
    rewrite Eperm. unfold linked. rewrite Ha. split; [eauto|done]. }
  destruct (Z.eqb_spec (seq (sem_perm sma)) (semid / SEMMNI)) as [Hseq|Hseq].
  - assert (semid = seq (sem_perm sma) * SEMMNI + semid mod SEMMNI).
    { rewrite Hseq. pose proof (Z.div_mod semid SEMMNI). unfold SEMMNI in *. lia. }
    case_bool; [simpl; by eapply (Hslept st sma)|].
    destruct (ensure_undo_safe c p (semid mod SEMMNI) semid sops st sma)
      as (st' & ok & sma' & -> & Hinv' & Hp & Ha & Hsma' & Ep & En); try done. simpl.
    destruct ok; simpl; [by eapply (Hslept st' sma')|]. apply safe_ret; congruence.
  - assert (un = 0) as ->.
    { destruct Hun as [?|?]; [|done]. by destruct Hseq; apply Hundo. }
    simpl. unfold semop_slept. rewrite Hsma. simpl.
    destruct (Z.eqb_spec (seq (sem_perm sma)) (semid / SEMMNI)); [done|]. by apply safe_ret.
Qed.

(** ** [sys_semctl] *)

Definition safe_ctl (r : ctl_result) : Prop := exists st' o out, r = Some (st', o, out) /\ inv st'.

Lemma safe_ctl_ret c st r out : inv st -> procs st !! pid c = None -> safe_ctl (ctl c st r out).
Proof. intros H Hp. exists st, (Ret r), out. unfold ctl. by rewrite leave_idle. Qed.

Lemma clear_adj_spec f chain us :
  (forall u, u ∈ chain -> is_Some (us !! u)) ->
  exists us', clear_adj f chain us = Some us' /\ ukey <$> us' = ukey <$> us /\
    forall u, u ∉ chain -> us' !! u = us !! u.
Proof.
  revert us. induction chain as [|u chain IH]; intros us H; simpl; [by exists us|].
  destruct (H u) as [un Hun]; [set_solver|]. rewrite Hun. simpl.
  set (us1 := if f un then <[u := SemUndo (un_semid un) 0 (un_num un)]> us else us).
  assert (Hk1 : ukey <$> us1 = ukey <$> us).
  { unfold us1. case_bool; [|done]. rewrite fmap_insert. apply insert_id. by rewrite lookup_fmap, Hun. }
  destruct (IH us1) as (us' & -> & Hk & Ho).
  { intros v Hv. eapply fmap_dom_lookup; [exact Hk1|]. apply H. set_solver. }
  exists us'. split; [done|]. split; [by rewrite Hk|]. intros v Hv.
  rewrite Ho by set_solver. unfold us1. case_bool; [|done].
  rewrite lookup_insert_ne; [done|set_solver].
Qed.

(** Clearing the records of an array in the table does not touch the record a
    process in [sem_exit] is waiting with. *)
Lemma clear_undos_ok st id p sma f :
  inv st -> get (semary st) id = Some (Ptr p) -> heap st !! p = Some sma ->
  exists us, clear_adj f (undo sma) (undos st) = Some us /\ undos_ok st us.
Proof.
  intros (HT & HU & HW) Hid Hsma. destruct (clear_adj_spec f (undo sma) (undos st)) as (us & Hc & Hk & Ho).
  { intros u Hu. destruct (u_live _ HU _ _ _ _ Hid Hsma Hu) as (un & -> & _). eauto. }
  exists us. split; [done|]. split; [done|]. intros k q u num aw Hex. apply Ho.
  by apply (proj2 (u_exit _ HU _ _ _ _ _ Hex) id p sma).
Qed.

Lemma wake_up_if p ev st : wake_up p ev st = wake_if true p ev st.
Proof. done. Qed.

Section ctl.
Context (c : cred) (st : sst) (p id : Z) (sma : semid_ds).
Context (Hinv : inv st) (Hidle : procs st !! pid c = None).
Context (Hid : get (semary st) id = Some (Ptr p)) (Hsma : heap st !! p = Some sma).

Lemma semctl_setval_safe semnum val :
  0 <= semnum < sem_nsems sma -> safe_ctl (semctl_setval c st p sma semnum val).
Proof.
  intros Hnum. unfold semctl_setval. case_bool; [by apply safe_ctl_ret|].
  destruct (clear_undos_ok st id p sma (fun un => semnum =? un_num un)) as (us & -> & Hus); try done.
  simpl. destruct (inv_len _ _ _ Hinv Hsma) as (Hlen & _). rewrite <- Hlen in Hnum.
  destruct (get_in_range _ _ Hnum) as [s Hs]. rewrite Hs. simpl.
  destruct (put_of_get _ _ (set_val s (u16 val)) _ Hs) as [base Hput]. rewrite Hput. simpl.
  rewrite (wake_up_if p EvN), (wake_up_if p EvZ). apply safe_ctl_ret; [|by do 2 apply wake_if_procs].
  apply update_inv with (sma := sma); try done.
  - unfold shape. simpl. by rewrite (put_length _ _ _ _ Hput).
  - intros i s' Hi. simpl in Hi. rewrite (get_put _ _ _ _ _ Hput) in Hi.
    destruct (Z.eqb_spec i semnum) as [->|].
    + injection Hi as <-. exists s. simpl. pose proof (u16_range val). split_and!; try done; lia.
    + exists s'. destruct (w_cnt _ (proj2 (proj2 Hinv)) _ _ _ _ Hsma Hi) as (_ & _ & ?).
      split_and!; try done; lia.
Qed.

Lemma get_zip_with_set_val base vals i s' :
  get (zip_with set_val base vals) i = Some s' ->
  exists s v, get base i = Some s /\ v ∈ vals /\ s' = set_val s v.
Proof.
  unfold get. case_bool; [done|]. rewrite lookup_zip_with.
  destruct (base !! Z.to_nat i) as [s|] eqn:Es; simpl; [|done].
  destruct (vals !! Z.to_nat i) as [v|] eqn:Ev; simpl; [|done]. intros [= <-].
  exists s, v. split; [done|]. split; [by eapply list_elem_of_lookup_2|done].
Qed.

Lemma semctl_setall_safe m a :
  safe_ctl (semctl_setall c st p sma (read_shorts m a (Z.to_nat (sem_nsems sma)))).
Proof.
  unfold semctl_setall. case_bool; [by apply safe_ctl_ret|].
  destruct (clear_undos_ok st id p sma (fun _ => true)) as (us & -> & Hus); try done. simpl.
  rewrite (wake_up_if p EvN), (wake_up_if p EvZ). apply safe_ctl_ret; [|by do 2 apply wake_if_procs].
  destruct (inv_len _ _ _ Hinv Hsma) as (Hlen & ? & _).
  apply update_inv with (sma := sma); try done.
  - unfold shape. simpl. rewrite length_zip_with. unfold read_shorts. rewrite length_fmap, length_seq.
    do 2 f_equal. lia.
  - intros i s' (s & v & Hs & Hv & ->)%get_zip_with_set_val. exists s. simpl.
    unfold read_shorts in Hv. apply list_elem_of_fmap in Hv as (k & -> & _).
    pose proof (u16_range (get_fs_word m (a + 2 * Z.of_nat k))). split_and!; try done; lia.
Qed.

Lemma update_same_base sma' :
  shape sma' = shape sma -> undo sma' = undo sma -> sem_base sma' = sem_base sma ->
  inv (set_heap st (<[p := sma']> (heap st))).
Proof.
  intros H1 H2 H3.
  replace (set_heap st (<[p := sma']> (heap st))) with
    (wake_if false p EvZ (wake_if false p EvN
       (set_undos (set_heap st (<[p := sma']> (heap st))) (undos st)))) by (by destruct st).
  apply update_inv with (sma := sma); try done. rewrite H3. intros i s Hs. exists s.
  destruct (w_cnt _ (proj2 (proj2 Hinv)) _ _ _ _ Hsma Hs) as (_ & _ & ?).
  split_and!; try done; lia.
Qed.

Lemma semctl_set_safe tbuf : safe_ctl (semctl_set c st p sma tbuf).
Proof.
  unfold semctl_set. destruct tbuf as [[u g] md]. case_bool; [|by apply safe_ctl_ret].
  apply safe_ctl_ret; [|done]. by apply update_same_base.
Qed.

End ctl.

(** ** [freeary] *)

Lemma queued_false p st k pr : queued p st = false -> procs st !! k = Some pr -> waits_on p pr = false.
Proof.
  unfold queued. intros Hq Hk. destruct (waits_on p pr) eqn:E; [|done].
  assert (existsb (fun kv => waits_on p kv.2) (map_to_list (procs st)) = true); [|congruence].
  apply existsb_exists. exists (k, pr). split; [|done]. by apply list_elem_of_In, elem_of_map_to_list.
Qed.

Lemma wake_not_queued p ev st : queued p st = false -> wake_up p ev st = st.
Proof.
  intros Hq. unfold wake_up. rewrite (map_fmap_ext _ id).
  - rewrite map_fmap_id. apply set_procs_same.
  - intros k pr Hk. pose proof (queued_false _ _ _ _ Hq Hk) as Hw.
    destruct pr; simpl in *; try done; by rewrite bool_decide_false by lia.
Qed.

Section free_start.
Context (c : cred) (st : sst) (p id mx : Z) (sma sma1 : semid_ds) (ary : list slot) (us : gmap Z sem_undo).
Context (Hinv : inv st) (Hidle : procs st !! pid c = None).
Context (Hid : get (semary st) id = Some (Ptr p)) (Hsma : heap st !! p = Some sma).
Context (Hput : put (semary st) id UNUSED = Some ary).
Context (Hmx : 0 <= mx < SEMMNI)
        (Hge : forall j r, j <> id -> get (semary st) j = Some (Ptr r) -> j <= mx).
Context (Hus : undos_ok st us).
Context (Hn1 : sem_nsems sma1 = sem_nsems sma) (Hb1 : sem_base sma1 = sem_base sma)
        (Hs1 : seq (sem_perm sma1) = u16 (seq (sem_perm sma) + 1)).

Let st1 := Sst ary (used_sems st - sem_nsems sma) (used_semids st - 1) mx (u16 (sem_seq st + 1))
       (<[p := sma1]> (heap st)) us (semun st) (procs st) (mem st) (brk st).
Let st2 := enter c (InFreeary p) (wake_up p EvN (wake_up p EvZ st1)).

Lemma ary_other j r : get ary j = Some (Ptr r) <-> j <> id /\ get (semary st) j = Some (Ptr r).
Proof. rewrite (get_put _ _ _ _ _ Hput). destruct (Z.eqb_spec j id); naive_solver. Qed.

Lemma ptr_other j r : get ary j = Some (Ptr r) -> r <> p.
Proof.
  intros [Hj Hr]%ary_other ->. apply Hj. destruct Hinv as (HT & _).
  by eapply (t_inj _ _ _ _ _ _ _ _ HT).
Qed.

Lemma linked_other q : linked st2 q <-> q <> p /\ linked st q.
Proof.
  unfold linked. simpl. split.
  - intros [j Hj]. split; [by eapply ptr_other|]. apply ary_other in Hj as [_ Hj]. eauto.
  - intros [Hq [j Hj]]. exists j. apply ary_other. split; [|done]. intros ->. congruence.
Qed.

Lemma seq_bumped x : seq (sem_perm sma) = x -> seq (sem_perm sma1) <> x.
Proof.
  intros <-. rewrite Hs1. destruct (inv_len _ _ _ Hinv Hsma) as (_ & _ & ? & _).
  destruct (decide (seq (sem_perm sma) = 65535)) as [->|]; [done|]. rewrite u16_small; lia.
Qed.

Lemma free_start_tbl : tbl st2.
Proof.
  destruct Hinv as (HT & _ & _). unfold tbl, st2, enter. simpl.
  rewrite tprocs_insert. cbn [tproc].
  rewrite !(tproc_map (wake_proc _ _)) by apply tproc_wake. rewrite fmap_insert.
  replace (shape sma1) with (sem_nsems sma, length (sem_base sma), u16 (seq (sem_perm sma) + 1))
    by (unfold shape; by rewrite Hn1, Hb1, Hs1).
  eapply table_unlink; try done; [|by apply tprocs_none]. by rewrite lookup_fmap, Hsma.
Qed.

Lemma free_start_chains : chains st2.
Proof.
  destruct Hinv as (_ & HU & _). eapply chains_sub; [..|exact HU]; simpl; try done.
  - intros j r sma' Hj Hr. pose proof (ptr_other _ _ Hj). apply ary_other in Hj as [_ Hj].
    rewrite lookup_insert_ne in Hr by done. split; [done|]. by exists sma'.
  - apply Hus.
  - intros k q u num aw [[_ ?]|[_ Hk]]%lookup_insert_Some; [done|].
    apply lookup_fmap_Some in Hk as (pr1 & Hpr1 & Hk). apply wake_exit in Hpr1 as (aw1 & -> & _).
    apply lookup_fmap_Some in Hk as (pr & Hpr & Hk). apply wake_exit in Hpr as (aw' & -> & _). eauto.
Qed.

Lemma free_start_semop k q semid sops ncnt ev num aw aw' :
  procs st !! k = Some (InSemop q semid sops ncnt ev num aw') ->
  (aw = false -> aw' = false /\ q <> p) ->
  proc_ok st2 (InSemop q semid sops ncnt ev num aw).
Proof.
  intros Hk Haw. destruct Hinv as (_ & _ & HW).
  destruct (waits_proc _ _ _ HW Hk) as (sma2 & Hq & ? & ? & ? & ? & Hl & Hf). cbn [proc_ok].
  change (heap st2) with (<[p := sma1]> (heap st)).
  setoid_rewrite (linked_other q). destruct (decide (q = p)) as [->|Hne].
  - rewrite Hsma in Hq. injection Hq as <-. exists sma1. rewrite lookup_insert_eq, Hn1.
    split_and!; try done; try lia.
    + split; [|naive_solver]. intros Heq. exfalso. eapply seq_bumped; [|exact Heq].
      apply Hl. by exists id.
    + intros Hfalse. naive_solver.
  - exists sma2. rewrite lookup_insert_ne by done. split_and!; try done; try lia; [naive_solver|].
    intros Hfalse. destruct (Haw Hfalse) as [-> _]. destruct (Hf eq_refl) as (? & Hex).
    split; [done|exact Hex].
Qed.

Lemma free_start_exit k q u num aw aw' :
  procs st !! k = Some (InExit q u num aw') -> (aw = false -> aw' = false /\ q <> p) ->
  proc_ok st2 (InExit q u num aw).
Proof.
  intros Hk Haw. destruct Hinv as (_ & _ & HW).
  destruct (waits_proc _ _ _ HW Hk) as (sma2 & un & Hq & Hun & ? & ? & Hl & Hf). cbn [proc_ok].
  change (heap st2) with (<[p := sma1]> (heap st)). change (undos st2) with us.
  rewrite (proj2 Hus _ _ _ _ _ Hk).
  setoid_rewrite (linked_other q). destruct (decide (q = p)) as [->|Hne].
  - rewrite Hsma in Hq. injection Hq as <-. exists sma1, un. rewrite lookup_insert_eq, Hn1.
    split_and!; try done; try lia.
    + split; [|naive_solver]. intros Heq. exfalso. eapply seq_bumped; [|exact Heq].
      apply Hl. by exists id.
    + intros Hfalse. naive_solver.
  - exists sma2, un. rewrite lookup_insert_ne by done. split_and!; try done; try lia; [naive_solver|].
    intros Hfalse. destruct (Haw Hfalse) as [-> _]. destruct (Hf eq_refl) as (? & Hex).
    split; [done|exact Hex].
Qed.

Lemma free_start_inv : inv st2.
Proof.
  split; [apply free_start_tbl|split; [apply free_start_chains|]].
  apply waits_intro.
  - intros q sma2 i s Hq Hi. unfold st2 in *. simpl in *.
    rewrite !sleepers_insert by (by rewrite !lookup_fmap, Hidle). simpl. rewrite !sleepers_wake.
    destruct Hinv as (_ & _ & HW).
    apply lookup_insert_Some in Hq as [[<- <-]|[_ Hq]]; [|by eapply (w_cnt _ HW)].
    rewrite Hb1 in Hi. by eapply (w_cnt _ HW).
  - intros k pr Hk. unfold st2 in Hk. simpl in Hk.
    apply lookup_insert_Some in Hk as [[_ <-]|[_ Hk]]; [done|].
    apply lookup_fmap_Some in Hk as (pr1 & <- & Hk). apply lookup_fmap_Some in Hk as (pr0 & <- & Hk).
    destruct (wake_proc p EvN (wake_proc p EvZ pr0)) as [| |q semid sops ncnt ev num aw|q u num aw|] eqn:E;
      try done.
    + do 2 apply wake_find in E. subst pr0. destruct Hinv as (_ & _ & HW).
      exact (waits_proc _ _ _ HW Hk).
    + apply wake_semop in E as (aw1 & E & Hw1). apply wake_semop in E as (aw0 & -> & Hw0).
      eapply free_start_semop; [exact Hk|]. destruct ev; naive_solver.
    + apply wake_exit in E as (aw1 & E & Hw1). apply wake_exit in E as (aw0 & -> & Hw0).
      eapply free_start_exit; [exact Hk|]. naive_solver.
Qed.

End free_start.

Lemma free_end_inv c st p :
  inv st -> procs st !! pid c = Some (InFreeary p) -> queued p st = false ->
  inv (leave c (set_heap st (delete p (heap st)))).
Proof.
  intros (HT & HU & HW) Hp Hq. unfold leave. simpl.
  assert (Htp : omap tproc (procs st) !! pid c = Some (inr p)) by (by rewrite lookup_omap, Hp).
  split; [|split].
  - unfold tbl. simpl. rewrite tprocs_delete, fmap_delete. by apply table_kfree.
  - eapply chains_sub; [..|exact HU]; simpl; try done.
    + intros j r sma' Hj [_ Hr]%lookup_delete_Some. split; [done|]. by exists sma'.
    + intros k q u num aw [_ Hk]%lookup_delete_Some. eauto.
  - apply waits_intro; simpl.
    + intros q sma i s [_ Hsma]%lookup_delete_Some Hi.
      rewrite !(sleepers_delete _ _ _ _ (InFreeary p)) by done. simpl. rewrite !Z.sub_0_r.
      by eapply (w_cnt _ HW).
    + intros k pr [_ Hk]%lookup_delete_Some. pose proof (queued_false _ _ _ _ Hq Hk) as Hw.
      pose proof (waits_proc _ _ _ HW Hk) as Hok.
      destruct pr as [| |q semid sops ncnt ev num aw|q u num aw|]; try done; simpl in *;
        rewrite lookup_delete_ne by lia; exact Hok.
Qed.

(** The loop of [freeary], on entry or after [schedule()]. *)
Lemma freeary_wait_safe c st p :
  inv (enter c (InFreeary p) (wake_up p EvN (wake_up p EvZ st))) ->
  is_Some (heap st !! p) -> safe (freeary_wait c st p).
Proof.
  intros Hinv [sma Hsma]. unfold freeary_wait. case_bool; [by eexists _, _|].
  rewrite Hsma. simpl. eexists _, _. split; [done|].
  rewrite (wake_not_queued p EvZ st), (wake_not_queued p EvN st) in Hinv by done.
  eapply (free_end_inv c) in Hinv; simpl; [..|apply lookup_insert_eq|].
  - unfold leave, enter in *. simpl in *. by rewrite delete_insert_eq in Hinv.
  - unfold queued in *. simpl. apply not_true_is_false. intros ([k pr] & Hin & Hw)%existsb_exists.
    apply list_elem_of_In, elem_of_map_to_list, lookup_insert_Some in Hin as [[_ <-]|[_ Hk]]; [done|].
    simpl in Hw. rewrite (queued_false p st k pr) in Hw; done.
Qed.

Lemma freeary_resume_safe c st p :
  inv st -> procs st !! pid c = Some (InFreeary p) -> safe (freeary_wait c st p).
Proof.
  intros Hinv Hp. apply freeary_wait_safe.
  - assert (Heq : enter c (InFreeary p) (wake_up p EvN (wake_up p EvZ st)) =
      wake_up p EvN (wake_up p EvZ st)).
    { unfold enter, wake_up. simpl. rewrite insert_id; [done|]. by rewrite !lookup_fmap, Hp. }
    rewrite Heq. clear Heq. destruct Hinv as (HT & HU & HW). split; [|split].
    + unfold tbl in *. simpl. by rewrite !(tproc_map (wake_proc _ _)) by apply tproc_wake.
    + eapply chains_ext; [..|exact HU]; simpl; try done. intros k q u num aw Hk.
      apply lookup_fmap_Some in Hk as (pr1 & Hpr1 & Hk). apply wake_exit in Hpr1 as (aw1 & -> & _).
      apply lookup_fmap_Some in Hk as (pr & Hpr & Hk). apply wake_exit in Hpr as (aw' & -> & _). eauto.
    + apply waits_intro; simpl; [intros; rewrite !sleepers_wake; by eapply (w_cnt _ HW)|].
      intros k pr Hk. apply lookup_fmap_Some in Hk as (pr1 & <- & Hk).
      apply lookup_fmap_Some in Hk as (pr0 & <- & Hk). pose proof (waits_proc _ _ _ HW Hk) as Hok.
      destruct (wake_proc p EvN (wake_proc p EvZ pr0)) as [| |q semid sops ncnt ev num aw|q u num aw|] eqn:E;
        try done.
      * do 2 apply wake_find in E. by subst pr0.
      * apply wake_semop in E as (aw1 & E & Hw1). apply wake_semop in E as (aw0 & -> & Hw0).
        destruct Hok as (sma & ? & ? & ? & ? & ? & ? & Hf). exists sma. split_and!; try done; try lia.
        intros Hfalse. apply Hf. naive_solver.
      * apply wake_exit in E as (aw1 & E & Hw1). apply wake_exit in E as (aw0 & -> & Hw0).
        destruct Hok as (sma & un & ? & ? & ? & ? & ? & Hf). exists sma, un. split_and!; try done; try lia.
        intros Hfalse. apply Hf. naive_solver.
  - destruct Hinv as (HT & _). destruct (t_free _ _ _ _ _ _ _ _ HT (pid c) p) as [[x Hx] _].
    + by rewrite lookup_omap, Hp.
    + rewrite lookup_fmap in Hx. by destruct (heap st !! p).
Qed.

Lemma freeary_safe c st id p :
  inv st -> procs st !! pid c = None -> get (semary st) id = Some (Ptr p) -> safe (freeary c st id p).
Proof.
  intros Hinv Hidle Hid. destruct (linked_heap _ _ _ Hinv Hid) as [sma Hsma].
  unfold freeary. rewrite Hsma. simpl.
  pose proof Hinv as (HT & _).
  destruct (table_max _ _ _ _ _ _ _ _ HT id) as (mx & -> & Hmx & Hge).
  simpl. destruct (put_of_get _ _ UNUSED _ Hid) as [ary Hput]. rewrite Hput. simpl.
  destruct (clear_undos_ok st id p sma (fun _ => true)) as (us & -> & Hus); try done. simpl.
  apply freeary_wait_safe; [|simpl; by rewrite lookup_insert_eq].
  by eapply free_start_inv.
Qed.

Lemma sys_semctl_safe c st semid semnum cmd m arg :
  inv st -> procs st !! pid c = None -> safe_ctl (sys_semctl c st semid semnum cmd m arg).
Proof.
  intros Hinv Hidle. unfold sys_semctl.
  destruct ((semid <? 0) || (semnum <? 0) || (cmd <? 0)) eqn:Hneg; [by apply safe_ctl_ret|].
  case_bool; [unfold semctl_info; repeat case_bool; by apply safe_ctl_ret|].
  case_bool.
  { unfold semctl_stat. do 3 (case_bool; [by apply safe_ctl_ret|]).
    pose proof Hinv as (HT & _). pose proof (t_max _ _ _ _ _ _ _ _ HT).
    destruct (get_in_range (semary st) semid) as [s Hs].
    { rewrite (t_len _ _ _ _ _ _ _ _ HT). unfold SEMMNI, MNI in *. simpl Z.to_nat. lia. }
    rewrite Hs. destruct s as [| |p]; [by apply safe_ctl_ret..|].
    destruct (linked_heap _ _ _ Hinv Hs) as [sma ->]. simpl. case_bool; by apply safe_ctl_ret. }
  destruct (get_semary st semid Hinv) as [s Hs]. rewrite Hs.
  destruct s as [| |p]; [by apply safe_ctl_ret..|].
  destruct (linked_heap _ _ _ Hinv Hs) as [sma Hsma]. rewrite Hsma. simpl.
  case_bool; [by apply safe_ctl_ret|].
  destruct (Z.leb_spec (sem_nsems sma) semnum); [by apply safe_ctl_ret|].
  destruct (inv_len _ _ _ Hinv Hsma) as (Hlen & _).
  destruct (get_in_range (sem_base sma) semnum) as [s ->]; [lia|]. simpl.
  repeat first
    [ by apply safe_ctl_ret
    | by eapply semctl_setval_safe; [done..|lia]
    | by eapply semctl_setall_safe
    | by eapply semctl_set_safe
    | match goal with |- safe_ctl (if ?b then _ else _) => destruct b end ].
  destruct (freeary_safe c st (semid mod SEMMNI) p) as (st' & o & -> & ?); try done.
  by eexists _, _, _.
Qed.

(** ** [sys_semget] *)

(** A process that moves without going to sleep on an array. *)
Lemma wprocs_insert k pr (ps : gmap Z proc) :
  wproc pr = None -> omap wproc (<[k := pr]> ps) = delete k (omap wproc ps).
Proof. intros H. by apply omap_insert_None. Qed.

Lemma wprocs_lock (ps : gmap Z proc) : omap wproc (wake_lock_proc <$> ps) = omap wproc ps.
Proof.
  apply map_eq. intros k. rewrite !lookup_omap, lookup_fmap.
  destruct (ps !! k) as [pr|]; simpl; [by destruct pr|done].
Qed.

Lemma lock_exit k p u num aw (ps : gmap Z proc) :
  (wake_lock_proc <$> ps) !! k = Some (InExit p u num aw) -> ps !! k = Some (InExit p u num aw).
Proof. intros (pr & Hpr & Hk)%lookup_fmap_Some. destruct pr; simpl in Hpr; simplify_eq; done. Qed.

Lemma enter_findkey_inv c st id key0 nsems semflg :
  inv st -> procs st !! pid c = None -> 0 <= id < SEMMNI -> 0 <= nsems <= SEMMSL ->
  inv (enter c (InFindkey id key0 nsems semflg false) st).
Proof.
  intros (HT & HU & HW) Hidle Hid Hn. split; [|split].
  - eapply omap_tbl_ext; [..|exact HT]; simpl; try done.
    rewrite tprocs_insert. simpl. rewrite delete_id; [done|]. by apply tprocs_none.
  - eapply chains_ext; [..|exact HU]; simpl; try done.
    intros k p u num aw [[_ ?]|[_ ?]]%lookup_insert_Some; [done|eauto].
  - apply waits_intro; simpl.
    + intros p sma i s Hp Hi. rewrite !sleepers_insert by done. simpl. by eapply (w_cnt _ HW).
    + intros k pr [[_ <-]|[_ Hk]]%lookup_insert_Some; [done|].
      by eapply proc_ok_mono; [..|by eapply waits_proc]; [|eauto 10|].
Qed.

Lemma newary_safe c st key0 nsems semflg :
  inv st -> procs st !! pid c = None -> 0 <= nsems <= SEMMSL -> safe (newary c st key0 nsems semflg).
Proof.
  intros Hinv Hidle Hn. unfold newary. destruct (Z.eqb_spec nsems 0); [by apply safe_ret|].
  case_bool; [by apply safe_ret|].
  destruct (first_unused (semary st) 0) as [id|] eqn:Hf; [|by apply safe_ret].
  apply first_unused_get in Hf. destruct (put_of_get _ _ NOID _ Hf) as [ary Hput]. rewrite Hput. simpl.
  eexists _, _. split; [done|]. destruct Hinv as (HT & HU & HW).
  assert (Hl : forall j p, get ary j = Some (Ptr p) <-> get (semary st) j = Some (Ptr p)).
  { intros j p. rewrite (get_put _ _ _ _ _ Hput). destruct (Z.eqb_spec j id); [|done]. subst. naive_solver. }
  split; [|split].
  - unfold tbl. simpl. rewrite tprocs_insert. simpl.
    apply (table_reserve (semary st)); try done; [unfold SEMMSL, MSL in *; lia|by apply tprocs_none].
  - eapply chains_ext; [..|exact HU]; simpl; try done.
    intros k p u num aw [[_ ?]|[_ ?]]%lookup_insert_Some; [done|eauto].
  - eapply waits_ext; [..|exact HW]; simpl; try done.
    rewrite wprocs_insert by done. rewrite delete_id; [done|]. by rewrite lookup_omap, Hidle.
Qed.

(** The failure branch of [newary]. *)
Lemma newary_fail_inv c st id key0 nsems semflg ary :
  inv st -> procs st !! pid c = Some (InNewary id key0 nsems semflg) ->
  put (semary st) id UNUSED = Some ary ->
  inv (leave c (wake_sem_lock
        (Sst ary (used_sems st - nsems) (used_semids st) (max_semid st) (sem_seq st)
           (heap st) (undos st) (semun st) (procs st) (mem st) (brk st)))).
Proof.
  intros (HT & HU & HW) Hp Hput.
  assert (Htp : omap tproc (procs st) !! pid c = Some (inl (id, nsems))) by (by rewrite lookup_omap, Hp).
  destruct (t_new _ _ _ _ _ _ _ _ HT _ _ _ Htp) as [Hid _].
  assert (Hl : forall j p, get ary j = Some (Ptr p) <-> get (semary st) j = Some (Ptr p)).
  { intros j p. rewrite (get_put _ _ _ _ _ Hput). destruct (Z.eqb_spec j id); [|done]. subst. naive_solver. }
  split; [|split].
  - unfold tbl. simpl. rewrite tprocs_delete, tproc_map by apply tproc_lock.
    by apply (table_fail (semary st) ary _ _ _ _ _ _ _ HT _ id).
  - eapply chains_ext; [..|exact HU]; simpl; try done.
    intros k p u num aw [_ ?%lock_exit]%lookup_delete_Some. eauto.
  - eapply waits_ext; [..|exact HW]; simpl; try done.
    rewrite omap_delete, wprocs_lock, delete_id; [done|]. by rewrite lookup_omap, Hp.
Qed.

Section alloc.
Context (c : cred) (st : sst) (id key0 nsems semflg : Z) (ary : list slot) (sma : semid_ds).
Context (Hinv : inv st) (Hp : procs st !! pid c = Some (InNewary id key0 nsems semflg)).
Context (Hput : put (semary st) id (Ptr (brk st)) = Some ary).
Context (Hsh : shape sma = (nsems, Z.to_nat nsems, sem_seq st)) (Hun : undo sma = []).
Context (Hbase : forall i s, get (sem_base sma) i = Some s -> s = Sem 0 0 0 0).

Let st' := leave c (wake_sem_lock
  (Sst ary (used_sems st) (used_semids st + 1) (if max_semid st <? id then id else max_semid st)
     (sem_seq st) (<[brk st := sma]> (heap st)) (undos st) (semun st) (procs st)
     (pred (mem st)) (brk st + 1))).

Lemma alloc_fresh : heap st !! brk st = None.
Proof.
  destruct (heap st !! brk st) eqn:E; [|done]. destruct (inv_len _ _ _ Hinv E) as (_ & _ & _ & ?). lia.
Qed.

Lemma alloc_links j p : p <> brk st -> get ary j = Some (Ptr p) <-> get (semary st) j = Some (Ptr p).
Proof.
  intros Hne. rewrite (get_put _ _ _ _ _ Hput). destruct (Z.eqb_spec j id) as [->|]; [|done].
  pose proof Hinv as (HT & _). destruct (t_new _ _ _ _ _ _ _ _ HT (pid c) id nsems) as [Hid _].
  { by rewrite lookup_omap, Hp. } rewrite Hid. naive_solver.
Qed.

Lemma alloc_linked p : p <> brk st -> linked st' p <-> linked st p.
Proof. intros Hne. unfold linked. simpl. split; intros [j Hj]; exists j; by apply (alloc_links j). Qed.

Lemma newary_alloc_inv : inv st'.
Proof.
  pose proof Hinv as (HT & HU & HW).
  assert (Htp : omap tproc (procs st) !! pid c = Some (inl (id, nsems))) by (by rewrite lookup_omap, Hp).
  assert (Hps : omap wproc (procs st') = omap wproc (procs st)).
  { simpl. rewrite omap_delete, wprocs_lock, delete_id; [done|]. by rewrite lookup_omap, Hp. }
  pose proof alloc_fresh as Hfresh. split; [|split].
  - unfold tbl. simpl. rewrite tprocs_delete, tproc_map by apply tproc_lock.
    rewrite fmap_insert, Hsh. by apply (table_alloc (semary st) ary _ _ _ _ _ _ _ HT).
  - constructor; simpl.
    + intros j p sma1 u Hj [[<- <-]|[Hne Hq]]%lookup_insert_Some Hin; [rewrite Hun in Hin; set_solver|].
      apply alloc_links in Hj; [|done]. by eapply (u_live _ HU).
    + apply (u_chain _ HU).
    + apply (u_nodup _ HU).
    + apply (u_disj _ HU).
    + intros k p u num aw [_ Hk%lock_exit]%lookup_delete_Some.
      destruct (u_exit _ HU _ _ _ _ _ Hk) as [? Hno]. split; [done|].
      intros j q sma1 Hj [[<- <-]|[Hne Hq]]%lookup_insert_Some; [rewrite Hun; set_solver|].
      apply alloc_links in Hj; [|done]. by eapply Hno.
    + intros u Hu. pose proof (u_brk _ HU _ Hu). lia.
  - assert (Hwait : forall k pr, procs st' !! k = Some pr -> asleep pr = true -> procs st !! k = Some pr).
    { intros k pr Hk Hw. rewrite wproc_lookup in Hk |- * by done. by rewrite <- Hps. }
    apply waits_intro.
    + intros p sma1 i s Hq Hi. rewrite !(sleepers_wproc _ _ _ (procs st')), Hps, <- !sleepers_wproc.
      simpl in Hq. apply lookup_insert_Some in Hq as [[<- <-]|[_ Hq]]; [|by eapply (w_cnt _ HW)].
      apply Hbase in Hi as ->.
      assert (Hz : forall ev, sleepers ev (brk st) i (procs st) = 0); [|by rewrite !Hz].
      intros ev. apply sleepers_zero. intros k pr Hk. pose proof (waits_proc _ _ _ HW Hk) as Hok.
      destruct pr as [| |q ? ? ? ? ? ?|q ? ? ?|]; try done; apply bool_decide_eq_false; intros [-> _].
      * destruct Hok as (? & Hq & _). congruence.
      * destruct Hok as (? & ? & Hq & _). congruence.
    + intros k pr Hk. pose proof (Hwait k pr Hk) as Hold.
      assert (Hne : forall q, is_Some (heap st !! q) -> q <> brk st).
      { intros q [? ?] ->. congruence. }
      destruct pr as [id' key' n' flg' aw'| |q semid sops ncnt ev num aw|q u num aw|]; try done;
        [destruct (wproc_find _ _ _ _ _ _ _ _ Hps Hk) as [aw0 Hk0]; exact (waits_proc _ _ _ HW Hk0)|
         specialize (Hold eq_refl)..].
      * destruct (waits_proc _ _ _ HW Hold) as (sma1 & Hq & Hok). exists sma1.
        assert (q <> brk st) by (apply Hne; eauto). rewrite alloc_linked by done.
        split; [|exact Hok]. simpl. by rewrite lookup_insert_ne.
      * destruct (waits_proc _ _ _ HW Hold) as (sma1 & un & Hq & Hok). exists sma1, un.
        assert (q <> brk st) by (apply Hne; eauto). rewrite alloc_linked by done.
        split; [|exact Hok]. simpl. by rewrite lookup_insert_ne.
Qed.

End alloc.

Lemma newary_alloc_safe c st id key0 nsems semflg :
  inv st -> procs st !! pid c = Some (InNewary id key0 nsems semflg) ->
  safe (newary_alloc c st id key0 nsems semflg).
Proof.
  intros Hinv Hp. pose proof Hinv as (HT & _).
  destruct (t_new _ _ _ _ _ _ _ _ HT (pid c) id nsems) as [Hid Hn]; [by rewrite lookup_omap, Hp|].
  unfold newary_alloc, kmalloc. destruct (mem st) as [|m] eqn:Hm.
  - destruct (put_of_get _ _ UNUSED _ Hid) as [ary Hput]. rewrite Hput. simpl.
    eexists _, _. split; [done|]. rewrite <- Hm. by eapply newary_fail_inv.
  - simpl. destruct (put_of_get _ _ (Ptr (brk st)) _ Hid) as [ary Hput]. rewrite Hput. simpl.
    eexists _, _. split; [done|].
    pose proof (newary_alloc_inv c st id key0 nsems semflg ary) as H. rewrite Hm in H. simpl in H.
    apply H; try done.
    + unfold shape. simpl. by rewrite repeat_length.
    + simpl. intros i s [_ Hs]%get_lookup. by apply list_elem_of_lookup_2, list_elem_of_In, repeat_spec in Hs.
Qed.

Lemma findkey_loop_total st key0 n id :
  inv st -> 0 <= id -> id + Z.of_nat n <= SEMMNI ->
  exists f, findkey_loop n st key0 id = Some f /\
    match f with
    | FoundId j => exists p, get (semary st) j = Some (Ptr p)
    | WaitAt j => 0 <= j < SEMMNI
    | NotFound => True
    end.
Proof.
  intros Hinv. pose proof Hinv as (HT & _). revert id.
  induction n as [|n IH]; intros id Hid Hle; simpl; [by eexists|].
  destruct (get_in_range (semary st) id) as [s Hs].
  { rewrite (t_len _ _ _ _ _ _ _ _ HT). unfold SEMMNI, MNI in *. simpl Z.to_nat. lia. }
  rewrite Hs. destruct s as [| |p].
  - apply IH; lia.
  - eexists. split; [done|]. simpl. lia.
  - destruct (linked_heap _ _ _ Hinv Hs) as [sma ->]. simpl. case_bool; [|apply IH; lia].
    eexists. split; [done|]. by exists p.
Qed.

Lemma semget_safe c st key0 nsems semflg id :
  inv st -> procs st !! pid c = None -> 0 <= nsems <= SEMMSL -> 0 <= id < SEMMNI ->
  safe (f ← findkey st key0 id; semget_found c st key0 nsems semflg f).
Proof.
  intros Hinv Hidle Hn Hid. pose proof Hinv as (HT & _).
  pose proof (t_max _ _ _ _ _ _ _ _ HT : 0 <= _ < SEMMNI). unfold findkey.
  destruct (findkey_loop_total st key0 (S (Z.to_nat (max_semid st - id))) id) as (f & -> & Hf);
    [done|lia|lia|]. simpl. destruct f as [j| |j].
  - unfold semget_found. case_bool; [by apply safe_ret|]. destruct Hf as [p Hp]. rewrite Hp.
    destruct (linked_heap _ _ _ Hinv Hp) as [sma ->]. simpl. repeat case_bool; by apply safe_ret.
  - simpl. case_bool; [by apply safe_ret|]. by apply newary_safe.
  - eexists _, _. split; [done|]. by apply enter_findkey_inv.
Qed.

Lemma sys_semget_safe c st key0 nsems semflg :
  inv st -> procs st !! pid c = None -> safe (sys_semget c st key0 nsems semflg).
Proof.
  intros Hinv Hidle. unfold sys_semget.
  destruct ((nsems <? 0) || (SEMMSL <? nsems)) eqn:Hn; [by apply safe_ret|].
  case_bool; [apply newary_safe; [done..|lia]|]. apply semget_safe; try done; unfold SEMMNI in *; lia.
Qed.

(** A process that wakes in [findkey] goes on as if it had just come. *)
Lemma semget_found_leave c st key0 nsems semflg f :
  semget_found c (leave c st) key0 nsems semflg f = semget_found c st key0 nsems semflg f.
Proof.
  assert (Hret : forall r, ret c (leave c st) r = ret c st r).
  { intros r. unfold ret, leave. simpl. by rewrite delete_delete_eq. }
  assert (Henter : forall pr s, enter c pr (leave c s) = enter c pr s).
  { intros pr s. unfold enter, leave. simpl. by rewrite insert_delete_eq. }
  destruct f as [j| |j]; simpl; [| |by rewrite Henter].
  - repeat case_match; rewrite ?Hret; try done. simpl.
    destruct (heap st !! _); simpl; [|done]. by rewrite !Hret.
  - case_bool; [apply Hret|]. unfold newary. simpl. rewrite !Hret. repeat case_bool; try done.
    destruct (first_unused (semary st) 0); [|done]. destruct (put _ _ _); simpl; [|done].
    unfold enter. simpl. by rewrite insert_delete_eq.
Qed.

Lemma findkey_resume_safe c st id key0 nsems semflg aw :
  inv st -> procs st !! pid c = Some (InFindkey id key0 nsems semflg aw) ->
  safe (f ← findkey st key0 id; semget_found c st key0 nsems semflg f).
Proof.
  intros Hinv Hp. pose proof Hinv as (HT & HU & HW).
  destruct (w_find _ HW _ _ _ _ _ _ Hp) as [Hid Hn].
  assert (Hinv' : inv (leave c st)).
  { split; [|split].
    - eapply omap_tbl_ext; [..|exact HT]; simpl; try done.
      rewrite tprocs_delete, delete_id; [done|]. by rewrite lookup_omap, Hp.
    - eapply chains_ext; [..|exact HU]; simpl; try done. intros k p u num aw' [_ ?]%lookup_delete_Some. eauto.
    - apply waits_intro; simpl.
      + intros p sma i s Hsma Hi. rewrite !(sleepers_delete _ _ _ _ _ _ Hp). simpl. rewrite !Z.sub_0_r.
        by eapply (w_cnt _ HW).
      + intros k pr [_ Hk]%lookup_delete_Some.
        by eapply proc_ok_mono; [..|by eapply waits_proc]; [|eauto 10|]. }
  pose proof (semget_safe c (leave c st) key0 nsems semflg id Hinv') as H.
  simpl in H. rewrite lookup_delete_eq in H. specialize (H eq_refl Hn Hid).
  replace (findkey (leave c st) key0 id) with (findkey st key0 id) in H.
  - destruct (findkey st key0 id) as [f|]; simpl in *; [|done]. by rewrite semget_found_leave in H.
  - unfold findkey. simpl max_semid. generalize (S (Z.to_nat (max_semid st - id))). intros n.
    clear. revert id. induction n as [|n IH]; intros id; simpl; [done|].
    repeat case_match; try done. destruct (heap st !! _); simpl; [|done]. by rewrite IH.
Qed.

(** ** [sem_exit] *)

(** The record [u] is in no undo list that can still be reached. *)
Definition unlinked (st : sst) (u : Z) : Prop :=
  forall id q sma, get (semary st) id = Some (Ptr q) -> heap st !! q = Some sma -> u ∉ undo sma.

(** The process is about to drop the first record of its chain. *)
Definition dropping (c : cred) (st : sst) (u : Z) (chain : list Z) : Prop :=
  inv st /\ procs st !! pid c = None /\ semun st !! pid c = Some (u :: chain) /\ unlinked st u.

Lemma exit_next_inv c st u chain :
  dropping c st u chain -> inv (exit_next c st u chain).
Proof.
  intros ((HT & HU & HW) & Hidle & Hch & Hun).
  pose proof (u_nodup _ HU _ _ Hch) as [Hni _]%list.NoDup_cons.
  assert (Hsub : forall k l, <[pid c := chain]> (semun st) !! k = Some l ->
    exists l', semun st !! k = Some l' /\ (u ∉ l) /\ forall v, v ∈ l -> v ∈ l').
  { intros k l [[<- <-]|[Hne Hl]]%lookup_insert_Some.
    - eexists. split; [exact Hch|]. split; [done|set_solver].
    - exists l. split; [done|]. split; [|done]. intros Hin. destruct Hne.
      by apply (u_disj _ HU (pid c) k (u :: chain) l u); [..|set_solver|]. }
  assert (Hex : forall k p v num aw, procs st !! k = Some (InExit p v num aw) -> v <> u).
  { intros k p v num aw Hk ->. destruct (u_exit _ HU _ _ _ _ _ Hk) as [[l Hl] _].
    assert (k = pid c) by (apply (u_disj _ HU k (pid c) (u :: l) (u :: chain) u); set_solver). congruence. }
  split; [|split].
  - eapply omap_tbl_ext; [..|exact HT]; done.
  - constructor; simpl.
    + intros id p sma v Hid Hsma Hin. rewrite lookup_delete_ne; [by eapply (u_live _ HU)|].
      intros <-. by eapply Hun.
    + intros k l v Hl Hin. destruct (Hsub _ _ Hl) as (l' & Hl' & Hu & Hincl).
      rewrite lookup_delete_ne by set_solver. eapply (u_chain _ HU); [exact Hl'|auto].
    + intros k l [[<- <-]|[_ Hl]]%lookup_insert_Some; [|by eapply (u_nodup _ HU)].
      by pose proof (u_nodup _ HU _ _ Hch) as [_ ?]%list.NoDup_cons.
    + intros k k' l l' v Hl Hl' Hin Hin'. destruct (Hsub _ _ Hl) as (l1 & Hl1 & _ & H1).
      destruct (Hsub _ _ Hl') as (l2 & Hl2 & _ & H2). eapply (u_disj _ HU); eauto.
    + intros k p v num aw Hk. destruct (u_exit _ HU _ _ _ _ _ Hk) as [[l Hl] Hno].
      rewrite lookup_insert_ne by congruence. eauto.
    + intros v [_ ?]%lookup_delete_is_Some. by apply (u_brk _ HU).
  - apply waits_intro; simpl; [apply (w_cnt _ HW)|]. intros k pr Hk.
    eapply proc_ok_mono; [..|by eapply waits_proc]; [done|eauto 10|].
    intros p v num aw ->. simpl. rewrite lookup_delete_ne; [done|]. by eapply not_eq_sym, Hex.
Qed.

Lemma exit_done_safe c st : inv st -> procs st !! pid c = None -> safe (exit_done c st).
Proof.
  intros (HT & HU & HW) Hidle. unfold exit_done. apply safe_ret; [|done]. split; [|split].
  - eapply omap_tbl_ext; [..|exact HT]; done.
  - constructor; simpl.
    + apply (u_live _ HU).
    + intros k l u [_ Hl]%lookup_delete_Some. by apply (u_chain _ HU _ _ _ Hl).
    + intros k l [_ Hl]%lookup_delete_Some. by apply (u_nodup _ HU _ _ Hl).
    + intros k k' l l' u [_ Hl]%lookup_delete_Some [_ Hl']%lookup_delete_Some.
      by apply (u_disj _ HU _ _ _ _ _ Hl Hl').
    + intros k p u num aw Hk. destruct (u_exit _ HU _ _ _ _ _ Hk) as [? Hno].
      rewrite lookup_delete_ne by congruence. eauto.
    + apply (u_brk _ HU).
  - eapply waits_ext; [..|exact HW]; done.
Qed.

Lemma unlink_inv st p sma u :
  inv st -> heap st !! p = Some sma -> inv (set_heap st (<[p := unlink sma u]> (heap st))).
Proof.
  intros (HT & HU & HW) Hsma.
  assert (Hold : forall q sma', <[p := unlink sma u]> (heap st) !! q = Some sma' ->
    exists sma0, heap st !! q = Some sma0 /\ sem_perm sma' = sem_perm sma0 /\ sem_nsems sma' = sem_nsems sma0 /\
      sem_base sma' = sem_base sma0 /\ forall v, v ∈ undo sma' -> v ∈ undo sma0).
  { intros q sma' [[<- <-]|[_ Hq]]%lookup_insert_Some; [|by exists sma'].
    exists sma. split_and!; try done. simpl. intros v Hv%list_elem_of_filter. tauto. }
  split; [|split].
  - eapply omap_tbl_ext; [..|exact HT]; simpl; try done. by eapply fmap_insert_same.
  - constructor; simpl; try apply HU.
    + intros id q sma' v Hid Hq Hin. destruct (Hold _ _ Hq) as (sma0 & Hq0 & -> & -> & _ & Hincl).
      eapply (u_live _ HU); eauto.
    + intros k q v num aw Hk. destruct (u_exit _ HU _ _ _ _ _ Hk) as [? Hno]. split; [done|].
      intros id r sma' Hid Hr Hin. destruct (Hold _ _ Hr) as (sma0 & Hr0 & _ & _ & _ & Hincl).
      eapply Hno; eauto.
  - apply waits_intro; simpl.
    + intros q sma' i s Hq Hi. destruct (Hold _ _ Hq) as (sma0 & Hq0 & _ & _ & Hb & _).
      rewrite Hb in Hi. by eapply (w_cnt _ HW).
    + intros k pr Hk. eapply proc_ok_mono; [..|by eapply waits_proc]; [done| |done].
      intros q sma0 Hq. simpl. destruct (decide (q = p)) as [->|].
      * rewrite lookup_insert_eq. simplify_eq. eexists. split; [done|]. simpl. eauto.
      * rewrite lookup_insert_ne by done. eauto 10.
Qed.

(** Where a record that is still in a reachable list is found. *)
Lemma live_record st id q sma u un :
  inv st -> get (semary st) id = Some (Ptr q) -> heap st !! q = Some sma -> u ∈ undo sma ->
  undos st !! u = Some un -> un_semid un mod SEMMNI = id /\ un_semid un / SEMMNI = seq (sem_perm sma).
Proof.
  intros (HT & HU & _) Hid Hq Hin Hun.
  destruct (u_live _ HU _ _ _ _ Hid Hq Hin) as (un' & Hun' & Heq & _). simplify_eq.
  apply get_Some_range in Hid. rewrite (t_len _ _ _ _ _ _ _ _ HT) in Hid.
  unfold SEMMNI, MNI in *. simpl Z.to_nat in Hid. rewrite Heq.
  split; [rewrite Z.add_comm, Z.mod_add by lia; apply Z.mod_small; lia|].
  rewrite Z.div_add_l, (Z.div_small id) by lia. lia.
Qed.

Section adjust.
Context (c : cred) (st : sst) (p u : Z) (chain : list Z) (un : sem_undo) (sma : semid_ds).
Context (Hdrop : dropping c st u chain) (Hun : undos st !! u = Some un).
Context (Hsma : heap st !! p = Some sma) (Hnum : 0 <= un_num un < sem_nsems sma).
Context (Hseq : seq (sem_perm sma) = un_semid un / SEMMNI <-> linked st p).

(** The value changes by [semadj] and the queues that may go on are woken. *)
Lemma adjust_value_inv s base :
  get (sem_base sma) (un_num un) = Some s -> 0 <= semval s + semadj un ->
  let v := u16 (semval s + semadj un) in
  put (sem_base sma) (un_num un) (Sem (s16 (pid c)) v (semncnt s) (semzcnt s)) = Some base ->
  inv (wake_if (v =? 0) p EvZ (wake_if (0 <? semadj un) p EvN
    (set_undos (set_heap st (<[p := set_otime (set_base sma base) (time c)]> (heap st))) (undos st)))).
Proof.
  intros Hs Hge v Hput. destruct Hdrop as (Hinv & Hidle & _ & _).
  apply update_inv with (sma := sma); try done.
  - unfold shape. simpl. by rewrite (put_length _ _ _ _ Hput).
  - intros i s' Hi. simpl in Hi. rewrite (get_put _ _ _ _ _ Hput) in Hi.
    destruct Hinv as (_ & _ & HW).
    destruct (Z.eqb_spec i (un_num un)) as [->|].
    + injection Hi as <-. exists s. simpl. destruct (w_cnt _ HW _ _ _ _ Hsma Hs) as (_ & _ & Hv).
      pose proof (u16_range (semval s + semadj un)). fold v in H. split_and!; try done; try lia.
      intros Hb%Z.ltb_ge. unfold v. rewrite u16_small; lia.
    + exists s'. destruct (w_cnt _ HW _ _ _ _ Hsma Hi) as (_ & _ & ?). split_and!; try done; lia.
Qed.

Lemma adjust_sleep_inv s base :
  get (sem_base sma) (un_num un) = Some s -> semval s + semadj un < 0 -> linked st p ->
  bump (sem_base sma) (un_num un) EvN 1 = Some base ->
  inv (enter c (InExit p u (un_num un) false) (set_heap st (<[p := set_base sma base]> (heap st)))).
Proof.
  intros Hs Hneg Hlink Hb. destruct Hdrop as ((HT & HU & HW) & Hidle & Hch & Hno).
  unfold enter. simpl. split; [|split].
  - eapply bump_tbl; [done..| |done]. rewrite tprocs_insert. simpl.
    rewrite delete_id; [done|]. by apply tprocs_none.
  - assert (HU' : chains (set_procs (set_heap st (<[p := set_base sma base]> (heap st))) (procs st))).
    { eapply bump_chains; [done..| |done]. eauto. }
    constructor; simpl; try apply HU'.
    intros k q v n aw [[<- Heq]|[_ Hk]]%lookup_insert_Some; [|by apply (u_exit _ HU' _ _ _ _ _ Hk)].
    injection Heq as <- <- <- <-. split; [eauto|].
    intros id r sma' Hid [[<- <-]|[_ Hr]]%lookup_insert_Some; [|by eapply Hno]. simpl. by eapply Hno.
  - eapply bump_waits; [done..| |done|].
    + intros e q i. rewrite sleepers_insert by done. simpl.
      rewrite (bool_decide_ext (p = q /\ e = EvN /\ un_num un = i) (q = p /\ e = EvN /\ i = un_num un))
        by naive_solver.
      case_bool_decide; simpl; lia.
    + intros k pr [[_ <-]|[_ ?]]%lookup_insert_Some; [right|by left]. simpl.
      exists (set_base sma base), un. rewrite lookup_insert_eq. simpl. split_and!; try done; try lia.
      intros _. split; [done|]. destruct (bump_back _ _ _ _ _ _ _ Hb Hs) as (s' & ? & Ev).
      exists s'. by rewrite Ev.
Qed.

Lemma exit_adjust_safe :
  exists st' fin, exit_adjust c st p u un = Some (st', fin) /\
    if fin then dropping c st' u chain /\ undos st' = undos st else inv st'.
Proof.
  pose proof Hdrop as (Hinv & Hidle & Hch & Hno). unfold exit_adjust. rewrite Hsma. simpl.
  case_bool; [by eexists _, _|].
  apply negb_false_iff, Z.eqb_eq, Hseq in Heqb as Hlink.
  destruct (inv_len _ _ _ Hinv Hsma) as (Hlen & _).
  destruct (get_in_range (sem_base sma) (un_num un)) as [s Hs]; [lia|]. rewrite Hs. simpl.
  destruct (Z.leb_spec 0 (semval s + semadj un)) as [Hge|Hlt].
  - set (v := u16 (semval s + semadj un)).
    destruct (put_of_get _ _ (Sem (s16 (pid c)) v (semncnt s) (semzcnt s)) _ Hs) as [base Hput].
    rewrite Hput. simpl. eexists _, true. split; [done|].
    pose proof (adjust_value_inv s base Hs Hge Hput) as Hadj. fold v in Hadj.
    replace (set_undos (set_heap st (<[p := set_otime (set_base sma base) (time c)]> (heap st))) (undos st))
      with (set_heap st (<[p := set_otime (set_base sma base) (time c)]> (heap st))) in Hadj
      by (by destruct st).
    fold (wake_if (0 <? semadj un) p EvN
            (set_heap st (<[p := set_otime (set_base sma base) (time c)]> (heap st)))).
    match goal with |- dropping _ (if _ then wake_up _ _ ?x else ?x) _ _ /\ _ =>
      fold (wake_if (v =? 0) p EvZ x) end.
    rewrite wake_if_both in *. split; [|done]. split_and!; try done.
    + simpl. by rewrite lookup_fmap, Hidle.
    + intros id q sma' Hid Hq. simpl in Hid, Hq.
      apply lookup_insert_Some in Hq as [[<- <-]|[_ Hq]]; [simpl|]; by eapply Hno.
  - case_bool; [by eexists _, true|].
    destruct (bump_total _ _ EvN 1 _ Hs) as [base Hb]. rewrite Hb. simpl.
    eexists _, false. split; [done|]. by eapply adjust_sleep_inv.
Qed.

End adjust.

Lemma sem_exit_loop_safe c chain st :
  inv st -> procs st !! pid c = None -> (chain <> [] -> semun st !! pid c = Some chain) ->
  safe (sem_exit_loop c chain st).
Proof.
  revert st. induction chain as [|u chain IH]; intros st Hinv Hidle Hch; simpl; [by apply exit_done_safe|].
  specialize (Hch ltac:(done)).
  destruct (u_chain _ (proj1 (proj2 Hinv)) _ _ u Hch) as [un Hun]; [set_solver|]. rewrite Hun. simpl.
  assert (Hnext : forall st', dropping c st' u chain -> safe (sem_exit_loop c chain (exit_next c st' u chain))).
  { intros st' Hd. apply IH; [by apply exit_next_inv|apply Hd|]. intros _. simpl. apply lookup_insert_eq. }
  destruct (get_semary st (un_semid un) Hinv) as [s Hs]. rewrite Hs. destruct s as [| |p].
  1,2: apply Hnext; split_and!; try done; intros id q sma Hid Hq Hin;
    destruct (live_record st id q sma u un) as [<- _]; try done; congruence.
  destruct (linked_heap _ _ _ Hinv Hs) as [sma Hsma]. rewrite Hsma. simpl.
  destruct (Z.eqb_spec (seq (sem_perm sma)) (un_semid un / SEMMNI)) as [Hseq|Hseq]; simpl.
  2: { apply Hnext. split_and!; try done. intros id q sma' Hid Hq Hin.
       destruct (live_record st id q sma' u un) as [Hi Hsq]; try done. subst id. congruence. }
  case_bool_decide as Hin; simpl; [|by apply exit_done_safe].
  set (st1 := set_heap st (<[p := unlink sma u]> (heap st))).
  assert (Hd1 : dropping c st1 u chain).
  { split_and!; [by apply unlink_inv|done..|].
    intros id q sma' Hid Hq. simpl in Hid, Hq.
    apply lookup_insert_Some in Hq as [[<- <-]|[Hne Hq]]; simpl.
    - intros [? _]%list_elem_of_filter. done.
    - intros Hin'. destruct (live_record st id q sma' u un) as [Hi _]; try done.
      subst id. simpl in Hid. congruence. }
  case_bool; [by apply Hnext|].
  destruct (u_live _ (proj1 (proj2 Hinv)) _ _ _ _ Hs Hsma Hin) as (un' & Hun' & _ & Hnum). simplify_eq.
  destruct (exit_adjust_safe c st1 p u chain un (unlink sma u)) as (st' & fin & -> & Hfin); try done.
  - simpl. apply lookup_insert_eq.
  - split; [intros _; by exists (un_semid un mod SEMMNI)|done].
  - simpl. destruct fin; simpl; [apply Hnext; apply Hfin|by eexists _, _].
Qed.

Lemma sem_exit_safe c st : inv st -> procs st !! pid c = None -> safe (sem_exit c st).
Proof.
  intros Hinv Hidle. apply sem_exit_loop_safe; try done. unfold chain_of.
  by destruct (semun st !! pid c).
Qed.

Lemma exit_resume_safe c st p u num aw :
  inv st -> procs st !! pid c = Some (InExit p u num aw) -> safe (exit_resume c st p u num).
Proof.
  intros Hinv Hpr. pose proof Hinv as (HT & HU & HW).
  destruct (waits_proc _ _ _ HW Hpr) as (sma & un & Hsma & Hun & <- & Hnum & Hseq & _).
  destruct (u_exit _ HU _ _ _ _ _ Hpr) as [[chain Hch] Hno].
  unfold exit_resume. rewrite Hun. simpl. rewrite Hsma. simpl.
  destruct (inv_len _ _ _ Hinv Hsma) as (Hlen & _).
  destruct (get_in_range (sem_base sma) (un_num un)) as [s Hs]; [lia|].
  destruct (bump_total _ _ EvN (-1) _ Hs) as [base Hb]. rewrite Hb. simpl.
  set (st1 := leave c (set_heap st (<[p := set_base sma base]> (heap st)))).
  assert (Hd1 : dropping c st1 u chain).
  { split_and!; [|simpl; apply lookup_delete_eq|done|].
    - eapply bump_leave_inv; try done. intros e q i. simpl. apply bool_decide_ext. naive_solver.
    - intros id q sma' Hid Hq. simpl in Hid, Hq.
      apply lookup_insert_Some in Hq as [[<- <-]|[_ Hq]]; [simpl|]; by eapply Hno. }
  destruct (exit_adjust_safe c st1 p u chain un (set_base sma base)) as (st' & fin & -> & Hfin); try done.
  - simpl. apply lookup_insert_eq.
  - simpl. destruct fin; simpl; [|by eexists _, _]. destruct Hfin as [Hd _].
    assert (Htl : tl (chain_of c st') = chain).
    { unfold chain_of. destruct Hd as (_ & _ & -> & _). done. }
    rewrite Htl. apply sem_exit_loop_safe; [by apply exit_next_inv|apply Hd|].
    intros _. simpl. apply lookup_insert_eq.
Qed.

(** ** The system *)

(** The calls that respect [good_semop]. *)
Definition good_call (st : sst) (k : call) : Prop :=
  match k with Semop semid _ sops => good_semop st semid sops | _ => True end.

Lemma rouse_inv c st pr : inv st -> procs st !! pid c = Some pr -> inv (enter c (rouse pr) st).
Proof.
  intros (HT & HU & HW) Hp.
  assert (Hsl : forall ev p i, sleeps ev p i (rouse pr) = sleeps ev p i pr) by (by destruct pr).
  split; [|split].
  - eapply omap_tbl_ext; [..|exact HT]; simpl; try done. rewrite tprocs_insert, tproc_rouse.
    destruct (tproc pr) eqn:E.
    + apply insert_id. by rewrite lookup_omap, Hp.
    + apply delete_id. by rewrite lookup_omap, Hp.
  - eapply chains_ext; [..|exact HU]; simpl; try done.
    intros k p u num aw [[<- Heq]|[_ ?]]%lookup_insert_Some; [|eauto]. destruct pr; simplify_eq/=. eauto.
  - apply waits_intro; simpl.
    + intros p sma i s Hsma Hi. unfold sleepers. rewrite !msum_insert_gen, !Hsl.
      rewrite <- !(msum_delete (fun pr => Z.b2z (sleeps _ p i pr)) (procs st) (pid c) pr Hp).
      by eapply (w_cnt _ HW).
    + intros k pr' [[_ <-]|[_ Hk]]%lookup_insert_Some.
      * pose proof (waits_proc _ _ _ HW Hp) as Hok. destruct pr; simpl in *; try done.
        -- destruct Hok as (sma & ? & ? & ? & ? & ? & ? & _). exists sma. split_and!; try done; lia.
        -- destruct Hok as (sma & un & ? & ? & ? & ? & ? & _). exists sma, un. split_and!; try done; lia.
      * by eapply proc_ok_mono; [..|by eapply waits_proc]; [|eauto 10|].
Qed.

Lemma resume_safe c st pr :
  inv st -> procs st !! pid c = Some pr -> safe (resume c st pr).
Proof.
  intros Hinv Hp. destruct pr; simpl.
  - by eapply findkey_resume_safe.
  - by apply newary_alloc_safe.
  - by eapply semop_resume_safe.
  - by eapply exit_resume_safe.
  - by apply freeary_resume_safe.
Qed.

Lemma exec_safe c k st : inv st -> good_call st k -> safe (exec c k st).
Proof.
  intros Hinv Hgood. unfold exec.
  destruct k; destruct (procs st !! pid c) as [pr|] eqn:Hp; try (by eexists _, _).
  - by apply sys_semget_safe.
  - destruct (sys_semctl_safe c st semid semnum cmd m arg) as (st' & o & out & -> & ?); try done.
    by eexists _, _.
  - by apply sys_semop_safe.
  - by apply sem_exit_safe.
  - case_bool; [by apply resume_safe|by eexists _, _].
  - eexists _, _. split; [done|]. by apply rouse_inv.
Qed.

Lemma sem_init_inv m : inv (sem_init m).
Proof.
  assert (Hget : forall id, get (repeat UNUSED (Z.to_nat SEMMNI)) id = Some UNUSED \/
     get (repeat UNUSED (Z.to_nat SEMMNI)) id = None).
  { intros id. destruct (get _ id) as [s|] eqn:E; [left|by right].
    apply get_lookup in E as [_ E%list_elem_of_lookup_2%list_elem_of_In%repeat_spec]. by subst. }
  split; [|split].
  - unfold tbl. cbn [sem_init semary used_sems used_semids max_semid sem_seq brk heap procs].
    constructor; try done.
    all: try (intros; match goal with H : get _ ?i = _ |- _ => destruct (Hget i); congruence end).
    all: try (intros; rewrite ?omap_empty, ?fmap_empty, ?lookup_empty in *; naive_solver).
  - constructor; simpl; try done; intros; match goal with H : _ |- _ => by destruct H || (rewrite lookup_empty in H; done) end.
  - apply waits_intro; simpl; intros; simplify_map_eq.
Qed.

End SemSafe.
