(* ===== verification/SemProps.v ===== *)
(** * What the semaphore code guarantees ([src/ipc/sem.c])

    Properties of every state the system can reach from [sem_init] by calls,
    resumptions and signals of any processes in any order, the atomicity of
    [semop], and three defects. *)

From S2P Require Import Prelude Ipc Sem IpcTable SemInv SemSafe.
From Stdlib Require Import ZArith Lia.
From stdpp Require Import base list gmap numbers.
Local Open Scope Z_scope.

Module SemProps.
Import Ipc Sem IpcTable SemInv SemSafe.

(** States reached when every [semop] respects [good_semop]. *)
Inductive reach (m : nat) : sst -> Prop :=
| reach_init : reach m (sem_init m)
| reach_exec c k st st' o :
    reach m st -> good_call st k -> exec c k st = Some (st', o) -> reach m st'.

Lemma reach_inv m st : reach m st -> inv st.
Proof.
  induction 1 as [|c k st st' o _ IH Hg He]; [apply sem_init_inv|].
  destruct (exec_safe c k st IH Hg) as (st1 & o1 & He1 & Hinv). by simplify_eq.
Qed.

(** A sequence of runs; the outcomes in order. *)
Fixpoint run (l : list (cred * call)) (st : sst) : option (list outcome * sst) :=
  match l with
  | [] => Some ([], st)
  | (c, k) :: l =>
      '(st, o) ← exec c k st;
      '(os, st) ← run l st;
      Some (o :: os, st)
  end.

(** [good_call] as a test. *)
Definition good_callb (st : sst) (k : call) : bool :=
  match k with
  | Semop semid _ sops =>
      bool_decide (NoDup (sem_num <$> sops)) &&
      match get (semary st) (semid mod SEMMNI) with
      | Some (Ptr p) =>
          match heap st !! p with
          | Some sma =>
              forallb (fun sop => (0 <=? sem_num sop) && negb (sem_num sop =? sem_nsems sma)) sops &&
              (forallb (fun sop => negb (has (sem_flg sop) SEM_UNDO)) sops
               || (seq (sem_perm sma) =? semid / SEMMNI))
          | None => true
          end
      | _ => true
      end
  | _ => true
  end.

Lemma good_callb_spec st k : good_callb st k = true -> good_call st k.
Proof.
  destruct k as [| |semid tsops sops| | |]; simpl; try done.
  intros [Hnd H]%andb_true_iff. split; [by apply bool_decide_eq_true in Hnd|].
  intros p sma Hp Hs. rewrite Hp, Hs in H. apply andb_true_iff in H as [Hf Hu]. split.
  - apply list.Forall_forall. intros sop Hin. rewrite forallb_forall in Hf.
    specialize (Hf sop). rewrite <- list_elem_of_In in Hf. specialize (Hf Hin). lia.
  - intros (sop & Hin & Hflg)%list.Exists_exists. apply orb_true_iff in Hu as [Hu|Hu]; [|lia].
    rewrite forallb_forall in Hu. specialize (Hu sop). rewrite <- list_elem_of_In, Hflg in Hu.
    by specialize (Hu Hin).
Qed.

(** A sequence of runs all of whose calls are good. *)
Fixpoint run_good (l : list (cred * call)) (st : sst) : option sst :=
  match l with
  | [] => Some st
  | (c, k) :: l =>
      if good_callb st k then '(st, _) ← exec c k st; run_good l st else None
  end.

Definition state_after (m : nat) (l : list (cred * call)) : sst :=
  default (sem_init m) (run_good l (sem_init m)).

Lemma state_after_reach m l : reach m (state_after m l).
Proof.
  unfold state_after. assert (H : forall l st st', reach m st -> run_good l st = Some st' -> reach m st').
  { clear. intros l. induction l as [|[c k] l IH]; intros st st' Hr; simpl; [by intros [= <-]|].
    destruct (good_callb st k) eqn:Hg; [|done]. destruct (exec c k st) as [[st1 o]|] eqn:He; simpl; [|done].
    apply IH. eapply reach_exec; [exact Hr|by apply good_callb_spec|exact He]. }
  destruct (run_good l (sem_init m)) as [st|] eqn:E; simpl; [|apply reach_init].
  eapply H; [apply reach_init|exact E].
Qed.

(** Two processes of the superuser, for the examples. *)
Definition p1 : cred := Cred 1 0 0 [] false 100.
Definition p2 : cred := Cred 2 0 0 [] false 100.
Definition user0 : user := User (fun a => a) (fun _ => 0) (fun _ _ _ => 0) (fun _ => (0, 0, 0)).


(** One process creates an array of two semaphores, the other waits for the
    second one to grow. *)
Definition creates : list (cred * call) := [(p1, Semget 5 2 (IPC_CREAT + 511)); (p1, Resume)].
Definition sleeps_then : list (cred * call) := creates ++ [(p2, Semop 0 1 [Sembuf 1 (-2) 0])].


(** C23: No lost wake-up: a process asleep in [semop] that nobody has made
    runnable still has an operation that cannot proceed, on an array that
    still exists; one asleep in [sem_exit] still has an adjustment that would
    make the value negative.  The calls that lead to the state are as in
    [sem_memory_safe]: [good_call] excludes three uses of [semop] that the code gets wrong: a
    semaphore number equal to the size of the array ([semop_num_out_of_bounds]),
    two operations of one call on the same semaphore
    ([semop_same_semaphore_wraps]), and SEM_UNDO with an identifier whose array
    is gone ([semop_stale_undo_dangles]). *)
Theorem sem_no_lost_wakeup m st pid0 :
  reach m st ->
  match procs st !! pid0 with
  | Some (InSemop p semid sops _ ev num false) =>
      linked st p /\ exists sma sop s, heap st !! p = Some sma /\ seq (sem_perm sma) = semid / SEMMNI /\
        sop ∈ sops /\ sem_num sop = num /\ get (sem_base sma) num = Some s /\
        blocked ev (sem_op sop) (semval s)
  | Some (InExit p u num false) =>
      linked st p /\ exists sma un s, heap st !! p = Some sma /\ undos st !! u = Some un /\
        get (sem_base sma) num = Some s /\ semval s + semadj un < 0
  | _ => True
  end.
Proof.
  intros Hr. destruct (reach_inv _ _ Hr) as (_ & _ & HW).
  destruct (procs st !! pid0) as [[| |p semid sops ncnt ev num []|p u num []|]|] eqn:Hp; try done.
  - destruct (waits_proc _ _ _ HW Hp) as (sma & ? & _ & _ & _ & _ & Hseq & Hf).
    destruct (Hf eq_refl) as (Hl & sop & s & ? & ? & ? & ?). split; [done|].
    exists sma, sop, s. split_and!; try done. by apply Hseq.
  - destruct (waits_proc _ _ _ HW Hp) as (sma & un & ? & ? & _ & _ & _ & Hf).
    destruct (Hf eq_refl) as (Hl & s & ? & ?). split; [done|]. by exists sma, un, s.
Qed.

Lemma sem_no_lost_wakeup_witness :
  procs (state_after 3 sleeps_then) !! 2 = Some (InSemop 1 0 [Sembuf 1 (-2) 0] 0 EvN 1 false) /\
  linked (state_after 3 sleeps_then) 1.
Proof.
  assert (Hp : procs (state_after 3 sleeps_then) !! 2 =
    Some (InSemop 1 0 [Sembuf 1 (-2) 0] 0 EvN 1 false)) by (vm_compute; reflexivity).
  split; [exact Hp|].
  pose proof (sem_no_lost_wakeup 3 (state_after 3 sleeps_then) 2 (state_after_reach 3 sleeps_then)) as H.
  rewrite Hp in H. exact (proj1 H).
Defined.

(** the wait counters are right: [semncnt] and [semzcnt] of every semaphore
    of every allocated array are the numbers of processes asleep for it to grow
    and to become 0, as 16-bit numbers. *)
Theorem sem_wait_counters m st p sma i s :
  reach m st -> heap st !! p = Some sma -> get (sem_base sma) i = Some s ->
  semncnt s = u16 (sleepers EvN p i (procs st)) /\ semzcnt s = u16 (sleepers EvZ p i (procs st)).
Proof.
  intros Hr Hp Hi. destruct (reach_inv _ _ Hr) as (_ & _ & HW).
  destruct (w_cnt _ HW _ _ _ _ Hp Hi) as (? & ? & _). done.
Qed.

Lemma sem_wait_counters_witness :
  exists sma s, heap (state_after 3 sleeps_then) !! 1 = Some sma /\
    get (sem_base sma) 1 = Some s /\ semncnt s = u16 (sleepers EvN 1 1 (procs (state_after 3 sleeps_then))) /\
    semncnt s = 1.
Proof.
  destruct (heap (state_after 3 sleeps_then) !! 1) as [sma|] eqn:E; [|vm_compute in E; discriminate E].
  exists sma. assert (Hg : exists s, get (sem_base sma) 1 = Some s /\ semncnt s = 1).
  { vm_compute in E. injection E as <-. eexists. split; reflexivity. }
  destruct Hg as (s & Hs & H1). exists s. split; [reflexivity|]. split; [exact Hs|]. split; [|exact H1].
  exact (proj1 (sem_wait_counters 3 _ 1 sma 1 s (state_after_reach 3 sleeps_then) E Hs)).
Defined.

(** the accounting is exact and nothing leaks: [used_semids] is the number of
    arrays in the table, [used_sems] the number of their semaphores plus those
    of arrays being created, every identifier is at most [max_semid], and every
    allocated array is in the table or is being freed by a process. *)
Theorem sem_accounting m st :
  reach m st ->
  used_semids st = lsum slot_ptr (semary st) /\
  used_sems st = lsum (slot_sems (shape <$> heap st)) (semary st)
                 + msum proc_sems (omap tproc (procs st)) /\
  (forall id p, get (semary st) id = Some (Ptr p) -> id <= max_semid st) /\
  (forall p, is_Some (heap st !! p) -> linked st p \/ exists k, procs st !! k = Some (InFreeary p)).
Proof.
  intros Hr. destruct (reach_inv _ _ Hr) as (HT & _ & _).
  split_and!.
  - apply (t_ids _ _ _ _ _ _ _ _ HT).
  - apply (t_sems _ _ _ _ _ _ _ _ HT).
  - apply (t_max_ge _ _ _ _ _ _ _ _ HT).
  - intros p [sma Hsma]. destruct (t_owned _ _ _ _ _ _ _ _ HT p) as [?|[k Hk]].
    + by rewrite lookup_fmap, Hsma.
    + by left.
    + right. exists k. rewrite lookup_omap in Hk. destruct (procs st !! k) as [[]|]; by simplify_eq/=.
Qed.

Lemma sem_accounting_witness :
  used_semids (state_after 3 sleeps_then) = lsum slot_ptr (semary (state_after 3 sleeps_then)) /\
  used_semids (state_after 3 sleeps_then) = 1.
Proof.
  split; [|vm_compute; reflexivity].
  exact (proj1 (sem_accounting 3 (state_after 3 sleeps_then) (state_after_reach 3 sleeps_then))).
Defined.

(** ** Atomicity of [semop] *)

(** [semop] returned [r], or the process sleeps. *)
Definition values_of (st : sst) (p i : Z) : option Z :=
  sma ← heap st !! p; s ← get (sem_base sma) i; Some (semval s).

Lemma wake_if_heap b p ev st : heap (wake_if b p ev st) = heap st.
Proof. by destruct b. Qed.

Lemma slept_go_run c st p semid sops ncnt sma :
  heap st !! p = Some sma -> seq (sem_perm sma) = semid / SEMMNI -> NoDup (sem_num <$> sops) ->
  (forall u, u ∈ chain_of c st -> is_Some (undos st !! u)) -> Forall (can_go (sem_base sma)) sops ->
  exists st' r, semop_slept c st p semid sops ncnt = Some (st', Ret r) /\
    forall i, values_of st' p i = (fun v => v + delta sops i) <$> values_of st p i.
Proof.
  intros Hsma Hseq Hnd Hch Hgo. unfold semop_slept. rewrite Hsma. simpl.
  rewrite (proj2 (Z.eqb_eq _ _) Hseq). simpl. rewrite semop_check_go_conv by done. simpl.
  destruct (semop_apply_spec c semid (chain_of c st) sops (sem_base sma) (undos st) 0 0)
    as (base & us & zcnt & last & -> & Hlen & Hval & _); [done..|]. simpl.
  rewrite !wake_if_negb. eexists _, last. split; [done|]. intros i. unfold values_of. simpl.
  rewrite !wake_if_heap. simpl. rewrite lookup_insert_eq, Hsma. simpl.
  destruct (get (sem_base sma) i) as [s|] eqn:Hi; simpl.
  - destruct (Hval _ _ Hi) as (s' & -> & Hv & _). simpl. by rewrite Hv.
  - destruct (get base i) as [s'|] eqn:Hi'; [|done]. apply get_Some_range in Hi'.
    rewrite Hlen in Hi'. apply get_in_range in Hi' as [? Hi']. congruence.
Qed.

(** C35: [semop] is all or nothing: once every operation can be performed it
    performs all of them and returns; otherwise no value changes, whether the
    call fails or sleeps. (Operations on distinct semaphores.) *)
Theorem semop_all_or_nothing c st p semid sops ncnt sma st' o :
  heap st !! p = Some sma -> NoDup (sem_num <$> sops) ->
  (forall u, u ∈ chain_of c st -> is_Some (undos st !! u)) ->
  semop_slept c st p semid sops ncnt = Some (st', o) ->
  (seq (sem_perm sma) = semid / SEMMNI /\ Forall (can_go (sem_base sma)) sops /\
   (exists r, o = Ret r) /\ forall i, values_of st' p i = (fun v => v + delta sops i) <$> values_of st p i) \/
  (~ (seq (sem_perm sma) = semid / SEMMNI /\ Forall (can_go (sem_base sma)) sops) /\
   forall i, values_of st' p i = values_of st p i).
Proof.
  intros Hsma Hnd Hch Hrun. pose proof Hrun as Hrun'. unfold semop_slept in Hrun.
  rewrite Hsma in Hrun. simpl in Hrun.
  destruct (Z.eqb_spec (seq (sem_perm sma)) (semid / SEMMNI)) as [Hseq|Hseq]; simpl in Hrun.
  2: { right. unfold ret in Hrun. simplify_eq. split; [naive_solver|done]. }
  destruct (semop_check c (sem_base sma) sops) as [[|e|ev num]|] eqn:Hc; simpl in Hrun; [..|done].
  - left. apply semop_check_go in Hc.
    destruct (slept_go_run c st p semid sops ncnt sma) as (st1 & r & Hr & Hv); try done.
    rewrite Hrun' in Hr. simplify_eq. split_and!; try done. eauto.
  - right. unfold ret in Hrun. simplify_eq. split; [|done]. intros [_ Hgo].
    rewrite (semop_check_go_conv c) in Hc by done. done.
  - right. destruct (bump (sem_base sma) num ev 1) as [base|] eqn:Hb; simpl in Hrun; [|done]. simplify_eq.
    split; [intros [_ Hgo]; by rewrite (semop_check_go_conv c) in Hc|].
    intros i. unfold values_of. simpl. rewrite lookup_insert_eq, Hsma. simpl.
    destruct (get (sem_base sma) i) as [s|] eqn:Hi.
    + destruct (bump_back _ _ _ _ _ _ _ Hb Hi) as (s' & -> & Hv). simpl. by rewrite Hv.
    + destruct (get base i) as [s'|] eqn:Hi'; [|done].
      destruct (proj2 (bump_spec _ _ _ _ _ Hb) _ _ Hi') as (? & ? & _). congruence.
Qed.

Lemma semop_all_or_nothing_witness :
  exists st' o,
    semop_slept p2 (state_after 3 creates) 1 0 [Sembuf 0 2 0; Sembuf 1 (-1) 0] 1 = Some (st', o) /\
    forall i, values_of st' 1 i = values_of (state_after 3 creates) 1 i.
Proof.
  destruct (semop_slept p2 (state_after 3 creates) 1 0 [Sembuf 0 2 0; Sembuf 1 (-1) 0] 1)
    as [[st' o]|] eqn:E; [|vm_compute in E; discriminate E].
  exists st', o. split; [reflexivity|].
  destruct (heap (state_after 3 creates) !! 1) as [sma|] eqn:Es; [|vm_compute in Es; discriminate Es].
  destruct (semop_all_or_nothing p2 (state_after 3 creates) 1 0 [Sembuf 0 2 0; Sembuf 1 (-1) 0] 1 sma st' o)
    as [(_ & Hgo & _)|[_ H]].
  - exact Es.
  - apply (bool_decide_eq_true (NoDup _)). reflexivity.
  - intros u Hu. vm_compute in Hu. inversion Hu.
  - exact E.
  - exfalso. apply Forall_cons_iff in Hgo as [_ Hgo]. apply Forall_cons_iff in Hgo as [(s & Hs & Hr & _) _].
    vm_compute in Es. injection Es as <-. vm_compute in Hs. injection Hs as <-. simpl in Hr. lia.
  - exact H.
Defined.

(** ** Defects *)

(** the range check of [semop] is off by one: an operation on the semaphore
    number equal to the size of the array passes it and accesses memory behind
    the array. *)
Theorem semop_num_out_of_bounds c st semid p sma op :
  get (semary st) (semid mod SEMMNI) = Some (Ptr p) -> heap st !! p = Some sma ->
  Z.of_nat (length (sem_base sma)) = sem_nsems sma -> 0 <= semid ->
  seq (sem_perm sma) = semid / SEMMNI -> suser c = true ->
  sys_semop c st semid 1 [Sembuf (sem_nsems sma) op 0] = None.
Proof.
  intros Hid Hsma Hlen Hpos Hseq Hsu. unfold sys_semop. simpl length.
  change (Z.of_nat 1 <? 1) with false. rewrite (proj2 (Z.ltb_ge semid 0) Hpos). simpl orb.
  change (SEMOPM <? Z.of_nat 1) with false. cbv iota. simpl (1 =? 0). cbv iota. rewrite Hid, Hsma. simpl. rewrite Z.ltb_irrefl.
  unfold ipcperms. rewrite Hsu. simpl.
  unfold semop_slept. rewrite Hsma. simpl. rewrite (proj2 (Z.eqb_eq _ _) Hseq). simpl.
  destruct (get (sem_base sma) (sem_nsems sma)) as [s|] eqn:E; [|done].
  apply get_Some_range in E. lia.
Qed.

Lemma semop_num_out_of_bounds_witness :
  sys_semop p1 (state_after 3 creates) 0 1 [Sembuf 2 1 0] = None.
Proof.
  destruct (heap (state_after 3 creates) !! 1) as [sma|] eqn:Es; [|vm_compute in Es; discriminate Es].
  assert (Hn : sem_nsems sma = 2) by (vm_compute in Es; injection Es as <-; reflexivity).
  rewrite <- Hn. apply (semop_num_out_of_bounds p1 (state_after 3 creates) 0 1 sma 1);
    first [exact Es | lia | (vm_compute in Es; injection Es as <-; reflexivity) | (vm_compute; reflexivity)].
Defined.

(** two operations of one call on the same semaphore are both checked against
    the value before the call: taking 1 twice from a semaphore of value 1
    succeeds and wraps the value around to 65535. *)
Theorem semop_same_semaphore_wraps :
  exists st, run (creates ++ [(p1, Semop 0 1 [Sembuf 0 1 0]);
                              (p1, Semop 0 1 [Sembuf 0 (-1) 0; Sembuf 0 (-1) 0])]) (sem_init 3)
    = Some ([Blocked; Ret 0; Ret 1; Ret 65535], st) /\ values_of st 1 0 = Some 65535.
Proof. eexists. split; vm_compute; reflexivity. Qed.

(** a [semop] with SEM_UNDO and an identifier of a removed array links a new
    undo record into the list of the array that took its place before it finds
    out (EIDRM); when the process exits the record is freed but stays in the
    list, and the next SETVAL on that array follows a dangling pointer. *)
Theorem semop_stale_undo_dangles :
  exists st,
    run (creates ++ [(p1, Semctl 0 0 IPC_RMID user0 0)] ++ creates ++
         [(p2, Semop 0 1 [Sembuf 0 1 SEM_UNDO]); (p2, Exit)]) (sem_init 9)
    = Some ([Blocked; Ret 0; Ret 0; Blocked; Ret 128; Ret (- EIDRM); Ret 0], st) /\
    exec p1 (Semctl 128 0 SETVAL user0 1) st = None.
Proof. eexists. split; vm_compute; reflexivity. Qed.

End SemProps.
