(* ===== verification/Msg.v ===== *)
(** * System V message queues ([src/ipc/msg.c], [src/include/linux/msg.h])

    As in [Sem]: an operation runs without interruption until the call returns or
    the process sleeps, is inside a [kmalloc] that may sleep, or gives up the
    processor; what it needs to go on is recorded in [procs].  A queue and a message
    are named by their addresses and linked by pointers, 0 is [NULL]; [kmalloc]
    returns a fresh address or fails when [mem], the number of allocations that
    still succeed, is 0.  [None] is an access through a null or dangling pointer or
    outside the table. *)

From S2P Require Import Prelude Ipc.
From Stdlib Require Import ZArith Lia.
From stdpp Require Import base list gmap numbers.
Local Open Scope Z_scope.

Module Msg.
Import Ipc.

Definition MSG_NOERROR : Z := 4096.
Definition MSG_EXCEPT : Z := 8192.
Definition MSG_STAT : Z := 11.
Definition MSG_INFO : Z := 12.

Definition MSGMNI : Z := 128.
Definition MSGMAX : Z := 4056.
Definition MSGMNB : Z := 16384.
Definition MSGPOOL : Z := MSGMNI * MSGMNB / 1024.
Definition MSGTQL : Z := MSGMNB.
Definition MSGMAP : Z := MSGMNB.
Definition MSGSSZ : Z := 16.
Definition MSGSEG : Z :=
  if MSGPOOL * 1024 / MSGSSZ <=? 0xffff then MSGPOOL * 1024 / MSGSSZ else 0xffff.

(** [struct msg]; the text follows it in memory. *)
Record msg := MsgStruct { msg_next : Z; msg_type : Z; msg_ts : Z; msg_text : list Z }.
Definition SIZEOF_MSG : Z := 16.

Record msqid_ds := MsqidDs {
  msg_perm : ipc_perm;
  msg_first : Z;
  msg_last : Z;
  msg_stime : Z;
  msg_rtime : Z;
  msg_ctime : Z;
  msg_cbytes : Z;
  msg_qnum : Z;
  msg_qbytes : Z;
  msg_lspid : Z;
  msg_lrpid : Z
}.
Definition SIZEOF_MSQID_DS : Z := 56.

(** Where a process is inside this code. [awake]: it is runnable again but has not
    left the wait queue yet. *)
Inductive mproc :=
  | MFindkey (id key msgflg : Z) (awake : bool)                            (* on msg_lock *)
  | MNewque (id key msgflg : Z)                                            (* in kmalloc *)
  | MSleepW (p msqid mtype : Z) (text : list Z) (msgflg : Z) (awake : bool)  (* on wwait *)
  | MSndMem (p msqid mtype : Z) (text : list Z)                            (* in kmalloc *)
  | MSleepR (p msqid msgsz msgtyp msgflg : Z) (awake : bool)               (* on rwait *)
  | MFreeque (p : Z).                                                      (* in schedule *)

Record mst := Mst {
  msgque : list slot;
  msgbytes : Z;
  msghdrs : Z;
  msg_seq : Z;
  used_queues : Z;
  max_msqid : Z;
  queues : gmap Z msqid_ds;
  msgs : gmap Z msg;
  procs : gmap Z mproc;
  mem : nat;
  brk : Z
}.

(** [Got]: [msgrcv] returned the length, having stored type and text. *)
Inductive outcome := Ret (r : Z) | Got (r mtype : Z) (text : list Z) | Blocked.

Definition set_queues (q : gmap Z msqid_ds) (st : mst) : mst :=
  Mst (msgque st) (msgbytes st) (msghdrs st) (msg_seq st) (used_queues st) (max_msqid st)
    q (msgs st) (procs st) (mem st) (brk st).
Definition set_msgs (m : gmap Z msg) (st : mst) : mst :=
  Mst (msgque st) (msgbytes st) (msghdrs st) (msg_seq st) (used_queues st) (max_msqid st)
    (queues st) m (procs st) (mem st) (brk st).
Definition set_procs (ps : gmap Z mproc) (st : mst) : mst :=
  Mst (msgque st) (msgbytes st) (msghdrs st) (msg_seq st) (used_queues st) (max_msqid st)
    (queues st) (msgs st) ps (mem st) (brk st).
Definition set_totals (b h : Z) (st : mst) : mst :=
  Mst (msgque st) b h (msg_seq st) (used_queues st) (max_msqid st)
    (queues st) (msgs st) (procs st) (mem st) (brk st).
Definition set_table (ary : list slot) (sq us mx : Z) (st : mst) : mst :=
  Mst ary (msgbytes st) (msghdrs st) sq us mx (queues st) (msgs st) (procs st) (mem st) (brk st).

Definition leave (c : cred) (st : mst) : mst := set_procs (delete (pid c) (procs st)) st.
Definition enter (c : cred) (pr : mproc) (st : mst) : mst := set_procs (<[pid c := pr]> (procs st)) st.
Definition ret (c : cred) (st : mst) (r : Z) : option (mst * outcome) := Some (leave c st, Ret r).
Definition block (c : cred) (pr : mproc) (st : mst) : option (mst * outcome) := Some (enter c pr st, Blocked).

Definition kmalloc (st : mst) : option (Z * mst) :=
  match mem st with
  | O => None
  | S m => Some (brk st,
      Mst (msgque st) (msgbytes st) (msghdrs st) (msg_seq st) (used_queues st) (max_msqid st)
        (queues st) (msgs st) (procs st) m (brk st + 1))
  end.

(** [kfree_s] of a message: with another size than it was allocated with it reports
    the error and leaves the block in use ([Kmalloc.kfree_s]). *)
Definition kfree_msg (a size : Z) (st : mst) : option mst :=
  m ← msgs st !! a;
  Some (if size =? SIZEOF_MSG + msg_ts m then set_msgs (delete a (msgs st)) st else st).

(** ** Wait queues *)

Definition wake_w (p : Z) (pr : mproc) : mproc :=
  match pr with
  | MSleepW q msqid mtype text msgflg awake => MSleepW q msqid mtype text msgflg (awake || (q =? p))
  | _ => pr
  end.
Definition wake_r (p : Z) (pr : mproc) : mproc :=
  match pr with
  | MSleepR q msqid msgsz msgtyp msgflg awake => MSleepR q msqid msgsz msgtyp msgflg (awake || (q =? p))
  | _ => pr
  end.
Definition wake_lock (pr : mproc) : mproc :=
  match pr with MFindkey id key0 msgflg _ => MFindkey id key0 msgflg true | _ => pr end.

(** [wake_up] of [wwait], [rwait] and [msg_lock]; of an empty queue it does nothing. *)
Definition wake_wwait (p : Z) (st : mst) : mst := set_procs (wake_w p <$> procs st) st.
Definition wake_rwait (p : Z) (st : mst) : mst := set_procs (wake_r p <$> procs st) st.
Definition wake_msg_lock (st : mst) : mst := set_procs (wake_lock <$> procs st) st.

Definition on_queue (p : Z) (pr : mproc) : bool :=
  match pr with
  | MSleepW q _ _ _ _ _ => q =? p
  | MSleepR q _ _ _ _ _ => q =? p
  | _ => false
  end.

(** [msq->rwait || msq->wwait] *)
Definition queued (p : Z) (st : mst) : bool := existsb (fun kv => on_queue p kv.2) (map_to_list (procs st)).

(** ** [msgget] *)

Definition msg_init (m : nat) : mst := Mst (repeat UNUSED (Z.to_nat MSGMNI)) 0 0 0 0 0 ∅ ∅ ∅ m 1.

Inductive found := FoundId (id : Z) | NotFound | WaitAt (id : Z).

(** The loop of [findkey] from [id] on; [n] ids are left. *)
Fixpoint findkey_from (n : nat) (st : mst) (key0 id : Z) : option found :=
  match n with
  | O => Some NotFound
  | S n =>
      s ← get (msgque st) id;
      match s with
      | NOID => Some (WaitAt id)
      | UNUSED => findkey_from n st key0 (id + 1)
      | Ptr p =>
          msq ← queues st !! p;
          if key0 =? key (msg_perm msq) then Some (FoundId id) else findkey_from n st key0 (id + 1)
      end
  end.

(** The entry at [id] is looked at before [id <= max_msqid] is tested again. *)
Definition findkey (st : mst) (key0 id : Z) : option found :=
  findkey_from (S (Z.to_nat (max_msqid st - id))) st key0 id.

(** [newque] up to [kmalloc]. *)
Definition newque (c : cred) (st : mst) (key0 msgflg : Z) : option (mst * outcome) :=
  match first_unused (msgque st) 0 with
  | None => ret c st (- ENOSPC)
  | Some id =>
      ary ← put (msgque st) id NOID;
      block c (MNewque id key0 msgflg) (set_table ary (msg_seq st) (used_queues st) (max_msqid st) st)
  end.

(** [newque] from the return of [kmalloc] on. *)
Definition newque_alloc (c : cred) (st : mst) (id key0 msgflg : Z) : option (mst * outcome) :=
  match kmalloc st with
  | None =>
      ary ← put (msgque st) id UNUSED;
      ret c (wake_msg_lock (set_table ary (msg_seq st) (used_queues st) (max_msqid st) st)) (- ENOMEM)
  | Some (p, st) =>
      let ipcp := IpcPerm key0 (euid c) (egid c) (euid c) (egid c) (Z.land msgflg S_IRWXUGO) (msg_seq st) in
      let msq := MsqidDs ipcp 0 0 0 0 (time c) 0 0 MSGMNB 0 0 in
      ary ← put (msgque st) id (Ptr p);
      let st := set_queues (<[p := msq]> (queues st)) st in
      let mx := if max_msqid st <? id then id else max_msqid st in
      ret c (wake_msg_lock (set_table ary (msg_seq st) (used_queues st + 1) mx st)) (msg_seq st * MSGMNI + id)
  end.

(** [sys_msgget] once the search for the key has ended. *)
Definition msgget_found (c : cred) (st : mst) (key0 msgflg : Z) (f : found) : option (mst * outcome) :=
  match f with
  | WaitAt id => block c (MFindkey id key0 msgflg false) st
  | NotFound => if negb (has msgflg IPC_CREAT) then ret c st (- ENOENT) else newque c st key0 msgflg
  | FoundId id =>
      if has msgflg IPC_CREAT && has msgflg IPC_EXCL then ret c st (- EEXIST)
      else
        s ← get (msgque st) id;
        match s with
        | Ptr p =>
            msq ← queues st !! p;
            if negb (ipcperms c (msg_perm msq) msgflg =? 0) then ret c st (- EACCES)
            else ret c st (seq (msg_perm msq) * MSGMNI + id)
        | _ => ret c st (- EIDRM)
        end
  end.

Definition sys_msgget (c : cred) (st : mst) (key0 msgflg : Z) : option (mst * outcome) :=
  if key0 =? IPC_PRIVATE then newque c st key0 msgflg
  else f ← findkey st key0 0; msgget_found c st key0 msgflg f.

(** ** [msgsnd] *)

Definition stale (msqid : Z) (msq : msqid_ds) : bool := negb (seq (msg_perm msq) =? msqid / MSGMNI).

(** From the label [slept] to [kmalloc]. *)
Definition msgsnd_slept (c : cred) (st : mst) (p msqid mtype : Z) (text : list Z) (msgflg : Z) : option (mst * outcome) :=
  let msgsz := Z.of_nat (length text) in
  msq ← queues st !! p;
  if stale msqid msq then ret c st (- EIDRM)
  else if negb (ipcperms c (msg_perm msq) S_IWUGO =? 0) then ret c st (- EACCES)
  else if msg_qbytes msq <? msgsz + msg_cbytes msq then
    if has msgflg IPC_NOWAIT then ret c st (- EAGAIN)
    else if pending c then ret c st (- EINTR)
    else block c (MSleepW p msqid mtype text msgflg false) st
  else block c (MSndMem p msqid mtype text) st.

(** [text] holds what is at [msgp->mtext], [err] is the answer of [verify_area]. *)
Definition sys_msgsnd (c : cred) (st : mst) (msqid msgp msgsz msgflg mtype err : Z) (text : list Z)
    : option (mst * outcome) :=
  if (MSGMAX <? msgsz) || (msgsz <? 0) || (msqid <? 0) then ret c st (- EINVAL)
  else if msgp =? 0 then ret c st (- EFAULT)
  else if negb (err =? 0) then ret c st err
  else if mtype <? 1 then ret c st (- EINVAL)
  else
    s ← get (msgque st) (msqid mod MSGMNI);
    match s with
    | Ptr p => msgsnd_slept c st p msqid mtype (take (Z.to_nat msgsz) text) msgflg
    | _ => ret c st (- EINVAL)
    end.

(** The new message [h] becomes the last one. *)
Definition append_msg (h : Z) (m : msg) (msq : msqid_ds) (st : mst) : option (msqid_ds * mst) :=
  let st := set_msgs (<[h := m]> (msgs st)) st in
  let link first := MsqidDs (msg_perm msq) first h (msg_stime msq) (msg_rtime msq) (msg_ctime msq)
                      (msg_cbytes msq) (msg_qnum msq) (msg_qbytes msq) (msg_lspid msq) (msg_lrpid msq) in
  if msg_first msq =? 0 then Some (link h, st)
  else
    l ← msgs st !! msg_last msq;
    Some (link (msg_first msq),
      set_msgs (<[msg_last msq := MsgStruct h (msg_type l) (msg_ts l) (msg_text l)]> (msgs st)) st).

(** The message [h] is filled in, appended and counted, and the receivers are woken. *)
Definition msgsnd_add (c : cred) (st : mst) (p : Z) (msq : msqid_ds) (h mtype : Z) (text : list Z) : option (mst * outcome) :=
  let msgsz := Z.of_nat (length text) in
  '(msq, st) ← append_msg h (MsgStruct 0 mtype msgsz text) msq st;
  let st := set_totals (s32 (msgbytes st + msgsz)) (s32 (msghdrs st + 1)) st in
  let msq := MsqidDs (msg_perm msq) (msg_first msq) (msg_last msq) (time c) (msg_rtime msq) (msg_ctime msq)
               (u16 (msg_cbytes msq + msgsz)) (u16 (msg_qnum msq + 1)) (msg_qbytes msq)
               (u16 (pid c)) (msg_lrpid msq) in
  ret c (wake_rwait p (set_queues (<[p := msq]> (queues st)) st)) msgsz.

(** With the new block [h]: is the queue still there? *)
Definition msgsnd_recheck (c : cred) (st : mst) (h p msqid mtype : Z) (text : list Z) : option (mst * outcome) :=
  s ← get (msgque st) (msqid mod MSGMNI);
  match s with
  | Ptr _ =>
      msq ← queues st !! p;
      if stale msqid msq then ret c st (- EIDRM) else msgsnd_add c st p msq h mtype text
  | _ => ret c st (- EIDRM)
  end.

(** From the return of [kmalloc] on. *)
Definition msgsnd_link (c : cred) (st : mst) (p msqid mtype : Z) (text : list Z) : option (mst * outcome) :=
  match kmalloc st with
  | None => ret c st (- ENOMEM)
  | Some (h, st) => msgsnd_recheck c st h p msqid mtype text
  end.

(** ** [msgrcv] *)

(** The loops over the messages from [a] on: the first with [P], or 0; ... *)
Fixpoint find_msg (fuel : nat) (P : msg -> bool) (a : Z) (ms : gmap Z msg) : option Z :=
  match fuel with
  | O => None
  | S fuel =>
      if a =? 0 then Some 0
      else m ← ms !! a; if P m then Some a else find_msg fuel P (msg_next m) ms
  end.

(** ... and the first with the least type, [least] so far. *)
Fixpoint find_least (fuel : nat) (least a : Z) (ms : gmap Z msg) : option Z :=
  match fuel with
  | O => None
  | S fuel =>
      if a =? 0 then Some least
      else
        m ← ms !! a; l ← ms !! least;
        find_least fuel (if msg_type m <? msg_type l then a else least) (msg_next m) ms
  end.

Definition msg_fuel (st : mst) : nat := S (size (msgs st)).

(** The message that the call wants, or 0. *)
Definition select_msg (st : mst) (msq : msqid_ds) (msgtyp msgflg : Z) : option Z :=
  if msgtyp =? 0 then Some (msg_first msq)
  else if 0 <? msgtyp then
    if has msgflg MSG_EXCEPT
    then find_msg (msg_fuel st) (fun m => negb (msg_type m =? msgtyp)) (msg_first msq) (msgs st)
    else find_msg (msg_fuel st) (fun m => msg_type m =? msgtyp) (msg_first msq) (msgs st)
  else
    leastp ← find_least (msg_fuel st) (msg_first msq) (msg_first msq) (msgs st);
    if leastp =? 0 then Some 0
    else l ← msgs st !! leastp; Some (if msg_type l <=? s32 (- msgtyp) then leastp else 0).

(** The message [nmsg] is taken off the queue. *)
Definition unlink_msg (nmsg : Z) (m : msg) (msq : msqid_ds) (st : mst) : option (msqid_ds * mst) :=
  let link first last := MsqidDs (msg_perm msq) first last (msg_stime msq) (msg_rtime msq) (msg_ctime msq)
                           (msg_cbytes msq) (msg_qnum msq) (msg_qbytes msq) (msg_lspid msq) (msg_lrpid msq) in
  if nmsg =? msg_first msq then Some (link (msg_next m) (msg_last msq), st)
  else
    tmsg ← find_msg (msg_fuel st) (fun t => msg_next t =? nmsg) (msg_first msq) (msgs st);
    t ← msgs st !! tmsg;
    let st := set_msgs (<[tmsg := MsgStruct (msg_next m) (msg_type t) (msg_ts t) (msg_text t)]> (msgs st)) st in
    Some (link (msg_first msq) (if nmsg =? msg_last msq then tmsg else msg_last msq), st).

(** Bookkeeping after that, and the copy to the caller. *)
Definition msgrcv_take (c : cred) (st : mst) (p : Z) (msq : msqid_ds) (nmsg msgsz : Z) (m : msg)
    : option (mst * outcome) :=
  let msgsz := if msg_ts m <? msgsz then msg_ts m else msgsz in
  '(msq, st) ← unlink_msg nmsg m msq st;
  let qnum := u16 (msg_qnum msq - 1) in
  let first := if qnum =? 0 then 0 else msg_first msq in
  let last := if qnum =? 0 then 0 else msg_last msq in
  let msq := MsqidDs (msg_perm msq) first last (msg_stime msq) (time c) (msg_ctime msq)
               (u16 (msg_cbytes msq - msg_ts m)) qnum (msg_qbytes msq) (msg_lspid msq) (u16 (pid c)) in
  let st := set_totals (s32 (msgbytes st - msg_ts m)) (s32 (msghdrs st - 1)) st in
  let st := wake_wwait p (set_queues (<[p := msq]> (queues st)) st) in
  st ← kfree_msg nmsg (SIZEOF_MSG + msgsz) st;
  Some (leave c st, Got msgsz (msg_type m) (take (Z.to_nat msgsz) (msg_text m))).

(** One round of the loop. *)
Definition msgrcv_round (c : cred) (st : mst) (p msqid msgsz msgtyp msgflg : Z) : option (mst * outcome) :=
  msq ← queues st !! p;
  if stale msqid msq then ret c st (- EIDRM)
  else if negb (ipcperms c (msg_perm msq) S_IRUGO =? 0) then ret c st (- EACCES)
  else
    nmsg ← select_msg st msq msgtyp msgflg;
    if negb (nmsg =? 0) then
      m ← msgs st !! nmsg;
      if (msgsz <? msg_ts m) && negb (has msgflg MSG_NOERROR) then ret c st (- E2BIG)
      else msgrcv_take c st p msq nmsg msgsz m
    else if has msgflg IPC_NOWAIT then ret c st (- ENOMSG)
    else if pending c then ret c st (- EINTR)
    else block c (MSleepR p msqid msgsz msgtyp msgflg false) st.

Definition sys_msgrcv (c : cred) (st : mst) (msqid msgp msgsz msgtyp msgflg err : Z) : option (mst * outcome) :=
  if (msqid <? 0) || (msgsz <? 0) then ret c st (- EINVAL)
  else if msgp =? 0 then ret c st (- EFAULT)
  else if negb (err =? 0) then ret c st err
  else
    s ← get (msgque st) (msqid mod MSGMNI);
    match s with
    | Ptr p => msgrcv_round c st p msqid msgsz msgtyp msgflg
    | _ => ret c st (- EINVAL)
    end.

(** ** Removal *)

(** The loop that frees the messages from [a] on. *)
Fixpoint free_msgs (fuel : nat) (a : Z) (st : mst) : option mst :=
  match fuel with
  | O => None
  | S fuel =>
      if a =? 0 then Some st
      else
        m ← msgs st !! a;
        st ← kfree_msg a (SIZEOF_MSG + msg_ts m) (set_totals (msgbytes st) (s32 (msghdrs st - 1)) st);
        free_msgs fuel (msg_next m) st
  end.

(** The loop of [freeque] that waits for the sleepers to leave, and the end. *)
Definition freeque_wait (c : cred) (st : mst) (p : Z) : option (mst * outcome) :=
  if queued p st then block c (MFreeque p) (wake_wwait p (wake_rwait p st))
  else
    msq ← queues st !! p;
    st ← free_msgs (msg_fuel st) (msg_first msq) st;
    ret c (set_queues (delete p (queues st)) st) 0.

Definition bump_seq (ipcp : ipc_perm) : ipc_perm :=
  IpcPerm (key ipcp) (uid ipcp) (gid ipcp) (cuid ipcp) (cgid ipcp) (mode ipcp) (u16 (seq ipcp + 1)).

Definition set_perm (ipcp : ipc_perm) (msq : msqid_ds) : msqid_ds :=
  MsqidDs ipcp (msg_first msq) (msg_last msq) (msg_stime msq) (msg_rtime msq) (msg_ctime msq)
    (msg_cbytes msq) (msg_qnum msq) (msg_qbytes msq) (msg_lspid msq) (msg_lrpid msq).

Definition freeque (c : cred) (st : mst) (id p : Z) : option (mst * outcome) :=
  msq ← queues st !! p;
  let st := set_queues (<[p := set_perm (bump_seq (msg_perm msq)) msq]> (queues st)) st in
  let st := set_totals (s32 (msgbytes st - msg_cbytes msq)) (msghdrs st) st in
  mx ← (if id =? max_msqid st then lower_max (msgque st) (Z.to_nat (max_msqid st)) else Some (max_msqid st));
  ary ← put (msgque st) id UNUSED;
  freeque_wait c (set_table ary (u16 (msg_seq st + 1)) (used_queues st - 1) mx st) p.

(** ** [msgctl] *)

(** What is copied to the caller's memory. *)
Inductive copied :=
  | CInfo (msgpool msgmap msgmax msgmnb msgmni msgssz msgtql msgseg : Z)
  | CDs (msq : msqid_ds).

(** What IPC_SET reads: [msg_qbytes], [uid], [gid] and [mode]. *)
Record settings := Settings { s_qbytes : Z; s_uid : Z; s_gid : Z; s_mode : Z }.

Definition ctl_result : Type := option (mst * outcome * option copied).
Definition ctl (c : cred) (st : mst) (r : Z) (out : option copied) : ctl_result := Some (leave c st, Ret r, out).

Definition msgctl_info (c : cred) (st : mst) (cmd buf err : Z) : ctl_result :=
  if buf =? 0 then ctl c st (- EFAULT) None
  else
    let info := if cmd =? MSG_INFO
                then CInfo (used_queues st) (msghdrs st) MSGMAX MSGMNB MSGMNI MSGSSZ (msgbytes st) MSGSEG
                else CInfo MSGPOOL MSGMAP MSGMAX MSGMNB MSGMNI MSGSSZ MSGTQL MSGSEG in
    if negb (err =? 0) then ctl c st err None else ctl c st (max_msqid st) (Some info).

Definition msgctl_stat (c : cred) (st : mst) (msqid buf err : Z) : ctl_result :=
  if buf =? 0 then ctl c st (- EFAULT) None
  else if negb (err =? 0) then ctl c st err None
  else if max_msqid st <? msqid then ctl c st (- EINVAL) None
  else
    s ← get (msgque st) msqid;
    match s with
    | Ptr p =>
        msq ← queues st !! p;
        if negb (ipcperms c (msg_perm msq) S_IRUGO =? 0) then ctl c st (- EACCES) None
        else ctl c st (msqid + seq (msg_perm msq) * MSGMNI) (Some (CDs msq))
    | _ => ctl c st (- EINVAL) None
    end.

Definition msgctl_set (c : cred) (st : mst) (p : Z) (msq : msqid_ds) (tbuf : settings) : ctl_result :=
  if (MSGMNB <? s_qbytes tbuf) && negb (suser c) then ctl c st (- EPERM) None
  else
    let ipcp := msg_perm msq in
    let perm := IpcPerm (key ipcp) (s_uid tbuf) (s_gid tbuf) (cuid ipcp) (cgid ipcp)
                  (Z.lor (Z.land (mode ipcp) (Z.lnot S_IRWXUGO)) (Z.land S_IRWXUGO (s_mode tbuf))) (seq ipcp) in
    let msq := MsqidDs perm (msg_first msq) (msg_last msq) (msg_stime msq) (msg_rtime msq) (time c)
                 (msg_cbytes msq) (msg_qnum msq) (s_qbytes tbuf) (msg_lspid msq) (msg_lrpid msq) in
    ctl c (set_queues (<[p := msq]> (queues st)) st) 0 None.

Definition sys_msgctl (c : cred) (st : mst) (msqid cmd buf err : Z) (tbuf : settings) : ctl_result :=
  if (msqid <? 0) || (cmd <? 0) then ctl c st (- EINVAL) None
  else if (cmd =? IPC_INFO) || (cmd =? MSG_INFO) then msgctl_info c st cmd buf err
  else if cmd =? MSG_STAT then msgctl_stat c st msqid buf err
  else if ((cmd =? IPC_SET) || (cmd =? IPC_STAT)) && (buf =? 0) then ctl c st (- EFAULT) None
  else if (cmd =? IPC_STAT) && negb (err =? 0) then ctl c st err None
  else
    let id := msqid mod MSGMNI in
    s ← get (msgque st) id;
    match s with
    | Ptr p =>
        msq ← queues st !! p;
        let ipcp := msg_perm msq in
        if stale msqid msq then ctl c st (- EIDRM) None
        else if cmd =? IPC_STAT then
          if negb (ipcperms c ipcp S_IRUGO =? 0) then ctl c st (- EACCES) None else ctl c st 0 (Some (CDs msq))
        else if (cmd =? IPC_RMID) || (cmd =? IPC_SET) then
          if negb (suser c) && negb (euid c =? cuid ipcp) && negb (euid c =? uid ipcp) then ctl c st (- EPERM) None
          else if cmd =? IPC_RMID then '(st, o) ← freeque c st id p; Some (st, o, None)
          else msgctl_set c st p msq tbuf
        else ctl c st (- EINVAL) None
    | _ => ctl c st (- EINVAL) None
    end.

(** ** The system: calls, resumptions and signals in any order *)

Inductive call :=
  | Msgget (key msgflg : Z)
  | Msgsnd (msqid msgp msgsz msgflg mtype err : Z) (text : list Z)
  | Msgrcv (msqid msgp msgsz msgtyp msgflg err : Z)
  | Msgctl (msqid cmd buf err : Z) (tbuf : settings)
  | Resume
  | Signal.

Definition runnable (pr : mproc) : bool :=
  match pr with
  | MFindkey _ _ _ awake | MSleepW _ _ _ _ _ awake | MSleepR _ _ _ _ _ awake => awake
  | MNewque _ _ _ | MSndMem _ _ _ _ | MFreeque _ => true
  end.

(** A signal ends an interruptible sleep. *)
Definition rouse (pr : mproc) : mproc :=
  match pr with
  | MFindkey id key0 msgflg _ => MFindkey id key0 msgflg true
  | MSleepW p msqid mtype text msgflg _ => MSleepW p msqid mtype text msgflg true
  | MSleepR p msqid msgsz msgtyp msgflg _ => MSleepR p msqid msgsz msgtyp msgflg true
  | _ => pr
  end.

Definition resume (c : cred) (st : mst) (pr : mproc) : option (mst * outcome) :=
  match pr with
  | MFindkey id key0 msgflg _ => f ← findkey (leave c st) key0 id; msgget_found c (leave c st) key0 msgflg f
  | MNewque id key0 msgflg => newque_alloc c (leave c st) id key0 msgflg
  | MSleepW p msqid mtype text msgflg _ => msgsnd_slept c (leave c st) p msqid mtype text msgflg
  | MSndMem p msqid mtype text => msgsnd_link c (leave c st) p msqid mtype text
  | MSleepR p msqid msgsz msgtyp msgflg _ => msgrcv_round c (leave c st) p msqid msgsz msgtyp msgflg
  | MFreeque p => freeque_wait c (leave c st) p
  end.

(** One uninterrupted run of process [pid c]; a call that the process cannot make in
    its present place leaves the state as it is. *)
Definition exec (c : cred) (k : call) (st : mst) : option (mst * outcome) :=
  match k, procs st !! pid c with
  | Msgget key0 msgflg, None => sys_msgget c st key0 msgflg
  | Msgsnd msqid msgp msgsz msgflg mtype err text, None => sys_msgsnd c st msqid msgp msgsz msgflg mtype err text
  | Msgrcv msqid msgp msgsz msgtyp msgflg err, None => sys_msgrcv c st msqid msgp msgsz msgtyp msgflg err
  | Msgctl msqid cmd buf err tbuf, None => '(st, o, _) ← sys_msgctl c st msqid cmd buf err tbuf; Some (st, o)
  | Resume, Some pr => if runnable pr then resume c st pr else Some (st, Blocked)
  | Signal, Some pr => Some (enter c (rouse pr) st, Blocked)
  | _, _ => Some (st, Blocked)
  end.

End Msg.
