(* ===== verification/MsgInv.v ===== *)
(** * The invariant of the message queues ([src/ipc/msg.c])

    [inv] relates the pointers of every queue to the list of its messages, the
    table of identifiers to the queues (as [table] of [IpcTable]), and the sleeping
    processes to the queues they point to: none of them sleeps on a queue that was
    freed, and a receiver that was not woken has no message to receive. *)

From S2P Require Import Prelude Ipc IpcTable Msg.
From Stdlib Require Import ZArith Lia.
From stdpp Require Import base list gmap numbers.
Local Open Scope Z_scope.

Module MsgInv.
Import Ipc IpcTable Msg.

(** ** Chains of messages *)

Fixpoint chain (ms : gmap Z msg) (a : Z) (l : list Z) : Prop :=
  match l with
  | [] => a = 0
  | x :: l => a = x /\ x <> 0 /\ exists m, ms !! x = Some m /\ chain ms (msg_next m) l
  end.

Lemma msgs_ext ms ms' a l : chain ms a l -> (forall x, x ∈ l -> ms' !! x = ms !! x) -> chain ms' a l.
Proof.
  revert a. induction l as [|x l IH]; intros a H E; [done|]. destruct H as (-> & Nx & m & Hm & H).
  split; [done|]. split; [done|]. exists m. rewrite E by left. split; [done|]. apply IH; [done|].
  intros y Hy. apply E. by right.
Qed.

Lemma chain_in ms a l x : chain ms a l -> x ∈ l -> x <> 0 /\ is_Some (ms !! x).
Proof.
  revert a. induction l as [|y l IH]; intros a H Hx; [by apply elem_of_nil in Hx|].
  destruct H as (-> & Ny & m & Hm & H). apply elem_of_cons in Hx as [-> |Hx]; [by rewrite Hm|by eapply IH].
Qed.

Lemma chain_nil ms l : chain ms 0 l -> l = [].
Proof. destruct l; [done|]. by intros (<- & ? & _). Qed.

(** The part of a chain from a message on. *)
Lemma chain_app ms a l1 x l2 : chain ms a (l1 ++ x :: l2) -> chain ms x (x :: l2).
Proof.
  revert a. induction l1 as [|y l1 IH]; intros a H; [by destruct H as (-> & H)|].
  destruct H as (_ & _ & m & _ & H). by eapply IH.
Qed.

(** Appending a message. *)
Lemma chain_append ms a l x m h : chain ms a l -> NoDup l -> list.last l = Some x -> ms !! x = Some m ->
  h ∉ l -> h <> 0 -> (exists mh, ms !! h = Some mh /\ msg_next mh = 0) ->
  chain (<[x := MsgStruct h (msg_type m) (msg_ts m) (msg_text m)]> ms) a (l ++ [h]).
Proof.
  revert a. induction l as [|y l IH]; intros a H ND Hl Hx Hh H0 Hm; [done|].
  destruct H as (-> & Ny & my & Hy & H). apply list.NoDup_cons in ND as [NDy ND].
  rewrite elem_of_cons in Hh. destruct l as [|z l].
  - injection Hl as ->. cbn. split; [done|]. split; [done|]. eexists. split; [apply lookup_insert_eq|].
    cbn. split; [done|]. split; [done|]. destruct Hm as (mh & Hmh & E). exists mh.
    rewrite lookup_insert_ne by naive_solver. done.
  - cbn [app chain]. split; [done|]. split; [done|]. assert (x ∈ z :: l) by (by apply last_Some_elem_of).
    exists my. rewrite lookup_insert_ne by (intros ->; done). split; [done|]. apply IH; try done. naive_solver.
Qed.

(** Taking out a message that is not the first. *)
Lemma msgs_unlink ms a l1 x n l2 mx mn : chain ms a (l1 ++ x :: n :: l2) -> NoDup (l1 ++ x :: n :: l2) ->
  ms !! x = Some mx -> ms !! n = Some mn ->
  chain (<[x := MsgStruct (msg_next mn) (msg_type mx) (msg_ts mx) (msg_text mx)]> ms) a (l1 ++ x :: l2).
Proof.
  revert a. induction l1 as [|y l1 IH]; intros a H ND Hx Hn; cbn [app] in *.
  - destruct H as (-> & Nx & mx' & Hx' & _ & Nn & mn' & Hn' & H). simplify_eq.
    apply list.NoDup_cons in ND as [NDx ND]. split; [done|]. split; [done|]. eexists.
    split; [apply lookup_insert_eq|]. cbn. eapply msgs_ext; [exact H|].
    intros z Hz. apply lookup_insert_ne. intros ->. apply NDx. by right.
  - destruct H as (-> & Ny & my & Hy & H). apply list.NoDup_cons in ND as [NDy ND].
    split; [done|]. split; [done|]. exists my. rewrite lookup_insert_ne by (intros ->; apply NDy; set_solver).
    split; [done|]. by apply IH.
Qed.

(** ** Searching *)

(** The index of the first element with [P]. *)
Fixpoint index_of (P : Z -> bool) (ts : list Z) : option nat :=
  match ts with
  | [] => None
  | t :: ts => if P t then Some O else S <$> index_of P ts
  end.

(** The least element of [t :: ts]. *)
Definition least (t : Z) (ts : list Z) : Z := foldl Z.min t ts.

(** The message that a call of [msgrcv] asks for, among messages of the types [ts]. *)
Definition pick_msg (msgtyp msgflg : Z) (ts : list Z) : option nat :=
  if msgtyp =? 0 then index_of (fun _ => true) ts
  else if 0 <? msgtyp then
    if has msgflg MSG_EXCEPT then index_of (fun t => negb (t =? msgtyp)) ts
    else index_of (fun t => t =? msgtyp) ts
  else
    match ts with
    | [] => None
    | t :: ts' => if least t ts' <=? s32 (- msgtyp) then index_of (fun u => u =? least t ts') ts else None
    end.

Definition type_of (ms : gmap Z msg) (a : Z) : Z := default 0 (msg_type <$> ms !! a).
Definition text_of (ms : gmap Z msg) (a : Z) : list Z := default [] (msg_text <$> ms !! a).
Definition types (ms : gmap Z msg) (l : list Z) : list Z := type_of ms <$> l.
Definition addr (l : list Z) (i : option nat) : Z := default 0 (i ≫= fun i => l !! i).

Lemma addr_S x l i : addr (x :: l) (S <$> i) = addr l i.
Proof. by destruct i. Qed.

Lemma find_msg_chain P ms : forall l a fuel, chain ms a l -> (length l < fuel)%nat ->
  find_msg fuel (fun m => P (msg_type m)) a ms = Some (addr l (index_of P (types ms l))).
Proof.
  induction l as [|x l IH]; intros a fuel H F; (destruct fuel as [|fuel]; [cbn in F; lia|]); cbn [find_msg].
  - cbn in H. subst. done.
  - destruct H as (-> & Nx & m & Hm & H). destruct (Z.eqb_spec x 0); [done|]. rewrite Hm. cbn [mbind option_bind].
    cbn [types fmap list_fmap index_of]. assert (Tx : type_of ms x = msg_type m) by (unfold type_of; by rewrite Hm). rewrite Tx.
    destruct (P (msg_type m)); [done|]. rewrite addr_S. apply IH; [done|]. cbn in F. lia.
Qed.

(** The loop for the least type; [x] is the least so far. *)
Lemma find_least_chain ms : forall l a fuel x, chain ms a l -> (length l < fuel)%nat -> is_Some (ms !! x) ->
  exists y, find_least fuel x a ms = Some y
    /\ type_of ms y = least (type_of ms x) (types ms l)
    /\ (if least (type_of ms x) (types ms l) =? type_of ms x then y = x
        else y = addr l (index_of (fun t => t =? least (type_of ms x) (types ms l)) (types ms l))).
Proof.
  assert (Lle : forall ts t, least t ts <= t).
  { induction ts as [|u ts IH]; intros t; unfold least in *; cbn; [lia|]. specialize (IH (Z.min t u)). lia. }
  induction l as [|z l IH]; intros a fuel x H F Hx; (destruct fuel as [|fuel]; [cbn in F; lia|]); cbn [find_least].
  - cbn in H. subst. exists x. split; [done|]. split; [done|]. unfold least. cbn. by rewrite Z.eqb_refl.
  - destruct H as (-> & Nz & m & Hm & H). destruct (Z.eqb_spec z 0); [done|]. rewrite Hm.
    destruct Hx as [mx Hx]. rewrite Hx. cbn [mbind option_bind].
    assert (Tz : type_of ms z = msg_type m) by (unfold type_of; by rewrite Hm).
    assert (Tx : type_of ms x = msg_type mx) by (unfold type_of; by rewrite Hx).
    rewrite <- Tz, <- Tx. cbn in F.
    destruct (Z.ltb_spec (type_of ms z) (type_of ms x)) as [Lt|Ge].
    + destruct (IH (msg_next m) fuel z H ltac:(lia)) as (y & E & Ty & Hy); [by rewrite Hm|].
      exists y. split; [done|]. cbn [types fmap list_fmap index_of]. unfold least in *. cbn [foldl].
      replace (Z.min (type_of ms x) (type_of ms z)) with (type_of ms z) by lia. fold (types ms l). split; [done|].
      specialize (Lle (types ms l) (type_of ms z)).
      set (v := foldl Z.min (type_of ms z) (types ms l)) in *.
      destruct (Z.eqb_spec v (type_of ms x)); [lia|].
      destruct (Z.eqb_spec v (type_of ms z)) as [Ev|Nv].
      * rewrite Hy. rewrite <- Ev, Z.eqb_refl. done.
      * destruct (Z.eqb_spec (type_of ms z) v); [congruence|]. rewrite addr_S. done.
    + destruct (IH (msg_next m) fuel x H ltac:(lia)) as (y & E & Ty & Hy); [by rewrite Hx|].
      exists y. split; [done|]. cbn [types fmap list_fmap index_of]. unfold least in *. cbn [foldl].
      replace (Z.min (type_of ms x) (type_of ms z)) with (type_of ms x) by lia. fold (types ms l). split; [done|].
      specialize (Lle (types ms l) (type_of ms x)).
      set (v := foldl Z.min (type_of ms x) (types ms l)) in *.
      destruct (Z.eqb_spec v (type_of ms x)) as [|Nv]; [done|].
      destruct (Z.eqb_spec (type_of ms z) v); [lia|]. rewrite addr_S. done.
Qed.

Lemma chain_fuel st a l : chain (msgs st) a l -> NoDup l -> (length l < msg_fuel st)%nat.
Proof.
  intros C ND. unfold msg_fuel. apply Nat.lt_succ_r. rewrite <- size_dom.
  rewrite <- (size_list_to_set (C := gset Z) l ND). apply subseteq_size. intros x Hx.
  apply elem_of_list_to_set in Hx. apply elem_of_dom. by eapply chain_in.
Qed.

Lemma index_of_lt P ts i : index_of P ts = Some i -> exists t, ts !! i = Some t /\ P t = true.
Proof.
  revert i. induction ts as [|t ts IH]; intros i; cbn; [done|]. destruct (P t) eqn:E.
  - intros [= <-]. by exists t.
  - destruct (index_of P ts) as [j|]; [|done]. intros [= <-]. by apply IH.
Qed.

Lemma addr_index ms l P : (forall x, x ∈ l -> x <> 0) ->
  match index_of P (types ms l) with
  | Some i => exists a, l !! i = Some a /\ addr l (Some i) = a /\ a <> 0
  | None => addr l None = 0
  end.
Proof.
  intros N. destruct (index_of P (types ms l)) as [i|] eqn:E; [|done].
  apply index_of_lt in E as (t & Ht & _). unfold types in Ht. rewrite list_lookup_fmap in Ht.
  destruct (l !! i) as [a|] eqn:Ha; [|done]. exists a. split; [done|]. unfold addr. cbn. rewrite Ha.
  split; [done|]. apply N. by eapply list_elem_of_lookup_2.
Qed.

Lemma least_in t ts : least t ts ∈ t :: ts.
Proof.
  revert t. induction ts as [|u ts IH]; intros t; unfold least in *; cbn; [left|].
  destruct (Z.min_spec t u) as [[_ E]|[_ E]]; rewrite E; specialize (IH t) as IHt; specialize (IH u); rewrite !elem_of_cons in *; tauto.
Qed.

Lemma index_of_none v ts : index_of (fun u => u =? v) ts = None -> v ∈ ts -> False.
Proof.
  induction ts as [|u ts IH]; cbn; [by intros _ ?%elem_of_nil|]. destruct (Z.eqb_spec u v) as [|N]; [done|].
  destruct (index_of _ ts); [done|]. intros _ [-> |H]%elem_of_cons; [done|]. auto.
Qed.

Lemma select_spec st msq l msgtyp msgflg : chain (msgs st) (msg_first msq) l -> NoDup l ->
  select_msg st msq msgtyp msgflg = Some (addr l (pick_msg msgtyp msgflg (types (msgs st) l))).
Proof.
  intros C ND. assert (F := chain_fuel st _ l C ND). unfold select_msg, pick_msg.
  destruct (msgtyp =? 0). { destruct l as [|x l]; [by rewrite C|]. by destruct C as (-> & _). }
  destruct (0 <? msgtyp).
  { destruct (has msgflg MSG_EXCEPT).
    - by apply (find_msg_chain (fun t => negb (t =? msgtyp))).
    - by apply (find_msg_chain (fun t => t =? msgtyp)). }
  destruct l as [|x l].
  { cbn in C. rewrite C. unfold msg_fuel. done. }
  assert (C' := C). destruct C' as (E & Nx & m & Hm & _). rewrite E.
  destruct (find_least_chain (msgs st) (x :: l) (msg_first msq) (msg_fuel st) x C F) as (y & Ey & Ty & Hy); [by rewrite Hm|].
  rewrite E in Ey. rewrite Ey. cbn [mbind option_bind]. cbn [types fmap list_fmap] in *. fold (types (msgs st) l) in *.
  assert (EL : least (type_of (msgs st) x) (type_of (msgs st) x :: types (msgs st) l) = least (type_of (msgs st) x) (types (msgs st) l)).
  { unfold least. cbn. by rewrite Z.min_id. }
  rewrite EL in *. set (v := least _ _) in *.
  assert (Hy' : y = addr (x :: l) (index_of (fun u => u =? v) (type_of (msgs st) x :: types (msgs st) l))).
  { cbn [index_of]. destruct (Z.eqb_spec v (type_of (msgs st) x)) as [Ev|Nv].
    - rewrite Ev, Z.eqb_refl. done.
    - rewrite Hy. cbn [index_of]. destruct (Z.eqb_spec (type_of (msgs st) x) v); [congruence|done]. }
  assert (In : y ∈ x :: l).
  { assert (A := addr_index (msgs st) (x :: l) (fun u => u =? v) (fun z Hz => proj1 (chain_in _ _ _ z C Hz))).
    cbn [types fmap list_fmap] in A. fold (types (msgs st) l) in A.
    destruct (index_of _ _) as [i|] eqn:Ei; [|by apply index_of_none in Ei; [|apply least_in]].
    destruct A as (a & Ha & Ea & _). rewrite Hy', Ea. by eapply list_elem_of_lookup_2. }
  destruct (chain_in _ _ _ y C In) as [Ny [my Hmy]]. destruct (Z.eqb_spec y 0); [done|]. rewrite Hmy. cbn [mbind option_bind].
  replace (msg_type my) with v; [|rewrite <- Ty; unfold type_of; by rewrite Hmy].
  destruct (v <=? _); [by rewrite <- Hy'|done].
Qed.

(** ** One queue *)

(** The pointers and the count of the queue [msq] stand for the list [l]. *)
Record qok (ms : gmap Z msg) (msq : msqid_ds) (l : list Z) : Prop := {
  q_chain : chain ms (msg_first msq) l;
  q_nodup : NoDup l;
  q_last : l <> [] -> list.last l = Some (msg_last msq);
  q_num : msg_qnum msq = u16 (Z.of_nat (length l))
}.

(** What the links do not touch. *)
Definition body (m : msg) : Z * Z * list Z := (msg_type m, msg_ts m, msg_text m).
Definition same_body (ms ms' : gmap Z msg) (x : Z) : Prop := body <$> ms' !! x = body <$> ms !! x.

Lemma same_body_dom ms ms' x : same_body ms ms' x -> is_Some (ms' !! x) <-> is_Some (ms !! x).
Proof. unfold same_body. destruct (ms' !! x), (ms !! x); cbn; naive_solver. Qed.

Lemma same_body_type ms ms' x : same_body ms ms' x -> type_of ms' x = type_of ms x /\ text_of ms' x = text_of ms x.
Proof. unfold same_body, type_of, text_of. destruct (ms' !! x), (ms !! x); cbn; naive_solver. Qed.

Lemma body_relink ms x m n y : ms !! x = Some m ->
  same_body ms (<[x := MsgStruct n (msg_type m) (msg_ts m) (msg_text m)]> ms) y.
Proof.
  intros H. unfold same_body. destruct (decide (y = x)) as [-> |]; [by rewrite lookup_insert_eq, H|].
  by rewrite lookup_insert_ne.
Qed.

(** All fields but the two pointers. *)
Definition rest_of (msq : msqid_ds) :=
  (msg_perm msq, msg_stime msq, msg_rtime msq, msg_ctime msq, msg_cbytes msq, msg_qnum msq, msg_qbytes msq,
   msg_lspid msq, msg_lrpid msq).

Lemma append_spec st msq l h m : qok (msgs st) msq l -> msgs st !! h = None -> h <> 0 -> msg_next m = 0 ->
  exists msq' ms', append_msg h m msq st = Some (msq', set_msgs ms' st) /\ rest_of msq' = rest_of msq
    /\ chain ms' (msg_first msq') (l ++ [h]) /\ msg_last msq' = h
    /\ (exists m', ms' !! h = Some m' /\ body m' = body m)
    /\ (forall x, x <> h -> same_body (msgs st) ms' x) /\ (forall x, x <> h -> x ∉ l -> ms' !! x = msgs st !! x).
Proof.
  intros [C ND La _] Hh H0 Hm. assert (Hl : h ∉ l) by (intros Hin; apply (chain_in _ _ _ _ C) in Hin as [_ [? ?]]; congruence).
  unfold append_msg. cbn [msgs set_msgs]. destruct (Z.eqb_spec (msg_first msq) 0) as [E|N].
  - rewrite E in C. apply chain_nil in C as ->. eexists _, (<[h := m]> (msgs st)). split; [done|]. split; [done|].
    split; [|split; [done|split; [|split]]].
    + cbn. split; [done|]. split; [done|]. exists m. by rewrite lookup_insert_eq.
    + exists m. by rewrite lookup_insert_eq.
    + intros x Hx. unfold same_body. by rewrite lookup_insert_ne.
    + intros x Hx _. by rewrite lookup_insert_ne.
  - assert (Nl : l <> []) by (intros ->; cbn in C; done). specialize (La Nl).
    assert (Hin : msg_last msq ∈ l) by (by apply last_Some_elem_of).
    destruct (chain_in _ _ _ _ C Hin) as [_ [ml Hml]].
    assert (Nh : msg_last msq <> h) by congruence.
    rewrite lookup_insert_ne, Hml by done. cbn [mbind option_bind].
    eexists _, (<[msg_last msq := _]> (<[h := m]> (msgs st))). split; [done|]. split; [done|].
    split; [|split; [done|split; [|split]]].
    + apply chain_append; try done.
      * eapply msgs_ext; [exact C|]. intros x Hx. apply lookup_insert_ne. by intros ->.
      * by rewrite lookup_insert_ne.
      * exists m. by rewrite lookup_insert_eq.
    + exists m. rewrite lookup_insert_ne by done. by rewrite lookup_insert_eq.
    + intros x Hx. assert (B : same_body (<[h:=m]> (msgs st)) (<[msg_last msq := MsgStruct h (msg_type ml) (msg_ts ml) (msg_text ml)]> (<[h:=m]> (msgs st))) x)
        by (apply body_relink; by rewrite lookup_insert_ne).
      unfold same_body in *. rewrite B. by rewrite lookup_insert_ne.
    + intros x Hx Hx'. rewrite !lookup_insert_ne; [done|by intros E|intros E; apply Hx'; by rewrite <- E].
Qed.

Lemma find_prev ms x n l2 : forall l1 a fuel, chain ms a (l1 ++ x :: n :: l2) -> NoDup (l1 ++ x :: n :: l2) ->
  (length (l1 ++ x :: n :: l2) < fuel)%nat -> find_msg fuel (fun t => msg_next t =? n) a ms = Some x.
Proof.
  induction l1 as [|y l1 IH]; intros a fuel C ND F; (destruct fuel as [|fuel]; [cbn in F; lia|]);
    cbn [app] in *; destruct C as (-> & Ny & m & Hm & C); cbn [find_msg].
  - destruct (Z.eqb_spec x 0); [done|]. rewrite Hm. cbn [mbind option_bind]. destruct C as (-> & _). by rewrite Z.eqb_refl.
  - destruct (Z.eqb_spec y 0); [done|]. rewrite Hm. cbn [mbind option_bind]. apply list.NoDup_cons in ND as [NDy ND].
    destruct (Z.eqb_spec (msg_next m) n) as [E|].
    + exfalso. destruct l1 as [|z l1]; cbn [app] in C; destruct C as (Ez & _); rewrite E in Ez; subst; apply list.NoDup_cons in ND as [NDz _];
        apply NDz; [left|]. apply elem_of_app. right. right. left.
    + apply IH; [done|done|]. cbn in F. lia.
Qed.

Lemma last_tail {A} (l1 : list A) z l2 : list.last (l1 ++ z :: l2) = list.last (z :: l2).
Proof. rewrite last_app, last_cons. by destruct (list.last l2). Qed.

Lemma unlink_spec st msq l l1 nmsg l2 m : qok (msgs st) msq l -> l = l1 ++ nmsg :: l2 -> msgs st !! nmsg = Some m ->
  exists msq' ms', unlink_msg nmsg m msq st = Some (msq', set_msgs ms' st) /\ rest_of msq' = rest_of msq
    /\ chain ms' (msg_first msq') (l1 ++ l2) /\ (l1 ++ l2 <> [] -> list.last (l1 ++ l2) = Some (msg_last msq'))
    /\ ms' !! nmsg = Some m
    /\ (forall x, same_body (msgs st) ms' x) /\ (forall x, x ∉ l -> ms' !! x = msgs st !! x).
Proof.
  intros [C ND La _] El Hm. unfold unlink_msg.
  destruct l1 as [|x l1'] using rev_ind; [|clear IHl1'].
  - cbn [app] in El. subst l. destruct C as (E & Nn & m' & Hm' & C). rewrite Hm in Hm'. injection Hm' as <-. rewrite E, Z.eqb_refl.
    eexists _, (msgs st). split; [by destruct st|]. split; [done|]. split; [exact C|]. split; [|done].
    intros N. cbn. rewrite <- La by done. by destruct l2.
  - rewrite <- app_assoc in *. cbn [app] in *. assert (F := chain_fuel st _ _ C ND). subst l.
    assert (Nf : nmsg <> msg_first msq).
    { intros ->. destruct l1' as [|z l1']; cbn [app] in C; destruct C as (Ez & _); rewrite Ez in ND; apply list.NoDup_cons in ND as [NDz _];
        apply NDz; [left|]. apply elem_of_app. right. right. left. }
    destruct (Z.eqb_spec nmsg (msg_first msq)); [done|].
    rewrite (find_prev (msgs st) x nmsg l2 l1' _ _ C ND F). cbn [mbind option_bind].
    assert (Hx : x ∈ l1' ++ x :: nmsg :: l2) by (apply elem_of_app; right; left).
    destruct (chain_in _ _ _ _ C Hx) as [_ [mx Hmx]]. rewrite Hmx. cbn [mbind option_bind].
    assert (Nx : x <> nmsg).
    { intros ->. apply list.NoDup_app in ND as (_ & _ & ND). apply list.NoDup_cons in ND as [ND _]. apply ND. left. }
    eexists _, (<[x := _]> (msgs st)). split; [done|]. split; [done|]. split; [by apply (msgs_unlink _ _ _ _ nmsg)|].
    split; [|split; [by rewrite lookup_insert_ne|split]].
    + intros _. cbn [msg_last]. assert (La' := La ltac:(by destruct l1')). rewrite last_tail in La' |- *.
      destruct l2 as [|z l2].
      * cbn in La'. injection La' as <-. by rewrite Z.eqb_refl.
      * change (x :: nmsg :: z :: l2) with ([x; nmsg] ++ z :: l2) in La'. change (x :: z :: l2) with ([x] ++ z :: l2).
        rewrite last_tail in La' |- *. rewrite La'.
        apply last_Some_elem_of in La'. destruct (Z.eqb_spec nmsg (msg_last msq)) as [E|]; [|done]. exfalso.
        rewrite <- E in La'. apply list.NoDup_app in ND as (_ & _ & ND).
        apply list.NoDup_cons in ND as [_ ND]. by apply list.NoDup_cons in ND as [ND _].
    + intros y. by apply body_relink.
    + intros y Hy. apply lookup_insert_ne. by intros ->.
Qed.

(** ** The invariant *)

(** For the table a queue is an object of size 1, and the processes in [newque] and
    [freeque] hold an entry or a queue. *)
Definition qshape (msq : msqid_ds) : Z * nat * Z := (1, 1%nat, seq (msg_perm msq)).
Definition tproc (pr : mproc) : option (Z * Z + Z) :=
  match pr with
  | MNewque id _ _ => Some (inl (id, 1))
  | MFreeque p => Some (inr p)
  | _ => None
  end.

Definition tbl (st : mst) : Prop :=
  exists us, table (msgque st) us (used_queues st) (max_msqid st) (msg_seq st) (brk st)
    (qshape <$> queues st) (omap tproc (procs st)).

Record stored (q : gmap Z msqid_ds) (ms : gmap Z msg) (bk : Z) (L : gmap Z (list Z)) : Prop := {
  s_dom p : is_Some (L !! p) <-> is_Some (q !! p);
  s_q p msq l : q !! p = Some msq -> L !! p = Some l -> qok ms msq l;
  s_disj p p' l l' a : L !! p = Some l -> L !! p' = Some l' -> a ∈ l -> a ∈ l' -> p = p';
  s_msgs a m : ms !! a = Some m -> 0 < a < bk /\ msg_ts m = Z.of_nat (length (msg_text m));
  s_brk : 0 < bk
}.

Definition linked (st : mst) (p : Z) : Prop := exists id, get (msgque st) id = Some (Ptr p).

(** The caller that knows the queue [p] as [msqid] can tell whether it was removed. *)
Definition bound (st : mst) (p msqid : Z) : Prop :=
  exists msq, queues st !! p = Some msq /\ (linked st p <-> stale msqid msq = false).

(** What is known of a process in its place. *)
Definition wok (st : mst) (L : gmap Z (list Z)) (pr : mproc) : Prop :=
  match pr with
  | MFindkey id _ _ _ => 0 <= id < MSGMNI
  | MSleepW p msqid _ _ _ aw => bound st p msqid /\ (aw = false -> linked st p)
  | MSleepR p msqid msgsz msgtyp msgflg aw =>
      0 <= msgsz /\ bound st p msqid /\ exists l, L !! p = Some l
        /\ (aw = false -> linked st p /\ pick_msg msgtyp msgflg (types (msgs st) l) = None)
  | _ => True
  end.

Record inv (st : mst) (L : gmap Z (list Z)) : Prop := {
  i_tbl : tbl st;
  i_stored : stored (queues st) (msgs st) (brk st) L;
  i_procs : map_Forall (fun _ pr => wok st L pr) (procs st)
}.

(** The messages of every queue: types and texts. *)
Definition content (ms : gmap Z msg) (l : list Z) : list (Z * list Z) := (fun a => (type_of ms a, text_of ms a)) <$> l.
Definition contents (st : mst) (L : gmap Z (list Z)) : gmap Z (list (Z * list Z)) := content (msgs st) <$> L.

Lemma content_ext ms ms' l : (forall x, x ∈ l -> same_body ms ms' x) -> content ms' l = content ms l /\ types ms' l = types ms l.
Proof.
  intros H. split; apply list_fmap_ext; intros i x Hx; apply list_elem_of_lookup_2 in Hx;
    destruct (same_body_type ms ms' x (H x Hx)) as [E1 E2]; by rewrite ?E1, ?E2.
Qed.

(** ** Processes *)

Lemma msg_tprocs_insert k pr (ps : gmap Z mproc) : ps !! k = None ->
  omap tproc (<[k := pr]> ps) = match tproc pr with Some x => <[k := x]> (omap tproc ps) | None => omap tproc ps end.
Proof.
  intros H. assert (H' : omap tproc ps !! k = None) by (by rewrite lookup_omap, H).
  destruct (tproc pr) as [x|] eqn:E; [by rewrite (omap_insert_Some tproc _ _ _ _ E)|].
  rewrite (omap_insert_None tproc _ _ _ E). by apply delete_id.
Qed.

Lemma tprocs_fmap (f : mproc -> mproc) (ps : gmap Z mproc) : (forall pr, tproc (f pr) = tproc pr) ->
  omap tproc (f <$> ps) = omap tproc ps.
Proof.
  intros Hf. apply map_eq. intros k. rewrite !lookup_omap, lookup_fmap. destruct (ps !! k); cbn; [apply Hf|done].
Qed.

Lemma tproc_wake_w p pr : tproc (wake_w p pr) = tproc pr. Proof. by destruct pr. Qed.
Lemma tproc_wake_r p pr : tproc (wake_r p pr) = tproc pr. Proof. by destruct pr. Qed.
Lemma tproc_wake_lock pr : tproc (wake_lock pr) = tproc pr. Proof. by destruct pr. Qed.
Lemma msg_tproc_rouse pr : tproc (rouse pr) = tproc pr. Proof. by destruct pr. Qed.

(** A process keeps its standing when it is woken, ... *)
Lemma wok_wake_w st L p pr : wok st L pr -> wok st L (wake_w p pr).
Proof. destruct pr; cbn; try done. intros [H1 H2]. split; [done|]. intros [? _]%orb_false_iff. auto. Qed.
Lemma wok_wake_r st L p pr : wok st L pr -> wok st L (wake_r p pr).
Proof.
  destruct pr; cbn; try done. intros (H0 & H1 & l & H2 & H3). split; [done|]. split; [done|]. exists l. split; [done|].
  intros [? _]%orb_false_iff. auto.
Qed.
Lemma wok_wake_lock st L pr : wok st L pr -> wok st L (wake_lock pr).
Proof. by destruct pr. Qed.
Lemma wok_rouse st L pr : wok st L pr -> wok st L (rouse pr).
Proof.
  destruct pr; cbn; try done; [intros [H1 _]; done|]. intros (H0 & H1 & l & H2 & _).
  split; [done|]. split; [done|]. by exists l.
Qed.

(** ... and when what it looks at does not change. *)
Definition kept (st st' : mst) (p : Z) : Prop :=
  forall msq, queues st !! p = Some msq ->
    exists msq', queues st' !! p = Some msq' /\ seq (msg_perm msq') = seq (msg_perm msq) /\ (linked st' p <-> linked st p).

Lemma bound_ext st st' p msqid : kept st st' p -> bound st p msqid -> bound st' p msqid.
Proof.
  intros HK (msq & Hq & E). destruct (HK msq Hq) as (msq' & Hq' & Es & El). exists msq'. split; [done|].
  rewrite El, E. unfold stale. by rewrite Es.
Qed.

Lemma link_kept st st' p msqid : kept st st' p -> bound st p msqid -> linked st p -> linked st' p.
Proof. intros HK (msq & Hq & _). destruct (HK msq Hq) as (msq' & _ & _ & El). by rewrite El. Qed.

Lemma wok_ext st st' L L' pr : (forall p, on_queue p pr = true -> kept st st' p) ->
  (forall p l, on_queue p pr = true -> L !! p = Some l ->
     exists l', L' !! p = Some l' /\ forall ty fl, pick_msg ty fl (types (msgs st) l) = None -> pick_msg ty fl (types (msgs st') l') = None) ->
  wok st L pr -> wok st' L' pr.
Proof.
  intros HK HQ. destruct pr as [| |p msqid mtype text msgflg aw| |p msqid msgsz msgtyp msgflg aw|]; cbn in *; try done.
  - specialize (HK p (Z.eqb_refl p)). intros [B H]. split; [by eapply bound_ext|]. intros Haw. eapply link_kept; eauto.
  - specialize (HK p (Z.eqb_refl p)). intros (H0 & B & l & Hl & H). destruct (HQ p l (Z.eqb_refl p) Hl) as (l' & Hl' & E).
    split; [done|]. split; [by eapply bound_ext|]. exists l'. split; [done|].
    intros Haw. destruct (H Haw) as [H1 H2]. split; [by eapply link_kept|]. by apply E.
Qed.

Lemma queued_none p st k pr : queued p st = false -> procs st !! k = Some pr -> on_queue p pr = false.
Proof.
  unfold queued. intros H Hk. destruct (on_queue p pr) eqn:E; [|done].
  assert (X : existsb (fun kv => on_queue p kv.2) (map_to_list (procs st)) = true); [|congruence].
  apply existsb_exists. exists (k, pr). split; [by apply list_elem_of_In, elem_of_map_to_list|done].
Qed.

Create HintDb msgdb.
#[export] Hint Resolve wok_wake_w wok_wake_r wok_wake_lock wok_rouse : msgdb.
End MsgInv.
