(* ===== verification/MsgSafe.v ===== *)
(** * Every run of the message queue code keeps the invariant ([src/ipc/msg.c])

    One lemma per operation: started in a state with [inv] it uses no null or
    dangling pointer, ends in a state with [inv], and changes the contents of the
    queues as [effect] says. *)

From S2P Require Import Prelude Ipc IpcTable Msg MsgInv.
From Stdlib Require Import ZArith Lia.
From stdpp Require Import base list gmap numbers.
Local Open Scope Z_scope.

Module MsgSafe.
Import Ipc IpcTable Msg MsgInv.

Definition messages : Type := gmap Z (list (Z * list Z)).

(** What a process wants of the queues: the queue at [p], and the message it sends or
    the type, flags and room of a receiver.  [Refused]: there is no queue. *)
Inductive req :=
  | Gets
  | Sends (p mtype : Z) (text : list Z)
  | Receives (p msgsz msgtyp msgflg : Z)
  | Removes (p : Z)
  | Controls
  | Refused.

(** What a process inside the code is there for. *)
Definition asked (pr : mproc) : req :=
  match pr with
  | MFindkey _ _ _ _ | MNewque _ _ _ => Gets
  | MSleepW p _ mtype text _ _ | MSndMem p _ mtype text => Sends p mtype text
  | MSleepR p _ msgsz msgtyp msgflg _ => Receives p msgsz msgtyp msgflg
  | MFreeque p => Removes p
  end.

(** A receiver sleeps only when no message is one that it wants. *)
Definition may_sleep (A : messages) (R : req) : Prop :=
  match R with
  | Receives p _ msgtyp msgflg => exists l, A !! p = Some l /\ pick_msg msgtyp msgflg l.*1 = None
  | _ => True
  end.

(** The change of the queues' contents in one run for the request [R], its outcome, and
    what the process still waits for.  A call returns with its work done, or with an
    error, [e] if that is what [verify_area] answered, and nothing changed; or it goes
    to sleep with nothing changed and the same request.  When [msg_qnum], which has
    16 bits, becomes 0 by a receive although messages are left, these are lost. *)
Inductive effect (e : Z) : req -> messages -> messages -> outcome -> option req -> Prop :=
  | eff_blocked R A : may_sleep A R -> effect e R A A Blocked (Some R)
  | eff_error R A r : r < 0 \/ r = e /\ e <> 0 -> effect e R A A (Ret r) None
  | eff_found A r : effect e Gets A A (Ret r) None
  | eff_new A p r : A !! p = None -> effect e Gets A (<[p := []]> A) (Ret r) None
  | eff_free A p : effect e (Removes p) A (delete p A) (Ret 0) None
  | eff_ctl A r : effect e Controls A A (Ret r) None
  | eff_send A p l ty tx : A !! p = Some l -> effect e (Sends p ty tx) A (<[p := l ++ [(ty, tx)]]> A) (Ret (Z.of_nat (length tx))) None
  | eff_recv A p l1 ty tx l2 l' n msgsz msgtyp msgflg : A !! p = Some (l1 ++ (ty, tx) :: l2) ->
      pick_msg msgtyp msgflg (l1 ++ (ty, tx) :: l2).*1 = Some (length l1) ->
      l' = l1 ++ l2 \/ l' = [] /\ Z.of_nat (length (l1 ++ l2)) mod 2 ^ 16 = 0 ->
      n = Z.min (Z.of_nat (length tx)) msgsz -> n = Z.of_nat (length tx) \/ has msgflg MSG_NOERROR = true ->
      effect e (Receives p msgsz msgtyp msgflg) A (<[p := l']> A) (Got n ty (take (Z.to_nat n) tx)) None.

Definition safe (c : cred) (e : Z) (R : req) (st : mst) (L : gmap Z (list Z)) (r : option (mst * outcome)) : Prop :=
  exists st' o L', r = Some (st', o) /\ inv st' L' /\ effect e R (contents st L) (contents st' L') o (asked <$> procs st' !! pid c).

(** ** Returning and sleeping *)

Lemma set_procs_id st : set_procs (procs st) st = st.
Proof. by destruct st. Qed.

Lemma msg_leave_idle c st : procs st !! pid c = None -> leave c st = st.
Proof. intros H. unfold leave. rewrite delete_id by done. apply set_procs_id. Qed.

(** A change of the entry [id] is seen only on the queue it holds. *)
Lemma kept_table st st' id s0 s p : queues st' = queues st -> put (msgque st) id s = Some (msgque st') ->
  get (msgque st) id = Some s0 -> s0 <> Ptr p -> s <> Ptr p -> kept st st' p.
Proof.
  intros Eq Ep Hg N0 N msq Hq. exists msq. rewrite Eq. split; [done|]. split; [done|]. unfold linked.
  split; intros [j Hj]; exists j; rewrite (get_put _ _ _ _ _ Ep) in *; destruct (Z.eqb_spec j id); congruence.
Qed.

Section Idle.
Context (e : Z) (R : req) (c : cred) (st : mst) (L : gmap Z (list Z)).
Context (I : inv st L) (Idle : procs st !! pid c = None).

Lemma safe_return r : effect e R (contents st L) (contents st L) (Ret r) None -> safe c e R st L (ret c st r).
Proof. intros H. exists st, (Ret r), L. unfold ret. rewrite msg_leave_idle by done. split; [done|]. split; [done|]. by rewrite Idle. Qed.

Lemma msg_safe_ret r : r < 0 -> safe c e R st L (ret c st r).
Proof. intros H. apply safe_return, eff_error. by left. Qed.

Lemma safe_fault : e <> 0 -> safe c e R st L (ret c st e).
Proof. intros H. apply safe_return, eff_error. by right. Qed.

Lemma wok_procs ps L' pr : wok (set_procs ps st) L' pr <-> wok st L' pr.
Proof. by destruct pr. Qed.

Lemma inv_block pr : tproc pr = None -> wok st L pr -> inv (enter c pr st) L.
Proof.
  intros Ht Hw. destruct I as [[us T] S P]. split; [|done|].
  - exists us. cbn. rewrite msg_tprocs_insert, Ht by done. exact T.
  - cbn. apply map_Forall_insert_2; [by apply wok_procs|]. intros k pr' Hk. apply wok_procs. by eapply P.
Qed.

Lemma safe_block pr : tproc pr = None -> wok st L pr -> asked pr = R -> may_sleep (contents st L) R -> safe c e R st L (block c pr st).
Proof.
  intros Ht Hw <- Hs. exists (enter c pr st), Blocked, L. split; [done|]. split; [by apply inv_block|].
  cbn [procs enter set_procs]. rewrite lookup_insert_eq. by apply eff_blocked.
Qed.
End Idle.

(** An error is returned and nothing is changed. *)
Ltac fails := first [by apply msg_safe_ret|by apply safe_fault].

Section Calls.
Context (e : Z) (c : cred) (st : mst) (L : gmap Z (list Z)).
Context (I : inv st L) (Idle : procs st !! pid c = None).

Lemma slot_queue id p : get (msgque st) id = Some (Ptr p) -> exists msq l, queues st !! p = Some msq /\ L !! p = Some l /\ qok (msgs st) msq l.
Proof.
  intros H. destruct I as [[us T] S P]. destruct (t_heap _ _ _ _ _ _ _ _ T id p H) as [x Hx].
  rewrite lookup_fmap in Hx. destruct (queues st !! p) as [msq|] eqn:E; [|done].
  destruct (proj2 (s_dom _ _ _ _ S p)) as [l Hl]; [by rewrite E|]. exists msq, l. split; [done|]. split; [done|].
  by apply (s_q _ _ _ _ S p).
Qed.

Lemma slot_get id : 0 <= id < MSGMNI -> exists s, get (msgque st) id = Some s.
Proof.
  intros H. destruct I as [[us T] _ _]. apply get_in_range. rewrite (t_len _ _ _ _ _ _ _ _ T).
  unfold MSGMNI, MNI in *. lia.
Qed.

Lemma mod_range msqid : 0 <= msqid mod MSGMNI < MSGMNI.
Proof. by apply Z.mod_pos_bound. Qed.

(** ** [msgget] *)

Lemma max_range : 0 <= max_msqid st < MSGMNI.
Proof. destruct I as [[us T] _ _]. apply (t_max _ _ _ _ _ _ _ _ T). Qed.

Lemma findkey_from_ok key0 n : forall id, 0 <= id -> id + Z.of_nat n <= MSGMNI ->
  exists f, findkey_from n st key0 id = Some f
    /\ match f with
       | FoundId j => exists p, get (msgque st) j = Some (Ptr p)
       | WaitAt j => 0 <= j < MSGMNI
       | NotFound => True
       end.
Proof.
  induction n as [|n IH]; intros id H0 H1; cbn [findkey_from]; [by eexists|].
  destruct (slot_get id ltac:(lia)) as [s Hs]. rewrite Hs. cbn [mbind option_bind]. destruct s as [| |p].
  - apply IH; lia.
  - eexists. split; [done|]. cbn. lia.
  - destruct (slot_queue id p Hs) as (msq & l & -> & _). cbn [mbind option_bind].
    destruct (key0 =? _); [eexists; split; [done|]; by exists p|apply IH; lia].
Qed.

Lemma findkey_ok key0 id : 0 <= id < MSGMNI -> exists f, findkey st key0 id = Some f
    /\ match f with
       | FoundId j => exists p, get (msgque st) j = Some (Ptr p)
       | WaitAt j => 0 <= j < MSGMNI
       | NotFound => True
       end.
Proof.
  intros H. assert (M := max_range). unfold findkey.
  destruct (decide (id <= max_msqid st)).
  - apply findkey_from_ok; lia.
  - replace (Z.to_nat (max_msqid st - id)) with 0%nat by lia. apply findkey_from_ok; lia.
Qed.

Lemma newque_safe key0 msgflg : safe c e Gets st L (newque c st key0 msgflg).
Proof.
  unfold newque. destruct (first_unused (msgque st) 0) as [id|] eqn:F; [|fails].
  apply first_unused_get in F. destruct (put_of_get (msgque st) id NOID UNUSED F) as [ary Ha]. rewrite Ha. cbn [mbind option_bind].
  eexists _, _, L. split; [done|]. split; [|cbn [procs enter set_procs]; rewrite lookup_insert_eq; by apply eff_blocked]. destruct I as [[us T] S P]. split.
  - exists (us + 1). cbn. rewrite msg_tprocs_insert by done. cbn [tproc].
    apply (table_reserve (msgque st) ary us _ _ _ _ _ _ T); [done|done|unfold MSL; lia|]. by rewrite lookup_omap, Idle.
  - exact S.
  - apply map_Forall_insert_2; [done|]. intros k pr Hk. eapply (wok_ext st _ L L); [| |by eapply P].
    + intros p _. by eapply kept_table; [|exact Ha|exact F| |].
    + intros p l _ Hl. by exists l.
Qed.

Lemma msgget_found_safe key0 msgflg f :
  match f with
  | FoundId j => exists p, get (msgque st) j = Some (Ptr p)
  | WaitAt j => 0 <= j < MSGMNI
  | NotFound => True
  end -> safe c e Gets st L (msgget_found c st key0 msgflg f).
Proof.
  intros H. destruct f as [id| |id]; cbn [msgget_found].
  - destruct (_ && _); [fails|]. destruct H as [p Hp]. rewrite Hp. cbn [mbind option_bind].
    destruct (slot_queue id p Hp) as (msq & l & -> & _). cbn [mbind option_bind]. destruct (negb _); [fails|]. by apply safe_return, eff_found.
  - destruct (negb _); [fails|apply newque_safe].
  - by apply safe_block.
Qed.

Lemma msgget_safe key0 msgflg : safe c e Gets st L (sys_msgget c st key0 msgflg).
Proof.
  unfold sys_msgget. destruct (key0 =? IPC_PRIVATE); [apply newque_safe|].
  destruct (findkey_ok key0 0) as (f & -> & Hf); [unfold MSGMNI; lia|]. by apply msgget_found_safe.
Qed.

(** ** [msgsnd] until it allocates *)

(** The caller has found the queue [p] as [msqid], now or before it slept. *)
Definition known (p msqid : Z) : Prop := exists msq, queues st !! p = Some msq /\ (stale msqid msq = false -> linked st p).

Lemma known_slot id p msqid : get (msgque st) id = Some (Ptr p) -> known p msqid.
Proof. intros H. destruct (slot_queue id p H) as (msq & _ & Hq & _). exists msq. split; [done|]. by exists id. Qed.

Lemma known_bound p msqid : bound st p msqid -> known p msqid.
Proof. intros (msq & Hq & E). exists msq. split; [done|]. apply E. Qed.

Lemma bound_known p msqid msq : queues st !! p = Some msq -> known p msqid -> stale msqid msq = false -> linked st p /\ bound st p msqid.
Proof. intros Hq (msq' & Hq' & H) E. rewrite Hq in Hq'. injection Hq' as <-. split; [auto|]. exists msq. split; [done|]. split; auto. Qed.

Lemma msgsnd_slept_safe p msqid mtype text msgflg : known p msqid ->
  safe c e (Sends p mtype text) st L (msgsnd_slept c st p msqid mtype text msgflg).
Proof.
  intros K. unfold msgsnd_slept. assert (K' := K). destruct K' as (msq & Hq & _). rewrite Hq. cbn [mbind option_bind].
  destruct (stale msqid msq) eqn:E; [fails|]. destruct (negb _); [fails|]. case_bool.
  - destruct (has _ _); [fails|]. destruct (pending c); [fails|].
    destruct (bound_known _ _ _ Hq K E). by apply safe_block.
  - by apply safe_block.
Qed.

Definition sends (s : option slot) (mtype msgsz : Z) (text : list Z) : req :=
  match s with Some (Ptr p) => Sends p mtype (take (Z.to_nat msgsz) text) | _ => Refused end.

Lemma msgsnd_safe msqid msgp msgsz msgflg mtype text :
  safe c e (sends (get (msgque st) (msqid mod MSGMNI)) mtype msgsz text) st L (sys_msgsnd c st msqid msgp msgsz msgflg mtype e text).
Proof.
  unfold sys_msgsnd. destruct (_ || _); [fails|]. destruct (msgp =? 0); [fails|]. destruct (Z.eqb_spec e 0); cbn [negb]; [|fails]. destruct (mtype <? 1); [fails|].
  destruct (slot_get _ (mod_range msqid)) as [s Hs]. rewrite Hs. cbn [mbind option_bind]. destruct s as [| |p]; try fails.
  apply msgsnd_slept_safe. by eapply known_slot.
Qed.
End Calls.

(** ** Sending *)

Lemma stored_brk q ms bk bk' L : bk <= bk' -> stored q ms bk L -> stored q ms bk' L.
Proof. intros H [S1 S2 S3 S4 S5]. split; try done; [|lia]. intros a m Ha. destruct (S4 a m Ha). split; [lia|done]. Qed.

Lemma kmalloc_inv st L h st1 : inv st L -> kmalloc st = Some (h, st1) ->
  inv st1 L /\ h = brk st /\ brk st1 = h + 1 /\ msgque st1 = msgque st /\ queues st1 = queues st /\ msgs st1 = msgs st /\ procs st1 = procs st.
Proof.
  intros [[us T] S P] H. unfold kmalloc in H. destruct (mem st); [done|]. injection H as <- <-. split; [|done]. split; cbn.
  - exists us. eapply table_brk; [exact T|cbn; lia].
  - eapply stored_brk; [|exact S]. lia.
  - exact P.
Qed.

Lemma contents_lookup st L p l : L !! p = Some l -> contents st L !! p = Some (content (msgs st) l).
Proof. intros H. unfold contents. by rewrite lookup_fmap, H. Qed.

Lemma contents_insert st st' L p l' :
  (forall q k, q <> p -> L !! q = Some k -> content (msgs st') k = content (msgs st) k) ->
  contents st' (<[p := l']> L) = <[p := content (msgs st') l']> (contents st L).
Proof.
  intros H. unfold contents. rewrite fmap_insert. apply map_eq. intros q. destruct (decide (q = p)) as [-> |N].
  - by rewrite !lookup_insert_eq.
  - rewrite !lookup_insert_ne, !lookup_fmap by done. destruct (L !! q) as [k|] eqn:E; [|done]. cbn. f_equal. by eapply H.
Qed.

(** The queue [p] gets the list [l'], and messages outside the other lists change. *)
Lemma stored_update q ms bk L p msq l ms' msq' l' bk' : stored q ms bk L -> L !! p = Some l ->
  qok ms' msq' l' -> (forall a, a ∈ l' -> a ∈ l \/ ms !! a = None) -> bk <= bk' ->
  (forall a k r, r <> p -> L !! r = Some k -> a ∈ k -> ms' !! a = ms !! a) ->
  (forall a m, ms' !! a = Some m -> 0 < a < bk' /\ msg_ts m = Z.of_nat (length (msg_text m))) ->
  q !! p = Some msq -> stored (<[p := msq']> q) ms' bk' (<[p := l']> L).
Proof.
  intros [S1 S2 S3 S4 S5] Hl Q Hin Hb Hms Hts Hq. split; [| | |done|lia].
  - intros r. destruct (decide (r = p)) as [-> |N]; [by rewrite !lookup_insert_eq|]. rewrite !lookup_insert_ne by done. apply S1.
  - intros r msq1 k Hr Hk. destruct (decide (r = p)) as [-> |N].
    + rewrite lookup_insert_eq in Hr. rewrite lookup_insert_eq in Hk. by simplify_eq.
    + rewrite lookup_insert_ne in Hr by done. rewrite lookup_insert_ne in Hk by done. destruct (S2 r msq1 k Hr Hk) as [C ND La Nu]. split; try done.
      eapply msgs_ext; [exact C|]. intros x Hx. by eapply Hms.
  - assert (X : forall r k a, r <> p -> L !! r = Some k -> a ∈ k -> a ∈ l' -> False).
    { intros r k a N Hk Ha Ha'. destruct (Hin a Ha') as [Hin'|Hno]; [by apply N, (S3 r p k l a)|].
      destruct (proj1 (S1 r)) as [m1 Hm1]; [by rewrite Hk|]. destruct (S2 r m1 k Hm1 Hk) as [C _ _ _].
      destruct (chain_in _ _ _ _ C Ha) as [_ [? ?]]. congruence. }
    intros r1 r2 k1 k2 a H1 H2 Ha1 Ha2. destruct (decide (r1 = p)) as [-> |N1], (decide (r2 = p)) as [-> |N2].
    + done.
    + rewrite lookup_insert_eq in H1. rewrite lookup_insert_ne in H2 by done. simplify_eq. exfalso. by eapply (X r2).
    + rewrite lookup_insert_eq in H2. rewrite lookup_insert_ne in H1 by done. simplify_eq. exfalso. by eapply (X r1).
    + rewrite lookup_insert_ne in H1 by done. rewrite lookup_insert_ne in H2 by done. by eapply S3.
Qed.

(** A change of one queue that keeps its sequence number. *)
Lemma kept_queue st st' p msq msq' r : msgque st' = msgque st -> queues st' = <[p := msq']> (queues st) ->
  queues st !! p = Some msq -> seq (msg_perm msq') = seq (msg_perm msq) -> kept st st' r.
Proof.
  intros Et Eq Hp Es m Hm. unfold linked. rewrite Et, Eq. destruct (decide (r = p)) as [-> |N].
  - rewrite Hp in Hm. injection Hm as <-. exists msq'. by rewrite lookup_insert_eq.
  - exists m. by rewrite lookup_insert_ne.
Qed.

(** The table does not see such a change. *)
Lemma tbl_queue st st' p msq msq' : tbl st -> queues st !! p = Some msq -> seq (msg_perm msq') = seq (msg_perm msq) ->
  queues st' = <[p := msq']> (queues st) -> msgque st' = msgque st -> used_queues st' = used_queues st ->
  max_msqid st' = max_msqid st -> msg_seq st' = msg_seq st -> brk st' = brk st ->
  omap tproc (procs st') = omap tproc (procs st) -> tbl st'.
Proof.
  intros [us T] Hp Es E1 E2 E3 E4 E5 E6 E7. exists us. rewrite E1, E2, E3, E4, E5, E6, E7, fmap_insert.
  replace (qshape msq') with (qshape msq) by (unfold qshape; by rewrite Es).
  rewrite insert_id; [done|]. by rewrite lookup_fmap, Hp.
Qed.

Lemma length_u16 n m : u16 n = u16 m -> u16 (n + 1) = u16 (m + 1).
Proof. unfold u16. intros H. rewrite (Z.add_mod n), (Z.add_mod m), H by lia. done. Qed.

Lemma u16_add n k : u16 (u16 n + k) = u16 (n + k).
Proof. unfold u16. apply Zplus_mod_idemp_l. Qed.

Lemma same_body_ts q ms bk L ms' a m : stored q ms bk L -> same_body ms ms' a -> ms' !! a = Some m ->
  0 < a < bk /\ msg_ts m = Z.of_nat (length (msg_text m)).
Proof.
  intros S B Ha. unfold same_body in B. rewrite Ha in B. destruct (ms !! a) as [m0|] eqn:E0; [|done].
  cbn in B. injection B as E1 E2 E3. rewrite E2, E3. by apply (s_msgs _ _ _ _ S).
Qed.

(** A block that is no message is in no list. *)
Lemma stored_fresh q ms bk L h r k : stored q ms bk L -> ms !! h = None -> L !! r = Some k -> h ∉ k.
Proof.
  intros S Hh Hk Hin. destruct (proj1 (s_dom _ _ _ _ S r)) as [mr Hr]; [by rewrite Hk|].
  destruct (chain_in _ _ _ _ (q_chain _ _ _ (s_q _ _ _ _ S r mr k Hr Hk)) Hin) as [_ [? ?]]. congruence.
Qed.

Lemma stored_append q ms bk L p msq l ms' msq' h m : stored q ms bk L -> L !! p = Some l -> q !! p = Some msq ->
  ms !! h = None -> 0 < h < bk -> msg_ts m = Z.of_nat (length (msg_text m)) ->
  chain ms' (msg_first msq') (l ++ [h]) -> msg_last msq' = h -> msg_qnum msq' = u16 (msg_qnum msq + 1) ->
  (exists m', ms' !! h = Some m' /\ body m' = body m) ->
  (forall x, x <> h -> same_body ms ms' x) -> (forall x, x <> h -> x ∉ l -> ms' !! x = ms !! x) ->
  stored (<[p := msq']> q) ms' bk (<[p := l ++ [h]]> L).
Proof.
  intros S Hl Hq Hh H0 Ht C La Qn (m' & Hm' & Bm) Sb Oth. destruct (s_q _ _ _ _ S p msq l Hq Hl) as [_ QN _ QM].
  eapply (stored_update _ _ _ _ _ msq l); [exact S|exact Hl| | |reflexivity| | |exact Hq].
  - split; [exact C| | |].
    + apply list.NoDup_app. split; [done|]. split; [|apply NoDup_singleton].
      intros x Hx [= ->]%list_elem_of_singleton. by apply (stored_fresh _ _ _ _ _ _ _ S Hh Hl).
    + intros _. by rewrite last_snoc, La.
    + rewrite Qn, QM, u16_add, length_app. cbn. f_equal. lia.
  - intros a Ha. apply elem_of_app in Ha as [Ha|Ha]; [by left|]. apply list_elem_of_singleton in Ha as ->. by right.
  - intros a k r Nr Hk Ha. apply Oth; [intros ->; by apply (stored_fresh _ _ _ _ _ _ _ S Hh Hk)|].
    intros Ha'. apply Nr. by eapply (s_disj _ _ _ _ S).
  - intros a ma Ha. destruct (decide (a = h)) as [-> |Na]; [|eapply same_body_ts; eauto].
    rewrite Hm' in Ha. injection Ha as <-. unfold body in Bm. injection Bm as E1 E2 E3. rewrite E2, E3. done.
Qed.

Lemma wok_sent st st' L p l' pr : (forall r, kept st st' r) ->
  (forall r k, r <> p -> L !! r = Some k -> types (msgs st') k = types (msgs st) k) ->
  wok st L pr -> wok st' (<[p := l']> L) (wake_r p pr).
Proof.
  intros HK HQ. destruct pr as [| |q msqid mtype text msgflg aw| |q msqid msgsz msgtyp msgflg aw|]; cbn; try done.
  - intros [B H]. split; [by eapply bound_ext|]. intros Haw. eapply link_kept; eauto.
  - intros (H0 & B & l & Hl & H). split; [done|]. split; [by eapply bound_ext|].
    destruct (Z.eqb_spec q p) as [-> |N].
    + exists l'. rewrite lookup_insert_eq, orb_true_r. done.
    + exists l. rewrite lookup_insert_ne, orb_false_r by done. split; [done|]. intros Haw. destruct (H Haw).
      rewrite (HQ q l N Hl). split; [by eapply link_kept|done].
Qed.

Section Send.
Context (e : Z) (c : cred) (st : mst) (L : gmap Z (list Z)).
Context (I : inv st L) (Idle : procs st !! pid c = None).

Lemma msgsnd_add_safe p msq h mtype text : queues st !! p = Some msq -> 0 < h < brk st -> msgs st !! h = None ->
  safe c e (Sends p mtype text) st L (msgsnd_add c st p msq h mtype text).
Proof.
  intros Hq Hb Hh. destruct I as [T S P]. destruct (proj2 (s_dom _ _ _ _ S p)) as [l Hl]; [by rewrite Hq|].
  assert (Q := s_q _ _ _ _ S p msq l Hq Hl). unfold msgsnd_add.
  destruct (append_spec st msq l h (MsgStruct 0 mtype (Z.of_nat (length text)) text) Q Hh) as
    (msq' & ms' & -> & R & C & La & Hm' & Sb & Oth); [lia|done|].
  cbn [mbind option_bind]. injection R as R1 R2 R3 R4 R5 R6 R7 R8 R9.
  assert (Ext : forall r k, L !! r = Some k -> content ms' k = content (msgs st) k /\ types ms' k = types (msgs st) k).
  { intros r k Hk. apply content_ext. intros x Hx. apply Sb. intros ->. by apply (stored_fresh _ _ _ _ _ _ _ S Hh Hk). }
  eexists _, _, (<[p := l ++ [h]]> L). split; [done|]. unfold leave. cbn [procs wake_rwait set_procs set_queues set_totals set_msgs].
  rewrite delete_id by (rewrite lookup_fmap; cbn; by rewrite Idle). split.
  - split.
    + eapply (tbl_queue st _ p msq); [exact T|exact Hq| |done..|]; [cbn; by rewrite R1|]. cbn. apply tprocs_fmap. apply tproc_wake_r.
    + cbn. eapply stored_append; try done; [|cbn; by rewrite R6]; done.
    + cbn. apply map_Forall_fmap. intros k pr Hk. specialize (P k pr Hk). cbn. eapply wok_sent; [| |exact P].
      * intros r. eapply (kept_queue st _ p msq); [done|done|exact Hq|cbn; by rewrite R1].
      * intros r k' _ Hk'. by apply (Ext r).
  - erewrite contents_insert by (intros r k _ Hk; by apply (Ext r)).
    assert (X : content ms' (l ++ [h]) = content (msgs st) l ++ [(mtype, text)]).
    { destruct (Ext p l Hl) as [<- _]. destruct Hm' as (m' & Hm' & Bm). injection Bm as E1 E2 E3.
      unfold content. rewrite fmap_app. cbn. unfold type_of, text_of. rewrite Hm'. cbn. by rewrite E1, E3. }
    cbn [msgs set_procs wake_rwait set_queues set_totals set_msgs]. rewrite X, lookup_fmap. cbn [procs wake_rwait set_procs set_queues set_totals set_msgs]. rewrite Idle. apply eff_send. by apply contents_lookup.
Qed.

Lemma msgsnd_recheck_safe p h msqid mtype text :
  (forall p', get (msgque st) (msqid mod MSGMNI) = Some (Ptr p') -> is_Some (queues st !! p)) ->
  0 < h < brk st -> msgs st !! h = None -> safe c e (Sends p mtype text) st L (msgsnd_recheck c st h p msqid mtype text).
Proof.
  intros G Hb Hh. unfold msgsnd_recheck. destruct (slot_get st L I _ (mod_range msqid)) as [s Hs]. rewrite Hs. cbn [mbind option_bind].
  destruct s as [| |p']; [fails..|]. destruct (G p' Hs) as [msq Hq]. rewrite Hq. cbn [mbind option_bind].
  destruct (stale msqid msq); [fails|by apply msgsnd_add_safe].
Qed.
End Send.

Lemma msgsnd_link_safe e c st L p msqid mtype text : inv st L -> procs st !! pid c = None ->
  (forall p', get (msgque st) (msqid mod MSGMNI) = Some (Ptr p') -> is_Some (queues st !! p)) ->
  safe c e (Sends p mtype text) st L (msgsnd_link c st p msqid mtype text).
Proof.
  intros I Idle G. unfold msgsnd_link. destruct (kmalloc st) as [[h st1]|] eqn:Ek; [|fails].
  destruct (kmalloc_inv _ _ _ _ I Ek) as (I1 & -> & Eb & Et & Eq & Em & Ep).
  unfold safe. replace (contents st L) with (contents st1 L) by (unfold contents; by rewrite Em).
  assert (S := i_stored _ _ I). apply msgsnd_recheck_safe; [done|by rewrite Ep|by rewrite Et, Eq| |].
  - assert (B := s_brk _ _ _ _ S). lia.
  - rewrite Em. destruct (msgs st !! brk st) as [m|] eqn:E; [|done]. apply (s_msgs _ _ _ _ S) in E as [? _]. lia.
Qed.

(** ** Receiving *)

(** The types a call of [msgrcv] accepts. *)
Definition wants (msgtyp msgflg t : Z) : bool :=
  if msgtyp =? 0 then true
  else if 0 <? msgtyp then (if has msgflg MSG_EXCEPT then negb (t =? msgtyp) else t =? msgtyp)
  else t <=? s32 (- msgtyp).

Lemma index_of_none_iff P ts : index_of P ts = None <-> forall t, t ∈ ts -> P t = false.
Proof.
  induction ts as [|u ts IH]; cbn; [split; [by intros _ ? ?%elem_of_nil|done]|].
  destruct (P u) eqn:E.
  - split; [done|]. intros H. rewrite H in E by left. done.
  - destruct (index_of P ts) as [i|].
    + split; [done|]. intros H. destruct IH as [_ IH]. rewrite IH; [done|]. intros t Ht. apply H. by right.
    + split; [|done]. intros _ t [-> |Ht]%elem_of_cons; [done|]. by apply IH.
Qed.

Lemma least_le t ts u : u ∈ t :: ts -> least t ts <= u.
Proof.
  revert t u. induction ts as [|v ts IH]; intros t u; unfold least in *; cbn.
  - intros ->%list_elem_of_singleton. lia.
  - assert (M : foldl Z.min (Z.min t v) ts <= Z.min t v) by (apply IH; left).
    rewrite !elem_of_cons. intros [-> |[-> |H]]; [lia|lia|]. apply IH. by right.
Qed.

Lemma pick_none msgtyp msgflg ts : pick_msg msgtyp msgflg ts = None <-> forall t, t ∈ ts -> wants msgtyp msgflg t = false.
Proof.
  unfold pick_msg, wants. destruct (msgtyp =? 0); [apply index_of_none_iff|].
  destruct (0 <? msgtyp). { destruct (has _ _); apply index_of_none_iff. }
  destruct ts as [|u ts]; [split; [by intros _ ? ?%elem_of_nil|done]|].
  destruct (Z.leb_spec (least u ts) (s32 (- msgtyp))) as [Le|Gt].
  - split; [intros H; exfalso; by eapply index_of_none, least_in|].
    intros H. specialize (H _ (least_in u ts)). apply Z.leb_gt in H. lia.
  - split; [|done]. intros _ t Ht. apply least_le in Ht. apply Z.leb_gt. lia.
Qed.

Lemma pick_some msgtyp msgflg ts i : pick_msg msgtyp msgflg ts = Some i -> (i < length ts)%nat.
Proof.
  intros H. assert (exists P, index_of P ts = Some i) as [P HP].
  { unfold pick_msg in H. destruct (msgtyp =? 0); [by eexists|]. destruct (0 <? msgtyp); [destruct (has _ _); by eexists|].
    destruct ts; [done|]. destruct (_ <=? _); [by eexists|done]. }
  apply index_of_lt in HP as (t & Ht & _). by eapply lookup_lt_Some.
Qed.

(** The queue after the message [nmsg] was taken off: [l'] is left. *)
Lemma stored_take q ms bk L p msq l1 nmsg l2 ms' msq' l' ms'' : stored q ms bk L -> L !! p = Some (l1 ++ nmsg :: l2) ->
  q !! p = Some msq -> chain ms' (msg_first msq') l' -> (l' <> [] -> list.last l' = Some (msg_last msq')) ->
  msg_qnum msq' = u16 (Z.of_nat (length l')) -> l' = l1 ++ l2 \/ l' = [] ->
  (forall x, same_body ms ms' x) -> (forall x, x ∉ l1 ++ nmsg :: l2 -> ms' !! x = ms !! x) ->
  ms'' = ms' \/ ms'' = delete nmsg ms' ->
  stored (<[p := msq']> q) ms'' bk (<[p := l']> L).
Proof.
  intros S Hl Hq C La Qn Hl' Sb Oth Hms. destruct (s_q _ _ _ _ S p msq _ Hq Hl) as [_ QN _ QM].
  assert (Nn : (nmsg ∉ l1 ++ l2) /\ NoDup (l1 ++ l2)).
  { apply list.NoDup_app in QN as (N1 & N2 & N3). apply list.NoDup_cons in N3 as [N3 N4]. split.
    - rewrite elem_of_app. intros [H|H]; [|done]. apply (N2 _ H). left.
    - apply list.NoDup_app. split; [done|]. split; [|done]. intros x Hx Hx'. apply (N2 x Hx). by right. }
  assert (Keep : forall x, x <> nmsg -> ms'' !! x = ms' !! x).
  { intros x Hx. destruct Hms as [-> | ->]; [done|]. by rewrite lookup_delete_ne. }
  assert (In : forall x, x ∈ l' -> x ∈ l1 ++ l2) by (destruct Hl' as [-> | ->]; [done|by intros ? ?%elem_of_nil]).
  eapply (stored_update _ _ _ _ _ msq (l1 ++ nmsg :: l2)); [exact S|exact Hl| | |reflexivity| | |exact Hq].
  - split; [| |exact La|exact Qn].
    + eapply msgs_ext; [exact C|]. intros x Hx. apply Keep. intros ->. by apply Nn, In.
    + destruct Hl' as [-> | ->]; [by apply Nn|apply list.NoDup_nil; done].
  - intros a Ha. left. apply In in Ha. rewrite elem_of_app in *. destruct Ha; [by left|]. right. by right.
  - intros a k r Nr Hk Ha. assert (Na : a ∉ l1 ++ nmsg :: l2) by (intros Ha'; apply Nr; by eapply (s_disj _ _ _ _ S)).
    rewrite Keep; [by apply Oth|]. intros ->. apply Na, elem_of_app. right. left.
  - intros a m Ha. apply (same_body_ts _ _ _ _ ms' _ _ S (Sb a)).
    destruct Hms as [-> | ->]; [done|]. by apply lookup_delete_Some in Ha as [_ Ha].
Qed.

Lemma kfree_msg_spec a size st m : msgs st !! a = Some m ->
  exists ms, kfree_msg a size st = Some (set_msgs ms st) /\ (ms = msgs st \/ ms = delete a (msgs st)).
Proof.
  intros H. unfold kfree_msg. rewrite H. cbn [mbind option_bind]. destruct (_ =? _).
  - exists (delete a (msgs st)). auto.
  - exists (msgs st). destruct st. auto.
Qed.

(** Sleeping receivers find no more than before, and writers are only woken. *)
Lemma wok_received st st' L p l l' pr : (forall r, kept st st' r) -> L !! p = Some l ->
  (forall t, t ∈ types (msgs st') l' -> t ∈ types (msgs st) l) ->
  (forall r k, r <> p -> L !! r = Some k -> types (msgs st') k = types (msgs st) k) ->
  wok st L pr -> wok st' (<[p := l']> L) (wake_w p pr).
Proof.
  intros HK Hl Hsub HQ W. apply wok_wake_w. eapply (wok_ext st); [by intros r _| |exact W].
  intros r k _ Hk. destruct (decide (r = p)) as [-> |N].
  - exists l'. rewrite lookup_insert_eq. split; [done|]. intros ty fl. rewrite !pick_none. intros H t Ht.
    rewrite Hl in Hk. injection Hk as <-. by apply H, Hsub.
  - exists k. rewrite lookup_insert_ne by done. split; [done|]. intros ty fl. by rewrite (HQ r k).
Qed.

Lemma content_fst ms l : (content ms l).*1 = types ms l.
Proof. unfold content, types. rewrite <- list_fmap_compose. done. Qed.

Lemma NoDup_middle_notin (l1 : list Z) x l2 : NoDup (l1 ++ x :: l2) -> x ∉ l1 ++ l2.
Proof.
  intros H. apply list.NoDup_app in H as (_ & N2 & N3). apply list.NoDup_cons in N3 as [N3 _].
  rewrite elem_of_app. intros [H|H]; [|done]. apply (N2 _ H). left.
Qed.

Lemma eff_taken e st L msgtyp msgflg p l1 nmsg l2 l' m msgsz : L !! p = Some (l1 ++ nmsg :: l2) -> msgs st !! nmsg = Some m ->
  pick_msg msgtyp msgflg (types (msgs st) (l1 ++ nmsg :: l2)) = Some (length l1) -> 0 <= msgsz ->
  l' = l1 ++ l2 \/ l' = [] /\ u16 (Z.of_nat (length (l1 ++ l2))) = 0 -> msg_ts m = Z.of_nat (length (msg_text m)) ->
  msg_ts m <= msgsz \/ has msgflg MSG_NOERROR = true ->
  effect e (Receives p msgsz msgtyp msgflg) (contents st L) (<[p := content (msgs st) l']> (contents st L))
    (Got (if msg_ts m <? msgsz then msg_ts m else msgsz) (msg_type m)
       (take (Z.to_nat (if msg_ts m <? msgsz then msg_ts m else msgsz)) (msg_text m))) None.
Proof.
  intros Hl Hm Hp H0 Hl' Ts Ne.
  assert (E : content (msgs st) (l1 ++ nmsg :: l2) = content (msgs st) l1 ++ (msg_type m, msg_text m) :: content (msgs st) l2).
  { unfold content. rewrite fmap_app. cbn. unfold type_of, text_of. by rewrite Hm. }
  eapply eff_recv; [by rewrite <- E; apply contents_lookup| | | |].
  - rewrite <- E, content_fst. unfold content. by rewrite length_fmap.
  - destruct Hl' as [-> |[-> H]]; [left; unfold content; by rewrite fmap_app|right]. split; [done|].
    unfold content. rewrite <- fmap_app, length_fmap. exact H.
  - case_bool; lia.
  - destruct Ne; [left; case_bool; lia|by right].
Qed.

Section Receive.
Context (e : Z) (c : cred) (st : mst) (L : gmap Z (list Z)) (msgtyp msgflg : Z).
Context (I : inv st L) (Idle : procs st !! pid c = None).

Lemma msgrcv_take_safe p msq l1 nmsg l2 m msgsz : queues st !! p = Some msq -> L !! p = Some (l1 ++ nmsg :: l2) ->
  msgs st !! nmsg = Some m -> 0 <= msgsz -> pick_msg msgtyp msgflg (types (msgs st) (l1 ++ nmsg :: l2)) = Some (length l1) ->
  msg_ts m <= msgsz \/ has msgflg MSG_NOERROR = true -> safe c e (Receives p msgsz msgtyp msgflg) st L (msgrcv_take c st p msq nmsg msgsz m).
Proof.
  intros Hq Hl Hm H0 Hp Ne. destruct I as [T S P]. assert (Q := s_q _ _ _ _ S p msq _ Hq Hl). unfold msgrcv_take.
  destruct (unlink_spec st msq _ l1 nmsg l2 m Q eq_refl Hm) as (msq' & ms' & -> & R & C & La & Hm' & Sb & Oth).
  cbn [mbind option_bind]. injection R as R1 R2 R3 R4 R5 R6 R7 R8 R9.
  set (n := if msg_ts m <? msgsz then msg_ts m else msgsz). set (qn := u16 (msg_qnum msq' - 1)).
  match goal with |- context [kfree_msg nmsg ?s ?x] =>
    destruct (kfree_msg_spec nmsg s x m) as (ms'' & -> & Hms); [done|] end.
  set (l' := if qn =? 0 then [] else l1 ++ l2).
  assert (Nn : forall r k, r <> p -> L !! r = Some k -> nmsg ∉ k).
  { intros r k Nr Hk Hin. apply Nr. eapply (s_disj _ _ _ _ S); [exact Hk|exact Hl|exact Hin|]. apply elem_of_app. right. left. }
  assert (Ext : forall k, nmsg ∉ k -> content ms'' k = content (msgs st) k /\ types ms'' k = types (msgs st) k).
  { intros k Hk. apply content_ext. intros x Hx. cbn in Hms. destruct Hms as [-> | ->]; [apply Sb|].
    unfold same_body. rewrite lookup_delete_ne by (intros ->; done). apply Sb. }
  destruct Q as [QC QN QL QM].
  assert (En : qn = u16 (Z.of_nat (length (l1 ++ l2)))).
  { unfold qn. rewrite R6, QM. rewrite <- Z.add_opp_r, u16_add, !length_app. cbn. f_equal. lia. }
  assert (Hn : nmsg ∉ l').
  { unfold l'. destruct (qn =? 0); [apply not_elem_of_nil|]. by apply NoDup_middle_notin. }
  assert (Cl : content ms'' l' = content (msgs st) l' /\ types ms'' l' = types (msgs st) l') by (by apply Ext).
  eexists _, _, (<[p := l']> L). split; [done|]. unfold leave. cbn [procs wake_wwait set_procs set_queues set_totals set_msgs].
  rewrite delete_id by (rewrite lookup_fmap; cbn; by rewrite Idle). split.
  - split.
    + eapply (tbl_queue st _ p msq); [exact T|exact Hq| |done..|]; [cbn; by rewrite R1|]. cbn. apply tprocs_fmap. apply tproc_wake_w.
    + cbn. eapply (stored_take _ _ _ _ _ msq l1 nmsg l2 ms'); [exact S|exact Hl|exact Hq| | | | |exact Sb|exact Oth|exact Hms].
      * cbn. unfold l'. by destruct (qn =? 0).
      * cbn. unfold l'. by destruct (qn =? 0).
      * cbn. unfold l'. destruct (Z.eqb_spec qn 0) as [->|]; [done|exact En].
      * unfold l'. destruct (qn =? 0); auto.
    + cbn. apply map_Forall_fmap. intros k pr Hk. specialize (P k pr Hk). cbn. eapply wok_received; [| exact Hl| | |exact P].
      * intros r. eapply (kept_queue st _ p msq); [done|done|exact Hq|cbn; by rewrite R1].
      * cbn. destruct Cl as [_ ->]. unfold l', types. destruct (qn =? 0); [by intros ? ?%elem_of_nil|].
        intros t. rewrite !fmap_app, fmap_cons, !elem_of_app, elem_of_cons. tauto.
      * intros r k' Nr Hk'. apply Ext. by apply (Nn r).
  - erewrite contents_insert by (intros r k Nr Hk; apply Ext; by apply (Nn r)).
    cbn [msgs procs set_procs wake_wwait set_queues set_totals set_msgs]. destruct Cl as [-> _]. rewrite lookup_fmap. cbn [procs set_queues set_totals set_msgs]. rewrite Idle.
    apply (eff_taken e st L msgtyp msgflg p l1 nmsg l2); try done; [|apply (s_msgs _ _ _ _ S nmsg m Hm)].
    unfold l'. destruct (Z.eqb_spec qn 0) as [E|]; [right|by left]. split; [done|]. rewrite <- En in *. exact E.
Qed.

Lemma msgrcv_round_safe p msqid msgsz : known st p msqid -> 0 <= msgsz ->
  safe c e (Receives p msgsz msgtyp msgflg) st L (msgrcv_round c st p msqid msgsz msgtyp msgflg).
Proof.
  intros K H0. unfold msgrcv_round. assert (K' := K). destruct K' as (msq & Hq & _). rewrite Hq. cbn [mbind option_bind].
  destruct (stale msqid msq) eqn:E; [fails|]. destruct (negb _); [fails|].
  assert (S := i_stored _ _ I). destruct (proj2 (s_dom _ _ _ _ S p)) as [l Hl]; [by rewrite Hq|].
  destruct (s_q _ _ _ _ S p msq l Hq Hl) as [C ND _ _]. rewrite (select_spec st msq l msgtyp msgflg C ND). cbn [mbind option_bind].
  destruct (pick_msg msgtyp msgflg (types (msgs st) l)) as [i|] eqn:Hp.
  - assert (Hi := pick_some _ _ _ _ Hp). unfold types in Hi. rewrite length_fmap in Hi.
    destruct (lookup_lt_is_Some_2 l i Hi) as [a Ha]. destruct (chain_in _ _ _ a C) as [Na [m Hm]]; [by eapply list_elem_of_lookup_2|].
    replace (addr l (Some i)) with a by (unfold addr; cbn; by rewrite Ha). destruct (Z.eqb_spec a 0); [done|]. cbn [negb].
    rewrite Hm. cbn [mbind option_bind]. destruct (_ && _) eqn:Big; [fails|].
    assert (El : l = take i l ++ a :: drop (Datatypes.S i) l) by (symmetry; by apply take_drop_middle).
    assert (Li : length (take i l) = i) by (rewrite length_take; lia).
    eapply msgrcv_take_safe; [done| |exact Hm|done| |]; [by rewrite <- El|by rewrite <- El, Li|].
    apply andb_false_iff in Big as [B|B]; [left; by apply Z.ltb_ge|right; by apply negb_false_iff].
  - cbn. destruct (has _ _); [fails|]. destruct (pending c); [fails|].
    destruct (bound_known st _ _ _ Hq K E). apply safe_block; try done; [split; [done|]; split; [done|]; by exists l|].
    exists (content (msgs st) l). rewrite content_fst. split; [by apply contents_lookup|done].
Qed.

Definition receives (s : option slot) (msgsz : Z) : req :=
  match s with Some (Ptr p) => Receives p msgsz msgtyp msgflg | _ => Refused end.

Lemma msgrcv_safe msqid msgp msgsz : safe c e (receives (get (msgque st) (msqid mod MSGMNI)) msgsz) st L (sys_msgrcv c st msqid msgp msgsz msgtyp msgflg e).
Proof.
  unfold sys_msgrcv. destruct (_ || _) eqn:E; [fails|]. apply orb_false_iff in E as [_ E%Z.ltb_ge].
  destruct (msgp =? 0); [fails|]. destruct (Z.eqb_spec e 0); cbn [negb]; [|fails].
  destruct (slot_get st L I _ (mod_range msqid)) as [s Hs]. rewrite Hs. cbn [mbind option_bind]. destruct s as [| |p]; try fails.
  apply msgrcv_round_safe; [by eapply known_slot|done].
Qed.
End Receive.
End MsgSafe.
