(* ===== verification/MsgFree.v ===== *)
(** * Making and removing message queues keeps the invariant ([src/ipc/msg.c])

    [newque] after its [kmalloc], [freeque] with its loop that waits until nobody
    sleeps on the queue, and [msgctl]. *)

From S2P Require Import Prelude Ipc IpcTable Msg MsgInv MsgSafe.
From Stdlib Require Import ZArith Lia.
From stdpp Require Import base list gmap numbers.
Local Open Scope Z_scope.

Module MsgFree.
Import Ipc IpcTable Msg MsgInv MsgSafe.

(** ** Freeing the messages of a queue *)

Lemma free_msgs_spec : forall l a fuel st, chain (msgs st) a l -> NoDup l -> (length l < fuel)%nat ->
  exists hd ms, free_msgs fuel a st = Some (set_msgs ms (set_totals (msgbytes st) hd st))
    /\ forall x, ms !! x = if decide (x ∈ l) then None else msgs st !! x.
Proof.
  induction l as [|y l IH]; intros a fuel st C ND F; (destruct fuel as [|fuel]; [cbn in F; lia|]); cbn [free_msgs].
  - cbn in C. subst a. exists (msghdrs st), (msgs st). split; [by destruct st|]. intros x.
    rewrite decide_False by apply not_elem_of_nil. done.
  - destruct C as (-> & Ny & m & Hm & C). destruct (Z.eqb_spec y 0); [done|]. rewrite Hm. cbn [mbind option_bind].
    unfold kfree_msg. cbn [msgs set_totals]. rewrite Hm. cbn [mbind option_bind]. rewrite Z.eqb_refl.
    apply list.NoDup_cons in ND as [Hy ND].
    destruct (IH (msg_next m) fuel (set_msgs (delete y (msgs st)) (set_totals (msgbytes st) (s32 (msghdrs st - 1)) st)))
      as (hd & ms & -> & Hms); [|done|cbn in F; lia|].
    { cbn. eapply msgs_ext; [exact C|]. intros x Hx. apply lookup_delete_ne. by intros ->. }
    exists hd, ms. split; [done|]. intros x. rewrite Hms. cbn. destruct (decide (x ∈ l)) as [Hx|Hx].
    + rewrite decide_True; [done|by right].
    + destruct (decide (x ∈ y :: l)) as [[-> |?]%elem_of_cons|Hx']; [apply lookup_delete_eq|done|].
      apply lookup_delete_ne. intros ->. apply Hx'. left.
Qed.

(** The invariant without the queue [p]. *)
Lemma stored_delete q ms bk L p l ms' : stored q ms bk L -> L !! p = Some l ->
  (forall x, ms' !! x = if decide (x ∈ l) then None else ms !! x) -> stored (delete p q) ms' bk (delete p L).
Proof.
  intros [S1 S2 S3 S4 S5] Hl Hms. split; [| | | |done].
  - intros r. destruct (decide (r = p)) as [-> |N]; [by rewrite !lookup_delete_eq|]. by rewrite !lookup_delete_ne.
  - intros r msq k [Nr Hr]%lookup_delete_Some [_ Hk]%lookup_delete_Some. destruct (S2 r msq k Hr Hk) as [C ND La Nu].
    split; try done. eapply msgs_ext; [exact C|]. intros x Hx. rewrite Hms, decide_False; [done|].
    intros Hx'. apply Nr. by eapply S3.
  - intros r1 r2 k1 k2 a [_ H1]%lookup_delete_Some [_ H2]%lookup_delete_Some. by apply S3.
  - intros a m. rewrite Hms. destruct (decide (a ∈ l)); [done|]. apply S4.
Qed.

Lemma contents_delete st st' L p l : L !! p = Some l -> (forall q k, q <> p -> L !! q = Some k -> content (msgs st') k = content (msgs st) k) ->
  contents st' (delete p L) = delete p (contents st L).
Proof.
  intros Hl H. unfold contents. apply map_eq. intros r. destruct (decide (r = p)) as [-> |N].
  - by rewrite lookup_fmap, !lookup_delete_eq.
  - rewrite lookup_fmap, !lookup_delete_ne, lookup_fmap by done. destruct (L !! r) as [k|] eqn:E; [|done]. cbn. f_equal. by eapply H.
Qed.

(** ** Waking *)

Lemma woken_same p st : queued p st = false -> wake_wwait p (wake_rwait p st) = st.
Proof.
  intros H. unfold wake_wwait, wake_rwait, set_procs. cbn. destruct st as [a b hd sq us mx q ms ps m bk]. cbn in *. f_equal.
  apply map_eq. intros k. rewrite !lookup_fmap. destruct (ps !! k) as [pr|] eqn:E; [|done]. cbn. f_equal.
  assert (O := queued_none p _ k pr H E). destruct pr; cbn in *; try done; by rewrite O, orb_false_r.
Qed.

Definition woken (p : Z) (c : cred) (st : mst) : mst := enter c (MFreeque p) (wake_wwait p (wake_rwait p st)).

Lemma tprocs_wake p (ps : gmap Z mproc) : omap tproc (wake_w p <$> (wake_r p <$> ps)) = omap tproc ps.
Proof. rewrite !tprocs_fmap; [done|apply tproc_wake_r|apply tproc_wake_w]. Qed.

Lemma freeque_wait_safe e c st L p : procs st !! pid c = None -> inv (woken p c st) L ->
  safe c e (Removes p) st L (freeque_wait c st p).
Proof.
  intros Idle I. unfold freeque_wait. destruct (queued p st) eqn:Qd.
  { exists (woken p c st), Blocked, L. split; [done|]. split; [done|]. cbn [woken procs enter set_procs]. rewrite lookup_insert_eq. by apply (eff_blocked e (Removes p)). }
  unfold woken in I. rewrite woken_same in I by done. destruct I as [[us T] S P]. cbn in T, S, P.
  rewrite msg_tprocs_insert in T by done. cbn in T.
  destruct (t_free _ _ _ _ _ _ _ _ T (pid c) p (lookup_insert_eq _ _ _)) as [[x Hx] Nl].
  rewrite lookup_fmap in Hx. destruct (queues st !! p) as [msq|] eqn:Hq; [|done]. cbn [mbind option_bind].
  destruct (proj2 (s_dom _ _ _ _ S p)) as [l Hl]; [by rewrite Hq|]. destruct (s_q _ _ _ _ S p msq l Hq Hl) as [C ND _ _].
  destruct (free_msgs_spec l (msg_first msq) (msg_fuel st) st C ND (chain_fuel st _ l C ND)) as (hd & ms & -> & Hms).
  cbn [mbind option_bind]. unfold ret. rewrite msg_leave_idle by exact Idle.
  assert (Ext : forall r k, r <> p -> L !! r = Some k -> content ms k = content (msgs st) k /\ types ms k = types (msgs st) k).
  { intros r k Nr Hk. apply content_ext. intros y Hy. unfold same_body. rewrite Hms, decide_False; [done|].
    intros Hy'. apply Nr. by eapply (s_disj _ _ _ _ S). }
  eexists _, _, (delete p L). split; [done|]. split.
  - split.
    + exists us. cbn. rewrite fmap_delete. rewrite <- (delete_insert_id (omap tproc (procs st)) (pid c) (inr p))
        by (by rewrite lookup_omap, Idle).
      apply (table_kfree _ _ _ _ _ _ _ _ T), lookup_insert_eq.
    + by eapply (stored_delete _ _ _ _ _ l).
    + intros k pr Hk. cbn in Hk. assert (O := queued_none p st k pr Qd Hk).
      eapply (wok_ext (enter c (MFreeque p) st) _ L); [| |apply (P k); by rewrite lookup_insert_ne by congruence].
      * intros r Hr m Hm. exists m. cbn in *. rewrite lookup_delete_ne by congruence. done.
      * intros r k' Hr Hk'. exists k'. assert (r <> p) by congruence. rewrite lookup_delete_ne by done. split; [done|].
        cbn. by rewrite (proj2 (Ext r k' ltac:(done) Hk')).
  - cbn [procs set_queues set_msgs set_totals]. rewrite Idle. erewrite contents_delete; [apply eff_free|exact Hl|]. intros r k Nr Hk. by apply (Ext r).
Qed.

Lemma inv_wake st L p : inv st L -> inv (wake_wwait p (wake_rwait p st)) L.
Proof.
  intros [[us T] S P]. split; [|exact S|].
  - exists us. cbn. by rewrite tprocs_wake.
  - cbn. apply map_Forall_fmap, map_Forall_fmap. intros k pr Hk. cbn.
    apply (wok_procs st _ L), wok_wake_w, wok_wake_r. by apply (P k).
Qed.

(** ** Removal *)

Section Remove.
Context (c : cred) (st : mst) (L : gmap Z (list Z)).
Context (I : inv st L) (Idle : procs st !! pid c = None).

(** The processes on the queue [p] that is taken out of the table are awake and can
    tell that it was removed. *)
Lemma wok_removed st' p msq msq' pr : queues st !! p = Some msq -> queues st' = <[p := msq']> (queues st) -> msgs st' = msgs st ->
  0 <= seq (msg_perm msq) < 2 ^ 16 -> seq (msg_perm msq') = u16 (seq (msg_perm msq) + 1) -> linked st p ->
  (forall r, linked st' r <-> r <> p /\ linked st r) -> wok st L pr -> wok st' L (wake_w p (wake_r p pr)).
Proof.
  intros Hq Eq Em Hs Es Lk El. assert (B : forall msqid, bound st p msqid -> bound st' p msqid).
  { intros msqid (m & Hm & Hb). rewrite Hq in Hm. injection Hm as <-. exists msq'. rewrite Eq, lookup_insert_eq. split; [done|].
    apply Hb in Lk. rewrite El. unfold stale in *. rewrite Es. apply negb_false_iff, Z.eqb_eq in Lk. rewrite <- Lk.
    split; [naive_solver|]. intros H%negb_false_iff%Z.eqb_eq. unfold u16 in H.
    destruct (decide (seq (msg_perm msq) + 1 < 2 ^ 16)); [rewrite Z.mod_small in H; lia|].
    replace (seq (msg_perm msq) + 1) with (2 ^ 16) in H by lia. rewrite Z_mod_same_full in H. lia. }
  assert (K : forall r, r <> p -> kept st st' r).
  { intros r N m Hm. exists m. rewrite Eq, lookup_insert_ne by done. split; [done|]. split; [done|]. rewrite El. tauto. }
  destruct pr as [| |q msqid mtype text msgflg aw| |q msqid msgsz msgtyp msgflg aw|]; cbn; try done.
  - intros [H1 H2]. destruct (Z.eqb_spec q p) as [-> |N]; [rewrite orb_true_r; split; [auto|done]|].
    rewrite orb_false_r. split; [by eapply bound_ext; [apply K|]|]. intros Ha. by eapply link_kept; [apply K| |auto].
  - intros (H0 & H1 & l & Hl & H2). split; [done|].
    destruct (Z.eqb_spec q p) as [-> |N]; [rewrite orb_true_r; split; [auto|by exists l]|].
    rewrite orb_false_r. split; [by eapply bound_ext; [apply K|]|]. exists l. split; [done|]. rewrite Em. intros Ha.
    destruct (H2 Ha). split; [by eapply link_kept; [apply K| |]|done].
Qed.

Lemma freeque_safe e id p : get (msgque st) id = Some (Ptr p) -> safe c e (Removes p) st L (freeque c st id p).
Proof.
  intros Hg. destruct (slot_queue st L I id p Hg) as (msq & l & Hq & Hl & Q). destruct I as [[us T] S P].
  unfold freeque. rewrite Hq. cbn [mbind option_bind msgque max_msqid set_totals set_queues].
  destruct (table_max _ _ _ _ _ _ _ _ T id) as (mx & -> & Hmx & Hge). cbn [mbind option_bind].
  destruct (put_of_get _ _ UNUSED _ Hg) as [ary Ha]. rewrite Ha. cbn [mbind option_bind].
  assert (Hs : qshape <$> queues st !! p = Some (1, 1%nat, seq (msg_perm msq))) by (by rewrite Hq).
  rewrite <- lookup_fmap in Hs. assert (Rs := t_ds _ _ _ _ _ _ _ _ T _ _ _ _ Hs). destruct Rs as (_ & _ & Rs & _).
  match goal with |- safe _ _ _ _ _ (freeque_wait c ?x p) => set (st1 := x) end.
  change (safe c e (Removes p) st1 L (freeque_wait c st1 p)). apply freeque_wait_safe; [done|]. split.
  - exists (us - 1). cbn. rewrite msg_tprocs_insert by (rewrite !lookup_fmap; cbn; by rewrite Idle). cbn [tproc].
    rewrite tprocs_wake, fmap_insert. apply (table_unlink _ _ _ _ _ _ _ _ _ T (pid c) id p 1 1%nat _ mx); try done.
    by rewrite lookup_omap, Idle.
  - cbn. rewrite <- (insert_id L p l Hl). eapply (stored_update _ _ _ _ _ msq l); try done; [|auto|apply (s_msgs _ _ _ _ S)].
    destruct Q. by split.
  - cbn. apply map_Forall_insert_2; [done|]. apply map_Forall_fmap, map_Forall_fmap. intros k pr Hk. cbn.
    eapply (wok_removed _ p msq); [exact Hq|done|done|done|done|by exists id| |by apply (P k)].
    intros r. unfold linked. cbn. split.
    + intros [j Hj]. destruct (get_put_other _ _ _ _ _ _ Ha Hj) as [Nj Hj']; [done|]. split; [|by exists j].
      intros ->. apply Nj. by eapply (t_inj _ _ _ _ _ _ _ _ T).
    + intros [Nr [j Hj]]. exists j. rewrite (get_put _ _ _ _ _ Ha). destruct (Z.eqb_spec j id); [congruence|done].
Qed.
End Remove.

Lemma enter_leave c st pr : procs st !! pid c = Some pr -> enter c pr (leave c st) = st.
Proof. intros H. destruct st. unfold enter, leave, set_procs. cbn in *. by rewrite insert_delete_eq, insert_id. Qed.

Lemma leave_none c st : procs (leave c st) !! pid c = None.
Proof. apply lookup_delete_eq. Qed.

Lemma freeque_resume_safe e c st L p : inv st L -> procs st !! pid c = Some (MFreeque p) ->
  safe c e (Removes p) st L (freeque_wait c (leave c st) p).
Proof.
  intros I Hp. change (safe c e (Removes p) (leave c st) L (freeque_wait c (leave c st) p)). apply freeque_wait_safe; [apply leave_none|].
  assert (W := inv_wake st L p I). rewrite <- (enter_leave c st (MFreeque p)) in W at 1 by done.
  unfold woken, enter, wake_wwait, wake_rwait in *. cbn in *. by rewrite !fmap_insert in W.
Qed.

(** ** [newque] after [kmalloc] *)

(** The processes after [newque] woke those that wait for it in [findkey]. *)
Lemma leave_lock (k : Z) (ps : gmap Z mproc) : delete k (wake_lock <$> delete k ps) = wake_lock <$> delete k ps.
Proof. apply delete_id. by rewrite lookup_fmap, lookup_delete_eq. Qed.

Lemma tprocs_lock (k : Z) (ps : gmap Z mproc) : omap tproc (wake_lock <$> delete k ps) = delete k (omap tproc ps).
Proof. rewrite tprocs_fmap by apply tproc_wake_lock. apply omap_delete. Qed.

Lemma wok_leave st L (ps : gmap Z mproc) k : map_Forall (fun _ pr => wok st L pr) ps -> map_Forall (fun _ pr => wok st L pr) (delete k ps).
Proof. intros H j pr [_ Hj]%lookup_delete_Some. by apply (H j). Qed.

Lemma contents_new st st' L p : msgs st' = msgs st -> contents st' (<[p := []]> L) = <[p := []]> (contents st L).
Proof. intros E. unfold contents. by rewrite fmap_insert, E. Qed.

Lemma contents_none st L p : L !! p = None -> contents st L !! p = None.
Proof. intros H. unfold contents. by rewrite lookup_fmap, H. Qed.

Lemma stored_new q ms bk L msq : stored q ms bk L -> q !! bk = None -> msg_first msq = 0 -> msg_qnum msq = 0 ->
  stored (<[bk := msq]> q) ms (bk + 1) (<[bk := []]> L).
Proof.
  intros S Hb Hf Hn. assert (Hl : L !! bk = None).
  { apply eq_None_not_Some. rewrite (s_dom _ _ _ _ S). by rewrite Hb. }
  destruct S as [S1 S2 S3 S4 S5]. split; [| | | |lia].
  - intros r. destruct (decide (r = bk)) as [-> |N]; [by rewrite !lookup_insert_eq|]. by rewrite !lookup_insert_ne.
  - intros r m k. rewrite !lookup_insert_Some. intros [[<- <-]|[N Hr]] [[E <-]|[N' Hk]]; try done; [|by eapply S2].
    split; [done|by apply list.NoDup_nil|done|done].
  - intros r1 r2 k1 k2 a. rewrite !lookup_insert_Some. intros [[<- <-]|[N1 H1]] [[<- <-]|[N2 H2]] Ha Ha'; try by apply elem_of_nil in Ha.
    + by apply elem_of_nil in Ha'.
    + by eapply S3.
  - intros a m Ha. destruct (S4 a m Ha). split; [lia|done].
Qed.

Lemma newque_alloc_safe e c st L id key0 msgflg : inv st L -> procs st !! pid c = Some (MNewque id key0 msgflg) ->
  safe c e Gets st L (newque_alloc c (leave c st) id key0 msgflg).
Proof.
  intros [[us T] S P] Hp. assert (Tp : omap tproc (procs st) !! pid c = Some (inl (id, 1))) by (by rewrite lookup_omap, Hp).
  destruct (t_new _ _ _ _ _ _ _ _ T _ _ _ Tp) as [Hg _]. unfold newque_alloc, kmalloc. cbn [mem leave set_procs].
  destruct (mem st) as [|m].
  - cbn [msgque leave set_procs]. destruct (put_of_get _ _ UNUSED _ Hg) as [ary Ha]. rewrite Ha. cbn [mbind option_bind].
    eexists _, _, L. split; [done|]. split; [|rewrite leave_none; by apply eff_found]. split; [|exact S|].
    + exists (us - 1). cbn. rewrite leave_lock, tprocs_lock. by apply (table_fail _ _ _ _ _ _ _ _ _ T _ id).
    + cbn. rewrite leave_lock. apply map_Forall_fmap. intros k pr [_ Hk]%lookup_delete_Some. cbn. apply wok_wake_lock.
      eapply (wok_ext st); [| |by apply (P k)].
      * intros p _. by eapply kept_table; [|exact Ha|exact Hg| |].
      * intros p l _ Hl. by exists l.
  - cbn [msgque leave set_procs brk msg_seq queues max_msqid used_queues]. destruct (put_of_get _ _ (Ptr (brk st)) _ Hg) as [ary Ha].
    rewrite Ha. cbn [mbind option_bind].
    assert (Hb : queues st !! brk st = None).
    { destruct (queues st !! brk st) as [msq|] eqn:E; [|done]. assert (E' : (qshape <$> queues st) !! brk st = Some (qshape msq)) by (by rewrite lookup_fmap, E).
      apply (t_ds _ _ _ _ _ _ _ _ T) in E'. lia. }
    eexists _, _, (<[brk st := []]> L). split; [done|]. split; [split|].
    + exists us. cbn. rewrite leave_lock, tprocs_lock, fmap_insert. by apply (table_alloc _ _ _ _ _ _ _ _ _ T _ id 1).
    + by apply stored_new.
    + cbn. rewrite leave_lock. apply map_Forall_fmap. intros k pr [_ Hk]%lookup_delete_Some. cbn. apply wok_wake_lock.
      eapply (wok_ext st); [| |by apply (P k)].
      * intros p _ msq Hq. assert (Np : p <> brk st) by congruence. exists msq. cbn. rewrite lookup_insert_ne by done. split; [done|]. split; [done|].
        unfold linked. cbn. split; intros [j Hj]; exists j; rewrite (get_put _ _ _ _ _ Ha) in *; destruct (Z.eqb_spec j id); congruence.
      * intros p l _ Hl. exists l. rewrite lookup_insert_ne; [done|]. intros <-.
        destruct (proj1 (s_dom _ _ _ _ S (brk st))) as [? ?]; [by rewrite Hl|congruence].
    + rewrite (contents_new st), leave_none by done. apply eff_new. apply contents_none. apply eq_None_not_Some.
      rewrite (s_dom _ _ _ _ S). by rewrite Hb.
Qed.

(** ** [msgctl] and any run *)

Lemma msgctl_set_inv c st L p msq tbuf : inv st L -> procs st !! pid c = None -> queues st !! p = Some msq ->
  exists st' r, msgctl_set c st p msq tbuf = Some (st', Ret r, None) /\ inv st' L /\ msgs st' = msgs st /\ procs st' = procs st.
Proof.
  intros I Idle Hq. unfold msgctl_set, ctl. rewrite msg_leave_idle by done. destruct (_ && _); [by eexists _, _|].
  rewrite msg_leave_idle by done. eexists _, _. split; [done|]. split; [|done]. destruct I as [T S P]. split.
  - eapply (tbl_queue st _ p msq); [exact T|exact Hq| |reflexivity|done..]. done.
  - destruct (proj2 (s_dom _ _ _ _ S p)) as [l Hl]; [by rewrite Hq|]. cbn. rewrite <- (insert_id L p l Hl).
    eapply (stored_update _ _ _ _ _ msq l); try done; [|auto|apply (s_msgs _ _ _ _ S)].
    destruct (s_q _ _ _ _ S p msq l Hq Hl). by split.
  - intros k pr Hk. eapply (wok_ext st); [| |by apply (P k)]; [|intros r l _ Hl; by exists l].
    intros r _. eapply (kept_queue st _ p msq); [done|reflexivity|exact Hq|]. done.
Qed.

Section Run.
Context (c : cred) (st : mst) (L : gmap Z (list Z)) (I : inv st L).

(** What a run of [msgctl] needs and yields. *)
Definition safe_ctl (e : Z) (R : req) (r : ctl_result) : Prop :=
  exists st' o out, r = Some (st', o, out) /\ safe c e R st L (Some (st', o)).

Lemma ctl_fails e R r out : procs st !! pid c = None -> r < 0 -> safe_ctl e R (ctl c st r out).
Proof. intros Idle H. eexists _, _, _. split; [done|]. by apply (msg_safe_ret e R c st L I Idle r). Qed.

Lemma ctl_returns e r out : procs st !! pid c = None -> safe_ctl e Controls (ctl c st r out).
Proof. intros Idle. eexists _, _, _. split; [done|]. by apply (safe_return e Controls c st L I Idle r), eff_ctl. Qed.

Definition removes (s : option slot) : req := match s with Some (Ptr p) => Removes p | _ => Refused end.

Lemma msgctl_remove_safe e msqid buf err tbuf : procs st !! pid c = None ->
  safe_ctl e (removes (get (msgque st) (msqid mod MSGMNI))) (sys_msgctl c st msqid IPC_RMID buf err tbuf).
Proof.
  intros Idle. assert (R := fun R r out => ctl_fails e R r out Idle). unfold sys_msgctl.
  destruct (_ || _); [by apply R|]. cbn [IPC_RMID Z.eqb orb andb IPC_INFO MSG_INFO MSG_STAT IPC_SET IPC_STAT].
  destruct (slot_get st L I _ (mod_range msqid)) as [s Hs]. rewrite Hs. cbn [mbind option_bind removes]. destruct s as [| |p]; [by apply R..|].
  destruct (slot_queue st L I _ p Hs) as (msq & l & Hq & _). rewrite Hq. cbn [mbind option_bind].
  destruct (stale msqid msq); [by apply R|]. destruct (_ && _); [by apply R|].
  destruct (freeque_safe c st L I Idle e _ p Hs) as (st' & o & L' & -> & H). cbn [mbind option_bind].
  eexists _, _, _. split; [done|]. by exists st', o, L'.
Qed.

Lemma msgctl_safe e msqid cmd buf err tbuf : procs st !! pid c = None -> cmd <> IPC_RMID -> safe_ctl e Controls (sys_msgctl c st msqid cmd buf err tbuf).
Proof.
  intros Idle Nr. assert (R := fun r out => ctl_returns e r out Idle). unfold sys_msgctl.
  destruct (_ || _) eqn:Neg; [done|]. apply orb_false_iff in Neg as [N%Z.ltb_ge _].
  destruct (_ || _). { unfold msgctl_info. destruct (buf =? 0); [done|]. by destruct (negb _). }
  destruct (cmd =? MSG_STAT).
  { unfold msgctl_stat. destruct (buf =? 0); [done|]. destruct (negb _); [done|]. destruct (Z.ltb_spec (max_msqid st) msqid); [done|].
    destruct (slot_get st L I msqid) as [s Hs]; [assert (M := max_range st L I); lia|]. rewrite Hs. cbn [mbind option_bind].
    destruct s as [| |p]; [done..|]. destruct (slot_queue st L I _ p Hs) as (msq & l & -> & _). cbn [mbind option_bind]. by destruct (negb _). }
  destruct (_ && _); [done|]. destruct (_ && _); [done|].
  destruct (slot_get st L I _ (mod_range msqid)) as [s Hs]. rewrite Hs. cbn [mbind option_bind]. destruct s as [| |p]; [done..|].
  destruct (slot_queue st L I _ p Hs) as (msq & l & Hq & _). rewrite Hq. cbn [mbind option_bind].
  destruct (stale msqid msq); [done|]. destruct (cmd =? IPC_STAT); [by destruct (negb _)|]. destruct (Z.eqb_spec cmd IPC_RMID); [done|].
  destruct (_ || _); [|done]. destruct (_ && _); [done|].
  destruct (msgctl_set_inv c st L p msq tbuf I Idle Hq) as (st' & r & -> & I' & Em & Ep). eexists _, _, _. split; [done|].
  exists st', (Ret r), L. split; [done|]. split; [done|]. rewrite Ep, Idle.
  replace (contents st' L) with (contents st L) by (unfold contents; by rewrite Em). by apply eff_ctl.
Qed.

Lemma inv_leave pr : procs st !! pid c = Some pr -> tproc pr = None -> inv (leave c st) L.
Proof.
  intros Hp Ht. destruct I as [[us T] S P]. split; [|exact S|by apply wok_leave].
  exists us. cbn. rewrite omap_delete, delete_id; [done|]. by rewrite lookup_omap, Hp.
Qed.

(** What a run is for: a call, or the one that the process is in; none if the process
    cannot run. *)
Definition request (k : call) : option req :=
  match k, procs st !! pid c with
  | Msgget _ _, None => Some Gets
  | Msgsnd msqid _ msgsz _ mtype _ text, None => Some (sends (get (msgque st) (msqid mod MSGMNI)) mtype msgsz text)
  | Msgrcv msqid _ msgsz msgtyp msgflg _, None => Some (receives msgtyp msgflg (get (msgque st) (msqid mod MSGMNI)) msgsz)
  | Msgctl msqid cmd _ _ _, None => Some (if cmd =? IPC_RMID then removes (get (msgque st) (msqid mod MSGMNI)) else Controls)
  | Resume, Some pr => if runnable pr then Some (asked pr) else None
  | _, _ => None
  end.

(** The answer of [verify_area] in the call. *)
Definition verified (k : call) : Z :=
  match k with Msgsnd _ _ _ _ _ err _ | Msgrcv _ _ _ _ _ err => err | _ => 0 end.

(** The effect of a run; without a request it has none. *)
Definition ran (e : Z) (R old : option req) (A A' : messages) (o : outcome) (new : option req) : Prop :=
  match R with Some R => effect e R A A' o new | None => A' = A /\ o = Blocked /\ new = old end.

(** A sender that comes back from [kmalloc] finds its queue in memory when the entry
    it came by holds a queue again. *)
Definition guard (k : call) : Prop :=
  match k, procs st !! pid c with
  | Resume, Some (MSndMem p msqid _ _) =>
      forall q, get (msgque st) (msqid mod MSGMNI) = Some (Ptr q) -> is_Some (queues st !! p)
  | _, _ => True
  end.

Lemma msg_resume_safe e pr : procs st !! pid c = Some pr -> guard Resume -> safe c e (asked pr) st L (resume c st pr).
Proof.
  intros Hp G. assert (N := leave_none c st). assert (P := i_procs _ _ I (pid c) pr Hp).
  assert (Q : forall r, tproc pr = None -> (inv (leave c st) L -> safe c e (asked pr) (leave c st) L r) -> safe c e (asked pr) st L r).
  { intros r Ht H. apply H. by apply (inv_leave pr). }
  unfold guard in G. rewrite Hp in G.
  destruct pr as [id key0 fl aw|id key0 fl|p msqid ty text fl aw|p msqid ty text|p msqid sz ty fl aw|p]; cbn [resume].
  - apply Q; [done|]. intros Il. destruct (findkey_ok (leave c st) L Il key0 id) as (f & -> & Hf); [exact P|]. cbn [mbind option_bind].
    by apply msgget_found_safe.
  - by apply newque_alloc_safe.
  - apply Q; [done|]. intros Il. apply msgsnd_slept_safe; [done|done|]. apply known_bound, P.
  - apply Q; [done|]. intros Il. by apply msgsnd_link_safe.
  - apply Q; [done|]. intros Il. apply msgrcv_round_safe; [done|done|apply known_bound, P|apply P].
  - by apply freeque_resume_safe.
Qed.

Lemma asked_rouse pr : asked (rouse pr) = asked pr.
Proof. by destruct pr. Qed.

Lemma msg_signal_inv pr : procs st !! pid c = Some pr -> inv (enter c (rouse pr) st) L.
Proof.
  intros Hp. destruct I as [[us T] S P]. split; [|exact S|].
  - exists us. cbn. replace (omap tproc (<[pid c := rouse pr]> (procs st))) with (omap tproc (procs st)); [exact T|].
    apply map_eq. intros j. rewrite !lookup_omap. destruct (decide (j = pid c)) as [-> |Nj]; [|by rewrite lookup_insert_ne].
    rewrite lookup_insert_eq, Hp. cbn. by rewrite msg_tproc_rouse.
  - apply map_Forall_insert_2; [apply (wok_procs st _ L), wok_rouse; by apply (P (pid c))|exact P].
Qed.

Definition safe_run (k : call) (r : option (mst * outcome)) : Prop :=
  exists st' o L', r = Some (st', o) /\ inv st' L'
    /\ ran (verified k) (request k) (asked <$> procs st !! pid c) (contents st L) (contents st' L') o (asked <$> procs st' !! pid c).

Lemma safe_run_some k R r : request k = Some R -> safe c (verified k) R st L r -> safe_run k r.
Proof. intros E (st' & o & L' & H1 & H2 & H3). exists st', o, L'. unfold ran. by rewrite E. Qed.

Lemma msg_exec_safe k : guard k -> safe_run k (exec c k st).
Proof.
  intros G. assert (Skip : request k = None -> safe_run k (Some (st, Blocked))) by (intros E; exists st, Blocked, L; unfold ran; by rewrite E).
  destruct (procs st !! pid c) as [pr|] eqn:Hp; unfold exec; rewrite Hp; destruct k; try (apply Skip; unfold request; by rewrite ?Hp).
  - destruct (runnable pr) eqn:Rn; [|apply Skip; unfold request; by rewrite Hp, Rn].
    apply (safe_run_some _ (asked pr)); [unfold request; by rewrite Hp, Rn|by apply msg_resume_safe].
  - exists (enter c (rouse pr) st), Blocked, L. split; [done|]. split; [by apply msg_signal_inv|].
    unfold ran, request. rewrite Hp. cbn [procs enter set_procs]. rewrite lookup_insert_eq. cbn. by rewrite asked_rouse.
  - eapply safe_run_some; [unfold request; by rewrite Hp|by apply msgget_safe].
  - eapply safe_run_some; [unfold request; by rewrite Hp|by apply msgsnd_safe].
  - eapply safe_run_some; [unfold request; by rewrite Hp|by apply msgrcv_safe].
  - eapply safe_run_some; [unfold request; by rewrite Hp|]. destruct (Z.eqb_spec cmd IPC_RMID) as [-> |N].
    + destruct (msgctl_remove_safe (verified (Msgctl msqid IPC_RMID buf err tbuf)) msqid buf err tbuf Hp) as (st' & o & out & -> & H). exact H.
    + destruct (msgctl_safe (verified (Msgctl msqid cmd buf err tbuf)) msqid cmd buf err tbuf Hp N) as (st' & o & out & -> & H). exact H.
Qed.
End Run.
End MsgFree.
