(* ===== verification/MsgProps.v ===== *)
(** * The theorems of the message queues ([src/ipc/msg.c])

    [msg_reach] is closed under any sequence of calls, resumptions and signals of any
    processes, but for a sender that comes back from [kmalloc] to a queue that was
    freed meanwhile ([msgsnd_use_after_free]); [kept_reach] excludes that by what the
    table of queues holds.  [abs] reads the messages of every
    queue off the pointers. *)

From S2P Require Import Prelude Ipc IpcTable Msg MsgInv MsgSafe MsgFree.
From Stdlib Require Import ZArith Lia.
From stdpp Require Import base list gmap numbers.
Local Open Scope Z_scope.

Module MsgProps.
Import Ipc IpcTable Msg MsgInv MsgSafe MsgFree.

Inductive msg_reach (m : nat) : mst -> Prop :=
| msg_reach_init : msg_reach m (msg_init m)
| msg_reach_exec c k st st' o : msg_reach m st -> guard c st k -> exec c k st = Some (st', o) -> msg_reach m st'.

(** The messages from [a] on, in order. *)
Fixpoint walk (fuel : nat) (a : Z) (ms : gmap Z msg) : list (Z * list Z) :=
  match fuel with
  | O => []
  | S fuel => match ms !! a with Some m => (msg_type m, msg_text m) :: walk fuel (msg_next m) ms | None => [] end
  end.

Definition abs (st : mst) : messages := (fun msq => walk (msg_fuel st) (msg_first msq) (msgs st)) <$> queues st.

Lemma msg_init_inv m : inv (msg_init m) ∅.
Proof.
  assert (G : forall id s, get (msgque (msg_init m)) id = Some s -> s = UNUSED).
  { intros id s [_ H]%get_lookup. apply list_elem_of_lookup_2, list_elem_of_In in H. by apply repeat_spec in H. }
  split; [|split; [intros p; cbn; rewrite !lookup_empty; split; by intros [? ?]|done|done|done|done]|done].
  exists 0. constructor; try done.
  - intros id p H. by apply G in H.
  - intros id id' p H. by apply G in H.
  - intros id H. by apply G in H.
  - intros p [x H]. by rewrite lookup_fmap in H.
  - intros id p H. by apply G in H.
Qed.

Lemma msg_reach_inv m st : msg_reach m st -> exists L, inv st L.
Proof.
  induction 1 as [|c k st st' o _ [L I] G E]; [exists ∅; apply msg_init_inv|].
  destruct (msg_exec_safe c st L I k G) as (st1 & o1 & L' & E1 & I' & _). rewrite E in E1. injection E1 as <- <-. by exists L'.
Qed.

Lemma walk_chain ms : (ms !! 0 = None) -> forall l a fuel, chain ms a l -> (length l < fuel)%nat -> walk fuel a ms = content ms l.
Proof.
  intros Z0. induction l as [|x l IH]; intros a fuel C F; (destruct fuel as [|fuel]; [cbn in F; lia|]); cbn [walk].
  - cbn in C. subst a. by rewrite Z0.
  - destruct C as (-> & Nx & m & Hm & C). rewrite Hm. unfold content. cbn. unfold type_of, text_of. rewrite Hm. cbn. f_equal.
    apply IH; [done|]. cbn in F. lia.
Qed.

Lemma abs_contents st L : inv st L -> abs st = contents st L.
Proof.
  intros [_ S _]. assert (Z0 : msgs st !! 0 = None).
  { destruct (msgs st !! 0) eqn:E; [|done]. apply (s_msgs _ _ _ _ S) in E. lia. }
  apply map_eq. intros p. unfold abs, contents. rewrite !lookup_fmap.
  destruct (queues st !! p) as [msq|] eqn:Hq; destruct (L !! p) as [l|] eqn:Hl; cbn [fmap option_fmap option_map]; try done.
  - f_equal. destruct (s_q _ _ _ _ S p msq l Hq Hl) as [C ND _ _]. apply walk_chain; [done|done|]. by eapply chain_fuel.
  - destruct (proj2 (s_dom _ _ _ _ S p)) as [? ?]; [by rewrite Hq|congruence].
  - destruct (proj1 (s_dom _ _ _ _ S p)) as [? ?]; [by rewrite Hl|congruence].
Qed.

(** ** Concrete runs *)

Definition guardb (c : cred) (st : mst) (k : call) : bool :=
  match k, procs st !! pid c with
  | Resume, Some (MSndMem p msqid _ _) =>
      match get (msgque st) (msqid mod MSGMNI) with
      | Some (Ptr _) => bool_decide (is_Some (queues st !! p))
      | _ => true
      end
  | _, _ => true
  end.

Lemma guardb_guard c st k : guardb c st k = true -> guard c st k.
Proof.
  unfold guardb, guard. destruct k; try done. destruct (procs st !! pid c) as [[]|]; try done.
  intros H q Hg. rewrite Hg in H. by apply bool_decide_eq_true in H.
Qed.

Fixpoint run_guarded (l : list (cred * call)) (st : mst) : option mst :=
  match l with
  | [] => Some st
  | (c, k) :: l => if guardb c st k then '(st, _) ← exec c k st; run_guarded l st else None
  end.

Definition msg_after (m : nat) (l : list (cred * call)) : mst := default (msg_init m) (run_guarded l (msg_init m)).

Lemma msg_after_reach m l : msg_reach m (msg_after m l).
Proof.
  unfold msg_after. assert (H : forall l st st', msg_reach m st -> run_guarded l st = Some st' -> msg_reach m st').
  { clear l. induction l as [|[c k] l IH]; intros st st' R; cbn; [by intros [= <-]|].
    destruct (guardb c st k) eqn:G; [|done]. destruct (exec c k st) as [[st1 o]|] eqn:E; [|done]. cbn. apply IH.
    eapply msg_reach_exec; [exact R|by apply guardb_guard|exact E]. }
  destruct (run_guarded l (msg_init m)) as [st|] eqn:E; cbn; [|apply msg_reach_init]. by eapply H; [apply msg_reach_init|].
Qed.

Definition s1 : cred := Cred 1 100 100 [] false 10.
Definition s2 : cred := Cred 2 100 100 [] false 11.
Definition r3 : cred := Cred 3 100 100 [] false 12.
Definition no_set : settings := Settings 0 0 0 0.
Definition queue_made : list (cred * call) := [(s1, Msgget 7 (IPC_CREAT + 511)); (s1, Resume)].
Definition sends (c : cred) (mtype : Z) (text : list Z) : list (cred * call) :=
  [(c, Msgsnd 0 4096 (Z.of_nat (length text)) 0 mtype 0 text); (c, Resume)].
Definition two_sent : list (cred * call) := queue_made ++ sends s1 2 [20; 21] ++ sends s2 1 [10].

(** ** Theorems *)
















(** C25: no lost wake-up: a process asleep in [msgrcv] that nobody has made runnable has
    no message to receive, its queue holds none that it wants; nobody sleeps
    unwoken on a queue that was removed. *)
Theorem msg_no_lost_wakeup m st pid0 : msg_reach m st ->
  match procs st !! pid0 with
  | Some (MSleepR p _ _ msgtyp msgflg false) =>
      linked st p /\ exists l, abs st !! p = Some l /\ forall ty tx, (ty, tx) ∈ l -> wants msgtyp msgflg ty = false
  | Some (MSleepW p _ _ _ _ false) => linked st p
  | _ => True
  end.
Proof.
  intros R. destruct (msg_reach_inv m st R) as [L I]. destruct (procs st !! pid0) as [pr|] eqn:Hp; [|done].
  assert (W := i_procs _ _ I pid0 pr Hp). destruct pr as [| |p msqid ty tx fl []| |p msqid sz ty fl []|]; try done.
  - by apply W.
  - destruct W as (_ & _ & l & Hl & H). destruct (H eq_refl) as [H1 H2]. split; [done|].
    exists (content (msgs st) l). split; [rewrite (abs_contents _ _ I); by apply contents_lookup|].
    intros t x Hin. rewrite pick_none in H2. apply H2. rewrite <- content_fst.
    apply list_elem_of_fmap. by exists (t, x).
Qed.

(** The receiver wants a message of type 5. *)
Definition waits : list (cred * call) := two_sent ++ [(r3, Msgrcv 0 4096 10 5 0 0)].

Lemma msg_no_lost_wakeup_witness : procs (msg_after 9 waits) !! 3 = Some (MSleepR 1 0 10 5 0 false) /\ linked (msg_after 9 waits) 1.
Proof.
  assert (Hp : procs (msg_after 9 waits) !! 3 = Some (MSleepR 1 0 10 5 0 false)) by (vm_compute; reflexivity).
  split; [exact Hp|]. assert (H := msg_no_lost_wakeup 9 (msg_after 9 waits) 3 (msg_after_reach 9 waits)).
  rewrite Hp in H. exact (proj1 H).
Defined.

(** ** What the code gets wrong *)

(** A sender waits for memory, the queue is removed and another one is made in its
    entry: the sender then reads the sequence number of the freed queue. *)
Example msgsnd_use_after_free :
  let st := msg_after 9 (queue_made ++ [(s1, Msgsnd 0 4096 1 0 1 0 [5]); (s2, Msgctl 0 IPC_RMID 0 0 no_set);
                                    (s2, Msgget 7 (IPC_CREAT + 511)); (s2, Resume)]) in
  queues st !! 1 = None /\ exec s1 Resume st = None.
Proof. vm_compute. split; reflexivity. Qed.

(** A message that is received cut off ([MSG_NOERROR]) is never freed: [kfree_s] gets
    the caller's size. *)
Example msgrcv_noerror_leaks :
  let st := msg_after 9 (queue_made ++ sends s1 1 [1; 2; 3] ++ [(r3, Msgrcv 0 4096 1 0 MSG_NOERROR 0)]) in
  abs st = {[ 1 := [] ]} /\ size (msgs st) = 1%nat.
Proof. vm_compute. split; reflexivity. Qed.

(** The room in the queue is not tested again after [kmalloc]: two senders overfill it. *)
Example msgsnd_overfills :
  let big := repeat 0 4000 in
  let st := msg_after 9 (queue_made ++ sends s1 1 big ++ sends s1 1 big ++ sends s1 1 big
    ++ [(s1, Msgsnd 0 4096 4000 0 1 0 big); (s2, Msgsnd 0 4096 4000 0 1 0 big); (s1, Resume); (s2, Resume)]) in
  (fun q => (msg_qbytes q, msg_cbytes q)) <$> queues st !! 1 = Some (16384, 20000).
Proof. vm_compute. reflexivity. Qed.

(** A queue being made above [max_msqid] is not seen by [findkey]: two queues get the
    same key. *)
Example msgget_same_key :
  let st := msg_after 9 [(s1, Msgget 8 (IPC_CREAT + 511)); (s1, Resume); (s1, Msgget 7 (IPC_CREAT + 511));
                         (s2, Msgget 7 (IPC_CREAT + 511)); (s1, Resume); (s2, Resume)] in
  omap (fun s => match s with Ptr p => (fun q => key (msg_perm q)) <$> queues st !! p | _ => None end) (msgque st) = [8; 7; 7].
Proof. vm_compute. reflexivity. Qed.
End MsgProps.
