(* ===== verification/Timer.v ===== *)
(** * Kernel timers ([add_timer], [del_timer], [timer_bh] and the timer part of
    [do_timer] in [src/kernel/sched.c], [src/include/linux/timer.h])

    The timer list keeps in every entry the time after the entry before it; it
    is a list here, in the order of the [next] pointers.  [deadlines] is the
    view of a user: every pending timer with the ticks it still has to wait. *)

From S2P Require Import Prelude.
From Stdlib Require Import ZArith Lia.
From stdpp Require Import base list gmap numbers.
Local Open Scope Z_scope.

Module Timer.

Record timer_list := TimerList {
  addr : Z;
  expires : Z;        (* relative to the entry before *)
  data : Z;
  function : Z
}.

Definition set_expires (t : timer_list) (e : Z) : timer_list :=
  TimerList (addr t) e (data t) (function t).

(** [add_timer]: the loop over [p], which rewrites [timer->expires]. *)
Fixpoint add_timer (next_timer : list timer_list) (timer : timer_list) : list timer_list :=
  match next_timer with
  | [] => [timer]
  | p :: rest =>
      if expires timer <? expires p
      then timer :: set_expires p (u32 (expires p - expires timer)) :: rest
      else p :: add_timer rest (set_expires timer (u32 (expires timer - expires p)))
  end.

(** [del_timer]: the list and the timer after it, or [None] when the timer is
    not in the list. [sofar] is the local [expires]. *)
Fixpoint del_timer_loop (next_timer : list timer_list) (a sofar : Z)
  : option (list timer_list * timer_list) :=
  match next_timer with
  | [] => None
  | p :: rest =>
      if addr p =? a then
        Some (match rest with
              | [] => []
              | q :: rest => set_expires q (u32 (expires q + expires p)) :: rest
              end, set_expires p (u32 (expires p + sofar)))
      else
        '(rest, t) ← del_timer_loop rest a (u32 (sofar + expires p));
        Some (p :: rest, t)
  end.

(** Result and list. *)
Definition del_timer (next_timer : list timer_list) (a : Z) : Z * list timer_list :=
  match del_timer_loop next_timer a 0 with
  | Some (l, _) => (1, l)
  | None => (0, next_timer)
  end.

(** The end of [do_timer]: the list, [lost_ticks], and whether the bottom half
    was marked. *)
Definition timer_tick (next_timer : list timer_list) (lost_ticks : Z) : list timer_list * Z * bool :=
  match next_timer with
  | [] => ([], lost_ticks, false)
  | t :: rest =>
      if negb (expires t =? 0) then
        let e := u32 (expires t - 1) in
        (set_expires t e :: rest, lost_ticks, e =? 0)
      else (t :: rest, u32 (lost_ticks + 1), true)
  end.

(** The condition of the first loop of [timer_bh] and the part of its body that
    runs with interrupts off: the timer whose function is called and the list
    without it.  [None] ends the loop. *)
Definition timer_bh_pass (next_timer : list timer_list) : option (timer_list * list timer_list) :=
  match next_timer with
  | t :: rest => if expires t =? 0 then Some (t, rest) else None
  | [] => None
  end.

(** First loop of [timer_bh], when nothing interrupts it.  [fn t] are the timers
    the function of [t] adds; [fired] are the timers whose functions have run. *)
Fixpoint timer_bh_list (fuel : nat) (fn : timer_list -> list timer_list)
    (next_timer fired : list timer_list) : option (list timer_list * list timer_list) :=
  match timer_bh_pass next_timer with
  | Some (t, rest) =>
      match fuel with
      | O => None
      | S fuel => timer_bh_list fuel fn (fold_left add_timer (fn t) rest) (fired ++ [t])
      end
  | None => Some (next_timer, fired)
  end.

(** Second loop of [timer_bh], over the 32 static timers from bit [i] on;
    [mask] is [1 << i] and becomes 0 after bit 31.  The functions leave
    [timer_active] alone; the ones called are returned in order. *)
Fixpoint timer_bh_table (tp : list Z) (i : nat) (jiffies timer_active : Z) (called : list nat)
  : Z * list nat :=
  match tp with
  | [] => (timer_active, called)
  | e :: tp =>
      let mask := 2 ^ Z.of_nat i in
      if timer_active <? mask then (timer_active, called)
      else if negb (has mask timer_active) then timer_bh_table tp (S i) jiffies timer_active called
      else if jiffies <? e then timer_bh_table tp (S i) jiffies timer_active called
      else timer_bh_table tp (S i) jiffies (Z.land timer_active (Z.lnot mask)) (called ++ [i])
  end.

(** ** The list as deadlines *)

Fixpoint deadlines (base : Z) (l : list timer_list) : list (Z * Z) :=
  match l with
  | [] => []
  | t :: l => (addr t, base + expires t) :: deadlines (base + expires t) l
  end.

(** All fields are machine words and so is the last deadline. *)
Definition total (l : list timer_list) : Z := lsum expires l.

Definition wf (l : list timer_list) : Prop :=
  Forall (fun t => 0 <= expires t) l /\ total l < 2 ^ 32.

(** The specification of insertion: before the first later deadline, after all
    equal ones. *)
Fixpoint insert_deadline (x : Z * Z) (l : list (Z * Z)) : list (Z * Z) :=
  match l with
  | [] => [x]
  | y :: l => if x.2 <? y.2 then x :: y :: l else y :: insert_deadline x l
  end.

Lemma deadlines_base d base l : deadlines (base + d) l = (fun x => (x.1, x.2 + d)) <$> deadlines base l.
Proof.
  revert base. induction l as [|t l IH]; intros base; simpl; [done|].
  rewrite <- IH. f_equal; [f_equal; lia|]. f_equal. lia.
Qed.

Lemma total_nonneg l : Forall (fun t => 0 <= expires t) l -> 0 <= total l.
Proof. induction 1 as [|t l H _ IH]; unfold total in *; simpl in *; lia. Qed.

Lemma wf_cons t l : wf (t :: l) -> 0 <= expires t < 2 ^ 32 /\ wf l /\ expires t + total l < 2 ^ 32.
Proof.
  intros [Hf Ht]. apply Forall_cons_iff in Hf as [H1 H2]. pose proof (total_nonneg l H2).
  unfold wf, total in *. simpl in *. split_and!; try done; lia.
Qed.

Lemma wf_cons_intro t l : 0 <= expires t -> Forall (fun t => 0 <= expires t) l ->
  expires t + total l < 2 ^ 32 -> wf (t :: l).
Proof. intros H1 H2 H3. split; [by constructor|]. unfold total in *. simpl. lia. Qed.

(** ** [add_timer] *)

Lemma add_timer_spec l t base :
  wf l -> 0 <= expires t < 2 ^ 32 ->
  deadlines base (add_timer l t) = insert_deadline (addr t, base + expires t) (deadlines base l) /\
  Forall (fun t => 0 <= expires t) (add_timer l t) /\
  total (add_timer l t) = Z.max (total l) (expires t).
Proof.
  revert t base. induction l as [|p l IH]; intros t base Hwf Ht.
  { simpl. split_and!; [done|by constructor; [lia|]|unfold total; simpl; lia]. }
  apply wf_cons in Hwf as (Hp & Hl & Htot). destruct Hl as [Hl1 Hl2]. simpl.
  destruct (Z.ltb_spec (expires t) (expires p)) as [Hlt|Hge].
  - destruct (Z.ltb_spec (base + expires t) (base + expires p)); [|lia]. simpl.
    rewrite u32_small by lia. split_and!.
    + f_equal. f_equal; [f_equal; lia|]. f_equal. lia.
    + repeat constructor; simpl; try lia. done.
    + unfold total in *. simpl. pose proof (total_nonneg l Hl1). unfold total in *. lia.
  - destruct (Z.ltb_spec (base + expires t) (base + expires p)); [lia|]. simpl.
    rewrite u32_small by lia.
    destruct (IH (set_expires t (expires t - expires p)) (base + expires p)) as (Hd & Hf & Hm).
    { by split. } { simpl. lia. }
    rewrite Hd. simpl. split_and!.
    + do 3 f_equal. lia.
    + constructor; [lia|done].
    + unfold total in *. simpl in *. rewrite Hm. simpl. lia.
Qed.

Lemma add_timer_wf l t : wf l -> 0 <= expires t < 2 ^ 32 -> wf (add_timer l t).
Proof.
  intros Hl Ht. destruct (add_timer_spec l t 0 Hl Ht) as (_ & Hf & Hm). split; [done|].
  rewrite Hm. destruct Hl. lia.
Qed.

(** [add_timer] inserts the timer at its deadline, behind the timers with the
    same deadline, and changes the deadline of no other timer: on the list of
    deadlines it is the sorted insertion. *)
Theorem add_timer_refines l t :
  wf l -> 0 <= expires t < 2 ^ 32 ->
  deadlines 0 (add_timer l t) = insert_deadline (addr t, expires t) (deadlines 0 l) /\
  wf (add_timer l t).
Proof.
  intros Hl Ht. split; [|by apply add_timer_wf].
  by destruct (add_timer_spec l t 0 Hl Ht) as (-> & _ & _).
Qed.

Lemma add_timer_refines_witness :
  deadlines 0 (add_timer [TimerList 1 3 0 0; TimerList 2 4 0 0] (TimerList 3 5 0 0))
  = [(1, 3); (3, 5); (2, 7)].
Proof.
  apply (add_timer_refines [TimerList 1 3 0 0; TimerList 2 4 0 0] (TimerList 3 5 0 0)); simpl; [|lia].
  split; [repeat constructor; simpl; lia|vm_compute; reflexivity].
Defined.

(** ** [del_timer] *)

Lemma del_timer_loop_spec l a sofar base :
  wf l -> 0 <= sofar -> sofar + total l < 2 ^ 32 ->
  match del_timer_loop l a sofar with
  | None => a ∉ (deadlines base l).*1
  | Some (l', t) =>
      exists d1 d2, deadlines base l = d1 ++ (a, base + (expires t - sofar)) :: d2 /\
        (a ∉ d1.*1) /\ deadlines base l' = d1 ++ d2 /\ wf l' /\ total l' <= total l
  end.
Proof.
  revert sofar base. induction l as [|p l IH]; intros sofar base Hwf Hs Htot; simpl; [set_solver|].
  pose proof Hwf as (Hp & Hl & Ht)%wf_cons. unfold total in Htot. simpl in Htot. fold (total l) in Htot.
  destruct (Z.eqb_spec (addr p) a) as [->|Hne].
  - exists [], (deadlines (base + expires p) l).
    destruct l as [|q l]; simpl.
    + rewrite u32_small by (unfold total in Htot; simpl in Htot; lia).
      split_and!; [do 2 f_equal; lia|set_solver|done|split; [constructor|done]|unfold total; simpl; lia].
    + destruct Hl as [Hl1 Hl2]. apply Forall_cons_iff in Hl1 as [Hq Hl1].
      pose proof (total_nonneg l Hl1). unfold total in *. simpl in *.
      rewrite !u32_small by lia. split_and!.
      * do 2 f_equal. lia.
      * set_solver.
      * f_equal; [f_equal; lia|]. f_equal. lia.
      * split; [constructor; [simpl; lia|done]|unfold total; simpl; lia].
      * lia.
  - pose proof (total_nonneg l (proj1 Hl)). rewrite u32_small by lia.
    specialize (IH (sofar + expires p) (base + expires p) Hl ltac:(lia) ltac:(lia)).
    destruct (del_timer_loop l a (sofar + expires p)) as [[l' t]|]; simpl.
    + destruct IH as (d1 & d2 & Hd & Hni & Hd' & Hw' & Ht').
      exists ((addr p, base + expires p) :: d1), d2. rewrite Hd, Hd'. split_and!.
      * simpl. do 4 f_equal. lia.
      * simpl. set_solver.
      * done.
      * apply wf_cons_intro; [lia|apply Hw'|lia].
      * unfold total in *. simpl. lia.
    + simpl. set_solver.
Qed.

(** [del_timer] returns 1 exactly when the timer is pending, then takes it out
    and leaves every other deadline as it was; otherwise it changes nothing. *)
Theorem del_timer_refines l a :
  wf l ->
  match del_timer l a with
  | (r, l') =>
      wf l' /\
      (r = 1 /\ (exists d1 d d2, deadlines 0 l = d1 ++ (a, d) :: d2 /\ (a ∉ d1.*1) /\
                   deadlines 0 l' = d1 ++ d2) \/
       r = 0 /\ l' = l /\ a ∉ (deadlines 0 l).*1)
  end.
Proof.
  intros Hl. unfold del_timer.
  pose proof (del_timer_loop_spec l a 0 0 Hl ltac:(lia) ltac:(destruct Hl; lia)) as H.
  destruct (del_timer_loop l a 0) as [[l' t]|]; [|auto].
  destruct H as (d1 & d2 & Hd & Hni & Hd' & Hw & _). split; [done|]. left. split; [done|].
  eexists d1, _, d2. done.
Qed.

Lemma del_timer_refines_witness :
  exists d1 d d2, [(1, 3); (3, 5); (2, 7)] = d1 ++ (3, d) :: d2 /\
    deadlines 0 (del_timer [TimerList 1 3 0 0; TimerList 3 2 0 0; TimerList 2 2 0 0] 3).2 = d1 ++ d2.
Proof.
  pose proof (del_timer_refines [TimerList 1 3 0 0; TimerList 3 2 0 0; TimerList 2 2 0 0] 3) as H.
  destruct H as [_ H]; [split; [repeat constructor; simpl; lia|vm_compute; reflexivity]|].
  destruct H as [(_ & d1 & d & d2 & H1 & _ & H2)|(H & _)]; [|discriminate H].
  exists d1, d, d2. split; [exact H1|exact H2].
Defined.

(** ** Expiry *)

(** A tick when nothing else happens: the end of [do_timer] and, when it was
    marked, [timer_bh] right after it, with functions that add no timers. *)
Definition one_tick (l : list timer_list) : option (list timer_list * list timer_list) :=
  let '(l, _, mark) := timer_tick l 0 in
  if mark then timer_bh_list (length l) (fun _ => []) l [] else Some (l, []).

Fixpoint ticks (n : nat) (l : list timer_list) : option (list timer_list * list timer_list) :=
  match n with
  | O => Some (l, [])
  | S n =>
      '(l, f1) ← one_tick l;
      '(l, f2) ← ticks n l;
      Some (l, f1 ++ f2)
  end.

(** Every expired timer has been run. *)
Definition settled (l : list timer_list) : Prop := Forall (fun x => 0 < x.2) (deadlines 0 l).

Lemma deadlines_ge base l : Forall (fun t => 0 <= expires t) l -> Forall (fun x => base <= x.2) (deadlines base l).
Proof.
  intros Hl. revert base. induction Hl as [|t l H _ IH]; intros base; simpl; [constructor|].
  constructor; [simpl; lia|]. eapply list.Forall_impl; [apply IH|]. simpl. lia.
Qed.

Lemma timer_bh_none l fired fuel :
  Forall (fun t => 0 <= expires t) l -> (length l <= fuel)%nat ->
  exists l' f, timer_bh_list fuel (fun _ => []) l fired = Some (l', fired ++ f) /\
    addr <$> f = (filter (fun x => x.2 <= 0) (deadlines 0 l)).*1 /\
    deadlines 0 l' = filter (fun x => 0 < x.2) (deadlines 0 l) /\
    Forall (fun t => 0 <= expires t) l' /\ total l' = total l.
Proof.
  intros Hl. revert fired fuel. induction Hl as [|t l Ht Hl IH]; intros fired fuel Hf.
  { exists [], []. rewrite app_nil_r. destruct fuel; by split_and!; try constructor. }
  simpl in *. destruct (Z.eqb_spec (expires t) 0) as [E|Hne].
  - destruct fuel as [|fuel]; [simpl in Hf; lia|]. simpl. rewrite E, (proj2 (Z.eqb_eq 0 0) eq_refl).
    destruct (IH (fired ++ [t]) fuel ltac:(simpl in Hf; lia)) as (l' & f & -> & Hf' & Hd & Hnn & Htot).
    exists l', (t :: f). rewrite <- app_assoc. split; [done|].
    rewrite filter_cons_True by (simpl; lia). rewrite filter_cons_False by (simpl; lia).
    split_and!; [by rewrite !fmap_cons, Hf'|done|done|].
    rewrite Htot. unfold total. simpl. lia.
  - exists (t :: l), []. rewrite app_nil_r. assert (Hall : Forall (fun x => 0 < x.2) (deadlines 0 (t :: l))).
    { simpl. constructor; [simpl; lia|]. eapply list.Forall_impl; [apply deadlines_ge, Hl|]. simpl. lia. }
    split.
    { destruct fuel; simpl; by destruct (Z.eqb_spec (expires t) 0). }
    simpl in Hall. rewrite filter_none, (filter_all (fun x => 0 < x.2)); try done.
    + split_and!; try done. by constructor.
    + eapply list.Forall_impl; [exact Hall|]. simpl. lia.
Qed.

Lemma one_tick_spec l :
  wf l -> settled l ->
  exists l' f, one_tick l = Some (l', f) /\ wf l' /\ settled l' /\
    addr <$> f = (filter (fun x => x.2 <= 1) (deadlines 0 l)).*1 /\
    deadlines 0 l' = (fun x => (x.1, x.2 - 1)) <$> filter (fun x => 1 < x.2) (deadlines 0 l).
Proof.
  intros Hwf Hset. unfold one_tick. destruct l as [|t l]; [by exists [], []|].
  apply wf_cons in Hwf as (Ht & Hl & Htot). unfold settled in Hset. cbn [deadlines] in Hset.
  apply Forall_cons_iff in Hset as [Hpos _]. simpl in Hpos.
  simpl timer_tick. destruct (Z.eqb_spec (expires t) 0); [lia|]. cbn [negb]. cbv iota.
  rewrite u32_small by lia. set (t' := set_expires t (expires t - 1)).
  assert (Hd : deadlines 0 (t' :: l) = (fun x => (x.1, x.2 - 1)) <$> deadlines 0 (t :: l)).
  { change (fun x : Z * Z => (x.1, x.2 - 1)) with (fun x : Z * Z => (x.1, x.2 + - 1)).
    rewrite <- (deadlines_base (-1)). simpl. f_equal; [f_equal; lia|]. f_equal. lia. }
  destruct (timer_bh_none (t' :: l) [] (length (t' :: l))) as (l' & f & Hbh & Hf & Hd' & Hnn & Htt).
  { constructor; [simpl; lia|apply Hl]. } { done. }
  assert (Hres : (if expires t - 1 =? 0 then timer_bh_list (length (t' :: l)) (fun _ => []) (t' :: l) []
                  else Some (t' :: l, [])) = Some (l', f)).
  { destruct (Z.eqb_spec (expires t - 1) 0); [exact Hbh|]. simpl in Hbh.
    destruct (Z.eqb_spec (expires t - 1) 0); [lia|done]. }
  exists l', f. split; [exact Hres|]. split_and!.
  - split; [done|]. rewrite Htt. unfold total in *. simpl. lia.
  - unfold settled. rewrite Hd'. apply list.Forall_forall. by intros x [? _]%list_elem_of_filter.
  - rewrite Hf, Hd, (filter_fmap _ _ (fun x : Z * Z => x.2 <= 1)) by (simpl; lia).
    by rewrite <- list_fmap_compose.
  - by rewrite Hd', Hd, (filter_fmap _ _ (fun x : Z * Z => 1 < x.2)) by (simpl; lia).
Qed.

(** Timers come off the list in the order of their deadlines. *)
Lemma deadlines_split base l (a b : Z) :
  Forall (fun t => 0 <= expires t) l -> a <= b ->
  filter (fun x => x.2 <= b) (deadlines base l) =
  filter (fun x => x.2 <= a) (deadlines base l) ++
  filter (fun x => x.2 <= b) (filter (fun x => a < x.2) (deadlines base l)).
Proof.
  intros Hl Hab. revert base. induction Hl as [|t l Ht Hl IH]; intros base; [done|]. simpl.
  destruct (decide (base + expires t <= a)) as [Hle|Hgt].
  - rewrite !(filter_cons_True (fun x => x.2 <= _)) by (simpl; lia).
    rewrite (filter_cons_False (fun x => a < x.2)) by (simpl; lia). simpl. by rewrite <- IH.
  - assert (Hall : Forall (fun x => a < x.2) (deadlines (base + expires t) l)).
    { eapply list.Forall_impl; [by apply deadlines_ge|]. simpl. lia. }
    rewrite (filter_cons_False (fun x => x.2 <= a)) by (simpl; lia).
    rewrite (filter_cons_True (fun x => a < x.2)) by (simpl; lia).
    rewrite (filter_none (fun x => x.2 <= a)) by (eapply list.Forall_impl; [exact Hall|simpl; lia]).
    by rewrite (filter_all (fun x => a < x.2)) by done.
Qed.

(** When nothing else happens: over [n] ticks, each with its bottom half, exactly
    the timers that were due within [n] ticks have run, in the order of their
    deadlines, first added first among equals. *)
Theorem ticks_in_order n l :
  wf l -> settled l ->
  exists l' fired, ticks n l = Some (l', fired) /\
    addr <$> fired = (filter (fun x => x.2 <= Z.of_nat n) (deadlines 0 l)).*1 /\
    deadlines 0 l' = (fun x => (x.1, x.2 - Z.of_nat n)) <$> filter (fun x => Z.of_nat n < x.2) (deadlines 0 l).
Proof.
  revert l. induction n as [|n IH]; intros l Hwf Hset.
  { exists l, []. split; [done|]. split.
    - rewrite filter_none; [done|]. eapply list.Forall_impl; [exact Hset|]. simpl. lia.
    - rewrite filter_all by exact Hset. rewrite <- (list_fmap_id (deadlines 0 l)) at 1.
      apply list_fmap_ext. intros _ [? ?] _. simpl. f_equal. lia. }
  cbn [ticks]. destruct (one_tick_spec l Hwf Hset) as (l1 & f1 & -> & Hwf1 & Hset1 & Hf1 & Hd1). simpl.
  destruct (IH l1 Hwf1 Hset1) as (l2 & f2 & -> & Hf2 & Hd2). simpl.
  exists l2, (f1 ++ f2). split; [done|]. rewrite fmap_app, Hf1, Hf2, Hd2, Hd1.
  rewrite (filter_fmap _ _ (fun x : Z * Z => x.2 <= Z.of_nat (S n))) by (simpl; lia).
  rewrite (filter_fmap _ _ (fun x : Z * Z => Z.of_nat (S n) < x.2)) by (simpl; lia).
  split.
  - rewrite (deadlines_split 0 l 1 (Z.of_nat (S n))) by (apply Hwf || lia).
    by rewrite fmap_app, <- list_fmap_compose.
  - rewrite <- list_fmap_compose, list_filter_filter.
    rewrite (list_filter_iff _ (fun x : Z * Z => Z.of_nat (S n) < x.2)) by (intros; lia).
    apply list_fmap_ext. intros _ [? ?] _. simpl. f_equal. lia.
Qed.

(** ** Any order of events *)

(** Interrupts are on while a timer's function runs, so ticks come between the
    passes of [timer_bh], the bottom half may be late by any number of ticks, and
    the functions and everybody else add and delete timers. *)
Inductive tevent :=
| Tick                         (* the end of [do_timer] *)
| Pass                         (* a pass of [timer_bh] *)
| Add (t : timer_list)
| Del (a : Z).

(** With the list and [lost_ticks]: the ticks so far, and for every function
    that ran its timer with the ticks and [lost_ticks] of that moment. *)
Record tstate := TState {
  next_timer : list timer_list;
  lost_ticks : Z;
  elapsed : Z;
  log : list (Z * Z * Z)
}.

Definition tstep (s : tstate) (e : tevent) : tstate :=
  match e with
  | Tick =>
      let '(l, k, _) := timer_tick (next_timer s) (lost_ticks s) in
      TState l k (elapsed s + 1) (log s)
  | Pass =>
      match timer_bh_pass (next_timer s) with
      | Some (t, l) => TState l (lost_ticks s) (elapsed s) (log s ++ [(addr t, elapsed s, lost_ticks s)])
      | None => s
      end
  | Add t => TState (add_timer (next_timer s) t) (lost_ticks s) (elapsed s) (log s)
  | Del a => TState (del_timer (next_timer s) a).2 (lost_ticks s) (elapsed s) (log s)
  end.

Definition trun (es : list tevent) (s : tstate) : tstate := fold_left tstep es s.

(** A timer is due: [timer_bh] has something to run. *)
Definition due (l : list timer_list) : bool := bool_decide (is_Some (timer_bh_pass l)).

(** No tick comes while a timer is due: the bottom half is never late. *)
Fixpoint prompt (es : list tevent) (s : tstate) : bool :=
  match es with
  | [] => true
  | e :: es =>
      (match e with Tick => negb (due (next_timer s)) | _ => true end) && prompt es (tstep s e)
  end.

(** The event is not about the timer at [a]; a timer that is added has a word as
    its time. *)
Definition apart (a : Z) (e : tevent) : Prop :=
  match e with
  | Add t => addr t <> a /\ 0 <= expires t < 2 ^ 32
  | Del b => b <> a
  | _ => True
  end.

(** The entries of [a] in the list, and in the log. *)
Definition waits (a : Z) (l : list timer_list) : list (Z * Z) := filter (fun x => x.1 = a) (deadlines 0 l).
Definition runs (a : Z) (g : list (Z * Z * Z)) : list (Z * Z * Z) := filter (fun x => x.1.1 = a) g.

(** The ticks that were counted since [lost_ticks] was [k0]. *)
Definition counted (k0 n k : Z) : Z := n - (k - k0).

Lemma waits_add a l t :
  wf l -> 0 <= expires t < 2 ^ 32 ->
  waits a (add_timer l t) = if decide (addr t = a) then filter (fun x => x.1 = a) (insert_deadline (addr t, expires t) (deadlines 0 l)) else waits a l.
Proof.
  intros Hl Ht. unfold waits. destruct (add_timer_spec l t 0 Hl Ht) as (-> & _ & _).
  case_decide as E; [done|]. change (0 + expires t) with (expires t).
  induction (deadlines 0 l) as [|y d IH]; simpl; [by rewrite filter_cons_False|].
  destruct (expires t <? y.2); [by rewrite filter_cons_False|].
  destruct (decide (y.1 = a)); [rewrite !filter_cons_True by done; by rewrite IH|].
  by rewrite !filter_cons_False by done.
Qed.

Lemma insert_alone a d l :
  filter (fun x => x.1 = a) l = [] -> filter (fun x => x.1 = a) (insert_deadline (a, d) l) = [(a, d)].
Proof.
  induction l as [|y l IH]; simpl; [intros _; by rewrite filter_cons_True|].
  destruct (decide (y.1 = a)); [by rewrite filter_cons_True|]. rewrite filter_cons_False by done.
  intros H. destruct (d <? y.2); [rewrite filter_cons_True, filter_cons_False by done; by rewrite H|].
  rewrite filter_cons_False by done. by apply IH.
Qed.

Lemma waits_del a b l : wf l -> b <> a -> wf (del_timer l b).2 /\ waits a (del_timer l b).2 = waits a l.
Proof.
  intros Hl Hb. unfold del_timer.
  pose proof (del_timer_loop_spec l b 0 0 Hl ltac:(lia) ltac:(destruct Hl; lia)) as H.
  destruct (del_timer_loop l b 0) as [[l' t]|]; [|done]. destruct H as (d1 & d2 & Hd & _ & Hd' & Hw & _).
  split; [done|]. unfold waits. simpl. rewrite Hd, Hd', !list.filter_app, filter_cons_False by done. done.
Qed.

Lemma waits_none a l : a ∉ addr <$> l -> filter (fun x => x.1 = a) (deadlines 0 l) = [].
Proof.
  intros Ha. apply filter_none. generalize 0. induction l as [|t l IH]; intros b; simpl in *; [constructor|].
  apply not_elem_of_cons in Ha as [Hne Ha]. constructor; [simpl; congruence|by apply IH].
Qed.

Lemma tick_counts l :
  wf l -> due l = false ->
  exists l', (timer_tick l 0).1.1 = l' /\ wf l' /\ deadlines 0 l' = (fun x => (x.1, x.2 - 1)) <$> deadlines 0 l /\
    Forall (fun x => 0 < x.2) (deadlines 0 l) /\ forall k, (timer_tick l k).1 = (l', k).
Proof.
  intros Hl Hd. destruct l as [|t l]; [exists []; split_and!; done|].
  apply bool_decide_eq_false in Hd. simpl in Hd. pose proof Hl as (Ht & Hwl & Htot)%wf_cons.
  destruct (Z.eqb_spec (expires t) 0) as [|Hne]; [by destruct Hd|]. simpl timer_tick.
  destruct (Z.eqb_spec (expires t) 0); [lia|]. cbn [negb]. cbv iota. rewrite u32_small by lia.
  eexists. split; [done|]. split_and!; [apply wf_cons_intro; simpl; [lia|apply Hwl|lia]| | |done].
  - change (fun x : Z * Z => (x.1, x.2 - 1)) with (fun x : Z * Z => (x.1, x.2 + - 1)).
    rewrite <- (deadlines_base (-1)). simpl. f_equal; [f_equal; lia|]. f_equal. lia.
  - simpl. constructor; [simpl; lia|]. eapply list.Forall_impl; [apply deadlines_ge, Hwl|]. simpl. lia.
Qed.

Lemma waits_later a l r : wf l -> due l = false -> waits a l = [(a, r)] -> 0 < r.
Proof.
  intros Hl Hd Hw. destruct (tick_counts l Hl Hd) as (_ & _ & _ & _ & Hpos & _).
  assert (Hm : (a, r) ∈ waits a l) by (rewrite Hw; apply list_elem_of_here).
  apply list_elem_of_filter in Hm as [_ Hm]. rewrite list.Forall_forall in Hpos. by apply Hpos in Hm.
Qed.

Lemma tick_lost l k : due l = true -> timer_tick l k = (l, u32 (k + 1), true).
Proof.
  intros Hd%bool_decide_eq_true. destruct l as [|t l]; [by destruct Hd|]. simpl in *.
  destruct (expires t =? 0); [done|by destruct Hd].
Qed.

(** The timer at [a] has run once, when [e] ticks were counted, or it waits for
    the rest of them. *)
Definition in_time (a e k0 : Z) (s : tstate) : Prop :=
  (exists n k, runs a (log s) = [(a, n, k)] /\ waits a (next_timer s) = [] /\ counted k0 n k = e) \/
  (runs a (log s) = [] /\ exists r, waits a (next_timer s) = [(a, r)] /\
     0 <= r /\ r = e - counted k0 (elapsed s) (lost_ticks s)).

Definition tinv (k0 : Z) (s : tstate) : Prop :=
  wf (next_timer s) /\ 0 <= k0 <= lost_ticks s /\ lost_ticks s <= k0 + elapsed s.

Lemma in_time_tick a e k0 s :
  tinv k0 s -> k0 + elapsed s + 1 < 2 ^ 32 -> in_time a e k0 s ->
  tinv k0 (tstep s Tick) /\ in_time a e k0 (tstep s Tick).
Proof.
  destruct s as [l k n g]. intros (Hwf & Hk & Hn) Hb Hin. unfold tinv, in_time in *. simpl in *.
  destruct (due l) eqn:Ed.
  - rewrite (tick_lost l k Ed). simpl. rewrite u32_small by lia.
    split; [split_and!; [done|lia..]|]. destruct Hin as [Hin|(Hr & r & Hw & H0 & He)]; [by left|].
    right. split; [done|]. exists r. split_and!; [done..|]. unfold counted in *. lia.
  - destruct (tick_counts l Hwf Ed) as (l' & _ & Hwf' & Hd & Hpos & Ht). specialize (Ht k).
    destruct (timer_tick l k) as [[l1 k1] m]. simpl in Ht. injection Ht as -> ->. simpl.
    assert (Hw' : waits a l' = (fun x => (x.1, x.2 - 1)) <$> waits a l).
    { unfold waits. rewrite Hd. by rewrite (filter_fmap _ _ (fun x : Z * Z => x.1 = a)). }
    split; [split_and!; [done|lia..]|]. rewrite Hw'.
    destruct Hin as [(n' & k' & Hr & Hw & He)|(Hr & r & Hw & H0 & He)]; rewrite Hw.
    { left. by exists n', k'. }
    right. split; [done|]. exists (r - 1). split; [done|].
    pose proof (waits_later a l r Hwf Ed Hw). unfold counted in *. lia.
Qed.

Lemma in_time_pass a e k0 s :
  tinv k0 s -> in_time a e k0 s -> tinv k0 (tstep s Pass) /\ in_time a e k0 (tstep s Pass).
Proof.
  destruct s as [[|t l] k n g]; intros (Hwf & Hk & Hn) Hin; [done|]. unfold tinv, in_time in *. simpl in *.
  destruct (Z.eqb_spec (expires t) 0) as [E|]; [|done]. simpl.
  pose proof Hwf as (_ & Hwl & _)%wf_cons. split; [split_and!; [done|lia..]|].
  assert (Hw : waits a (t :: l) = if decide (addr t = a) then (a, 0) :: waits a l else waits a l).
  { unfold waits. simpl. rewrite E. case_decide; [subst; by rewrite filter_cons_True|by rewrite filter_cons_False]. }
  assert (Hg : runs a (g ++ [(addr t, n, k)]) = if decide (addr t = a) then runs a g ++ [(a, n, k)] else runs a g).
  { unfold runs. rewrite list.filter_app. case_decide; [subst; by rewrite filter_cons_True|].
    rewrite filter_cons_False by done. apply app_nil_r. }
  rewrite Hw in Hin. rewrite Hg. case_decide; [|exact Hin].
  destruct Hin as [(n' & k' & Hr & Hw' & He)|(Hr & r & Hw' & H0 & He)]; [done|].
  injection Hw' as <- Hw'. left. exists n, k. rewrite Hr, Hw'. split_and!; [done..|lia].
Qed.

Lemma in_time_step a e k0 s ev :
  apart a ev -> k0 + elapsed s + 1 < 2 ^ 32 -> tinv k0 s -> in_time a e k0 s ->
  tinv k0 (tstep s ev) /\ in_time a e k0 (tstep s ev) /\ elapsed (tstep s ev) <= elapsed s + 1.
Proof.
  intros Ha Hb Hi Hin. destruct ev as [| |t|b].
  - destruct (in_time_tick a e k0 s Hi Hb Hin). split_and!; [done..|]. simpl.
    destruct (timer_tick _ _) as [[??]?]. simpl. lia.
  - destruct (in_time_pass a e k0 s Hi Hin). split_and!; [done..|]. simpl.
    destruct (timer_bh_pass _) as [[??]|]; simpl; lia.
  - destruct Ha as [Hne Ht]. destruct Hi as (Hwf & Hk). unfold tinv, in_time. simpl.
    rewrite waits_add by done. rewrite decide_False by done.
    split_and!; [by apply add_timer_wf|lia..|exact Hin|lia].
  - destruct Hi as (Hwf & Hk). destruct (waits_del a b (next_timer s) Hwf Ha) as [Hwf' Hw].
    unfold tinv, in_time. simpl. rewrite Hw. split_and!; [done|lia..|exact Hin|lia].
Qed.

Lemma in_time_run a e k0 es s :
  Forall (apart a) es -> k0 + elapsed s + Z.of_nat (length es) < 2 ^ 32 -> tinv k0 s -> in_time a e k0 s ->
  wf (next_timer (trun es s)) /\ in_time a e k0 (trun es s).
Proof.
  intros Hes. revert s. induction Hes as [|ev es Ha _ IH]; intros s Hb Hi Hin; simpl in *; [split; [apply Hi|done]|].
  destruct (in_time_step a e k0 s ev) as (Hi' & Hin' & Hl); try done; [lia|]. apply IH; [lia|done|done].
Qed.

Lemma prompt_loses_none es s : prompt es s = true -> lost_ticks (trun es s) = lost_ticks s.
Proof.
  revert s. induction es as [|e es IH]; intros s H; simpl in *; [done|].
  apply andb_true_iff in H as [He H]. rewrite IH by done. destruct e; simpl; [|by destruct (timer_bh_pass _) as [[??]|]|done..].
  apply negb_true_iff in He. destruct (next_timer s) as [|t l]; [done|]. apply bool_decide_eq_false in He. simpl in *.
  destruct (expires t =? 0); [by destruct He|done].
Qed.

(** C28: A timer runs once, and exactly when the ticks it asked for have been counted:
    whatever else happens to the list after [add_timer] (ticks, passes of the
    bottom half at any time, other timers that are added or deleted), either its
    function has run, once, at a moment when [expires] ticks had been counted
    since, or it waits for exactly the rest of them; when the bottom half has
    nothing more to run the rest is not 0.  The ticks that are not counted are
    those of [lost_ticks], and when no tick comes while a timer is due there are
    none: the timer runs after [expires] ticks. *)
Theorem timers_fire_on_time es l k0 t s :
  wf l -> 0 <= expires t < 2 ^ 32 -> addr t ∉ addr <$> l ->
  Forall (apart (addr t)) es -> 0 <= k0 -> k0 + Z.of_nat (length es) < 2 ^ 32 ->
  trun es (TState (add_timer l t) k0 0 []) = s ->
  ((exists n k, runs (addr t) (log s) = [(addr t, n, k)] /\ waits (addr t) (next_timer s) = [] /\
      counted k0 n k = expires t) \/
   (runs (addr t) (log s) = [] /\ exists r, waits (addr t) (next_timer s) = [(addr t, r)] /\
      0 <= r /\ r = expires t - counted k0 (elapsed s) (lost_ticks s) /\
      (due (next_timer s) = false -> 0 < r))) /\
  (prompt es (TState (add_timer l t) k0 0 []) = true -> lost_ticks s = k0).
Proof.
  intros Hl Ht Ha Hes Hk Hb <-. set (s0 := TState (add_timer l t) k0 0 []). split; [|apply prompt_loses_none].
  destruct (in_time_run (addr t) (expires t) k0 es s0) as [Hwf [Hin|(Hr & r & Hw & H0 & He)]]; [done|simpl; lia| | |by left|].
  - split_and!; simpl; [by apply add_timer_wf|lia..].
  - right. split; [done|]. exists (expires t). simpl. rewrite waits_add, decide_True by done.
    split_and!; [apply insert_alone, waits_none, Ha|lia|unfold counted; lia].
  - right. split; [done|]. exists r. split_and!; [done..|]. intros Hd. by apply (waits_later (addr t) _ r Hwf Hd).
Qed.

(** Timer 7 asks for 3 ticks beside one of 1 tick whose function runs a tick late;
    it runs 4 ticks later, and one tick was lost. *)
Lemma timers_fire_on_time_witness :
  let es := [Tick; Tick; Pass; Tick; Add (TimerList 8 5 0 0); Tick; Pass; Pass] in
  let s := trun es (TState (add_timer [TimerList 1 1 0 0; TimerList 2 6 0 0] (TimerList 7 3 0 0)) 0 0 []) in
  log s = [(1, 2, 1); (7, 4, 1)] /\ counted 0 4 1 = 3.
Proof.
  intros es s. pose proof (timers_fire_on_time es [TimerList 1 1 0 0; TimerList 2 6 0 0] 0 (TimerList 7 3 0 0) s) as H.
  assert (Hlog : log s = [(1, 2, 1); (7, 4, 1)]) by (vm_compute; reflexivity). split; [exact Hlog|].
  destruct H as [[(n & k & Hr & _ & Hc)|(Hr & _)] _]; try (rewrite Hlog in Hr; vm_compute in Hr; discriminate Hr).
  - split; [repeat constructor; simpl; lia|vm_compute; reflexivity].
  - simpl. lia.
  - apply (bool_decide_unpack _). vm_compute. exact I.
  - repeat constructor; simpl; lia.
  - lia.
  - vm_compute. reflexivity.
  - reflexivity.
  - rewrite Hlog in Hr. change ([(7, 4, 1)] = [(7, n, k)]) in Hr. injection Hr as <- <-. exact Hc.
Defined.

(** ** The static timers *)

(** The timer of bit [k] has expired; the table starts at bit [i]. *)
Definition expired (tp : list Z) (i k : nat) (jiffies : Z) : bool :=
  bool_decide (i <= k)%nat && match tp !! (k - i)%nat with Some e => e <=? jiffies | None => false end.

Lemma has_pow2 i x : 0 <= i -> has (2 ^ i) x = Z.testbit x i.
Proof.
  intros Hi. unfold has. destruct (Z.testbit x i) eqn:E.
  - apply negb_true_iff, Z.eqb_neq. intros H. apply (f_equal (fun z => Z.testbit z i)) in H.
    rewrite Z.land_spec, Z.pow2_bits_true, E, Z.bits_0 in H by done. done.
  - apply negb_false_iff, Z.eqb_eq, Z.bits_inj'. intros j Hj.
    rewrite Z.land_spec, Z.bits_0, Z.pow2_bits_eqb by done.
    destruct (Z.eqb_spec i j) as [->|]; [by rewrite E|done].
Qed.

Lemma bits_above x i j : 0 <= x < 2 ^ i -> i <= j -> Z.testbit x j = false.
Proof.
  intros Hx Hj. destruct (Z.eq_dec x 0) as [->|]; [apply Z.bits_0|].
  apply Z.bits_above_log2; [lia|]. assert (Z.log2 x < i); [apply Z.log2_lt_pow2; lia|lia].
Qed.

Lemma expired_cons e tp i k jiffies :
  expired (e :: tp) i k jiffies = if decide (k = i) then e <=? jiffies else expired tp (S i) k jiffies.
Proof.
  unfold expired. case_decide as Hk.
  - subst. rewrite Nat.sub_diag. by rewrite bool_decide_true by lia.
  - destruct (decide (i <= k)%nat) as [Hle|Hgt].
    + rewrite !bool_decide_true by lia. replace (k - i)%nat with (S (k - S i)) by lia. done.
    + by rewrite !bool_decide_false by lia.
Qed.

Lemma testbit_clear x i j : 0 <= i -> 0 <= j ->
  Z.testbit (Z.land x (Z.lnot (2 ^ i))) j = Z.testbit x j && negb (i =? j).
Proof. intros Hi Hj. by rewrite Z.land_spec, Z.lnot_spec, Z.pow2_bits_eqb by done. Qed.

Lemma timer_bh_table_spec tp i jiffies active called :
  0 <= active ->
  exists active' called', timer_bh_table tp i jiffies active called = (active', called') /\
    (forall k : nat, k ∈ called' <->
       k ∈ called \/ (Z.testbit active (Z.of_nat k) = true /\ expired tp i k jiffies = true)) /\
    (forall k : nat, Z.testbit active' (Z.of_nat k) =
       Z.testbit active (Z.of_nat k) && negb (expired tp i k jiffies)).
Proof.
  revert i active called. induction tp as [|e tp IH]; intros i active called Ha; simpl.
  { exists active, called. assert (Hx : forall k, expired [] i k jiffies = false).
    { intros k. unfold expired. rewrite lookup_nil. apply andb_false_r. }
    split; [done|]. split; intros k; rewrite Hx; [|by rewrite andb_true_r]. naive_solver. }
  destruct (Z.ltb_spec active (2 ^ Z.of_nat i)) as [Hlt|Hge].
  { exists active, called. split; [done|]. assert (Hno : forall k : nat, (i <= k)%nat ->
      Z.testbit active (Z.of_nat k) = false).
    { intros k Hk. apply bits_above with (i := Z.of_nat i); lia. }
    split; intros k; (destruct (decide (i <= k)%nat) as [Hk|Hk];
      [rewrite (Hno k Hk)|unfold expired; rewrite (bool_decide_false (i <= k)%nat) by done]); simpl.
    - naive_solver.
    - naive_solver.
    - done.
    - by rewrite andb_true_r. }
  rewrite has_pow2 by lia. setoid_rewrite expired_cons.
  destruct (Z.testbit active (Z.of_nat i)) eqn:Hbit; cbn [negb]; cbv iota.
  2: { destruct (IH (S i) active called Ha) as (a' & c' & -> & Hc & Hb). exists a', c'.
       split; [done|]. split; intros k; rewrite ?Hc, ?Hb; case_decide; subst; rewrite ?Hbit; try done.
       naive_solver. }
  destruct (Z.ltb_spec jiffies e) as [Hj|Hj].
  - destruct (IH (S i) active called Ha) as (a' & c' & -> & Hc & Hb). exists a', c'.
    assert (He : expired tp (S i) i jiffies = false).
    { unfold expired. by rewrite bool_decide_false by lia. }
    split; [done|]. split; intros k; rewrite ?Hc, ?Hb; case_decide; subst; rewrite ?He; try done.
    + rewrite (proj2 (Z.leb_gt e jiffies)) by done. naive_solver.
    + by rewrite (proj2 (Z.leb_gt e jiffies)) by done.
  - set (a1 := Z.land active (Z.lnot (2 ^ Z.of_nat i))).
    destruct (IH (S i) a1 (called ++ [i])) as (a' & c' & -> & Hc & Hb).
    { apply Z.land_nonneg. by left. }
    assert (Hb1 : forall k : nat, Z.testbit a1 (Z.of_nat k) = Z.testbit active (Z.of_nat k) && negb (Nat.eqb i k)).
    { intros k. unfold a1. rewrite testbit_clear by lia. do 2 f_equal.
      destruct (Z.eqb_spec (Z.of_nat i) (Z.of_nat k)), (Nat.eqb_spec i k); lia || done. }
    exists a', c'. split; [done|].
    split; intros k; rewrite ?Hc, ?Hb, Hb1; case_decide as Hk; subst;
      rewrite ?Nat.eqb_refl, ?(proj2 (Z.leb_le e jiffies)) by done.
    + rewrite Hbit. set_solver.
    + rewrite (proj2 (Nat.eqb_neq i k)) by done. rewrite andb_true_r. set_solver.
    + by rewrite !andb_false_r.
    + by rewrite (proj2 (Nat.eqb_neq i k)), andb_true_r by done.
Qed.

(** the bottom half calls exactly the active static timers that have expired,
    deactivates those and leaves the others active. *)
Theorem timer_bh_table_correct tp jiffies active :
  0 <= active ->
  exists active' called, timer_bh_table tp 0 jiffies active [] = (active', called) /\
    forall k : nat,
      (k ∈ called <-> Z.testbit active (Z.of_nat k) = true /\ exists e, tp !! k = Some e /\ e <= jiffies) /\
      (Z.testbit active' (Z.of_nat k) = true <->
         Z.testbit active (Z.of_nat k) = true /\ k ∉ called).
Proof.
  intros Ha. destruct (timer_bh_table_spec tp 0 jiffies active [] Ha) as (a' & c' & H & Hc & Hb).
  exists a', c'. split; [done|]. intros k.
  assert (He : expired tp 0 k jiffies = true <-> exists e, tp !! k = Some e /\ e <= jiffies).
  { unfold expired. rewrite bool_decide_true, Nat.sub_0_r by lia.
    destruct (tp !! k) as [e|]; simpl; [|naive_solver]. rewrite Z.leb_le. naive_solver. }
  rewrite Hb, andb_true_iff, negb_true_iff, <- not_true_iff_false, Hc, He. set_solver.
Qed.

Lemma timer_bh_table_correct_witness :
  exists active' called, timer_bh_table [5; 9; 2; 100] 0 10 14 [] = (active', called) /\
    (2%nat ∈ called <-> Z.testbit 14 2 = true /\ exists e, [5; 9; 2; 100] !! 2%nat = Some e /\ e <= 10).
Proof.
  destruct (timer_bh_table_correct [5; 9; 2; 100] 10 14) as (a & c & H & Hk); [lia|].
  exists a, c. split; [exact H|]. exact (proj1 (Hk 2%nat)).
Defined.

End Timer.
