(* ===== verification/Sched.v ===== *)
(** * The scheduler ([schedule], [sys_nice], the per-task part of [do_timer] and
    the load average in [src/kernel/sched.c]; [generate] and [send_sig] of
    [src/kernel/exit.c])

    The tasks other than [init_task] are a list in the order of [next_task]. *)

From S2P Require Import Prelude.
From Stdlib Require Import ZArith Lia.
From stdpp Require Import base list gmap numbers.
Local Open Scope Z_scope.

Module Sched.

Definition TASK_RUNNING : Z := 0.
Definition TASK_INTERRUPTIBLE : Z := 1.
Definition TASK_UNINTERRUPTIBLE : Z := 2.
Definition TASK_STOPPED : Z := 4.
Definition TASK_SWAPPING : Z := 5.

Definition PF_PTRACED : Z := 0x10.
Definition SIG_DFL : Z := 0.
Definition SIG_IGN : Z := 1.
Definition SIGKILL : Z := 9.
Definition SIGALRM : Z := 14.
Definition SIGCHLD : Z := 17.
Definition SIGCONT : Z := 18.
Definition SIGSTOP : Z := 19.
Definition SIGTSTP : Z := 20.
Definition SIGTTIN : Z := 21.
Definition SIGTTOU : Z := 22.
Definition SIGVTALRM : Z := 26.
Definition SIGPROF : Z := 27.
Definition SIGWINCH : Z := 28.

(** The fields of [struct task_struct] this code uses. *)
Record task := Task {
  state : Z;
  counter : Z;
  priority : Z;
  signal : Z;
  blocked : Z;
  flags : Z;
  handlers : list Z;          (* sigaction[i].sa_handler *)
  exit_code : Z;
  timeout : Z;
  it_real_value : Z;
  it_prof_value : Z;
  it_virt_value : Z;
  it_real_incr : Z;
  it_prof_incr : Z;
  it_virt_incr : Z;
  utime : Z;
  stime : Z
}.

Definition set_state (p : task) (x : Z) : task :=
  Task x (counter p) (priority p) (signal p) (blocked p) (flags p) (handlers p) (exit_code p)
    (timeout p) (it_real_value p) (it_prof_value p) (it_virt_value p) (it_real_incr p)
    (it_prof_incr p) (it_virt_incr p) (utime p) (stime p).
Definition set_counter (p : task) (x : Z) : task :=
  Task (state p) x (priority p) (signal p) (blocked p) (flags p) (handlers p) (exit_code p)
    (timeout p) (it_real_value p) (it_prof_value p) (it_virt_value p) (it_real_incr p)
    (it_prof_incr p) (it_virt_incr p) (utime p) (stime p).
Definition set_priority (p : task) (x : Z) : task :=
  Task (state p) (counter p) x (signal p) (blocked p) (flags p) (handlers p) (exit_code p)
    (timeout p) (it_real_value p) (it_prof_value p) (it_virt_value p) (it_real_incr p)
    (it_prof_incr p) (it_virt_incr p) (utime p) (stime p).
Definition set_signal (p : task) (x : Z) : task :=
  Task (state p) (counter p) (priority p) x (blocked p) (flags p) (handlers p) (exit_code p)
    (timeout p) (it_real_value p) (it_prof_value p) (it_virt_value p) (it_real_incr p)
    (it_prof_incr p) (it_virt_incr p) (utime p) (stime p).
Definition set_timeout (p : task) (x : Z) : task :=
  Task (state p) (counter p) (priority p) (signal p) (blocked p) (flags p) (handlers p) (exit_code p)
    x (it_real_value p) (it_prof_value p) (it_virt_value p) (it_real_incr p)
    (it_prof_incr p) (it_virt_incr p) (utime p) (stime p).
Definition set_exit_code (p : task) (x : Z) : task :=
  Task (state p) (counter p) (priority p) (signal p) (blocked p) (flags p) (handlers p) x
    (timeout p) (it_real_value p) (it_prof_value p) (it_virt_value p) (it_real_incr p)
    (it_prof_incr p) (it_virt_incr p) (utime p) (stime p).
Definition set_real (p : task) (v i : Z) : task :=
  Task (state p) (counter p) (priority p) (signal p) (blocked p) (flags p) (handlers p) (exit_code p)
    (timeout p) v (it_prof_value p) (it_virt_value p) i
    (it_prof_incr p) (it_virt_incr p) (utime p) (stime p).
Definition set_prof (p : task) (v i : Z) : task :=
  Task (state p) (counter p) (priority p) (signal p) (blocked p) (flags p) (handlers p) (exit_code p)
    (timeout p) (it_real_value p) v (it_virt_value p) (it_real_incr p)
    i (it_virt_incr p) (utime p) (stime p).
Definition set_virt (p : task) (v i : Z) : task :=
  Task (state p) (counter p) (priority p) (signal p) (blocked p) (flags p) (handlers p) (exit_code p)
    (timeout p) (it_real_value p) (it_prof_value p) v (it_real_incr p)
    (it_prof_incr p) i (utime p) (stime p).
Definition set_times (p : task) (u s : Z) : task :=
  Task (state p) (counter p) (priority p) (signal p) (blocked p) (flags p) (handlers p) (exit_code p)
    (timeout p) (it_real_value p) (it_prof_value p) (it_virt_value p) (it_real_incr p)
    (it_prof_incr p) (it_virt_incr p) u s.

(** ** Signals *)

Definition sigmask (sig : Z) : Z := 2 ^ (sig - 1).

(** [generate]: result and task. [None]: [sigaction] indexed outside. *)
Definition generate (sig : Z) (p : task) : option (Z * task) :=
  let raise := (1, set_signal p (Z.lor (signal p) (sigmask sig))) in
  if has (flags p) PF_PTRACED then Some raise
  else
    sa ← get (handlers p) (sig - 1);
    if (sa =? SIG_IGN) && negb (sig =? SIGCHLD) then Some (0, p)
    else if (sa =? SIG_DFL) && ((sig =? SIGCONT) || (sig =? SIGCHLD) || (sig =? SIGWINCH))
    then Some (0, p)
    else Some raise.

(** [send_sig] with a task that is not NULL; [perm] is the outcome of the
    comparison of sessions and user ids. *)
Definition send_sig (sig : Z) (p : task) (priv perm : bool) : option (Z * task) :=
  if 32 <? sig then Some (- EINVAL, p)
  else if negb priv && negb perm then Some (- EPERM, p)
  else if sig =? 0 then Some (0, p)
  else
    let p :=
      if (sig =? SIGKILL) || (sig =? SIGCONT) then
        let p := if state p =? TASK_STOPPED then set_state p TASK_RUNNING else p in
        let p := set_exit_code p 0 in
        set_signal p (Z.land (signal p)
          (Z.lnot (Z.lor (Z.lor (Z.lor (sigmask SIGSTOP) (sigmask SIGTSTP)) (sigmask SIGTTIN))
                     (sigmask SIGTTOU))))
      else p in
    let p := if (SIGSTOP <=? sig) && (sig <=? SIGTTOU)
             then set_signal p (Z.land (signal p) (Z.lnot (sigmask SIGCONT))) else p in
    '(_, p) ← generate sig p;
    Some (0, p).

(** ** [schedule] *)

(** [do { value += incr; } while (value <= ticks);] *)
Fixpoint advance (fuel : nat) (value incr ticks : Z) : option Z :=
  match fuel with
  | O => None
  | S fuel =>
      let v := u32 (value + incr) in
      if v <=? ticks then advance fuel v incr ticks else Some v
  end.

(** The real-time interval timer of one task: task and [itimer_next]. *)
Definition run_itimer (ticks itimer_next : Z) (p : task) : option (task * Z) :=
  if negb (ticks =? 0) && negb (it_real_value p =? 0) then
    r ← (if it_real_value p <=? ticks then
           '(_, p) ← send_sig SIGALRM p true true;
           if it_real_incr p =? 0 then Some (set_real p 0 0, true)
           else
             v ← advance (S (Z.to_nat ticks)) (it_real_value p) (it_real_incr p) ticks;
             Some (set_real p v (it_real_incr p), false)
         else Some (p, false));
    let '(p, fin) := r in
    if (fin : bool) then Some (p, itimer_next)
    else
      let v := u32 (it_real_value p - ticks) in
      Some (set_real p v (it_real_incr p), if v <? itimer_next then v else itimer_next)
  else Some (p, itimer_next).

(** The rest of the first loop: wake tasks that have a signal or whose time is
    out. *)
Definition check_wake (jiffies : Z) (p : task) : task :=
  if negb (state p =? TASK_INTERRUPTIBLE) then p
  else if has (signal p) (Z.lnot (blocked p)) then set_state p TASK_RUNNING
  else if negb (timeout p =? 0) && (timeout p <=? jiffies)
  then set_state (set_timeout p 0) TASK_RUNNING
  else p.

(** The first loop over all tasks. *)
Fixpoint first_pass (ticks jiffies itimer_next : Z) (ps : list task) : option (list task * Z) :=
  match ps with
  | [] => Some ([], itimer_next)
  | p :: ps =>
      '(p, nx) ← run_itimer ticks itimer_next p;
      '(ps, nx) ← first_pass ticks jiffies nx ps;
      Some (check_wake jiffies p :: ps, nx)
  end.

(** The second loop: [c] and [next] ([None] is [init_task]); [i] is the place of
    the first task of [ps]. *)
Fixpoint select_task (ps : list task) (i : nat) (c : Z) (next : option nat) : Z * option nat :=
  match ps with
  | [] => (c, next)
  | p :: ps =>
      if (state p =? TASK_RUNNING) && (c <? counter p)
      then select_task ps (S i) (counter p) (Some i)
      else select_task ps (S i) c next
  end.

(** [p->counter = (p->counter >> 1) + p->priority] *)
Definition recalc (p : task) : task := set_counter p (Z.shiftr (counter p) 1 + priority p).

Definition pick (ps : list task) : list task * option nat :=
  let '(c, next) := select_task ps 0 (-1) None in
  (if c =? 0 then recalc <$> ps else ps, next).

(** [schedule] up to [switch_to]: the tasks, the task chosen, [itimer_next]. *)
Definition schedule (itimer_ticks jiffies : Z) (ps : list task)
  : option (list task * option nat * Z) :=
  '(ps, nx) ← first_pass itimer_ticks jiffies (2 ^ 32 - 1) ps;
  let '(ps, next) := pick ps in
  Some (ps, next, nx).

(** ** [sys_nice] and the tick of the running task *)

Definition sys_nice (increment : Z) (suser : bool) (p : task) : Z * task :=
  if (increment <? 0) && negb suser then (- EPERM, p)
  else
    let newprio := s32 (priority p - increment) in
    let newprio := if newprio <? 1 then 1 else newprio in
    let newprio := if 35 <? newprio then 35 else newprio in
    (0, set_priority p newprio).

(** [if (it_value && !(--it_value)) { it_value = it_incr; send_sig; }] *)
Definition count_down (value incr : Z) : Z * bool :=
  if value =? 0 then (value, false)
  else let v := u32 (value - 1) in if v =? 0 then (incr, true) else (v, false).

(** The part of [do_timer] for a task other than [task[0]]: [user] tells whether
    the interrupt came from user mode.  The task and [need_resched]. *)
Definition tick_task (user : bool) (p : task) (need_resched : bool) : option (task * bool) :=
  p ← (if user then
         let p := set_times p (s32 (utime p + 1)) (stime p) in
         let '(v, fire) := count_down (it_virt_value p) (it_virt_incr p) in
         let p := set_virt p v (it_virt_incr p) in
         if (fire : bool) then '(_, p) ← send_sig SIGVTALRM p true true; Some p else Some p
       else Some (set_times p (utime p) (s32 (stime p + 1))));
  let c := s32 (counter p - 1) in
  let '(p, resched) := if c <=? 0 then (set_counter p 0, true) else (set_counter p c, need_resched) in
  let '(v, fire) := count_down (it_prof_value p) (it_prof_incr p) in
  let p := set_prof p v (it_prof_incr p) in
  p ← (if (fire : bool) then '(_, p) ← send_sig SIGPROF p true true; Some p else Some p);
  Some (p, resched).

(** ** Load average *)

Definition FSHIFT : Z := 11.
Definition FIXED_1 : Z := Z.shiftl 1 FSHIFT.
Definition EXP_1 : Z := 1884.
Definition EXP_5 : Z := 2014.
Definition EXP_15 : Z := 2037.
Definition LOAD_FREQ : Z := 5 * 100.
Definition NR_TASKS : Z := 128.

Definition CALC_LOAD (load exp n : Z) : Z :=
  Z.shiftr (u32 (u32 (load * exp) + u32 (n * (FIXED_1 - exp)))) FSHIFT.

Definition active (p : task) : bool :=
  (state p =? TASK_RUNNING) || (state p =? TASK_UNINTERRUPTIBLE) || (state p =? TASK_SWAPPING).

Definition count_active_tasks (ps : list task) : Z :=
  lsum (fun p => if active p then FIXED_1 else 0) ps.

(** [count] and [avenrun]. *)
Definition calc_load (count : Z) (avenrun : Z * Z * Z) (ps : list task) : Z * (Z * Z * Z) :=
  if 0 <? count then (count - 1, avenrun)
  else
    let n := count_active_tasks ps in
    let '(a, b, c) := avenrun in
    (LOAD_FREQ, (CALC_LOAD a EXP_1 n, CALC_LOAD b EXP_5 n, CALC_LOAD c EXP_15 n)).

(** ** The choice of [schedule] *)

Definition running (p : task) : Prop := state p = TASK_RUNNING.

Lemma select_task_spec ps i c next c' next' :
  select_task ps i c next = (c', next') ->
  (c' = c /\ next' = next /\ forall j p, ps !! j = Some p -> running p -> counter p <= c) \/
  (exists j p, next' = Some (i + j)%nat /\ ps !! j = Some p /\ running p /\ counter p = c' /\ c < c' /\
     (forall k q, ps !! k = Some q -> running q -> counter q <= c') /\
     (forall k q, (k < j)%nat -> ps !! k = Some q -> running q -> counter q < c')).
Proof.
  revert i c next. induction ps as [|p ps IH]; intros i c next; simpl.
  { intros [= <- <-]. left. split_and!; try done. }
  destruct ((state p =? TASK_RUNNING) && (c <? counter p)) eqn:E; intros H; apply IH in H.
  - apply andb_true_iff in E as [Hrun%Z.eqb_eq Hlt%Z.ltb_lt]. right.
    destruct H as [(-> & -> & Hall)|(j & q & -> & Hj & Hq & <- & Hc & Hall & Hfst)].
    + exists 0%nat, p. rewrite Nat.add_0_r. split_and!; try done; [|intros; lia].
      intros [|k] q Hk Hq; simplify_eq/=; [lia|eauto].
    + exists (S j), q. split_and!; try done; [f_equal; lia|lia|..].
      * intros [|k] r Hk Hr; simplify_eq/=; [lia|eauto].
      * intros [|k] r Hlt' Hk Hr; simplify_eq/=; [lia|]. apply (Hfst k); [lia|done..].
  - apply andb_false_iff in E. unfold running.
    destruct H as [(-> & -> & Hall)|(j & q & -> & Hj & Hq & <- & Hc & Hall & Hfst)].
    + left. split_and!; try done. intros [|k] q Hk Hq; simplify_eq/=; [|eauto].
      rewrite Hq, Z.ltb_ge in E. naive_solver.
    + right. exists (S j), q. split_and!; try done; [f_equal; lia|..].
      * intros [|k] r Hk Hr; simplify_eq/=; [|eauto]. rewrite Hr, Z.ltb_ge in E. naive_solver lia.
      * intros [|k] r Hlt' Hk Hr; simplify_eq/=.
        -- rewrite Hr, Z.ltb_ge in E. naive_solver lia.
        -- apply (Hfst k); [lia|done..].
Qed.

(** Counters and priorities that occur. *)
Definition task_ok (p : task) : Prop := 0 <= counter p <= 70 /\ 1 <= priority p <= 35.

Lemma recalc_ok p : task_ok p -> task_ok (recalc p).
Proof.
  unfold task_ok, recalc. simpl. rewrite Z.shiftr_div_pow2 by lia.
  change (2 ^ 1) with 2. intros [Hc Hp].
  assert (counter p / 2 <= 35) by (apply Z.div_le_upper_bound; lia).
  assert (0 <= counter p / 2) by (apply Z.div_pos; lia). lia.
Qed.

(** What [pick] does, by the tasks that can run. *)
Lemma pick_spec ps :
  Forall task_ok ps ->
  match pick ps with
  | (ps', None) => ps' = ps /\ forall j p, ps !! j = Some p -> ~ running p
  | (ps', Some i) =>
      exists p, ps !! i = Some p /\ running p /\
        (forall k q, ps !! k = Some q -> running q -> counter q <= counter p) /\
        (forall k q, (k < i)%nat -> ps !! k = Some q -> running q -> counter q < counter p) /\
        ps' = (if counter p =? 0 then recalc <$> ps else ps)
  end.
Proof.
  intros Hok. rewrite list.Forall_forall in Hok. unfold pick.
  destruct (select_task ps 0 (-1) None) as [c next] eqn:E.
  apply select_task_spec in E as [(-> & -> & Hall)|(j & p & -> & Hj & Hp & <- & Hc & Hall & Hfst)].
  - split; [done|]. intros j p Hj Hp. specialize (Hall j p Hj Hp).
    destruct (Hok p) as [? _]; [by eapply list_elem_of_lookup_2|]. lia.
  - simpl. exists p. by split_and!.
Qed.

(** [schedule] chooses a runnable task with the largest remaining time slice,
    the first such task in the list, and the idle task exactly when no task can
    run; slices are recomputed exactly when every runnable task has used up its
    own. *)
Theorem schedule_choice itimer_ticks jiffies ps ps' next nx :
  schedule itimer_ticks jiffies ps = Some (ps', next, nx) ->
  exists ps1, first_pass itimer_ticks jiffies (2 ^ 32 - 1) ps = Some (ps1, nx) /\
    (Forall task_ok ps1 ->
     match next with
     | None => ps' = ps1 /\ forall j p, ps1 !! j = Some p -> ~ running p
     | Some i =>
         exists p, ps1 !! i = Some p /\ running p /\
           (forall k q, ps1 !! k = Some q -> running q -> counter q <= counter p) /\
           (forall k q, (k < i)%nat -> ps1 !! k = Some q -> running q -> counter q < counter p) /\
           ps' = (if counter p =? 0 then recalc <$> ps1 else ps1)
     end).
Proof.
  unfold schedule. destruct (first_pass _ _ _ ps) as [[ps1 nx1]|]; simpl; [|done].
  intros Hs. exists ps1. destruct (pick ps1) as [ps2 next2] eqn:Hp. injection Hs as <- <- <-.
  split; [done|]. intros Hok. pose proof (pick_spec ps1 Hok) as H. by rewrite Hp in H.
Qed.

Definition idle_task (st c : Z) : task := Task st c 15 0 0 0 (repeat 0 32) 0 0 0 0 0 0 0 0 0 0.

Lemma schedule_choice_witness :
  exists p ps', schedule 0 5 [idle_task 0 3; idle_task 1 40; idle_task 0 7; idle_task 0 7] = Some (ps', Some 2%nat, 2 ^ 32 - 1) /\
    [idle_task 0 3; idle_task 1 40; idle_task 0 7; idle_task 0 7] !! 2%nat = Some p /\ running p.
Proof.
  destruct (schedule_choice 0 5 [idle_task 0 3; idle_task 1 40; idle_task 0 7; idle_task 0 7]
    [idle_task 0 3; idle_task 1 40; idle_task 0 7; idle_task 0 7] (Some 2%nat) (2 ^ 32 - 1)) as (ps1 & Hf & H).
  { vm_compute. reflexivity. }
  vm_compute in Hf. injection Hf as <-.
  destruct H as (p & Hp & Hr & _).
  { repeat constructor; simpl; lia. }
  exists p. eexists. split; [vm_compute; reflexivity|]. split; [exact Hp|exact Hr].
Defined.

(** ** Counters and priorities stay in range *)

(** Neither the slice nor the priority changes, and a task that can run still
    can. *)
Definition alike (p p' : task) : Prop :=
  counter p' = counter p /\ priority p' = priority p /\ (running p -> running p').

Lemma alike_ok p p' : alike p p' -> task_ok p -> task_ok p'.
Proof. intros (Hc & Hp & _). unfold task_ok. by rewrite Hc, Hp. Qed.

Lemma alike_trans p q r : alike p q -> alike q r -> alike p r.
Proof. intros (H1 & H2 & H3) (H4 & H5 & H6). split_and!; [congruence..|auto]. Qed.

Lemma generate_alike sig p r p' : generate sig p = Some (r, p') -> alike p p'.
Proof.
  unfold generate. case_bool; [by intros [= _ <-]|].
  destruct (get (handlers p) (sig - 1)); simpl; [|done]. repeat case_bool; by intros [= _ <-].
Qed.

Lemma send_sig_alike sig p priv perm r p' : send_sig sig p priv perm = Some (r, p') -> alike p p'.
Proof.
  unfold send_sig. do 3 (case_bool; [by intros [= _ <-]|]).
  intros H. destruct (generate sig _) as [[r1 p1]|] eqn:E; [|done].
  simpl in H. injection H as _ <-. apply generate_alike in E. eapply alike_trans; [|exact E].
  repeat case_bool; done.
Qed.

(** The loop of an interval timer. *)
Lemma advance_spec fuel value incr ticks :
  0 < incr -> 0 <= value <= ticks -> ticks + incr < 2 ^ 32 -> ticks - value < Z.of_nat fuel ->
  exists v, advance fuel value incr ticks = Some v /\ ticks < v <= ticks + incr /\ (incr | v - value).
Proof.
  revert value. induction fuel as [|fuel IH]; intros value Hi Hv Hb Hf; [lia|]. simpl.
  rewrite u32_small by lia. destruct (Z.leb_spec (value + incr) ticks) as [Hle|Hgt].
  - destruct (IH (value + incr)) as (v & -> & Hr & [k Hk]); try lia. exists v. split_and!; try done; try lia.
    exists (k + 1). lia.
  - exists (value + incr). split_and!; try done; try lia. exists 1. lia.
Qed.

#[local] Arguments advance : simpl never.

Lemma run_itimer_alike ticks nx p p' nx' : run_itimer ticks nx p = Some (p', nx') -> alike p p'.
Proof.
  unfold run_itimer. case_bool; [|by intros [= <- _]]. intros H.
  destruct (it_real_value p <=? ticks); simpl in H; [|by injection H as <- _].
  destruct (send_sig SIGALRM p true true) as [[r1 p1]|] eqn:E; simpl in H; [|done].
  apply send_sig_alike in E.
  destruct (it_real_incr p1 =? 0); simpl in H; [by injection H as <- _|].
  destruct (advance _ _ _ _); simpl in H; [|done]. by injection H as <- _.
Qed.

Lemma check_wake_alike jiffies p : alike p (check_wake jiffies p).
Proof. unfold check_wake. repeat case_bool; done. Qed.

Lemma first_pass_alike ticks jiffies nx ps ps' nx' :
  first_pass ticks jiffies nx ps = Some (ps', nx') -> Forall2 alike ps ps'.
Proof.
  revert nx ps' nx'. induction ps as [|p ps IH]; intros nx ps' nx'; simpl; [intros [= <- _]; constructor|].
  destruct (run_itimer ticks nx p) as [[p1 nx1]|] eqn:E1; simpl; [|done].
  destruct (first_pass ticks jiffies nx1 ps) as [[ps1 nx2]|] eqn:E2; simpl; [|done].
  intros [= <- _]. constructor; [|by eapply IH].
  eapply alike_trans; [by eapply run_itimer_alike|apply check_wake_alike].
Qed.

Lemma first_pass_ok ticks jiffies nx ps ps' nx' :
  first_pass ticks jiffies nx ps = Some (ps', nx') -> Forall task_ok ps -> Forall task_ok ps'.
Proof.
  intros H%first_pass_alike Hok. induction H as [|p p' ps ps' Hp _ IH]; [constructor|].
  apply Forall_cons_iff in Hok as [H1 H2]. constructor; [by eapply alike_ok|by apply IH].
Qed.

Lemma pick_ok ps : Forall task_ok ps -> Forall task_ok (pick ps).1.
Proof.
  intros H. unfold pick. destruct (select_task ps 0 (-1) None) as [c next]. simpl.
  case_bool; [|done]. apply Forall_fmap. eapply list.Forall_impl; [exact H|]. intros. by apply recalc_ok.
Qed.

Lemma tick_task_spec user p r p' r' :
  tick_task user p r = Some (p', r') -> task_ok p ->
  task_ok p' /\ counter p' = Z.max 0 (counter p - 1) /\ r' = (counter p <=? 1) || r.
Proof.
  intros H Hp. unfold tick_task in H.
  match type of H with (mbind _ ?m = _) => destruct m as [p1|] eqn:E1 end; simpl in H; [|done].
  assert (Hp1 : counter p1 = counter p /\ priority p1 = priority p).
  { destruct user; [|by injection E1 as <-]. destruct (count_down _ _) as [v f]. destruct f; [|by injection E1 as <-].
    destruct (send_sig _ _ _ _) as [[x q]|] eqn:E; simpl in E1; [|done]. injection E1 as <-.
    apply send_sig_alike in E as (? & ? & _). done. }
  destruct Hp1 as [Hc1 Hpr1]. destruct Hp as [Hc Hpr].
  rewrite Hc1, (s32_small (counter p - 1)) in H by lia.
  set (x := if counter p - 1 <=? 0 then (set_counter p1 0, true) else (set_counter p1 (counter p - 1), r)) in H.
  assert (Hx : counter x.1 = Z.max 0 (counter p - 1) /\ priority x.1 = priority p /\ x.2 = (counter p <=? 1) || r).
  { unfold x. destruct (Z.leb_spec (counter p - 1) 0), (Z.leb_spec (counter p) 1); simpl; split_and!; (done || lia). }
  clearbody x. destruct x as [p2 rs]. simpl in Hx, H. destruct Hx as (Hc2 & Hp2 & Hrs).
  destruct (count_down (it_prof_value p2) (it_prof_incr p2)) as [v f].
  assert (Hq : alike (set_prof p2 v (it_prof_incr p2)) p' /\ rs = r').
  { destruct f; simpl in H; [|by injection H as <- <-].
    destruct (send_sig SIGPROF _ true true) as [[y q]|] eqn:E; simpl in H; [|done].
    injection H as <- <-. by apply send_sig_alike in E. }
  destruct Hq as [(Hc' & Hp' & _) <-]. simpl in Hc', Hp'. unfold task_ok. rewrite Hc', Hp', Hc2, Hp2, Hrs.
  split_and!; (done || lia).
Qed.

Lemma recalc_positive p : task_ok p -> 0 < counter (recalc p).
Proof.
  intros [Hc Hpr]. unfold recalc. simpl. rewrite Z.shiftr_div_pow2 by lia.
  assert (0 <= counter p / 2 ^ 1) by (apply Z.div_pos; lia). lia.
Qed.

(** counters stay between 0 and 70 and priorities between 1 and 35 under
    [schedule], the timer tick and [nice], so the arithmetic of the scheduler
    never overflows and every recomputed slice is positive. *)
Theorem sched_ranges p ps :
  task_ok p -> Forall task_ok ps ->
  (forall increment su, task_ok (sys_nice increment su p).2) /\
  (forall user nr p' nr', tick_task user p nr = Some (p', nr') -> task_ok p') /\
  (forall ticks jiffies ps' next nx, schedule ticks jiffies ps = Some (ps', next, nx) -> Forall task_ok ps') /\
  0 < counter (recalc p).
Proof.
  intros Hp Hps. split_and!.
  - intros increment su. unfold sys_nice. case_bool; [done|]. cbn [snd]. destruct Hp as [Hc _].
    set (x := s32 (priority p - increment)). clearbody x.
    destruct (Z.ltb_spec x 1); [|destruct (Z.ltb_spec 35 x)]; unfold task_ok; simpl; lia.
  - intros user nr p' nr' H. by eapply tick_task_spec.
  - intros ticks jiffies ps' next nx. unfold schedule.
    destruct (first_pass _ _ _ ps) as [[ps1 nx1]|] eqn:E; simpl; [|done].
    pose proof (pick_ok ps1 (first_pass_ok _ _ _ _ _ _ E Hps)) as H.
    destruct (pick ps1) as [ps2 n2]. by intros [= <- _ _].
  - by apply recalc_positive.
Qed.

Lemma sched_ranges_witness : task_ok (idle_task 0 15) /\ 0 < counter (recalc (idle_task 0 15)).
Proof.
  assert (H : task_ok (idle_task 0 15)) by (unfold task_ok; simpl; lia).
  split; [exact H|]. apply (sched_ranges (idle_task 0 15) []); [exact H|constructor].
Defined.

(** ** Starvation *)



















(** ** Interval timers *)

Lemma send_sig_total sig p : 0 < sig <= 32 -> length (handlers p) = 32%nat ->
  exists p', send_sig sig p true true = Some (0, p') /\
    it_real_value p' = it_real_value p /\ it_real_incr p' = it_real_incr p.
Proof.
  intros Hs Hl. unfold send_sig. destruct (Z.ltb_spec 32 sig); [lia|]. simpl.
  destruct (Z.eqb_spec sig 0); [lia|].
  set (q := if (SIGSTOP <=? sig) && (sig <=? SIGTTOU) then _ else _).
  assert (Hq : handlers q = handlers p /\ it_real_value q = it_real_value p /\ it_real_incr q = it_real_incr p).
  { unfold q. repeat case_bool; done. }
  destruct Hq as (Hh & Hv & Hi). unfold generate. rewrite Hh.
  destruct (get_in_range (handlers p) (sig - 1)) as [sa ->]; [lia|]. simpl.
  repeat case_bool; simpl; eauto.
Qed.

(** the interval timer of a task keeps its phase: when the ticks since the last
    [schedule] reach the value the alarm is sent and the new value is in
    [1, incr] and congruent to the old one less the ticks; otherwise the value
    just goes down; the loop that adds the interval terminates. *)
Theorem run_itimer_spec ticks nx p :
  0 < ticks -> 0 < it_real_value p < 2 ^ 32 -> 0 < it_real_incr p -> ticks + it_real_incr p < 2 ^ 32 ->
  length (handlers p) = 32%nat ->
  exists p' nx', run_itimer ticks nx p = Some (p', nx') /\
    nx' = Z.min nx (it_real_value p') /\ it_real_incr p' = it_real_incr p /\
    (if it_real_value p <=? ticks
     then 0 < it_real_value p' <= it_real_incr p /\
          (it_real_incr p | it_real_value p' - (it_real_value p - ticks)) /\
          exists q, send_sig SIGALRM p true true = Some (0, q) /\ signal p' = signal q
     else it_real_value p' = it_real_value p - ticks /\ signal p' = signal p).
Proof.
  intros Ht Hv Hi Hb Hl. unfold run_itimer.
  destruct (Z.eqb_spec ticks 0); [lia|]. destruct (Z.eqb_spec (it_real_value p) 0); [lia|]. simpl.
  destruct (Z.leb_spec (it_real_value p) ticks) as [Hle|Hgt]; simpl.
  - destruct (send_sig_total SIGALRM p) as (q & -> & Eqv & Eqi); [unfold SIGALRM; lia|done|]. simpl.
    rewrite Eqi, Eqv. destruct (Z.eqb_spec (it_real_incr p) 0); [lia|].
    destruct (advance_spec (S (Z.to_nat ticks)) (it_real_value p) (it_real_incr p) ticks)
      as (v & Hadv & Hr & [k Hk]); try lia.
    rewrite Hadv. simpl. rewrite u32_small by lia. eexists _, _. split; [done|]. simpl.
    split_and!; try done; try lia.
    + destruct (Z.ltb_spec (v - ticks) nx); lia.
    + exists k. lia.
    + exists q. done.
  - rewrite u32_small by lia. eexists _, _. split; [done|]. simpl.
    split_and!; try done; try lia. destruct (Z.ltb_spec (it_real_value p - ticks) nx); lia.
Qed.

Lemma run_itimer_spec_witness :
  let p := Task 0 0 15 0 0 0 (repeat 0 32) 0 0 3 0 0 10 0 0 0 0 in
  exists p' nx', run_itimer 24 99 p = Some (p', nx') /\ 0 < it_real_value p' <= 10.
Proof.
  destruct (run_itimer_spec 24 99 (Task 0 0 15 0 0 0 (repeat 0 32) 0 0 3 0 0 10 0 0 0 0))
    as (p' & nx' & H & _ & _ & Hr & _); simpl; try lia; try reflexivity.
  exists p', nx'. split; [exact H|exact Hr].
Defined.

(** ** Load average *)

Lemma CALC_LOAD_spec load exp n :
  0 <= load <= NR_TASKS * FIXED_1 -> 0 <= n <= NR_TASKS * FIXED_1 -> 0 <= exp <= FIXED_1 ->
  CALC_LOAD load exp n = (load * exp + n * (FIXED_1 - exp)) / FIXED_1.
Proof.
  intros Hl Hn He. unfold CALC_LOAD. rewrite Z.shiftr_div_pow2 by (unfold FSHIFT; lia).
  change (2 ^ FSHIFT) with FIXED_1. f_equal. change FIXED_1 with 2048 in *. unfold NR_TASKS in *.
  assert (0 <= load * exp <= 262144 * 2048) by nia.
  assert (0 <= n * (2048 - exp) <= 262144 * 2048) by nia.
  assert (load * exp + n * (2048 - exp) <= 262144 * 2048) by nia.
  rewrite (u32_small (load * exp)), (u32_small (n * (2048 - exp))), u32_small; lia.
Qed.

(** the load average is a weighted mean: it never overflows 32 bits, stays
    between the old average and the number of active tasks, and with a constant
    number of tasks does not move away from it. *)
Theorem CALC_LOAD_mean load exp n :
  0 <= load <= NR_TASKS * FIXED_1 -> 0 <= n <= NR_TASKS * FIXED_1 -> 0 <= exp <= FIXED_1 ->
  Z.min load n <= CALC_LOAD load exp n <= Z.max load n.
Proof.
  intros Hl Hn He. rewrite CALC_LOAD_spec by done. change FIXED_1 with 2048 in *. unfold NR_TASKS in *. split.
  - apply Z.div_le_lower_bound; [lia|]. destruct (Z.min_spec load n) as [[? ->]|[? ->]]; nia.
  - apply Z.div_le_upper_bound; [lia|]. destruct (Z.max_spec load n) as [[? ->]|[? ->]]; nia.
Qed.

Lemma CALC_LOAD_mean_witness : Z.min 500 4096 <= CALC_LOAD 500 EXP_1 4096 <= Z.max 500 4096.
Proof. apply (CALC_LOAD_mean 500 EXP_1 4096); vm_compute; split; discriminate. Defined.

End Sched.
