(* ===== verification/Mktime.v ===== *)
(** * Broken-down time to seconds ([src/kernel/mktime.c])

    [kernel_mktime] against the Gregorian calendar, which is defined here by
    counting the days of the years and months one by one. *)

From S2P Require Import Prelude.
From Stdlib Require Import ZArith Lia.
From stdpp Require Import base list numbers.

Local Open Scope Z_scope.

Module Mktime.

Record mktime := MkTime { sec : Z; min : Z; hour : Z; day : Z; mon : Z; year : Z }.

Definition MINUTE : Z := 60.
Definition HOUR : Z := 60 * MINUTE.
Definition DAY : Z := 24 * HOUR.
Definition YEAR : Z := 365 * DAY.

Definition month : list Z :=
  [0;
   DAY * 31;
   DAY * (31 + 29);
   DAY * (31 + 29 + 31);
   DAY * (31 + 29 + 31 + 30);
   DAY * (31 + 29 + 31 + 30 + 31);
   DAY * (31 + 29 + 31 + 30 + 31 + 30);
   DAY * (31 + 29 + 31 + 30 + 31 + 30 + 31);
   DAY * (31 + 29 + 31 + 30 + 31 + 30 + 31 + 31);
   DAY * (31 + 29 + 31 + 30 + 31 + 30 + 31 + 31 + 30);
   DAY * (31 + 29 + 31 + 30 + 31 + 30 + 31 + 31 + 30 + 31);
   DAY * (31 + 29 + 31 + 30 + 31 + 30 + 31 + 31 + 30 + 31 + 30)].

(** [time->year] counts from 1900, [time->mon] from 0. *)
Definition kernel_mktime (time : mktime) : option Z :=
  let y := s32 (year time - 70) in
  let res := s32 (YEAR * y + DAY * Z.quot (y + 1) 4) in
  m ← get month (mon time);
  let res := s32 (res + m) in
  let res := if (1 <? mon time) && negb (Z.rem (y + 2) 4 =? 0) then s32 (res - DAY) else res in
  let res := s32 (res + DAY * (day time - 1)) in
  let res := s32 (res + HOUR * hour time) in
  let res := s32 (res + MINUTE * min time) in
  Some (s32 (res + sec time)).

(** ** The calendar *)

Definition is_leap (y : Z) : bool :=
  (y mod 4 =? 0) && (negb (y mod 100 =? 0) || (y mod 400 =? 0)).

Definition month_lengths (y : Z) : list Z :=
  [31; if is_leap y then 29 else 28; 31; 30; 31; 30; 31; 31; 30; 31; 30; 31].

(** Days from 1 January 1970 to 1 January of the [n]th year after it. *)
Fixpoint days_to_year (n : nat) : Z :=
  match n with
  | O => 0
  | S n => days_to_year n + lsum id (month_lengths (1970 + Z.of_nat n))
  end.

(** Days from 1 January 1970 to the day before the first of the month. *)
Definition days_to_month (y m : Z) : Z :=
  days_to_year (Z.to_nat (y - 1970)) + lsum id (take (Z.to_nat m) (month_lengths y)).

(** Seconds since the epoch of a date of the calendar. *)
Definition epoch_seconds (t : mktime) : Z :=
  86400 * (days_to_month (1900 + year t) (mon t) + (day t - 1))
  + 3600 * hour t + 60 * min t + sec t.

Definition valid_date (t : mktime) : Prop :=
  70 <= year t /\ 0 <= mon t < 12 /\
  (exists len, get (month_lengths (1900 + year t)) (mon t) = Some len /\ 1 <= day t <= len) /\
  0 <= hour t < 24 /\ 0 <= min t < 60 /\ 0 <= sec t < 60.

(** ** Correctness *)

(** The seconds the code computes to the start of a month. *)
Definition month_start (y m : Z) : Z :=
  YEAR * (y - 70) + DAY * Z.quot (y - 70 + 1) 4 + default 0 (get month m)
  - (if (1 <? m) && negb (Z.rem (y - 70 + 2) 4 =? 0) then DAY else 0).

Lemma month_start_table :
  forallb (fun y => forallb (fun m => month_start y m =? 86400 * days_to_month (1900 + y) m)
                      (seqZ 0 12)) (seqZ 70 130) = true.
Proof. vm_compute. reflexivity. Qed.

Lemma month_start_correct y m :
  70 <= y < 200 -> 0 <= m < 12 -> month_start y m = 86400 * days_to_month (1900 + y) m.
Proof.
  intros Hy Hm. pose proof month_start_table as H. rewrite forallb_forall in H.
  assert (Hin : In y (seqZ 70 130)) by (apply list_elem_of_In, elem_of_seqZ; lia).
  specialize (H y Hin). cbv beta in H. rewrite forallb_forall in H.
  apply Z.eqb_eq, H. apply list_elem_of_In, elem_of_seqZ. lia.
Qed.

Lemma kernel_mktime_sum t :
  70 <= year t < 200 -> 0 <= mon t < 12 ->
  kernel_mktime t =
    Some (s32 (month_start (year t) (mon t) + DAY * (day t - 1) + HOUR * hour t
               + MINUTE * min t + sec t)).
Proof.
  intros Hy Hm. unfold kernel_mktime, month_start. rewrite (s32_small (year t - 70)) by lia.
  destruct (get_in_range month (mon t)) as [x ->]; [simpl; lia|]. simpl.
  destruct ((1 <? mon t) && _); unfold Z.sub;
    repeat (rewrite s32_add || rewrite <- Z.add_assoc); do 2 f_equal; lia.
Qed.

Lemma kernel_mktime_eq t :
  70 <= year t < 200 -> 0 <= mon t < 12 -> kernel_mktime t = Some (s32 (epoch_seconds t)).
Proof.
  intros Hy Hm. rewrite kernel_mktime_sum by lia. unfold epoch_seconds.
  rewrite month_start_correct by lia. unfold DAY, HOUR, MINUTE. do 2 f_equal. lia.
Qed.

(** [kernel_mktime] counts the seconds of the Gregorian calendar for every
    date from 1970 to 2099, as a 32-bit [long] holds them: the comment's magic
    offsets give the leap years of that whole range, century rule included. *)
Theorem kernel_mktime_calendar t :
  valid_date t -> year t < 200 -> kernel_mktime t = Some (s32 (epoch_seconds t)).
Proof.
  intros (Hy & Hm & _) Hy'. by apply kernel_mktime_eq.
Qed.

Lemma kernel_mktime_calendar_witness :
  kernel_mktime (MkTime 56 34 12 29 1 96) = Some 825597296.
Proof.
  rewrite (kernel_mktime_calendar (MkTime 56 34 12 29 1 96)); [vm_compute; reflexivity| |simpl; lia].
  unfold valid_date. simpl. split_and!; try lia. exists 29. split; [reflexivity|lia].
Defined.

End Mktime.
