(* ===== verification/Clock.v ===== *)
(** * The system clock

    The clock variables of [kernel/sched.c] ([xtime], [tick] and the phase-lock
    loop of [include/linux/timex.h]), the part of [do_timer] that advances them,
    [second_overflow], and the system calls of [kernel/time.c].

    [long] values are [Z] wrapped by [s32] where the code computes them; a shift
    by a count outside [0, 31] is [None].  The MC146818 clock chip and the 8253
    timer are not kernel code: what the kernel reads from them is an argument and
    what it writes is a log of (value, register) pairs. *)

From S2P Require Import Prelude Mktime.
From Stdlib Require Import ZArith Lia.
From stdpp Require Import base list numbers.

Local Open Scope Z_scope.

Module Clock.

Record timeval := Timeval { tv_sec : Z; tv_usec : Z }.

Record timezone := Timezone { tz_minuteswest : Z; tz_dsttime : Z }.

(** ** [include/linux/timex.h] *)

Definition HZ : Z := 100.
Definition SHIFT_HZ : Z := 7.
Definition SHIFT_KG : Z := 8.
Definition SHIFT_KF : Z := 20.
Definition MAXTC : Z := 6.
Definition SHIFT_SCALE : Z := 24.
Definition SHIFT_UPDATE : Z := SHIFT_KG + MAXTC.
Definition FINEUSEC : Z := Z.shiftl 1 SHIFT_SCALE.
Definition MAXFREQ : Z := 100.
Definition MAXSEC : Z := 1200.
Definition CLOCK_TICK_RATE : Z := 1193180.
Definition CLOCK_TICK_FACTOR : Z := 20.
Definition LATCH : Z := (CLOCK_TICK_RATE + HZ / 2) / HZ.
Definition FINETUNE : Z :=
  Z.shiftl (Z.shiftl (LATCH * HZ - CLOCK_TICK_RATE) SHIFT_HZ * (1000000 / CLOCK_TICK_FACTOR)
            / (CLOCK_TICK_RATE / CLOCK_TICK_FACTOR)) (SHIFT_SCALE - SHIFT_HZ) / HZ.

Definition ADJ_OFFSET : Z := 0x0001.
Definition ADJ_FREQUENCY : Z := 0x0002.
Definition ADJ_MAXERROR : Z := 0x0004.
Definition ADJ_ESTERROR : Z := 0x0008.
Definition ADJ_STATUS : Z := 0x0010.
Definition ADJ_TIMECONST : Z := 0x0020.
Definition ADJ_TICK : Z := 0x4000.
Definition ADJ_OFFSET_SINGLESHOT : Z := 0x8001.

Definition TIME_OK : Z := 0.
Definition TIME_INS : Z := 1.
Definition TIME_DEL : Z := 2.
Definition TIME_OOP : Z := 3.
Definition TIME_BAD : Z := 4.

Definition tickadj : Z := 500 / HZ.

(** ** The clock variables *)

Record clock := Clock {
  xtime : timeval;  (* the time at the last tick *)
  tick : Z;  (* microseconds per timer interrupt *)
  time_status : Z;
  time_offset : Z;  (* offset the loop has to correct, in us scaled by 2^SHIFT_UPDATE *)
  time_constant : Z;
  time_tolerance : Z;
  time_precision : Z;
  time_maxerror : Z;
  time_esterror : Z;
  time_phase : Z;  (* fraction of a microsecond, scaled by 2^SHIFT_SCALE *)
  time_freq : Z;
  time_adj : Z;  (* correction per tick, scaled by 2^SHIFT_SCALE *)
  time_reftime : Z;
  time_adjust : Z;  (* what is left of adjtime() *)
  time_adjust_step : Z;  (* what the next tick applies of it *)
  last_rtc_update : Z;  (* the static variable of second_overflow *)
  sys_tz : timezone;
  firsttime : bool;  (* the static variable of sys_settimeofday *)
  cmos_log : list (Z * Z)  (* the (value, register) pairs CMOS_WRITE sent to the chip *)
}.

Definition set_xtime (tv : timeval) (c : clock) : clock :=
  Clock tv (tick c) (time_status c) (time_offset c) (time_constant c) (time_tolerance c)
    (time_precision c) (time_maxerror c) (time_esterror c) (time_phase c) (time_freq c)
    (time_adj c) (time_reftime c) (time_adjust c) (time_adjust_step c) (last_rtc_update c)
    (sys_tz c) (firsttime c) (cmos_log c).

Definition set_tick (x : Z) (c : clock) : clock :=
  Clock (xtime c) x (time_status c) (time_offset c) (time_constant c) (time_tolerance c)
    (time_precision c) (time_maxerror c) (time_esterror c) (time_phase c) (time_freq c)
    (time_adj c) (time_reftime c) (time_adjust c) (time_adjust_step c) (last_rtc_update c)
    (sys_tz c) (firsttime c) (cmos_log c).

Definition set_status (x : Z) (c : clock) : clock :=
  Clock (xtime c) (tick c) x (time_offset c) (time_constant c) (time_tolerance c) (time_precision c)
    (time_maxerror c) (time_esterror c) (time_phase c) (time_freq c) (time_adj c)
    (time_reftime c) (time_adjust c) (time_adjust_step c) (last_rtc_update c) (sys_tz c)
    (firsttime c) (cmos_log c).

Definition set_pll (offset adj : Z) (c : clock) : clock :=
  Clock (xtime c) (tick c) (time_status c) offset (time_constant c) (time_tolerance c)
    (time_precision c) (time_maxerror c) (time_esterror c) (time_phase c) (time_freq c) adj
    (time_reftime c) (time_adjust c) (time_adjust_step c) (last_rtc_update c) (sys_tz c)
    (firsttime c) (cmos_log c).

Definition set_offset (x : Z) (c : clock) : clock :=
  Clock (xtime c) (tick c) (time_status c) x (time_constant c) (time_tolerance c) (time_precision c)
    (time_maxerror c) (time_esterror c) (time_phase c) (time_freq c) (time_adj c)
    (time_reftime c) (time_adjust c) (time_adjust_step c) (last_rtc_update c) (sys_tz c)
    (firsttime c) (cmos_log c).

Definition set_constant (x : Z) (c : clock) : clock :=
  Clock (xtime c) (tick c) (time_status c) (time_offset c) x (time_tolerance c) (time_precision c)
    (time_maxerror c) (time_esterror c) (time_phase c) (time_freq c) (time_adj c)
    (time_reftime c) (time_adjust c) (time_adjust_step c) (last_rtc_update c) (sys_tz c)
    (firsttime c) (cmos_log c).

Definition set_maxerror (x : Z) (c : clock) : clock :=
  Clock (xtime c) (tick c) (time_status c) (time_offset c) (time_constant c) (time_tolerance c)
    (time_precision c) x (time_esterror c) (time_phase c) (time_freq c) (time_adj c)
    (time_reftime c) (time_adjust c) (time_adjust_step c) (last_rtc_update c) (sys_tz c)
    (firsttime c) (cmos_log c).

Definition set_esterror (x : Z) (c : clock) : clock :=
  Clock (xtime c) (tick c) (time_status c) (time_offset c) (time_constant c) (time_tolerance c)
    (time_precision c) (time_maxerror c) x (time_phase c) (time_freq c) (time_adj c)
    (time_reftime c) (time_adjust c) (time_adjust_step c) (last_rtc_update c) (sys_tz c)
    (firsttime c) (cmos_log c).

Definition set_phase (x : Z) (c : clock) : clock :=
  Clock (xtime c) (tick c) (time_status c) (time_offset c) (time_constant c) (time_tolerance c)
    (time_precision c) (time_maxerror c) (time_esterror c) x (time_freq c) (time_adj c)
    (time_reftime c) (time_adjust c) (time_adjust_step c) (last_rtc_update c) (sys_tz c)
    (firsttime c) (cmos_log c).

Definition set_freq (x : Z) (c : clock) : clock :=
  Clock (xtime c) (tick c) (time_status c) (time_offset c) (time_constant c) (time_tolerance c)
    (time_precision c) (time_maxerror c) (time_esterror c) (time_phase c) x (time_adj c)
    (time_reftime c) (time_adjust c) (time_adjust_step c) (last_rtc_update c) (sys_tz c)
    (firsttime c) (cmos_log c).

Definition set_reftime (x : Z) (c : clock) : clock :=
  Clock (xtime c) (tick c) (time_status c) (time_offset c) (time_constant c) (time_tolerance c)
    (time_precision c) (time_maxerror c) (time_esterror c) (time_phase c) (time_freq c)
    (time_adj c) x (time_adjust c) (time_adjust_step c) (last_rtc_update c) (sys_tz c)
    (firsttime c) (cmos_log c).

Definition set_adjust (left step : Z) (c : clock) : clock :=
  Clock (xtime c) (tick c) (time_status c) (time_offset c) (time_constant c) (time_tolerance c)
    (time_precision c) (time_maxerror c) (time_esterror c) (time_phase c) (time_freq c)
    (time_adj c) (time_reftime c) left step (last_rtc_update c) (sys_tz c) (firsttime c)
    (cmos_log c).

Definition set_rtc_update (x : Z) (c : clock) : clock :=
  Clock (xtime c) (tick c) (time_status c) (time_offset c) (time_constant c) (time_tolerance c)
    (time_precision c) (time_maxerror c) (time_esterror c) (time_phase c) (time_freq c)
    (time_adj c) (time_reftime c) (time_adjust c) (time_adjust_step c) x (sys_tz c)
    (firsttime c) (cmos_log c).

Definition set_tz (tz : timezone) (c : clock) : clock :=
  Clock (xtime c) (tick c) (time_status c) (time_offset c) (time_constant c) (time_tolerance c)
    (time_precision c) (time_maxerror c) (time_esterror c) (time_phase c) (time_freq c)
    (time_adj c) (time_reftime c) (time_adjust c) (time_adjust_step c) (last_rtc_update c)
    tz (firsttime c) (cmos_log c).

Definition set_firsttime (b : bool) (c : clock) : clock :=
  Clock (xtime c) (tick c) (time_status c) (time_offset c) (time_constant c) (time_tolerance c)
    (time_precision c) (time_maxerror c) (time_esterror c) (time_phase c) (time_freq c)
    (time_adj c) (time_reftime c) (time_adjust c) (time_adjust_step c) (last_rtc_update c)
    (sys_tz c) b (cmos_log c).

Definition log_cmos (w : list (Z * Z)) (c : clock) : clock :=
  Clock (xtime c) (tick c) (time_status c) (time_offset c) (time_constant c) (time_tolerance c)
    (time_precision c) (time_maxerror c) (time_esterror c) (time_phase c) (time_freq c)
    (time_adj c) (time_reftime c) (time_adjust c) (time_adjust_step c) (last_rtc_update c)
    (sys_tz c) (firsttime c) (cmos_log c ++ w).

(** The values the variables are initialised to. *)
Definition clock_init : clock :=
  Clock (Timeval 0 0) (1000000 / HZ) TIME_BAD 0 0 MAXFREQ 1 0x70000000 0x70000000 0 0 0 0 0 0 0
    (Timezone 0 0) true [].

(** ** The clock chip *)

Definition RTC_SECONDS : Z := 0.
Definition RTC_MINUTES : Z := 2.
Definition RTC_HOURS : Z := 4.
Definition RTC_DAY_OF_MONTH : Z := 7.
Definition RTC_MONTH : Z := 8.
Definition RTC_YEAR : Z := 9.
Definition RTC_FREQ_SELECT : Z := 10.
Definition RTC_CONTROL : Z := 11.
Definition RTC_UIP : Z := 0x80.
Definition RTC_DIV_RESET2 : Z := 0x70.
Definition RTC_SET : Z := 0x80.

Definition BCD_TO_BIN (val : Z) : Z := Z.land val 15 + Z.shiftr val 4 * 10.

Definition BIN_TO_BCD (val : Z) : Z := Z.shiftl (val / 10) 4 + val mod 10.

(** [cmos r] is what the chip returns for register [r]; the result carries the
    writes.  [RTC_ALWAYS_BCD] is 1, so the conversions always happen. *)
Definition set_rtc_mmss (cmos : Z -> Z) (nowtime : Z) : Z * list (Z * Z) :=
  let real_seconds := nowtime mod 60 in
  let real_minutes := nowtime / 60 mod 60 in
  let save_control := cmos RTC_CONTROL in
  let save_freq_select := cmos RTC_FREQ_SELECT in
  let cmos_minutes := u8 (BCD_TO_BIN (cmos RTC_MINUTES)) in
  let before := [(Z.lor save_control RTC_SET, RTC_CONTROL);
                 (Z.lor save_freq_select RTC_DIV_RESET2, RTC_FREQ_SELECT)] in
  let after := [(save_freq_select, RTC_FREQ_SELECT); (save_control, RTC_CONTROL)] in
  if (if cmos_minutes <? real_minutes then real_minutes - cmos_minutes
      else cmos_minutes - real_minutes) <? 30
  then (0, before ++ [(BIN_TO_BCD real_seconds, RTC_SECONDS);
                      (BIN_TO_BCD real_minutes, RTC_MINUTES)] ++ after)
  else (-1, before ++ after).

(** ** The timer interrupt *)

(** [x >> n], undefined for a count outside the width of a [long]. *)
Definition shr (x n : Z) : option Z :=
  if (0 <=? n) && (n <? 32) then Some (Z.shiftr x n) else None.

(** The phase-lock loop: the new [time_offset] and [time_adj]. *)
Definition run_pll (time_offset time_constant : Z) : option (Z * Z) :=
  if time_offset <? 0 then
    x ← shr (s32 (- s32 (time_offset + 1))) (s32 (SHIFT_KG + time_constant));
    let ltemp := s32 (x + 1) in
    let adj := s32 (Z.shiftl ltemp (SHIFT_SCALE - SHIFT_HZ - SHIFT_UPDATE)) in
    Some (s32 (time_offset + Z.shiftr (s32 (adj * HZ)) (SHIFT_SCALE - SHIFT_UPDATE)), s32 (- adj))
  else if 0 <? time_offset then
    x ← shr (s32 (time_offset - 1)) (s32 (SHIFT_KG + time_constant));
    let ltemp := s32 (x + 1) in
    let adj := s32 (Z.shiftl ltemp (SHIFT_SCALE - SHIFT_HZ - SHIFT_UPDATE)) in
    Some (s32 (time_offset - Z.shiftr (s32 (adj * HZ)) (SHIFT_SCALE - SHIFT_UPDATE)), adj)
  else Some (time_offset, 0).

(** The leap second: what happens to [tv_sec] and [time_status]. *)
Definition leap_second (sec status : Z) : Z * Z :=
  if status =? TIME_INS then
    if Z.rem sec 86400 =? 0 then (s32 (sec - 1), TIME_OOP) else (sec, status)
  else if status =? TIME_DEL then
    if Z.rem sec 86400 =? 86399 then (s32 (sec + 1), TIME_OK) else (sec, status)
  else if status =? TIME_OOP then (sec, TIME_OK)
  else (sec, status).

Definition update_rtc (cmos : Z -> Z) (c : clock) : clock :=
  let sec := tv_sec (xtime c) in
  if s32 (last_rtc_update c + 660) <? sec then
    let '(r, w) := set_rtc_mmss cmos (u32 sec) in
    let c := log_cmos w c in
    if r =? 0 then set_rtc_update sec c else c
  else c.

Definition second_overflow (cmos : Z -> Z) (c : clock) : option clock :=
  let c := set_maxerror
             (if s32 (0x70000000 - time_maxerror c) <? time_tolerance c then 0x70000000
              else s32 (time_maxerror c + time_tolerance c)) c in
  '(offset, adj) ← run_pll (time_offset c) (time_constant c);
  let adj := s32 (adj + s32 (Z.shiftr (time_freq c) (SHIFT_KF + SHIFT_HZ - SHIFT_SCALE) + FINETUNE)) in
  let c := set_pll offset adj c in
  let '(sec, status) := leap_second (tv_sec (xtime c)) (time_status c) in
  let c := set_status status (set_xtime (Timeval sec (tv_usec (xtime c))) c) in
  Some (update_rtc cmos c).

(** The whole microseconds the phase is worth, and the phase left over. *)
Definition advance_phase (phase : Z) : Z * Z :=
  if phase <? - FINEUSEC then
    let ltemp := Z.shiftr (s32 (- phase)) SHIFT_SCALE in
    (- ltemp, s32 (phase + s32 (Z.shiftl ltemp SHIFT_SCALE)))
  else if FINEUSEC <? phase then
    let ltemp := Z.shiftr phase SHIFT_SCALE in
    (ltemp, s32 (phase - s32 (Z.shiftl ltemp SHIFT_SCALE)))
  else (0, phase).

(** The step of [adjtime] the next tick applies. *)
Definition adjust_step (left : Z) : Z :=
  if left =? 0 then 0
  else if tickadj <? left then tickadj
  else if left <? - tickadj then - tickadj
  else left.

(** The clock part of [do_timer]. *)
Definition clock_tick (cmos : Z -> Z) (c : clock) : option clock :=
  let '(ltemp, phase) := advance_phase (s32 (time_phase c + time_adj c)) in
  let usec := s32 (tv_usec (xtime c) + (tick c + time_adjust_step c + ltemp)) in
  let step := adjust_step (time_adjust c) in
  let c := set_adjust (s32 (time_adjust c - step)) step (set_phase phase c) in
  if 1000000 <=? usec
  then second_overflow cmos (set_xtime (Timeval (s32 (tv_sec (xtime c) + 1)) (usec - 1000000)) c)
  else Some (set_xtime (Timeval (tv_sec (xtime c)) usec) c).

(** ** The system calls of [kernel/time.c] *)

(** What [do_gettimeoffset] reads: the two bytes of the latched count at port
    0x40 and the interrupt request register at port 0x20. *)
Record ports := Ports { count_lo : Z; count_hi : Z; irr : Z }.

Definition do_gettimeoffset (tick : Z) (p : ports) : Z :=
  let count := Z.lor (count_lo p) (Z.shiftl (count_hi p) 8) in
  let offset := if LATCH - LATCH / 100 <? count
                then if has (irr p) 1 then tick else 0 else 0 in
  let count := s32 ((LATCH - 1 - count) * tick) in
  let count := Z.quot (s32 (count + LATCH / 2)) LATCH in
  u32 (offset + count).

Definition do_gettimeofday (p : ports) (c : clock) : timeval :=
  let usec := s32 (tv_usec (xtime c) + do_gettimeoffset (tick c) p) in
  if 1000000 <=? usec then Timeval (s32 (tv_sec (xtime c) + 1)) (usec - 1000000)
  else Timeval (tv_sec (xtime c)) usec.

(** The result and what is stored at [tloc], if it is not null; [verify] is the
    result of [verify_area]. *)
Definition sys_time (tloc : bool) (verify : Z) (c : clock) : Z * option Z :=
  let i := tv_sec (xtime c) in
  if tloc then if verify =? 0 then (i, Some i) else (verify, None) else (i, None).

Definition bad_time (c : clock) : clock :=
  set_esterror 0x70000000 (set_maxerror 0x70000000 (set_status TIME_BAD c)).

Definition sys_stime (suser : bool) (t : Z) (c : clock) : Z * clock :=
  if negb suser then (- EPERM, c) else (0, bad_time (set_xtime (Timeval t 0) c)).

(** The result and what is stored at [tv] and [tz]; a null pointer is [None],
    another one the result [verify_area] has for it. *)
Definition sys_gettimeofday (tv tz : option Z) (p : ports) (c : clock)
  : Z * option timeval * option timezone :=
  let put_tz (r : option timeval) :=
    match tz with
    | None => (0, r, None)
    | Some error => if error =? 0 then (0, r, Some (sys_tz c)) else (error, r, None)
    end in
  match tv with
  | None => put_tz None
  | Some error => if error =? 0 then put_tz (Some (do_gettimeofday p c)) else (error, None, None)
  end.

Definition warp_clock (c : clock) : clock :=
  set_xtime (Timeval (s32 (tv_sec (xtime c) + s32 (tz_minuteswest (sys_tz c) * 60)))
                     (tv_usec (xtime c))) c.

Definition set_timezone (tv : bool) (tz : timezone) (c : clock) : clock :=
  let c := set_tz tz c in
  if firsttime c then
    let c := set_firsttime false c in
    if tv then c else warp_clock c
  else c.

Definition sys_settimeofday (suser : bool) (tv : option timeval) (tz : option timezone)
    (p : ports) (c : clock) : Z * clock :=
  if negb suser then (- EPERM, c)
  else
    let c := match tz with
             | Some z => set_timezone (bool_decide (is_Some tv)) z c
             | None => c
             end in
    match tv with
    | None => (0, c)
    | Some (Timeval sec usec) =>
        let usec := s32 (usec - do_gettimeoffset (tick c) p) in
        let '(sec, usec) := if usec <? 0 then (s32 (sec - 1), s32 (usec + 1000000)) else (sec, usec) in
        (0, bad_time (set_xtime (Timeval sec usec) c))
    end.

Record timex := Timex {
  mode : Z;
  offset : Z;
  frequency : Z;
  maxerror : Z;
  esterror : Z;
  status : Z;
  constant : Z;
  precision : Z;
  tolerance : Z;
  time : timeval;
  tx_tick : Z
}.

(** The checks before anything changes. *)
Definition adjtimex_bad (txc : timex) : bool :=
  (has (mode txc) ADJ_OFFSET &&
     ((offset txc <=? - Z.shiftl 1 (31 - SHIFT_UPDATE)) || (Z.shiftl 1 (31 - SHIFT_UPDATE) <=? offset txc)))
  || (has (mode txc) ADJ_STATUS && ((status txc <? TIME_OK) || (TIME_BAD <? status txc)))
  || (has (mode txc) ADJ_TICK && ((tx_tick txc <? 900000 / HZ) || (1100000 / HZ <? tx_tick txc))).

(** The [ADJ_OFFSET] request that is not a single shot. *)
Definition adjust_offset (offset : Z) (c : clock) : option clock :=
  let c := set_offset (s32 (Z.shiftl offset SHIFT_UPDATE)) c in
  let mtemp := s32 (tv_sec (xtime c) - time_reftime c) in
  let c := set_reftime (tv_sec (xtime c)) c in
  let mtemp := if (MAXSEC + 2 <? mtemp) || (mtemp <? 0) then 0 else mtemp in
  let count := s32 (time_constant c + time_constant c) in
  freq ← (if offset <? 0
          then x ← shr (s32 (s32 (- offset) * mtemp)) count; Some (s32 (time_freq c - x))
          else x ← shr (s32 (offset * mtemp)) count; Some (s32 (time_freq c + x)));
  let ltemp := s32 (Z.shiftl (time_tolerance c) SHIFT_KF) in
  Some (set_freq (if ltemp <? freq then ltemp else if freq <? - ltemp then - ltemp else freq) c).

Definition adjtimex_modes (txc : timex) (c : clock) : option clock :=
  let c := if time_status c =? TIME_BAD then set_status TIME_OK c else c in
  let c := if has (mode txc) ADJ_STATUS then set_status (status txc) c else c in
  let c := if has (mode txc) ADJ_FREQUENCY
           then set_freq (s32 (Z.shiftl (frequency txc) (SHIFT_KF - 16))) c else c in
  let c := if has (mode txc) ADJ_MAXERROR then set_maxerror (maxerror txc) c else c in
  let c := if has (mode txc) ADJ_ESTERROR then set_esterror (esterror txc) c else c in
  let c := if has (mode txc) ADJ_TIMECONST then set_constant (constant txc) c else c in
  c ← (if has (mode txc) ADJ_OFFSET then
         if mode txc =? ADJ_OFFSET_SINGLESHOT
         then Some (set_adjust (offset txc) (time_adjust_step c) c)
         else adjust_offset (offset txc) c
       else Some c);
  Some (if has (mode txc) ADJ_TICK then set_tick (tx_tick txc) c else c).

(** The result, the structure copied back (if it is) and the new clock. *)
Definition sys_adjtimex (verify : Z) (suser : bool) (txc : timex) (c : clock)
  : option (Z * option timex * clock) :=
  if negb (verify =? 0) then Some (verify, None, c)
  else if negb (mode txc =? 0) && negb suser then Some (- EPERM, None, c)
  else if adjtimex_bad txc then Some (- EINVAL, None, c)
  else
    c' ← (if mode txc =? 0 then Some c else adjtimex_modes txc c);
    Some (time_status c',
          Some (Timex (mode txc) (time_adjust c) (Z.shiftr (s32 (time_freq c' + 1)) (SHIFT_KF - 16))
                  (time_maxerror c') (time_esterror c') (time_status c') (time_constant c')
                  (time_precision c') (time_tolerance c') (xtime c') (tick c')),
          c').

(** ** Setting the clock at boot *)

Section time_init.
(** [read k r] is what the [k]th access to the chip returns for register [r]. *)
Variable read : nat -> Z -> Z.

(** The loops that wait for the update flag; the number of accesses so far. *)
Fixpoint wait_uip (i : nat) (want : bool) (k : nat) : nat :=
  match i with
  | O => k
  | S i => if Bool.eqb (has (read k RTC_FREQ_SELECT) RTC_UIP) want then S k
           else wait_uip i want (S k)
  end.

Fixpoint read_rtc (fuel : nat) (k : nat) : option Mktime.mktime :=
  match fuel with
  | O => None
  | S fuel =>
      let t := Mktime.MkTime (read k RTC_SECONDS) (read (k + 1) RTC_MINUTES) (read (k + 2) RTC_HOURS)
                 (read (k + 3) RTC_DAY_OF_MONTH) (read (k + 4) RTC_MONTH) (read (k + 5) RTC_YEAR) in
      if Mktime.sec t =? read (k + 6) RTC_SECONDS then Some t else read_rtc fuel (k + 7)
  end.

Definition time_init (fuel : nat) (c : clock) : option clock :=
  let k := wait_uip (Z.to_nat 1000000) true 0 in
  let k := wait_uip (Z.to_nat 1000000) false k in
  t ← read_rtc fuel k;
  let t := Mktime.MkTime (BCD_TO_BIN (Mktime.sec t)) (BCD_TO_BIN (Mktime.min t))
             (BCD_TO_BIN (Mktime.hour t)) (BCD_TO_BIN (Mktime.day t))
             (BCD_TO_BIN (Mktime.mon t) - 1) (BCD_TO_BIN (Mktime.year t)) in
  sec ← Mktime.kernel_mktime t;
  Some (set_xtime (Timeval sec (tv_usec (xtime c))) c).
End time_init.

(** ** Shifts and the phase *)

Lemma FINETUNE_eq : FINETUNE = 2811494.
Proof. reflexivity. Qed.

Lemma FINEUSEC_eq : FINEUSEC = 16777216.
Proof. reflexivity. Qed.

Lemma LATCH_eq : LATCH = 11932.
Proof. reflexivity. Qed.

Lemma advance_phase_spec ph l ph' :
  advance_phase ph = (l, ph') -> - 2 ^ 30 <= ph <= 2 ^ 30 ->
  FINEUSEC * l + ph' = ph /\ - FINEUSEC <= ph' <= FINEUSEC /\ -64 <= l <= 64.
Proof.
  unfold advance_phase, FINEUSEC, SHIFT_SCALE. rewrite !Z.shiftl_mul_pow2, !Z.shiftr_div_pow2 by lia.
  change (2 ^ 24) with 16777216. intros E H.
  destruct (Z.ltb_spec ph (- (1 * 16777216))); [|destruct (Z.ltb_spec (1 * 16777216) ph)];
    injection E as <- <-.
  - rewrite (s32_small (- ph)) by lia. pose proof (Z.div_mod (- ph) 16777216).
    pose proof (Z.mod_pos_bound (- ph) 16777216).
    rewrite (s32_small (_ * 16777216)), s32_small by lia. lia.
  - pose proof (Z.div_mod ph 16777216). pose proof (Z.mod_pos_bound ph 16777216).
    rewrite (s32_small (_ * 16777216)), s32_small by lia. lia.
  - lia.
Qed.

Lemma adjust_step_spec left :
  - 5 <= adjust_step left <= 5 /\ Z.abs (left - adjust_step left) = Z.max 0 (Z.abs left - 5) /\
  0 <= left * (left - adjust_step left).
Proof.
  unfold adjust_step, tickadj. change (500 / HZ) with 5. change (- (5)) with (-5).
  destruct (Z.eqb_spec left 0); [lia|]. destruct (Z.ltb_spec 5 left); [nia|].
  destruct (Z.ltb_spec left (-5)); [nia|lia].
Qed.

Lemma shr_small x n : 0 <= n < 32 -> shr x n = Some (x / 2 ^ n).
Proof.
  intros H. unfold shr. rewrite Z.shiftr_div_pow2 by lia.
  destruct (Z.leb_spec 0 n), (Z.ltb_spec n 32); simpl; [done|lia..].
Qed.

(** ** The phase-lock loop *)

(** [ceil (x / 2^n)] as the loop computes it. *)
Definition pll_gain (x tc : Z) : Z := (x - 1) / 2 ^ (SHIFT_KG + tc) + 1.

Lemma pll_gain_bounds x tc :
  0 < x <= 2 ^ 31 -> 0 <= tc <= MAXTC ->
  0 < pll_gain x tc <= 2 ^ 23 /\ 2 ^ (SHIFT_KG + tc) * (pll_gain x tc - 1) < x <= 2 ^ (SHIFT_KG + tc) * pll_gain x tc.
Proof.
  unfold pll_gain, SHIFT_KG, MAXTC. intros Hx Htc.
  assert (H8 : 2 ^ 8 <= 2 ^ (8 + tc)) by (apply Z.pow_le_mono_r; lia).
  set (d := 2 ^ (8 + tc)) in *. clearbody d. change (2 ^ 8) with 256 in *. change (2 ^ 23) with 8388608.
  pose proof (Z.div_mod (x - 1) d). pose proof (Z.mod_pos_bound (x - 1) d).
  assert ((x - 1) / d <= (x - 1) / 256) by (apply Z.div_le_compat_l; lia).
  assert ((x - 1) / 256 < 8388608) by (apply Z.div_lt_upper_bound; lia).
  assert (0 <= (x - 1) / d) by (apply Z.div_pos; lia). nia.
Qed.

(** One run of the loop, with the wrap-around of [time_adj * HZ] left in. *)
Lemma run_pll_eq o tc :
  - 2 ^ 31 <= o < 2 ^ 31 -> 0 <= tc <= MAXTC ->
  run_pll o tc =
    Some (if o =? 0 then (0, 0) else
          let g := pll_gain (Z.abs o) tc in
          (s32 (o - Z.sgn o * (s32 (8 * g * HZ) / 2 ^ 10)), Z.sgn o * (8 * g))).
Proof.
  intros Ho Htc. unfold run_pll. rewrite (s32_small (SHIFT_KG + tc)) by (unfold SHIFT_KG, MAXTC in *; lia).
  change (SHIFT_SCALE - SHIFT_HZ - SHIFT_UPDATE) with 3. change (SHIFT_SCALE - SHIFT_UPDATE) with 10.
  assert (Hc : 0 <= SHIFT_KG + tc < 32) by (unfold SHIFT_KG, MAXTC in *; lia).
  rewrite !shr_small by done. destruct (Z.ltb_spec o 0).
  - destruct (Z.eqb_spec o 0); [lia|]. rewrite (s32_small (o + 1)), (s32_small (- _)) by lia. simpl.
    rewrite (Z.sgn_neg o), (Z.abs_neq o) by lia.
    destruct (pll_gain_bounds (- o) tc) as [Hg _]; [lia|done|]. unfold pll_gain in *.
    replace (- (o + 1)) with (- o - 1) by lia. set (g := _ + 1) in *. clearbody g.
    rewrite (s32_small g), Z.shiftl_mul_pow2, Z.shiftr_div_pow2, (s32_small (g * 2 ^ 3)), (s32_small (- _)) by lia.
    do 2 f_equal; [|lia]. f_equal. replace (g * 2 ^ 3) with (8 * g) by lia. lia.
  - destruct (Z.eqb_spec o 0), (Z.ltb_spec 0 o); try lia; [by subst|]. rewrite (s32_small (o - 1)) by lia. simpl.
    rewrite (Z.sgn_pos o), (Z.abs_eq o) by lia.
    destruct (pll_gain_bounds o tc) as [Hg _]; [lia|done|]. unfold pll_gain in *.
    set (g := _ + 1) in *. clearbody g.
    rewrite (s32_small g), Z.shiftl_mul_pow2, Z.shiftr_div_pow2, (s32_small (g * 2 ^ 3)) by lia.
    do 2 f_equal; [|lia]. f_equal. replace (g * 2 ^ 3) with (8 * g) by lia. lia.
Qed.

(** Offsets up to 41943 us do not overflow. *)
Lemma run_pll_small o tc :
  Z.abs o <= 41943 * 2 ^ 14 -> 0 <= tc <= MAXTC ->
  exists o' a, run_pll o tc = Some (o', a) /\
    0 <= Z.sgn o * o' <= Z.abs o /\ Z.abs o' = Z.abs o - HZ * Z.abs a / 2 ^ 10 /\
    (2 ^ (SHIFT_KG + tc) < Z.abs o -> Z.abs o' < Z.abs o).
Proof.
  intros Ho Htc. rewrite run_pll_eq by lia. destruct (Z.eqb_spec o 0) as [->|Hz].
  { eexists 0, 0. split_and!; try done; lia. }
  eexists _, _. split; [done|]. destruct (pll_gain_bounds (Z.abs o) tc) as [Hg Hx]; [lia|done|].
  assert (H8 : 2 ^ 8 <= 2 ^ (SHIFT_KG + tc)) by (apply Z.pow_le_mono_r; unfold SHIFT_KG; lia).
  set (g := pll_gain (Z.abs o) tc) in *. clearbody g. set (d := 2 ^ (SHIFT_KG + tc)) in *. clearbody d.
  assert (Hg' : g <= 2684352) by nia. unfold HZ. rewrite (s32_small (8 * g * 100)) by lia.
  pose proof (Z.div_mod (8 * g * 100) (2 ^ 10)). pose proof (Z.mod_pos_bound (8 * g * 100) (2 ^ 10)).
  assert (Hq : 0 <= 8 * g * 100 / 2 ^ 10 <= Z.abs o) by nia.
  replace (Z.abs (Z.sgn o * (8 * g))) with (8 * g) by nia.
  replace (100 * (8 * g)) with (8 * g * 100) by lia. set (q := 8 * g * 100 / 2 ^ 10) in *.
  rewrite s32_small by nia. split_and!; nia.
Qed.

(** What is left of the offset after [n] seconds. *)
Fixpoint pll_seconds (n : nat) (o tc : Z) : option Z :=
  match n with
  | O => Some o
  | S n => '(o', _) ← run_pll o tc; pll_seconds n o' tc
  end.

(** the phase-lock loop converges: an offset of at most 41943 us shrinks every
    second, without changing sign, until it is worth at most one microsecond
    ([2^SHIFT_UPDATE] in its scale). *)
Theorem pll_converges o tc :
  Z.abs o <= 41943 * 2 ^ 14 -> 0 <= tc <= MAXTC ->
  exists n o', pll_seconds n o tc = Some o' /\
    Z.abs o' <= 2 ^ SHIFT_UPDATE /\ Z.abs o' <= Z.abs o /\ 0 <= Z.sgn o * o'.
Proof.
  intros Ho Htc. assert (Hd : 2 ^ (SHIFT_KG + tc) <= 2 ^ SHIFT_UPDATE).
  { apply Z.pow_le_mono_r; unfold SHIFT_UPDATE, SHIFT_KG, MAXTC in *; lia. }
  remember (Z.to_nat (Z.abs o)) as k eqn:Hk. revert o Ho Hk.
  induction k as [k IH] using lt_wf_ind. intros o Ho ->.
  destruct (Z.le_gt_cases (Z.abs o) (2 ^ (SHIFT_KG + tc))).
  { exists 0%nat, o. simpl. split_and!; [done|lia|nia..]. }
  destruct (run_pll_small o tc Ho Htc) as (o1 & a & E & Hs & _ & Hlt). specialize (Hlt ltac:(lia)).
  destruct (IH (Z.to_nat (Z.abs o1)) ltac:(lia) o1 ltac:(lia) eq_refl) as (n & o' & En & H1 & H2 & H3).
  exists (S n), o'. simpl. rewrite E. simpl. split_and!; [done..|lia|].
  destruct (Z.sgn_spec o) as [[? E1]|[[? E1]|[? E1]]], (Z.sgn_spec o1) as [[? E2]|[[? E2]|[? E2]]];
    rewrite E1, ?E2 in *; lia.
Qed.

Lemma pll_converges_witness :
  exists n o', pll_seconds n (- 40000 * 2 ^ 14) 2 = Some o' /\
    Z.abs o' <= 2 ^ SHIFT_UPDATE /\ Z.abs o' <= Z.abs (- 40000 * 2 ^ 14) /\ 0 <= Z.sgn (- 40000 * 2 ^ 14) * o'.
Proof. apply (pll_converges (- 40000 * 2 ^ 14) 2); unfold MAXTC; lia. Defined.

(** above that the product [time_adj * HZ] of [second_overflow] wraps around:
    for every offset from 41944 us to 83885 us, which [sys_adjtimex] accepts, the
    loop makes the remaining offset larger. *)
Theorem pll_offset_overflow u :
  41944 <= u <= 83885 ->
  run_pll (u * 2 ^ SHIFT_UPDATE) 0 = Some (u * 2 ^ SHIFT_UPDATE + (2 ^ 22 - 50 * u), 512 * u) /\
  0 < 2 ^ 22 - 50 * u.
Proof.
  intros Hu. change (2 ^ SHIFT_UPDATE) with 16384. rewrite run_pll_eq by (unfold MAXTC; lia).
  destruct (Z.eqb_spec (u * 16384) 0); [lia|]. cbv zeta. unfold pll_gain, HZ.
  change (2 ^ (SHIFT_KG + 0)) with 256. rewrite Z.sgn_pos, Z.abs_eq by lia.
  rewrite <- (Z.div_unique (u * 16384 - 1) 256 (64 * u - 1) 255) by lia.
  replace (64 * u - 1 + 1) with (64 * u) by lia.
  rewrite (s32_over (8 * (64 * u) * 100)) by lia. split; [|lia].
  rewrite <- (Z.div_unique (8 * (64 * u) * 100 - 2 ^ 32) (2 ^ 10) (50 * u - 2 ^ 22) 0) by lia.
  rewrite s32_small by lia. do 2 f_equal; lia.
Qed.

Lemma pll_offset_overflow_witness :
  run_pll (50000 * 2 ^ SHIFT_UPDATE) 0 =
    Some (50000 * 2 ^ SHIFT_UPDATE + (2 ^ 22 - 50 * 50000), 512 * 50000) /\ 0 < 2 ^ 22 - 50 * 50000.
Proof. apply (pll_offset_overflow 50000). lia. Defined.

(** ** Keeping time *)

Record clock_ok (c : clock) : Prop := {
  ok_usec : 0 <= tv_usec (xtime c) < 1000000;
  ok_sec : 0 <= tv_sec (xtime c);
  ok_tick : 9000 <= tick c <= 11000;
  ok_constant : 0 <= time_constant c <= MAXTC;
  ok_offset : - 2 ^ 31 <= time_offset c < 2 ^ 31;
  ok_freq : - 2 ^ 31 <= time_freq c < 2 ^ 31;
  ok_phase : - FINEUSEC <= time_phase c <= FINEUSEC;
  ok_adj : - 2 ^ 29 <= time_adj c <= 2 ^ 29;
  ok_adjust : - 2 ^ 31 <= time_adjust c < 2 ^ 31;
  ok_step : - tickadj <= time_adjust_step c <= tickadj
}.

(** The clock in microseconds. *)
Definition now (c : clock) : Z := 1000000 * tv_sec (xtime c) + tv_usec (xtime c).

(** The leap second due when the clock reaches second [sec]. *)
Definition leap_delta (sec status : Z) : Z :=
  if (status =? TIME_INS) && (sec mod 86400 =? 0) then -1
  else if (status =? TIME_DEL) && (sec mod 86400 =? 86399) then 1 else 0.

Lemma leap_second_spec sec status sec' status' :
  leap_second sec status = (sec', status') -> 0 <= sec < 2 ^ 31 - 1 ->
  sec' = sec + leap_delta sec status.
Proof.
  unfold leap_second, leap_delta. intros E H. rewrite Z.rem_mod_nonneg in E by lia.
  repeat case_bool_in E; simplify_eq/=; rewrite ?s32_small by lia; try lia.
  all: repeat match goal with H : (_ =? _) = true |- _ => apply Z.eqb_eq in H; rewrite H in * end; simpl in *; try lia.
Qed.

Lemma update_rtc_xtime cmos c :
  exists u w, update_rtc cmos c = set_rtc_update u (log_cmos w c).
Proof.
  unfold update_rtc. case_bool.
  - destruct (set_rtc_mmss _ _) as [r w]. case_bool; [by eexists _, w|].
    exists (last_rtc_update c), w. by destruct c.
  - exists (last_rtc_update c), []. destruct c. unfold set_rtc_update, log_cmos. simpl. by rewrite app_nil_r.
Qed.

Lemma second_overflow_spec cmos c :
  0 <= tv_usec (xtime c) < 1000000 -> 0 < tv_sec (xtime c) < 2 ^ 31 - 1 -> 9000 <= tick c <= 11000 ->
  0 <= time_constant c <= MAXTC -> - 2 ^ 31 <= time_offset c < 2 ^ 31 ->
  - 2 ^ 31 <= time_freq c < 2 ^ 31 -> - FINEUSEC <= time_phase c <= FINEUSEC ->
  - 2 ^ 31 <= time_adjust c < 2 ^ 31 -> - tickadj <= time_adjust_step c <= tickadj ->
  exists c', second_overflow cmos c = Some c' /\ clock_ok c' /\
    now c' = now c + 1000000 * leap_delta (tv_sec (xtime c)) (time_status c) /\
    time_phase c' = time_phase c /\ time_adjust c' = time_adjust c /\
    time_adjust_step c' = time_adjust_step c /\ tick c' = tick c.
Proof.
  intros Hu Hs Ht Htc Ho Hf Hp Ha Hst. unfold second_overflow. cbn [time_offset time_constant set_maxerror].
  rewrite run_pll_eq by done.
  set (oa := if time_offset c =? 0 then _ else _).
  assert (Hoa : - 2 ^ 31 <= oa.1 < 2 ^ 31 /\ - 2 ^ 26 <= oa.2 <= 2 ^ 26).
  { unfold oa. destruct (Z.eqb_spec (time_offset c) 0); [simpl; lia|]. cbn [fst snd].
    destruct (pll_gain_bounds (Z.abs (time_offset c)) (time_constant c)) as [Hg _]; [lia|done|].
    set (g := pll_gain _ _) in *. clearbody g. split; [apply s32_range|].
    destruct (Z.sgn_spec (time_offset c)) as [[? ->]|[[? ->]|[? ->]]]; lia. }
  destruct oa as [o a]. cbn [mbind option_bind fst snd] in *. cbn [time_freq set_maxerror set_pll xtime time_status].
  destruct (leap_second _ _) as [s st] eqn:El. apply leap_second_spec in El; [|lia].
  destruct (update_rtc_xtime cmos (set_status st (set_xtime (Timeval s (tv_usec (xtime c)))
    (set_pll o (s32 (a + s32 (Z.shiftr (time_freq c) (SHIFT_KF + SHIFT_HZ - SHIFT_SCALE) + FINETUNE)))
      (set_maxerror (if s32 (0x70000000 - time_maxerror c) <? time_tolerance c then 0x70000000
                     else s32 (time_maxerror c + time_tolerance c)) c))))) as (u & w & ->).
  eexists. split; [done|]. split; [|split_and!; try done; unfold now; simpl; lia].
  assert (Hl : 0 <= s) by (unfold leap_delta in El; repeat case_bool_in El; lia).
  change (SHIFT_KF + SHIFT_HZ - SHIFT_SCALE) with 3. rewrite FINETUNE_eq, Z.shiftr_div_pow2 by lia.
  assert (Hq : - 2 ^ 28 <= time_freq c / 2 ^ 3 <= 2 ^ 28) by (split; [apply Z.div_le_lower_bound|apply Z.div_le_upper_bound]; lia).
  rewrite (s32_small (_ + 2811494)), s32_small by lia.
  constructor; simpl; try done; lia.
Qed.

(** The leap second a tick from [c] to [c'] inserted (-1) or deleted (1); the
    microseconds go down exactly when a new second starts. *)
Definition leap_of (c c' : clock) : Z :=
  if tv_usec (xtime c') <? tv_usec (xtime c) then leap_delta (tv_sec (xtime c) + 1) (time_status c) else 0.

(** One timer interrupt: microseconds, phase and [adjtime] add up. *)
Lemma clock_tick_spec cmos c :
  clock_ok c -> tv_sec (xtime c) < 2 ^ 31 - 2 ->
  exists c', clock_tick cmos c = Some c' /\ clock_ok c' /\
    FINEUSEC * now c' + time_phase c' =
      FINEUSEC * (now c + tick c + time_adjust_step c + 1000000 * leap_of c c') + time_phase c + time_adj c /\
    time_adjust_step c' = adjust_step (time_adjust c) /\
    time_adjust c' = time_adjust c - adjust_step (time_adjust c) /\ tick c' = tick c.
Proof.
  intros [Hu Hs Ht Htc Ho Hf Hp Ha Had Hst] Hsec. unfold clock_tick. pose proof FINEUSEC_eq as HF.
  rewrite (s32_small (time_phase c + time_adj c)) by lia.
  destruct (advance_phase _) as [l ph] eqn:Ep.
  apply advance_phase_spec in Ep as (He & Hph & Hl); [|lia].
  destruct (adjust_step_spec (time_adjust c)) as (Hst' & Hab & Hsg). change (- tickadj) with (-5) in *.
  change tickadj with 5 in *. rewrite (s32_small (tv_usec (xtime c) + _)), (s32_small (time_adjust c - _)) by lia.
  set (usec := tv_usec (xtime c) + _). destruct (Z.leb_spec 1000000 usec).
  - simpl tv_sec. rewrite (s32_small (tv_sec (xtime c) + 1)) by lia.
    match goal with |- context [second_overflow cmos ?d] =>
      destruct (second_overflow_spec cmos d) as (c' & -> & Hok & Hn & Hfr) end;
      simpl; try done; try (unfold usec in *; lia).
    simpl in Hfr, Hn. destruct Hfr as (E1 & E2 & E3 & E4). eexists c'. split; [done|]. split; [done|].
    assert (Hd : tv_usec (xtime c') = usec - 1000000).
    { destruct Hok as [Hu' _ _ _ _ _ _ _ _ _]. unfold now in Hn. simpl in Hn. unfold usec in *. lia. }
    split_and!; [|done..]. unfold leap_of. rewrite Hd, E1, Hn. unfold now. simpl.
    destruct (Z.ltb_spec (usec - 1000000) (tv_usec (xtime c))); unfold usec in *; lia.
  - eexists. split; [done|]. split_and!; simpl; try done; unfold now, leap_of; simpl.
    + constructor; simpl; try done; unfold usec in *; change tickadj with 5; lia.
    + destruct (Z.ltb_spec usec (tv_usec (xtime c))); unfold usec in *; lia.
Qed.

(** [n] ticks, with the sum of the corrections the loop asked for and of the leap
    seconds. *)
Fixpoint clock_run (cmos : nat -> Z -> Z) (n : nat) (c : clock) : option (clock * Z * Z) :=
  match n with
  | O => Some (c, 0, 0)
  | S n => c' ← clock_tick (cmos n) c;
           '(c'', drift, leaps) ← clock_run cmos n c';
           Some (c'', time_adj c + drift, leap_of c c' + leaps)
  end.

Lemma leap_of_bounds c c' : -1 <= leap_of c c' <= 1.
Proof. unfold leap_of, leap_delta. repeat case_bool; lia. Qed.

Lemma clock_tick_sec cmos c c' :
  clock_ok c -> tv_sec (xtime c) < 2 ^ 31 - 2 -> clock_tick cmos c = Some c' ->
  tv_sec (xtime c') <= tv_sec (xtime c) + 2.
Proof.
  intros Hok Hs E. destruct (clock_tick_spec cmos c Hok Hs) as (c1 & E1 & Hok1 & Hn & _).
  rewrite E in E1. injection E1 as <-. pose proof (leap_of_bounds c c').
  destruct Hok as [Hu _ Ht _ _ _ Hp Ha _ Hst], Hok1 as [Hu1 _ _ _ _ _ Hp1 _ _ _].
  unfold now in Hn. rewrite FINEUSEC_eq in *. change tickadj with 5 in *. lia.
Qed.

(** C34: the clock keeps time: over any number of ticks, whatever the clock chip
    returns, it advances by exactly [tick] microseconds per tick plus what the
    phase-lock loop asked for plus the leap seconds, to the [2^-24]th of a
    microsecond, and what [adjtime] asked for is either applied or still due;
    [tv_usec] stays below a second, and the amount still due shrinks by
    [tickadj] at every tick until it is 0. *)
Theorem clock_keeps_time cmos n c :
  clock_ok c -> tv_sec (xtime c) + 2 * Z.of_nat n < 2 ^ 31 - 2 ->
  exists c' drift leaps, clock_run cmos n c = Some (c', drift, leaps) /\ clock_ok c' /\
    FINEUSEC * (now c' + time_adjust_step c' + time_adjust c') + time_phase c' =
      FINEUSEC * (now c + time_adjust_step c + time_adjust c + Z.of_nat n * tick c + 1000000 * leaps)
      + time_phase c + drift /\
    Z.abs (time_adjust c') = Z.max 0 (Z.abs (time_adjust c) - tickadj * Z.of_nat n) /\ tick c' = tick c.
Proof.
  revert c. induction n as [|n IH]; intros c Hok Hs.
  { exists c, 0, 0. split; [done|]. split; [done|]. change tickadj with 5. lia. }
  destruct (clock_tick_spec (cmos n) c Hok) as (c1 & E & Hok1 & Hn & Est & Ead & Et); [lia|].
  pose proof (clock_tick_sec (cmos n) c c1 Hok ltac:(lia) E) as Hs1.
  destruct (IH c1 Hok1 ltac:(lia)) as (c2 & drift & leaps & E2 & Hok2 & Hn2 & Ha2 & Et2).
  destruct (adjust_step_spec (time_adjust c)) as (_ & Hab & _).
  eexists c2, _, _. simpl. rewrite E. simpl. rewrite E2. simpl. split; [done|]. split; [done|].
  change tickadj with 5 in *. rewrite Ead, Est, Et in *. split_and!; [|lia..].
  rewrite FINEUSEC_eq in *. lia.
Qed.

Lemma clock_keeps_time_witness :
  let c := set_adjust (-12) 0 (set_xtime (Timeval 700000000 999990) clock_init) in
  exists c' drift leaps, clock_run (fun _ _ => 0) 3 c = Some (c', drift, leaps) /\ clock_ok c' /\
    FINEUSEC * (now c' + time_adjust_step c' + time_adjust c') + time_phase c' =
      FINEUSEC * (now c + time_adjust_step c + time_adjust c + Z.of_nat 3 * tick c + 1000000 * leaps)
      + time_phase c + drift /\
    Z.abs (time_adjust c') = Z.max 0 (Z.abs (time_adjust c) - tickadj * Z.of_nat 3) /\ tick c' = tick c.
Proof.
  intros c. apply (clock_keeps_time (fun _ _ => 0) 3 c).
  - constructor; vm_compute; intuition discriminate.
  - vm_compute. reflexivity.
Defined.

(** ** The clock chip *)

Lemma BCD_table : forallb (fun v => (BCD_TO_BIN (BIN_TO_BCD v) =? v) && (BIN_TO_BCD v <? 256)) (seqZ 0 100) = true.
Proof. vm_compute. reflexivity. Qed.

Lemma BCD_roundtrip v : 0 <= v < 100 -> BCD_TO_BIN (BIN_TO_BCD v) = v.
Proof.
  intros H. pose proof BCD_table as Ht. rewrite forallb_forall in Ht.
  apply Z.eqb_eq. assert (Hin : In v (seqZ 0 100)) by (apply list_elem_of_In, elem_of_seqZ; lia).
  by apply Ht, andb_true_iff in Hin as [-> _].
Qed.

(** The registers after a series of writes. *)
Definition chip_after (w : list (Z * Z)) (cmos : Z -> Z) : Z -> Z :=
  foldl (fun f x r => if r =? x.2 then x.1 else f r) cmos w.

(** [set_rtc_mmss] sets the minutes and seconds of the clock chip to those of
    the kernel's time when the two are less than 30 minutes apart, and fails
    otherwise; either way every other register ends up as it was, the control
    registers it uses to stop the chip included. *)
Theorem set_rtc_mmss_spec cmos m nowtime r w :
  0 <= nowtime < 2 ^ 32 -> 0 <= m < 60 -> cmos RTC_MINUTES = BIN_TO_BCD m ->
  set_rtc_mmss cmos nowtime = (r, w) ->
  (forall reg, reg <> RTC_SECONDS -> reg <> RTC_MINUTES -> chip_after w cmos reg = cmos reg) /\
  if Z.abs (nowtime / 60 mod 60 - m) <? 30
  then r = 0 /\ BCD_TO_BIN (chip_after w cmos RTC_SECONDS) = nowtime mod 60 /\
       BCD_TO_BIN (chip_after w cmos RTC_MINUTES) = nowtime / 60 mod 60
  else r = -1 /\ forall reg, chip_after w cmos reg = cmos reg.
Proof.
  intros Hn Hm Hc. unfold set_rtc_mmss. rewrite Hc, BCD_roundtrip by lia.
  assert (u8 m = m) as -> by (apply Z.mod_small; lia).
  assert (Hr : forall x y : Z, (if x <? y then y - x else x - y) = Z.abs (y - x)).
  { intros x y. destruct (Z.ltb_spec x y); lia. }
  rewrite Hr. pose proof (Z.mod_pos_bound nowtime 60). pose proof (Z.mod_pos_bound (nowtime / 60) 60).
  destruct (Z.ltb_spec (Z.abs (nowtime / 60 mod 60 - m)) 30); intros [= <- <-].
  - unfold chip_after. simpl. split; [|rewrite !BCD_roundtrip by lia; done].
    intros reg ? ?. destruct (Z.eqb_spec reg RTC_CONTROL) as [->|]; [done|].
    destruct (Z.eqb_spec reg RTC_FREQ_SELECT) as [->|]; [done|].
    destruct (Z.eqb_spec reg RTC_MINUTES); [done|]. destruct (Z.eqb_spec reg RTC_SECONDS); done.
  - unfold chip_after. simpl.
    assert (Hreg : forall reg, (if reg =? RTC_CONTROL then cmos RTC_CONTROL
      else if reg =? RTC_FREQ_SELECT then cmos RTC_FREQ_SELECT
      else if reg =? RTC_FREQ_SELECT then Z.lor (cmos RTC_FREQ_SELECT) RTC_DIV_RESET2
      else if reg =? RTC_CONTROL then Z.lor (cmos RTC_CONTROL) RTC_SET else cmos reg) = cmos reg).
    { intros reg. destruct (Z.eqb_spec reg RTC_CONTROL) as [->|]; [done|].
      destruct (Z.eqb_spec reg RTC_FREQ_SELECT) as [->|]; done. }
    by split; [intros|split].
Qed.

Lemma set_rtc_mmss_spec_witness :
  let cmos r := if r =? RTC_MINUTES then BIN_TO_BCD 40 else r in
  let w := (set_rtc_mmss cmos (3600 + 34 * 60 + 56)).2 in
  (forall reg, reg <> RTC_SECONDS -> reg <> RTC_MINUTES -> chip_after w cmos reg = cmos reg) /\
  (if Z.abs ((3600 + 34 * 60 + 56) / 60 mod 60 - 40) <? 30
   then 0 = 0 /\ BCD_TO_BIN (chip_after w cmos RTC_SECONDS) = (3600 + 34 * 60 + 56) mod 60 /\
        BCD_TO_BIN (chip_after w cmos RTC_MINUTES) = (3600 + 34 * 60 + 56) / 60 mod 60
   else 0 = -1 /\ forall reg, chip_after w cmos reg = cmos reg).
Proof.
  intros cmos w. apply (set_rtc_mmss_spec cmos 40 (3600 + 34 * 60 + 56) 0 w); [lia|lia|reflexivity|reflexivity].
Defined.

(** ** The time at boot *)

Section boot.
Context (read : nat -> Z -> Z) (date : nat -> Mktime.mktime).

(** What the data sheet says of the chip: at every access the registers hold the
    date in BCD, with the month from 1 and the year without its century. *)
Hypothesis chip_sec : forall k, read k RTC_SECONDS = BIN_TO_BCD (Mktime.sec (date k)).
Hypothesis chip_min : forall k, read k RTC_MINUTES = BIN_TO_BCD (Mktime.min (date k)).
Hypothesis chip_hour : forall k, read k RTC_HOURS = BIN_TO_BCD (Mktime.hour (date k)).
Hypothesis chip_day : forall k, read k RTC_DAY_OF_MONTH = BIN_TO_BCD (Mktime.day (date k)).
Hypothesis chip_mon : forall k, read k RTC_MONTH = BIN_TO_BCD (Mktime.mon (date k) + 1).
Hypothesis chip_year : forall k, read k RTC_YEAR = BIN_TO_BCD (Mktime.year (date k) mod 100).
Hypothesis chip_valid : forall k, Mktime.valid_date (date k) /\ Mktime.year (date k) < 200.

(** Seven accesses take less than a minute, so if the seconds are the same at
    both ends the date did not change between; and the seconds do not change in
    two groups of seven accesses one after the other. *)
Hypothesis chip_slow : forall k i, Mktime.sec (date k) = Mktime.sec (date (k + 6)) -> (i <= 6)%nat ->
  date (k + i) = date k.
Hypothesis chip_stable : forall k, Mktime.sec (date k) = Mktime.sec (date (k + 6)) \/
  Mktime.sec (date (k + 7)) = Mktime.sec (date (k + 7 + 6)).

Lemma valid_day k : 0 <= Mktime.day (date k) < 100.
Proof.
  destruct (chip_valid k) as [(_ & _ & (len & Hl & Hd) & _) _]. unfold get in Hl. case_bool_in Hl; [done|].
  assert (len <= 31); [|lia]. apply list_elem_of_lookup_2 in Hl. unfold Mktime.month_lengths in Hl.
  repeat (apply elem_of_cons in Hl as [->|Hl]; [repeat case_bool; lia|]). by apply elem_of_nil in Hl.
Qed.

Lemma read_rtc_consistent fuel k :
  exists j, read_rtc read (S (S fuel)) k =
    Some (Mktime.MkTime (BIN_TO_BCD (Mktime.sec (date j))) (BIN_TO_BCD (Mktime.min (date j)))
            (BIN_TO_BCD (Mktime.hour (date j))) (BIN_TO_BCD (Mktime.day (date j)))
            (BIN_TO_BCD (Mktime.mon (date j) + 1)) (BIN_TO_BCD (Mktime.year (date j) mod 100))).
Proof.
  assert (Hpass : forall k fuel, Mktime.sec (date k) = Mktime.sec (date (k + 6)) -> read_rtc read (S fuel) k =
    Some (Mktime.MkTime (BIN_TO_BCD (Mktime.sec (date k))) (BIN_TO_BCD (Mktime.min (date k)))
            (BIN_TO_BCD (Mktime.hour (date k))) (BIN_TO_BCD (Mktime.day (date k)))
            (BIN_TO_BCD (Mktime.mon (date k) + 1)) (BIN_TO_BCD (Mktime.year (date k) mod 100)))).
  { intros k' f Hk. cbn [read_rtc Mktime.sec]. rewrite !chip_sec, <- Hk, Z.eqb_refl.
    rewrite chip_min, chip_hour, chip_day, chip_mon, chip_year, !chip_slow; [done|done|lia..]. }
  destruct (chip_stable k) as [H|H]; [exists k; by apply Hpass|].
  destruct (decide (Mktime.sec (date k) = Mktime.sec (date (k + 6)))); [exists k; by apply Hpass|].
  change (read_rtc read (S (S fuel)) k) with
    (if read k RTC_SECONDS =? read (k + 6) RTC_SECONDS then
       Some (Mktime.MkTime (read k RTC_SECONDS) (read (k + 1) RTC_MINUTES) (read (k + 2) RTC_HOURS)
         (read (k + 3) RTC_DAY_OF_MONTH) (read (k + 4) RTC_MONTH) (read (k + 5) RTC_YEAR))
     else read_rtc read (S fuel) (k + 7)).
  destruct (Z.eqb_spec (read k RTC_SECONDS) (read (k + 6) RTC_SECONDS)) as [E|_]; [|by eexists; apply Hpass].
  rewrite !chip_sec in E. apply (f_equal BCD_TO_BIN) in E.
  destruct (chip_valid k) as [(_ & _ & _ & _ & _ & ?) _], (chip_valid (k + 6)) as [(_ & _ & _ & _ & _ & ?) _].
  rewrite !BCD_roundtrip in E by lia. done.
Qed.

(** at boot, while the clock chip shows dates of the years 1970 to 1999,
    [time_init] sets the clock to the seconds of a date the chip showed: two
    passes over the registers are enough, and the fields of two dates are never
    mixed. *)
Theorem time_init_correct fuel c :
  (forall k, Mktime.year (date k) < 100) ->
  exists j, time_init read (S (S fuel)) c =
    Some (set_xtime (Timeval (s32 (Mktime.epoch_seconds (date j))) (tv_usec (xtime c))) c).
Proof.
  intros Hy. unfold time_init. destruct (read_rtc_consistent fuel
    (wait_uip read (Z.to_nat 1000000) false (wait_uip read (Z.to_nat 1000000) true 0))) as [j ->].
  exists j. cbn [mbind option_bind Mktime.sec Mktime.min Mktime.hour Mktime.day Mktime.mon Mktime.year].
  pose proof (valid_day j). destruct (chip_valid j) as [(Hy' & Hm & _ & Hh & Hmi & Hs) _]. specialize (Hy j).
  rewrite (Z.mod_small (Mktime.year (date j)) 100) by lia.
  rewrite !BCD_roundtrip by lia. replace (Mktime.mon (date j) + 1 - 1) with (Mktime.mon (date j)) by lia.
  assert (Hd : forall d, Mktime.MkTime (Mktime.sec d) (Mktime.min d) (Mktime.hour d) (Mktime.day d)
    (Mktime.mon d) (Mktime.year d) = d) by (by intros []).
  rewrite Hd, (Mktime.kernel_mktime_eq (date j)) by lia. done.
Qed.
End boot.

Lemma time_init_correct_witness :
  let date := Mktime.MkTime 56 34 12 29 1 96 in
  let read (k : nat) r := BIN_TO_BCD (if r =? RTC_SECONDS then 56 else if r =? RTC_MINUTES then 34
    else if r =? RTC_HOURS then 12 else if r =? RTC_DAY_OF_MONTH then 29 else if r =? RTC_MONTH then 2
    else if r =? RTC_YEAR then 96 else 0) in
  time_init read 2 clock_init = Some (set_xtime (Timeval (s32 (Mktime.epoch_seconds date)) 0) clock_init).
Proof.
  intros date read.
  destruct (time_init_correct read (fun _ => date) ltac:(done) ltac:(done) ltac:(done) ltac:(done)
    ltac:(done) ltac:(done)) with (fuel := 0%nat) (c := clock_init) as [j E].
  - intros k. unfold Mktime.valid_date. simpl. split_and!; try lia. exists 29. split; [reflexivity|lia].
  - done.
  - intros k. by left.
  - intros k. simpl. lia.
  - exact E.
Defined.

(** From 2000 on the chip shows the year 00, which [kernel_mktime] takes for 1900:
    on 1 January 2000 the clock starts in February 2036. *)
Theorem time_init_year_2000 read c :
  (forall k r, read k r = if (r =? RTC_DAY_OF_MONTH) || (r =? RTC_MONTH) then 1 else 0) ->
  time_init read 2 c = Some (set_xtime (Timeval 2085978496 (tv_usec (xtime c))) c) /\
  Mktime.epoch_seconds (Mktime.MkTime 0 0 0 1 0 100) = 946684800.
Proof.
  intros Hr. split; [|vm_compute; reflexivity]. unfold time_init.
  generalize (wait_uip read (Z.to_nat 1000000) false (wait_uip read (Z.to_nat 1000000) true 0)). intros k.
  unfold read_rtc. rewrite !Hr. reflexivity.
Qed.

(** ** Reading and setting the time of day *)

(** The counter the 8253 counts down from [LATCH]. *)
Definition ports_ok (p : ports) : Prop :=
  0 <= Z.lor (count_lo p) (Z.shiftl (count_hi p) 8) <= LATCH.

Lemma do_gettimeoffset_bounds t p :
  ports_ok p -> 9000 <= t <= 11000 -> 0 <= do_gettimeoffset t p <= 2 * t.
Proof.
  unfold ports_ok, do_gettimeoffset. rewrite LATCH_eq. intros Hp Ht.
  set (n := Z.lor _ _) in *. clearbody n. change (11932 / 2) with 5966.
  rewrite (s32_small ((11932 - 1 - n) * t)), s32_small by nia.
  assert (Hq : 0 <= Z.quot ((11932 - 1 - n) * t + 5966) 11932 <= t).
  { destruct (Z.le_gt_cases 0 ((11932 - 1 - n) * t + 5966)).
    - rewrite Z.quot_div_nonneg by lia. split; [apply Z.div_pos; lia|]. apply Z.div_le_upper_bound; nia.
    - assert (n = 11932) as -> by nia. rewrite (proj2 (Z.quot_small_iff ((11932 - 1 - 11932) * t + 5966) 11932 ltac:(lia))); lia. }
  rewrite u32_small; repeat case_bool; lia.
Qed.

(** [sys_settimeofday] and [sys_gettimeofday] are inverse: right after the
    superuser set a time, the same reading of the timer gives back exactly that
    time, and the stored time is normalised although the code sets it back by
    what the timer has counted. *)
Theorem settimeofday_roundtrip tz p c sec usec c' r :
  ports_ok p -> 9000 <= tick c <= 11000 -> - 2 ^ 31 <= sec < 2 ^ 31 -> 0 <= usec < 1000000 ->
  sys_settimeofday true (Some (Timeval sec usec)) tz p c = (r, c') ->
  r = 0 /\ do_gettimeofday p c' = Timeval sec usec /\
  0 <= tv_usec (xtime c') < 1000000 /\ time_status c' = TIME_BAD.
Proof.
  intros Hp Ht Hs Hu. unfold sys_settimeofday. cbn [negb].
  set (c0 := match tz with Some z => _ | None => c end).
  assert (Et : tick c0 = tick c).
  { unfold c0, set_timezone. destruct tz; [|done]. repeat case_bool; done. }
  pose proof (do_gettimeoffset_bounds (tick c) p Hp Ht) as Ho. cbv zeta. rewrite Et.
  unfold do_gettimeofday. destruct (if s32 _ <? 0 then _ else _) as [sec' usec'] eqn:E. intros [= <- <-].
  cbn [bad_time set_esterror set_maxerror set_status set_xtime xtime tick tv_sec tv_usec time_status].
  rewrite Et. set (o := do_gettimeoffset (tick c) p) in *. clearbody o.
  rewrite (s32_small (usec - o)) in E by lia. destruct (Z.ltb_spec (usec - o) 0); injection E as <- <-.
  - rewrite (s32_small (usec - o + 1000000)), s32_small by lia.
    destruct (Z.leb_spec 1000000 (usec - o + 1000000 + o)); [|lia].
    rewrite s32_add, s32_small by lia. split_and!; try done; try lia. f_equal; lia.
  - rewrite s32_small by lia. destruct (Z.leb_spec 1000000 (usec - o + o)); [lia|].
    split_and!; try done; try lia. f_equal; lia.
Qed.

Definition port_half : ports := Ports 0x4e 0x17 0.

Lemma settimeofday_roundtrip_witness :
  do_gettimeofday port_half (sys_settimeofday true (Some (Timeval 700000000 123)) None port_half clock_init).2
    = Timeval 700000000 123.
Proof.
  eapply (settimeofday_roundtrip None port_half clock_init 700000000 123 _ 0);
    [vm_compute; intuition discriminate|simpl; vm_compute; intuition discriminate|lia|lia|reflexivity].
Defined.

(** [sys_settimeofday] does not check [tv_usec]: with a value of several seconds
    [gettimeofday] reports more than a second of microseconds. *)
Theorem settimeofday_unnormalised p c sec usec :
  ports_ok p -> 9000 <= tick c <= 11000 -> - 2 ^ 31 <= sec < 2 ^ 31 - 1 -> 2000000 <= usec < 2 ^ 31 ->
  let c' := (sys_settimeofday true (Some (Timeval sec usec)) None p c).2 in
  do_gettimeofday p c' = Timeval (sec + 1) (usec - 1000000) /\ 1000000 <= tv_usec (do_gettimeofday p c').
Proof.
  intros Hp Ht Hs Hu. unfold sys_settimeofday. cbn [negb]. cbv zeta.
  pose proof (do_gettimeoffset_bounds (tick c) p Hp Ht) as Ho. unfold do_gettimeofday.
  rewrite (s32_small (usec - _)) by lia. destruct (Z.ltb_spec (usec - do_gettimeoffset (tick c) p) 0); [lia|].
  cbn [snd bad_time set_esterror set_maxerror set_status set_xtime xtime tick tv_sec tv_usec].
  rewrite (s32_small (usec - _ + _)), (s32_small (sec + 1)) by lia.
  destruct (Z.leb_spec 1000000 (usec - do_gettimeoffset (tick c) p + do_gettimeoffset (tick c) p)); [|lia].
  simpl. split; [f_equal|]; lia.
Qed.

(** ** adjtimex *)

(** A request that leaves the time constant alone, its values [long]s. *)
Definition request_ok (txc : timex) : Prop :=
  has (mode txc) ADJ_TIMECONST = false /\ - 2 ^ 31 <= offset txc < 2 ^ 31.

Lemma adjust_offset_ok o c :
  clock_ok c -> time_tolerance c = MAXFREQ -> Z.abs o < 2 ^ 17 ->
  exists f, adjust_offset o c =
    Some (set_freq f (set_reftime (tv_sec (xtime c)) (set_offset (o * 2 ^ SHIFT_UPDATE) c))) /\
    Z.abs f <= MAXFREQ * 2 ^ SHIFT_KF.
Proof.
  intros [_ _ _ Htc _ _ _ _ _ _] Htol Ho. unfold adjust_offset.
  assert (Hc : 0 <= time_constant c + time_constant c < 32) by (unfold MAXTC in *; lia).
  cbn [set_offset set_reftime time_constant xtime time_freq time_tolerance time_reftime].
  set (mt := if _ || _ then _ else _). clearbody mt.
  rewrite (s32_small (time_constant c + time_constant c)), !shr_small by lia.
  change (2 ^ SHIFT_UPDATE) with 16384. rewrite (Z.shiftl_mul_pow2 o SHIFT_UPDATE) by done.
  change (2 ^ SHIFT_UPDATE) with 16384. rewrite (s32_small (o * 16384)) by lia.
  rewrite Htol. change (s32 (Z.shiftl MAXFREQ SHIFT_KF)) with 104857600. change (MAXFREQ * 2 ^ SHIFT_KF) with 104857600.
  destruct (o <? 0); cbn [mbind option_bind]; (eexists; split; [done|]);
    match goal with |- context [_ <? ?x] => destruct (Z.ltb_spec 104857600 x), (Z.ltb_spec x (- (104857600))) end; lia.
Qed.

Lemma adjtimex_modes_ok txc c :
  clock_ok c -> time_tolerance c = MAXFREQ -> request_ok txc -> adjtimex_bad txc = false ->
  exists c', adjtimex_modes txc c = Some c' /\ clock_ok c' /\ xtime c' = xtime c /\
    (mode txc = ADJ_OFFSET_SINGLESHOT -> time_adjust c' = offset txc /\ time_offset c' = time_offset c).
Proof.
  intros Hok Htol [Htc Ho] Hb. unfold adjtimex_modes. rewrite Htc.
  match goal with |- context [Some (set_adjust _ _ ?d)] => set (c1 := d) end.
  assert (H1 : clock_ok c1 /\ xtime c1 = xtime c /\ time_tolerance c1 = MAXFREQ /\ time_offset c1 = time_offset c).
  { unfold c1. destruct Hok. repeat case_bool; split_and!; try done; constructor; simpl; try done; apply s32_range. }
  clearbody c1. destruct H1 as (Hok1 & Hx & Htol1 & Hof). unfold adjtimex_bad in Hb.
  apply orb_false_iff in Hb as [[Hb1 _]%orb_false_iff Hb3].
  assert (H2 : exists c2, (if has (mode txc) ADJ_OFFSET then
         if mode txc =? ADJ_OFFSET_SINGLESHOT then Some (set_adjust (offset txc) (time_adjust_step c1) c1)
         else adjust_offset (offset txc) c1 else Some c1) = Some c2 /\ clock_ok c2 /\ xtime c2 = xtime c /\
      (mode txc = ADJ_OFFSET_SINGLESHOT -> time_adjust c2 = offset txc /\ time_offset c2 = time_offset c)).
  { destruct (has (mode txc) ADJ_OFFSET) eqn:Eh.
    - simpl in Hb1. apply orb_false_iff in Hb1 as [?%Z.leb_gt ?%Z.leb_gt].
      change (Z.shiftl 1 (31 - SHIFT_UPDATE)) with 131072 in *.
      destruct (Z.eqb_spec (mode txc) ADJ_OFFSET_SINGLESHOT).
      + eexists. split; [done|]. split_and!; try done. destruct Hok1. constructor; try done.
      + destruct (adjust_offset_ok (offset txc) c1 Hok1 Htol1) as (f & -> & Hf); [lia|].
        eexists. split; [done|]. split_and!; try done.
        change (MAXFREQ * 2 ^ SHIFT_KF) with 104857600 in Hf. change (2 ^ SHIFT_UPDATE) with 16384.
        destruct Hok1. constructor; simpl; try done; lia.
    - exists c1. split_and!; try done; intros E; rewrite E in Eh; done. }
  destruct H2 as (c2 & -> & Hok2 & Hx2 & Hs). simpl. eexists. split; [done|].
  destruct (has (mode txc) ADJ_TICK); [|done]. simpl in Hb3.
  apply orb_false_iff in Hb3 as [?%Z.ltb_ge ?%Z.ltb_ge]. split_and!; try done.
  change (900000 / HZ) with 9000 in *. change (1100000 / HZ) with 11000 in *.
  destruct Hok2. constructor; simpl; done.
Qed.

(** [sys_adjtimex] protects the clock: a request fails with no effect when the
    caller may not make it or a value is out of range, an accepted one (that
    does not set the time constant) leaves every variable within its bounds, and
    what it reports is the clock after the change with, as [adjtime] specifies,
    the adjustment that was left before. *)
Theorem adjtimex_safe su txc c :
  clock_ok c -> time_tolerance c = MAXFREQ -> request_ok txc ->
  exists r out c', sys_adjtimex 0 su txc c = Some (r, out, c') /\ clock_ok c' /\ now c' = now c /\
    match out with
    | None => c' = c /\ (r = - EPERM /\ su = false \/ r = - EINVAL /\ adjtimex_bad txc = true)
    | Some t => (mode txc = 0 /\ c' = c \/ su = true) /\ r = time_status c' /\
                offset t = time_adjust c /\ time t = xtime c /\ tx_tick t = tick c' /\
                (mode txc = ADJ_OFFSET_SINGLESHOT -> time_adjust c' = offset txc /\ time_offset c' = time_offset c)
    end.
Proof.
  intros Hok Htol [Htc Ho]. unfold sys_adjtimex. change (negb (0 =? 0)) with false. cbv iota.
  destruct (negb (mode txc =? 0) && negb su) eqn:Hp.
  { eexists _, None, c. split_and!; try done. left. split; [done|]. by destruct su; [rewrite andb_false_r in Hp|]. }
  destruct (adjtimex_bad txc) eqn:Hb; [eexists _, None, c; split_and!; try done; by right|].
  destruct (Z.eqb_spec (mode txc) 0) as [Hm|Hm].
  { eexists _, _, c. split; [done|]. split_and!; try done; [by left|]. simpl. rewrite Hm. done. }
  destruct (adjtimex_modes_ok txc c Hok Htol (conj Htc Ho) Hb) as (c' & -> & Hok' & Hx & Hs).
  eexists _, _, c'. split; [done|]. split_and!; try done; [by unfold now; rewrite Hx|].
  simpl. right. by destruct su.
Qed.

Lemma adjtimex_safe_witness :
  let txc := Timex ADJ_OFFSET_SINGLESHOT (-70) 0 0 0 0 0 0 0 (Timeval 0 0) 0 in
  exists r out c', sys_adjtimex 0 true txc clock_init = Some (r, out, c') /\ clock_ok c' /\ now c' = now clock_init /\
    match out with
    | None => c' = clock_init /\ (r = - EPERM /\ true = false \/ r = - EINVAL /\ adjtimex_bad txc = true)
    | Some t => (mode txc = 0 /\ c' = clock_init \/ true = true) /\ r = time_status c' /\
                offset t = time_adjust clock_init /\ time t = xtime clock_init /\ tx_tick t = tick c' /\
                (mode txc = ADJ_OFFSET_SINGLESHOT ->
                 time_adjust c' = offset txc /\ time_offset c' = time_offset clock_init)
    end.
Proof.
  intros txc. apply (adjtimex_safe true txc clock_init).
  - constructor; vm_compute; intuition discriminate.
  - reflexivity.
  - split; vm_compute; intuition discriminate.
Defined.

(** The time constant is not checked: the superuser can set one for which the
    shift of [second_overflow] has a count of 32 or more. *)
Theorem adjtimex_constant_unchecked cmos c k :
  0 < time_offset c -> 24 <= k < 2 ^ 20 ->
  exists r out c', sys_adjtimex 0 true (Timex ADJ_TIMECONST 0 0 0 0 0 k 0 0 (Timeval 0 0) 0) c = Some (r, out, c') /\
    time_constant c' = k /\ second_overflow cmos c' = None.
Proof.
  intros Ho Hk. set (c1 := if time_status c =? TIME_BAD then set_status TIME_OK c else c).
  exists (time_status c1). eexists _, (set_constant k c1). split; [reflexivity|]. split; [done|].
  assert (E : time_offset c1 = time_offset c) by (unfold c1; by case_bool). clearbody c1.
  unfold second_overflow. cbn [time_offset time_constant set_maxerror set_constant]. rewrite E. unfold run_pll.
  destruct (Z.ltb_spec (time_offset c) 0), (Z.ltb_spec 0 (time_offset c)); try lia.
  unfold shr, SHIFT_KG. rewrite (s32_small (8 + k)) by lia. destruct (Z.ltb_spec (8 + k) 32); [lia|].
  by rewrite andb_false_r.
Qed.

End Clock.
