(* ===== verification/Itimer.v ===== *)
(** * Interval timers ([src/kernel/itimer.c], [sys_alarm] of [src/kernel/sched.c])

    The operations on the three timers of a task.  The current task is an
    argument and a result; [itimer_ticks] and [itimer_next] are the variables of
    [kernel/sched.c] with the same names. *)

From S2P Require Import Prelude Sched Clock.
From Stdlib Require Import ZArith Lia.
From stdpp Require Import base list numbers.
Import Sched Clock.

Local Open Scope Z_scope.

Module Itimer.

Definition ITIMER_REAL : Z := 0.
Definition ITIMER_VIRTUAL : Z := 1.
Definition ITIMER_PROF : Z := 2.

Record itimerval := Itimerval { it_interval : timeval; it_value : timeval }.

Definition tvtojiffies (value : timeval) : Z :=
  u32 (u32 (u32 (tv_sec value) * HZ)
       + u32 (s32 (tv_usec value + (1000000 / HZ - 1))) / (1000000 / HZ)).

Definition jiffiestotv (jiffies : Z) : timeval :=
  Timeval (jiffies / HZ) (jiffies mod HZ * (1000000 / HZ)).

(** The result and the value stored. *)
Definition _getitimer (which : Z) (current : task) : Z * option itimerval :=
  let found val interval := (0, Some (Itimerval (jiffiestotv interval) (jiffiestotv val))) in
  if which =? ITIMER_REAL then found (it_real_value current) (it_real_incr current)
  else if which =? ITIMER_VIRTUAL then found (it_virt_value current) (it_virt_incr current)
  else if which =? ITIMER_PROF then found (it_prof_value current) (it_prof_incr current)
  else (- EINVAL, None).

(** [value] is whether the pointer is not null, [verify] what [verify_area]
    returns for it. *)
Definition sys_getitimer (which : Z) (value : bool) (verify : Z) (current : task) : Z * option itimerval :=
  if negb value then (- EFAULT, None)
  else
    let '(error, buf) := _getitimer which current in
    if negb (error =? 0) then (error, None)
    else if negb (verify =? 0) then (verify, None)
    else (0, buf).

(** [ovalue] is whether the old value is wanted.  The result: return value, old
    value, the task and [itimer_next]. *)
Definition _setitimer (which : Z) (value : itimerval) (ovalue : bool)
    (itimer_ticks itimer_next : Z) (current : task) : Z * option itimerval * task * Z :=
  let i := tvtojiffies (it_interval value) in
  let j := tvtojiffies (it_value value) in
  let '(k, old) := if ovalue then _getitimer which current else (0, None) in
  if k <? 0 then (k, old, current, itimer_next)
  else if which =? ITIMER_REAL then
    let '(j, next) := if negb (j =? 0)
                      then let j := u32 (j + u32 (1 + itimer_ticks)) in
                           (j, if j <? itimer_next then j else itimer_next)
                      else (j, itimer_next) in
    (0, old, set_real current j i, next)
  else if which =? ITIMER_VIRTUAL then
    (0, old, set_virt current (if negb (j =? 0) then u32 (j + 1) else j) i, itimer_next)
  else if which =? ITIMER_PROF then
    (0, old, set_prof current (if negb (j =? 0) then u32 (j + 1) else j) i, itimer_next)
  else (- EINVAL, old, current, itimer_next).

Definition sys_setitimer (which : Z) (value : option itimerval) (ovalue : bool) (verify : Z)
    (itimer_ticks itimer_next : Z) (current : task) : Z * option itimerval * task * Z :=
  let set_buffer := default (Itimerval (Timeval 0 0) (Timeval 0 0)) value in
  let '(error, get_buffer, current, next) :=
    _setitimer which set_buffer ovalue itimer_ticks itimer_next current in
  if negb (error =? 0) || negb ovalue then (error, None, current, next)
  else (verify, if verify =? 0 then get_buffer else None, current, next).

Definition sys_alarm (seconds : Z) (itimer_ticks itimer_next : Z) (current : task) : option (Z * task * Z) :=
  let it_new := Itimerval (Timeval 0 0) (Timeval seconds 0) in
  let '(_, it_old, current, next) := _setitimer ITIMER_REAL it_new true itimer_ticks itimer_next current in
  o ← it_old;
  Some (s32 (tv_sec (it_value o) + Z.quot (tv_usec (it_value o)) 1000000), current, next).

(** ** Conversions *)

(** The microseconds of a [timeval]. *)
Definition usecs (tv : timeval) : Z := 1000000 * tv_sec tv + tv_usec tv.

Definition tv_ok (tv : timeval) : Prop := 0 <= tv_sec tv < 40000000 /\ 0 <= tv_usec tv < 1000000.

Lemma HZ_eq : HZ = 100.
Proof. reflexivity. Qed.

Lemma tvtojiffies_spec tv :
  tv_ok tv -> 10000 * (tvtojiffies tv - 1) < usecs tv <= 10000 * tvtojiffies tv /\ 0 <= tvtojiffies tv <= 4000000000.
Proof.
  intros [Hs Hu]. unfold tvtojiffies, usecs. rewrite HZ_eq. change (1000000 / 100) with 10000.
  pose proof (Z.div_mod (tv_usec tv + 9999) 10000). pose proof (Z.mod_pos_bound (tv_usec tv + 9999) 10000).
  rewrite s32_small by lia. change (10000 - 1) with 9999.
  rewrite (u32_small (tv_sec tv)), (u32_small (_ + 9999)) by lia.
  rewrite (u32_small (tv_sec tv * 100)), u32_small by lia. lia.
Qed.

Lemma jiffiestotv_usecs j : 0 <= j -> usecs (jiffiestotv j) = 10000 * j /\ 0 <= tv_usec (jiffiestotv j) < 1000000.
Proof.
  intros Hj. unfold jiffiestotv, usecs. rewrite HZ_eq. simpl.
  pose proof (Z.div_mod j 100). pose proof (Z.mod_pos_bound j 100). change (1000000 / 100) with 10000. lia.
Qed.

(** The ticks a timer waits beyond the ones asked for. *)
Definition slack (which itimer_ticks : Z) : Z := if which =? ITIMER_REAL then 1 + itimer_ticks else 1.

Lemma setitimer_get which value ticks next p :
  0 <= which <= 2 -> tv_ok (it_value value) -> tv_ok (it_interval value) -> 0 <= ticks < 200000000 ->
  exists p' next', _setitimer which value false ticks next p = (0, None, p', next') /\
    _getitimer which p' =
      (0, Some (Itimerval (jiffiestotv (tvtojiffies (it_interval value)))
          (jiffiestotv (if tvtojiffies (it_value value) =? 0 then 0
                        else tvtojiffies (it_value value) + slack which ticks)))).
Proof.
  intros Hw Hv Hi Ht. destruct (tvtojiffies_spec _ Hv) as [_ Hj]. unfold _setitimer. change (0 <? 0) with false. cbv iota.
  set (j := tvtojiffies (it_value value)) in *. clearbody j. unfold slack.
  assert (Hw' : which = ITIMER_REAL \/ which = ITIMER_VIRTUAL \/ which = ITIMER_PROF)
    by (unfold ITIMER_REAL, ITIMER_VIRTUAL, ITIMER_PROF; lia).
  destruct Hw' as [-> | [-> | ->]]; simpl; (destruct (Z.eqb_spec j 0) as [->|]; simpl; eexists _, _;
    (split; [done|]); unfold _getitimer; simpl; rewrite ?(u32_small (1 + ticks)), ?u32_small by lia; done).
Qed.

(** what [setitimer] is given, [getitimer] reports: right after the call the
    interval reported is the one asked for, rounded up to the tick, and the
    value is at least the one asked for and less than two ticks (and for the real
    timer the ticks since the last [schedule]) more; zero disarms the timer and
    is reported as zero. *)
Theorem setitimer_getitimer which value ticks next p :
  0 <= which <= 2 -> tv_ok (it_value value) -> tv_ok (it_interval value) -> 0 <= ticks < 200000000 ->
  exists p' next' got, _setitimer which value false ticks next p = (0, None, p', next') /\
    _getitimer which p' = (0, Some got) /\
    usecs (it_interval value) <= usecs (it_interval got) < usecs (it_interval value) + 10000 /\
    (if usecs (it_value value) =? 0 then usecs (it_value got) = 0
     else usecs (it_value value) + 10000 * slack which ticks <= usecs (it_value got)
          < usecs (it_value value) + 10000 * (slack which ticks + 1)) /\
    0 <= tv_usec (it_value got) < 1000000.
Proof.
  intros Hw Hv Hi Ht. destruct (setitimer_get which value ticks next p Hw Hv Hi Ht) as (p' & next' & E & Eg).
  eexists p', next', _. split; [exact E|]. split; [exact Eg|]. cbn [it_interval it_value].
  destruct (tvtojiffies_spec _ Hv) as [Hj Hj0], (tvtojiffies_spec _ Hi) as [Hk Hk0].
  assert (Hsl : 0 <= slack which ticks) by (unfold slack; case_bool; lia).
  assert (Hu0 : 0 <= usecs (it_value value)) by (destruct Hv; unfold usecs; lia).
  destruct (jiffiestotv_usecs (tvtojiffies (it_interval value))) as [-> _]; [lia|].
  destruct (Z.eqb_spec (tvtojiffies (it_value value)) 0) as [E0|E0].
  - destruct (jiffiestotv_usecs 0) as [-> Hu]; [lia|]. destruct (Z.eqb_spec (usecs (it_value value)) 0); [|lia].
    split_and!; lia.
  - destruct (jiffiestotv_usecs (tvtojiffies (it_value value) + slack which ticks)) as [-> Hu]; [lia|].
    destruct (Z.eqb_spec (usecs (it_value value)) 0); [lia|]. split_and!; lia.
Qed.

Lemma setitimer_getitimer_witness :
  exists p' next' got,
    _setitimer ITIMER_REAL (Itimerval (Timeval 1 5) (Timeval 2 30000)) false 3 1000 (idle_task 0 15)
      = (0, None, p', next') /\
    _getitimer ITIMER_REAL p' = (0, Some got) /\
    usecs (Timeval 1 5) <= usecs (it_interval got) < usecs (Timeval 1 5) + 10000 /\
    (if usecs (Timeval 2 30000) =? 0 then usecs (it_value got) = 0
     else usecs (Timeval 2 30000) + 10000 * slack ITIMER_REAL 3 <= usecs (it_value got)
          < usecs (Timeval 2 30000) + 10000 * (slack ITIMER_REAL 3 + 1)) /\
    0 <= tv_usec (it_value got) < 1000000.
Proof.
  apply (setitimer_getitimer ITIMER_REAL (Itimerval (Timeval 1 5) (Timeval 2 30000)) 3 1000 (idle_task 0 15));
    unfold tv_ok, ITIMER_REAL; simpl; lia.
Defined.

(** the real timer is never early: a timer set for [v] microseconds is left
    alone by a scheduler pass that comes [n] ticks later as long as [n - 1] full
    ticks are less than [v]; the first pass after that sends the signal. *)
Theorem real_timer_not_early value ticks next nx p n p' next' :
  tv_ok (it_value value) -> tv_ok (it_interval value) -> 0 <= ticks < 200000000 ->
  0 < usecs (it_value value) -> 0 <= n < 90000000 -> 0 < ticks + n ->
  _setitimer ITIMER_REAL value false ticks next p = (0, None, p', next') ->
  if 10000 * (n - 1) <? usecs (it_value value)
  then exists nx', run_itimer (ticks + n) nx p' =
         Some (set_real p' (it_real_value p' - (ticks + n)) (it_real_incr p'), nx') /\
       0 < it_real_value p' - (ticks + n)
  else it_real_value p' <= ticks + n.
Proof.
  intros Hv Hi Ht Hpos Hn Hnz E. destruct (tvtojiffies_spec _ Hv) as [Hj Hj0].
  unfold _setitimer in E. change (0 <? 0) with false in E. cbv iota in E. simpl in E.
  destruct (Z.eqb_spec (tvtojiffies (it_value value)) 0) as [E0|E0]; [lia|]. simpl in E.
  rewrite (u32_small (1 + ticks)), u32_small in E by lia. injection E as <- <-. cbn [it_real_value it_real_incr set_real].
  destruct (Z.ltb_spec (10000 * (n - 1)) (usecs (it_value value))); [|lia].
  unfold run_itimer. cbn [it_real_value it_real_incr set_real].
  destruct (Z.eqb_spec (ticks + n) 0); [lia|].
  destruct (Z.eqb_spec (tvtojiffies (it_value value) + (1 + ticks)) 0); [lia|]. simpl.
  destruct (Z.leb_spec (tvtojiffies (it_value value) + (1 + ticks)) (ticks + n)); [lia|]. simpl.
  rewrite u32_small by lia. eexists. split; [done|lia].
Qed.

Lemma real_timer_not_early_witness :
  let value := Itimerval (Timeval 0 0) (Timeval 0 15000) in
  let p' := set_real (idle_task 0 15) 5 0 in
  exists nx', run_itimer (2 + 2) 1000 p' = Some (set_real p' (it_real_value p' - (2 + 2)) (it_real_incr p'), nx') /\
    0 < it_real_value p' - (2 + 2).
Proof.
  intros value p'.
  refine (real_timer_not_early value 2 1000 1000 (idle_task 0 15) 2 p' 5 _ _ _ _ _ _ _);
    [unfold tv_ok; simpl; lia|unfold tv_ok; simpl; lia|lia|vm_compute; reflexivity|lia|lia|reflexivity].
Defined.

(** [sys_alarm] returns the whole seconds that were left: the microseconds it
    adds are always less than a second and count for nothing, so an alarm with
    less than a second to go is reported as none. *)
Theorem sys_alarm_truncates seconds ticks next p :
  0 <= it_real_value p < 2 ^ 32 ->
  exists p' next', sys_alarm seconds ticks next p = Some (it_real_value p / HZ, p', next').
Proof.
  intros H. unfold sys_alarm, _setitimer. cbn [it_interval it_value]. simpl.
  destruct (if negb _ then _ else _) as [j nx]. simpl. eexists _, _. do 3 f_equal.
  rewrite HZ_eq. change (1000000 / 100) with 10000.
  pose proof (Z.mod_pos_bound (it_real_value p) 100). rewrite Z.quot_small by lia.
  rewrite s32_small; [lia|]. pose proof (Z.div_mod (it_real_value p) 100). lia.
Qed.

End Itimer.
