(* ===== verification/PageAlloc.v ===== *)
(** * Free pages ([free_page] and [__get_free_page] of [src/mm/swap.c], the free
      list set up by [mem_init] in [src/mm/memory.c])

    Physical memory is divided into pages; [mem_map] counts the users of each.
    Free pages are on one of two lists, linked through their first words. *)

From S2P Require Import Prelude.
From Stdlib Require Import ZArith Lia.
From stdpp Require Import base list gmap numbers.

Local Open Scope Z_scope.

(** What the users of pages rely on: [page_count] is the number of users of the
    page at an address; a page is handed out only while it has none. *)
Class PageAllocator (M : Type) := {
  page_inv : M -> Prop;
  page_count : M -> Z -> Z;
  get_page : M -> option (Z * M);
  release_page : Z -> M -> option M;
  get_page_law : forall m, page_inv m -> exists p m', get_page m = Some (p, m') /\ page_inv m' /\
    (p = 0 /\ (forall q, page_count m' q = page_count m q) \/
     0 < p < 2 ^ 32 /\ p mod 4096 = 0 /\ page_count m p = 0 /\ page_count m' p = 1 /\
     forall q, q mod 4096 = 0 -> q <> p -> page_count m' q = page_count m q);
  release_page_law : forall m p, page_inv m -> 0 < p < 2 ^ 32 -> p mod 4096 = 0 -> page_count m p = 1 ->
    exists m', release_page p m = Some m' /\ page_inv m' /\ page_count m' p = 0 /\
      forall q, q mod 4096 = 0 -> q <> p -> page_count m' q = page_count m q
}.

Module PageAlloc.

Definition PAGE_SHIFT : Z := 12.
Definition PAGE_SIZE : Z := Z.shiftl 1 PAGE_SHIFT.
Definition PAGE_MASK : Z := u32 (Z.lnot (PAGE_SIZE - 1)).
Definition MAP_NR (addr : Z) : Z := Z.shiftr addr PAGE_SHIFT.
Definition MAP_PAGE_RESERVED : Z := Z.shiftl 1 15.
Definition MAX_SECONDARY_PAGES : Z := 20.
Definition NR_LAST_FREE_PAGES : Z := 32.
Definition GFP_BUFFER : Z := 0.
Definition GFP_ATOMIC : Z := 1.
Definition GFP_USER : Z := 2.
Definition GFP_KERNEL : Z := 3.

(** A list of free pages and the variable that counts them. *)
Record queue := Queue { first : Z; nr : Z }.

Record mem := Mem {
  high_memory : Z;
  mem_map : list Z;
  word : gmap Z Z;               (* first word of a page, by its address *)
  free_page_list : queue;
  secondary_page_list : queue;
  last_free_pages : list Z;
  index : Z
}.

Definition set_map (x : list Z) (m : mem) : mem :=
  Mem (high_memory m) x (word m) (free_page_list m) (secondary_page_list m) (last_free_pages m) (index m).
Definition set_word (x : gmap Z Z) (m : mem) : mem :=
  Mem (high_memory m) (mem_map m) x (free_page_list m) (secondary_page_list m) (last_free_pages m) (index m).
Definition set_free (x : queue) (m : mem) : mem :=
  Mem (high_memory m) (mem_map m) (word m) x (secondary_page_list m) (last_free_pages m) (index m).
Definition set_secondary (x : queue) (m : mem) : mem :=
  Mem (high_memory m) (mem_map m) (word m) (free_page_list m) x (last_free_pages m) (index m).
Definition set_last (x : list Z) (i : Z) (m : mem) : mem :=
  Mem (high_memory m) (mem_map m) (word m) (free_page_list m) (secondary_page_list m) x i.

(** The page is linked in; the caller stores the queue and counts. *)
Definition add_mem_queue (addr : Z) (q : queue) (m : mem) : queue * mem :=
  let addr := Z.land addr PAGE_MASK in
  (Queue addr (nr q), set_word (<[addr := first q]> (word m)) m).

Definition free_page (addr : Z) (m : mem) : option mem :=
  if addr <? high_memory m then
    map ← get (mem_map m) (MAP_NR addr);
    if negb (map =? 0) then
      if negb (has map MAP_PAGE_RESERVED) then
        mm ← put (mem_map m) (MAP_NR addr) (u16 (map - 1));
        let m := set_map mm m in
        if u16 (map - 1) =? 0 then
          if nr (secondary_page_list m) <? MAX_SECONDARY_PAGES then
            let '(q, m) := add_mem_queue addr (secondary_page_list m) m in
            Some (set_secondary (Queue (first q) (nr q + 1)) m)
          else
            let '(q, m) := add_mem_queue addr (free_page_list m) m in
            Some (set_free (Queue (first q) (nr q + 1)) m)
        else Some m
      else Some m
    else Some m
  else Some m.

(** [REMOVE_FROM_MEM_QUEUE]: the page it returns (0 if the macro falls through),
    the queue and the rest of the state. *)
Definition remove_from_mem_queue (q : queue) (m : mem) : option (Z * queue * mem) :=
  let result := first q in
  if negb (result =? 0) then
    if (Z.land result (Z.lnot PAGE_MASK) =? 0) && (result <? high_memory m) then
      nxt ← word m !! result;
      count ← get (mem_map m) (MAP_NR result);
      if count =? 0 then
        mm ← put (mem_map m) (MAP_NR result) 1;
        let i := Z.land (u32 (index m + 1)) (NR_LAST_FREE_PAGES - 1) in
        last ← put (last_free_pages m) i result;
        Some (result, Queue nxt (nr q - 1), set_last last i (set_map mm m))
      else Some (0, Queue 0 0, m)
    else Some (0, Queue 0 0, m)
  else Some (0, Queue 0 0, m).

(** One of the two removals of [__get_free_page]. *)
Definition remove_free (m : mem) : option (Z * mem) :=
  '(result, q, m) ← remove_from_mem_queue (free_page_list m) m;
  Some (result, set_free q m).

Definition remove_secondary (m : mem) : option (Z * mem) :=
  '(result, q, m) ← remove_from_mem_queue (secondary_page_list m) m;
  Some (result, set_secondary q m).

(** [try_to_free_page] (it takes pages from the buffer cache, shared memory and
    processes) is a parameter: whether it freed one, and the memory after it. *)
Section get_free_page.
Context (try_to_free_page : mem -> bool * mem).

Fixpoint __get_free_page (fuel : nat) (priority : Z) (m : mem) : option (Z * mem) :=
  match fuel with
  | O => None
  | S fuel =>
      '(result, m) ← remove_free m;
      if negb (result =? 0) then Some (result, m)
      else if priority =? GFP_BUFFER then Some (0, m)
      else
        let '(again, m) := if negb (priority =? GFP_ATOMIC) then try_to_free_page m else (false, m) in
        if again then __get_free_page fuel priority m else remove_secondary m
  end.
End get_free_page.

(** ** The lists set up at boot *)

(** The loop of [mem_init] that links every page whose count is 0; [n] pages are
    left, [tmp] is the address of the next. *)
Fixpoint link_free (n : nat) (tmp : Z) (m : mem) : option mem :=
  match n with
  | O => Some m
  | S n =>
      count ← get (mem_map m) (MAP_NR tmp);
      link_free n (tmp + PAGE_SIZE)
        (if negb (count =? 0) then m
         else set_free (Queue tmp (nr (free_page_list m) + 1))
                (set_word (<[tmp := first (free_page_list m)]> (word m)) m))
  end.

Definition PAGE_ALIGN (addr : Z) : Z := Z.land (u32 (addr + PAGE_SIZE - 1)) PAGE_MASK.

(** The loops that mark pages free; [n] bounds the number of pages. *)
Fixpoint clear_map (n : nat) (start stop : Z) (map : list Z) : option (list Z) :=
  match n with
  | O => None
  | S n => if start <? stop
           then map ← put map (MAP_NR start) 0; clear_map n (start + PAGE_SIZE) stop map
           else Some map
  end.

Definition mem_init (start_low_mem start_mem end_mem : Z) : option mem :=
  let end_mem := Z.land end_mem PAGE_MASK in
  let start_mem := Z.land (u32 (start_mem + 0xf)) (Z.lnot 0xf) in
  let tmp := MAP_NR end_mem in
  let start_mem := PAGE_ALIGN (start_mem + 2 * tmp) in
  let map := repeat MAP_PAGE_RESERVED (Z.to_nat tmp) in
  map ← clear_map (S (Z.to_nat tmp)) (PAGE_ALIGN start_low_mem) 0xA0000 map;
  map ← clear_map (S (Z.to_nat tmp)) start_mem end_mem map;
  link_free (Z.to_nat tmp) 0
    (Mem end_mem map ∅ (Queue 0 0) (Queue 0 0) (repeat 0 (Z.to_nat NR_LAST_FREE_PAGES)) 0).

(** ** The invariant *)

(** [a] is the address of a page of the memory map. *)
Definition is_page (m : mem) (a : Z) : Prop := 0 < a < high_memory m /\ a mod 4096 = 0.

Definition count (m : mem) (a : Z) : Z := default 0 (get (mem_map m) (MAP_NR a)).

(** [fl] and [sl] are the pages on the two lists. *)
Record lists (m : mem) (fl sl : list Z) : Prop := {
  l_high : 0 < high_memory m < 2 ^ 32 /\ high_memory m mod 4096 = 0;
  l_map : Z.of_nat (length (mem_map m)) = high_memory m / 4096;
  l_range : forall i x, get (mem_map m) i = Some x -> 0 <= x < 2 ^ 16;
  l_zero : get (mem_map m) 0 <> Some 0;
  l_free : chain (fun a => word m !! a) (first (free_page_list m)) fl;
  l_secondary : chain (fun a => word m !! a) (first (secondary_page_list m)) sl;
  l_disjoint : forall a, a ∈ fl -> a ∈ sl -> False;
  l_members : forall a, a ∈ fl \/ a ∈ sl <-> is_page m a /\ count m a = 0;
  l_nr_free : nr (free_page_list m) = Z.of_nat (length fl);
  l_nr_secondary : nr (secondary_page_list m) = Z.of_nat (length sl) /\ Z.of_nat (length sl) <= MAX_SECONDARY_PAGES;
  l_last : length (last_free_pages m) = 32%nat
}.

Definition mem_ok (m : mem) : Prop := exists fl sl, lists m fl sl.

(** ** Addresses *)

Lemma MAP_NR_div a : MAP_NR a = a / 4096.
Proof. unfold MAP_NR, PAGE_SHIFT. by rewrite Z.shiftr_div_pow2. Qed.

Lemma PAGE_MASK_spec a : 0 <= a < 2 ^ 32 -> Z.land a PAGE_MASK = a - a mod 4096.
Proof.
  intros Ha. pose proof (Z.div_mod a 4096). pose proof (Z.mod_pos_bound a 4096).
  replace (a - a mod 4096) with (Z.shiftl (Z.shiftr a 12) 12)
    by (rewrite Z.shiftl_mul_pow2, Z.shiftr_div_pow2 by lia; change (2 ^ 12) with 4096; lia).
  apply Z.bits_inj'. intros i Hi. rewrite Z.land_spec, Z.shiftl_spec by lia.
  unfold PAGE_MASK. rewrite testbit_u32. change (PAGE_SIZE - 1) with (Z.ones 12). rewrite Z.lnot_spec by lia.
  destruct (Z.lt_ge_cases i 12).
  - rewrite Z.ones_spec_low, (Z.testbit_neg_r _ (i - 12)), andb_false_r by lia. apply andb_false_r.
  - rewrite Z.ones_spec_high, Z.shiftr_spec, andb_true_r by lia. replace (i - 12 + 12) with i by lia.
    destruct (Z.ltb_spec i 32); [apply andb_true_r|]. rewrite bits_above_u32 by lia. done.
Qed.

Lemma aligned_mask a : 0 <= a < 2 ^ 32 -> a mod 4096 = 0 -> Z.land a PAGE_MASK = a.
Proof. intros Ha Hm. rewrite PAGE_MASK_spec by done. lia. Qed.

Lemma aligned_unmask a : 0 <= a < 2 ^ 32 -> a mod 4096 = 0 -> Z.land a (Z.lnot PAGE_MASK) = 0.
Proof.
  intros Ha Hm. rewrite <- Z.ldiff_land. apply Z.bits_inj'. intros i Hi.
  rewrite Z.ldiff_spec, Z.bits_0. destruct (Z.testbit a i) eqn:E; [|done]. simpl.
  rewrite <- (aligned_mask a Ha Hm), Z.land_spec in E. apply andb_true_iff in E as [_ ->]. done.
Qed.

(** Updating the count of one page. *)
Lemma count_put m mm a x :
  put (mem_map m) (MAP_NR a) x = Some mm -> a mod 4096 = 0 ->
  count (set_map mm m) a = x /\ forall q, q mod 4096 = 0 -> q <> a -> count (set_map mm m) q = count m q.
Proof.
  intros Hp Ha. unfold count. simpl. split.
  - rewrite (get_put _ _ _ _ _ Hp), Z.eqb_refl. done.
  - intros q Hq Hne. rewrite (get_put _ _ _ _ _ Hp). destruct (Z.eqb_spec (MAP_NR q) (MAP_NR a)) as [E|]; [|done].
    rewrite !MAP_NR_div in E. exfalso. apply Hne.
    rewrite (Z.div_mod q 4096), (Z.div_mod a 4096), E, Hq, Ha by lia. done.
Qed.

Lemma lists_in_map m fl sl a : lists m fl sl -> is_page m a -> get (mem_map m) (MAP_NR a) = Some (count m a).
Proof.
  intros Hl [Ha Hm]. unfold count. destruct (get_in_range (mem_map m) (MAP_NR a)) as [x ->]; [|done].
  rewrite MAP_NR_div, (l_map _ _ _ Hl). split; [apply Z.div_pos; lia|].
  destruct (l_high _ _ _ Hl) as [Hh Hhm]. apply Z.div_lt_upper_bound; [lia|].
  pose proof (Z.div_mod (high_memory m) 4096). lia.
Qed.

(** ** Taking a page *)

Lemma remove_queue_spec m fl sl q l :
  lists m fl sl -> (forall a, a ∈ l -> a ∈ fl \/ a ∈ sl) -> chain (fun a => word m !! a) (first q) l ->
  nr q = Z.of_nat (length l) ->
  l = [] /\ remove_from_mem_queue q m = Some (0, Queue 0 0, m) \/
  exists p l' nxt mm last i, l = p :: l' /\ is_page m p /\ count m p = 0 /\
    remove_from_mem_queue q m =
      Some (p, Queue nxt (Z.of_nat (length l')), set_last last i (set_map mm m)) /\
    put (mem_map m) (MAP_NR p) 1 = Some mm /\ chain (fun a => word m !! a) nxt l' /\ length last = 32%nat.
Proof.
  intros Hl Hin Hc Hn. unfold remove_from_mem_queue. destruct (Z.eqb_spec (first q) 0) as [E|E].
  { left. destruct l as [|x l]; [done|]. destruct Hc as (E' & Hx & _). by rewrite E' in E. }
  right. apply chain_nonzero in Hc as (n & l' & -> & Hw & Hc); [|done].
  destruct (proj1 (l_members _ _ _ Hl (first q))) as [Hp Hcnt]; [apply Hin; set_solver|].
  pose proof (lists_in_map _ _ _ _ Hl Hp) as Hg. destruct Hp as [Hr Hal].
  destruct (l_high _ _ _ Hl) as [Hh _]. simpl.
  rewrite aligned_unmask by lia. destruct (Z.ltb_spec (first q) (high_memory m)); [|lia]. simpl.
  rewrite Hw, Hg, Hcnt. simpl. destruct (put_of_get _ _ 1 _ Hg) as [mm Hmm]. rewrite Hmm. simpl.
  change (NR_LAST_FREE_PAGES - 1) with (Z.ones 5). rewrite Z.land_ones by lia.
  pose proof (Z.mod_pos_bound (u32 (index m + 1)) (2 ^ 5)).
  rewrite put_in_range by (rewrite (l_last _ _ _ Hl); simpl; lia). simpl.
  eexists (first q), l', n, mm, _, _. split_and!; try done.
  - rewrite Hn. simpl. do 4 f_equal. lia.
  - rewrite length_insert. apply (l_last _ _ _ Hl).
Qed.

(** The invariant when page [p] leaves a list. *)
Lemma lists_take m fl sl fl' sl' p mm last i qf qs :
  lists m fl sl -> is_page m p -> put (mem_map m) (MAP_NR p) 1 = Some mm -> length last = 32%nat ->
  (fl = p :: fl' /\ sl' = sl \/ sl = p :: sl' /\ fl' = fl) ->
  chain (fun a => word m !! a) (first qf) fl' -> nr qf = Z.of_nat (length fl') ->
  chain (fun a => word m !! a) (first qs) sl' -> nr qs = Z.of_nat (length sl') ->
  lists (set_secondary qs (set_free qf (set_last last i (set_map mm m)))) fl' sl'.
Proof.
  intros Hl Hp Hmm Hlast Hcase Hcf Hnf Hcs Hns. pose proof (count_put m mm p 1 Hmm (proj2 Hp)) as [Hc1 Hc2].
  assert (Hmem : forall a, a ∈ fl' \/ a ∈ sl' <-> (a ∈ fl \/ a ∈ sl) /\ a <> p).
  { pose proof (chain_NoDup _ _ _ (l_free _ _ _ Hl)) as N1. pose proof (chain_NoDup _ _ _ (l_secondary _ _ _ Hl)) as N2.
    pose proof (l_disjoint _ _ _ Hl) as Hd.
    destruct Hcase as [[-> ->]|[-> ->]]; [apply list.NoDup_cons in N1 as [N1 _]|apply list.NoDup_cons in N2 as [N2 _]];
      intros a; specialize (Hd a); set_solver. }
  destruct Hl. constructor; simpl; try done.
  - by rewrite (put_length _ _ _ _ Hmm).
  - intros j x. rewrite (get_put _ _ _ _ _ Hmm). case_bool; [intros [= <-]; lia|apply l_range0].
  - rewrite (get_put _ _ _ _ _ Hmm). case_bool; done.
  - intros a. specialize (l_disjoint0 a). destruct Hcase as [[-> ->]|[-> ->]]; set_solver.
  - intros a. rewrite Hmem, l_members0. unfold is_page, count in *. simpl in *.
    split; [intros [[Ha Hz] Hne]; split; [done|]; rewrite Hc2; [done|apply Ha|done]|].
    intros [Ha Hz]. destruct (decide (a = p)) as [->|Hne]; [by rewrite Hc1 in Hz|].
    rewrite Hc2 in Hz; [done|apply Ha|done].
  - split; [done|]. destruct l_nr_secondary0. destruct Hcase as [[-> ->]|[-> ->]]; simpl in *; lia.
Qed.

Lemma remove_free_spec m fl sl :
  lists m fl sl ->
  fl = [] /\ remove_free m = Some (0, m) \/
  exists p fl' m', fl = p :: fl' /\ remove_free m = Some (p, m') /\ lists m' fl' sl /\
    is_page m p /\ count m p = 0 /\ count m' p = 1 /\
    (forall q, q mod 4096 = 0 -> q <> p -> count m' q = count m q) /\ high_memory m' = high_memory m.
Proof.
  intros Hl. unfold remove_free.
  destruct (remove_queue_spec m fl sl (free_page_list m) fl Hl) as [[-> ->]|(p & fl' & nxt & mm & last & i & -> & Hp & H0 & -> & Hmm & Hc & Hla)];
    [by auto|apply (l_free _ _ _ Hl)|apply (l_nr_free _ _ _ Hl)| |].
  - left. split; [done|]. simpl. do 2 f_equal. pose proof (l_free _ _ _ Hl) as Hc. pose proof (l_nr_free _ _ _ Hl) as Hn.
    destruct m as [h mm w [f n] s la i]. simpl in *. by subst.
  - right. eexists p, fl', _. split; [done|]. split; [done|].
    pose proof (count_put m mm p 1 Hmm (proj2 Hp)) as [Hc1 Hc2]. split_and!; try done.
    pose proof (lists_take m (p :: fl') sl fl' sl p mm last i (Queue nxt (Z.of_nat (length fl'))) (secondary_page_list m)
      Hl Hp Hmm Hla (or_introl (conj eq_refl eq_refl)) Hc eq_refl (l_secondary _ _ _ Hl)
      (proj1 (l_nr_secondary _ _ _ Hl))) as Hl'. by destruct m.
Qed.

Lemma remove_secondary_spec m fl sl :
  lists m fl sl ->
  sl = [] /\ remove_secondary m = Some (0, m) \/
  exists p sl' m', sl = p :: sl' /\ remove_secondary m = Some (p, m') /\ lists m' fl sl' /\
    is_page m p /\ count m p = 0 /\ count m' p = 1 /\
    (forall q, q mod 4096 = 0 -> q <> p -> count m' q = count m q) /\ high_memory m' = high_memory m.
Proof.
  intros Hl. unfold remove_secondary.
  destruct (remove_queue_spec m fl sl (secondary_page_list m) sl Hl) as [[-> ->]|(p & sl' & nxt & mm & last & i & -> & Hp & H0 & -> & Hmm & Hc & Hla)];
    [by auto|apply (l_secondary _ _ _ Hl)|apply (l_nr_secondary _ _ _ Hl)| |].
  - left. split; [done|]. simpl. do 2 f_equal. pose proof (l_secondary _ _ _ Hl) as Hc.
    pose proof (proj1 (l_nr_secondary _ _ _ Hl)) as Hn. destruct m as [h mm w f [s n] la i]. simpl in *. by subst.
  - right. eexists p, sl', _. split; [done|]. split; [done|].
    pose proof (count_put m mm p 1 Hmm (proj2 Hp)) as [Hc1 Hc2]. split_and!; try done.
    pose proof (lists_take m fl (p :: sl') fl sl' p mm last i (free_page_list m) (Queue nxt (Z.of_nat (length sl')))
      Hl Hp Hmm Hla (or_intror (conj eq_refl eq_refl)) (l_free _ _ _ Hl) (l_nr_free _ _ _ Hl) Hc eq_refl) as Hl'.
    by destruct m.
Qed.

(** a page is handed out only when nobody uses it: whatever
    [try_to_free_page] does (as long as it leaves the lists intact), the page
    [__get_free_page] returns had no user and has one afterwards, and the counts
    of all other pages are as [try_to_free_page] left them. *)
Theorem get_free_page_exclusive try_to_free_page fuel priority m r m' :
  (forall m b m', mem_ok m -> try_to_free_page m = (b, m') -> mem_ok m') ->
  mem_ok m -> __get_free_page try_to_free_page fuel priority m = Some (r, m') ->
  mem_ok m' /\
  (r = 0 \/ exists m0, mem_ok m0 /\ is_page m0 r /\ count m0 r = 0 /\ count m' r = 1 /\
     forall q, q mod 4096 = 0 -> q <> r -> count m' q = count m0 q).
Proof.
  intros Htry. revert m. induction fuel as [|fuel IH]; intros m [fl [sl Hl]] E; [done|]. simpl in E.
  destruct (remove_free_spec m fl sl Hl) as [[-> E1]|(p & fl' & m1 & -> & E1 & Hl1 & Hp & H0 & H1 & Hq & _)];
    rewrite E1 in E; simpl in E.
  - case_bool_in E; [injection E as <- <-; split; [by exists [], sl|by left]|].
    assert (Hsec : forall m2, mem_ok m2 -> remove_secondary m2 = Some (r, m') -> mem_ok m' /\
      (r = 0 \/ exists m0, mem_ok m0 /\ is_page m0 r /\ count m0 r = 0 /\ count m' r = 1 /\
         forall q, q mod 4096 = 0 -> q <> r -> count m' q = count m0 q)).
    { intros m2 [fl2 [sl2 Hl2]] E2. destruct (remove_secondary_spec m2 fl2 sl2 Hl2)
        as [[-> E3]|(p & sl' & m3 & -> & E3 & Hl3 & Hp & H0 & H1 & Hq & _)]; rewrite E3 in E2; injection E2 as <- <-.
      - split; [by exists fl2, []|by left].
      - split; [by exists fl2, sl'|]. right. exists m2. split_and!; try done. by eexists _, _. }
    destruct (if negb (priority =? GFP_ATOMIC) then _ else _) as [again m2] eqn:E2.
    assert (Hm2 : mem_ok m2).
    { case_bool_in E2; [eapply Htry; [|exact E2]|injection E2 as <- <-]; by exists [], sl. }
    destruct again; [by eapply IH|by eapply Hsec].
  - destruct (Z.eqb_spec p 0) as [->|]; [destruct Hp; lia|]. injection E as <- <-.
    split; [by exists fl', sl|]. right. exists m. split_and!; try done. by eexists _, _.
Qed.

(** A small memory: pages 1 and 2 free, page 0 reserved, page 3 in use. *)
Definition small_mem : mem :=
  Mem 0x4000 [MAP_PAGE_RESERVED; 0; 0; 1] {[0x1000 := 0; 0x2000 := 0x1000]} (Queue 0x2000 2) (Queue 0 0) (repeat 0 32) 0.

Lemma small_mem_ok : lists small_mem [0x2000; 0x1000] [].
Proof.
  constructor; cbn [small_mem high_memory mem_map word free_page_list secondary_page_list last_free_pages first nr]; try done.
  - intros i x H. unfold get in H. case_bool_in H; [done|]. apply list_elem_of_lookup_2 in H. simpl in H.
    repeat (apply elem_of_cons in H as [->|H]; [vm_compute; intuition discriminate|]). by apply elem_of_nil in H.
  - split; [done|]. split; [done|]. exists 0x1000. split; [reflexivity|].
    split; [done|]. split; [done|]. by exists 0.
  - intros a _ H. set_solver.
  - intros a. split.
    + intros [H|H]; [|set_solver]. assert (a = 0x2000 \/ a = 0x1000) as [-> | ->] by set_solver;
        vm_compute; intuition discriminate.
    + intros [[Ha Hm] Hc]. simpl in Ha. assert (a = 0x1000 \/ a = 0x2000 \/ a = 0x3000) as [-> | [-> | ->]].
      { pose proof (Z.div_mod a 4096). assert (0 < a / 4096 < 4); [|lia].
        split; [|apply Z.div_lt_upper_bound; lia]. apply Z.div_str_pos. lia. }
      all: vm_compute in Hc; try done; set_solver.
Qed.

Lemma get_free_page_exclusive_witness :
  let r := 0x2000 in
  exists m', __get_free_page (fun m => (false, m)) 1 GFP_KERNEL small_mem = Some (r, m') /\ mem_ok m' /\
  (r = 0 \/ exists m0, mem_ok m0 /\ is_page m0 r /\ count m0 r = 0 /\ count m' r = 1 /\
     forall q, q mod 4096 = 0 -> q <> r -> count m' q = count m0 q).
Proof.
  intros r. eexists. split; [reflexivity|].
  eapply (get_free_page_exclusive (fun m => (false, m)) 1 GFP_KERNEL small_mem r).
  - intros m b m' Hm [= <- <-]. exact Hm.
  - eexists _, _. apply small_mem_ok.
  - reflexivity.
Defined.

(** With [GFP_ATOMIC] the call never waits, and fails only if every page is in
    use. *)
Lemma get_atomic_complete try_to_free_page fuel m :
  mem_ok m ->
  exists r m', __get_free_page try_to_free_page (S fuel) GFP_ATOMIC m = Some (r, m') /\ mem_ok m' /\
    (r = 0 /\ m' = m /\ (forall a, is_page m a -> count m a <> 0) \/
     is_page m r /\ count m r = 0 /\ count m' r = 1 /\ high_memory m' = high_memory m /\
     forall q, q mod 4096 = 0 -> q <> r -> count m' q = count m q).
Proof.
  intros (fl & sl & Hl). simpl.
  destruct (remove_free_spec m fl sl Hl) as [[-> E1]|(p & fl' & m1 & -> & E1 & Hl1 & Hp & H0 & H1 & Hq & Hh)]; rewrite E1; simpl.
  - destruct (remove_secondary_spec m [] sl Hl) as [[-> E3]|(p & sl' & m3 & -> & E3 & Hl3 & Hp & H0 & H1 & Hq & Hh)]; rewrite E3.
    + exists 0, m. split; [done|]. split; [by exists [], []|]. left. split_and!; try done.
      intros a Ha Hz. destruct (proj2 (l_members _ _ _ Hl a) (conj Ha Hz)); set_solver.
    + exists p, m3. split; [done|]. split; [by exists [], sl'|]. right. by split_and!.
  - destruct (Z.eqb_spec p 0) as [->|]; [destruct Hp; lia|]. exists p, m1.
    split; [done|]. split; [by exists fl', sl|]. right. by split_and!.
Qed.

(** ** Giving a page back *)

(** The invariant when page [a] joins a list. *)
Lemma lists_give m fl sl fl' sl' a mm w qf qs :
  lists m fl sl -> is_page m a -> put (mem_map m) (MAP_NR a) 0 = Some mm -> count m a <> 0 ->
  (fl' = a :: fl /\ sl' = sl \/ sl' = a :: sl /\ fl' = fl) ->
  chain (fun b => w !! b) (first qf) fl' -> nr qf = Z.of_nat (length fl') ->
  chain (fun b => w !! b) (first qs) sl' -> nr qs = Z.of_nat (length sl') ->
  Z.of_nat (length sl') <= MAX_SECONDARY_PAGES ->
  lists (set_secondary qs (set_free qf (set_word w (set_map mm m)))) fl' sl'.
Proof.
  intros Hl Hp Hmm Hc Hcase Hcf Hnf Hcs Hns Hmax. pose proof (count_put m mm a 0 Hmm (proj2 Hp)) as [Hc1 Hc2].
  assert (Hna : (a ∉ fl) /\ (a ∉ sl)).
  { split; intros Hin; destruct (proj1 (l_members _ _ _ Hl a)); auto. }
  assert (Hmem : forall b, b ∈ fl' \/ b ∈ sl' <-> b = a \/ b ∈ fl \/ b ∈ sl).
  { intros b. clear -Hcase. destruct Hcase as [[-> ->]|[-> ->]]; set_solver. }
  destruct Hl as [Hh Hlen Hr Hz _ _ Hd Hm _ _ Hlast]. constructor; simpl; try done.
  - by rewrite (put_length _ _ _ _ Hmm).
  - intros j x. rewrite (get_put _ _ _ _ _ Hmm). case_bool; [intros [= <-]; lia|apply Hr].
  - rewrite (get_put _ _ _ _ _ Hmm). destruct (Z.eqb_spec 0 (MAP_NR a)) as [E|]; [|done].
    destruct Hp as [Hpos Hal]. rewrite MAP_NR_div in E. pose proof (Z.div_mod a 4096). lia.
  - intros b. specialize (Hd b). clear -Hcase Hd Hna. destruct Hcase as [[-> ->]|[-> ->]]; set_solver.
  - intros b. rewrite Hmem, Hm. unfold is_page, count in *. simpl in *. split.
    + intros [->|[Hb Hb0]]; [done|]. split; [done|]. destruct (decide (b = a)) as [->|]; [done|].
      rewrite Hc2; [done|apply Hb|done].
    + intros [Hb Hb0]. destruct (decide (b = a)); [by left|right]. rewrite Hc2 in Hb0; [done|apply Hb|done].
Qed.

(** Linking in a page that is on neither list. *)
Lemma chain_word_insert m a x p l :
  a ∉ l -> chain (fun b => word m !! b) p l -> chain (fun b => <[a := x]> (word m) !! b) p l.
Proof. intros Hin. apply chain_ext. intros y Hy. rewrite lookup_insert_ne; [done|]. by intros ->. Qed.

Lemma chain_word_cons m a p l :
  a <> 0 -> a ∉ l -> chain (fun b => word m !! b) p l -> chain (fun b => <[a := p]> (word m) !! b) a (a :: l).
Proof.
  intros Ha Hin Hc. split; [done|]. split; [done|]. exists p. rewrite lookup_insert_eq. split; [done|].
  by apply chain_word_insert.
Qed.

(** The invariant when the count of a page changes and stays positive. *)
Lemma lists_count m fl sl a mm x :
  lists m fl sl -> is_page m a -> put (mem_map m) (MAP_NR a) x = Some mm -> count m a <> 0 -> 0 < x < 2 ^ 16 ->
  lists (set_map mm m) fl sl.
Proof.
  intros Hl Hp Hmm Hc Hx. pose proof (count_put m mm a x Hmm (proj2 Hp)) as [Hc1 Hc2].
  destruct Hl as [Hh Hlen Hr Hz Hf Hs Hd Hm Hnf Hns Hlast]. constructor; simpl; try done.
  - by rewrite (put_length _ _ _ _ Hmm).
  - intros j y. rewrite (get_put _ _ _ _ _ Hmm). case_bool; [intros [= <-]; lia|apply Hr].
  - rewrite (get_put _ _ _ _ _ Hmm). case_bool; [|done]. intros [= E]. lia.
  - intros b. rewrite Hm. unfold is_page, count in *. simpl in *.
    split; intros [Hb Hb0]; (split; [done|]); destruct (decide (b = a)) as [->|]; try lia;
      [rewrite Hc2|rewrite Hc2 in Hb0]; try done; apply Hb.
Qed.

Lemma free_page_ok m a :
  mem_ok m -> is_page m a ->
  exists m', free_page a m = Some m' /\ mem_ok m' /\ high_memory m' = high_memory m /\
    count m' a = (if (count m a =? 0) || has (count m a) MAP_PAGE_RESERVED then count m a else count m a - 1) /\
    (forall q, q mod 4096 = 0 -> q <> a -> count m' q = count m q).
Proof.
  intros (fl & sl & Hl) Hp. pose proof (lists_in_map _ _ _ _ Hl Hp) as Hg. unfold free_page.
  destruct (Z.ltb_spec a (high_memory m)) as [_|]; [|destruct Hp; lia]. rewrite Hg. cbn [mbind option_bind].
  destruct (Z.eqb_spec (count m a) 0) as [E0|E0]; [exists m; split; [done|]; split; [by exists fl, sl|done]|]. cbn [negb orb].
  destruct (has (count m a) MAP_PAGE_RESERVED); [exists m; split; [done|]; split; [by exists fl, sl|done]|]. cbn [negb orb].
  pose proof (l_range _ _ _ Hl _ _ Hg) as Hr. rewrite (u16_small (count m a - 1)) by lia.
  destruct (put_of_get _ _ (count m a - 1) _ Hg) as [mm Hmm]. rewrite Hmm. cbn [mbind option_bind].
  pose proof (count_put m mm a _ Hmm (proj2 Hp)) as [Hc1 Hc2].
  destruct (Z.eqb_spec (count m a - 1) 0) as [E1|E1].
  2: { eexists. split; [done|]. split; [exists fl, sl; apply (lists_count m fl sl a mm _ Hl Hp Hmm E0); lia|done]. }
  rewrite E1 in Hmm.
  assert (Hna : (a ∉ fl) /\ (a ∉ sl)).
  { split; intros Hin; destruct (proj1 (l_members _ _ _ Hl a)); auto. }
  assert (Ha : 0 < a < 2 ^ 32 /\ a mod 4096 = 0) by (destruct Hp, (l_high _ _ _ Hl); lia).
  unfold add_mem_queue. rewrite aligned_mask by lia. cbn [secondary_page_list free_page_list set_map word first nr].
  destruct (l_nr_secondary _ _ _ Hl) as [Hns Hmax].
  destruct (Z.ltb_spec (nr (secondary_page_list m)) MAX_SECONDARY_PAGES).
  - eexists. split; [done|]. split; [|done]. exists fl, (a :: sl).
    pose proof (lists_give m fl sl fl (a :: sl) a mm (<[a := first (secondary_page_list m)]> (word m))
      (free_page_list m) (Queue a (nr (secondary_page_list m) + 1)) Hl Hp Hmm E0 (or_intror (conj eq_refl eq_refl))
      (chain_word_insert m a _ _ fl (proj1 Hna) (l_free _ _ _ Hl)) (l_nr_free _ _ _ Hl)
      (chain_word_cons m a _ sl ltac:(lia) (proj2 Hna) (l_secondary _ _ _ Hl)) ltac:(simpl; lia) ltac:(simpl; lia)) as HG.
    by destruct m.
  - eexists. split; [done|]. split; [|done]. exists (a :: fl), sl.
    pose proof (lists_give m fl sl (a :: fl) sl a mm (<[a := first (free_page_list m)]> (word m))
      (Queue a (nr (free_page_list m) + 1)) (secondary_page_list m) Hl Hp Hmm E0 (or_introl (conj eq_refl eq_refl))
      (chain_word_cons m a _ fl ltac:(lia) (proj1 Hna) (l_free _ _ _ Hl)) ltac:(simpl; rewrite (l_nr_free _ _ _ Hl); lia)
      (chain_word_insert m a _ _ sl (proj2 Hna) (l_secondary _ _ _ Hl)) Hns Hmax) as HG.
    by destruct m.
Qed.

(** The free pages on both lists become no fewer, and more with the last user of a page. *)
Lemma free_page_stock m a m' : mem_ok m -> is_page m a -> free_page a m = Some m' ->
  nr (free_page_list m) <= nr (free_page_list m') /\ nr (secondary_page_list m) <= nr (secondary_page_list m') /\
  (count m a = 1 -> nr (free_page_list m) + nr (secondary_page_list m) < nr (free_page_list m') + nr (secondary_page_list m')).
Proof.
  intros (fl & sl & Hl) Hp. pose proof (lists_in_map _ _ _ _ Hl Hp) as Hg. unfold free_page.
  destruct (Z.ltb_spec a (high_memory m)) as [_|]; [|destruct Hp; lia]. rewrite Hg. cbn [mbind option_bind].
  destruct (Z.eqb_spec (count m a) 0) as [E0|E0]; cbn [negb]; [intros [= <-]; lia|].
  destruct (has (count m a) MAP_PAGE_RESERVED) eqn:R; cbn [negb].
  { intros [= <-]. split; [lia|]. split; [lia|]. intros E. by rewrite E in R. }
  destruct (put _ _ _) as [mm|]; [|done]. cbn [mbind option_bind]. destruct (Z.eqb_spec (u16 (count m a - 1)) 0) as [_|N].
  - unfold add_mem_queue. case_bool; intros [= <-]; cbn; lia.
  - intros [= <-]. cbn. split; [lia|]. split; [lia|]. intros E. by rewrite E in N.
Qed.

(** [free_page] drops one user of a page: it never touches a reserved page or
    one that is already free, every other count is left alone, and a page whose
    last user goes is put on a free list, so that it can be handed out again. *)
Theorem free_page_spec m a :
  mem_ok m -> is_page m a ->
  exists m', free_page a m = Some m' /\ mem_ok m' /\ high_memory m' = high_memory m /\
    count m' a = (if (count m a =? 0) || has (count m a) MAP_PAGE_RESERVED then count m a else count m a - 1) /\
    (forall q, q mod 4096 = 0 -> q <> a -> count m' q = count m q).
Proof. apply free_page_ok. Qed.

Lemma free_page_spec_witness :
  exists m', free_page 0x3000 small_mem = Some m' /\ mem_ok m' /\ high_memory m' = high_memory small_mem /\
    count m' 0x3000 = 0 /\ (forall q, q mod 4096 = 0 -> q <> 0x3000 -> count m' q = count small_mem q).
Proof.
  apply (free_page_spec small_mem 0x3000); [eexists _, _; apply small_mem_ok|].
  vm_compute. intuition discriminate.
Defined.

(** ** The state after boot *)

Lemma clear_map_spec n start stop map :
  start mod 4096 = 0 -> 0 < start -> stop <= 4096 * Z.of_nat (length map) -> stop - start <= 4096 * Z.of_nat n ->
  exists map', clear_map (S n) start stop map = Some map' /\ length map' = length map /\
    get map' 0 = get map 0 /\ forall i x, get map' i = Some x -> x = 0 \/ get map i = Some x.
Proof.
  revert start map. induction n as [|n IH]; intros start map Hal Hpos Hlen Hn;
    cbn [clear_map]; destruct (Z.ltb_spec start stop); try lia; [by exists map; auto| |by exists map; auto].
  assert (Hnr : 0 < MAP_NR start < Z.of_nat (length map)).
  { rewrite MAP_NR_div. pose proof (Z.div_mod start 4096). lia. }
  rewrite put_in_range by lia. cbn [mbind option_bind]. set (map1 := <[_ := 0]> map).
  assert (Hp : put map (MAP_NR start) 0 = Some map1) by (apply put_in_range; lia).
  assert (Hl1 : length map1 = length map) by apply length_insert.
  destruct (IH (start + PAGE_SIZE) map1) as (map' & E & Hl & H0 & Hget).
  - change PAGE_SIZE with 4096. rewrite <- Z.add_mod_idemp_r, Z.mod_same, Z.add_0_r by lia. done.
  - change PAGE_SIZE with 4096. lia.
  - lia.
  - change PAGE_SIZE with 4096. lia.
  - exists map'. split; [exact E|]. split; [lia|]. split.
    + rewrite H0, (get_put _ _ _ _ _ Hp). destruct (Z.eqb_spec 0 (MAP_NR start)); [lia|done].
    + intros i x Hi. destruct (Hget i x Hi) as [->|Hi1]; [by left|]. rewrite (get_put _ _ _ _ _ Hp) in Hi1.
      case_bool_in Hi1; [left; congruence|by right].
Qed.

(** The pages below page number [k] that are free. *)
Definition free_below (m : mem) (k : Z) (a : Z) : Prop := 0 < a < 4096 * k /\ a mod 4096 = 0 /\ count m a = 0.

Lemma link_free_spec n k m fl :
  0 <= k -> k + Z.of_nat n = Z.of_nat (length (mem_map m)) -> get (mem_map m) 0 <> Some 0 ->
  chain (fun a => word m !! a) (first (free_page_list m)) fl -> nr (free_page_list m) = Z.of_nat (length fl) ->
  (forall a, a ∈ fl <-> free_below m k a) ->
  exists w q fl', link_free n (4096 * k) m = Some (set_free q (set_word w m)) /\
    chain (fun a => w !! a) (first q) fl' /\ nr q = Z.of_nat (length fl') /\
    forall a, a ∈ fl' <-> free_below m (k + Z.of_nat n) a.
Proof.
  revert k m fl. induction n as [|n IH]; intros k m fl Hk Hlen H0 Hc Hnr Hm; cbn [link_free].
  { exists (word m), (free_page_list m), fl. split; [by destruct m|]. split_and!; try done.
    intros a. rewrite Hm. by replace (k + Z.of_nat 0) with k by lia. }
  assert (Hk' : MAP_NR (4096 * k) = k) by (rewrite MAP_NR_div, Z.mul_comm; apply Z.div_mul; lia).
  rewrite Hk'. destruct (get_in_range (mem_map m) k) as [x Hx]; [lia|]. rewrite Hx. cbn [mbind option_bind].
  assert (Hcnt : count m (4096 * k) = x) by (unfold count; by rewrite Hk', Hx).
  change PAGE_SIZE with 4096. replace (4096 * k + 4096) with (4096 * (k + 1)) by lia.
  assert (Hstep : forall a, free_below m (k + 1) a <-> a = 4096 * k /\ 0 < k /\ x = 0 \/ free_below m k a).
  { intros a. unfold free_below. split.
    - intros (Ha & Hal & Ha0). destruct (Z.lt_ge_cases a (4096 * k)); [right; lia|left].
      assert (a = 4096 * k) as -> by (pose proof (Z.div_mod a 4096); lia). lia.
    - intros [(-> & Hk0 & ->)|(Ha & Hal & Ha0)]; [|lia].
      rewrite Z.mul_comm, Z.mod_mul, Z.mul_comm, Hcnt by lia. lia. }
  destruct (Z.eqb_spec x 0) as [->|Hx0]; cbn [negb].
  - assert (0 < k) by (destruct (decide (k = 0)) as [->|]; [by rewrite Hx in H0|lia]).
    assert (Hni : 4096 * k ∉ fl) by (rewrite Hm; unfold free_below; lia).
    set (m1 := set_free _ _). destruct (IH (k + 1) m1 (4096 * k :: fl)) as (w & q & fl' & E & Hc' & Hn' & Hm').
    + lia.
    + unfold m1. simpl length. lia.
    + done.
    + apply chain_word_cons; [lia|done|done].
    + unfold m1. cbn [set_free free_page_list nr length]. lia.
    + intros a. change (free_below m1 (k + 1) a) with (free_below m (k + 1) a). rewrite Hstep, elem_of_cons, Hm. naive_solver.
    + exists w, q, fl'. rewrite E. split; [done|]. split_and!; try done.
      intros a. rewrite Hm'. change (free_below m1) with (free_below m).
      by replace (k + 1 + Z.of_nat n) with (k + Z.of_nat (S n)) by lia.
  - destruct (IH (k + 1) m fl) as (w & q & fl' & E & Hc' & Hn' & Hm'); try done; [lia|lia| |].
    + intros a. rewrite Hstep, Hm. naive_solver.
    + exists w, q, fl'. rewrite E. split; [done|]. split_and!; try done.
      intros a. rewrite Hm'. by replace (k + 1 + Z.of_nat n) with (k + Z.of_nat (S n)) by lia.
Qed.

Lemma PAGE_ALIGN_spec x : 0 < x -> x + 4095 < 2 ^ 32 -> PAGE_ALIGN x mod 4096 = 0 /\ 0 < PAGE_ALIGN x.
Proof.
  intros Hx Hr. unfold PAGE_ALIGN. change PAGE_SIZE with 4096. rewrite u32_small, PAGE_MASK_spec by lia.
  pose proof (Z.div_mod (x + 4096 - 1) 4096). pose proof (Z.mod_pos_bound (x + 4096 - 1) 4096).
  replace (x + 4096 - 1 - (x + 4096 - 1) mod 4096) with ((x + 4096 - 1) / 4096 * 4096) by lia.
  split; [apply Z.mod_mul; lia|]. assert (1 <= (x + 4096 - 1) / 4096); [|lia]. apply Z.div_le_lower_bound; lia.
Qed.

(** The memory [mem_init] sets up satisfies the invariant, for any memory of a
    megabyte and more that has room for the memory map. *)
Theorem mem_init_ok start_low_mem start_mem end_mem :
  0 < start_low_mem < 0xA0000 -> 0 < start_mem -> 0x100000 <= end_mem < 2 ^ 32 ->
  start_mem + end_mem / 2048 + 8192 <= 2 ^ 32 ->
  exists m, mem_init start_low_mem start_mem end_mem = Some m /\ mem_ok m /\ high_memory m = end_mem - end_mem mod 4096.
Proof.
  intros Hlow Hs He Hroom. unfold mem_init. rewrite PAGE_MASK_spec by lia. cbv zeta.
  pose proof (Z.mod_pos_bound end_mem 4096). pose proof (Z.div_mod end_mem 4096).
  assert (HE : exists n, end_mem - end_mem mod 4096 = 4096 * n /\ 256 <= n < 2 ^ 20 /\ 2 * n <= end_mem / 2048).
  { exists (end_mem / 4096). split; [lia|]. split; [lia|]. apply Z.div_le_lower_bound; lia. }
  destruct HE as (n & -> & Hn & Hn2).
  assert (Hnr : MAP_NR (4096 * n) = n) by (rewrite MAP_NR_div, Z.mul_comm; apply Z.div_mul; lia). rewrite !Hnr.
  change (Z.lnot 15) with (Z.lnot (Z.ones 4)). rewrite <- Z.ldiff_land, Z.ldiff_ones_r, u32_small by lia.
  rewrite Z.shiftl_mul_pow2, Z.shiftr_div_pow2 by lia. change (2 ^ 4) with 16.
  pose proof (Z.div_mod (start_mem + 15) 16). pose proof (Z.mod_pos_bound (start_mem + 15) 16).
  destruct (PAGE_ALIGN_spec ((start_mem + 15) / 16 * 16 + 2 * n)) as [Ha1 Hp1]; [lia|lia|].
  destruct (PAGE_ALIGN_spec start_low_mem) as [Ha2 Hp2]; [lia|lia|].
  set (map0 := repeat MAP_PAGE_RESERVED (Z.to_nat n)).
  assert (Hl0 : length map0 = Z.to_nat n) by apply repeat_length.
  destruct (clear_map_spec (Z.to_nat n) (PAGE_ALIGN start_low_mem) 0xA0000 map0) as (map1 & -> & Hl1 & Hz1 & Hg1); [done|lia..|].
  cbn [mbind option_bind].
  destruct (clear_map_spec (Z.to_nat n) (PAGE_ALIGN ((start_mem + 15) / 16 * 16 + 2 * n)) (4096 * n) map1)
    as (map2 & -> & Hl2 & Hz2 & Hg2); [done|lia..|]. cbn [mbind option_bind].
  assert (Hm0 : get map0 0 = Some MAP_PAGE_RESERVED).
  { unfold map0. destruct (Z.to_nat n) as [|k] eqn:E; [lia|done]. }
  set (m := Mem _ _ _ _ _ _ _).
  change 0 with (4096 * 0) at 1. destruct (link_free_spec (Z.to_nat n) 0 m []) as (w & q & fl & -> & Hc & Hq & Hm); try done.
  - simpl. lia.
  - cbn [m mem_map]. rewrite Hz2, Hz1, Hm0. done.
  - intros a. unfold free_below. split; [set_solver|lia].
  - eexists. split; [done|]. split; [|simpl; lia]. exists fl, []. constructor; try done.
    + cbn. split; [lia|]. rewrite Z.mul_comm. apply Z.mod_mul. lia.
    + cbn. rewrite (Z.mul_comm 4096), Z.div_mul by lia. lia.
    + cbn [set_free set_word mem_map m]. intros i x Hi. destruct (Hg2 i x Hi) as [->|Hi1]; [lia|].
      destruct (Hg1 i x Hi1) as [->|Hi0]; [lia|]. unfold get, map0 in Hi0. case_bool_in Hi0; [done|].
      apply list_elem_of_lookup_2, list_elem_of_In, repeat_spec in Hi0 as ->. vm_compute. intuition discriminate.
    + cbn [set_free set_word mem_map m]. rewrite Hz2, Hz1, Hm0. done.
    + intros a _ Hin. set_solver.
    + intros a. rewrite Hm. unfold free_below, is_page. cbn. rewrite !Z2Nat.id by lia.
      change (count (set_free q (set_word w m)) a) with (count m a). set_solver.
Qed.

Lemma count_is_page m a : mem_ok m -> 0 < a -> a mod 4096 = 0 -> count m a <> 0 -> is_page m a.
Proof.
  intros (fl & sl & Hl) Ha Hal Hc. split; [|done]. split; [done|]. unfold count in Hc.
  destruct (get (mem_map m) (MAP_NR a)) as [x|] eqn:E; [|done]. apply get_Some_range in E.
  rewrite MAP_NR_div, (l_map _ _ _ Hl) in E. pose proof (Z.div_mod a 4096). pose proof (Z.div_mod (high_memory m) 4096).
  destruct (l_high _ _ _ Hl). lia.
Qed.

End PageAlloc.

(** ** The interface

    [get_page] is the last part of [__get_free_page], without the attempts to
    free pages before it. *)

#[export] Program Instance swap_pages : PageAllocator PageAlloc.mem := {
  page_inv := PageAlloc.mem_ok;
  page_count := PageAlloc.count;
  get_page := PageAlloc.__get_free_page (fun m => (false, m)) 1 PageAlloc.GFP_ATOMIC;
  release_page := PageAlloc.free_page
}.
Next Obligation.
  intros m Hm. destruct (PageAlloc.get_atomic_complete (fun m => (false, m)) 0 m Hm)
    as (r & m' & E & Hm' & [(-> & -> & _)|(Hp & H0 & H1 & Hh & Hq)]); exists r || exists 0; eexists.
  - split; [exact E|]. split; [done|]. by left.
  - split; [exact E|]. split; [done|]. right. destruct Hp as [Hr Hal]. destruct Hm as (fl & sl & Hl).
    destruct (PageAlloc.l_high _ _ _ Hl). split_and!; try done; lia.
Qed.
Next Obligation.
  intros m p Hm Hp Hal Hc. assert (Hpage : PageAlloc.is_page m p) by (apply PageAlloc.count_is_page; [done|lia|done|lia]).
  destruct (PageAlloc.free_page_ok m p Hm Hpage) as (m' & E & Hm' & _ & Hc' & Hq).
  exists m'. rewrite Hc in Hc'. by split_and!.
Qed.
