(* ===== verification/Kmalloc.v ===== *)
(** * The kernel memory allocator ([src/mm/kmalloc.c])

    Memory is seen as the allocator lays it out: [pages] are the page
    descriptors, by address, of the pages the allocator holds, and [blocks] the
    headers in front of every block of those pages.  Reading a descriptor or a
    header anywhere else is [None].  The pages come from a [PageAllocator]. *)

From S2P Require Import Prelude PageAlloc.
From Stdlib Require Import ZArith Lia.
From stdpp Require Import base list gmap numbers functions.

Local Open Scope Z_scope.

Module Kmalloc.

Definition GFP_LEVEL_MASK : Z := 0xf.
Definition MAX_KMALLOC_K : Z := 4.
Definition MAX_GET_FREE_PAGE_TRIES : nat := 4.
Definition MF_USED : Z := 0xffaa0055.
Definition MF_FREE : Z := 0x0055ffaa.

(** [vp] is the union: [bh_length] of a used block, [bh_next] of a free one. *)
Record block_header := BlockHeader { bh_flags : Z; vp : Z }.

Record page_descriptor := PageDescriptor {
  next : Z;
  firstfree : Z;
  order : Z;
  nfree : Z
}.

Record size_descriptor := SizeDescriptor {
  sd_firstfree : Z;
  size : Z;
  nblocks : Z;
  nmallocs : Z;
  nfrees : Z;
  nbytesmalloced : Z;
  npages : Z
}.

Definition sizeof_page_descriptor : Z := 16.
Definition sizeof_block_header : Z := 8.

(** [PAGE_DESC(p)] *)
Definition PAGE_DESC (p : Z) : Z := Z.land p PageAlloc.PAGE_MASK.

Definition sizes_init : list size_descriptor :=
  [SizeDescriptor 0 32 127 0 0 0 0;
   SizeDescriptor 0 64 63 0 0 0 0;
   SizeDescriptor 0 128 31 0 0 0 0;
   SizeDescriptor 0 252 16 0 0 0 0;
   SizeDescriptor 0 508 8 0 0 0 0;
   SizeDescriptor 0 1020 4 0 0 0 0;
   SizeDescriptor 0 2040 2 0 0 0 0;
   SizeDescriptor 0 4080 1 0 0 0 0;
   SizeDescriptor 0 0 0 0 0 0 0].

(** The loop of [kmalloc_init] over the entries of the table up to the one with
    size 0: false if it panics. *)
Fixpoint kmalloc_init (sizes : list size_descriptor) : bool :=
  match sizes with
  | [] => true
  | s :: sizes =>
      if size s =? 0 then true
      else if PageAlloc.PAGE_SIZE <? nblocks s * size s + sizeof_page_descriptor then false
      else kmalloc_init sizes
  end.

(** The loop of [get_order], from entry [i] on; [size] includes the header. *)
Fixpoint order_from (sz : Z) (sizes : list size_descriptor) (i : Z) : Z :=
  match sizes with
  | [] => -1
  | s :: sizes =>
      if size s =? 0 then -1
      else if sz <=? size s then i else order_from sz sizes (i + 1)
  end.

Definition get_order (sizes : list size_descriptor) (sz : Z) : Z :=
  order_from (sz + sizeof_block_header) sizes 0.

Section allocator.
Context `{PA : PageAllocator M}.

Record heap := Heap {
  pages : gmap Z page_descriptor;
  blocks : gmap Z block_header;
  sizes : list size_descriptor;
  mem : M
}.

Definition set_page (a : Z) (d : page_descriptor) (h : heap) : heap :=
  Heap (<[a := d]> (pages h)) (blocks h) (sizes h) (mem h).
Definition set_block (a : Z) (b : block_header) (h : heap) : heap :=
  Heap (pages h) (<[a := b]> (blocks h)) (sizes h) (mem h).
Definition set_sizes (s : list size_descriptor) (h : heap) : heap :=
  Heap (pages h) (blocks h) s (mem h).
Definition set_mem (m : M) (h : heap) : heap :=
  Heap (pages h) (blocks h) (sizes h) m.

Definition set_sd_firstfree (a : Z) (s : size_descriptor) : size_descriptor :=
  SizeDescriptor a (size s) (nblocks s) (nmallocs s) (nfrees s) (nbytesmalloced s) (npages s).

(** ** Allocation *)

Inductive taken := Taken (ptr : Z) (h : heap) | Not_free | Nothing.

(** The part of [kmalloc] with interrupts off that takes a block off the list of
    its size, and the accounting after it. *)
Definition take (ord sz : Z) (h : heap) : option taken :=
  s ← get (sizes h) ord;
  let page := sd_firstfree s in
  if page =? 0 then Some Nothing
  else
    d ← pages h !! page;
    let p := firstfree d in
    if p =? 0 then Some Nothing
    else
      b ← blocks h !! p;
      if bh_flags b =? MF_FREE then
        let d := PageDescriptor (next d) (vp b) (order d) (s32 (nfree d - 1)) in
        let '(s, d) := if nfree d =? 0
                       then (set_sd_firstfree (next d) s, PageDescriptor 0 (firstfree d) (order d) (nfree d))
                       else (s, d) in
        let s := SizeDescriptor (sd_firstfree s) (size s) (nblocks s) (s32 (nmallocs s + 1)) (nfrees s)
                   (s32 (nbytesmalloced s + sz)) (npages s) in
        ss ← put (sizes h) ord s;
        Some (Taken (p + sizeof_block_header)
                (set_block p (BlockHeader MF_USED sz) (set_page page d (set_sizes ss h))))
      else Some Not_free.

(** The loop that links the blocks of a new page: [i] of them from [p] on. *)
Fixpoint init_blocks (i : nat) (p sz : Z) (bs : gmap Z block_header) : gmap Z block_header :=
  match i with
  | S (S i as i') => init_blocks i' (p + sz) sz (<[p := BlockHeader MF_FREE (p + sz)]> bs)
  | _ => <[p := BlockHeader MF_FREE 0]> bs
  end.

(** What [kmalloc] does with a page it got. *)
Definition add_page (ord page : Z) (h : heap) : option heap :=
  s ← get (sizes h) ord;
  let bs := init_blocks (Z.to_nat (nblocks s)) (page + sizeof_page_descriptor) (size s) (blocks h) in
  let d := PageDescriptor (sd_firstfree s) (page + sizeof_page_descriptor) ord (nblocks s) in
  ss ← put (sizes h) ord
         (SizeDescriptor page (size s) (nblocks s) (nmallocs s) (nfrees s) (nbytesmalloced s) (s32 (npages s + 1)));
  Some (Heap (<[page := d]> (pages h)) bs ss (mem h)).

(** What interrupts and other processes do to the heap while [kmalloc] has
    interrupts on: [env i] while [__get_free_page] runs (it can sleep) and
    [env' i] after the page is linked in, with [i] tries left. *)
Section kmalloc.
Context (env env' : nat -> heap -> heap).

Fixpoint kmalloc_loop (tries : nat) (ord sz : Z) (h : heap) : option (Z * heap) :=
  match tries with
  | O => Some (0, h)
  | S tries =>
      r ← take ord sz h;
      match r with
      | Taken ptr h => Some (ptr, h)
      | Not_free => Some (0, h)
      | Nothing =>
          let h := env tries h in
          '(page, m) ← get_page (mem h);
          let h := set_mem m h in
          if page =? 0 then Some (0, h)
          else h ← add_page ord page h; kmalloc_loop tries ord sz (env' tries h)
      end
  end.

Definition kmalloc (sz : Z) (h : heap) : option (Z * heap) :=
  if MAX_KMALLOC_K * 1024 <? sz then Some (0, h)
  else
    let ord := get_order (sizes h) sz in
    if ord <? 0 then Some (0, h)
    else kmalloc_loop MAX_GET_FREE_PAGE_TRIES ord sz h.
End kmalloc.

(** ** Release *)

(** The loop that looks for the page before [page] in a list of pages: [Some 0]
    if it is not there. *)
Fixpoint find_before (fuel : nat) (page pg2 : Z) (ps : gmap Z page_descriptor) : option Z :=
  match fuel with
  | O => None
  | S fuel =>
      if pg2 =? 0 then Some 0
      else d ← ps !! pg2;
           if next d =? page then Some pg2 else find_before fuel page (next d) ps
  end.

(** Taking a page with no used block off its list and giving it back. *)
Definition drop_page (ord page : Z) (h : heap) : option heap :=
  s ← get (sizes h) ord;
  d ← pages h !! page;
  h ← (if sd_firstfree s =? page then
         ss ← put (sizes h) ord (set_sd_firstfree (next d) s); Some (set_sizes ss h)
       else
         pg2 ← find_before (S (length (map_to_list (pages h)))) page (sd_firstfree s) (pages h);
         if negb (pg2 =? 0) then
           d2 ← pages h !! pg2;
           Some (set_page pg2 (PageDescriptor (next d) (firstfree d2) (order d2) (nfree d2)) h)
         else Some h);
  m ← release_page page (mem h);
  Some (Heap (delete page (pages h)) (filter (fun b => PAGE_DESC b.1 <> page) (blocks h)) (sizes h) m).

Definition kfree_s (ptr sz : Z) (h : heap) : option heap :=
  let p := ptr - sizeof_block_header in
  let page := PAGE_DESC p in
  d0 ← pages h !! page;
  let ord := order d0 in
  if (ord <? 0) || (Z.of_nat (length (sizes h)) <? ord) || negb (Z.land (next d0) (Z.lnot PageAlloc.PAGE_MASK) =? 0)
  then Some h
  else
    b ← blocks h !! p;
    if negb (bh_flags b =? MF_USED) then Some h
    else if negb (sz =? 0) && negb (u32 sz =? vp b) then Some h
    else
      let h := set_block p (BlockHeader MF_FREE (firstfree d0)) h in
      let d := PageDescriptor (next d0) p ord (s32 (nfree d0 + 1)) in
      s ← get (sizes h) ord;
      h ← (if (nfree d =? 1) && (next d =? 0) then
             ss ← put (sizes h) ord (set_sd_firstfree page s);
             Some (set_page page (PageDescriptor (sd_firstfree s) p ord (nfree d)) (set_sizes ss h))
           else Some (set_page page d h));
      h ← (if nfree d =? nblocks s then drop_page ord page h else Some h);
      s ← get (sizes h) ord;
      ss ← put (sizes h) ord (SizeDescriptor (sd_firstfree s) (size s) (nblocks s) (nmallocs s)
                                (s32 (nfrees s + 1)) (s32 (nbytesmalloced s - vp b)) (npages s));
      Some (set_sizes ss h).

(** ** The layout of the heap *)

Definition shape (s : size_descriptor) : Z * Z := (size s, nblocks s).

(** The addresses of the block headers of a page. *)
Definition block_addrs (page ord : Z) : list Z :=
  match get (shape <$> sizes_init) ord with
  | Some (sz, n) => (fun k => page + sizeof_page_descriptor + Z.of_nat k * sz) <$> seq 0 (Z.to_nat n)
  | None => []
  end.

Definition bnext (bs : gmap Z block_header) (b : Z) : option Z := vp <$> bs !! b.
Definition pnext (ps : gmap Z page_descriptor) (a : Z) : option Z := next <$> ps !! a.

(** [fl a] are the free blocks of page [a], [pl ord] the pages on the list of an
    order. *)
Record page_ok (h : heap) (fl : Z -> list Z) (a : Z) (d : page_descriptor) : Prop := {
  p_addr : 0 < a < 2 ^ 32 /\ a mod 4096 = 0;
  p_count : page_count (mem h) a = 1;
  p_order : 0 <= order d < 8;
  p_chain : chain (bnext (blocks h)) (firstfree d) (fl a);
  p_nfree : nfree d = Z.of_nat (length (fl a));
  p_free : forall b, b ∈ fl a -> b ∈ block_addrs a (order d);
  p_full : fl a = [] -> next d = 0;
  p_blocks : forall b, b ∈ block_addrs a (order d) -> is_Some (blocks h !! b)
}.

Record layout (h : heap) (pl fl : Z -> list Z) : Prop := {
  k_shape : shape <$> sizes h = shape <$> sizes_init;
  k_mem : page_inv (mem h);
  k_pages : forall a d, pages h !! a = Some d -> page_ok h fl a d;
  k_blocks : forall b hd, blocks h !! b = Some hd ->
    (exists d, pages h !! PAGE_DESC b = Some d /\ b ∈ block_addrs (PAGE_DESC b) (order d)) /\
    bh_flags hd = (if bool_decide (b ∈ fl (PAGE_DESC b)) then MF_FREE else MF_USED);
  k_fit : forall b hd d sz n, blocks h !! b = Some hd -> bh_flags hd = MF_USED -> pages h !! PAGE_DESC b = Some d ->
    get (shape <$> sizes_init) (order d) = Some (sz, n) -> 0 <= vp hd /\ vp hd + 8 <= sz;
  k_lists : forall ord s, 0 <= ord < 8 -> get (sizes h) ord = Some s ->
    chain (pnext (pages h)) (sd_firstfree s) (pl ord);
  k_member : forall ord a, 0 <= ord < 8 ->
    a ∈ pl ord <-> exists d, pages h !! a = Some d /\ order d = ord /\ fl a <> []
}.

Definition heap_ok (h : heap) : Prop := exists pl fl, layout h pl fl.

(** The blocks in use, by the address of their header, with their lengths. *)
Definition used (h : heap) : gmap Z Z :=
  omap (fun b => if bh_flags b =? MF_USED then Some (vp b) else None) (blocks h).

(** ** Sizes and addresses *)

Lemma sizes_table h ord s :
  shape <$> sizes h = shape <$> sizes_init -> 0 <= ord < 8 -> get (sizes h) ord = Some s ->
  get (shape <$> sizes_init) ord = Some (shape s) /\
  32 <= size s /\ 0 < nblocks s <= 127 /\ nblocks s * size s + 16 <= 4096.
Proof.
  intros Hs Ho Hg. assert (E : get (shape <$> sizes_init) ord = Some (shape s)).
  { rewrite <- Hs. unfold get in *. case_bool; [lia|]. by rewrite list_lookup_fmap, Hg. }
  split; [done|]. destruct s as [f sz n a1 a2 a3 a4]. unfold get in E. case_bool_in E; [lia|].
  assert (Hc : ord = 0 \/ ord = 1 \/ ord = 2 \/ ord = 3 \/ ord = 4 \/ ord = 5 \/ ord = 6 \/ ord = 7) by lia.
  destruct Hc as [-> | [-> | [-> | [-> | [-> | [-> | [-> | ->]]]]]]]; injection E as <- <-; simpl; lia.
Qed.

Lemma sizes_get h ord : shape <$> sizes h = shape <$> sizes_init -> 0 <= ord < 8 -> exists s, get (sizes h) ord = Some s.
Proof.
  intros Hs Ho. apply get_in_range. rewrite <- (length_fmap shape), Hs. simpl. lia.
Qed.

Lemma block_addrs_elem page ord sz n b :
  get (shape <$> sizes_init) ord = Some (sz, n) ->
  b ∈ block_addrs page ord <-> exists k, 0 <= k < n /\ b = page + 16 + k * sz.
Proof.
  intros E. unfold block_addrs. rewrite E, list_elem_of_fmap. split.
  - intros (k & -> & Hk%list_elem_of_In%in_seq). exists (Z.of_nat k). unfold sizeof_page_descriptor. lia.
  - intros (k & Hk & ->). exists (Z.to_nat k). split; [rewrite Z2Nat.id by lia; done|].
    apply list_elem_of_In, in_seq. lia.
Qed.

Lemma PAGE_DESC_spec p : 0 <= p < 2 ^ 32 -> PAGE_DESC p = p - p mod 4096.
Proof. apply PageAlloc.PAGE_MASK_spec. Qed.

Lemma geometry ord : 0 <= ord < 8 ->
  exists sz n, get (shape <$> sizes_init) ord = Some (sz, n) /\ 32 <= sz /\ 0 < n <= 127 /\ n * sz + 16 <= 4096.
Proof.
  intros Ho. assert (Hc : ord = 0 \/ ord = 1 \/ ord = 2 \/ ord = 3 \/ ord = 4 \/ ord = 5 \/ ord = 6 \/ ord = 7) by lia.
  destruct Hc as [-> | [-> | [-> | [-> | [-> | [-> | [-> | ->]]]]]]]; eexists _, _; (split; [reflexivity|]); simpl; lia.
Qed.

(** A block lies in its page. *)
Lemma block_in_page page ord b :
  0 < page < 2 ^ 32 -> page mod 4096 = 0 -> 0 <= ord < 8 -> b ∈ block_addrs page ord ->
  PAGE_DESC b = page /\ page + 16 <= b < page + 4096 /\ b < 2 ^ 32.
Proof.
  intros Hp Hal Ho Hb. destruct (geometry ord Ho) as (sz & n & E & Hsz & Hn & Hfit).
  destruct (proj1 (block_addrs_elem page ord sz n b E) Hb) as (k & Hk & ->).
  assert (0 <= k * sz /\ k * sz + sz <= n * sz) by nia.
  pose proof (Z.div_mod page 4096). assert (page + 4096 <= 2 ^ 32) by lia.
  rewrite PAGE_DESC_spec by lia. split; [|lia].
  rewrite <- (Z.mod_unique (page + 16 + k * sz) 4096 (page / 4096) (16 + k * sz)) by lia. lia.
Qed.

(** ** Facts that follow from the layout *)

Lemma free_length h fl a d : page_ok h fl a d -> (length (fl a) <= 127)%nat.
Proof.
  intros [_ _ Ho Hc _ Hf _ _]. transitivity (length (block_addrs a (order d))).
  - apply submseteq_length, NoDup_submseteq; [by eapply chain_NoDup|done].
  - destruct (geometry (order d) Ho) as (sz & k & E & _ & Hk & _). unfold block_addrs. rewrite E, length_fmap, length_seq. lia.
Qed.

Section facts.
Context {h : heap} {pl fl : Z -> list Z} (L : layout h pl fl).

Lemma free_block_page a d b : pages h !! a = Some d -> b ∈ fl a -> PAGE_DESC b = a /\ 0 < b.
Proof.
  intros Ha Hb. destruct (k_pages _ _ _ L a d Ha) as [[Hr Hal] _ Ho _ _ Hf _ _].
  destruct (block_in_page a (order d) b Hr Hal Ho (Hf b Hb)). lia.
Qed.

Lemma free_block_header a d b : pages h !! a = Some d -> b ∈ fl a ->
  exists n, blocks h !! b = Some (BlockHeader MF_FREE n).
Proof.
  intros Ha Hb. destruct (free_block_page a d b Ha Hb) as [Hpd _].
  destruct (k_pages _ _ _ L a d Ha) as [_ _ _ _ _ Hf _ Hs]. destruct (Hs b (Hf b Hb)) as [[f n] Hn].
  destruct (k_blocks _ _ _ L b _ Hn) as [_ Hfl]. simpl in Hfl. rewrite Hpd, bool_decide_eq_true_2 in Hfl by done.
  exists n. by rewrite Hn, Hfl.
Qed.

Lemma used_not_free b len : used h !! b = Some len ->
  blocks h !! b = Some (BlockHeader MF_USED len) /\ (b ∉ fl (PAGE_DESC b)) /\
  exists d, pages h !! PAGE_DESC b = Some d /\ b ∈ block_addrs (PAGE_DESC b) (order d).
Proof.
  intros Hu. unfold used in Hu. apply lookup_omap_Some in Hu as ([f n] & Hf & Hb). simpl in Hf.
  destruct (Z.eqb_spec f MF_USED) as [->|]; [|done]. injection Hf as <-. split; [done|].
  destruct (k_blocks _ _ _ L b _ Hb) as [Hd Hfl]. simpl in Hfl. split; [|done].
  case_bool_decide; done.
Qed.

Lemma free_not_used a d b : pages h !! a = Some d -> b ∈ fl a -> used h !! b = None.
Proof.
  intros Ha Hb. destruct (free_block_header a d b Ha Hb) as [n Hn]. unfold used. by rewrite lookup_omap, Hn.
Qed.
End facts.

(** ** Changing one block of a page *)

Section update.
Context {h : heap} {pl fl : Z -> list Z} (L : layout h pl fl).
Context (page p : Z) (d d' : page_descriptor) (hd : block_header) (fl1 pl1 : list Z).
Context (s s' : size_descriptor) (ss : list size_descriptor).

Let h' := set_block p hd (set_page page d' (set_sizes ss h)).

(** [p] is a block of [page] and changes sides; the page keeps its order. *)
Hypothesis Hpg : pages h !! page = Some d.
Hypothesis Hp : p ∈ block_addrs page (order d).
Hypothesis Hord : order d' = order d.
Hypothesis Hflags : bh_flags hd = (if bool_decide (p ∈ fl1) then MF_FREE else MF_USED).
Hypothesis Hfit : forall sz n, bh_flags hd = MF_USED -> get (shape <$> sizes_init) (order d) = Some (sz, n) ->
  0 <= vp hd /\ vp hd + 8 <= sz.
Hypothesis Hsame : forall b, b <> p -> b ∈ fl1 <-> b ∈ fl page.
Hypothesis Hchain : chain (bnext (<[p := hd]> (blocks h))) (firstfree d') fl1.
Hypothesis Hnfree : nfree d' = Z.of_nat (length fl1).
Hypothesis Hfull : fl1 = [] -> next d' = 0.

(** The size descriptor of the order keeps its geometry, and its list is [pl1]. *)
Hypothesis Hs : get (sizes h) (order d) = Some s.
Hypothesis Hput : put (sizes h) (order d) s' = Some ss.
Hypothesis Hshape : shape s' = shape s.
Hypothesis Hlist : chain (pnext (<[page := d']> (pages h))) (sd_firstfree s') pl1.
Hypothesis Hmem : forall a, a <> page -> a ∈ pl1 <-> a ∈ pl (order d).
Hypothesis Hmem' : page ∈ pl1 <-> fl1 <> [].

Lemma update_desc : PAGE_DESC p = page.
Proof.
  destruct (k_pages _ _ _ L page d Hpg) as [[Hr Hal] _ Ho _ _ _ _ _]. by apply (block_in_page page (order d)).
Qed.

Lemma update_page : page_ok h' (<[page := fl1]> fl) page d'.
Proof.
  destruct (k_pages _ _ _ L page d Hpg) as [H1 H2 H3 _ _ H6 _ H8].
  constructor; rewrite ?Hord, ?fn_lookup_insert; try done.
  - intros b Hb. destruct (decide (b = p)) as [->|]; [done|]. apply H6. by apply Hsame.
  - intros b Hb. apply lookup_insert_is_Some'. right. by apply H8.
Qed.

Lemma update_other a e : a <> page -> pages h !! a = Some e -> page_ok h' (<[page := fl1]> fl) a e.
Proof.
  intros Hne He. destruct (k_pages _ _ _ L a e He) as [H1 H2 H3 H4 H5 H6 H7 H8].
  constructor; rewrite ?fn_lookup_insert_ne by done; try done.
  - eapply chain_ext; [|exact H4]. intros x Hx. unfold bnext. cbn. rewrite lookup_insert_ne; [done|].
    intros <-. apply Hne. rewrite <- update_desc. symmetry. by apply (free_block_page L a e).
  - intros b Hin. apply lookup_insert_is_Some'. right. by apply H8.
Qed.

Lemma update_block b x : blocks h' !! b = Some x ->
  (exists e, pages h' !! PAGE_DESC b = Some e /\ b ∈ block_addrs (PAGE_DESC b) (order e)) /\
  bh_flags x = (if bool_decide (b ∈ (<[page := fl1]> fl) (PAGE_DESC b)) then MF_FREE else MF_USED).
Proof.
  intros Hx. cbn in *. destruct (decide (b = p)) as [->|Hne].
  - rewrite lookup_insert_eq in Hx. injection Hx as <-. rewrite update_desc, lookup_insert_eq, fn_lookup_insert.
    split; [|done]. exists d'. by rewrite Hord.
  - rewrite lookup_insert_ne in Hx by done. destruct (k_blocks _ _ _ L b x Hx) as [(e & He & Hin) Hfg]. split.
    + destruct (decide (PAGE_DESC b = page)) as [E|E]; [|exists e; by rewrite lookup_insert_ne].
      rewrite E in *. rewrite lookup_insert_eq. exists d'. simplify_eq. by rewrite Hord.
    + rewrite Hfg. destruct (decide (PAGE_DESC b = page)) as [E|E]; [|by rewrite fn_lookup_insert_ne].
      rewrite E, fn_lookup_insert. by rewrite (bool_decide_ext _ _ (Hsame b Hne)).
Qed.

Lemma layout_update : layout h' (<[order d := pl1]> pl) (<[page := fl1]> fl).
Proof.
  assert (Ho : 0 <= order d < 8) by apply (p_order _ _ _ _ (k_pages _ _ _ L page d Hpg)).
  constructor.
  - unfold h'. cbn. rewrite (put_fmap_same shape _ _ _ _ _ Hput Hs Hshape). apply (k_shape _ _ _ L).
  - apply (k_mem _ _ _ L).
  - intros a e He. unfold h' in He. cbn in He. destruct (decide (a = page)) as [->|Hne].
    + rewrite lookup_insert_eq in He. injection He as <-. apply update_page.
    + rewrite lookup_insert_ne in He by done. by apply update_other.
  - apply update_block.
  - intros b x e sz n Hb Hf He Hg. unfold h' in Hb, He. cbn in Hb, He. destruct (decide (b = p)) as [->|Hne].
    + rewrite lookup_insert_eq in Hb. injection Hb as <-. rewrite update_desc, lookup_insert_eq in He. injection He as <-.
      rewrite Hord in Hg. by eapply Hfit.
    + rewrite lookup_insert_ne in Hb by done. destruct (decide (PAGE_DESC b = page)) as [E|E].
      * rewrite E, lookup_insert_eq in He. injection He as <-. rewrite Hord in Hg.
        eapply (k_fit _ _ _ L b x d); [done..|by rewrite E|done].
      * rewrite lookup_insert_ne in He by done. by eapply (k_fit _ _ _ L b x e).
  - intros o s1 Ho1 Hg. unfold h' in *. cbn in *. rewrite (get_put _ _ _ _ _ Hput) in Hg.
    destruct (Z.eqb_spec o (order d)) as [->|Hno]; [injection Hg as <-; by rewrite fn_lookup_insert|].
    rewrite fn_lookup_insert_ne by done. eapply chain_ext; [|exact (k_lists _ _ _ L o s1 Ho1 Hg)].
    intros x Hx. unfold pnext. rewrite lookup_insert_ne; [done|]. intros <-.
    apply (k_member _ _ _ L) in Hx as (e & He & Heo & _); [|done]. congruence.
  - intros o a Ho1. unfold h'. cbn. destruct (decide (a = page)) as [->|Hne].
    + rewrite lookup_insert_eq, fn_lookup_insert. destruct (decide (o = order d)) as [->|Hno].
      * rewrite fn_lookup_insert, Hmem'. split; [by exists d'|by intros (e & _ & _ & ?)].
      * rewrite fn_lookup_insert_ne, (k_member _ _ _ L) by done. split; intros (e & He & Heo & _); simplify_eq/=; congruence.
    + rewrite lookup_insert_ne, (fn_lookup_insert_ne fl), <- (k_member _ _ _ L) by done.
      destruct (decide (o = order d)) as [->|Hno]; [|by rewrite fn_lookup_insert_ne].
      rewrite fn_lookup_insert. by apply Hmem.
Qed.
End update.

(** ** Allocating *)

Lemma used_insert h p hd page d ss :
  used (set_block p hd (set_page page d (set_sizes ss h))) =
  (if bh_flags hd =? MF_USED then <[p := vp hd]> (used h) else delete p (used h)).
Proof.
  unfold used. cbn. destruct (bh_flags hd =? MF_USED) eqn:E.
  - erewrite omap_insert_Some; [done|]. by rewrite E.
  - rewrite omap_insert_None; [done|]. by rewrite E.
Qed.

(** The free blocks of a page on a list: the first, and the pages behind it. *)
Lemma first_free h pl fl ord s :
  layout h pl fl -> 0 <= ord < 8 -> get (sizes h) ord = Some s -> sd_firstfree s <> 0 ->
  exists d p rest nxt plt, pages h !! sd_firstfree s = Some d /\ order d = ord /\ fl (sd_firstfree s) = p :: rest /\
    firstfree d = p /\ p <> 0 /\ blocks h !! p = Some (BlockHeader MF_FREE nxt) /\ chain (bnext (blocks h)) nxt rest /\
    pl ord = sd_firstfree s :: plt /\ chain (pnext (pages h)) (next d) plt /\ nfree d = Z.of_nat (S (length rest)) /\
    p ∈ block_addrs (sd_firstfree s) ord /\ (length rest < 127)%nat.
Proof.
  intros L Ho Hs Hne. set (page := sd_firstfree s) in *.
  destruct (chain_nonzero _ _ _ (k_lists _ _ _ L ord s Ho Hs) Hne) as (n & plt & Epl & Hn & Hc).
  change (sd_firstfree s) with page in Epl, Hn.
  destruct (proj1 (k_member _ _ _ L ord page Ho)) as (d & Hd & Hdo & Hfl); [rewrite Epl; set_solver|].
  unfold pnext in Hn. rewrite Hd in Hn. injection Hn as <-.
  destruct (k_pages _ _ _ L page d Hd) as [_ _ _ Hch Hnf Hfr _ _]. destruct (fl page) as [|p rest] eqn:Efl; [done|].
  pose proof (chain_NoDup _ _ _ Hch) as Hnd. destruct Hch as (Ef & Hp0 & n & Hn & Hch).
  destruct (free_block_header L page d p Hd) as [n' Hn']; [rewrite Efl; set_solver|].
  unfold bnext in Hn. rewrite Hn' in Hn. injection Hn as <-.
  pose proof (free_length _ _ _ _ (k_pages _ _ _ L page d Hd)) as Hlen. rewrite Efl in Hlen.
  exists d, p, rest, n', plt. simpl in Hlen. split_and!; try done; try lia. rewrite <- Hdo. apply Hfr. set_solver.
Qed.

Lemma take_spec h pl fl ord sz s :
  layout h pl fl -> 0 <= ord < 8 -> get (sizes h) ord = Some s -> 0 <= sz -> sz + 8 <= size s ->
  sd_firstfree s = 0 /\ take ord sz h = Some Nothing \/
  exists p h', take ord sz h = Some (Taken (p + 8) h') /\ heap_ok h' /\ sd_firstfree s <> 0 /\
    (exists page d, pages h' !! page = Some d /\ order d = ord /\ p ∈ block_addrs page ord) /\
    used h !! p = None /\ used h' = <[p := sz]> (used h).
Proof.
  intros L Ho Hs Hsz0 Hsz. unfold take. rewrite Hs. cbn [mbind option_bind].
  destruct (Z.eqb_spec (sd_firstfree s) 0) as [E0|E0]; [by left|right].
  destruct (first_free h pl fl ord s L Ho Hs E0) as
    (d & p & rest & nxt & plt & Hd & <- & Efl & Ef & Hp0 & Hb & Hch & Epl & Hcp & Hnf & Hin & Hlen).
  rewrite Hd. cbn [mbind option_bind]. rewrite Ef. destruct (Z.eqb_spec p 0) as [|_]; [done|]. rewrite Hb. cbn [mbind option_bind bh_flags].
  change (MF_FREE =? MF_FREE) with true. cbv iota. cbn [vp nfree next firstfree order].
  rewrite (s32_small (nfree d - 1)) by lia.
  assert (Hfit : forall sz0 n, MF_USED = MF_USED -> get (shape <$> sizes_init) (order d) = Some (sz0, n) -> 0 <= sz /\ sz + 8 <= sz0).
  { intros sz0 n _ E. destruct (sizes_table h (order d) s (k_shape _ _ _ L) Ho Hs) as [E' _]. rewrite E in E'. by injection E' as -> _. }
  assert (Hnd : NoDup (p :: rest)) by (rewrite <- Efl; eapply chain_NoDup, (k_pages _ _ _ L _ _ Hd)).
  apply list.NoDup_cons in Hnd as [Hpr Hnd].
  assert (Hndp : NoDup (sd_firstfree s :: plt)) by (rewrite <- Epl; eapply chain_NoDup, (k_lists _ _ _ L _ _ Ho Hs)).
  apply list.NoDup_cons in Hndp as [Hpp _].
  assert (Hu : used h !! p = None) by (apply (free_not_used L _ d p Hd); rewrite Efl; set_solver).
  assert (Hc' : chain (bnext (<[p := BlockHeader MF_USED sz]> (blocks h))) nxt rest).
  { eapply chain_ext; [|exact Hch]. intros x Hx. unfold bnext. rewrite lookup_insert_ne; [done|]. by intros ->. }
  assert (Hsame : forall b, b <> p -> b ∈ rest <-> b ∈ fl (sd_firstfree s)) by (intros b ?; rewrite Efl; set_solver).
  destruct (Z.eqb_spec (nfree d - 1) 0) as [En|En].
  - assert (rest = []) as -> by (destruct rest; [done|simpl in *; lia]).
    destruct (put_of_get _ _ (SizeDescriptor (next d) (size s) (nblocks s) (s32 (nmallocs s + 1)) (nfrees s)
                   (s32 (nbytesmalloced s + sz)) (npages s)) _ Hs) as [ss Hss].
    cbn [set_sd_firstfree sd_firstfree size nblocks nmallocs nfrees nbytesmalloced npages]. rewrite Hss. cbn [mbind option_bind].
    eexists p, _. split; [done|]. split; [eexists _, _; eapply (layout_update L _ p d _ _ [] plt); try done|].
    + eapply chain_ext; [|exact Hcp]. intros x Hx. unfold pnext. rewrite lookup_insert_ne; [done|]. by intros <-.
    + intros a Ha. rewrite Epl. set_solver.
    + split; [done|]. split; [eexists _, _; split; [apply lookup_insert_eq|done]|]. split; [done|]. apply used_insert.
  - assert (rest <> []) by (intros ->; simpl in *; lia).
    destruct (put_of_get _ _ (SizeDescriptor (sd_firstfree s) (size s) (nblocks s) (s32 (nmallocs s + 1)) (nfrees s)
                   (s32 (nbytesmalloced s + sz)) (npages s)) _ Hs) as [ss Hss].
    rewrite Hss. cbn [mbind option_bind].
    eexists p, _. split; [done|]. split; [eexists _, _; eapply (layout_update L _ p d _ _ rest (pl (order d))); try done|].
    + by rewrite bool_decide_eq_false_2.
    + cbn [nfree]. lia.
    + eapply chain_ext; [|exact (k_lists _ _ _ L _ _ Ho Hs)]. intros x Hx. unfold pnext.
      destruct (decide (x = sd_firstfree s)) as [->|]; [by rewrite lookup_insert_eq, Hd|by rewrite lookup_insert_ne].
    + rewrite Epl. set_solver.
    + split; [done|]. split; [eexists _, _; split; [apply lookup_insert_eq|done]|]. split; [done|]. apply used_insert.
Qed.

(** ** A new page *)

Lemma init_blocks_SS i p sz bs :
  init_blocks (S (S i)) p sz bs = init_blocks (S i) (p + sz) sz (<[p := BlockHeader MF_FREE (p + sz)]> bs).
Proof. reflexivity. Qed.

Lemma init_blocks_other i p sz bs b :
  (forall k, 0 <= k < Z.max 1 (Z.of_nat i) -> b <> p + k * sz) -> init_blocks i p sz bs !! b = bs !! b.
Proof.
  revert p bs. induction i as [|[|i] IH]; intros p bs Hb.
  1,2: cbn [init_blocks]; rewrite lookup_insert_ne; [done|]; specialize (Hb 0); lia.
  rewrite init_blocks_SS, IH; [|intros k Hk; specialize (Hb (k + 1)); lia].
  rewrite lookup_insert_ne; [done|]. specialize (Hb 0). lia.
Qed.

Lemma init_blocks_block i p sz bs k :
  0 < sz -> 0 <= k < Z.of_nat i ->
  init_blocks i p sz bs !! (p + k * sz) =
    Some (BlockHeader MF_FREE (if k + 1 =? Z.of_nat i then 0 else p + (k + 1) * sz)).
Proof.
  intros Hsz. revert p bs k. induction i as [|[|i] IH]; intros p bs k Hk; [lia| |].
  - assert (k = 0) as -> by lia. cbn [init_blocks]. replace (p + 0 * sz) with p by lia. by rewrite lookup_insert_eq.
  - rewrite init_blocks_SS.
    destruct (decide (k = 0)) as [->|Hk0].
    + rewrite init_blocks_other by (intros k Hk0; nia). replace (p + 0 * sz) with p by lia. rewrite lookup_insert_eq.
      destruct (Z.eqb_spec (0 + 1) (Z.of_nat (S (S i)))); [lia|]. do 2 f_equal. lia.
    + replace (p + k * sz) with (p + sz + (k - 1) * sz) by lia. rewrite IH by lia. do 2 f_equal.
      replace (k - 1 + 1 =? Z.of_nat (S i)) with (k + 1 =? Z.of_nat (S (S i))).
      * case_bool; lia.
      * destruct (Z.eqb_spec (k + 1) (Z.of_nat (S (S i)))), (Z.eqb_spec (k - 1 + 1) (Z.of_nat (S i))); lia || done.
Qed.

Lemma init_blocks_chain n p sz bs :
  0 < p -> 0 < sz -> (0 < n)%nat ->
  chain (bnext (init_blocks n p sz bs)) p ((fun k => p + Z.of_nat k * sz) <$> seq 0 n).
Proof.
  intros Hp Hsz Hn.
  assert (H : forall m j, (j + m = n)%nat -> chain (bnext (init_blocks n p sz bs))
    (if (j =? n)%nat then 0 else p + Z.of_nat j * sz) ((fun k => p + Z.of_nat k * sz) <$> seq j m)).
  { induction m as [|m IH]; intros j Hj; cbn [seq fmap list_fmap].
    - destruct (Nat.eqb_spec j n); [done|lia].
    - destruct (Nat.eqb_spec j n); [lia|]. split; [done|]. split; [nia|]. unfold bnext. rewrite init_blocks_block by lia.
      eexists. split; [done|]. cbn [vp]. specialize (IH (S j) ltac:(lia)).
      replace (Z.of_nat j + 1 =? Z.of_nat n) with (S j =? n)%nat; [by replace (Z.of_nat j + 1) with (Z.of_nat (S j)) by lia|].
      destruct (Nat.eqb_spec (S j) n), (Z.eqb_spec (Z.of_nat j + 1) (Z.of_nat n)); lia || done. }
  specialize (H n 0%nat eq_refl). destruct (Nat.eqb_spec 0 n); [lia|]. by rewrite Z.mul_0_l, Z.add_0_r in H.
Qed.

Lemma block_addrs_NoDup page ord : 0 <= ord < 8 -> NoDup (block_addrs page ord).
Proof.
  intros Ho. destruct (geometry ord Ho) as (sz & n & E & Hsz & Hn & _). unfold block_addrs. rewrite E.
  apply NoDup_fmap_2; [intros x y; nia|]. apply NoDup_seq.
Qed.

Section add_page.
Context {h : heap} {pl fl : Z -> list Z} (L : layout h pl fl) (ord page : Z) (s : size_descriptor).
Hypothesis Ho : 0 <= ord < 8.
Hypothesis Hs : get (sizes h) ord = Some s.
Hypothesis Hpage : 0 < page < 2 ^ 32 /\ page mod 4096 = 0.
Hypothesis Hcount : page_count (mem h) page = 1.
Hypothesis Hfresh : pages h !! page = None.

Let bs := init_blocks (Z.to_nat (nblocks s)) (page + 16) (size s) (blocks h).

Lemma new_blocks b :
  (b ∈ block_addrs page ord -> exists n, bs !! b = Some (BlockHeader MF_FREE n)) /\
  (b ∉ block_addrs page ord -> bs !! b = blocks h !! b) /\ (b ∈ block_addrs page ord -> blocks h !! b = None).
Proof.
  destruct (sizes_table h ord s (k_shape _ _ _ L) Ho Hs) as (E & Hsz & Hn & Hfit).
  pose proof (block_addrs_elem page ord (size s) (nblocks s) b E) as Hb. split_and!.
  - intros (k & Hk & ->)%Hb. eexists. apply init_blocks_block; lia.
  - intros Hnb. apply init_blocks_other. intros k Hk ->. apply Hnb, Hb. exists k. lia.
  - intros Hin. destruct (blocks h !! b) as [hd|] eqn:Ehd; [|done].
    destruct (k_blocks _ _ _ L b hd Ehd) as [(d & Hd & _) _].
    destruct (block_in_page page ord b (proj1 Hpage) (proj2 Hpage) Ho Hin) as [E' _]. congruence.
Qed.

Lemma new_used d ss m : used (Heap (<[page := d]> (pages h)) bs ss m) = used h.
Proof.
  apply map_eq. intros b. unfold used. cbn. rewrite !lookup_omap. destruct (new_blocks b) as (H1 & H2 & H3).
  destruct (decide (b ∈ block_addrs page ord)) as [Hin|Hin]; [|by rewrite H2].
  destruct (H1 Hin) as [n ->]. by rewrite H3.
Qed.

Lemma add_page_spec :
  exists h', add_page ord page h = Some h' /\ heap_ok h' /\ used h' = used h /\
    exists s', get (sizes h') ord = Some s' /\ sd_firstfree s' = page.
Proof.
  unfold add_page. rewrite Hs. cbn [mbind option_bind]. change sizeof_page_descriptor with 16. fold bs.
  set (s' := SizeDescriptor page _ _ _ _ _ _). destruct (put_of_get _ _ s' _ Hs) as [ss Hss]. rewrite Hss. cbn [mbind option_bind].
  eexists. split; [done|]. split; [|split; [apply new_used|]].
  2: { exists s'. cbn [sizes]. rewrite (get_put _ _ _ _ _ Hss), Z.eqb_refl. done. }
  destruct (sizes_table h ord s (k_shape _ _ _ L) Ho Hs) as (E & Hsz & Hn & Hfit).
  exists (<[ord := page :: pl ord]> pl), (<[page := block_addrs page ord]> fl).
  assert (Hnp : forall o, 0 <= o < 8 -> page ∉ pl o).
  { intros o Ho' Hin. apply (k_member _ _ _ L) in Hin as (d & Hd & _); [|done]. congruence. }
  assert (Hba : block_addrs page ord = (fun k => page + 16 + Z.of_nat k * size s) <$> seq 0 (Z.to_nat (nblocks s)))
    by (unfold block_addrs; by rewrite E).
  constructor; cbn [sizes mem pages blocks].
  - rewrite (put_fmap_same shape _ _ _ _ s Hss Hs eq_refl). apply (k_shape _ _ _ L).
  - apply (k_mem _ _ _ L).
  - intros a d Ha. destruct (decide (a = page)) as [->|Hne].
    + rewrite lookup_insert_eq in Ha. injection Ha as <-. constructor; cbn; rewrite ?fn_lookup_insert; try done.
      * rewrite Hba. apply init_blocks_chain; lia.
      * rewrite Hba, length_fmap, length_seq. lia.
      * rewrite Hba. intros Hnil. apply (f_equal length) in Hnil. rewrite length_fmap, length_seq in Hnil. simpl in Hnil. lia.
      * intros b Hb. destruct (new_blocks b) as (H1 & _ & _). destruct (H1 Hb) as [n Hbn]. by exists (BlockHeader MF_FREE n).
    + rewrite lookup_insert_ne in Ha by done. destruct (k_pages _ _ _ L a d Ha) as [H1 H2 H3 H4 H5 H6 H7 H8].
      assert (Hnot : forall b, b ∈ block_addrs a (order d) -> b ∉ block_addrs page ord).
      { intros b Hb Hb'. destruct (block_in_page a _ b (proj1 H1) (proj2 H1) H3 Hb) as [? _].
        destruct (block_in_page page _ b (proj1 Hpage) (proj2 Hpage) Ho Hb') as [? _]. congruence. }
      constructor; cbn; rewrite ?fn_lookup_insert_ne by done; try done.
      * eapply chain_ext; [|exact H4]. intros x Hx. unfold bnext. f_equal. symmetry. apply new_blocks, Hnot, H6, Hx.
      * intros b Hb. destruct (new_blocks b) as (_ & Hsame & _). rewrite Hsame; auto.
  - intros b hd Hb. destruct (new_blocks b) as (H1 & H2 & _).
    destruct (decide (b ∈ block_addrs page ord)) as [Hin|Hin].
    + destruct (block_in_page page ord b (proj1 Hpage) (proj2 Hpage) Ho Hin) as [-> _].
      rewrite lookup_insert_eq, fn_lookup_insert, bool_decide_eq_true_2 by done.
      destruct (H1 Hin) as [n Hn']. rewrite Hn' in Hb. injection Hb as <-. split; [|done]. by eexists.
    + rewrite H2 in Hb by done. destruct (k_blocks _ _ _ L b hd Hb) as [(d & Hd & Hbd) Hfg].
      assert (PAGE_DESC b <> page) by congruence. rewrite lookup_insert_ne, fn_lookup_insert_ne by done.
      split; [by exists d|done].
  - intros b hd e sz n Hb Hf He Hg. destruct (new_blocks b) as (H1 & H2 & _).
    destruct (decide (b ∈ block_addrs page ord)) as [Hin|Hin].
    + destruct (H1 Hin) as [n' Hn']. rewrite Hn' in Hb. injection Hb as <-. done.
    + rewrite H2 in Hb by done. destruct (k_blocks _ _ _ L b hd Hb) as [(d & Hd & _) _].
      rewrite lookup_insert_ne in He by congruence. by eapply (k_fit _ _ _ L b hd e).
  - intros o s1 Ho1 Hg. rewrite (get_put _ _ _ _ _ Hss) in Hg. destruct (Z.eqb_spec o ord) as [->|Hno].
    + injection Hg as <-. rewrite fn_lookup_insert. cbn [sd_firstfree s']. split; [done|]. split; [lia|].
      exists (sd_firstfree s). unfold pnext at 1. rewrite lookup_insert_eq. split; [done|].
      eapply chain_ext; [|exact (k_lists _ _ _ L ord s Ho Hs)]. intros x Hx. unfold pnext.
      rewrite lookup_insert_ne; [done|]. intros <-. by apply (Hnp ord).
    + rewrite fn_lookup_insert_ne by done. eapply chain_ext; [|exact (k_lists _ _ _ L o s1 Ho1 Hg)].
      intros x Hx. unfold pnext. rewrite lookup_insert_ne; [done|]. intros <-. by apply (Hnp o).
  - intros o a Ho1. destruct (decide (a = page)) as [->|Hne].
    + rewrite lookup_insert_eq, fn_lookup_insert. destruct (decide (o = ord)) as [->|Hno].
      * rewrite fn_lookup_insert. split; [|set_solver]. intros _. eexists. split; [done|]. split; [done|].
        rewrite Hba. intros Hnil. apply (f_equal length) in Hnil. rewrite length_fmap, length_seq in Hnil. simpl in Hnil. lia.
      * rewrite fn_lookup_insert_ne by done. split; [by intros ?%Hnp|intros (d & Hd & Hdo & _); simplify_eq/=; done].
    + rewrite lookup_insert_ne, (fn_lookup_insert_ne fl), <- (k_member _ _ _ L) by done.
      destruct (decide (o = ord)) as [->|Hno]; [rewrite fn_lookup_insert; set_solver|by rewrite fn_lookup_insert_ne].
Qed.
End add_page.

(** ** The order of a size *)

Lemma order_from_shape ss ss' sz i : shape <$> ss = shape <$> ss' -> order_from sz ss i = order_from sz ss' i.
Proof.
  revert ss' i. induction ss as [|s ss IH]; intros [|s' ss'] i H; try done.
  injection H as Hsz _ H. cbn [order_from]. by rewrite Hsz, (IH ss' (i + 1) H).
Qed.

(** The smallest block the size fits in, with its header. *)
Lemma get_order_spec h sz :
  shape <$> sizes h = shape <$> sizes_init -> 0 <= sz ->
  (sz <= 4072 /\ 0 <= get_order (sizes h) sz < 8 /\
     exists s, get (sizes h) (get_order (sizes h) sz) = Some s /\ sz + 8 <= size s) \/
  (4072 < sz /\ get_order (sizes h) sz = -1).
Proof.
  intros Hs Hsz. assert (E : get_order (sizes h) sz = get_order sizes_init sz).
  { unfold get_order. by apply order_from_shape. }
  assert (Ho : sz <= 4072 /\ 0 <= get_order sizes_init sz < 8 /\
    (exists x n, get (shape <$> sizes_init) (get_order sizes_init sz) = Some (x, n) /\ sz + 8 <= x) \/
    4072 < sz /\ get_order sizes_init sz = -1).
  { unfold get_order, sizes_init, sizeof_block_header. cbn [order_from size Z.eqb Z.add Pos.add].
    repeat match goal with |- context [sz + 8 <=? ?x] => destruct (Z.leb_spec (sz + 8) x) end;
      try (right; lia); left; (split; [lia|]); (split; [lia|]); eexists _, _; (split; [reflexivity|]); simpl; lia. }
  rewrite E. destruct Ho as [(H1 & H2 & x & n & Hg & Hx)|Ho]; [left|by right].
  split; [done|]. split; [done|]. destruct (sizes_get h _ Hs H2) as [s Hgs]. exists s. split; [done|].
  destruct (sizes_table h _ s Hs H2 Hgs) as [E' _]. rewrite Hg in E'. injection E' as -> _. done.
Qed.

(** ** [kmalloc] *)

Lemma page_fresh h pl fl p : layout h pl fl -> page_count (mem h) p = 0 -> pages h !! p = None.
Proof.
  intros L Hc. destruct (pages h !! p) as [d|] eqn:E; [|done].
  pose proof (p_count _ _ _ _ (k_pages _ _ _ L p d E)). lia.
Qed.

(** The layout does not depend on the other pages. *)
Lemma layout_set_mem h pl fl m :
  layout h pl fl -> page_inv m -> (forall a d, pages h !! a = Some d -> page_count m a = 1) ->
  layout (set_mem m h) pl fl.
Proof.
  intros [H1 H2 H3 H4 H5 H6 H7] Hm Hc. constructor; try done.
  intros a d Ha. destruct (H3 a d Ha). constructor; try done. by apply (Hc a d).
Qed.

Lemma get_page_spec h :
  heap_ok h -> exists p m, get_page (mem h) = Some (p, m) /\ heap_ok (set_mem m h) /\
    (p = 0 \/ (0 < p < 2 ^ 32 /\ p mod 4096 = 0) /\ page_count m p = 1 /\ pages h !! p = None).
Proof.
  intros (pl & fl & L). destruct (get_page_law (mem h) (k_mem _ _ _ L)) as (p & m & E & Hm & Hcase).
  exists p, m. split; [done|].
  destruct Hcase as [[-> Hq]|(Hp & Hal & H0 & H1 & Hq)].
  - split; [|by left]. exists pl, fl. apply layout_set_mem; try done.
    intros a d Ha. rewrite Hq. apply (p_count _ _ _ _ (k_pages _ _ _ L a d Ha)).
  - pose proof (page_fresh h pl fl p L H0) as Hf. split; [|by right].
    exists pl, fl. apply layout_set_mem; try done. intros a d Ha.
    destruct (k_pages _ _ _ L a d Ha) as [[_ Hala] Hc _ _ _ _ _ _]. rewrite Hq; [done|done|congruence].
Qed.

Lemma heap_ok_sizes h : heap_ok h -> shape <$> sizes h = shape <$> sizes_init.
Proof. intros (pl & fl & L). apply (k_shape _ _ _ L). Qed.

(** Whether a block of order [ord] is large enough for [sz]. *)
Definition enough (ord sz : Z) : Prop :=
  0 <= ord < 8 /\ 0 <= sz /\ forall x n, get (shape <$> sizes_init) ord = Some (x, n) -> sz + 8 <= x.

Lemma enough_size h ord sz s : heap_ok h -> enough ord sz -> get (sizes h) ord = Some s -> sz + 8 <= size s.
Proof.
  intros Hh (Ho & _ & He) Hs. destruct (sizes_table h ord s (heap_ok_sizes h Hh) Ho Hs) as [E _]. by eapply He.
Qed.

(** A successful [take] returns a block of its page. *)
Lemma taken_positive h p page d :
  heap_ok h -> pages h !! page = Some d -> p ∈ block_addrs page (order d) -> 0 < p.
Proof.
  intros (pl & fl & L) Hd Hp. destruct (k_pages _ _ _ L page d Hd) as [[Hr Hal] _ Ho _ _ _ _ _].
  destruct (block_in_page page (order d) p Hr Hal Ho Hp). lia.
Qed.

Section env.
Context (env env' : nat -> heap -> heap).
Hypothesis Henv : forall i h, heap_ok h -> heap_ok (env i h).
Hypothesis Henv' : forall i h, heap_ok h -> heap_ok (env' i h).

(** How the heap gets from [h] to [h0] in a call: the others change it, and steps of
    [kmalloc] itself leave the blocks in use as they are. *)
Inductive history (h0 : heap) : heap -> Prop :=
| hist_here : history h0 h0
| hist_env i h : history h0 (env i h) -> history h0 h
| hist_env' i h : history h0 (env' i h) -> history h0 h
| hist_own h h1 : used h1 = used h -> history h0 h1 -> history h0 h.

(** What a call on [h] yields: it comes to the heap [h0] by what the others do alone.
    Then it returns nothing and nothing more is in use, or it returns a block that
    nobody uses in [h0], and that block alone is in use in addition. *)
Definition result_ok (sz : Z) (h : heap) (r : Z) (h' : heap) : Prop :=
  exists h0, history h0 h /\ heap_ok h0 /\
    (r = 0 /\ used h' = used h0 \/ r <> 0 /\ used h0 !! (r - 8) = None /\ used h' = <[r - 8 := sz]> (used h0)).

Lemma result_same sz h h' : heap_ok h -> used h' = used h -> result_ok sz h 0 h'.
Proof. intros H E. exists h. split; [apply hist_here|]. split; [done|by left]. Qed.

Lemma kmalloc_loop_spec tries ord sz h :
  enough ord sz -> heap_ok h ->
  exists r h', kmalloc_loop env env' tries ord sz h = Some (r, h') /\ heap_ok h' /\ result_ok sz h r h'.
Proof.
  intros He. revert h. induction tries as [|tries IH]; intros h Hh; cbn [kmalloc_loop].
  { exists 0, h. split; [done|]. split; [done|]. by apply result_same. }
  pose proof Hh as (pl & fl & L). pose proof He as (Ho & Hsz & _).
  destruct (sizes_get h ord (k_shape _ _ _ L) Ho) as [s Hs].
  destruct (take_spec h pl fl ord sz s L Ho Hs Hsz) as [[_ ->]|(p & h' & -> & Hh' & _ & (page & d & Hd & Eo & Hin) & Hu & Hu')].
  - by eapply enough_size.
  - cbn [mbind option_bind]. destruct (get_page_spec (env tries h) (Henv tries h Hh)) as (q & m & -> & Hm & Hq).
    cbn [mbind option_bind]. destruct (Z.eqb_spec q 0) as [E0|E0].
    { exists 0, (set_mem m (env tries h)). split; [done|]. split; [done|]. exists (env tries h). split; [eapply hist_env, hist_here|]. split; [by apply Henv|by left]. }
    destruct Hq as [Hq|(Hq & Hc & Hf)]; [done|]. pose proof Hm as (pl' & fl' & L').
    destruct (sizes_get _ ord (k_shape _ _ _ L') Ho) as [s' Hs'].
    destruct (add_page_spec L' ord q s' Ho Hs' Hq Hc Hf) as (h2 & -> & Hh2 & Hu2 & _). cbn [mbind option_bind].
    destruct (IH (env' tries h2) (Henv' tries h2 Hh2)) as (r & h' & E & Hh' & h0 & Hi & Hr). exists r, h'. split; [done|]. split; [done|].
    exists h0. split; [|done]. apply (hist_env _ tries), (hist_own _ _ h2); [exact Hu2|]. by apply (hist_env' _ tries).
  - cbn [mbind option_bind]. exists (p + 8), h'. split; [done|]. split; [done|]. exists h.
    split; [apply hist_here|]. split; [done|]. right. replace (p + 8 - 8) with p by lia. split; [|done].
    rewrite <- Eo in Hin. pose proof (taken_positive h' p page d Hh' Hd Hin). lia.
Qed.

Lemma kmalloc_ok sz h :
  heap_ok h -> 0 <= sz ->
  exists r h', kmalloc env env' sz h = Some (r, h') /\ heap_ok h' /\ result_ok sz h r h'.
Proof.
  intros Hh Hsz. unfold kmalloc. destruct (Z.ltb_spec (MAX_KMALLOC_K * 1024) sz).
  { exists 0, h. split; [done|]. split; [done|by apply result_same]. }
  destruct (get_order_spec h sz (heap_ok_sizes h Hh) Hsz) as [(H1 & H2 & s & Hs & Hfit)|[_ ->]].
  - destruct (Z.ltb_spec (get_order (sizes h) sz) 0); [lia|]. apply kmalloc_loop_spec; [|done].
    split; [done|]. split; [done|]. intros x n Hx.
    destruct (sizes_table h _ s (heap_ok_sizes h Hh) H2 Hs) as [E _]. rewrite Hx in E. by injection E as -> _.
  - exists 0, h. split; [done|]. split; [done|by apply result_same].
Qed.

(** C26: [kmalloc] is safe under interrupts: whatever other users do to the heap
    while it waits for a page and between its critical sections (as long as they
    leave it well formed), it ends and leaves a well-formed heap.  It comes by what
    the others do alone to a heap in which it returns nothing and uses no block
    more, or a block that nobody uses, which alone is in use in addition, with its
    length ([result_ok]). *)
Theorem kmalloc_refines sz h :
  heap_ok h -> 0 <= sz ->
  exists r h', kmalloc env env' sz h = Some (r, h') /\ heap_ok h' /\ result_ok sz h r h'.
Proof. apply kmalloc_ok. Qed.
End env.

(** without interference [kmalloc] fails only for want of memory: a request of
    up to 4072 bytes succeeds whenever the page allocator has a page, in at most
    two rounds of its loop, and exactly one block is added to those in use. *)
Theorem kmalloc_succeeds sz h :
  heap_ok h -> 0 <= sz <= 4072 -> (forall p m, get_page (mem h) = Some (p, m) -> p <> 0) ->
  exists r h', kmalloc (fun _ h => h) (fun _ h => h) sz h = Some (r, h') /\ heap_ok h' /\ r <> 0 /\
    used h !! (r - 8) = None /\ used h' = <[r - 8 := sz]> (used h).
Proof.
  intros Hh Hsz Hpage. unfold kmalloc. destruct (Z.ltb_spec (MAX_KMALLOC_K * 1024) sz); [unfold MAX_KMALLOC_K in *; lia|].
  destruct (get_order_spec h sz (heap_ok_sizes h Hh)) as [(_ & Ho & s & Hs & Hfit)|[? _]]; [lia| |lia].
  set (ord := get_order (sizes h) sz) in *. destruct (Z.ltb_spec ord 0); [lia|]. unfold MAX_GET_FREE_PAGE_TRIES.
  cbn [kmalloc_loop]. pose proof Hh as (pl & fl & L).
  destruct (take_spec h pl fl ord sz s L Ho Hs) as [[_ ->]|(p & h' & -> & Hh' & _ & (page & d & Hd & <- & Hin) & Hu & Hu')]; [lia|lia| |].
  - cbn [mbind option_bind]. destruct (get_page_spec h Hh) as (q & m & E & Hm & Hq). specialize (Hpage q m E). rewrite E.
    cbn [mbind option_bind]. destruct (Z.eqb_spec q 0) as [|_]; [done|]. destruct Hq as [Hq|(Hq & Hc & Hf)]; [done|].
    pose proof Hm as (pl' & fl' & L').
    destruct (add_page_spec L' ord q s Ho Hs Hq Hc Hf) as (h2 & -> & Hh2 & Hu2 & s2 & Hs2 & Hff).
    cbn [mbind option_bind]. pose proof Hh2 as (pl2 & fl2 & L2).
    destruct (take_spec h2 pl2 fl2 ord sz s2 L2 Ho Hs2) as [[E0 _]|(p & h' & -> & Hh' & _ & (page & d & Hd & <- & Hin) & Hu & Hu')]; [lia| |lia|].
    + destruct (sizes_table h2 ord s2 (k_shape _ _ _ L2) Ho Hs2) as [E2 _].
      destruct (sizes_table h ord s (k_shape _ _ _ L) Ho Hs) as [E1 _]. rewrite E1 in E2. injection E2 as E2 _. lia.
    + cbn [mbind option_bind]. pose proof (taken_positive h' p page d Hh' Hd Hin).
      exists (p + 8), h'. replace (p + 8 - 8) with p by lia. change (used (set_mem m h)) with (used h) in Hu2.
      rewrite Hu2 in Hu, Hu'. split_and!; try done. lia.
  - cbn [mbind option_bind]. pose proof (taken_positive h' p page d Hh' Hd Hin).
    exists (p + 8), h'. replace (p + 8 - 8) with p by lia. split_and!; try done. lia.
Qed.

(** blocks in use never overlap each other, a block header or a page
    descriptor: every block lies inside its page behind the descriptor, and the
    bytes of two blocks, headers included, are disjoint. *)
Theorem used_disjoint h p len :
  heap_ok h -> used h !! p = Some len ->
  PAGE_DESC p + sizeof_page_descriptor <= p /\ 0 <= len /\ p + 8 + len <= PAGE_DESC p + 4096 /\
  forall q len', used h !! q = Some len' -> q <> p -> p + 8 + len <= q \/ q + 8 + len' <= p.
Proof.
  intros (pl & fl & L) Hp. destruct (used_not_free L p len Hp) as (Hb & _ & d & Hd & Hin).
  destruct (k_pages _ _ _ L _ d Hd) as [[Hr Hal] _ Ho _ _ _ _ _].
  destruct (geometry (order d) Ho) as (sz & n & E & Hsz & Hn & Hfit).
  destruct (k_fit _ _ _ L p _ d sz n Hb eq_refl Hd E) as [Hl0 Hlen]. cbn [vp] in *.
  destruct (proj1 (block_addrs_elem _ _ sz n p E) Hin) as (k & Hk & Ep).
  unfold sizeof_page_descriptor. split; [nia|]. split; [done|]. split; [nia|].
  intros q len' Hq Hne. destruct (used_not_free L q len' Hq) as (Hbq & _ & d' & Hd' & Hin').
  destruct (k_pages _ _ _ L _ d' Hd') as [[Hr' Hal'] _ Ho' _ _ _ _ _].
  destruct (geometry (order d') Ho') as (sz' & n' & E' & Hsz' & Hn' & Hfit').
  destruct (k_fit _ _ _ L q _ d' sz' n' Hbq eq_refl Hd' E') as [Hl0' Hlen']. cbn [vp] in *.
  destruct (proj1 (block_addrs_elem _ _ sz' n' q E') Hin') as (k' & Hk' & Eq).
  destruct (decide (PAGE_DESC p = PAGE_DESC q)) as [Epq|Epq].
  - rewrite Epq in Hd. rewrite Hd in Hd'. injection Hd' as <-. rewrite E in E'. injection E' as <- <-.
    rewrite Epq in Ep. assert (k <> k') by (intros ->; congruence). assert (k < k' \/ k' < k) as [?|?] by lia; [left|right]; nia.
  - assert (PAGE_DESC p + 4096 <= PAGE_DESC q \/ PAGE_DESC q + 4096 <= PAGE_DESC p) as [?|?].
    { pose proof (Z.div_mod (PAGE_DESC p) 4096). pose proof (Z.div_mod (PAGE_DESC q) 4096). lia. }
    + left. nia.
    + right. nia.
Qed.

(** ** Releasing *)

Lemma next_aligned h pl fl a d : layout h pl fl -> pages h !! a = Some d -> Z.land (next d) (Z.lnot PageAlloc.PAGE_MASK) = 0.
Proof.
  intros L Hd. destruct (k_pages _ _ _ L a d Hd) as [_ _ Ho _ _ _ Hfull _].
  destruct (decide (fl a = [])) as [E|E]; [by rewrite Hfull|].
  assert (Ha : a ∈ pl (order d)) by (apply (k_member _ _ _ L); [done|by exists d]).
  destruct (sizes_get h (order d) (k_shape _ _ _ L) Ho) as [s Hs].
  destruct (chain_next _ _ _ a (next d) (k_lists _ _ _ L _ s Ho Hs) Ha) as [->|Hin]; [unfold pnext; by rewrite Hd|done|].
  apply (k_member _ _ _ L) in Hin as (e & He & _); [|done].
  destruct (k_pages _ _ _ L _ e He) as [[Hr Hal] _ _ _ _ _ _ _]. apply PageAlloc.aligned_unmask; [lia|done].
Qed.

(** Changing the statistics of an order. *)
Lemma layout_stats h pl fl ord s s' ss :
  layout h pl fl -> 0 <= ord < 8 -> get (sizes h) ord = Some s -> put (sizes h) ord s' = Some ss ->
  shape s' = shape s -> sd_firstfree s' = sd_firstfree s -> layout (set_sizes ss h) pl fl.
Proof.
  intros [H1 H2 H3 H4 H5 H6 H7] Ho Hs Hput Hsh Hff. constructor; try done.
  - cbn. by rewrite (put_fmap_same shape _ _ _ _ _ Hput Hs Hsh).
  - intros a d Ha. destruct (H3 a d Ha). by constructor.
  - intros o s1 Ho1 Hg. cbn in Hg. rewrite (get_put _ _ _ _ _ Hput) in Hg.
    destruct (Z.eqb_spec o ord) as [->|]; [injection Hg as <-; rewrite Hff|]; by apply H6.
Qed.

Lemma find_before_spec fuel page pg2 ps l1 a l2 :
  chain (pnext ps) pg2 (l1 ++ a :: page :: l2) -> (length l1 < fuel)%nat -> find_before fuel page pg2 ps = Some a.
Proof.
  intros Hc Hf. pose proof (chain_NoDup _ _ _ Hc) as Hnd. revert pg2 fuel Hc Hf.
  induction l1 as [|x l1 IH]; intros pg2 [|fuel] Hc Hf; cbn [length] in Hf; try lia; cbn [find_before].
  - destruct Hc as (-> & Ha0 & n & Hn & (-> & _)). destruct (Z.eqb_spec a 0); [done|].
    unfold pnext in Hn. destruct (ps !! a) as [d|]; [|done]. injection Hn as Hn. cbn [mbind option_bind].
    by rewrite Hn, Z.eqb_refl.
  - destruct Hc as (-> & Hx0 & n & Hn & Hc). destruct (Z.eqb_spec x 0); [done|].
    unfold pnext in Hn. destruct (ps !! x) as [d|]; [|done]. injection Hn as Hn. cbn [mbind option_bind]. rewrite Hn.
    apply list.NoDup_cons in Hnd as [_ Hnd]. destruct (Z.eqb_spec n page) as [->|_]; [|apply IH; [done|done|lia]].
    exfalso. destruct l1 as [|y l1].
    + destruct Hc as (<- & _). apply list.NoDup_cons in Hnd as [Hnd _]. set_solver.
    + destruct Hc as (<- & _). apply list.NoDup_cons in Hnd as [Hnd _]. set_solver.
Qed.

Section drop.
Context {h : heap} {pl fl : Z -> list Z} (L : layout h pl fl).
Context (page : Z) (d : page_descriptor) (s s' : size_descriptor) (ss : list size_descriptor).
Context (ps' : gmap Z page_descriptor) (pl1 : list Z) (m' : M).
Hypothesis Hd : pages h !! page = Some d.
Hypothesis Hs : get (sizes h) (order d) = Some s.
Hypothesis Hput : put (sizes h) (order d) s' = Some ss.
Hypothesis Hshape : shape s' = shape s.

(** The other pages keep all but, within the order, their next pointers. *)
Hypothesis Hgone : ps' !! page = None.
Hypothesis Hkeep : forall a e, a <> page -> pages h !! a = Some e -> exists n,
  ps' !! a = Some (PageDescriptor n (firstfree e) (order e) (nfree e)) /\
  (fl a = [] \/ order e <> order d -> n = next e).
Hypothesis Honly : forall a e, ps' !! a = Some e -> is_Some (pages h !! a).
Hypothesis Hlist : chain (pnext ps') (sd_firstfree s') pl1.
Hypothesis Hmem : forall a, a ∈ pl1 <-> a ∈ pl (order d) /\ a <> page.
Hypothesis Hm : page_inv m'.
Hypothesis Hcount : forall q, q mod 4096 = 0 -> q <> page -> page_count m' q = page_count (mem h) q.

Let h' := Heap ps' (filter (fun b => PAGE_DESC b.1 <> page) (blocks h)) ss m'.

Lemma dropped_block b x : blocks h' !! b = Some x <-> blocks h !! b = Some x /\ PAGE_DESC b <> page.
Proof. unfold h'. cbn. by rewrite map_lookup_filter_Some. Qed.

Lemma kept a e : ps' !! a = Some e -> a <> page /\ exists e0, pages h !! a = Some e0 /\
  firstfree e = firstfree e0 /\ order e = order e0 /\ nfree e = nfree e0 /\ (fl a = [] \/ order e0 <> order d -> next e = next e0).
Proof.
  intros He. assert (Hne : a <> page) by congruence. split; [done|]. destruct (Honly a e He) as [e0 He0].
  exists e0. destruct (Hkeep a e0 Hne He0) as (n & He' & Hn). rewrite He in He'. injection He' as ->. done.
Qed.

Lemma layout_drop : layout h' (<[order d := pl1]> pl) fl.
Proof.
  constructor.
  - unfold h'. cbn. rewrite (put_fmap_same shape _ _ _ _ _ Hput Hs Hshape). apply (k_shape _ _ _ L).
  - done.
  - intros a e He. destruct (kept a e He) as (Hne & e0 & He0 & Ef & Eo & En & Enx).
    destruct (k_pages _ _ _ L a e0 He0) as [[Hr Hal] H2 H3 H4 H5 H6 H7 H8].
    assert (Hb : forall b, b ∈ block_addrs a (order e0) -> blocks h' !! b = blocks h !! b).
    { intros b Hb. destruct (block_in_page a (order e0) b Hr Hal H3 Hb) as [E _].
      unfold h'. cbn. rewrite map_lookup_filter. destruct (blocks h !! b); [|done]. cbn.
      case_guard as Hg; [done|]. cbn in Hg. congruence. }
    constructor; rewrite ?Ef, ?Eo, ?En; try done.
    + cbn. rewrite Hcount; done.
    + eapply chain_ext; [|exact H4]. intros x Hx. unfold bnext. by rewrite Hb by auto.
    + intros E. rewrite Enx by (by left). auto.
    + intros b Hin. rewrite Hb by done. auto.
  - intros b x [Hx Hne]%dropped_block. destruct (k_blocks _ _ _ L b x Hx) as [(e & He & Hin) Hfg]. split; [|done].
    destruct (Hkeep _ e Hne He) as (n & He' & _). eexists. split; [exact He'|done].
  - intros b x e sz n [Hx Hne]%dropped_block Hf He Hg. destruct (kept _ e He) as (_ & e0 & He0 & _ & Eo & _).
    rewrite Eo in Hg. by eapply (k_fit _ _ _ L b x e0).
  - intros o s1 Ho1 Hg. unfold h' in Hg. cbn in Hg. rewrite (get_put _ _ _ _ _ Hput) in Hg.
    destruct (Z.eqb_spec o (order d)) as [->|Hno]; [injection Hg as <-; by rewrite fn_lookup_insert|].
    rewrite fn_lookup_insert_ne by done. eapply chain_ext; [|exact (k_lists _ _ _ L o s1 Ho1 Hg)].
    intros x Hx. apply (k_member _ _ _ L) in Hx as (e & He & Heo & _); [|done].
    assert (Hxp : x <> page) by (intros ->; congruence).
    destruct (Hkeep x e Hxp He) as (n & He' & Hn). unfold pnext, h'. cbn. rewrite He, He'. cbn. rewrite Hn; [done|]. right. congruence.
  - intros o a Ho1. transitivity (a ∈ pl o /\ a <> page).
    + destruct (decide (o = order d)) as [->|Hno]; [rewrite fn_lookup_insert; apply Hmem|].
      rewrite fn_lookup_insert_ne by done. split; [|tauto]. intros Hin. split; [done|]. intros ->.
      apply (k_member _ _ _ L) in Hin as (e & He & Heo & _); [|done]. congruence.
    + rewrite (k_member _ _ _ L) by done. unfold h'. cbn. split.
      * intros [(e & He & Heo & Hfl) Hne]. destruct (Hkeep a e Hne He) as (n & He' & _). eexists. split; [exact He'|done].
      * intros (e & He & Heo & Hfl). destruct (kept a e He) as (Hne & e0 & He0 & _ & Eo & _). split; [|done].
        exists e0. split; [done|]. split; [congruence|done].
Qed.

Lemma drop_used : (forall b, b ∈ block_addrs page (order d) -> b ∈ fl page) -> used h' = used h.
Proof.
  intros Hfree. apply map_eq. intros b. unfold used at 1. rewrite lookup_omap. unfold h'. cbn. rewrite map_lookup_filter.
  destruct (used h !! b) as [len|] eqn:Eu.
  - destruct (used_not_free L b len Eu) as (Hb & Hnf & e & He & Hin). rewrite Hb. cbn.
    case_guard as Hg; [done|]. cbn in Hg. exfalso. assert (E : PAGE_DESC b = page) by (destruct (decide (PAGE_DESC b = page)); [done|tauto]).
    rewrite E in *. rewrite Hd in He. injection He as <-. auto.
  - unfold used in Eu. rewrite lookup_omap in Eu. destruct (blocks h !! b) as [x|]; [|done]. cbn in *.
    case_guard; [done|done].
Qed.
End drop.

Section drop_page.
Context {h : heap} {pl fl : Z -> list Z} (L : layout h pl fl).
Context (page : Z) (d : page_descriptor) (s : size_descriptor).
Hypothesis Hd : pages h !! page = Some d.
Hypothesis Hs : get (sizes h) (order d) = Some s.
Hypothesis Hfree : forall b, b ∈ block_addrs page (order d) -> b ∈ fl page.

Lemma drop_release : exists m', release_page page (mem h) = Some m' /\ page_inv m' /\
  forall q, q mod 4096 = 0 -> q <> page -> page_count m' q = page_count (mem h) q.
Proof.
  destruct (k_pages _ _ _ L page d Hd) as [Hr Hc _ _ _ _ _ _].
  destruct (release_page_law (mem h) page (k_mem _ _ _ L) (proj1 Hr) (proj2 Hr) Hc) as (m' & Em & Hm & _ & Hq). eauto.
Qed.

(** The page is the first of its list. *)
Lemma drop_first l2 : pl (order d) = page :: l2 ->
  exists h', drop_page (order d) page h = Some h' /\ heap_ok h' /\ used h' = used h.
Proof.
  intros Epl. destruct drop_release as (m' & Em & Hm & Hq).
  pose proof (k_lists _ _ _ L _ s (p_order _ _ _ _ (k_pages _ _ _ L page d Hd)) Hs) as Hch.
  pose proof (chain_NoDup _ _ _ Hch) as Hnd. rewrite Epl in Hch, Hnd. apply list.NoDup_cons in Hnd as [Hnp _].
  destruct Hch as (E & _ & n & Hn & Hch). unfold pnext in Hn. rewrite Hd in Hn. injection Hn as <-.
  unfold drop_page. rewrite Hs, Hd. cbn [mbind option_bind]. rewrite E, Z.eqb_refl.
  destruct (put_of_get _ _ (set_sd_firstfree (next d) s) _ Hs) as [ss Hss]. rewrite Hss. cbn [mbind option_bind].
  cbn [set_sizes mem]. rewrite Em. cbn [mbind option_bind]. eexists. split; [done|]. cbn [pages set_sizes blocks sizes].
  split; [|by eapply drop_used].
  eexists _, _. eapply (layout_drop L page d s (set_sd_firstfree (next d) s) ss _ l2); try done.
  - apply lookup_delete_eq.
  - intros a [nx ff o nf] Ha He. exists nx. by rewrite lookup_delete_ne.
  - intros a e [_ He]%lookup_delete_Some. by exists e.
  - eapply chain_ext; [|exact Hch]. intros y Hy. unfold pnext. rewrite lookup_delete_ne; [done|]. by intros <-.
  - intros a. rewrite Epl. set_solver.
Qed.

Section later.
Context (l1 l2 : list Z) (x : Z) (e2 : page_descriptor).
Hypothesis Epl : pl (order d) = l1 ++ x :: page :: l2.
Hypothesis He2 : pages h !! x = Some e2.
Hypothesis Hf2 : fl x <> [].

Let ps' := delete page (<[x := PageDescriptor (next d) (firstfree e2) (order e2) (nfree e2)]> (pages h)).

Lemma later_chain : chain (pnext (pages h)) (sd_firstfree s) (l1 ++ x :: page :: l2).
Proof.
  rewrite <- Epl. apply (k_lists _ _ _ L); [|done]. apply (p_order _ _ _ _ (k_pages _ _ _ L page d Hd)).
Qed.

Lemma later_distinct : x <> page /\ (page ∉ l1) /\ (page ∉ l2).
Proof.
  pose proof (chain_NoDup _ _ _ later_chain) as Hnd. apply list.NoDup_app in Hnd as (_ & Hdis & Hnd).
  apply list.NoDup_cons in Hnd as [Hx Hnd]. apply list.NoDup_cons in Hnd as [Hp _]. specialize (Hdis page). set_solver.
Qed.

Lemma later_keep a e : a <> page -> pages h !! a = Some e -> exists n,
  ps' !! a = Some (PageDescriptor n (firstfree e) (order e) (nfree e)) /\
  (fl a = [] \/ order e <> order d -> n = next e).
Proof.
  intros Ha He. unfold ps'. rewrite lookup_delete_ne by done. destruct (decide (a = x)) as [->|Hax].
  - rewrite lookup_insert_eq. rewrite He2 in He. injection He as <-. eexists. split; [done|]. intros [?|Hno]; [done|].
    exfalso. apply Hno. assert (Hx : x ∈ pl (order d)) by (rewrite Epl; set_solver).
    apply (k_member _ _ _ L) in Hx as (e & He & Heo & _); [congruence|]. apply (p_order _ _ _ _ (k_pages _ _ _ L page d Hd)).
  - rewrite lookup_insert_ne by done. destruct e as [nx ff o nf]. exists nx. by rewrite He.
Qed.

Lemma later_list : chain (pnext ps') (sd_firstfree s) (l1 ++ x :: l2).
Proof.
  destruct later_distinct as (Hxp & Hp1 & Hp2).
  eapply chain_unlink; [exact later_chain|unfold pnext; by rewrite Hd| |].
  - unfold pnext, ps'. rewrite lookup_delete_ne, lookup_insert_eq by done. done.
  - intros y Hyx Hy. unfold pnext, ps'. rewrite lookup_delete_ne, lookup_insert_ne; [done|done|].
    intros <-. set_solver.
Qed.

Lemma later_found : find_before (S (length (map_to_list (pages h)))) page (sd_firstfree s) (pages h) = Some x.
Proof.
  eapply (find_before_spec _ _ _ _ l1 x l2 later_chain).
  assert (length l1 <= length (map_to_list (pages h)))%nat; [|lia].
  rewrite <- (length_fmap fst). apply submseteq_length, NoDup_submseteq.
  - eapply NoDup_app_l, chain_NoDup, later_chain.
  - intros y Hy. assert (Hin : y ∈ pl (order d)) by (rewrite Epl; set_solver).
    apply (k_member _ _ _ L) in Hin as (e & He & _); [|apply (p_order _ _ _ _ (k_pages _ _ _ L page d Hd))].
    apply list_elem_of_fmap. exists (y, e). split; [done|]. by apply elem_of_map_to_list.
Qed.

Lemma drop_later : exists h', drop_page (order d) page h = Some h' /\ heap_ok h' /\ used h' = used h.
Proof.
  destruct drop_release as (m' & Em & Hm & Hq). destruct later_distinct as (Hxp & Hp1 & Hp2).
  unfold drop_page. rewrite Hs, Hd. cbn [mbind option_bind].
  destruct (Z.eqb_spec (sd_firstfree s) page) as [E|E].
  { exfalso. pose proof later_chain as Hc. destruct l1; destruct Hc as (E' & _); set_solver. }
  rewrite later_found. cbn [mbind option_bind].
  destruct (k_pages _ _ _ L x e2 He2) as [Hr2 _ _ _ _ _ _ _]. destruct (Z.eqb_spec x 0); [lia|]. cbn [negb].
  rewrite He2. cbn [mbind option_bind set_page mem]. rewrite Em. cbn [mbind option_bind]. eexists. split; [done|].
  cbn [pages set_page blocks sizes]. fold ps'. split; [|by eapply (drop_used L page d)].
  eexists _, _. eapply (layout_drop L page d s s (sizes h) ps' (l1 ++ x :: l2)); try done.
  - by apply put_same.
  - apply lookup_delete_eq.
  - apply later_keep.
  - intros a e [_ He]%lookup_delete_Some. destruct (decide (a = x)) as [->|Hax]; [by exists e2|].
    rewrite lookup_insert_ne in He by done. by exists e.
  - apply later_list.
  - intros a. rewrite Epl. set_solver.
Qed.
End later.

Lemma drop_page_spec : fl page <> [] ->
  exists h', drop_page (order d) page h = Some h' /\ heap_ok h' /\ used h' = used h.
Proof.
  intros Hne. pose proof (p_order _ _ _ _ (k_pages _ _ _ L page d Hd)) as Ho.
  assert (Hin : page ∈ pl (order d)) by (apply (k_member _ _ _ L); [done|by exists d]).
  apply list_elem_of_split in Hin as (l1 & l2 & Epl). destruct l1 as [|x l1 _] using rev_ind; [by eapply drop_first|].
  rewrite <- app_assoc in Epl. cbn [app] in Epl. assert (Hx : x ∈ pl (order d)) by (rewrite Epl; set_solver).
  apply (k_member _ _ _ L) in Hx as (e & He & _ & Hf); [|done]. by eapply drop_later.
Qed.
End drop_page.

(** ** [kfree_s] *)

(** A page with as many free blocks as it has blocks. *)
Lemma all_free h fl a d n :
  page_ok h fl a d -> get (shape <$> sizes_init) (order d) = Some n -> nfree d = n.2 ->
  forall b, b ∈ block_addrs a (order d) -> b ∈ fl a.
Proof.
  intros [_ _ Ho Hc Hn Hf _ _] E Hall b Hb. destruct n as [sz n]. cbn in Hall.
  assert (Hlen : length (block_addrs a (order d)) = length (fl a)).
  { unfold block_addrs. rewrite E, length_fmap, length_seq. lia. }
  assert (Hp : fl a ≡ₚ block_addrs a (order d)).
  { apply submseteq_length_Permutation; [|lia]. apply NoDup_submseteq; [by eapply chain_NoDup|done]. }
  by rewrite Hp.
Qed.

(** The first part of [kfree_s]: the block goes on the free list of its page,
    and the page on the list of its order if it had no free block. *)
Lemma free_block h pl fl p len d s :
  layout h pl fl -> used h !! p = Some len -> pages h !! PAGE_DESC p = Some d -> get (sizes h) (order d) = Some s ->
  exists d1 ss pl1, layout (set_block p (BlockHeader MF_FREE (firstfree d)) (set_page (PAGE_DESC p) d1 (set_sizes ss h)))
      pl1 (<[PAGE_DESC p := p :: fl (PAGE_DESC p)]> fl) /\
    d1 = PageDescriptor (if nfree d =? 0 then sd_firstfree s else next d) p (order d) (nfree d + 1) /\
    put (sizes h) (order d) (if nfree d =? 0 then set_sd_firstfree (PAGE_DESC p) s else s) = Some ss.
Proof.
  intros L Hu Hd Hs. destruct (used_not_free L p len Hu) as (Hb & Hnf & d' & Hd' & Hin). simplify_eq.
  pose proof (k_pages _ _ _ L _ d Hd) as [Hr _ Ho Hch Hn Hf Hfull _]. set (page := PAGE_DESC p) in *.
  destruct (block_in_page page (order d) p (proj1 Hr) (proj2 Hr) Ho Hin) as (_ & Hp & _).
  pose proof (k_lists _ _ _ L _ s Ho Hs) as Hcl.
  assert (Hch' : chain (bnext (<[p := BlockHeader MF_FREE (firstfree d)]> (blocks h))) p (p :: fl page)).
  { split; [done|]. split; [lia|]. exists (firstfree d). unfold bnext at 1. rewrite lookup_insert_eq. split; [done|].
    eapply chain_ext; [|exact Hch]. intros x Hx. unfold bnext. rewrite lookup_insert_ne; [done|]. by intros ->. }
  destruct (Z.eqb_spec (nfree d) 0) as [E0|E0].
  - assert (Hnil : fl page = []) by (destruct (fl page); [done|simpl in *; lia]).
    assert (Hnp : page ∉ pl (order d)) by (rewrite (k_member _ _ _ L) by done; intros (e & _ & _ & ?); done).
    destruct (put_of_get _ _ (set_sd_firstfree page s) _ Hs) as [ss Hss].
    eexists _, ss, _. split; [|done].
    eapply (layout_update L page p d _ _ (p :: fl page) (page :: pl (order d)) s); try done.
    + rewrite bool_decide_eq_true_2 by set_solver. done.
    + intros b Hb'. set_solver.
    + cbn [nfree length]. lia.
    + cbn [set_sd_firstfree sd_firstfree]. split; [done|]. split; [lia|]. unfold pnext at 1. rewrite lookup_insert_eq.
      eexists. split; [done|]. eapply chain_ext; [|exact Hcl]. intros x Hx. unfold pnext. rewrite lookup_insert_ne; [done|].
      by intros <-.
    + set_solver.
    + split; [done|]. set_solver.
  - assert (Hnil : fl page <> []) by (intros E; rewrite E in Hn; simpl in Hn; lia).
    eexists _, (sizes h), _. split; [|split; [done|by apply put_same]].
    eapply (layout_update L page p d _ _ (p :: fl page) (pl (order d)) s s); try done.
    + rewrite bool_decide_eq_true_2 by set_solver. done.
    + intros b Hb'. set_solver.
    + cbn [nfree length]. lia.
    + by apply put_same.
    + eapply chain_ext; [|exact Hcl]. intros x Hx. unfold pnext.
      destruct (decide (x = page)) as [->|]; [by rewrite lookup_insert_eq, Hd|by rewrite lookup_insert_ne].
    + rewrite (k_member _ _ _ L) by done. split; [done|]. intros _. by exists d.
Qed.

(** C36: [kfree_s] gives back exactly the block it is given: for a block in use,
    with its length or 0 as the size, the heap stays well formed and that block
    alone leaves the set of those in use, also when its page is completely free
    and goes back to the page allocator. *)
Theorem kfree_refines h ptr len sz :
  heap_ok h -> used h !! (ptr - 8) = Some len -> sz = 0 \/ sz = len ->
  exists h', kfree_s ptr sz h = Some h' /\ heap_ok h' /\ used h' = delete (ptr - 8) (used h).
Proof.
  intros (pl & fl & L) Hu Hsz. set (p := ptr - 8) in *.
  destruct (used_not_free L p len Hu) as (Hb & _ & d & Hd & _).
  pose proof (k_pages _ _ _ L _ d Hd) as [_ _ Ho _ Hn _ Hfull _].
  destruct (sizes_get h (order d) (k_shape _ _ _ L) Ho) as [s Hs].
  destruct (sizes_table h _ s (k_shape _ _ _ L) Ho Hs) as (E & Hsz0 & Hnb & Hpg).
  destruct (k_fit _ _ _ L p _ d _ _ Hb eq_refl Hd E) as [Hl0 Hl1]. cbn [vp] in *.
  destruct (free_block h pl fl p len d s L Hu Hd Hs) as (d1 & ss & pl1 & L1 & Ed1 & Hss).
  set (h1 := set_block p _ _) in L1.
  assert (Hu1 : used h1 = delete p (used h)) by apply used_insert.
  assert (Hd1 : pages h1 !! PAGE_DESC p = Some d1) by apply lookup_insert_eq.
  pose proof (k_pages _ _ _ L1 _ d1 Hd1) as Hok1. pose proof (p_nfree _ _ _ _ Hok1) as Hn1.
  rewrite fn_lookup_insert in Hn1. subst d1. cbn [nfree length] in Hn1.
  pose proof (free_length _ _ _ _ Hok1) as Hle. rewrite fn_lookup_insert in Hle.
  cbn [length] in Hle. unfold kfree_s. change (ptr - sizeof_block_header) with p. rewrite Hd. cbn [mbind option_bind].
  rewrite (next_aligned h pl fl _ d L Hd).
  assert (Hlen : length (sizes h) = 9%nat) by (rewrite <- (length_fmap shape), (k_shape _ _ _ L); done). rewrite Hlen.
  destruct (Z.ltb_spec (order d) 0); [lia|]. destruct (Z.ltb_spec (Z.of_nat 9) (order d)); [lia|].
  change (negb (0 =? 0)) with false. cbn [orb]. rewrite Hb. cbn [mbind option_bind bh_flags vp].
  change (negb (MF_USED =? MF_USED)) with false. cbv iota.
  assert (negb (sz =? 0) && negb (u32 sz =? len) = false) as ->.
  { destruct (Z.eqb_spec sz 0); [done|]. destruct Hsz as [->| ->]; [done|]. assert (size s <= 4080) by nia.
    rewrite u32_small, Z.eqb_refl by lia. done. }
  cbn [sizes set_block]. rewrite Hs. cbn [mbind option_bind nfree next]. rewrite (s32_small (nfree d + 1)) by lia.
  match goal with |- context [mbind _ (if (nfree d + 1 =? 1) && _ then ?x else ?y)] =>
    assert (H1 : (if (nfree d + 1 =? 1) && (next d =? 0) then x else y) = Some h1) end.
  { unfold h1. destruct (Z.eqb_spec (nfree d) 0) as [E0|E0].
    - destruct (Z.eqb_spec (nfree d + 1) 1); [|lia]. rewrite Hfull by (destruct (fl (PAGE_DESC p)); [done|simpl in *; lia]).
      change (0 =? 0) with true. cbn [andb]. by rewrite Hss.
    - destruct (Z.eqb_spec (nfree d + 1) 1); [lia|]. cbn [andb]. rewrite (put_same _ _ _ Hs) in Hss. injection Hss as <-. done. }
  rewrite H1. cbn [mbind option_bind]. clear H1.
  assert (H2 : exists h2, (if nfree d + 1 =? nblocks s then drop_page (order d) (PAGE_DESC p) h1 else Some h1) = Some h2 /\
    heap_ok h2 /\ used h2 = delete p (used h)).
  { destruct (Z.eqb_spec (nfree d + 1) (nblocks s)) as [En|_]; [|exists h1; split; [done|]; split; [by eexists _, _|done]].
    destruct (sizes_get h1 (order d) (k_shape _ _ _ L1) Ho) as [s1 Hs1].
    destruct (drop_page_spec L1 (PAGE_DESC p) _ s1 Hd1 Hs1) as (h2 & E2 & Hh2 & Hu2).
    - eapply (all_free _ _ _ _ _ Hok1 E). exact En.
    - rewrite fn_lookup_insert. done.
    - exists h2. split; [exact E2|]. split; [done|]. by rewrite Hu2. }
  destruct H2 as (h2 & -> & (pl2 & fl2 & L2) & Hu2). cbn [mbind option_bind].
  destruct (sizes_get h2 (order d) (k_shape _ _ _ L2) Ho) as [s2 Hs2]. rewrite Hs2. cbn [mbind option_bind].
  set (s3 := SizeDescriptor _ _ _ _ _ _ _). destruct (put_of_get _ _ s3 _ Hs2) as [ss3 Hss3]. rewrite Hss3. cbn [mbind option_bind].
  eexists. split; [done|]. split; [|done]. exists pl2, fl2. by eapply layout_stats.
Qed.

(** [kfree_s] refuses what it was not given: a block that is already free (in a
    page the allocator still holds) and a block in use with the wrong size are
    left alone, with the whole heap. *)
Theorem kfree_rejects h ptr sz hd d :
  heap_ok h -> blocks h !! (ptr - 8) = Some hd -> pages h !! PAGE_DESC (ptr - 8) = Some d ->
  used h !! (ptr - 8) = None \/ (sz <> 0 /\ 0 <= sz < 2 ^ 32 /\ exists len, used h !! (ptr - 8) = Some len /\ sz <> len) ->
  kfree_s ptr sz h = Some h.
Proof.
  intros (pl & fl & L) Hb Hd Hcase. unfold kfree_s. change (ptr - sizeof_block_header) with (ptr - 8).
  rewrite Hd. cbn [mbind option_bind]. case_bool; [done|]. rewrite Hb. cbn [mbind option_bind].
  assert (Hu : used h !! (ptr - 8) = if bh_flags hd =? MF_USED then Some (vp hd) else None)
    by (unfold used; by rewrite lookup_omap, Hb).
  rewrite Hu in Hcase. destruct (bh_flags hd =? MF_USED); cbn [negb]; [|done].
  destruct Hcase as [|(H0 & Hr & len & [= <-] & Hne)]; [done|]. rewrite u32_small by done.
  destruct (Z.eqb_spec sz 0), (Z.eqb_spec sz (vp hd)); done.
Qed.

(** The check of the order lets 9 through, although the table has the orders 0 to
    8: the size descriptor is then read beyond the end of the table. *)
Theorem kfree_order_9 h ptr d len :
  length (sizes h) = 9%nat -> pages h !! PAGE_DESC (ptr - 8) = Some d -> order d = 9 -> next d = 0 ->
  blocks h !! (ptr - 8) = Some (BlockHeader MF_USED len) -> kfree_s ptr 0 h = None.
Proof.
  intros Hl Hd Ho Hn Hb. unfold kfree_s. change (ptr - sizeof_block_header) with (ptr - 8).
  rewrite Hd. cbn [mbind option_bind]. rewrite Ho, Hn, Hl. change (Z.land 0 _) with 0.
  change ((9 <? 0) || (Z.of_nat 9 <? 9) || negb (0 =? 0)) with false. cbv iota. rewrite Hb. cbn [mbind option_bind bh_flags vp].
  change (negb (MF_USED =? MF_USED)) with false. change (negb (0 =? 0) && _) with false. cbv iota. cbn [sizes set_block].
  unfold get. change (9 <? 0) with false. cbv iota. rewrite lookup_ge_None_2; [done|]. rewrite Hl. done.
Qed.

(** The heap at boot. *)
Definition heap_init (m : M) : heap := Heap ∅ ∅ sizes_init m.

Lemma heap_init_ok m : page_inv m -> heap_ok (heap_init m).
Proof.
  intros Hm. exists (fun _ => []), (fun _ => []). constructor; try done.
  - intros ord s Ho Hs. cbn. unfold get in Hs. case_bool_in Hs; [done|].
    apply list_elem_of_lookup_2 in Hs. unfold heap_init in Hs. cbn [sizes] in Hs.
    unfold sizes_init in Hs. repeat (apply elem_of_cons in Hs as [->|Hs]; [done|]). by apply elem_of_nil in Hs.
  - intros ord a Ho. split; [set_solver|]. by intros (d & Hd & _).
Qed.

(** The static check of [kmalloc_init] succeeds. *)
Lemma kmalloc_init_ok : kmalloc_init sizes_init = true.
Proof. reflexivity. Qed.

End allocator.

(** ** Examples, with the pages of [PageAlloc] *)

Definition boot : heap := heap_init PageAlloc.small_mem.

Lemma boot_ok : heap_ok boot.
Proof. apply heap_init_ok. eexists _, _. apply PageAlloc.small_mem_ok. Qed.

(** After a first [kmalloc] of 100 bytes, which takes page 0x2000. *)
Definition boot1 : heap :=
  match kmalloc (fun _ h => h) (fun _ h => h) 100 boot with Some (_, h) => h | None => boot end.

Lemma boot1_ok : heap_ok boot1.
Proof.
  unfold boot1.
  destruct (kmalloc_ok (fun _ h => h) (fun _ h => h) ltac:(done) ltac:(done) 100 boot boot_ok ltac:(lia))
    as (r & h' & -> & Hh & _). exact Hh.
Qed.

Lemma boot1_used : used boot1 !! 0x2010 = Some 100.
Proof. vm_compute. reflexivity. Qed.

Lemma kmalloc_refines_witness :
  exists r h', kmalloc (fun _ h => h) (fun _ h => h) 100 boot = Some (r, h') /\ heap_ok h' /\ result_ok (fun _ h => h) (fun _ h => h) 100 boot r h'.
Proof. apply (kmalloc_refines (fun _ h => h) (fun _ h => h)); [done|done|exact boot_ok|lia]. Defined.

Lemma kmalloc_succeeds_witness :
  exists r h', kmalloc (fun _ h => h) (fun _ h => h) 4072 boot = Some (r, h') /\ heap_ok h' /\ r <> 0 /\
    used boot !! (r - 8) = None /\ used h' = <[r - 8 := 4072]> (used boot).
Proof.
  apply (kmalloc_succeeds 4072 boot); [exact boot_ok|lia|].
  intros p m E. vm_compute in E. injection E as <- _. done.
Defined.

Lemma used_disjoint_witness :
  PAGE_DESC 0x2010 + sizeof_page_descriptor <= 0x2010 /\ 0 <= 100 /\ 0x2010 + 8 + 100 <= PAGE_DESC 0x2010 + 4096 /\
  forall q len', used boot1 !! q = Some len' -> q <> 0x2010 -> 0x2010 + 8 + 100 <= q \/ q + 8 + len' <= 0x2010.
Proof. apply (used_disjoint boot1 0x2010 100 boot1_ok boot1_used). Defined.

Lemma kfree_refines_witness :
  exists h', kfree_s 0x2018 100 boot1 = Some h' /\ heap_ok h' /\ used h' = delete 0x2010 (used boot1).
Proof. apply (kfree_refines boot1 0x2018 100 100 boot1_ok boot1_used). by right. Defined.

Lemma kfree_rejects_witness : kfree_s 0x2018 99 boot1 = Some boot1.
Proof.
  eapply (kfree_rejects boot1 0x2018 99); [exact boot1_ok|vm_compute; reflexivity|vm_compute; reflexivity|].
  right. split; [lia|]. split; [lia|]. exists 100. split; [exact boot1_used|lia].
Defined.

End Kmalloc.
