(* ===== verification/Vm.v ===== *)
(** * Virtual memory: page tables, page faults and swapping ([src/mm/memory.c],
      [src/mm/swap.c])

    Physical memory is a map from page addresses to the 1024 words of a page; a page
    with no users according to [mem_map] must not be accessed ([None]).  Page
    directories and page tables are such pages.  The free page lists are those of
    [PageAlloc].  A function runs without interruption; where [__get_free_page] has
    to take a page away from a process it does so as [swap_out] does.  The swap
    areas hold one page per entry and do not fail. *)

From S2P Require Import Prelude PageAlloc.
From Stdlib Require Import ZArith Lia.
From stdpp Require Import base list gmap numbers.
Local Open Scope Z_scope.

Module Vm.
Import PageAlloc.

Definition PTRS_PER_PAGE : Z := PAGE_SIZE / 4.
Definition PTR_MASK : Z := u32 (Z.lnot 3).
Definition TASK_SIZE : Z := 0xc0000000.
Definition NR_TASKS : Z := 128.

(** The entries for an address, as indices into the directory and the table. *)
Definition PAGE_DIR_OFFSET (address : Z) : Z :=
  Z.land (Z.land (Z.shiftr address 20) PTR_MASK) (Z.lnot PAGE_MASK) / 4.
Definition PAGE_PTR (address : Z) : Z :=
  Z.land (Z.land (Z.shiftr address 10) PTR_MASK) (Z.lnot PAGE_MASK) / 4.

Definition PAGE_PRESENT : Z := 0x001.
Definition PAGE_RW : Z := 0x002.
Definition PAGE_USER : Z := 0x004.
Definition PAGE_ACCESSED : Z := 0x020.
Definition PAGE_DIRTY : Z := 0x040.
Definition PAGE_COW : Z := 0x200.
Definition PAGE_PRIVATE : Z := Z.lor (Z.lor (Z.lor (Z.lor PAGE_PRESENT PAGE_RW) PAGE_USER) PAGE_ACCESSED) PAGE_COW.
Definition PAGE_SHARED : Z := Z.lor (Z.lor (Z.lor PAGE_PRESENT PAGE_RW) PAGE_USER) PAGE_ACCESSED.
Definition PAGE_COPY : Z := Z.lor (Z.lor (Z.lor PAGE_PRESENT PAGE_USER) PAGE_ACCESSED) PAGE_COW.
Definition PAGE_READONLY : Z := Z.lor (Z.lor PAGE_PRESENT PAGE_USER) PAGE_ACCESSED.
Definition PAGE_TABLE : Z := Z.lor (Z.lor (Z.lor PAGE_PRESENT PAGE_RW) PAGE_USER) PAGE_ACCESSED.

Definition SIGKILL : Z := 9.
Definition SIGSEGV : Z := 11.

(** Where the linker put the pages of the kernel that the code names. *)
Record layout := Layout {
  swapper_pg_dir : Z;
  empty_bad_page_table : Z;
  empty_bad_page : Z;
  empty_zero_page : Z
}.

(** ** State *)

(** [struct vm_area_struct]; [vm_at] is its address. *)
Record vm_area := VmArea {
  vm_at : Z;
  vm_start : Z;
  vm_end : Z;
  vm_page_prot : Z;
  vm_share : Z;
  vm_inode : Z;
  vm_offset : Z;
  vm_ops : Z
}.

(** The fields of [struct task_struct] for swapping, ... *)
Record swapping := Swapping {
  old_maj_flt : Z;
  dec_flt : Z;
  swap_cnt : Z;
  swap_table : Z;
  swap_page : Z
}.

(** ... for what the process may touch, ... *)
Record bounds := Bounds {
  mmap : list vm_area;
  stk_vma : Z;
  end_data : Z;
  brk : Z;
  rlim_stack : Z
}.

(** ... and the rest.  [sent] are the signals that were sent to it. *)
Record vtask := VTask {
  cr3 : Z;
  rss : Z;
  min_flt : Z;
  maj_flt : Z;
  swappable : bool;
  swp : swapping;
  bnd : bounds;
  trap : Z * Z * Z;
  sent : list Z
}.

Definition set_cr3 (x : Z) (t : vtask) : vtask :=
  VTask x (rss t) (min_flt t) (maj_flt t) (swappable t) (swp t) (bnd t) (trap t) (sent t).
Definition set_rss (x : Z) (t : vtask) : vtask :=
  VTask (cr3 t) x (min_flt t) (maj_flt t) (swappable t) (swp t) (bnd t) (trap t) (sent t).
Definition add_flt (mi ma : Z) (t : vtask) : vtask :=
  VTask (cr3 t) (rss t) (u32 (min_flt t + mi)) (u32 (maj_flt t + ma)) (swappable t) (swp t) (bnd t) (trap t) (sent t).
Definition set_swp (x : swapping) (t : vtask) : vtask :=
  VTask (cr3 t) (rss t) (min_flt t) (maj_flt t) (swappable t) x (bnd t) (trap t) (sent t).
Definition set_mmap (x : list vm_area) (t : vtask) : vtask :=
  VTask (cr3 t) (rss t) (min_flt t) (maj_flt t) (swappable t) (swp t)
    (Bounds x (stk_vma (bnd t)) (end_data (bnd t)) (brk (bnd t)) (rlim_stack (bnd t))) (trap t) (sent t).
Definition set_trap (x : Z * Z * Z) (t : vtask) : vtask :=
  VTask (cr3 t) (rss t) (min_flt t) (maj_flt t) (swappable t) (swp t) (bnd t) x (sent t).
Definition send_sig (sig : Z) (t : vtask) : vtask :=
  VTask (cr3 t) (rss t) (min_flt t) (maj_flt t) (swappable t) (swp t) (bnd t) (trap t) (sig :: sent t).

(** [struct swap_info_struct] *)
Record swap_info := SwapInfo {
  flags : Z;
  swap_map : list Z;
  lowest_bit : Z;
  highest_bit : Z;
  max : Z
}.
Definition set_swap_map (x : list Z) (p : swap_info) : swap_info :=
  SwapInfo (flags p) x (lowest_bit p) (highest_bit p) (max p).
Definition set_bits (lo hi : Z) (p : swap_info) : swap_info := SwapInfo (flags p) (swap_map p) lo hi (max p).

Record vm := VmState {
  pages : mem;
  frames : gmap Z (list Z);
  tasks : gmap Z vtask;
  infos : list swap_info;
  nr_swap_pages : Z;
  disk : gmap Z (list Z);
  swap_task : Z
}.

Definition set_pages (x : mem) (s : vm) : vm :=
  VmState x (frames s) (tasks s) (infos s) (nr_swap_pages s) (disk s) (swap_task s).
Definition set_frames (x : gmap Z (list Z)) (s : vm) : vm :=
  VmState (pages s) x (tasks s) (infos s) (nr_swap_pages s) (disk s) (swap_task s).
Definition set_tasks (x : gmap Z vtask) (s : vm) : vm :=
  VmState (pages s) (frames s) x (infos s) (nr_swap_pages s) (disk s) (swap_task s).
Definition set_infos (x : list swap_info) (n : Z) (s : vm) : vm :=
  VmState (pages s) (frames s) (tasks s) x n (disk s) (swap_task s).
Definition set_disk (x : gmap Z (list Z)) (s : vm) : vm :=
  VmState (pages s) (frames s) (tasks s) (infos s) (nr_swap_pages s) x (swap_task s).
Definition set_swap_task (x : Z) (s : vm) : vm :=
  VmState (pages s) (frames s) (tasks s) (infos s) (nr_swap_pages s) (disk s) x.

Definition on_task (k : Z) (f : vtask -> vtask) (s : vm) : option vm :=
  t ← tasks s !! k; Some (set_tasks (<[k := f t]> (tasks s)) s).

(** [mem_map] of the page that holds the address. *)
Definition users (a : Z) (s : vm) : option Z := get (mem_map (pages s)) (MAP_NR a).
Definition reserved (a : Z) (s : vm) : option bool := c ← users a s; Some (has c MAP_PAGE_RESERVED).

(** Word [i] of the page [a]. *)
Definition page (a : Z) (s : vm) : option (list Z) := c ← users a s; if c =? 0 then None else frames s !! a.
Definition rd (a i : Z) (s : vm) : option Z := f ← page a s; get f i.
Definition wr (a i v : Z) (s : vm) : option vm :=
  f ← page a s; f ← put f i v; Some (set_frames (<[a := f]> (frames s)) s).

Definition zeros : list Z := repeat 0 (Z.to_nat PTRS_PER_PAGE).

Definition free_page (a : Z) (s : vm) : option vm := m ← PageAlloc.free_page a (pages s); Some (set_pages m s).

(** [for (j = ...; n-- ; j++) body] *)
Fixpoint upto (n : nat) (j : Z) (body : Z -> vm -> option vm) (s : vm) : option vm :=
  match n with
  | O => Some s
  | S n => s ← body j s; upto n (j + 1) body s
  end.

(** ** Swap entries *)

Definition SWP_USED : Z := 1.
Definition SWP_WRITEOK : Z := 3.
Definition SHM_SWP_TYPE : Z := 0x41.
Definition SWP_TYPE (entry : Z) : Z := Z.shiftr (Z.land entry 0xfe) 1.
Definition SWP_OFFSET (entry : Z) : Z := Z.shiftr entry PAGE_SHIFT.
Definition SWP_ENTRY (type offset : Z) : Z := Z.lor (Z.shiftl type 1) (Z.shiftl offset PAGE_SHIFT).

Definition nr_swapfiles (s : vm) : Z := Z.of_nat (length (infos s)).

(** [rw_swap_page]: the entry must be good, else nothing happens. *)
Definition swappable_entry (entry : Z) (s : vm) : option bool :=
  if nr_swapfiles s <=? SWP_TYPE entry then Some false
  else
    p ← get (infos s) (SWP_TYPE entry);
    Some (negb (max p <=? SWP_OFFSET entry) && has (flags p) SWP_USED).

Definition write_swap_page (entry a : Z) (s : vm) : option vm :=
  ok ← swappable_entry entry s;
  if (ok : bool) then f ← page a s; Some (set_disk (<[entry := f]> (disk s)) s) else Some s.

Definition read_swap_page (entry a : Z) (s : vm) : option vm :=
  ok ← swappable_entry entry s;
  if (ok : bool) then
    _ ← page a s; f ← disk s !! entry; Some (set_frames (<[a := f]> (frames s)) s)
  else Some s.

(** The inner loop of [get_swap_page]; [n] offsets are left. *)
Fixpoint find_slot (n : nat) (offset : Z) (map : list Z) : option (option Z) :=
  match n with
  | O => Some None
  | S n => c ← get map offset; if negb (c =? 0) then find_slot n (offset + 1) map else Some (Some offset)
  end.

Fixpoint get_swap_page_from (n : nat) (type : Z) (s : vm) : option (Z * vm) :=
  match n with
  | O => Some (0, s)
  | S n =>
      p ← get (infos s) type;
      if negb (Z.land (flags p) SWP_WRITEOK =? SWP_WRITEOK) then get_swap_page_from n (type + 1) s
      else
        r ← find_slot (Z.to_nat (highest_bit p + 1 - lowest_bit p)) (lowest_bit p) (swap_map p);
        match r with
        | None => get_swap_page_from n (type + 1) s
        | Some offset =>
            map ← put (swap_map p) offset 1;
            let hi := if offset =? highest_bit p then highest_bit p - 1 else highest_bit p in
            l ← put (infos s) type (set_bits offset hi (set_swap_map map p));
            Some (SWP_ENTRY type offset, set_infos l (nr_swap_pages s - 1) s)
        end
  end.
Definition get_swap_page (s : vm) : option (Z * vm) := get_swap_page_from (length (infos s)) 0 s.

Definition swap_duplicate (entry : Z) (s : vm) : option (Z * vm) :=
  if entry =? 0 then Some (0, s)
  else if SWP_TYPE entry =? SHM_SWP_TYPE then Some (entry, s)
  else if nr_swapfiles s <=? SWP_TYPE entry then Some (0, s)
  else
    p ← get (infos s) (SWP_TYPE entry);
    if max p <=? SWP_OFFSET entry then Some (0, s)
    else
      c ← get (swap_map p) (SWP_OFFSET entry);
      if c =? 0 then Some (0, s)
      else
        map ← put (swap_map p) (SWP_OFFSET entry) (u8 (c + 1));
        l ← put (infos s) (SWP_TYPE entry) (set_swap_map map p);
        Some (entry, set_infos l (nr_swap_pages s) s).

Definition swap_free (entry : Z) (s : vm) : option vm :=
  if entry =? 0 then Some s
  else if SWP_TYPE entry =? SHM_SWP_TYPE then Some s
  else if nr_swapfiles s <=? SWP_TYPE entry then Some s
  else
    p ← get (infos s) (SWP_TYPE entry);
    let offset := SWP_OFFSET entry in
    if max p <=? offset then Some s
    else if negb (has (flags p) SWP_USED) then Some s
    else
      let lo := if offset <? lowest_bit p then offset else lowest_bit p in
      let hi := if highest_bit p <? offset then offset else highest_bit p in
      c ← get (swap_map p) offset;
      map ← put (swap_map p) offset (if c =? 0 then c else u8 (c - 1));
      l ← put (infos s) (SWP_TYPE entry) (set_bits lo hi (set_swap_map map p));
      Some (set_infos l (if negb (c =? 0) && (u8 (c - 1) =? 0) then nr_swap_pages s + 1 else nr_swap_pages s) s).

(** ** Taking pages from processes *)

(** [try_to_swap_out] of entry [j] of the table [a]. *)
Definition try_to_swap_out (a j : Z) (s : vm) : option (Z * vm) :=
  page ← rd a j s;
  if negb (has page PAGE_PRESENT) then Some (0, s)
  else if high_memory (pages s) <=? page then Some (0, s)
  else
    res ← reserved page s;
    if (res : bool) then Some (0, s)
    else if has page PAGE_ACCESSED then
      s ← wr a j (Z.land page (Z.lnot PAGE_ACCESSED)) s; Some (0, s)
    else if bool_decide (Z.land page PAGE_MASK ∈ last_free_pages (pages s)) then Some (0, s)
    else if has page PAGE_DIRTY then
      let page := Z.land page PAGE_MASK in
      c ← users page s;
      if negb (c =? 1) then Some (0, s)
      else
        '(entry, s) ← get_swap_page s;
        if entry =? 0 then Some (0, s)
        else
          s ← wr a j entry s;
          s ← write_swap_page entry page s;
          s ← free_page page s;
          Some (1, s)
    else
      let page := Z.land page PAGE_MASK in
      s ← wr a j 0 s;
      s ← free_page page s;
      c ← users page s;
      Some (1 + c, s).

Definition SWAP_MIN : Z := 4.
Definition SWAP_MAX : Z := 32.
Definition SWAP_RATIO : Z := 128.

(** [p->swap_cnt] is set when it is 0. *)
Definition count_swaps (t : vtask) : vtask :=
  let w := swp t in
  if negb (swap_cnt w =? 0) then t
  else
    let d := u32 (u32 (dec_flt w * 3) / 4 + maj_flt t - old_maj_flt w) in
    let '(d, c) := if SWAP_RATIO / SWAP_MIN <=? d then (SWAP_RATIO / SWAP_MIN, SWAP_MIN)
                   else if d <=? SWAP_RATIO / SWAP_MAX then (d, SWAP_MAX)
                   else (d, SWAP_RATIO / d) in
    set_swp (Swapping (maj_flt t) d c (swap_table w) (swap_page w)) t.

Definition set_place (table page : Z) (t : vtask) : vtask :=
  set_swp (Swapping (old_maj_flt (swp t)) (dec_flt (swp t)) (swap_cnt (swp t)) table page) t.

(** The loop over the entries of the table [a], number [table] of task [k], from
    [page] on; [n] are left.  True: a page was freed. *)
Fixpoint swap_out_pages (n : nat) (k table a page : Z) (s : vm) : option (bool * vm) :=
  match n with
  | O => s ← on_task k (fun t => set_place (swap_table (swp t)) 0 t) s; Some (false, s)
  | S n =>
      '(r, s) ← try_to_swap_out a page s;
      if r =? 0 then swap_out_pages n k table a (page + 1) s
      else
        s ← on_task k (fun t => set_rss (u16 (rss t - 1)) t) s;
        if r =? 1 then
          t ← tasks s !! k;
          let c := u32 (swap_cnt (swp t) - 1) in
          let w := Swapping (old_maj_flt (swp t)) (dec_flt (swp t)) c table (page + 1) in
          s ← on_task k (set_swp w) s;
          Some (true, set_swap_task (if c =? 0 then swap_task s + 1 else swap_task s) s)
        else swap_out_pages n k table a (page + 1) s
  end.

(** The loop over the directory of task [k]. *)
Fixpoint swap_out_tables (n : nat) (k table : Z) (s : vm) : option (bool * vm) :=
  match n with
  | O => s ← on_task k (fun t => set_place 0 (swap_page (swp t)) t) s; Some (false, s)
  | S n =>
      t ← tasks s !! k;
      pg_table ← rd (cr3 t) table s;
      if high_memory (pages s) <=? pg_table then swap_out_tables n k (table + 1) s
      else
        res ← reserved pg_table s;
        if (res : bool) then swap_out_tables n k (table + 1) s
        else if negb (has pg_table PAGE_PRESENT) then
          s ← wr (cr3 t) table 0 s; swap_out_tables n k (table + 1) s
        else
          '(freed, s) ← swap_out_pages (Z.to_nat (PTRS_PER_PAGE - swap_page (swp t))) k table
                          (Z.land pg_table PAGE_MASK) (swap_page (swp t)) s;
          if (freed : bool) then Some (true, s) else swap_out_tables n k (table + 1) s
  end.

(** The search for a process to swap: its number, or none. *)
Fixpoint find_swap_task (fuel : nat) (loop : bool) (s : vm) : option (option Z * vm) :=
  match fuel with
  | O => None
  | S fuel =>
      let wrap := NR_TASKS <=? swap_task s in
      let s := if wrap then set_swap_task 1 s else s in
      if wrap && loop then Some (None, s)
      else
        let loop := wrap || loop in
        let next := find_swap_task fuel loop (set_swap_task (swap_task s + 1) s) in
        match tasks s !! swap_task s with
        | Some t => if swappable t && negb (rss t =? 0) then Some (Some (swap_task s), s) else next
        | None => next
        end
  end.
Definition find_fuel : nat := Z.to_nat (2 * NR_TASKS + 1).

Fixpoint swap_out_loop (counter : nat) (s : vm) : option (bool * vm) :=
  match counter with
  | O => Some (false, s)
  | S counter =>
      '(found, s) ← find_swap_task find_fuel false s;
      match found with
      | None => Some (false, s)
      | Some k =>
          s ← on_task k count_swaps s;
          t ← tasks s !! k;
          '(freed, s) ← swap_out_tables (Z.to_nat (PTRS_PER_PAGE - swap_table (swp t))) k (swap_table (swp t)) s;
          if (freed : bool) then Some (true, s)
          else swap_out_loop counter (set_swap_task (swap_task s + 1) s)
      end
  end.
Definition swap_out (priority : Z) (s : vm) : option (bool * vm) :=
  swap_out_loop (S (Z.to_nat (Z.shiftr (NR_TASKS * 2) priority))) s.

(** [try_to_free_page]; the buffer cache and shared memory have nothing to give. *)
Fixpoint try_to_free_page (i : nat) (s : vm) : option (bool * vm) :=
  match i with
  | O => Some (false, s)
  | S i =>
      '(freed, s) ← swap_out (Z.of_nat i) s;
      if (freed : bool) then Some (true, s) else try_to_free_page i s
  end.

(** [__get_free_page] with [GFP_KERNEL]: 0 when there is no page.  The pages freed go
    to the secondary list first, so it may take that many rounds to get one. *)
Fixpoint get_free_page_loop (fuel : nat) (s : vm) : option (Z * vm) :=
  match fuel with
  | O => None
  | S fuel =>
      '(result, m) ← remove_free (pages s);
      let s := set_pages m s in
      if negb (result =? 0) then Some (result, s)
      else
        '(freed, s) ← try_to_free_page 6 s;
        if (freed : bool) then get_free_page_loop fuel s
        else '(result, m) ← remove_secondary (pages s); Some (result, set_pages m s)
  end.
Definition __get_free_page (s : vm) : option (Z * vm) := get_free_page_loop (Z.to_nat (MAX_SECONDARY_PAGES + 2)) s.

Definition get_free_page (s : vm) : option (Z * vm) :=
  '(a, s) ← __get_free_page s;
  Some (a, if negb (a =? 0) then set_frames (<[a := zeros]> (frames s)) s else s).

(** ** Page tables *)

Section Tables.
Context (ly : layout).

(** [oom]: the signal cannot be blocked or caught. *)
Definition oom (k : Z) (s : vm) : option vm := on_task k (send_sig SIGKILL) s.

(** What an entry held is given back. *)
Definition zap (pg : Z) (s : vm) : option vm :=
  if has pg PAGE_PRESENT then free_page (Z.land PAGE_MASK pg) s else swap_free pg s.

Definition free_one_table (d i : Z) (s : vm) : option vm :=
  pg_table ← rd d i s;
  if pg_table =? 0 then Some s
  else
    s ← wr d i 0 s;
    if (high_memory (pages s) <=? pg_table) || negb (has pg_table PAGE_PRESENT) then Some s
    else
      res ← reserved pg_table s;
      if (res : bool) then Some s
      else
        let t := Z.land pg_table PAGE_MASK in
        s ← upto (Z.to_nat PTRS_PER_PAGE) 0 (fun j s =>
              pg ← rd t j s;
              if pg =? 0 then Some s else s ← wr t j 0 s; zap pg s) s;
        free_page t s.

(** For task 0 this is a [panic], and so in [free_page_tables]. *)
Definition clear_page_tables (k : Z) (s : vm) : option vm :=
  t ← tasks s !! k;
  let pg_dir := cr3 t in
  if k =? 0 then None
  else if (pg_dir =? 0) || (pg_dir =? swapper_pg_dir ly) then Some s
  else
    c ← users pg_dir s;
    if 1 <? c then
      '(new_pg, s) ← get_free_page s;
      if new_pg =? 0 then oom k s
      else
        s ← upto 256 768 (fun i s => v ← rd pg_dir i s; wr new_pg i v s) s;
        s ← free_page pg_dir s;
        on_task k (set_cr3 new_pg) s
    else upto 768 0 (free_one_table pg_dir) s.

Definition free_page_tables (k : Z) (s : vm) : option vm :=
  t ← tasks s !! k;
  let pg_dir := cr3 t in
  if k =? 0 then None
  else if (pg_dir =? 0) || (pg_dir =? swapper_pg_dir ly) then Some s
  else
    s ← on_task k (set_cr3 (swapper_pg_dir ly)) s;
    c ← users pg_dir s;
    if 1 <? c then free_page pg_dir s
    else
      s ← upto (Z.to_nat PTRS_PER_PAGE) 0 (free_one_table pg_dir) s;
      free_page pg_dir s.

(** What [fork] changes in the copy of a task. *)
Definition child (t : vtask) : vtask := VTask (cr3 t) (rss t) 0 0 true (swp t) (bnd t) (trap t) [].

(** The new task [c] is a copy of the current one, [k], and has its directory. *)
Definition clone_page_tables (k c : Z) (s : vm) : option vm :=
  t ← tasks s !! k;
  n ← users (cr3 t) s;
  mm ← put (mem_map (pages s)) (MAP_NR (cr3 t)) (u16 (n + 1));
  let s := set_pages (set_map mm (pages s)) s in
  Some (set_tasks (<[c := child t]> (tasks s)) s).

Definition copy_entry (old new j : Z) (s : vm) : option vm :=
  pg ← rd old j s;
  if pg =? 0 then Some s
  else if negb (has pg PAGE_PRESENT) then
    '(e, s) ← swap_duplicate pg s; wr new j e s
  else
    let pg := if Z.land pg (Z.lor PAGE_RW PAGE_COW) =? Z.lor PAGE_RW PAGE_COW
              then Z.land pg (Z.lnot PAGE_RW) else pg in
    s ← wr new j pg s;
    c ← users pg s;
    if has c MAP_PAGE_RESERVED then Some s
    else
      s ← wr old j pg s;
      c ← users pg s;
      mm ← put (mem_map (pages s)) (MAP_NR pg) (u16 (c + 1));
      Some (set_pages (set_map mm (pages s)) s).

(** The loop over the directory from entry [i] on; [n] are left. *)
Fixpoint copy_tables (n : nat) (c old new i : Z) (s : vm) : option (Z * vm) :=
  match n with
  | O => Some (0, s)
  | S n =>
      old_pg_table ← rd old i s;
      if old_pg_table =? 0 then copy_tables n c old new (i + 1) s
      else if (high_memory (pages s) <=? old_pg_table) || negb (has old_pg_table PAGE_PRESENT) then
        s ← wr old i 0 s; copy_tables n c old new (i + 1) s
      else
        res ← reserved old_pg_table s;
        if (res : bool) then s ← wr new i old_pg_table s; copy_tables n c old new (i + 1) s
        else
          '(new_pg_table, s) ← get_free_page s;
          if new_pg_table =? 0 then s ← free_page_tables c s; Some (- ENOMEM, s)
          else
            s ← upto (Z.to_nat PTRS_PER_PAGE) 0
                  (copy_entry (Z.land PAGE_MASK old_pg_table) (Z.land PAGE_MASK new_pg_table)) s;
            s ← wr new i (Z.lor new_pg_table PAGE_TABLE) s;
            copy_tables n c old new (i + 1) s
  end.

(** The new task [c] is a copy of the current one but for its directory.  Before it has
    that it is left out of the tasks: swapping for it would be swapping for [k]. *)
Definition copy_page_tables (k c : Z) (s : vm) : option (Z * vm) :=
  '(new_pg_dir, s) ← get_free_page s;
  if new_pg_dir =? 0 then Some (- ENOMEM, s)
  else
    t ← tasks s !! k;
    let s := set_tasks (<[c := set_cr3 new_pg_dir (child t)]> (tasks s)) s in
    copy_tables (Z.to_nat PTRS_PER_PAGE) c (cr3 t) new_pg_dir 0 s.

(** [copy_vm] in [sys_fork]; when it fails the slot of the task is free again. *)
Definition fork_vm (COPYVM : bool) (k c : Z) (s : vm) : option (Z * vm) :=
  if COPYVM then
    '(r, s) ← copy_page_tables k c s;
    if negb (r =? 0) then Some (- EAGAIN, set_tasks (delete c (tasks s)) s) else Some (0, s)
  else s ← clone_page_tables k c s; Some (0, s).

(** ** Ranges of pages of the current task [k] *)

(** As [zap], and the page no longer counts as resident. *)
Definition zap_rss (k pg : Z) (s : vm) : option vm :=
  if has pg PAGE_PRESENT then
    c ← users pg s;
    s ← (if negb (has c MAP_PAGE_RESERVED)
         then on_task k (fun t => if 0 <? rss t then set_rss (rss t - 1) t else t) s else Some s);
    free_page (Z.land PAGE_MASK pg) s
  else swap_free pg s.

Definition next_count (size : Z) : Z := if PTRS_PER_PAGE <? size then PTRS_PER_PAGE else size.

(** The loop from directory entry [i] and table entry [poff] on: [size] pages in all,
    [pcnt] of them in this table. *)
Fixpoint unmap_tables (fuel : nat) (k d i poff pcnt size : Z) (s : vm) : option vm :=
  if size <=? 0 then Some s
  else
    match fuel with
    | O => None
    | S fuel =>
        page_dir ← rd d i s;
        let next poff := unmap_tables fuel k d (i + 1) poff (next_count (size - pcnt)) (size - pcnt) in
        if page_dir =? 0 then next 0 s
        else if negb (has page_dir PAGE_PRESENT) then next poff s
        else
          let t := Z.land PAGE_MASK page_dir in
          s ← upto (Z.to_nat pcnt) poff (fun j s =>
                page ← rd t j s;
                if page =? 0 then Some s else s ← wr t j 0 s; zap_rss k page s) s;
          s ← (if pcnt =? PTRS_PER_PAGE then s ← wr d i 0 s; free_page t s else Some s);
          next 0 s
    end.

Definition page_count (size : Z) : Z := Z.shiftr (u32 (size + (PAGE_SIZE - 1))) PAGE_SHIFT.
Definition first_count (poff size : Z) : Z := if size <? PTRS_PER_PAGE - poff then size else PTRS_PER_PAGE - poff.
Definition table_offset (from : Z) : Z := Z.land (Z.shiftr from PAGE_SHIFT) (PTRS_PER_PAGE - 1).

Definition unmap_page_range (k from size : Z) (s : vm) : option (Z * vm) :=
  if negb (Z.land from (Z.lnot PAGE_MASK) =? 0) then Some (- EINVAL, s)
  else
    let size := page_count size in
    let poff := table_offset from in
    t ← tasks s !! k;
    s ← unmap_tables (Z.to_nat (PTRS_PER_PAGE + 1)) k (cr3 t) (PAGE_DIR_OFFSET from) poff (first_count poff size) size s;
    Some (0, s).

Fixpoint zeromap_tables (fuel : nat) (k d i poff pcnt size mask : Z) (s : vm) : option (Z * vm) :=
  if size <=? 0 then Some (0, s)
  else
    match fuel with
    | O => None
    | S fuel =>
        e ← rd d i s;
        let fill t s :=
          s ← upto (Z.to_nat pcnt) poff (fun j s =>
                page ← rd t j s;
                s ← (if page =? 0 then Some s else s ← wr t j 0 s; zap_rss k page s);
                wr t j mask s) s;
          zeromap_tables fuel k d (i + 1) 0 (next_count (size - pcnt)) (size - pcnt) mask s in
        if negb (has e PAGE_PRESENT) then
          '(t, s) ← get_free_page s;
          if t =? 0 then Some (- ENOMEM, s)
          else
            e ← rd d i s;
            if has e PAGE_PRESENT then s ← free_page t s; fill (Z.land PAGE_MASK e) s
            else s ← wr d i (Z.lor t PAGE_TABLE) s; fill t s
        else fill (Z.land PAGE_MASK e) s
    end.

(** [ZERO_PAGE] is the page [empty_zero_page], cleared. *)
Definition clear_reserved (a : Z) (s : vm) : vm := set_frames (<[a := zeros]> (frames s)) s.

Definition zeromap_page_range (k from size mask : Z) (s : vm) : option (Z * vm) :=
  let bad := negb (mask =? 0) && negb (Z.land mask (Z.lor PAGE_MASK PAGE_PRESENT) =? PAGE_PRESENT) in
  if bad then Some (- EINVAL, s)
  else
    let s := if negb (mask =? 0) then clear_reserved (empty_zero_page ly) s else s in
    let mask := if negb (mask =? 0) then Z.lor mask (empty_zero_page ly) else mask in
    if negb (Z.land from (Z.lnot PAGE_MASK) =? 0) then Some (- EINVAL, s)
    else
      let size := page_count size in
      let poff := table_offset from in
      t ← tasks s !! k;
      zeromap_tables (Z.to_nat (PTRS_PER_PAGE + 1)) k (cr3 t) (PAGE_DIR_OFFSET from) poff (first_count poff size) size mask s.

(** ** Page faults *)

(** [BAD_PAGE] and [BAD_PAGETABLE] *)
Definition bad_page (s : vm) : Z * vm := (empty_bad_page ly, clear_reserved (empty_bad_page ly) s).
Definition bad_pagetable (s : vm) : Z * vm :=
  let '(b, s) := bad_page s in
  (empty_bad_page_table ly,
   set_frames (<[empty_bad_page_table ly := repeat (b + PAGE_TABLE) (Z.to_nat PTRS_PER_PAGE)]> (frames s)) s).

Definition put_page (k page address prot : Z) (s : vm) : option (Z * vm) :=
  if high_memory (pages s) <=? page then Some (0, s)
  else
    t ← tasks s !! k;
    e ← rd (cr3 t) (PAGE_DIR_OFFSET address) s;
    if has e PAGE_PRESENT then
      let pt := Z.land PAGE_MASK e in
      let j := table_offset address in
      old ← rd pt j s;
      s ← (if negb (old =? 0) then wr pt j 0 s else Some s);
      s ← wr pt j (Z.lor page prot) s;
      Some (page, s)
    else
      s ← oom k s;
      let '(b, s) := bad_pagetable s in
      s ← wr (cr3 t) (PAGE_DIR_OFFSET address) (Z.lor b PAGE_TABLE) s;
      Some (0, s).

(** [__do_wp_page]; [new_page] is what [__get_free_page] returned. *)
Definition end_wp_page (new_page : Z) (s : vm) : option vm :=
  if negb (new_page =? 0) then free_page new_page s else Some s.

(** The part for an entry that may be made writable. *)
Definition wp_copy (k new_page t j old_page : Z) (s : vm) : option vm :=
  s ← on_task k (add_flt 1 0) s;
  let prot := Z.lor (Z.land old_page (Z.lnot PAGE_MASK)) PAGE_RW in
  let old := Z.land old_page PAGE_MASK in
  c ← users old s;
  if negb (c =? 1) then
    if negb (new_page =? 0) then
      s ← (if has c MAP_PAGE_RESERVED then on_task k (fun t => set_rss (u16 (rss t + 1)) t) s else Some s);
      f ← page old s; _ ← page new_page s;
      let s := set_frames (<[new_page := f]> (frames s)) s in
      s ← wr t j (Z.lor new_page prot) s;
      free_page old s
    else
      s ← free_page old s;
      s ← oom k s;
      let '(b, s) := bad_page s in
      wr t j (Z.lor b prot) s
  else
    s ← wr t j (Z.lor old_page PAGE_RW) s;
    end_wp_page new_page s.

Definition __do_wp_page (k address : Z) (s : vm) : option vm :=
  '(new_page, s) ← __get_free_page s;
  tk ← tasks s !! k;
  pte ← rd (cr3 tk) (PAGE_DIR_OFFSET address) s;
  if negb (has pte PAGE_PRESENT) then end_wp_page new_page s
  else if negb (Z.land pte PAGE_TABLE =? PAGE_TABLE) || (high_memory (pages s) <=? pte) then
    let '(b, s) := bad_pagetable s in
    s ← wr (cr3 tk) (PAGE_DIR_OFFSET address) (Z.lor b PAGE_TABLE) s;
    s ← on_task k (send_sig SIGKILL) s;
    end_wp_page new_page s
  else
    let t := Z.land pte PAGE_MASK in
    let j := PAGE_PTR address in
    old_page ← rd t j s;
    if negb (has old_page PAGE_PRESENT) then end_wp_page new_page s
    else if high_memory (pages s) <=? old_page then
      let '(b, s) := bad_page s in
      s ← wr t j (Z.lor b PAGE_SHARED) s;
      s ← on_task k (send_sig SIGKILL) s;
      end_wp_page new_page s
    else if has old_page PAGE_RW then end_wp_page new_page s
    else wp_copy k new_page t j old_page s.

(** [current]: the fault is one of the current task's. *)
Definition do_wp_page (current : bool) (error_code address k user_esp : Z) (s : vm) : option vm :=
  tk ← tasks s !! k;
  e ← rd (cr3 tk) (PAGE_DIR_OFFSET address) s;
  if e =? 0 then Some s
  else if has e PAGE_PRESENT && (e <? high_memory (pages s)) then
    let t := Z.land e PAGE_MASK in
    let j := PAGE_PTR address in
    page ← rd t j s;
    if negb (has page PAGE_PRESENT) then Some s
    else if has page PAGE_RW then Some s
    else if negb (has page PAGE_COW) && negb (user_esp =? 0) && current then
      on_task k (fun t => send_sig SIGSEGV (set_trap (address, error_code, 14) t)) s
    else
      c ← users page s;
      if c =? 1 then wr t j (Z.lor page (Z.lor PAGE_RW PAGE_DIRTY)) s
      else __do_wp_page k address s
  else wr (cr3 tk) (PAGE_DIR_OFFSET address) 0 s.

(** The loop of [__verify_write]; [n] pages after this one. *)
Fixpoint verify_write_loop (n : nat) (k start : Z) (s : vm) : option vm :=
  s ← do_wp_page true 1 start k 0 s;
  match n with
  | O => Some s
  | S n => verify_write_loop n k (u32 (start + PAGE_SIZE)) s
  end.
Definition __verify_write (k start size : Z) (s : vm) : option vm :=
  let size := Z.shiftr (u32 (u32 (size - 1) + Z.land start (Z.lnot PAGE_MASK))) PAGE_SHIFT in
  verify_write_loop (Z.to_nat size) k (Z.land start PAGE_MASK) s.

Definition get_empty_page (k address : Z) (s : vm) : option vm :=
  '(tmp, s) ← get_free_page s;
  '(tmp, s) ← (if tmp =? 0 then s ← oom k s; Some (bad_page s) else Some (tmp, s));
  '(r, s) ← put_page k tmp address PAGE_PRIVATE s;
  if r =? 0 then free_page tmp s else Some s.

Definition get_empty_pgtable (k address : Z) (s : vm) : option (Z * vm) :=
  tk ← tasks s !! k;
  let d := cr3 tk in
  let i := PAGE_DIR_OFFSET address in
  e ← rd d i s;
  if has e PAGE_PRESENT then Some (e, s)
  else
    s ← (if negb (e =? 0) then wr d i 0 s else Some s);
    '(page, s) ← get_free_page s;
    e ← rd d i s;
    if has e PAGE_PRESENT then s ← free_page page s; Some (e, s)
    else
      s ← (if negb (e =? 0) then wr d i 0 s else Some s);
      if negb (page =? 0) then
        s ← wr d i (Z.lor page PAGE_TABLE) s; Some (Z.lor page PAGE_TABLE, s)
      else
        s ← oom k s;
        let '(b, s) := bad_pagetable s in
        s ← wr d i (Z.lor b PAGE_TABLE) s; Some (0, s).

(** The pages of files ([vm_ops->nopage]; whether there is such a function is [has_nopage])
    and of shared memory come from elsewhere. *)
Context (has_nopage : Z -> bool) (nopage : Z -> vm_area -> Z -> Z -> vm -> option vm).
Context (shm_no_page : Z -> Z -> vm -> option vm).

(** [swap_in] of entry [j] of the table [t], for the current task [k]. *)
Definition swap_in (k t j : Z) (s : vm) : option vm :=
  entry ← rd t j s;
  if has entry PAGE_PRESENT then Some s
  else if entry =? 0 then Some s
  else if SWP_TYPE entry =? SHM_SWP_TYPE then shm_no_page t j s
  else
    '(page, s) ← get_free_page s;
    '(page, s) ← (if page =? 0 then s ← oom k s; Some (bad_page s)
                  else s ← read_swap_page entry page s; Some (page, s));
    now ← rd t j s;
    if negb (now =? entry) then free_page page s
    else
      s ← wr t j (Z.lor page (Z.lor PAGE_DIRTY PAGE_PRIVATE)) s;
      swap_free entry s.

(** The search for the area: the area that has the address, or the first one above it
    and the end of the last one below. *)
Inductive where_is := Inside (v : vm_area) | Outside (above : option vm_area) (tmp : Z).
Fixpoint find_area (address tmp : Z) (l : list vm_area) : where_is :=
  match l with
  | [] => Outside None tmp
  | v :: l =>
      if address <? vm_start v then Outside (Some v) tmp
      else if vm_end v <=? address then find_area address (vm_end v) l
      else Inside v
  end.

(** Does the stack grow to the address? *)
Definition grows_stack (t : vtask) (above : option vm_area) (address tmp : Z) : bool :=
  match above with
  | Some v => (vm_at v =? stk_vma (bnd t)) && (vm_start v - address <? address - tmp)
              && (vm_end v - address <? rlim_stack (bnd t))
  | None => false
  end.
Definition grow (above : option vm_area) (address : Z) (t : vtask) : vtask :=
  set_mmap ((fun v => match above with
                      | Some w => if vm_at v =? vm_at w
                                  then VmArea (vm_at v) address (vm_end v) (vm_page_prot v) (vm_share v)
                                         (vm_inode v) (vm_offset v) (vm_ops v) else v
                      | None => v
                      end) <$> mmap (bnd t)) t.

Definition do_no_page (current : bool) (error_code address k : Z) (s : vm) : option vm :=
  '(page, s) ← get_empty_pgtable k address s;
  if page =? 0 then Some s
  else
    let t := Z.land page PAGE_MASK in
    let j := PAGE_PTR address in
    tmp ← rd t j s;
    if has tmp PAGE_PRESENT then Some s
    else
      s ← on_task k (fun t => set_rss (u16 (rss t + 1)) t) s;
      if negb (tmp =? 0) then s ← on_task k (add_flt 0 1) s; swap_in k t j s
      else
        let address := Z.land address 0xfffff000 in
        let ok s := s ← on_task k (add_flt 1 0) s; get_empty_page k address s in
        tk ← tasks s !! k;
        match find_area address 0 (mmap (bnd tk)) with
        | Inside v => if has_nopage (vm_ops v) then nopage error_code v address k s else ok s
        | Outside above last =>
            if negb current then ok s
            else if (end_data (bnd tk) <=? address) && (address <? brk (bnd tk)) then ok s
            else if grows_stack tk above address last then
              s ← on_task k (grow above address) s; ok s
            else
              s ← on_task k (fun t => send_sig SIGSEGV (set_trap (address, error_code, 14) t)) s;
              if has error_code 4 then Some s else ok s
        end.

(** [do_page_fault] below [TASK_SIZE]; a fault above it ends in [die_if_kernel].
    [esp] is the stack pointer of the user, [vm86] whether it is in virtual 8086
    mode (then the code also notes which page of the screen was touched). *)
Definition do_page_fault (k address error_code esp : Z) (vm86 : bool) (s : vm) : option vm :=
  if address <? TASK_SIZE then
    let user_esp := if has error_code 4 && negb vm86 then esp else 0 in
    if has error_code 1 then do_wp_page true error_code address k user_esp s
    else do_no_page true error_code address k s
  else None.
End Tables.
End Vm.
