(* ===== verification/VmBits.v ===== *)
(** * Counting in maps, and page table entries as numbers

    Shared by the files on virtual memory: the number of entries of a map that meet a
    condition, and arithmetic of page addresses with flags in the low 12 bits and of
    swap entries. *)

From S2P Require Import Prelude PageAlloc Vm.
From Stdlib Require Import ZArith Lia.
From stdpp Require Import base list gmap numbers.
Local Open Scope Z_scope.

Module VmBits.
Import PageAlloc Vm.

(** ** Counting in maps *)

Section Tally.
Context {K A : Type} `{Countable K}.

Definition tally (f : A -> bool) (m : gmap K A) : Z := map_fold (fun _ x n => (if f x then 1 else 0) + n) 0 m.

Lemma tally_empty f : tally f ∅ = 0.
Proof. apply map_fold_empty. Qed.

Lemma tally_insert f m k x : m !! k = None -> tally f (<[k := x]> m) = (if f x then 1 else 0) + tally f m.
Proof. intros Hk. unfold tally. rewrite map_fold_insert_L; [done|intros; lia|done]. Qed.

Lemma tally_delete f m k x : m !! k = Some x -> tally f m = (if f x then 1 else 0) + tally f (delete k m).
Proof. intros Hk. rewrite <- (insert_delete_id m k x Hk) at 1. apply tally_insert, lookup_delete_eq. Qed.

Lemma tally_update f m k x y : m !! k = Some x -> tally f (<[k := y]> m) = tally f m - (if f x then 1 else 0) + (if f y then 1 else 0).
Proof.
  intros Hk. rewrite (tally_delete f m k x Hk). rewrite <- insert_delete_eq, tally_insert by apply lookup_delete_eq. lia.
Qed.

Lemma tally_zero f m : (forall k x, m !! k = Some x -> f x = false) -> tally f m = 0.
Proof.
  induction m as [|k x m Hk IH] using map_ind; intros Hf; [done|]. rewrite tally_insert by done.
  rewrite (Hf k x (lookup_insert_eq _ _ _)), IH; [done|]. intros j y Hj. apply (Hf j). rewrite lookup_insert_ne; [done|]. congruence.
Qed.

Lemma tally_nonneg f m : 0 <= tally f m.
Proof. induction m as [|k x m Hk IH] using map_ind; [by rewrite tally_empty|]. rewrite tally_insert by done. destruct (f x); lia. Qed.

Lemma tally_pos f m k x : m !! k = Some x -> f x = true -> 0 < tally f m.
Proof. intros Hk Hf. rewrite (tally_delete f m k x Hk), Hf. assert (N := tally_nonneg f (delete k m)). lia. Qed.

Lemma tally_ext f g m : (forall k x, m !! k = Some x -> f x = g x) -> tally f m = tally g m.
Proof.
  induction m as [|k x m Hk IH] using map_ind; intros Hf; [done|]. rewrite !tally_insert by done.
  rewrite (Hf k x (lookup_insert_eq _ _ _)), IH; [done|]. intros j y Hj. apply (Hf j). rewrite lookup_insert_ne; [done|]. congruence.
Qed.

(** The entries that count are at different places of [g]. *)
Lemma tally_inj {B} `{Countable B} f (g : K -> B) (u : gset B) m :
  (forall k x, m !! k = Some x -> f x = true -> g k ∈ u) ->
  (forall k k' x x', m !! k = Some x -> m !! k' = Some x' -> f x = true -> f x' = true -> g k = g k' -> k = k') ->
  tally f m <= Z.of_nat (size u).
Proof.
  revert u. induction m as [|k x m Hk IH] using map_ind; intros u Hin Hinj; [rewrite tally_empty; lia|].
  rewrite tally_insert by done. destruct (f x) eqn:Ef.
  - assert (Hu : g k ∈ u) by (apply (Hin k x); [apply lookup_insert_eq|done]).
    assert (L : tally f m <= Z.of_nat (size (u ∖ {[g k]}))).
    { apply IH.
      - intros j y Hj Fy. assert (j <> k) by congruence. apply elem_of_difference. split.
        + apply (Hin j y); [by rewrite lookup_insert_ne|done].
        + intros E%elem_of_singleton. apply (Hinj j k y x) in E; [done|by rewrite lookup_insert_ne|apply lookup_insert_eq|done|done].
      - intros j j' y y' Hj Hj'. apply Hinj; rewrite lookup_insert_ne; congruence. }
    rewrite size_difference in L by (by apply singleton_subseteq_l). rewrite size_singleton in L.
    assert (0 < size u)%nat; [|lia]. apply Nat.neq_0_lt_0. intros E%size_empty_inv. set_solver.
  - assert (tally f m <= Z.of_nat (size u)); [|lia]. apply IH.
    + intros j y Hj. apply Hin. rewrite lookup_insert_ne; congruence.
    + intros j j' y y' Hj Hj'. apply Hinj; rewrite lookup_insert_ne; congruence.
Qed.
End Tally.

(** ** Entries as numbers *)

(** A page address and flags below 4096. *)
Definition aligned (a : Z) : Prop := 0 <= a < 2 ^ 32 /\ a mod 4096 = 0.

Lemma low_bits a f i : a mod 4096 = 0 -> 0 <= f < 4096 -> 0 <= i ->
  Z.testbit (a + f) i = if i <? 12 then Z.testbit f i else Z.testbit a i.
Proof.
  intros Ha Hf Hi. assert (E : a = Z.shiftl (a / 4096) 12).
  { rewrite Z.shiftl_mul_pow2 by lia. change (2 ^ 12) with 4096. assert (M := Z.div_mod a 4096). lia. }
  assert (F : forall j, 12 <= j -> Z.testbit f j = false).
  { intros j Hj. apply Z.bits_above_log2; [lia|]. destruct (decide (f = 0)) as [-> |]; [cbn; lia|].
    assert (Z.log2 f < 12); [|lia]. apply Z.log2_lt_pow2; lia. }
  assert (D : Z.land a f = 0).
  { apply Z.bits_inj'. intros j Hj. rewrite Z.land_spec, Z.bits_0. destruct (Z.lt_ge_cases j 12).
    - rewrite E, Z.shiftl_spec_low by lia. done.
    - rewrite F by lia. apply andb_false_r. }
  rewrite Z.add_nocarry_lxor, Z.lxor_spec by done. destruct (Z.ltb_spec i 12).
  - rewrite E, Z.shiftl_spec_low by lia. apply xorb_false_l.
  - rewrite F by lia. apply xorb_false_r.
Qed.

Lemma low_above f i : 0 <= f < 4096 -> 12 <= i -> Z.testbit f i = false.
Proof.
  intros Hf Hi. apply Z.bits_above_log2; [lia|]. destruct (decide (f = 0)) as [-> |]; [cbn; lia|].
  assert (Z.log2 f < 12); [|lia]. apply Z.log2_lt_pow2; lia.
Qed.

Lemma low_range z : 0 <= z -> (forall i, 12 <= i -> Z.testbit z i = false) -> 0 <= z < 4096.
Proof.
  intros Hz H. split; [done|]. destruct (Z.lt_ge_cases z 4096) as [|G]; [done|]. exfalso.
  assert (L : 12 <= Z.log2 z) by (apply Z.log2_le_pow2; lia). assert (B := Z.bit_log2 z ltac:(lia)). by rewrite H in B.
Qed.

Lemma lor_low f m : 0 <= f < 4096 -> 0 <= m < 4096 -> 0 <= Z.lor f m < 4096.
Proof. intros Hf Hm. apply low_range; [apply Z.lor_nonneg; lia|]. intros i Hi. by rewrite Z.lor_spec, !low_above. Qed.

Lemma clear_low f m : 0 <= f < 4096 -> 0 <= Z.land f (Z.lnot m) < 4096.
Proof. intros Hf. apply low_range; [apply Z.land_nonneg; lia|]. intros i Hi. by rewrite Z.land_spec, low_above. Qed.

Section Bits.
Context (a f : Z) (Ha : a mod 4096 = 0) (Hf : 0 <= f < 4096).

Ltac bits := apply Z.bits_inj'; intros i Hi; rewrite ?Z.land_spec, ?Z.lor_spec, ?Z.lnot_spec by done;
  rewrite ?low_bits by (first [done|lia|apply lor_low; lia|apply clear_low; lia]);
  rewrite ?Z.land_spec, ?Z.lor_spec, ?Z.lnot_spec by done; destruct (Z.ltb_spec i 12).

Lemma lor_add : Z.lor a f = a + f.
Proof.
  bits.
  - replace (Z.testbit a i) with (Z.testbit (a + 0) i) by (by rewrite Z.add_0_r). rewrite low_bits by lia.
    destruct (Z.ltb_spec i 12); [|lia]. by rewrite Z.bits_0.
  - rewrite (low_above f) by lia. apply orb_false_r.
Qed.

Lemma land_flags m : 0 <= m < 4096 -> Z.land (a + f) m = Z.land f m.
Proof. intros Hm. bits; [done|]. rewrite (low_above m), !andb_false_r by lia. done. Qed.

Lemma has_flags m : 0 <= m < 4096 -> has (a + f) m = has f m.
Proof. intros Hm. unfold has. by rewrite land_flags. Qed.

Lemma lor_flags m : 0 <= m < 4096 -> Z.lor (a + f) m = a + Z.lor f m.
Proof. intros Hm. bits; [done|]. by rewrite (low_above m), orb_false_r by lia. Qed.

Lemma clear_flags m : 0 <= m < 4096 -> Z.land (a + f) (Z.lnot m) = a + Z.land f (Z.lnot m).
Proof. intros Hm. bits; [done|]. by rewrite (low_above m), andb_true_r by lia. Qed.

Lemma MAP_NR_flags : MAP_NR (a + f) = MAP_NR a.
Proof. rewrite !MAP_NR_div. assert (M := Z.div_mod a 4096). rewrite Ha in M.
  replace (a + f) with (f + a / 4096 * 4096) by lia. rewrite Z.div_add, (Z.div_small f) by lia. lia. Qed.

Lemma mask_flags : 0 <= a < 2 ^ 32 -> Z.land (a + f) PAGE_MASK = a /\ Z.land PAGE_MASK (a + f) = a.
Proof.
  intros Hr. assert (R : a + f < 2 ^ 32).
  { assert (M := Z.div_mod a 4096). rewrite Ha in M. assert (a / 4096 < 2 ^ 20) by (apply Z.div_lt_upper_bound; lia). lia. }
  assert (E : Z.land (a + f) PAGE_MASK = a).
  { rewrite PAGE_MASK_spec by lia. assert (M : (a + f) mod 4096 = f); [|lia].
    rewrite Z.add_mod, Ha by lia. rewrite Z.add_0_l, Z.mod_mod, Z.mod_small by lia. done. }
  split; [done|]. by rewrite Z.land_comm.
Qed.

Lemma unmask_flags : 0 <= a < 2 ^ 32 -> Z.land (a + f) (Z.lnot PAGE_MASK) = f.
Proof.
  intros Hr. apply Z.bits_inj'. intros i Hi. rewrite Z.land_spec, Z.lnot_spec, low_bits by lia.
  unfold PAGE_MASK. rewrite testbit_u32. change (PAGE_SIZE - 1) with (Z.ones 12). rewrite Z.lnot_spec by lia.
  destruct (Z.ltb_spec i 12).
  - rewrite Z.ones_spec_low by lia. cbn. by rewrite andb_false_r, andb_true_r.
  - rewrite Z.ones_spec_high by lia. cbn. rewrite andb_true_r. rewrite (low_above f) by lia.
    destruct (Z.ltb_spec i 32); [apply andb_false_r|]. by rewrite bits_above_u32 by lia.
Qed.
End Bits.

Lemma has_lor f m m' : has (Z.lor f m) m' = has f m' || has m m'.
Proof.
  unfold has. rewrite Z.land_lor_distr_l. destruct (Z.eqb_spec (Z.land f m') 0) as [-> |N]; cbn; [done|].
  destruct (Z.eqb_spec (Z.lor (Z.land f m') (Z.land m m')) 0) as [E|]; [|done]. apply Z.lor_eq_0_iff in E. tauto.
Qed.

Lemma has_clear f m m' : Z.land m m' = 0 -> has (Z.land f (Z.lnot m)) m' = has f m'.
Proof.
  intros D. unfold has. do 2 f_equal. apply Z.bits_inj'. intros i Hi. apply (f_equal (fun z => Z.testbit z i)) in D.
  rewrite Z.land_spec, Z.bits_0 in D. rewrite !Z.land_spec, Z.lnot_spec by lia.
  destruct (Z.testbit m i), (Z.testbit m' i), (Z.testbit f i); done.
Qed.

Lemma has_cleared f m : has (Z.land f (Z.lnot m)) m = false.
Proof.
  unfold has. rewrite <- Z.land_assoc, (Z.land_comm (Z.lnot m)). rewrite Z.land_lnot_diag, Z.land_0_r. done.
Qed.

(** ** Swap entries as numbers *)

Lemma SWP_ENTRY_spec type offset : 0 <= type < 128 -> 0 <= offset < 2 ^ 20 ->
  SWP_ENTRY type offset = offset * 4096 + 2 * type /\ SWP_TYPE (SWP_ENTRY type offset) = type
  /\ SWP_OFFSET (SWP_ENTRY type offset) = offset /\ has (SWP_ENTRY type offset) PAGE_PRESENT = false
  /\ 0 <= SWP_ENTRY type offset < 2 ^ 32.
Proof.
  intros Ht Ho. unfold SWP_ENTRY, PAGE_SHIFT. rewrite !Z.shiftl_mul_pow2 by lia. change (2 ^ 12) with 4096. change (2 ^ 1) with 2.
  assert (Al : (offset * 4096) mod 4096 = 0) by (apply Z.mod_mul; lia).
  assert (E : Z.lor (type * 2) (offset * 4096) = offset * 4096 + type * 2) by (rewrite Z.lor_comm; apply lor_add; [done|lia]).
  rewrite E. split; [lia|]. unfold SWP_TYPE, SWP_OFFSET, PAGE_SHIFT. rewrite land_flags by (done || lia).
  rewrite !Z.shiftr_div_pow2 by lia. change (2 ^ 12) with 4096. change (2 ^ 1) with 2.
  rewrite has_flags by (done || (unfold PAGE_PRESENT; lia)). split; [|split; [|split]].
  - replace (Z.land (type * 2) 0xfe) with (type * 2).
    + apply Z.div_mul. lia.
    + apply Z.bits_inj'. intros i Hi. rewrite Z.land_spec. change 0xfe with (Z.shiftl (Z.ones 7) 1).
      replace (type * 2) with (Z.shiftl type 1) by (rewrite Z.shiftl_mul_pow2; lia).
      destruct (Z.lt_ge_cases i 1); [by rewrite !Z.shiftl_spec_low by lia|]. rewrite !Z.shiftl_spec by lia.
      destruct (Z.lt_ge_cases (i - 1) 7); [by rewrite Z.ones_spec_low, andb_true_r by lia|].
      rewrite Z.ones_spec_high, andb_false_r by lia. apply Z.bits_above_log2; [lia|].
      destruct (decide (type = 0)) as [-> |]; [cbn; lia|]. assert (Z.log2 type < 7); [|lia]. apply Z.log2_lt_pow2; lia.
  - rewrite Z.div_add_l, Z.div_small by lia. lia.
  - unfold has, PAGE_PRESENT. replace (type * 2) with (Z.shiftl type 1) by (rewrite Z.shiftl_mul_pow2; lia).
    rewrite (proj2 (Z.eqb_eq _ 0)); [done|]. apply Z.bits_inj'. intros i Hi. rewrite Z.land_spec, Z.bits_0.
    destruct (decide (i = 0)) as [-> |]; [by rewrite Z.shiftl_spec_low by lia|].
    replace (Z.testbit 1 i) with false; [apply andb_false_r|]. symmetry. apply (Z.bits_above_log2 1 i); cbn; lia.
  - lia.
Qed.
End VmBits.
