(* ===== verification/VmInv.v ===== *)
(** * Page tables and reference counts: the invariant of virtual memory

    A ghost state lists the page directories, the tables hanging off them and the
    entries of the tables; [inv] says that memory realises it and that [mem_map] and
    the swap maps count exactly the references in it.  While a function runs it may
    hold references of its own, [held] and [swheld], and a table may be filled or
    emptied while its directory does not point to it, [unlinked].  A directory whose
    owner ran out of memory, so that it has entries for the page or the table for
    such a case, is [lost]. *)

From S2P Require Import Prelude PageAlloc Vm VmBits.
From Stdlib Require Import ZArith Lia.
From stdpp Require Import base list gmap numbers.
Local Open Scope Z_scope.

Module VmInv.
Import PageAlloc Vm VmBits.

(** ** Entries and the ghost state *)

(** An entry of a page table: a page with flags, or a page on a swap area. *)
Inductive pte := Pg (a f : Z) | Sw (e : Z).

Definition word_of (o : option pte) : Z :=
  match o with
  | None => 0
  | Some (Pg a f) => a + f
  | Some (Sw e) => e
  end.
Definition at_page (a : Z) (p : pte) : bool := match p with Pg b _ => b =? a | Sw _ => false end.
Definition at_slot (e : Z) (p : pte) : bool := match p with Pg _ _ => false | Sw e' => e' =? e end.

Record ghost := Ghost {
  dirs : gset Z;                       (* page directories *)
  tabs : gmap (Z * Z) Z;               (* the table of a directory entry *)
  ents : gmap (Z * Z * Z) pte;         (* directory, index, index in the table *)
  held : list Z;
  swheld : list Z;
  unlinked : gset (Z * Z);
  lost : gset Z
}.
Definition set_ents (x : gmap (Z * Z * Z) pte) (G : ghost) : ghost :=
  Ghost (dirs G) (tabs G) x (held G) (swheld G) (unlinked G) (lost G).
Definition set_held (x : list Z) (G : ghost) : ghost :=
  Ghost (dirs G) (tabs G) (ents G) x (swheld G) (unlinked G) (lost G).
Definition set_swheld (x : list Z) (G : ghost) : ghost :=
  Ghost (dirs G) (tabs G) (ents G) (held G) x (unlinked G) (lost G).
Definition set_tabs (x : gmap (Z * Z) Z) (u : gset (Z * Z)) (G : ghost) : ghost :=
  Ghost (dirs G) x (ents G) (held G) (swheld G) u (lost G).
Definition set_dirs (x : gset Z) (G : ghost) : ghost :=
  Ghost x (tabs G) (ents G) (held G) (swheld G) (unlinked G) (lost G).
Definition set_lost (x : gset Z) (G : ghost) : ghost :=
  Ghost (dirs G) (tabs G) (ents G) (held G) (swheld G) (unlinked G) x.

Definition occ (a : Z) (l : list Z) : Z := lsum (fun b => if b =? a then 1 else 0) l.

Arguments occ : simpl never.

Definition refs (s : vm) (G : ghost) (a : Z) : Z :=
  tally (at_page a) (ents G) + tally (fun t => t =? a) (tabs G) + tally (fun t => cr3 t =? a) (tasks s) + occ a (held G).
Definition srefs (G : ghost) (e : Z) : Z := tally (at_slot e) (ents G) + occ e (swheld G).

(** ** Pages *)

Definition cnt (s : vm) (a : Z) : Z := count (pages s) a.
Definition is_res (s : vm) (a : Z) : bool := has (cnt s a) MAP_PAGE_RESERVED.
Definition in_use (s : vm) (a : Z) : Prop := is_page (pages s) a /\ cnt s a <> 0 /\ is_res s a = false.
Definition kernel_page (s : vm) (a : Z) : Prop := is_page (pages s) a /\ is_res s a = true.

(** Word [i] of the page [a]. *)
Definition wd (s : vm) (a i : Z) : Z := default 0 (f ← frames s !! a; get f i).

(** An entry of a directory for the kernel: nothing, or a table of the kernel. *)
Definition kent (s : vm) (w : Z) : Prop :=
  w = 0 \/ exists t f, w = t + f /\ kernel_page s t /\ 0 <= f < 4096 /\ has f PAGE_PRESENT = true.

(** ** The parts of the invariant *)

Record mem_inv (ly : layout) (s : vm) : Prop := {
  m_ok : mem_ok (pages s);
  m_frames a : is_page (pages s) a -> exists f, frames s !! a = Some f /\ length f = 1024%nat;
  m_swapper : kernel_page s (swapper_pg_dir ly);
  m_badt : kernel_page s (empty_bad_page_table ly);
  m_bad : kernel_page s (empty_bad_page ly);
  m_zero : kernel_page s (empty_zero_page ly);
  m_distinct : NoDup [swapper_pg_dir ly; empty_bad_page_table ly; empty_bad_page ly; empty_zero_page ly];
  m_zeros : frames s !! empty_zero_page ly = Some zeros;
  m_kent i : 0 <= i < 1024 -> kent s (wd s (swapper_pg_dir ly) i);
  m_null : exists c, get (mem_map (pages s)) 0 = Some c /\ has c MAP_PAGE_RESERVED = true
}.

(** Directories and tables. *)
Record shape (ly : layout) (s : vm) (G : ghost) : Prop := {
  h_dirs d : d ∈ dirs G -> in_use s d;
  h_users d : d ∈ dirs G -> d ∈ held G \/ exists k t, tasks s !! k = Some t /\ cr3 t = d;
  h_tasks k t : tasks s !! k = Some t -> cr3 t ∈ dirs G \/ cr3 t = swapper_pg_dir ly;
  h_ntasks : (size (tasks s) <= 128)%nat;
  h_place k t : tasks s !! k = Some t -> 0 <= swap_table (swp t) /\ 0 <= swap_page (swp t);
  h_low d i : d ∈ dirs G -> 0 <= i < 768 ->
    wd s d i = (if decide ((d, i) ∈ unlinked G) then 0 else from_option (fun t => t + PAGE_TABLE) 0 (tabs G !! (d, i)))
    \/ d ∈ lost G /\ tabs G !! (d, i) = None /\ wd s d i = empty_bad_page_table ly + PAGE_TABLE;
  h_high d i : d ∈ dirs G -> 768 <= i < 1024 -> kent s (wd s d i);
  h_tabs d i t : tabs G !! (d, i) = Some t -> d ∈ dirs G /\ 0 <= i < 768 /\ in_use s t /\ (t ∉ dirs G);
  h_inj x y t : tabs G !! x = Some t -> tabs G !! y = Some t -> x = y;
  h_ents d i j p : ents G !! (d, i, j) = Some p -> is_Some (tabs G !! (d, i)) /\ 0 <= j < 1024;
  h_words d i t j : tabs G !! (d, i) = Some t -> 0 <= j < 1024 -> wd s t j = word_of (ents G !! (d, i, j))
}.

(** Entries for pages. *)
Record page_ent (ly : layout) (s : vm) (ds : gset Z) (ts : gmap (Z * Z) Z) (a f : Z) : Prop := {
  e_page : is_page (pages s) a;
  e_flags : 0 <= f < 4096;
  e_present : has f PAGE_PRESENT = true;
  e_res : is_res s a = true -> a = empty_bad_page ly \/ a = empty_zero_page ly /\ has f PAGE_RW = false /\ has f PAGE_DIRTY = false;
  e_data : is_res s a = false -> (a ∉ ds) /\ forall x, ts !! x <> Some a;
  e_rw : is_res s a = false -> has f PAGE_COW = true /\ (has f PAGE_RW = true -> cnt s a = 1);
  e_clean : is_res s a = false -> has f PAGE_DIRTY = false -> frames s !! a = Some zeros
}.

(** A page of a swap area that is in use. *)
Definition slot (s : vm) (e : Z) : Prop :=
  exists ty off p, e = SWP_ENTRY ty off /\ get (infos s) ty = Some p /\ 1 <= off < max p /\ has (flags p) SWP_USED = true.

Record entries (ly : layout) (s : vm) (G : ghost) : Prop := {
  n_page x a f : ents G !! x = Some (Pg a f) -> page_ent ly s (dirs G) (tabs G) a f;
  n_lost d i j f : ents G !! (d, i, j) = Some (Pg (empty_bad_page ly) f) -> d ∈ lost G;
  n_swap x e : ents G !! x = Some (Sw e) -> slot s e /\ exists f, disk s !! e = Some f /\ length f = 1024%nat;
  n_same d i j d' i' j' a f f' : ents G !! (d, i, j) = Some (Pg a f) -> ents G !! (d', i', j') = Some (Pg a f') ->
    is_res s a = false -> i = i' /\ j = j';
  n_same_swap d i j d' i' j' e : ents G !! (d, i, j) = Some (Sw e) -> ents G !! (d', i', j') = Some (Sw e) -> i = i' /\ j = j'
}.

Record counted (s : vm) (G : ghost) : Prop := {
  c_refs a : is_page (pages s) a -> is_res s a = false -> cnt s a = refs s G a;
  c_held a : a ∈ held G -> is_page (pages s) a /\ is_res s a = false;
  c_few : (length (held G) <= 16 /\ length (swheld G) <= 16)%nat
}.

(** The swap areas. *)
Record info_ok (G : ghost) (ty : Z) (p : swap_info) : Prop := {
  f_len : Z.of_nat (length (swap_map p)) = max p;
  f_max : 1 <= max p <= 2 ^ 15;
  f_bits : 0 <= lowest_bit p <= max p /\ highest_bit p < max p;
  f_first : get (swap_map p) 0 <> Some 0;
  f_map off c : get (swap_map p) off = Some c -> c = srefs G (SWP_ENTRY ty off) \/ c = 128 /\ srefs G (SWP_ENTRY ty off) = 0
}.
Record swap_inv (s : vm) (G : ghost) : Prop := {
  w_files : (length (infos s) <= 8)%nat;
  w_info ty p : get (infos s) ty = Some p -> info_ok G ty p;
  w_held e : e ∈ swheld G -> slot s e;
  w_task : 0 <= swap_task s
}.

Record inv (ly : layout) (s : vm) (G : ghost) : Prop := {
  i_mem : mem_inv ly s;
  i_shape : shape ly s G;
  i_entries : entries ly s G;
  i_counted : counted s G;
  i_swap : swap_inv s G
}.

(** ** What the processes see *)

Definition seen (s : vm) (G : ghost) (x : Z * Z * Z) : list Z :=
  match ents G !! x with
  | None => zeros
  | Some (Pg a _) => default [] (frames s !! a)
  | Some (Sw e) => default [] (disk s !! e)
  end.

(** ** Reading and writing *)

Definition upd (a i v : Z) (s : vm) : vm :=
  set_frames (<[a := <[Z.to_nat i := v]> (default [] (frames s !! a))]> (frames s)) s.

Lemma page_read s a f : mem_ok (pages s) -> is_page (pages s) a -> cnt s a <> 0 -> frames s !! a = Some f -> page a s = Some f.
Proof.
  intros (fl & sl & L) Hp Hc Hf. unfold page, users. rewrite (lists_in_map _ _ _ _ L Hp). cbn [mbind option_bind].
  unfold cnt in Hc. destruct (Z.eqb_spec (count (pages s) a) 0); [done|]. done.
Qed.

Lemma users_page s a f : mem_ok (pages s) -> is_page (pages s) a -> 0 <= f < 4096 -> users (a + f) s = Some (cnt s a).
Proof.
  intros (fl & sl & L) Hp Hf. unfold users. rewrite MAP_NR_flags by (try apply Hp; done). by rewrite (lists_in_map _ _ _ _ L Hp).
Qed.

Lemma users_page0 s a : mem_ok (pages s) -> is_page (pages s) a -> users a s = Some (cnt s a).
Proof. intros M Hp. rewrite <- (Z.add_0_r a) at 1. by apply users_page. Qed.

Lemma wd_upd s a i v b j : 0 <= i -> (exists f, frames s !! a = Some f /\ (Z.to_nat i < length f)%nat) ->
  wd (upd a i v s) b j = if bool_decide (b = a /\ j = i) then v else wd s b j.
Proof.
  intros Hi (f & Hf & Hl). unfold wd, upd. cbn. rewrite Hf. cbn. destruct (decide (b = a)) as [-> |N].
  - rewrite lookup_insert_eq, Hf. cbn. case_bool_decide as B.
    + destruct B as [_ ->]. unfold get. destruct (Z.ltb_spec i 0); [lia|]. by rewrite list_lookup_insert_eq.
    + unfold get. destruct (Z.ltb_spec j 0); [done|]. rewrite list_lookup_insert_ne; [done|]. intros E. apply B. split; [done|]. lia.
  - rewrite lookup_insert_ne by done. rewrite bool_decide_eq_false_2; [done|]. tauto.
Qed.

Section Access.
Context (ly : layout) (s : vm) (M : mem_inv ly s).

Lemma in_use_page a : in_use s a -> exists f, page a s = Some f /\ frames s !! a = Some f /\ length f = 1024%nat.
Proof.
  intros (Hp & Hc & _). destruct (m_frames _ _ M a Hp) as (f & Hf & Hl). exists f. split; [|done].
  apply page_read; try done. apply M.
Qed.

Lemma kernel_page_page a : kernel_page s a -> exists f, page a s = Some f /\ frames s !! a = Some f /\ length f = 1024%nat.
Proof.
  intros (Hp & Hr). destruct (m_frames _ _ M a Hp) as (f & Hf & Hl). exists f. split; [|done].
  apply page_read; try done; [apply M|]. intros E. unfold is_res in Hr. by rewrite E in Hr.
Qed.

Definition readable (a : Z) : Prop := in_use s a \/ kernel_page s a.

Lemma readable_page a : readable a -> exists f, page a s = Some f /\ frames s !! a = Some f /\ length f = 1024%nat.
Proof. intros [H|H]; [by apply in_use_page|by apply kernel_page_page]. Qed.

Lemma rd_ok a i : readable a -> 0 <= i < 1024 -> rd a i s = Some (wd s a i).
Proof.
  intros H Hi. destruct (readable_page a H) as (f & Hp & Hf & Hl). unfold rd, wd. rewrite Hp, Hf. cbn [mbind option_bind].
  destruct (get_in_range f i) as [x Hx]; [lia|]. by rewrite Hx.
Qed.

Lemma wr_ok a i v : readable a -> 0 <= i < 1024 -> wr a i v s = Some (upd a i v s).
Proof.
  intros H Hi. destruct (readable_page a H) as (f & Hp & Hf & Hl). unfold wr, upd. rewrite Hp, Hf. cbn [mbind option_bind].
  rewrite put_in_range by lia. done.
Qed.

Lemma wd_upd_ok a i v b j : readable a -> 0 <= i < 1024 -> wd (upd a i v s) b j = if bool_decide (b = a /\ j = i) then v else wd s b j.
Proof. intros H Hi. destruct (readable_page a H) as (f & Hp & Hf & Hl). apply wd_upd; [lia|]. exists f. split; [done|lia]. Qed.

Lemma frames_upd_ok a i v b : readable a -> 0 <= i < 1024 ->
  (forall f, is_page (pages s) b -> frames s !! b = Some f -> exists f', frames (upd a i v s) !! b = Some f' /\ length f' = length f)
  /\ (b <> a -> frames (upd a i v s) !! b = frames s !! b).
Proof.
  intros H Hi. unfold upd. cbn. split.
  - intros f Hp Hf. destruct (decide (b = a)) as [-> |N].
    + rewrite lookup_insert_eq, Hf. eexists. split; [done|]. cbn. by rewrite length_insert.
    + rewrite lookup_insert_ne by done. by exists f.
  - intros N. by rewrite lookup_insert_ne.
Qed.
End Access.

(** ** Changing an entry of a table *)

Definition alter_ent (x : Z * Z * Z) (o : option pte) (m : gmap (Z * Z * Z) pte) : gmap (Z * Z * Z) pte :=
  partial_alter (fun _ => o) x m.

Lemma alter_eq x o m : alter_ent x o m !! x = o.
Proof. apply lookup_partial_alter_eq. Qed.
Lemma alter_ne x y o m : x <> y -> alter_ent x o m !! y = m !! y.
Proof. apply lookup_partial_alter_ne. Qed.

Definition tick (b : bool) : Z := if b then 1 else 0.

Lemma tally_alter f x o m : tally f (alter_ent x o m) = tally f m - tick (from_option f false (m !! x)) + tick (from_option f false o).
Proof.
  unfold alter_ent. destruct o as [p|]; cbn.
  - change (partial_alter (fun _ => Some p) x m) with (<[x := p]> m). destruct (m !! x) as [q|] eqn:E; cbn.
    + by rewrite (tally_update f m x q p E).
    + rewrite tally_insert by done. unfold tick. lia.
  - change (partial_alter (fun _ => None) x m) with (delete x m). destruct (m !! x) as [q|] eqn:E; cbn.
    + rewrite (tally_delete f m x q E). unfold tick. lia.
    + rewrite delete_id by done. lia.
Qed.

Lemma refs_cons a b l : occ a (b :: l) = tick (b =? a) + occ a l.
Proof. done. Qed.

(** The state after a word of the table [t] was written sees the same counts, so that
    only the words and the changed entry matter. *)
Section Entry.
Context (ly : layout) (s : vm) (G : ghost) (I : inv ly s G).
Context (d i j t : Z) (Ht : tabs G !! (d, i) = Some t) (Hj : 0 <= j < 1024).

Lemma table_use : in_use s t.
Proof. by apply (h_tabs _ _ _ (i_shape _ _ _ I) d i t). Qed.

Lemma table_not_kernel a : kernel_page s a -> t <> a.
Proof. intros [_ H] E. rewrite <- E in H. destruct table_use as (_ & _ & R). congruence. Qed.

Lemma table_no_dir : t ∉ dirs G.
Proof. by apply (h_tabs _ _ _ (i_shape _ _ _ I) d i t). Qed.

Lemma rd_entry : rd t j s = Some (word_of (ents G !! (d, i, j))).
Proof.
  rewrite (rd_ok ly s (i_mem _ _ _ I)); [|left; apply table_use|done]. by rewrite (h_words _ _ _ (i_shape _ _ _ I) d i t j).
Qed.

Lemma wr_entry v : wr t j v s = Some (upd t j v s).
Proof. apply (wr_ok ly s (i_mem _ _ _ I)); [left; apply table_use|done]. Qed.

Lemma wd_table v b k : wd (upd t j v s) b k = if bool_decide (b = t /\ k = j) then v else wd s b k.
Proof. apply (wd_upd_ok ly s (i_mem _ _ _ I)); [left; apply table_use|done]. Qed.

Lemma wd_table_ne v b k : b <> t -> wd (upd t j v s) b k = wd s b k.
Proof. intros N. rewrite wd_table, bool_decide_eq_false_2; [done|]. tauto. Qed.

Lemma mem_inv_table v : mem_inv ly (upd t j v s).
Proof.
  destruct (i_mem _ _ _ I) as [M1 M2 M3 M4 M5 M6 M7 M8 M9 M10]. split; try done.
  - intros a Ha. destruct (M2 a Ha) as (f & Hf & Hl).
    destruct (frames_upd_ok s t j v a ltac:(left; apply table_use) Hj) as [F _]. destruct (F f Ha Hf) as (f' & Hf' & Hl').
    exists f'. split; [done|]. congruence.
  - assert (N : empty_zero_page ly <> t) by (apply not_eq_sym, table_not_kernel, M6).
    unfold upd. cbn. rewrite lookup_insert_ne; [done|]. congruence.
  - intros k Hk. rewrite wd_table_ne; [apply M9; done|]. apply not_eq_sym, table_not_kernel, M3.
Qed.

(** Data pages are not tables. *)
Lemma data_frame a v : (is_res s a = true \/ forall x, tabs G !! x <> Some a) -> frames (upd t j v s) !! a = frames s !! a.
Proof.
  intros H. unfold upd. cbn. rewrite lookup_insert_ne; [done|]. intros E. rewrite <- E in H.
  destruct H as [H|H]; [|by apply (H (d, i))]. destruct table_use as (_ & _ & R). congruence.
Qed.

Lemma shape_entry o : shape ly (upd t j (word_of o) s) (set_ents (alter_ent (d, i, j) o (ents G)) G).
Proof.
  destruct (i_shape _ _ _ I) as [H1 H2 H3 H4 H4' H5 H6 H7 H8 H9 H10]. split; try done.
  - intros b k Hb Hk. cbn in *. rewrite wd_table_ne; [by apply H5|]. intros E. rewrite E in Hb. by apply table_no_dir.
  - intros b k Hb Hk. cbn in *. rewrite wd_table_ne; [by apply H6|]. intros E. rewrite E in Hb. by apply table_no_dir.
  - intros d' i' j' p. cbn. destruct (decide ((d, i, j) = (d', i', j'))) as [[= <- <- <-]|N]; [|rewrite alter_ne by done; apply H9].
    intros _. by rewrite Ht.
  - intros d' i' t' j' Ht' Hj'. cbn in *. rewrite wd_table. case_bool_decide as B.
    + destruct B as [B ->]. rewrite B in Ht'. assert (E := H8 _ _ _ Ht Ht'). injection E as <- <-. by rewrite alter_eq.
    + rewrite alter_ne; [by apply H10|]. intros [= <- <- <-]. apply B. split; [congruence|done].
Qed.

Lemma page_ent_table v a f : page_ent ly s (dirs G) (tabs G) a f -> page_ent ly (upd t j v s) (dirs G) (tabs G) a f.
Proof.
  intros [E1 E2 E3 E4 E5 E6 E7]. split; try done. intros R D. rewrite data_frame; [by apply E7|]. right. apply E5, R.
Qed.

(** The condition for a new entry: what it refers to is good, and referred to from
    the same address elsewhere. *)
Definition fits (lost' : gset Z) (o : option pte) : Prop :=
  match o with
  | None => True
  | Some (Pg a f) => page_ent ly s (dirs G) (tabs G) a f /\ (a = empty_bad_page ly -> d ∈ lost')
      /\ (is_res s a = false -> forall d' i' j' f', ents G !! (d', i', j') = Some (Pg a f') -> (d', i', j') <> (d, i, j) -> i' = i /\ j' = j)
  | Some (Sw e) => slot s e /\ (exists f, disk s !! e = Some f /\ length f = 1024%nat)
      /\ forall d' i' j', ents G !! (d', i', j') = Some (Sw e) -> (d', i', j') <> (d, i, j) -> i' = i /\ j' = j
  end.

Lemma entries_entry o lost' K' KS' : lost G ⊆ lost' -> fits lost' o ->
  entries ly (upd t j (word_of o) s) (Ghost (dirs G) (tabs G) (alter_ent (d, i, j) o (ents G)) K' KS' (unlinked G) lost').
Proof.
  intros Hl F. destruct (i_entries _ _ _ I) as [N1 N2 N3 N4 N5].
  assert (Look : forall x p, alter_ent (d, i, j) o (ents G) !! x = Some p -> x = (d, i, j) /\ o = Some p \/ x <> (d, i, j) /\ ents G !! x = Some p).
  { intros x p H. destruct (decide (x = (d, i, j))) as [-> |Nx]; [left; by rewrite alter_eq in H|right]. split; [done|].
    by rewrite alter_ne in H by congruence. }
  split; cbn.
  - intros x a f H. apply page_ent_table. destruct (Look _ _ H) as [[_ ->]|[_ H']]; [apply F|by eapply N1].
  - intros d' i' j' f H. destruct (Look _ _ H) as [[[= -> -> ->] ->]|[_ H']]; [by apply F|]. apply Hl. by eapply N2.
  - intros x e H. destruct (Look _ _ H) as [[_ ->]|[_ H']]; [split; apply F|by eapply N3].
  - intros d1 i1 j1 d2 i2 j2 a f f' H1 H2 R.
    destruct (Look _ _ H1) as [[[= -> -> ->] ->]|[Nx1 H1']], (Look _ _ H2) as [[[= -> -> ->] E2]|[Nx2 H2']]; [done| | |by eapply N4].
    + destruct F as (_ & _ & F). destruct (F R _ _ _ _ H2' Nx2). done.
    + subst o. destruct F as (_ & _ & F). by destruct (F R _ _ _ _ H1' Nx1).
  - intros d1 i1 j1 d2 i2 j2 e H1 H2.
    destruct (Look _ _ H1) as [[[= -> -> ->] ->]|[Nx1 H1']], (Look _ _ H2) as [[[= -> -> ->] E2]|[Nx2 H2']]; [done| | |by eapply N5].
    + destruct F as (_ & _ & F). destruct (F _ _ _ H2' Nx2). done.
    + subst o. destruct F as (_ & _ & F). by destruct (F _ _ _ H1' Nx1).
Qed.

Lemma inv_entry o lost' K' KS' :
  let G' := Ghost (dirs G) (tabs G) (alter_ent (d, i, j) o (ents G)) K' KS' (unlinked G) lost' in
  lost G ⊆ lost' -> fits lost' o ->
  (forall a, is_page (pages s) a -> is_res s a = false -> refs s G' a = refs s G a) -> (forall e, srefs G' e = srefs G e) ->
  (forall a, a ∈ K' -> is_page (pages s) a /\ is_res s a = false) -> (forall a, a ∈ dirs G -> a ∈ held G -> a ∈ K') ->
  (forall e, e ∈ KS' -> slot s e) -> (length K' <= 16 /\ length KS' <= 16)%nat ->
  inv ly (upd t j (word_of o) s) G'.
Proof.
  intros G' Hl F Hr Hs Hk Hd Hks Hf. split.
  - apply mem_inv_table.
  - destruct (shape_entry o) as [H1 H2 H3 H4 H4' H5 H6 H7 H8 H9 H10]. split; try done.
    + intros a Ha. destruct (H2 a Ha) as [H|H]; [left; by apply Hd|by right].
    + intros a k Ha Hi. destruct (H5 a k Ha Hi) as [H|(H & H')]; [by left|right]. split; [by apply Hl|done].
  - by apply entries_entry.
  - destruct (i_counted _ _ _ I) as [C1 C2 C3]. split; [|done|done].
    intros a Ha R. change (cnt s a = refs s G' a). rewrite Hr by done. by apply C1.
  - destruct (i_swap _ _ _ I) as [W1 W2 W3 W4]. split; [done| |done|done].
    intros ty p Hp. destruct (W2 ty p Hp) as [F1 F2 F3 F4 F5]. split; try done.
    intros off c Hc. rewrite Hs. by apply F5.
Qed.

(** The references an entry holds. *)
Definition pages_of (o : option pte) : list Z :=
  match o with Some (Pg a _) => if is_res s a then [] else [a] | _ => [] end.
Definition slots_of (o : option pte) : list Z := match o with Some (Sw e) => [e] | _ => [] end.

Lemma occ_pages a o : is_res s a = false -> occ a (pages_of o) = tick (from_option (at_page a) false o).
Proof.
  intros R. destruct o as [[b f|e]|]; cbn; try done. destruct (is_res s b) eqn:Rb; cbn.
  - destruct (Z.eqb_spec b a); [congruence|done].
  - rewrite refs_cons. unfold tick. change (occ a []) with 0. lia.
Qed.
Lemma occ_slots e o : occ e (slots_of o) = tick (from_option (at_slot e) false o).
Proof. destruct o as [[b f|e']|]; cbn; try done. rewrite refs_cons. unfold tick. change (occ e []) with 0. lia. Qed.

Lemma occ_app a l l' : occ a (l ++ l') = occ a l + occ a l'.
Proof. apply lsum_app. Qed.
Lemma occ_perm a l l' : l ≡ₚ l' -> occ a l = occ a l'.
Proof. induction 1 as [|x l l' _ IH|x y l|l1 l2 l3 _ IH1 _ IH2]; rewrite ?refs_cons; lia. Qed.

(** One entry for another, the references changing hands. *)
Lemma entry_replaced o o' lost' K' KS' : ents G !! (d, i, j) = o -> lost G ⊆ lost' -> fits lost' o' ->
  pages_of o ++ held G ≡ₚ pages_of o' ++ K' -> slots_of o ++ swheld G ≡ₚ slots_of o' ++ KS' ->
  (length K' <= 16 /\ length KS' <= 16)%nat ->
  inv ly (upd t j (word_of o') s) (Ghost (dirs G) (tabs G) (alter_ent (d, i, j) o' (ents G)) K' KS' (unlinked G) lost').
Proof.
  intros Ho Hl F Pk Ps Hf. destruct (i_counted _ _ _ I) as [C1 C2 C3]. assert (E := i_entries _ _ _ I). apply inv_entry; try done.
  - intros a Ha R. unfold refs. cbn. rewrite tally_alter, Ho. apply (occ_perm a) in Pk. rewrite !occ_app, !occ_pages in Pk by done.
    lia.
  - intros e. unfold srefs. cbn. rewrite tally_alter, Ho. apply (occ_perm e) in Ps. rewrite !occ_app, !occ_slots in Ps. lia.
  - intros a Ha. assert (Hin : a ∈ pages_of o ++ held G) by (rewrite Pk, elem_of_app; by right).
    apply elem_of_app in Hin as [Hin|Hin]; [|by apply C2]. destruct o as [[b f|]|]; cbn in Hin; try by apply elem_of_nil in Hin.
    destruct (is_res s b) eqn:Rb; [by apply elem_of_nil in Hin|]. apply list_elem_of_singleton in Hin as ->. split; [|done].
    by apply (n_page _ _ _ E _ _ _ Ho).
  - intros a Ha Hin. assert (Hin' : a ∈ pages_of o' ++ K') by (rewrite <- Pk, elem_of_app; by right).
    apply elem_of_app in Hin' as [Hin'|]; [|done]. destruct o' as [[b f|]|]; cbn in Hin'; try by apply elem_of_nil in Hin'.
    destruct (is_res s b) eqn:Rb; [by apply elem_of_nil in Hin'|]. apply list_elem_of_singleton in Hin' as ->.
    destruct F as [F _]. by destruct (e_data _ _ _ _ _ _ F Rb).
  - intros e He. assert (Hin : e ∈ slots_of o ++ swheld G) by (rewrite Ps, elem_of_app; by right).
    apply elem_of_app in Hin as [Hin|Hin]; [|by apply (w_held _ _ (i_swap _ _ _ I))].
    destruct o as [[b f|e']|]; cbn in Hin; try by apply elem_of_nil in Hin. apply list_elem_of_singleton in Hin as ->.
    by apply (n_swap _ _ _ E _ _ Ho).
Qed.

(** Taking an entry out. *)
Lemma inv_take o : ents G !! (d, i, j) = o -> (length (held G) < 16 /\ length (swheld G) < 16)%nat ->
  inv ly (upd t j 0 s) (Ghost (dirs G) (tabs G) (alter_ent (d, i, j) None (ents G)) (pages_of o ++ held G) (slots_of o ++ swheld G) (unlinked G) (lost G)).
Proof.
  intros Ho [L1 L2]. apply (entry_replaced o None); try done. rewrite !length_app.
  split; destruct o as [[]|]; cbn; try lia. destruct (is_res _ _); cbn; lia.
Qed.
End Entry.
End VmInv.
