(* ===== verification/VmCount.v ===== *)
(** * Steps on [mem_map]: taking, sharing and giving back pages *)

From S2P Require Import Prelude PageAlloc Vm VmBits VmInv.
From Stdlib Require Import ZArith Lia.
From stdpp Require Import base list gmap numbers.
Local Open Scope Z_scope.

Module VmCount.
Import PageAlloc Vm VmBits VmInv.

Lemma res_spec c : 0 <= c < 2 ^ 16 -> has c MAP_PAGE_RESERVED = (2 ^ 15 <=? c).
Proof.
  intros Hc. unfold has, MAP_PAGE_RESERVED. rewrite Z.shiftl_1_l. change (2 ^ 15) with 32768.
  destruct (Z.leb_spec 32768 c).
  - destruct (Z.eqb_spec (Z.land c 32768) 0) as [E|]; [|done]. exfalso. apply (f_equal (fun z => Z.testbit z 15)) in E.
    rewrite Z.land_spec, Z.bits_0 in E. change 32768 with (2 ^ 15) in E. rewrite Z.pow2_bits_true, andb_true_r in E by lia.
    rewrite Z.testbit_odd, Z.shiftr_div_pow2 in E by lia. change (2 ^ 15) with 32768 in E.
    replace (c / 32768) with 1 in E; [done|]. apply (Z.div_unique c 32768 1 (c - 32768)); lia.
  - destruct (Z.eqb_spec (Z.land c 32768) 0) as [|N]; [done|]. exfalso. apply N. apply Z.bits_inj'. intros i Hi.
    rewrite Z.land_spec, Z.bits_0. change 32768 with (2 ^ 15). destruct (decide (i = 15)) as [-> |].
    + replace (Z.testbit c 15) with false; [done|]. symmetry. destruct (decide (c = 0)) as [-> |]; [done|].
      apply Z.bits_above_log2; [lia|]. apply Z.log2_lt_pow2; lia.
    + rewrite Z.pow2_bits_false by lia. apply andb_false_r.
Qed.

Lemma cnt_range s a : mem_ok (pages s) -> is_page (pages s) a -> 0 <= cnt s a < 2 ^ 16.
Proof. intros (fl & sl & L) Hp. eapply (l_range _ _ _ L), (lists_in_map _ _ _ _ L Hp). Qed.

Lemma nonres_lt s a : mem_ok (pages s) -> is_page (pages s) a -> is_res s a = false -> 0 <= cnt s a < 2 ^ 15.
Proof.
  intros M Hp R. assert (C := cnt_range s a M Hp). unfold is_res in R. rewrite res_spec in R by done. apply Z.leb_gt in R. lia.
Qed.

Lemma page_align s a : is_page (pages s) a -> a mod 4096 = 0.
Proof. by intros [_ H]. Qed.

Lemma page_range s a : mem_ok (pages s) -> is_page (pages s) a -> 0 < a < 2 ^ 32.
Proof. intros (fl & sl & L) [H _]. destruct (l_high _ _ _ L). lia. Qed.

(** ** A change of one count *)

Section Count.
Context (ly : layout) (s : vm) (G : ghost) (I : inv ly s G).
Context (m' : mem) (a : Z).
Context (Mok : mem_ok m') (Hhigh : high_memory m' = high_memory (pages s)) (Ha : is_page (pages s) a).
Context (Ho : forall q, q mod 4096 = 0 -> q <> a -> count m' q = count (pages s) q).

Let s' := set_pages m' s.

Lemma count_is_page' b : is_page m' b <-> is_page (pages s) b.
Proof. unfold is_page. by rewrite Hhigh. Qed.

Lemma cnt_other b : is_page (pages s) b -> b <> a -> cnt s' b = cnt s b.
Proof. intros [_ Hb] N. by apply Ho. Qed.

Lemma res_same b : is_res s a = is_res s' a -> is_page (pages s) b -> is_res s' b = is_res s b.
Proof. intros E Hb. destruct (decide (b = a)) as [E'|N]; [by rewrite E'|]. unfold is_res. by rewrite cnt_other. Qed.

Lemma kent_same w : is_res s a = is_res s' a -> kent s w -> kent s' w.
Proof.
  intros E [-> |(t & f & -> & [Hp Hr] & H)]; [by left|right]. exists t, f. split; [done|]. split; [|done].
  split; [by apply count_is_page'|]. by rewrite res_same.
Qed.

Lemma kernel_same b : is_res s a = is_res s' a -> kernel_page s b -> kernel_page s' b.
Proof. intros E [Hp Hr]. split; [by apply count_is_page'|]. by rewrite res_same. Qed.

Lemma mem_inv_count : is_res s a = is_res s' a -> mem_inv ly s'.
Proof.
  intros E. destruct (i_mem _ _ _ I) as [M1 M2 M3 M4 M5 M6 M7 M8 M9 M10].
  split; [done| |by apply kernel_same..|done|done| |].
  - intros b Hb. apply M2. by apply count_is_page'.
  - intros k Hk. apply kent_same; [done|]. by apply M9.
  - destruct M10 as (c & Hc & Rc). assert (N : 0 <> a) by (destruct Ha; lia). specialize (Ho 0 eq_refl N).
    unfold count in Ho. change (MAP_NR 0) with 0 in Ho. rewrite Hc in Ho. change (default 0 (Some c)) with c in Ho. exists c. split; [|done].
    change (mem_map (pages s')) with (mem_map m'). destruct (get (mem_map m') 0) as [c'|]; cbn [default from_option] in Ho; [by rewrite <- Ho|].
    by rewrite <- Ho in Rc.
Qed.

(** [K'] is [held] with the change of the count. *)
Lemma inv_count δ K' : is_res s a = false -> is_res s' a = false -> cnt s' a = cnt s a + δ ->
  (forall b, occ b K' = occ b (held G) + if b =? a then δ else 0) ->
  (forall b, b ∈ K' -> is_page (pages s) b /\ is_res s b = false) -> (length K' <= 16)%nat ->
  (forall d, d ∈ dirs G -> d ∈ held G -> d ∈ K' \/ exists k t, tasks s !! k = Some t /\ cr3 t = d) ->
  (forall x f, ents G !! x = Some (Pg a f) -> has f PAGE_RW = true -> δ = 0 \/ cnt s a <> 1) ->
  inv ly s' (set_held K' G).
Proof.
  intros R R' Hc Hk Hkp Hkl Hd Hrw. assert (E : is_res s a = is_res s' a) by congruence.
  assert (Cr : forall b, is_page (pages s) b -> is_res s b = false -> cnt s' b = refs s' (set_held K' G) b).
  { intros b Hb Rb. unfold refs. cbn. rewrite Hk. assert (C := c_refs _ _ (i_counted _ _ _ I) b Hb Rb). unfold refs in C.
    destruct (Z.eqb_spec b a) as [-> |N]; [rewrite Hc; lia|]. rewrite cnt_other by done. lia. }
  destruct (i_shape _ _ _ I) as [H1 H2 H3 H4 H4' H5 H6 H7 H8 H9 H10].
  assert (Occ : forall b, 0 <= occ b K').
  { intros b. apply lsum_nonneg. intros x _. destruct (x =? b); lia. }
  assert (Use : forall b, in_use s b -> 0 < refs s' (set_held K' G) b -> in_use s' b).
  { intros b (Hp & _ & Rb) Hr. split; [by apply count_is_page'|]. split; [|by rewrite res_same].
    rewrite <- Cr in Hr by done. lia. }
  assert (N0 := @tally_nonneg). split.
  - by apply mem_inv_count.
  - split; try done.
    + intros d Hin. apply Use; [by apply H1|]. unfold refs. cbn.
      assert (P1 := N0 _ _ _ _ (at_page d) (ents G)). assert (P2 := N0 _ _ _ _ (fun t => t =? d) (tabs G)).
      assert (P3 := N0 _ _ _ _ (fun t => cr3 t =? d) (tasks s)). assert (P4 := Occ d).
      assert (X : d ∈ K' \/ exists k t, tasks s !! k = Some t /\ cr3 t = d) by (destruct (H2 d Hin); [by apply Hd|by right]).
      destruct X as [X|(k & t & X1 & X2)].
      * assert (0 < occ d K'); [|lia]. apply list_elem_of_split in X as (l1 & l2 & ->). rewrite occ_app, refs_cons, Z.eqb_refl. unfold tick.
        assert (0 <= occ d l1) by (apply lsum_nonneg; intros x _; destruct (x =? d); lia).
        assert (0 <= occ d l2) by (apply lsum_nonneg; intros x _; destruct (x =? d); lia). lia.
      * assert (0 < tally (fun t => cr3 t =? d) (tasks s)); [|lia]. eapply tally_pos; [exact X1|]. by apply Z.eqb_eq.
    + intros d Hin. destruct (H2 d Hin) as [X|X]; [|by right]. by apply Hd.
    + intros d k Hin Hi. apply kent_same; [done|]. by apply H6.
    + intros d k t Ht. destruct (H7 d k t Ht) as (T1 & T2 & T3 & T4). split; [done|]. split; [done|]. split; [|done].
      apply Use; [done|]. unfold refs. cbn. assert (P1 := N0 _ _ _ _ (at_page t) (ents G)).
      assert (P3 := N0 _ _ _ _ (fun x => cr3 x =? t) (tasks s)). assert (P4 := Occ t).
      assert (0 < tally (fun x => x =? t) (tabs G)); [|lia]. eapply tally_pos; [exact Ht|]. apply Z.eqb_refl.
  - destruct (i_entries _ _ _ I) as [E1 E2 E3 E4 E5]. split; try done.
    + intros x b f Hx. destruct (E1 x b f Hx) as [P1 P2 P3 P4 P5 P6 P7]. assert (Rs := res_same b E P1).
      split; try done; [by apply count_is_page'|by rewrite Rs|by rewrite Rs| |by rewrite Rs].
      rewrite Rs. intros Rb. destruct (P6 Rb) as [Q1 Q2']. split; [done|]. intros Hw. assert (Q2 := Q2' Hw).
      destruct (decide (b = a)) as [-> |N]; [|by rewrite cnt_other]. destruct (Hrw x f Hx Hw) as [-> |]; [lia|done].
    + intros d i j d' i' j' b f f' Hx Hx' Rb. eapply E4; [exact Hx|exact Hx'|]. rewrite <- res_same; [done|done|]. by eapply e_page, E1.
  - destruct (i_counted _ _ _ I) as [C1 C2 C3]. split; cbn.
    + intros b Hb Rb. apply Cr; [by apply count_is_page'|]. rewrite <- res_same; [done|done|]. by apply count_is_page'.
    + intros b Hb. destruct (Hkp b Hb) as [Pb Rb]. split; [by apply count_is_page'|]. by rewrite res_same.
    + split; [done|]. apply C3.
  - destruct (i_swap _ _ _ I) as [W1 W2 W3 W4]. split; [done| |done|done]. intros ty p Hp. destruct (W2 ty p Hp). by split.
Qed.
End Count.

Lemma refs_nonneg a l : 0 <= occ a l.
Proof. apply lsum_nonneg. intros x _. destruct (x =? a); lia. Qed.
Lemma refs_in a l : a ∈ l -> 0 < occ a l.
Proof.
  intros X. apply list_elem_of_split in X as (l1 & l2 & ->). rewrite occ_app, refs_cons, Z.eqb_refl. unfold tick.
  assert (A1 := refs_nonneg a l1). assert (A2 := refs_nonneg a l2). lia.
Qed.
Lemma refs_le a l : occ a l <= Z.of_nat (length l).
Proof. induction l as [|x l IH]; [done|]. rewrite refs_cons. cbn [length]. unfold tick. destruct (x =? a); lia. Qed.

(** ** Giving a page back *)

Section Free.
Context (ly : layout) (s : vm) (G : ghost) (I : inv ly s G).

(** The function's own reference is given back. *)
Lemma inv_free a K : held G = a :: K -> (forall d, d ∈ dirs G -> d = a -> d ∈ K \/ exists k t, tasks s !! k = Some t /\ cr3 t = d) ->
  exists m', free_page a s = Some (set_pages m' s) /\ inv ly (set_pages m' s) (set_held K G)
    /\ (cnt s a = 1 -> cnt (set_pages m' s) a = 0) /\ cnt (set_pages m' s) a = cnt s a - 1
    /\ (forall b, is_page (pages s) b -> is_res (set_pages m' s) b = is_res s b) /\ high_memory m' = high_memory (pages s).
Proof.
  intros Hh Hd. destruct (i_counted _ _ _ I) as [C1 C2 C3]. destruct (C2 a) as [Hp R]; [rewrite Hh; left|].
  assert (M := m_ok _ _ (i_mem _ _ _ I)). assert (Rg := nonres_lt s a M Hp R).
  destruct (free_page_ok (pages s) a M Hp) as (m' & Hm' & Mok & Hh' & Hc & Ho).
  assert (Pos : 0 < cnt s a).
  { rewrite C1 by done. unfold refs. rewrite Hh, refs_cons, Z.eqb_refl. assert (A := refs_nonneg a K).
    assert (P1 := tally_nonneg (at_page a) (ents G)). assert (P2 := tally_nonneg (fun t => t =? a) (tabs G)).
    assert (P3 := tally_nonneg (fun t => cr3 t =? a) (tasks s)). unfold tick. lia. }
  assert (Hc' : cnt (set_pages m' s) a = cnt s a - 1).
  { unfold cnt in *. cbn. rewrite Hc. unfold is_res, cnt in R. rewrite R, orb_false_r. destruct (Z.eqb_spec (count (pages s) a) 0); lia. }
  assert (R' : is_res (set_pages m' s) a = false).
  { unfold is_res. rewrite Hc', res_spec by lia. apply Z.leb_gt. lia. }
  exists m'. unfold Vm.free_page. rewrite Hm'. split; [done|]. split; [|split; [lia|split; [done|split; [|done]]]].
  - apply (inv_count ly s G I m' a Mok Hh' Hp Ho (-1)); try done.
    + intros b. rewrite Hh, refs_cons. unfold tick. rewrite (Z.eqb_sym a b). destruct (b =? a); lia.
    + intros b Hb. apply C2. rewrite Hh. by right.
    + rewrite Hh in C3. cbn in C3. lia.
    + intros d Hin Hhd. rewrite Hh in Hhd. apply elem_of_cons in Hhd as [E|Hhd]; [by apply Hd|by left].
    + intros x f Hx Hw. right. rewrite C1 by done. unfold refs. rewrite Hh, refs_cons, Z.eqb_refl. assert (A := refs_nonneg a K).
      assert (P1 : 0 < tally (at_page a) (ents G)) by (eapply tally_pos; [exact Hx|apply Z.eqb_refl]).
      assert (P2 := tally_nonneg (fun t => t =? a) (tabs G)). assert (P3 := tally_nonneg (fun t => cr3 t =? a) (tasks s)). unfold tick. lia.
  - intros b Hb. apply (res_same s m' a Ho b); [congruence|done].
Qed.

(** Pages of the kernel are not counted. *)
Lemma free_reserved a : kernel_page s a -> exists m', free_page a s = Some (set_pages m' s) /\ set_pages m' s = s.
Proof.
  intros [Hp R]. exists (pages s). assert (M := m_ok _ _ (i_mem _ _ _ I)). unfold Vm.free_page, PageAlloc.free_page.
  destruct M as (fl & sl & L). destruct (Z.ltb_spec a (high_memory (pages s))); [|destruct Hp; lia].
  rewrite (lists_in_map _ _ _ _ L Hp). cbn [mbind option_bind]. unfold is_res, cnt in R. rewrite R. cbn.
  destruct (negb _); split; by destruct s.
Qed.
End Free.

(** ** Taking a free page *)

(** Nothing refers to the page but the function that took it. *)
Record private (s : vm) (G : ghost) (a : Z) : Prop := {
  p_use : in_use s a;
  p_dirs : a ∉ dirs G;
  p_tabs x : tabs G !! x <> Some a;
  p_ents x f : ents G !! x <> Some (Pg a f);
  p_one : cnt s a = 1
}.

Section Alloc.
Context (ly : layout) (s : vm) (G : ghost) (I : inv ly s G).

Lemma free_unused a : is_page (pages s) a -> cnt s a = 0 -> is_res s a = false /\ refs s G a = 0
  /\ (a ∉ dirs G) /\ (forall x, tabs G !! x <> Some a) /\ (forall x f, ents G !! x <> Some (Pg a f)).
Proof.
  intros Hp Hc. assert (R : is_res s a = false) by (unfold is_res; by rewrite Hc).
  destruct (i_shape _ _ _ I) as [H1 H2 H3 H4 H4' H5 H6 H7 H8 H9 H10].
  assert (C := c_refs _ _ (i_counted _ _ _ I) a Hp R). rewrite Hc in C. symmetry in C.
  split; [done|]. split; [done|]. unfold refs in C. assert (A := refs_nonneg a (held G)).
  assert (P1 := tally_nonneg (at_page a) (ents G)). assert (P2 := tally_nonneg (fun t => t =? a) (tabs G)).
  assert (P3 := tally_nonneg (fun t => cr3 t =? a) (tasks s)). split; [|split].
  - intros Hd. by destruct (H1 a Hd) as (_ & X & _).
  - intros x Hx. assert (0 < tally (fun t => t =? a) (tabs G)); [|lia]. eapply tally_pos; [exact Hx|]. apply Z.eqb_refl.
  - intros x f Hx. assert (0 < tally (at_page a) (ents G)); [|lia]. eapply tally_pos; [exact Hx|]. apply Z.eqb_refl.
Qed.

Lemma inv_alloc m' a : mem_ok m' -> high_memory m' = high_memory (pages s) -> is_page (pages s) a -> count (pages s) a = 0 -> count m' a = 1 ->
  (forall q, q mod 4096 = 0 -> q <> a -> count m' q = count (pages s) q) -> (length (held G) < 16)%nat ->
  inv ly (set_pages m' s) (set_held (a :: held G) G) /\ private (set_pages m' s) (set_held (a :: held G) G) a.
Proof.
  intros Mok Hh Hp H0 H1 Ho Hl. destruct (free_unused a Hp H0) as (R & Hr & Hd & Ht & He).
  assert (R' : is_res (set_pages m' s) a = false) by (unfold is_res, cnt; cbn; by rewrite H1).
  split.
  - apply (inv_count ly s G I m' a Mok Hh Hp Ho 1); try done.
    + unfold cnt. cbn. by rewrite H0, H1.
    + intros b. rewrite refs_cons. unfold tick. rewrite (Z.eqb_sym a b). destruct (b =? a); lia.
    + intros b [-> |Hb]%elem_of_cons; [done|]. by apply (c_held _ _ (i_counted _ _ _ I)).
    + intros d _ Hin. left. by right.
    + intros x f Hx. by destruct (He x f).
  - split; try done. split; [|split; [|done]].
    + unfold is_page in *. cbn. by rewrite Hh.
    + unfold cnt. cbn. rewrite H1. done.
Qed.
End Alloc.

(** ** How many references there can be *)

Section Bound.
Context (ly : layout) (s : vm) (G : ghost) (I : inv ly s G).

Lemma dirs_few : (size (dirs G) <= 144)%nat.
Proof.
  destruct (i_shape _ _ _ I) as [H1 H2 H3 H4 H4' H5 H6 H7 H8 H9 H10].
  set (L := held G ++ ((fun kt => cr3 kt.2) <$> map_to_list (tasks s))).
  assert (Sub : dirs G ⊆ list_to_set L).
  { intros d Hd. apply elem_of_list_to_set, elem_of_app. destruct (H2 d Hd) as [H|(k & t & Hk & <-)]; [by left|right].
    apply list_elem_of_fmap. exists (k, t). split; [done|]. by apply elem_of_map_to_list. }
  apply subseteq_size in Sub. assert (Le : (size (list_to_set L : gset Z) <= length L)%nat).
  { clear. induction L as [|x L IH]; cbn; [done|]. rewrite size_union_alt. assert (Sz := size_singleton (C := gset Z) x).
    assert ((size (list_to_set L ∖ {[x]} : gset Z) <= size (list_to_set L : gset Z))%nat); [|lia]. apply subseteq_size. set_solver. }
  assert (Ln : length L = (length (held G) + size (tasks s))%nat) by (unfold L; by rewrite length_app, length_fmap, length_map_to_list).
  assert (F := c_few _ _ (i_counted _ _ _ I)). lia.
Qed.

Lemma cr3_res a k t : is_res s a = false -> a ∉ dirs G -> tasks s !! k = Some t -> cr3 t <> a.
Proof.
  intros R Hd Hk E. destruct (h_tasks _ _ _ (i_shape _ _ _ I) k t Hk) as [H|H]; [congruence|].
  assert (X := m_swapper _ _ (i_mem _ _ _ I)). destruct X as [_ X]. congruence.
Qed.

Lemma page_refs_few a : is_res s a = false -> a ∉ dirs G -> (forall x, tabs G !! x <> Some a) ->
  refs s G a = tally (at_page a) (ents G) + occ a (held G) /\ refs s G a <= 160.
Proof.
  intros R Hd Ht. assert (E : refs s G a = tally (at_page a) (ents G) + occ a (held G)).
  { unfold refs. rewrite (tally_zero (fun t => t =? a)) by (intros x t Hx; apply Z.eqb_neq; intros ->; by apply (Ht x)).
    rewrite (tally_zero (fun t => cr3 t =? a)) by (intros k t Hk; apply Z.eqb_neq; by eapply cr3_res). lia. }
  split; [done|]. rewrite E. assert (O := refs_le a (held G)). assert (F := c_few _ _ (i_counted _ _ _ I)).
  assert (Few := dirs_few). assert (B : tally (at_page a) (ents G) <= Z.of_nat (size (dirs G))); [|lia].
  destruct (i_entries _ _ _ I) as [E1 E2 E3 E4 E5]. apply (tally_inj _ (fun x : Z * Z * Z => x.1.1)).
  - intros [[d i] j] p Hx _. destruct (h_ents _ _ _ (i_shape _ _ _ I) d i j p Hx) as [[t Htab] _].
    by apply (h_tabs _ _ _ (i_shape _ _ _ I) d i t).
  - intros [[d i] j] [[d' i'] j'] [b f|] [b' f'|] Hx Hx'; cbn; try done. intros ->%Z.eqb_eq ->%Z.eqb_eq ->.
    destruct (E4 _ _ _ _ _ _ _ _ _ Hx Hx' R) as [-> ->]. done.
Qed.

Lemma slot_refs_few e : srefs G e <= 160.
Proof.
  unfold srefs. assert (O := refs_le e (swheld G)). assert (F := c_few _ _ (i_counted _ _ _ I)).
  assert (Few := dirs_few). assert (B : tally (at_slot e) (ents G) <= Z.of_nat (size (dirs G))); [|lia].
  destruct (i_entries _ _ _ I) as [E1 E2 E3 E4 E5]. apply (tally_inj _ (fun x : Z * Z * Z => x.1.1)).
  - intros [[d i] j] p Hx _. destruct (h_ents _ _ _ (i_shape _ _ _ I) d i j p Hx) as [[t Htab] _].
    by apply (h_tabs _ _ _ (i_shape _ _ _ I) d i t).
  - intros [[d i] j] [[d' i'] j'] [b f|a] [b' f'|a'] Hx Hx'; cbn; try done. intros ->%Z.eqb_eq ->%Z.eqb_eq ->.
    destruct (E5 _ _ _ _ _ _ _ Hx Hx') as [-> ->]. done.
Qed.
End Bound.

(** ** One more reference to a page *)

Section Share.
Context (ly : layout) (s : vm) (G : ghost) (I : inv ly s G).

(** [mem_map[MAP_NR(pg)]++] *)
Lemma inv_inc a f : in_use s a -> 0 <= f < 4096 -> cnt s a <= 160 -> (forall x g, ents G !! x = Some (Pg a g) -> has g PAGE_RW = false) ->
  (length (held G) < 16)%nat ->
  exists mm, put (mem_map (pages s)) (MAP_NR (a + f)) (u16 (cnt s a + 1)) = Some mm
    /\ inv ly (set_pages (set_map mm (pages s)) s) (set_held (a :: held G) G)
    /\ (forall b, is_page (pages s) b -> is_res (set_pages (set_map mm (pages s)) s) b = is_res s b)
    /\ (forall b, is_page (pages s) b -> b <> a -> cnt (set_pages (set_map mm (pages s)) s) b = cnt s b)
    /\ cnt (set_pages (set_map mm (pages s)) s) a = cnt s a + 1.
Proof.
  intros (Hp & H0 & R) Hf Hc Hrw Hl. assert (M := m_ok _ _ (i_mem _ _ _ I)). assert (Rg := nonres_lt s a M Hp R).
  destruct M as (fl & sl & L). rewrite MAP_NR_flags by (try done; apply Hp). rewrite u16_small by lia.
  destruct (put_of_get (mem_map (pages s)) (MAP_NR a) (cnt s a + 1) _ (lists_in_map _ _ _ _ L Hp)) as [mm Hmm].
  exists mm. split; [done|]. destruct (count_put _ _ _ _ Hmm (proj2 Hp)) as [C1 C2].
  assert (R' : is_res (set_pages (set_map mm (pages s)) s) a = false).
  { unfold is_res, cnt. cbn. rewrite C1, res_spec by lia. apply Z.leb_gt. lia. }
  assert (Mok : mem_ok (set_map mm (pages s))) by (exists fl, sl; eapply lists_count; try done; unfold cnt in *; lia).
  split; [|split; [|split; [|done]]].
  - apply (inv_count ly s G I (set_map mm (pages s)) a Mok eq_refl Hp C2 1); try done.
    + intros b. rewrite refs_cons. unfold tick. rewrite (Z.eqb_sym a b). destruct (b =? a); lia.
    + intros b [-> |Hb]%elem_of_cons; [done|]. by apply (c_held _ _ (i_counted _ _ _ I)).
    + intros d _ Hin. left. by right.
    + intros x g Hx Hg. rewrite (Hrw x g Hx) in Hg. done.
  - intros b Hb. apply (res_same s (set_map mm (pages s)) a C2 b); [congruence|done].
  - intros b Hb N. apply C2; [apply Hb|done].
Qed.

Lemma inv_held K' : held G ≡ₚ K' -> inv ly s (set_held K' G).
Proof.
  intros Pm. destruct I as [M H E C W]. split; [done| | | |].
  - destruct H as [H1 H2 H3 H4 H4' H5 H6 H7 H8 H9 H10]. split; try done. intros d Hd. cbn. rewrite <- Pm. by apply H2.
  - destruct E as [E1 E2 E3 E4 E5]. by split.
  - destruct C as [C1 C2 C3]. split; cbn.
    + intros a Ha R. rewrite (C1 a Ha R). unfold refs. cbn. by rewrite (occ_perm a _ _ Pm).
    + intros a Ha. apply C2. by rewrite Pm.
    + by rewrite <- Pm.
  - destruct W as [W1 W2 W3 W4]. split; [done| |done|done]. intros ty p Hp. destruct (W2 ty p Hp). by split.
Qed.

(** ** Writing to a page that holds data *)

Lemma inv_frame a f : length f = 1024%nat -> a ∉ dirs G -> (forall x, tabs G !! x <> Some a) ->
  a <> swapper_pg_dir ly -> a <> empty_zero_page ly ->
  (forall x fl, ents G !! x = Some (Pg a fl) -> is_res s a = true \/ has fl PAGE_DIRTY = true) ->
  inv ly (set_frames (<[a := f]> (frames s)) s) G.
Proof.
  intros Hl Hd Ht Hs Hz He. set (s' := set_frames _ s). assert (Wd : forall b i, b <> a -> wd s' b i = wd s b i).
  { intros b i N. unfold wd. cbn. by rewrite lookup_insert_ne. }
  destruct I as [M H E C W]. split.
  - destruct M as [M1 M2 M3 M4 M5 M6 M7 M8 M9 M10]. split; try done.
    + intros b Hb. cbn. destruct (decide (b = a)) as [-> |N]; [exists f; by rewrite lookup_insert_eq|]. rewrite lookup_insert_ne by done. by apply M2.
    + cbn. by rewrite lookup_insert_ne.
    + intros i Hi. rewrite Wd by done. by apply M9.
  - destruct H as [H1 H2 H3 H4 H4' H5 H6 H7 H8 H9 H10]. split; try done.
    + intros d i Hin Hi. rewrite Wd; [by apply H5|]. by intros ->.
    + intros d i Hin Hi. rewrite Wd; [by apply H6|]. by intros ->.
    + intros d i t j Htab Hj. rewrite Wd; [by apply H10|]. intros ->. by apply (Ht (d, i)).
  - destruct E as [E1 E2 E3 E4 E5]. split; try done. intros x b fl Hx. destruct (E1 x b fl Hx) as [P1 P2 P3 P4 P5 P6 P7].
    split; try done. intros R D. cbn. rewrite lookup_insert_ne; [by apply P7|]. intros <-.
    destruct (He x fl Hx); unfold is_res, cnt in *; cbn in *; congruence.
  - by destruct C.
  - by destruct W.
Qed.
End Share.
End VmCount.
