(* ===== verification/VmSwap.v ===== *)
(** * Steps on the swap areas *)

From S2P Require Import Prelude PageAlloc Vm VmBits VmInv VmCount.
From Stdlib Require Import ZArith Lia.
From stdpp Require Import base list gmap numbers.
Local Open Scope Z_scope.

Module VmSwap.
Import PageAlloc Vm VmBits VmInv VmCount.

(** Two areas that differ only in the counts and the hints. *)
Definition same_area (p q : swap_info) : Prop := max q = max p /\ flags q = flags p.

Lemma slot_put s l ty p q e : get (infos s) ty = Some p -> put (infos s) ty q = Some l -> same_area p q ->
  forall n, slot s e -> slot (set_infos l n s) e.
Proof.
  intros Hp Hq [E1 E2] n (ty' & off & p' & -> & Hp' & Ho & Hf). unfold slot. cbn.
  destruct (decide (ty' = ty)) as [-> |N].
  - rewrite Hp in Hp'. injection Hp' as <-. exists ty, off, q. rewrite (get_put _ _ _ _ _ Hq), Z.eqb_refl.
    split; [done|]. split; [done|]. by rewrite E1, E2.
  - exists ty', off, p'. rewrite (get_put _ _ _ _ _ Hq). destruct (Z.eqb_spec ty' ty); [done|]. done.
Qed.

Section Swap.
Context (ly : layout) (s : vm) (G : ghost) (I : inv ly s G).

(** A new state of one area, in which what the functions hold has changed. *)
Lemma inv_infos l n ty p q KS' : get (infos s) ty = Some p -> put (infos s) ty q = Some l -> same_area p q ->
  info_ok (set_swheld KS' G) ty q -> (forall e, e ∈ KS' -> slot s e) -> (length KS' <= 16)%nat ->
  (forall ty' off p', ty' <> ty -> get (infos s) ty' = Some p' -> 0 <= off < max p' ->
     srefs (set_swheld KS' G) (SWP_ENTRY ty' off) = srefs G (SWP_ENTRY ty' off)) ->
  inv ly (set_infos l n s) (set_swheld KS' G).
Proof.
  intros Hp Hq Sa Hok Hks Hl Hoth. destruct I as [M H E C W]. assert (Sl := slot_put s l ty p q). split.
  - by destruct M.
  - by destruct H.
  - destruct E as [E1 E2 E3 E4 E5]. split; try done.
    + intros x a f Hx. destruct (E1 x a f Hx). by split.
    + intros x e Hx. destruct (E3 x e Hx). split; [|done]. by apply Sl.
  - destruct C as [C1 C2 C3]. split; try done. by split; [apply C3|].
  - destruct W as [W1 W2 W3 W4]. split; cbn; [| | |done].
    + by rewrite (put_length _ _ _ _ Hq).
    + intros ty' p' Hp'. rewrite (get_put _ _ _ _ _ Hq) in Hp'. destruct (Z.eqb_spec ty' ty) as [-> |N]; [by injection Hp' as <-|].
      destruct (W2 ty' p' Hp') as [F1 F2 F3 F4 F5]. split; try done. intros off c Hc.
      rewrite (Hoth ty' off p' N Hp'); [by apply F5|]. apply get_Some_range in Hc. lia.
    + intros e He. by apply Sl, Hks.
Qed.

(** Entries of different places are different numbers. *)
Lemma type_range ty p : get (infos s) ty = Some p -> 0 <= ty < 8.
Proof. intros H. apply get_Some_range in H. assert (F := w_files _ _ (i_swap _ _ _ I)). lia. Qed.

Lemma entry_inj ty off ty' off' p p' : get (infos s) ty = Some p -> 0 <= off < max p -> get (infos s) ty' = Some p' -> 0 <= off' < max p' ->
  SWP_ENTRY ty off = SWP_ENTRY ty' off' -> ty = ty' /\ off = off'.
Proof.
  intros Hp Ho Hp' Ho' E. assert (T := type_range _ _ Hp). assert (T' := type_range _ _ Hp').
  assert (F := f_max _ _ _ (w_info _ _ (i_swap _ _ _ I) _ _ Hp)). assert (F' := f_max _ _ _ (w_info _ _ (i_swap _ _ _ I) _ _ Hp')).
  destruct (SWP_ENTRY_spec ty off) as (_ & E1 & E2 & _); [lia|lia|]. destruct (SWP_ENTRY_spec ty' off') as (_ & E1' & E2' & _); [lia|lia|].
  rewrite E in E1, E2. split; congruence.
Qed.

Lemma slot_decode e : slot s e -> exists p c, get (infos s) (SWP_TYPE e) = Some p /\ info_ok G (SWP_TYPE e) p
  /\ 1 <= SWP_OFFSET e < max p /\ has (flags p) SWP_USED = true /\ e = SWP_ENTRY (SWP_TYPE e) (SWP_OFFSET e)
  /\ 0 <= SWP_TYPE e < 8 /\ get (swap_map p) (SWP_OFFSET e) = Some c /\ e <> 0 /\ has e PAGE_PRESENT = false /\ 0 <= e < 2 ^ 32.
Proof.
  intros (ty & off & p & -> & Hp & Ho & Hf). assert (T := type_range _ _ Hp). assert (Io := w_info _ _ (i_swap _ _ _ I) _ _ Hp).
  assert (F := f_max _ _ _ Io). destruct (SWP_ENTRY_spec ty off) as (E0 & E1 & E2 & E3 & E4); [lia|lia|].
  destruct (get_in_range (swap_map p) off) as [c Hc]; [rewrite (f_len _ _ _ Io); lia|].
  exists p, c. rewrite E1, E2. split_and!; try done; lia.
Qed.

(** Changing the count of one entry. *)
Lemma info_count ty off p q KS' x : get (infos s) ty = Some p -> info_ok G ty p -> 0 <= off < max p -> same_area p q ->
  put (swap_map p) off x = Some (swap_map q) -> 0 <= lowest_bit q <= max q /\ highest_bit q < max q ->
  (off = 0 -> x <> 0) -> x = srefs (set_swheld KS' G) (SWP_ENTRY ty off) ->
  (forall e, e <> SWP_ENTRY ty off -> srefs (set_swheld KS' G) e = srefs G e) -> info_ok (set_swheld KS' G) ty q.
Proof.
  intros Hp [F1 F2 F3 F4 F5] Ho [E1 E2] Hput Hb H0 Hx Hs. split.
  - rewrite (put_length _ _ _ _ Hput), E1. done.
  - by rewrite E1.
  - done.
  - rewrite (get_put _ _ _ _ _ Hput). destruct (Z.eqb_spec 0 off) as [<-|]; [|done]. intros [= E]. by apply H0.
  - intros off' c. rewrite (get_put _ _ _ _ _ Hput). destruct (Z.eqb_spec off' off) as [-> |N]; [intros [= <-]; by left|].
    intros Hc. rewrite Hs; [by apply F5|]. intros E. apply N. apply get_Some_range in Hc. eapply (entry_inj ty off' ty off p p); try done. lia.
Qed.

Lemma srefs_cons e KS e' : srefs (set_swheld (e :: KS) G) e' = srefs (set_swheld KS G) e' + tick (e =? e').
Proof. unfold srefs. cbn. rewrite refs_cons. lia. Qed.

Lemma inv_swap_free e KS : swheld G = e :: KS -> exists l n, swap_free e s = Some (set_infos l n s) /\ inv ly (set_infos l n s) (set_swheld KS G).
Proof.
  intros Hh. assert (Sl : slot s e) by (apply (w_held _ _ (i_swap _ _ _ I)); rewrite Hh; left).
  destruct (slot_decode e Sl) as (p & c & Hp & Io & Ho & Hf & Ee & Ht & Hc & Ne & _). unfold swap_free.
  destruct (Z.eqb_spec e 0); [done|]. destruct (Z.eqb_spec (SWP_TYPE e) SHM_SWP_TYPE) as [E|]; [unfold SHM_SWP_TYPE in E; lia|].
  destruct (Z.leb_spec (nr_swapfiles s) (SWP_TYPE e)) as [L|_]; [apply get_Some_range in Hp; unfold nr_swapfiles in L; lia|].
  rewrite Hp. cbn [mbind option_bind]. destruct (Z.leb_spec (max p) (SWP_OFFSET e)); [lia|]. rewrite Hf. cbn [negb]. rewrite Hc. cbn [mbind option_bind].
  assert (Gs : G = set_swheld (e :: KS) G) by (rewrite <- Hh; by destruct G).
  assert (S1 : srefs G e = srefs (set_swheld KS G) e + 1) by (rewrite Gs at 1; rewrite srefs_cons, Z.eqb_refl; done).
  assert (S2 : forall e', e' <> e -> srefs (set_swheld KS G) e' = srefs G e').
  { intros e' N. rewrite Gs at 2. rewrite srefs_cons. destruct (Z.eqb_spec e e'); [congruence|]. unfold tick. lia. }
  assert (Nn : 0 <= srefs (set_swheld KS G) e) by (unfold srefs; assert (A := tally_nonneg (at_slot e) (ents G)); assert (B := refs_nonneg e KS); cbn; lia).
  assert (Ec : c = srefs G e). { destruct (f_map _ _ _ Io _ _ Hc) as [Hc'|[_ Hc']]; rewrite <- Ee in Hc'; [done|lia]. }
  assert (Few := slot_refs_few ly s G I e). destruct (Z.eqb_spec c 0); [lia|].
  replace (u8 (c - 1)) with (srefs (set_swheld KS G) e) by (unfold u8; rewrite Z.mod_small; lia).
  destruct (put_of_get (swap_map p) (SWP_OFFSET e) (srefs (set_swheld KS G) e) _ Hc) as [map Hmap]. rewrite Hmap. cbn [mbind option_bind].
  set (q := set_bits _ _ (set_swap_map map p)). destruct (put_of_get (infos s) (SWP_TYPE e) q _ Hp) as [l Hl]. rewrite Hl. cbn [mbind option_bind].
  eexists l, _. split; [done|]. assert (W3 := w_held _ _ (i_swap _ _ _ I)). rewrite Hh in W3. assert (F := c_few _ _ (i_counted _ _ _ I)).
  rewrite Hh in F. cbn in F. eapply (inv_infos _ _ (SWP_TYPE e) p q); try done.
  - eapply (info_count (SWP_TYPE e) (SWP_OFFSET e) p q); try done; [lia| |lia|by rewrite <- Ee|by rewrite <- Ee].
    destruct (f_bits _ _ _ Io). unfold q. cbn. split; case_bool; lia.
  - intros e' He'. apply W3. by right.
  - lia.
  - intros ty' off p' N Hp' Ho'. apply S2. rewrite Ee. intros E. apply N. eapply (entry_inj ty' off _ _ p' p); try done. lia.
Qed.

(** One more reference held, to an entry that was counted right. *)
Lemma srefs_more e e' : srefs (set_swheld (e :: swheld G) G) e' = srefs G e' + tick (e =? e').
Proof. rewrite srefs_cons. by destruct G. Qed.

Lemma inv_swap_dup e : slot s e -> 0 < srefs G e -> (length (swheld G) < 16)%nat ->
  exists l n, swap_duplicate e s = Some (e, set_infos l n s) /\ inv ly (set_infos l n s) (set_swheld (e :: swheld G) G).
Proof.
  intros Sl Pos Hlen. destruct (slot_decode e Sl) as (p & c & Hp & Io & Ho & Hf & Ee & Ht & Hc & Ne & _). unfold swap_duplicate.
  destruct (Z.eqb_spec e 0); [done|]. destruct (Z.eqb_spec (SWP_TYPE e) SHM_SWP_TYPE) as [E|]; [unfold SHM_SWP_TYPE in E; lia|].
  destruct (Z.leb_spec (nr_swapfiles s) (SWP_TYPE e)) as [L|_]; [apply get_Some_range in Hp; unfold nr_swapfiles in L; lia|].
  rewrite Hp. cbn [mbind option_bind]. destruct (Z.leb_spec (max p) (SWP_OFFSET e)); [lia|]. rewrite Hc. cbn [mbind option_bind].
  assert (Ec : c = srefs G e). { destruct (f_map _ _ _ Io _ _ Hc) as [Hc'|[_ Hc']]; rewrite <- Ee in Hc'; [done|lia]. }
  assert (Few := slot_refs_few ly s G I e). destruct (Z.eqb_spec c 0); [lia|].
  replace (u8 (c + 1)) with (srefs (set_swheld (e :: swheld G) G) e)
    by (rewrite srefs_more, Z.eqb_refl; unfold u8, tick; rewrite Z.mod_small; lia).
  destruct (put_of_get (swap_map p) (SWP_OFFSET e) (srefs (set_swheld (e :: swheld G) G) e) _ Hc) as [map Hmap].
  rewrite Hmap. cbn [mbind option_bind]. set (q := set_swap_map map p).
  destruct (put_of_get (infos s) (SWP_TYPE e) q _ Hp) as [l Hl]. rewrite Hl. cbn [mbind option_bind].
  eexists l, _. split; [done|]. eapply (inv_infos _ _ (SWP_TYPE e) p q); try done.
  - eapply (info_count (SWP_TYPE e) (SWP_OFFSET e) p q); try done; [lia|apply Io|lia|by rewrite <- Ee|].
    intros e' N. rewrite <- Ee in N. rewrite srefs_more. destruct (Z.eqb_spec e e'); [congruence|]. unfold tick. lia.
  - intros e' [-> |He']%elem_of_cons; [done|]. by apply (w_held _ _ (i_swap _ _ _ I)).
  - intros ty' off p' N Hp' Ho'. rewrite srefs_more. destruct (Z.eqb_spec e (SWP_ENTRY ty' off)) as [E|]; [|unfold tick; lia].
    exfalso. apply N. rewrite Ee in E. symmetry in E. eapply (entry_inj ty' off _ _ p' p); try done. lia.
Qed.

(** ** A free entry *)

Lemma swap_slot_spec map : forall n off, 0 <= off -> off + Z.of_nat n <= Z.of_nat (length map) ->
  exists r, find_slot n off map = Some r /\ match r with Some o => off <= o < off + Z.of_nat n /\ get map o = Some 0 | None => True end.
Proof.
  induction n as [|n IH]; intros off H0 H1; cbn [find_slot]; [by exists None|].
  destruct (get_in_range map off) as [c Hc]; [lia|]. rewrite Hc. cbn [mbind option_bind]. destruct (Z.eqb_spec c 0) as [-> |]; cbn [negb].
  - exists (Some off). split; [done|]. split; [lia|done].
  - destruct (IH (off + 1)) as (r & -> & Hr); [lia|lia|]. exists r. split; [done|]. destruct r; [|done]. destruct Hr. split; [lia|done].
Qed.

(** [get_swap_page] from area [ty] on. *)
Lemma get_swap_page_from_spec : forall n ty, 0 <= ty -> ty + Z.of_nat n = Z.of_nat (length (infos s)) -> (length (swheld G) < 16)%nat ->
  get_swap_page_from n ty s = Some (0, s) \/
  exists e l m, get_swap_page_from n ty s = Some (e, set_infos l m s) /\ e <> 0 /\ srefs G e = 0
    /\ slot s e /\ inv ly (set_infos l m s) (set_swheld (e :: swheld G) G).
Proof.
  induction n as [|n IH]; intros ty H0 H1 Hlen; cbn [get_swap_page_from]; [by left|].
  destruct (get_in_range (infos s) ty) as [p Hp]; [lia|]. rewrite Hp. cbn [mbind option_bind].
  destruct (Z.eqb_spec (Z.land (flags p) SWP_WRITEOK) SWP_WRITEOK) as [Hw|]; cbn [negb]; [|apply IH; lia].
  assert (Io := w_info _ _ (i_swap _ _ _ I) _ _ Hp). destruct (f_bits _ _ _ Io) as [B1 B2]. assert (F := f_max _ _ _ Io). assert (T := type_range _ _ Hp).
  destruct (swap_slot_spec (swap_map p) (Z.to_nat (highest_bit p + 1 - lowest_bit p)) (lowest_bit p)) as (r & Er & Hr).
  { lia. } { rewrite (f_len _ _ _ Io). lia. }
  rewrite Er. cbn [mbind option_bind]. destruct r as [off|]; [|apply IH; lia]. destruct Hr as [Hr Hc]. right.
  assert (Off : 1 <= off < max p).
  { assert (off <> 0) by (intros ->; by apply (f_first _ _ _ Io)). lia. }
  destruct (put_of_get (swap_map p) off 1 _ Hc) as [map Hmap]. rewrite Hmap. cbn [mbind option_bind]. set (q := set_bits _ _ (set_swap_map map p)).
  destruct (put_of_get (infos s) ty q _ Hp) as [l Hl]. rewrite Hl. cbn [mbind option_bind].
  destruct (SWP_ENTRY_spec ty off) as (E0 & E1 & E2 & E3 & E4); [lia|lia|]. set (e := SWP_ENTRY ty off) in *.
  assert (Sz : srefs G e = 0). { destruct (f_map _ _ _ Io _ _ Hc) as [E5|[? _]]; [by symmetry|done]. }
  assert (Sl : slot s e).
  { exists ty, off, p. split; [done|]. split; [done|]. split; [done|]. unfold has. destruct (Z.eqb_spec (Z.land (flags p) SWP_USED) 0) as [Z0|]; [|done].
    exfalso. apply (f_equal (fun z => Z.testbit z 0)) in Hw, Z0. rewrite Z.land_spec, Z.bits_0 in Z0. rewrite Z.land_spec in Hw.
    change (Z.testbit SWP_USED 0) with true in Z0. change (Z.testbit SWP_WRITEOK 0) with true in Hw. by rewrite Z0 in Hw. }
  eexists e, l, _. split; [done|]. split; [lia|]. split; [done|]. split; [done|]. eapply (inv_infos _ _ ty p q); try done.
  - eapply (info_count ty off p q); try done; [lia| | |].
    + unfold q. cbn. split; [lia|]. case_bool; lia.
    + fold e. rewrite srefs_more, Z.eqb_refl, Sz. done.
    + intros e' N. rewrite srefs_more. fold e in N. destruct (Z.eqb_spec e e'); [congruence|]. unfold tick. lia.
  - intros e' [-> |He']%elem_of_cons; [done|]. by apply (w_held _ _ (i_swap _ _ _ I)).
  - intros ty' off' p' N Hp' Ho'. rewrite srefs_more. destruct (Z.eqb_spec e (SWP_ENTRY ty' off')) as [E|]; [|unfold tick; lia].
    exfalso. apply N. symmetry in E. eapply (entry_inj ty' off' ty off p' p); try done. lia.
Qed.

(** ** Reading and writing the areas *)

Lemma swappable_ok e : slot s e -> swappable_entry e s = Some true.
Proof.
  intros Sl. destruct (slot_decode e Sl) as (p & c & Hp & Io & Ho & Hf & _). unfold swappable_entry.
  destruct (Z.leb_spec (nr_swapfiles s) (SWP_TYPE e)) as [L|_]; [apply get_Some_range in Hp; unfold nr_swapfiles in L; lia|].
  rewrite Hp. cbn [mbind option_bind]. destruct (Z.leb_spec (max p) (SWP_OFFSET e)); [lia|]. by rewrite Hf.
Qed.

Lemma inv_write e f : (forall x, ents G !! x <> Some (Sw e)) -> length f = 1024%nat ->
  inv ly (set_disk (<[e := f]> (disk s)) s) G.
Proof.
  intros Hn Hl. destruct I as [M H E C W]. split; [by destruct M|by destruct H| |by destruct C|by destruct W].
  destruct E as [E1 E2 E3 E4 E5]. split; try done.
  - intros x a g Hx. destruct (E1 x a g Hx). by split.
  - intros x e' Hx. destruct (E3 x e' Hx) as [Sl Hd]. split; [done|]. cbn. rewrite lookup_insert_ne; [done|]. intros <-. by apply (Hn x).
Qed.
End Swap.
End VmSwap.
