(* ===== verification/VmReclaim.v ===== *)
(** * Taking pages from processes, and getting a free page

    [swap_out] and [__get_free_page] keep the invariant and what every process sees
    of its memory. *)

From S2P Require Import Prelude PageAlloc Vm VmBits VmInv VmCount VmSwap.
From Stdlib Require Import ZArith Lia.
From stdpp Require Import base list gmap numbers.
Local Open Scope Z_scope.

Module VmReclaim.
Import PageAlloc Vm VmBits VmInv VmCount VmSwap.

(** The free pages on the lists. *)
Definition stock (s : vm) : Z := nr (free_page_list (pages s)) + nr (secondary_page_list (pages s)).
Definition more (s s' : vm) : Prop :=
  nr (free_page_list (pages s)) <= nr (free_page_list (pages s'))
  /\ nr (secondary_page_list (pages s)) <= nr (secondary_page_list (pages s')).

(** The part of a task that is not bookkeeping of the swapper. *)
Definition core (t : vtask) : Z * bounds * list Z * bool := (cr3 t, bnd t, sent t, swappable t).

(** What swapping keeps: the structure, the entries that are not for pages, the pages
    that are not tables, and what is seen. *)
Record reclaimed (s : vm) (G : ghost) (s' : vm) (G' : ghost) : Prop := {
  r_ghost : exists es, G' = set_ents es G;
  r_seen x : seen s' G' x = seen s G x;
  r_keep x : (forall a f, ents G !! x <> Some (Pg a f)) -> ents G' !! x = ents G !! x;
  r_page x a f : ents G !! x = Some (Pg a f) -> kernel_page s a -> ents G' !! x = Some (Pg a f);
  r_tasks : core <$> tasks s' = core <$> tasks s;
  r_frames a : (forall x, tabs G !! x <> Some a) -> frames s' !! a = frames s !! a;
  r_disk e : (exists x, ents G !! x = Some (Sw e)) \/ e ∈ swheld G -> disk s' !! e = disk s !! e;
  r_high : high_memory (pages s') = high_memory (pages s);
  r_res a : is_page (pages s) a -> is_res s' a = is_res s a;
  r_more : more s s';
  r_from x a f : ents G' !! x = Some (Pg a f) -> exists g, ents G !! x = Some (Pg a g)
}.

Lemma reclaimed_refl s G : reclaimed s G s G.
Proof. split; try done; [exists (ents G); by destruct G|]. intros x a f Hx. by exists f. Qed.

Lemma reclaimed_trans s G s1 G1 s2 G2 : reclaimed s G s1 G1 -> reclaimed s1 G1 s2 G2 -> reclaimed s G s2 G2.
Proof.
  intros A B. destruct (r_ghost _ _ _ _ A) as [es1 E1]. destruct (r_ghost _ _ _ _ B) as [es2 E2]. split.
  - exists es2. by rewrite E2, E1.
  - intros x. by rewrite (r_seen _ _ _ _ B), (r_seen _ _ _ _ A).
  - intros x Hx. rewrite (r_keep _ _ _ _ B); [by apply (r_keep _ _ _ _ A)|]. rewrite (r_keep _ _ _ _ A) by done. done.
  - intros x a f Hx [Hp R]. assert (Hx1 := r_page _ _ _ _ A x a f Hx (conj Hp R)). apply (r_page _ _ _ _ B); [done|]. split.
    + unfold is_page in *. by rewrite (r_high _ _ _ _ A).
    + by rewrite (r_res _ _ _ _ A).
  - by rewrite (r_tasks _ _ _ _ B), (r_tasks _ _ _ _ A).
  - intros a Ha. rewrite (r_frames _ _ _ _ B); [by apply (r_frames _ _ _ _ A)|]. by rewrite E1.
  - intros e He. rewrite (r_disk _ _ _ _ B); [by apply (r_disk _ _ _ _ A)|]. destruct He as [[x Hx]|He]; [left|right; by rewrite E1].
    exists x. rewrite (r_keep _ _ _ _ A); congruence.
  - by rewrite (r_high _ _ _ _ B), (r_high _ _ _ _ A).
  - intros a Ha. rewrite (r_res _ _ _ _ B); [by apply (r_res _ _ _ _ A)|]. unfold is_page in *. by rewrite (r_high _ _ _ _ A).
  - destruct (r_more _ _ _ _ A), (r_more _ _ _ _ B). split; lia.
  - intros x a f Hx. destruct (r_from _ _ _ _ B x a f Hx) as [g Hg]. by apply (r_from _ _ _ _ A x a g).
Qed.

Lemma page_high s a f : mem_ok (pages s) -> is_page (pages s) a -> 0 <= f < 4096 -> a + f < high_memory (pages s).
Proof.
  intros (fl & sl & L) [Ha Hm] Hf. destruct (l_high _ _ _ L) as [_ Hh].
  assert (D1 := Z.div_mod a 4096). assert (D2 := Z.div_mod (high_memory (pages s)) 4096). lia.
Qed.

(** ** One entry *)

Section Entry.
Context (ly : layout) (s : vm) (G : ghost) (I : inv ly s G).
Context (d i j t : Z) (Ht : tabs G !! (d, i) = Some t) (Hj : 0 <= j < 1024).

(** Writing the table does not change what other entries show. *)
Lemma seen_upd v o x K' KS' l : x <> (d, i, j) ->
  seen (upd t j v s) (Ghost (dirs G) (tabs G) (alter_ent (d, i, j) o (ents G)) K' KS' (unlinked G) l) x = seen s G x.
Proof.
  intros N. unfold seen. cbn [ents]. rewrite alter_ne by congruence. destruct (ents G !! x) as [[a f|e]|] eqn:Hx; [|done|done].
  rewrite (data_frame ly s G I d i j t Ht a v); [done|]. destruct (is_res s a) eqn:R; [by left|right].
  by apply (e_data _ _ _ _ _ _ (n_page _ _ _ (i_entries _ _ _ I) x a f Hx) R).
Qed.

(** What [seen] says after pages and other fields changed. *)
Lemma seen_same s' G' x : ents G' = ents G -> frames s' = frames s -> disk s' = disk s -> seen s' G' x = seen s G x.
Proof. intros E1 E2 E3. unfold seen. by rewrite E1, E2, E3. Qed.

Context (a f : Z) (Hx : ents G !! (d, i, j) = Some (Pg a f)).

Lemma entry_ok : page_ent ly s (dirs G) (tabs G) a f.
Proof. by apply (n_page _ _ _ (i_entries _ _ _ I) (d, i, j)). Qed.

Lemma entry_same b f' d' i' j' : b = a -> is_res s b = false -> ents G !! (d', i', j') = Some (Pg b f') -> i' = i /\ j' = j.
Proof. intros -> R Hx'. by apply (n_same _ _ _ (i_entries _ _ _ I) _ _ _ _ _ _ _ _ _ Hx' Hx R). Qed.

(** New flags. *)
Lemma inv_flags f' : page_ent ly s (dirs G) (tabs G) a f' ->
  inv ly (upd t j (a + f') s) (set_ents (alter_ent (d, i, j) (Some (Pg a f')) (ents G)) G).
Proof.
  intros E. change (a + f') with (word_of (Some (Pg a f'))).
  apply (entry_replaced ly s G I d i j t Ht Hj (Some (Pg a f)) (Some (Pg a f')) (lost G) (held G) (swheld G)); try done.
  - split; [done|]. split.
    + intros ->. by apply (n_lost _ _ _ (i_entries _ _ _ I) d i j f).
    + intros R d' i' j' g Hg _. by apply (entry_same a g d' i' j').
  - apply (c_few _ _ (i_counted _ _ _ I)).
Qed.

Lemma seen_flags f' x : seen (upd t j (a + f') s) (set_ents (alter_ent (d, i, j) (Some (Pg a f')) (ents G)) G) x = seen s G x.
Proof.
  destruct (decide (x = (d, i, j))) as [-> |N]; [|by apply seen_upd]. unfold seen. cbn [ents set_ents]. rewrite alter_eq, Hx.
  rewrite (data_frame ly s G I d i j t Ht); [done|]. destruct (is_res s a) eqn:R; [by left|right]. apply (e_data _ _ _ _ _ _ entry_ok R).
Qed.
End Entry.

(** ** [try_to_swap_out] *)

(** The function holds little. *)
Definition light (G : ghost) : Prop := (length (held G) < 12 /\ length (swheld G) < 12)%nat.

Section TrySwap.
Context (ly : layout) (s : vm) (G : ghost) (I : inv ly s G) (Lt : light G).
Context (d i j t : Z) (Ht : tabs G !! (d, i) = Some t) (Hj : 0 <= j < 1024).
Context (a f : Z) (Hx : ents G !! (d, i, j) = Some (Pg a f)) (R : is_res s a = false).

Let E : page_ent ly s (dirs G) (tabs G) a f := entry_ok ly s G I d i j a f Hx.

(** Giving the page back, when the entry no longer refers to it. *)
Lemma swapped_free o s1 : (forall b g, o <> Some (Pg b g)) -> inv ly s1 (Ghost (dirs G) (tabs G) (alter_ent (d, i, j) o (ents G)) (a :: held G) (swheld G) (unlinked G) (lost G)) ->
  (forall b, is_page (pages s) b -> is_page (pages s1) b /\ is_res s1 b = is_res s b /\ cnt s1 b = cnt s b) ->
  high_memory (pages s1) = high_memory (pages s) -> more s s1 ->
  (forall b, (forall x, tabs G !! x <> Some b) -> frames s1 !! b = frames s !! b) ->
  (forall e, (exists x, ents G !! x = Some (Sw e)) \/ e ∈ swheld G -> disk s1 !! e = disk s !! e) ->
  core <$> tasks s1 = core <$> tasks s ->
  (forall x, seen s1 (set_ents (alter_ent (d, i, j) o (ents G)) G) x = seen s G x) ->
  exists s' G', free_page a s1 = Some s' /\ inv ly s' G' /\ reclaimed s G s' G' /\ cnt s' a = cnt s a - 1
    /\ (cnt s a = 1 -> stock s < stock s').
Proof.
  intros No I1 Hb Hh Hm Hf Hd Ht' Hs. destruct (e_data _ _ _ _ _ _ E R) as [Nd Nt].
  destruct (inv_free ly s1 _ I1 a (held G) eq_refl) as (m' & Hfree & I2 & _ & Hc & Hr & Hh2).
  { intros b Hin ->. done. }
  assert (Pa := e_page _ _ _ _ _ _ E). destruct (Hb a Pa) as (Pa1 & Ra1 & Ca1).
  eexists _, _. split; [exact Hfree|]. split; [exact I2|].
  assert (St := free_page_stock (pages s1) a m' (m_ok _ _ (i_mem _ _ _ I1)) Pa1).
  unfold Vm.free_page in Hfree. destruct (PageAlloc.free_page a (pages s1)) as [m0|] eqn:Ef; [|done].
  cbn in Hfree. injection Hfree as E0. assert (m0 = m') by congruence. subst m0. destruct (St eq_refl) as (St1 & St2 & St3).
  destruct Hm as [Hm1 Hm2]. split; [split|split].
  - by exists (alter_ent (d, i, j) o (ents G)).
  - intros x. rewrite <- Hs. by apply seen_same.
  - intros x Nx. cbn. rewrite alter_ne; [done|]. intros <-. by apply (Nx a f).
  - intros x b g Hb' [_ Rb]. cbn. rewrite alter_ne; [done|]. intros <-. congruence.
  - done.
  - done.
  - done.
  - cbn. congruence.
  - intros b Pb. destruct (Hb b Pb) as (Pb1 & Rb1 & _). rewrite Hr by done. done.
  - unfold more. cbn. lia.
  - intros x b g Hx'. cbn [ents set_held] in Hx'. destruct (decide (x = (d, i, j))) as [-> |Nx]; [rewrite alter_eq in Hx'; by destruct (No b g)|].
    rewrite alter_ne in Hx' by congruence. by exists g.
  - rewrite Hc, Ca1. done.
  - intros C1. unfold stock. cbn. unfold cnt in Ca1, C1. rewrite Ca1 in St3. specialize (St3 C1). lia.
Qed.

Lemma seen_data s1 o : (forall b, (forall x, tabs G !! x <> Some b) -> frames s1 !! b = frames s !! b) ->
  (forall b, is_res s b = true -> frames s1 !! b = frames s !! b) ->
  (forall e, (exists x, ents G !! x = Some (Sw e)) \/ e ∈ swheld G -> disk s1 !! e = disk s !! e) ->
  (forall g, frames s !! a = Some g -> match o with Some (Sw e) => disk s1 !! e = Some g | Some (Pg _ _) => False | None => g = zeros end) ->
  forall x, seen s1 (set_ents (alter_ent (d, i, j) o (ents G)) G) x = seen s G x.
Proof.
  intros Hf Hk Hd Ho x. unfold seen. cbn [ents set_ents]. destruct (decide (x = (d, i, j))) as [-> |N].
  - rewrite alter_eq, Hx. destruct (m_frames _ _ (i_mem _ _ _ I) a (e_page _ _ _ _ _ _ E)) as (g & Hg & _). specialize (Ho g Hg). rewrite Hg.
    destruct o as [[]|]; [done| |by rewrite Ho]. by rewrite Ho.
  - rewrite alter_ne by congruence. destruct (ents G !! x) as [[b g|e]|] eqn:Hy; [| |done].
    + destruct (is_res s b) eqn:Rb; [by rewrite Hk|]. rewrite Hf; [done|].
      by apply (e_data _ _ _ _ _ _ (n_page _ _ _ (i_entries _ _ _ I) x b g Hy) Rb).
    + rewrite Hd; [done|]. left. by exists x.
Qed.

Lemma frames_table v b : (forall x, tabs G !! x <> Some b) \/ is_res s b = true -> frames (upd t j v s) !! b = frames s !! b.
Proof. intros H. apply (data_frame ly s G I d i j t Ht). tauto. Qed.

(** The clean page is dropped: it is zero and will be so again. *)
Lemma drop_clean : has f PAGE_DIRTY = false -> exists s' G', free_page a (upd t j 0 s) = Some s' /\ inv ly s' G' /\ reclaimed s G s' G'
  /\ cnt s' a = cnt s a - 1 /\ (cnt s a = 1 -> stock s < stock s').
Proof.
  intros Cl. destruct Lt as [L1 L2]. apply (swapped_free None (upd t j 0 s)); try done.
  - assert (T := inv_take ly s G I d i j t Ht Hj (Some (Pg a f)) Hx ltac:(lia)). cbn in T. rewrite R in T. exact T.
  - intros b Hb. by apply frames_table; left.
  - apply seen_data; [intros b Hb; by apply frames_table; left|intros b Hb; by apply frames_table; right|done|].
    intros g Hg. assert (X := e_clean _ _ _ _ _ _ E R Cl). congruence.
Qed.

(** The dirty page goes to the swap area. *)
Lemma swap_dirty e s0 l n : s0 = set_infos l n s -> slot s e -> srefs G e = 0 -> inv ly s0 (set_swheld (e :: swheld G) G) -> cnt s a = 1 ->
  exists s1 s' G', wr t j e s0 = Some (upd t j e s0) /\ write_swap_page e a (upd t j e s0) = Some s1 /\ free_page a s1 = Some s'
    /\ inv ly s' G' /\ reclaimed s G s' G' /\ stock s < stock s'.
Proof.
  intros -> Sl S0 I0 C1. destruct Lt as [L1 L2]. assert (Pa := e_page _ _ _ _ _ _ E). destruct (e_data _ _ _ _ _ _ E R) as [Nd Nt].
  destruct (m_frames _ _ (i_mem _ _ _ I) a Pa) as (g & Hg & Lg). set (s0 := set_infos l n s) in *.
  set (s1 := set_disk (<[e := g]> (disk s0)) s0).
  assert (He : forall x, ents G !! x <> Some (Sw e)).
  { intros x Hy. assert (0 < tally (at_slot e) (ents G)) by (eapply tally_pos; [exact Hy|apply Z.eqb_refl]).
    assert (O := refs_nonneg e (swheld G)). unfold srefs in S0. lia. }
  assert (Hs : e ∉ swheld G) by (intros Hin; apply refs_in in Hin; assert (T := tally_nonneg (at_slot e) (ents G)); unfold srefs in S0; lia).
  assert (I1 : inv ly s1 (set_swheld (e :: swheld G) G)) by (by apply inv_write).
  assert (I2 : inv ly (upd t j e s1) (Ghost (dirs G) (tabs G) (alter_ent (d, i, j) (Some (Sw e)) (ents G)) (a :: held G) (swheld G) (unlinked G) (lost G))).
  { apply (entry_replaced ly s1 _ I1 d i j t Ht Hj (Some (Pg a f)) (Some (Sw e)) (lost G) (a :: held G) (swheld G)); try done.
    - split; [by apply (w_held _ _ (i_swap _ _ _ I1)); left|]. split; [exists g; split; [apply lookup_insert_eq|done]|].
      intros d' i' j' Hy. by destruct (He _ Hy).
    - unfold pages_of. change (is_res s1 a) with (is_res s a). rewrite R. done.
    - cbn. lia. }
  destruct (swapped_free (Some (Sw e)) (upd t j e s1) ltac:(done) I2) as (s' & G' & Hfree & I3 & Rc & Hc & St); try done.
  - intros b Hb. change (frames (upd t j e s) !! b = frames s !! b). by apply frames_table; left.
  - intros e' He'. change (<[e := g]> (disk s) !! e' = disk s !! e'). rewrite lookup_insert_ne; [done|]. intros <-.
    destruct He' as [[x Hy]|Hin]; [by apply (He x)|done].
  - apply seen_data.
    + intros b Hb. change (frames (upd t j e s) !! b = frames s !! b). by apply frames_table; left.
    + intros b Hb. change (frames (upd t j e s) !! b = frames s !! b). by apply frames_table; right.
    + intros e' He'. change (<[e := g]> (disk s) !! e' = disk s !! e'). rewrite lookup_insert_ne; [done|]. intros <-.
      destruct He' as [[x Hy]|Hin]; [by apply (He x)|done].
    + intros g' Hg'. change (<[e := g]> (disk s) !! e = Some g'). rewrite lookup_insert_eq. congruence.
  - exists (upd t j e s1), s', G'. split; [by apply (wr_entry ly s0 _ I0 d i j t)|]. split; [|auto].
    unfold write_swap_page. change (swappable_entry e (upd t j e s0)) with (swappable_entry e s0).
    rewrite (swappable_ok ly s0 _ I0) by (by apply (w_held _ _ (i_swap _ _ _ I0)); left). cbn [mbind option_bind].
    rewrite (page_read _ a g); [done|by apply I|done|change (cnt s a <> 0); lia|].
    change (frames (upd t j e s) !! a = Some g). rewrite frames_table; [done|by left].
Qed.
End TrySwap.

Lemma try_to_swap_out_ok ly s G d i j t : inv ly s G -> light G -> tabs G !! (d, i) = Some t -> 0 <= j < 1024 ->
  exists r s' G', try_to_swap_out t j s = Some (r, s') /\ inv ly s' G' /\ reclaimed s G s' G' /\ (r = 1 -> stock s < stock s').
Proof.
  intros I Lt Ht Hj. assert (Skip : exists r s' G', Some (0, s) = Some (r, s') /\ inv ly s' G' /\ reclaimed s G s' G' /\ (r = 1 -> stock s < stock s')).
  { exists 0, s, G. split; [done|]. split; [done|]. split; [apply reclaimed_refl|done]. }
  unfold try_to_swap_out. rewrite (rd_entry ly s G I d i j t Ht Hj). cbn [mbind option_bind].
  assert (M := m_ok _ _ (i_mem _ _ _ I)).
  destruct (ents G !! (d, i, j)) as [[a f|e]|] eqn:Hx; cbn [word_of].
  2: { destruct (slot_decode ly s G I e) as (p & c & _ & _ & _ & _ & _ & _ & _ & _ & Hp & _); [by apply (n_swap _ _ _ (i_entries _ _ _ I) _ _ Hx)|].
       by rewrite Hp. }
  2: done.
  assert (E := entry_ok ly s G I d i j a f Hx). assert (Pa := e_page _ _ _ _ _ _ E). assert (Ff := e_flags _ _ _ _ _ _ E).
  assert (Al := page_align s a Pa). assert (Ar := page_range s a M Pa).
  rewrite !has_flags by (try done; unfold PAGE_PRESENT, PAGE_ACCESSED, PAGE_DIRTY; lia). rewrite (e_present _ _ _ _ _ _ E). cbn [negb].
  destruct (Z.leb_spec (high_memory (pages s)) (a + f)); [done|].
  unfold reserved. rewrite users_page by done. cbn [mbind option_bind]. destruct (has (cnt s a) MAP_PAGE_RESERVED) eqn:R; [done|].
  fold (is_res s a) in R. destruct (mask_flags a f Al Ff ltac:(lia)) as [Mk _].
  destruct (has f PAGE_ACCESSED).
  { rewrite clear_flags by (try done; unfold PAGE_ACCESSED; lia). rewrite (wr_entry ly s G I d i j t Ht Hj). cbn [mbind option_bind].
    eexists 0, _, _. split; [done|].
    assert (E' : page_ent ly s (dirs G) (tabs G) a (Z.land f (Z.lnot PAGE_ACCESSED))).
    { destruct E as [E1 E2 E3 E4 E5 E6 E7]. split; rewrite ?has_clear by done; try done. by apply VmBits.clear_low. }
    split; [by apply (inv_flags ly s G I d i j t Ht Hj a f Hx)|]. split; [|done]. split; try done.
    - by eexists.
    - intros x. by apply (seen_flags ly s G I d i j t Ht a f Hx).
    - intros x Nx. cbn. rewrite alter_ne; [done|]. intros <-. by apply (Nx a f).
    - intros x b g Hb [_ Rb]. cbn. rewrite alter_ne; [done|]. intros <-. congruence.
    - intros b Hb. apply (data_frame ly s G I d i j t Ht). by right.
    - intros x b g Hx'. cbn [ents set_ents] in Hx'. destruct (decide (x = (d, i, j))) as [-> |Nx].
      + rewrite alter_eq in Hx'. injection Hx' as <- <-. by exists f.
      + rewrite alter_ne in Hx' by congruence. by exists g. }
  rewrite Mk. case_bool_decide; [done|]. destruct (has f PAGE_DIRTY) eqn:Dt.
  - rewrite users_page0 by done. cbn [mbind option_bind]. destruct (Z.eqb_spec (cnt s a) 1) as [C1|]; cbn [negb]; [|done].
    destruct (get_swap_page_from_spec ly s G I (length (infos s)) 0) as [Hg|(e & l & n & Hg & Ne & S0 & Sl & I0)]; [lia|lia|destruct Lt; lia| |];
      unfold get_swap_page; rewrite Hg; cbn [mbind option_bind]; [done|]. destruct (Z.eqb_spec e 0); [done|].
    destruct (swap_dirty ly s G I Lt d i j t Ht Hj a f Hx R e _ l n eq_refl Sl S0 I0 C1) as (s1 & s' & G' & -> & Hw & Hf & I' & Rc & St).
    cbn [mbind option_bind]. rewrite Hw. cbn [mbind option_bind]. rewrite Hf. cbn [mbind option_bind]. by exists 1, s', G'.
  - rewrite (wr_entry ly s G I d i j t Ht Hj). cbn [mbind option_bind].
    destruct (drop_clean ly s G I Lt d i j t Ht Hj a f Hx R Dt) as (s' & G' & -> & I' & Rc & Hc & St). cbn [mbind option_bind].
    rewrite users_page0; [|apply I'|unfold is_page in *; by rewrite (r_high _ _ _ _ Rc)]. cbn [mbind option_bind].
    exists (1 + cnt s' a), s', G'. split; [done|]. split; [done|]. split; [done|]. intros ?. apply St. lia.
Qed.

(** ** Changes of tasks that keep their directories *)

Lemma inv_task ly s G k t t' : inv ly s G -> tasks s !! k = Some t -> cr3 t' = cr3 t -> 0 <= swap_table (swp t') -> 0 <= swap_page (swp t') ->
  inv ly (set_tasks (<[k := t']> (tasks s)) s) G.
Proof.
  intros [M H E C W] Hk Hc P1 P2. assert (Look : forall j u, <[k := t']> (tasks s) !! j = Some u -> exists v, tasks s !! j = Some v /\ cr3 u = cr3 v).
  { intros j u. rewrite lookup_insert_Some. intros [[<- <-]|[_ Hj]]; [by exists t|by exists u]. }
  split; [by destruct M| | | |by destruct W].
  - destruct H as [H1 H2 H3 H4 H4' H5 H6 H7 H8 H9 H10]. split; try done; cbn.
    + intros d Hd. destruct (H2 d Hd) as [X|(j & u & Hj & <-)]; [by left|right]. destruct (decide (j = k)) as [-> |N].
      * exists k, t'. rewrite lookup_insert_eq. split; [done|]. congruence.
      * exists j, u. by rewrite lookup_insert_ne.
    + intros j u Hj. destruct (Look j u Hj) as (v & Hv & ->). by apply (H3 j).
    + rewrite map_size_insert_Some; [done|]. by rewrite Hk.
    + intros j u. rewrite lookup_insert_Some. intros [[<- <-]|[_ Hj]]; [done|by apply (H4' j)].
  - destruct E as [E1 E2 E3 E4 E5]. split; try done. intros x a f Hx. destruct (E1 x a f Hx). by split.
  - destruct C as [C1 C2 C3]. split; try done. intros a Ha R. etransitivity; [by apply C1|]. unfold refs. cbn.
    rewrite (tally_update (fun t => cr3 t =? a) (tasks s) k t t' Hk), Hc. lia.
Qed.

Lemma on_task_ok ly s G k f t : inv ly s G -> tasks s !! k = Some t -> core (f t) = core t ->
  0 <= swap_table (swp (f t)) -> 0 <= swap_page (swp (f t)) ->
  exists s', on_task k f s = Some s' /\ s' = set_tasks (<[k := f t]> (tasks s)) s /\ inv ly s' G /\ reclaimed s G s' G.
Proof.
  intros I Hk Hc P1 P2. unfold on_task. rewrite Hk. cbn [mbind option_bind]. eexists. split; [done|]. split; [done|]. split.
  - eapply inv_task; try done. by injection Hc.
  - split; try done; [exists (ents G); by destruct G| |intros x b g Hx; by exists g]. cbn. rewrite fmap_insert, Hc. apply insert_id. by rewrite lookup_fmap, Hk.
Qed.

Lemma inv_swap_task ly s G x : inv ly s G -> 0 <= x -> inv ly (set_swap_task x s) G.
Proof.
  intros [M H E C W] Hx. split; [by destruct M|by destruct H| |by destruct C|by destruct W].
  destruct E as [E1 E2 E3 E4 E5]. split; try done. intros y a f Hy. destruct (E1 y a f Hy). by split.
Qed.

Lemma reclaimed_swap_task s G s' G' x : reclaimed s G s' G' -> reclaimed s G (set_swap_task x s') G'.
Proof. by intros []. Qed.

(** A task before and after. *)
Lemma core_lookup s s' k t : core <$> tasks s' = core <$> tasks s -> tasks s !! k = Some t -> exists t', tasks s' !! k = Some t' /\ core t' = core t.
Proof.
  intros E Hk. assert (L := f_equal (fun m => m !! k) E). cbn in L. rewrite !lookup_fmap, Hk in L.
  destruct (tasks s' !! k) as [t'|]; [|done]. exists t'. split; [done|]. cbn in L. congruence.
Qed.

Definition progress (ly : layout) (s : vm) (G : ghost) (r : option (bool * vm)) : Prop :=
  exists b s' G', r = Some (b, s') /\ inv ly s' G' /\ reclaimed s G s' G' /\ (b = true -> stock s < stock s').

Lemma progress_trans ly s G s1 G1 r : reclaimed s G s1 G1 -> progress ly s1 G1 r -> progress ly s G r.
Proof.
  intros A (b & s' & G' & -> & I & B & St). exists b, s', G'. split; [done|]. split; [done|]. split; [by eapply reclaimed_trans|].
  intros Hb. specialize (St Hb). destruct (r_more _ _ _ _ A). unfold stock in *. lia.
Qed.

Lemma progress_stay ly s G : inv ly s G -> progress ly s G (Some (false, s)).
Proof. intros I. exists false, s, G. split; [done|]. split; [done|]. split; [apply reclaimed_refl|done]. Qed.

Lemma light_same s G s' G' : reclaimed s G s' G' -> light G -> light G'.
Proof. intros [[es ->] _ _ _ _ _ _ _ _ _ _] H. exact H. Qed.

Lemma swap_out_pages_ok ly k i d t : forall n page s G v, inv ly s G -> light G -> tasks s !! k = Some v -> tabs G !! (d, i) = Some t ->
  0 <= i -> 0 <= page -> page + Z.of_nat n <= 1024 \/ n = O -> progress ly s G (swap_out_pages n k i t page s).
Proof.
  induction n as [|n IH]; intros page s G v I Lt Hk Ht Hi Hp Hn; cbn [swap_out_pages].
  - destruct (h_place _ _ _ (i_shape _ _ _ I) k v Hk).
    destruct (on_task_ok ly s G k (fun t => set_place (swap_table (swp t)) 0 t) v I Hk) as (s' & -> & _ & I' & Rc); [done|done|done|].
    cbn [mbind option_bind]. by exists false, s', G.
  - destruct Hn as [Hn|]; [|done].
    destruct (try_to_swap_out_ok ly s G d i page t I Lt Ht ltac:(lia)) as (r & s1 & G1 & -> & I1 & R1 & St1). cbn [mbind option_bind].
    destruct (core_lookup _ _ _ _ (r_tasks _ _ _ _ R1) Hk) as (v1 & Hk1 & _).
    assert (Ht1 : tabs G1 !! (d, i) = Some t) by (destruct (r_ghost _ _ _ _ R1) as [es ->]; done).
    assert (L1 := light_same _ _ _ _ R1 Lt). destruct (h_place _ _ _ (i_shape _ _ _ I1) k v1 Hk1) as [Q1 Q2].
    destruct (r =? 0). { eapply progress_trans; [exact R1|]. apply (IH (page + 1) s1 G1 v1); try done; lia. }
    destruct (on_task_ok ly s1 G1 k (fun t => set_rss (u16 (rss t - 1)) t) v1 I1 Hk1) as (s2 & -> & E2 & I2 & R2); [done|done|done|].
    cbn [mbind option_bind]. assert (R12 := reclaimed_trans _ _ _ _ _ _ R1 R2).
    assert (Hk2 : tasks s2 !! k = Some (set_rss (u16 (rss v1 - 1)) v1)) by (rewrite E2; apply lookup_insert_eq).
    destruct (Z.eqb_spec r 1) as [-> |].
    + rewrite Hk2. cbn [mbind option_bind]. cbv zeta.
      match goal with |- context [on_task k (set_swp ?w) s2] =>
        destruct (on_task_ok ly s2 G1 k (set_swp w) _ I2 Hk2) as (s3 & -> & E3 & I3 & R3); [done|cbn; lia|cbn; lia|] end.
      cbn [mbind option_bind]. assert (R13 := reclaimed_trans _ _ _ _ _ _ R12 R3). assert (W := w_task _ _ (i_swap _ _ _ I3)).
      eexists true, _, G1. split; [done|]. split; [|split].
      * apply inv_swap_task; [done|]. case_bool; lia.
      * by apply reclaimed_swap_task.
      * intros _. specialize (St1 eq_refl). destruct (r_more _ _ _ _ (reclaimed_trans _ _ _ _ _ _ R2 R3)). unfold stock in *. cbn. lia.
    + eapply progress_trans; [exact R12|]. apply (IH (page + 1) s2 G1 _ I2 L1 Hk2 Ht1); lia.
Qed.

(** ** Directories *)

Section Dir.
Context (ly : layout) (s : vm) (G : ghost) (I : inv ly s G).

Lemma reserved_kernel a f : kernel_page s a -> 0 <= f < 4096 -> reserved (a + f) s = Some true.
Proof. intros [Hp R] Hf. unfold reserved. rewrite users_page by (try done; apply I). cbn. f_equal. exact R. Qed.

Lemma reserved_null : reserved 0 s = Some true.
Proof. destruct (m_null _ _ (i_mem _ _ _ I)) as (c & Hc & Rc). unfold reserved, users. change (MAP_NR 0) with 0. rewrite Hc. cbn. by rewrite Rc. Qed.

Lemma dir_readable d : d ∈ dirs G \/ d = swapper_pg_dir ly -> readable s d.
Proof. intros [H| ->]; [left; by apply (h_dirs _ _ _ (i_shape _ _ _ I))|right; apply I]. Qed.

(** A word of a directory: the kernel's, or a table of ours. *)
Lemma dir_word d i : d ∈ dirs G \/ d = swapper_pg_dir ly -> 0 <= i < 1024 ->
  (reserved (wd s d i) s = Some true /\ 0 <= wd s d i < high_memory (pages s)
    /\ (wd s d i = 0 \/ exists t f, wd s d i = t + f /\ kernel_page s t /\ 0 <= f < 4096 /\ has f PAGE_PRESENT = true))
  \/ exists t, wd s d i = t + PAGE_TABLE /\ tabs G !! (d, i) = Some t /\ d ∈ dirs G /\ i < 768.
Proof.
  intros Hd Hi. assert (M := m_ok _ _ (i_mem _ _ _ I)).
  assert (Hh : 0 < high_memory (pages s)) by (destruct M as (fl & sl & L); destruct (l_high _ _ _ L); lia).
  assert (K : forall w, kent s w -> reserved w s = Some true /\ 0 <= w < high_memory (pages s)
     /\ (w = 0 \/ exists t f, w = t + f /\ kernel_page s t /\ 0 <= f < 4096 /\ has f PAGE_PRESENT = true)).
  { intros w [-> |(t & f & -> & Kp & Hf & Pr)].
    - split; [apply reserved_null|]. split; [lia|]. by left.
    - split; [by apply reserved_kernel|]. split; [|right; by exists t, f]. assert (X := page_high s t f M (proj1 Kp) Hf). destruct Kp as [[? _] _]. lia. }
  destruct Hd as [Hd| ->]; [|left; apply K; by apply (m_kent _ _ (i_mem _ _ _ I))].
  destruct (Z.lt_ge_cases i 768) as [Lo|Hg]; [|left; apply K; apply (h_high _ _ _ (i_shape _ _ _ I)); [done|lia]].
  destruct (h_low _ _ _ (i_shape _ _ _ I) d i Hd ltac:(lia)) as [E|(_ & _ & E)].
  - rewrite E. destruct (decide _); [left; apply K; by left|]. destruct (tabs G !! (d, i)) as [t|]; cbn; [right; by exists t|left; apply K; by left].
  - left. rewrite E. apply K. right. exists (empty_bad_page_table ly), PAGE_TABLE. split; [done|]. split; [apply I|]. split; [|done]. change PAGE_TABLE with 39. lia.
Qed.

Lemma table_word d i t : tabs G !! (d, i) = Some t ->
  0 <= t + PAGE_TABLE < high_memory (pages s) /\ reserved (t + PAGE_TABLE) s = Some false /\ has (t + PAGE_TABLE) PAGE_PRESENT = true
  /\ Z.land (t + PAGE_TABLE) PAGE_MASK = t /\ Z.land PAGE_MASK (t + PAGE_TABLE) = t /\ t + PAGE_TABLE <> 0
  /\ Z.land (t + PAGE_TABLE) PAGE_TABLE = PAGE_TABLE.
Proof.
  intros Ht. destruct (h_tabs _ _ _ (i_shape _ _ _ I) d i t Ht) as (_ & _ & (Hp & Hc & R) & _). assert (M := m_ok _ _ (i_mem _ _ _ I)).
  assert (F : 0 <= PAGE_TABLE < 4096) by (change PAGE_TABLE with 39; lia). assert (Al := page_align s t Hp). assert (Rg := page_range s t M Hp).
  assert (X := page_high s t PAGE_TABLE M Hp F). split; [lia|]. split.
  { unfold reserved. rewrite users_page by done. cbn. f_equal. exact R. }
  rewrite has_flags by (try done; unfold PAGE_PRESENT; lia). split; [done|].
  destruct (mask_flags t PAGE_TABLE Al F ltac:(lia)) as [E1 E2]. split; [done|]. split; [done|]. split; [lia|].
  rewrite land_flags by done. done.
Qed.
End Dir.

Lemma swap_out_tables_ok ly k : forall n i s G v, inv ly s G -> light G -> tasks s !! k = Some v ->
  0 <= i -> i + Z.of_nat n <= 1024 \/ n = O -> progress ly s G (swap_out_tables n k i s).
Proof.
  induction n as [|n IH]; intros i s G v I Lt Hk Hi Hn; cbn [swap_out_tables].
  - destruct (h_place _ _ _ (i_shape _ _ _ I) k v Hk).
    destruct (on_task_ok ly s G k (fun t => set_place 0 (swap_page (swp t)) t) v I Hk) as (s' & -> & _ & I' & Rc); [done|done|done|].
    cbn [mbind option_bind]. by exists false, s', G.
  - destruct Hn as [Hn|]; [|done]. rewrite Hk. cbn [mbind option_bind]. assert (Hd := h_tasks _ _ _ (i_shape _ _ _ I) k v Hk).
    rewrite (rd_ok ly s (i_mem _ _ _ I) (cr3 v) i) by (try (by eapply dir_readable); lia). cbn [mbind option_bind].
    destruct (dir_word ly s G I (cr3 v) i Hd ltac:(lia)) as [(Rw & Hw & _)|(t & Ew & Ht & Hin & Hlo)].
    + destruct (Z.leb_spec (high_memory (pages s)) (wd s (cr3 v) i)); [lia|]. rewrite Rw. cbn [mbind option_bind].
      apply (IH (i + 1) s G v); try done; lia.
    + rewrite Ew. destruct (table_word ly s G I _ _ _ Ht) as (T1 & T2 & T3 & T4 & _).
      destruct (Z.leb_spec (high_memory (pages s)) (t + PAGE_TABLE)); [lia|]. rewrite T2. cbn [mbind option_bind]. rewrite T3, T4. cbn [negb].
      destruct (h_place _ _ _ (i_shape _ _ _ I) k v Hk) as [P1 P2].
      destruct (swap_out_pages_ok ly k i (cr3 v) t (Z.to_nat (PTRS_PER_PAGE - swap_page (swp v))) (swap_page (swp v)) s G v I Lt Hk Ht)
        as (b & s1 & G1 & -> & I1 & R1 & St); [lia|lia|change PTRS_PER_PAGE with 1024; lia|]. cbn [mbind option_bind]. destruct b.
      * by exists true, s1, G1.
      * destruct (core_lookup _ _ _ _ (r_tasks _ _ _ _ R1) Hk) as (v1 & Hk1 & _). eapply progress_trans; [exact R1|].
        apply (IH (i + 1) s1 G1 v1); try done; [by eapply light_same|lia|lia].
Qed.

(** ** The choice of a process *)

(** The rounds of [find_swap_task] that may be needed. *)
Definition rounds (loop : bool) (x : Z) : Z := Z.max 0 (NR_TASKS - x) + 1 + if loop then 0 else NR_TASKS.

Lemma find_swap_task_ok : forall fuel loop s, 0 <= swap_task s -> rounds loop (swap_task s) <= Z.of_nat fuel ->
  exists r x, find_swap_task fuel loop s = Some (r, set_swap_task x s) /\ 0 <= x /\ forall k, r = Some k -> is_Some (tasks s !! k).
Proof.
  induction fuel as [|fuel IH]; intros loop s Hs Hf; [unfold rounds, NR_TASKS in Hf; destruct loop; lia|].
  cbn [find_swap_task]. set (wrap := NR_TASKS <=? swap_task s). set (s1 := if wrap then set_swap_task 1 s else s).
  assert (E1 : exists x, 0 <= x /\ s1 = set_swap_task x s /\ x = (if wrap then 1 else swap_task s)).
  { subst s1. destruct wrap; [by exists 1|exists (swap_task s)]. split; [done|]. split; [by destruct s|done]. }
  destruct E1 as (x & Hx & E1 & Ex). rewrite E1. destruct (wrap && loop) eqn:Ewl; [by exists None, x|].
  assert (Nx : exists r y, find_swap_task fuel (wrap || loop) (set_swap_task (x + 1) s) = Some (r, set_swap_task y s)
     /\ 0 <= y /\ forall k, r = Some k -> is_Some (tasks s !! k)).
  { destruct (IH (wrap || loop) (set_swap_task (x + 1) s)) as (r & y & E & Hy & K); [cbn; lia| |by exists r, y].
    cbn [swap_task set_swap_task]. unfold rounds, NR_TASKS in *. subst x wrap.
    destruct (Z.leb_spec 128 (swap_task s)); destruct loop; cbn in *; try done; lia. }
  cbn [swap_task set_swap_task tasks]. change (set_swap_task (x + 1) (set_swap_task x s)) with (set_swap_task (x + 1) s).
  destruct (tasks s !! x) as [t|] eqn:Ht; [|exact Nx]. destruct (swappable t && negb (rss t =? 0)); [|exact Nx].
  exists (Some x), x. split; [done|]. split; [done|]. intros k [= <-]. by eexists.
Qed.

Lemma count_swaps_core t : core (count_swaps t) = core t /\ swap_table (swp (count_swaps t)) = swap_table (swp t)
  /\ swap_page (swp (count_swaps t)) = swap_page (swp t).
Proof. unfold count_swaps. repeat (destruct (_ : bool); try done). Qed.

Lemma swap_out_loop_ok ly : forall n s G, inv ly s G -> light G -> progress ly s G (swap_out_loop n s).
Proof.
  induction n as [|n IH]; intros s G I Lt; cbn [swap_out_loop]; [by apply progress_stay|].
  destruct (find_swap_task_ok find_fuel false s (w_task _ _ (i_swap _ _ _ I))) as (r & x & -> & Hx & K).
  { unfold rounds, find_fuel, NR_TASKS. assert (W := w_task _ _ (i_swap _ _ _ I)). lia. }
  cbn [mbind option_bind]. set (s1 := set_swap_task x s). assert (I1 : inv ly s1 G) by by apply inv_swap_task.
  assert (R1 : reclaimed s G s1 G) by apply reclaimed_swap_task, reclaimed_refl.
  eapply progress_trans; [exact R1|]. destruct r as [k|]; [|by apply progress_stay].
  destruct (K k eq_refl) as [t Ht]. destruct (h_place _ _ _ (i_shape _ _ _ I1) k t Ht) as [P1 P2].
  destruct (count_swaps_core t) as (C1 & C2 & C3).
  destruct (on_task_ok ly s1 G k count_swaps t I1 Ht C1) as (s2 & -> & E2 & I2 & R2); [by rewrite C2|by rewrite C3|].
  cbn [mbind option_bind]. assert (Ht2 : tasks s2 !! k = Some (count_swaps t)) by (rewrite E2; apply lookup_insert_eq). rewrite Ht2.
  cbn [mbind option_bind]. rewrite C2. eapply progress_trans; [exact R2|].
  destruct (swap_out_tables_ok ly k (Z.to_nat (PTRS_PER_PAGE - swap_table (swp t))) (swap_table (swp t)) s2 G (count_swaps t) I2 Lt Ht2)
    as (b & s3 & G3 & -> & I3 & R3 & St); [done|change PTRS_PER_PAGE with 1024; lia|]. cbn [mbind option_bind].
  destruct b; [by exists true, s3, G3|]. assert (W3 := w_task _ _ (i_swap _ _ _ I3)).
  eapply progress_trans; [exact (reclaimed_swap_task _ _ _ _ (swap_task s3 + 1) R3)|]. apply IH; [apply inv_swap_task; [done|lia]|].
  by eapply light_same.
Qed.

Lemma try_to_free_page_ok ly : forall i s G, inv ly s G -> light G -> progress ly s G (try_to_free_page i s).
Proof.
  induction i as [|i IH]; intros s G I Lt; cbn [try_to_free_page]; [by apply progress_stay|].
  destruct (swap_out_loop_ok ly (S (Z.to_nat (Z.shiftr (NR_TASKS * 2) (Z.of_nat i)))) s G I Lt) as (b & s1 & G1 & E & I1 & R1 & St).
  unfold swap_out. rewrite E. cbn [mbind option_bind]. destruct b; [by exists true, s1, G1|].
  eapply progress_trans; [exact R1|]. apply IH; [done|]. by eapply light_same.
Qed.
End VmReclaim.
