(* ===== verification/VmAlloc.v ===== *)
(** * Getting a page: [__get_free_page] and [get_free_page] over swapping

    A page comes from the free lists, after pages were taken from processes if that is
    needed.  Either way nothing that a process sees changes ([kept]), and the page has
    no other user. *)

From S2P Require Import Prelude PageAlloc Vm VmBits VmInv VmCount VmSwap VmReclaim.
From Stdlib Require Import ZArith Lia.
From stdpp Require Import base list gmap numbers.
Local Open Scope Z_scope.

Module VmAlloc.
Import PageAlloc Vm VmBits VmInv VmCount VmSwap VmReclaim.

(** What getting a page keeps. *)
Record kept (s : vm) (G : ghost) (s' : vm) (G' : ghost) : Prop := {
  k_dirs : dirs G' = dirs G;
  k_tabs : tabs G' = tabs G;
  k_unlinked : unlinked G' = unlinked G;
  k_lost : lost G' = lost G;
  k_swheld : swheld G' = swheld G;
  k_held a : a ∈ held G -> a ∈ held G';
  k_seen x : seen s' G' x = seen s G x;
  k_keep x : (forall a f, ents G !! x <> Some (Pg a f)) -> ents G' !! x = ents G !! x;
  k_page x a f : ents G !! x = Some (Pg a f) -> kernel_page s a -> ents G' !! x = Some (Pg a f);
  k_tasks : core <$> tasks s' = core <$> tasks s;
  k_frames a : (forall x, tabs G !! x <> Some a) -> a ∈ dirs G \/ a ∈ held G \/ kernel_page s a -> frames s' !! a = frames s !! a;
  k_disk e : (exists x, ents G !! x = Some (Sw e)) \/ e ∈ swheld G -> disk s' !! e = disk s !! e;
  k_high : high_memory (pages s') = high_memory (pages s);
  k_res a : is_page (pages s) a -> is_res s' a = is_res s a;
  k_from x a f : ents G' !! x = Some (Pg a f) -> exists g, ents G !! x = Some (Pg a g)
}.

Lemma kept_refl s G : kept s G s G.
Proof. split; try done. intros x a f Hx. by exists f. Qed.

Lemma kept_kernel s G s' G' a : kept s G s' G' -> kernel_page s a -> kernel_page s' a.
Proof. intros K [Hp R]. split; [unfold is_page; by rewrite (k_high _ _ _ _ K)|]. by rewrite (k_res _ _ _ _ K). Qed.

Lemma kept_trans s G s1 G1 s2 G2 : kept s G s1 G1 -> kept s1 G1 s2 G2 -> kept s G s2 G2.
Proof.
  intros A B. assert (KA := fun a => kept_kernel _ _ _ _ a A). destruct A as [a1 a2 a3 a4 a5 a6 a7 a8 a9 a10 a11 a12 a13 a14 a15].
  destruct B as [b1 b2 b3 b4 b5 b6 b7 b8 b9 b10 b11 b12 b13 b14 b15]. split; try congruence; eauto.
  - intros x Hx. rewrite b8; [by apply a8|]. intros a f. rewrite a8 by done. apply Hx.
  - intros a Ht Ha. rewrite b11; [by apply a11|by rewrite a2|]. rewrite a1. destruct Ha as [?|[?|?]]; auto.
  - intros e He. rewrite b12; [by apply a12|]. destruct He as [[x Hx]|He]; [left; exists x|right; by rewrite a5].
    rewrite a8; [done|]. intros a f. by rewrite Hx.
  - intros a Ha. rewrite b14; [by apply a14|]. unfold is_page in *. by rewrite a13.
  - intros x a f Hx. destruct (b15 x a f Hx) as [g Hg]. by apply (a15 x a g).
Qed.

Lemma reclaimed_kept s G s' G' : reclaimed s G s' G' -> kept s G s' G'.
Proof. intros [[es ->] r2 r3 r4 r5 r6 r7 r8 r9 r10 r11]. split; try done. intros a H _. by apply r6. Qed.

(** A page nobody uses becomes ours. *)
Definition got (ly : layout) (s : vm) (G : ghost) (r : option (Z * vm)) : Prop :=
  exists a s' G', r = Some (a, s') /\ inv ly s' G' /\ kept s G s' G'
    /\ (a = 0 /\ held G' = held G \/ a <> 0 /\ held G' = a :: held G /\ private s' G' a).

Lemma got_trans ly s G s1 G1 r : reclaimed s G s1 G1 -> got ly s1 G1 r -> got ly s G r.
Proof.
  intros A (a & s' & G' & -> & I & B & C). exists a, s', G'. split; [done|]. split; [done|].
  split; [eapply kept_trans; [by apply reclaimed_kept|done]|]. destruct (r_ghost _ _ _ _ A) as [es ->]. exact C.
Qed.

Lemma got_page ly s G a m' : inv ly s G -> light G -> mem_ok m' -> high_memory m' = high_memory (pages s) ->
  is_page (pages s) a -> count (pages s) a = 0 -> count m' a = 1 ->
  (forall q, q mod 4096 = 0 -> q <> a -> count m' q = count (pages s) q) -> got ly s G (Some (a, set_pages m' s)).
Proof.
  intros I Lt M H Hp C0 C1 Co. destruct Lt as [L1 L2].
  destruct (inv_alloc ly s G I m' a M H Hp C0 C1 Co ltac:(lia)) as [I' P].
  exists a, (set_pages m' s), (set_held (a :: held G) G). split; [done|]. split; [done|]. split.
  - split; try done.
    + intros b Hb. by right.
    + intros b Hb. destruct (decide (b = a)) as [-> |N].
      * unfold is_res, cnt. cbn [pages set_pages]. by rewrite C1, C0.
      * unfold is_res, cnt. cbn [pages set_pages]. by rewrite Co by (try done; by apply page_align with s).
    + intros x b f Hx. by exists f.
  - right. split; [|done]. assert (X := page_range s a (m_ok _ _ (i_mem _ _ _ I)) Hp). lia.
Qed.

(** The rounds [get_free_page_loop] needs. *)
Definition tries (s : vm) : Z :=
  if 0 <? nr (free_page_list (pages s)) then 1 else MAX_SECONDARY_PAGES + 2 - nr (secondary_page_list (pages s)).

Lemma get_free_page_loop_ok ly : forall fuel s G, inv ly s G -> light G -> tries s <= Z.of_nat fuel -> got ly s G (get_free_page_loop fuel s).
Proof.
  induction fuel as [|fuel IH]; intros s G I Lt Hf.
  { destruct (m_ok _ _ (i_mem _ _ _ I)) as (fl & sl & L). destruct (l_nr_secondary _ _ _ L). unfold tries, MAX_SECONDARY_PAGES in *.
    destruct (0 <? _); lia. }
  destruct (m_ok _ _ (i_mem _ _ _ I)) as (fl & sl & L). cbn [get_free_page_loop].
  destruct (remove_free_spec (pages s) fl sl L) as [[-> ->]|(p & fl' & m' & -> & -> & L' & Hp & C0 & C1 & Co & Hh)].
  2:{ cbn [mbind option_bind]. assert (X := page_range s p (m_ok _ _ (i_mem _ _ _ I)) Hp). destruct (Z.eqb_spec p 0); [lia|]. cbn [negb].
      apply got_page; try done. by exists fl', sl. }
  cbn [mbind option_bind]. rewrite Z.eqb_refl. cbn [negb]. replace (set_pages (pages s) s) with s by by destruct s.
  destruct (try_to_free_page_ok ly 6 s G I Lt) as (b & s1 & G1 & -> & I1 & R1 & St). cbn [mbind option_bind].
  eapply got_trans; [exact R1|]. assert (Lt1 := light_same _ _ _ _ R1 Lt). destruct b.
  - apply IH; [done|done|]. specialize (St eq_refl). assert (N0 := l_nr_free _ _ _ L). cbn in N0.
    destruct (m_ok _ _ (i_mem _ _ _ I1)) as (fl1 & sl1 & L1). assert (A1 := l_nr_free _ _ _ L1). destruct (l_nr_secondary _ _ _ L1) as [A2 A3].
    unfold tries, stock, MAX_SECONDARY_PAGES in *. destruct (Z.ltb_spec 0 (nr (free_page_list (pages s)))); [lia|].
    destruct (l_nr_secondary _ _ _ L). unfold MAX_SECONDARY_PAGES in *.
    destruct (Z.ltb_spec 0 (nr (free_page_list (pages s1)))); lia.
  - destruct (m_ok _ _ (i_mem _ _ _ I1)) as (fl1 & sl1 & L1).
    destruct (remove_secondary_spec (pages s1) fl1 sl1 L1) as [[-> ->]|(p & sl' & m' & -> & -> & L' & Hp & C0 & C1 & Co & Hh)]; cbn [mbind option_bind].
    + replace (set_pages (pages s1) s1) with s1 by by destruct s1. exists 0, s1, G1. split; [done|]. split; [done|]. split; [apply kept_refl|by left].
    + apply got_page; try done. by exists fl1, sl'.
Qed.

Lemma get_free_page_raw ly s G : inv ly s G -> light G -> got ly s G (__get_free_page s).
Proof.
  intros I Lt. apply get_free_page_loop_ok; [done|done|]. destruct (m_ok _ _ (i_mem _ _ _ I)) as (fl & sl & L).
  destruct (l_nr_secondary _ _ _ L). unfold tries, MAX_SECONDARY_PAGES in *. destruct (0 <? _); lia.
Qed.

(** A page of our own may be written. *)
Lemma private_frame ly s G a f : inv ly s G -> private s G a -> length f = 1024%nat ->
  inv ly (set_frames (<[a := f]> (frames s)) s) G /\ private (set_frames (<[a := f]> (frames s)) s) G a
  /\ forall x, seen (set_frames (<[a := f]> (frames s)) s) G x = seen s G x.
Proof.
  intros I [(U1 & U2 & U3) P2 P3 P4 P5] Hl. split; [|split].
  - apply inv_frame; try done.
    + intros ->. destruct (m_swapper _ _ (i_mem _ _ _ I)). congruence.
    + intros ->. destruct (m_zero _ _ (i_mem _ _ _ I)). congruence.
    + intros x fl Hx. by destruct (P4 x fl).
  - by split.
  - intros x. unfold seen. destruct (ents G !! x) as [[b g|e]|] eqn:E; try done. cbn. rewrite lookup_insert_ne; [done|].
    intros ->. by apply (P4 x g).
Qed.

Lemma get_free_page_ok ly s G : inv ly s G -> light G ->
  exists a s' G', get_free_page s = Some (a, s') /\ inv ly s' G' /\ kept s G s' G'
    /\ (a = 0 /\ held G' = held G \/ a <> 0 /\ held G' = a :: held G /\ private s' G' a /\ frames s' !! a = Some zeros).
Proof.
  intros I Lt. destruct (get_free_page_raw ly s G I Lt) as (a & s' & G' & E & I' & K & H). unfold get_free_page. rewrite E.
  cbn [mbind option_bind]. destruct H as [[-> Hh]|(Na & Hh & P)].
  - exists 0, s', G'. cbn. split; [done|]. split; [done|]. split; [done|]. by left.
  - destruct (Z.eqb_spec a 0); [done|]. cbn [negb]. destruct (private_frame ly s' G' a zeros I' P eq_refl) as (I2 & P2 & S2).
    eexists a, _, G'. split; [done|]. split; [done|]. split.
    2:{ right. split; [done|]. split; [done|]. split; [done|]. cbn. apply lookup_insert_eq. }
    assert (Dif : forall b, a = b -> b ∈ dirs G \/ b ∈ held G \/ kernel_page s b -> False).
    { intros b <- [Hd|[Hin|Hk]].
      - apply (p_dirs _ _ _ P). by rewrite (k_dirs _ _ _ _ K).
      - destruct P as [(U1 & U2 & U3) _ _ _ P5]. assert (C := c_refs _ _ (i_counted _ _ _ I') a U1 U3). unfold refs in C. rewrite P5, Hh, refs_cons, Z.eqb_refl in C. unfold tick in C.
        assert (T1 := tally_nonneg (at_page a) (ents G')). assert (T2 := tally_nonneg (fun t => t =? a) (tabs G')).
        assert (T3 := tally_nonneg (fun t => cr3 t =? a) (tasks s')). assert (O := refs_in a (held G) Hin). lia.
      - destruct (kept_kernel _ _ _ _ a K Hk) as [_ X]. destruct P as [(_ & _ & U3) _ _ _ _]. congruence. }
    destruct K as [k1 k2 k3 k4 k5 k6 k7 k8 k9 k10 k11 k12 k13 k14 k15]. split; try done.
    + intros x. by rewrite S2.
    + intros b Ht Hb. cbn. rewrite lookup_insert_ne by (intros ->; by eapply Dif). by apply k11.
Qed.
End VmAlloc.
