(* ===== verification/VmTables.v ===== *)
(** * Directories and tables: words of directories, and tables and directories that
      come and go

    The ghost state changes with the writes to a directory; a page becomes a table or
    a directory, or ceases to be one, without any write. *)

From S2P Require Import Prelude PageAlloc Vm VmBits VmInv VmCount VmSwap VmReclaim.
From Stdlib Require Import ZArith Lia.
From stdpp Require Import base list gmap numbers.
Local Open Scope Z_scope.

Module VmTables.
Import PageAlloc Vm VmBits VmInv VmCount VmSwap VmReclaim.

Lemma swap_inv_ghost s G G' : swap_inv s G -> ents G' = ents G -> swheld G' = swheld G -> swap_inv s G'.
Proof.
  intros [W1 W2 W3 W4] E1 E2. split; [done| |by rewrite E2|done]. intros ty p Hp. destruct (W2 ty p Hp) as [F1 F2 F3 F4 F5].
  split; try done. unfold srefs in *. by rewrite E1, E2.
Qed.

(** ** A word of a directory *)

Section Dir.
Context (ly : layout) (s : vm) (G : ghost) (I : inv ly s G) (d i : Z) (Hd : d ∈ dirs G) (Hi : 0 <= i < 1024).

Lemma dir_use : in_use s d.
Proof. by apply (h_dirs _ _ _ (i_shape _ _ _ I)). Qed.

Lemma dir_not_kernel a : kernel_page s a -> d <> a.
Proof. intros [_ H] E. rewrite <- E in H. destruct dir_use as (_ & _ & R). congruence. Qed.

Lemma wd_dir v b k : wd (upd d i v s) b k = if bool_decide (b = d /\ k = i) then v else wd s b k.
Proof. apply (wd_upd_ok ly s (i_mem _ _ _ I)); [left; apply dir_use|done]. Qed.

Lemma wd_dir_ne v b k : b <> d -> wd (upd d i v s) b k = wd s b k.
Proof. intros N. rewrite wd_dir, bool_decide_eq_false_2; [done|]. tauto. Qed.

Lemma rd_dir : rd d i s = Some (wd s d i).
Proof. apply (rd_ok ly s (i_mem _ _ _ I)); [left; apply dir_use|done]. Qed.

Lemma wr_dir v : wr d i v s = Some (upd d i v s).
Proof. apply (wr_ok ly s (i_mem _ _ _ I)); [left; apply dir_use|done]. Qed.

Lemma frames_dir v a : a <> d -> frames (upd d i v s) !! a = frames s !! a.
Proof. intros N. apply frames_upd_ok; [left; apply dir_use|done|done]. Qed.

Lemma mem_inv_dir v : mem_inv ly (upd d i v s).
Proof.
  destruct (i_mem _ _ _ I) as [M1 M2 M3 M4 M5 M6 M7 M8 M9 M10]. split; try done.
  - intros a Ha. destruct (M2 a Ha) as (f & Hf & Hl).
    destruct (frames_upd_ok s d i v a ltac:(left; apply dir_use) Hi) as [F _]. destruct (F f Ha Hf) as (f' & Hf' & Hl').
    exists f'. split; [done|]. congruence.
  - rewrite frames_dir; [done|]. apply not_eq_sym, dir_not_kernel, M6.
  - intros k Hk. rewrite wd_dir_ne; [apply M9; done|]. apply not_eq_sym, dir_not_kernel, M3.
Qed.

(** Data pages are not directories, and what is seen stays. *)
Lemma data_not_dir x a f : ents G !! x = Some (Pg a f) -> a <> d.
Proof.
  intros Hx E. rewrite E in Hx. destruct (n_page _ _ _ (i_entries _ _ _ I) x d f Hx) as [E1 E2 E3 E4 E5 E6 E7].
  destruct dir_use as (_ & _ & R). destruct (E5 R) as [X _]. done.
Qed.

Lemma seen_dir v G' x : ents G' = ents G -> seen (upd d i v s) G' x = seen s G x.
Proof.
  intros E. unfold seen. rewrite E. destruct (ents G !! x) as [[a f|e]|] eqn:Hx; try done. rewrite frames_dir; [done|]. by eapply data_not_dir.
Qed.

(** What the word [v] of entry [i] may be, for [unlinked'] and [lost']. *)
Definition dir_fits (v : Z) (unlinked' : gset (Z * Z)) (lost' : gset Z) : Prop :=
  if i <? 768 then
    v = (if decide ((d, i) ∈ unlinked') then 0 else from_option (fun t => t + PAGE_TABLE) 0 (tabs G !! (d, i)))
    \/ d ∈ lost' /\ tabs G !! (d, i) = None /\ v = empty_bad_page_table ly + PAGE_TABLE
  else kent s v.

Lemma inv_dir v unlinked' lost' : dir_fits v unlinked' lost' -> lost G ⊆ lost' ->
  (forall x, x <> (d, i) -> (x ∈ unlinked' <-> x ∈ unlinked G)) ->
  inv ly (upd d i v s) (Ghost (dirs G) (tabs G) (ents G) (held G) (swheld G) unlinked' lost').
Proof.
  intros F Hl Hu. destruct I as [M H E C W]. split; [apply mem_inv_dir| | |by destruct C; split|apply (swap_inv_ghost (upd d i v s) G); [destruct W; by split|done|done]].
  - destruct H as [H1 H2 H3 H4 H4' H5 H6 H7 H8 H9 H10]. split; try done.
    + intros d' i' Hd' Hi'. cbn in *. rewrite wd_dir. case_bool_decide as B.
      * destruct B as [-> ->]. unfold dir_fits in F. destruct (Z.ltb_spec i 768); [done|lia].
      * assert (Nx : (d', i') <> (d, i)) by (intros [= -> ->]; by apply B).
        destruct (H5 d' i' Hd' Hi') as [X|(X & Y)]; [left|right; split; [by apply Hl|done]]. rewrite X.
        apply decide_ext. by rewrite (Hu _ Nx).
    + intros d' i' Hd' Hi'. cbn in *. rewrite wd_dir. case_bool_decide as B; [|by apply H6].
      destruct B as [-> ->]. unfold dir_fits in F. destruct (Z.ltb_spec i 768); [lia|done].
    + intros d' i' t j Ht Hj. cbn in *. rewrite wd_dir_ne; [by apply H10|]. intros ->. by destruct (H7 _ _ _ Ht) as (_ & _ & _ & X).
  - destruct E as [E1 E2 E3 E4 E5]. split; try done.
    + intros x a f Hx. assert (Nd := data_not_dir x a f Hx). destruct (E1 x a f Hx) as [P1 P2 P3 P4 P5 P6 P7]. split; try done.
      intros R D. rewrite frames_dir by done. by apply P7.
    + intros d' i' j f Hx. apply Hl. by eapply E2.
Qed.
End Dir.

(** ** Tables *)

Section Table.
Context (ly : layout) (s : vm) (G : ghost) (I : inv ly s G).

Lemma zeros_words a j : frames s !! a = Some zeros -> wd s a j = 0.
Proof.
  intros H. unfold wd. rewrite H. cbn [mbind option_bind]. unfold get. destruct (j <? 0); [done|]. unfold zeros.
  destruct (repeat 0 (Z.to_nat PTRS_PER_PAGE) !! Z.to_nat j) as [x|] eqn:E; [|done]. cbn.
  apply list_elem_of_lookup_2, list_elem_of_In, repeat_spec in E. done.
Qed.

(** A page of our own becomes the table of an entry that is still empty. *)
Lemma inv_adopt d i t K : d ∈ dirs G -> 0 <= i < 768 -> tabs G !! (d, i) = None -> wd s d i = 0 -> private s G t ->
  frames s !! t = Some zeros -> held G ≡ₚ t :: K ->
  inv ly s (Ghost (dirs G) (<[(d, i) := t]> (tabs G)) (ents G) K (swheld G) ({[(d, i)]} ∪ unlinked G) (lost G)).
Proof.
  intros Hd Hi Ht Hw [P1 P2 P3 P4 P5] Hz Pm. destruct I as [M H E C W].
  assert (Tn : forall x, tabs G !! x <> Some t) by done. split; [done| | | |].
  - destruct H as [H1 H2 H3 H4 H4' H5 H6 H7 H8 H9 H10]. split; try done; cbn.
    + intros d' Hd'. destruct (H2 d' Hd') as [X|X]; [left|by right]. rewrite Pm in X. apply elem_of_cons in X as [-> |X]; done.
    + intros d' i' Hd' Hi'. destruct (decide ((d', i') = (d, i))) as [[= -> ->]|N].
      * left. rewrite decide_True by (apply elem_of_union; left; by apply elem_of_singleton). done.
      * rewrite lookup_insert_ne by congruence. destruct (H5 d' i' Hd' Hi') as [X|X]; [left|by right]. rewrite X.
        apply decide_ext. rewrite elem_of_union, elem_of_singleton. tauto.
    + intros d' i' t'. destruct (decide ((d', i') = (d, i))) as [[= -> ->]|N].
      * rewrite lookup_insert_eq. by intros [= <-].
      * rewrite lookup_insert_ne by congruence. apply H7.
    + intros x y t'. destruct (decide (x = (d, i))) as [-> |Nx], (decide (y = (d, i))) as [-> |Ny]; [done| | |].
      * rewrite lookup_insert_eq, lookup_insert_ne by congruence. intros [= <-] X. by apply Tn in X.
      * rewrite lookup_insert_eq, lookup_insert_ne by congruence. intros X [= <-]. by apply Tn in X.
      * rewrite !lookup_insert_ne by congruence. apply H8.
    + intros d' i' j p X. destruct (H9 d' i' j p X) as [[t' Y] Z]. split; [|done]. rewrite lookup_insert_ne by congruence. by eexists.
    + intros d' i' t' j. destruct (decide ((d', i') = (d, i))) as [[= -> ->]|N].
      * rewrite lookup_insert_eq. intros [= <-] Hj. rewrite zeros_words by done.
        destruct (ents G !! (d, i, j)) eqn:X; [|done]. destruct (H9 _ _ _ _ X) as [[? Y] _]. congruence.
      * rewrite lookup_insert_ne by congruence. apply H10.
  - destruct E as [E1 E2 E3 E4 E5]. split; try done; cbn. intros x a f Hx. destruct (E1 x a f Hx) as [Q1 Q2 Q3 Q4 Q5 Q6 Q7]. split; try done.
    intros R. destruct (Q5 R) as [Y1 Y2]. split; [done|]. intros y. destruct (decide (y = (d, i))) as [-> |N].
    + rewrite lookup_insert_eq. intros [= ->]. by apply (P4 x f).
    + rewrite lookup_insert_ne by congruence. apply Y2.
  - destruct C as [C1 C2 C3]. split; cbn.
    + intros a Ha R. rewrite (C1 a Ha R). unfold refs. cbn. rewrite tally_insert by done. apply (occ_perm a) in Pm. rewrite Pm, refs_cons. unfold tick. lia.
    + intros a Ha. apply C2. rewrite Pm. by right.
    + apply Permutation_length in Pm. cbn in Pm. lia.
  - by apply (swap_inv_ghost s G).
Qed.

(** An empty table that no directory points to is just a page. *)
Lemma inv_disown d i t : tabs G !! (d, i) = Some t -> (d, i) ∈ unlinked G -> (forall j, ents G !! (d, i, j) = None) ->
  (length (held G) < 16)%nat ->
  inv ly s (Ghost (dirs G) (delete (d, i) (tabs G)) (ents G) (t :: held G) (swheld G) (unlinked G ∖ {[(d, i)]}) (lost G)).
Proof.
  intros Ht Hu He Hl. destruct I as [M H E C W]. assert (Tu := h_tabs _ _ _ H d i t Ht). split; [done| | | |].
  - destruct H as [H1 H2 H3 H4 H4' H5 H6 H7 H8 H9 H10]. split; try done; cbn.
    + intros d' Hd'. destruct (H2 d' Hd') as [X|X]; [left; by right|by right].
    + intros d' i' Hd' Hi'. destruct (decide ((d', i') = (d, i))) as [[= -> ->]|N].
      * left. rewrite lookup_delete_eq, decide_False by (rewrite elem_of_difference, elem_of_singleton; tauto). destruct (H5 d i Hd' Hi') as [X|(_ & X & _)]; [|congruence].
        by rewrite decide_True in X by done.
      * rewrite lookup_delete_ne by congruence. destruct (H5 d' i' Hd' Hi') as [X|X]; [left|by right]. rewrite X.
        apply decide_ext. rewrite elem_of_difference, elem_of_singleton. tauto.
    + intros d' i' t' X. apply lookup_delete_Some in X as [_ X]. by apply H7.
    + intros x y t' X Y. apply lookup_delete_Some in X as [_ X]. apply lookup_delete_Some in Y as [_ Y]. by eapply H8.
    + intros d' i' j p X. destruct (H9 d' i' j p X) as [[t' Y] Z]. split; [|done]. rewrite lookup_delete_ne; [by eexists|].
      intros [= <- <-]. by rewrite He in X.
    + intros d' i' t' j X. apply lookup_delete_Some in X as [_ X]. by apply H10.
  - destruct E as [E1 E2 E3 E4 E5]. split; try done; cbn. intros x a f Hx. destruct (E1 x a f Hx) as [Q1 Q2 Q3 Q4 Q5 Q6 Q7]. split; try done.
    intros R. destruct (Q5 R) as [Y1 Y2]. split; [done|]. intros y X. apply lookup_delete_Some in X as [_ X]. by apply Y2 in X.
  - destruct C as [C1 C2 C3]. split; cbn.
    + intros a Ha R. rewrite (C1 a Ha R). unfold refs. cbn. rewrite (tally_delete _ _ _ _ Ht), refs_cons. unfold tick. lia.
    + intros a Ha. apply elem_of_cons in Ha as [-> |Ha]; [|by apply C2]. destruct Tu as (_ & _ & (? & ? & ?) & _). done.
    + lia.
  - by apply (swap_inv_ghost s G).
Qed.
End Table.

(** ** Directories *)

Section Directory.
Context (ly : layout) (s : vm) (G : ghost) (I : inv ly s G).

(** An empty page of our own becomes a directory. *)
Lemma inv_new_dir d : private s G d -> d ∈ held G -> frames s !! d = Some zeros ->
  inv ly s (Ghost ({[d]} ∪ dirs G) (tabs G) (ents G) (held G) (swheld G) (unlinked G) (lost G ∖ {[d]})).
Proof.
  intros [P1 P2 P3 P4 P5] Hh Hz. destruct I as [M H E C W]. split; [done| | |by destruct C; split|by apply (swap_inv_ghost s G)].
  - destruct H as [H1 H2 H3 H4 H4' H5 H6 H7 H8 H9 H10].
    assert (N : forall d', d' ∈ {[d]} ∪ dirs G -> d' = d \/ d' <> d /\ d' ∈ dirs G).
    { intros d' X. apply elem_of_union in X as [X|X]; [left; by apply elem_of_singleton in X|right]. split; [|done]. by intros ->. }
    split; try done; cbn.
    + intros d' X. destruct (N d' X) as [-> |[_ Y]]; [done|by apply H1].
    + intros d' X. destruct (N d' X) as [-> |[_ Y]]; [by left|by apply H2].
    + intros k t Hk. destruct (H3 k t Hk); [left; apply elem_of_union; by right|by right].
    + intros d' i X Hi. destruct (N d' X) as [-> |[Nd Y]].
      * left. rewrite (zeros_words s d i Hz). assert (T : tabs G !! (d, i) = None).
        { destruct (tabs G !! (d, i)) eqn:Et; [|done]. by destruct (H7 _ _ _ Et) as [? _]. }
        rewrite T. by destruct (decide _).
      * destruct (H5 d' i Y Hi) as [Z|(Z & Z')]; [by left|right]. split; [|done]. apply elem_of_difference. split; [done|]. by rewrite elem_of_singleton.
    + intros d' i X Hi. destruct (N d' X) as [-> |[Nd Y]]; [|by apply H6]. left. by apply zeros_words.
    + intros d' i t Ht. destruct (H7 d' i t Ht) as (Y1 & Y2 & Y3 & Y4). split; [apply elem_of_union; by right|]. split; [done|]. split; [done|].
      intros X. destruct (N t X) as [-> |[_ Y]]; [by apply (P3 (d', i))|done].
  - assert (Dn : forall d' i j p, ents G !! (d', i, j) = Some p -> d' <> d).
    { intros d' i j p X ->. destruct (h_ents _ _ _ H _ _ _ _ X) as [[t Y] _]. by destruct (h_tabs _ _ _ H _ _ _ Y) as [? _]. }
    destruct E as [E1 E2 E3 E4 E5]. split; try done; cbn.
    + intros x a f Hx. destruct (E1 x a f Hx) as [Q1 Q2 Q3 Q4 Q5 Q6 Q7]. split; try done.
      intros R. destruct (Q5 R) as [Y1 Y2]. split; [|done]. rewrite elem_of_union, elem_of_singleton. intros [-> |?]; [by apply (P4 x f)|done].
    + intros d' i j f X. apply elem_of_difference. split; [by eapply E2|]. rewrite elem_of_singleton. by eapply Dn.
Qed.

(** A directory without tables is just a page. *)
Lemma inv_drop_dir d : d ∈ held G -> (forall i, tabs G !! (d, i) = None) -> (forall k t, tasks s !! k = Some t -> cr3 t <> d) ->
  inv ly s (set_dirs (dirs G ∖ {[d]}) G).
Proof.
  intros Hh Ht Hk. destruct I as [M H E C W]. split; [done| | |by destruct C; split|by apply (swap_inv_ghost s G)].
  - destruct H as [H1 H2 H3 H4 H4' H5 H6 H7 H8 H9 H10].
    assert (N : forall d', d' ∈ dirs G ∖ {[d]} -> d' ∈ dirs G) by (intros d' X; by apply elem_of_difference in X as [X _]).
    split; try done; cbn; auto.
    + intros k t X. destruct (H3 k t X); [left|by right]. apply elem_of_difference. split; [done|]. rewrite elem_of_singleton. by eapply Hk.
    + intros d' i t X. destruct (H7 d' i t X) as (Y1 & Y2 & Y3 & Y4). split; [|split; [done|split; [done|auto]]].
      apply elem_of_difference. split; [done|]. rewrite elem_of_singleton. intros ->. by rewrite Ht in X.
  - destruct E as [E1 E2 E3 E4 E5]. split; try done; cbn. intros x a f Hx. destruct (E1 x a f Hx) as [Q1 Q2 Q3 Q4 Q5 Q6 Q7]. split; try done.
    intros R. destruct (Q5 R) as [Y1 Y2]. split; [|done]. intros X. by apply elem_of_difference in X as [X _].
Qed.

(** ** Tasks *)

(** The reference that a task has to its directory. *)
Definition dir_of (t : vtask) : list Z := if is_res s (cr3 t) then [] else [cr3 t].

Lemma in_dir_of a t : a ∈ dir_of t -> a = cr3 t /\ is_res s a = false.
Proof. unfold dir_of. destruct (is_res s (cr3 t)) eqn:E; [by intros ?%elem_of_nil|]. by intros ->%list_elem_of_singleton. Qed.

Lemma occ_dir a t : is_res s a = false -> occ a (dir_of t) = tick (cr3 t =? a).
Proof.
  intros R. unfold dir_of. destruct (is_res s (cr3 t)) eqn:E; [|rewrite refs_cons; change (occ a []) with 0; lia].
  destruct (Z.eqb_spec (cr3 t) a); [congruence|done].
Qed.

Lemma inv_set_task k t' K' : cr3 t' ∈ dirs G \/ cr3 t' = swapper_pg_dir ly -> 0 <= swap_table (swp t') /\ 0 <= swap_page (swp t') ->
  (size (<[k := t']> (tasks s)) <= 128)%nat -> from_option dir_of [] (tasks s !! k) ++ held G ≡ₚ dir_of t' ++ K' -> (length K' <= 16)%nat ->
  inv ly (set_tasks (<[k := t']> (tasks s)) s) (set_held K' G).
Proof.
  intros Hc Hpl Hs Pm Hl. destruct I as [M H E C W].
  split; [by destruct M; split| | | |apply (swap_inv_ghost (set_tasks (<[k := t']> (tasks s)) s) G); [destruct W; by split|done|done]].
  - destruct H as [H1 H2 H3 H4 H4' H5 H6 H7 H8 H9 H10]. split; try done; cbn [tasks set_tasks dirs held tabs unlinked lost set_held].
    + intros d Hd. assert (R : is_res s d = false) by (destruct (H1 d Hd) as (_ & _ & R); done).
      assert (X : d ∈ from_option dir_of [] (tasks s !! k) ++ held G \/ exists k' t, k' <> k /\ tasks s !! k' = Some t /\ cr3 t = d).
      { destruct (H2 d Hd) as [X|(k' & t & X & <-)]; [left; apply elem_of_app; by right|]. destruct (decide (k' = k)) as [-> |N]; [left|right; by exists k', t].
        rewrite X. apply elem_of_app. left. cbn. unfold dir_of. rewrite R. by left. }
      destruct X as [X|(k' & t & N & X & Y)]; [|right; exists k', t; by rewrite lookup_insert_ne]. rewrite Pm in X. apply elem_of_app in X as [X|X]; [|by left].
      right. exists k, t'. rewrite lookup_insert_eq. split; [done|]. by destruct (in_dir_of _ _ X) as [-> _].
    + intros k' t. destruct (decide (k' = k)) as [-> |N]; [rewrite lookup_insert_eq; by intros [= <-]|]. rewrite lookup_insert_ne by done. apply H3.
    + intros k' t. destruct (decide (k' = k)) as [-> |N]; [rewrite lookup_insert_eq; by intros [= <-]|]. rewrite lookup_insert_ne by done. apply H4'.
  - destruct E as [E1 E2 E3 E4 E5]. split; try done. intros y a f Hy. destruct (E1 y a f Hy). by split.
  - destruct C as [C1 C2 C3]. split; cbn [tasks set_tasks held set_held swheld].
    + intros a Ha R. change (cnt s a = refs (set_tasks (<[k := t']> (tasks s)) s) (set_held K' G) a). change (is_res s a = false) in R.
      rewrite (C1 a Ha R). unfold refs. cbn [tasks set_tasks ents tabs held set_held]. apply (occ_perm a) in Pm. rewrite !occ_app, (occ_dir a t' R) in Pm.
      destruct (tasks s !! k) as [t|] eqn:Hk; cbn in Pm.
      * rewrite (tally_update _ _ _ _ t' Hk). rewrite (occ_dir a t R) in Pm. unfold tick in Pm. lia.
      * rewrite tally_insert by done. change (occ a []) with 0 in Pm. unfold tick in Pm. lia.
    + intros a Ha. assert (X : a ∈ from_option dir_of [] (tasks s !! k) ++ held G) by (rewrite Pm; apply elem_of_app; by right).
      apply elem_of_app in X as [X|X]; [|by apply C2]. destruct (tasks s !! k) as [t|] eqn:Hk; [|by apply elem_of_nil in X]. cbn in X.
      destruct (in_dir_of _ _ X) as [-> R]. split; [|done]. destruct (h_tasks _ _ _ H k t Hk) as [Y|Y]; [by destruct (h_dirs _ _ _ H _ Y)|].
      rewrite Y. by destruct (m_swapper _ _ M).
    + split; [done|]. by apply C3.
Qed.
End Directory.
End VmTables.
