(* ===== verification/VmFree.v ===== *)
(** * Taking entries and tables away: [free_one_table], [unmap_page_range],
      [free_page_tables]

    Every reference that an entry held is given back, and nothing else that a process
    sees changes. *)

From S2P Require Import Prelude PageAlloc Vm VmBits VmInv VmCount VmSwap VmReclaim VmAlloc VmTables.
From Stdlib Require Import ZArith Lia.
From stdpp Require Import base list gmap numbers.
Local Open Scope Z_scope.

Module VmFree.
Import PageAlloc Vm VmBits VmInv VmCount VmSwap VmReclaim VmAlloc VmTables.

(** What an operation on the entries [D] keeps. *)
Record keeps (D : Z * Z * Z -> Prop) (s : vm) (G : ghost) (s' : vm) (G' : ghost) : Prop := {
  q_dirs : dirs G' = dirs G;
  q_seen x : ~ D x -> seen s' G' x = seen s G x;
  q_cr3 : cr3 <$> tasks s' = cr3 <$> tasks s;
  q_high : high_memory (pages s') = high_memory (pages s);
  q_res a : is_page (pages s) a -> is_res s' a = is_res s a
}.

Lemma keeps_same D s G : keeps D s G s G.
Proof. by split. Qed.

Lemma keeps_weaken (D D' : Z * Z * Z -> Prop) s G s' G' : keeps D s G s' G' -> (forall x, D x -> D' x) -> keeps D' s G s' G'.
Proof. intros [k1 k2 k4 k5 k6] H. split; try done; auto. Qed.

Lemma keeps_trans D s G s1 G1 s2 G2 : keeps D s G s1 G1 -> keeps D s1 G1 s2 G2 -> keeps D s G s2 G2.
Proof.
  intros [a1 a2 a4 a5 a6] [b1 b2 b4 b5 b6]. split; try congruence; eauto.
  - intros x Hx. by rewrite b2, a2.
  - intros a Ha. rewrite b6; [by apply a6|]. unfold is_page in *. by rewrite a5.
Qed.

Lemma kept_keeps D s G s' G' : kept s G s' G' -> keeps D s G s' G'.
Proof.
  intros [a1 a2 a3 a4 a5 a6 a7 a8 a9 a10 a11 a12 a13 a14 a15]. split; try done; auto.
  - apply (f_equal (fmap (fun c : Z * bounds * list Z * bool => c.1.1.1))) in a10. by rewrite <- !map_fmap_compose in a10.
Qed.

Lemma keeps_task D s G s' G' k t : keeps D s G s' G' -> tasks s !! k = Some t -> exists t', tasks s' !! k = Some t' /\ cr3 t' = cr3 t.
Proof.
  intros K Hk. assert (E := f_equal (fun m => m !! k) (q_cr3 _ _ _ _ _ K)). cbn in E. rewrite !lookup_fmap, Hk in E.
  destruct (tasks s' !! k) as [t'|]; [|done]. exists t'. cbn in E. split; [done|congruence].
Qed.

(** ** What an entry held is given back *)

(** The parts of the state that [zap] does not touch. *)
Record same_data (s s' : vm) : Prop := {
  d_frames : frames s' = frames s;
  d_disk : disk s' = disk s;
  d_tasks : tasks s' = tasks s;
  d_high : high_memory (pages s') = high_memory (pages s);
  d_res a : is_page (pages s) a -> is_res s' a = is_res s a
}.

Definition good (s : vm) (G : ghost) (o : option pte) : Prop :=
  match o with
  | Some (Pg a f) => is_page (pages s) a /\ 0 <= f < 4096 /\ has f PAGE_PRESENT = true /\ (is_res s a = false -> a ∉ dirs G)
  | Some (Sw e) => slot s e
  | None => True
  end.

Lemma entry_good ly s G x : inv ly s G -> good s G (ents G !! x).
Proof.
  intros I. unfold good. destruct (ents G !! x) as [[a f|e]|] eqn:Hx; [| |done].
  - destruct (n_page _ _ _ (i_entries _ _ _ I) x a f Hx) as [E1 E2 E3 E4 E5 E6 E7]. split_and!; try done; try lia. intros R. by destruct (E5 R).
  - by apply (n_swap _ _ _ (i_entries _ _ _ I) x e).
Qed.

(** An entry that is zero is none. *)
Lemma word_zero ly s G x : inv ly s G -> word_of (ents G !! x) = 0 <-> ents G !! x = None.
Proof.
  intros I. split; [|by intros ->]. assert (E := entry_good ly s G x I). destruct (ents G !! x) as [[a f|e]|]; [| |done]; cbn in *.
  - destruct E as (E1 & E2 & E3 & _). assert (P := page_range s a (m_ok _ _ (i_mem _ _ _ I)) E1). lia.
  - destruct (slot_decode ly s G I e E) as (_ & _ & _ & _ & _ & _ & _ & _ & _ & X & _). done.
Qed.

Lemma word_present ly s G o : inv ly s G -> good s G o -> has (word_of o) PAGE_PRESENT = match o with Some (Pg _ _) => true | _ => false end.
Proof.
  intros I E. destruct o as [[a f|e]|]; cbn in *; [| |done].
  - destruct E as (E1 & E2 & E3 & _). rewrite has_flags; [done|by apply page_align with s|done|unfold PAGE_PRESENT; lia].
  - by destruct (slot_decode ly s G I e E) as (_ & _ & _ & _ & _ & _ & _ & _ & _ & _ & X & _).
Qed.

Lemma word_page ly s G a f : inv ly s G -> good s G (Some (Pg a f)) -> Z.land PAGE_MASK (a + f) = a /\ Z.land (a + f) PAGE_MASK = a.
Proof.
  intros I (E1 & E2 & _). assert (P := page_range s a (m_ok _ _ (i_mem _ _ _ I)) E1).
  destruct (mask_flags a f (page_align s a E1) E2 ltac:(lia)). done.
Qed.

Lemma give_back ly s G o K KS : inv ly s G -> good s G o -> held G = pages_of s o ++ K -> swheld G = slots_of o ++ KS ->
  exists s', zap (word_of o) s = Some s' /\ inv ly s' (set_held K (set_swheld KS G)) /\ same_data s s'.
Proof.
  intros I E Hh Hs. unfold zap. rewrite (word_present ly s G o I E). destruct o as [[a f|e]|].
  - cbn [word_of]. rewrite (proj1 (word_page ly s G a f I E)). destruct E as (E1 & E2 & E3 & E4). cbn in Hh, Hs.
    assert (Gs : set_swheld KS G = G) by (rewrite <- Hs; by destruct G). rewrite Gs. destruct (is_res s a) eqn:R; cbn in Hh.
    + destruct (free_reserved ly s G I a (conj E1 R)) as (m' & -> & ->). exists s. split; [done|]. split; [|by split].
      rewrite <- Hh. by destruct G.
    + destruct (inv_free ly s G I a K Hh) as (m' & -> & I' & _ & _ & Hr & Hm); [intros d Hd ->; by destruct (E4 eq_refl)|].
      eexists. split; [done|]. split; [done|]. by split.
  - cbn in *. destruct (inv_swap_free ly s G I e KS Hs) as (l & n & -> & I'). eexists. split; [done|].
    split; [|by split]. rewrite <- Hh. by destruct G.
  - cbn in *. exists s. split; [done|]. split; [|by split]. rewrite <- Hh, <- Hs. by destruct G.
Qed.

Lemma set_ents_id G : set_ents (ents G) G = G.
Proof. by destruct G. Qed.

(** ** One entry *)

Section Entry.
Context (ly : layout) (s : vm) (G : ghost) (I : inv ly s G) (Lt : light G).
Context (d i j t : Z) (Ht : tabs G !! (d, i) = Some t) (Hj : 0 <= j < 1024).

Definition cleared : ghost := set_ents (alter_ent (d, i, j) None (ents G)) G.

Lemma cleared_keeps s' : frames s' = frames (upd t j 0 s) -> disk s' = disk s -> cr3 <$> tasks s' = cr3 <$> tasks s ->
  high_memory (pages s') = high_memory (pages s) -> (forall a, is_page (pages s) a -> is_res s' a = is_res s a) ->
  keeps (eq (d, i, j)) s G s' cleared.
Proof.
  intros E1 E2 E3 E4 E5. split; try done.
  - intros x Hx. rewrite <- (seen_upd ly s G I d i j t Ht 0 None x (held G) (swheld G) (lost G)) by congruence. by apply seen_same.
Qed.

Lemma cleared_same : ents G !! (d, i, j) = None -> cleared = G.
Proof.
  intros H. unfold cleared, alter_ent. change (partial_alter (fun _ => None) (d, i, j) (ents G)) with (delete (d, i, j) (ents G)).
  rewrite delete_id by done. apply set_ents_id.
Qed.

(** The entry is cleared, [F] runs and what it held is given back. *)
Lemma clear_entry s1 : let o := ents G !! (d, i, j) in s1 = set_tasks (tasks s1) (upd t j 0 s) ->
  inv ly s1 (Ghost (dirs G) (tabs G) (alter_ent (d, i, j) None (ents G)) (pages_of s o ++ held G) (slots_of o ++ swheld G) (unlinked G) (lost G)) ->
  cr3 <$> tasks s1 = cr3 <$> tasks s ->
  exists s', zap (word_of o) s1 = Some s' /\ inv ly s' cleared /\ keeps (eq (d, i, j)) s G s' cleared /\ tasks s' = tasks s1.
Proof.
  intros o E1 I1 Ec. assert (Go := entry_good ly s G (d, i, j) I). fold o in Go.
  assert (Ep : pages s1 = pages s) by (by rewrite E1). assert (Ei : infos s1 = infos s) by (by rewrite E1).
  assert (Ef : frames s1 = frames (upd t j 0 s)) by (by rewrite E1). assert (Ed : disk s1 = disk s) by (by rewrite E1).
  edestruct (give_back ly s1 _ o (held G) (swheld G) I1) as (s' & Hz & I' & [D1 D2 D3 D4 D5]).
  - unfold good, slot, is_res, cnt in *. cbn. rewrite Ep, Ei. done.
  - cbn. unfold pages_of, is_res, cnt. by rewrite Ep.
  - done.
  - exists s'. split; [done|]. split; [exact I'|]. split; [|done]. unfold is_res, cnt in *. rewrite Ep in *.
    apply cleared_keeps; [congruence|congruence|congruence|congruence|done].
Qed.

Lemma zap_entry : exists s', (pg ← rd t j s; if pg =? 0 then Some s else s ← wr t j 0 s; zap pg s) = Some s'
  /\ inv ly s' cleared /\ keeps (eq (d, i, j)) s G s' cleared.
Proof.
  rewrite (rd_entry ly s G I d i j t Ht Hj). cbn [mbind option_bind]. destruct (Z.eqb_spec (word_of (ents G !! (d, i, j))) 0) as [E|_].
  - apply (word_zero ly s G _ I) in E. exists s. rewrite cleared_same by done. split; [done|]. split; [done|apply keeps_same].
  - rewrite (wr_entry ly s G I d i j t Ht Hj). cbn [mbind option_bind]. destruct Lt as [L1 L2].
    destruct (clear_entry (upd t j 0 s)) as (s' & Hz & I' & K & _); [done| |done|by exists s'].
    apply inv_take; try done. lia.
Qed.
End Entry.

(** ** Loops *)

Lemma upto_ok (P : Z -> vm -> Prop) body : forall n j s, P j s ->
  (forall j' s, j <= j' < j + Z.of_nat n -> P j' s -> exists s', body j' s = Some s' /\ P (j' + 1) s') ->
  exists s', upto n j body s = Some s' /\ P (j + Z.of_nat n) s'.
Proof.
  induction n as [|n IH]; intros j s Hs Hb; cbn [upto]; [exists s; split; [done|by rewrite Z.add_0_r]|].
  destruct (Hb j s ltac:(lia) Hs) as (s1 & -> & H1). cbn [mbind option_bind].
  destruct (IH (j + 1) s1 H1) as (s' & -> & H'); [intros j' s2 Hj; apply Hb; lia|]. exists s'. split; [done|].
  by replace (j + Z.of_nat (S n)) with (j + 1 + Z.of_nat n) by lia.
Qed.

(** The entries from [j] on, below [j'], of the table of entry [i]. *)
Definition span (d i j j' : Z) (x : Z * Z * Z) : Prop := exists k, x = (d, i, k) /\ j <= k < j'.

(** The entry [o] is put in as a step of a loop. *)
Definition put_in (o : option pte) (G : ghost) (d i j : Z) : ghost := set_ents (alter_ent (d, i, j) o (ents G)) G.
Definition puts (ly : layout) (k : Z) (o : option pte) (body : Z -> Z -> vm -> option vm) : Prop := forall s G d i j t,
  inv ly s G -> light G -> is_Some (tasks s !! k) -> tabs G !! (d, i) = Some t -> 0 <= j < 1024 ->
  exists s', body t j s = Some s' /\ inv ly s' (put_in o G d i j) /\ keeps (eq (d, i, j)) s G s' (put_in o G d i j).

Lemma puts_loop ly k o body s G d i t j n : puts ly k o body -> inv ly s G -> light G -> is_Some (tasks s !! k) -> tabs G !! (d, i) = Some t ->
  0 <= j -> j + Z.of_nat n <= 1024 ->
  exists s' es, upto n j (body t) s = Some s' /\ inv ly s' (set_ents es G) /\ keeps (span d i j (j + Z.of_nat n)) s G s' (set_ents es G)
    /\ (forall x, span d i j (j + Z.of_nat n) x -> es !! x = o) /\ (forall x, ~ span d i j (j + Z.of_nat n) x -> es !! x = ents G !! x).
Proof.
  intros Cl I Lt Hk Ht Hj Hn.
  set (P := fun j' s' => exists es, inv ly s' (set_ents es G) /\ keeps (span d i j j') s G s' (set_ents es G)
    /\ (forall x, span d i j j' x -> es !! x = o) /\ (forall x, ~ span d i j j' x -> es !! x = ents G !! x)).
  destruct (upto_ok P (body t) n j s) as (s' & E & es & H); [| |by exists s', es].
  - exists (ents G). rewrite set_ents_id. split; [done|]. split; [apply keeps_same|].
    split; [intros x (k' & _ & ?); lia|done].
  - intros j' s1 Hj' (es & I1 & K1 & N1 & O1).
    destruct (Cl s1 (set_ents es G) d i j' t I1 Lt) as (s2 & -> & I2 & K2); [|done|lia|].
    { destruct Hk as [v Hk]. destruct (keeps_task _ _ _ _ _ _ _ K1 Hk) as (v' & Hv & _). by eexists. }
    exists s2. split; [done|]. exists (alter_ent (d, i, j') o es). split; [exact I2|]. split.
    + eapply keeps_trans; [eapply keeps_weaken; [exact K1|]|eapply keeps_weaken; [exact K2|]].
      * intros x (k' & -> & ?). exists k'. split; [done|lia].
      * intros x <-. exists j'. split; [done|lia].
    + split.
      * intros x (k' & -> & Hk'). destruct (decide (k' = j')) as [-> |N]; [by rewrite alter_eq|]. rewrite alter_ne by congruence.
        apply N1. exists k'. split; [done|lia].
      * intros x Hx. rewrite alter_ne; [apply O1|]; intros Y; apply Hx.
        -- destruct Y as (k' & -> & ?). exists k'. split; [done|lia].
        -- exists j'. split; [done|lia].
Qed.

Lemma zap_clears ly k : puts ly k None (fun t j s => pg ← rd t j s; if pg =? 0 then Some s else s ← wr t j 0 s; zap pg s).
Proof. intros s G d i j t I Lt _ Ht Hj. by apply zap_entry. Qed.

(** [zap_rss] is [zap] after the resident pages were counted. *)
Lemma zap_rss_eq ly s G k v o : inv ly s G -> good s G o -> tasks s !! k = Some v ->
  exists v', cr3 v' = cr3 v /\ swp v' = swp v /\ zap_rss k (word_of o) s = zap (word_of o) (set_tasks (<[k := v']> (tasks s)) s).
Proof.
  intros I Go Hk. assert (Same : set_tasks (<[k := v]> (tasks s)) s = s) by (rewrite insert_id by done; by destruct s).
  unfold zap_rss, zap. rewrite (word_present ly s G o I Go). destruct o as [[a f|e]|]; [|exists v; by rewrite Same..].
  cbn [word_of]. destruct Go as (E1 & E2 & E3 & E4). rewrite (users_page s a f (m_ok _ _ (i_mem _ _ _ I)) E1 E2). cbn [mbind option_bind].
  destruct (has (cnt s a) MAP_PAGE_RESERVED); cbn [negb]; [exists v; by rewrite Same|].
  unfold on_task. rewrite Hk. cbn [mbind option_bind]. eexists. split; [|split; [|done]]; by destruct (0 <? rss v).
Qed.

Lemma zap_rss_clears ly k : puts ly k None (fun t j s => pg ← rd t j s; if pg =? 0 then Some s else s ← wr t j 0 s; zap_rss k pg s).
Proof.
  intros s G d i j t I Lt [v Hk] Ht Hj. rewrite (rd_entry ly s G I d i j t Ht Hj). cbn [mbind option_bind].
  destruct (Z.eqb_spec (word_of (ents G !! (d, i, j))) 0) as [E|_].
  - apply (word_zero ly s G _ I) in E. exists s. change (put_in None G d i j) with (cleared G d i j). rewrite cleared_same by done. split; [done|]. split; [done|apply keeps_same].
  - rewrite (wr_entry ly s G I d i j t Ht Hj). cbn [mbind option_bind]. destruct Lt as [L1 L2].
    assert (I1 := inv_take ly s G I d i j t Ht Hj _ eq_refl ltac:(lia)). set (s1 := upd t j 0 s) in *.
    destruct (zap_rss_eq ly s1 _ k v (ents G !! (d, i, j)) I1) as (v' & V1 & V2 & ->); [exact (entry_good ly s G (d, i, j) I)|done|].
    destruct (clear_entry ly s G I d i j t Ht (set_tasks (<[k := v']> (tasks s1)) s1)) as (s' & Hz & I' & K & _); [done| | |by exists s'].
    + destruct (h_place _ _ _ (i_shape _ _ _ I) k v Hk). eapply (inv_task ly s1); try done; by rewrite V2.
    + cbn. rewrite fmap_insert, V1. apply insert_id. by rewrite lookup_fmap, Hk.
Qed.

(** ** [free_one_table] *)

Lemma tab_linked ly s G d i t : inv ly s G -> tabs G !! (d, i) = Some t -> (d, i) ∉ unlinked G -> wd s d i = t + PAGE_TABLE.
Proof.
  intros I Ht Hu. destruct (h_tabs _ _ _ (i_shape _ _ _ I) d i t Ht) as (Hd & Hi & _).
  destruct (h_low _ _ _ (i_shape _ _ _ I) d i Hd Hi) as [E|(_ & E & _)]; [|congruence]. by rewrite decide_False, Ht in E.
Qed.

Lemma word_no_tab ly s G d i : inv ly s G -> (d, i) ∉ unlinked G -> reserved (wd s d i) s = Some true -> tabs G !! (d, i) = None.
Proof.
  intros I Hu R. destruct (tabs G !! (d, i)) as [t|] eqn:Ht; [|done]. rewrite (tab_linked ly s G d i t I Ht Hu) in R.
  destruct (table_word ly s G I d i t Ht) as (_ & R' & _). congruence.
Qed.

(** The table of entry [i] is gone. *)
Record emptied (d i : Z) (G G' : ghost) : Prop := {
  g_ghost : exists es, G' = Ghost (dirs G) (delete (d, i) (tabs G)) es (held G) (swheld G) (unlinked G) (lost G);
  g_none j : ents G' !! (d, i, j) = None
}.

Lemma emptied_id ly s d i G : inv ly s G -> tabs G !! (d, i) = None -> emptied d i G G.
Proof.
  intros I Ht. split.
  - exists (ents G). rewrite delete_id by done. by destruct G.
  - intros j. destruct (ents G !! (d, i, j)) eqn:E; [|done]. destruct (h_ents _ _ _ (i_shape _ _ _ I) _ _ _ _ E) as [[t X] _]. congruence.
Qed.

(** A directory entry is cleared that had no table of ours. *)
Lemma clear_kernel ly s G d i : inv ly s G -> d ∈ dirs G -> 0 <= i < 1024 -> tabs G !! (d, i) = None ->
  inv ly (upd d i 0 s) G /\ keeps (fun x => x.1 = (d, i)) s G (upd d i 0 s) G.
Proof.
  intros I Hd Hi Ht. split.
  - assert (X := inv_dir ly s G I d i Hd Hi 0 (unlinked G) (lost G)). destruct G as [ds ts es K KS U l]. apply X; [|done|done].
    unfold dir_fits. cbn in *. rewrite Ht. destruct (i <? 768); [left; by destruct (decide _)|by left].
  - split; try done. intros x _. by apply (seen_dir ly s G I d i).
Qed.

(** A table that no directory points to any more is given back once it is empty. *)
Lemma free_table ly s G d i t : inv ly s G -> light G -> tabs G !! (d, i) = Some t -> (d, i) ∈ unlinked G -> (forall j, ents G !! (d, i, j) = None) ->
  exists s', free_page t s = Some s' /\ same_data s s'
    /\ inv ly s' (Ghost (dirs G) (delete (d, i) (tabs G)) (ents G) (held G) (swheld G) (unlinked G ∖ {[(d, i)]}) (lost G)).
Proof.
  intros I [L1 L2] Ht Hu He. assert (I1 := inv_disown ly s G I d i t Ht Hu He ltac:(lia)).
  destruct (h_tabs _ _ _ (i_shape _ _ _ I) d i t Ht) as (_ & _ & _ & Nd).
  destruct (inv_free ly s _ I1 t (held G) eq_refl) as (m' & E & I2 & _ & _ & Hr & Hh); [intros x Hx ->; done|].
  eexists. split; [exact E|]. split; [by split|exact I2].
Qed.

Lemma ents_out ly s G d i j : inv ly s G -> ~ 0 <= j < 1024 -> ents G !! (d, i, j) = None.
Proof. intros I Hj. destruct (ents G !! (d, i, j)) eqn:X; [|done]. destruct (h_ents _ _ _ (i_shape _ _ _ I) _ _ _ _ X). lia. Qed.

Lemma free_one_table_ok ly s G k d i : inv ly s G -> light G -> is_Some (tasks s !! k) -> d ∈ dirs G -> 0 <= i < 1024 -> (d, i) ∉ unlinked G ->
  exists s' G', free_one_table d i s = Some s' /\ inv ly s' G' /\ keeps (fun x => x.1 = (d, i)) s G s' G' /\ emptied d i G G'.
Proof.
  intros I Lt Hk Hd Hi Hu. unfold free_one_table. rewrite (rd_dir ly s G I d i Hd Hi). cbn [mbind option_bind].
  destruct (dir_word ly s G I d i (or_introl Hd) Hi) as [(R & Hw & Kw)|(t & Ew & Ht & _ & Hi')].
  - assert (Tn := word_no_tab ly s G d i I Hu R). assert (Em := emptied_id ly s d i G I Tn). destruct (Z.eqb_spec (wd s d i) 0) as [E0|N0].
    + exists s, G. split; [done|]. split; [done|]. split; [apply keeps_same|done].
    + destruct Kw as [?|(a & f & Ea & Ka & Hf & Pr)]; [done|]. rewrite (wr_dir ly s G I d i Hd Hi). cbn [mbind option_bind].
      destruct (clear_kernel ly s G d i I Hd Hi Tn) as [I1 K1]. destruct (Z.leb_spec (high_memory (pages (upd d i 0 s))) (wd s d i)) as [X|_]; [cbn in X; lia|].
      assert (Hp : has (wd s d i) PAGE_PRESENT = true).
      { rewrite Ea, has_flags; [done|by apply (page_align s), Ka|done|unfold PAGE_PRESENT; lia]. }
      rewrite Hp. cbn [negb orb].
      change (reserved (wd s d i) (upd d i 0 s)) with (reserved (wd s d i) s). rewrite R. cbn [mbind option_bind]. by exists (upd d i 0 s), G.
  - destruct (table_word ly s G I d i t Ht) as (T1 & T2 & T3 & T4 & T5 & T6 & _). rewrite Ew. destruct (Z.eqb_spec (t + PAGE_TABLE) 0); [done|].
    rewrite (wr_dir ly s G I d i Hd Hi). cbn [mbind option_bind]. set (s1 := upd d i 0 s).
    destruct (Z.leb_spec (high_memory (pages s1)) (t + PAGE_TABLE)) as [X|_]; [cbn in X; lia|]. rewrite T3. cbn [negb orb].
    change (reserved (t + PAGE_TABLE) s1) with (reserved (t + PAGE_TABLE) s). rewrite T2. cbn [mbind option_bind]. rewrite T4.
    assert (I1 := inv_dir ly s G I d i Hd Hi 0 ({[(d, i)]} ∪ unlinked G) (lost G)).
    set (G1 := Ghost (dirs G) (tabs G) (ents G) (held G) (swheld G) ({[(d, i)]} ∪ unlinked G) (lost G)) in I1.
    assert (I1' : inv ly s1 G1).
    { apply I1; [|done|intros x Hx; rewrite elem_of_union, elem_of_singleton; tauto]. unfold dir_fits. destruct (Z.ltb_spec i 768); [|lia].
      left. rewrite decide_True by (apply elem_of_union; left; by apply elem_of_singleton). done. }
    clear I1. destruct (puts_loop ly k None _ s1 G1 d i t 0 1024 (zap_clears ly k) I1' Lt Hk Ht) as (s2 & es & E2 & I2 & K2 & N2 & O2); [lia|lia|].
    change (Z.to_nat PTRS_PER_PAGE) with 1024%nat. rewrite E2. cbn [mbind option_bind].
    assert (Nj : forall j, es !! (d, i, j) = None).
    { intros j. destruct (decide (0 <= j < 1024)) as [Hj|Hj]; [apply N2; by exists j|].
      rewrite O2 by (intros (j' & [= ->] & ?); lia). by apply (ents_out ly s G). }
    destruct (free_table ly s2 (set_ents es G1) d i t I2 Lt Ht) as (s3 & -> & [D1 D2 D3 D4 D5] & I3).
    { cbn. apply elem_of_union. left. by apply elem_of_singleton. }
    { exact Nj. }
    exists s3. eexists. split; [done|]. split; [exact I3|]. split.
    + apply (keeps_trans _ s G s1 G1); [split; try done; intros x _; by apply (seen_dir ly s G I d i)|].
      apply (keeps_trans _ s1 G1 s2 (set_ents es G1)); [eapply keeps_weaken; [exact K2|by intros x (j & -> & _)]|].
      split; try done; [|by rewrite D3]. intros x _. by apply seen_same.
    + split; [exists es; cbn; f_equal|].
      * apply leibniz_equiv. intros x. rewrite elem_of_difference, elem_of_union, elem_of_singleton. split; [tauto|]. intros X. split; [by right|]. intros ->. done.
      * exact Nj.
Qed.
End VmFree.
