(* ===== verification/VmDir.v ===== *)
(** * Directories of processes: [clear_page_tables], [free_page_tables],
      [clone_page_tables]

    A process that leaves its memory, or gets a new one, does not change what the
    others see, whether or not it shares its directory with them. *)

From S2P Require Import Prelude PageAlloc Vm VmBits VmInv VmCount VmSwap VmReclaim VmAlloc VmTables VmFree.
From Stdlib Require Import ZArith Lia.
From stdpp Require Import base list gmap numbers.
Local Open Scope Z_scope.

Module VmDir.
Import PageAlloc Vm VmBits VmInv VmCount VmSwap VmReclaim VmAlloc VmTables VmFree.

(** Between two operations nothing is held. *)
Record calm (G : ghost) : Prop := {
  z_held : held G = [];
  z_swheld : swheld G = [];
  z_unlinked : unlinked G = ∅
}.

Lemma calm_light G : calm G -> light G.
Proof. intros [H1 H2 _]. unfold light. rewrite H1, H2. cbn. lia. Qed.

(** The tasks with [P] have their directory and see what they saw. *)
Definition undisturbed (P : Z -> Prop) (s : vm) (G : ghost) (s' : vm) (G' : ghost) : Prop :=
  forall k t, P k -> tasks s !! k = Some t ->
  exists t', tasks s' !! k = Some t' /\ cr3 t' = cr3 t /\ forall i j, seen s' G' (cr3 t, i, j) = seen s G (cr3 t, i, j).

Lemma undisturbed_trans P s G s1 G1 s2 G2 : undisturbed P s G s1 G1 -> undisturbed P s1 G1 s2 G2 -> undisturbed P s G s2 G2.
Proof.
  intros A B k t Hp Hk. destruct (A k t Hp Hk) as (t1 & Hk1 & E1 & S1). destruct (B k t1 Hp Hk1) as (t2 & Hk2 & E2 & S2).
  exists t2. split; [done|]. split; [congruence|]. intros i j. rewrite <- S1, <- E1. apply S2.
Qed.

Lemma keeps_undisturbed (P : Z -> Prop) D s G s' G' : keeps D s G s' G' ->
  (forall k t i j, P k -> tasks s !! k = Some t -> ~ D (cr3 t, i, j)) -> undisturbed P s G s' G'.
Proof.
  intros K H k t Hp Hk. destruct (keeps_task _ _ _ _ _ _ _ K Hk) as (t' & Hk' & E). exists t'. split; [done|]. split; [done|].
  intros i j. apply (q_seen _ _ _ _ _ K). by eapply H.
Qed.

(** ** The users of a directory *)

Lemma tally_exists {K} `{Countable K} {A} (f : A -> bool) (m : gmap K A) : 0 < tally f m -> exists k x, m !! k = Some x /\ f x = true.
Proof.
  induction m as [|k x m Hk IH] using map_ind; [by rewrite tally_empty|]. rewrite tally_insert by done. destruct (f x) eqn:E.
  - intros _. exists k, x. by rewrite lookup_insert_eq.
  - intros Hp. destruct (IH Hp) as (k' & y & Hy & Ey). exists k', y. rewrite lookup_insert_ne; [done|]. congruence.
Qed.

Lemma dir_refs ly s G d : inv ly s G -> d ∈ dirs G -> cnt s d = tally (fun t => cr3 t =? d) (tasks s) + occ d (held G).
Proof.
  intros I Hd. destruct (h_dirs _ _ _ (i_shape _ _ _ I) d Hd) as (Hp & _ & R). rewrite (c_refs _ _ (i_counted _ _ _ I) d Hp R). unfold refs.
  rewrite (tally_zero (at_page d)), (tally_zero (fun t => t =? d)); [lia| |].
  - intros x t Ht. destruct x as [d' i]. destruct (h_tabs _ _ _ (i_shape _ _ _ I) d' i t Ht) as (_ & _ & _ & N). apply Z.eqb_neq. by intros ->.
  - intros x [a f|e] Hx; [|done]. apply Z.eqb_neq. intros ->. by apply (data_not_dir ly s G I d Hd x d f Hx).
Qed.

Lemma shared_dir ly s G d : inv ly s G -> d ∈ dirs G -> occ d (held G) <= 1 -> 1 < cnt s d -> exists k t, tasks s !! k = Some t /\ cr3 t = d.
Proof.
  intros I Hd Ho Hc. rewrite (dir_refs ly s G d I Hd) in Hc. destruct (tally_exists (fun t => cr3 t =? d) (tasks s)) as (k & t & Hk & E); [lia|].
  exists k, t. split; [done|]. by apply Z.eqb_eq.
Qed.

Lemma own_dir ly s G d : inv ly s G -> d ∈ dirs G -> d ∈ held G -> cnt s d <= 1 -> forall k t, tasks s !! k = Some t -> cr3 t <> d.
Proof.
  intros I Hd Ho Hc k t Hk E. rewrite (dir_refs ly s G d I Hd) in Hc. apply refs_in in Ho.
  assert (X := tally_pos (fun t => cr3 t =? d) (tasks s) k t Hk ltac:(by apply Z.eqb_eq)). lia.
Qed.

Lemma sole_user ly s G k t : inv ly s G -> tasks s !! k = Some t -> cr3 t ∈ dirs G -> cnt s (cr3 t) <= 1 ->
  forall k' t', tasks s !! k' = Some t' -> k' <> k -> cr3 t' <> cr3 t.
Proof.
  intros I Hk Hd Hc k' t' Hk' N E. rewrite (dir_refs ly s G _ I Hd) in Hc. assert (O := refs_nonneg (cr3 t) (held G)).
  rewrite (tally_delete _ _ _ _ Hk), Z.eqb_refl in Hc.
  assert (X := tally_pos (fun v => cr3 v =? cr3 t) (delete k (tasks s)) k' t' ltac:(by rewrite lookup_delete_ne) ltac:(by apply Z.eqb_eq)). lia.
Qed.

(** ** All tables of a directory *)

Lemma free_tables_ok ly k s G d n i : inv ly s G -> light G -> unlinked G = ∅ -> is_Some (tasks s !! k) -> d ∈ dirs G -> 0 <= i -> i + Z.of_nat n <= 1024 ->
  exists s' G', upto n i (free_one_table d) s = Some s' /\ inv ly s' G' /\ keeps (fun x => x.1.1 = d) s G s' G'
    /\ held G' = held G /\ swheld G' = swheld G /\ unlinked G' = unlinked G /\ lost G' = lost G
    /\ forall i', i <= i' < i + Z.of_nat n -> tabs G' !! (d, i') = None.
Proof.
  intros I Lt Hu Hk Hd Hi Hn.
  set (P := fun i1 s' => exists G', inv ly s' G' /\ keeps (fun x => x.1.1 = d) s G s' G' /\ held G' = held G /\ swheld G' = swheld G
    /\ unlinked G' = unlinked G /\ lost G' = lost G /\ forall i', i <= i' < i1 -> tabs G' !! (d, i') = None).
  destruct (upto_ok P (free_one_table d) n i s) as (s' & E & G' & H); [| |by exists s', G'].
  - exists G. split; [done|]. split; [apply keeps_same|]. do 4 (split; [done|]). intros; lia.
  - intros i1 s1 Hi1 (G1 & I1 & K1 & H1 & H2 & H3 & H4 & H5).
    destruct (free_one_table_ok ly s1 G1 k d i1 I1) as (s2 & G2 & E2 & I2 & K2 & [[es Eg] Gn]); [| | |lia| |].
    + unfold light. by rewrite H1, H2.
    + destruct Hk as [v Hk]. destruct (keeps_task _ _ _ _ _ _ _ K1 Hk) as (v' & Hv & _). by eexists.
    + by rewrite (q_dirs _ _ _ _ _ K1).
    + rewrite H3, Hu. apply not_elem_of_empty.
    + exists s2. split; [done|]. exists G2. split; [done|]. split.
      { eapply keeps_trans; [exact K1|]. eapply keeps_weaken; [exact K2|]. by intros x ->. }
      rewrite Eg. cbn. do 4 (split; [done|]). intros i' Hi'. destruct (decide (i' = i1)) as [-> |N]; [by rewrite lookup_delete_eq|].
      rewrite lookup_delete_ne by congruence. apply H5. lia.
Qed.

(** ** [free_page_tables] *)

(** What an operation of task [k] promises. *)
Record served (ly : layout) (k : Z) (s : vm) (G : ghost) (s' : vm) (G' : ghost) : Prop := {
  v_inv : inv ly s' G';
  v_calm : calm G';
  v_others : undisturbed (fun k' => k' <> k) s G s' G';
  v_task k' : is_Some (tasks s' !! k') <-> is_Some (tasks s !! k') \/ k' = k;
  v_high : high_memory (pages s') = high_memory (pages s);
  v_res a : is_page (pages s) a -> is_res s' a = is_res s a
}.

Lemma fmap_is_Some {A B} (f : A -> B) (m m' : gmap Z A) k : f <$> m' = f <$> m -> is_Some (m' !! k) <-> is_Some (m !! k).
Proof. intros E. apply (f_equal (fun m => m !! k)) in E. cbn in E. rewrite !lookup_fmap in E. by destruct (m' !! k), (m !! k). Qed.

Lemma served_same ly k s G : inv ly s G -> calm G -> is_Some (tasks s !! k) -> served ly k s G s G.
Proof. intros I C Hk. split; try done. - intros k' t _ Ht. by exists t. - intros k'. split; [by left|]. by intros [H| ->]. Qed.

Lemma is_res_page s s' G G' D a : keeps D s G s' G' -> is_page (pages s) a -> is_page (pages s') a.
Proof. intros K. unfold is_page. by rewrite (q_high _ _ _ _ _ K). Qed.

Section Free.
Context (ly : layout) (s : vm) (G : ghost) (I : inv ly s G) (C : calm G) (k : Z) (t : vtask) (Hk : tasks s !! k = Some t).
Context (Hd : cr3 t ∈ dirs G).

Let t' := set_cr3 (swapper_pg_dir ly) t.
Let s1 := set_tasks (<[k := t']> (tasks s)) s.
Let G1 := set_held [cr3 t] G.

Lemma dir_of_own : dir_of s t = [cr3 t].
Proof. unfold dir_of. destruct (h_dirs _ _ _ (i_shape _ _ _ I) _ Hd) as (_ & _ & R). by rewrite R. Qed.

Lemma left_inv : inv ly s1 G1.
Proof.
  apply inv_set_task; [done|by right|by apply (h_place _ _ _ (i_shape _ _ _ I) k t)| | |cbn; lia].
  - rewrite map_size_insert_Some by (by rewrite Hk). apply I.
  - rewrite Hk, (z_held _ C). cbn [from_option]. rewrite dir_of_own. unfold dir_of, t'. cbn [cr3 set_cr3].
    by rewrite (proj2 (m_swapper _ _ (i_mem _ _ _ I))).
Qed.

Lemma left_others k' v : k' <> k -> tasks s1 !! k' = Some v <-> tasks s !! k' = Some v.
Proof. intros N. unfold s1. cbn. by rewrite lookup_insert_ne. Qed.

Lemma left_served s' G' : inv ly s' G' -> calm G' -> (forall k', is_Some (tasks s' !! k') <-> is_Some (tasks s1 !! k')) ->
  undisturbed (fun k' => k' <> k) s1 G1 s' G' -> high_memory (pages s') = high_memory (pages s) ->
  (forall a, is_page (pages s) a -> is_res s' a = is_res s a) -> served ly k s G s' G'.
Proof.
  intros I' C' T U Hh Hr. split; try done.
  - intros k' v N Hv. apply (U k' v N). by apply left_others.
  - intros k'. rewrite T. unfold s1. cbn. destruct (decide (k' = k)) as [-> |N].
    + rewrite lookup_insert_eq. split; [by right|by eexists].
    + rewrite lookup_insert_ne by done. split; [by left|]. by intros [?| ->].
Qed.

Lemma leave_shared : 1 < cnt s (cr3 t) -> exists s', free_page (cr3 t) s1 = Some s' /\ served ly k s G s' (set_held [] G1) /\ tasks s' = tasks s1.
Proof.
  intros Hc. assert (I1 := left_inv). destruct (inv_free ly s1 G1 I1 (cr3 t) [] eq_refl) as (m' & E & I2 & _ & _ & Hr & Hh).
  { intros d Hd' ->. right. apply (shared_dir ly s1 G1 (cr3 t) I1 Hd'); [|done]. cbn. rewrite refs_cons, Z.eqb_refl. done. }
  exists (set_pages m' s1). split; [done|]. split; [|done]. apply left_served; [exact I2|split; try done; apply C|done| |done|done].
  intros k' v _ Hv. by exists v.
Qed.

Lemma leave_own : cnt s (cr3 t) <= 1 ->
  exists s' G', (s2 ← upto (Z.to_nat PTRS_PER_PAGE) 0 (free_one_table (cr3 t)) s1; free_page (cr3 t) s2) = Some s' /\ served ly k s G s' G'
    /\ lost G' = lost G /\ cr3 <$> tasks s' = cr3 <$> tasks s1.
Proof.
  intros Hc. assert (I1 := left_inv).
  destruct (free_tables_ok ly k s1 G1 (cr3 t) 1024 0 I1) as (s2 & G2 & E2 & I2 & K2 & H1 & H2 & H3 & H4 & H5); try done; [|exact (z_unlinked _ C)| |].
  { split; cbn; [lia|]. rewrite (z_swheld _ C). cbn. lia. }
  { exists t'. apply lookup_insert_eq. }
  change (Z.to_nat PTRS_PER_PAGE) with 1024%nat. rewrite E2. cbn [mbind option_bind].
  assert (Hd2 : cr3 t ∈ dirs G2) by (by rewrite (q_dirs _ _ _ _ _ K2)).
  assert (No : forall k' v, tasks s2 !! k' = Some v -> cr3 v <> cr3 t).
  { intros k' v Hv. assert (X := fmap_is_Some cr3 _ _ k' (q_cr3 _ _ _ _ _ K2)). destruct (proj1 X ltac:(by eexists)) as [v1 Hv1].
    destruct (keeps_task _ _ _ _ _ _ _ K2 Hv1) as (v2 & Hv2 & E). assert (v2 = v) by congruence. subst v2. rewrite E.
    by eapply (own_dir ly s1 G1 (cr3 t) I1); [done|left| |]. }
  assert (I3 := inv_drop_dir ly s2 G2 I2 (cr3 t) ltac:(rewrite H1; by left)).
  destruct (inv_free ly s2 (set_dirs (dirs G2 ∖ {[cr3 t]}) G2)) with (a := cr3 t) (K := @nil Z) as (m' & E & I4 & _ & _ & Hr & Hh); [|exact H1| |].
  { apply I3; [|done]. intros i. destruct (decide (0 <= i < 1024)) as [Hi|Hi]; [apply H5; lia|].
    destruct (tabs G2 !! (cr3 t, i)) eqn:X; [|done]. destruct (h_tabs _ _ _ (i_shape _ _ _ I2) _ _ _ X). lia. }
  { intros d Hd' ->. cbn in Hd'. apply elem_of_difference in Hd' as [_ N]. by destruct N; apply elem_of_singleton. }
  exists (set_pages m' s2), (set_held [] (set_dirs (dirs G2 ∖ {[cr3 t]}) G2)). split; [exact E|]. split; [|split; [exact H4|exact (q_cr3 _ _ _ _ _ K2)]]. apply left_served; [exact I4| | | | |].
  - split; cbn; [done|rewrite H2; apply C|rewrite H3; apply C].
  - intros k'. apply (fmap_is_Some cr3). apply K2.
  - apply (undisturbed_trans _ s1 G1 s2 G2); [apply (keeps_undisturbed _ _ _ _ _ _ K2)|intros k' v _ Hv; by exists v].
    intros k' v i j N Hv. cbn. apply left_others in Hv; [|done]. by apply (sole_user ly s G k t I Hk Hd Hc k' v).
  - cbn. rewrite Hh. apply K2.
  - intros a Ha. rewrite Hr by (by apply (is_res_page _ _ _ _ _ _ K2)). by apply K2.
Qed.
End Free.

(** The process is left with the directory of the kernel. *)
Lemma free_page_tables_ok ly s G k t : inv ly s G -> calm G -> tasks s !! k = Some t -> k <> 0 ->
  exists s' G', free_page_tables ly k s = Some s' /\ served ly k s G s' G' /\ lost G' = lost G
    /\ exists t', tasks s' !! k = Some t' /\ cr3 t' = swapper_pg_dir ly.
Proof.
  intros I C Hk K0. unfold free_page_tables. rewrite Hk. cbn [mbind option_bind]. destruct (Z.eqb_spec k 0); [done|].
  destruct (decide (cr3 t = swapper_pg_dir ly)) as [E|N].
  { rewrite E, Z.eqb_refl, orb_true_r. exists s, G. split; [done|]. split; [by apply served_same|]. split; [done|]. by exists t. }
  destruct (h_tasks _ _ _ (i_shape _ _ _ I) k t Hk) as [Hd|]; [|done]. destruct (h_dirs _ _ _ (i_shape _ _ _ I) _ Hd) as (Hp & Hc & R).
  assert (Rg := page_range s (cr3 t) (m_ok _ _ (i_mem _ _ _ I)) Hp). destruct (Z.eqb_spec (cr3 t) 0); [lia|].
  destruct (Z.eqb_spec (cr3 t) (swapper_pg_dir ly)); [done|]. cbn [orb]. unfold on_task. rewrite Hk. cbn [mbind option_bind].
  rewrite (users_page0 _ (cr3 t)) by (first [apply (m_ok _ _ (i_mem _ _ _ I))|done]). cbn [mbind option_bind].
  change (cnt (set_tasks _ s) (cr3 t)) with (cnt s (cr3 t)). destruct (Z.ltb_spec 1 (cnt s (cr3 t))) as [L|L].
  - destruct (leave_shared ly s G I C k t Hk Hd L) as (s' & -> & Sv & Ts). exists s'. eexists. split; [done|]. split; [exact Sv|]. split; [done|].
    rewrite Ts. eexists. split; [apply lookup_insert_eq|done].
  - destruct (leave_own ly s G I C k t Hk Hd L) as (s' & G' & -> & Sv & El & Ts). exists s', G'. split; [done|]. split; [done|]. split; [done|].
    assert (X := f_equal (fun m => m !! k) Ts). cbn in X. rewrite !lookup_fmap, lookup_insert_eq in X. cbn in X.
    destruct (tasks s' !! k) as [t'|]; [|done]. exists t'. split; [done|]. cbn in X. congruence.
Qed.

(** ** [clear_page_tables] *)

(** No tables, nothing seen. *)
Lemma no_tables_seen ly s G d : inv ly s G -> (forall i, 0 <= i < 768 -> tabs G !! (d, i) = None) -> forall i j, seen s G (d, i, j) = zeros.
Proof.
  intros I Ht i j. unfold seen. destruct (ents G !! (d, i, j)) as [p|] eqn:E; [|done].
  destruct (h_ents _ _ _ (i_shape _ _ _ I) _ _ _ _ E) as [[t X] _]. destruct (h_tabs _ _ _ (i_shape _ _ _ I) _ _ _ X) as (_ & Hi & _).
  by rewrite Ht in X.
Qed.

Lemma not_dir_seen ly s G d : inv ly s G -> d ∉ dirs G -> forall i j, seen s G (d, i, j) = zeros.
Proof.
  intros I Hd. apply (no_tables_seen ly s G d I). intros i _. destruct (tabs G !! (d, i)) eqn:E; [|done].
  by destruct (h_tabs _ _ _ (i_shape _ _ _ I) _ _ _ E) as [? _].
Qed.

Lemma swapper_not_dir ly s G : inv ly s G -> swapper_pg_dir ly ∉ dirs G.
Proof.
  intros I Hd. destruct (h_dirs _ _ _ (i_shape _ _ _ I) _ Hd) as (_ & _ & R). destruct (m_swapper _ _ (i_mem _ _ _ I)). congruence.
Qed.

(** The kernel's part of a directory is copied to a new one. *)
Lemma copy_kernel_ok ly s G d a : inv ly s G -> d ∈ dirs G -> a ∈ dirs G -> 
  exists s', upto 256 768 (fun i s => v ← rd d i s; wr a i v s) s = Some s' /\ inv ly s' G /\ s' = set_frames (frames s') s
    /\ forall x, seen s' G x = seen s G x.
Proof.
  intros I Hd Ha. set (P := fun (_ : Z) s' => inv ly s' G /\ s' = set_frames (frames s') s /\ forall x, seen s' G x = seen s G x).
  destruct (upto_ok P (fun i s => v ← rd d i s; wr a i v s) 256 768 s) as (s' & E & H); [| |by exists s'].
  - split; [done|]. split; [by destruct s|done].
  - intros i s1 Hi (I1 & E1 & S1). rewrite (rd_dir ly s1 G I1 d i Hd) by lia. cbn [mbind option_bind].
    rewrite (wr_dir ly s1 G I1 a i Ha) by lia. eexists. split; [done|]. split; [|split].
    + assert (X := inv_dir ly s1 G I1 a i Ha ltac:(lia) (wd s1 d i) (unlinked G) (lost G)).
      assert (F : kent s1 (wd s1 d i)) by (apply (h_high _ _ _ (i_shape _ _ _ I1)); [done|lia]).
      destruct G as [ds ts es K KS U l]. apply X; [|done|done]. unfold dir_fits. destruct (Z.ltb_spec i 768); [lia|done].
    + rewrite E1. done.
    + intros x. rewrite <- S1. by apply (seen_dir ly s1 G I1 a i Ha ltac:(lia)).
Qed.

Lemma task_core s G s' G' k t : kept s G s' G' -> tasks s !! k = Some t -> exists t', tasks s' !! k = Some t' /\ cr3 t' = cr3 t /\ sent t' = sent t /\ bnd t' = bnd t.
Proof. intros K Hk. destruct (core_lookup s s' k t (k_tasks _ _ _ _ K) Hk) as (t' & Hk' & E). exists t'. split; [done|]. unfold core in E. split_and!; congruence. Qed.

(** Compositions. *)
Lemma led_served ly k s G s1 G1 s2 G2 D : keeps D s G s1 G1 -> (forall k' t i j, k' <> k -> tasks s !! k' = Some t -> ~ D (cr3 t, i, j)) ->
  served ly k s1 G1 s2 G2 -> served ly k s G s2 G2.
Proof.
  intros K Hd [b1 b2 b3 b4 b5 b6]. split; try done.
  - apply (undisturbed_trans _ s G s1 G1); [by eapply keeps_undisturbed|done].
  - intros k'. by rewrite b4, (fmap_is_Some cr3 _ _ k' (q_cr3 _ _ _ _ _ K)).
  - rewrite b5. apply K.
  - intros a Ha. rewrite b6; [by apply K|]. by apply (is_res_page _ _ _ _ _ _ K).
Qed.

Lemma served_trans ly k s G s1 G1 s2 G2 : served ly k s G s1 G1 -> served ly k s1 G1 s2 G2 -> served ly k s G s2 G2.
Proof.
  intros [a1 a2 a3 a4 a5 a6] [b1 b2 b3 b4 b5 b6]. split; try done; [by eapply undisturbed_trans| |congruence|].
  - intros k'. rewrite b4, a4. tauto.
  - intros a Ha. rewrite b6; [by apply a6|]. unfold is_page in *. by rewrite a5.
Qed.

Lemma served_keeps ly k s G s' G' D : keeps D s G s' G' -> inv ly s' G' -> calm G' -> is_Some (tasks s !! k) ->
  (forall k' t i j, k' <> k -> tasks s !! k' = Some t -> ~ D (cr3 t, i, j)) -> served ly k s G s' G'.
Proof.
  intros K I C Hk Hd. split; try done; [by eapply keeps_undisturbed| |apply K|apply K].
  intros k'. rewrite (fmap_is_Some cr3 _ _ k' (q_cr3 _ _ _ _ _ K)). split; [by left|]. by intros [?| ->].
Qed.

Lemma served_kept ly k s G s' G' : kept s G s' G' -> held G' = held G -> calm G -> inv ly s' G' -> is_Some (tasks s !! k) -> served ly k s G s' G'.
Proof.
  intros K Hh C I Hk. eapply (served_keeps ly k s G s' G' (fun _ => False)); try done; [by apply kept_keeps| |by auto].
  split; [rewrite Hh; apply C|rewrite (k_swheld _ _ _ _ K); apply C|rewrite (k_unlinked _ _ _ _ K); apply C].
Qed.

Lemma served_task ly k s G f t : inv ly s G -> calm G -> tasks s !! k = Some t -> cr3 (f t) = cr3 t -> swp (f t) = swp t ->
  exists s', on_task k f s = Some s' /\ s' = set_tasks (<[k := f t]> (tasks s)) s /\ tasks s' !! k = Some (f t) /\ served ly k s G s' G
    /\ forall x, seen s' G x = seen s G x.
Proof.
  intros I C Hk Ec Es. unfold on_task. rewrite Hk. cbn [mbind option_bind]. eexists. split; [done|]. split; [done|].
  split; [apply lookup_insert_eq|]. split; [|done]. destruct (h_place _ _ _ (i_shape _ _ _ I) k t Hk).
  apply (served_keeps ly k s G _ G (fun _ => False)); [|apply (inv_task ly s G k t); try done; by rewrite Es|done|by rewrite Hk|by auto].
  split; try done. cbn. rewrite fmap_insert, Ec. apply insert_id. by rewrite lookup_fmap, Hk.
Qed.

(** The last part of the change of directory: the writes commute. *)
Lemma move_dir_ok ly s G k t a : inv ly s G -> held G = [a] -> swheld G = [] -> unlinked G = ∅ -> tasks s !! k = Some t -> cr3 t ∈ dirs G ->
  a ∈ dirs G -> a <> cr3 t -> 1 < cnt s (cr3 t) ->
  exists s', (s ← free_page (cr3 t) s; on_task k (set_cr3 a) s) = Some s' /\ served ly k s G s' (set_held [] G)
    /\ tasks s' !! k = Some (set_cr3 a t) /\ forall x, seen s' (set_held [] G) x = seen s G x.
Proof.
  intros I Hh Hs Hu Hk Hd Ha N Hc. set (s1 := set_tasks (<[k := set_cr3 a t]> (tasks s)) s).
  assert (I1 : inv ly s1 (set_held [cr3 t] G)).
  { apply inv_set_task; [done|by left|by apply (h_place _ _ _ (i_shape _ _ _ I) k t)| | |cbn; lia].
    - rewrite map_size_insert_Some by (by rewrite Hk). apply I.
    - rewrite Hk, Hh. cbn [from_option]. rewrite (dir_of_own ly s G I t Hd). unfold dir_of. cbn [cr3 set_cr3].
      destruct (h_dirs _ _ _ (i_shape _ _ _ I) _ Ha) as (_ & _ & R). rewrite R. apply Permutation_swap. }
  destruct (inv_free ly s1 _ I1 (cr3 t) [] eq_refl) as (m' & E & I2 & _ & _ & Hr & Hm).
  { intros d Hd' ->. right. apply (shared_dir ly s1 _ (cr3 t) I1 Hd'); [|done]. cbn. rewrite refs_cons, Z.eqb_refl. done. }
  unfold Vm.free_page in *. cbn [pages s1 set_tasks] in E. change (pages s1) with (pages s) in E. destruct (PageAlloc.free_page (cr3 t) (pages s)) as [m0|]; [|done].
  cbn in E. injection E as E0. subst m0. cbn [mbind option_bind]. unfold on_task. cbn [tasks set_pages]. rewrite Hk. cbn [mbind option_bind].
  eexists. split; [done|]. split; [|split; [apply lookup_insert_eq|done]]. split; [exact I2|by split| | |done|exact Hr].
  - intros k' v Nk Hv. exists v. split; [|done]. cbn. by rewrite lookup_insert_ne.
  - intros k'. cbn. destruct (decide (k' = k)) as [-> |Nk]; [rewrite lookup_insert_eq; split; [by right|by eexists]|].
    rewrite lookup_insert_ne by done. split; [by left|by intros [?|?]].
Qed.

Lemma new_private_ne s G a d : private s G a -> d ∈ dirs G -> a <> d.
Proof. intros P Hd ->. by apply (p_dirs _ _ _ P). Qed.

(** A directory that was there has as many users after a page was taken. *)
Lemma kept_dir_count ly s G s' G' d a : inv ly s G -> inv ly s' G' -> kept s G s' G' -> held G' = a :: held G -> a <> d -> d ∈ dirs G -> cnt s' d = cnt s d.
Proof.
  intros I I' K Hh N Hd. rewrite (dir_refs ly s G d I Hd), (dir_refs ly s' G' d I') by (by rewrite (k_dirs _ _ _ _ K)).
  rewrite Hh, refs_cons. destruct (Z.eqb_spec a d); [done|]. f_equal. assert (E := q_cr3 _ _ _ _ _ (kept_keeps (fun _ => False) _ _ _ _ K)).
  assert (T : forall m : gmap Z vtask, tally (fun t => cr3 t =? d) m = tally (fun c => c =? d) (cr3 <$> m)).
  { intros m. induction m as [|k x m Hk IH] using map_ind; [done|]. rewrite fmap_insert, !tally_insert; [by rewrite IH|by rewrite lookup_fmap, Hk|done]. }
  by rewrite !T, E.
Qed.

(** The task has no memory any more, or is killed. *)
Definition cleared (k : Z) (t : vtask) (G : ghost) (s' : vm) (G' : ghost) : Prop :=
  exists t', tasks s' !! k = Some t' /\
    (sent t' = SIGKILL :: sent t \/ (forall i j, seen s' G' (cr3 t', i, j) = zeros) /\ (cr3 t ∈ dirs G -> cr3 t ∉ lost G -> cr3 t' ∈ dirs G' /\ cr3 t' ∉ lost G')).

(** A new directory in place of one that others use as well. *)
Lemma new_dir_ok ly s G k t : inv ly s G -> calm G -> tasks s !! k = Some t -> cr3 t ∈ dirs G -> 1 < cnt s (cr3 t) ->
  exists s' G', ('(new_pg, s) ← get_free_page s;
      if new_pg =? 0 then oom k s
      else
        s ← upto 256 768 (fun i s => v ← rd (cr3 t) i s; wr new_pg i v s) s;
        s ← free_page (cr3 t) s;
        on_task k (set_cr3 new_pg) s) = Some s' /\ served ly k s G s' G' /\ lost G' ⊆ lost G
    /\ cleared k t G s' G'.
Proof.
  intros I C Hk Hd Hc. destruct (get_free_page_ok ly s G I (calm_light G C)) as (a & s1 & G1 & -> & I1 & K1 & Ha). cbn [mbind option_bind].
  destruct (task_core _ _ _ _ _ _ K1 Hk) as (t1 & Hk1 & E1 & Es & Eb). assert (Hd1 : cr3 t ∈ dirs G1) by (by rewrite (k_dirs _ _ _ _ K1)).
  destruct Ha as [[-> Hh]|(N0 & Hh & Pr & Hz)].
  - rewrite Z.eqb_refl. assert (Sv := served_kept ly k s G s1 G1 K1 Hh C I1 ltac:(by rewrite Hk)).
    destruct (served_task ly k s1 G1 (send_sig SIGKILL) t1 I1 (v_calm _ _ _ _ _ _ Sv) Hk1 eq_refl eq_refl) as (s2 & E2 & -> & Hk2 & Sv2 & _).
    unfold oom. rewrite E2. exists (set_tasks (<[k := send_sig SIGKILL t1]> (tasks s1)) s1), G1. split; [done|].
    split; [by eapply served_trans|]. split; [by rewrite (k_lost _ _ _ _ K1)|]. eexists. split; [exact Hk2|]. left. cbn. congruence.
  - destruct (Z.eqb_spec a 0); [done|]. rewrite (z_held _ C) in Hh. assert (Na := new_private_ne _ _ _ _ Pr Hd1).
    assert (I2 := inv_new_dir ly s1 G1 I1 a Pr ltac:(rewrite Hh; by left) Hz).
    set (G2 := Ghost ({[a]} ∪ dirs G1) (tabs G1) (ents G1) (held G1) (swheld G1) (unlinked G1) (lost G1 ∖ {[a]})) in I2.
    destruct (copy_kernel_ok ly s1 G2 (cr3 t) a I2) as (s3 & -> & I3 & E3 & S3); [apply elem_of_union; by right|apply elem_of_union; left; by apply elem_of_singleton|].
    cbn [mbind option_bind]. rewrite <- E1. assert (Hk3 : tasks s3 !! k = Some t1) by (by rewrite E3).
    destruct (move_dir_ok ly s3 G2 k t1 a I3) as (s4 & -> & Sv4 & Hk4 & S4); try done.
    + cbn. rewrite (k_swheld _ _ _ _ K1). apply C.
    + cbn. rewrite (k_unlinked _ _ _ _ K1). apply C.
    + rewrite E1. apply elem_of_union. by right.
    + apply elem_of_union. left. by apply elem_of_singleton.
    + congruence.
    + assert (X : cnt s3 (cr3 t1) = cnt s1 (cr3 t1)) by (by rewrite E3). rewrite X, E1.
      rewrite (kept_dir_count ly s G s1 G1 (cr3 t) a I I1 K1) by (try done; by rewrite Hh, (z_held _ C)). done.
    + assert (Nt : forall i, 0 <= i < 768 -> tabs G1 !! (a, i) = None).
      { intros i _. destruct (tabs G1 !! (a, i)) eqn:X; [|done]. by destruct (h_tabs _ _ _ (i_shape _ _ _ I1) _ _ _ X) as [?%(p_dirs _ _ _ Pr) _]. }
      exists s4, (set_held [] G2). split; [done|]. split; [|split].
      * destruct Sv4 as [b1 b2 b3 b4 b5 b6]. assert (Kp := kept_keeps (fun _ => False) _ _ _ _ K1). rewrite E3 in b4, b5, b6. cbn in b4, b5. split; try done.
        -- apply (undisturbed_trans _ s G s1 G1); [apply (keeps_undisturbed _ _ _ _ _ _ Kp); auto|].
           intros k' v Nk Hv. destruct (b3 k' v Nk) as (v' & Hv' & Ev & Sv); [by rewrite E3|]. exists v'. split; [done|]. split; [done|].
           intros i j. rewrite Sv. apply S3.
        -- intros k'. by rewrite b4, (fmap_is_Some cr3 _ _ k' (q_cr3 _ _ _ _ _ Kp)).
        -- rewrite b5. apply K1.
        -- intros b Hb. rewrite b6; [by apply K1|]. unfold is_page in *. cbn. by rewrite (k_high _ _ _ _ K1).
      * cbn. rewrite (k_lost _ _ _ _ K1). intros x Hx. by apply elem_of_difference in Hx as [Hx _].
      * eexists. split; [exact Hk4|]. right. cbn [cr3 set_cr3]. split; [intros i j; rewrite S4, S3; apply (no_tables_seen ly s1 G1 a I1 Nt i j)|].
        intros _ _. cbn. split; [apply elem_of_union; left; by apply elem_of_singleton|]. intros X. apply elem_of_difference in X as [_ X]. by destruct X; apply elem_of_singleton.
Qed.

(** A process is left with no memory, or killed. *)
Lemma clear_page_tables_ok ly s G k t : inv ly s G -> calm G -> tasks s !! k = Some t -> k <> 0 ->
  exists s' G', clear_page_tables ly k s = Some s' /\ served ly k s G s' G' /\ lost G' ⊆ lost G
    /\ cleared k t G s' G'.
Proof.
  intros I C Hk K0. unfold clear_page_tables. rewrite Hk. cbn [mbind option_bind]. destruct (Z.eqb_spec k 0); [done|].
  destruct (decide (cr3 t = swapper_pg_dir ly)) as [E|N].
  { rewrite E, Z.eqb_refl, orb_true_r. exists s, G. split; [done|]. split; [by apply served_same|]. split; [done|]. exists t. split; [done|].
    right. rewrite E. split; [|done]. apply (not_dir_seen ly s G _ I), (swapper_not_dir ly s G I). }
  destruct (h_tasks _ _ _ (i_shape _ _ _ I) k t Hk) as [Hd|]; [|done]. destruct (h_dirs _ _ _ (i_shape _ _ _ I) _ Hd) as (Hp & Hc & R).
  assert (M := m_ok _ _ (i_mem _ _ _ I)). assert (Rg := page_range s (cr3 t) M Hp). destruct (Z.eqb_spec (cr3 t) 0); [lia|].
  destruct (Z.eqb_spec (cr3 t) (swapper_pg_dir ly)); [done|]. cbn [orb]. rewrite (users_page0 s (cr3 t) M Hp). cbn [mbind option_bind].
  destruct (Z.ltb_spec 1 (cnt s (cr3 t))) as [L|L]; [by apply new_dir_ok|].
  destruct (free_tables_ok ly k s G (cr3 t) 768 0 I (calm_light G C)) as (s2 & G2 & E2 & I2 & K2 & H1 & H2 & H3 & H4 & H5);
    [apply C|by rewrite Hk|done|lia|lia|]. exists s2, G2. split; [exact E2|].
  destruct (keeps_task _ _ _ _ _ _ _ K2 Hk) as (t2 & Hk2 & Ec). split; [|split; [by rewrite H4|]].
  - apply (served_keeps ly k s G s2 G2 _ K2 I2); [split; [rewrite H1|rewrite H2|rewrite H3]; apply C|by rewrite Hk|].
    intros k' v i j Nk Hv. cbn. by apply (sole_user ly s G k t I Hk Hd L k' v).
  - exists t2. split; [done|]. right. rewrite Ec, H4, (q_dirs _ _ _ _ _ K2). split; [|done]. apply (no_tables_seen ly s2 G2 _ I2). intros i Hi. apply H5. lia.
Qed.

(** ** [clone_page_tables] *)

Lemma tally_size {K} `{Countable K} {A} (f : A -> bool) (m : gmap K A) : tally f m <= Z.of_nat (size m).
Proof.
  induction m as [|k x m Hk IH] using map_ind; [done|]. rewrite tally_insert, map_size_insert_None by done. destruct (f x); lia.
Qed.

Lemma clone_page_tables_ok ly s G k t c : inv ly s G -> calm G -> tasks s !! k = Some t -> cr3 t ∈ dirs G -> tasks s !! c = None ->
  (size (tasks s) < 128)%nat ->
  exists s', clone_page_tables k c s = Some s' /\ served ly c s G s' G /\ tasks s' = <[c := child t]> (tasks s) /\ forall x, seen s' G x = seen s G x.
Proof.
  intros I C Hk Hd Hc Hs. unfold clone_page_tables. rewrite Hk. cbn [mbind option_bind].
  destruct (h_dirs _ _ _ (i_shape _ _ _ I) _ Hd) as (Hp & H0 & R). assert (M := m_ok _ _ (i_mem _ _ _ I)).
  rewrite (users_page0 s (cr3 t) M Hp). cbn [mbind option_bind].
  destruct (inv_inc ly s G I (cr3 t) 0) as (mm & Hput & I1 & Hr & Ho & H1); [done|lia| | |rewrite (z_held _ C); cbn; lia|].
  { rewrite (dir_refs ly s G _ I Hd), (z_held _ C). change (occ (cr3 t) []) with 0. assert (X := tally_size (fun v => cr3 v =? cr3 t) (tasks s)). lia. }
  { intros x g Hx. by destruct (data_not_dir ly s G I (cr3 t) Hd x _ _ Hx). }
  rewrite Z.add_0_r in Hput. rewrite Hput. cbn [mbind option_bind]. eexists. split; [done|]. split; [|split; [done|done]].
  set (s1 := set_pages (set_map mm (pages s)) s) in *. assert (Pl := h_place _ _ _ (i_shape _ _ _ I) k t Hk).
  assert (I2 : inv ly (set_tasks (<[c := child t]> (tasks s1)) s1) (set_held [] (set_held (cr3 t :: held G) G))).
  { apply inv_set_task; [done|by left|done| | |cbn; lia].
    - cbn. rewrite map_size_insert_None by done. lia.
    - cbn [tasks s1 set_pages]. rewrite Hc. cbn [from_option held set_held]. rewrite (z_held _ C). unfold dir_of. cbn [cr3 child]. rewrite Hr by done. by rewrite R. }
  assert (Eg : set_held [] (set_held (cr3 t :: held G) G) = G) by (rewrite <- (z_held _ C); by destruct G). rewrite Eg in I2.
  split; try done.
  - intros k' v N Hv. exists v. split; [|done]. cbn. by rewrite lookup_insert_ne.
  - intros k'. cbn. destruct (decide (k' = c)) as [-> |N]; [rewrite lookup_insert_eq; split; [by right|by eexists]|].
    rewrite lookup_insert_ne by done. split; [by left|by intros [?|?]].
Qed.
End VmDir.
