(* ===== verification/VmCopy.v ===== *)
(** * Copying page tables for [fork]: [copy_page_tables]

    The child sees what the parent sees, and nobody else notices; pages are shared, and
    both sides lose the right to write them. *)

From S2P Require Import Prelude PageAlloc Vm VmBits VmInv VmCount VmSwap VmReclaim VmAlloc VmTables VmFree VmDir.
From Stdlib Require Import ZArith Lia.
From stdpp Require Import base list gmap numbers.
Local Open Scope Z_scope.

Module VmCopy.
Import PageAlloc Vm VmBits VmInv VmCount VmSwap VmReclaim VmAlloc VmTables VmFree VmDir.

Lemma tally_two {K} `{Countable K} {A} (f : A -> bool) (m : gmap K A) k k' x x' :
  m !! k = Some x -> m !! k' = Some x' -> k <> k' -> f x = true -> f x' = true -> 2 <= tally f m.
Proof.
  intros Hk Hk' N E E'. rewrite (tally_delete f m k x Hk), E.
  assert (X := tally_pos f (delete k m) k' x' ltac:(by rewrite lookup_delete_ne) E'). lia.
Qed.

(** A page that may be written has one entry. *)
Lemma writable_once ly s G x y a f g : inv ly s G -> ents G !! x = Some (Pg a f) -> ents G !! y = Some (Pg a g) -> is_res s a = false ->
  has g PAGE_RW = true -> x = y.
Proof.
  intros I Hx Hy R W. destruct (decide (x = y)) as [|N]; [done|]. destruct (n_page _ _ _ (i_entries _ _ _ I) y a g Hy) as [E1 E2 E3 E4 E5 E6 E7].
  assert (C1 := proj2 (E6 R) W). rewrite (c_refs _ _ (i_counted _ _ _ I) a E1 R) in C1. unfold refs in C1.
  assert (T := tally_two (at_page a) (ents G) x y _ _ Hx Hy N (Z.eqb_refl a) (Z.eqb_refl a)).
  assert (T2 := tally_nonneg (fun t => t =? a) (tabs G)). assert (T3 := tally_nonneg (fun t => cr3 t =? a) (tasks s)).
  assert (O := refs_nonneg a (held G)). lia.
Qed.

Lemma upd_comm a i v b j w s : a <> b -> upd a i v (upd b j w s) = upd b j w (upd a i v s).
Proof. intros N. unfold upd, set_frames. cbn. f_equal. rewrite !lookup_insert_ne by congruence. by apply insert_insert_ne. Qed.

(** The flags both entries get. *)
Definition protected (f : Z) : Z := if Z.land f (Z.lor PAGE_RW PAGE_COW) =? Z.lor PAGE_RW PAGE_COW then Z.land f (Z.lnot PAGE_RW) else f.

Lemma protected_word a f : a mod 4096 = 0 -> 0 <= f < 4096 ->
  (if Z.land (a + f) (Z.lor PAGE_RW PAGE_COW) =? Z.lor PAGE_RW PAGE_COW then Z.land (a + f) (Z.lnot PAGE_RW) else a + f) = a + protected f.
Proof.
  intros Ha Hf. unfold protected. rewrite land_flags by (try done; unfold PAGE_RW, PAGE_COW; cbn; lia).
  destruct (_ =? _); [|done]. rewrite clear_flags by (try done; unfold PAGE_RW; lia). done.
Qed.

Lemma land_pow2 f n : 0 <= n -> Z.land f (2 ^ n) = if Z.testbit f n then 2 ^ n else 0.
Proof.
  intros Hn. apply Z.bits_inj'. intros i Hi. rewrite Z.land_spec, Z.pow2_bits_eqb by lia. destruct (Z.eqb_spec n i) as [-> |N].
  - rewrite andb_true_r. destruct (Z.testbit f i) eqn:E; [by rewrite Z.pow2_bits_true|by rewrite Z.bits_0].
  - rewrite andb_false_r. destruct (Z.testbit f n); [by rewrite Z.pow2_bits_false by lia|by rewrite Z.bits_0].
Qed.

Lemma protected_spec f : 0 <= f < 4096 -> (has f PAGE_RW = true -> has f PAGE_COW = true) ->
  0 <= protected f < 4096 /\ has (protected f) PAGE_RW = false
  /\ (forall m, Z.land PAGE_RW m = 0 -> has (protected f) m = has f m) /\ (has f PAGE_RW = false -> protected f = f).
Proof.
  intros Hf H. unfold protected. rewrite Z.land_lor_distr_r. unfold has in H. change PAGE_RW with (2 ^ 1) in *. change PAGE_COW with (2 ^ 9) in *.
  unfold has. rewrite !land_pow2 in * by lia. destruct (Z.testbit f 1) eqn:B1.
  - destruct (Z.testbit f 9) eqn:B9; [|specialize (H eq_refl); done].
    rewrite Z.eqb_refl. split; [by apply clear_low|]. split; [|split; [|done]].
    + by rewrite Z.land_spec, Z.lnot_spec, Z.pow2_bits_true, andb_false_r by lia.
    + intros m Hm. exact (has_clear f (2 ^ 1) m Hm).
  - destruct (Z.testbit f 9);
      [change (Z.lor 0 (2 ^ 9) =? Z.lor (2 ^ 1) (2 ^ 9)) with false|change (Z.lor 0 0 =? Z.lor (2 ^ 1) (2 ^ 9)) with false];
      (split; [done|split; [by rewrite B1|done]]).
Qed.

(** ** One entry *)

Section Entry.
Context (ly : layout) (s : vm) (G : ghost) (I : inv ly s G) (Lt : light G).
Context (d c i j t u : Z) (Ht : tabs G !! (d, i) = Some t) (Hu : tabs G !! (c, i) = Some u) (N : c <> d) (Hj : 0 <= j < 1024).
Context (He : ents G !! (c, i, j) = None) (Hl : d ∉ lost G).

Definition copied (r : option vm) : Prop := exists s' es, r = Some s' /\ inv ly s' (set_ents es G) /\ keeps (eq (c, i, j)) s G s' (set_ents es G)
  /\ seen s' (set_ents es G) (c, i, j) = seen s G (d, i, j) /\ forall k, k <> j -> es !! (c, i, k) = ents G !! (c, i, k).

Lemma tables_ne : u <> t.
Proof. intros ->. assert (E := h_inj _ _ _ (i_shape _ _ _ I) _ _ _ Ht Hu). congruence. Qed.

Lemma data_not_table b : (is_res s b = true \/ forall x, tabs G !! x <> Some b) -> b <> t /\ b <> u.
Proof.
  assert (X := table_use ly s G I d i t Ht). assert (Y := table_use ly s G I c i u Hu). destruct X as (_ & _ & X), Y as (_ & _ & Y).
  intros [R|H]; split; intros ->; try congruence; by eapply H.
Qed.

Lemma entry_frame x a f : ents G !! x = Some (Pg a f) -> a <> t /\ a <> u.
Proof.
  intros Hx. apply data_not_table. destruct (is_res s a) eqn:R; [by left|right].
  by apply (e_data _ _ _ _ _ _ (n_page _ _ _ (i_entries _ _ _ I) x a f Hx) R).
Qed.

Lemma copy_swap e : ents G !! (d, i, j) = Some (Sw e) -> copied ('(e, s) ← swap_duplicate e s; wr u j e s).
Proof.
  intros Hx. destruct (n_swap _ _ _ (i_entries _ _ _ I) _ _ Hx) as [Sl Dk]. destruct Lt as [L1 L2].
  assert (P : 0 < srefs G e) by (unfold srefs; assert (T := tally_pos (at_slot e) _ _ _ Hx (Z.eqb_refl e)); assert (O := refs_nonneg e (swheld G)); lia).
  destruct (inv_swap_dup ly s G I e Sl P ltac:(lia)) as (l & n & -> & I1). cbn [mbind option_bind]. set (s1 := set_infos l n s) in *.
  rewrite (wr_entry ly s1 _ I1 c i j u Hu Hj). eexists _, (alter_ent (c, i, j) (Some (Sw e)) (ents G)). split; [done|]. split; [|split; [|split]].
  - apply (entry_replaced ly s1 _ I1 c i j u Hu Hj None (Some (Sw e)) (lost G) (held G) (swheld G)); try done; [|cbn; lia].
    split; [apply (w_held _ _ (i_swap _ _ _ I1)); by left|]. split; [done|]. intros d' i' j' Hx' _.
    by apply (n_same_swap _ _ _ (i_entries _ _ _ I) _ _ _ _ _ _ _ Hx' Hx).
  - split; try done.
    + intros x Hn. by apply (seen_upd ly s1 _ I1 c i j u Hu); congruence.
  - unfold seen. cbn [ents set_ents]. by rewrite alter_eq, Hx.
  - intros k Hk. rewrite alter_ne; [done|]. congruence.
Qed.

Section Page.
Context (a f : Z) (Hx : ents G !! (d, i, j) = Some (Pg a f)).

Let E : page_ent ly s (dirs G) (tabs G) a f := n_page _ _ _ (i_entries _ _ _ I) _ _ _ Hx.

Lemma not_bad_page : a <> empty_bad_page ly.
Proof. intros ->. apply Hl. by apply (n_lost _ _ _ (i_entries _ _ _ I) d i j f). Qed.

(** The zero page just gets another entry. *)
Lemma copy_reserved : is_res s a = true -> copied (Some (upd u j (a + f) s)).
Proof.
  intros R. destruct Lt as [L1 L2]. exists (upd u j (a + f) s), (alter_ent (c, i, j) (Some (Pg a f)) (ents G)). split; [done|]. split; [|split; [|split]].
  - apply (entry_replaced ly s G I c i j u Hu Hj None (Some (Pg a f)) (lost G) (held G) (swheld G)); try done; [| |lia].
    + split; [done|]. split; [by intros ?%not_bad_page|congruence].
    + unfold pages_of. by rewrite R.
  - split; try done.
    + intros x Hn. apply (seen_upd ly s G I c i j u Hu); congruence.
  - unfold seen. cbn [ents set_ents]. rewrite alter_eq, Hx. rewrite (data_frame ly s G I c i j u Hu); [done|by left].
  - intros k Hk. rewrite alter_ne; [done|]. congruence.
Qed.

(** Any other page is counted once more, and neither entry lets write it. *)
Lemma copy_shared : is_res s a = false ->
  let s1 := upd t j (a + protected f) (upd u j (a + protected f) s) in
  exists mm, put (mem_map (pages s)) (MAP_NR (a + protected f)) (u16 (cnt s a + 1)) = Some mm /\ copied (Some (set_pages (set_map mm (pages s1)) s1)).
Proof.
  intros R s1. destruct Lt as [L1 L2]. destruct E as [E1 E2 E3 E4 E5 E6 E7]. destruct (E5 R) as [Nd Nt].
  destruct (protected_spec f E2 (fun _ => proj1 (E6 R))) as (P1 & P2 & P3 & P4).
  assert (E' : page_ent ly s (dirs G) (tabs G) a (protected f)).
  { split; try done; [by rewrite P3|congruence| |]. { intros _. rewrite P3 by done. split; [by apply E6|congruence]. } intros _ D. rewrite P3 in D by done. by apply E7. }
  assert (I1 := inv_flags ly s G I d i j t Ht Hj a f Hx (protected f) E').
  set (s0 := upd t j (a + protected f) s) in *. set (G1 := set_ents (alter_ent (d, i, j) (Some (Pg a (protected f))) (ents G)) G) in *.
  assert (Rf := page_refs_few ly s G I a R Nd Nt). destruct Rf as [_ Rf].
  destruct (inv_inc ly s0 G1 I1 a (protected f)) as (mm & Hput & I2 & Hr & Ho & Hc); [| done| | |cbn; lia|].
  { split; [done|]. split; [|done]. change (cnt s a <> 0). rewrite (c_refs _ _ (i_counted _ _ _ I) a E1 R). unfold refs.
    assert (T := tally_pos (at_page a) _ _ _ Hx (Z.eqb_refl a)). assert (T2 := tally_nonneg (fun t => t =? a) (tabs G)).
    assert (T3 := tally_nonneg (fun t => cr3 t =? a) (tasks s)). assert (O := refs_nonneg a (held G)). lia. }
  { change (cnt s a <= 160). by rewrite (c_refs _ _ (i_counted _ _ _ I) a E1 R). }
  { intros x g Hg. cbn in Hg. destruct (decide (x = (d, i, j))) as [-> |Nx]; [rewrite alter_eq in Hg; by injection Hg as <-|].
    rewrite alter_ne in Hg by congruence. destruct (has g PAGE_RW) eqn:W; [|done]. by destruct (writable_once ly s G (d, i, j) x a f g I Hx Hg R W). }
  exists mm. split; [done|]. set (s2 := set_pages (set_map mm (pages s0)) s0) in *.
  assert (Es : set_pages (set_map mm (pages s1)) s1 = upd u j (a + protected f) s2).
  { unfold s1, s2, s0. rewrite (upd_comm t j _ u j _ s) by (apply not_eq_sym, tables_ne). done. }
  rewrite Es. exists (upd u j (a + protected f) s2), (alter_ent (c, i, j) (Some (Pg a (protected f))) (ents G1)). split; [done|].
  assert (Hne : (d, i, j) <> (c, i, j)) by congruence.
  assert (Fr : forall x b g, ents G !! x = Some (Pg b g) -> frames (upd u j (a + protected f) s2) !! b = frames s !! b).
  { intros x b g Hb. destruct (entry_frame x b g Hb) as [Nb Nb']. unfold s2, s0, upd. cbn. rewrite !lookup_insert_ne by congruence. done. }
  split; [|split; [|split]].
  - apply (entry_replaced ly s2 _ I2 c i j u Hu Hj None (Some (Pg a (protected f))) (lost G) (held G) (swheld G)); try done; [|split| |cbn; lia].
    + cbn. by rewrite alter_ne by congruence.
    + apply (n_page _ _ _ (i_entries _ _ _ I2) (d, i, j)). cbn. by rewrite alter_eq.
    + split; [by intros ?%not_bad_page|]. intros _ d' i' j' g Hg _. cbn in Hg. destruct (decide ((d', i', j') = (d, i, j))) as [[= -> -> ->]|Nx]; [done|].
      rewrite alter_ne in Hg by congruence. by apply (n_same _ _ _ (i_entries _ _ _ I) _ _ _ _ _ _ _ _ _ Hg Hx R).
    + unfold pages_of. rewrite Hr by done. change (is_res s0 a) with (is_res s a). by rewrite R.
  - split; try done.
    + intros x Hn. unfold seen. cbn [ents set_ents G1]. rewrite alter_ne by done. destruct (decide (x = (d, i, j))) as [-> |Nx].
      * rewrite alter_eq, Hx. by rewrite (Fr _ _ _ Hx).
      * rewrite alter_ne by congruence. destruct (ents G !! x) as [[b g|e]|] eqn:Hb; [by rewrite (Fr _ _ _ Hb)|done|done].
  - unfold seen. cbn [ents set_ents]. rewrite alter_eq, Hx. by rewrite (Fr _ _ _ Hx).
  - intros k Hk. cbn [ents set_ents G1]. rewrite !alter_ne by congruence. done.
Qed.
End Page.

Lemma copy_entry_ok : copied (copy_entry t u j s).
Proof.
  unfold copy_entry. rewrite (rd_entry ly s G I d i j t Ht Hj). cbn [mbind option_bind]. assert (Go := entry_good ly s G (d, i, j) I).
  assert (Wp := word_present ly s G _ I Go). destruct (Z.eqb_spec (word_of (ents G !! (d, i, j))) 0) as [E0|N0].
  - apply (word_zero ly s G _ I) in E0. exists s, (ents G). rewrite set_ents_id. split; [done|]. split; [done|]. split; [apply keeps_same|].
    split; [|done]. unfold seen. by rewrite E0, He.
  - rewrite Wp. destruct (ents G !! (d, i, j)) as [[a f|e]|] eqn:Hx; cbn [negb word_of]; [|by apply copy_swap|done].
    destruct Go as (G1 & G2 & G3 & G4). assert (M := m_ok _ _ (i_mem _ _ _ I)). rewrite (protected_word a f (page_align s a G1) G2).
    rewrite (wr_entry ly s G I c i j u Hu Hj). cbn [mbind option_bind].
    assert (Pr : 0 <= protected f < 4096) by (unfold protected; destruct (_ =? _); [by apply clear_low|done]).
    assert (Us : users (a + protected f) (upd u j (a + protected f) s) = Some (cnt s a)) by exact (users_page s a _ M G1 Pr).
    rewrite Us. cbn [mbind option_bind]. change (has (cnt s a) MAP_PAGE_RESERVED) with (is_res s a). destruct (is_res s a) eqn:R.
    + destruct (n_page _ _ _ (i_entries _ _ _ I) _ _ _ Hx) as [E1 E2 E3 E4 E5 E6 E7]. destruct (E4 R) as [Eb|(_ & W & _)]; [by destruct (not_bad_page a f Hx)|].
      destruct (protected_spec f E2) as (_ & _ & _ & P4); [by rewrite W|]. rewrite (P4 W). by apply copy_reserved.
    + destruct (copy_shared a f Hx R) as (mm & Hput & Cp).
      assert (Rd : readable (upd u j (a + protected f) s) t) by (left; exact (table_use ly s G I d i t Ht)).
      rewrite (wr_ok ly _ (mem_inv_table ly s G I c i j u Hu Hj _) t j _ Rd Hj). cbn [mbind option_bind].
      change (users (a + protected f) (upd t j _ _)) with (users (a + protected f) (upd u j (a + protected f) s)). rewrite Us. cbn [mbind option_bind].
      change (mem_map (pages (upd t j _ _))) with (mem_map (pages s)). rewrite Hput. exact Cp.
Qed.
End Entry.

(** ** One table *)

Lemma copy_entries_ok ly s G d c i t u : inv ly s G -> light G -> tabs G !! (d, i) = Some t -> tabs G !! (c, i) = Some u -> c <> d ->
  (forall j, ents G !! (c, i, j) = None) -> d ∉ lost G ->
  exists s' es, upto (Z.to_nat PTRS_PER_PAGE) 0 (copy_entry t u) s = Some s' /\ inv ly s' (set_ents es G)
    /\ keeps (fun x => x.1 = (c, i)) s G s' (set_ents es G) /\ forall j, seen s' (set_ents es G) (c, i, j) = seen s G (d, i, j).
Proof.
  intros I Lt Ht Hu N He Hl. change (Z.to_nat PTRS_PER_PAGE) with 1024%nat.
  set (P := fun j s' => exists es, inv ly s' (set_ents es G) /\ keeps (fun x => x.1 = (c, i)) s G s' (set_ents es G)
    /\ (forall k, 0 <= k < j -> seen s' (set_ents es G) (c, i, k) = seen s G (d, i, k)) /\ forall k, j <= k -> es !! (c, i, k) = None).
  destruct (upto_ok P (copy_entry t u) 1024 0 s) as (s' & E & es & I' & K & S & _).
  - exists (ents G). rewrite set_ents_id. split; [done|]. split; [apply keeps_same|]. split; [intros; lia|auto].
  - intros j s1 Hj (es & I1 & K1 & S1 & N1).
    destruct (copy_entry_ok ly s1 (set_ents es G) I1 Lt d c i j t u Ht Hu N ltac:(lia) (N1 j ltac:(lia)) Hl) as (s2 & es2 & E2 & I2 & K2 & S2 & O2).
    exists s2. split; [done|]. exists es2. split; [done|]. split; [|split].
    + eapply keeps_trans; [exact K1|]. eapply keeps_weaken; [exact K2|]. by intros x <-.
    + intros k Hk. destruct (decide (k = j)) as [-> |Nk].
      * transitivity (seen s1 (set_ents es G) (d, i, j)); [exact S2|]. apply K1. cbn. congruence.
      * rewrite <- S1 by lia. apply K2. congruence.
    + intros k Hk. rewrite O2 by lia. apply N1. lia.
  - exists s', es. split; [done|]. split; [done|]. split; [done|]. intros j.
    destruct (decide (0 <= j < 1024)) as [Hj|Hj]; [apply S; lia|]. unfold seen. rewrite (ents_out ly s' _ c i j I' Hj).
    by rewrite (ents_out ly s G d i j I Hj).
Qed.

(** A table for a directory entry that had none, filled by [F] before the directory
    points to it. *)
Lemma publish_ok ly s G c i u : inv ly s G -> tabs G !! (c, i) = Some u -> unlinked G = {[(c, i)]} ->
  exists s', wr c i (Z.lor u PAGE_TABLE) s = Some s' /\ inv ly s' (set_tabs (tabs G) ∅ G)
    /\ keeps (fun _ => False) s G s' (set_tabs (tabs G) ∅ G).
Proof.
  intros I Hu Hl. destruct (h_tabs _ _ _ (i_shape _ _ _ I) c i u Hu) as (Hd & Hi & (Hp & _ & _) & _).
  rewrite (wr_dir ly s G I c i Hd) by lia. rewrite lor_add by (first [by apply (page_align s)|change PAGE_TABLE with 39; lia]).
  eexists. split; [done|]. split.
  - apply (inv_dir ly s G I c i Hd ltac:(lia)); [|done|].
    + unfold dir_fits. destruct (Z.ltb_spec i 768); [|lia]. left. rewrite decide_False by apply not_elem_of_empty. by rewrite Hu.
    + intros x Hx. rewrite Hl, elem_of_singleton. split; [|done]. intros X. by apply not_elem_of_empty in X.
  - split; try done. intros x _. apply (seen_dir ly s G I c i Hd); [lia|done].
Qed.

Section Table.
Context (ly : layout) (s : vm) (G : ghost) (I : inv ly s G) (C : calm G) (d c i t : Z) (N : c <> d).
Context (Hc : c ∈ dirs G) (Hi : 0 <= i < 768) (Ht : tabs G !! (d, i) = Some t) (Hn : tabs G !! (c, i) = None) (Hl : (d ∉ lost G) /\ c ∉ lost G).

Lemma copy_table_ok a s1 G1 : inv ly s1 G1 -> kept s G s1 G1 -> held G1 = a :: held G -> private s1 G1 a -> frames s1 !! a = Some zeros ->
  exists s' G', (s ← upto (Z.to_nat PTRS_PER_PAGE) 0 (copy_entry t (Z.land PAGE_MASK a)) s1; wr c i (Z.lor a PAGE_TABLE) s) = Some s'
    /\ inv ly s' G' /\ calm G' /\ keeps (fun x => x.1 = (c, i)) s G s' G' /\ (forall j, seen s' G' (c, i, j) = seen s G (d, i, j))
    /\ lost G' = lost G /\ tabs G' = <[(c, i) := a]> (tabs G).
Proof.
  intros I1 K1 Hh P Hz. destruct P as [(Pp & P0 & Pr) P2 P3 P4 P5] eqn:EP. assert (M := m_ok _ _ (i_mem _ _ _ I1)).
  assert (Ma : Z.land PAGE_MASK a = a).
  { assert (X := mask_flags a 0 (page_align s1 a Pp) ltac:(lia)). rewrite Z.add_0_r in X. apply X. assert (Y := page_range s1 a M Pp). lia. }
  rewrite Ma. assert (Hc1 : c ∈ dirs G1) by (by rewrite (k_dirs _ _ _ _ K1)). assert (Hn1 : tabs G1 !! (c, i) = None) by (by rewrite (k_tabs _ _ _ _ K1)).
  assert (Ht1 : tabs G1 !! (d, i) = Some t) by (by rewrite (k_tabs _ _ _ _ K1)).
  assert (W0 : wd s1 c i = 0).
  { destruct (h_low _ _ _ (i_shape _ _ _ I1) c i Hc1 Hi) as [X|(X & _)]; [rewrite Hn1 in X; by destruct (decide _)|].
    rewrite (k_lost _ _ _ _ K1) in X. by destruct Hl. }
  assert (I2 := inv_adopt ly s1 G1 I1 c i a (held G) Hc1 Hi Hn1 W0 P Hz ltac:(by rewrite Hh)).
  set (G2 := Ghost (dirs G1) (<[(c, i) := a]> (tabs G1)) (ents G1) (held G) (swheld G1) ({[(c, i)]} ∪ unlinked G1) (lost G1)) in I2.
  destruct (copy_entries_ok ly s1 G2 d c i t a I2) as (s3 & es & -> & I3 & K3 & S3).
  { split; cbn; [rewrite (z_held _ C); cbn; lia|rewrite (k_swheld _ _ _ _ K1), (z_swheld _ C); cbn; lia]. }
  { cbn. rewrite lookup_insert_ne by congruence. done. }
  { cbn. apply lookup_insert_eq. }
  { done. }
  { intros j. cbn. destruct (ents G1 !! (c, i, j)) eqn:X; [|done]. destruct (h_ents _ _ _ (i_shape _ _ _ I1) _ _ _ _ X) as [[? Y] _]. congruence. }
  { cbn. rewrite (k_lost _ _ _ _ K1). apply Hl. }
  cbn [mbind option_bind]. destruct (publish_ok ly s3 (set_ents es G2) c i a I3) as (s4 & -> & I4 & K4).
  { cbn. apply lookup_insert_eq. }
  { cbn. rewrite (k_unlinked _ _ _ _ K1), (z_unlinked _ C). apply leibniz_equiv. apply right_id. apply _. }
  exists s4. eexists. split; [done|]. split; [exact I4|]. split; [|split; [|split; [|split]]].
  - split; cbn; [apply C|rewrite (k_swheld _ _ _ _ K1); apply C|done].
  - apply (keeps_trans _ s G s1 G1); [by apply kept_keeps|]. apply (keeps_trans _ s1 G1 s1 G2); [by split|].
    apply (keeps_trans _ s1 G2 s3 (set_ents es G2)); [done|]. eapply keeps_weaken; [exact K4|done].
  - intros j. rewrite (q_seen _ _ _ _ _ K4) by auto. rewrite S3. apply (k_seen _ _ _ _ K1).
  - cbn. apply K1.
  - cbn. by rewrite (k_tabs _ _ _ _ K1).
Qed.
End Table.

(** ** All tables *)

Definition copied_all (ly : layout) (k d c i : Z) (s : vm) (G : ghost) (r : option (Z * vm)) : Prop :=
  exists e s' G', r = Some (e, s') /\ lost G' = lost G /\
    (e = 0 /\ inv ly s' G' /\ calm G' /\ keeps (fun x => x.1.1 = c /\ i <= x.1.2) s G s' G'
       /\ (forall i' j, i <= i' -> seen s' G' (c, i', j) = seen s G (d, i', j))
     \/ e = - ENOMEM /\ served ly k s G s' G' /\ exists v, tasks s' !! k = Some v /\ cr3 v = swapper_pg_dir ly).

Lemma copied_step ly k d c i s G s1 G1 r : c <> d -> keeps (fun x => x.1 = (c, i)) s G s1 G1 -> (forall j, seen s1 G1 (c, i, j) = seen s G (d, i, j)) ->
  lost G1 = lost G -> (forall k' t, k' <> k -> tasks s !! k' = Some t -> cr3 t <> c) -> copied_all ly k d c (i + 1) s1 G1 r -> copied_all ly k d c i s G r.
Proof.
  intros N K S El So (e & s' & G' & -> & El' & H). exists e, s', G'. split; [done|]. split; [congruence|].
  destruct H as [(-> & I' & C' & K' & S')|(-> & Sv & Hv)]; [left|right]; (split; [done|]).
  - split; [done|]. split; [done|]. split.
    + eapply keeps_trans; [eapply keeps_weaken; [exact K|]|eapply keeps_weaken; [exact K'|]].
      * intros [[d' i'] j] [= -> ->]. cbn. split; [done|lia].
      * intros [[d' i'] j]. cbn. intros [? ?]. split; [done|lia].
    + intros i' j Hi'. destruct (decide (i' = i)) as [-> |Ni].
      * rewrite <- S. apply K'. cbn. lia.
      * rewrite S' by lia. apply K. cbn. congruence.
  - split; [|done]. eapply led_served; [exact K| |exact Sv]. intros k' t i' j Nk Hk. cbn. intros [= E _]. by eapply So.
Qed.

(** A directory entry without a table of ours. *)
Lemma no_tab_seen ly s G d i j : inv ly s G -> tabs G !! (d, i) = None -> seen s G (d, i, j) = zeros.
Proof.
  intros I Ht. unfold seen. destruct (ents G !! (d, i, j)) eqn:E; [|done]. destruct (h_ents _ _ _ (i_shape _ _ _ I) _ _ _ _ E) as [[t X] _]. congruence.
Qed.

Lemma high_no_tab ly s G d i : inv ly s G -> 768 <= i -> tabs G !! (d, i) = None.
Proof.
  intros I Hi. destruct (tabs G !! (d, i)) eqn:E; [|done]. destruct (h_tabs _ _ _ (i_shape _ _ _ I) _ _ _ E) as (_ & ? & _). lia.
Qed.

(** The kernel's entries are copied as they are. *)
Lemma copy_kernel_entry ly s G c i w : inv ly s G -> c ∈ dirs G -> 768 <= i < 1024 -> kent s w ->
  exists s', wr c i w s = Some s' /\ inv ly s' G /\ keeps (fun x => x.1 = (c, i)) s G s' G /\ tasks s' = tasks s.
Proof.
  intros I Hc Hi Kw. rewrite (wr_dir ly s G I c i Hc) by lia. eexists. split; [done|]. split; [|split; [|done]].
  - assert (X := inv_dir ly s G I c i Hc ltac:(lia) w (unlinked G) (lost G)). destruct G as [ds ts es K KS U l]. apply X; [|done|done].
    unfold dir_fits. destruct (Z.ltb_spec i 768); [lia|done].
  - split; try done. intros x _. apply (seen_dir ly s G I c i Hc); [lia|done].
Qed.

Lemma copy_tables_ok ly k d c : forall n i s G v, inv ly s G -> calm G -> tasks s !! k = Some v -> k <> 0 -> cr3 v = c ->
  (forall k' t, k' <> k -> tasks s !! k' = Some t -> cr3 t <> c) ->
  d ∈ dirs G -> c ∈ dirs G -> c <> d -> (d ∉ lost G) -> (c ∉ lost G) -> 0 <= i -> i + Z.of_nat n = 1024 ->
  (forall i', i <= i' -> tabs G !! (c, i') = None) -> copied_all ly k d c i s G (copy_tables ly n k d c i s).
Proof.
  induction n as [|n IH]; intros i s G v I C Hk K0 Ec So Hd Hc N Ld Lc Hi Hn Tn; cbn [copy_tables].
  { exists 0, s, G. split; [done|]. split; [done|]. left. split; [done|]. split; [done|]. split; [done|]. split; [apply keeps_same|].
    intros i' j Hi'. rewrite (no_tab_seen ly s G c i' j I), (no_tab_seen ly s G d i' j I); [done| |]; apply (high_no_tab ly s G _ i' I); lia. }
  rewrite (rd_dir ly s G I d i Hd) by lia. cbn [mbind option_bind].
  assert (Uc : forall x, x ∉ unlinked G) by (intros x; rewrite (z_unlinked _ C); apply not_elem_of_empty).
  assert (Next : forall s1 G1, inv ly s1 G1 -> calm G1 -> keeps (fun x => x.1 = (c, i)) s G s1 G1 -> lost G1 = lost G ->
    (forall i', i + 1 <= i' -> tabs G1 !! (c, i') = None) -> copied_all ly k d c (i + 1) s1 G1 (copy_tables ly n k d c (i + 1) s1)).
  { intros s1 G1 I1 C1 K1 El Tn1. destruct (keeps_task _ _ _ _ _ _ _ K1 Hk) as (v1 & Hk1 & Ev). apply (IH (i + 1) s1 G1 v1); try done; try congruence; try lia.
    - intros k' t' Nk Hk'. destruct (proj1 (fmap_is_Some cr3 _ _ k' (q_cr3 _ _ _ _ _ K1)) ltac:(by eexists)) as [t0 Ht0].
      destruct (keeps_task _ _ _ _ _ _ _ K1 Ht0) as (t2 & Ht2 & E2). assert (t2 = t') by congruence. subst t2. rewrite E2. by apply (So k').
    - by rewrite (q_dirs _ _ _ _ _ K1).
    - by rewrite (q_dirs _ _ _ _ _ K1). }
  destruct (dir_word ly s G I d i (or_introl Hd) ltac:(lia)) as [(R & Hw & Kw)|(t & Ew & Ht & _ & Hlo)].
  - assert (Td := word_no_tab ly s G d i I (Uc _) R).
    assert (Sz : forall s1, inv ly s1 G -> forall j, seen s1 G (c, i, j) = seen s G (d, i, j)).
    { intros s1 I1 j. rewrite (no_tab_seen ly s1 G c i j I1), (no_tab_seen ly s G d i j I); [done|done|]. apply Tn. lia. }
    destruct (Z.eqb_spec (wd s d i) 0) as [E0|N0].
    + apply (copied_step ly k d c i s G s G); [done|apply keeps_same|by apply Sz|done|done|]. apply Next; try done. intros i' Hi'. apply Tn. lia.
    + destruct Kw as [?|(a & f & Ea & Ka & Hf & Pr)]; [done|]. destruct (Z.leb_spec (high_memory (pages s)) (wd s d i)); [lia|].
      assert (Hp : has (wd s d i) PAGE_PRESENT = true) by (rewrite Ea, has_flags; [done|by apply (page_align s), Ka|done|unfold PAGE_PRESENT; lia]).
      rewrite Hp. cbn [negb orb]. rewrite R. cbn [mbind option_bind]. destruct (Z.lt_ge_cases i 768) as [Lo|Hg].
      { destruct (h_low _ _ _ (i_shape _ _ _ I) d i Hd ltac:(lia)) as [X|(X & _)]; [|done]. rewrite Td in X. by destruct (decide _). }
      destruct (copy_kernel_entry ly s G c i (wd s d i) I Hc ltac:(lia)) as (s1 & -> & I1 & K1 & T1); [right; by exists a, f|]. cbn [mbind option_bind].
      apply (copied_step ly k d c i s G s1 G); [done|done|by apply Sz|done|done|]. apply Next; try done. intros i' Hi'. apply Tn. lia.
  - destruct (table_word ly s G I d i t Ht) as (T1 & T2 & T3 & T4 & T5 & T6 & _). rewrite Ew. destruct (Z.eqb_spec (t + PAGE_TABLE) 0); [done|].
    destruct (Z.leb_spec (high_memory (pages s)) (t + PAGE_TABLE)); [lia|]. rewrite T3. cbn [negb orb]. rewrite T2. cbn [mbind option_bind]. rewrite T5.
    destruct (get_free_page_ok ly s G I (calm_light G C)) as (a & s1 & G1 & -> & I1 & K1 & Ha). cbn [mbind option_bind]. destruct Ha as [[-> Hh]|(Na & Hh & P & Hz)].
    + rewrite Z.eqb_refl. assert (Sv := served_kept ly k s G s1 G1 K1 Hh C I1 ltac:(by rewrite Hk)). destruct (task_core _ _ _ _ _ _ K1 Hk) as (v1 & Hk1 & _).
      destruct (free_page_tables_ok ly s1 G1 k v1 I1 (v_calm _ _ _ _ _ _ Sv) Hk1 K0) as (s2 & G2 & -> & Sv2 & El2 & Hv2). cbn [mbind option_bind].
      exists (- ENOMEM), s2, G2. split; [done|]. split; [rewrite El2; apply K1|]. right. split; [done|]. split; [by eapply served_trans|done].
    + destruct (Z.eqb_spec a 0); [done|]. assert (Hn0 : tabs G !! (c, i) = None) by (apply Tn; lia).
      destruct (copy_table_ok ly s G C d c i t N Hc ltac:(lia) Ht Hn0 (conj Ld Lc) a s1 G1 I1 K1 Hh P Hz) as (s2 & G2 & E2 & I2 & C2 & K2 & S2 & El2 & Et2).
      destruct (upto _ _ _ s1) as [s3|]; [|done]. cbn [mbind option_bind] in *. rewrite E2. cbn [mbind option_bind].
      apply (copied_step ly k d c i s G s2 G2); try done. apply Next; try done. intros i' Hi'. rewrite Et2, lookup_insert_ne by (intros [= X]; lia). apply Tn. lia.
Qed.

(** ** [fork] *)

(** A task that has no memory goes. *)
Lemma inv_del_task ly s G k : inv ly s G -> (forall t, tasks s !! k = Some t -> cr3 t = swapper_pg_dir ly) ->
  inv ly (set_tasks (delete k (tasks s)) s) G.
Proof.
  intros [M H E C W] Hk. split; [by destruct M; split| | | |by destruct W; split].
  - destruct H as [H1 H2 H3 H4 H4' H5 H6 H7 H8 H9 H10]. split; try done; cbn.
    + intros d Hd. destruct (H2 d Hd) as [?|(k' & t & Ht & Ec)]; [by left|right]. exists k', t. split; [|done]. rewrite lookup_delete_ne; [done|].
      intros <-. rewrite (Hk t Ht) in Ec. subst d. destruct (H1 _ Hd) as (_ & _ & R). destruct (m_swapper _ _ M). congruence.
    + intros k' t Ht. apply lookup_delete_Some in Ht as [_ Ht]. by eapply H3.
    + etransitivity; [|exact H4]. apply map_subseteq_size, delete_subseteq.
    + intros k' t Ht. apply lookup_delete_Some in Ht as [_ Ht]. by eapply H4'.
  - destruct E as [E1 E2 E3 E4 E5]. split; try done. intros y a f Hy. destruct (E1 y a f Hy). by split.
  - destruct C as [C1 C2 C3]. split; try done. intros a Ha R. change (is_res s a = false) in R.
    change (cnt s a = refs (set_tasks (delete k (tasks s)) s) G a). rewrite (C1 a Ha R). unfold refs. cbn [tasks set_tasks].
    destruct (tasks s !! k) as [t|] eqn:Ht; [|by rewrite delete_id]. rewrite (tally_delete (fun t => cr3 t =? a) _ _ _ Ht), (Hk t eq_refl).
    destruct (Z.eqb_spec (swapper_pg_dir ly) a) as [<-|]; [|lia]. destruct (m_swapper _ _ M). congruence.
Qed.

(** What [fork] promises: the child [c] has the memory of [k], or there is no child. *)
Record forked (ly : layout) (COPYVM : bool) (k c : Z) (t : vtask) (s : vm) (G : ghost) (s' : vm) (G' : ghost) : Prop := {
  y_served : served ly c s G s' G';
  y_lost : lost G' ⊆ lost G;
  y_child : exists v, tasks s' !! c = Some v /\ forall i j, seen s' G' (cr3 v, i, j) = seen s G (cr3 t, i, j);
  y_intact v : tasks s' !! c = Some v -> cr3 v ∈ dirs G' /\ cr3 v ∉ lost G';
  y_own v : tasks s' !! c = Some v -> if COPYVM then forall k' t', tasks s !! k' = Some t' -> cr3 t' <> cr3 v else cr3 v = cr3 t
}.

Section Fork.
Context (ly : layout) (s : vm) (G : ghost) (I : inv ly s G) (C : calm G) (k c : Z) (t : vtask) (Hk : tasks s !! k = Some t).
Context (Hd : cr3 t ∈ dirs G) (Hl : cr3 t ∉ lost G) (Hc : tasks s !! c = None) (C0 : c <> 0) (Hs : (size (tasks s) < 128)%nat).

(** The child with its empty directory. *)
Lemma born_ok a s1 G1 t1 : inv ly s1 G1 -> kept s G s1 G1 -> held G1 = [a] -> private s1 G1 a -> frames s1 !! a = Some zeros -> tasks s1 !! k = Some t1 ->
  let s2 := set_tasks (<[c := set_cr3 a (child t1)]> (tasks s1)) s1 in
  let G2 := Ghost ({[a]} ∪ dirs G1) (tabs G1) (ents G1) [] (swheld G1) (unlinked G1) (lost G1 ∖ {[a]}) in
  inv ly s2 G2 /\ calm G2 /\ undisturbed (fun k' => k' <> c) s G s2 G2
  /\ (forall k' v, k' <> c -> tasks s2 !! k' = Some v -> cr3 v <> a).
Proof.
  intros I1 K1 Hh P Hz Hk1 s2 G2. assert (I2 := inv_new_dir ly s1 G1 I1 a P ltac:(rewrite Hh; by left) Hz).
  assert (Kp := kept_keeps (fun _ => False) _ _ _ _ K1). assert (Tc := fmap_is_Some cr3 _ _ c (q_cr3 _ _ _ _ _ Kp)).
  assert (Hc1 : tasks s1 !! c = None) by (destruct (tasks s1 !! c) eqn:X; [|done]; destruct (proj1 Tc ltac:(by eexists)); congruence).
  assert (Da : a ∈ {[a]} ∪ dirs G1) by (apply elem_of_union; left; by apply elem_of_singleton).
  split; [|split; [|split]].
  - apply (inv_set_task ly s1 _ I2 c (set_cr3 a (child t1)) []); [by left|exact (h_place _ _ _ (i_shape _ _ _ I1) k t1 Hk1)| | |cbn; lia].
    + rewrite map_size_insert_None by done. assert (X := f_equal size (q_cr3 _ _ _ _ _ Kp)). rewrite !map_size_fmap in X. lia.
    + rewrite Hc1. cbn [from_option held]. rewrite Hh. unfold dir_of. cbn [cr3 set_cr3]. destruct P as [(_ & _ & R) _ _ _ _]. by rewrite R.
  - split; cbn; [done|rewrite (k_swheld _ _ _ _ K1); apply C|rewrite (k_unlinked _ _ _ _ K1); apply C].
  - apply (undisturbed_trans _ s G s1 G1); [apply (keeps_undisturbed _ _ _ _ _ _ Kp); auto|]. intros k' v Nk Hv. exists v.
    split; [|done]. cbn. by rewrite lookup_insert_ne.
  - intros k' v Nk. cbn. rewrite lookup_insert_ne by done. intros Hv E. destruct (h_tasks _ _ _ (i_shape _ _ _ I1) k' v Hv) as [X|X].
    + rewrite E in X. by apply (p_dirs _ _ _ P).
    + destruct P as [(_ & _ & R) _ _ _ _]. destruct (m_swapper _ _ (i_mem _ _ _ I1)). congruence.
Qed.

(** Without memory there is no child, or one that has none. *)
Record barren (s' : vm) (G' : ghost) : Prop := {
  b_inv : inv ly s' G';
  b_calm : calm G';
  b_lost : lost G' ⊆ lost G;
  b_others : undisturbed (fun k' => k' <> c) s G s' G';
  b_task k' : k' <> c -> is_Some (tasks s' !! k') <-> is_Some (tasks s !! k');
  b_child v : tasks s' !! c = Some v -> cr3 v = swapper_pg_dir ly;
  b_high : high_memory (pages s') = high_memory (pages s);
  b_res a : is_page (pages s) a -> is_res s' a = is_res s a
}.

Lemma copy_page_tables_ok : exists r s' G', copy_page_tables ly k c s = Some (r, s') /\
  (r = 0 /\ forked ly true k c t s G s' G' \/ r = - ENOMEM /\ barren s' G').
Proof.
  unfold copy_page_tables. destruct (get_free_page_ok ly s G I (calm_light G C)) as (a & s1 & G1 & -> & I1 & K1 & Ha). cbn [mbind option_bind].
  assert (Kp := kept_keeps (fun _ => False) _ _ _ _ K1). destruct (task_core _ _ _ _ _ _ K1 Hk) as (t1 & Hk1 & E1 & _).
  destruct Ha as [[-> Hh]|(Na & Hh & P & Hz)].
  - rewrite Z.eqb_refl. exists (- ENOMEM), s1, G1. split; [done|]. right. split; [done|].
    split; [done| |by rewrite (k_lost _ _ _ _ K1)|apply (keeps_undisturbed _ _ _ _ _ _ Kp); auto|intros k' _; apply (fmap_is_Some cr3), Kp| |apply K1|apply K1].
    + split; [rewrite Hh|rewrite (k_swheld _ _ _ _ K1)|rewrite (k_unlinked _ _ _ _ K1)]; apply C.
    + intros v Hv. destruct (proj1 (fmap_is_Some cr3 _ _ c (q_cr3 _ _ _ _ _ Kp)) ltac:(by eexists)). congruence.
  - destruct (Z.eqb_spec a 0); [done|]. rewrite Hk1. cbn [mbind option_bind]. rewrite (z_held _ C) in Hh.
    destruct (born_ok a s1 G1 t1 I1 K1 Hh P Hz Hk1) as (I2 & C2 & U2 & So). rewrite E1.
    set (s2 := set_tasks _ s1) in *. set (G2 := Ghost ({[a]} ∪ dirs G1) _ _ _ _ _ _) in *.
    assert (Hd1 : cr3 t ∈ dirs G1) by (by rewrite (k_dirs _ _ _ _ K1)). assert (Nd := new_private_ne _ _ _ _ P Hd1).
    assert (Cp : copied_all ly c (cr3 t) a 0 s2 G2 (copy_tables ly (Z.to_nat PTRS_PER_PAGE) c (cr3 t) a 0 s2)).
    { apply (copy_tables_ok ly c (cr3 t) a _ 0 s2 G2 (set_cr3 a (child t1))); try done; [apply lookup_insert_eq|apply elem_of_union; by right| | | |].
      - apply elem_of_union. left. by apply elem_of_singleton.
      - cbn. rewrite (k_lost _ _ _ _ K1). intros X. by apply elem_of_difference in X as [X _].
      - cbn. intros X. apply elem_of_difference in X as [_ X]. by destruct X; apply elem_of_singleton.
      - intros i' _. cbn. destruct (tabs G1 !! (a, i')) eqn:X; [|done]. by destruct (h_tabs _ _ _ (i_shape _ _ _ I1) _ _ _ X) as [?%(p_dirs _ _ _ P) _]. }
    destruct Cp as (e & s' & G' & -> & El & Cp). exists e, s', G'. split; [done|].
    assert (Dom : forall k', is_Some (tasks s2 !! k') <-> is_Some (tasks s !! k') \/ k' = c).
    { intros k'. unfold s2. cbn. destruct (decide (k' = c)) as [-> |Nk]; [rewrite lookup_insert_eq; split; [by right|by eexists]|].
      rewrite lookup_insert_ne by done. rewrite (fmap_is_Some cr3 _ _ k' (q_cr3 _ _ _ _ _ Kp)). split; [by left|by intros [?|?]]. }
    assert (Ll : lost G' ⊆ lost G) by (rewrite El; cbn; rewrite (k_lost _ _ _ _ K1); intros x Hx; by apply elem_of_difference in Hx as [Hx _]).
    assert (Pg2 : forall b, is_page (pages s) b -> is_page (pages s2) b) by (intros b; unfold is_page; cbn; by rewrite (k_high _ _ _ _ K1)).
    destruct Cp as [(-> & I' & C' & K' & S')|(-> & Sv & v & Hv & Ev)]; [left|right]; (split; [done|]).
    + assert (Hk2 : tasks s2 !! c = Some (set_cr3 a (child t1))) by apply lookup_insert_eq. destruct (keeps_task _ _ _ _ _ _ _ K' Hk2) as (v & Hv & Ev).
      assert (La : a ∉ lost G') by (rewrite El; cbn; intros X; apply elem_of_difference in X as [_ X]; by destruct X; apply elem_of_singleton).
      split; [|done| |intros v' Hv'; replace (cr3 v') with a by (cbn in Ev; congruence); split; [|done]|].
      * split; [done|done| | | |].
        -- apply (undisturbed_trans _ s G s2 G2 s' G' U2), (keeps_undisturbed _ _ _ _ _ _ K'). intros k' v' i j Nk Hv'. cbn. intros [X _]. by apply (So k' v').
        -- intros k'. by rewrite (fmap_is_Some cr3 _ _ k' (q_cr3 _ _ _ _ _ K')).
        -- rewrite (q_high _ _ _ _ _ K'). apply K1.
        -- intros b Hb. rewrite (q_res _ _ _ _ _ K') by auto. by apply (k_res _ _ _ _ K1).
      * exists v. split; [done|]. intros i j. rewrite Ev. cbn [cr3 set_cr3]. rewrite <- (k_seen _ _ _ _ K1). destruct (decide (0 <= i)) as [Hi|Hi]; [by apply S'|].
        assert (Neg : forall s0 G0 d, inv ly s0 G0 -> tabs G0 !! (d, i) = None).
        { intros s0 G0 d I0. destruct (tabs G0 !! (d, i)) eqn:X; [|done]. destruct (h_tabs _ _ _ (i_shape _ _ _ I0) _ _ _ X) as (_ & ? & _). lia. }
        by rewrite (no_tab_seen ly s' G' a i j I' (Neg _ _ _ I')), (no_tab_seen ly s1 G1 (cr3 t) i j I1 (Neg _ _ _ I1)).
      * rewrite (q_dirs _ _ _ _ _ K'). cbn. apply elem_of_union. left. by apply elem_of_singleton.
      * intros v' Hv' k' t' Hk'. replace (cr3 v') with a by (cbn in Ev; congruence). assert (Nk : k' <> c) by congruence.
        destruct (U2 k' t' Nk Hk') as (t2 & Ht2 & <- & _). by apply (So k').
    + destruct Sv as [b1 b2 b3 b4 b5 b6]. split; try done.
      * by apply (undisturbed_trans _ s G s2 G2).
      * intros k' Nk. rewrite b4, Dom. split; [by intros [[?|?]|?]|]. by left; left.
      * intros v' Hv'. congruence.
      * rewrite b5. apply K1.
      * intros b Hb. rewrite b6 by auto. by apply (k_res _ _ _ _ K1).
Qed.

(** ... and as [sys_fork] leaves it. *)
Lemma fork_vm_ok COPYVM : exists r s' G', fork_vm ly COPYVM k c s = Some (r, s') /\
  (r = 0 /\ forked ly COPYVM k c t s G s' G' \/ r = - EAGAIN /\ barren s' G' /\ tasks s' !! c = None).
Proof.
  unfold fork_vm. destruct COPYVM.
  - destruct copy_page_tables_ok as (r & s1 & G1 & -> & [(-> & F)|(-> & [b1 b2 b3 b4 b5 b6 b7 b8])]); cbn [mbind option_bind].
    + exists 0, s1, G1. split; [done|]. by left.
    + eexists (- EAGAIN), _, G1. split; [done|]. right. split; [done|]. split; [|apply lookup_delete_eq]. split; try done.
      * by apply inv_del_task.
      * intros k' v Nk Hv. destruct (b4 k' v Nk Hv) as (v' & Hv' & E & S). exists v'. split; [cbn; by rewrite lookup_delete_ne|]. split; [done|]. intros i j. apply S.
      * intros k' Nk. cbn. rewrite lookup_delete_ne by done. by apply b5.
      * intros v. cbn. by rewrite lookup_delete_eq.
  - destruct (clone_page_tables_ok ly s G k t c I C Hk Hd Hc Hs) as (s1 & -> & Sv & Ts & S). cbn [mbind option_bind].
    exists 0, s1, G. split; [done|]. left. split; [done|]. split; [done|done| | |].
    + exists (child t). rewrite Ts, lookup_insert_eq. split; [done|]. intros i j. apply S.
    + intros v. rewrite Ts, lookup_insert_eq. by intros [= <-].
    + intros v. rewrite Ts, lookup_insert_eq. by intros [= <-].
Qed.
End Fork.
End VmCopy.
