(* ===== verification/VmRange.v ===== *)
(** * Ranges of pages: [unmap_page_range], [zeromap_page_range]

    The entries of the range are cleared, or set to the zero page; the others stay. *)

From S2P Require Import Prelude PageAlloc Vm VmBits VmInv VmCount VmSwap VmReclaim VmAlloc VmTables VmFree VmDir VmCopy.
From Stdlib Require Import ZArith Lia.
From stdpp Require Import base list gmap numbers.
Local Open Scope Z_scope.

Module VmRange.
Import PageAlloc Vm VmBits VmInv VmCount VmSwap VmReclaim VmAlloc VmTables VmFree VmDir VmCopy.

(** ** Addresses *)

Lemma entry_index q : 0 <= q < 2 ^ 32 -> Z.land (Z.land q PTR_MASK) (Z.lnot PAGE_MASK) / 4 = (q / 4) mod 1024.
Proof.
  intros Hq. replace (Z.land (Z.land q PTR_MASK) (Z.lnot PAGE_MASK)) with ((q / 4) mod 1024 * 4); [by rewrite Z.div_mul by lia|].
  change 4 with (2 ^ 2). change 1024 with (2 ^ 10). rewrite <- Z.land_ones, <- Z.shiftr_div_pow2, <- Z.shiftl_mul_pow2 by lia.
  apply Z.bits_inj'. intros i Hi. rewrite !Z.land_spec, Z.lnot_spec by lia. unfold PTR_MASK, PAGE_MASK. rewrite !testbit_u32.
  change (PAGE_SIZE - 1) with (Z.ones 12). change 3 with (Z.ones 2). rewrite !Z.lnot_spec by lia. destruct (Z.ltb_spec i 2).
  - rewrite Z.shiftl_spec_low by lia. rewrite (Z.ones_spec_low 2) by lia. cbn. by rewrite !andb_false_r.
  - rewrite Z.shiftl_spec by lia. rewrite Z.land_spec, Z.shiftr_spec by lia. replace (i - 2 + 2) with i by lia. rewrite (Z.ones_spec_high 2) by lia.
    destruct (Z.ltb_spec i 12).
    + rewrite !Z.ones_spec_low by lia. destruct (Z.ltb_spec i 32); [|lia]. cbn. by rewrite !andb_true_r.
    + rewrite !Z.ones_spec_high by lia. destruct (Z.ltb_spec i 32); cbn; by rewrite ?andb_false_r.
Qed.

Lemma dir_index a : 0 <= a < 2 ^ 32 -> PAGE_DIR_OFFSET a = a / 4096 / 1024.
Proof.
  intros Ha. unfold PAGE_DIR_OFFSET. rewrite entry_index by (rewrite Z.shiftr_div_pow2 by lia; split; [apply Z.div_pos; lia|apply Z.div_lt_upper_bound; lia]).
  rewrite Z.shiftr_div_pow2, Z.div_div by lia. change (2 ^ 20 * 4) with (4096 * 1024). rewrite <- Z.div_div by lia. apply Z.mod_small.
  split; [apply Z.div_pos; [apply Z.div_pos; lia|lia]|]. apply Z.div_lt_upper_bound; [lia|]. apply Z.div_lt_upper_bound; lia.
Qed.

Lemma ptr_index a : 0 <= a < 2 ^ 32 -> PAGE_PTR a = (a / 4096) mod 1024.
Proof.
  intros Ha. unfold PAGE_PTR. rewrite entry_index by (rewrite Z.shiftr_div_pow2 by lia; split; [apply Z.div_pos; lia|apply Z.div_lt_upper_bound; lia]).
  by rewrite Z.shiftr_div_pow2, Z.div_div by lia.
Qed.

Lemma table_index a : table_offset a = (a / 4096) mod 1024.
Proof. unfold table_offset, PAGE_SHIFT. change (PTRS_PER_PAGE - 1) with (Z.ones 10). by rewrite Z.land_ones, Z.shiftr_div_pow2 by lia. Qed.

(** The pages of a range of bytes. *)
Definition pages_in (size : Z) : Z := (size + 4095) / 4096.

Lemma page_count_spec size : 0 <= size <= TASK_SIZE -> page_count size = pages_in size.
Proof.
  intros Hs. unfold page_count, pages_in, PAGE_SHIFT. rewrite Z.shiftr_div_pow2 by lia. rewrite u32_small; [done|].
  unfold TASK_SIZE in Hs. change PAGE_SIZE with 4096. lia.
Qed.

Lemma aligned_range from size : 0 <= from -> from mod 4096 = 0 -> 0 <= size -> from + size <= TASK_SIZE ->
  0 <= from / 4096 /\ from / 4096 + pages_in size <= 768 * 1024 /\ 0 <= pages_in size.
Proof.
  intros H0 Hm Hs Ht. unfold pages_in, TASK_SIZE in *. assert (D1 := Z.div_mod from 4096). assert (D2 := Z.div_mod (size + 4095) 4096).
  assert (B := Z.mod_pos_bound (size + 4095) 4096). assert (P1 := Z.div_pos from 4096). assert (P2 := Z.div_pos (size + 4095) 4096). lia.
Qed.

(** ** Ranges *)

(** [n] pages from page [p] on, in the directory [d]. *)
Definition within (d p n : Z) (x : Z * Z * Z) : Prop := x.1.1 = d /\ 0 <= x.2 < 1024 /\ p <= x.1.2 * 1024 + x.2 < p + n.

Lemma span_within d i j n p m x : span d i j (j + n) x -> 0 <= j -> j + n <= 1024 -> p <= i * 1024 + j -> i * 1024 + j + n <= p + m -> within d p m x.
Proof. intros (k & -> & Hk) H1 H2 H3 H4. unfold within. cbn. lia. Qed.

Lemma span_dec d i j j' x : {span d i j j' x} + {~ span d i j j' x}.
Proof.
  destruct x as [[d' i'] k]. destruct (decide (d' = d /\ i' = i /\ j <= k < j')) as [(-> & -> & ?)|N]; [left; by exists k|right].
  intros (k' & [= -> -> ->] & ?). by apply N.
Qed.

#[export] Instance within_dec d p n x : Decision (within d p n x).
Proof. unfold within. apply _. Defined.

(** The pages of a table in a range that begins in it. *)
Lemma within_first d i j n m x : 0 <= j -> j + n <= 1024 -> n = m \/ j + n = 1024 -> within d (i * 1024 + j) m x ->
  span d i j (j + n) x \/ within d ((i + 1) * 1024) (m - n) x.
Proof.
  intros H1 H2 H3 (E & Hx & Hp). destruct x as [[d' i'] j']. cbn in *. subst d'. destruct (decide (i' = i)) as [-> |N].
  - left. exists j'. split; [done|]. lia.
  - right. unfold within. cbn. split; [done|]. split; [done|]. nia.
Qed.

(** ** Clearing *)

(** An empty table goes. *)
Lemma unlink_ok ly s G d i t : inv ly s G -> light G -> unlinked G = ∅ -> tabs G !! (d, i) = Some t -> (forall j, ents G !! (d, i, j) = None) ->
  exists s', (s ← wr d i 0 s; free_page t s) = Some s' /\ inv ly s' (set_tabs (delete (d, i) (tabs G)) ∅ G)
    /\ keeps (fun _ => False) s G s' (set_tabs (delete (d, i) (tabs G)) ∅ G).
Proof.
  intros I Lt Hu Ht He. destruct (h_tabs _ _ _ (i_shape _ _ _ I) d i t Ht) as (Hd & Hi & _).
  rewrite (wr_dir ly s G I d i Hd) by lia. cbn [mbind option_bind]. set (s1 := upd d i 0 s).
  assert (I1 : inv ly s1 (set_tabs (tabs G) {[(d, i)]} G)).
  { apply (inv_dir ly s G I d i Hd ltac:(lia)); [|done|].
    - unfold dir_fits. destruct (Z.ltb_spec i 768); [|lia]. left. by rewrite decide_True by (by apply elem_of_singleton).
    - intros x Hx. rewrite Hu, elem_of_singleton. split; [done|]. intros X. by apply not_elem_of_empty in X. }
  destruct (free_table ly s1 _ d i t I1 Lt Ht) as (s2 & -> & [D1 D2 D3 D4 D5] & I2); [cbn [unlinked set_tabs]; by apply elem_of_singleton|done|].
  cbn [dirs tabs ents held swheld unlinked lost set_tabs] in I2. replace ({[(d, i)]} ∖ {[(d, i)]} : gset (Z * Z)) with (∅ : gset (Z * Z)) in I2 by (apply leibniz_equiv; intros x; rewrite elem_of_difference; set_solver).
  exists s2. split; [done|]. split; [exact I2|]. split; try done; [|by rewrite D3].
  intros x _. transitivity (seen s1 (set_tabs (tabs G) {[(d, i)]} G) x); [by apply seen_same|]. apply (seen_dir ly s G I d i Hd); [lia|done].
Qed.

Section Unmap.
Context (ly : layout) (k d : Z).

Definition unmapped (D : Z * Z * Z -> Prop) (s : vm) (G : ghost) (s' : vm) (G' : ghost) : Prop :=
  inv ly s' G' /\ calm G' /\ lost G' = lost G /\ keeps D s G s' G'
  /\ (forall x, D x -> ents G' !! x = None) /\ forall x, ents G !! x = None -> ents G' !! x = None.

Lemma unmap_table_ok s G i t poff pcnt : inv ly s G -> calm G -> is_Some (tasks s !! k) -> tabs G !! (d, i) = Some t ->
  0 <= poff -> 0 < pcnt -> poff + pcnt <= 1024 ->
  exists s' G', (s ← upto (Z.to_nat pcnt) poff (fun j s =>
                page ← rd t j s;
                if page =? 0 then Some s else s ← wr t j 0 s; zap_rss k page s) s;
           if pcnt =? PTRS_PER_PAGE then s ← wr d i 0 s; free_page t s else Some s) = Some s'
    /\ unmapped (span d i poff (poff + pcnt)) s G s' G'.
Proof.
  intros I C Hk Ht Hp Hc Hpc.
  destruct (puts_loop ly k None _ s G d i t poff (Z.to_nat pcnt) (zap_rss_clears ly k) I (calm_light G C) Hk Ht) as (s1 & es & -> & I1 & K1 & N1 & O1); [lia|lia|].
  rewrite Z2Nat.id in * by lia. cbn [mbind option_bind]. assert (C1 : calm (set_ents es G)) by (split; apply C).
  assert (Nn : forall x, ents G !! x = None -> es !! x = None).
  { intros x Hx. destruct (span_dec d i poff (poff + pcnt) x) as [Y|Y]; [by apply N1|by rewrite O1]. }
  destruct (Z.eqb_spec pcnt PTRS_PER_PAGE) as [E|_]; [|exists s1, (set_ents es G); split; [done|by split_and!]].
  change PTRS_PER_PAGE with 1024 in E. destruct (unlink_ok ly s1 (set_ents es G) d i t I1 (calm_light _ C1)) as (s2 & -> & I2 & K2); [apply C|done| |].
  - intros j. cbn. destruct (decide (0 <= j < 1024)) as [Hj|Hj]; [apply N1; exists j; split; [done|lia]|].
    rewrite O1 by (intros (j' & [= ->] & ?); lia). by apply (ents_out ly s G).
  - exists s2. eexists. split; [done|]. split; [exact I2|]. split; [split; cbn; [apply C|apply C|done]|]. split; [done|]. split; [|by split].
    eapply keeps_trans; [exact K1|]. eapply keeps_weaken; [exact K2|done].
Qed.

Lemma unmapped_none s G p size : inv ly s G -> calm G -> size <= 0 -> unmapped (within d p size) s G s G.
Proof. intros I C Hs. split_and!; try done. intros x (_ & _ & ?). lia. Qed.

(** One table, then the others. *)
Lemma unmapped_step s G s1 G1 s' G' i poff pcnt size : 0 <= poff -> 0 <= pcnt -> poff + pcnt <= 1024 -> pcnt = size \/ poff + pcnt = 1024 -> pcnt <= size ->
  unmapped (span d i poff (poff + pcnt)) s G s1 G1 -> unmapped (within d ((i + 1) * 1024 + 0) (size - pcnt)) s1 G1 s' G' ->
  unmapped (within d (i * 1024 + poff) size) s G s' G'.
Proof.
  intros H1 H0 H2 H3 H4 (I1 & C1 & El & K1 & N1 & M1) (I' & C' & El' & K' & N' & M'). split_and!; try done; [congruence| | |by auto].
  - eapply keeps_trans; [eapply keeps_weaken; [exact K1|]|eapply keeps_weaken; [exact K'|]].
    + intros x Hx. apply (span_within d i poff pcnt _ _ x Hx); lia.
    + intros x (X1 & X2 & X3). split; [done|]. split; [done|]. lia.
  - intros x Hx. rewrite Z.add_0_r in *. destruct (within_first d i poff pcnt size x) as [X|X]; [lia|lia|lia|done| |by apply N'].
    by apply M', N1.
Qed.

Lemma unmap_tables_ok : forall fuel i poff pcnt size s G, inv ly s G -> calm G -> is_Some (tasks s !! k) -> d ∈ dirs G -> d ∉ lost G ->
  0 <= i -> 0 <= poff < 1024 -> pcnt = Z.min size (1024 - poff) -> (size <= 0 \/ poff + size <= 1024 * Z.of_nat fuel) ->
  i * 1024 + poff + size <= 768 * 1024 ->
  exists s' G', unmap_tables fuel k d i poff pcnt size s = Some s' /\ unmapped (within d (i * 1024 + poff) size) s G s' G'.
Proof.
  induction fuel as [|fuel IH]; intros i poff pcnt size s G I C Hk Hd Hl Hi Hp Hc Hf Hr; cbn [unmap_tables].
  { destruct (Z.leb_spec size 0); [|lia]. exists s, G. split; [done|]. by apply unmapped_none. }
  destruct (Z.leb_spec size 0) as [Hs|Hs]; [exists s, G; split; [done|]; by apply unmapped_none|].
  assert (Next : forall s1 G1, unmapped (span d i poff (poff + pcnt)) s G s1 G1 ->
    exists s' G', unmap_tables fuel k d (i + 1) 0 (next_count (size - pcnt)) (size - pcnt) s1 = Some s' /\ unmapped (within d (i * 1024 + poff) size) s G s' G').
  { intros s1 G1 U1. assert (U1' := U1). destruct U1' as (I1 & C1 & El & K1 & _).
    destruct (IH (i + 1) 0 (next_count (size - pcnt)) (size - pcnt) s1 G1) as (s' & G' & E & U'); try done; try lia.
    - by apply (fmap_is_Some cr3 _ _ k (q_cr3 _ _ _ _ _ K1)).
    - by rewrite (q_dirs _ _ _ _ _ K1).
    - by rewrite El.
    - unfold next_count. change PTRS_PER_PAGE with 1024. destruct (Z.ltb_spec 1024 (size - pcnt)); lia.
    - exists s', G'. split; [done|]. apply (unmapped_step s G s1 G1 s' G' i poff pcnt size); try done; lia. }
  rewrite (rd_dir ly s G I d i Hd) by lia. cbn [mbind option_bind].
  assert (Uc : (d, i) ∉ unlinked G) by (rewrite (z_unlinked _ C); apply not_elem_of_empty).
  destruct (tabs G !! (d, i)) as [t|] eqn:Ht.
  - rewrite (tab_linked ly s G d i t I Ht Uc). destruct (table_word ly s G I d i t Ht) as (T1 & T2 & T3 & T4 & T5 & T6 & _).
    destruct (Z.eqb_spec (t + PAGE_TABLE) 0); [done|]. rewrite T3. cbn [negb]. rewrite T5.
    destruct (unmap_table_ok s G i t poff pcnt I C Hk Ht) as (s1 & G1 & E1 & U1); [lia|lia|lia|].
    destruct (upto _ _ _ s) as [s0|]; [|done]. cbn [mbind option_bind] in *. rewrite E1. cbn [mbind option_bind]. by apply (Next s1 G1).
  - assert (W0 : wd s d i = 0).
    { destruct (h_low _ _ _ (i_shape _ _ _ I) d i Hd ltac:(lia)) as [X|(X & _)]; [|done]. rewrite Ht in X. by destruct (decide _). }
    rewrite W0. cbn [Z.eqb]. apply (Next s G). split; [done|]. split; [done|]. split; [done|]. split; [apply keeps_same|]. split; [|done].
    intros x (j & -> & _). destruct (ents G !! (d, i, j)) eqn:X; [|done]. destruct (h_ents _ _ _ (i_shape _ _ _ I) _ _ _ _ X) as [[? Y] _]. congruence.
Qed.
End Unmap.

Lemma unmap_page_range_ok ly s G k t from size : inv ly s G -> calm G -> tasks s !! k = Some t -> cr3 t ∈ dirs G -> cr3 t ∉ lost G ->
  0 <= from -> from mod 4096 = 0 -> 0 <= size -> from + size <= TASK_SIZE ->
  exists s' G', unmap_page_range k from size s = Some (0, s') /\ unmapped ly (within (cr3 t) (from / 4096) (pages_in size)) s G s' G'.
Proof.
  intros I C Hk Hd Hl H0 Hm Hs Ht. unfold unmap_page_range. destruct (aligned_range from size H0 Hm Hs Ht) as (A1 & A2 & A3). unfold TASK_SIZE in Ht.
  assert (X := unmask_flags from 0 Hm ltac:(lia) ltac:(lia)). rewrite Z.add_0_r in X. rewrite X. cbn [Z.eqb negb].
  rewrite Hk. cbn [mbind option_bind]. rewrite page_count_spec, table_index, dir_index by (unfold TASK_SIZE; lia).
  set (p := from / 4096) in *. assert (Dm := Z.div_mod p 1024 ltac:(lia)). assert (Bm := Z.mod_pos_bound p 1024 ltac:(lia)).
  destruct (unmap_tables_ok ly k (cr3 t) (Z.to_nat (PTRS_PER_PAGE + 1)) (p / 1024) (p mod 1024) (first_count (p mod 1024) (pages_in size)) (pages_in size) s G I C)
    as (s' & G' & -> & U); [by rewrite Hk|done|done|apply Z.div_pos; lia|done| |change (Z.of_nat (Z.to_nat (PTRS_PER_PAGE + 1))) with 1025; lia|lia|].
  - unfold first_count. change PTRS_PER_PAGE with 1024. destruct (Z.ltb_spec (pages_in size) (1024 - p mod 1024)); lia.
  - exists s', G'. split; [done|]. by replace (p / 1024 * 1024 + p mod 1024) with p in U by lia.
Qed.

(** ** A new table *)

Lemma no_tab_word ly s G d i : inv ly s G -> d ∈ dirs G -> d ∉ lost G -> 0 <= i < 768 -> tabs G !! (d, i) = None -> wd s d i = 0.
Proof.
  intros I Hd Hl Hi Ht. destruct (h_low _ _ _ (i_shape _ _ _ I) d i Hd Hi) as [X|(X & _)]; [|done]. rewrite Ht in X. by destruct (decide _).
Qed.

(** The page that was just got becomes the table of an entry that has none. *)
Lemma link_ok ly s G s1 G1 d i a : inv ly s1 G1 -> calm G -> kept s G s1 G1 -> held G1 = a :: held G -> private s1 G1 a -> frames s1 !! a = Some zeros ->
  d ∈ dirs G -> d ∉ lost G -> 0 <= i < 768 -> tabs G !! (d, i) = None ->
  exists s2 G2, wr d i (Z.lor a PAGE_TABLE) s1 = Some s2 /\ inv ly s2 G2 /\ calm G2 /\ lost G2 = lost G /\ tabs G2 = <[(d, i) := a]> (tabs G)
    /\ ents G2 = ents G1 /\ tasks s2 = tasks s1 /\ keeps (fun _ => False) s G s2 G2.
Proof.
  intros I1 C K1 Hh P Hz Hd Hl Hi Ht. assert (Hd1 : d ∈ dirs G1) by (by rewrite (k_dirs _ _ _ _ K1)).
  assert (Ht1 : tabs G1 !! (d, i) = None) by (by rewrite (k_tabs _ _ _ _ K1)). assert (Hl1 : d ∉ lost G1) by (by rewrite (k_lost _ _ _ _ K1)).
  assert (I2 := inv_adopt ly s1 G1 I1 d i a (held G) Hd1 Hi Ht1 (no_tab_word ly s1 G1 d i I1 Hd1 Hl1 Hi Ht1) P Hz ltac:(by rewrite Hh)).
  destruct (publish_ok ly s1 _ d i a I2) as (s2 & E2 & I3 & K3).
  { cbn. apply lookup_insert_eq. }
  { cbn. rewrite (k_unlinked _ _ _ _ K1), (z_unlinked _ C). apply leibniz_equiv, (right_id _ _). }
  exists s2. eexists. split; [done|]. split; [exact I3|]. split; [split; cbn; [apply C|rewrite (k_swheld _ _ _ _ K1); apply C|done]|].
  split; [cbn; apply K1|]. split; [cbn; by rewrite (k_tabs _ _ _ _ K1)|]. split; [done|]. split.
  - rewrite (wr_dir ly s1 G1 I1 d i Hd1) in E2 by lia. injection E2 as <-. done.
  - apply (keeps_trans _ s G s1 G1); [by apply kept_keeps|]. eapply keeps_trans; [|exact K3]. by split.
Qed.

(** ** Zero pages *)

Definition blank (ly : layout) (o : option pte) : Prop :=
  o = None \/ exists f, o = Some (Pg (empty_zero_page ly) f) /\ 0 <= f < 4096 /\ has f PAGE_PRESENT = true /\ has f PAGE_RW = false /\ has f PAGE_DIRTY = false.

Lemma blank_seen ly s G x : inv ly s G -> blank ly (ents G !! x) -> seen s G x = zeros.
Proof. intros I [E|(f & E & _)]; unfold seen; rewrite E; [done|]. by rewrite (m_zeros _ _ (i_mem _ _ _ I)). Qed.

Lemma zero_puts ly k o : blank ly o ->
  puts ly k o (fun t j s => page ← rd t j s; s ← (if page =? 0 then Some s else s ← wr t j 0 s; zap_rss k page s); wr t j (word_of o) s).
Proof.
  intros Bl s G d i j t I Lt Hk Ht Hj. destruct (zap_rss_clears ly k s G d i j t I Lt Hk Ht Hj) as (s1 & E1 & I1 & K1).
  destruct (rd t j s) as [pg|]; [|done]. cbn [mbind option_bind] in *. rewrite E1. cbn [mbind option_bind].
  rewrite (wr_entry ly s1 _ I1 d i j t Ht Hj). eexists. split; [done|].
  assert (Eg : put_in o G d i j = set_ents (alter_ent (d, i, j) o (alter_ent (d, i, j) None (ents G))) G).
  { unfold put_in. f_equal. apply map_eq. intros x. destruct (decide ((d, i, j) = x)) as [<-|Nx]; [by rewrite !alter_eq|by rewrite !alter_ne]. }
  assert (Zp := m_zero _ _ (i_mem _ _ _ I1)). assert (Few := c_few _ _ (i_counted _ _ _ I)). rewrite Eg. split.
  - apply (entry_replaced ly s1 _ I1 d i j t Ht Hj None o (lost G) (held G) (swheld G)); try done; [cbn; apply alter_eq| | |].
    + destruct Bl as [-> |(f & -> & F1 & F2 & F3 & F4)]; [done|]. destruct Zp as [Zp Zr]. split; [|split].
      * split; try done; [|congruence..]. intros _. by right.
      * intros X. assert (D := m_distinct _ _ (i_mem _ _ _ I1)). rewrite X in D. inversion D as [|? ? _ D1]. inversion D1 as [|? ? _ D2]. inversion D2 as [|? ? D3 _].
        destruct D3. by left.
      * congruence.
    + destruct Bl as [-> |(f & -> & _)]; [done|]. unfold pages_of. by rewrite (proj2 Zp).
    + destruct Bl as [-> |(f & -> & _)]; done.
  - eapply keeps_trans; [exact K1|]. split; try done.
    + intros x Hx. apply (seen_upd ly s1 _ I1 d i j t Ht); congruence.
Qed.

Section Zeromap.
Context (ly : layout) (k d : Z) (o : option pte) (Bl : blank ly o).

Definition zeroed (D : Z * Z * Z -> Prop) (s : vm) (G : ghost) (r : Z) (s' : vm) (G' : ghost) : Prop :=
  inv ly s' G' /\ calm G' /\ lost G' = lost G /\ keeps D s G s' G' /\ (r = 0 /\ (forall x, D x -> seen s' G' x = zeros) \/ r = - ENOMEM).

Lemma fill_ok s G i t poff pcnt : inv ly s G -> calm G -> is_Some (tasks s !! k) -> tabs G !! (d, i) = Some t ->
  0 <= poff -> 0 < pcnt -> poff + pcnt <= 1024 ->
  exists s' G', upto (Z.to_nat pcnt) poff (fun j s =>
                page ← rd t j s;
                s ← (if page =? 0 then Some s else s ← wr t j 0 s; zap_rss k page s);
                wr t j (word_of o) s) s = Some s' /\ zeroed (span d i poff (poff + pcnt)) s G 0 s' G'.
Proof.
  intros I C Hk Ht Hp Hc Hpc.
  destruct (puts_loop ly k o _ s G d i t poff (Z.to_nat pcnt) (zero_puts ly k o Bl) I (calm_light G C) Hk Ht) as (s1 & es & -> & I1 & K1 & N1 & O1); [lia|lia|].
  rewrite Z2Nat.id in * by lia. exists s1, (set_ents es G). split; [done|]. split; [done|]. split; [split; apply C|]. split; [done|]. split; [done|].
  left. split; [done|]. intros x Hx. apply (blank_seen ly _ _ x I1). cbn. by rewrite N1.
Qed.

Lemma zeroed_none s G p size : inv ly s G -> calm G -> size <= 0 -> zeroed (within d p size) s G 0 s G.
Proof.
  intros I C Hs. split; [done|]. split; [done|]. split; [done|]. split; [apply keeps_same|]. left. split; [done|]. intros x (_ & _ & ?). lia.
Qed.

(** One table, then the others. *)
Lemma zeroed_step s G s1 G1 r s' G' i poff pcnt size : 0 <= poff -> 0 <= pcnt -> poff + pcnt <= 1024 -> pcnt = size \/ poff + pcnt = 1024 -> pcnt <= size ->
  zeroed (span d i poff (poff + pcnt)) s G 0 s1 G1 -> zeroed (within d ((i + 1) * 1024 + 0) (size - pcnt)) s1 G1 r s' G' ->
  zeroed (within d (i * 1024 + poff) size) s G r s' G'.
Proof.
  intros H1 H0 H2 H3 H4 (I1 & C1 & El & K1 & Z1) (I' & C' & El' & K' & Z'). destruct Z1 as [[_ Z1]|]; [|done].
  split; [done|]. split; [done|]. split; [congruence|]. split.
  - eapply keeps_trans; [eapply keeps_weaken; [exact K1|]|eapply keeps_weaken; [exact K'|]].
    + intros x Hx. apply (span_within d i poff pcnt _ _ x Hx); lia.
    + intros x (X1 & X2 & X3). split; [done|]. split; [done|]. lia.
  - destruct Z' as [[-> Z']| ->]; [left|by right]. split; [done|]. intros x Hx. rewrite Z.add_0_r in *.
    destruct (decide (within d ((i + 1) * 1024) (size - pcnt) x)) as [Y|Y]; [by apply Z'|]. rewrite (q_seen _ _ _ _ _ K') by done. apply Z1.
    destruct (within_first d i poff pcnt size x) as [X|X]; [lia|lia|lia|done|done|done].
Qed.

Lemma zeromap_tables_ok : forall fuel i poff pcnt size s G, inv ly s G -> calm G -> is_Some (tasks s !! k) -> d ∈ dirs G -> d ∉ lost G ->
  0 <= i -> 0 <= poff < 1024 -> pcnt = Z.min size (1024 - poff) -> (size <= 0 \/ poff + size <= 1024 * Z.of_nat fuel) ->
  i * 1024 + poff + size <= 768 * 1024 ->
  exists r s' G', zeromap_tables fuel k d i poff pcnt size (word_of o) s = Some (r, s') /\ zeroed (within d (i * 1024 + poff) size) s G r s' G'.
Proof.
  induction fuel as [|fuel IH]; intros i poff pcnt size s G I C Hk Hd Hl Hi Hp Hc Hf Hr; cbn [zeromap_tables].
  { destruct (Z.leb_spec size 0); [|lia]. exists 0, s, G. split; [done|]. by apply zeroed_none. }
  destruct (Z.leb_spec size 0) as [Hs|Hs]; [exists 0, s, G; split; [done|]; by apply zeroed_none|].
  assert (Fill : forall s1 G1 t, inv ly s1 G1 -> calm G1 -> lost G1 = lost G -> keeps (fun _ => False) s G s1 G1 -> tabs G1 !! (d, i) = Some t ->
    exists r s' G', (s ← upto (Z.to_nat pcnt) poff (fun j s =>
                page ← rd t j s;
                s ← (if page =? 0 then Some s else s ← wr t j 0 s; zap_rss k page s);
                wr t j (word_of o) s) s1;
          zeromap_tables fuel k d (i + 1) 0 (next_count (size - pcnt)) (size - pcnt) (word_of o) s) = Some (r, s')
      /\ zeroed (within d (i * 1024 + poff) size) s G r s' G').
  { intros s1 G1 t I1 C1 El1 K1 Ht1.
    assert (Hk1 : is_Some (tasks s1 !! k)) by (by apply (fmap_is_Some cr3 _ _ k (q_cr3 _ _ _ _ _ K1))).
    destruct (fill_ok s1 G1 i t poff pcnt I1 C1 Hk1 Ht1) as (s2 & G2 & -> & I2 & C2 & El2 & K2 & Z2); [lia|lia|lia|]. cbn [mbind option_bind].
    destruct (IH (i + 1) 0 (next_count (size - pcnt)) (size - pcnt) s2 G2) as (r & s' & G' & E & Zr); try done; try lia.
    - by apply (fmap_is_Some cr3 _ _ k (q_cr3 _ _ _ _ _ K2)).
    - by rewrite (q_dirs _ _ _ _ _ K2), (q_dirs _ _ _ _ _ K1).
    - by rewrite El2, El1.
    - unfold next_count. change PTRS_PER_PAGE with 1024. destruct (Z.ltb_spec 1024 (size - pcnt)); lia.
    - exists r, s', G'. split; [done|]. apply (zeroed_step s G s2 G2 r s' G' i poff pcnt size); try lia; [|exact Zr].
      split; [done|]. split; [done|]. split; [congruence|]. split; [|done]. eapply keeps_trans; [eapply keeps_weaken; [exact K1|done]|exact K2]. }
  rewrite (rd_dir ly s G I d i Hd) by lia. cbn [mbind option_bind].
  assert (Uc : (d, i) ∉ unlinked G) by (rewrite (z_unlinked _ C); apply not_elem_of_empty).
  destruct (tabs G !! (d, i)) as [t|] eqn:Ht.
  - rewrite (tab_linked ly s G d i t I Ht Uc). destruct (table_word ly s G I d i t Ht) as (T1 & T2 & T3 & T4 & T5 & _).
    rewrite T3. cbn [negb]. rewrite T5. by apply (Fill s G t).
  - rewrite (no_tab_word ly s G d i I Hd Hl ltac:(lia) Ht). change (has 0 PAGE_PRESENT) with false. cbn [negb].
    destruct (get_free_page_ok ly s G I (calm_light G C)) as (a & s1 & G1 & -> & I1 & K1 & Ha). cbn [mbind option_bind]. destruct Ha as [[-> Hh]|(Na & Hh & P & Hz)].
    + rewrite Z.eqb_refl. exists (- ENOMEM), s1, G1. split; [done|]. split; [done|].
      split; [split; [rewrite Hh|rewrite (k_swheld _ _ _ _ K1)|rewrite (k_unlinked _ _ _ _ K1)]; apply C|]. split; [apply K1|]. split; [by apply kept_keeps|by right].
    + destruct (Z.eqb_spec a 0); [done|]. assert (Hd1 : d ∈ dirs G1) by (by rewrite (k_dirs _ _ _ _ K1)).
      rewrite (rd_dir ly s1 G1 I1 d i Hd1) by lia. cbn [mbind option_bind].
      rewrite (no_tab_word ly s1 G1 d i I1 Hd1); [|by rewrite (k_lost _ _ _ _ K1)|lia|by rewrite (k_tabs _ _ _ _ K1)].
      change (has 0 PAGE_PRESENT) with false. cbn [negb].
      destruct (link_ok ly s G s1 G1 d i a I1 C K1 Hh P Hz Hd Hl ltac:(lia) Ht) as (s2 & G2 & -> & I2 & C2 & El2 & Et2 & _ & _ & K2). cbn [mbind option_bind].
      apply (Fill s2 G2 a); try done. rewrite Et2. apply lookup_insert_eq.
Qed.
End Zeromap.

Lemma mask_split mask zp : 0 <= mask < 2 ^ 32 -> zp mod 4096 = 0 -> Z.land mask (Z.lor PAGE_MASK PAGE_PRESENT) = PAGE_PRESENT ->
  0 <= mask < 4096 /\ has mask PAGE_PRESENT = true /\ Z.lor mask zp = zp + mask.
Proof.
  intros Hm Hz E. rewrite Z.land_lor_distr_r in E.
  assert (B : forall i, 0 <= i -> Z.testbit (Z.lor (Z.land mask PAGE_MASK) (Z.land mask PAGE_PRESENT)) i = Z.testbit PAGE_PRESENT i) by (intros i _; by rewrite E).
  assert (F : 0 <= mask < 4096).
  { apply low_range; [lia|]. intros i Hi. destruct (Z.lt_ge_cases i 32) as [L|L]; [|by apply bits_above_u32]. specialize (B i ltac:(lia)).
    rewrite (low_above PAGE_PRESENT) in B by (unfold PAGE_PRESENT; lia). rewrite Z.lor_spec in B. apply orb_false_iff in B as [B _].
    rewrite Z.land_spec in B. unfold PAGE_MASK in B. rewrite testbit_u32 in B. change (PAGE_SIZE - 1) with (Z.ones 12) in B.
    rewrite Z.lnot_spec, Z.ones_spec_high in B by lia. destruct (Z.ltb_spec i 32); [|lia]. cbn in B. by rewrite andb_true_r in B. }
  split; [done|]. split; [|rewrite Z.lor_comm; by apply lor_add].
  specialize (B 0 ltac:(lia)). rewrite Z.lor_spec, !Z.land_spec in B. change (Z.testbit PAGE_MASK 0) with false in B. change (Z.testbit PAGE_PRESENT 0) with true in B.
  rewrite andb_false_r, andb_true_r, orb_false_l in B. unfold has. change PAGE_PRESENT with (2 ^ 0). rewrite land_pow2 by lia. by rewrite B.
Qed.

(** Writing would need a copy: the mask does not let write the zero page. *)
Lemma zeromap_page_range_ok ly s G k t from size mask : inv ly s G -> calm G -> tasks s !! k = Some t -> cr3 t ∈ dirs G -> cr3 t ∉ lost G ->
  0 <= from -> from mod 4096 = 0 -> 0 <= size -> from + size <= TASK_SIZE ->
  mask = 0 \/ 0 <= mask < 2 ^ 32 /\ Z.land mask (Z.lor PAGE_MASK PAGE_PRESENT) = PAGE_PRESENT /\ has mask PAGE_RW = false /\ has mask PAGE_DIRTY = false ->
  exists r s' G', zeromap_page_range ly k from size mask s = Some (r, s') /\ zeroed ly (within (cr3 t) (from / 4096) (pages_in size)) s G r s' G'.
Proof.
  intros I C Hk Hd Hl H0 Hm Hs Ht Hmask. unfold zeromap_page_range. destruct (aligned_range from size H0 Hm Hs Ht) as (A1 & A2 & A3). unfold TASK_SIZE in Ht.
  assert (X := unmask_flags from 0 Hm ltac:(lia) ltac:(lia)). rewrite Z.add_0_r in X. rewrite X. cbn [Z.eqb negb].
  assert (O : exists o, blank ly o /\ (if negb (mask =? 0) then Z.lor mask (empty_zero_page ly) else mask) = word_of o
    /\ negb (mask =? 0) && negb (Z.land mask (Z.lor PAGE_MASK PAGE_PRESENT) =? PAGE_PRESENT) = false).
  { destruct Hmask as [-> |(M1 & M2 & M3 & M4)]; [exists None; by split; [left|]|].
    destruct (mask_split mask (empty_zero_page ly) M1 (page_align s _ (proj1 (m_zero _ _ (i_mem _ _ _ I)))) M2) as (F1 & F2 & F3).
    exists (Some (Pg (empty_zero_page ly) mask)). split; [right; by exists mask|]. rewrite M2, Z.eqb_refl, andb_false_r. split; [|done].
    destruct (Z.eqb_spec mask 0) as [-> |]; [by cbn in F2|exact F3]. }
  destruct O as (o & Bl & Eo & ->). rewrite Eo.
  assert (Es : (if negb (mask =? 0) then clear_reserved (empty_zero_page ly) s else s) = s).
  { destruct (negb _); [|done]. unfold clear_reserved. rewrite insert_id by apply I. by destruct s. }
  rewrite Es, Hk. cbn [mbind option_bind]. rewrite page_count_spec, table_index, dir_index by (unfold TASK_SIZE; lia).
  set (p := from / 4096) in *. assert (Dm := Z.div_mod p 1024 ltac:(lia)). assert (Bm := Z.mod_pos_bound p 1024 ltac:(lia)).
  destruct (zeromap_tables_ok ly k (cr3 t) o Bl (Z.to_nat (PTRS_PER_PAGE + 1)) (p / 1024) (p mod 1024) (first_count (p mod 1024) (pages_in size)) (pages_in size) s G I C)
    as (r & s' & G' & -> & U); [by rewrite Hk|done|done|apply Z.div_pos; lia|done| |change (Z.of_nat (Z.to_nat (PTRS_PER_PAGE + 1))) with 1025; lia|lia|].
  - unfold first_count. change PTRS_PER_PAGE with 1024. destruct (Z.ltb_spec (pages_in size) (1024 - p mod 1024)); lia.
  - exists r, s', G'. split; [done|]. by replace (p / 1024 * 1024 + p mod 1024) with p in U by lia.
Qed.
End VmRange.
