(* ===== verification/VmFault.v ===== *)
(** * Page faults: [do_wp_page], [do_no_page]

    A fault changes nothing that anybody sees, unless memory runs out: then the process
    is killed, and its directory is lost. *)

From S2P Require Import Prelude PageAlloc Vm VmBits VmInv VmCount VmSwap VmReclaim VmAlloc VmTables VmFree VmDir VmCopy VmRange.
From Stdlib Require Import ZArith Lia.
From stdpp Require Import base list gmap numbers.
Local Open Scope Z_scope.

Module VmFault.
Import PageAlloc Vm VmBits VmInv VmCount VmSwap VmReclaim VmAlloc VmTables VmFree VmDir VmCopy VmRange.

Definition nothing (x : Z * Z * Z) : Prop := False.

(** ** Steps of the handlers *)

Lemma task_keeps ly s G k f t : inv ly s G -> tasks s !! k = Some t -> cr3 (f t) = cr3 t -> swp (f t) = swp t ->
  exists s', on_task k f s = Some s' /\ s' = set_tasks (<[k := f t]> (tasks s)) s /\ inv ly s' G /\ keeps nothing s G s' G /\ tasks s' !! k = Some (f t).
Proof.
  intros I Hk Ec Es. unfold on_task. rewrite Hk. cbn [mbind option_bind]. eexists. split; [done|]. split; [done|].
  destruct (h_place _ _ _ (i_shape _ _ _ I) k t Hk). split; [apply (inv_task ly s G k t); try done; by rewrite Es|]. split; [|apply lookup_insert_eq].
  split; try done. cbn. rewrite fmap_insert, Ec. apply insert_id. by rewrite lookup_fmap, Hk.
Qed.

(** The page got for the fault is not needed. *)
Lemma end_wp_page_ok ly s G a K : inv ly s G -> a = 0 /\ held G = K \/ a <> 0 /\ held G = a :: K /\ a ∉ dirs G ->
  exists s', end_wp_page a s = Some s' /\ inv ly s' (set_held K G) /\ keeps nothing s G s' (set_held K G) /\ tasks s' = tasks s.
Proof.
  intros I [[-> Hh]|(N & Hh & Hd)]; unfold end_wp_page.
  - cbn. exists s. split; [done|]. replace (set_held K G) with G by (rewrite <- Hh; by destruct G). by split_and!.
  - destruct (Z.eqb_spec a 0); [done|]. cbn [negb]. destruct (inv_free ly s G I a K Hh) as (m' & -> & I' & _ & _ & Hr & Hm); [by intros d Hd' ->|].
    eexists. split; [done|]. split; [exact I'|]. split; [by split|done].
Qed.

Section Entry.
Context (ly : layout) (s : vm) (G : ghost) (I : inv ly s G) (d i j t : Z) (Ht : tabs G !! (d, i) = Some t) (Hj : 0 <= j < 1024).
Context (a f : Z) (Hx : ents G !! (d, i, j) = Some (Pg a f)).

Let E : page_ent ly s (dirs G) (tabs G) a f := n_page _ _ _ (i_entries _ _ _ I) _ _ _ Hx.

(** A page with one user may be written. *)
Lemma grant_ok m : is_res s a = false -> cnt s a = 1 -> 0 <= m < 4096 ->
  wr t j (Z.lor (a + f) m) s = Some (upd t j (a + Z.lor f m) s) /\ inv ly (upd t j (a + Z.lor f m) s) (put_in (Some (Pg a (Z.lor f m))) G d i j)
  /\ keeps nothing s G (upd t j (a + Z.lor f m) s) (put_in (Some (Pg a (Z.lor f m))) G d i j).
Proof.
  intros R C1 Hm. destruct E as [E1 E2 E3 E4 E5 E6 E7]. rewrite (lor_flags a f (page_align s a E1) E2 m Hm).
  split; [by apply (wr_entry ly s G I d i j t)|]. split.
  - apply (inv_flags ly s G I d i j t Ht Hj a f Hx). destruct (E6 R) as [Co Rw]. split; try done.
    + by apply lor_low.
    + by rewrite has_lor, E3.
    + congruence.
    + intros _. by rewrite has_lor, Co.
    + rewrite has_lor. intros _ D. apply orb_false_iff in D as [D _]. by apply E7.
  - split; try done.
    + intros x _. by apply (seen_flags ly s G I d i j t Ht a f Hx).
Qed.
End Entry.

(** ** A copy of a page that is shared *)

Section Copy.
Context (ly : layout) (s : vm) (G : ghost) (I : inv ly s G) (d i j t : Z) (Ht : tabs G !! (d, i) = Some t) (Hj : 0 <= j < 1024).
Context (a f : Z) (Hx : ents G !! (d, i, j) = Some (Pg a f)) (Hl : d ∉ lost G) (Co : has f PAGE_COW = true).
Context (b : Z) (Hh : held G = [b]) (P : private s G b).

Let E : page_ent ly s (dirs G) (tabs G) a f := n_page _ _ _ (i_entries _ _ _ I) _ _ _ Hx.
Let f' := Z.lor f PAGE_RW.

Lemma wp_copy_page : exists g s', page a s = Some g /\ (exists h, page b s = Some h) /\
  (s ← wr t j (b + f') (set_frames (<[b := g]> (frames s)) s); free_page a s) = Some s'
  /\ inv ly s' (set_held [] (put_in (Some (Pg b f')) G d i j)) /\ keeps nothing s G s' (set_held [] (put_in (Some (Pg b f')) G d i j)) /\ tasks s' = tasks s.
Proof.
  destruct E as [E1 E2 E3 E4 E5 E6 E7]. destruct P as [(P1 & P2 & P3) P4 P5 P6 P7] eqn:EP. assert (M := m_ok _ _ (i_mem _ _ _ I)).
  assert (Nb : a <> empty_bad_page ly) by (intros ->; apply Hl; by apply (n_lost _ _ _ (i_entries _ _ _ I) d i j f)).
  assert (Ca : cnt s a <> 0).
  { destruct (is_res s a) eqn:R; [unfold is_res in R; intros X; by rewrite X in R|]. rewrite (c_refs _ _ (i_counted _ _ _ I) a E1 R). unfold refs.
    assert (T := tally_pos (at_page a) _ _ _ Hx (Z.eqb_refl a)). assert (T2 := tally_nonneg (fun t => t =? a) (tabs G)).
    assert (T3 := tally_nonneg (fun t => cr3 t =? a) (tasks s)). assert (O := refs_nonneg a (held G)). lia. }
  destruct (m_frames _ _ (i_mem _ _ _ I) a E1) as (g & Hg & Lg). destruct (m_frames _ _ (i_mem _ _ _ I) b P1) as (h & Hb & _).
  exists g. destruct (private_frame ly s G b g I P Lg) as (I1 & P' & S1). set (s1 := set_frames (<[b := g]> (frames s)) s) in *.
  rewrite (wr_entry ly s1 G I1 d i j t Ht Hj). cbn [mbind option_bind].
  assert (Nab : a <> b) by (intros ->; by apply (P6 (d, i, j) f)).
  assert (Cl : has f' PAGE_DIRTY = false -> g = zeros).
  { unfold f'. rewrite has_lor. intros D. apply orb_false_iff in D as [D _]. destruct (is_res s a) eqn:R.
    - destruct (E4 eq_refl) as [?|(-> & _)]; [done|]. assert (Z0 := m_zeros _ _ (i_mem _ _ _ I)). congruence.
    - assert (Z0 := E7 eq_refl D). congruence. }
  assert (I2 : inv ly (upd t j (b + f') s1) (Ghost (dirs G) (tabs G) (alter_ent (d, i, j) (Some (Pg b f')) (ents G)) (pages_of s (Some (Pg a f))) (swheld G) (unlinked G) (lost G))).
  { apply (entry_replaced ly s1 G I1 d i j t Ht Hj (Some (Pg a f)) (Some (Pg b f')) (lost G) (pages_of s (Some (Pg a f))) (swheld G)); try done.
    - split; [|split].
      + split; try done; [by apply lor_low; [|unfold PAGE_RW; lia]|unfold f'; by rewrite has_lor, E3|change (is_res s b = true -> b = empty_bad_page ly \/ b = empty_zero_page ly /\ has f' PAGE_RW = false /\ has f' PAGE_DIRTY = false); congruence| |].
        * intros _. split; [unfold f'; by rewrite has_lor, Co|done].
        * intros _ D. cbn. rewrite lookup_insert_eq. by rewrite (Cl D).
      + intros ->. destruct (m_bad _ _ (i_mem _ _ _ I)). congruence.
      + intros _ d' i' j' g' Hg'. by destruct (P6 _ _ Hg').
    - rewrite Hh. unfold pages_of at 2. change (is_res s1 b) with (is_res s b). rewrite P3. change (pages_of s1 (Some (Pg a f))) with (pages_of s (Some (Pg a f))).
      by rewrite (Permutation_app_comm (pages_of s (Some (Pg a f)))).
    - assert (F := c_few _ _ (i_counted _ _ _ I)). split; [|lia]. cbn. destruct (is_res s a); cbn; lia. }
  edestruct (give_back ly _ _ (Some (Pg a f)) [] (swheld G) I2) as (s2 & Hz & I3 & [D1 D2 D3 D4 D5]).
  { split; [done|]. split; [done|]. split; [done|]. intros R. by destruct (E5 R). }
  { cbn [held]. rewrite app_nil_r. done. }
  { done. }
  assert (Ez : zap (word_of (Some (Pg a f))) (upd t j (b + f') s1) = free_page a (upd t j (b + f') s1)).
  { unfold zap. cbn [word_of]. rewrite (has_flags a f (page_align s a E1) E2) by (unfold PAGE_PRESENT; lia). rewrite E3.
    destruct (mask_flags a f (page_align s a E1) E2) as [_ X]; [assert (Y := page_range s a M E1); lia|]. by rewrite X. }
  rewrite Ez in Hz. exists s2. split; [by apply page_read|]. split; [exists h; by apply page_read|]. split; [done|]. split; [exact I3|]. split; [|by rewrite D3].
  assert (Tf : forall x c g', ents G !! x = Some (Pg c g') -> c <> t /\ c <> b).
  { intros x c g' Hc. split; [|intros ->; by apply (P6 x g')]. intros ->. destruct (n_page _ _ _ (i_entries _ _ _ I) x t g' Hc) as [_ _ _ _ F5 _ _].
    destruct (table_use ly s G I d i t Ht) as (_ & _ & R). destruct (F5 R) as [_ F]. by apply (F (d, i)). }
  split; try done; [|by rewrite D3].
  - intros x _. unfold seen. rewrite D1, D2. cbn [ents set_held put_in set_ents]. destruct (decide (x = (d, i, j))) as [-> |N].
    + rewrite alter_eq, Hx, Hg. assert (Nt : b <> t) by (intros ->; by apply (P5 (d, i))). unfold upd. cbn. rewrite lookup_insert_ne by congruence. by rewrite lookup_insert_eq.
    + rewrite alter_ne by congruence. destruct (ents G !! x) as [[c g'|e]|] eqn:Hc; [|done|done]. destruct (Tf _ _ _ Hc). unfold upd. cbn.
      by rewrite !lookup_insert_ne by congruence.
Qed.
End Copy.

(** ** Out of memory *)

Section Bad.
Context (ly : layout) (s : vm) (G : ghost) (I : inv ly s G).

Lemma bad_distinct : empty_bad_page ly <> swapper_pg_dir ly /\ empty_bad_page ly <> empty_zero_page ly /\ empty_bad_page_table ly <> swapper_pg_dir ly
  /\ empty_bad_page_table ly <> empty_zero_page ly /\ empty_bad_page_table ly <> empty_bad_page ly.
Proof.
  assert (D := m_distinct _ _ (i_mem _ _ _ I)). inversion D as [|? ? D1 D2]. inversion D2 as [|? ? D3 D4]. inversion D4 as [|? ? D5 _]. subst.
  rewrite !elem_of_cons in *. split_and!; intros E; rewrite E in *; tauto.
Qed.

Lemma kernel_frame a g : kernel_page s a -> a <> swapper_pg_dir ly -> a <> empty_zero_page ly -> length g = 1024%nat ->
  inv ly (set_frames (<[a := g]> (frames s)) s) G.
Proof.
  intros [Hp R] N1 N2 Hg. apply inv_frame; try done.
  - intros X. destruct (h_dirs _ _ _ (i_shape _ _ _ I) _ X) as (_ & _ & ?). congruence.
  - intros [d i] X. destruct (h_tabs _ _ _ (i_shape _ _ _ I) _ _ _ X) as (_ & _ & (_ & _ & ?) & _). congruence.
  - intros x fl _. by left.
Qed.

(** The page for such a case is cleared, which only those see that have it already. *)
Lemma bad_page_ok : inv ly (clear_reserved (empty_bad_page ly) s) G
  /\ keeps (fun x => x.1.1 ∈ lost G) s G (clear_reserved (empty_bad_page ly) s) G.
Proof.
  destruct bad_distinct as (B1 & B2 & _). split; [by apply kernel_frame; [apply I|..]|]. split; try done.
  intros x Hx. unfold seen. destruct (ents G !! x) as [[a f|e]|] eqn:E; try done. cbn. rewrite lookup_insert_ne; [done|].
  intros <-. apply Hx. destruct x as [[d i] j]. by apply (n_lost _ _ _ (i_entries _ _ _ I) d i j f).
Qed.

Context (d i j t : Z) (Ht : tabs G !! (d, i) = Some t) (Hj : 0 <= j < 1024) (f : Z) (Hf : 0 <= f < 4096) (Pr : has f PAGE_PRESENT = true).
Context (Few : (length (held G) < 12 /\ length (swheld G) < 12)%nat).

Definition spoilt : ghost :=
  Ghost (dirs G) (tabs G) (alter_ent (d, i, j) (Some (Pg (empty_bad_page ly) f)) (ents G)) (pages_of s (ents G !! (d, i, j)) ++ held G)
    (slots_of (ents G !! (d, i, j)) ++ swheld G) (unlinked G) ({[d]} ∪ lost G).

Definition lost_or (x : Z * Z * Z) : Prop := x.1.1 ∈ ({[d]} ∪ lost G : gset Z).

(** The entry gets it. *)
Lemma bad_entry_ok : let s1 := upd t j (empty_bad_page ly + f) (clear_reserved (empty_bad_page ly) s) in
  inv ly s1 spoilt /\ keeps lost_or s G s1 spoilt.
Proof.
  destruct bad_page_ok as [I1 K1]. set (s0 := clear_reserved (empty_bad_page ly) s) in *. cbn zeta.
  destruct (m_bad _ _ (i_mem _ _ _ I1)) as [Bp Br]. destruct bad_distinct as (B1 & B2 & _). split.
  - apply (entry_replaced ly s0 G I1 d i j t Ht Hj (ents G !! (d, i, j)) (Some (Pg (empty_bad_page ly) f)) ({[d]} ∪ lost G)); try done.
    + intros x Hx. apply elem_of_union. by right.
    + split; [|split].
      * split; try done; [by intros _; left|congruence..].
      * intros _. apply elem_of_union. left. by apply elem_of_singleton.
      * congruence.
    + unfold pages_of at 2. by rewrite Br.
    + rewrite !length_app. destruct (ents G !! (d, i, j)) as [[b g|e]|]; cbn; [destruct (is_res s b); cbn|..]; lia.
  - eapply keeps_trans; [eapply keeps_weaken; [exact K1|]|].
    + intros x Hx. apply elem_of_union. by right.
    + split; try done.
      * intros x Hx. apply (seen_upd ly s0 G I1 d i j t Ht). intros ->. apply Hx. apply elem_of_union. left. by apply elem_of_singleton.
Qed.
End Bad.

(** A write protected page that cannot be copied. *)
Lemma wp_bad_ok ly s G d i j t k v a f0 f : inv ly s G -> light G -> tabs G !! (d, i) = Some t -> 0 <= j < 1024 -> tasks s !! k = Some v ->
  ents G !! (d, i, j) = Some (Pg a f0) -> 0 <= f < 4096 -> has f PAGE_PRESENT = true ->
  let G' := Ghost (dirs G) (tabs G) (alter_ent (d, i, j) (Some (Pg (empty_bad_page ly) f)) (ents G)) (held G) (swheld G) (unlinked G) ({[d]} ∪ lost G) in
  exists s', (s ← free_page a s; s ← oom k s; let '(b, s) := bad_page ly s in wr t j (Z.lor b f) s) = Some s'
    /\ inv ly s' G' /\ keeps (lost_or G d) s G s' G' /\ tasks s' !! k = Some (send_sig SIGKILL v).
Proof.
  intros I Lt Ht Hj Hk Hx Hf Pr G'. destruct (task_keeps ly s G k (send_sig SIGKILL) v I Hk eq_refl eq_refl) as (sT & _ & ET & IT & KT & HkT). subst sT.
  set (sT := set_tasks (<[k := send_sig SIGKILL v]> (tasks s)) s) in *.
  destruct (bad_entry_ok ly sT G IT d i j t Ht Hj f Hf Pr Lt) as [I2 K2]. set (s2 := upd t j _ (clear_reserved _ sT)) in *.
  destruct (n_page _ _ _ (i_entries _ _ _ I) _ _ _ Hx) as [E1 E2 E3 E4 E5 E6 E7].
  edestruct (give_back ly s2 (spoilt ly sT G d i j f) (Some (Pg a f0)) (held G) (swheld G) I2) as (s3 & Hz & I3 & [D1 D2 D3 D4 D5]).
  { split; [done|]. split; [done|]. split; [done|]. intros R. by destruct (E5 R). }
  { unfold spoilt. cbn [held]. by rewrite Hx. }
  { unfold spoilt. cbn [swheld]. by rewrite Hx. }
  assert (Ez : zap (word_of (Some (Pg a f0))) s2 = free_page a s2).
  { unfold zap. cbn [word_of]. rewrite (has_flags a f0 (page_align s a E1) E2) by (unfold PAGE_PRESENT; lia). rewrite E3.
    destruct (mask_flags a f0 (page_align s a E1) E2) as [_ X]; [assert (Y := page_range s a (m_ok _ _ (i_mem _ _ _ I)) E1); lia|]. by rewrite X. }
  rewrite Ez in Hz. unfold Vm.free_page in *. change (pages s2) with (pages s) in Hz. destruct (PageAlloc.free_page a (pages s)) as [m|]; [|done].
  cbn [mbind option_bind] in *. injection Hz as <-. unfold oom, on_task. cbn [tasks set_pages]. rewrite Hk. cbn [mbind option_bind bad_page].
  assert (Bal := page_align s _ (proj1 (m_bad _ _ (i_mem _ _ _ I)))). rewrite lor_add by done.
  set (Y := clear_reserved (empty_bad_page ly) _). exists (set_pages m s2). split; [|split; [exact I3|split]].
  - destruct (table_use ly _ _ I3 d i t Ht) as (T1 & T2 & T3). destruct (m_frames _ _ (i_mem _ _ _ I) t) as (g & Hg & Lg).
    { unfold is_page in *. cbn in T1, D4. rewrite D4 in T1. exact T1. }
    assert (Fy : frames Y !! t = Some g).
    { unfold Y. cbn. rewrite lookup_insert_ne; [done|]. apply not_eq_sym, (table_not_kernel ly s G I d i t Ht), I. }
    unfold wr. rewrite (page_read Y t g); [|apply (m_ok _ _ (i_mem _ _ _ I3))|exact T1|exact T2|done]. cbn [mbind option_bind].
    rewrite put_in_range by lia. cbn [mbind option_bind]. unfold s2, upd. unfold Y in *. cbn in *. by rewrite Fy.
  - apply (keeps_trans _ s G sT G); [eapply keeps_weaken; [exact KT|done]|]. apply (keeps_trans _ sT G s2 (spoilt ly sT G d i j f)); [exact K2|].
    split; try done.
  - cbn. apply lookup_insert_eq.
Qed.

Lemma private_pages s s' G a : pages s' = pages s -> private s G a -> private s' G a.
Proof. intros E [(P1 & P2 & P3) P4 P5 P6 P7]. unfold cnt, is_res, in_use in *. split; unfold in_use, is_res, cnt; rewrite ?E; done. Qed.

(** ** What a fault of task [k] promises *)

Definition faulted (ly : layout) (d : Z) (s : vm) (G : ghost) (s' : vm) (G' : ghost) : Prop :=
  inv ly s' G' /\ calm G' /\
  (lost G' = lost G /\ keeps nothing s G s' G' \/ lost G' = {[d]} ∪ lost G /\ keeps (lost_or G d) s G s' G').

(** The task was sent a signal, or it can go on with the entry. *)
Definition outcome (k : Z) (v : vtask) (s' : vm) (ok : Prop) : Prop :=
  exists v', tasks s' !! k = Some v' /\ cr3 v' = cr3 v /\ ((length (sent v) < length (sent v'))%nat \/ sent v' = sent v /\ ok).
Definition wp_outcome (k : Z) (v : vtask) (s' : vm) (ok : Prop) : Prop :=
  exists v', tasks s' !! k = Some v' /\ cr3 v' = cr3 v /\ ((length (sent v) < length (sent v'))%nat \/ sent v' = sent v /\ bnd v' = bnd v /\ ok).

Lemma faulted_pre ly d s G s1 G1 s' G' : keeps nothing s G s1 G1 -> lost G1 = lost G -> faulted ly d s1 G1 s' G' -> faulted ly d s G s' G'.
Proof.
  intros K El (I & C & [[E1 K1]|[E1 K1]]); (split; [done|]; split; [done|]); [left|right]; (split; [congruence|]).
  - by eapply keeps_trans.
  - unfold lost_or in *. rewrite El in K1. eapply keeps_trans; [eapply keeps_weaken; [exact K|done]|exact K1].
Qed.

Lemma cnt_pos ly s G x a f : inv ly s G -> ents G !! x = Some (Pg a f) -> cnt s a <> 0.
Proof.
  intros I Hx. assert (E1 := e_page _ _ _ _ _ _ (n_page _ _ _ (i_entries _ _ _ I) _ _ _ Hx)).
  destruct (is_res s a) eqn:R; [unfold is_res in R; intros X; by rewrite X in R|]. rewrite (c_refs _ _ (i_counted _ _ _ I) a E1 R). unfold refs.
  assert (T := tally_pos (at_page a) _ _ _ Hx (Z.eqb_refl a)). assert (T2 := tally_nonneg (fun t => t =? a) (tabs G)).
  assert (T3 := tally_nonneg (fun t => cr3 t =? a) (tasks s)). assert (O := refs_nonneg a (held G)). lia.
Qed.

(** ** Write protection *)

(** The entry can be written, or is not for a page any more. *)
Definition writable (G : ghost) (x : Z * Z * Z) : Prop :=
  match ents G !! x with Some (Pg _ f) => has f PAGE_RW = true | _ => True end.

Section Wp.
Context (ly : layout) (k d i j t : Z) (Hj : 0 <= j < 1024).

(** The page that [__do_wp_page] got; with nothing else held. *)
Definition spare (s : vm) (G : ghost) (b : Z) : Prop := b = 0 /\ held G = [] \/ b <> 0 /\ held G = [b] /\ private s G b.

Lemma spare_end s G b : inv ly s G -> spare s G b -> swheld G = [] -> unlinked G = ∅ ->
  exists s', end_wp_page b s = Some s' /\ faulted ly d s G s' (set_held [] G) /\ tasks s' = tasks s.
Proof.
  intros I Sp Hs Hu. destruct (end_wp_page_ok ly s G b [] I) as (s' & E & I' & K & T).
  { destruct Sp as [[? ?]|(? & ? & [_ P _ _ _])]; [left|right]; done. }
  exists s'. split; [done|]. split; [|done]. split; [done|]. split; [by split|]. by left.
Qed.

Lemma wp_copy_ok s G v a f b : inv ly s G -> swheld G = [] -> unlinked G = ∅ -> tasks s !! k = Some v -> tabs G !! (d, i) = Some t -> d ∉ lost G ->
  ents G !! (d, i, j) = Some (Pg a f) -> has f PAGE_COW = true -> spare s G b ->
  exists s' G', wp_copy ly k b t j (a + f) s = Some s' /\ faulted ly d s G s' G' /\ wp_outcome k v s' (lost G' = lost G /\ writable G' (d, i, j)).
Proof.
  intros I Hs Hu Hk Ht Hl Hx Co Sp. unfold wp_copy.
  destruct (task_keeps ly s G k (add_flt 1 0) v I Hk eq_refl eq_refl) as (s1 & -> & E1 & I1 & K1 & Hk1). cbn [mbind option_bind].
  destruct (n_page _ _ _ (i_entries _ _ _ I1) _ _ _ Hx) as [N1 N2 N3 N4 N5 N6 N7]. assert (M := m_ok _ _ (i_mem _ _ _ I1)).
  assert (Al := page_align s1 a N1). assert (Rg := page_range s1 a M N1). destruct (mask_flags a f Al N2 ltac:(lia)) as [Mk _]. rewrite Mk.
  rewrite (unmask_flags a f Al N2 ltac:(lia)). rewrite (users_page0 s1 a M N1). cbn [mbind option_bind].
  assert (Sp1 : spare s1 G b) by (destruct Sp as [?|(? & ? & ?)]; [by left|right]; split_and!; try done; apply (private_pages s); [by rewrite E1|done]). clear Sp. assert (F' : 0 <= Z.lor f PAGE_RW < 4096) by (apply lor_low; [done|unfold PAGE_RW; lia]).
  assert (Pr' : has (Z.lor f PAGE_RW) PAGE_PRESENT = true) by (by rewrite has_lor, N3). assert (Rw' : has (Z.lor f PAGE_RW) PAGE_RW = true) by (rewrite has_lor; apply orb_true_r).
  destruct (Z.eqb_spec (cnt s1 a) 1) as [C1|_]; cbn [negb].
  - assert (R : is_res s1 a = false) by (unfold is_res; by rewrite C1).
    destruct (grant_ok ly s1 G I1 d i j t Ht Hj a f Hx PAGE_RW R C1 ltac:(unfold PAGE_RW; lia)) as (-> & I2 & K2). cbn [mbind option_bind].
    destruct (end_wp_page_ok ly _ _ b [] I2) as (s' & E & I' & K & T).
    { destruct Sp1 as [[? ?]|(? & ? & [_ P _ _ _])]; [left|right]; done. }
    exists s'. eexists. split; [exact E|]. split.
    + split; [exact I'|]. split; [by split|]. left. split; [done|]. eapply keeps_trans; [exact K1|]. by eapply keeps_trans.
    + exists (add_flt 1 0 v). rewrite T. split; [exact Hk1|]. split; [done|]. right. split; [done|]. split; [done|]. split; [done|]. unfold writable. cbn. by rewrite alter_eq.
  - destruct Sp1 as [[-> Hh]|(Nb & Hh & P)].
    + cbn [Z.eqb negb]. destruct (wp_bad_ok ly s1 G d i j t k (add_flt 1 0 v) a f (Z.lor f PAGE_RW) I1) as (s' & E & I' & K & T); try done.
      { split; [rewrite Hh|rewrite Hs]; cbn; lia. }
      destruct (free_page a s1) as [s2|]; [|done]. cbn [mbind option_bind] in *. destruct (oom k s2) as [s3|]; [|done]. cbn [mbind option_bind] in *.
      exists s'. eexists. split; [exact E|]. split.
      * split; [exact I'|]. split; [by split|]. right. split; [done|]. eapply keeps_trans; [eapply keeps_weaken; [exact K1|done]|exact K].
      * exists (send_sig SIGKILL (add_flt 1 0 v)). split; [done|]. split; [done|]. left. cbn. lia.
    + destruct (Z.eqb_spec b 0); [done|]. cbn [negb].
      assert (X : exists s2 v2, (if has (cnt s1 a) MAP_PAGE_RESERVED then on_task k (fun t => set_rss (u16 (rss t + 1)) t) s1 else Some s1) = Some s2
        /\ inv ly s2 G /\ keeps nothing s1 G s2 G /\ tasks s2 !! k = Some v2 /\ s2 = set_tasks (tasks s2) s1 /\ cr3 v2 = cr3 v /\ sent v2 = sent v /\ bnd v2 = bnd v).
      { destruct (has (cnt s1 a) MAP_PAGE_RESERVED); [|exists s1, (add_flt 1 0 v); split_and!; try done; clear; by destruct s1].
        destruct (task_keeps ly s1 G k (fun t => set_rss (u16 (rss t + 1)) t) _ I1 Hk1 eq_refl eq_refl) as (s2 & -> & E2 & I2 & K2 & Hk2).
        exists s2, (set_rss (u16 (rss (add_flt 1 0 v) + 1)) (add_flt 1 0 v)).
        split_and!; try done.
        by rewrite E2. }
      destruct X as (s2 & v2 & -> & I2 & K2 & Hk2 & E2 & Ev & Es & Eb). cbn [mbind option_bind]. assert (P2 : private s2 G b) by (apply (private_pages s1); [by rewrite E2|done]).
      destruct (wp_copy_page ly s2 G I2 d i j t Ht Hj a f Hx Hl Co b Hh P2) as (g & s' & -> & [h ->] & E & I' & K & T). cbn [mbind option_bind].
      rewrite lor_add by (try done; apply (page_align s2 b), P2). exists s'. eexists. split; [exact E|]. split.
      * split; [exact I'|]. split; [by split|]. left. split; [done|]. eapply keeps_trans; [exact K1|]. by eapply keeps_trans.
      * exists v2. rewrite T. split; [done|]. split; [done|]. right. split; [done|]. split; [done|]. split; [done|]. unfold writable. cbn. by rewrite alter_eq.
Qed.

(** The entry for a page is still for that page, with the same flags if it is one of the kernel. *)
Lemma kept_cow s G s1 G1 a f b g : inv ly s G -> kept s G s1 G1 -> inv ly s1 G1 -> ents G !! (d, i, j) = Some (Pg a f) -> has f PAGE_COW = true ->
  ents G1 !! (d, i, j) = Some (Pg b g) -> has g PAGE_COW = true.
Proof.
  intros I K I1 Hx Co Hy. destruct (k_from _ _ _ _ K _ _ _ Hy) as [g' Hg']. rewrite Hx in Hg'. injection Hg' as <- <-.
  destruct (n_page _ _ _ (i_entries _ _ _ I1) _ _ _ Hy) as [N1 N2 N3 N4 N5 N6 N7]. destruct (is_res s1 a) eqn:R; [|by apply N6].
  assert (Pa := e_page _ _ _ _ _ _ (n_page _ _ _ (i_entries _ _ _ I) _ _ _ Hx)). rewrite (k_res _ _ _ _ K a Pa) in R.
  assert (X := k_page _ _ _ _ K _ _ _ Hx (conj Pa R)). congruence.
Qed.

Lemma do_wp_page_slow s G v a f address : inv ly s G -> calm G -> tasks s !! k = Some v -> cr3 v = d -> d ∈ dirs G -> tabs G !! (d, i) = Some t -> d ∉ lost G ->
  PAGE_DIR_OFFSET address = i -> PAGE_PTR address = j -> ents G !! (d, i, j) = Some (Pg a f) -> has f PAGE_COW = true ->
  exists s' G', __do_wp_page ly k address s = Some s' /\ faulted ly d s G s' G' /\ wp_outcome k v s' (lost G' = lost G /\ writable G' (d, i, j)).
Proof.
  intros I C Hk Ec Hd Ht Hl Ei Ej Hx Co. unfold __do_wp_page. destruct (get_free_page_raw ly s G I (calm_light G C)) as (b & s1 & G1 & -> & I1 & K1 & Hb).
  cbn [mbind option_bind]. destruct (task_core _ _ _ _ _ _ K1 Hk) as (v1 & Hk1 & E1 & Es & Eb). rewrite Hk1. cbn [mbind option_bind]. rewrite E1, Ec, Ei, Ej.
  assert (Sp : spare s1 G1 b) by (rewrite (z_held _ C) in Hb; exact Hb). assert (Hs1 : swheld G1 = []) by (rewrite (k_swheld _ _ _ _ K1); apply C).
  assert (Hu1 : unlinked G1 = ∅) by (rewrite (k_unlinked _ _ _ _ K1); apply C). assert (Ht1 : tabs G1 !! (d, i) = Some t) by (by rewrite (k_tabs _ _ _ _ K1)).
  assert (Hd1 : d ∈ dirs G1) by (by rewrite (k_dirs _ _ _ _ K1)). assert (Hl1 : d ∉ lost G1) by (by rewrite (k_lost _ _ _ _ K1)).
  destruct (h_tabs _ _ _ (i_shape _ _ _ I1) d i t Ht1) as (_ & Hi & _). rewrite (rd_dir ly s1 G1 I1 d i Hd1) by lia. cbn [mbind option_bind].
  rewrite (tab_linked ly s1 G1 d i t I1 Ht1) by (rewrite Hu1; apply not_elem_of_empty).
  destruct (table_word ly s1 G1 I1 d i t Ht1) as (T1 & T2 & T3 & T4 & T5 & T6 & T7). rewrite T3, T7, Z.eqb_refl. cbn [negb orb].
  destruct (Z.leb_spec (high_memory (pages s1)) (t + PAGE_TABLE)); [lia|]. rewrite T4.
  assert (Kp := kept_keeps nothing _ _ _ _ K1). assert (Elost := k_lost _ _ _ _ K1).
  assert (End : writable G1 (d, i, j) -> exists s' G', end_wp_page b s1 = Some s' /\ faulted ly d s G s' G' /\ wp_outcome k v s' (lost G' = lost G /\ writable G' (d, i, j))).
  { intros W. destruct (spare_end s1 G1 b I1 Sp Hs1 Hu1) as (s' & E & F & T). exists s', (set_held [] G1). split; [done|].
    split; [by eapply faulted_pre|]. exists v1. rewrite T. split; [done|]. split; [done|]. right. by split_and!. }
  rewrite (rd_entry ly s1 G1 I1 d i j t Ht1 Hj). cbn [mbind option_bind]. assert (Go := entry_good ly s1 G1 (d, i, j) I1).
  assert (Wp := word_present ly s1 G1 _ I1 Go). unfold writable in End. destruct (ents G1 !! (d, i, j)) as [[c g|e]|] eqn:Hy; cbn [word_of] in *.
  2-3: rewrite Wp; cbn [negb]; by apply End.
  rewrite Wp. cbn [negb]. destruct Go as (G1' & G2 & G3 & G4).
  destruct (Z.leb_spec (high_memory (pages s1)) (c + g)) as [X|_]; [assert (Y := page_high s1 c g (m_ok _ _ (i_mem _ _ _ I1)) G1' G2); lia|].
  rewrite (has_flags c g (page_align s1 c G1') G2) by (unfold PAGE_RW; lia). destruct (has g PAGE_RW) eqn:Rw; [by apply End|].
  assert (Cg := kept_cow s G s1 G1 a f c g I K1 I1 Hx Co Hy).
  destruct (wp_copy_ok s1 G1 v1 c g b I1 Hs1 Hu1 Hk1 Ht1 Hl1 Hy Cg Sp) as (s' & G' & E & F & v' & Hv' & Ev & O).
  exists s', G'. split; [done|]. split; [by eapply faulted_pre|]. exists v'. rewrite <- Es, <- Eb, <- Elost. split; [done|]. split; [congruence|done].
Qed.
End Wp.

(** A fault on a page that may not be written, for the task itself; in kernel mode the
    page must be one to copy on a write. *)
Lemma do_wp_page_ok ly s G k v error_code address esp : inv ly s G -> calm G -> tasks s !! k = Some v -> cr3 v ∈ dirs G -> cr3 v ∉ lost G -> 0 <= address < TASK_SIZE ->
  let x := (cr3 v, address / 4096 / 1024, (address / 4096) mod 1024) in
  (forall a f, ents G !! x = Some (Pg a f) -> esp <> 0 \/ has f PAGE_COW = true) ->
  exists s' G', do_wp_page ly true error_code address k esp s = Some s' /\ faulted ly (cr3 v) s G s' G' /\ wp_outcome k v s' (lost G' = lost G /\ writable G' x).
Proof.
  intros I C Hk Hd Hl Ha x Hc. unfold do_wp_page. rewrite Hk. cbn [mbind option_bind]. unfold TASK_SIZE in Ha. subst x.
  rewrite (dir_index address), (ptr_index address) by lia. set (i := address / 4096 / 1024) in *. set (j := (address / 4096) mod 1024) in *.
  assert (Hj : 0 <= j < 1024) by (apply Z.mod_pos_bound; lia).
  assert (Hi : 0 <= i < 768) by (split; [apply Z.div_pos; [apply Z.div_pos; lia|lia]|apply Z.div_lt_upper_bound; [lia|apply Z.div_lt_upper_bound; lia]]).
  rewrite (rd_dir ly s G I _ i Hd) by lia. cbn [mbind option_bind].
  assert (Stay : writable G (cr3 v, i, j) -> exists s' G', Some s = Some s' /\ faulted ly (cr3 v) s G s' G' /\ wp_outcome k v s' (lost G' = lost G /\ writable G' (cr3 v, i, j))).
  { intros W. exists s, G. split; [done|]. split; [split; [done|]; split; [done|]; left; split; [done|apply keeps_same]|].
    exists v. split; [done|]. split; [done|]. right. by split_and!. }
  destruct (tabs G !! (cr3 v, i)) as [t|] eqn:Ht.
  2:{ rewrite (no_tab_word ly s G _ i I Hd Hl Hi Ht). cbn [Z.eqb]. apply Stay. unfold writable. destruct (ents G !! (cr3 v, i, j)) eqn:X; [|done].
      destruct (h_ents _ _ _ (i_shape _ _ _ I) _ _ _ _ X) as [[? Y] _]. congruence. }
  rewrite (tab_linked ly s G _ i t I Ht) by (rewrite (z_unlinked _ C); apply not_elem_of_empty).
  destruct (table_word ly s G I _ i t Ht) as (T1 & T2 & T3 & T4 & T5 & T6 & T7). destruct (Z.eqb_spec (t + PAGE_TABLE) 0); [done|].
  rewrite T3. destruct (Z.ltb_spec (t + PAGE_TABLE) (high_memory (pages s))); [|lia]. cbn [andb]. rewrite T4.
  rewrite (rd_entry ly s G I _ i j t Ht Hj). cbn [mbind option_bind]. assert (Go := entry_good ly s G (cr3 v, i, j) I).
  assert (Wp := word_present ly s G _ I Go). unfold writable in Stay. destruct (ents G !! (cr3 v, i, j)) as [[a f|e]|] eqn:Hx; cbn [word_of] in *.
  2-3: rewrite Wp; cbn [negb]; by apply Stay.
  rewrite Wp. cbn [negb]. destruct Go as (G1 & G2 & G3 & G4). assert (Al := page_align s a G1).
  rewrite !(has_flags a f Al G2) by (unfold PAGE_RW, PAGE_COW; lia). destruct (has f PAGE_RW) eqn:Rw; [by apply Stay|].
  destruct (has f PAGE_COW) eqn:Co; cbn [negb andb].
  - rewrite (users_page s a f (m_ok _ _ (i_mem _ _ _ I)) G1 G2). cbn [mbind option_bind]. destruct (Z.eqb_spec (cnt s a) 1) as [C1|_].
    + assert (R : is_res s a = false) by (unfold is_res; by rewrite C1).
      destruct (grant_ok ly s G I _ i j t Ht Hj a f Hx (Z.lor PAGE_RW PAGE_DIRTY) R C1) as (-> & I2 & K2); [change (Z.lor PAGE_RW PAGE_DIRTY) with 66; lia|].
      eexists. eexists. split; [done|]. split; [split; [exact I2|]; split; [split; apply C|]; left; by split|].
      exists v. split; [done|]. split; [done|]. right. split; [done|]. split; [done|]. split; [done|]. unfold writable. cbn [put_in ents set_ents]. rewrite alter_eq, has_lor. apply orb_true_r.
    + apply (do_wp_page_slow ly k (cr3 v) i j t Hj s G v a f address); try done; [by apply dir_index; lia|by apply ptr_index; lia].
  - destruct (Hc a f eq_refl) as [Ne|]; [|congruence]. destruct (Z.eqb_spec esp 0); [done|]. cbn [negb].
    edestruct (task_keeps ly s G k (fun t => send_sig SIGSEGV (set_trap (address, error_code, 14) t)) v I Hk) as (s' & -> & E' & I' & K' & Hk'); [done|done|].
    exists s', G. split; [done|]. split; [split; [done|]; split; [done|]; by left|]. eexists. split; [exact Hk'|]. split; [done|]. left. cbn. lia.
Qed.
End VmFault.
