(* ===== verification/VmNoPage.v ===== *)
(** * Faults on pages that are not there: [do_no_page], [swap_in], [do_page_fault]

    A page appears that shows what was seen before: zeros, or what is on the swap area. *)

From S2P Require Import Prelude PageAlloc Vm VmBits VmInv VmCount VmSwap VmReclaim VmAlloc VmTables VmFree VmDir VmCopy VmRange VmFault.
From Stdlib Require Import ZArith Lia.
From stdpp Require Import base list gmap numbers.
Local Open Scope Z_scope.

Module VmNoPage.
Import PageAlloc Vm VmBits VmInv VmCount VmSwap VmReclaim VmAlloc VmTables VmFree VmDir VmCopy VmRange VmFault.

(** The entry is there, and can be written. *)
Definition ready (G : ghost) (x : Z * Z * Z) : Prop := exists a f, ents G !! x = Some (Pg a f) /\ has f PAGE_RW = true.

(** ** Tables *)

(** Without memory the directory gets the table for such a case. *)
Lemma bad_table_ok ly s G d i : inv ly s G -> d ∈ dirs G -> 0 <= i < 768 -> tabs G !! (d, i) = None ->
  exists s', (let '(b, s) := bad_pagetable ly s in wr d i (Z.lor b PAGE_TABLE) s) = Some s'
    /\ inv ly s' (set_lost ({[d]} ∪ lost G) G) /\ keeps (lost_or G d) s G s' (set_lost ({[d]} ∪ lost G) G) /\ tasks s' = tasks s.
Proof.
  intros I Hd Hi Ht. destruct (bad_page_ok ly s G I) as [I1 K1]. set (s1 := clear_reserved (empty_bad_page ly) s) in *.
  destruct (bad_distinct ly s G I) as (B1 & B2 & B3 & B4 & B5).
  assert (I2 := kernel_frame ly s1 G I1 (empty_bad_page_table ly) (repeat (empty_bad_page ly + PAGE_TABLE) (Z.to_nat PTRS_PER_PAGE))
    (m_badt _ _ (i_mem _ _ _ I1)) B3 B4 eq_refl). unfold bad_pagetable, bad_page. fold s1. set (s2 := set_frames _ s1) in *.
  rewrite (wr_dir ly s2 G I2 d i Hd) by lia. eexists. split; [done|].
  rewrite lor_add by (first [by apply (page_align s), I|change PAGE_TABLE with 39; lia]).
  assert (Inn : d ∈ {[d]} ∪ lost G) by (apply elem_of_union; left; by apply elem_of_singleton). split; [|split; [|done]].
  - apply (inv_dir ly s2 G I2 d i Hd ltac:(lia)); [|intros x Hx; apply elem_of_union; by right|done].
    unfold dir_fits. destruct (Z.ltb_spec i 768); [|lia]. right. by split.
  - apply (keeps_trans _ s G s1 G); [eapply keeps_weaken; [exact K1|intros x Hx; apply elem_of_union; by right]|].
    split; try done. intros x Hx. rewrite (seen_dir ly s2 G I2 d i Hd) by (first [lia|done]).
    unfold seen. destruct (ents G !! x) as [[a f|e]|] eqn:E; try done. cbn. rewrite lookup_insert_ne; [done|]. intros <-.
    destruct (n_page _ _ _ (i_entries _ _ _ I) _ _ _ E) as [_ _ _ E4 _ _ _]. destruct E4 as [?|(? & _)]; [apply (m_badt _ _ (i_mem _ _ _ I))|done|done].
Qed.

Lemma oom_faulted ly s G d k v s' G' : inv ly s G -> tasks s !! k = Some v -> inv ly s' G' -> calm G' -> lost G' = {[d]} ∪ lost G ->
  keeps (lost_or G d) (set_tasks (<[k := send_sig SIGKILL v]> (tasks s)) s) G s' G' -> faulted ly d s G s' G'.
Proof.
  intros I Hk I' C' El K. split; [done|]. split; [done|]. right. split; [done|]. eapply keeps_trans; [|exact K].
  split; try done. cbn. rewrite fmap_insert. apply insert_id. by rewrite lookup_fmap, Hk.
Qed.

Section Task.
Context (ly : layout) (k d i j : Z) (v : vtask) (Hi : 0 <= i < 768) (Hj : 0 <= j < 1024).

Lemma get_empty_pgtable_ok s G address : inv ly s G -> calm G -> tasks s !! k = Some v -> cr3 v = d -> d ∈ dirs G -> d ∉ lost G -> PAGE_DIR_OFFSET address = i ->
  exists w s' G', get_empty_pgtable ly k address s = Some (w, s') /\
    ((exists t v', w = t + PAGE_TABLE /\ inv ly s' G' /\ calm G' /\ lost G' = lost G /\ keeps nothing s G s' G' /\ tabs G' !! (d, i) = Some t
        /\ tasks s' !! k = Some v' /\ cr3 v' = cr3 v /\ sent v' = sent v /\ bnd v' = bnd v
        /\ forall a f, ents G' !! (d, i, j) = Some (Pg a f) -> exists g, ents G !! (d, i, j) = Some (Pg a g))
     \/ w = 0 /\ faulted ly d s G s' G' /\ outcome k v s' False).
Proof.
  intros I C Hk Ec Hd Hl Ei. unfold get_empty_pgtable. rewrite Hk. cbn [mbind option_bind]. rewrite Ec, Ei.
  rewrite (rd_dir ly s G I d i Hd) by lia. cbn [mbind option_bind]. destruct (tabs G !! (d, i)) as [t|] eqn:Ht.
  { rewrite (tab_linked ly s G d i t I Ht) by (rewrite (z_unlinked _ C); apply not_elem_of_empty).
    destruct (table_word ly s G I d i t Ht) as (_ & _ & T3 & _). rewrite T3. exists (t + PAGE_TABLE), s, G. split; [done|]. left. exists t, v.
    split_and!; try done. intros a f Hx. by exists f. }
  rewrite (no_tab_word ly s G d i I Hd Hl Hi Ht). change (has 0 PAGE_PRESENT) with false. cbn [Z.eqb negb mbind option_bind].
  destruct (get_free_page_ok ly s G I (calm_light G C)) as (a & s1 & G1 & -> & I1 & K1 & Ha). cbn [mbind option_bind].
  assert (Hd1 : d ∈ dirs G1) by (by rewrite (k_dirs _ _ _ _ K1)). assert (Ht1 : tabs G1 !! (d, i) = None) by (by rewrite (k_tabs _ _ _ _ K1)).
  assert (Hl1 : d ∉ lost G1) by (by rewrite (k_lost _ _ _ _ K1)). destruct (task_core _ _ _ _ _ _ K1 Hk) as (v1 & Hk1 & E1 & Es & Eb).
  rewrite (rd_dir ly s1 G1 I1 d i Hd1) by lia. cbn [mbind option_bind]. rewrite (no_tab_word ly s1 G1 d i I1 Hd1 Hl1 Hi Ht1).
  change (has 0 PAGE_PRESENT) with false. cbn [Z.eqb negb mbind option_bind]. destruct Ha as [[-> Hh]|(Na & Hh & P & Hz)].
  - cbn [Z.eqb negb]. unfold oom. destruct (task_keeps ly s1 G1 k (send_sig SIGKILL) v1 I1 Hk1 eq_refl eq_refl) as (s2 & -> & E2 & I2 & K2 & Hk2). cbn [mbind option_bind].
    destruct (bad_table_ok ly s2 G1 d i I2 Hd1 Hi Ht1) as (s3 & E3 & I3 & K3 & T3). destruct (bad_pagetable ly s2) as [b s2']. rewrite E3. cbn [mbind option_bind].
    exists 0, s3, (set_lost ({[d]} ∪ lost G1) G1). split; [done|]. right. split; [done|]. split.
    + apply (faulted_pre ly d s G s1 G1); [by apply kept_keeps|apply K1|]. rewrite E2 in *. apply (oom_faulted ly s1 G1 d k v1); try done.
      split; cbn; [rewrite Hh|rewrite (k_swheld _ _ _ _ K1)|rewrite (k_unlinked _ _ _ _ K1)]; apply C.
    + exists (send_sig SIGKILL v1). rewrite T3. split; [done|]. split; [done|]. left. cbn. rewrite Es. lia.
  - destruct (Z.eqb_spec a 0); [done|]. cbn [negb].
    destruct (link_ok ly s G s1 G1 d i a I1 C K1 Hh P Hz Hd Hl Hi Ht) as (s2 & G2 & -> & I2 & C2 & El2 & Et2 & Ee2 & T2 & K2). cbn [mbind option_bind].
    exists (Z.lor a PAGE_TABLE), s2, G2. split; [done|]. left. exists a, v1.
    split; [by apply lor_add; [apply (page_align s1), P|change PAGE_TABLE with 39; lia]|]. split_and!; try done.
    + rewrite Et2. apply lookup_insert_eq.
    + by rewrite T2.
    + congruence.
    + intros b f Hx. rewrite Ee2 in Hx. by apply (k_from _ _ _ _ K1 _ _ _ Hx).
Qed.

(** ** Pages *)

Context (t : Z).

(** The page of zeros. *)
Lemma fresh_ok s G s1 G1 a : inv ly s1 G1 -> kept s G s1 G1 -> calm G -> held G1 = a :: held G -> private s1 G1 a -> frames s1 !! a = Some zeros ->
  tabs G !! (d, i) = Some t -> ents G !! (d, i, j) = None ->
  let G' := set_held [] (put_in (Some (Pg a PAGE_PRIVATE)) G1 d i j) in
  wr t j (Z.lor a PAGE_PRIVATE) s1 = Some (upd t j (a + PAGE_PRIVATE) s1) /\ inv ly (upd t j (a + PAGE_PRIVATE) s1) G'
  /\ keeps nothing s1 G1 (upd t j (a + PAGE_PRIVATE) s1) G' /\ ready G' (d, i, j).
Proof.
  intros I1 K1 C Hh P Hz Ht He G'. destruct P as [(P1 & P2 & P3) P4 P5 P6 P7]. assert (Ht1 : tabs G1 !! (d, i) = Some t) by (by rewrite (k_tabs _ _ _ _ K1)).
  assert (He1 : ents G1 !! (d, i, j) = None) by (rewrite (k_keep _ _ _ _ K1); [done|]; intros b g; by rewrite He).
  rewrite lor_add by (first [by apply (page_align s1)|change PAGE_PRIVATE with 551; lia]). split; [by apply (wr_entry ly s1 G1 I1 d i j t)|].
  split; [|split].
  - apply (entry_replaced ly s1 G1 I1 d i j t Ht1 Hj None (Some (Pg a PAGE_PRIVATE)) (lost G1) [] (swheld G1)); try done.
    + split; [|split].
      * split; try done; congruence.
      * intros ->. destruct (m_bad _ _ (i_mem _ _ _ I1)). congruence.
      * intros _ d' i' j' g Hg. by destruct (P6 _ _ Hg).
    + unfold pages_of. rewrite P3, Hh, (z_held _ C). done.
    + assert (F := c_few _ _ (i_counted _ _ _ I1)). cbn. lia.
  - split; try done. intros x _. destruct (decide (x = (d, i, j))) as [-> |N]; [|by apply (seen_upd ly s1 G1 I1 d i j t Ht1)].
    unfold seen. cbn [ents G' set_held put_in set_ents]. rewrite alter_eq, He1. unfold upd. cbn. rewrite lookup_insert_ne; [by rewrite Hz|].
    intros <-. by apply (P5 (d, i)).
  - exists a, PAGE_PRIVATE. cbn [ents G' set_held put_in set_ents]. by rewrite alter_eq.
Qed.

(** [put_page] into an entry that is empty. *)
Lemma put_page_eq s G v' p address prot : inv ly s G -> tasks s !! k = Some v' -> cr3 v' = d -> d ∈ dirs G -> tabs G !! (d, i) = Some t -> unlinked G = ∅ ->
  ents G !! (d, i, j) = None -> PAGE_DIR_OFFSET address = i -> table_offset address = j -> p < high_memory (pages s) ->
  put_page ly k p address prot s = (s ← wr t j (Z.lor p prot) s; Some (p, s)).
Proof.
  intros I Hk Ec Hd Ht Hu He Ei Ej Hp. unfold put_page. destruct (Z.leb_spec (high_memory (pages s)) p); [lia|]. rewrite Hk. cbn [mbind option_bind]. rewrite Ec, Ei, Ej.
  rewrite (rd_dir ly s G I d i Hd) by lia. cbn [mbind option_bind]. rewrite (tab_linked ly s G d i t I Ht) by (rewrite Hu; apply not_elem_of_empty).
  destruct (table_word ly s G I d i t Ht) as (_ & _ & T3 & _ & T5 & _). rewrite T3, T5. rewrite (rd_entry ly s G I d i j t Ht Hj), He. done.
Qed.

Lemma get_empty_page_ok s G address : inv ly s G -> calm G -> tasks s !! k = Some v -> cr3 v = d -> d ∈ dirs G -> tabs G !! (d, i) = Some t ->
  ents G !! (d, i, j) = None -> PAGE_DIR_OFFSET address = i -> table_offset address = j ->
  exists s' G', get_empty_page ly k address s = Some s' /\ faulted ly d s G s' G' /\ outcome k v s' (lost G' = lost G /\ ready G' (d, i, j)).
Proof.
  intros I C Hk Ec Hd Ht He Ei Ej. unfold get_empty_page. destruct (get_free_page_ok ly s G I (calm_light G C)) as (a & s1 & G1 & -> & I1 & K1 & Ha).
  cbn [mbind option_bind]. destruct (task_core _ _ _ _ _ _ K1 Hk) as (v1 & Hk1 & E1 & Es & Eb). assert (M := m_ok _ _ (i_mem _ _ _ I1)).
  assert (Hd1 : d ∈ dirs G1) by (by rewrite (k_dirs _ _ _ _ K1)). assert (Ht1 : tabs G1 !! (d, i) = Some t) by (by rewrite (k_tabs _ _ _ _ K1)).
  assert (Hu1 : unlinked G1 = ∅) by (rewrite (k_unlinked _ _ _ _ K1); apply C).
  assert (He1 : ents G1 !! (d, i, j) = None) by (rewrite (k_keep _ _ _ _ K1); [done|]; intros b g; by rewrite He).
  destruct Ha as [[-> Hh]|(Na & Hh & P & Hz)].
  - cbn [Z.eqb]. unfold oom. destruct (task_keeps ly s1 G1 k (send_sig SIGKILL) v1 I1 Hk1 eq_refl eq_refl) as (s2 & -> & E2 & I2 & K2 & Hk2). cbn [mbind option_bind].
    subst s2. set (s2 := set_tasks (<[k := send_sig SIGKILL v1]> (tasks s1)) s1) in *.
    assert (Lt1 : light G1) by (split; [rewrite Hh, (z_held _ C)|rewrite (k_swheld _ _ _ _ K1), (z_swheld _ C)]; cbn; lia).
    destruct (bad_page_ok ly s2 G1 I2) as [I3 K3]. unfold bad_page. set (s3 := clear_reserved (empty_bad_page ly) s2) in *.
    destruct (m_bad _ _ (i_mem _ _ _ I3)) as [Bp _]. assert (Bh := page_high s3 _ 0 (m_ok _ _ (i_mem _ _ _ I3)) Bp ltac:(lia)).
    rewrite (put_page_eq s3 G1 (send_sig SIGKILL v1) _ address PAGE_PRIVATE I3) by (first [done|cbn; congruence|lia]).
    rewrite (wr_entry ly s3 G1 I3 d i j t Ht1 Hj). cbn [mbind option_bind]. assert (Rg := page_range s3 _ (m_ok _ _ (i_mem _ _ _ I3)) Bp).
    destruct (Z.eqb_spec (empty_bad_page ly) 0); [lia|]. rewrite lor_add by (first [by apply (page_align s3)|change PAGE_PRIVATE with 551; lia]).
    destruct (bad_entry_ok ly s2 G1 I2 d i j t Ht1 Hj PAGE_PRIVATE) as [I4 K4]; [change PAGE_PRIVATE with 551; lia|done|done|].
    eexists. exists (spoilt ly s2 G1 d i j PAGE_PRIVATE). split; [done|]. split.
    + apply (faulted_pre ly d s G s1 G1); [by apply kept_keeps|apply K1|]. apply (oom_faulted ly s1 G1 d k v1); try done.
      unfold spoilt. rewrite He1. split; cbn; [rewrite Hh|rewrite (k_swheld _ _ _ _ K1)|done]; apply C.
    + exists (send_sig SIGKILL v1). split; [done|]. split; [done|]. left. cbn. rewrite Es. lia.
  - destruct (Z.eqb_spec a 0); [done|]. destruct (fresh_ok s G s1 G1 a I1 K1 C Hh P Hz Ht He) as (Ew & I2 & K2 & Rd). assert (Bp := proj1 (p_use _ _ _ P)).
    assert (Bh := page_high s1 a 0 M Bp ltac:(lia)). cbn [mbind option_bind].
    rewrite (put_page_eq s1 G1 v1 a address PAGE_PRIVATE I1) by (first [done|congruence|lia]). rewrite Ew. cbn [mbind option_bind]. destruct (Z.eqb_spec a 0); [done|].
    eexists. eexists. split; [done|]. split.
    + apply (faulted_pre ly d s G s1 G1); [by apply kept_keeps|apply K1|]. split; [exact I2|].
      split; [split; cbn; [done|rewrite (k_swheld _ _ _ _ K1); apply C|done]|]. by left.
    + exists v1. split; [done|]. split; [congruence|]. right. split; [done|]. split; [exact (k_lost _ _ _ _ K1)|exact Rd].
Qed.

(** ** Pages on a swap area *)

Let F := Z.lor PAGE_DIRTY PAGE_PRIVATE.

(** The page is read and takes the place of the swap entry. *)
Lemma swapped_in_ok s G s1 G1 a e g : inv ly s1 G1 -> kept s G s1 G1 -> calm G -> held G1 = a :: held G -> private s1 G1 a ->
  tabs G !! (d, i) = Some t -> ents G1 !! (d, i, j) = Some (Sw e) -> disk s1 !! e = Some g -> length g = 1024%nat ->
  let G' := set_held [] (put_in (Some (Pg a F)) G1 d i j) in
  let s2 := set_frames (<[a := g]> (frames s1)) s1 in
  exists s', (s ← wr t j (Z.lor a F) s2; swap_free e s) = Some s' /\ inv ly s' G' /\ keeps nothing s1 G1 s' G' /\ ready G' (d, i, j) /\ tasks s' = tasks s1.
Proof.
  intros I1 K1 C Hh P Ht He Hg Lg G' s2. assert (Ht1 : tabs G1 !! (d, i) = Some t) by (by rewrite (k_tabs _ _ _ _ K1)).
  destruct (private_frame ly s1 G1 a g I1 P Lg) as (I2 & P' & S2). fold s2 in I2, P', S2. destruct P' as [(P1 & P2 & P3) P4 P5 P6 P7].
  rewrite lor_add by (first [by apply (page_align s2)|change F with 615; lia]). rewrite (wr_entry ly s2 G1 I2 d i j t Ht1 Hj). cbn [mbind option_bind].
  assert (I3 : inv ly (upd t j (a + F) s2) (Ghost (dirs G1) (tabs G1) (alter_ent (d, i, j) (Some (Pg a F)) (ents G1)) [] (e :: swheld G1) (unlinked G1) (lost G1))).
  { apply (entry_replaced ly s2 G1 I2 d i j t Ht1 Hj (Some (Sw e)) (Some (Pg a F)) (lost G1) [] (e :: swheld G1)); try done.
    - split; [|split].
      + split; try done; congruence.
      + intros ->. destruct (m_bad _ _ (i_mem _ _ _ I2)). congruence.
      + intros _ d' i' j' h Hh'. by destruct (P6 _ _ Hh').
    - unfold pages_of. rewrite P3, Hh, (z_held _ C). done.
    - cbn. rewrite (k_swheld _ _ _ _ K1), (z_swheld _ C). cbn. lia. }
  destruct (inv_swap_free ly _ _ I3 e (swheld G1) eq_refl) as (l & n & -> & I4). eexists. split; [done|]. split; [exact I4|]. split; [|split; [|done]].
  - split; try done. intros x _. destruct (decide (x = (d, i, j))) as [-> |N].
    + unfold seen. cbn [ents G' set_held put_in set_ents]. rewrite alter_eq, He, Hg. unfold upd. cbn. rewrite lookup_insert_ne by (intros <-; by apply (P5 (d, i))).
      by rewrite lookup_insert_eq.
    + rewrite <- S2. by apply (seen_upd ly s2 G1 I2 d i j t Ht1 (a + F) (Some (Pg a F)) x [] (swheld G1) (lost G1)).
  - exists a, F. cbn [ents G' set_held put_in set_ents]. by rewrite alter_eq.
Qed.

Lemma swap_in_ok shm_no_page s G e : inv ly s G -> calm G -> tasks s !! k = Some v -> cr3 v = d -> tabs G !! (d, i) = Some t ->
  ents G !! (d, i, j) = Some (Sw e) ->
  exists s' G', swap_in ly shm_no_page k t j s = Some s' /\ faulted ly d s G s' G' /\ outcome k v s' (lost G' = lost G /\ ready G' (d, i, j)).
Proof.
  intros I C Hk Ec Ht He. unfold swap_in. rewrite (rd_entry ly s G I d i j t Ht Hj), He. cbn [mbind option_bind word_of].
  destruct (n_swap _ _ _ (i_entries _ _ _ I) _ _ He) as [Sl _]. destruct (slot_decode ly s G I e Sl) as (p & c & _ & _ & _ & _ & _ & Hty & _ & Ne & Pr & _).
  rewrite Pr. destruct (Z.eqb_spec e 0); [done|]. destruct (Z.eqb_spec (SWP_TYPE e) SHM_SWP_TYPE) as [X|_]; [unfold SHM_SWP_TYPE in X; lia|].
  destruct (get_free_page_ok ly s G I (calm_light G C)) as (a & s1 & G1 & -> & I1 & K1 & Ha). cbn [mbind option_bind].
  destruct (task_core _ _ _ _ _ _ K1 Hk) as (v1 & Hk1 & E1 & Es & Eb). assert (M := m_ok _ _ (i_mem _ _ _ I1)).
  assert (Ht1 : tabs G1 !! (d, i) = Some t) by (by rewrite (k_tabs _ _ _ _ K1)). assert (Hu1 : unlinked G1 = ∅) by (rewrite (k_unlinked _ _ _ _ K1); apply C).
  assert (He1 : ents G1 !! (d, i, j) = Some (Sw e)) by (rewrite (k_keep _ _ _ _ K1); [done|]; intros b g; by rewrite He).
  destruct (n_swap _ _ _ (i_entries _ _ _ I1) _ _ He1) as [Sl1 (g & Hg & Lg)]. destruct Ha as [[-> Hh]|(Na & Hh & P & Hz)].
  - cbn [Z.eqb]. unfold oom. destruct (task_keeps ly s1 G1 k (send_sig SIGKILL) v1 I1 Hk1 eq_refl eq_refl) as (s2 & -> & E2 & I2 & K2 & Hk2). cbn [mbind option_bind].
    subst s2. set (s2 := set_tasks (<[k := send_sig SIGKILL v1]> (tasks s1)) s1) in *.
    assert (Lt1 : light G1) by (split; [rewrite Hh, (z_held _ C)|rewrite (k_swheld _ _ _ _ K1), (z_swheld _ C)]; cbn; lia).
    destruct (bad_page_ok ly s2 G1 I2) as [I3 _]. unfold bad_page. set (s3 := clear_reserved (empty_bad_page ly) s2) in *.
    rewrite (rd_entry ly s3 G1 I3 d i j t Ht1 Hj), He1. cbn [mbind option_bind word_of]. rewrite Z.eqb_refl. cbn [negb].
    rewrite (wr_entry ly s3 G1 I3 d i j t Ht1 Hj). cbn [mbind option_bind].
    rewrite lor_add by (first [apply (page_align s3), (m_bad _ _ (i_mem _ _ _ I3))|change (Z.lor PAGE_DIRTY PAGE_PRIVATE) with 615; lia]).
    destruct (bad_entry_ok ly s2 G1 I2 d i j t Ht1 Hj F) as [I4 K4]; [change F with 615; lia|done|done|].
    destruct (inv_swap_free ly _ _ I4 e (swheld G1)) as (l & n' & Ef & I5); [unfold spoilt; cbn [swheld]; by rewrite He1|].
    fold s3 in Ef, I5. fold F. rewrite Ef. eexists. eexists. split; [done|]. split.
    + apply (faulted_pre ly d s G s1 G1); [by apply kept_keeps|apply K1|]. apply (oom_faulted ly s1 G1 d k v1); [done|done|exact I5| |done|].
      * unfold spoilt. rewrite He1. split; cbn; [rewrite Hh|rewrite (k_swheld _ _ _ _ K1)|done]; apply C.
      * eapply keeps_trans; [exact K4|]. by split.
    + exists (send_sig SIGKILL v1). split; [done|]. split; [done|]. left. cbn. rewrite Es. lia.
  - destruct (Z.eqb_spec a 0); [done|]. unfold read_swap_page. rewrite (swappable_ok ly s1 G1 I1 e Sl1). cbn [mbind option_bind].
    destruct P as [(U1 & U2 & U3) P4 P5 P6 P7] eqn:EP. destruct (m_frames _ _ (i_mem _ _ _ I1) a U1) as (h & Hfa & _). rewrite (page_read s1 a h M U1 U2 Hfa). cbn [mbind option_bind].
    rewrite Hg. cbn [mbind option_bind]. destruct (swapped_in_ok s G s1 G1 a e g I1 K1 C Hh P Ht He1 Hg Lg) as (s' & E' & I' & K' & Rd & T').
    destruct (private_frame ly s1 G1 a g I1 P Lg) as (I2 & _). rewrite (rd_entry ly _ G1 I2 d i j t Ht1 Hj), He1. cbn [mbind option_bind word_of].
    rewrite Z.eqb_refl. cbn [negb]. exists s'. eexists. split; [exact E'|]. split.
    + apply (faulted_pre ly d s G s1 G1); [by apply kept_keeps|apply K1|]. split; [exact I'|].
      split; [split; cbn; [done|rewrite (k_swheld _ _ _ _ K1); apply C|done]|]. by left.
    + exists v1. rewrite T'. split; [done|]. split; [congruence|]. right. split; [done|]. split; [exact (k_lost _ _ _ _ K1)|exact Rd].
Qed.
End Task.

(** ** [do_no_page] *)

(** The page is not one of a file. *)
Definition anonymous (has_nopage : Z -> bool) (v : vtask) (address : Z) : bool :=
  match find_area (Z.land address 0xfffff000) 0 (mmap (bnd v)) with
  | Inside a => negb (has_nopage (vm_ops a))
  | Outside _ _ => true
  end.

Lemma page_of a : 0 <= a < 2 ^ 32 -> 0 <= Z.land a 0xfffff000 < 2 ^ 32 /\ Z.land a 0xfffff000 / 4096 = a / 4096.
Proof.
  intros Ha. change 0xfffff000 with PAGE_MASK. rewrite PAGE_MASK_spec by done. assert (B := Z.mod_pos_bound a 4096 ltac:(lia)).
  assert (M := Z.mod_le a 4096 ltac:(lia) ltac:(lia)). split; [lia|].
  assert (D := Z.div_mod a 4096 ltac:(lia)). replace (a - a mod 4096) with (a / 4096 * 4096) by lia. by rewrite Z.div_mul by lia.
Qed.

Lemma outcome_pre k v v1 s' (P : Prop) : cr3 v1 = cr3 v -> (length (sent v) <= length (sent v1))%nat -> (sent v1 = sent v \/ (length (sent v) < length (sent v1))%nat) ->
  outcome k v1 s' P -> outcome k v s' P.
Proof.
  intros Ec L Es (v' & Hk & E & O). exists v'. split; [done|]. split; [congruence|]. destruct O as [O|[O1 O2]]; [left; lia|].
  destruct Es as [Es|Es]; [right|left; rewrite O1; lia]. split; [congruence|done].
Qed.

Lemma outcome_weaken k v s' (P Q : Prop) : outcome k v s' P -> (P -> Q) -> outcome k v s' Q.
Proof. intros (v' & Hk & E & O) H. exists v'. split; [done|]. split; [done|]. tauto. Qed.

Section NoPage.
Context (ly : layout) (has_nopage : Z -> bool) (nopage : Z -> vm_area -> Z -> Z -> vm -> option vm) (shm_no_page : Z -> Z -> vm -> option vm).
Context (k : Z).

(** A page for an address at which nothing is. *)
Lemma empty_ok s G d i j t v address (f : vtask -> vtask) : 0 <= i < 768 -> 0 <= j < 1024 -> inv ly s G -> calm G -> tasks s !! k = Some v -> cr3 v = d ->
  d ∈ dirs G -> tabs G !! (d, i) = Some t -> ents G !! (d, i, j) = None -> PAGE_DIR_OFFSET address = i -> table_offset address = j ->
  cr3 (f v) = cr3 v -> swp (f v) = swp v -> (sent (f v) = sent v \/ (length (sent v) < length (sent (f v)))%nat) ->
  exists s' G', (s ← on_task k f s; s ← on_task k (add_flt 1 0) s; get_empty_page ly k address s) = Some s' /\ faulted ly d s G s' G'
    /\ outcome k v s' (lost G' = lost G /\ ready G' (d, i, j)).
Proof.
  intros Hi Hj I C Hk Ec Hd Ht He Ei Ej Fc Fs Fn. destruct (task_keeps ly s G k f v I Hk Fc Fs) as (s1 & -> & _ & I1 & K1 & Hk1). cbn [mbind option_bind].
  destruct (task_keeps ly s1 G k (add_flt 1 0) (f v) I1 Hk1 eq_refl eq_refl) as (s2 & -> & _ & I2 & K2 & Hk2). cbn [mbind option_bind].
  destruct (get_empty_page_ok ly k d i j (add_flt 1 0 (f v)) Hi Hj t s2 G address I2 C Hk2) as (s' & G' & E & Fd & O); try done; [cbn; congruence|].
  exists s', G'. split; [done|]. split; [eapply faulted_pre; [exact (keeps_trans _ _ _ _ _ _ _ K1 K2)|done|exact Fd]|].
  eapply outcome_pre; [..|exact O]; cbn; [done|destruct Fn as [->|?]; lia|done].
Qed.

Lemma do_no_page_ok s G v error_code address : inv ly s G -> calm G -> tasks s !! k = Some v -> cr3 v ∈ dirs G -> cr3 v ∉ lost G -> 0 <= address < TASK_SIZE ->
  anonymous has_nopage v address = true ->
  let x := (cr3 v, address / 4096 / 1024, (address / 4096) mod 1024) in
  exists s' G', do_no_page ly has_nopage nopage shm_no_page true error_code address k s = Some s' /\ faulted ly (cr3 v) s G s' G'
    /\ outcome k v s' (lost G' = lost G /\ ((exists a f, ents G !! x = Some (Pg a f)) \/ ready G' x)).
Proof.
  intros I C Hk Hd Hl Ha An x. subst x. unfold TASK_SIZE in Ha. set (i := address / 4096 / 1024). set (j := (address / 4096) mod 1024).
  assert (Hj : 0 <= j < 1024) by (apply Z.mod_pos_bound; lia).
  assert (Hi : 0 <= i < 768) by (split; [apply Z.div_pos; [apply Z.div_pos; lia|lia]|apply Z.div_lt_upper_bound; [lia|apply Z.div_lt_upper_bound; lia]]).
  unfold do_no_page. destruct (get_empty_pgtable_ok ly k (cr3 v) i j v Hi s G address I C Hk eq_refl Hd Hl) as (w & s1 & G1 & -> & W); [apply dir_index; lia|].
  cbn [mbind option_bind]. destruct W as [(t & v1 & -> & I1 & C1 & El & K1 & Ht & Hk1 & Ec & Es & Eb & Fr)|(-> & Fd & O)].
  2:{ cbn [Z.eqb]. exists s1, G1. split; [done|]. split; [done|]. by eapply outcome_weaken. }
  destruct (table_word ly s1 G1 I1 _ i t Ht) as (_ & _ & _ & T4 & _ & T6 & _). destruct (Z.eqb_spec (t + PAGE_TABLE) 0); [done|]. rewrite T4.
  rewrite (ptr_index address) by lia. fold j. rewrite (rd_entry ly s1 G1 I1 _ i j t Ht Hj). cbn [mbind option_bind].
  assert (Go := entry_good ly s1 G1 (cr3 v, i, j) I1). rewrite (word_present ly s1 G1 _ I1 Go). assert (Wz := word_zero ly s1 G1 (cr3 v, i, j) I1).
  destruct (ents G1 !! (cr3 v, i, j)) as [[a f|e]|] eqn:Hx.
  - exists s1, G1. split; [done|]. split; [split; [done|]; split; [done|]; by left|]. exists v1. split; [done|]. split; [done|]. right. split; [done|]. split; [done|].
    left. destruct (Fr a f eq_refl) as [g Hg]. by exists a, g.
  - destruct (task_keeps ly s1 G1 k (fun t => set_rss (u16 (rss t + 1)) t) v1 I1 Hk1 eq_refl eq_refl) as (s2 & -> & _ & I2 & K2 & Hk2). cbn [mbind option_bind].
    destruct (Z.eqb_spec (word_of (Some (Sw e))) 0) as [E0|_]; [by apply Wz in E0|]. cbn [negb].
    destruct (task_keeps ly s2 G1 k (add_flt 0 1) _ I2 Hk2 eq_refl eq_refl) as (s3 & -> & _ & I3 & K3 & Hk3). cbn [mbind option_bind].
    edestruct (swap_in_ok ly k (cr3 v) i j _ Hj t shm_no_page s3 G1 e I3 C1 Hk3) as (s' & G' & E & Fd & O); [exact Ec|done|done|].
    exists s', G'. split; [done|]. split; [eapply faulted_pre; [exact (keeps_trans _ _ _ _ _ _ _ K1 (keeps_trans _ _ _ _ _ _ _ K2 K3))|done|exact Fd]|].
    eapply outcome_weaken; [eapply outcome_pre; [..|exact O]; cbn; [done|rewrite Es; lia|by left]|rewrite El; intros [? ?]; split; [done|by right]].
  - destruct (task_keeps ly s1 G1 k (fun t => set_rss (u16 (rss t + 1)) t) v1 I1 Hk1 eq_refl eq_refl) as (s2 & -> & _ & I2 & K2 & Hk2). cbn [mbind option_bind word_of Z.eqb negb].
    set (v2 := set_rss (u16 (rss v1 + 1)) v1) in *. rewrite Hk2. cbn [mbind option_bind]. destruct (page_of address ltac:(lia)) as [Pr Pe].
    assert (Done : forall f, cr3 (f v2) = cr3 v2 -> swp (f v2) = swp v2 -> (sent (f v2) = sent v2 \/ (length (sent v2) < length (sent (f v2)))%nat) ->
      exists s' G', (s ← on_task k f s2; s ← on_task k (add_flt 1 0) s; get_empty_page ly k (Z.land address 0xfffff000) s) = Some s' /\ faulted ly (cr3 v) s G s' G'
       /\ outcome k v s' (lost G' = lost G /\ ((exists a f, ents G !! (cr3 v, i, j) = Some (Pg a f)) \/ ready G' (cr3 v, i, j)))).
    { intros f F1 F2 F3. assert (Hd1 : cr3 v ∈ dirs G1) by (by rewrite (q_dirs _ _ _ _ _ K1)).
      edestruct (empty_ok s2 G1 (cr3 v) i j t v2 (Z.land address 0xfffff000) f Hi Hj I2 C1 Hk2) as (s' & G' & E & Fd & O); try done.
      - rewrite dir_index by lia. by rewrite Pe.
      - rewrite table_index. by rewrite Pe.
      - exists s', G'. split; [done|]. split; [eapply faulted_pre; [exact (keeps_trans _ _ _ _ _ _ _ K1 K2)|done|exact Fd]|].
        eapply outcome_weaken; [eapply outcome_pre; [..|exact O]; cbn; [done|rewrite Es; lia|by left]|rewrite El; intros [? ?]; split; [done|by right]]. }
    assert (Fill : exists s' G', (s ← on_task k (add_flt 1 0) s2; get_empty_page ly k (Z.land address 0xfffff000) s) = Some s' /\ faulted ly (cr3 v) s G s' G'
       /\ outcome k v s' (lost G' = lost G /\ ((exists a f, ents G !! (cr3 v, i, j) = Some (Pg a f)) \/ ready G' (cr3 v, i, j)))).
    { destruct (Done (fun t => t) eq_refl eq_refl (or_introl eq_refl)) as (s' & G' & E & H). exists s', G'. split; [|done].
      assert (Eid : on_task k (fun t => t) s2 = Some s2) by (unfold on_task; rewrite Hk2; cbn [mbind option_bind]; rewrite insert_id by done; clear; by destruct s2).
      by rewrite Eid in E. }
    unfold anonymous in An. rewrite <- Eb in An. change (bnd v2) with (bnd v1). destruct (find_area _ _ _) as [ar|ab tmp].
    + apply negb_true_iff in An. rewrite An. exact Fill.
    + cbn [negb]. destruct ((end_data (bnd v1) <=? _) && _); [exact Fill|].
      destruct (grows_stack v2 ab _ tmp); [by apply (Done (grow ab (Z.land address 0xfffff000))); [..|left]|].
      edestruct (task_keeps ly s2 G1 k (fun t => send_sig SIGSEGV (set_trap (Z.land address 0xfffff000, error_code, 14) t)) v2 I2 Hk2) as (s3 & E3 & _ & I3 & K3 & Hk3); [done|done|].
      destruct (has error_code 4).
      * rewrite E3. cbn [mbind option_bind]. exists s3, G1. split; [done|]. split.
        -- split; [done|]. split; [done|]. left. split; [done|]. exact (keeps_trans _ _ _ _ _ _ _ K1 (keeps_trans _ _ _ _ _ _ _ K2 K3)).
        -- eexists. split; [exact Hk3|]. split; [done|]. left. cbn. rewrite Es. lia.
      * apply (Done (fun t => send_sig SIGSEGV (set_trap (Z.land address 0xfffff000, error_code, 14) t))); [done|done|]. right. cbn. lia.
Qed.
End NoPage.
End VmNoPage.
