(* ===== verification/VmStep.v ===== *)
(** * Virtual memory as a system: what processes and the kernel do, and what processes see

    The operations of [Vm] with the conditions under which the kernel runs them, the
    access of a program to its memory as the processor makes it, and the memory that a
    process sees: what is in the pages of its tables, on the swap areas, and zero where
    there is nothing yet. *)

From S2P Require Import Prelude PageAlloc Vm VmInv VmDir VmRange VmNoPage.
From Stdlib Require Import ZArith Lia.
From stdpp Require Import base list gmap numbers.
Local Open Scope Z_scope.

Module VmStep.
Import PageAlloc Vm VmInv VmDir VmRange VmNoPage.

(** ** What a process sees *)

(** The table entry for page number [n] of task [k]; 0 where there is no table. *)
Definition entry_at (s : vm) (k n : Z) : option Z :=
  t ← tasks s !! k;
  w ← rd (cr3 t) (n / 1024) s;
  if has w PAGE_PRESENT then rd (Z.land w PAGE_MASK) (n mod 1024) s else Some 0.

Definition view (s : vm) (k n : Z) : option (list Z) :=
  e ← entry_at s k n;
  if has e PAGE_PRESENT then page (Z.land e PAGE_MASK) s
  else if e =? 0 then Some zeros else disk s !! e.

(** The word at an address. *)
Definition load (s : vm) (k address : Z) : option Z :=
  f ← view s k (address / 4096); get f (address mod 4096 / 4).

Section Machine.
Context (ly : layout) (has_nopage : Z -> bool) (nopage : Z -> vm_area -> Z -> Z -> vm -> option vm) (shm_no_page : Z -> Z -> vm -> option vm).

(** ** The processor *)

(** A program writes a word.  True: it is written; false: the program gets a signal
    instead.  [n] attempts are left. *)
Fixpoint cpu_write (n : nat) (k address value esp : Z) (s : vm) : option (bool * vm) :=
  match n with
  | O => None
  | S n =>
      t ← tasks s !! k;
      w ← rd (cr3 t) (PAGE_DIR_OFFSET address) s;
      let fault error_code :=
        s ← do_page_fault ly has_nopage nopage shm_no_page k address error_code esp false s;
        t' ← tasks s !! k;
        if (length (sent t') =? length (sent t))%nat then cpu_write n k address value esp s else Some (false, s) in
      if negb (has w PAGE_PRESENT) then fault 6
      else
        let a := Z.land w PAGE_MASK in
        p ← rd a (PAGE_PTR address) s;
        if negb (has p PAGE_PRESENT) then fault 6
        else if negb (has p PAGE_RW) then fault 7
        else
          s ← wr a (PAGE_PTR address) (Z.lor p (Z.lor PAGE_ACCESSED PAGE_DIRTY)) s;
          s ← wr (Z.land p PAGE_MASK) (address mod 4096 / 4) value s;
          Some (true, s)
  end.
(** One fault may take the page to the swap area, the next brings it back. *)
Definition attempts : nat := 3.

(** ** Operations *)

Inductive op :=
| Fork (COPYVM : bool) (k c : Z)
| Exec (k : Z)
| Exit (k : Z)
| Release (k : Z)
| Unmap (k from size : Z)
| Zeromap (k from size mask : Z)
| Fault (k address error_code esp : Z) (vm86 : bool)
| Store (k address value esp : Z)
| SwapOut (priority : Z).

(** The task slot of a process that has no memory any more is given back. *)
Definition release_vm (k : Z) (s : vm) : vm := set_tasks (delete k (tasks s)) s.

Definition run (o : op) (s : vm) : option (Z * vm) :=
  let unit (r : option vm) := s ← r; Some (0, s) in
  match o with
  | Fork COPYVM k c => fork_vm ly COPYVM k c s
  | Exec k => unit (clear_page_tables ly k s)
  | Exit k => unit (free_page_tables ly k s)
  | Release k => Some (0, release_vm k s)
  | Unmap k from size => unmap_page_range k from size s
  | Zeromap k from size mask => zeromap_page_range ly k from size mask s
  | Fault k address error_code esp vm86 => unit (do_page_fault ly has_nopage nopage shm_no_page k address error_code esp vm86 s)
  | Store k address value esp => '(b, s) ← cpu_write attempts k address value esp s; Some (if b : bool then 0 else 1, s)
  | SwapOut priority => '(b, s) ← swap_out priority s; Some (if b : bool then 1 else 0, s)
  end.

(** ** Conditions *)

Definition below (n : nat) : list Z := Z.of_nat <$> seq 0 n.

(** The directory of task [k] is its own and has nothing from a lack of memory. *)
Definition intact (s : vm) (k : Z) : bool :=
  match tasks s !! k with
  | None => false
  | Some t =>
      negb (cr3 t =? swapper_pg_dir ly) &&
      forallb (fun i =>
        match rd (cr3 t) i s with
        | None => false
        | Some w =>
            if negb (has w PAGE_PRESENT) then true
            else negb (Z.land w PAGE_MASK =? empty_bad_page_table ly) && forallb (fun j =>
              match rd (Z.land w PAGE_MASK) j s with
              | None => false
              | Some e => negb (has e PAGE_PRESENT && (Z.land e PAGE_MASK =? empty_bad_page ly))
              end) (below 1024)
        end) (below 768)
  end.

Definition in_range (from size : Z) : bool := (0 <=? from) && (0 <=? size) && (from + size <=? TASK_SIZE).

(** The page may be written by the kernel: if it is there it is one to copy. *)
Definition cow_at (s : vm) (k n : Z) : bool :=
  match entry_at s k n with
  | None => false
  | Some e => negb (has e PAGE_PRESENT) || has e PAGE_COW
  end.

Definition task_anonymous (s : vm) (k address : Z) : bool :=
  match tasks s !! k with None => false | Some t => anonymous has_nopage t address end.

Definition user_address (address : Z) : bool := (0 <=? address) && (address <? TASK_SIZE).

Definition allowed (o : op) (s : vm) : bool :=
  match o with
  | Fork _ k c => intact s k && bool_decide (tasks s !! c = None) && (1 <=? c) && (c <? NR_TASKS) && (size (tasks s) <? 128)%nat
  | Exec k | Exit k => bool_decide (is_Some (tasks s !! k)) && negb (k =? 0)
  | Release k => negb (k =? 0) && match tasks s !! k with Some t => cr3 t =? swapper_pg_dir ly | None => false end
  | Unmap k from size => intact s k && in_range from size
  | Zeromap k from size mask =>
      intact s k && in_range from size && (0 <=? mask) && (mask <? 2 ^ 32) && negb (has mask PAGE_RW) && negb (has mask PAGE_DIRTY)
  | Fault k address error_code esp vm86 =>
      intact s k && user_address address &&
      (if has error_code 1 then negb ((if has error_code 4 && negb vm86 then esp else 0) =? 0) || cow_at s k (address / 4096)
       else task_anonymous s k address)
  | Store k address value esp => intact s k && user_address address && negb (esp =? 0) && task_anonymous s k address
  | SwapOut priority => 0 <=? priority
  end.
End Machine.

(** The process whose directory the operation works on. *)
Definition owner (o : op) : option Z :=
  match o with
  | Fork _ k _ | Unmap k _ _ | Zeromap k _ _ _ | Fault k _ _ _ _ | Store k _ _ _ => Some k
  | _ => None
  end.

(** The operation is none of task [k']'s: it has another directory, or is left alone. *)
Definition apart (o : op) (s : vm) (k' : Z) : bool :=
  match o with
  | Fork _ _ _ | SwapOut _ => true
  | Exec k | Exit k | Release k => negb (k' =? k)
  | Unmap k _ _ | Zeromap k _ _ _ | Fault k _ _ _ _ | Store k _ _ _ =>
      match tasks s !! k, tasks s !! k' with
      | Some t, Some t' => negb (cr3 t' =? cr3 t)
      | _, _ => false
      end
  end.

(** The state is one that the kernel can be in between operations. *)
Definition vm_ok (ly : layout) (s : vm) : Prop := exists G, inv ly s G /\ calm G.
End VmStep.
