(* ===== verification/VmView.v ===== *)
(** * What processes see, from the ghost state

    Between operations the memory that a process sees is the one the ghost state shows,
    if its directory is intact. *)

From S2P Require Import Prelude PageAlloc Vm VmBits VmInv VmCount VmSwap VmReclaim VmAlloc VmTables VmFree VmDir VmCopy VmRange VmFault VmNoPage VmStep.
From Stdlib Require Import ZArith Lia.
From stdpp Require Import base list gmap numbers.
Local Open Scope Z_scope.

Module VmView.
Import PageAlloc Vm VmBits VmInv VmCount VmSwap VmReclaim VmAlloc VmTables VmFree VmDir VmCopy VmRange VmFault VmNoPage VmStep.

(** The pages of the user. *)
Definition upage (n : Z) : Prop := 0 <= n < 768 * 1024.

Lemma upage_index n : upage n -> 0 <= n / 1024 < 768 /\ 0 <= n mod 1024 < 1024 /\ n = n / 1024 * 1024 + n mod 1024.
Proof.
  intros Hn. unfold upage in Hn. assert (D := Z.div_mod n 1024 ltac:(lia)). assert (B := Z.mod_pos_bound n 1024 ltac:(lia)). lia.
Qed.

Definition at_page_nr (d n : Z) : Z * Z * Z := (d, n / 1024, n mod 1024).

Section View.
Context (ly : layout) (s : vm) (G : ghost) (I : inv ly s G) (C : calm G) (k : Z) (t : vtask) (Hk : tasks s !! k = Some t).

Lemma calm_linked x : x ∉ unlinked G.
Proof. rewrite (z_unlinked _ C). apply not_elem_of_empty. Qed.

Section Own.
Context (Hd : cr3 t ∈ dirs G) (Hl : cr3 t ∉ lost G).

Lemma entry_view n : upage n -> entry_at s k n = Some (word_of (ents G !! at_page_nr (cr3 t) n)).
Proof.
  intros Hn. destruct (upage_index n Hn) as (Hi & Hj & _). unfold entry_at, at_page_nr. rewrite Hk. cbn [mbind option_bind].
  rewrite (rd_dir ly s G I _ (n / 1024) Hd) by lia. cbn [mbind option_bind]. destruct (tabs G !! (cr3 t, n / 1024)) as [u|] eqn:Ht.
  - rewrite (tab_linked ly s G _ _ u I Ht (calm_linked _)). destruct (table_word ly s G I _ _ u Ht) as (_ & _ & T3 & T4 & _). rewrite T3, T4.
    by apply (rd_entry ly s G I).
  - rewrite (no_tab_word ly s G _ _ I Hd Hl Hi Ht). change (has 0 PAGE_PRESENT) with false. cbn [negb].
    destruct (ents G !! _) eqn:X; [|done]. destruct (h_ents _ _ _ (i_shape _ _ _ I) _ _ _ _ X) as [[? Y] _]. congruence.
Qed.

Lemma view_seen n : upage n -> view s k n = Some (seen s G (at_page_nr (cr3 t) n)).
Proof.
  intros Hn. unfold view. rewrite (entry_view n Hn). cbn [mbind option_bind]. assert (Go := entry_good ly s G (at_page_nr (cr3 t) n) I).
  rewrite (word_present ly s G _ I Go). assert (Wz := word_zero ly s G (at_page_nr (cr3 t) n) I). unfold seen.
  destruct (ents G !! at_page_nr (cr3 t) n) as [[a f|e]|] eqn:Hx; cbn [word_of].
  - rewrite (proj2 (word_page ly s G a f I Go)). destruct Go as (G1 & _). destruct (m_frames _ _ (i_mem _ _ _ I) a G1) as (g & Hg & _).
    rewrite (page_read s a g); [by rewrite Hg|apply I|done|by eapply cnt_pos|done].
  - cbn [word_of] in Wz. destruct (Z.eqb_spec e 0) as [E0|_]; [by apply Wz in E0|]. destruct (n_swap _ _ _ (i_entries _ _ _ I) _ _ Hx) as [_ (g & Hg & _)]. by rewrite Hg.
  - done.
Qed.

Lemma seen_length x : length (seen s G x) = 1024%nat.
Proof.
  unfold seen. destruct (ents G !! x) as [[a f|e]|] eqn:Hx; [| |done].
  - destruct (m_frames _ _ (i_mem _ _ _ I) a) as (g & Hg & Lg); [by apply (n_page _ _ _ (i_entries _ _ _ I) _ _ _ Hx)|]. by rewrite Hg.
  - destruct (n_swap _ _ _ (i_entries _ _ _ I) _ _ Hx) as [_ (g & Hg & Lg)]. by rewrite Hg.
Qed.
End Own.

(** ** Intact directories *)

Lemma below_in n i : i ∈ below n <-> 0 <= i < Z.of_nat n.
Proof.
  unfold below. rewrite list_elem_of_fmap. split.
  - intros (m & -> & Hm). apply elem_of_seq in Hm. lia.
  - intros Hi. exists (Z.to_nat i). split; [lia|]. apply elem_of_seq. lia.
Qed.

Lemma intact_spec : intact ly s k = true <-> cr3 t ∈ dirs G /\ inv ly s (set_lost (lost G ∖ {[cr3 t]}) G).
Proof.
  unfold intact. rewrite Hk. split.
  - intros H. apply andb_true_iff in H as [Hs H]. apply negb_true_iff, Z.eqb_neq in Hs.
    destruct (h_tasks _ _ _ (i_shape _ _ _ I) k t Hk) as [Hd|]; [|done]. split; [done|]. rewrite forallb_forall in H.
    assert (B : forall i, 0 <= i < 768 -> wd s (cr3 t) i <> empty_bad_page_table ly + PAGE_TABLE).
    { intros i Hi E. specialize (H i (proj1 (list_elem_of_In _ _) (proj2 (below_in 768 i) ltac:(lia)))). rewrite (rd_dir ly s G I _ i Hd) in H by lia. rewrite E in H.
      destruct (m_badt _ _ (i_mem _ _ _ I)) as [Bp _]. assert (Al := page_align s _ Bp). assert (Rg := page_range s _ (m_ok _ _ (i_mem _ _ _ I)) Bp).
      destruct (mask_flags _ PAGE_TABLE Al) as [Mk _]; [change PAGE_TABLE with 39; lia|lia|].
      rewrite (has_flags _ _ Al) in H by (first [change PAGE_TABLE with 39; lia|unfold PAGE_PRESENT; lia]). rewrite Mk, Z.eqb_refl in H. done. }
    destruct I as [M S E Cn W]. split; [done| | |by destruct Cn; split|by apply (swap_inv_ghost s G)].
    + destruct S as [H1 H2 H3 H4 H4' H5 H6 H7 H8 H9 H10]. split; try done. intros d i Hd' Hi. destruct (H5 d i Hd' Hi) as [X|(X & Y & Z)]; [by left|right].
      split; [|done]. apply elem_of_difference. split; [done|]. rewrite elem_of_singleton. intros ->. by apply (B i Hi).
    + destruct E as [E1 E2 E3 E4 E5]. split; try done. intros d i j f Hx. cbn [ents set_lost] in Hx. apply elem_of_difference. split; [by eapply E2|]. rewrite elem_of_singleton. intros ->.
      destruct (h_ents _ _ _ S _ _ _ _ Hx) as [[u Ht] Hj]. destruct (h_tabs _ _ _ S _ _ _ Ht) as (_ & Hi & _).
      assert (I' : inv ly s G) by (by split). specialize (H i (proj1 (list_elem_of_In _ _) (proj2 (below_in 768 i) ltac:(lia)))). rewrite (rd_dir ly s G I' _ i Hd) in H by lia.
      rewrite (tab_linked ly s G _ _ u I' Ht (calm_linked _)) in H. destruct (table_word ly s G I' _ _ u Ht) as (_ & _ & T3 & T4 & _).
      rewrite T3, T4 in H. cbn [negb orb] in H. apply andb_true_iff in H as [_ H]. rewrite forallb_forall in H.
      specialize (H j (proj1 (list_elem_of_In _ _) (proj2 (below_in 1024 j) ltac:(lia)))). rewrite (rd_entry ly s G I' _ i j u Ht Hj), Hx in H.
      assert (Go := entry_good ly s G (cr3 t, i, j) I'). rewrite Hx in Go. rewrite (word_present ly s G _ I' Go) in H. cbn [word_of] in H.
      rewrite (proj2 (word_page ly s G _ f I' Go)), Z.eqb_refl in H. done.
  - intros [Hd I']. apply andb_true_iff. split.
    { apply negb_true_iff, Z.eqb_neq. intros E. rewrite E in Hd. by apply (swapper_not_dir ly s G I). }
    assert (Nl : cr3 t ∉ lost (set_lost (lost G ∖ {[cr3 t]}) G)) by (cbn; rewrite elem_of_difference, elem_of_singleton; tauto).
    apply forallb_forall. intros i Hi. rewrite <- list_elem_of_In, below_in in Hi. rewrite (rd_dir ly s G I _ i Hd) by lia.
    destruct (tabs G !! (cr3 t, i)) as [u|] eqn:Ht; [|by rewrite (no_tab_word ly s _ _ i I' Hd Nl ltac:(lia) Ht)].
    rewrite (tab_linked ly s G _ _ u I Ht (calm_linked _)). destruct (table_word ly s G I _ _ u Ht) as (_ & _ & T3 & T4 & _). rewrite T3, T4. cbn [negb]. apply andb_true_iff. split.
    + apply negb_true_iff, Z.eqb_neq. apply (table_not_kernel ly s G I _ i u Ht), I.
    + apply forallb_forall. intros j Hj. rewrite <- list_elem_of_In, below_in in Hj. rewrite (rd_entry ly s G I _ i j u Ht ltac:(lia)).
      assert (Go := entry_good ly s G (cr3 t, i, j) I). rewrite (word_present ly s G _ I Go). apply negb_true_iff.
      destruct (ents G !! (cr3 t, i, j)) as [[a f|e]|] eqn:Hx; [|done|done]. cbn [word_of andb]. rewrite (proj2 (word_page ly s G a f I Go)).
      apply Z.eqb_neq. intros ->. by apply Nl, (n_lost _ _ _ (i_entries _ _ _ I') _ i j f).
Qed.
End View.
End VmView.
