(* ===== verification/VmBoot.v ===== *)
(** * A small machine

    A state of virtual memory right after boot with one process: forty-eight pages, a swap
    area of seven pages. *)

From S2P Require Import Prelude PageAlloc Vm VmBits VmInv VmCount VmSwap VmReclaim VmAlloc VmTables VmFree VmDir VmCopy VmRange VmFault VmNoPage VmStep VmView.
From Stdlib Require Import ZArith Lia.
From stdpp Require Import base list gmap numbers.
Local Open Scope Z_scope.

Module VmBoot.
Import PageAlloc Vm VmBits VmInv VmCount VmSwap VmReclaim VmAlloc VmTables VmFree VmDir VmCopy VmRange VmFault VmNoPage VmStep VmView.

Definition ly : layout := Layout 0x1000 0x2000 0x3000 0x4000.

(** Forty-eight pages: five of the kernel, the directory of process 1, the rest free. *)
Definition boot_map : list Z := repeat MAP_PAGE_RESERVED 5 ++ [1] ++ repeat 0 42.
Definition boot_mem : mem :=
  default small_mem (link_free 48 0 (Mem 0x30000 boot_map ∅ (Queue 0 0) (Queue 0 0) (repeat 0 32) 0)).

Definition boot_task (cr3 : Z) : vtask :=
  VTask cr3 0 0 0 true (Swapping 0 0 0 0 0) (Bounds [] 0 0 0x10000000 0x100000) (0, 0, 0) [].
Definition boot : vm :=
  VmState boot_mem (list_to_map ((fun i => (4096 * i, zeros)) <$> below 48))
    {[0 := boot_task 0x1000; 1 := boot_task 0x5000]} [SwapInfo 3 (128 :: repeat 0 7) 1 7 8] 7 ∅ 1.

Definition boot_ghost : ghost := Ghost {[0x5000]} ∅ ∅ [] [] ∅ ∅.

Lemma boot_pages a : is_page (pages boot) a -> exists i, a = 4096 * i /\ i ∈ seqZ 1 47.
Proof.
  unfold is_page. replace (high_memory (pages boot)) with 0x30000 by (vm_compute; reflexivity). intros (Ha & Hm). exists (a / 4096).
  assert (D := Z.div_mod a 4096 ltac:(lia)). split; [lia|]. apply elem_of_seqZ. lia.
Qed.

(** What holds of each page holds of all. *)
Lemma boot_each (p : Z -> bool) : forallb (fun i => p (4096 * i)) (seqZ 1 47) = true -> forall a, is_page (pages boot) a -> p a = true.
Proof. intros H a Ha. destruct (boot_pages a Ha) as (i & -> & Hi%list_elem_of_In). exact (proj1 (forallb_forall _ _) H i Hi). Qed.

Lemma boot_mem_ok : mem_ok boot_mem.
Proof.
  set (m := Mem 0x30000 boot_map ∅ (Queue 0 0) (Queue 0 0) (repeat 0 32) 0).
  destruct (link_free_spec 48 0 m []) as (w & q & fl & E & Hc & Hq & Hm); [lia|by vm_compute..| |].
  { intros a. unfold free_below. split; [set_solver|lia]. }
  assert (Eb : boot_mem = set_free q (set_word w m)) by (change boot_mem with (default small_mem (link_free 48 (4096 * 0) m)); by rewrite E).
  rewrite Eb. exists fl, []. clear E Eb.
  constructor; [by vm_compute|by vm_compute| |by vm_compute|exact Hc|by vm_compute| | |exact Hq|by vm_compute|by vm_compute].
  - cbn [set_free set_word mem_map m]. intros i x Hi. unfold get in Hi. case_bool_in Hi; [done|].
    apply list_elem_of_lookup_2, list_elem_of_In in Hi. unfold boot_map in Hi. rewrite !in_app_iff in Hi.
    destruct Hi as [Hi|[[<-|[]]|Hi]]; [apply repeat_spec in Hi as ->| |apply repeat_spec in Hi as ->]; vm_compute; intuition discriminate.
  - intros a _ Hin. set_solver.
  - intros a. rewrite Hm. unfold free_below, is_page. cbn [set_free set_word high_memory m].
    change (count (set_free q (set_word w m)) a) with (count m a). change (4096 * (0 + Z.of_nat 48)) with 0x30000. set_solver.
Qed.

Lemma boot_zero a i : frames boot !! a = Some zeros -> wd boot a i = 0.
Proof.
  unfold wd. intros ->. cbn [mbind option_bind]. destruct (get zeros i) eqn:E; [|done]. cbn. unfold get in E. case_bool_in E; [done|].
  apply list_elem_of_lookup_2, list_elem_of_In in E. by apply repeat_spec in E.
Qed.

Definition boot_frame (a : Z) : bool := (from_option length 0%nat (frames boot !! a) =? 1024)%nat.
Definition boot_count (a : Z) : bool := is_res boot a || (cnt boot a =? refs boot boot_ghost a).

Lemma boot_frames a : is_page (pages boot) a -> boot_frame a = true.
Proof. apply boot_each. vm_compute. reflexivity. Qed.

Lemma boot_counts a : is_page (pages boot) a -> boot_count a = true.
Proof. apply boot_each. vm_compute. reflexivity. Qed.

Lemma boot_mem_inv : mem_inv ly boot.
Proof.
  split.
  - apply boot_mem_ok.
  - intros a Ha. assert (H := boot_frames a Ha). apply Nat.eqb_eq in H.
    destruct (frames boot !! a) as [f|]; [by exists f|discriminate H].
  - by vm_compute.
  - by vm_compute.
  - by vm_compute.
  - by vm_compute.
  - apply (bool_decide_eq_true_1 _). by vm_compute.
  - by vm_compute.
  - intros i Hi. left. by apply boot_zero.
  - exists MAP_PAGE_RESERVED. by vm_compute.
Qed.
Lemma boot_tasks k t : tasks boot !! k = Some t -> k = 0 /\ t = boot_task 0x1000 \/ k = 1 /\ t = boot_task 0x5000.
Proof.
  change (tasks boot) with ({[0 := boot_task 0x1000; 1 := boot_task 0x5000]} : gmap Z vtask).
  rewrite lookup_insert_Some, lookup_singleton_Some. intros [[<- <-]|[_ [<- <-]]]; tauto.
Qed.

Lemma boot_shape : shape ly boot boot_ghost.
Proof.
  assert (Z5 : frames boot !! 0x5000 = Some zeros) by (by vm_compute).
  split; cbn [boot_ghost dirs tabs ents held unlinked lost].
  - intros d ->%elem_of_singleton. by vm_compute.
  - intros d ->%elem_of_singleton. right. exists 1, (boot_task 0x5000). by vm_compute.
  - intros k t [[-> ->]|[-> ->]]%boot_tasks; [by right|left]. by apply elem_of_singleton.
  - vm_compute. lia.
  - by intros k t [[-> ->]|[-> ->]]%boot_tasks.
  - intros d i ->%elem_of_singleton Hi. left. rewrite decide_False by apply not_elem_of_empty. by apply boot_zero.
  - intros d i ->%elem_of_singleton Hi. left. by apply boot_zero.
  - intros d i t. by rewrite lookup_empty.
  - intros x y t. by rewrite lookup_empty.
  - intros d i j p. by rewrite lookup_empty.
  - intros d i t j. by rewrite lookup_empty.
Qed.

Lemma boot_vm_inv : inv ly boot boot_ghost.
Proof.
  split; [apply boot_mem_inv|apply boot_shape|..].
  - split; cbn [boot_ghost ents]; intros *; by rewrite lookup_empty.
  - split; [|set_solver|cbn; lia]. intros a Ha Hr.
    assert (H := boot_counts a Ha). unfold boot_count in H. rewrite Hr in H. by apply Z.eqb_eq.
  - split; [cbn; lia| |set_solver|done]. intros ty p Hp. unfold get in Hp. case_bool_in Hp; [done|].
    destruct (Z.to_nat ty) as [|n] eqn:Et; [|done]. injection Hp as <-. assert (ty = 0) as -> by lia. split; try done.
    intros off c Hc. change (srefs boot_ghost (SWP_ENTRY 0 off)) with 0. unfold get in Hc. case_bool_in Hc; [done|].
    apply list_elem_of_lookup_2, list_elem_of_In in Hc as [<-|Hc]; [by right|]. cbn in Hc. left. intuition lia.
Qed.

Lemma boot_vm_ok : vm_ok ly boot.
Proof. exists boot_ghost. split; [apply boot_vm_inv|]. by split. Qed.
End VmBoot.
