(* ===== verification/VmStore.v ===== *)
(** * Writing to memory

    A write by a program comes to an end after at most two faults; it changes the one
    word of the memory of its process, whoever else had the page. *)

From S2P Require Import Prelude PageAlloc Vm VmBits VmInv VmCount VmSwap VmReclaim VmAlloc VmTables VmFree VmDir VmCopy VmRange VmFault VmNoPage VmStep VmView.
From Stdlib Require Import ZArith Lia.
From stdpp Require Import base list gmap numbers.
Local Open Scope Z_scope.

Module VmStore.
Import PageAlloc Vm VmBits VmInv VmCount VmSwap VmReclaim VmAlloc VmTables VmFree VmDir VmCopy VmRange VmFault VmNoPage VmStep VmView.

(** ** The write itself *)

Section Write.
Context (ly : layout) (s : vm) (G : ghost) (I : inv ly s G) (d i j t : Z) (Ht : tabs G !! (d, i) = Some t) (Hj : 0 <= j < 1024) (Hl : d ∉ lost G).
Context (a f : Z) (Hx : ents G !! (d, i, j) = Some (Pg a f)) (Rw : has f PAGE_RW = true).

Let m := Z.lor PAGE_ACCESSED PAGE_DIRTY.

Lemma writable_page : is_res s a = false /\ cnt s a = 1.
Proof.
  destruct (n_page _ _ _ (i_entries _ _ _ I) _ _ _ Hx) as [N1 N2 N3 N4 N5 N6 N7]. destruct (is_res s a) eqn:R.
  - destruct (N4 eq_refl) as [-> |(_ & W & _)]; [|congruence]. destruct Hl. by apply (n_lost _ _ _ (i_entries _ _ _ I) d i j f).
  - split; [done|]. by apply N6.
Qed.

Lemma store_ok w value : 0 <= w < 1024 ->
  exists s', (s ← wr t j (Z.lor (a + f) m) s; wr a w value s) = Some s'
    /\ inv ly s' (put_in (Some (Pg a (Z.lor f m))) G d i j) /\ keeps (eq (d, i, j)) s G s' (put_in (Some (Pg a (Z.lor f m))) G d i j)
    /\ seen s' (put_in (Some (Pg a (Z.lor f m))) G d i j) (d, i, j) = <[Z.to_nat w := value]> (seen s G (d, i, j)) /\ tasks s' = tasks s.
Proof.
  intros Hw. destruct writable_page as [R C1]. destruct (n_page _ _ _ (i_entries _ _ _ I) _ _ _ Hx) as [N1 N2 N3 N4 N5 N6 N7]. destruct (N5 R) as [Nd Nt].
  destruct (grant_ok ly s G I d i j t Ht Hj a f Hx m R C1) as (-> & I1 & K1); [change m with 96; lia|]. cbn [mbind option_bind].
  set (s1 := upd t j (a + Z.lor f m) s) in *. set (G1 := put_in (Some (Pg a (Z.lor f m))) G d i j) in *.
  destruct (m_frames _ _ (i_mem _ _ _ I1) a N1) as (g & Hg & Lg).
  assert (Hg0 : frames s !! a = Some g) by (rewrite <- Hg; symmetry; apply (data_frame ly s G I d i j t Ht); by right).
  rewrite (wr_ok ly s1 (i_mem _ _ _ I1) a w value) by (first [done|left; split; [done|]; split; [change (cnt s a <> 0); lia|done]]).
  eexists. split; [done|]. assert (Eu : upd a w value s1 = set_frames (<[a := <[Z.to_nat w := value]> g]> (frames s1)) s1) by (unfold upd; by rewrite Hg).
  assert (Only : forall y b h, ents G !! y = Some (Pg b h) -> y <> (d, i, j) -> b <> a).
  { intros y b h Hy Ny ->. by destruct (writable_once ly s G y (d, i, j) a h f I Hy Hx R Rw). }
  split; [|split; [|split; [|done]]].
  - rewrite Eu. apply inv_frame; try done.
    + by rewrite length_insert.
    + intros ->. destruct (m_swapper _ _ (i_mem _ _ _ I)). congruence.
    + intros ->. destruct (m_zero _ _ (i_mem _ _ _ I)). congruence.
    + intros y h Hy. right. cbn [ents G1 put_in set_ents] in Hy. destruct (decide (y = (d, i, j))) as [-> |Ny].
      * rewrite alter_eq in Hy. injection Hy as <-. rewrite has_lor. apply orb_true_r.
      * rewrite alter_ne in Hy by congruence. by destruct (Only _ _ _ Hy Ny).
  - apply (keeps_trans _ s G s1 G1); [eapply keeps_weaken; [exact K1|done]|]. split; try done. intros y Hy. unfold seen. cbn [ents G1 put_in set_ents].
    rewrite alter_ne by done. destruct (ents G !! y) as [[b h|e]|] eqn:Ey; try done. rewrite Eu. cbn. rewrite lookup_insert_ne; [done|].
    intros <-. by apply (Only _ _ _ Ey); [congruence|].
  - unfold seen. cbn [ents G1 put_in set_ents]. rewrite alter_eq, Hx, Hg0, Eu. cbn. by rewrite lookup_insert_eq.
Qed.
End Write.

(** ** With the faults *)

Section Cpu.
Context (ly : layout) (has_nopage : Z -> bool) (nopage : Z -> vm_area -> Z -> Z -> vm -> option vm) (shm_no_page : Z -> Z -> vm -> option vm).
Context (k address value esp : Z) (Ha : 0 <= address < TASK_SIZE) (He : esp <> 0).

Let i := address / 4096 / 1024.
Let j := (address / 4096) mod 1024.
Let w := address mod 4096 / 4.

(** The attempts that the entry may need. *)
Definition need (o : option pte) : nat :=
  match o with Some (Pg _ f) => if has f PAGE_RW then 1 else 3 | _ => 2 end.

Definition stored (v : vtask) (s : vm) (G : ghost) (r : option (bool * vm)) : Prop :=
  exists b s' G', r = Some (b, s') /\ if b : bool then
      inv ly s' G' /\ calm G' /\ lost G' = lost G /\ keeps (eq (cr3 v, i, j)) s G s' G'
      /\ seen s' G' (cr3 v, i, j) = <[Z.to_nat w := value]> (seen s G (cr3 v, i, j))
    else faulted ly (cr3 v) s G s' G'.

Lemma stored_pre v v1 s G s1 G1 r : cr3 v1 = cr3 v -> keeps nothing s G s1 G1 -> lost G1 = lost G -> stored v1 s1 G1 r -> stored v s G r.
Proof.
  intros Ec K El (b & s' & G' & -> & H). rewrite Ec in H. exists b, s', G'. split; [done|]. destruct b; [|by eapply faulted_pre].
  destruct H as (I' & C' & El' & K' & S'). split; [done|]. split; [done|]. split; [congruence|]. split.
  - eapply keeps_trans; [eapply keeps_weaken; [exact K|done]|exact K'].
  - rewrite S'. f_equal. apply (q_seen _ _ _ _ _ K). intros [].
Qed.

Lemma address_index : 0 <= i < 768 /\ 0 <= j < 1024 /\ 0 <= w < 1024 /\ PAGE_DIR_OFFSET address = i /\ PAGE_PTR address = j.
Proof.
  unfold TASK_SIZE in Ha. split; [split; [apply Z.div_pos; [apply Z.div_pos; lia|lia]|apply Z.div_lt_upper_bound; [lia|apply Z.div_lt_upper_bound; lia]]|].
  split; [apply Z.mod_pos_bound; lia|]. assert (B := Z.mod_pos_bound address 4096 ltac:(lia)).
  split; [split; [apply Z.div_pos; lia|apply Z.div_lt_upper_bound; lia]|]. split; [by apply dir_index; lia|by apply ptr_index; lia].
Qed.

Definition next_write (n : nat) (v : vtask) (r : option vm) : option (bool * vm) :=
  s ← r; t' ← tasks s !! k;
  if (length (sent t') =? length (sent v))%nat then cpu_write ly has_nopage nopage shm_no_page n k address value esp s else Some (false, s).

(** What a write needs to go on. *)
Definition can_write (n : nat) (G : ghost) (v : vtask) (d : Z) : Prop := (need (ents G !! (d, i, j)) <= n)%nat
  /\ ((forall a f, ents G !! (d, i, j) = Some (Pg a f) -> has f PAGE_RW = false) -> anonymous has_nopage v address = true).

Section Retry.
Context (n : nat) (IH : forall s G v, inv ly s G -> calm G -> tasks s !! k = Some v -> cr3 v ∈ dirs G -> cr3 v ∉ lost G -> can_write n G v (cr3 v) ->
  stored v s G (cpu_write ly has_nopage nopage shm_no_page n k address value esp s)).
Context (s : vm) (G : ghost) (v : vtask) (I : inv ly s G) (C : calm G) (Hk : tasks s !! k = Some v) (Hd : cr3 v ∈ dirs G) (Hl : cr3 v ∉ lost G).

Lemma retry_ok r : (exists s' G', r = Some s' /\ faulted ly (cr3 v) s G s' G' /\ exists v', tasks s' !! k = Some v' /\ cr3 v' = cr3 v
    /\ ((length (sent v) < length (sent v'))%nat \/ sent v' = sent v /\ lost G' = lost G /\ can_write n G' v' (cr3 v))) ->
  stored v s G (next_write n v r).
Proof.
  intros (s' & G' & -> & Fd & v' & Hv' & Ec & O). unfold next_write. cbn [mbind option_bind]. rewrite Hv'. cbn [mbind option_bind].
  destruct (Nat.eqb_spec (length (sent v')) (length (sent v))) as [El|Nl]; [|by exists false, s', G'].
  destruct O as [O|(Es & Lo & Cw)]; [lia|]. destruct Fd as (I' & C' & Kd).
  assert (K' : keeps nothing s G s' G').
  { destruct Kd as [[_ K']|[El' K']]; [done|]. destruct Hl. rewrite <- Lo, El'. apply elem_of_union. left. by apply elem_of_singleton. }
  apply (stored_pre v v' s G s' G'); try done. apply IH; try done; rewrite ?Ec; [by rewrite (q_dirs _ _ _ _ _ K')|by rewrite Lo|done].
Qed.

Lemma write_absent : (forall a f, ents G !! (cr3 v, i, j) <> Some (Pg a f)) -> anonymous has_nopage v address = true -> (1 <= n)%nat ->
  stored v s G (next_write n v (do_page_fault ly has_nopage nopage shm_no_page k address 6 esp false s)).
Proof.
  intros Np An Hn. apply retry_ok. unfold do_page_fault. destruct (Z.ltb_spec address TASK_SIZE); [|lia]. change (has 6 1) with false. cbv iota.
  destruct (do_no_page_ok ly has_nopage nopage shm_no_page k s G v 6 address I C Hk Hd Hl Ha An) as (s' & G' & E & Fd & v' & Hv' & Ec & O).
  exists s', G'. split; [done|]. split; [done|]. exists v'. split; [done|]. split; [done|]. destruct O as [O|(Es & Lo & [(a & f & X)|(a & f & X & W)])]; [by left|by destruct (Np a f)|].
  right. split; [done|]. split; [done|]. unfold can_write, i, j. rewrite X. cbn [need]. rewrite W. split; [lia|]. intros Y. by rewrite (Y a f eq_refl) in W.
Qed.

Lemma write_protected a f : ents G !! (cr3 v, i, j) = Some (Pg a f) -> has f PAGE_RW = false -> anonymous has_nopage v address = true -> (2 <= n)%nat ->
  stored v s G (next_write n v (do_page_fault ly has_nopage nopage shm_no_page k address 7 esp false s)).
Proof.
  intros Hx Rw An Hn. apply retry_ok. unfold do_page_fault. destruct (Z.ltb_spec address TASK_SIZE); [|lia]. change (has 7 1) with true. change (has 7 4) with true.
  cbn [negb andb]. cbv iota.
  destruct (do_wp_page_ok ly s G k v 7 address esp I C Hk Hd Hl Ha) as (s' & G' & E & Fd & v' & Hv' & Ec & O); [intros; by left|].
  exists s', G'. split; [done|]. split; [done|]. exists v'. split; [done|]. split; [done|]. destruct O as [O|(Es & Eb & Lo & W)]; [by left|right].
  split; [done|]. split; [done|]. unfold writable in W. unfold can_write, i, j. split.
  - destruct (ents G' !! _) as [[b g|e]|]; cbn [need]; [rewrite W|..]; lia.
  - intros _. unfold anonymous in *. by rewrite Eb.
Qed.
End Retry.

Lemma cpu_write_ok : forall n s G v, inv ly s G -> calm G -> tasks s !! k = Some v -> cr3 v ∈ dirs G -> cr3 v ∉ lost G -> can_write n G v (cr3 v) ->
  stored v s G (cpu_write ly has_nopage nopage shm_no_page n k address value esp s).
Proof.
  destruct address_index as (Hi & Hj & Hw & Ei & Ej).
  induction n as [|n IH]; intros s G v I C Hk Hd Hl [Hn An]; [destruct (ents G !! (cr3 v, i, j)) as [[a f|e]|]; cbn in Hn; [destruct (has f PAGE_RW)|..]; lia|].
  cbn [cpu_write]. rewrite Hk. cbn [mbind option_bind]. rewrite Ei, Ej, (rd_dir ly s G I _ i Hd) by lia. cbn [mbind option_bind].
  destruct (tabs G !! (cr3 v, i)) as [t|] eqn:Ht.
  2:{ rewrite (no_tab_word ly s G _ i I Hd Hl Hi Ht). change (has 0 PAGE_PRESENT) with false. cbn [negb].
      assert (X : ents G !! (cr3 v, i, j) = None).
      { destruct (ents G !! (cr3 v, i, j)) eqn:X; [|done]. destruct (h_ents _ _ _ (i_shape _ _ _ I) _ _ _ _ X) as [[? Y] _]. congruence. }
      rewrite X in Hn. cbn in Hn. apply (write_absent n IH s G v I C Hk Hd Hl); [by rewrite X|apply An; by rewrite X|lia]. }
  rewrite (tab_linked ly s G _ i t I Ht (calm_linked G C _)). destruct (table_word ly s G I _ i t Ht) as (_ & _ & T3 & T4 & _). rewrite T3, T4. cbn [negb].
  rewrite (rd_entry ly s G I _ i j t Ht Hj). cbn [mbind option_bind]. assert (Go := entry_good ly s G (cr3 v, i, j) I). rewrite (word_present ly s G _ I Go).
  destruct (ents G !! (cr3 v, i, j)) as [[a f|e]|] eqn:Hx; cbn [negb word_of] in *.
  - rewrite (proj2 (word_page ly s G a f I Go)). destruct Go as (G1 & G2 & _). rewrite (has_flags a f (page_align s a G1) G2) by (unfold PAGE_RW; lia).
    destruct (has f PAGE_RW) eqn:Rw; cbn [negb].
    + destruct (store_ok ly s G I _ i j t Ht Hj Hl a f Hx Rw w value Hw) as (s' & E & I' & K' & S' & T'). destruct (wr t j _ s) as [s1|]; [|done].
      cbn [mbind option_bind] in *. fold w. rewrite E. cbn [mbind option_bind]. exists true, s'. eexists. split; [done|]. split; [exact I'|].
      split; [split; apply C|]. by split_and!.
    + cbn [need] in Hn. rewrite Rw in Hn. apply (write_protected n IH s G v I C Hk Hd Hl a f Hx Rw); [|lia]. apply An. intros b g [= <- <-]. done.
  - apply (write_absent n IH s G v I C Hk Hd Hl); [by rewrite Hx|by apply An|cbn [need] in Hn; lia].
  - apply (write_absent n IH s G v I C Hk Hd Hl); [by rewrite Hx|by apply An|cbn [need] in Hn; lia].
Qed.
End Cpu.
End VmStore.
