(* ===== verification/VmRun.v ===== *)
(** * Every operation keeps the invariant and leaves the other processes alone *)

From S2P Require Import Prelude PageAlloc Vm VmBits VmInv VmCount VmSwap VmReclaim VmAlloc VmTables VmFree VmDir VmCopy VmRange VmFault VmNoPage VmStep VmView VmStore.
From Stdlib Require Import ZArith Lia.
From stdpp Require Import base list gmap numbers.
Local Open Scope Z_scope.

Module VmRun.
Import PageAlloc Vm VmBits VmInv VmCount VmSwap VmReclaim VmAlloc VmTables VmFree VmDir VmCopy VmRange VmFault VmNoPage VmStep VmView VmStore.

(** What an operation leaves. *)
Record ran (ly : layout) (o : op) (s : vm) (G : ghost) (s' : vm) (G' : ghost) : Prop := {
  u_inv : inv ly s' G';
  u_calm : calm G';
  u_lost d : d ∈ lost G' -> d ∈ lost G \/ forall k' t', apart o s k' = true -> tasks s !! k' = Some t' -> cr3 t' <> d;
  u_apart k' t' : apart o s k' = true -> tasks s !! k' = Some t' -> cr3 t' ∉ lost G ->
    exists t2, tasks s' !! k' = Some t2 /\ cr3 t2 = cr3 t' /\ forall i j, seen s' G' (cr3 t', i, j) = seen s G (cr3 t', i, j)
}.

(** An operation on entries of the directory of its own task. *)
Lemma ran_keeps ly o s G s' G' k t D : keeps D s G s' G' -> inv ly s' G' -> calm G' -> lost G' = lost G -> tasks s !! k = Some t ->
  (forall k', apart o s k' = match tasks s !! k, tasks s !! k' with Some t, Some t' => negb (cr3 t' =? cr3 t) | _, _ => false end) ->
  (forall x, D x -> x.1.1 = cr3 t) -> ran ly o s G s' G'.
Proof.
  intros K I' C' El Hk Ap HD. split; [done|done|intros d; rewrite El; by left|].
  intros k' t' Hp Hk' _. rewrite Ap, Hk, Hk' in Hp. apply negb_true_iff, Z.eqb_neq in Hp. destruct (keeps_task _ _ _ _ _ _ _ K Hk') as (t2 & H2 & E2).
  exists t2. split; [done|]. split; [done|]. intros i j. apply K. intros X. apply HD in X. by apply Hp.
Qed.

Lemma ran_faulted ly o s G s' G' k t : faulted ly (cr3 t) s G s' G' -> tasks s !! k = Some t ->
  (forall k', apart o s k' = match tasks s !! k, tasks s !! k' with Some t, Some t' => negb (cr3 t' =? cr3 t) | _, _ => false end) -> ran ly o s G s' G'.
Proof.
  intros (I' & C' & [[El K]|[El K]]) Hk Ap; [by apply (ran_keeps ly o s G s' G' k t nothing)|]. split; [done|done| |].
  - intros d. rewrite El, elem_of_union, elem_of_singleton. intros [-> |?]; [right|by left].
    intros k' t' Hp Hk'. rewrite Ap, Hk, Hk' in Hp. by apply negb_true_iff, Z.eqb_neq in Hp.
  - intros k' t' Hp Hk' Nl. rewrite Ap, Hk, Hk' in Hp. apply negb_true_iff, Z.eqb_neq in Hp. destruct (keeps_task _ _ _ _ _ _ _ K Hk') as (t2 & H2 & E2).
    exists t2. split; [done|]. split; [done|]. intros i j. apply K. unfold lost_or. cbn. rewrite elem_of_union, elem_of_singleton. tauto.
Qed.

(** An operation of a task that keeps the others. *)
Lemma ran_undisturbed ly o s G s' G' (P : Z -> Prop) : inv ly s' G' -> calm G' -> lost G' ⊆ lost G -> undisturbed P s G s' G' ->
  (forall k' t', apart o s k' = true -> tasks s !! k' = Some t' -> P k') -> ran ly o s G s' G'.
Proof.
  intros I' C' Ll U HP. split; [done|done|intros d Hd; left; by apply Ll|]. intros k' t' Hp Hk' _. apply (U k' t'); [by eapply HP|done].
Qed.

Section Run.
Context (ly : layout) (has_nopage : Z -> bool) (nopage : Z -> vm_area -> Z -> Z -> vm -> option vm) (shm_no_page : Z -> Z -> vm -> option vm).

Lemma offset_zero from : 0 <= from < 2 ^ 32 -> Z.land from (Z.lnot PAGE_MASK) = from mod 4096.
Proof.
  intros Hf. assert (B := Z.mod_pos_bound from 4096 ltac:(lia)). assert (L := Z.mod_le from 4096 ltac:(lia) ltac:(lia)).
  assert (X := unmask_flags (from - from mod 4096) (from mod 4096)). replace (from - from mod 4096 + from mod 4096) with from in X by lia. apply X; [|lia|lia].
  rewrite Zminus_mod, Z.mod_mod, Z.sub_diag by lia. done.
Qed.

Context (s : vm) (G : ghost) (I : inv ly s G) (C : calm G) (o : op) (Al : allowed ly has_nopage o s = true).
Context (Ow : forall k t, owner o = Some k -> tasks s !! k = Some t -> cr3 t ∉ lost G).

(** The task of the operation. *)
Lemma owner_task k : owner o = Some k -> intact ly s k = true -> exists t, tasks s !! k = Some t /\ cr3 t ∈ dirs G /\ cr3 t ∉ lost G.
Proof.
  intros Ho Hi. destruct (tasks s !! k) as [t|] eqn:Hk; [|by unfold intact in Hi; rewrite Hk in Hi]. exists t. split; [done|].
  split; [by apply (intact_spec ly s G I C k t Hk)|by apply (Ow k)].
Qed.

Definition runs : Prop := exists r s' G', run ly has_nopage nopage shm_no_page o s = Some (r, s') /\ ran ly o s G s' G'.

Lemma run_fork cp k c : o = Fork cp k c -> runs.
Proof.
  intros Eo. rewrite Eo in Al. cbn [allowed] in Al. rewrite !andb_true_iff, !Z.leb_le, !Z.ltb_lt, bool_decide_eq_true in Al. destruct Al as ((((A1 & A2) & A3) & A4) & A5).
  apply Nat.ltb_lt in A5. destruct (owner_task k) as (t & Hk & Hd & Hl); [by rewrite Eo|done|].
  destruct (fork_vm_ok ly s G I C k c t Hk Hd Hl A2 ltac:(lia) A5 cp) as (r & s' & G' & E & F). unfold runs. rewrite Eo. exists r, s', G'. split; [exact E|].
  assert (Nc : forall k' t', apart (Fork cp k c) s k' = true -> tasks s !! k' = Some t' -> k' <> c) by (intros k' t' _ Hk' ->; congruence).
  destruct F as [(_ & [Sv Ll _ _])|(_ & B & _)].
  - destruct Sv as [b1 b2 b3 _ _ _]. by apply (ran_undisturbed ly _ s G s' G' (fun k' => k' <> c)).
  - destruct B as [b1 b2 b3 b4 _ _ _ _]. by apply (ran_undisturbed ly _ s G s' G' (fun k' => k' <> c)).
Qed.

Lemma run_leave k : o = Exec k \/ o = Exit k \/ o = Release k -> runs.
Proof.
  intros Eo. assert (Ap : forall k' t', apart o s k' = true -> tasks s !! k' = Some t' -> k' <> k).
  { intros k' t' Hp _. destruct Eo as [-> |[-> | ->]]; cbn in Hp; by apply negb_true_iff, Z.eqb_neq in Hp. }
  unfold runs. destruct Eo as [Eo|[Eo|Eo]]; rewrite Eo in *; cbn [allowed] in Al; rewrite !andb_true_iff, negb_true_iff, Z.eqb_neq in Al; destruct Al as [A1 A2].
  - apply bool_decide_eq_true in A1 as [t Hk]. destruct (clear_page_tables_ok ly s G k t I C Hk A2) as (s' & G' & E & [b1 b2 b3 _ _ _] & Ll & _).
    exists 0, s', G'. split; [cbn; by rewrite E|]. by apply (ran_undisturbed ly _ s G s' G' (fun k' => k' <> k)).
  - apply bool_decide_eq_true in A1 as [t Hk]. destruct (free_page_tables_ok ly s G k t I C Hk A2) as (s' & G' & E & [b1 b2 b3 _ _ _] & Ll & _).
    exists 0, s', G'. split; [cbn; by rewrite E|]. apply (ran_undisturbed ly _ s G s' G' (fun k' => k' <> k)); try done. by rewrite Ll.
  - exists 0, (release_vm k s), G. split; [done|]. apply (ran_undisturbed ly _ s G _ G (fun k' => k' <> k)); try done.
    + apply inv_del_task; [done|]. intros t Hk. rewrite Hk in A2. by apply Z.eqb_eq.
    + intros k' v Nk Hv. exists v. split; [cbn; by rewrite lookup_delete_ne|done].
Qed.

Lemma run_range k from size : (o = Unmap k from size \/ exists mask, o = Zeromap k from size mask) -> runs.
Proof.
  intros Eo. assert (A : intact ly s k = true /\ in_range from size = true /\ owner o = Some k).
  { destruct Eo as [-> |[mask ->]]; cbn [allowed] in Al; rewrite !andb_true_iff in Al; tauto. }
  destruct A as (A1 & A2 & A3). unfold in_range in A2. rewrite !andb_true_iff, !Z.leb_le in A2. destruct A2 as ((R1 & R2) & R3). unfold TASK_SIZE in R3.
  destruct (owner_task k A3 A1) as (t & Hk & Hd & Hl).
  assert (Ap : forall k', apart o s k' = match tasks s !! k, tasks s !! k' with Some t, Some t' => negb (cr3 t' =? cr3 t) | _, _ => false end) by (by destruct Eo as [-> |[mask ->]]).
  assert (Stay : ran ly o s G s G) by (by apply (ran_keeps ly o s G s G k t nothing)).
  assert (Wi : forall n x, within (cr3 t) (from / 4096) n x -> x.1.1 = cr3 t) by (by intros n x [? _]).
  unfold runs. destruct Eo as [Eo|[mask Eo]]; rewrite Eo in *.
  - cbn [run]. destruct (decide (from mod 4096 = 0)) as [Hm|Hm].
    + destruct (unmap_page_range_ok ly s G k t from size I C Hk Hd Hl R1 Hm R2 R3) as (s' & G' & E & (I' & C' & El & K & _)). exists 0, s', G'. split; [done|].
      by apply (ran_keeps ly _ s G s' G' k t (within (cr3 t) (from / 4096) (pages_in size))); [..|apply Wi].
    + exists (- EINVAL), s, G. split; [|done]. unfold unmap_page_range. rewrite offset_zero by lia. by destruct (Z.eqb_spec (from mod 4096) 0).
  - cbn [allowed] in Al. rewrite !andb_true_iff, !negb_true_iff, Z.leb_le, Z.ltb_lt in Al. destruct Al as ((((_ & M1) & M2) & M3) & M4). cbn [run].
    set (bad := negb (mask =? 0) && negb (Z.land mask (Z.lor PAGE_MASK PAGE_PRESENT) =? PAGE_PRESENT)). destruct bad eqn:Bad.
    { exists (- EINVAL), s, G. split; [|done]. unfold zeromap_page_range. fold bad. by rewrite Bad. }
    destruct (decide (from mod 4096 = 0)) as [Hm|Hm].
    + destruct (zeromap_page_range_ok ly s G k t from size mask I C Hk Hd Hl R1 Hm R2 R3) as (r & s' & G' & E & (I' & C' & El & K & _)).
      { unfold bad in Bad. apply andb_false_iff in Bad as [B|B]; apply negb_false_iff, Z.eqb_eq in B; [by left|right]. by split_and!. }
      exists r, s', G'. split; [done|]. by apply (ran_keeps ly _ s G s' G' k t (within (cr3 t) (from / 4096) (pages_in size))); [..|apply Wi].
    + exists (- EINVAL), s, G. split; [|done]. unfold zeromap_page_range. fold bad. rewrite Bad. rewrite offset_zero by lia.
      destruct (Z.eqb_spec (from mod 4096) 0); [done|]. cbn [negb]. destruct (Z.eqb_spec mask 0); [done|]. cbn [negb]. unfold clear_reserved.
      rewrite insert_id by apply I. clear. by destruct s.
Qed.

Lemma fault_ok k address ec esp vm86 : o = Fault k address ec esp vm86 ->
  exists t s' G', tasks s !! k = Some t /\ cr3 t ∈ dirs G /\ (cr3 t ∉ lost G) /\ do_page_fault ly has_nopage nopage shm_no_page k address ec esp vm86 s = Some s'
    /\ faulted ly (cr3 t) s G s' G' /\ outcome k t s' (lost G' = lost G).
Proof.
  intros Eo. assert (Al' := Al). rewrite Eo in Al'. cbn [allowed] in Al'. rewrite !andb_true_iff in Al'. destruct Al' as ((A1 & A2) & A3).
  unfold user_address in A2. rewrite andb_true_iff, Z.leb_le, Z.ltb_lt in A2. destruct (owner_task k ltac:(by rewrite Eo) A1) as (t & Hk & Hd & Hl).
  exists t. unfold do_page_fault. destruct (Z.ltb_spec address TASK_SIZE); [|lia]. destruct (has ec 1).
  - set (ue := if has ec 4 && negb vm86 then esp else 0) in *.
    destruct (do_wp_page_ok ly s G k t ec address ue I C Hk Hd Hl A2) as (s' & G' & -> & Fd & v & Hv & Ev & O).
    { intros a f Hx. apply orb_true_iff in A3 as [A3|A3]; [left; by apply negb_true_iff, Z.eqb_neq in A3|right]. unfold cow_at in A3.
      assert (Up : upage (address / 4096)) by (unfold TASK_SIZE in A2; split; [apply Z.div_pos; lia|apply Z.div_lt_upper_bound; lia]).
      rewrite (entry_view ly s G I C k t Hk Hd Hl _ Up) in A3. unfold at_page_nr in A3. rewrite Hx in A3. assert (Go := entry_good ly s G (cr3 t, address / 4096 / 1024, (address / 4096) mod 1024) I). rewrite Hx in Go.
      rewrite (word_present ly s G _ I Go) in A3. cbn [negb orb word_of] in A3. destruct Go as (G1 & G2 & _).
      rewrite (has_flags a f (page_align s a G1) G2) in A3 by (unfold PAGE_COW; lia). done. }
    exists s', G'. split_and!; try done. exists v. split_and!; try done. destruct O as [?|(? & _ & ? & _)]; [by left|by right].
  - unfold task_anonymous in A3. rewrite Hk in A3.
    destruct (do_no_page_ok ly has_nopage nopage shm_no_page k s G t ec address I C Hk Hd Hl A2 A3) as (s' & G' & -> & Fd & v & Hv & Ev & O).
    exists s', G'. split_and!; try done. exists v. split_and!; try done. destruct O as [?|(? & ? & _)]; [by left|by right].
Qed.

Lemma run_fault k address ec esp vm86 : o = Fault k address ec esp vm86 -> runs.
Proof.
  intros Eo. destruct (fault_ok k address ec esp vm86 Eo) as (t & s' & G' & Hk & _ & _ & E & Fd & _). unfold runs. rewrite Eo. cbn [run]. rewrite E.
  exists 0, s', G'. split; [done|]. by apply (ran_faulted ly _ s G s' G' k t).
Qed.

Lemma cpu_store_ok k address value esp : o = Store k address value esp -> exists t, tasks s !! k = Some t /\ cr3 t ∈ dirs G /\ (cr3 t ∉ lost G) /\ 0 <= address < TASK_SIZE
  /\ stored ly address value t s G (cpu_write ly has_nopage nopage shm_no_page attempts k address value esp s).
Proof.
  intros Eo. assert (Al' := Al). rewrite Eo in Al'. cbn [allowed] in Al'. rewrite !andb_true_iff, negb_true_iff, Z.eqb_neq in Al'. destruct Al' as (((A1 & A2) & A3) & A4).
  unfold user_address in A2. rewrite andb_true_iff, Z.leb_le, Z.ltb_lt in A2. destruct (owner_task k ltac:(by rewrite Eo) A1) as (t & Hk & Hd & Hl).
  unfold task_anonymous in A4. rewrite Hk in A4. exists t. split; [done|]. split; [done|]. split; [done|]. split; [done|].
  apply cpu_write_ok; try done. split; [|done]. unfold attempts, need. destruct (ents G !! _) as [[a f|e]|]; [destruct (has f PAGE_RW)|..]; lia.
Qed.

Lemma run_store k address value esp : o = Store k address value esp -> runs.
Proof.
  intros Eo. destruct (cpu_store_ok k address value esp Eo) as (t & Hk & Hd & Hl & _ & b & s' & G' & E & H). unfold runs. rewrite Eo. cbn [run]. rewrite E. cbn [mbind option_bind].
  eexists _, s', G'. split; [done|]. destruct b; [|by apply (ran_faulted ly _ s G s' G' k t)]. destruct H as (I' & C' & El & K & _).
  apply (ran_keeps ly _ s G s' G' k t _ K); try done. by intros x <-.
Qed.

Lemma run_swap priority : o = SwapOut priority -> runs.
Proof.
  intros Eo. unfold runs. rewrite Eo. cbn [run]. destruct (swap_out_loop_ok ly (S (Z.to_nat (Z.shiftr (NR_TASKS * 2) priority))) s G I (calm_light G C)) as (b & s' & G' & E & I' & R & _).
  unfold swap_out. rewrite E. cbn [mbind option_bind]. eexists _, s', G'. split; [done|]. assert (K := kept_keeps nothing _ _ _ _ (reclaimed_kept _ _ _ _ R)).
  destruct (r_ghost _ _ _ _ R) as [es Eg]. apply (ran_undisturbed ly _ s G s' G' (fun _ => True)); try done.
  - rewrite Eg. split; apply C.
  - by rewrite Eg.
  - apply (keeps_undisturbed _ _ _ _ _ _ K). intros ? ? ? ? _ _ [].
Qed.

Lemma run_ok : runs.
Proof.
  assert (Eo : exists o', o = o') by (by eexists). destruct Eo as [o' Eo].
  destruct o' as [cp k c|k|k|k|k from size|k from size mask|k address ec esp vm86|k address value esp|priority].
  - by apply (run_fork cp k c).
  - apply (run_leave k). by left.
  - apply (run_leave k). by right; left.
  - apply (run_leave k). by right; right.
  - apply (run_range k from size). by left.
  - apply (run_range k from size). right. by exists mask.
  - by apply (run_fault k address ec esp vm86).
  - by apply (run_store k address value esp).
  - by apply (run_swap priority).
Qed.
End Run.

(** ** The same, between states that are in order *)

(** The ghost state can be taken such that the given tasks are not lost. *)
Lemma settle ly s G k : inv ly s G -> calm G -> intact ly s k = true ->
  exists G1, inv ly s G1 /\ calm G1 /\ lost G1 ⊆ lost G /\ (forall x, seen s G1 x = seen s G x) /\ forall t, tasks s !! k = Some t -> cr3 t ∈ dirs G1 /\ cr3 t ∉ lost G1.
Proof.
  intros I C Hi. destruct (tasks s !! k) as [t|] eqn:Hk; [|by unfold intact in Hi; rewrite Hk in Hi].
  destruct (proj1 (intact_spec ly s G I C k t Hk) Hi) as [Hd I1]. exists (set_lost (lost G ∖ {[cr3 t]}) G). split; [done|]. split; [split; apply C|].
  split; [intros x Hx; by apply elem_of_difference in Hx as [Hx _]|]. split; [done|]. intros t' [= <-]. split; [done|]. cbn. rewrite elem_of_difference, elem_of_singleton. tauto.
Qed.

Lemma intact_not_lost ly s G k t : inv ly s G -> calm G -> tasks s !! k = Some t -> cr3 t ∈ dirs G -> cr3 t ∉ lost G -> intact ly s k = true.
Proof.
  intros I C Hk Hd Hl. apply (intact_spec ly s G I C k t Hk). split; [done|]. replace (set_lost (lost G ∖ {[cr3 t]}) G) with G; [done|].
  destruct G as [ds ts es K KS U l]. unfold set_lost. cbn in *. f_equal. apply leibniz_equiv. intros x. rewrite elem_of_difference, elem_of_singleton. split; [|tauto].
  intros Hx. split; [done|]. by intros ->.
Qed.

Lemma owner_settled ly has_nopage s o : vm_ok ly s -> allowed ly has_nopage o s = true ->
  exists G, inv ly s G /\ calm G /\ forall k t, owner o = Some k -> tasks s !! k = Some t -> cr3 t ∉ lost G.
Proof.
  intros (G & I & C) Al. destruct (owner o) as [k|] eqn:Ow; [|by exists G].
  assert (Hi : intact ly s k = true) by (destruct o; try done; cbn [allowed owner] in *; injection Ow as <-; rewrite ?andb_true_iff in Al; tauto).
  destruct (settle ly s G k I C Hi) as (G1 & I1 & C1 & _ & _ & H). exists G1. split; [done|]. split; [done|]. intros k' t [= <-] Hk. by apply H.
Qed.
End VmRun.
