(* ===== verification/VmProps.v ===== *)
(** * Virtual memory: properties

    Memory safety of every operation, isolation of processes, and what [fork], a write,
    and the functions on ranges do to the memory that a process sees. *)

From S2P Require Import Prelude PageAlloc Vm VmBits VmInv VmCount VmSwap VmReclaim VmAlloc VmTables VmFree VmDir VmCopy VmRange VmFault VmNoPage VmStep VmView VmStore VmRun VmBoot.
From Stdlib Require Import ZArith Lia.
From stdpp Require Import base list gmap numbers.
Local Open Scope Z_scope.

Module VmProps.
Import PageAlloc Vm VmBits VmInv VmCount VmSwap VmReclaim VmAlloc VmTables VmFree VmDir VmCopy VmRange VmFault VmNoPage VmStep VmView VmStore VmRun VmBoot.

(** Task [k] has memory of its own before and after, and sees the same. *)
Definition same_memory (ly : layout) (k : Z) (s s' : vm) : Prop :=
  intact ly s' k = true /\ forall n, upage n -> view s' k n = view s k n.

Lemma task_dir ly s G k t s' G' t' : inv ly s G -> inv ly s' G' -> cr3 t ∈ dirs G -> tasks s' !! k = Some t' -> cr3 t' = cr3 t -> cr3 t' ∈ dirs G'.
Proof.
  intros I I' Hd Hk' E. destruct (h_tasks _ _ _ (i_shape _ _ _ I') k t' Hk') as [?|X]; [done|].
  destruct (swapper_not_dir ly s G I). congruence.
Qed.

Lemma same_seen ly s G s' G' k t t' : inv ly s G -> calm G -> tasks s !! k = Some t -> cr3 t ∈ dirs G -> cr3 t ∉ lost G ->
  inv ly s' G' -> calm G' -> tasks s' !! k = Some t' -> cr3 t' = cr3 t -> cr3 t ∉ lost G' ->
  (forall i j, seen s' G' (cr3 t, i, j) = seen s G (cr3 t, i, j)) -> same_memory ly k s s'.
Proof.
  intros I C Hk Hd Hl I' C' Hk' E Hl' S. assert (Hd' := task_dir ly s G k t s' G' t' I I' Hd Hk' E). rewrite <- E in Hl'. split.
  - by apply (intact_not_lost ly s' G' k t').
  - intros n Hn. rewrite (view_seen ly s' G' I' C' k t' Hk' Hd' Hl' n Hn), (view_seen ly s G I C k t Hk Hd Hl n Hn). unfold at_page_nr. by rewrite E, S.
Qed.

Lemma intact_task ly s k : intact ly s k = true -> exists t, tasks s !! k = Some t.
Proof. unfold intact. destruct (tasks s !! k) as [t|]; [by exists t|done]. Qed.

Section Props.
Context (ly : layout) (has_nopage : Z -> bool) (nopage : Z -> vm_area -> Z -> Z -> vm -> option vm) (shm_no_page : Z -> Z -> vm -> option vm).

(** A ghost state in which the owner of the operation and task [k'] are not lost. *)
Lemma both_settled s o k' : vm_ok ly s -> allowed ly has_nopage o s = true -> intact ly s k' = true ->
  exists G t', inv ly s G /\ calm G /\ (forall k t, owner o = Some k -> tasks s !! k = Some t -> cr3 t ∉ lost G)
    /\ tasks s !! k' = Some t' /\ cr3 t' ∈ dirs G /\ cr3 t' ∉ lost G.
Proof.
  intros Ok Al Hi. destruct (owner_settled ly has_nopage s o Ok Al) as (G & I & C & Ow). destruct (settle ly s G k' I C Hi) as (G1 & I1 & C1 & Ll & _ & H).
  destruct (intact_task ly s k' Hi) as [t' Hk']. exists G1, t'. destruct (H t' Hk'). split_and!; try done. intros k t Hk Ht X. by apply (Ow k t Hk Ht), Ll.
Qed.

Lemma run_isolated s o k' r s' : vm_ok ly s -> allowed ly has_nopage o s = true -> run ly has_nopage nopage shm_no_page o s = Some (r, s') ->
  intact ly s k' = true -> apart o s k' = true -> same_memory ly k' s s'.
Proof.
  intros Ok Al E Hi Ap. destruct (both_settled s o k' Ok Al Hi) as (G & t' & I & C & Ow & Hk' & Hd & Hl).
  destruct (run_ok ly has_nopage nopage shm_no_page s G I C o Al Ow) as (r1 & s1 & G1 & E1 & [I1 C1 L1 A1]).
  rewrite E in E1. injection E1 as <- <-. destruct (A1 k' t' Ap Hk' Hl) as (t2 & Hk2 & E2 & S2).
  apply (same_seen ly s G s' G1 k' t' t2); try done. intros X. destruct (L1 _ X) as [?|N]; [done|]. by apply (N k' t').
Qed.
(** ** Sequences of operations *)

Inductive vm_reach (s : vm) : vm -> Prop :=
| vm_start : vm_reach s s
| vm_then s1 o r s2 : vm_reach s s1 -> allowed ly has_nopage o s1 = true ->
    run ly has_nopage nopage shm_no_page o s1 = Some (r, s2) -> vm_reach s s2.

Lemma run_safe s o : vm_ok ly s -> allowed ly has_nopage o s = true ->
  exists r s', run ly has_nopage nopage shm_no_page o s = Some (r, s') /\ vm_ok ly s'.
Proof.
  intros Ok Al. destruct (owner_settled ly has_nopage s o Ok Al) as (G & I & C & Ow).
  destruct (run_ok ly has_nopage nopage shm_no_page s G I C o Al Ow) as (r & s' & G' & E & [I' C' _ _]). exists r, s'. split; [done|]. by exists G'.
Qed.

Lemma run_keeps_ok s o r s' : vm_ok ly s -> allowed ly has_nopage o s = true -> run ly has_nopage nopage shm_no_page o s = Some (r, s') -> vm_ok ly s'.
Proof. intros Ok Al E. destruct (run_safe s o Ok Al) as (r1 & s1 & E1 & Ok1). rewrite E in E1. by injection E1 as <- <-. Qed.

Lemma vm_reach_ok s s' : vm_ok ly s -> vm_reach s s' -> vm_ok ly s'.
Proof. intros Ok. induction 1; [done|]. by eapply run_keeps_ok. Qed.

(** ** What the operations do *)

(** The memory of a task that is not lost, with words. *)
Lemma settled_view s k : vm_ok ly s -> intact ly s k = true ->
  exists G t, inv ly s G /\ calm G /\ tasks s !! k = Some t /\ cr3 t ∈ dirs G /\ (cr3 t ∉ lost G)
    /\ forall n, upage n -> view s k n = Some (seen s G (at_page_nr (cr3 t) n)).
Proof.
  intros (G & I & C) Hi. destruct (settle ly s G k I C Hi) as (G1 & I1 & C1 & _ & _ & H). destruct (intact_task ly s k Hi) as [t Hk].
  destruct (H t Hk) as [Hd Hl]. exists G1, t. split_and!; try done. intros n. by apply (view_seen ly s G1).
Qed.

(** The child of a fork. *)
Lemma fork_ran s COPYVM k c r s' : vm_ok ly s -> allowed ly has_nopage (Fork COPYVM k c) s = true -> run ly has_nopage nopage shm_no_page (Fork COPYVM k c) s = Some (r, s') ->
  r = 0 /\ intact ly s' c = true /\ (forall n, upage n -> view s' c n = view s k n)
    /\ (exists t v, tasks s' !! k = Some t /\ tasks s' !! c = Some v /\ (cr3 t =? cr3 v) = negb COPYVM)
  \/ r = - EAGAIN /\ tasks s' !! c = None.
Proof.
  intros Ok Al E. assert (Al' := Al). cbn [allowed] in Al'. rewrite !andb_true_iff, !Z.leb_le, !Z.ltb_lt, bool_decide_eq_true, Nat.ltb_lt in Al'. destruct Al' as ((((A1 & A2) & A3) & A4) & A5).
  destruct (settled_view s k Ok A1) as (G & t & I & C & Hk & Hd & Hl & V).
  destruct (fork_vm_ok ly s G I C k c t Hk Hd Hl A2 ltac:(lia) A5 COPYVM) as (r1 & s1 & G1 & E1 & F). cbn [run] in E. rewrite E in E1. injection E1 as <- <-.
  destruct F as [(-> & [[b1 b2 b3 _ _ _] Ll (v & Hv & Sn) Nl Ow])|(-> & _ & Hn)]; [left|by right]. split; [done|]. specialize (Nl v Hv). specialize (Ow v Hv).
  destruct Nl as [Nd Nl]. split; [by apply (intact_not_lost ly s' G1 c v)|]. split.
  2: { destruct (b3 k t ltac:(congruence) Hk) as (t1 & Hk1 & E1 & _). exists t1, v. split; [done|]. split; [done|]. rewrite E1.
    destruct COPYVM; [by apply Z.eqb_neq, (Ow k)|by apply Z.eqb_eq]. }
  intros n Hn. rewrite V, (view_seen ly s' G1 b1 b2 c v Hv Nd Nl n Hn) by done. unfold at_page_nr. by rewrite Sn.
Qed.
(** The task has got a signal. *)
Definition signalled (k : Z) (s s' : vm) : Prop :=
  exists t t', tasks s !! k = Some t /\ tasks s' !! k = Some t' /\ length (sent t') <> length (sent t).

Lemma cpu_write_signal n k address value esp s s' : cpu_write ly has_nopage nopage shm_no_page n k address value esp s = Some (false, s') -> signalled k s s'.
Proof.
  revert s. induction n as [|n IH]; intros s; cbn [cpu_write]; [done|]. destruct (tasks s !! k) as [t|] eqn:Hk; [|done]. cbn [mbind option_bind].
  assert (Ft : forall ec, (s0 ← do_page_fault ly has_nopage nopage shm_no_page k address ec esp false s; t' ← tasks s0 !! k;
    if (length (sent t') =? length (sent t))%nat then cpu_write ly has_nopage nopage shm_no_page n k address value esp s0 else Some (false, s0)) = Some (false, s') -> signalled k s s').
  { intros ec. destruct (do_page_fault ly has_nopage nopage shm_no_page k address ec esp false s) as [s0|]; [|done]. cbn [mbind option_bind].
    destruct (tasks s0 !! k) as [t'|] eqn:Hk'; [|done]. cbn [mbind option_bind]. destruct (Nat.eqb_spec (length (sent t')) (length (sent t))) as [El|Nl].
    - intros (u & u' & Hu & Hu' & N)%IH. exists t, u'. split_and!; [done|done|]. assert (u = t') as -> by congruence. congruence.
    - intros [= <-]. by exists t, t'. }
  destruct (rd (cr3 t) (PAGE_DIR_OFFSET address) s) as [w|]; [|done]. cbn [mbind option_bind].
  destruct (negb (has w PAGE_PRESENT)); [apply Ft|]. destruct (rd (Z.land w PAGE_MASK) (PAGE_PTR address) s) as [e|]; [|done]. cbn [mbind option_bind].
  destruct (negb (has e PAGE_PRESENT)); [apply Ft|]. destruct (negb (has e PAGE_RW)); [apply Ft|].
  destruct (wr (Z.land w PAGE_MASK) (PAGE_PTR address) _ s) as [s1|]; [|done]. cbn [mbind option_bind]. by destruct (wr _ _ _ s1).
Qed.

(** The view of task [k] in which the word at [address] is [value]. *)
Definition view_with (address value : Z) (s : vm) (k n : Z) : option (list Z) :=
  if n =? address / 4096 then <[Z.to_nat (address mod 4096 / 4) := value]> <$> view s k n else view s k n.

(** C9: A program that writes a word of its memory has it written after at most two page
    faults, and no other word of its memory changes; or it gets a signal. *)
Theorem store_writes s k address value esp : vm_ok ly s -> allowed ly has_nopage (Store k address value esp) s = true ->
  exists r s', run ly has_nopage nopage shm_no_page (Store k address value esp) s = Some (r, s') /\
    (r = 0 /\ intact ly s' k = true /\ (forall n, upage n -> view s' k n = view_with address value s k n) /\ load s' k address = Some value
     \/ r = 1 /\ signalled k s s').
Proof.
  intros Ok Al. destruct (owner_settled ly has_nopage s _ Ok Al) as (G & I & C & Ow).
  destruct (cpu_store_ok ly has_nopage nopage shm_no_page s G I C _ Al Ow k address value esp eq_refl) as (t & Hk & Hd & Hl & Ha & b & s' & G' & E & H).
  cbn [run]. rewrite E. cbn [mbind option_bind]. eexists _, s'. split; [done|]. destruct b; [left|right; split; [done|]; by eapply cpu_write_signal].
  destruct H as (I' & C' & El & K & W). destruct (keeps_task _ _ _ _ _ _ _ K Hk) as (t' & Hk' & Ec).
  assert (Hd' := task_dir ly s G k t s' G' t' I I' Hd Hk' Ec). assert (Hl' : cr3 t' ∉ lost G') by (by rewrite Ec, El).
  assert (V : forall n, upage n -> view s' k n = view_with address value s k n).
  { intros n Hn. unfold view_with. rewrite (view_seen ly s' G' I' C' k t' Hk' Hd' Hl' n Hn), (view_seen ly s G I C k t Hk Hd Hl n Hn), Ec. cbn [fmap option_fmap option_map].
    unfold at_page_nr. destruct (Z.eqb_spec n (address / 4096)) as [-> |N]; [by rewrite W|]. f_equal. apply K. intros [= X Y]. apply N.
    rewrite (Z.div_mod n 1024), (Z.div_mod (address / 4096) 1024) by lia. congruence. }
  split; [done|]. split; [by apply (intact_not_lost ly s' G' k t')|]. split; [done|].
  assert (Up : upage (address / 4096)) by (unfold TASK_SIZE in Ha; split; [apply Z.div_pos; lia|apply Z.div_lt_upper_bound; lia]).
  unfold load. rewrite V by done. unfold view_with. rewrite Z.eqb_refl, (view_seen ly s G I C k t Hk Hd Hl _ Up). cbn [fmap option_fmap option_map mbind option_bind].
  assert (B := Z.mod_pos_bound address 4096 ltac:(lia)). unfold get. destruct (Z.ltb_spec (address mod 4096 / 4) 0) as [X|X]; [assert (0 <= address mod 4096 / 4) by (apply Z.div_pos; lia); lia|].
  apply list_lookup_insert_eq. rewrite (seen_length ly s G I). assert (address mod 4096 / 4 < 1024) by (apply Z.div_lt_upper_bound; lia). lia.
Qed.
(** Page number [n] is one of the range. *)
Definition ranged (from size n : Z) : bool := (from / 4096 <=? n) && (n <? from / 4096 + pages_in size).

Lemma ranged_within d from size n : upage n -> ranged from size n = true <-> within d (from / 4096) (pages_in size) (at_page_nr d n).
Proof.
  intros Hn. destruct (upage_index n Hn) as (_ & Hj & E). unfold ranged, within, at_page_nr. cbn. rewrite andb_true_iff, Z.leb_le, Z.ltb_lt, <- E. tauto.
Qed.

Lemma range_args k from size (s : vm) : intact ly s k && in_range from size = true -> intact ly s k = true /\ 0 <= from /\ 0 <= size /\ from + size <= TASK_SIZE.
Proof. unfold in_range. rewrite !andb_true_iff, !Z.leb_le. tauto. Qed.

(** What is outside of the range stays. *)
Lemma range_outside s G s' G' k t from size : inv ly s G -> calm G -> tasks s !! k = Some t -> cr3 t ∈ dirs G -> cr3 t ∉ lost G ->
  inv ly s' G' -> calm G' -> lost G' = lost G -> keeps (within (cr3 t) (from / 4096) (pages_in size)) s G s' G' ->
  intact ly s' k = true /\ forall n, upage n -> view s' k n = Some (seen s' G' (at_page_nr (cr3 t) n)) /\ entry_at s' k n = Some (word_of (ents G' !! at_page_nr (cr3 t) n))
    /\ (ranged from size n = false -> view s' k n = view s k n).
Proof.
  intros I C Hk Hd Hl I' C' El K. destruct (keeps_task _ _ _ _ _ _ _ K Hk) as (t' & Hk' & Ec).
  assert (Hd' := task_dir ly s G k t s' G' t' I I' Hd Hk' Ec). assert (Hl' : cr3 t' ∉ lost G') by (by rewrite Ec, El).
  split; [by apply (intact_not_lost ly s' G' k t')|]. intros n Hn. assert (V := view_seen ly s' G' I' C' k t' Hk' Hd' Hl' n Hn).
  assert (E := entry_view ly s' G' I' C' k t' Hk' Hd' Hl' n Hn). rewrite Ec in V, E. split; [done|]. split; [done|]. intros Hr.
  rewrite V, (view_seen ly s G I C k t Hk Hd Hl n Hn). f_equal. apply K. intros X%(ranged_within _ _ _ _ Hn). congruence.
Qed.

(** [unmap_page_range] leaves no entry in the range, and what the process sees outside
    of it stays. *)
Theorem unmap_clears s k from size : vm_ok ly s -> allowed ly has_nopage (Unmap k from size) s = true -> from mod 4096 = 0 ->
  exists s', run ly has_nopage nopage shm_no_page (Unmap k from size) s = Some (0, s') /\ intact ly s' k = true
    /\ forall n, upage n -> if ranged from size n then entry_at s' k n = Some 0 else view s' k n = view s k n.
Proof.
  intros Ok Al Hm. destruct (range_args k from size s Al) as (A1 & R1 & R2 & R3). destruct (settled_view s k Ok A1) as (G & t & I & C & Hk & Hd & Hl & V).
  destruct (unmap_page_range_ok ly s G k t from size I C Hk Hd Hl R1 Hm R2 R3) as (s' & G' & E & (I' & C' & El & K & N & _)). exists s'. split; [exact E|].
  destruct (range_outside s G s' G' k t from size) as [Hi H]; try done. split; [done|]. intros n Hn. destruct (H n Hn) as (_ & En & O).
  destruct (ranged from size n) eqn:Hr; [|by apply O]. rewrite En, (N (at_page_nr (cr3 t) n)); [done|]. by apply ranged_within.
Qed.

(** [zeromap_page_range] makes the pages of the range zero, and what the process sees
    outside of it stays, also when there is no memory for a table. *)
Theorem zeromap_zeros s k from size mask : vm_ok ly s -> allowed ly has_nopage (Zeromap k from size mask) s = true -> from mod 4096 = 0 ->
  mask = 0 \/ Z.land mask (Z.lor PAGE_MASK PAGE_PRESENT) = PAGE_PRESENT ->
  exists r s', run ly has_nopage nopage shm_no_page (Zeromap k from size mask) s = Some (r, s') /\ intact ly s' k = true /\ (r = 0 \/ r = - ENOMEM)
    /\ forall n, upage n -> if ranged from size n then r = 0 -> view s' k n = Some zeros else view s' k n = view s k n.
Proof.
  intros Ok Al Hm Hmask. assert (Al' := Al). cbn [allowed] in Al'. rewrite !andb_true_iff, !negb_true_iff, Z.leb_le, Z.ltb_lt in Al'. destruct Al' as ((((A & M1) & M2) & M3) & M4).
  apply andb_true_iff in A. destruct (range_args k from size s A) as (A1 & R1 & R2 & R3). destruct (settled_view s k Ok A1) as (G & t & I & C & Hk & Hd & Hl & V).
  destruct (zeromap_page_range_ok ly s G k t from size mask I C Hk Hd Hl R1 Hm R2 R3) as (r & s' & G' & E & (I' & C' & El & K & Z0)).
  { destruct Hmask as [?|?]; [by left|right]. by split_and!. }
  exists r, s'. split; [exact E|]. destruct (range_outside s G s' G' k t from size) as [Hi H]; try done. split; [done|].
  split; [destruct Z0 as [[? _]|?]; tauto|]. intros n Hn. destruct (H n Hn) as (Vn & _ & O). destruct (ranged from size n) eqn:Hr; [|by apply O].
  intros R0. destruct Z0 as [[_ Z0]|X]; [|subst r; done]. rewrite Vn, Z0; [done|]. by apply ranged_within.
Qed.

(** After [clear_page_tables] the process has none of its old memory, or it is killed. *)
Theorem exec_clears s k : vm_ok ly s -> intact ly s k = true -> k <> 0 ->
  exists s' t t', run ly has_nopage nopage shm_no_page (Exec k) s = Some (0, s') /\ tasks s !! k = Some t /\ tasks s' !! k = Some t' /\
    (sent t' = SIGKILL :: sent t \/ intact ly s' k = true /\ forall n, upage n -> view s' k n = Some zeros).
Proof.
  intros Ok Hi K0. destruct (settled_view s k Ok Hi) as (G & t & I & C & Hk & Hd & Hl & V).
  destruct (clear_page_tables_ok ly s G k t I C Hk K0) as (s' & G' & E & [b1 b2 _ _ _ _] & _ & t' & Hk' & H).
  exists s', t, t'. cbn [run]. rewrite E. split; [done|]. split; [done|]. split; [done|]. destruct H as [?|[Z0 N]]; [by left|right].
  destruct (N Hd Hl) as [Hd' Hl']. split; [by apply (intact_not_lost ly s' G' k t')|]. intros n Hn.
  rewrite (view_seen ly s' G' b1 b2 k t' Hk' Hd' Hl' n Hn). unfold at_page_nr. by rewrite Z0.
Qed.
(** C15: A page fault changes no word that any process sees, unless the process gets a
    signal. *)
Theorem fault_transparent s k address error_code esp vm86 s' : vm_ok ly s -> allowed ly has_nopage (Fault k address error_code esp vm86) s = true ->
  run ly has_nopage nopage shm_no_page (Fault k address error_code esp vm86) s = Some (0, s') ->
  signalled k s s' \/ forall k', intact ly s k' = true -> same_memory ly k' s s'.
Proof.
  intros Ok Al E. destruct (owner_settled ly has_nopage s _ Ok Al) as (G & I & C & Ow).
  destruct (fault_ok ly has_nopage nopage shm_no_page s G I C _ Al Ow k address error_code esp vm86 eq_refl) as (t & s1 & G1 & Hk & _ & _ & E1 & _ & v & Hv & _ & O).
  cbn [run] in E. rewrite E1 in E. injection E as ->. destruct O as [Ls|[Es _]]; [left; exists t, v; split_and!; try done; lia|right]. intros k' Hi.
  destruct (both_settled s _ k' Ok Al Hi) as (G2 & t' & I2 & C2 & Ow2 & Hk' & Hd' & Hl').
  destruct (fault_ok ly has_nopage nopage shm_no_page s G2 I2 C2 _ Al Ow2 k address error_code esp vm86 eq_refl) as (t2 & s2 & G3 & Hk2 & _ & Hl2 & E2 & (I3 & C3 & F) & v2 & Hv2 & _ & O2).
  rewrite E1 in E2. injection E2 as <-. assert (t2 = t) as -> by congruence. assert (v2 = v) as -> by congruence. destruct O2 as [?|[_ El]]; [rewrite Es in *; lia|].
  destruct F as [[_ K]|[X K]]; [|destruct Hl2; rewrite <- El, X; apply elem_of_union; left; by apply elem_of_singleton].
  destruct (keeps_task _ _ _ _ _ _ _ K Hk') as (t3 & Hk3 & E3). apply (same_seen ly s G2 s' G3 k' t' t3); try done; [by rewrite El|]. intros i j. apply K. intros [].
Qed.
End Props.

(** ** Nothing is left over *)

Lemma tally_none {K} `{Countable K} {A} (f : A -> bool) (m : gmap K A) : (forall k x, m !! k = Some x -> f x = false) -> tally f m = 0.
Proof.
  induction m as [|k x m Hk IH] using map_ind; [done|]. intros F. rewrite tally_insert by done. rewrite (F k x), IH; [done| |by rewrite lookup_insert_eq].
  intros k' x' Hx. apply (F k'). rewrite lookup_insert_ne; [done|]. congruence.
Qed.

Section Leak.
Context (ly : layout) (s : vm) (G : ghost) (I : inv ly s G) (C : calm G) (Hn : forall k t, tasks s !! k = Some t -> cr3 t = swapper_pg_dir ly).

Lemma no_dirs d : d ∉ dirs G.
Proof.
  intros Hd. destruct (h_users _ _ _ (i_shape _ _ _ I) d Hd) as [X|(k & t & Hk & E)]; [by rewrite (z_held _ C) in X; apply not_elem_of_nil in X|].
  apply (swapper_not_dir ly s G I). by rewrite <- (Hn k t Hk), E.
Qed.

Lemma no_tabs x : tabs G !! x = None.
Proof. destruct x as [d i], (tabs G !! (d, i)) as [t|] eqn:E; [|done]. destruct (no_dirs d). by destruct (h_tabs _ _ _ (i_shape _ _ _ I) _ _ _ E). Qed.

Lemma no_ents x : ents G !! x = None.
Proof. destruct x as [[d i] j], (ents G !! (d, i, j)) as [t|] eqn:E; [|done]. destruct (h_ents _ _ _ (i_shape _ _ _ I) _ _ _ _ E) as [[u Hu] _]. by rewrite no_tabs in Hu. Qed.

Lemma all_pages_free a : is_page (pages s) a -> is_res s a = false -> cnt s a = 0.
Proof.
  intros Ha R. rewrite (c_refs _ _ (i_counted _ _ _ I) a Ha R). unfold refs. rewrite (z_held _ C).
  rewrite (tally_none (at_page a)) by (intros x p; by rewrite no_ents). rewrite (tally_none _ (tabs G)) by (intros x p; by rewrite no_tabs).
  rewrite (tally_none _ (tasks s)); [done|]. intros k t Hk. apply Z.eqb_neq. rewrite (Hn k t Hk). intros <-.
  destruct (m_swapper _ _ (i_mem _ _ _ I)). congruence.
Qed.

Lemma all_swap_free ty p off c : get (infos s) ty = Some p -> get (swap_map p) off = Some c -> c = 0 \/ c = 128.
Proof.
  intros Hp Hc. destruct (f_map _ _ _ (w_info _ _ (i_swap _ _ _ I) ty p Hp) off c Hc) as [-> |[-> _]]; [left|by right].
  unfold srefs. rewrite (z_swheld _ C), (tally_none (at_slot _)); [done|]. intros x q. by rewrite no_ents.
Qed.
End Leak.
(** ** The properties *)

Section Theorems.
Context (ly : layout) (has_nopage : Z -> bool) (nopage : Z -> vm_area -> Z -> Z -> vm -> option vm) (shm_no_page : Z -> Z -> vm -> option vm).

(** C4: Whatever sequence of operations came before, [fork], [exec], [exit], the functions
    on ranges, page faults, writes and swapping run to their end: they read and write
    only pages in use, free only what is in use, and leave the tables, the reference
    counts and the swap maps in order. *)
Theorem vm_safe s0 s o : vm_ok ly s0 -> vm_reach ly has_nopage nopage shm_no_page s0 s -> allowed ly has_nopage o s = true ->
  exists r s', run ly has_nopage nopage shm_no_page o s = Some (r, s') /\ vm_ok ly s'.
Proof. intros Ok Hr. apply run_safe. by eapply vm_reach_ok. Qed.

(** Operations that are none of the task's. *)
Inductive left_alone (k' : Z) (s : vm) : vm -> Prop :=
| alone_start : left_alone k' s s
| alone_then s1 o r s2 : left_alone k' s s1 -> allowed ly has_nopage o s1 = true -> apart o s1 k' = true ->
    run ly has_nopage nopage shm_no_page o s1 = Some (r, s2) -> left_alone k' s s2.

(** C5: Isolation: whatever other processes do to their memory, and whatever the kernel
    swaps out, a process sees the same words in each of its pages.
    The operations are those that [allowed] admits: anonymous memory only, no
    zero mapping that is writable at once, and no write of the kernel to a page
    that is there without being marked to be copied.
    [shared_zero_page_written] and [kernel_write_shares] show that the code does
    not isolate processes otherwise. *)
Theorem vm_isolated s s' k' : vm_ok ly s -> intact ly s k' = true -> left_alone k' s s' ->
  intact ly s' k' = true /\ forall n, upage n -> view s' k' n = view s k' n.
Proof.
  intros Ok Hi H. cut (vm_ok ly s' /\ same_memory ly k' s s'); [by intros [_ ?]|]. induction H as [|s1 o r s2 H (Ok1 & Hi1 & V1) Al Ap E]; [done|].
  split; [by eapply run_keeps_ok|]. destruct (run_isolated ly has_nopage nopage shm_no_page s1 o k' r s2) as [Hi2 V2]; try done.
  split; [done|]. intros n Hn. by rewrite V2, V1.
Qed.


(** C10: [fork] gives the child the memory of its parent, or there is no child and the
    result is EAGAIN; nobody's memory changes. *)
Theorem fork_copies s COPYVM k c : vm_ok ly s -> allowed ly has_nopage (Fork COPYVM k c) s = true ->
  exists r s', fork_vm ly COPYVM k c s = Some (r, s') /\
    (r = 0 /\ intact ly s' c = true /\ (forall n, upage n -> view s' c n = view s k n) \/ r = - EAGAIN /\ tasks s' !! c = None) /\
    forall k', intact ly s k' = true -> intact ly s' k' = true /\ forall n, upage n -> view s' k' n = view s k' n.
Proof.
  intros Ok Al. destruct (run_safe ly has_nopage nopage shm_no_page s _ Ok Al) as (r & s' & E & _). exists r, s'. split; [exact E|]. split.
  - destruct (fork_ran ly has_nopage nopage shm_no_page s COPYVM k c r s' Ok Al E) as [(? & ? & ? & _)|?]; [by left|by right].
  - intros k' Hi. by apply (run_isolated ly has_nopage nopage shm_no_page s (Fork COPYVM k c) k' r s').
Qed.

(** C6: Copy on write: what the parent or the child writes after a [fork] the other one
    does not see.  The write is one of the program itself, to anonymous memory
    ([allowed]), and the states before it come from operations that [allowed]
    admits ([vm_ok]): no zero mapping that is writable at once and no write of
    the kernel to a page that is not marked to be copied
    ([shared_zero_page_written], [kernel_write_shares]). *)
Theorem fork_private s k c s1 k1 k2 address value esp r s2 : vm_ok ly s -> allowed ly has_nopage (Fork true k c) s = true ->
  run ly has_nopage nopage shm_no_page (Fork true k c) s = Some (0, s1) ->
  k1 = k /\ k2 = c \/ k1 = c /\ k2 = k -> allowed ly has_nopage (Store k1 address value esp) s1 = true ->
  run ly has_nopage nopage shm_no_page (Store k1 address value esp) s1 = Some (r, s2) ->
  intact ly s2 k2 = true /\ forall n, upage n -> view s2 k2 n = view s k n.
Proof.
  intros Ok Al E Hkc Al1 E1. assert (Ok1 := run_keeps_ok ly has_nopage nopage shm_no_page s _ _ s1 Ok Al E).
  assert (Hi : intact ly s k = true) by (cbn [allowed] in Al; rewrite !andb_true_iff in Al; tauto).
  destruct (run_isolated ly has_nopage nopage shm_no_page s _ k 0 s1 Ok Al E Hi eq_refl) as [Hi1 V1].
  destruct (fork_ran ly has_nopage nopage shm_no_page s true k c 0 s1 Ok Al E) as [(_ & Hc & Vc & t & v & Hk & Hv & N)|[? _]]; [|done].
  cbn [negb] in N. assert (Sm : same_memory ly k2 s1 s2).
  { apply (run_isolated ly has_nopage nopage shm_no_page s1 (Store k1 address value esp) k2 r s2); try done; destruct Hkc as [[-> ->]|[-> ->]]; try done;
      cbn [apart]; rewrite Hk, Hv, ?N; [by rewrite Z.eqb_sym, N|done]. }
  destruct Sm as [Hi2 V2]. split; [done|]. intros n Hn. rewrite V2 by done. destruct Hkc as [[_ ->]|[_ ->]]; auto.
Qed.
(** C11: When no process has memory any more, every page that is not the kernel's is free and
    so is every page of the swap areas: the functions lose no page. *)
Theorem nothing_leaks s0 s : vm_ok ly s0 -> vm_reach ly has_nopage nopage shm_no_page s0 s ->
  (forall k t, tasks s !! k = Some t -> cr3 t = swapper_pg_dir ly) ->
  (forall a, is_page (pages s) a -> has (count (pages s) a) MAP_PAGE_RESERVED = false -> count (pages s) a = 0) /\
  forall ty p off c, get (infos s) ty = Some p -> get (swap_map p) off = Some c -> c = 0 \/ c = 128.
Proof.
  intros Ok Hr Hn. destruct (vm_reach_ok ly has_nopage nopage shm_no_page s0 s Ok Hr) as (G & I & C). split.
  - intros a. by apply (all_pages_free ly s G I C Hn).
  - intros ty p off c. by apply (all_swap_free ly s G I C Hn).
Qed.
End Theorems.
(** ** On the small machine *)

Definition no_files : Z -> bool := fun _ => false.
Definition no_nopage : Z -> vm_area -> Z -> Z -> vm -> option vm := fun _ _ _ _ _ => None.
Definition no_shm : Z -> Z -> vm -> option vm := fun _ _ _ => None.

Definition does (o : op) (s : vm) : vm := default boot (snd <$> run VmBoot.ly no_files no_nopage no_shm o s).
Definition returns (o : op) (s : vm) : option Z := fst <$> run VmBoot.ly no_files no_nopage no_shm o s.

Definition write7 (k : Z) : op := Store k 0x8000 7 0x9000.
Definition after_write : vm := does (write7 1) boot.
Definition after_fork : vm := does (Fork true 1 2) after_write.

Lemma does_run o s r : returns o s = Some r -> run VmBoot.ly no_files no_nopage no_shm o s = Some (r, does o s).
Proof. unfold returns, does. destruct (run VmBoot.ly no_files no_nopage no_shm o s) as [[r' s']|]; [|done]. by intros [= ->]. Qed.

Lemma boot_write_allowed : allowed VmBoot.ly no_files (write7 1) boot = true.
Proof. vm_compute. reflexivity. Qed.

Lemma boot_write_returns : returns (write7 1) boot = Some 0.
Proof. vm_compute. reflexivity. Qed.

Lemma fork_allowed : allowed VmBoot.ly no_files (Fork true 1 2) after_write = true.
Proof. vm_compute. reflexivity. Qed.

Lemma fork_returns : returns (Fork true 1 2) after_write = Some 0.
Proof. vm_compute. reflexivity. Qed.

Lemma fork_shares : load after_fork 1 0x8000 = Some 7 /\ load after_fork 2 0x8000 = Some 7 /\ entry_at after_fork 1 8 = entry_at after_fork 2 8.
Proof. vm_compute. auto. Qed.

(** A list of operations that are allowed and none of task [k']'s. *)
Fixpoint run_apart (k' : Z) (l : list op) (s : vm) : option vm :=
  match l with
  | [] => Some s
  | o :: l =>
      if allowed VmBoot.ly no_files o s && apart o s k'
      then '(_, s) ← run VmBoot.ly no_files no_nopage no_shm o s; run_apart k' l s else None
  end.

Lemma run_apart_alone k' l s0 s s' : left_alone VmBoot.ly no_files no_nopage no_shm k' s0 s -> run_apart k' l s = Some s' ->
  left_alone VmBoot.ly no_files no_nopage no_shm k' s0 s'.
Proof.
  revert s. induction l as [|o l IH]; intros s H; cbn [run_apart]; [by intros [= <-]|]. destruct (allowed VmBoot.ly no_files o s) eqn:Al; [|done].
  destruct (apart o s k') eqn:Ap; [|done]. cbn [andb]. destruct (run VmBoot.ly no_files no_nopage no_shm o s) as [[r s1]|] eqn:E; [|done].
  apply IH. by apply (alone_then _ _ _ _ k' s0 s o r).
Qed.

Definition boot_reach := vm_reach VmBoot.ly no_files no_nopage no_shm boot.

Lemma write_reach : boot_reach after_write.
Proof. apply (vm_then _ _ _ _ _ boot (write7 1) 0); [apply vm_start|apply boot_write_allowed|apply does_run, boot_write_returns]. Qed.

Lemma fork_reach : boot_reach after_fork.
Proof. apply (vm_then _ _ _ _ _ after_write (Fork true 1 2) 0); [apply write_reach|apply fork_allowed|apply does_run, fork_returns]. Qed.

Lemma after_write_ok : vm_ok VmBoot.ly after_write.
Proof. exact (vm_reach_ok _ _ _ _ _ _ boot_vm_ok write_reach). Qed.

Lemma after_fork_ok : vm_ok VmBoot.ly after_fork.
Proof. exact (vm_reach_ok _ _ _ _ _ _ boot_vm_ok fork_reach). Qed.

Lemma write2_allowed : allowed VmBoot.ly no_files (Store 2 0x8000 9 0x9000) after_fork = true.
Proof. vm_compute. reflexivity. Qed.

Lemma write2_returns : returns (Store 2 0x8000 9 0x9000) after_fork = Some 0.
Proof. vm_compute. reflexivity. Qed.

Definition after_write2 : vm := does (Store 2 0x8000 9 0x9000) after_fork.

Lemma write2_values : load after_write2 1 0x8000 = Some 7 /\ load after_write2 2 0x8000 = Some 9.
Proof. vm_compute. auto. Qed.


(** The other process writes to the shared page and is gone; others come and go until
    the page may be swapped out. *)
Definition others : list op :=
  [Store 2 0x8000 9 0x9000; Exit 2; Release 2] ++ concat (repeat [Fork true 1 3; Exit 3; Release 3] 16) ++ [SwapOut 6; SwapOut 6].
Definition after_others : vm := default boot (run_apart 1 others after_fork).

Definition swapped_out (s : vm) : bool := bool_decide (entry_at s 1 8 = Some (SWP_ENTRY 0 1)) && bool_decide (load s 1 0x8000 = Some 7).

Lemma others_run : from_option swapped_out false (run_apart 1 others after_fork) = true.
Proof. vm_compute. reflexivity. Qed.

Lemma others_alone : left_alone VmBoot.ly no_files no_nopage no_shm 1 after_fork after_others.
Proof.
  assert (H := others_run). apply (run_apart_alone 1 others after_fork after_fork); [apply alone_start|]. unfold after_others.
  destruct (run_apart 1 others after_fork); [done|discriminate H].
Qed.

Definition after_exit : vm := does (Exit 1) after_write.

Lemma exit_allowed : allowed VmBoot.ly no_files (Exit 1) after_write = true.
Proof. vm_compute. reflexivity. Qed.

Lemma exit_returns : returns (Exit 1) after_write = Some 0.
Proof. vm_compute. reflexivity. Qed.

Lemma exit_reach : boot_reach after_exit.
Proof. apply (vm_then _ _ _ _ _ after_write (Exit 1) 0); [apply write_reach|apply exit_allowed|apply does_run, exit_returns]. Qed.

Lemma exit_empty k t : tasks after_exit !! k = Some t -> cr3 t = swapper_pg_dir VmBoot.ly.
Proof.
  assert (H : forallb (fun x => cr3 x.2 =? swapper_pg_dir VmBoot.ly) (map_to_list (tasks after_exit)) = true) by (vm_compute; reflexivity).
  intros Hk%elem_of_map_to_list%list_elem_of_In. rewrite forallb_forall in H. by apply (H _), Z.eqb_eq in Hk.
Qed.

Lemma boot_intact : intact VmBoot.ly boot 1 = true /\ intact VmBoot.ly after_fork 1 = true.
Proof. split; vm_compute; reflexivity. Qed.

Lemma vm_safe_witness : exists r s', run VmBoot.ly no_files no_nopage no_shm (Store 2 0x8000 9 0x9000) after_fork = Some (r, s') /\ vm_ok VmBoot.ly s'.
Proof. exact (vm_safe VmBoot.ly no_files no_nopage no_shm boot after_fork (Store 2 0x8000 9 0x9000) boot_vm_ok fork_reach write2_allowed). Defined.

Lemma vm_isolated_witness : intact VmBoot.ly after_others 1 = true /\ forall n, upage n -> view after_others 1 n = view after_fork 1 n.
Proof. exact (vm_isolated VmBoot.ly no_files no_nopage no_shm after_fork after_others 1 after_fork_ok (proj2 boot_intact) others_alone). Defined.


Lemma fork_copies_witness : exists r s', fork_vm VmBoot.ly true 1 2 after_write = Some (r, s') /\
  (r = 0 /\ intact VmBoot.ly s' 2 = true /\ (forall n, upage n -> view s' 2 n = view after_write 1 n) \/ r = - EAGAIN /\ tasks s' !! 2 = None) /\
  forall k', intact VmBoot.ly after_write k' = true -> intact VmBoot.ly s' k' = true /\ forall n, upage n -> view s' k' n = view after_write k' n.
Proof. exact (fork_copies VmBoot.ly no_files no_nopage no_shm after_write true 1 2 after_write_ok fork_allowed). Defined.

Lemma fork_private_witness : intact VmBoot.ly after_write2 1 = true /\ forall n, upage n -> view after_write2 1 n = view after_write 1 n.
Proof.
  exact (fork_private VmBoot.ly no_files no_nopage no_shm after_write 1 2 after_fork 2 1 0x8000 9 0x9000 0 after_write2 after_write_ok fork_allowed
    (does_run _ _ _ fork_returns) (or_intror (conj eq_refl eq_refl)) write2_allowed (does_run _ _ _ write2_returns)).
Defined.

Lemma store_writes_witness : exists r s', run VmBoot.ly no_files no_nopage no_shm (write7 1) boot = Some (r, s') /\
  (r = 0 /\ intact VmBoot.ly s' 1 = true /\ (forall n, upage n -> view s' 1 n = view_with 0x8000 7 boot 1 n) /\ load s' 1 0x8000 = Some 7 \/ r = 1 /\ signalled 1 boot s').
Proof. exact (store_writes VmBoot.ly no_files no_nopage no_shm boot 1 0x8000 7 0x9000 boot_vm_ok boot_write_allowed). Defined.

Lemma fault_allowed : allowed VmBoot.ly no_files (Fault 1 0x8000 6 0x9000 false) boot = true.
Proof. vm_compute. reflexivity. Qed.

Lemma fault_returns : returns (Fault 1 0x8000 6 0x9000 false) boot = Some 0.
Proof. vm_compute. reflexivity. Qed.

Definition after_fault : vm := does (Fault 1 0x8000 6 0x9000 false) boot.

Lemma fault_transparent_witness : signalled 1 boot after_fault \/ forall k', intact VmBoot.ly boot k' = true -> same_memory VmBoot.ly k' boot after_fault.
Proof.
  exact (fault_transparent VmBoot.ly no_files no_nopage no_shm boot 1 0x8000 6 0x9000 false after_fault boot_vm_ok fault_allowed (does_run _ _ _ fault_returns)).
Defined.

Lemma nothing_leaks_witness :
  (forall a, is_page (pages after_exit) a -> has (count (pages after_exit) a) MAP_PAGE_RESERVED = false -> count (pages after_exit) a = 0) /\
  forall ty p off c, get (infos after_exit) ty = Some p -> get (swap_map p) off = Some c -> c = 0 \/ c = 128.
Proof. exact (nothing_leaks VmBoot.ly no_files no_nopage no_shm boot after_exit boot_vm_ok exit_reach exit_empty). Defined.

(** ** Where the conditions are needed *)

Definition all_does (l : list op) : vm := fold_left (fun s o => does o s) l boot.

(** A write to a shared anonymous mapping appears in a private one. *)
Lemma shared_zero_page_written :
  load (all_does [Zeromap 1 0x10000 0x1000 PAGE_COPY; Zeromap 1 0x8000 0x1000 PAGE_SHARED; write7 1]) 1 0x10000 = Some 7.
Proof. vm_compute. reflexivity. Qed.

(** A write of the kernel to a read-only page gives a page that parent and child share. *)
Lemma kernel_write_shares :
  let s := all_does [Zeromap 1 0x8000 0x1000 PAGE_READONLY; Fault 1 0x8000 1 0 false; Fork true 1 2] in
  load s 2 0x8000 = Some 0 /\ load (does (write7 1) s) 2 0x8000 = Some 7.
Proof. vm_compute. auto. Qed.
End VmProps.
