(* ===== verification/Sys.v ===== *)
(** * System calls on the calling process ([src/kernel/sys.c])

    User and group ids, supplementary groups, resource limits, host and domain
    name, resource usage, [brk], [umask] and [reboot].  The part of the task
    structure a call uses is its argument and result; ids are 16-bit, so
    [(uid_t) -1] is 65535.  User memory that is read is an argument, what is
    written to user memory a result, and the result of [verify_area] an
    argument. *)

From S2P Require Import Prelude PageAlloc Clock.
From Stdlib Require Import ZArith Lia.
From stdpp Require Import base list sets numbers.

Local Open Scope Z_scope.

Module Sys.

(** ** User and group ids *)

Record ids := Ids { uid : Z; euid : Z; suid : Z; gid : Z; egid : Z; sgid : Z }.

(** [(uid_t) -1] and [(gid_t) -1] *)
Definition NO_ID : Z := u16 (-1).

Definition suser (c : ids) : bool := euid c =? 0.

Definition set_uids (c : ids) (u e s : Z) : ids := Ids u e s (gid c) (egid c) (sgid c).
Definition set_gids (c : ids) (g e s : Z) : ids := Ids (uid c) (euid c) (suid c) g e s.

Definition sys_setregid (rgid e : Z) (c : ids) : Z * ids :=
  let old_rgid := gid c in
  if negb (rgid =? NO_ID) && negb ((egid c =? rgid) || (old_rgid =? rgid) || suser c) then (- EPERM, c)
  else
    let c := if negb (rgid =? NO_ID) then set_gids c rgid (egid c) (sgid c) else c in
    if negb (e =? NO_ID) then
      if (old_rgid =? e) || (egid c =? e) || suser c then (0, set_gids c (gid c) e e)
      else (- EPERM, set_gids c old_rgid (egid c) (sgid c))
    else (0, c).

Definition sys_setgid (g : Z) (c : ids) : Z * ids :=
  if suser c then (0, set_gids c g g g)
  else if (g =? gid c) || (g =? sgid c) then (0, set_gids c (gid c) g (sgid c))
  else (- EPERM, c).

Definition sys_setreuid (ruid e : Z) (c : ids) : Z * ids :=
  let old_ruid := uid c in
  if negb (ruid =? NO_ID) && negb ((euid c =? ruid) || (old_ruid =? ruid) || suser c) then (- EPERM, c)
  else
    let c := if negb (ruid =? NO_ID) then set_uids c ruid (euid c) (suid c) else c in
    if negb (e =? NO_ID) then
      if (old_ruid =? e) || (euid c =? e) || suser c then (0, set_uids c (uid c) e e)
      else (- EPERM, set_uids c old_ruid (euid c) (suid c))
    else (0, c).

Definition sys_setuid (u : Z) (c : ids) : Z * ids :=
  if suser c then (0, set_uids c u u u)
  else if (u =? uid c) || (u =? suid c) then (0, set_uids c (uid c) u (suid c))
  else (- EPERM, c).

(** ** Supplementary groups *)

Definition NGROUPS : Z := 32.
Definition NOGROUP : Z := -1.

(** The loop of [sys_getgroups] from entry [i] on: the entries copied, and [i] at
    the end. *)
Fixpoint get_groups (gidsetsize : Z) (groups : list Z) (i : Z) : list Z * Z :=
  match groups with
  | [] => ([], i)
  | g :: groups =>
      if g =? NOGROUP then ([], i)
      else if gidsetsize =? 0 then get_groups gidsetsize groups (i + 1)
      else if gidsetsize <=? i then ([], i)
      else let '(l, n) := get_groups gidsetsize groups (i + 1) in (u16 g :: l, n)
  end.

Definition sys_getgroups (gidsetsize verify : Z) (groups : list Z) : Z * list Z :=
  if negb (gidsetsize =? 0) && negb (verify =? 0) then (verify, [])
  else let '(l, n) := get_groups gidsetsize groups 0 in (n, l).

(** The loop of [sys_setgroups]: [n] entries left, [i] the next. *)
Fixpoint set_groups (n : nat) (i : Z) (grouplist groups : list Z) : option (list Z * Z) :=
  match n, grouplist with
  | S n, g :: grouplist => groups ← put groups i (u16 g); set_groups n (i + 1) grouplist groups
  | S _, [] => None
  | O, _ => Some (groups, i)
  end.

Definition sys_setgroups (su : bool) (gidsetsize : Z) (grouplist groups : list Z) : option (Z * list Z) :=
  if negb su then Some (- EPERM, groups)
  else if NGROUPS <? gidsetsize then Some (- EINVAL, groups)
  else
    '(groups, i) ← set_groups (Z.to_nat gidsetsize) 0 grouplist groups;
    groups ← (if i <? NGROUPS then put groups i NOGROUP else Some groups);
    Some (0, groups).

(** ** Names *)

Definition __NEW_UTS_LEN : Z := 64.
Definition __OLD_UTS_LEN : nat := 8.

Record new_utsname := Utsname {
  sysname : list Z;
  nodename : list Z;
  release : list Z;
  version : list Z;
  machine : list Z;
  domainname : list Z
}.

(** The loop of [sys_sethostname] and [sys_setdomainname]: [n] bytes of [name] are
    left, [i] is the next; true if it returned at a null byte. *)
Fixpoint copy_name (n : nat) (i : Z) (name dst : list Z) : option (list Z * Z * bool) :=
  match n, name with
  | S n, b :: name => dst ← put dst i b;
                      if b =? 0 then Some (dst, i, true) else copy_name n (i + 1) name dst
  | S _, [] => None
  | O, _ => Some (dst, i, false)
  end.

Definition set_name (su : bool) (name : list Z) (len : Z) (dst : list Z) : option (Z * list Z) :=
  if negb su then Some (- EPERM, dst)
  else if __NEW_UTS_LEN <? len then Some (- EINVAL, dst)
  else
    '(dst, i, fin) ← copy_name (Z.to_nat len) 0 name dst;
    if fin : bool then Some (0, dst) else dst ← put dst i 0; Some (0, dst).

Definition sys_sethostname (su : bool) (name : list Z) (len : Z) (u : new_utsname) : option (Z * new_utsname) :=
  '(r, n) ← set_name su name len (nodename u);
  Some (r, Utsname (sysname u) n (release u) (version u) (machine u) (domainname u)).

Definition sys_setdomainname (su : bool) (name : list Z) (len : Z) (u : new_utsname) : option (Z * new_utsname) :=
  '(r, n) ← set_name su name len (domainname u);
  Some (r, Utsname (sysname u) (nodename u) (release u) (version u) (machine u) n).

(** [name] is whether the pointer is not null. *)
Definition sys_newuname (name : bool) (verify : Z) (u : new_utsname) : Z * option new_utsname :=
  if negb name then (- EFAULT, None) else (verify, if verify =? 0 then Some u else None).

Definition sys_uname (name : bool) (verify : Z) (u : new_utsname) : Z * option (list (list Z)) :=
  if negb name then (- EFAULT, None)
  else if negb (verify =? 0) then (verify, None)
  else (0, Some [sysname u; nodename u; release u; version u; machine u]).

(** Eight bytes and a null byte per field. *)
Definition sys_olduname (name : bool) (verify : Z) (u : new_utsname) : Z * option (list (list Z)) :=
  if negb name then (- EFAULT, None)
  else if negb (verify =? 0) then (verify, None)
  else (0, Some ((fun s => take __OLD_UTS_LEN s ++ [0]) <$>
                   [sysname u; nodename u; release u; version u; machine u])).

(** ** Resource limits *)

Definition RLIM_NLIMITS : Z := 6.
Definition RLIM_INFINITY : Z := 0x7FFFFFFF.
Definition RLIMIT_DATA : Z := 2.

(** The limits are [int]s. *)
Record rlimit := Rlimit { rlim_cur : Z; rlim_max : Z }.

Definition sys_getrlimit (resource verify : Z) (rlim : list rlimit) : option (Z * option (Z * Z)) :=
  if RLIM_NLIMITS <=? resource then Some (- EINVAL, None)
  else if negb (verify =? 0) then Some (verify, None)
  else r ← get rlim resource; Some (0, Some (u32 (rlim_cur r), u32 (rlim_max r))).

(** [cur] and [max] are the two words read from user memory. *)
Definition sys_setrlimit (su : bool) (resource cur max : Z) (rlim : list rlimit) : option (Z * list rlimit) :=
  if RLIM_NLIMITS <=? resource then Some (- EINVAL, rlim)
  else
    old ← get rlim resource;
    let new := Rlimit (s32 cur) (s32 max) in
    if ((rlim_max old <? rlim_cur new) || (rlim_max old <? rlim_max new)) && negb su then Some (- EPERM, rlim)
    else rlim ← put rlim resource new; Some (0, rlim).

(** ** [brk] *)

(** What [sys_brk] uses of the memory description of the process. *)
Record brk_state := Brk { brk : Z; end_code : Z; start_stack : Z; data_limit : Z }.

(** What it knows of the memory of the machine. *)
Record memory := Memory { buffermem : Z; nr_free_pages : Z; nr_swap_pages : Z; high_memory : Z }.

Inductive map_call := Munmap (addr len : Z) | Mmap (addr len : Z).

(** The result, the new break, and the call of [do_munmap] or [do_mmap] (whose
    result the code ignores). *)
Definition sys_brk (b : Z) (m : memory) (p : brk_state) : Z * Z * option map_call :=
  if b <? end_code p then (brk p, brk p, None)
  else
    let newbrk := PageAlloc.PAGE_ALIGN b in
    let oldbrk := PageAlloc.PAGE_ALIGN (brk p) in
    if oldbrk =? newbrk then (b, b, None)
    else if b <=? brk p then (b, b, Some (Munmap newbrk (u32 (oldbrk - newbrk))))
    else
      let rlim := u32 (data_limit p) in
      let rlim := if RLIM_INFINITY <=? rlim then 2 ^ 32 - 1 else rlim in
      if (rlim <? u32 (b - end_code p)) || (u32 (start_stack p - 16384) <=? b) then (brk p, brk p, None)
      else
        let freepages := s32 (Z.shiftr (buffermem m) 12 + nr_free_pages m + nr_swap_pages m
                              - Z.shiftr (u32 (high_memory m - 0x100000)) 16 - Z.shiftr (u32 (newbrk - oldbrk)) 12) in
        if freepages <? 0 then (brk p, brk p, None)
        else (b, b, Some (Mmap oldbrk (u32 (newbrk - oldbrk)))).

(** ** Usage, [umask], [reboot] *)

Record usage := Usage {
  utime : Z; stime : Z; cutime : Z; cstime : Z;
  min_flt : Z; maj_flt : Z; cmin_flt : Z; cmaj_flt : Z
}.

Definition CT_TO_SECS (x : Z) : Z := Z.quot x Clock.HZ.
Definition CT_TO_USECS (x : Z) : Z := Z.quot (s32 (Z.rem x Clock.HZ * 1000000)) Clock.HZ.

Definition RUSAGE_SELF : Z := 0.
Definition RUSAGE_CHILDREN : Z := -1.

(** The fields of [struct rusage] that are not 0. *)
Record rusage := Rusage { ru_utime : Clock.timeval; ru_stime : Clock.timeval; ru_minflt : Z; ru_majflt : Z }.

Definition ct_tv (x : Z) : Clock.timeval := Clock.Timeval (CT_TO_SECS x) (CT_TO_USECS x).

Definition getrusage (p : usage) (who verify : Z) : Z * option rusage :=
  if negb (verify =? 0) then (verify, None)
  else
    (0, Some (if who =? RUSAGE_SELF then Rusage (ct_tv (utime p)) (ct_tv (stime p)) (min_flt p) (maj_flt p)
              else if who =? RUSAGE_CHILDREN then Rusage (ct_tv (cutime p)) (ct_tv (cstime p)) (cmin_flt p) (cmaj_flt p)
              else Rusage (ct_tv (s32 (utime p + cutime p))) (ct_tv (s32 (stime p + cstime p)))
                     (u32 (min_flt p + cmin_flt p)) (u32 (maj_flt p + cmaj_flt p)))).

Definition sys_getrusage (p : usage) (who verify : Z) : Z * option rusage :=
  if negb (who =? RUSAGE_SELF) && negb (who =? RUSAGE_CHILDREN) then (- EINVAL, None)
  else getrusage p who verify.

(** The result and what is stored at [tbuf], if it is not null. *)
Definition sys_times (p : usage) (jiffies : Z) (tbuf : bool) (verify : Z) : Z * option (Z * Z * Z * Z) :=
  if tbuf then
    if negb (verify =? 0) then (verify, None)
    else (s32 jiffies, Some (utime p, stime p, cutime p, cstime p))
  else (s32 jiffies, None).

(** Octal 0777. *)
Definition S_IRWXUGO : Z := 511.

Definition sys_umask (mask umask : Z) : Z * Z := (umask, Z.land mask S_IRWXUGO).

Inductive reboot := Reset | Cad (C_A_D : Z) | Error (e : Z).

(** The magic numbers are compared as [int]s: 0xfee1dead and 0x89ABCDEF are the
    negative numbers with these bits. *)
Definition sys_reboot (su : bool) (magic magic_too flag : Z) : reboot :=
  if negb su then Error (- EPERM)
  else if negb (u32 magic =? 0xfee1dead) || negb (magic_too =? 672274793) then Error (- EINVAL)
  else if flag =? 0x01234567 then Reset
  else if u32 flag =? 0x89ABCDEF then Cad 1
  else if flag =? 0 then Cad 0
  else Error (- EINVAL).

(** ** Privileges *)

Inductive id_call := Setregid (r e : Z) | Setgid (g : Z) | Setreuid (r e : Z) | Setuid (u : Z).

Definition run_call (k : id_call) (c : ids) : Z * ids :=
  match k with
  | Setregid r e => sys_setregid r e c
  | Setgid g => sys_setgid g c
  | Setreuid r e => sys_setreuid r e c
  | Setuid u => sys_setuid u c
  end.

Definition run_calls (ks : list id_call) (c : ids) : ids := foldl (fun c k => (run_call k c).2) c ks.

Definition user_ids (c : ids) : list Z := [uid c; euid c; suid c].
Definition group_ids (c : ids) : list Z := [gid c; egid c; sgid c].

(** A call that fails changes nothing. *)
Lemma call_error_unchanged k c : (run_call k c).1 <> 0 -> (run_call k c).2 = c.
Proof.
  destruct k; simpl; [unfold sys_setregid|unfold sys_setgid|unfold sys_setreuid|unfold sys_setuid];
    repeat case_bool; simpl; try done; intros _; destruct c; done.
Qed.

Lemma eqb_or a b x : (a =? x) || (b =? x) || false = true -> x = a \/ x = b.
Proof. rewrite orb_false_r. intros [->%Z.eqb_eq | ->%Z.eqb_eq]%orb_true_iff; auto. Qed.

Lemma setreuid_unprivileged r e c :
  suser c = false ->
  exists u e' s, (sys_setreuid r e c).2 = set_uids c u e' s /\ (u = uid c \/ u = euid c) /\
    (e' = euid c /\ s = suid c \/ s = e' /\ (e' = uid c \/ e' = euid c)).
Proof.
  intros Hs. unfold sys_setreuid. rewrite Hs.
  destruct (negb (r =? NO_ID)); simpl.
  - destruct ((euid c =? r) || (uid c =? r) || false) eqn:E1; simpl.
    + apply eqb_or in E1. destruct (negb (e =? NO_ID)); simpl; [|exists r, (euid c), (suid c); naive_solver].
      change (suser (set_uids c r (euid c) (suid c))) with (suser c). rewrite Hs.
      destruct ((uid c =? e) || (euid c =? e) || false) eqn:E2; simpl;
        [apply eqb_or in E2; exists r, e, e; naive_solver|exists (uid c), (euid c), (suid c); naive_solver].
    + exists (uid c), (euid c), (suid c). destruct c. naive_solver.
  - destruct (negb (e =? NO_ID)); simpl; [|exists (uid c), (euid c), (suid c); destruct c; naive_solver]. rewrite Hs.
    destruct ((uid c =? e) || (euid c =? e) || false) eqn:E2; simpl;
      [apply eqb_or in E2; exists (uid c), e, e; naive_solver|exists (uid c), (euid c), (suid c); naive_solver].
Qed.

Lemma setregid_unprivileged r e c :
  suser c = false ->
  exists u e' s, (sys_setregid r e c).2 = set_gids c u e' s /\ (u = gid c \/ u = egid c) /\
    (e' = egid c /\ s = sgid c \/ s = e' /\ (e' = gid c \/ e' = egid c)).
Proof.
  intros Hs. unfold sys_setregid. rewrite Hs.
  destruct (negb (r =? NO_ID)); simpl.
  - destruct ((egid c =? r) || (gid c =? r) || false) eqn:E1; simpl.
    + apply eqb_or in E1. destruct (negb (e =? NO_ID)); simpl; [|exists r, (egid c), (sgid c); naive_solver].
      change (suser (set_gids c r (egid c) (sgid c))) with (suser c). rewrite Hs.
      destruct ((gid c =? e) || (egid c =? e) || false) eqn:E2; simpl;
        [apply eqb_or in E2; exists r, e, e; naive_solver|exists (gid c), (egid c), (sgid c); naive_solver].
    + exists (gid c), (egid c), (sgid c). destruct c. naive_solver.
  - destruct (negb (e =? NO_ID)); simpl; [|exists (gid c), (egid c), (sgid c); destruct c; naive_solver]. rewrite Hs.
    destruct ((gid c =? e) || (egid c =? e) || false) eqn:E2; simpl;
      [apply eqb_or in E2; exists (gid c), e, e; naive_solver|exists (gid c), (egid c), (sgid c); naive_solver].
Qed.

(** Without privilege a call only permutes and drops ids. *)
Lemma call_unprivileged k c :
  suser c = false ->
  (forall x, x ∈ user_ids (run_call k c).2 -> x ∈ user_ids c) /\
  (forall x, x ∈ group_ids (run_call k c).2 -> x ∈ group_ids c).
Proof.
  intros Hs. destruct k as [r e|g|r e|u]; unfold run_call.
  - destruct (setregid_unprivileged r e c Hs) as (u & e' & s & -> & H1 & H2). unfold user_ids, group_ids. simpl. set_solver.
  - unfold sys_setgid. rewrite Hs. destruct ((g =? gid c) || (g =? sgid c)) eqn:E; [|done].
    apply orb_true_iff in E as [->%Z.eqb_eq | ->%Z.eqb_eq]; unfold user_ids, group_ids; simpl; set_solver.
  - destruct (setreuid_unprivileged r e c Hs) as (u & e' & s & -> & H1 & H2). unfold user_ids, group_ids. simpl. set_solver.
  - unfold sys_setuid. rewrite Hs. destruct ((u =? uid c) || (u =? suid c)) eqn:E; [|done].
    apply orb_true_iff in E as [->%Z.eqb_eq | ->%Z.eqb_eq]; unfold user_ids, group_ids; simpl; set_solver.
Qed.

Lemma run_calls_ids ks c :
  0 ∉ user_ids c ->
  (forall x, x ∈ user_ids (run_calls ks c) -> x ∈ user_ids c) /\
  (forall x, x ∈ group_ids (run_calls ks c) -> x ∈ group_ids c).
Proof.
  revert c. induction ks as [|k ks IH]; intros c H0; [done|].
  assert (Hs : suser c = false).
  { unfold suser. destruct (Z.eqb_spec (euid c) 0) as [E|]; [|done]. exfalso. apply H0. unfold user_ids. rewrite E. set_solver. }
  destruct (call_unprivileged k c Hs) as [Hu Hg]. destruct (IH (run_call k c).2) as [Hu' Hg']; [by intros ?%Hu|].
  unfold run_calls in *. cbn [foldl]. split; auto.
Qed.

(** privileges are not gained by changing ids: no sequence of [setuid],
    [setreuid], [setgid] and [setregid] gives a process without user id 0 a user
    or group id it did not have; in particular a process that the superuser put
    under another id with [setuid] keeps that id whatever it calls. *)
Theorem setid_no_gain ks c :
  0 ∉ user_ids c ->
  (forall x, x ∈ user_ids (run_calls ks c) -> x ∈ user_ids c) /\
  (forall x, x ∈ group_ids (run_calls ks c) -> x ∈ group_ids c) /\
  (forall u root, u <> 0 -> suser root = true ->
     user_ids (run_calls ks (sys_setuid u root).2) = [u; u; u]).
Proof.
  intros H0. split; [by apply run_calls_ids|]. split; [by apply run_calls_ids|].
  intros u root Hu Hr. unfold sys_setuid. rewrite Hr. cbn [snd].
  destruct (run_calls_ids ks (set_uids root u u u)) as [H _]; [unfold user_ids; simpl; set_solver|].
  set (c' := run_calls ks _) in *. clearbody c'. unfold user_ids in *. simpl in H.
  assert (uid c' = u) as -> by (specialize (H (uid c')); set_solver).
  assert (euid c' = u) as -> by (specialize (H (euid c')); set_solver).
  assert (suid c' = u) as -> by (specialize (H (suid c')); set_solver). done.
Qed.

Lemma setid_no_gain_witness :
  let ks := [Setreuid 65535 20; Setuid 0; Setregid 0 0; Setreuid 20 10] in
  let c := Ids 10 20 20 100 100 100 in
  (forall x, x ∈ user_ids (run_calls ks c) -> x ∈ user_ids c) /\
  (forall x, x ∈ group_ids (run_calls ks c) -> x ∈ group_ids c) /\
  (forall u root, u <> 0 -> suser root = true -> user_ids (run_calls ks (sys_setuid u root).2) = [u; u; u]).
Proof. intros ks c. apply (setid_no_gain ks c). unfold user_ids. simpl. set_solver. Defined.

(** ** Groups *)

(** The groups in force: those before the first [NOGROUP]. *)
Fixpoint in_force (groups : list Z) : list Z :=
  match groups with
  | [] => []
  | g :: groups => if g =? NOGROUP then [] else g :: in_force groups
  end.

Lemma get_groups_spec n groups i :
  Forall (fun g => g = NOGROUP \/ 0 <= g < 2 ^ 16) groups -> 0 <= i -> i + Z.of_nat (length (in_force groups)) <= n ->
  get_groups n groups i = (in_force groups, i + Z.of_nat (length (in_force groups))).
Proof.
  revert i. induction groups as [|g groups IH]; intros i Hg Hi Hn; cbn [get_groups in_force length] in *.
  { f_equal. lia. }
  apply list.Forall_cons in Hg as [Hg Hgs]. destruct (Z.eqb_spec g NOGROUP) as [E|E]; cbn [length] in *; [f_equal; lia|].
  destruct (Z.eqb_spec n 0); [lia|]. destruct (Z.leb_spec n i); [lia|]. rewrite IH by (done || lia).
  rewrite u16_small by (destruct Hg; lia). f_equal. lia.
Qed.

Lemma set_groups_spec gl rest groups i :
  Forall (fun g => 0 <= g < 2 ^ 16) gl -> (length gl <= length rest)%nat -> i = Z.of_nat (length groups) ->
  set_groups (length gl) i gl (groups ++ rest) = Some (groups ++ gl ++ drop (length gl) rest, i + Z.of_nat (length gl)).
Proof.
  revert rest groups i. induction gl as [|g gl IH]; intros rest groups i Hg Hl Hi; cbn [set_groups length drop app].
  { do 2 f_equal. lia. }
  apply list.Forall_cons in Hg as [Hg Hgs]. destruct rest as [|x rest]; cbn [length] in Hl; [lia|].
  rewrite u16_small, put_in_range by (rewrite ?length_app; simpl; lia). cbn [mbind option_bind]. subst i.
  rewrite Nat2Z.id, insert_app_r_alt, Nat.sub_diag by lia. cbn [list_insert insert].
  change (<[0%nat := g]> (x :: rest)) with (g :: rest). rewrite cons_middle, app_assoc.
  rewrite (IH rest (groups ++ [g]) (Z.of_nat (length groups) + 1)) by (done || rewrite ?length_app; simpl; lia).
  cbn [drop length]. do 2 f_equal; [|lia]. by rewrite <- app_assoc.
Qed.

Lemma get_groups_count groups i : get_groups 0 groups i = ([], i + Z.of_nat (length (in_force groups))).
Proof.
  revert i. induction groups as [|g groups IH]; intros i; cbn [get_groups in_force length]; [f_equal; lia|].
  destruct (g =? NOGROUP); cbn [length Z.eqb]; [f_equal; lia|]. rewrite IH. f_equal. lia.
Qed.

Lemma in_force_app gl rest :
  Forall (fun g => 0 <= g < 2 ^ 16) gl -> rest = [] \/ rest !! 0%nat = Some NOGROUP -> in_force (gl ++ rest) = gl.
Proof.
  intros Hg Hr. induction Hg as [|g gl Hg _ IH]; simpl.
  - destruct Hr as [-> | Hr]; [done|]. destruct rest; [done|]. injection Hr as ->. done.
  - rewrite IH. destruct (Z.eqb_spec g NOGROUP) as [E|]; [unfold NOGROUP in E; lia|done].
Qed.

(** What [sys_setgroups] leaves: the list, then [NOGROUP] if there is room. *)
Lemma sys_setgroups_spec gl groups :
  Forall (fun g => 0 <= g < 2 ^ 16) gl -> (length gl <= 32)%nat -> length groups = 32%nat ->
  exists rest, sys_setgroups true (Z.of_nat (length gl)) gl groups = Some (0, gl ++ rest) /\
    length (gl ++ rest) = 32%nat /\ (rest = [] \/ rest !! 0%nat = Some NOGROUP) /\
    (forall k g, rest !! k = Some g -> g = NOGROUP \/ g ∈ groups).
Proof.
  intros Hg Hl Hlen. unfold sys_setgroups. cbn [negb].
  destruct (Z.ltb_spec NGROUPS (Z.of_nat (length gl))) as [Hx|_]; [unfold NGROUPS in Hx; lia|]. rewrite Nat2Z.id.
  pose proof (set_groups_spec gl groups [] 0 Hg) as E. cbn [app] in E. rewrite E by (simpl; lia). clear E. cbn [mbind option_bind]. rewrite Z.add_0_l.
  destruct (Z.ltb_spec (Z.of_nat (length gl)) NGROUPS) as [Hn|Hn]; unfold NGROUPS in Hn.
  - rewrite put_in_range by (rewrite length_app, length_drop; lia). cbn [mbind option_bind].
    rewrite Nat2Z.id, insert_app_r_alt, Nat.sub_diag by lia. eexists. split; [done|].
    split; [rewrite length_app, length_insert, length_drop; lia|]. split.
    + right. apply list_lookup_insert_eq. rewrite length_drop. lia.
    + intros k g Hk. destruct k; [left|right].
      * rewrite list_lookup_insert_eq in Hk by (rewrite length_drop; lia). congruence.
      * rewrite list_lookup_insert_ne, lookup_drop in Hk by lia. by eapply list_elem_of_lookup_2.
  - eexists. split; [done|]. rewrite drop_ge by lia. rewrite app_nil_r. split; [lia|]. split; [by left|]. intros k g Hk. by rewrite lookup_nil in Hk.
Qed.

(** [getgroups] returns what [setgroups] set: after the superuser installed a
    list of at most 32 groups, whatever was there before, a large enough buffer
    receives exactly that list, and a call with size 0 its length. *)
Theorem setgroups_getgroups gl groups m :
  Forall (fun g => 0 <= g < 2 ^ 16) gl -> (length gl <= 32)%nat ->
  length groups = 32%nat -> Forall (fun g => g = NOGROUP \/ 0 <= g < 2 ^ 16) groups -> Z.of_nat (length gl) <= m ->
  exists groups', sys_setgroups true (Z.of_nat (length gl)) gl groups = Some (0, groups') /\
    length groups' = 32%nat /\ Forall (fun g => g = NOGROUP \/ 0 <= g < 2 ^ 16) groups' /\
    sys_getgroups m 0 groups' = (Z.of_nat (length gl), gl) /\
    sys_getgroups 0 0 groups' = (Z.of_nat (length gl), []).
Proof.
  intros Hg Hl Hlen Hall Hm. destruct (sys_setgroups_spec gl groups Hg Hl Hlen) as (rest & -> & Hlen' & Hr & Hin).
  assert (Hall' : Forall (fun g => g = NOGROUP \/ 0 <= g < 2 ^ 16) (gl ++ rest)).
  { apply list.Forall_app. split; [rewrite list.Forall_forall in *; auto|]. apply Forall_lookup. intros k g Hk.
    destruct (Hin k g Hk) as [-> | He]; [by left|]. rewrite list.Forall_forall in Hall. auto. }
  exists (gl ++ rest). split; [done|]. split; [done|]. split; [done|]. unfold sys_getgroups. rewrite andb_false_r.
  rewrite get_groups_count, (in_force_app gl rest), get_groups_spec, (in_force_app gl rest)
    by (done || rewrite ?(in_force_app gl rest); done || lia). done.
Qed.

Lemma setgroups_getgroups_witness :
  exists groups', sys_setgroups true 3 [5; 65535; 7] (replicate 32 9) = Some (0, groups') /\
    length groups' = 32%nat /\ Forall (fun g => g = NOGROUP \/ 0 <= g < 2 ^ 16) groups' /\
    sys_getgroups 10 0 groups' = (3, [5; 65535; 7]) /\ sys_getgroups 0 0 groups' = (3, []).
Proof.
  apply (setgroups_getgroups [5; 65535; 7] (replicate 32 9) 10); [repeat constructor; lia|simpl; lia|done| |simpl; lia].
  apply Forall_replicate. lia.
Defined.

(** ** Names *)

(** The C string at the start of a field. *)
Fixpoint cstr (l : list Z) : list Z :=
  match l with [] => [] | b :: l => if b =? 0 then [] else b :: cstr l end.

Lemma cstr_app l r : Forall (fun b => b <> 0) l -> cstr (l ++ r) = l ++ cstr r.
Proof. induction 1 as [|b l Hb _ IH]; simpl; [done|]. apply Z.eqb_neq in Hb. by rewrite Hb, IH. Qed.

Lemma copy_name_spec n name done_ rest :
  (n <= length name)%nat -> (n <= length rest)%nat -> Forall (fun b => b <> 0) done_ ->
  exists dst i fin, copy_name n (Z.of_nat (length done_)) name (done_ ++ rest) = Some (dst, i, fin) /\
    length dst = length (done_ ++ rest) /\
    (if fin then cstr dst = done_ ++ cstr (take n name)
     else exists l r, dst = l ++ r /\ i = Z.of_nat (length l) /\ l = done_ ++ cstr (take n name) /\
            Forall (fun b => b <> 0) l /\ length l = (length done_ + n)%nat).
Proof.
  revert name done_ rest. induction n as [|n IH]; intros name d rest Hn Hr Hd; cbn [copy_name take].
  { exists (d ++ rest), (Z.of_nat (length d)), false. split; [done|]. split; [done|]. exists d, rest.
    cbn [cstr]. rewrite app_nil_r. repeat split; (done || lia). }
  destruct name as [|b name]; [simpl in Hn; lia|]. destruct rest as [|x rest]; [simpl in Hr; lia|].
  rewrite put_in_range by (rewrite length_app; simpl; lia). cbn [mbind option_bind].
  rewrite Nat2Z.id, insert_app_r_alt, Nat.sub_diag by lia. change (<[0%nat := b]> (x :: rest)) with (b :: rest).
  cbn [cstr]. destruct (Z.eqb_spec b 0) as [-> | Hb].
  { eexists _, _, true. split; [done|]. split; [by rewrite !length_app|]. by rewrite cstr_app. }
  rewrite cons_middle, app_assoc.
  destruct (IH name (d ++ [b]) rest) as (dst & i & fin & E & Hl & Hf); [simpl in *; lia | simpl in *; lia | |].
  { apply list.Forall_app. split; [done|by constructor]. }
  rewrite length_app, Nat2Z.inj_add in E. cbn [length] in E. change (Z.of_nat 1) with 1 in E.
  exists dst, i, fin. split; [done|]. split; [by rewrite Hl, <- app_assoc, !length_app|].
  cbn [take cstr]. apply Z.eqb_neq in Hb as ->.
  destruct fin; [by rewrite <- app_assoc in Hf|]. destruct Hf as (l & r & -> & -> & E1 & Hnz & E2). exists l, r.
  rewrite <- app_assoc in E1. rewrite length_app in E2. simpl in E2. repeat split; (done || lia).
Qed.

(** [sethostname] with a length of at most 64 stays inside the 65 bytes of
    [nodename], and [uname] then reports the string the caller gave, cut at that
    length. *)
Theorem sethostname_uname name len u :
  length (nodename u) = 65%nat -> len <= 64 -> len <= Z.of_nat (length name) ->
  exists u', sys_sethostname true name len u = Some (0, u') /\ length (nodename u') = 65%nat /\
    (exists f1 f2 f3 f4 f5, sys_uname true 0 u' = (0, Some [f1; f2; f3; f4; f5]) /\
       cstr f2 = cstr (take (Z.to_nat len) name)).
Proof.
  intros Hl Hlen Hname. unfold sys_sethostname, set_name. cbn [negb].
  destruct (Z.ltb_spec __NEW_UTS_LEN len) as [Hx|_]; [unfold __NEW_UTS_LEN in Hx; lia|].
  destruct (copy_name_spec (Z.to_nat len) name [] (nodename u)) as (dst & i & fin & E & Hd & Hf); [lia..|constructor|].
  cbn [app length] in E, Hd, Hf. change (Z.of_nat 0) with 0 in E. rewrite E. cbn [mbind option_bind].
  destruct fin; cbn [mbind option_bind].
  - eexists. split; [done|]. simpl. split; [lia|]. by eexists _, _, _, _, _.
  - destruct Hf as (l & r & -> & -> & Hs & Hnz & Hll). rewrite length_app in Hd.
    rewrite put_in_range by (rewrite length_app; lia). cbn [mbind option_bind].
    eexists. split; [done|]. cbn [nodename]. split; [rewrite length_insert, length_app; lia|]. eexists _, _, _, _, _. split; [done|].
    rewrite Nat2Z.id, insert_app_r_alt, Nat.sub_diag by lia. destruct r as [|x r]; [simpl in *; lia|].
    change (<[0%nat := 0]> (x :: r)) with (0 :: r). cbn [nodename]. rewrite cstr_app by done. cbn [cstr Z.eqb]. by rewrite app_nil_r.
Qed.

Lemma sethostname_uname_witness :
  exists u', sys_sethostname true [104; 111; 115; 116; 49; 0; 7] 4
      (Utsname [] (replicate 65 0) [] [] [] []) = Some (0, u') /\ length (nodename u') = 65%nat /\
    (exists f1 f2 f3 f4 f5, sys_uname true 0 u' = (0, Some [f1; f2; f3; f4; f5]) /\ cstr f2 = [104; 111; 115; 116]).
Proof. apply (sethostname_uname [104; 111; 115; 116; 49; 0; 7] 4 (Utsname [] (replicate 65 0) [] [] [] [])); [done|lia|simpl; lia]. Defined.

(** ** Limits *)

(** The top of the heap after the call of [sys_brk]; [None] if the call is not for
    the pages next to the top [hi]. *)
Definition heap_top (hi : Z) (k : option map_call) : option Z :=
  match k with
  | None => Some hi
  | Some (Munmap a len) => if a + len =? hi then Some a else None
  | Some (Mmap a len) => if a =? hi then Some (a + len) else None
  end.

Lemma PAGE_ALIGN_bounds x :
  0 <= x -> x + 4095 < 2 ^ 32 ->
  x <= PageAlloc.PAGE_ALIGN x < x + 4096 /\ PageAlloc.PAGE_ALIGN x mod 4096 = 0.
Proof.
  intros Hx Hr. unfold PageAlloc.PAGE_ALIGN. change PageAlloc.PAGE_SIZE with 4096.
  rewrite u32_small, PageAlloc.PAGE_MASK_spec by lia. Z.div_mod_to_equations. lia.
Qed.

Lemma PAGE_ALIGN_mono x y :
  0 <= x -> x <= y -> y + 4095 < 2 ^ 32 -> PageAlloc.PAGE_ALIGN x <= PageAlloc.PAGE_ALIGN y.
Proof.
  intros Hx Hy Hr. destruct (PAGE_ALIGN_bounds x), (PAGE_ALIGN_bounds y); try lia. Z.div_mod_to_equations. lia.
Qed.

(** Where the last page does not wrap, [PAGE_ALIGN] of a value is never below it. *)
Lemma PAGE_ALIGN_wrap x : 2 ^ 32 - 4096 < x < 2 ^ 32 -> PageAlloc.PAGE_ALIGN x = 0.
Proof.
  intros Hx. unfold PageAlloc.PAGE_ALIGN. change PageAlloc.PAGE_SIZE with 4096.
  replace (u32 (x + 4096 - 1)) with (x + 4095 - 2 ^ 32) by (apply (Z.mod_unique _ _ 1); lia).
  rewrite PageAlloc.PAGE_MASK_spec by lia. rewrite Z.mod_small; lia.
Qed.

(** [brk] keeps the heap: the break never falls below the end of the code, the
    pages mapped or unmapped are exactly those between the old and the new
    break, and the heap grows by pages only below the stack, with 16384 bytes
    between, and within a data limit that is not negative. *)
Theorem brk_safe b m p :
  0 <= end_code p <= brk p -> 0 < brk p < start_stack p - 16384 -> start_stack p < 2 ^ 32 - 4096 -> 0 <= b < 2 ^ 32 ->
  - 2 ^ 31 <= data_limit p < 2 ^ 31 ->
  exists new k, sys_brk b m p = (new, new, k) /\ end_code p <= new < start_stack p - 12288 /\
    heap_top (PageAlloc.PAGE_ALIGN (brk p)) k = Some (PageAlloc.PAGE_ALIGN new) /\
    (PageAlloc.PAGE_ALIGN (brk p) < PageAlloc.PAGE_ALIGN new ->
       new = b /\ b < start_stack p - 16384 /\
       (0 <= data_limit p < RLIM_INFINITY -> b - end_code p <= data_limit p)).
Proof.
  intros He Hb Hs Hr Hd. destruct (PAGE_ALIGN_bounds (brk p)) as [Ho _]; [lia..|]. unfold sys_brk.
  destruct (Z.ltb_spec b (end_code p)); [exists (brk p), None; cbn [heap_top]; repeat split; (done || lia)|].
  destruct (Z.eqb_spec (PageAlloc.PAGE_ALIGN (brk p)) (PageAlloc.PAGE_ALIGN b)) as [E|E].
  { exists b, None. cbn [heap_top]. rewrite E. split; [done|]. split; [|split; [done|lia]].
    destruct (Z.le_gt_cases b (2 ^ 32 - 4096)); [destruct (PAGE_ALIGN_bounds b); lia|].
    rewrite (PAGE_ALIGN_wrap b) in E; lia. }
  destruct (Z.leb_spec b (brk p)).
  { exists b, (Some (Munmap (PageAlloc.PAGE_ALIGN b) (u32 (PageAlloc.PAGE_ALIGN (brk p) - PageAlloc.PAGE_ALIGN b)))).
    destruct (PAGE_ALIGN_bounds b) as [Hn _]; [lia..|]. assert (Hm := PAGE_ALIGN_mono b (brk p)).
    rewrite u32_small by lia. cbn [heap_top].
    replace (PageAlloc.PAGE_ALIGN b + _) with (PageAlloc.PAGE_ALIGN (brk p)) by lia. rewrite Z.eqb_refl.
    repeat split; (done || lia). }
  rewrite (u32_small (b - _)), (u32_small (start_stack p - _)) by lia.
  destruct (_ || _) eqn:El; [exists (brk p), None; cbn [heap_top]; repeat split; (done || lia)|].
  apply orb_false_iff in El as [El%Z.ltb_ge Es%Z.leb_gt].
  destruct (_ <? 0); [exists (brk p), None; cbn [heap_top]; repeat split; (done || lia)|].
  destruct (PAGE_ALIGN_bounds b) as [Hn _]; [lia..|]. assert (Hm := PAGE_ALIGN_mono (brk p) b).
  rewrite u32_small by lia. eexists _, _. split; [done|]. cbn [heap_top]. rewrite Z.eqb_refl.
  split; [lia|]. split; [f_equal; lia|]. intros _. split; [done|]. split; [done|]. intros Hl.
  rewrite (u32_small (data_limit p)) in El by (unfold RLIM_INFINITY in Hl; lia).
  destruct (Z.leb_spec RLIM_INFINITY (data_limit p)); lia.
Qed.

Lemma brk_safe_witness :
  exists new k,
    sys_brk 0x9000 (Memory 0 100 0 0x400000) (Brk 0x5000 0x2000 0xBFFFE000 0x8000) = (new, new, k) /\
    0x2000 <= new < 0xBFFFE000 - 12288 /\
    heap_top (PageAlloc.PAGE_ALIGN 0x5000) k = Some (PageAlloc.PAGE_ALIGN new) /\
    (PageAlloc.PAGE_ALIGN 0x5000 < PageAlloc.PAGE_ALIGN new ->
       new = 0x9000 /\ 0x9000 < 0xBFFFE000 - 16384 /\ (0 <= 0x8000 < RLIM_INFINITY -> 0x9000 - 0x2000 <= 0x8000)).
Proof.
  apply (brk_safe 0x9000 (Memory 0 100 0 0x400000) (Brk 0x5000 0x2000 0xBFFFE000 0x8000)); simpl; lia.
Defined.

(** A process without privileges cannot raise a limit above its hard limit as
    [setrlimit] compares them, as [int]s: the new limits are at most the old hard
    limit or nothing changes.  But -1 is below every limit there and means no
    limit to [brk]: such a process escapes its hard limit on data. *)
Theorem setrlimit_unprivileged resource cur max rlim old m end_code start b0 b :
  0 <= resource < RLIM_NLIMITS -> length rlim = 6%nat -> get rlim resource = Some old ->
  (exists r rlim', sys_setrlimit false resource cur max rlim = Some (r, rlim') /\
     (r = 0 /\ (exists new, rlim' = <[Z.to_nat resource := new]> rlim /\
                  new = Rlimit (s32 cur) (s32 max) /\ rlim_cur new <= rlim_max old /\ rlim_max new <= rlim_max old)
      \/ r = - EPERM /\ rlim' = rlim)) /\
  (0 <= rlim_max old ->
   sys_setrlimit false resource 0xFFFFFFFF 0xFFFFFFFF rlim = Some (0, <[Z.to_nat resource := Rlimit (-1) (-1)]> rlim) /\
   sys_brk b m (Brk b0 end_code start (-1)) = sys_brk b m (Brk b0 end_code start RLIM_INFINITY)).
Proof.
  intros Hr Hlen Ho. unfold sys_setrlimit. destruct (Z.leb_spec RLIM_NLIMITS resource); [lia|]. rewrite Ho. cbn [mbind option_bind].
  assert (Hp : forall x, put rlim resource x = Some (<[Z.to_nat resource := x]> rlim)).
  { intros x. apply put_in_range. unfold RLIM_NLIMITS in Hr. lia. }
  split.
  - cbn [rlim_cur rlim_max negb]. rewrite andb_true_r, Hp. destruct (_ || _) eqn:E; cbn [mbind option_bind].
    + eexists _, _. split; [done|]. by right.
    + eexists _, _. split; [done|]. left. split; [done|]. eexists. split; [done|]. split; [done|]. simpl.
      apply orb_false_iff in E as [?%Z.ltb_ge ?%Z.ltb_ge]. lia.
  - intros Hm. change (s32 0xFFFFFFFF) with (-1). cbn [rlim_cur rlim_max]. rewrite Hp.
    destruct (Z.ltb_spec (rlim_max old) (-1)); [lia|]. done.
Qed.

Lemma setrlimit_unprivileged_witness :
  (exists r rlim', sys_setrlimit false 2 50 200 (replicate 6 (Rlimit 10 100)) = Some (r, rlim') /\
     (r = 0 /\ (exists new, rlim' = <[2%nat := new]> (replicate 6 (Rlimit 10 100)) /\
                  new = Rlimit (s32 50) (s32 200) /\ rlim_cur new <= 100 /\ rlim_max new <= 100)
      \/ r = - EPERM /\ rlim' = replicate 6 (Rlimit 10 100))) /\
  (0 <= 100 ->
   sys_setrlimit false 2 0xFFFFFFFF 0xFFFFFFFF (replicate 6 (Rlimit 10 100))
     = Some (0, <[2%nat := Rlimit (-1) (-1)]> (replicate 6 (Rlimit 10 100))) /\
   sys_brk 0x90000 (Memory 0 9000 0 0x400000) (Brk 0x5000 0x2000 0xBFFFE000 (-1))
     = sys_brk 0x90000 (Memory 0 9000 0 0x400000) (Brk 0x5000 0x2000 0xBFFFE000 RLIM_INFINITY)).
Proof.
  apply (setrlimit_unprivileged 2 50 200 (replicate 6 (Rlimit 10 100)) (Rlimit 10 100)
           (Memory 0 9000 0 0x400000) 0x2000 0xBFFFE000 0x5000 0x90000); (done || unfold RLIM_NLIMITS; lia).
Defined.

End Sys.
