(* ===== verification/Dll.v ===== *)
(** * Doubly linked lists

    The pointers of a doubly linked list as functions of the list of its nodes:
    the node after and the node before a node, 0 for a null pointer; and how they
    change when a node is put in front or taken out.  Shared by the models of
    lists of siblings and of the ring of all tasks. *)

From S2P Require Import Prelude.
From Stdlib Require Import ZArith Lia.
From stdpp Require Import base list sets.

Local Open Scope Z_scope.

Definition head0 (l : list Z) : Z := match l with [] => 0 | x :: _ => x end.

(** The node after [p], [e] after the last. *)
Fixpoint next_in (e : Z) (l : list Z) (p : Z) : Z :=
  match l with
  | [] => e
  | x :: l => if x =? p then default e (head l) else next_in e l p
  end.

(** The node before [p], [b] before the first. *)
Fixpoint prev_in (b : Z) (l : list Z) (p : Z) : Z :=
  match l with
  | [] => b
  | x :: l => if x =? p then b else prev_in x l p
  end.

Definition without (p : Z) (l : list Z) : list Z := filter (fun x => x <> p) l.

Lemma head0_head l : head0 l = default 0 (head l).
Proof. by destruct l. Qed.

Lemma head0_in l : head0 l <> 0 -> head0 l ∈ l.
Proof. destruct l; [done|]. intros _. left. Qed.

Lemma elem_of_without x p l : x ∈ without p l <-> x <> p /\ x ∈ l.
Proof. unfold without. by rewrite list_elem_of_filter. Qed.

Lemma without_cons p x l : without p (x :: l) = if x =? p then without p l else x :: without p l.
Proof. unfold without. rewrite filter_cons. destruct (Z.eqb_spec x p); case_decide; done. Qed.

Lemma without_notin p l : p ∉ l -> without p l = l.
Proof. intros H. apply filter_all. apply list.Forall_forall. intros x Hx ->. done. Qed.

Lemma without_app p l1 l2 : without p (l1 ++ l2) = without p l1 ++ without p l2.
Proof. apply filter_app. Qed.

Lemma NoDup_without p l : NoDup l -> NoDup (without p l).
Proof. apply NoDup_filter. Qed.

Lemma length_without p l : NoDup l -> p ∈ l -> S (length (without p l)) = length l.
Proof.
  induction 1 as [|x l Hx Hnd IH]; [set_solver|]. intros Hp. rewrite without_cons. destruct (Z.eqb_spec x p) as [-> | Hne].
  - by rewrite without_notin.
  - simpl. rewrite IH; [done|set_solver].
Qed.

(** ** Where the pointers lead *)

Lemma next_in_in e l p : next_in e l p = e \/ next_in e l p ∈ l.
Proof.
  induction l as [|x l IH]; [by left|]. simpl. destruct (x =? p).
  - destruct l; [by left|right; set_solver].
  - destruct IH; [by left|right; set_solver].
Qed.

Lemma prev_in_in b l p : prev_in b l p = b \/ prev_in b l p ∈ l.
Proof.
  revert b. induction l as [|x l IH]; intros b; [by left|]. simpl. destruct (x =? p); [by left|].
  right. destruct (IH x) as [-> | H]; set_solver.
Qed.

Lemma next_in_notin e l p : p ∉ l -> next_in e l p = e.
Proof.
  induction l as [|x l IH]; [done|]. intros H. simpl. destruct (Z.eqb_spec x p) as [-> |]; [set_solver|]. apply IH. set_solver.
Qed.

Lemma next_in_ne e l p : NoDup (e :: l) -> p ∈ l -> next_in e l p <> p.
Proof.
  intros [He Hnd]%list.NoDup_cons. induction Hnd as [|x l Hx Hnd IH]; [set_solver|]. intros Hp. simpl.
  destruct (Z.eqb_spec x p) as [-> | Hne].
  - destruct l; simpl; set_solver.
  - apply IH; set_solver.
Qed.

Lemma prev_in_ne b l p : NoDup (b :: l) -> p ∈ l -> prev_in b l p <> p.
Proof.
  revert b. induction l as [|x l IH]; intros b; [set_solver|]. intros [Hb Hnd]%list.NoDup_cons Hp. simpl.
  destruct (Z.eqb_spec x p) as [-> | Hne]; [set_solver|]. apply IH; set_solver.
Qed.

Lemma prev_in_b b b' x l p : p <> x -> prev_in b (x :: l) p = prev_in b' (x :: l) p.
Proof. intros H. simpl. destruct (Z.eqb_spec x p); [done|]. done. Qed.

(** ** A node in front *)

Lemma prev_in_cons x p l : x ∈ l -> x <> p -> prev_in 0 (p :: l) x = if x =? head0 l then p else prev_in 0 l x.
Proof.
  intros Hx Hne. simpl. destruct (Z.eqb_spec p x); [done|]. destruct l as [|z l]; [set_solver|]. simpl.
  rewrite (Z.eqb_sym x z). by destruct (z =? x).
Qed.

(** ** A node at the end *)

Definition last0 (l : list Z) : Z := default 0 (last l).

Lemma last0_snoc l p : last0 (l ++ [p]) = p.
Proof. unfold last0. by rewrite last_snoc. Qed.

Lemma last0_in l : l <> [] -> last0 l ∈ l.
Proof.
  intros H. unfold last0. destruct (last l) as [x|] eqn:E; [|by apply last_None in E]. apply last_Some in E as [l' ->]. set_solver.
Qed.

Lemma last0_cons x y l : last0 (x :: y :: l) = last0 (y :: l).
Proof. unfold last0. rewrite (last_cons x). by destruct (last (y :: l)) eqn:E; [|apply last_None in E]. Qed.

Lemma next_in_snoc e l p x :
  NoDup l -> p ∉ l -> x ∈ l -> next_in e (l ++ [p]) x = if x =? last0 l then p else next_in e l x.
Proof.
  induction 1 as [|y l Hy Hnd IH]; [set_solver|]. intros Hp Hx. cbn [app next_in]. destruct l as [|z l].
  - destruct (Z.eqb_spec y x) as [-> |]; [|set_solver]. unfold last0. simpl. by rewrite Z.eqb_refl.
  - rewrite last0_cons. destruct (Z.eqb_spec y x) as [-> | Hne]; [|apply IH; set_solver].
    destruct (Z.eqb_spec x (last0 (z :: l))) as [E|]; [|done]. exfalso. apply Hy. rewrite E. by apply last0_in.
Qed.

Lemma next_in_snoc_last e l p : p ∉ l -> next_in e (l ++ [p]) p = e.
Proof.
  induction l as [|y l IH]; intros Hp; simpl; [by rewrite Z.eqb_refl|].
  destruct (Z.eqb_spec y p) as [-> |]; [set_solver|]. apply IH. set_solver.
Qed.

Lemma prev_in_snoc b l p x : x ∈ l -> prev_in b (l ++ [p]) x = prev_in b l x.
Proof.
  revert b. induction l as [|y l IH]; intros b Hx; [set_solver|]. simpl.
  destruct (Z.eqb_spec y x); [done|]. apply IH. set_solver.
Qed.

Lemma prev_in_snoc_last b l p : p ∉ l -> prev_in b (l ++ [p]) p = default b (last l).
Proof.
  revert b. induction l as [|y l IH]; intros b Hp; simpl; [by rewrite Z.eqb_refl|].
  destruct (Z.eqb_spec y p) as [-> |]; [set_solver|]. rewrite IH by set_solver. rewrite last_cons. by destruct (last l).
Qed.

(** ** Taking a node out *)

Lemma next_without e b p l y :
  NoDup l -> b ∉ l -> p ∈ l -> y ∈ l -> y <> p ->
  next_in e (without p l) y = if y =? prev_in b l p then next_in e l p else next_in e l y.
Proof.
  revert b. induction l as [|x l IH]; intros b Hnd Hb Hp Hy Hne; [set_solver|].
  apply list.NoDup_cons in Hnd as [Hx Hnd]. rewrite without_cons. simpl. destruct (Z.eqb_spec x p) as [-> | Hxp].
  - destruct (Z.eqb_spec y b) as [-> |]; [set_solver|]. rewrite without_notin by done.
    destruct (Z.eqb_spec p y); [done|]. done.
  - simpl. destruct (Z.eqb_spec x y) as [-> | Hxy].
    + destruct l as [|z l]; [set_solver|]. rewrite without_cons. simpl. destruct (Z.eqb_spec z p) as [-> | Hz].
      * rewrite Z.eqb_refl. apply list.NoDup_cons in Hnd as [Hz _]. by rewrite without_notin.
      * destruct (Z.eqb_spec y (prev_in z l p)) as [E|]; [|done]. exfalso. destruct (prev_in_in z l p); set_solver.
    + apply (IH x); set_solver.
Qed.

Lemma prev_without e b p l y :
  NoDup l -> e ∉ l -> p ∈ l -> y ∈ l -> y <> p ->
  prev_in b (without p l) y = if y =? next_in e l p then prev_in b l p else prev_in b l y.
Proof.
  revert b. induction l as [|x l IH]; intros b Hnd He Hp Hy Hne; [set_solver|].
  apply list.NoDup_cons in Hnd as [Hx Hnd]. rewrite without_cons. simpl. destruct (Z.eqb_spec x p) as [-> | Hxp].
  - rewrite without_notin by done. destruct (Z.eqb_spec p y); [done|]. destruct l as [|z l]; [set_solver|]. simpl.
    rewrite (Z.eqb_sym y z). by destruct (z =? y).
  - simpl. destruct (Z.eqb_spec x y) as [-> | Hxy].
    + destruct (Z.eqb_spec y (next_in e l p)) as [E|]; [|done]. exfalso. destruct (next_in_in e l p) as [E' | E']; rewrite E' in E || rewrite <- E in E'; set_solver.
    + apply IH; set_solver.
Qed.

Lemma head_without p l :
  NoDup l -> 0 ∉ l -> p ∈ l -> head0 (without p l) = if prev_in 0 l p =? 0 then next_in 0 l p else head0 l.
Proof.
  intros Hnd H0 Hp. destruct l as [|x l]; [set_solver|]. rewrite without_cons. simpl.
  apply list.NoDup_cons in Hnd as [Hx Hnd]. destruct (Z.eqb_spec x p) as [-> | Hne].
  - rewrite without_notin by done. simpl. apply head0_head.
  - destruct (Z.eqb_spec (prev_in x l p) 0) as [E|]; [|done]. exfalso. destruct (prev_in_in x l p) as [E' | E']; rewrite E in E'; set_solver.
Qed.

Lemma last_without b p l :
  NoDup l -> p ∈ l -> p <> head0 l -> last0 (without p l) = if last0 l =? p then prev_in b l p else last0 l.
Proof.
  revert b. induction l as [|x l IH]; intros b Hnd Hp Hh; [set_solver|]. apply list.NoDup_cons in Hnd as [Hx Hnd]. simpl in Hh.
  rewrite without_cons. simpl. destruct (Z.eqb_spec x p); [congruence|]. destruct l as [|z l]; [set_solver|].
  rewrite last0_cons. rewrite without_cons. destruct (Z.eqb_spec z p) as [-> | Hz].
  - apply list.NoDup_cons in Hnd as [Hp' Hnd]. rewrite without_notin by done. destruct l as [|w l].
    + unfold last0. simpl. by rewrite Z.eqb_refl.
    + rewrite !last0_cons. destruct (Z.eqb_spec (last0 (w :: l)) p) as [E|]; [|done].
      exfalso. apply Hp'. rewrite <- E. by apply last0_in.
  - rewrite last0_cons. specialize (IH x Hnd). rewrite without_cons in IH. destruct (Z.eqb_spec z p); [done|].
    apply IH; simpl; set_solver.
Qed.

Lemma next_in_last e l p : NoDup l -> e ∉ l -> p ∈ l -> next_in e l p = e <-> last0 l = p.
Proof.
  induction 1 as [|x l Hx Hnd IH]; intros He Hp; [set_solver|]. simpl. destruct l as [|z l].
  - destruct (Z.eqb_spec x p); [done|]. set_solver.
  - rewrite last0_cons. destruct (Z.eqb_spec x p) as [-> | Hne].
    + simpl. split; [set_solver|]. intros E. exfalso. apply Hx. rewrite <- E. by apply last0_in.
    + apply IH; set_solver.
Qed.

(** ** There and back *)

Lemma prev_next e b l p : NoDup l -> e ∉ l -> p ∈ l -> next_in e l p <> e -> prev_in b l (next_in e l p) = p.
Proof.
  revert b. induction l as [|x l IH]; intros b Hnd He Hp Hn; [set_solver|]. apply list.NoDup_cons in Hnd as [Hx Hnd].
  cbn [next_in prev_in] in *. destruct (Z.eqb_spec x p) as [-> | Hne].
  - destruct l as [|z l]; [done|]. cbn [head default prev_in]. simpl. destruct (Z.eqb_spec p z) as [-> |]; [set_solver|].
    by rewrite Z.eqb_refl.
  - destruct (Z.eqb_spec x (next_in e l p)) as [E|]; [|apply IH; set_solver].
    exfalso. destruct (next_in_in e l p) as [|Hin]; [done|]. by rewrite <- E in Hin.
Qed.

Lemma next_prev e b l p : NoDup l -> b ∉ l -> p ∈ l -> prev_in b l p <> b -> next_in e l (prev_in b l p) = p.
Proof.
  revert b. induction l as [|x l IH]; intros b Hnd Hb Hp Hn; [set_solver|]. apply list.NoDup_cons in Hnd as [Hx Hnd].
  cbn [next_in prev_in] in *. destruct (Z.eqb_spec x p) as [-> | Hne]; [done|].
  assert (Hpl : p ∈ l) by set_solver. destruct l as [|z l]; [set_solver|].
  destruct (decide (z = p)) as [-> | Hz].
  - cbn [prev_in]. rewrite Z.eqb_refl. by rewrite Z.eqb_refl.
  - assert (E : prev_in x (z :: l) p <> x).
    { cbn [prev_in]. destruct (Z.eqb_spec z p); [done|]. destruct (prev_in_in z l p) as [-> | ?]; set_solver. }
    destruct (Z.eqb_spec x (prev_in x (z :: l) p)); [congruence|]. by apply IH.
Qed.

Lemma prev_head l : prev_in 0 l (head0 l) = 0.
Proof. destruct l; [done|]. simpl. by rewrite Z.eqb_refl. Qed.

(** The node after the end of a prefix. *)
Lemma next_in_split e l1 l2 :
  l1 <> [] -> NoDup (l1 ++ l2) -> next_in e (l1 ++ l2) (last0 l1) = default e (head l2).
Proof.
  intros Hl Hnd. induction l1 as [|x l1 IH]; [done|]. cbn [app next_in]. simpl in Hnd.
  apply list.NoDup_cons in Hnd as [Hx Hnd]. destruct l1 as [|y l1].
  - unfold last0. simpl. by rewrite Z.eqb_refl.
  - rewrite last0_cons. destruct (Z.eqb_spec x (last0 (y :: l1))) as [E|]; [|by apply IH].
    exfalso. apply Hx. apply elem_of_app. left. rewrite E. by apply last0_in.
Qed.
