(* ===== verification/Ring.v ===== *)
(** * Rings of nodes

    A circular doubly linked list, given by the functions [nx] and [pv] that follow
    its pointers, and the list of its nodes from one of them on.  Shared by the
    models of the kernel's rings: [insert_file_free], [remove_file_free] and
    their like for other structures. *)

From S2P Require Import Prelude Dll.
From Stdlib Require Import ZArith Lia.
From stdpp Require Import base list sets.

Local Open Scope Z_scope.

(** Each node of the walk points to the next one, and that one back. *)
Fixpoint linked (nx pv : Z -> Z) (w : list Z) : Prop :=
  match w with
  | x :: ((y :: _) as w) => nx x = y /\ pv y = x /\ linked nx pv w
  | _ => True
  end.

Definition ring (nx pv : Z -> Z) (l : list Z) : Prop := linked nx pv (l ++ [head0 l]).

Section ring.
Context (nx pv : Z -> Z).

Lemma linked_cons x y w : linked nx pv (x :: y :: w) <-> nx x = y /\ pv y = x /\ linked nx pv (y :: w).
Proof. done. Qed.

Lemma linked_split l a w : linked nx pv (l ++ a :: w) <-> linked nx pv (l ++ [a]) /\ linked nx pv (a :: w).
Proof.
  induction l as [|x l IH]; [simpl; tauto|]. destruct l as [|y l].
  - simpl app. rewrite !linked_cons. simpl. tauto.
  - simpl app in *. rewrite !linked_cons. rewrite IH. tauto.
Qed.

(** A ring may be read from any of its nodes. *)
Lemma ring_rotate l1 l2 : ring nx pv (l1 ++ l2) -> ring nx pv (l2 ++ l1).
Proof.
  unfold ring. destruct l1 as [|a l1]; [by rewrite app_nil_r|]. destruct l2 as [|b l2]; [by rewrite app_nil_r|].
  simpl head0. rewrite <- !app_assoc. intros H. simpl app at 2 in H. apply linked_split in H as [H1 H2].
  simpl app at 2. by apply linked_split.
Qed.

Lemma ring_cons x r : r <> [] -> ring nx pv (x :: r) ->
  nx x = head0 r /\ pv (head0 r) = x /\ nx (last0 r) = x /\ pv x = last0 r.
Proof.
  intros Hr R. destruct r as [|y r]; [done|]. unfold ring in R. simpl in R. destruct R as (E1 & E2 & R).
  split; [done|]. split; [done|]. destruct (exists_last Hr) as (r' & z & E). rewrite E, last0_snoc.
  change (linked nx pv ((y :: r) ++ [x])) in R. rewrite E, <- app_assoc in R. apply linked_split in R as [_ R].
  simpl in R. tauto.
Qed.

Lemma ring_around l x : x ∈ l -> ring nx pv l -> nx x ∈ l /\ pv x ∈ l /\ nx (pv x) = x /\ pv (nx x) = x.
Proof.
  intros [l1 [l2 ->]]%list_elem_of_split R. apply ring_rotate in R. simpl in R.
  destruct (decide (l2 ++ l1 = [])) as [E|N].
  - rewrite E in R. apply app_nil in E as [-> ->]. unfold ring in R. simpl in R. destruct R as (E1 & E2 & _).
    rewrite E1, E2, E1. set_solver.
  - destruct (ring_cons _ _ N R) as (E1 & E2 & E3 & E4). rewrite E1, E4. split_and!; try done.
    + assert (head0 (l2 ++ l1) ∈ l2 ++ l1); [|set_solver]. by destruct (l2 ++ l1); [|left].
    + pose proof (last0_in _ N). set_solver.
Qed.

Lemma ring_head_pv l : l <> [] -> ring nx pv l -> pv (head0 l) = last0 l.
Proof.
  destruct l as [|x l]; [done|]. intros _ R. destruct l as [|y l].
  - unfold ring in R. simpl in R. simpl. unfold last0. simpl. tauto.
  - rewrite last0_cons. apply (ring_cons x (y :: l)); done.
Qed.

(** Following [nx] from the head visits the nodes in order. *)
Lemma ring_next l1 x y l2 : ring nx pv (l1 ++ x :: y :: l2) -> nx x = y.
Proof. unfold ring. rewrite <- app_assoc. intros [_ R]%linked_split. apply R. Qed.

End ring.

Lemma linked_ext nx pv nx' pv' w :
  (forall x, x ∈ w -> nx' x = nx x /\ pv' x = pv x) -> linked nx pv w -> linked nx' pv' w.
Proof.
  induction w as [|x w IH]; [done|]. intros E. destruct w as [|y w]; [done|]. rewrite !linked_cons.
  intros (H1 & H2 & H3). split_and!.
  - rewrite (proj1 (E x ltac:(left))). done.
  - rewrite (proj2 (E y ltac:(set_solver))). done.
  - apply IH; [|done]. intros z Hz. apply E. by right.
Qed.

Lemma ring_ext nx pv nx' pv' l : l <> [] ->
  (forall x, x ∈ l -> nx' x = nx x /\ pv' x = pv x) -> ring nx pv l -> ring nx' pv' l.
Proof.
  intros Hl E. unfold ring. apply linked_ext. intros x Hx. apply E. destruct l; set_solver.
Qed.

(** The inside of a walk without repetitions does not use [nx] of its last or [pv] of
    its first node. *)
Lemma linked_inside nx pv nx' pv' w :
  NoDup w -> (forall x, x ∈ w -> x <> last0 w -> nx' x = nx x) -> (forall x, x ∈ w -> x <> head0 w -> pv' x = pv x) ->
  linked nx pv w -> linked nx' pv' w.
Proof.
  induction w as [|x w IH]; [done|]. intros [Hx Hw]%list.NoDup_cons E1 E2. destruct w as [|y w]; [done|].
  rewrite !linked_cons. intros (H1 & H2 & H3). rewrite last0_cons in E1. pose proof (last0_in (y :: w) ltac:(done)).
  simpl head0 in E2. split_and!.
  - rewrite E1; [done|left|]. intros ->. done.
  - rewrite E2; [done|set_solver|]. intros ->. set_solver.
  - apply IH; [done| | |done].
    + intros z Hz Hne. apply E1; [by right|done].
    + intros z Hz Hne. apply E2; [by right|]. intros ->. done.
Qed.

Lemma ring_close nx pv l : l <> [] -> linked nx pv l -> nx (last0 l) = head0 l -> pv (head0 l) = last0 l -> ring nx pv l.
Proof.
  intros Hl L E1 E2. destruct (exists_last Hl) as (l' & z & E). unfold ring. rewrite E in *. rewrite last0_snoc in *.
  rewrite <- app_assoc. apply linked_split. split; [done|]. simpl. tauto.
Qed.

Lemma ring_open nx pv l : ring nx pv l -> linked nx pv l.
Proof.
  unfold ring. destruct (decide (l = [])) as [->|Hl]; [done|]. destruct (exists_last Hl) as (l' & z & E).
  rewrite E. rewrite <- app_assoc. intros [H _]%linked_split. done.
Qed.

(** Taking a node out. *)
Lemma ring_remove nx pv nx' pv' x l :
  NoDup l -> x ∈ l -> without x l <> [] -> ring nx pv l ->
  (forall y, y ∈ l -> y <> x -> nx' y = if y =? pv x then nx x else nx y) ->
  (forall y, y ∈ l -> y <> x -> pv' y = if y =? nx x then pv x else pv y) ->
  ring nx' pv' (without x l).
Proof.
  intros Hnd Hx Hne R E1 E2. apply list_elem_of_split in Hx as (l1 & l2 & ->).
  assert ((x ∉ l1) /\ (x ∉ l2) /\ NoDup (l2 ++ l1)) as (N1 & N2 & Hnd').
  { apply list.NoDup_app in Hnd as (A1 & A2 & A3). apply list.NoDup_cons in A3 as [A3 A4]. split_and!; [set_solver|done|].
    apply list.NoDup_app. split_and!; [done|set_solver|done]. }
  rewrite without_app, without_cons, Z.eqb_refl, !without_notin in * by done. apply ring_rotate in R. simpl in R.
  apply ring_rotate. assert (l2 ++ l1 <> []) as Hne' by (intros [-> ->]%app_nil; done). set (r := l2 ++ l1) in *.
  destruct (ring_cons _ _ _ _ Hne' R) as (F1 & F2 & F3 & F4). rewrite F1, F4 in *.
  assert (forall y, y ∈ r -> y ∈ l1 ++ x :: l2 /\ y <> x) as Hin by (unfold r; set_solver).
  pose proof (last0_in _ Hne') as Hlast. assert (head0 r ∈ r) as Hhead by (destruct r; [done|left]).
  apply ring_close; [done| | |].
  - apply (linked_inside nx pv); [done| | |].
    + intros y Hy Hn. destruct (Hin y Hy). rewrite E1 by done. destruct (Z.eqb_spec y (last0 r)); done.
    + intros y Hy Hn. destruct (Hin y Hy). rewrite E2 by done. destruct (Z.eqb_spec y (head0 r)); done.
    + apply ring_open in R. by destruct r; [|apply R].
  - destruct (Hin _ Hlast). rewrite E1 by done. by rewrite Z.eqb_refl.
  - destruct (Hin _ Hhead). rewrite E2 by done. by rewrite Z.eqb_refl.
Qed.

(** Putting a node in before the head, which is also after the last. *)
Lemma ring_insert nx pv nx' pv' x l :
  NoDup (x :: l) -> l <> [] -> ring nx pv l -> nx' x = head0 l -> pv' x = pv (head0 l) ->
  (forall y, y ∈ l -> nx' y = if y =? pv (head0 l) then x else nx y) ->
  (forall y, y ∈ l -> pv' y = if y =? head0 l then x else pv y) ->
  ring nx' pv' (x :: l).
Proof.
  intros [Hx Hnd]%list.NoDup_cons Hne R E1 E2 E3 E4. pose proof (ring_head_pv _ _ _ Hne R) as Hp. rewrite Hp in *.
  pose proof (last0_in _ Hne) as Hlast. assert (head0 l ∈ l) as Hhead by (destruct l; [done|left]).
  assert (last0 (x :: l) = last0 l) as El by (destruct l; [done|apply last0_cons]).
  apply ring_close; [done| | |].
  - assert (linked nx' pv' l) as L.
    { apply (linked_inside nx pv); [done| | |by apply ring_open].
      - intros y Hy Hn. rewrite E3 by done. destruct (Z.eqb_spec y (last0 l)); done.
      - intros y Hy Hn. rewrite E4 by done. destruct (Z.eqb_spec y (head0 l)); done. }
    destruct l as [|h l]; [done|]. split_and!; [done| |done]. rewrite E4 by left. simpl. by rewrite Z.eqb_refl.
  - rewrite El, E3 by done. by rewrite Z.eqb_refl.
  - simpl. by rewrite El.
Qed.

Lemma ring_insert_last nx pv nx' pv' x l :
  NoDup (x :: l) -> l <> [] -> ring nx pv l -> nx' x = head0 l -> pv' x = pv (head0 l) ->
  (forall y, y ∈ l -> nx' y = if y =? pv (head0 l) then x else nx y) ->
  (forall y, y ∈ l -> pv' y = if y =? head0 l then x else pv y) ->
  ring nx' pv' (l ++ [x]).
Proof. intros. apply (ring_rotate _ _ [x] l). by eapply ring_insert. Qed.
