(* ===== verification/Tasks.v ===== *)
(** * The task table ([src/include/linux/sched.h], [src/kernel/exit.c])

    The tasks in memory, the array [task] and the pointers between tasks: the ring
    [next_task]/[prev_task] through all tasks and the family pointers (parent,
    original parent, youngest child, younger and older sibling).  Addresses are
    numbers, 0 the null pointer; a task that was freed is no longer in the store,
    so a use of it, like one of a null pointer, is [None].

    [rep] says which ring and which lists of children the pointers of a state
    stand for; [SET_LINKS] and [REMOVE_LINKS] are shown to be insertion into and
    removal from these lists, and [audit_ptree] to find nothing in such a state. *)

From S2P Require Import Prelude Sched Sys Dll.
From Stdlib Require Import ZArith Lia.
From stdpp Require Import base list gmap sets.
Local Open Scope Z_scope.

Module Tasks.
Import Sched.

Definition TASK_ZOMBIE : Z := 3.

(** The addresses of the static variables [init_task] and [init_kernel_stack]. *)
Definition init_task : Z := 1.
Definition init_kernel_stack : Z := 2.

Record links := Links {
  l_next_task : Z;
  l_prev_task : Z;
  l_p_opptr : Z;
  l_p_pptr : Z;
  l_p_cptr : Z;
  l_p_ysptr : Z;
  l_p_osptr : Z
}.

(** What a task and its dead children used; [utime] and [stime] are in [task]. *)
Record accounts := Accounts {
  cutime : Z; cstime : Z; min_flt : Z; maj_flt : Z; cmin_flt : Z; cmaj_flt : Z
}.

(** [struct task_struct]: the fields the scheduler uses are those of
    [Sched.task]. *)
Record task_struct := TaskStruct {
  sched : Sched.task;
  pid : Z;
  pgrp : Z;
  session : Z;
  leader : Z;
  cred : Sys.ids;
  acct : accounts;
  exit_signal : Z;
  did_exec : bool;
  dumpable : bool;
  tty : Z;
  kernel_stack_page : Z;
  wait_chldexit : list Z;
  lk : links
}.

Definition set_sched (x : Sched.task) (t : task_struct) : task_struct :=
  TaskStruct x (pid t) (pgrp t) (session t) (leader t) (cred t) (acct t) (exit_signal t)
    (did_exec t) (dumpable t) (tty t) (kernel_stack_page t) (wait_chldexit t) (lk t).
Definition set_pid (x : Z) (t : task_struct) : task_struct :=
  TaskStruct (sched t) x (pgrp t) (session t) (leader t) (cred t) (acct t) (exit_signal t)
    (did_exec t) (dumpable t) (tty t) (kernel_stack_page t) (wait_chldexit t) (lk t).
Definition set_pgrp (x : Z) (t : task_struct) : task_struct :=
  TaskStruct (sched t) (pid t) x (session t) (leader t) (cred t) (acct t) (exit_signal t)
    (did_exec t) (dumpable t) (tty t) (kernel_stack_page t) (wait_chldexit t) (lk t).
Definition set_session (x : Z) (t : task_struct) : task_struct :=
  TaskStruct (sched t) (pid t) (pgrp t) x (leader t) (cred t) (acct t) (exit_signal t)
    (did_exec t) (dumpable t) (tty t) (kernel_stack_page t) (wait_chldexit t) (lk t).
Definition set_leader (x : Z) (t : task_struct) : task_struct :=
  TaskStruct (sched t) (pid t) (pgrp t) (session t) x (cred t) (acct t) (exit_signal t)
    (did_exec t) (dumpable t) (tty t) (kernel_stack_page t) (wait_chldexit t) (lk t).
Definition set_cred (x : Sys.ids) (t : task_struct) : task_struct :=
  TaskStruct (sched t) (pid t) (pgrp t) (session t) (leader t) x (acct t) (exit_signal t)
    (did_exec t) (dumpable t) (tty t) (kernel_stack_page t) (wait_chldexit t) (lk t).
Definition set_acct (x : accounts) (t : task_struct) : task_struct :=
  TaskStruct (sched t) (pid t) (pgrp t) (session t) (leader t) (cred t) x (exit_signal t)
    (did_exec t) (dumpable t) (tty t) (kernel_stack_page t) (wait_chldexit t) (lk t).
Definition set_exit_signal (x : Z) (t : task_struct) : task_struct :=
  TaskStruct (sched t) (pid t) (pgrp t) (session t) (leader t) (cred t) (acct t) x
    (did_exec t) (dumpable t) (tty t) (kernel_stack_page t) (wait_chldexit t) (lk t).
Definition set_did_exec (x : bool) (t : task_struct) : task_struct :=
  TaskStruct (sched t) (pid t) (pgrp t) (session t) (leader t) (cred t) (acct t) (exit_signal t)
    x (dumpable t) (tty t) (kernel_stack_page t) (wait_chldexit t) (lk t).
Definition set_dumpable (x : bool) (t : task_struct) : task_struct :=
  TaskStruct (sched t) (pid t) (pgrp t) (session t) (leader t) (cred t) (acct t) (exit_signal t)
    (did_exec t) x (tty t) (kernel_stack_page t) (wait_chldexit t) (lk t).
Definition set_tty (x : Z) (t : task_struct) : task_struct :=
  TaskStruct (sched t) (pid t) (pgrp t) (session t) (leader t) (cred t) (acct t) (exit_signal t)
    (did_exec t) (dumpable t) x (kernel_stack_page t) (wait_chldexit t) (lk t).
Definition set_kernel_stack_page (x : Z) (t : task_struct) : task_struct :=
  TaskStruct (sched t) (pid t) (pgrp t) (session t) (leader t) (cred t) (acct t) (exit_signal t)
    (did_exec t) (dumpable t) (tty t) x (wait_chldexit t) (lk t).
Definition set_wait_chldexit (x : list Z) (t : task_struct) : task_struct :=
  TaskStruct (sched t) (pid t) (pgrp t) (session t) (leader t) (cred t) (acct t) (exit_signal t)
    (did_exec t) (dumpable t) (tty t) (kernel_stack_page t) x (lk t).
Definition set_lk (x : links) (t : task_struct) : task_struct :=
  TaskStruct (sched t) (pid t) (pgrp t) (session t) (leader t) (cred t) (acct t) (exit_signal t)
    (did_exec t) (dumpable t) (tty t) (kernel_stack_page t) (wait_chldexit t) x.

Definition next_task (t : task_struct) : Z := l_next_task (lk t).
Definition prev_task (t : task_struct) : Z := l_prev_task (lk t).
Definition p_opptr (t : task_struct) : Z := l_p_opptr (lk t).
Definition p_pptr (t : task_struct) : Z := l_p_pptr (lk t).
Definition p_cptr (t : task_struct) : Z := l_p_cptr (lk t).
Definition p_ysptr (t : task_struct) : Z := l_p_ysptr (lk t).
Definition p_osptr (t : task_struct) : Z := l_p_osptr (lk t).

Definition setl_next_task (x : Z) (l : links) : links :=
  Links x (l_prev_task l) (l_p_opptr l) (l_p_pptr l) (l_p_cptr l) (l_p_ysptr l) (l_p_osptr l).
Definition setl_prev_task (x : Z) (l : links) : links :=
  Links (l_next_task l) x (l_p_opptr l) (l_p_pptr l) (l_p_cptr l) (l_p_ysptr l) (l_p_osptr l).
Definition setl_p_opptr (x : Z) (l : links) : links :=
  Links (l_next_task l) (l_prev_task l) x (l_p_pptr l) (l_p_cptr l) (l_p_ysptr l) (l_p_osptr l).
Definition setl_p_pptr (x : Z) (l : links) : links :=
  Links (l_next_task l) (l_prev_task l) (l_p_opptr l) x (l_p_cptr l) (l_p_ysptr l) (l_p_osptr l).
Definition setl_p_cptr (x : Z) (l : links) : links :=
  Links (l_next_task l) (l_prev_task l) (l_p_opptr l) (l_p_pptr l) x (l_p_ysptr l) (l_p_osptr l).
Definition setl_p_ysptr (x : Z) (l : links) : links :=
  Links (l_next_task l) (l_prev_task l) (l_p_opptr l) (l_p_pptr l) (l_p_cptr l) x (l_p_osptr l).
Definition setl_p_osptr (x : Z) (l : links) : links :=
  Links (l_next_task l) (l_prev_task l) (l_p_opptr l) (l_p_pptr l) (l_p_cptr l) (l_p_ysptr l) x.

Definition on_lk (g : links -> links) (t : task_struct) : task_struct := set_lk (g (lk t)) t.

Definition set_next_task (x : Z) : task_struct -> task_struct := on_lk (setl_next_task x).
Definition set_prev_task (x : Z) : task_struct -> task_struct := on_lk (setl_prev_task x).
Definition set_p_opptr (x : Z) : task_struct -> task_struct := on_lk (setl_p_opptr x).
Definition set_p_pptr (x : Z) : task_struct -> task_struct := on_lk (setl_p_pptr x).
Definition set_p_cptr (x : Z) : task_struct -> task_struct := on_lk (setl_p_cptr x).
Definition set_p_ysptr (x : Z) : task_struct -> task_struct := on_lk (setl_p_ysptr x).
Definition set_p_osptr (x : Z) : task_struct -> task_struct := on_lk (setl_p_osptr x).

Definition set_state (x : Z) (t : task_struct) : task_struct := set_sched (Sched.set_state (sched t) x) t.

(** What [struct tty_struct] says about jobs. *)
Record tty_struct := Tty { t_pgrp : Z; t_session : Z }.

Record system := System {
  store : gmap Z task_struct;
  tasks : list Z;                 (* task[NR_TASKS] *)
  current : Z;
  last_pid : Z;
  need_resched : bool;
  freed : list Z;                 (* what free_page was called for, last call first *)
  ttys : gmap Z tty_struct        (* tty_table *)
}.

Definition set_store (x : gmap Z task_struct) (s : system) : system :=
  System x (tasks s) (current s) (last_pid s) (need_resched s) (freed s) (ttys s).
Definition set_tasks (x : list Z) (s : system) : system :=
  System (store s) x (current s) (last_pid s) (need_resched s) (freed s) (ttys s).
Definition set_current (x : Z) (s : system) : system :=
  System (store s) (tasks s) x (last_pid s) (need_resched s) (freed s) (ttys s).
Definition set_last_pid (x : Z) (s : system) : system :=
  System (store s) (tasks s) (current s) x (need_resched s) (freed s) (ttys s).
Definition set_need_resched (x : bool) (s : system) : system :=
  System (store s) (tasks s) (current s) (last_pid s) x (freed s) (ttys s).
Definition set_freed (x : list Z) (s : system) : system :=
  System (store s) (tasks s) (current s) (last_pid s) (need_resched s) x (ttys s).
Definition set_ttys (x : gmap Z tty_struct) (s : system) : system :=
  System (store s) (tasks s) (current s) (last_pid s) (need_resched s) (freed s) x.

(** Reading a field, and writing. *)
Definition rd {A} (p : Z) (f : task_struct -> A) (s : system) : option A := f <$> store s !! p.

Definition upd (p : Z) (f : task_struct -> task_struct) (s : system) : option system :=
  t ← store s !! p; Some (set_store (<[p := f t]> (store s)) s).

(** ** Links *)

Definition REMOVE_LINKS (p : Z) (s : system) : option system :=
  nx ← rd p next_task s; pv ← rd p prev_task s; s ← upd nx (set_prev_task pv) s;
  pv ← rd p prev_task s; nx ← rd p next_task s; s ← upd pv (set_next_task nx) s;
  os ← rd p p_osptr s; ys ← rd p p_ysptr s;
  s ← (if os =? 0 then Some s else upd os (set_p_ysptr ys) s);
  os ← rd p p_osptr s; ys ← rd p p_ysptr s; pp ← rd p p_pptr s;
  if negb (ys =? 0) then upd ys (set_p_osptr os) s else upd pp (set_p_cptr os) s.

Definition SET_LINKS (p : Z) (s : system) : option system :=
  s ← upd p (set_next_task init_task) s;
  last ← rd init_task prev_task s; s ← upd p (set_prev_task last) s;
  last ← rd init_task prev_task s; s ← upd last (set_next_task p) s;
  s ← upd init_task (set_prev_task p) s;
  s ← upd p (set_p_ysptr 0) s;
  pp ← rd p p_pptr s; c ← rd pp p_cptr s; s ← upd p (set_p_osptr c) s;
  s ← (if negb (c =? 0) then upd c (set_p_ysptr p) s else Some s);
  pp ← rd p p_pptr s; upd pp (set_p_cptr p) s.

(** [for_each_task(p) body]: the body is given the task, the local variables [a]
    and the state, and goes on ([inl]) or leaves the loop ([inr]). *)
Fixpoint for_each_task {A R} (n : nat) (body : Z -> A -> system -> option (system * (A + R)))
    (p : Z) (a : A) (s : system) : option (system * (A + R)) :=
  match n with
  | O => None
  | S n =>
      p ← rd p next_task s;
      if p =? init_task then Some (s, inl a)
      else
        '(s, r) ← body p a s;
        match r with
        | inl a => for_each_task n body p a s
        | inr r => Some (s, inr r)
        end
  end.

(** ** [audit_ptree] *)

(** 0 if [p] is null or in [task], else 1. *)
Definition bad_task_ptr (p : Z) (s : system) : bool :=
  negb (p =? 0) && negb (bool_decide (p ∈ tasks s)).

Inductive warning :=
  | BadParent | BadChild | BadYs | BadOs | SelfParent | SelfChild | SelfYs | SelfOs
  | OsParent | OsYs | YsParent | YsOs | ChildParent | ChildYs.

Definition warn (b : bool) (w : warning) : list warning := if b then [w] else [].

(** The tests of the older sibling, of the younger sibling (where the message for
    another parent reads [p_osptr], which may be null) and of the child of the
    task [t] at [p]. *)
Definition audit_os (p : Z) (t : task_struct) (s : system) : option (list warning) :=
  if p_osptr t =? 0 then Some []
  else
    o ← store s !! p_osptr t;
    _ ← (if negb (p_pptr t =? p_pptr o) then rd (p_pptr o) pid s else Some 0);
    Some (warn (negb (p_pptr t =? p_pptr o)) OsParent ++ warn (negb (p_ysptr o =? p)) OsYs).

Definition audit_ys (p : Z) (t : task_struct) (s : system) : option (list warning) :=
  if p_ysptr t =? 0 then Some []
  else
    y ← store s !! p_ysptr t;
    _ ← (if negb (p_pptr t =? p_pptr y) then o ← store s !! p_osptr t; rd (p_pptr o) pid s else Some 0);
    Some (warn (negb (p_pptr t =? p_pptr y)) YsParent ++ warn (negb (p_osptr y =? p)) YsOs).

Definition audit_child (p : Z) (t : task_struct) (s : system) : option (list warning) :=
  if p_cptr t =? 0 then Some []
  else
    c ← store s !! p_cptr t;
    Some (warn (negb (p_pptr c =? p)) ChildParent ++ warn (negb (p_ysptr c =? 0)) ChildYs).

Definition audit_task (p : Z) (s : system) : option (list warning) :=
  t ← store s !! p;
  let w := warn (bad_task_ptr (p_pptr t) s) BadParent ++ warn (bad_task_ptr (p_cptr t) s) BadChild
           ++ warn (bad_task_ptr (p_ysptr t) s) BadYs ++ warn (bad_task_ptr (p_osptr t) s) BadOs
           ++ warn (p_pptr t =? p) SelfParent ++ warn (p_cptr t =? p) SelfChild
           ++ warn (p_ysptr t =? p) SelfYs ++ warn (p_osptr t =? p) SelfOs in
  w1 ← audit_os p t s; w2 ← audit_ys p t s; w3 ← audit_child p t s;
  Some (w ++ w1 ++ w2 ++ w3).

(** The loop over [task[1]], [task[2]], ... *)
Fixpoint audit_loop (l : list Z) (s : system) : option (list (Z * list warning)) :=
  match l with
  | [] => Some []
  | p :: l =>
      if p =? 0 then audit_loop l s
      else w ← audit_task p s; ws ← audit_loop l s; Some ((p, w) :: ws)
  end.

Definition audit_ptree (s : system) : option (list (Z * list warning)) := audit_loop (drop 1 (tasks s)) s.

(** ** The lists the pointers stand for *)

Definition nolinks : links := Links 0 0 0 0 0 0 0.

Definition L (s : system) (p : Z) : links := default nolinks (lk <$> store s !! p).

Definition strip : task_struct -> task_struct := on_lk (fun _ => nolinks).

(** All but the store. *)
Definition rest (s : system) : list Z * Z * Z * bool * list Z * gmap Z tty_struct :=
  (tasks s, current s, last_pid s, need_resched s, freed s, ttys s).

(** Nothing but links differs. *)
Record links_only (s s' : system) : Prop := {
  lo_store : forall x, strip <$> store s' !! x = strip <$> store s !! x;
  lo_rest : rest s' = rest s
}.

(** The ring is [init_task] and then [ts] in the order of creation; [ch x] are the
    children of [x], the youngest first; [o] is a task taken out of the ring
    whose children still are; the pointer of [e] to its younger sibling is not
    kept. *)
Record rep (s : system) (ts o : list Z) (ch : Z -> list Z) (e : Z) : Prop := {
  rep_nodup : NoDup (0 :: init_task :: ts ++ o);
  rep_null : store s !! 0 = None;
  rep_dom : forall x, x ∈ init_task :: ts ++ o -> is_Some (store s !! x);
  rep_next : forall x, x ∈ init_task :: ts -> l_next_task (L s x) = next_in init_task (init_task :: ts) x;
  rep_prev : forall x, x ∈ init_task :: ts ->
    l_prev_task (L s x) = prev_in (last0 (init_task :: ts)) (init_task :: ts) x;
  rep_cptr : forall x, x ∈ init_task :: ts ++ o -> l_p_cptr (L s x) = head0 (ch x);
  rep_ch_nodup : forall x, NoDup (ch x);
  rep_ch : forall x y, y ∈ ch x ->
    y ∈ ts /\ x ∈ init_task :: ts ++ o /\ l_p_pptr (L s y) = x /\ x <> y;
  rep_parent : forall y, y ∈ ts -> y ∈ ch (l_p_pptr (L s y));
  rep_os : forall y, y ∈ ts -> l_p_osptr (L s y) = next_in 0 (ch (l_p_pptr (L s y))) y;
  rep_ys : forall y, y ∈ ts -> y <> e -> l_p_ysptr (L s y) = prev_in 0 (ch (l_p_pptr (L s y))) y
}.

Lemma links_only_refl s : links_only s s.
Proof. by split. Qed.

Lemma links_only_trans s1 s2 s3 : links_only s1 s2 -> links_only s2 s3 -> links_only s1 s3.
Proof. intros [A1 A2] [B1 B2]. split; [|congruence]. intros x. by rewrite B1. Qed.

Lemma links_only_is_Some s s' x : links_only s s' -> is_Some (store s' !! x) <-> is_Some (store s !! x).
Proof. intros [H _]. specialize (H x). destruct (store s' !! x), (store s !! x); naive_solver. Qed.

Lemma rd_lk {A} (f : links -> A) p s : is_Some (store s !! p) -> rd p (fun t => f (lk t)) s = Some (f (L s p)).
Proof. intros [t Ht]. unfold rd, L. by rewrite Ht. Qed.

Lemma upd_lk g p s :
  is_Some (store s !! p) ->
  exists s', upd p (on_lk g) s = Some s' /\ links_only s s' /\
    forall x, L s' x = if x =? p then g (L s x) else L s x.
Proof.
  intros [t Ht]. unfold upd. rewrite Ht. eexists. split; [done|]. split; [split; [|done]|]; intros x; unfold L; cbn [store set_store].
  - destruct (decide (x = p)) as [-> |]; [|by rewrite lookup_insert_ne]. by rewrite lookup_insert_eq, Ht.
  - destruct (Z.eqb_spec x p) as [-> |]; [|by rewrite lookup_insert_ne]. by rewrite lookup_insert_eq, Ht.
Qed.

(** The same for a state [s'] that differs from [s] in links only. *)
Lemma rd_lk' {A} (f : links -> A) p s s' :
  links_only s s' -> is_Some (store s !! p) -> rd p (fun t => f (lk t)) s' = Some (f (L s' p)).
Proof. intros F Hp. apply rd_lk. by apply (links_only_is_Some s s'). Qed.

Lemma upd_lk' g p s s' :
  links_only s s' -> is_Some (store s !! p) ->
  exists s'', upd p (on_lk g) s' = Some s'' /\ links_only s s'' /\
    forall x, L s'' x = if x =? p then g (L s' x) else L s' x.
Proof.
  intros F Hp. destruct (upd_lk g p s') as (s'' & E & F' & HL); [by apply (links_only_is_Some s s')|].
  exists s''. split; [done|]. split; [by eapply links_only_trans|done].
Qed.

(** One write of a sequence of writes to links, in the state that [F] relates to
    the first. *)
Ltac link_write F :=
  let s' := fresh "s" in let H := fresh "H" in let F' := fresh "F" in let E := fresh "E" in
  let go p g :=
    destruct (upd_lk' g p _ _ F) as (s' & H & F' & E);
    [try done | rewrite H; clear H F; rename F' into F; cbn [mbind option_bind]] in
  lazymatch goal with
  | |- context [mbind _ (upd ?p (on_lk ?g) _)] => go p g
  | |- context [upd ?p (on_lk ?g) _] => go p g
  end.

Lemma REMOVE_LINKS_fields p s :
  let l := L s p in
  is_Some (store s !! p) -> is_Some (store s !! l_next_task l) -> is_Some (store s !! l_prev_task l) ->
  is_Some (store s !! l_p_pptr l) -> (l_p_osptr l = 0 \/ is_Some (store s !! l_p_osptr l)) ->
  (l_p_ysptr l = 0 \/ is_Some (store s !! l_p_ysptr l)) ->
  p ∉ [l_next_task l; l_prev_task l; l_p_pptr l; l_p_osptr l; l_p_ysptr l] ->
  exists s', REMOVE_LINKS p s = Some s' /\ links_only s s' /\ L s' p = l /\
    forall x, l_next_task (L s' x) = (if x =? l_prev_task l then l_next_task l else l_next_task (L s x)) /\
      l_prev_task (L s' x) = (if x =? l_next_task l then l_prev_task l else l_prev_task (L s x)) /\
      l_p_cptr (L s' x) = (if (l_p_ysptr l =? 0) && (x =? l_p_pptr l) then l_p_osptr l else l_p_cptr (L s x)) /\
      l_p_osptr (L s' x) = (if negb (l_p_ysptr l =? 0) && (x =? l_p_ysptr l) then l_p_osptr l else l_p_osptr (L s x)) /\
      l_p_ysptr (L s' x) = (if negb (l_p_osptr l =? 0) && (x =? l_p_osptr l) then l_p_ysptr l else l_p_ysptr (L s x)) /\
      l_p_pptr (L s' x) = l_p_pptr (L s x) /\ l_p_opptr (L s' x) = l_p_opptr (L s x).
Proof.
  intros l Hp Hn Hv Hpp Hos Hys Hne. unfold REMOVE_LINKS.
  unfold next_task, prev_task, p_osptr, p_ysptr, p_pptr, set_prev_task, set_next_task, set_p_ysptr, set_p_osptr, set_p_cptr.
  pose proof (links_only_refl s) as F. rewrite !not_elem_of_cons in Hne. destruct Hne as (N1 & N2 & N3 & N4 & N5 & _).
  rewrite !(rd_lk' _ p _ _ F) by done. cbn [mbind option_bind]. fold l. link_write F.
  assert (P0 : L s0 p = l) by (rewrite E; destruct (Z.eqb_spec p (l_next_task l)); done).
  rewrite !(rd_lk' _ p _ _ F), P0 by done. cbn [mbind option_bind]. link_write F.
  assert (P1 : L s1 p = l) by (rewrite E0; destruct (Z.eqb_spec p (l_prev_task l)); done).
  rewrite !(rd_lk' _ p _ _ F), P1 by done. cbn [mbind option_bind].
  assert (exists s2, (if l_p_osptr l =? 0 then Some s1 else upd (l_p_osptr l) (on_lk (setl_p_ysptr (l_p_ysptr l))) s1) = Some s2 /\
      links_only s s2 /\ forall x, L s2 x = if negb (l_p_osptr l =? 0) && (x =? l_p_osptr l) then setl_p_ysptr (l_p_ysptr l) (L s1 x) else L s1 x)
    as (s2 & -> & F2 & E2).
  { destruct (Z.eqb_spec (l_p_osptr l) 0); [by exists s1|]. destruct Hos; [done|]. by apply (upd_lk' _ _ s s1). }
  assert (P2 : L s2 p = l) by (rewrite E2; destruct (Z.eqb_spec p (l_p_osptr l)); [done|by rewrite andb_false_r]).
  cbn [mbind option_bind]. rewrite !(rd_lk' _ p _ _ F2), P2 by done. cbn [mbind option_bind].
  assert (exists s3, (if negb (l_p_ysptr l =? 0) then upd (l_p_ysptr l) (on_lk (setl_p_osptr (l_p_osptr l))) s2
                      else upd (l_p_pptr l) (on_lk (setl_p_cptr (l_p_osptr l))) s2) = Some s3 /\ links_only s s3 /\
      forall x, L s3 x = if negb (l_p_ysptr l =? 0) && (x =? l_p_ysptr l) then setl_p_osptr (l_p_osptr l) (L s2 x)
                    else if (l_p_ysptr l =? 0) && (x =? l_p_pptr l) then setl_p_cptr (l_p_osptr l) (L s2 x) else L s2 x)
    as (s3 & -> & F3 & E3).
  { destruct (Z.eqb_spec (l_p_ysptr l) 0); simpl; [by apply (upd_lk' _ _ s s2)|].
    destruct Hys; [done|]. by apply (upd_lk' _ _ s s2). }
  exists s3. split; [done|]. split; [done|]. split.
  - rewrite E3. destruct (Z.eqb_spec p (l_p_ysptr l)); [done|]. destruct (Z.eqb_spec p (l_p_pptr l)); [done|].
    by rewrite !andb_false_r.
  - intros x. rewrite E3, E2, E0, E. clear.
    by destruct (l_p_ysptr l =? 0), (l_p_osptr l =? 0), (x =? l_p_ysptr l), (x =? l_p_pptr l), (x =? l_p_osptr l),
      (x =? l_prev_task l), (x =? l_next_task l).
Qed.

Lemma SET_LINKS_fields p s :
  let last := l_prev_task (L s init_task) in let pp := l_p_pptr (L s p) in let c := l_p_cptr (L s pp) in
  is_Some (store s !! p) -> is_Some (store s !! init_task) -> is_Some (store s !! last) -> is_Some (store s !! pp) ->
  (c = 0 \/ is_Some (store s !! c)) -> p ∉ [init_task; last; pp; c] ->
  exists s', SET_LINKS p s = Some s' /\ links_only s s' /\
    forall x, l_next_task (L s' x) = (if x =? last then p else if x =? p then init_task else l_next_task (L s x)) /\
      l_prev_task (L s' x) = (if x =? init_task then p else if x =? p then last else l_prev_task (L s x)) /\
      l_p_cptr (L s' x) = (if x =? pp then p else l_p_cptr (L s x)) /\
      l_p_osptr (L s' x) = (if x =? p then c else l_p_osptr (L s x)) /\
      l_p_ysptr (L s' x) = (if negb (c =? 0) && (x =? c) then p else if x =? p then 0 else l_p_ysptr (L s x)) /\
      l_p_pptr (L s' x) = l_p_pptr (L s x) /\ l_p_opptr (L s' x) = l_p_opptr (L s x).
Proof.
  intros last pp c Hp Hi Hl Hpp Hc Hne. unfold SET_LINKS.
  unfold next_task, prev_task, p_osptr, p_ysptr, p_pptr, p_cptr, set_prev_task, set_next_task, set_p_ysptr, set_p_osptr, set_p_cptr.
  pose proof (links_only_refl s) as F. rewrite !not_elem_of_cons in Hne. destruct Hne as (N1 & N2 & N3 & N4 & _).
  assert (Hip : (init_task =? p) = false) by (by apply Z.eqb_neq).
  assert (Hlp : (last =? p) = false) by (apply Z.eqb_neq; congruence).
  assert (Hpi : (p =? init_task) = false) by (by apply Z.eqb_neq). assert (Hpl : (p =? last) = false) by (by apply Z.eqb_neq).
  assert (Hppp : (pp =? p) = false) by (apply Z.eqb_neq; congruence). assert (Hpc : (p =? c) = false) by (by apply Z.eqb_neq).
  link_write F. rewrite (rd_lk' _ init_task _ _ F), E, Hip by done. fold last. cbn [mbind option_bind]. link_write F.
  rewrite (rd_lk' _ init_task _ _ F), E0, Hip, E, Hip by done. fold last. cbn [mbind option_bind]. link_write F.
  link_write F. link_write F.
  assert (Ep : l_p_pptr (L s4 p) = pp) by (by rewrite E3, Z.eqb_refl, E2, Hpi, E1, Hpl, E0, Z.eqb_refl, E, Z.eqb_refl).
  assert (Ec : l_p_cptr (L s4 pp) = c).
  { rewrite E3, Hppp, E2, E1, E0, Hppp, E, Hppp. by destruct (pp =? init_task), (pp =? last). }
  rewrite (rd_lk' _ p _ _ F), Ep by done. cbn [mbind option_bind]. rewrite (rd_lk' _ pp _ _ F), Ec by done.
  cbn [mbind option_bind]. link_write F.
  assert (exists s6, (if negb (c =? 0) then upd c (on_lk (setl_p_ysptr p)) s5 else Some s5) = Some s6 /\ links_only s s6 /\
      forall x, L s6 x = if negb (c =? 0) && (x =? c) then setl_p_ysptr p (L s5 x) else L s5 x) as (s6 & -> & F6 & E5).
  { destruct (Z.eqb_spec c 0); simpl; [by exists s5|]. destruct Hc; [done|]. by apply (upd_lk' _ _ s s5). }
  cbn [mbind option_bind]. rewrite (rd_lk' _ p _ _ F6) by done.
  assert (Ep' : l_p_pptr (L s6 p) = pp) by (by rewrite E5, Hpc, andb_false_r, E4, Z.eqb_refl).
  rewrite Ep'. cbn [mbind option_bind]. link_write F6. exists s7. split; [done|]. split; [done|]. intros x.
  rewrite E6, E5, E4, E3, E2, E1, E0, E. clear - Hpi Hpl.
  destruct (Z.eqb_spec x p) as [-> |]; [rewrite Hpi, Hpl; by destruct (c =? 0), (p =? c), (p =? pp)|].
  by destruct (x =? pp), (c =? 0), (x =? c), (x =? init_task), (x =? last).
Qed.

Lemma rep_parent_in s ts o ch e y : rep s ts o ch e -> y ∈ ts -> l_p_pptr (L s y) ∈ init_task :: ts ++ o.
Proof. intros H Hy. by destruct (rep_ch _ _ _ _ _ H _ _ (rep_parent _ _ _ _ _ H y Hy)) as (_ & ? & _). Qed.

Lemma rep_ch_zero s ts o ch e x : rep s ts o ch e -> 0 ∉ ch x.
Proof. intros H Hx. destruct (rep_ch _ _ _ _ _ H _ _ Hx) as (H0 & _). pose proof (rep_nodup _ _ _ _ _ H) as [Hn _]%list.NoDup_cons. set_solver. Qed.

(** The pointers of a task lead to tasks, and not back to itself. *)
Lemma rep_pointers s ts o ch e p :
  rep s ts o ch e -> p ∈ ts -> p <> e ->
  let l := L s p in
  l_next_task l ∈ init_task :: ts /\ l_prev_task l ∈ init_task :: ts /\ l_p_pptr l ∈ init_task :: ts ++ o /\
  (l_p_osptr l = 0 \/ l_p_osptr l ∈ ts /\ l_p_pptr (L s (l_p_osptr l)) = l_p_pptr l) /\
  (l_p_ysptr l = 0 \/ l_p_ysptr l ∈ ts /\ l_p_pptr (L s (l_p_ysptr l)) = l_p_pptr l) /\
  p ∉ [l_next_task l; l_prev_task l; l_p_pptr l; l_p_osptr l; l_p_ysptr l].
Proof.
  intros H Hp He. cbv zeta. pose proof (rep_nodup _ _ _ _ _ H) as [H0 Hnd]%list.NoDup_cons.
  apply (NoDup_app_l (init_task :: ts)) in Hnd. pose proof Hnd as [Hi Hnd']%list.NoDup_cons.
  assert (Hpi : p ∈ init_task :: ts) by (by right). assert (Hne : p <> init_task) by (by intros ->).
  assert (Hch := rep_parent _ _ _ _ _ H p Hp). destruct (rep_ch _ _ _ _ _ H _ _ Hch) as (_ & Hpp & _ & Hpne).
  assert (Hc0 := rep_ch_zero _ _ _ _ _ (l_p_pptr (L s p)) H).
  assert (Hcn := rep_ch_nodup _ _ _ _ _ H (l_p_pptr (L s p))).
  pose proof (rep_next _ _ _ _ _ H p Hpi) as En. pose proof (rep_prev _ _ _ _ _ H p Hpi) as Ev.
  pose proof (rep_os _ _ _ _ _ H p Hp) as Eo. pose proof (rep_ys _ _ _ _ _ H p Hp He) as Ey.
  set (l := L s p) in *. clearbody l. cbn [next_in prev_in] in En, Ev. destruct (Z.eqb_spec init_task p); [done|].
  assert (Hsib : forall q, q ∈ ch (l_p_pptr l) -> q ∈ ts /\ l_p_pptr (L s q) = l_p_pptr l).
  { intros q Hq. by destruct (rep_ch _ _ _ _ _ H _ _ Hq) as (? & _ & ? & _). }
  split; [rewrite En; destruct (next_in_in init_task ts p) as [-> |]; [left|by right]|].
  split; [rewrite Ev; destruct (prev_in_in init_task ts p) as [-> |]; [left|by right]|]. split; [done|].
  split; [rewrite Eo; destruct (next_in_in 0 (ch (l_p_pptr l)) p); auto|].
  split; [rewrite Ey; destruct (prev_in_in 0 (ch (l_p_pptr l)) p); auto|].
  rewrite !not_elem_of_cons. rewrite En, Ev, Eo, Ey. repeat split; try apply not_eq_sym; [..|apply not_elem_of_nil].
  - by apply next_in_ne.
  - by apply prev_in_ne.
  - done.
  - apply next_in_ne; [by apply list.NoDup_cons|done].
  - apply prev_in_ne; [by apply list.NoDup_cons|done].
Qed.

(** The ring without [p], and with [p] at the end. *)
Lemma ring_without p ts x :
  NoDup (0 :: init_task :: ts) -> p ∈ ts -> x ∈ init_task :: without p ts ->
  next_in init_task (init_task :: without p ts) x =
    (if x =? prev_in init_task ts p then next_in init_task ts p else next_in init_task (init_task :: ts) x) /\
  prev_in (last0 (init_task :: without p ts)) (init_task :: without p ts) x =
    (if x =? next_in init_task ts p then prev_in init_task ts p
     else prev_in (last0 (init_task :: ts)) (init_task :: ts) x).
Proof.
  intros [H0 Hnd]%list.NoDup_cons Hp Hx. pose proof Hnd as [Hi Hnd']%list.NoDup_cons.
  assert (Hpi : p <> init_task) by (by intros ->).
  assert (W : without p (init_task :: ts) = init_task :: without p ts).
  { rewrite without_cons. destruct (Z.eqb_spec init_task p); [congruence|done]. }
  rewrite <- W in *. apply elem_of_without in Hx as [Hxp Hx]. assert (Hin : p ∈ init_task :: ts) by (by right). split.
  - rewrite (next_without init_task 0 p (init_task :: ts) x) by done.
    cbn [prev_in next_in]. destruct (Z.eqb_spec init_task p); [congruence|done].
  - rewrite W. cbn [prev_in]. destruct (Z.eqb_spec init_task x) as [<- | Hxi].
    + rewrite <- W, (last_without 0 p) by (done || (cbn; congruence)).
      assert (E : last0 (init_task :: ts) = last0 ts) by (destruct ts; [set_solver|apply last0_cons]). rewrite E.
      pose proof (next_in_last init_task ts p Hnd' Hi Hp) as Hl. cbn [prev_in].
      destruct (Z.eqb_spec init_task p); [congruence|]. rewrite ?Z.eqb_refl.
      destruct (Z.eqb_spec (last0 ts) p) as [E1|E1], (Z.eqb_spec init_task (next_in init_task ts p)) as [E2|E2]; [done| | |done].
      * by apply Hl in E1.
      * symmetry in E2. by apply Hl in E2.
    + apply elem_of_cons in Hx as [-> | Hx]; [done|]. by apply prev_without.
Qed.

Lemma ring_snoc p ts x :
  NoDup (init_task :: ts) -> p ∉ init_task :: ts -> x ∈ init_task :: ts ++ [p] ->
  next_in init_task (init_task :: ts ++ [p]) x =
    (if x =? last0 (init_task :: ts) then p else if x =? p then init_task else next_in init_task (init_task :: ts) x) /\
  prev_in (last0 (init_task :: ts ++ [p])) (init_task :: ts ++ [p]) x =
    (if x =? init_task then p else if x =? p then last0 (init_task :: ts)
     else prev_in (last0 (init_task :: ts)) (init_task :: ts) x).
Proof.
  intros Hnd Hp Hx. change (init_task :: ts ++ [p]) with ((init_task :: ts) ++ [p]) in *. rewrite last0_snoc.
  assert (Hl : last0 (init_task :: ts) ∈ init_task :: ts) by (by apply last0_in).
  destruct (Z.eqb_spec x p) as [-> | Hxp].
  - rewrite next_in_snoc_last, prev_in_snoc_last by done.
    destruct (Z.eqb_spec p (last0 (init_task :: ts))) as [E|]; [by rewrite <- E in Hl|].
    destruct (Z.eqb_spec p init_task) as [-> |]; [exfalso; apply Hp; left|]. split; [done|].
    unfold last0. by destruct (last (init_task :: ts)) eqn:El; [|apply last_None in El].
  - apply elem_of_app in Hx as [Hx | ->%list_elem_of_singleton]; [|done].
    rewrite next_in_snoc, prev_in_snoc by done. split; [done|]. cbn [prev_in]. rewrite (Z.eqb_sym x).
    by destruct (Z.eqb_spec init_task x).
Qed.

Lemma rep_ring s ts o ch e p :
  rep s ts o ch e -> p ∈ ts ->
  l_next_task (L s p) = next_in init_task ts p /\ l_prev_task (L s p) = prev_in init_task ts p.
Proof.
  intros H Hp. pose proof (rep_nodup _ _ _ _ _ H) as [_ [Hi _]%list.NoDup_cons]%list.NoDup_cons.
  rewrite (rep_next _ _ _ _ _ H), (rep_prev _ _ _ _ _ H) by (by right). cbn [next_in prev_in].
  destruct (Z.eqb_spec init_task p) as [<- |]; [|done]. exfalso. apply Hi, elem_of_app. by left.
Qed.

(** The siblings without [p]. *)
Lemma sib_without p l y :
  NoDup l -> 0 ∉ l -> p ∈ l -> y ∈ l -> y <> p ->
  next_in 0 (without p l) y =
    (if negb (prev_in 0 l p =? 0) && (y =? prev_in 0 l p) then next_in 0 l p else next_in 0 l y) /\
  prev_in 0 (without p l) y =
    (if negb (next_in 0 l p =? 0) && (y =? next_in 0 l p) then prev_in 0 l p else prev_in 0 l y).
Proof.
  intros Hnd H0 Hp Hy Hne. assert (y <> 0) by (by intros ->).
  rewrite (next_without 0 0), (prev_without 0 0) by done. split.
  - destruct (Z.eqb_spec y (prev_in 0 l p)) as [<- |]; [|by rewrite andb_false_r]. by destruct (Z.eqb_spec y 0).
  - destruct (Z.eqb_spec y (next_in 0 l p)) as [<- |]; [|by rewrite andb_false_r]. by destruct (Z.eqb_spec y 0).
Qed.

Lemma links_only_dom s s' (P : list Z) :
  links_only s s' -> (forall x, x ∈ P -> is_Some (store s !! x)) -> store s !! 0 = None ->
  (forall x, x ∈ P -> is_Some (store s' !! x)) /\ store s' !! 0 = None.
Proof.
  intros F H H0. split; [intros x Hx; by apply (links_only_is_Some s s'), H|].
  apply eq_None_not_Some. rewrite (links_only_is_Some s s' 0 F), H0. by intros [? ?].
Qed.

(** Taking a task out. *)
Lemma REMOVE_LINKS_rep p s ts ch :
  rep s ts [] ch 0 -> p ∈ ts ->
  exists s', REMOVE_LINKS p s = Some s' /\ links_only s s' /\
    (forall x, l_p_pptr (L s' x) = l_p_pptr (L s x) /\ l_p_opptr (L s' x) = l_p_opptr (L s x)) /\
    rep s' (without p ts) [p] (fun x => if x =? l_p_pptr (L s p) then without p (ch x) else ch x) 0.
Proof.
  intros H Hp. pose proof (rep_nodup _ _ _ _ _ H) as Hnd. rewrite app_nil_r in Hnd.
  pose proof Hnd as [H0 [Hi Hnd']%list.NoDup_cons]%list.NoDup_cons.
  assert (Hp0 : p <> 0) by (intros ->; apply H0; by right).
  destruct (rep_pointers _ _ _ _ _ p H Hp Hp0) as (Pn & Pv & Ppp & Po & Py & Pne).
  assert (Hdom : forall x, x ∈ init_task :: ts -> is_Some (store s !! x)).
  { intros x Hx. apply (rep_dom _ _ _ _ _ H). by rewrite app_nil_r. }
  rewrite app_nil_r in Ppp.
  destruct (REMOVE_LINKS_fields p s) as (s' & E & F & _ & HL);
    [by apply Hdom; right|by apply Hdom..|destruct Po as [|[? _]]; [by left|right; apply Hdom; by right]|
     destruct Py as [|[? _]]; [by left|right; apply Hdom; by right]|done|].
  exists s'. split; [done|]. split; [done|]. split; [intros x; by destruct (HL x) as (_ & _ & _ & _ & _ & ? & ?)|].
  destruct (rep_ring _ _ _ _ _ p H Hp) as [En Ev]. rewrite En, Ev in HL.
  pose proof (rep_os _ _ _ _ _ H p Hp) as Eo. pose proof (rep_ys _ _ _ _ _ H p Hp Hp0) as Ey.
  pose proof (rep_parent _ _ _ _ _ H p Hp) as Hch. set (pp := l_p_pptr (L s p)) in *.
  pose proof (rep_ch_nodup _ _ _ _ _ H pp) as Hcn. pose proof (rep_ch_zero _ _ _ _ _ pp H) as Hc0.
  assert (Hpt : forall x, x ∈ init_task :: without p ts ++ [p] <-> x ∈ init_task :: ts).
  { intros x. rewrite !elem_of_cons, elem_of_app, elem_of_without, list_elem_of_singleton.
    destruct (decide (x = p)) as [-> |]; intuition. }
  assert (Hwo : forall x y, y ∈ (if x =? pp then without p (ch x) else ch x) <-> y ∈ ch x /\ y <> p).
  { intros x y. destruct (Z.eqb_spec x pp) as [-> | Hx]; [rewrite elem_of_without; tauto|].
    split; [|tauto]. intros Hy. split; [done|]. intros ->. by destruct (rep_ch _ _ _ _ _ H _ _ Hy) as (_ & _ & ? & _). }
  destruct (links_only_dom s s' (init_task :: ts) F Hdom (rep_null _ _ _ _ _ H)) as [Hdom' Hnull'].
  split.
  - (* nodup *) rewrite !list.NoDup_cons, Hpt, elem_of_app, elem_of_without, list_elem_of_singleton, list.NoDup_app.
    split; [done|]. split; [intros [[_ ?] | E1]; [done|]; by rewrite <- E1 in Hp|].
    split; [by apply NoDup_without|]. split; [|apply NoDup_singleton]. intros x [? _]%elem_of_without ?%list_elem_of_singleton. done.
  - done.
  - intros x Hx%Hpt. auto.
  - intros x Hx. destruct (HL x) as (-> & _). rewrite (rep_next _ _ _ _ _ H) by (apply Hpt; rewrite app_comm_cons, elem_of_app; by left).
    symmetry. by apply ring_without.
  - intros x Hx. destruct (HL x) as (_ & -> & _). rewrite (rep_prev _ _ _ _ _ H) by (apply Hpt; rewrite app_comm_cons, elem_of_app; by left).
    symmetry. by apply ring_without.
  - intros x Hx%Hpt. destruct (HL x) as (_ & _ & -> & _). rewrite (rep_cptr _ _ _ _ _ H) by (by rewrite app_nil_r).
    destruct (Z.eqb_spec x pp) as [-> |]; [|by rewrite andb_false_r]. rewrite head_without, Eo, Ey by done.
    by destruct (prev_in 0 (ch pp) p =? 0).
  - intros x. destruct (x =? pp); [apply NoDup_without|]; apply (rep_ch_nodup _ _ _ _ _ H).
  - intros x y [Hy Hyp]%Hwo. destruct (HL y) as (_ & _ & _ & _ & _ & -> & _).
    destruct (rep_ch _ _ _ _ _ H _ _ Hy) as (A & B & C). rewrite elem_of_without, Hpt. by rewrite app_nil_r in B.
  - intros y [Hyp Hy]%elem_of_without. destruct (HL y) as (_ & _ & _ & _ & _ & -> & _). apply Hwo. split; [|done]. by apply (rep_parent _ _ _ _ _ H).
  - intros y [Hyp Hy]%elem_of_without. destruct (HL y) as (_ & _ & _ & -> & _ & -> & _).
    rewrite (rep_os _ _ _ _ _ H y Hy), Eo, Ey. pose proof (rep_parent _ _ _ _ _ H y Hy) as Hyc.
    destruct (Z.eqb_spec (l_p_pptr (L s y)) pp) as [Epp|Npp].
    + rewrite Epp in *. symmetry. by apply sib_without.
    + destruct (Z.eqb_spec y (prev_in 0 (ch pp) p)) as [Eyy|]; [|by rewrite andb_false_r].
      rewrite Ey in Py. destruct Py as [-> | [_ Py]]; [done|]. congruence.
  - intros y [Hyp Hy]%elem_of_without Hy0. destruct (HL y) as (_ & _ & _ & _ & -> & -> & _).
    rewrite (rep_ys _ _ _ _ _ H y Hy Hy0), Eo, Ey. pose proof (rep_parent _ _ _ _ _ H y Hy) as Hyc.
    destruct (Z.eqb_spec (l_p_pptr (L s y)) pp) as [Epp|Npp].
    + rewrite Epp in *. symmetry. by apply sib_without.
    + destruct (Z.eqb_spec y (next_in 0 (ch pp) p)) as [Eyy|]; [|by rewrite andb_false_r].
      rewrite Eo in Po. destruct Po as [-> | [_ Po]]; [done|]. congruence.
Qed.

Lemma rep_out s ts p ch e :
  rep s ts [p] ch e ->
  p <> 0 /\ (p ∉ init_task :: ts) /\ NoDup (init_task :: ts) /\
  (forall x, x ∈ init_task :: ts -> x ∈ init_task :: ts ++ [p] /\ x <> 0) /\ p ∈ init_task :: ts ++ [p].
Proof.
  intros H. pose proof (rep_nodup _ _ _ _ _ H) as Hnd. change (init_task :: ts ++ [p]) with ((init_task :: ts) ++ [p]) in *.
  apply list.NoDup_cons in Hnd as [H0 (Hndr & Hnp & _)%list.NoDup_app].
  assert (Hp : p ∉ init_task :: ts) by (intros Hx; apply (Hnp p Hx); left).
  assert (Hpin : p ∈ (init_task :: ts) ++ [p]) by (apply elem_of_app; right; left).
  split; [by intros ->|]. split; [done|]. split; [done|]. split; [|done]. intros x Hx.
  assert (x ∈ (init_task :: ts) ++ [p]) by (apply elem_of_app; by left). split; [done|by intros ->].
Qed.

(** The writes of [SET_LINKS] in terms of the lists. *)
Lemma SET_LINKS_lists p s ts ch :
  let pp := l_p_pptr (L s p) in
  rep s ts [p] ch 0 -> pp ∈ init_task :: ts ->
  exists s', SET_LINKS p s = Some s' /\ links_only s s' /\
    forall x, l_next_task (L s' x) = (if x =? last0 (init_task :: ts) then p else if x =? p then init_task else l_next_task (L s x)) /\
      l_prev_task (L s' x) = (if x =? init_task then p else if x =? p then last0 (init_task :: ts) else l_prev_task (L s x)) /\
      l_p_cptr (L s' x) = (if x =? pp then p else l_p_cptr (L s x)) /\
      l_p_osptr (L s' x) = (if x =? p then head0 (ch pp) else l_p_osptr (L s x)) /\
      l_p_ysptr (L s' x) = (if negb (head0 (ch pp) =? 0) && (x =? head0 (ch pp)) then p
                            else if x =? p then 0 else l_p_ysptr (L s x)) /\
      l_p_pptr (L s' x) = l_p_pptr (L s x) /\ l_p_opptr (L s' x) = l_p_opptr (L s x).
Proof.
  intros pp H Hpp. destruct (rep_out _ _ _ _ _ H) as (Hp0 & Hp & Hnd & Hin & Hpin).
  assert (Hdom : forall x, x ∈ init_task :: ts -> is_Some (store s !! x)).
  { intros x Hx. by apply (rep_dom _ _ _ _ _ H), Hin. }
  assert (El : l_prev_task (L s init_task) = last0 (init_task :: ts)).
  { rewrite (rep_prev _ _ _ _ _ H) by left. cbn [prev_in]. by rewrite Z.eqb_refl. }
  assert (Hl : last0 (init_task :: ts) ∈ init_task :: ts) by (by apply last0_in).
  assert (Ec : l_p_cptr (L s pp) = head0 (ch pp)) by (by apply (rep_cptr _ _ _ _ _ H), Hin).
  assert (Hc : head0 (ch pp) = 0 \/ head0 (ch pp) ∈ init_task :: ts).
  { destruct (decide (head0 (ch pp) = 0)) as [|Hn]; [by left|right; right].
    by destruct (rep_ch _ _ _ _ _ H pp _ (head0_in _ Hn)) as (? & _). }
  assert (Hne : forall x, x = 0 \/ x ∈ init_task :: ts -> p <> x) by (intros x [-> | Hx] ->; done).
  rewrite <- El, <- Ec in *. apply SET_LINKS_fields.
  - by apply (rep_dom _ _ _ _ _ H).
  - apply Hdom. left.
  - auto.
  - auto.
  - destruct Hc; [by left|right; auto].
  - rewrite !not_elem_of_cons. repeat split; [apply Hne; right; left|apply Hne; by right|apply Hne; by right|by apply Hne|apply not_elem_of_nil].
Qed.

(** Putting a task at the end of the ring, as the youngest child of its parent. *)
Lemma SET_LINKS_rep p s ts ch :
  rep s ts [p] ch 0 -> l_p_pptr (L s p) ∈ init_task :: ts ->
  exists s', SET_LINKS p s = Some s' /\ links_only s s' /\
    (forall x, l_p_pptr (L s' x) = l_p_pptr (L s x) /\ l_p_opptr (L s' x) = l_p_opptr (L s x)) /\
    rep s' (ts ++ [p]) [] (fun x => if x =? l_p_pptr (L s p) then p :: ch x else ch x) 0.
Proof.
  intros H Hpp. destruct (rep_out _ _ _ _ _ H) as (Hp0 & Hp & Hnd & Hin & Hpin).
  destruct (SET_LINKS_lists p s ts ch H Hpp) as (s' & E & F & HL).
  exists s'. split; [done|]. split; [done|]. split; [intros x; by destruct (HL x) as (_ & _ & _ & _ & _ & ? & ?)|].
  set (pp := l_p_pptr (L s p)) in *.
  destruct (links_only_dom s s' (init_task :: ts ++ [p]) F (rep_dom _ _ _ _ _ H) (rep_null _ _ _ _ _ H)) as [Hdom' Hnull'].
  assert (Hpc : forall x, p ∉ ch x) by (intros x Hx; apply Hp; right; by destruct (rep_ch _ _ _ _ _ H _ _ Hx)).
  assert (Hwo : forall x y, y ∈ (if x =? pp then p :: ch x else ch x) <-> y ∈ ch x \/ y = p /\ x = pp).
  { intros x y. destruct (Z.eqb_spec x pp) as [-> | Hx]; [rewrite elem_of_cons|]; intuition congruence. }
  split; rewrite ?app_nil_r.
  - apply (rep_nodup _ _ _ _ _ H).
  - done.
  - done.
  - intros x Hx. destruct (HL x) as (-> & _). rewrite (proj1 (ring_snoc p ts x Hnd Hp Hx)).
    destruct (x =? last0 _); [done|]. destruct (Z.eqb_spec x p); [done|]. apply (rep_next _ _ _ _ _ H).
    change (init_task :: ts ++ [p]) with ((init_task :: ts) ++ [p]) in Hx. apply elem_of_app in Hx as [|?%list_elem_of_singleton]; done.
  - intros x Hx. destruct (HL x) as (_ & -> & _). rewrite (proj2 (ring_snoc p ts x Hnd Hp Hx)).
    destruct (x =? init_task); [done|]. destruct (Z.eqb_spec x p); [done|]. apply (rep_prev _ _ _ _ _ H).
    change (init_task :: ts ++ [p]) with ((init_task :: ts) ++ [p]) in Hx. apply elem_of_app in Hx as [|?%list_elem_of_singleton]; done.
  - intros x Hx. destruct (HL x) as (_ & _ & -> & _). destruct (x =? pp); [done|]. by apply (rep_cptr _ _ _ _ _ H).
  - intros x. destruct (x =? pp); [apply list.NoDup_cons; split; [done|]|]; apply (rep_ch_nodup _ _ _ _ _ H).
  - intros x y Hy%Hwo. destruct (HL y) as (_ & _ & _ & _ & _ & -> & _). rewrite elem_of_app.
    destruct Hy as [Hy|[-> ->]]; [|split; [right; left|]; split; [by apply Hin|]; split; [done|by intros E'; rewrite <- E' in Hp]].
    destruct (rep_ch _ _ _ _ _ H _ _ Hy) as (A & B & C). split; [by left|]. split; done.
  - intros y Hy. destruct (HL y) as (_ & _ & _ & _ & _ & -> & _). apply Hwo.
    apply elem_of_app in Hy as [Hy | ->%list_elem_of_singleton]; [left; by apply (rep_parent _ _ _ _ _ H)|by right].
  - intros y Hy. destruct (HL y) as (_ & _ & _ & -> & _ & -> & _).
    apply elem_of_app in Hy as [Hy | ->%list_elem_of_singleton]; [|by rewrite !Z.eqb_refl; cbn [next_in]; rewrite Z.eqb_refl, head0_head].
    destruct (Z.eqb_spec y p) as [-> |]; [exfalso; apply Hp; by right|]. rewrite (rep_os _ _ _ _ _ H y Hy).
    destruct (Z.eqb_spec (l_p_pptr (L s y)) pp) as [-> |]; [|done]. cbn [next_in]. by destruct (Z.eqb_spec p y).
  - intros y Hy Hy0. destruct (HL y) as (_ & _ & _ & _ & -> & -> & _).
    apply elem_of_app in Hy as [Hy | ->%list_elem_of_singleton].
    + destruct (Z.eqb_spec y p) as [-> | Hyp]; [exfalso; apply Hp; by right|]. rewrite (rep_ys _ _ _ _ _ H y Hy Hy0).
      pose proof (rep_parent _ _ _ _ _ H y Hy) as Hyc. destruct (Z.eqb_spec (l_p_pptr (L s y)) pp) as [Epp|Npp].
      * rewrite Epp in *. rewrite prev_in_cons by done. destruct (Z.eqb_spec y (head0 (ch pp))) as [<- |]; [|by rewrite andb_false_r].
        by destruct (Z.eqb_spec y 0).
      * destruct (Z.eqb_spec y (head0 (ch pp))) as [Ey|]; [|by rewrite andb_false_r]. exfalso.
        assert (Hy' : y ∈ ch pp) by (rewrite Ey; apply head0_in; congruence).
        by destruct (rep_ch _ _ _ _ _ H _ _ Hy') as (_ & _ & ? & _).
    + fold pp. rewrite !Z.eqb_refl. cbn [prev_in]. rewrite Z.eqb_refl.
      destruct (Z.eqb_spec p (head0 (ch pp))) as [Ep|]; [|by rewrite andb_false_r]. exfalso. apply (Hpc pp). rewrite Ep. apply head0_in. congruence.
Qed.

(** A new task, not linked yet. *)
Lemma rep_ch_nil s ts o ch e x : rep s ts o ch e -> x ∉ init_task :: ts ++ o -> ch x = [].
Proof.
  intros H Hx. destruct (ch x) as [|y l] eqn:E; [done|]. exfalso. apply Hx.
  by destruct (rep_ch _ _ _ _ _ H x y) as (_ & ? & _); [rewrite E; left|].
Qed.

Lemma L_insert s p t x : L (set_store (<[p := t]> (store s)) s) x = if x =? p then lk t else L s x.
Proof.
  unfold L. cbn [store set_store]. destruct (Z.eqb_spec x p) as [-> |]; [by rewrite lookup_insert_eq|by rewrite lookup_insert_ne].
Qed.

Lemma rep_new s ts ch p t :
  rep s ts [] ch 0 -> p <> 0 -> p ∉ init_task :: ts -> p_cptr t = 0 ->
  rep (set_store (<[p := t]> (store s)) s) ts [p] ch 0.
Proof.
  intros H Hp0 Hp Ht. assert (Hne : forall x, x ∈ init_task :: ts -> (x =? p) = false).
  { intros x Hx. apply Z.eqb_neq. by intros ->. }
  assert (Hin : forall x, x ∈ init_task :: ts ++ [p] <-> x ∈ init_task :: ts \/ x = p).
  { intros x. rewrite app_comm_cons, elem_of_app, list_elem_of_singleton. tauto. }
  assert (Hnt : forall y, y ∈ ts -> (y =? p) = false) by (intros y Hy; apply Hne; by right).
  pose proof (rep_nodup _ _ _ _ _ H) as Hnd. rewrite app_nil_r in Hnd.
  split.
  - apply list.NoDup_cons in Hnd as [H0 Hnd]. apply list.NoDup_cons. rewrite Hin. split; [intros [?|?]; congruence|].
    change (init_task :: ts ++ [p]) with ((init_task :: ts) ++ [p]). apply list.NoDup_app. split; [done|].
    split; [|apply NoDup_singleton]. intros x Hx ->%list_elem_of_singleton. done.
  - cbn [store set_store]. rewrite lookup_insert_ne by congruence. apply H.
  - intros x [Hx | ->]%Hin; cbn [store set_store]; [|rewrite lookup_insert_eq; eauto].
    rewrite lookup_insert_ne by (by intros ->). apply (rep_dom _ _ _ _ _ H). by rewrite app_nil_r.
  - intros x Hx. rewrite L_insert, Hne by done. by apply (rep_next _ _ _ _ _ H).
  - intros x Hx. rewrite L_insert, Hne by done. by apply (rep_prev _ _ _ _ _ H).
  - intros x [Hx | ->]%Hin; rewrite L_insert; [rewrite Hne by done; apply (rep_cptr _ _ _ _ _ H); by rewrite app_nil_r|].
    rewrite Z.eqb_refl, (rep_ch_nil _ _ _ _ _ p H) by (by rewrite app_nil_r). done.
  - apply (rep_ch_nodup _ _ _ _ _ H).
  - intros x y Hy. destruct (rep_ch _ _ _ _ _ H x y Hy) as (A & B & C & D). rewrite app_nil_r in B.
    rewrite L_insert, Hnt, Hin by done. tauto.
  - intros y Hy. rewrite L_insert, Hnt by done. by apply (rep_parent _ _ _ _ _ H).
  - intros y Hy. rewrite L_insert, Hnt by done. by apply (rep_os _ _ _ _ _ H).
  - intros y Hy. rewrite L_insert, Hnt by done. by apply (rep_ys _ _ _ _ _ H).
Qed.

(** ** [audit_ptree] finds nothing *)

(** The array holds the tasks of the ring, each once. *)
Record table (s : system) (ts : list Z) : Prop := {
  table_length : length (tasks s) = Z.to_nat NR_TASKS;
  table_init : tasks s !! 0%nat = Some init_task;
  table_in : forall p, p <> 0 -> p ∈ tasks s <-> p ∈ init_task :: ts;
  table_once : forall i j p, p <> 0 -> tasks s !! i = Some p -> tasks s !! j = Some p -> i = j
}.

Lemma not_bad s ts p : table s ts -> p = 0 \/ p ∈ init_task :: ts -> bad_task_ptr p s = false.
Proof.
  intros T H. unfold bad_task_ptr. destruct (Z.eqb_spec p 0) as [|Hp]; [done|]. destruct H as [|H]; [done|].
  rewrite bool_decide_true; [done|]. by apply (table_in _ _ T).
Qed.

Lemma lookup_L s p : is_Some (store s !! p) -> exists t, store s !! p = Some t /\ lk t = L s p.
Proof. intros [t Ht]. exists t. unfold L. by rewrite Ht. Qed.

(** The family pointers of a task agree with those of its relatives. *)
Lemma rep_family s ts ch p :
  rep s ts [] ch 0 -> p ∈ ts ->
  let l := L s p in let os := l_p_osptr l in let ys := l_p_ysptr l in let c := l_p_cptr l in
  p <> 0 /\ l_p_pptr l ∈ init_task :: ts /\ l_p_pptr l <> p /\
  (os = 0 \/ os ∈ ts /\ os <> p /\ l_p_pptr (L s os) = l_p_pptr l /\ l_p_ysptr (L s os) = p) /\
  (ys = 0 \/ ys ∈ ts /\ ys <> p /\ l_p_pptr (L s ys) = l_p_pptr l /\ l_p_osptr (L s ys) = p) /\
  (c = 0 \/ c ∈ ts /\ c <> p /\ l_p_pptr (L s c) = p /\ l_p_ysptr (L s c) = 0).
Proof.
  intros H Hp. cbv zeta. pose proof (rep_nodup _ _ _ _ _ H) as Hnd. rewrite app_nil_r in Hnd.
  apply list.NoDup_cons in Hnd as [H0 _]. assert (Hnz : forall x, x ∈ ts -> x <> 0) by (intros x Hx ->; apply H0; by right).
  destruct (rep_pointers _ _ _ _ _ p H Hp (Hnz p Hp)) as (_ & _ & Ppp & Po & Py & Pne). rewrite app_nil_r in Ppp.
  rewrite !not_elem_of_cons in Pne. destruct Pne as (_ & _ & N3 & N4 & N5 & _).
  pose proof (rep_os _ _ _ _ _ H p Hp) as Eo. pose proof (rep_ys _ _ _ _ _ H p Hp (Hnz p Hp)) as Ey.
  pose proof (rep_parent _ _ _ _ _ H p Hp) as Hch.
  pose proof (rep_ch_nodup _ _ _ _ _ H (l_p_pptr (L s p))) as Hcn. pose proof (rep_ch_zero _ _ _ _ _ (l_p_pptr (L s p)) H) as Hc0.
  split; [auto|]. split; [done|]. split; [by apply not_eq_sym|]. split; [|split].
  - destruct Po as [|[Hot Hopp]]; [by left|right]. split; [done|]. split; [by apply not_eq_sym|]. split; [done|]. 
    rewrite (rep_ys _ _ _ _ _ H) by auto. rewrite Hopp. specialize (Hnz _ Hot). rewrite Eo in *. by apply prev_next.
  - destruct Py as [|[Hyt Hypp]]; [by left|right]. split; [done|]. split; [by apply not_eq_sym|]. split; [done|].
    rewrite (rep_os _ _ _ _ _ H) by auto. rewrite Hypp. specialize (Hnz _ Hyt). rewrite Ey in *. by apply next_prev.
  - assert (Ec : l_p_cptr (L s p) = head0 (ch p)) by (apply (rep_cptr _ _ _ _ _ H); rewrite app_nil_r; by right).
    destruct (decide (l_p_cptr (L s p) = 0)) as [|Hn]; [by left|right]. rewrite Ec in *.
    destruct (rep_ch _ _ _ _ _ H p _ (head0_in _ Hn)) as (A & _ & B & C). split; [done|]. split; [done|]. split; [done|].
    rewrite (rep_ys _ _ _ _ _ H) by auto. rewrite B. apply prev_head.
Qed.

Lemma warn_false b w : b = false -> warn b w = [].
Proof. by intros ->. Qed.

Lemma audit_task_clean s ts ch p : rep s ts [] ch 0 -> table s ts -> p ∈ ts -> audit_task p s = Some [].
Proof.
  intros H T Hp. destruct (rep_family s ts ch p H Hp) as (Hp0 & Hpp & Npp & Ho & Hy & Hc).
  assert (Hlook : forall x, x ∈ ts -> exists t', store s !! x = Some t' /\ lk t' = L s x).
  { intros x Hx. apply lookup_L, (rep_dom _ _ _ _ _ H). rewrite app_nil_r. by right. }
  assert (Hb : forall x (P : Prop), x = 0 \/ x ∈ ts /\ P -> bad_task_ptr x s = false).
  { intros x P Hx. apply (not_bad s ts); [done|]. destruct Hx as [|[]]; [by left|right; by right]. }
  unfold audit_task. destruct (Hlook p Hp) as (t & -> & Hlk). cbn [mbind option_bind].
  assert (audit_os p t s = Some []) as ->.
  { unfold audit_os, p_pptr, p_osptr, p_ysptr. rewrite Hlk. destruct Ho as [-> | (Ho & _ & Ho1 & Ho2)]; [done|].
    destruct (Hlook _ Ho) as (o & -> & Eo). cbn [mbind option_bind]. rewrite !Eo, Ho1, Ho2, !Z.eqb_refl. by case_bool. }
  assert (audit_ys p t s = Some []) as ->.
  { unfold audit_ys, p_pptr, p_osptr, p_ysptr. rewrite Hlk. destruct Hy as [-> | (Hy & _ & Hy1 & Hy2)]; [done|].
    destruct (Hlook _ Hy) as (o & -> & Eo). cbn [mbind option_bind]. rewrite !Eo, Hy1, Hy2, !Z.eqb_refl. by case_bool. }
  assert (audit_child p t s = Some []) as ->.
  { unfold audit_child, p_pptr, p_cptr, p_ysptr. rewrite Hlk. destruct Hc as [-> | (Hc & _ & Hc1 & Hc2)]; [done|].
    destruct (Hlook _ Hc) as (o & -> & Eo). cbn [mbind option_bind]. rewrite !Eo, Hc1, Hc2, !Z.eqb_refl. by case_bool. }
  cbn [mbind option_bind]. unfold p_pptr, p_cptr, p_ysptr, p_osptr. rewrite !Hlk.
  rewrite (not_bad s ts _ T (or_intror Hpp)), (Hb _ _ Hc), (Hb _ _ Hy), (Hb _ _ Ho).
  by rewrite !(warn_false (_ =? _)) by (apply Z.eqb_neq; intuition congruence).
Qed.

Lemma audit_loop_clean s ts ch l :
  rep s ts [] ch 0 -> table s ts -> (forall p, p ∈ l -> p = 0 \/ p ∈ ts) ->
  exists ws, audit_loop l s = Some ws /\ Forall (fun w => w.2 = []) ws.
Proof.
  intros H T. induction l as [|p l IH]; intros Hl; cbn [audit_loop]; [by exists []|].
  destruct IH as (ws & E & HF); [intros q Hq; apply Hl; by right|].
  destruct (Z.eqb_spec p 0) as [|Hp]; [by exists ws|]. destruct (Hl p) as [|Hpt]; [left|done|].
  rewrite (audit_task_clean s ts ch p) by done. cbn [mbind option_bind]. rewrite E. cbn [mbind option_bind].
  exists ((p, []) :: ws). split; [done|by constructor].
Qed.

Lemma audit_clean s ts ch :
  rep s ts [] ch 0 -> table s ts -> exists ws, audit_ptree s = Some ws /\ Forall (fun w => w.2 = []) ws.
Proof.
  intros H T. apply (audit_loop_clean s ts ch); [done|done|]. intros p Hp. destruct (decide (p = 0)) as [|Hp0]; [by left|right].
  apply list_elem_of_lookup in Hp as [i Hi]. rewrite lookup_drop in Hi.
  assert (Hin : p ∈ init_task :: ts) by (apply (table_in _ _ T); [done|by eapply list_elem_of_lookup_2]).
  apply elem_of_cons in Hin as [-> |]; [|done]. pose proof (table_once _ _ T _ _ _ Hp0 (table_init _ _ T) Hi). lia.
Qed.

(** ** Loops over all tasks *)

(** The ring is the same. *)
Definition same_next (s s' : system) : Prop := forall x, rd x next_task s' = rd x next_task s.

(** The loop over a list of tasks. *)
Fixpoint loop {A R} (body : Z -> A -> system -> option (system * (A + R))) (l : list Z) (a : A) (s : system)
    : option (system * (A + R)) :=
  match l with
  | [] => Some (s, inl a)
  | p :: l =>
      '(s, r) ← body p a s;
      match r with
      | inl a => loop body l a s
      | inr r => Some (s, inr r)
      end
  end.

Lemma for_each_suffix {A R} (body : Z -> A -> system -> option (system * (A + R))) (I : system -> Prop) s0 ts ch e l1 l2 n a s :
  rep s0 ts [] ch e -> init_task :: ts = l1 ++ l2 -> l1 <> [] -> (length l2 < n)%nat -> I s ->
  (forall s, I s -> same_next s0 s) -> (forall p a s s' a', p ∈ ts -> I s -> body p a s = Some (s', inl a') -> I s') ->
  for_each_task n body (last0 l1) a s = loop body l2 a s.
Proof.
  intros H. revert l1 n a s. induction l2 as [|q l2 IH]; intros l1 n a s Hts Hl Hn Hs HI Hb;
    (destruct n as [|n]; [simpl in Hn; lia|]); cbn [for_each_task loop];
    pose proof (rep_nodup _ _ _ _ _ H) as [_ Hnd]%list.NoDup_cons; rewrite app_nil_r in Hnd;
    assert (Hlast : last0 l1 ∈ init_task :: ts) by (rewrite Hts; apply elem_of_app; left; by apply last0_in);
    rewrite (HI s Hs); unfold next_task; rewrite rd_lk, (rep_next _ _ _ _ _ H _ Hlast), Hts, next_in_split
      by (done || (by rewrite <- Hts) || apply (rep_dom _ _ _ _ _ H); by rewrite app_nil_r);
    cbn [mbind option_bind].
  - change (default init_task (head (@nil Z))) with init_task. by rewrite Z.eqb_refl.
  - assert (Hq : q ∈ ts).
    { destruct l1 as [|x l1]; [done|]. injection Hts as _ ->. apply elem_of_app. right. left. }
    change (default init_task (head (q :: l2))) with q.
    destruct (Z.eqb_spec q init_task) as [-> |].
    { apply list.NoDup_cons in Hnd as [Hi _]. done. }
    destruct (body q a s) as [[s1 [a1|r]]|] eqn:Eb; cbn [mbind option_bind]; [|done|done].
    rewrite <- (last0_snoc l1 q) at 1. apply IH; [by rewrite <- app_assoc|by destruct l1|simpl in Hn; lia|by eapply Hb|done|done].
Qed.

(** The loop visits the tasks of the ring if its body keeps the ring, with an
    invariant [I]. *)
Lemma for_each_loop {A R} (body : Z -> A -> system -> option (system * (A + R))) (I : system -> Prop) s ts ch e n a :
  rep s ts [] ch e -> (length ts < n)%nat -> I s -> (forall s', I s' -> same_next s s') ->
  (forall p a s1 s2 a', p ∈ ts -> I s1 -> body p a s1 = Some (s2, inl a') -> I s2) ->
  for_each_task n body init_task a s = loop body ts a s.
Proof. intros H Hn Hs HI Hb. by apply (for_each_suffix body I s ts ch e [init_task] ts n a s). Qed.

(** The first task of [l] with [P]. *)
Definition first (P : task_struct -> bool) (l : list Z) (s : system) : option Z :=
  head (filter (fun p => (P <$> store s !! p) = Some true) l).

Lemma first_spec P l s :
  match first P l s with
  | Some p => p ∈ l /\ exists t, store s !! p = Some t /\ P t = true
  | None => forall p t, p ∈ l -> store s !! p = Some t -> P t = false
  end.
Proof.
  unfold first. destruct (filter _ l) as [|p l'] eqn:E; simpl.
  - intros p t Hp Ht. destruct (P t) eqn:HP; [|done]. assert (Hin : p ∈ filter (fun p => (P <$> store s !! p) = Some true) l).
    { apply list_elem_of_filter. by rewrite Ht; simpl; rewrite HP. }
    rewrite E in Hin. by apply elem_of_nil in Hin.
  - assert (Hin : p ∈ filter (fun p => (P <$> store s !! p) = Some true) l) by (rewrite E; left).
    apply list_elem_of_filter in Hin as [HP Hp]. split; [done|]. destruct (store s !! p) as [t|]; [|done]. exists t. split; [done|]. by injection HP.
Qed.

(** A loop that leaves at the first task with [P] and changes nothing before. *)
Lemma for_each_first {R} (P : task_struct -> bool) (stop : Z -> system -> option (system * R)) body s ts ch e n :
  rep s ts [] ch e -> (length ts < n)%nat ->
  (forall p t, store s !! p = Some t ->
     body p tt s = if P t then '(s, r) ← stop p s; Some (s, inr r) else Some (s, inl tt)) ->
  for_each_task n body init_task tt s
  = match first P ts s with
    | Some p => '(s, r) ← stop p s; Some (s, inr r)
    | None => Some (s, inl tt)
    end.
Proof.
  intros H Hn Hb. assert (Hdom : forall x, x ∈ ts -> is_Some (store s !! x)).
  { intros x Hx. apply (rep_dom _ _ _ _ _ H). rewrite app_nil_r. by right. }
  rewrite (for_each_loop body (fun s' => s' = s) s ts ch e); [|done|done|done|by intros s' ->|].
  - clear Hn H. induction ts as [|p ts IH]; [done|]. cbn [loop]. destruct (Hdom p) as [t Ht]; [left|].
    rewrite (Hb p t Ht). unfold first. rewrite filter_cons, Ht. simpl. destruct (P t) eqn:HP.
    + rewrite decide_True by done. simpl. by destruct (stop p s) as [[s' r]|].
    + rewrite decide_False by done. apply IH. intros x Hx. apply Hdom. by right.
  - intros p [] s1 s2 [] Hp -> E. destruct (Hdom p Hp) as [t Ht]. rewrite (Hb p t Ht) in E.
    destruct (P t); [|by injection E as <-]. by destruct (stop p s) as [[s' r]|].
Qed.

(** A loop that changes nothing ends. *)
Lemma for_each_reads {A R} (body : Z -> A -> system -> option (system * (A + R))) s ts ch e n a :
  rep s ts [] ch e -> (length ts < n)%nat -> (forall p a, p ∈ ts -> exists r, body p a s = Some (s, r)) ->
  exists r, for_each_task n body init_task a s = Some (s, r).
Proof.
  intros H Hn Hb. rewrite (for_each_loop body (fun s' => s' = s) s ts ch e); [|done|done|done|by intros ? ->|].
  - clear H Hn. revert a. induction ts as [|p ts IH]; intros a; cbn [loop]; [eauto|].
    destruct (Hb p a) as [r ->]; [left|]. cbn [mbind option_bind]. destruct r as [a'|r]; [|eauto].
    apply IH. intros q b Hq. apply Hb. by right.
  - intros p b s1 s2 b' Hp -> E. destruct (Hb p b Hp) as [r Er]. congruence.
Qed.

(** The ring is not longer than the array. *)
Lemma table_bound s ts ch e : rep s ts [] ch e -> table s ts -> (length ts < Z.to_nat NR_TASKS)%nat.
Proof.
  intros H T. pose proof (rep_nodup _ _ _ _ _ H) as [H0 Hnd]%list.NoDup_cons. rewrite app_nil_r in H0, Hnd.
  rewrite <- (table_length _ _ T). change (length (init_task :: ts) <= length (tasks s))%nat.
  apply submseteq_length, NoDup_submseteq; [done|]. intros x Hx. apply (table_in _ _ T); [|done]. by intros ->.
Qed.

(** ** The first task *)

Definition idle_struct (k : task) (l : links) : task_struct :=
  TaskStruct k 0 0 0 0 (Sys.Ids 0 0 0 0 0 0) (Accounts 0 0 0 0 0 0) 0 false false (-1) init_kernel_stack [] l.

(** [INIT_TASK]: alone in the ring, its own parent. *)
Definition boot : system :=
  System {[ init_task := idle_struct (idle_task TASK_RUNNING 15)
                           (Links init_task init_task init_task init_task 0 0 0) ]}
    (init_task :: replicate 127 0) init_task 0 false [] ∅.

Lemma boot_rep : rep boot [] [] (fun _ => []) 0.
Proof.
  assert (Hone : forall x, x ∈ [init_task] -> x = init_task) by (by intros x ?%list_elem_of_singleton).
  split.
  - apply list.NoDup_cons. split; [by intros ?%list_elem_of_singleton|apply NoDup_singleton].
  - done.
  - intros x ->%Hone. eauto.
  - by intros x ->%Hone.
  - by intros x ->%Hone.
  - by intros x ->%Hone.
  - intros x. constructor.
  - by intros x y ?%elem_of_nil.
  - by intros y ?%elem_of_nil.
  - by intros y ?%elem_of_nil.
  - by intros y ?%elem_of_nil.
Qed.

Lemma boot_table : table boot [].
Proof.
  split; [done|done| |].
  - intros p Hp. cbn [tasks boot]. rewrite !elem_of_cons, elem_of_nil. split; [|tauto]. intros [|[? _]%elem_of_replicate]; [by left|done].
  - assert (Hz : forall i p, p <> 0 -> tasks boot !! i = Some p -> i = 0%nat).
    { intros [|i] p Hp Hi; [done|]. change (replicate 127 0 !! i = Some p) in Hi. apply lookup_replicate in Hi as [-> _]. done. }
    intros i j p Hp Hi Hj. rewrite (Hz _ _ Hp Hi), (Hz _ _ Hp Hj). done.
Qed.

End Tasks.
