(* ===== verification/Kill.v ===== *)
(** * Signals between processes ([src/kernel/exit.c])

    [send_sig] on the task table, [notify_parent], [kill] and its helpers, and the
    functions that look at process groups: [session_of_pgrp], [is_orphaned_pgrp],
    [has_stopped_jobs] and [forget_original_parent].

    The theorems describe exactly which tasks [kill] signals and what it returns. *)

From S2P Require Import Prelude Sched Sys Dll Tasks.
From Stdlib Require Import ZArith Lia.
From stdpp Require Import base list gmap sets.
Local Open Scope Z_scope.

Module Kill.
Import Sched Tasks.

Definition SIGHUP : Z := 1.

(** The comparison of sessions and user ids in [send_sig]. *)
Definition may_signal (sig : Z) (c p : task_struct) : bool :=
  negb ((negb (sig =? SIGCONT) || negb (session c =? session p))
        && negb (Sys.euid (cred c) =? Sys.euid (cred p)) && negb (Sys.uid (cred c) =? Sys.uid (cred p))
        && negb (Sys.suser (cred c))).

Definition send_sig (sig p : Z) (priv : bool) (s : system) : option (Z * system) :=
  if p =? 0 then Some (- EINVAL, s)
  else
    c ← store s !! current s; t ← store s !! p;
    '(r, k) ← Sched.send_sig sig (sched t) priv (may_signal sig c t);
    s ← upd p (set_sched k) s; Some (r, s).

(** [q] are the tasks whose entries are on the queue. *)
Fixpoint wake_up_interruptible (q : list Z) (s : system) : option system :=
  match q with
  | [] => Some s
  | p :: q =>
      t ← store s !! p;
      if state (sched t) =? TASK_INTERRUPTIBLE then
        s ← upd p (set_state TASK_RUNNING) s;
        c ← store s !! current s;
        wake_up_interruptible q (if counter (sched c) <? counter (sched t) then set_need_resched true s else s)
      else wake_up_interruptible q s
  end.

Definition notify_parent (p : Z) (s : system) : option system :=
  pp ← rd p p_pptr s; init ← get (tasks s) 1;
  s ← (if pp =? init then upd p (set_exit_signal SIGCHLD) s else Some s);
  sig ← rd p exit_signal s; pp ← rd p p_pptr s;
  '(_, s) ← send_sig (u32 sig) pp true s;
  pp ← rd p p_pptr s; q ← rd pp wait_chldexit s;
  wake_up_interruptible q s.

Definition fuel : nat := Z.to_nat NR_TASKS.

Definition session_of_pgrp (pg : Z) (s : system) : option Z :=
  '(_, r) ← for_each_task fuel
    (fun p fallback s =>
       t ← store s !! p;
       if session t <=? 0 then Some (s, inl fallback)
       else if pgrp t =? pg then Some (s, inr (session t))
       else Some (s, inl (if pid t =? pg then session t else fallback))) init_task (-1) s;
  Some (match r with inl fallback => fallback | inr r => r end).

(** The loop of [kill_pg] and [kill_sl]: [retval] and [found] for the tasks that
    [sel] selects. *)
Definition kill_body (sel : task_struct -> bool) (sig : Z) (priv : bool) (p : Z) (a : Z * Z) (s : system)
    : option (system * (Z * Z + unit)) :=
  let '(retval, found) := a in
  t ← store s !! p;
  if sel t then
    '(err, s) ← send_sig (u32 sig) p priv s;
    if negb (err =? 0) then Some (s, inl (err, found)) else Some (s, inl (retval, found + 1))
  else Some (s, inl (retval, found)).

Definition kill_sel (sel : task_struct -> bool) (sig : Z) (priv : bool) (s : system) : option (Z * system) :=
  '(s, r) ← for_each_task fuel (kill_body sel sig priv) init_task (- ESRCH, 0) s;
  match r with
  | inl (retval, found) => Some (if negb (found =? 0) then 0 else retval, s)
  | inr _ => None
  end.

Definition kill_pg (pg sig : Z) (priv : bool) (s : system) : option (Z * system) :=
  if (sig <? 0) || (32 <? sig) || (pg <=? 0) then Some (- EINVAL, s)
  else kill_sel (fun t => pgrp t =? pg) sig priv s.

Definition kill_sl (sess sig : Z) (priv : bool) (s : system) : option (Z * system) :=
  if (sig <? 0) || (32 <? sig) || (sess <=? 0) then Some (- EINVAL, s)
  else kill_sel (fun t => (session t =? sess) && negb (leader t =? 0)) sig priv s.

Definition kill_proc (pd sig : Z) (priv : bool) (s : system) : option (Z * system) :=
  if (sig <? 0) || (32 <? sig) then Some (- EINVAL, s)
  else
    '(s, r) ← for_each_task fuel
      (fun p (_ : unit) s =>
         t ← store s !! p;
         if pid t =? pd then '(r, s) ← send_sig (u32 sig) p priv s; Some (s, inr r)
         else Some (s, inl tt)) init_task tt s;
    Some (match r with inl _ => - ESRCH | inr r => r end, s).

(** The loop for [pid] -1: [count] and [retval]. *)
Definition kill_all_body (sig : Z) (p : Z) (a : Z * Z) (s : system) : option (system * (Z * Z + unit)) :=
  let '(count, retval) := a in
  t ← store s !! p;
  if (1 <? pid t) && negb (p =? current s) then
    '(err, s) ← send_sig (u32 sig) p false s;
    Some (s, inl (count + 1, if negb (err =? - EPERM) then err else retval))
  else Some (s, inl (count, retval)).

Definition sys_kill (pd sig : Z) (s : system) : option (Z * system) :=
  if pd =? 0 then pg ← rd (current s) pgrp s; kill_pg pg sig false s
  else if pd =? -1 then
    '(s, r) ← for_each_task fuel (kill_all_body sig) init_task (0, 0) s;
    match r with
    | inl (count, retval) => Some (if negb (count =? 0) then retval else - ESRCH, s)
    | inr _ => None
    end
  else if pd <? 0 then kill_pg (s32 (- pd)) sig false s
  else kill_proc pd sig false s.

(** [inr tt] is [return 0]. *)
Definition is_orphaned_pgrp (pg : Z) (s : system) : option bool :=
  '(_, r) ← for_each_task fuel
    (fun p (_ : unit) s =>
       t ← store s !! p;
       if negb (pgrp t =? pg) || (state (sched t) =? TASK_ZOMBIE) then Some (s, inl tt) else
       pp ← store s !! p_pptr t;
       if pid pp =? 1 then Some (s, inl tt)
       else if negb (pgrp pp =? pg) && (session pp =? session t) then Some (s, inr tt)
       else Some (s, inl tt)) init_task tt s;
  Some (match r with inl _ => true | inr _ => false end).

Definition has_stopped_jobs (pg : Z) (s : system) : option bool :=
  '(_, r) ← for_each_task fuel
    (fun p (_ : unit) s =>
       t ← store s !! p;
       if negb (pgrp t =? pg) then Some (s, inl tt)
       else if state (sched t) =? TASK_STOPPED then Some (s, inr tt)
       else Some (s, inl tt)) init_task tt s;
  Some (match r with inl _ => false | inr _ => true end).

Definition forget_original_parent (father : Z) (s : system) : option system :=
  '(s, _) ← for_each_task (R := unit) fuel
    (fun p (_ : unit) s =>
       o ← rd p p_opptr s;
       if o =? father then
         t1 ← get (tasks s) 1; t0 ← get (tasks s) 0;
         s ← upd p (set_p_opptr (if negb (t1 =? 0) then t1 else t0)) s; Some (s, inl tt)
       else Some (s, inl tt)) init_task tt s;
  Some s.

(** ** What [send_sig] does to one task *)

(** The result and the task after [send_sig] with a valid signal. *)
Definition outcome (sig : Z) (priv : bool) (c t : task_struct) : Z * task_struct :=
  match Sched.send_sig sig (sched t) priv (may_signal sig c t) with
  | Some (r, k) => (r, set_sched k t)
  | None => (0, t)
  end.

(** What signals leave alone in the scheduler's part: whether the task is dead, the
    state of a task that is not stopped, and the actions. *)
Definition stays (k k' : task) : Prop :=
  (state k' = TASK_ZOMBIE <-> state k = TASK_ZOMBIE) /\ handlers k' = handlers k /\ flags k' = flags k /\
  blocked k' = blocked k /\ counter k' = counter k /\ priority k' = priority k /\
  (state k <> TASK_STOPPED -> state k' = state k).

Lemma generate_spec sig k :
  1 <= sig <= 32 -> length (handlers k) = 32%nat ->
  exists r k', generate sig k = Some (r, k') /\ (k' = k \/ k' = set_signal k (Z.lor (signal k) (sigmask sig))).
Proof.
  intros Hs Hl. unfold generate. destruct (has (flags k) PF_PTRACED); [eauto|].
  destruct (get_in_range (handlers k) (sig - 1)) as [sa ->]; [lia|]. cbn [mbind option_bind].
  destruct (_ && _); [eauto|]. destruct (_ && _); eauto.
Qed.

(** What [send_sig] does before it generates the signal. *)
Definition prepared (sig : Z) (k : task) : task :=
  let k :=
    if (sig =? SIGKILL) || (sig =? SIGCONT) then
      let k := if state k =? TASK_STOPPED then Sched.set_state k TASK_RUNNING else k in
      let k := set_exit_code k 0 in
      set_signal k (Z.land (signal k)
        (Z.lnot (Z.lor (Z.lor (Z.lor (sigmask SIGSTOP) (sigmask SIGTSTP)) (sigmask SIGTTIN)) (sigmask SIGTTOU))))
    else k in
  if (SIGSTOP <=? sig) && (sig <=? SIGTTOU) then set_signal k (Z.land (signal k) (Z.lnot (sigmask SIGCONT))) else k.

Lemma prepared_stays sig k : stays k (prepared sig k).
Proof.
  unfold prepared. destruct (_ || _); destruct (_ && _); try (by repeat split; tauto).
  all: destruct (Z.eqb_spec (state k) TASK_STOPPED) as [E|]; repeat split; try tauto.
  all: try (intros ?; done); simpl; rewrite E; discriminate.
Qed.

Definition sig_result (sig : Z) (allowed : bool) : Z := if 32 <? sig then - EINVAL else if allowed then 0 else - EPERM.

Lemma send_sig_stays sig k priv perm :
  0 <= sig -> length (handlers k) = 32%nat ->
  exists k', Sched.send_sig sig k priv perm = Some (sig_result sig (priv || perm), k') /\ stays k k' /\
    (sig_result sig (priv || perm) <> 0 -> k' = k).
Proof.
  intros Hs Hl. unfold sig_result. destruct (Z.ltb_spec 32 sig) as [Hbig|Hsmall].
  { exists k. unfold Sched.send_sig. destruct (Z.ltb_spec 32 sig); [|lia]. repeat split; tauto. }
  destruct (priv || perm) eqn:Ep.
  2: { apply orb_false_iff in Ep as [-> ->]. exists k. unfold Sched.send_sig. destruct (Z.ltb_spec 32 sig); [lia|]. repeat split; tauto. }
  destruct (Z.eqb_spec sig 0) as [-> | Hz].
  { exists k. destruct priv, perm; repeat split; tauto || done. }
  destruct (generate_spec sig (prepared sig k)) as (r & k' & E & Hk'); [lia| |].
  { by destruct (prepared_stays sig k) as (_ & -> & _). }
  exists k'. split; [|split; [|done]].
  - transitivity ('(_, p) ← generate sig (prepared sig k); Some (0, p)); [|by rewrite E].
    unfold Sched.send_sig. destruct (Z.ltb_spec 32 sig); [lia|]. apply Z.eqb_neq in Hz. rewrite Hz.
    by destruct priv, perm.
  - pose proof (prepared_stays sig k) as H. destruct Hk' as [-> | ->]; [done|]. apply H.
Qed.

(** ** Loops that signal *)

(** Every task has its 32 actions. *)
Definition actions_ok (s : system) : Prop := forall x t, store s !! x = Some t -> length (handlers (sched t)) = 32%nat.

Lemma outcome_spec sig priv c t :
  0 <= sig -> length (handlers (sched t)) = 32%nat ->
  exists k, Sched.send_sig sig (sched t) priv (may_signal sig c t) = Some ((outcome sig priv c t).1, k) /\
    (outcome sig priv c t).2 = set_sched k t /\ stays (sched t) k /\
    (outcome sig priv c t).1 = sig_result sig (priv || may_signal sig c t) /\
    ((outcome sig priv c t).1 <> 0 -> (outcome sig priv c t).2 = t).
Proof.
  intros Hs Hl. destruct (send_sig_stays sig (sched t) priv (may_signal sig c t) Hs Hl) as (k & E & Hk & He).
  exists k. unfold outcome. rewrite E. simpl. split_and!; try done. intros ->%He. by destruct t.
Qed.

Lemma send_sig_store sig p priv s c t :
  0 <= sig -> actions_ok s -> p <> 0 -> store s !! current s = Some c -> store s !! p = Some t ->
  send_sig sig p priv s = Some ((outcome sig priv c t).1, set_store (<[p := (outcome sig priv c t).2]> (store s)) s).
Proof.
  intros Hs Ha Hp Hc Ht. destruct (outcome_spec sig priv c t Hs (Ha _ _ Ht)) as (k & E & Ek & _).
  unfold send_sig. apply Z.eqb_neq in Hp. rewrite Hp, Hc, Ht. cbn [mbind option_bind]. rewrite E. cbn [mbind option_bind].
  unfold upd. rewrite Ht. cbn [mbind option_bind]. by rewrite Ek.
Qed.

(** The store after the tasks in [l] that [sel] selects were signalled. *)
Definition after (sel : Z -> task_struct -> bool) (sig : Z) (priv : bool) (c : task_struct) (l : list Z)
    (m : gmap Z task_struct) : gmap Z task_struct :=
  map_imap (fun x t => Some (if bool_decide (x ∈ l) && sel x t then (outcome sig priv c t).2 else t)) m.

Lemma after_lookup sel sig priv c l m x :
  after sel sig priv c l m !! x
  = (fun t => if bool_decide (x ∈ l) && sel x t then (outcome sig priv c t).2 else t) <$> m !! x.
Proof. unfold after. rewrite map_lookup_imap. by destruct (m !! x). Qed.

Lemma after_nil sel sig priv c m : after sel sig priv c [] m = m.
Proof. apply map_eq. intros x. rewrite after_lookup. by destruct (m !! x). Qed.

Lemma after_cons sel sig priv c p l m t :
  p ∉ l -> m !! p = Some t ->
  after sel sig priv c l (if sel p t then <[p := (outcome sig priv c t).2]> m else m) = after sel sig priv c (p :: l) m.
Proof.
  intros Hp Ht. apply map_eq. intros x. rewrite !after_lookup. destruct (decide (x = p)) as [-> | Hx].
  - rewrite (bool_decide_true (p ∈ p :: l)) by left. rewrite (bool_decide_false (p ∈ l)) by done. rewrite Ht. simpl.
    destruct (sel p t) eqn:E; [by rewrite lookup_insert_eq|by rewrite Ht].
  - replace (bool_decide (x ∈ p :: l)) with (bool_decide (x ∈ l)) by (apply bool_decide_ext; rewrite elem_of_cons; tauto).
    destruct (sel p t); [by rewrite lookup_insert_ne|done].
Qed.

(** A loop body that signals the tasks [sel] selects and does [acc] with the
    results. *)
Definition signals {A} (sel : Z -> task_struct -> bool) (sig : Z) (priv : bool) (acc : A -> Z -> A)
    (body : Z -> A -> system -> option (system * (A + unit))) (s0 : system) : Prop :=
  forall p a s t, rest s = rest s0 -> store s !! p = Some t ->
    body p a s = if sel p t then '(r, s) ← send_sig sig p priv s; Some (s, inl (acc a r)) else Some (s, inl a).

Lemma foldl_in {A B} (f g : A -> B -> A) a l : (forall a x, x ∈ l -> f a x = g a x) -> foldl f a l = foldl g a l.
Proof.
  revert a. induction l as [|x l IH]; intros a H; [done|]. simpl. rewrite H by left. apply IH. intros b y Hy. apply H. by right.
Qed.

Lemma signals_loop {A} sel sig priv (acc : A -> Z -> A) body s l a c :
  signals sel sig priv acc body s -> 0 <= sig -> (forall x k t, sel x (set_sched k t) = sel x t) ->
  actions_ok s -> NoDup l -> 0 ∉ l -> (forall x, x ∈ l -> is_Some (store s !! x)) -> store s !! current s = Some c ->
  loop body l a s
  = Some (set_store (after sel sig priv c l (store s)) s,
          inl (foldl (fun a x => match store s !! x with
                                 | Some t => if sel x t then acc a (outcome sig priv c t).1 else a
                                 | None => a
                                 end) a l)).
Proof.
  intros Hb Hs Hsel. revert a s c Hb. induction l as [|p l IH]; intros a s c Hb Ha Hnd H0 Hdom Hc; cbn [loop foldl].
  { rewrite after_nil. by destruct s. }
  apply list.NoDup_cons in Hnd as [Hp Hnd]. destruct (Hdom p) as [t Ht]; [left|]. rewrite (Hb p a s t) by done. rewrite Ht.
  rewrite <- (after_cons sel sig priv c p l (store s) t) by done. destruct (sel p t) eqn:Esel.
  2: { cbn [mbind option_bind]. apply IH; try done; [set_solver|]. intros x Hx. apply Hdom. by right. }
  rewrite (send_sig_store sig p priv s c t) by (done || (intros ->; apply H0; left)). cbn [mbind option_bind].
  set (s1 := set_store _ s). destruct (outcome_spec sig priv c t Hs (Ha _ _ Ht)) as (k & _ & Ek & (_ & Hk & _) & _).
  assert (Hother : forall x, x <> p -> store s1 !! x = store s !! x) by (intros x Hx; by apply lookup_insert_ne).
  assert (Hc1 : exists c1, store s1 !! current s1 = Some c1 /\ forall t, outcome sig priv c1 t = outcome sig priv c t).
  { change (current s1) with (current s). destruct (decide (p = current s)) as [-> |]; [|exists c; by rewrite Hother].
    exists (set_sched k c). split; [|done]. unfold s1. cbn [store set_store]. rewrite lookup_insert_eq. congruence. }
  destruct Hc1 as (c1 & Hc1 & Hout). rewrite (IH _ s1 c1).
  - f_equal. f_equal.
    + unfold s1, set_store. cbn [store tasks current last_pid need_resched freed ttys]. f_equal. apply map_eq. intros x. rewrite !after_lookup. destruct (<[p:=_]> (store s) !! x); simpl; [|done].
      by rewrite Hout.
    + f_equal. apply foldl_in. intros b x Hx. rewrite Hother by (intros ->; done). destruct (store s !! x); [|done]. by rewrite Hout.
  - intros q b s2 u Hr. by apply Hb.
  - intros x u Hx. destruct (decide (x = p)) as [-> | Hne]; [|rewrite Hother in Hx by done; by eapply Ha].
    unfold s1 in Hx. cbn [store set_store] in Hx. rewrite lookup_insert_eq in Hx. injection Hx as <-. rewrite Ek.
    cbn [sched set_sched]. rewrite Hk. by eapply Ha.
  - done.
  - set_solver.
  - intros x Hx. rewrite Hother by (intros ->; done). apply Hdom. by right.
  - done.
Qed.

(** A system in which the pointers stand for lists and nothing is missing. *)
Record ok (s : system) (ts : list Z) (ch : Z -> list Z) (e : Z) : Prop := {
  ok_rep : rep s ts [] ch e;
  ok_table : table s ts;
  ok_actions : actions_ok s;
  ok_current : current s ∈ init_task :: ts
}.

Lemma ok_dom s ts ch e x : ok s ts ch e -> x ∈ init_task :: ts -> is_Some (store s !! x).
Proof. intros H Hx. apply (rep_dom _ _ _ _ _ (ok_rep _ _ _ _ H)). by rewrite app_nil_r. Qed.

Lemma ok_nodup s ts ch e : ok s ts ch e -> NoDup ts /\ (0 ∉ ts) /\ init_task ∉ ts.
Proof.
  intros H. pose proof (rep_nodup _ _ _ _ _ (ok_rep _ _ _ _ H)) as Hnd. rewrite app_nil_r in Hnd.
  apply list.NoDup_cons in Hnd as [H0 [Hi Hnd]%list.NoDup_cons]. split; [done|]. split; [|done]. intros Hx. apply H0. by right.
Qed.

Lemma upd_sched_frame p k s s' :
  upd p (set_sched k) s = Some s' ->
  same_next s s' /\ rest s' = rest s /\ forall x, is_Some (store s !! x) -> is_Some (store s' !! x).
Proof.
  unfold upd. destruct (store s !! p) as [t|] eqn:E; [|done]. intros [= <-]. unfold same_next, rd. cbn [store set_store].
  split; [|split; [done|]]; intros x; (destruct (decide (x = p)) as [-> |]; [rewrite lookup_insert_eq|by rewrite lookup_insert_ne]); [by rewrite E|eauto].
Qed.

Lemma send_sig_frame sig p priv s r s' :
  send_sig sig p priv s = Some (r, s') ->
  same_next s s' /\ rest s' = rest s /\ forall x, is_Some (store s !! x) -> is_Some (store s' !! x).
Proof.
  unfold send_sig. case_bool; [by intros [= _ <-]|]. destruct (store s !! current s), (store s !! p); try done. cbn [mbind option_bind].
  destruct (Sched.send_sig _ _ _ _) as [[r' k]|]; [|done]. cbn [mbind option_bind].
  destruct (upd p (set_sched k) s) as [s1|] eqn:E; [|done]. intros [= _ <-]. by eapply upd_sched_frame.
Qed.

(** A loop over all tasks that signals. *)
Lemma signals_each {A} sel sig priv (acc : A -> Z -> A) body s ts ch e a c :
  signals sel sig priv acc body s -> 0 <= sig -> (forall x k t, sel x (set_sched k t) = sel x t) ->
  ok s ts ch e -> store s !! current s = Some c ->
  for_each_task fuel body init_task a s
  = Some (set_store (after sel sig priv c ts (store s)) s,
          inl (foldl (fun a x => match store s !! x with
                                 | Some t => if sel x t then acc a (outcome sig priv c t).1 else a
                                 | None => a
                                 end) a ts)).
Proof.
  intros Hb Hs Hsel H Hc. destruct (ok_nodup _ _ _ _ H) as (Hnd & H0 & _).
  rewrite (for_each_loop body (fun s' => same_next s s' /\ rest s' = rest s /\ forall x, is_Some (store s !! x) -> is_Some (store s' !! x)) s ts ch e).
  - apply signals_loop; try done; [apply H|]. intros x Hx. eapply ok_dom; [done|by right].
  - apply H.
  - eapply table_bound; apply H.
  - done.
  - tauto.
  - intros p b s1 s2 r Hp (Hn & Hr & Hd) E. destruct (Hd p) as [t Ht]; [eapply ok_dom; [done|by right]|].
    rewrite (Hb p b s1 t Hr Ht) in E. destruct (sel p t); [|by injection E as <- <-].
    destruct (send_sig sig p priv s1) as [[r' s']|] eqn:Es; [|done]. cbn in E. injection E as <- <-.
    pose proof (send_sig_frame _ _ _ _ _ _ Es) as (F1 & F2 & F3). split; [|split; [congruence|auto]].
    intros x. by rewrite F1.
Qed.

(** ** [kill] *)

Lemma may_signal_spec sig c t :
  may_signal sig c t = true <->
  sig = SIGCONT /\ session c = session t \/ Sys.euid (cred c) = Sys.euid (cred t)
  \/ Sys.uid (cred c) = Sys.uid (cred t) \/ Sys.euid (cred c) = 0.
Proof.
  unfold may_signal, Sys.suser. rewrite negb_true_iff, !andb_false_iff, orb_false_iff, !negb_false_iff, !Z.eqb_eq. tauto.
Qed.

(** The tasks that are meant, and the result for them. *)
Definition targets (sel : task_struct -> bool) (ts : list Z) (s : system) : list task_struct :=
  filter (fun t => sel t = true) (omap (fun x => store s !! x) ts).

Definition kill_result (sig : Z) (priv : bool) (c : task_struct) (l : list task_struct) : Z :=
  if existsb (fun t => priv || may_signal sig c t) l then 0 else match l with [] => - ESRCH | _ => - EPERM end.

Lemma kill_fold sel sig priv c ts s retval found :
  0 <= sig <= 32 -> actions_ok s ->
  let l := targets sel ts s in
  foldl (fun (a : Z * Z) x => match store s !! x with
                    | Some t => if sel t then let r := (outcome sig priv c t).1 in
                                              (if negb (r =? 0) then (r, a.2) else (a.1, a.2 + 1)) else a
                    | None => a end) (retval, found) ts
  = (if forallb (fun t => priv || may_signal sig c t) l then retval else - EPERM,
     found + lsum (fun t => Z.b2z (priv || may_signal sig c t)) l).
Proof.
  intros Hs Ha. cbv zeta. revert retval found. induction ts as [|x ts IH]; intros retval found; cbn [foldl].
  { unfold targets. simpl. f_equal. lia. }
  unfold targets in *. cbn [omap list_omap]. destruct (store s !! x) as [t|] eqn:Ht; [|apply IH]. rewrite filter_cons.
  destruct (sel t) eqn:E; [rewrite decide_True by done|rewrite decide_False by congruence; apply IH].
  destruct (outcome_spec sig priv c t ltac:(lia) (Ha _ _ Ht)) as (_ & _ & _ & _ & -> & _). unfold sig_result.
  destruct (Z.ltb_spec 32 sig); [lia|]. cbn [forallb lsum foldr].
  destruct (priv || may_signal sig c t).
  - change (negb (0 =? 0)) with false. cbn [fst snd]. rewrite IH. f_equal. unfold lsum. simpl. lia.
  - change (negb (- EPERM =? 0)) with true. cbn [fst snd]. rewrite IH. cbn [andb Z.b2z]. by destruct (forallb _ _).
Qed.

Lemma existsb_lsum {A} (f : A -> bool) l : (lsum (fun t => Z.b2z (f t)) l =? 0) = negb (existsb f l).
Proof.
  induction l as [|x l IH]; [done|]. cbn [existsb lsum foldr]. fold (lsum (fun t => Z.b2z (f t)) l).
  assert (0 <= lsum (fun t => Z.b2z (f t)) l) by (apply lsum_nonneg; intros y _; destruct (f y); simpl; lia).
  destruct (f x); simpl; [apply Z.eqb_neq; lia|done].
Qed.

Lemma kill_sel_spec sel sig priv s ts ch e c :
  0 <= sig <= 32 -> (forall k t, sel (set_sched k t) = sel t) -> ok s ts ch e -> store s !! current s = Some c ->
  kill_sel sel sig priv s
  = Some (kill_result sig priv c (targets sel ts s), set_store (after (fun _ => sel) sig priv c ts (store s)) s).
Proof.
  intros Hs Hsel H Hc. unfold kill_sel.
  rewrite (signals_each (fun _ => sel) sig priv
    (fun a r => if negb (r =? 0) then (r, a.2) else (a.1, a.2 + 1)) (kill_body sel sig priv) s ts ch e _ c); try done; [| |lia].
  2: { intros p [rv fd] s1 t _ Ht. unfold kill_body. rewrite Ht. cbn [mbind option_bind]. destruct (sel t); [|done].
       rewrite u32_small by lia. destruct (send_sig sig p priv s1) as [[r s2]|]; [|done]. cbn. by destruct (r =? 0). }
  cbn [mbind option_bind]. rewrite (kill_fold sel sig priv c ts s) by (done || apply H). f_equal. f_equal.
  rewrite Z.add_0_l, existsb_lsum, negb_involutive. unfold kill_result. destruct (existsb _ _) eqn:E; [done|].
  destruct (targets sel ts s) as [|t l]; [done|]. cbn [existsb forallb] in *. by destruct (priv || may_signal sig c t).
Qed.

(** [kill_pg] signals exactly the tasks of the process group that the caller may
    signal, all of them, and fails only if there is none: with [ESRCH] if the
    group has no task, with [EPERM] otherwise. *)
Theorem kill_pg_spec pg sig priv s ts ch e c :
  0 <= sig <= 32 -> 0 < pg -> ok s ts ch e -> store s !! current s = Some c ->
  exists s', kill_pg pg sig priv s = Some (kill_result sig priv c (targets (fun t => pgrp t =? pg) ts s), s') /\
    rest s' = rest s /\
    forall x t, store s !! x = Some t ->
      store s' !! x = Some (if bool_decide (x ∈ ts) && (pgrp t =? pg) && (priv || may_signal sig c t)
                            then (outcome sig priv c t).2 else t).
Proof.
  intros Hs Hpg H Hc. unfold kill_pg. destruct (Z.ltb_spec sig 0), (Z.ltb_spec 32 sig), (Z.leb_spec pg 0); try lia. cbn [orb].
  rewrite (kill_sel_spec _ sig priv s ts ch e c) by done. eexists. split; [done|]. split; [done|]. intros x t Ht.
  cbn [store set_store]. rewrite after_lookup, Ht. cbn. f_equal. destruct (bool_decide (x ∈ ts) && (pgrp t =? pg)); [|done].
  destruct (outcome_spec sig priv c t ltac:(lia) (ok_actions _ _ _ _ H _ _ Ht)) as (_ & _ & _ & _ & E & Hn).
  destruct (priv || may_signal sig c t); [done|]. apply Hn. rewrite E. unfold sig_result. by case_bool.
Qed.

(** Only tasks in [ts] that [c] may signal differ, and they as [send_sig] leaves
    them. *)
Definition signalled_only (sig : Z) (c : task_struct) (ts : list Z) (s s' : system) : Prop :=
  rest s' = rest s /\
  forall x, store s' !! x = store s !! x \/
    exists t, store s !! x = Some t /\ x ∈ ts /\ 0 <= sig <= 32 /\ may_signal sig c t = true /\
      store s' !! x = Some (outcome sig false c t).2.

Lemma signalled_refl sig c ts s : signalled_only sig c ts s s.
Proof. split; [done|]. by left. Qed.

Lemma outcome_denied sig c t :
  0 <= sig -> length (handlers (sched t)) = 32%nat -> 32 < sig \/ may_signal sig c t = false ->
  (outcome sig false c t).2 = t.
Proof.
  intros Hs Hl Hd. destruct (outcome_spec sig false c t Hs Hl) as (_ & _ & _ & _ & E & Hn). apply Hn. rewrite E. unfold sig_result.
  destruct (Z.ltb_spec 32 sig); [done|]. destruct Hd as [|Hd]; [lia|]. simpl. by rewrite Hd.
Qed.

Lemma after_only sel sig c ts s :
  0 <= sig -> actions_ok s -> signalled_only sig c ts s (set_store (after sel sig false c ts (store s)) s).
Proof.
  intros Hs Ha. split; [done|]. intros x. cbn [store set_store]. rewrite after_lookup. destruct (store s !! x) as [t|] eqn:Ht; simpl; [|by left].
  destruct (bool_decide (x ∈ ts)) eqn:Hx; simpl; [apply bool_decide_eq_true in Hx|by left]. destruct (sel x t); [|by left].
  destruct (decide (32 < sig \/ may_signal sig c t = false)) as [Hd|Hd].
  - left. f_equal. apply outcome_denied; [done|by eapply Ha|done].
  - right. exists t. destruct (may_signal sig c t); [|tauto]. repeat split; (done || lia).
Qed.

Lemma kill_pg_only pg sig s ts ch e c :
  ok s ts ch e -> store s !! current s = Some c ->
  exists r s', kill_pg pg sig false s = Some (r, s') /\ signalled_only sig c ts s s'.
Proof.
  intros H Hc. unfold kill_pg. destruct (_ || _ || _) eqn:E; [eauto using signalled_refl|].
  apply orb_false_iff in E as [[E1%Z.ltb_ge E2%Z.ltb_ge]%orb_false_iff _].
  rewrite (kill_sel_spec _ sig false s ts ch e c) by (done || lia). eexists _, _. split; [done|]. apply after_only; [lia|apply H].
Qed.

Lemma kill_proc_only pd sig s ts ch e c :
  ok s ts ch e -> store s !! current s = Some c ->
  exists r s', kill_proc pd sig false s = Some (r, s') /\ signalled_only sig c ts s s'.
Proof.
  intros H Hc. unfold kill_proc. destruct (_ || _) eqn:E; [eauto using signalled_refl|].
  apply orb_false_iff in E as [E1%Z.ltb_ge E2%Z.ltb_ge].
  rewrite (for_each_first (fun t => pid t =? pd)
    (fun p s => '(r, s) ← send_sig (u32 sig) p false s; Some (s, r)) _ s ts ch e); [|apply H|eapply table_bound; apply H|].
  2: { intros p t Ht. rewrite Ht. cbn [mbind option_bind]. destruct (pid t =? pd); [|done].
       by destruct (send_sig (u32 sig) p false s) as [[r s']|]. }
  pose proof (first_spec (fun t => pid t =? pd) ts s) as Hf. destruct (first _ ts s) as [p|].
  2: { cbn [mbind option_bind]. eauto using signalled_refl. }
  destruct Hf as (Hp & t & Ht & _). destruct (ok_nodup _ _ _ _ H) as (_ & H0 & _). rewrite u32_small by lia.
  rewrite (send_sig_store sig p false s c t) by (lia || done || (by intros ->) || apply (ok_actions _ _ _ _ H)). cbn [mbind option_bind].
  eexists _, _. split; [done|]. split; [done|]. intros x. cbn [store set_store]. destruct (decide (x = p)) as [-> | Hx].
  - rewrite lookup_insert_eq. destruct (may_signal sig c t) eqn:Em; [right; exists t; repeat split; (done || lia)|left].
    rewrite Ht. f_equal. apply outcome_denied; [lia|by eapply (ok_actions _ _ _ _ H)|by right].
  - left. by apply lookup_insert_ne.
Qed.

(** [kill] respects authority: whatever its arguments, it returns, and the only
    tasks it changes are those the caller may signal: with its effective or real
    user id, all if it is the superuser, and with [SIGCONT] those of its session;
    an invalid signal number changes nothing. *)
Theorem kill_authorised pd sig s ts ch e c :
  ok s ts ch e -> store s !! current s = Some c -> - 2 ^ 31 <= sig < 2 ^ 31 ->
  exists r s', sys_kill pd sig s = Some (r, s') /\ rest s' = rest s /\
    forall x, store s' !! x = store s !! x \/
      exists t, store s !! x = Some t /\ x ∈ ts /\ 0 <= sig <= 32 /\ store s' !! x = Some (outcome sig false c t).2 /\
        (sig = SIGCONT /\ session c = session t \/ Sys.euid (cred c) = Sys.euid (cred t)
         \/ Sys.uid (cred c) = Sys.uid (cred t) \/ Sys.euid (cred c) = 0).
Proof.
  intros H Hc Hr. assert (exists r s', sys_kill pd sig s = Some (r, s') /\ signalled_only sig c ts s s') as (r & s' & E & Hrest & Hx).
  { unfold sys_kill. destruct (pd =? 0).
    { unfold rd. rewrite Hc. cbn [fmap option_fmap option_map mbind option_bind]. by eapply kill_pg_only. }
    destruct (pd =? -1); [|destruct (pd <? 0); [by eapply kill_pg_only|by eapply kill_proc_only]].
    rewrite (signals_each (fun x t => (1 <? pid t) && negb (x =? current s)) (u32 sig) false
      (fun a r => (a.1 + 1, if negb (r =? - EPERM) then r else a.2)) (kill_all_body sig) s ts ch e _ c);
      [|intros p [n rv] s1 t E Ht|apply u32_range|done|done|done].
    - cbn [mbind option_bind]. destruct (foldl _ _ _) as [n rv]. eexists _, _. split; [done|].
      destruct (after_only (fun x t => (1 <? pid t) && negb (x =? current s)) (u32 sig) c ts s) as [A B]; [apply u32_range|apply H|].
      split; [done|]. intros x. destruct (B x) as [|(t & Ht & Hx & Hs & Hm)]; [by left|right].
      assert (Es : u32 sig = sig).
      { apply u32_small. unfold u32 in Hs. destruct (decide (0 <= sig)); [lia|].
        rewrite <- (Z.mod_unique sig (2 ^ 32) (-1) (sig + 2 ^ 32)) in Hs by lia. lia. }
      rewrite Es in *. eauto 10.
    - unfold kill_all_body. rewrite Ht. cbn [mbind option_bind]. replace (current s1) with (current s) by (unfold rest in E; congruence).
      destruct (_ && _); [|done]. by destruct (send_sig (u32 sig) p false s1) as [[r s2]|]. }
  exists r, s'. split; [done|]. split; [done|]. intros x. destruct (Hx x) as [|(t & Ht & Hin & Hs & Hm & Ht')]; [by left|right].
  exists t. apply may_signal_spec in Hm. auto.
Qed.

End Kill.
