(* ===== verification/Procs.v ===== *)
(** * Creation and death of processes ([src/kernel/fork.c], [src/kernel/exit.c],
      [src/kernel/ptrace.c], [disassociate_ctty] of [src/drivers/char/tty_io.c])

    What [fork], [exit], [wait4] and [ptrace] do to the task table.  A call that
    can sleep is cut into the parts between the points where it sleeps.  Of
    [fork] the parts that copy registers, memory and files are left out, of
    [exit] those that release them; the page allocator's answer is an argument. *)

From S2P Require Import Prelude Sched Sys Dll Tasks Kill.
From Stdlib Require Import ZArith Lia.
From stdpp Require Import base list gmap sets.
Local Open Scope Z_scope.

Module Procs.
Import Sched Tasks Kill.

Definition PF_TRACESYS : Z := 0x20.
Definition CSIGNAL : Z := 0xff.
Definition COPYVM : Z := 0x100.
Definition MAX_TASKS_PER_USER : Z := Z.quot NR_TASKS 2.
Definition MIN_TASKS_LEFT_FOR_ROOT : Z := 4.
Definition WNOHANG : Z := 1.
Definition WUNTRACED : Z := 2.
Definition __WCLONE : Z := 0x80000000.
Definition RUSAGE_BOTH : Z := -2.

Definition set_flags (x : Z) (k : task) : task :=
  Task (state k) (counter k) (priority k) (signal k) (blocked k) x (handlers k) (exit_code k)
    (timeout k) (it_real_value k) (it_prof_value k) (it_virt_value k) (it_real_incr k)
    (it_prof_incr k) (it_virt_incr k) (utime k) (stime k).

Definition on_sched (f : task -> task) (t : task_struct) : task_struct := set_sched (f (sched t)) t.

(** A page goes back to the allocator; with the page of a task the task is gone. *)
Definition free_page (p : Z) (s : system) : system := set_freed (p :: freed s) s.
Definition free_task (p : Z) (s : system) : system := free_page p (set_store (delete p (store s)) s).

(** ** [fork] *)

Definition next_pid (last_pid : Z) : Z := if has (last_pid + 1) 0xffff8000 then 1 else last_pid + 1.

(** The loop of [find_empty_process] for [task[i]], [task[i-1]], ..., [task[1]]:
    [free_task], [tasks_free] and [this_user_tasks], or [None] for [goto repeat]. *)
Fixpoint scan_tasks (i : nat) (lp user : Z) (acc : Z * Z * Z) (s : system) : option (option (Z * Z * Z)) :=
  match i with
  | O => Some (Some acc)
  | S j =>
      let '(free_task, tasks_free, this_user_tasks) := acc in
      p ← get (tasks s) (Z.of_nat i);
      if p =? 0 then scan_tasks j lp user (Z.of_nat i, tasks_free + 1, this_user_tasks) s
      else
        t ← store s !! p;
        let this_user_tasks := if Sys.uid (cred t) =? user then this_user_tasks + 1 else this_user_tasks in
        if (pid t =? lp) || (pgrp t =? lp) || (session t =? lp) then Some None
        else scan_tasks j lp user (free_task, tasks_free, this_user_tasks) s
  end.

Definition last_slot : nat := Z.to_nat (NR_TASKS - 1).

(** At most [n] times through [repeat]. *)
Fixpoint find_empty_process (n : nat) (s : system) : option (Z * system) :=
  match n with
  | O => None
  | S n =>
      let s := set_last_pid (next_pid (last_pid s)) s in
      user ← rd (current s) (fun t => Sys.uid (cred t)) s;
      r ← scan_tasks last_slot (last_pid s) user (- EAGAIN, 0, 0) s;
      match r with
      | None => find_empty_process n s
      | Some (free_task, tasks_free, this_user_tasks) =>
          if ((tasks_free <=? MIN_TASKS_LEFT_FOR_ROOT) || (MAX_TASKS_PER_USER <? this_user_tasks))
             && negb (user =? 0)
          then Some (- EAGAIN, s) else Some (free_task, s)
      end
  end.

(** [*p = *current] and the assignments up to [SET_LINKS]. *)
Definition child_of (c : task_struct) (cur pd : Z) : task_struct :=
  let k := Sched.set_state (sched c) TASK_UNINTERRUPTIBLE in
  let k := set_flags (Z.land (flags k) (Z.lnot (Z.lor PF_PTRACED PF_TRACESYS))) k in
  let l := lk c in
  TaskStruct k pd (pgrp c) (session c) (leader c) (cred c) (acct c) (exit_signal c) false (dumpable c) (tty c) 0
    (wait_chldexit c) (Links (l_next_task l) (l_prev_task l) cur cur 0 (l_p_ysptr l) (l_p_osptr l)).

(** The assignments after [SET_LINKS]. *)
Definition fork_reset (t : task_struct) : task_struct :=
  let k := set_signal (sched t) 0 in
  let k := set_times (set_virt (set_prof (set_real k 0 0) 0 0) 0 0) 0 0 in
  set_acct (Accounts 0 0 0 0 0 0) (set_leader 0 (set_sched k t)).

Inductive forked := Failed (r : Z) | Started (nr : Z).

(** [p] is the page for the task, 0 if there is none. *)
Definition fork_start (n : nat) (p : Z) (s : system) : option (forked * system) :=
  if p =? 0 then Some (Failed (- EAGAIN), s)
  else
    '(nr, s) ← find_empty_process n s;
    if nr <? 0 then Some (Failed (- EAGAIN), free_page p s)
    else
      ts ← put (tasks s) nr p;
      let s := set_tasks ts s in
      c ← store s !! current s;
      let s := set_store (<[p := child_of c (current s) (last_pid s)]> (store s)) s in
      s ← SET_LINKS p s;
      s ← upd p fork_reset s;
      Some (Started nr, s).

(** [bad_fork_cleanup] *)
Definition fork_fail (nr p : Z) (s : system) : option (Z * system) :=
  ts ← put (tasks s) nr 0;
  s ← REMOVE_LINKS p (set_tasks ts s);
  k ← rd p kernel_stack_page s;
  Some (- EAGAIN, free_task p (free_page k s)).

Definition clone_flags (is_clone : bool) (ebx ecx esp : Z) : Z :=
  if is_clone then
    let child_esp := if negb (ebx =? 0) then ebx else esp in
    if child_esp =? esp then Z.lor ecx COPYVM else ecx
  else Z.lor COPYVM SIGCHLD.

(** With the page for the stack, 0 if there is none. *)
Definition fork_stack (stack flags : Z) (p : Z) (s : system) : option system :=
  upd p (fun t => set_exit_signal (Z.land flags CSIGNAL) (set_kernel_stack_page stack t)) s.

Definition fork_end (p : Z) (s : system) : option (Z * system) :=
  c ← store s !! current s;
  s ← upd p (on_sched (fun k => Sched.set_state (set_counter k (Z.shiftr (counter (sched c)) 1)) TASK_RUNNING)) s;
  r ← rd p pid s; Some (r, s).

(** ** [exit] *)

(** [i] is the next slot to look at. *)
Fixpoint find_slot (l : list Z) (i p : Z) : option Z :=
  match l with
  | [] => None
  | q :: l => if q =? p then Some i else find_slot l (i + 1) p
  end.

(** [None] also for the panic. *)
Definition release (p : Z) (s : system) : option system :=
  if p =? 0 then Some s
  else if p =? current s then Some s
  else
    i ← find_slot (drop 1 (tasks s)) 1 p;
    ts ← put (tasks s) i 0;
    s ← REMOVE_LINKS p (set_tasks ts s);
    k ← rd p kernel_stack_page s;
    Some (free_task p (free_page k s)).

Definition exit_begin (s : system) : option system := forget_original_parent (current s) s.

(** The [kill_pg]s for a process group [pg] that [cond] says may be orphaned now. *)
Definition orphan_check (cond : bool) (pg : Z) (s : system) : option system :=
  if cond then
    o ← is_orphaned_pgrp pg s;
    if o : bool then
      h ← has_stopped_jobs pg s;
      if h : bool then
        '(_, s) ← kill_pg pg SIGHUP true s;
        '(_, s) ← kill_pg pg SIGCONT true s; Some s
      else Some s
    else Some s
  else Some s.

(** The links of the child [p] of the dying process. *)
Definition reparent (p : Z) (s : system) : option system :=
  os ← rd p p_osptr s; s ← upd (current s) (set_p_cptr os) s;
  s ← upd p (set_p_ysptr 0) s;
  s ← upd p (on_sched (fun k => set_flags (Z.land (flags k) (Z.lnot (Z.lor PF_PTRACED PF_TRACESYS))) k)) s;
  t1 ← get (tasks s) 1; t0 ← get (tasks s) 0;
  s ← upd p (set_p_pptr (if negb (t1 =? 0) && negb (t1 =? current s) then t1 else t0)) s;
  pp ← rd p p_pptr s; c ← rd pp p_cptr s; s ← upd p (set_p_osptr c) s;
  os ← rd p p_osptr s; s ← upd os (set_p_ysptr p) s;
  pp ← rd p p_pptr s; upd pp (set_p_cptr p) s.

Definition exit_child (p : Z) (s : system) : option system :=
  s ← reparent p s;
  st ← rd p (fun t => state (sched t)) s;
  s ← (if st =? TASK_ZOMBIE then notify_parent p s else Some s);
  t ← store s !! p; c ← store s !! current s;
  orphan_check (negb (pgrp t =? pgrp c) && (session t =? session c)) (pgrp t) s.

Fixpoint exit_loop (n : nat) (s : system) : option system :=
  match n with
  | O => None
  | S n =>
      p ← rd (current s) p_cptr s;
      if p =? 0 then Some s else s ← exit_child p s; exit_loop n s
  end.

Definition disassociate_ctty (priv : bool) (s : system) : option system :=
  n ← rd (current s) tty s;
  s ← (if 0 <=? n then
         match ttys s !! n with
         | Some y =>
             s ← (if 0 <? t_pgrp y then
                    '(_, s) ← kill_pg (t_pgrp y) SIGHUP priv s;
                    '(_, s) ← kill_pg (t_pgrp y) SIGCONT priv s; Some s
                  else Some s);
             Some (set_ttys (<[n := Tty (-1) 0]> (ttys s)) s)
         | None => Some s
         end
       else Some s);
  '(s, _) ← for_each_task (R := unit) fuel
    (fun p (_ : unit) s =>
       t ← store s !! p; c ← store s !! current s;
       if session t =? session c then s ← upd p (set_tty (-1)) s; Some (s, inl tt)
       else Some (s, inl tt)) init_task tt s;
  Some s.

(** [do_exit] from [current->state = TASK_ZOMBIE] to [schedule]. *)
Definition exit_end (code : Z) (s : system) : option system :=
  s ← upd (current s) (on_sched (fun k => set_exit_code (Sched.set_state k TASK_ZOMBIE) code)) s;
  c ← store s !! current s; pp ← store s !! p_pptr c;
  s ← orphan_check (negb (pgrp pp =? pgrp c) && (session pp =? session c)) (pgrp c) s;
  s ← notify_parent (current s) s;
  s ← exit_loop fuel s;
  l ← rd (current s) leader s;
  if negb (l =? 0) then disassociate_ctty true s else Some s.

(** ** [wait4] *)

Definition usage_of (t : task_struct) : Sys.usage :=
  Sys.Usage (utime (sched t)) (stime (sched t)) (cutime (acct t)) (cstime (acct t))
    (min_flt (acct t)) (maj_flt (acct t)) (cmin_flt (acct t)) (cmaj_flt (acct t)).

(** Whether the call is for the child [t]; [c] is the caller. *)
Definition selected (pd options : Z) (c t : task_struct) : bool :=
  negb (if 0 <? pd then negb (pid t =? pd)
        else if pd =? 0 then negb (pgrp t =? pgrp c)
        else if negb (pd =? -1) then negb (pgrp t =? s32 (- pd))
        else false)
  && negb (xorb (negb (exit_signal t =? SIGCHLD)) (has options __WCLONE)).

(** A result: the value, the status and the usage reported. *)
Record report := Report { retval : Z; status : Z; used : option Sys.rusage }.

Definition charge (t : task_struct) (c : task_struct) : task_struct :=
  let a := acct c in let b := acct t in
  set_acct (Accounts (s32 (cutime a + (utime (sched t) + cutime b))) (s32 (cstime a + (stime (sched t) + cstime b)))
              (min_flt a) (maj_flt a)
              (u32 (cmin_flt a + (min_flt b + cmin_flt b))) (u32 (cmaj_flt a + (maj_flt b + cmaj_flt b)))) c.

(** [REMOVE_LINKS(p); p->p_pptr = q; SET_LINKS(p);] *)
Definition relink (p q : Z) (s : system) : option system :=
  s ← REMOVE_LINKS p s; s ← upd p (set_p_pptr q) s; SET_LINKS p s.

Definition reap (p : Z) (s : system) : option (report * system) :=
  t ← store s !! p;
  s ← upd (current s) (charge t) s;
  let r := Report (pid t) (exit_code (sched t)) (Sys.getrusage (usage_of t) RUSAGE_BOTH 0).2 in
  s ← (if negb (p_opptr t =? p_pptr t) then s ← relink p (p_opptr t) s; notify_parent p s
       else release p s);
  Some (r, s).

(** The loop over the children from [p] on: a child to report, or whether there is
    one to wait for. *)
Fixpoint wait_scan (n : nat) (p pd options : Z) (flag : bool) (s : system) : option ((report + bool) * system) :=
  match n with
  | O => None
  | S n =>
      if p =? 0 then Some (inr flag, s)
      else
        t ← store s !! p; c ← store s !! current s;
        if negb (selected pd options c t) then wait_scan n (p_osptr t) pd options flag s
        else if state (sched t) =? TASK_STOPPED then
          if (exit_code (sched t) =? 0) || (negb (has options WUNTRACED) && negb (has (flags (sched t)) PF_PTRACED))
          then wait_scan n (p_osptr t) pd options true s
          else
            s ← upd p (on_sched (fun k => set_exit_code k 0)) s;
            Some (inl (Report (pid t) (Z.lor (s32 (Z.shiftl (exit_code (sched t)) 8)) 0x7f)
                         (Sys.getrusage (usage_of t) RUSAGE_BOTH 0).2), s)
        else if state (sched t) =? TASK_ZOMBIE then '(r, s) ← reap p s; Some (inl r, s)
        else wait_scan n (p_osptr t) pd options true s
  end.

(** From [repeat] on: a report, or [None] and the process sleeps. *)
Definition wait_pass (pd options : Z) (s : system) : option (option report * system) :=
  p ← rd (current s) p_cptr s;
  '(r, s) ← wait_scan (S fuel) p pd options false s;
  match r with
  | inl r => Some (Some r, s)
  | inr true =>
      if has options WNOHANG then Some (Some (Report 0 0 None), s)
      else s ← upd (current s) (set_state TASK_INTERRUPTIBLE) s; Some (None, s)
  | inr false => Some (Some (Report (- ECHILD) 0 None), s)
  end.

(** [remove_wait_queue] when the call is over. *)
Definition wait_leave (r : option report) (s : system) : option (option report * system) :=
  match r with
  | Some _ => s ← upd (current s) (fun t => set_wait_chldexit (filter (fun x => x <> current s) (wait_chldexit t)) t) s; Some (r, s)
  | None => Some (r, s)
  end.

Definition wait_start (verify pd options : Z) (s : system) : option (option report * system) :=
  if negb (verify =? 0) then Some (Some (Report verify 0 None), s)
  else
    s ← upd (current s) (fun t => set_wait_chldexit (current s :: wait_chldexit t) t) s;
    '(r, s) ← wait_pass pd options s; wait_leave r s.

(** After [schedule]. *)
Definition wait_resume (pd options : Z) (s : system) : option (option report * system) :=
  s ← upd (current s) (on_sched (fun k => set_signal k (Z.land (signal k) (Z.lnot (sigmask SIGCHLD))))) s;
  pending ← rd (current s) (fun t => Z.land (signal (sched t)) (Z.lnot (blocked (sched t)))) s;
  if negb (pending =? 0) then wait_leave (Some (Report (- ERESTARTSYS) 0 None)) s
  else '(r, s) ← wait_pass pd options s; wait_leave r s.

(** ** [ptrace] *)

Fixpoint get_task_loop (l : list Z) (pd : Z) (s : system) : option Z :=
  match l with
  | [] => Some 0
  | p :: l => if p =? 0 then get_task_loop l pd s
              else t ← store s !! p; if pid t =? pd then Some p else get_task_loop l pd s
  end.

Definition get_task (pd : Z) (s : system) : option Z := get_task_loop (drop 1 (tasks s)) pd s.

Definition ptrace_attach (pd : Z) (s : system) : option (Z * system) :=
  if pd =? 1 then Some (- EPERM, s)
  else
    p ← get_task pd s;
    if p =? 0 then Some (- ESRCH, s)
    else if p =? current s then Some (- EPERM, s)
    else
      c ← store s !! current s; t ← store s !! p;
      if (negb (dumpable t) || negb (Sys.uid (cred c) =? Sys.euid (cred t)) || negb (Sys.gid (cred c) =? Sys.egid (cred t)))
         && negb (Sys.suser (cred c)) then Some (- EPERM, s)
      else if has (flags (sched t)) PF_PTRACED then Some (- EPERM, s)
      else
        s ← upd p (on_sched (fun k => set_flags (Z.lor (flags k) PF_PTRACED) k)) s;
        s ← (if negb (p_pptr t =? current s) then relink p (current s) s else Some s);
        '(_, s) ← send_sig SIGSTOP p true s;
        Some (0, s).

(** The tests before a request to a traced child; [kill] is whether the request is
    [PTRACE_KILL]. *)
Definition ptrace_check (kill : bool) (p : Z) (s : system) : option Z :=
  t ← store s !! p;
  if negb (has (flags (sched t)) PF_PTRACED) then Some (- ESRCH)
  else if negb (state (sched t) =? TASK_STOPPED) && negb kill then Some (- ESRCH)
  else if negb (p_pptr t =? current s) then Some (- ESRCH)
  else Some 0.

Definition ptrace_detach (pd data : Z) (s : system) : option (Z * system) :=
  if pd =? 1 then Some (- EPERM, s)
  else
    p ← get_task pd s;
    if p =? 0 then Some (- ESRCH, s)
    else
      r ← ptrace_check false p s;
      if negb (r =? 0) then Some (r, s)
      else if 32 <? u32 data then Some (- EIO, s)
      else
        s ← upd p (on_sched (fun k =>
              set_exit_code (Sched.set_state (set_flags (Z.land (flags k) (Z.lnot (Z.lor PF_PTRACED PF_TRACESYS))) k) TASK_RUNNING) data)) s;
        o ← rd p p_opptr s;
        s ← relink p o s;
        Some (0, s).

Definition ptrace_kill (pd : Z) (s : system) : option (Z * system) :=
  if pd =? 1 then Some (- EPERM, s)
  else
    p ← get_task pd s;
    if p =? 0 then Some (- ESRCH, s)
    else
      r ← ptrace_check true p s;
      if negb (r =? 0) then Some (r, s)
      else s ← upd p (on_sched (fun k => set_exit_code (Sched.set_state k TASK_RUNNING) SIGKILL)) s; Some (0, s).

End Procs.
