(* ===== verification/ProcsFork.v ===== *)
(** * Process numbers and slots ([find_empty_process] of [src/kernel/fork.c])

    [find_empty_process] ends, for there are fewer numbers in use than numbers:
    with 127 tasks at most 381 of the 32767 numbers are taken, so it tries at most
    382.  It finds a number that no task has as process, group or session number,
    and the first free slot. *)

From S2P Require Import Prelude Sched Sys Dll Tasks Kill Procs.
From Stdlib Require Import ZArith Lia.
From stdpp Require Import base list gmap sets.
Local Open Scope Z_scope.

Module ProcsFork.
Import Sched Tasks Kill Procs.

(** ** The next number *)

Lemma next_pid_spec n : 0 <= n < 2 ^ 15 -> next_pid n = if n =? 32767 then 1 else n + 1.
Proof.
  intros Hn. unfold next_pid, has. destruct (Z.eqb_spec n 32767) as [-> |]; [done|].
  assert (Z.land (n + 1) 0xffff8000 = 0) as ->; [|done].
  apply Z.bits_inj'. intros i Hi. rewrite Z.land_spec, Z.bits_0. destruct (Z.lt_ge_cases i 15).
  - replace 0xffff8000 with (Z.shiftl 131071 15) by done. rewrite Z.shiftl_spec_low by lia. apply andb_false_r.
  - rewrite Z.bits_above_log2; [done|lia|]. apply Z.log2_lt_pow2; [lia|]. apply Z.lt_le_trans with (2 ^ 15); [lia|].
    apply Z.pow_le_mono_r; lia.
Qed.

(** The [k]-th number tried after [n]. *)
Definition pid_after (n : Z) (k : nat) : Z := (n + Z.of_nat k - 1) mod 32767 + 1.

Lemma next_pid_after n k : next_pid (pid_after n k) = pid_after n (S k).
Proof.
  unfold pid_after. set (x := n + Z.of_nat k - 1). assert (Hx := Z.mod_pos_bound x 32767 ltac:(lia)).
  rewrite next_pid_spec by lia. replace (n + Z.of_nat (S k) - 1) with (x + 1) by lia.
  destruct (Z.eqb_spec (x mod 32767 + 1) 32767) as [E|E].
  - rewrite <- (Z.mod_unique (x + 1) 32767 (x / 32767 + 1) 0); [done|lia|]. rewrite (Z.div_mod x 32767) at 1 by lia. lia.
  - rewrite <- (Z.mod_unique (x + 1) 32767 (x / 32767) (x mod 32767 + 1)); [done|lia|]. rewrite (Z.div_mod x 32767) at 1 by lia. lia.
Qed.

Lemma pid_after_range n k : 1 <= pid_after n k <= 32767.
Proof. unfold pid_after. pose proof (Z.mod_pos_bound (n + Z.of_nat k - 1) 32767). lia. Qed.

Lemma pid_after_inj n i j : Z.of_nat i < 32767 -> Z.of_nat j < 32767 -> pid_after n i = pid_after n j -> i = j.
Proof.
  unfold pid_after. intros Hi Hj E. pose proof (Z.div_mod (n + Z.of_nat i - 1) 32767 ltac:(lia)) as Ei.
  pose proof (Z.div_mod (n + Z.of_nat j - 1) 32767 ltac:(lia)) as Ej.
  set (qi := (n + Z.of_nat i - 1) / 32767) in *. set (qj := (n + Z.of_nat j - 1) / 32767) in *.
  assert (Z.of_nat i - Z.of_nat j = 32767 * (qi - qj)) by lia. lia.
Qed.

(** ** The scan *)

(** The numbers that the task at [p] keeps in use. *)
Definition numbers (s : system) (p : Z) : list Z :=
  match store s !! p with Some t => [pid t; pgrp t; session t] | None => [] end.

(** Those of the tasks in the slots 1 to [i]. *)
Definition in_use (s : system) (i : nat) : list Z := take i (drop 1 (tasks s)) ≫= numbers s.

Definition free_slots (s : system) (i : nat) : list Z :=
  filter (fun j => get (tasks s) j = Some 0) (seqZ 1 (Z.of_nat i)).

(** How many of these tasks belong to [user]. *)
Definition owned (s : system) (user : Z) (p : Z) : Z :=
  match store s !! p with Some t => Z.b2z (Sys.uid (cred t) =? user) | None => 0 end.
Definition owned_by (s : system) (user : Z) (i : nat) : Z := lsum (owned s user) (take i (drop 1 (tasks s))).

Lemma slot_S s i p : get (tasks s) (Z.of_nat (S i)) = Some p -> take (S i) (drop 1 (tasks s)) = take i (drop 1 (tasks s)) ++ [p].
Proof.
  intros Hp. unfold get in Hp. destruct (Z.ltb_spec (Z.of_nat (S i)) 0); [lia|]. rewrite Nat2Z.id in Hp.
  by rewrite (take_S_r _ i p) by (by rewrite lookup_drop).
Qed.

Lemma in_use_S s i p :
  get (tasks s) (Z.of_nat (S i)) = Some p -> in_use s (S i) = in_use s i ++ numbers s p.
Proof.
  intros Hp. unfold in_use. rewrite (slot_S s i p Hp), bind_app. f_equal. simpl. by rewrite app_nil_r.
Qed.

Lemma owned_by_S s user i p :
  get (tasks s) (Z.of_nat (S i)) = Some p -> owned_by s user (S i) = owned_by s user i + owned s user p.
Proof. intros Hp. unfold owned_by. rewrite (slot_S s i p Hp), lsum_app. simpl. lia. Qed.

(** The lowest of the slots found free. *)
Lemma free_slots_S s i p :
  get (tasks s) (Z.of_nat (S i)) = Some p ->
  free_slots s (S i) = free_slots s i ++ (if p =? 0 then [Z.of_nat (S i)] else []).
Proof.
  intros Hp. unfold free_slots. replace (Z.of_nat (S i)) with (Z.of_nat i + 1) in * by lia.
  rewrite seqZ_app, filter_app by lia. f_equal. rewrite seqZ_cons by lia. change (Z.pred 1) with 0. rewrite (seqZ_nil _ 0) by lia.
  replace (1 + Z.of_nat i) with (Z.of_nat i + 1) by lia. rewrite filter_cons, filter_nil, Hp.
  destruct (Z.eqb_spec p 0) as [-> |]; case_decide; congruence.
Qed.

Lemma scan_tasks_spec i lp user free n u s :
  Z.of_nat i < Z.of_nat (length (tasks s)) -> store s !! 0 = None ->
  (forall p, p ∈ tasks s -> p <> 0 -> is_Some (store s !! p)) ->
  exists r, scan_tasks i lp user (free, n, u) s = Some r /\
    match r with
    | None => lp ∈ in_use s i
    | Some (free', n', u') =>
        (lp ∉ in_use s i) /\ free' = default free (head (free_slots s i)) /\
        n' = n + Z.of_nat (length (free_slots s i)) /\ u' = u + owned_by s user i
    end.
Proof.
  intros Hi H0 Hd. revert free n u Hi. induction i as [|i IH]; intros free n u Hi.
  { cbn [scan_tasks]. eexists. split; [done|]. unfold in_use, free_slots. simpl. split; [apply not_elem_of_nil|]. split; [done|]. unfold owned_by. simpl. lia. }
  destruct (get_in_range (tasks s) (Z.of_nat (S i))) as [p Hp]; [lia|]. cbn [scan_tasks]. rewrite Hp. cbn [mbind option_bind].
  rewrite (in_use_S s i p Hp), (free_slots_S s i p Hp), (owned_by_S s user i p Hp), length_app. destruct (Z.eqb_spec p 0) as [-> | Hp0].
  - assert (numbers s 0 = []) as -> by (unfold numbers; by rewrite H0). assert (owned s user 0 = 0) as -> by (unfold owned; by rewrite H0).
    destruct (IH (Z.of_nat (S i)) (n + 1) u) as (r & E & Hr); [lia|]. exists r. split; [exact E|].
    rewrite app_nil_r. destruct r as [[[f' n'] u']|]; [|done]. destruct Hr as (A & -> & -> & ->). split; [done|].
    split; [by destruct (free_slots s i)|simpl; lia].
  - assert (Hin : p ∈ tasks s).
    { unfold get in Hp. destruct (_ <? 0); [done|]. by eapply list_elem_of_lookup_2. }
    destruct (Hd p Hin Hp0) as [t Ht]. rewrite Ht. cbn [mbind option_bind]. unfold numbers, owned. rewrite Ht, app_nil_r.
    destruct ((pid t =? lp) || (pgrp t =? lp) || (session t =? lp)) eqn:Ec.
    + exists None. split; [done|]. rewrite !orb_true_iff, !Z.eqb_eq in Ec. rewrite elem_of_app, !elem_of_cons. intuition.
    + rewrite !orb_false_iff, !Z.eqb_neq in Ec.
      destruct (IH free n (if Sys.uid (cred t) =? user then u + 1 else u)) as (r & E & Hr); [lia|]. exists r. split; [exact E|].
      destruct r as [[[f' n'] u']|]; rewrite elem_of_app, !elem_of_cons, elem_of_nil; [|tauto].
      destruct Hr as (A & -> & -> & ->). split; [intuition congruence|]. split; [done|]. simpl. case_bool; simpl; lia.
Qed.

(** ** [find_empty_process] *)

Lemma in_use_length s i : (length (in_use s i) <= 3 * i)%nat.
Proof.
  unfold in_use. assert (H : forall l, (length (l ≫= numbers s) <= 3 * length l)%nat).
  { induction l as [|p l IH]; [done|]. cbn [mbind list_bind]. rewrite length_app. unfold numbers at 1. cbn [length].
    destruct (store s !! p); cbn [length]; lia. }
  etransitivity; [apply H|]. rewrite length_take. lia.
Qed.

(** Pigeonhole: not all of [k] distinct numbers are among fewer than [k]. *)
Lemma pid_not_all n k (l : list Z) :
  Z.of_nat k < 32767 -> (length l < k)%nat -> exists j, (j < k)%nat /\ pid_after n j ∉ l.
Proof.
  intros Hk Hl. destruct (decide (Forall (fun j => pid_after n j ∈ l) (seq 0 k))) as [Ha|Ha].
  - exfalso. assert (length (pid_after n <$> seq 0 k) <= length l)%nat; [|rewrite length_fmap, length_seq in *; lia].
    apply submseteq_length, NoDup_submseteq.
    + apply NoDup_fmap_2_strong; [|apply NoDup_seq]. intros i j Hi%elem_of_seq Hj%elem_of_seq. apply pid_after_inj; lia.
    + intros x (j & -> & Hj)%list_elem_of_fmap. rewrite list.Forall_forall in Ha. auto.
  - apply not_Forall_Exists in Ha; [|apply _]. apply Exists_exists in Ha as (j & Hj%elem_of_seq & Hn). exists j. split; [lia|done].
Qed.

(** What it returns once the number is free. *)
Definition slot_result (s : system) (user : Z) : Z :=
  if ((Z.of_nat (length (free_slots s last_slot)) <=? MIN_TASKS_LEFT_FOR_ROOT) || (MAX_TASKS_PER_USER <? owned_by s user last_slot))
     && negb (user =? 0)
  then - EAGAIN else default (- EAGAIN) (head (free_slots s last_slot)).

Lemma slot_result_ext s s' user : tasks s = tasks s' -> store s = store s' -> slot_result s user = slot_result s' user.
Proof. intros E1 E2. unfold slot_result, free_slots, owned_by, owned. by rewrite E1, E2. Qed.

(** One round. *)
Lemma find_round n s :
  find_empty_process (S n) s
  = (let s := set_last_pid (next_pid (last_pid s)) s in
     user ← rd (current s) (fun t => Sys.uid (cred t)) s;
     r ← scan_tasks last_slot (last_pid s) user (- EAGAIN, 0, 0) s;
     match r with
     | None => find_empty_process n s
     | Some (free_task, tasks_free, this_user_tasks) =>
         if ((tasks_free <=? MIN_TASKS_LEFT_FOR_ROOT) || (MAX_TASKS_PER_USER <? this_user_tasks)) && negb (user =? 0)
         then Some (- EAGAIN, s) else Some (free_task, s)
     end).
Proof. done. Qed.

Lemma in_use_ext s s' i : tasks s = tasks s' -> store s = store s' -> in_use s i = in_use s' i.
Proof. intros E1 E2. unfold in_use, numbers. by rewrite E1, E2. Qed.

Lemma last_slot_eq : last_slot = 127%nat.
Proof. done. Qed.

Opaque last_slot.

Lemma find_one n m user s :
  length (tasks s) = 128%nat -> store s !! 0 = None -> (forall p, p ∈ tasks s -> p <> 0 -> is_Some (store s !! p)) ->
  rd (current s) (fun t => Sys.uid (cred t)) s = Some user -> next_pid (last_pid s) = pid_after m 0 ->
  (find_empty_process (S n) s = Some (slot_result s user, set_last_pid (pid_after m 0) s) /\ pid_after m 0 ∉ in_use s last_slot) \/
  (find_empty_process (S n) s = find_empty_process n (set_last_pid (pid_after m 0) s) /\ pid_after m 0 ∈ in_use s last_slot).
Proof.
  intros Hl H0 Hd Hu Hn. rewrite find_round. cbv zeta. rewrite Hn. set (s1 := set_last_pid _ s).
  assert (rd (current s1) (fun t => Sys.uid (cred t)) s1 = Some user) as -> by done. cbn [mbind option_bind].
  assert (Hlen : Z.of_nat last_slot < Z.of_nat (length (tasks s1))) by (unfold s1; cbn [tasks set_last_pid]; rewrite last_slot_eq; lia).
  destruct (scan_tasks_spec last_slot (last_pid s1) user (- EAGAIN) 0 0 s1 Hlen H0 Hd) as (r & -> & Hr). cbn [mbind option_bind].
  rewrite (in_use_ext s1 s) in Hr by done. destruct r as [[[f k] u]|]; [left|by right].
  destruct Hr as (A & -> & -> & ->). split; [|done]. rewrite !Z.add_0_l, <- (slot_result_ext s1 s) by done. unfold slot_result.
  by destruct (_ && _).
Qed.

Lemma find_from j m user s :
  length (tasks s) = 128%nat -> store s !! 0 = None -> (forall p, p ∈ tasks s -> p <> 0 -> is_Some (store s !! p)) ->
  rd (current s) (fun t => Sys.uid (cred t)) s = Some user ->
  next_pid (last_pid s) = pid_after m 0 -> pid_after m j ∉ in_use s last_slot ->
  exists lp, find_empty_process (S j) s = Some (slot_result s user, set_last_pid lp s) /\
    1 <= lp <= 32767 /\ lp ∉ in_use s last_slot.
Proof.
  revert m s. induction j as [|j IH]; intros m s Hl H0 Hd Hu Hn Hj.
  { destruct (find_one 0 m user s Hl H0 Hd Hu Hn) as [(E & Hf)|(E & Hin)]; [|done].
    exists (pid_after m 0). rewrite E. split; [done|]. split; [apply pid_after_range|done]. }
  destruct (find_one (S j) m user s Hl H0 Hd Hu Hn) as [(E & Hf)|(E & Hin)]; rewrite E.
  { exists (pid_after m 0). split; [done|]. split; [apply pid_after_range|done]. }
  destruct (IH (m + 1) (set_last_pid (pid_after m 0) s) Hl H0 Hd Hu) as (lp & -> & Hlp & Hf).
  - cbn [last_pid set_last_pid]. rewrite next_pid_after. unfold pid_after. f_equal. f_equal. lia.
  - rewrite (in_use_ext _ s) by done. unfold pid_after in *. replace (m + 1 + Z.of_nat j - 1) with (m + Z.of_nat (S j) - 1) by lia. done.
  - exists lp. rewrite (slot_result_ext _ s) by done. rewrite (in_use_ext _ s) in Hf by done.
    split; [reflexivity|]. split; assumption.
Qed.

(** More fuel gives the same. *)
Lemma find_more n k s r : find_empty_process n s = Some r -> find_empty_process (n + k) s = Some r.
Proof.
  revert s. induction n as [|n IH]; intros s; [done|]. cbn [find_empty_process Nat.add]. set (s1 := set_last_pid _ s).
  destruct (rd (current s1) (fun t => Sys.uid (cred t)) s1) as [user|]; [|done]. cbn [mbind option_bind].
  destruct (scan_tasks _ _ _ _ _) as [[[[f m] u]|]|]; [done| |done]. apply IH.
Qed.

Lemma in_use_task s ts p t lp :
  table s ts -> p ∈ ts -> p <> 0 -> p <> init_task -> store s !! p = Some t -> lp ∉ in_use s last_slot ->
  pid t <> lp /\ pgrp t <> lp /\ session t <> lp.
Proof.
  intros T Hp Hp0 Hpi Ht Hlp. assert (Hin : p ∈ tasks s) by (apply (table_in _ _ T); [done|by right]).
  apply list_elem_of_lookup in Hin as [[|i] Hi]; [rewrite (table_init _ _ T) in Hi; congruence|].
  assert (Hsub : forall x, x ∈ numbers s p -> x ∈ in_use s last_slot).
  { intros x Hx. unfold in_use. apply list_elem_of_bind. exists p. split; [done|]. apply list_elem_of_lookup. exists i.
    rewrite lookup_take_lt, lookup_drop; [done|]. rewrite last_slot_eq. pose proof (lookup_lt_Some _ _ _ Hi) as Hlt. rewrite (table_length _ _ T) in Hlt.
    change (Z.to_nat NR_TASKS) with 128%nat in Hlt. lia. }
  unfold numbers in Hsub. rewrite Ht in Hsub. repeat split; intros <-; apply Hlp, Hsub; set_solver.
Qed.

Lemma find_empty_ok s ts ch e user :
  ok s ts ch e -> 0 <= last_pid s <= 32767 -> rd (current s) (fun t => Sys.uid (cred t)) s = Some user ->
  exists lp, find_empty_process 382 s = Some (slot_result s user, set_last_pid lp s) /\
    1 <= lp <= 32767 /\ (forall p t, p ∈ ts -> store s !! p = Some t -> pid t <> lp /\ pgrp t <> lp /\ session t <> lp).
Proof.
  intros H Hp Hu. pose proof (ok_table _ _ _ _ H) as T.
  assert (Hd : forall p, p ∈ tasks s -> p <> 0 -> is_Some (store s !! p)).
  { intros p Hin Hp0. eapply ok_dom; [done|]. by apply (table_in _ _ T). }
  destruct (pid_not_all (last_pid s + 1) 382 (in_use s last_slot)) as (j & Hj & Hn); [lia|pose proof (in_use_length s last_slot); rewrite last_slot_eq in *; lia|].
  destruct (find_from j (last_pid s + 1) user s (table_length _ _ T) (rep_null _ _ _ _ _ (ok_rep _ _ _ _ H)) Hd Hu) as (lp & E & Hlp & Hfree).
  - rewrite next_pid_spec by lia. unfold pid_after. replace (last_pid s + 1 + Z.of_nat 0 - 1) with (last_pid s) by lia.
    destruct (Z.eqb_spec (last_pid s) 32767) as [-> |]; [done|]. rewrite Z.mod_small; lia.
  - exact Hn.
  - exists lp. split; [|split; [done|]].
    + replace 382%nat with (S j + (381 - j))%nat by lia. by apply find_more.
    + intros p t Hpt Ht. destruct (ok_nodup _ _ _ _ H) as (_ & H0 & Hi). apply (in_use_task s ts p t lp); try done; by intros ->.
Qed.

(** C37: [find_empty_process] ends within 382 rounds: it leaves in [last_pid] a number
    between 1 and 32767 that no task uses for itself, its group or its session,
    and returns the lowest free slot, or [EAGAIN] if there is none or, for other
    users than root, if at most 4 are free or the user has more than 64 tasks. *)
Theorem find_empty_process_spec s ts ch e user :
  ok s ts ch e -> 0 <= last_pid s <= 32767 -> rd (current s) (fun t => Sys.uid (cred t)) s = Some user ->
  exists lp, find_empty_process 382 s = Some (slot_result s user, set_last_pid lp s) /\
    1 <= lp <= 32767 /\ (forall p t, p ∈ ts -> store s !! p = Some t -> pid t <> lp /\ pgrp t <> lp /\ session t <> lp).
Proof. apply find_empty_ok. Qed.

End ProcsFork.
