(* ===== verification/ProcsInv.v ===== *)
(** * What the parts of [fork], [exit], [wait4] and [ptrace] keep

    First the changes that leave the family alone ([quiet]), with the functions of
    [Kill] that only make such changes; then the effect of each part of the
    calls on the lists of children. *)

From S2P Require Import Prelude Sched Sys Dll Tasks Kill Procs.
From Stdlib Require Import ZArith Lia.
From stdpp Require Import base list gmap sets.
Local Open Scope Z_scope.

Module ProcsInv.
Import Sched Tasks Kill Procs.

(** ** Quiet changes *)

(** What a quiet change keeps of a task, [b] if [fork] is still building it. *)
Definition keeps (b : bool) (t t' : task_struct) : Prop :=
  lk t' = lk t /\ pid t' = pid t /\ length (handlers (sched t')) = length (handlers (sched t)) /\
  (state (sched t') = TASK_ZOMBIE <-> state (sched t) = TASK_ZOMBIE) /\
  wait_chldexit t' = wait_chldexit t /\ (b = true -> state (sched t') = state (sched t)).

Record quiet (b : list Z) (s s' : system) : Prop := {
  q_some : forall x t, store s !! x = Some t ->
    exists t', store s' !! x = Some t' /\ keeps (bool_decide (x ∈ b)) t t';
  q_none : forall x, store s !! x = None -> store s' !! x = None;
  q_tasks : tasks s' = tasks s;
  q_current : current s' = current s;
  q_pid : last_pid s' = last_pid s;
  q_freed : freed s' = freed s
}.

Definition building (b : list Z) (s : system) : Prop :=
  forall x t, x ∈ b -> store s !! x = Some t -> state (sched t) = TASK_UNINTERRUPTIBLE.

Lemma keeps_refl b t : keeps b t t.
Proof. by repeat split. Qed.

Lemma quiet_refl b s : quiet b s s.
Proof. split; try done. intros x t Ht. exists t. split; [done|apply keeps_refl]. Qed.

Lemma quiet_trans b s1 s2 s3 : quiet b s1 s2 -> quiet b s2 s3 -> quiet b s1 s3.
Proof.
  intros [A1 A2 A3 A4 A5 A6] [B1 B2 B3 B4 B5 B6]. split; try congruence; [|auto].
  intros x t Ht. destruct (A1 x t Ht) as (t' & Ht' & K1). destruct (B1 x t' Ht') as (t'' & Ht'' & K2).
  exists t''. split; [done|]. destruct K1 as (C1 & C2 & C3 & C4 & C5 & C6), K2 as (D1 & D2 & D3 & D4 & D5 & D6).
  repeat split; try congruence; try tauto. intros Hb. rewrite D6, C6; done.
Qed.

Lemma quiet_L b s s' x : quiet b s s' -> L s' x = L s x.
Proof.
  intros H. unfold L. destruct (store s !! x) as [t|] eqn:Ht; [|by rewrite (q_none _ _ _ H x Ht)].
  destruct (q_some _ _ _ H x t Ht) as (t' & -> & K & _). simpl. by rewrite K.
Qed.

Lemma quiet_is_Some b s s' x : quiet b s s' -> is_Some (store s' !! x) <-> is_Some (store s !! x).
Proof.
  intros H. destruct (store s !! x) as [t|] eqn:Ht.
  - destruct (q_some _ _ _ H x t Ht) as (t' & -> & _). split; eauto.
  - by rewrite (q_none _ _ _ H x Ht).
Qed.

Lemma quiet_building b s s' : quiet b s s' -> building b s -> building b s'.
Proof.
  intros H Hb x t' Hx Ht'. destruct (store s !! x) as [t|] eqn:Ht; [|by rewrite (q_none _ _ _ H x Ht) in Ht'].
  destruct (q_some _ _ _ H x t Ht) as (t2 & E & _ & _ & _ & _ & _ & K). rewrite E in Ht'. injection Ht' as ->.
  rewrite K by (by apply bool_decide_eq_true). by eapply Hb.
Qed.

(** The representation depends on the links only. *)
Lemma rep_ext s s' ts o ch e :
  (forall x, L s' x = L s x) -> (forall x, is_Some (store s' !! x) <-> is_Some (store s !! x)) ->
  rep s ts o ch e -> rep s' ts o ch e.
Proof.
  intros HL HS [R1 R2 R3 R4 R5 R6 R7 R8 R9 R10 R11]. split; try setoid_rewrite HL; try done.
  - apply eq_None_not_Some. rewrite HS, R2. by intros [? ?].
  - intros x Hx. by apply HS, R3.
Qed.

Lemma rep_quiet b s s' ts o ch e : quiet b s s' -> rep s ts o ch e -> rep s' ts o ch e.
Proof. intros H. apply rep_ext; [intros x; by eapply quiet_L|intros x; by eapply quiet_is_Some]. Qed.

Lemma table_ext s s' ts : tasks s' = tasks s -> table s ts -> table s' ts.
Proof. intros E [T1 T2 T3 T4]. by split; rewrite ?E. Qed.

Lemma actions_quiet b s s' : quiet b s s' -> actions_ok s -> actions_ok s'.
Proof.
  intros H Ha x t' Ht'. destruct (store s !! x) as [t|] eqn:Ht; [|by rewrite (q_none _ _ _ H x Ht) in Ht'].
  destruct (q_some _ _ _ H x t Ht) as (t2 & E & _ & _ & K & _). rewrite E in Ht'. injection Ht' as ->. rewrite K. by eapply Ha.
Qed.

Lemma ok_quiet b s s' ts ch e : quiet b s s' -> ok s ts ch e -> ok s' ts ch e.
Proof.
  intros H [O1 O2 O3 O4]. split.
  - by eapply rep_quiet.
  - eapply table_ext; [apply H|done].
  - by eapply actions_quiet.
  - by rewrite (q_current _ _ _ H).
Qed.

(** ** Functions that only make quiet changes *)

(** One task changes. *)
Lemma quiet_upd b p f s t :
  store s !! p = Some t -> keeps (bool_decide (p ∈ b)) t (f t) ->
  exists s', upd p f s = Some s' /\ quiet b s s' /\ store s' !! p = Some (f t).
Proof.
  intros Ht K. unfold upd. rewrite Ht. eexists. split; [done|]. split; [|by apply lookup_insert_eq].
  split; try done; intros x; cbn [store set_store]; (destruct (decide (x = p)) as [-> |]; [|by rewrite lookup_insert_ne; eauto using keeps_refl]).
  - rewrite Ht, lookup_insert_eq. intros t' [= <-]. eauto.
  - congruence.
Qed.

Lemma after_quiet b sel sig priv c l s :
  0 <= sig -> actions_ok s -> building b s -> quiet b s (set_store (after sel sig priv c l (store s)) s).
Proof.
  intros Hs Ha Hb. split; try done; cbn [store set_store]; intros x.
  - intros t Ht. rewrite after_lookup, Ht. eexists. split; [done|]. case_bool; [|apply keeps_refl].
    destruct (outcome_spec sig priv c t Hs (Ha _ _ Ht)) as (k & _ & -> & (K1 & K2 & _ & _ & _ & _ & K3) & _).
    split; [done|]. split; [done|]. split; [by cbn; rewrite K2|]. split; [done|]. split; [done|].
    intros Hx%bool_decide_eq_true. apply K3. by rewrite (Hb x t Hx Ht).
  - intros Ht. by rewrite after_lookup, Ht.
Qed.

Lemma current_some s ts ch e : ok s ts ch e -> exists c, store s !! current s = Some c.
Proof. intros H. exact (ok_dom s ts ch e (current s) H (ok_current _ _ _ _ H)). Qed.

Lemma kill_pg_quiet b pg sig priv s ts ch e :
  ok s ts ch e -> building b s -> exists r s', kill_pg pg sig priv s = Some (r, s') /\ quiet b s s'.
Proof.
  intros H Hb. destruct (current_some s ts ch e H) as [c Hc]. unfold kill_pg. destruct (_ || _ || _) eqn:E; [eauto using quiet_refl|].
  apply orb_false_iff in E as [[E1%Z.ltb_ge E2%Z.ltb_ge]%orb_false_iff _].
  rewrite (kill_sel_spec _ sig priv s ts ch e c) by (done || lia). eexists _, _. split; [done|]. apply after_quiet; [lia|apply H|done].
Qed.

(** The two signals for an orphaned group. *)
Lemma hup_cont_quiet b pg priv s ts ch e :
  ok s ts ch e -> building b s ->
  exists s', ('(_, s) ← kill_pg pg SIGHUP priv s; '(_, s) ← kill_pg pg SIGCONT priv s; Some s) = Some s' /\ quiet b s s'.
Proof.
  intros H Hb. destruct (kill_pg_quiet b pg SIGHUP priv s ts ch e H Hb) as (r1 & s1 & -> & Q1). cbn [mbind option_bind].
  destruct (kill_pg_quiet b pg SIGCONT priv s1 ts ch e) as (r2 & s2 & -> & Q2); [by eapply ok_quiet|by eapply quiet_building|].
  exists s2. split; [done|by eapply quiet_trans].
Qed.

Lemma send_sig_quiet b sig p priv s ts ch e :
  ok s ts ch e -> building b s -> 0 <= sig -> p ∈ init_task :: ts ->
  exists r s', send_sig sig p priv s = Some (r, s') /\ quiet b s s'.
Proof.
  intros H Hb Hs Hp. destruct (current_some s ts ch e H) as [c Hc]. destruct (ok_dom s ts ch e p H Hp) as [t Ht].
  assert (p <> 0) by (intros ->; by rewrite (rep_null _ _ _ _ _ (ok_rep _ _ _ _ H)) in Ht).
  rewrite (send_sig_store sig p priv s c t) by (done || apply H). eexists _, _. split; [done|].
  pose proof (after_quiet b (fun x _ => x =? p) sig priv c [p] s Hs (ok_actions _ _ _ _ H) Hb) as Q.
  replace (<[p := (outcome sig priv c t).2]> (store s)) with (after (fun x _ => x =? p) sig priv c [p] (store s)); [done|].
  rewrite <- (after_cons _ _ _ _ p [] (store s) t), Z.eqb_refl, after_nil; [done|set_solver|done].
Qed.

Lemma wake_quiet b q s ts ch e :
  ok s ts ch e -> building b s -> (forall x, x ∈ q -> x ∈ init_task :: ts) ->
  exists s', wake_up_interruptible q s = Some s' /\ quiet b s s'.
Proof.
  revert s. induction q as [|p q IH]; intros s H Hb Hq; cbn [wake_up_interruptible]; [eauto using quiet_refl|].
  destruct (ok_dom s ts ch e p H) as [t Ht]; [apply Hq; left|]. rewrite Ht. cbn [mbind option_bind].
  assert (Hq' : forall x, x ∈ q -> x ∈ init_task :: ts) by (intros x Hx; apply Hq; by right).
  destruct (Z.eqb_spec (state (sched t)) TASK_INTERRUPTIBLE) as [E|]; [|by apply IH].
  destruct (quiet_upd b p (set_state TASK_RUNNING) s t) as (s1 & -> & Q1 & _); [done| |].
  { repeat split; try done; [cbn; rewrite E; done..|]. intros Hx%bool_decide_eq_true. pose proof (Hb p t Hx Ht) as E'. by rewrite E in E'. }
  cbn [mbind option_bind]. pose proof (ok_quiet _ _ _ _ _ _ Q1 H) as H1. destruct (current_some s1 ts ch e H1) as [c ->]. cbn [mbind option_bind].
  set (s2 := if _ <? _ then _ else _). assert (Q2 : quiet b s s2).
  { unfold s2. destruct (_ <? _); [|done]. destruct Q1. by split. }
  destruct (IH s2) as (s3 & -> & Q3); [by eapply ok_quiet|by eapply quiet_building|done|].
  exists s3. split; [done|by eapply quiet_trans].
Qed.

(** Nobody but a task itself waits for its children. *)
Definition queues_in (s : system) (ts : list Z) : Prop :=
  forall x t y, store s !! x = Some t -> y ∈ wait_chldexit t -> y = x /\ y ∈ init_task :: ts.

Lemma queues_quiet b s s' ts : quiet b s s' -> queues_in s ts -> queues_in s' ts.
Proof.
  intros H Hq x t' y Ht'. destruct (store s !! x) as [t|] eqn:Ht; [|by rewrite (q_none _ _ _ H x Ht) in Ht'].
  destruct (q_some _ _ _ H x t Ht) as (t2 & E & _ & _ & _ & _ & K & _). rewrite E in Ht'. injection Ht' as ->. rewrite K. by eapply Hq.
Qed.

(** A state in which the functions of [Kill] work. *)
Record fine (s : system) (ts : list Z) (ch : Z -> list Z) (e : Z) (b : list Z) : Prop := {
  fine_ok : ok s ts ch e;
  fine_building : building b s;
  fine_queues : queues_in s ts
}.

Lemma fine_quiet s s' ts ch e b : quiet b s s' -> fine s ts ch e b -> fine s' ts ch e b.
Proof. intros Q [A B C]. split; [by eapply ok_quiet|by eapply quiet_building|by eapply queues_quiet]. Qed.

Lemma slot1 s ts : table s ts -> exists i1, get (tasks s) 1 = Some i1.
Proof. intros T. apply get_in_range. rewrite (table_length _ _ T). by compute. Qed.

Lemma notify_quiet p s ts ch e b :
  fine s ts ch e b -> p ∈ ts -> exists s', notify_parent p s = Some s' /\ quiet b s s'.
Proof.
  intros F Hp. pose proof (fine_ok _ _ _ _ _ F) as H. destruct (ok_dom s ts ch e p H) as [t Ht]; [by right|].
  destruct (slot1 s ts (ok_table _ _ _ _ H)) as [i1 Hi]. unfold notify_parent, rd. rewrite Ht, Hi. cbn [fmap option_fmap option_map mbind option_bind].
  assert (exists s1, (if p_pptr t =? i1 then upd p (set_exit_signal SIGCHLD) s else Some s) = Some s1 /\ quiet b s s1) as (s1 & -> & Q1).
  { destruct (p_pptr t =? i1); [|eauto using quiet_refl].
    destruct (quiet_upd b p (set_exit_signal SIGCHLD) s t) as (s1 & -> & Q1 & _); eauto. by repeat split. }
  cbn [mbind option_bind]. destruct (q_some _ _ _ Q1 p t Ht) as (t1 & -> & E1 & _). cbn [fmap option_fmap option_map mbind option_bind].
  pose proof (fine_quiet _ _ _ _ _ _ Q1 F) as F1.
  assert (Hpp : p_pptr t1 ∈ init_task :: ts).
  { pose proof (rep_parent_in _ _ _ _ _ p (ok_rep _ _ _ _ H) Hp) as Hin. rewrite app_nil_r in Hin. unfold p_pptr. rewrite E1.
    unfold L in Hin. by rewrite Ht in Hin. }
  destruct (send_sig_quiet b (u32 (exit_signal t1)) (p_pptr t1) true s1 ts ch e) as (r & s2 & -> & Q2); [apply F1..|apply u32_range|done|].
  cbn [mbind option_bind]. pose proof (fine_quiet _ _ _ _ _ _ Q2 F1) as F2. pose proof (quiet_trans _ _ _ _ Q1 Q2) as Q12.
  destruct (q_some _ _ _ Q12 p t Ht) as (t2 & -> & E2 & _). cbn [fmap option_fmap option_map mbind option_bind].
  replace (p_pptr t2) with (p_pptr t1) by (unfold p_pptr; congruence).
  destruct (ok_dom s2 ts ch e (p_pptr t1) (fine_ok _ _ _ _ _ F2) Hpp) as [pp Hpp2]. rewrite Hpp2. cbn [fmap option_fmap option_map mbind option_bind].
  destruct (wake_quiet b (wait_chldexit pp) s2 ts ch e) as (s3 & -> & Q3); [apply F2..|intros x Hx; by apply (fine_queues _ _ _ _ _ F2 (p_pptr t1) pp x Hpp2)|].
  exists s3. split; [done|by eapply quiet_trans].
Qed.

Lemma is_orphaned_total pg s ts ch e : ok s ts ch e -> exists b, is_orphaned_pgrp pg s = Some b.
Proof.
  intros H. unfold is_orphaned_pgrp.
  match goal with |- context [for_each_task fuel ?body _ _ _] => destruct (for_each_reads body s ts ch e fuel tt) as [r ->] end;
    [apply H|eapply table_bound; apply H| |cbn [mbind option_bind]; eauto].
  intros p [] Hp. destruct (ok_dom s ts ch e p H) as [t Ht]; [by right|]. rewrite Ht. cbn [mbind option_bind].
  destruct (_ || _); [eauto|]. destruct (ok_dom s ts ch e (p_pptr t) H) as [pp Hpp].
  { pose proof (rep_parent_in _ _ _ _ _ p (ok_rep _ _ _ _ H) Hp) as Hin. rewrite app_nil_r in Hin. unfold L in Hin. by rewrite Ht in Hin. }
  rewrite Hpp. cbn [mbind option_bind]. destruct (pid pp =? 1); [eauto|]. destruct (_ && _); eauto.
Qed.

Lemma has_stopped_total pg s ts ch e : ok s ts ch e -> exists b, has_stopped_jobs pg s = Some b.
Proof.
  intros H. unfold has_stopped_jobs.
  match goal with |- context [for_each_task fuel ?body _ _ _] => destruct (for_each_reads body s ts ch e fuel tt) as [r ->] end;
    [apply H|eapply table_bound; apply H| |cbn [mbind option_bind]; eauto].
  intros p [] Hp. destruct (ok_dom s ts ch e p H) as [t Ht]; [by right|]. rewrite Ht. cbn [mbind option_bind].
  destruct (negb _); [eauto|]. destruct (_ =? _); eauto.
Qed.

Lemma orphan_quiet cond pg s ts ch e b :
  fine s ts ch e b -> exists s', orphan_check cond pg s = Some s' /\ quiet b s s'.
Proof.
  intros F. unfold orphan_check. destruct cond; [|eauto using quiet_refl].
  destruct (is_orphaned_total pg s ts ch e) as [o ->]; [apply F|]. cbn [mbind option_bind]. destruct o; [|eauto using quiet_refl].
  destruct (has_stopped_total pg s ts ch e) as [h ->]; [apply F|]. cbn [mbind option_bind]. destruct h; [|eauto using quiet_refl].
  eapply hup_cont_quiet; apply F.
Qed.

(** Losing the terminal: a loop that makes quiet changes. *)
Lemma for_each_quiet {R} (body : Z -> unit -> system -> option (system * (unit + R))) s ts ch e b :
  fine s ts ch e b ->
  (forall p s1, p ∈ ts -> quiet b s s1 -> exists s2, body p tt s1 = Some (s2, inl tt) /\ quiet b s1 s2) ->
  exists s', for_each_task fuel body init_task tt s = Some (s', inl tt) /\ quiet b s s'.
Proof.
  intros F Hb. pose proof (fine_ok _ _ _ _ _ F) as H.
  rewrite (for_each_loop body (quiet b s) s ts ch e); [|apply H|eapply table_bound; apply H|apply quiet_refl| |].
  - assert (Hsub : forall l s1, (forall p, p ∈ l -> p ∈ ts) -> quiet b s s1 ->
      exists s', loop body l tt s1 = Some (s', inl tt) /\ quiet b s s').
    { induction l as [|p l IH]; intros s1 Hl Q; cbn [loop]; [eauto|]. destruct (Hb p s1) as (s2 & -> & Q2); [apply Hl; left|done|].
      cbn [mbind option_bind]. apply IH; [intros q Hq; apply Hl; by right|by eapply quiet_trans]. }
    apply Hsub; [done|apply quiet_refl].
  - intros s' Q x. unfold next_task, rd. destruct (store s !! x) as [t|] eqn:Ht; [|by rewrite (q_none _ _ _ Q x Ht)].
    destruct (q_some _ _ _ Q x t Ht) as (t' & -> & E & _). simpl. by rewrite E.
  - intros p [] s1 s2 [] Hp Q E. destruct (Hb p s1 Hp Q) as (s3 & E' & Q'). rewrite E' in E. injection E as <-. by eapply quiet_trans.
Qed.

Lemma ctty_quiet priv s ts ch e b :
  fine s ts ch e b -> exists s', disassociate_ctty priv s = Some s' /\ quiet b s s'.
Proof.
  intros F. unfold disassociate_ctty, rd. pose proof (fine_ok _ _ _ _ _ F) as H. destruct (current_some s ts ch e H) as [c ->].
  cbn [fmap option_fmap option_map mbind option_bind].
  match goal with |- context [mbind _ ?x] => assert (exists s1, x = Some s1 /\ quiet b s s1) as (s1 & -> & Q1) end.
  { destruct (0 <=? tty c); [|eauto using quiet_refl]. destruct (ttys s !! tty c) as [y|]; [|eauto using quiet_refl].
    destruct (0 <? t_pgrp y).
    - destruct (hup_cont_quiet b (t_pgrp y) priv s ts ch e) as (s1 & -> & Q1); [apply F..|]. cbn [mbind option_bind].
      eexists. split; [done|]. destruct Q1. by split.
    - cbn [mbind option_bind]. eexists. split; [done|]. destruct (quiet_refl b s). by split. }
  cbn [mbind option_bind]. pose proof (fine_quiet _ _ _ _ _ _ Q1 F) as F1.
  match goal with |- context [for_each_task fuel ?body _ _ _] => destruct (for_each_quiet body s1 ts ch e b F1) as (s2 & -> & Q2) end.
  - intros p s2 Hp Q2. pose proof (fine_quiet _ _ _ _ _ _ Q2 F1) as F2. pose proof (fine_ok _ _ _ _ _ F2) as H2.
    destruct (ok_dom s2 ts ch e p H2) as [t Ht]; [by right|]. destruct (current_some s2 ts ch e H2) as [c2 Hc2].
    rewrite Ht, Hc2. cbn [mbind option_bind]. destruct (_ =? _); [|eauto using quiet_refl].
    destruct (quiet_upd b p (set_tty (-1)) s2 t) as (s3 & -> & Q3 & _); [done|by repeat split|]. cbn [mbind option_bind]. eauto.
  - cbn [mbind option_bind]. exists s2. split; [done|by eapply quiet_trans].
Qed.

(** ** [forget_original_parent] *)

Lemma links_only_some s s' x t' :
  links_only s s' -> store s' !! x = Some t' -> exists t, store s !! x = Some t /\ strip t' = strip t.
Proof.
  intros [F _] Ht'. specialize (F x). rewrite Ht' in F. destruct (store s !! x) as [t|]; [|done]. exists t. split; [done|].
  by apply (inj Some) in F.
Qed.

Lemma links_only_back s s' x t :
  links_only s s' -> store s !! x = Some t -> exists t', store s' !! x = Some t' /\ strip t' = strip t.
Proof.
  intros [F _] Ht. specialize (F x). rewrite Ht in F. destruct (store s' !! x) as [t'|]; [|done]. exists t'. split; [done|].
  by apply (inj Some) in F.
Qed.

(** Quiet but for the links. *)
Definition stripped (s : system) : system := set_store (strip <$> store s) s.
Definition calm (b : list Z) (s s' : system) : Prop := quiet b (stripped s) (stripped s').

Lemma calm_refl b s : calm b s s.
Proof. apply quiet_refl. Qed.

Lemma calm_trans b s1 s2 s3 : calm b s1 s2 -> calm b s2 s3 -> calm b s1 s3.
Proof. apply quiet_trans. Qed.

Lemma calm_links b s s' : links_only s s' -> calm b s s'.
Proof.
  intros F. unfold calm. replace (stripped s') with (stripped s); [apply quiet_refl|]. unfold stripped, set_store.
  pose proof (lo_rest _ _ F) as Hr. unfold rest in Hr. injection Hr as -> -> -> -> -> ->. f_equal. apply map_eq. intros x.
  rewrite !lookup_fmap. symmetry. apply (lo_store _ _ F).
Qed.

Lemma calm_quiet b s s' : quiet b s s' -> calm b s s'.
Proof.
  intros [A1 A2 A3 A4 A5 A6]. split; try done; intros x; cbn [store stripped set_store]; rewrite !lookup_fmap.
  - destruct (store s !! x) as [u|] eqn:Hu; [|done]. intros t [= <-]. destruct (A1 x u Hu) as (u' & -> & K).
    exists (strip u'). split; [done|]. destruct K as (_ & K). split; [done|]. apply K.
  - destruct (store s !! x) as [u|] eqn:Hu; [done|]. intros _. by rewrite (A2 x Hu).
Qed.

Lemma calm_back b s s' x t' :
  calm b s s' -> store s' !! x = Some t' -> exists t, store s !! x = Some t /\ keeps (bool_decide (x ∈ b)) (strip t) (strip t').
Proof.
  intros C Ht'. destruct (store s !! x) as [t|] eqn:Ht.
  - exists t. split; [done|]. destruct (q_some _ _ _ C x (strip t)) as (t2 & E & K); cbn [store stripped set_store] in *;
      rewrite lookup_fmap in *; [by rewrite Ht|]. rewrite Ht' in E. by injection E as <-.
  - pose proof (q_none _ _ _ C x) as E. cbn [store stripped set_store] in E. rewrite !lookup_fmap, Ht, Ht' in E. by specialize (E eq_refl).
Qed.

Lemma calm_some b s s' x t :
  calm b s s' -> store s !! x = Some t -> exists t', store s' !! x = Some t' /\ keeps (bool_decide (x ∈ b)) (strip t) (strip t').
Proof.
  intros C Ht. destruct (q_some _ _ _ C x (strip t)) as (t2 & E & K); cbn [store stripped set_store] in *;
    rewrite lookup_fmap in *; [by rewrite Ht|]. destruct (store s' !! x) as [t'|]; [|done]. exists t'. split; [done|]. by injection E as <-.
Qed.

(** Such a change keeps what [fine] says about the rest. *)
Lemma fine_calm s s' ts ts' ch ch' e e' b :
  calm b s s' -> fine s ts ch e b -> rep s' ts' [] ch' e' ->
  (forall x, x ∈ init_task :: ts' <-> x ∈ init_task :: ts) -> fine s' ts' ch' e' b.
Proof.
  intros C [[O1 O2 O3 O4] B Q] R Hts. split; [split; [done| | |]| |].
  - destruct O2 as [T1 T2 T3 T4]. pose proof (q_tasks _ _ _ C) as E1. cbn in E1. split; rewrite ?E1; try done. intros p Hp. rewrite T3, Hts by done. done.
  - intros x t' Ht'. destruct (calm_back _ _ _ _ _ C Ht') as (t & Ht & K). destruct K as (_ & _ & K & _).
    rewrite <- (O3 x t Ht). exact K.
  - pose proof (q_current _ _ _ C) as E1. cbn in E1. by rewrite E1, Hts.
  - intros x t' Hx Ht'. destruct (calm_back _ _ _ _ _ C Ht') as (t & Ht & K). destruct K as (_ & _ & _ & _ & _ & K).
    rewrite <- (B x t Hx Ht). apply K. by apply bool_decide_eq_true.
  - intros x t' y Ht' Hy. destruct (calm_back _ _ _ _ _ C Ht') as (t & Ht & K). destruct K as (_ & _ & _ & _ & K & _).
    rewrite Hts. apply (Q x t y Ht). change (wait_chldexit (strip t') = wait_chldexit t) in K. rewrite <- K. done.
Qed.

Lemma fine_links s s' ts ts' ch ch' e e' b :
  links_only s s' -> fine s ts ch e b -> rep s' ts' [] ch' e' ->
  (forall x, x ∈ init_task :: ts' <-> x ∈ init_task :: ts) -> fine s' ts' ch' e' b.
Proof. intros F. by apply fine_calm, calm_links. Qed.

(** The original parent plays no role in the representation. *)
Lemma rep_opptr s s' ts o ch e :
  (forall x, exists v, L s' x = setl_p_opptr v (L s x)) -> (forall x, is_Some (store s' !! x) <-> is_Some (store s !! x)) ->
  rep s ts o ch e -> rep s' ts o ch e.
Proof.
  intros HL HS [R1 R2 R3 R4 R5 R6 R7 R8 R9 R10 R11].
  assert (Ln : forall x, l_next_task (L s' x) = l_next_task (L s x)) by (intros x; destruct (HL x) as [v ->]; done).
  assert (Lv : forall x, l_prev_task (L s' x) = l_prev_task (L s x)) by (intros x; destruct (HL x) as [v ->]; done).
  assert (Lc : forall x, l_p_cptr (L s' x) = l_p_cptr (L s x)) by (intros x; destruct (HL x) as [v ->]; done).
  assert (Lp : forall x, l_p_pptr (L s' x) = l_p_pptr (L s x)) by (intros x; destruct (HL x) as [v ->]; done).
  assert (Lo : forall x, l_p_osptr (L s' x) = l_p_osptr (L s x)) by (intros x; destruct (HL x) as [v ->]; done).
  assert (Ly : forall x, l_p_ysptr (L s' x) = l_p_ysptr (L s x)) by (intros x; destruct (HL x) as [v ->]; done).
  split; try setoid_rewrite Ln; try setoid_rewrite Lv; try setoid_rewrite Lc; try setoid_rewrite Lp;
    try setoid_rewrite Lo; try setoid_rewrite Ly; try done.
  - apply eq_None_not_Some. rewrite HS, R2. by intros [? ?].
  - intros x Hx. by apply HS, R3.
Qed.

Definition forget_body (father : Z) (p : Z) (_ : unit) (s : system) : option (system * (unit + unit)) :=
  o ← rd p p_opptr s;
  if o =? father then
    t1 ← get (tasks s) 1; t0 ← get (tasks s) 0;
    s ← upd p (set_p_opptr (if negb (t1 =? 0) then t1 else t0)) s; Some (s, inl tt)
  else Some (s, inl tt).

Lemma forget_step father s0 i1 p s :
  get (tasks s0) 1 = Some i1 -> get (tasks s0) 0 = Some init_task -> is_Some (store s0 !! p) -> links_only s0 s ->
  exists s', forget_body father p tt s = Some (s', inl tt) /\ links_only s0 s' /\
    forall x, L s' x = if (x =? p) && (l_p_opptr (L s x) =? father)
                  then setl_p_opptr (if negb (i1 =? 0) then i1 else init_task) (L s x) else L s x.
Proof.
  intros H1 H0 Hp F. unfold forget_body, p_opptr, set_p_opptr. rewrite (rd_lk' l_p_opptr p s0 s F Hp). cbn [mbind option_bind].
  destruct (Z.eqb_spec (l_p_opptr (L s p)) father) as [E|E].
  - pose proof (lo_rest _ _ F) as Hr. unfold rest in Hr. injection Hr as -> _ _ _ _ _. rewrite H1, H0. cbn [mbind option_bind].
    destruct (upd_lk' (setl_p_opptr (if negb (i1 =? 0) then i1 else init_task)) p s0 s F Hp) as (s1 & -> & F1 & E1).
    cbn [mbind option_bind]. exists s1. split; [done|]. split; [done|]. intros x. rewrite E1.
    destruct (Z.eqb_spec x p) as [-> | Hx]; [|done]. by rewrite E, Z.eqb_refl.
  - exists s. split; [done|]. split; [done|]. intros x. destruct (Z.eqb_spec x p) as [-> | Hx]; [|done].
    apply Z.eqb_neq in E. by rewrite E.
Qed.

Lemma forget_loop father s0 i1 l s :
  get (tasks s0) 1 = Some i1 -> get (tasks s0) 0 = Some init_task -> NoDup l ->
  (forall x, x ∈ l -> is_Some (store s0 !! x)) -> links_only s0 s ->
  exists s', loop (forget_body father) l tt s = Some (s', inl tt) /\ links_only s0 s' /\
    forall x, L s' x = if bool_decide (x ∈ l) && (l_p_opptr (L s x) =? father)
                  then setl_p_opptr (if negb (i1 =? 0) then i1 else init_task) (L s x) else L s x.
Proof.
  intros H1 H0. revert s. induction l as [|p l IH]; intros s Hnd Hdom F; cbn [loop].
  { exists s. split; [done|]. split; [done|]. intros x. rewrite bool_decide_false by apply not_elem_of_nil. done. }
  apply list.NoDup_cons in Hnd as [Hp Hnd].
  destruct (forget_step father s0 i1 p s) as (s1 & -> & F1 & E1); [done|done|apply Hdom; left|done|].
  cbn [mbind option_bind]. destruct (IH s1 Hnd) as (s2 & E2 & F2 & HL); [intros x Hx; apply Hdom; by right|done|].
  exists s2. split; [done|]. split; [done|]. intros x. rewrite HL, E1. destruct (Z.eqb_spec x p) as [-> | Hx].
  - by rewrite (bool_decide_false (p ∈ l)), (bool_decide_true (p ∈ p :: l)) by (done || left).
  - cbn [andb]. replace (bool_decide (x ∈ p :: l)) with (bool_decide (x ∈ l)); [done|]. apply bool_decide_ext. rewrite elem_of_cons. tauto.
Qed.

Lemma forget_spec father s ts ch e b i1 :
  fine s ts ch e b -> get (tasks s) 1 = Some i1 ->
  exists s', forget_original_parent father s = Some s' /\ links_only s s' /\ fine s' ts ch e b /\
    forall x, L s' x = if bool_decide (x ∈ ts) && (l_p_opptr (L s x) =? father)
                  then setl_p_opptr (if negb (i1 =? 0) then i1 else init_task) (L s x) else L s x.
Proof.
  intros F Hi. pose proof (fine_ok _ _ _ _ _ F) as H. destruct (ok_nodup _ _ _ _ H) as (Hnd & _ & _).
  assert (H0 : get (tasks s) 0 = Some init_task) by apply (table_init _ _ (ok_table _ _ _ _ H)).
  assert (Hdom : forall x, x ∈ ts -> is_Some (store s !! x)) by (intros x Hx; eapply ok_dom; [done|by right]).
  unfold forget_original_parent. fold (forget_body father).
  rewrite (for_each_loop (forget_body father) (fun s' => links_only s s' /\ same_next s s') s ts ch e);
    [|apply H|eapply table_bound; apply H|done|tauto|].
  - destruct (forget_loop father s i1 ts s Hi H0 Hnd Hdom (links_only_refl s)) as (s' & -> & F' & HL).
    cbn [mbind option_bind]. exists s'. split; [done|]. split; [done|]. split; [|done].
    eapply fine_links; [done|done| |done]. eapply rep_opptr; [|intros x; by apply links_only_is_Some|apply H].
    intros x. rewrite HL. destruct (_ && _); [|by exists (l_p_opptr (L s x)); destruct (L s x)]. eauto.
  - intros p [] s1 s2 [] Hp [F1 N1] E. destruct (forget_step father s i1 p s1 Hi H0) as (s3 & E3 & F3 & E4); [auto|done|].
    rewrite E3 in E. injection E as <-. split; [done|]. intros x. rewrite <- N1. unfold next_task, rd.
    specialize (E4 x). unfold L in E4. pose proof (links_only_is_Some _ _ x F1) as [A1 A2]. pose proof (links_only_is_Some _ _ x F3) as [B1 B2].
    destruct (store s3 !! x) as [t3|], (store s1 !! x) as [t1|]; simpl in *; [|naive_solver..].
    rewrite E4. by destruct (_ && _).
Qed.

(** ** Giving a child of a dying process to another parent *)

(** A write to a field that is no link. *)
Lemma upd_calm b p f s t :
  store s !! p = Some t -> lk (f t) = lk t -> keeps (bool_decide (p ∈ b)) t (f t) ->
  exists s', upd p f s = Some s' /\ calm b s s' /\ (forall x, L s' x = L s x) /\
    (forall x, is_Some (store s' !! x) <-> is_Some (store s !! x)).
Proof.
  intros Ht El K. destruct (quiet_upd b p f s t Ht K) as (s' & E & Q & _). exists s'. split; [done|].
  split; [by apply calm_quiet|]. split; intros x; [by eapply quiet_L|by eapply quiet_is_Some].
Qed.

Definition new_parent (i1 cur : Z) : Z := if negb (i1 =? 0) && negb (i1 =? cur) then i1 else init_task.

Lemma reparent_fields b p s i1 :
  let c := current s in let np := new_parent i1 c in let nc := l_p_cptr (L s np) in let os := l_p_osptr (L s p) in
  get (tasks s) 1 = Some i1 -> get (tasks s) 0 = Some init_task ->
  is_Some (store s !! p) -> is_Some (store s !! c) -> is_Some (store s !! np) -> is_Some (store s !! nc) ->
  p <> c -> np <> c -> np <> p -> nc <> p ->
  exists s', reparent p s = Some s' /\ calm b s s' /\ (forall x, is_Some (store s' !! x) <-> is_Some (store s !! x)) /\
    forall x, l_next_task (L s' x) = l_next_task (L s x) /\ l_prev_task (L s' x) = l_prev_task (L s x) /\
      l_p_opptr (L s' x) = l_p_opptr (L s x) /\
      l_p_cptr (L s' x) = (if x =? np then p else if x =? c then os else l_p_cptr (L s x)) /\
      l_p_ysptr (L s' x) = (if x =? nc then p else if x =? p then 0 else l_p_ysptr (L s x)) /\
      l_p_osptr (L s' x) = (if x =? p then nc else l_p_osptr (L s x)) /\
      l_p_pptr (L s' x) = (if x =? p then np else l_p_pptr (L s x)).
Proof.
  intros c np nc os H1 H0 Dp Dc Dnp Dnc N1 N2 N3 N4. unfold reparent.
  unfold p_osptr, p_pptr, p_cptr, set_p_osptr, set_p_pptr, set_p_cptr, set_p_ysptr.
  pose proof (links_only_refl s) as F. rewrite (rd_lk' _ p _ _ F Dp). cbn [mbind option_bind]. fold os c. link_write F. link_write F.
  destruct Dp as [t0 Ht0]. destruct (links_only_back s s1 p t0 F Ht0) as (t & Ht & _).
  destruct (upd_calm b p (on_sched (fun k => set_flags (Z.land (flags k) (Z.lnot (Z.lor PF_PTRACED PF_TRACESYS))) k)) s1 t Ht)
    as (s2 & -> & C2 & L2 & D2); [done|by repeat split|]. cbn [mbind option_bind].
  assert (D : forall x, is_Some (store s2 !! x) <-> is_Some (store s !! x)) by (intros x; rewrite D2; by apply links_only_is_Some).
  pose proof (lo_rest _ _ F) as Hr. unfold rest in Hr. injection Hr as R1 R2 _ _ _ _.
  pose proof (q_tasks _ _ _ C2) as T2. pose proof (q_current _ _ _ C2) as Cu2. cbn in T2, Cu2.
  rewrite T2, R1, H1, H0, Cu2, R2. cbn [mbind option_bind]. fold c. fold (new_parent i1 c). fold np.
  assert (L2' : forall x, L s2 x = if x =? p then setl_p_ysptr 0 (L s x) else if x =? c then setl_p_cptr os (L s x) else L s x).
  { intros x. rewrite L2, E0, E. destruct (Z.eqb_spec x p) as [-> |]; [|done]. by destruct (Z.eqb_spec p c). }
  clear E E0 L2. assert (Dp2 : is_Some (store s2 !! p)) by (apply D; eauto).
  assert (Enp : (np =? p) = false /\ (np =? c) = false) by (split; by apply Z.eqb_neq). destruct Enp as [Enp Enc].
  pose proof (links_only_refl s2) as F2. link_write F2.
  rewrite (rd_lk' _ p _ _ F2 Dp2), E, Z.eqb_refl. cbn [mbind option_bind l_p_pptr setl_p_pptr].
  rewrite (rd_lk' _ np _ _ F2) by (by apply D). rewrite E, Enp, L2', Enp, Enc. cbn [mbind option_bind]. fold nc. link_write F2.
  rewrite (rd_lk' _ p _ _ F2 Dp2), E0, Z.eqb_refl. cbn [mbind option_bind l_p_osptr setl_p_osptr].
  link_write F2; [by apply D|]. rewrite (rd_lk' _ p _ _ F2 Dp2), E1.
  assert (Epn : (p =? nc) = false) by (apply Z.eqb_neq; congruence). rewrite Epn, E0, Z.eqb_refl, E, Z.eqb_refl.
  cbn [mbind option_bind l_p_pptr setl_p_pptr setl_p_osptr]. link_write F2; [by apply D|].
  exists s6. split; [done|]. split; [eapply calm_trans; [by apply calm_links|eapply calm_trans; [done|by apply calm_links]]|].
  split; [intros x; rewrite (links_only_is_Some _ _ x F2); apply D|]. intros x. rewrite E2, E1, E0, E, L2'.
  clear - Enp Enc Epn N1. destruct (Z.eqb_spec x p) as [-> |].
  - rewrite (Z.eqb_sym p np), Enp, Epn. apply Z.eqb_neq in N1. by rewrite N1.
  - by destruct (x =? np), (x =? nc), (x =? c).
Qed.

Lemma rep_weaken s ts o ch e : rep s ts o ch 0 -> rep s ts o ch e.
Proof.
  intros H. destruct H as [R1 R2 R3 R4 R5 R6 R7 R8 R9 R10 R11]. split; try done. intros y Hy _. apply R11; [done|].
  intros ->. apply list.NoDup_cons in R1 as [R1 _]. apply R1. right. apply elem_of_app. by left.
Qed.

Lemma fine_weaken s ts ch e b : fine s ts ch 0 b -> fine s ts ch e b.
Proof. intros [[O1 O2 O3 O4] B Q]. split; [split|..]; try done. by apply rep_weaken. Qed.

(** The children after [p], the youngest child of [c], became one of [np]. *)
Definition moved (p c np : Z) (ch : Z -> list Z) (x : Z) : list Z :=
  if x =? np then p :: ch x else if x =? c then drop 1 (ch x) else ch x.

Lemma reparent_rep b p l s ts ch i1 :
  let c := current s in let np := new_parent i1 c in
  rep s ts [] ch p -> ch c = p :: l -> get (tasks s) 1 = Some i1 -> get (tasks s) 0 = Some init_task ->
  c ∈ init_task :: ts -> np ∈ init_task :: ts -> np <> c -> np <> p -> ch np <> [] ->
  exists s', reparent p s = Some s' /\ calm b s s' /\ rep s' ts [] (moved p c np ch) (head0 l) /\
    forall x, l_p_opptr (L s' x) = l_p_opptr (L s x) /\ l_p_pptr (L s' x) = (if x =? p then np else l_p_pptr (L s x)).
Proof.
  intros c np H Hc H1 H0 Dc Dnp N2 N3 Hne.
  assert (Hdom : forall x, x ∈ init_task :: ts -> is_Some (store s !! x)) by (intros x Hx; apply (rep_dom _ _ _ _ _ H); by rewrite app_nil_r).
  assert (Hpc : p ∈ ch c) by (rewrite Hc; left). destruct (rep_ch _ _ _ _ _ H c p Hpc) as (Hp & _ & Epp & Ncp).
  assert (Enc : l_p_cptr (L s np) = head0 (ch np)) by (apply (rep_cptr _ _ _ _ _ H); by rewrite app_nil_r).
  set (nc := head0 (ch np)) in *. assert (Hnc : nc ∈ ch np) by (unfold nc; destruct (ch np); [done|left]).
  destruct (rep_ch _ _ _ _ _ H np nc Hnc) as (Dnc & _ & Epn & _).
  assert (Nnc : nc <> p) by congruence. assert (Hpnp : p ∉ ch np) by (intros Hx; destruct (rep_ch _ _ _ _ _ H _ _ Hx) as (_ & _ & ? & _); congruence).
  pose proof (reparent_fields b p s i1) as RF. cbv zeta in RF. fold c np in RF. rewrite Enc in RF.
  destruct RF as (s' & E & C & D & HL);
    [done|done|apply Hdom; by right|by apply Hdom|by apply Hdom|apply Hdom; by right|congruence|done|done|done|].
  exists s'. split; [done|]. split; [done|].
  split; [|intros x; destruct (HL x) as (_ & _ & ? & _ & _ & _ & ?); done].
  pose proof (rep_ch_nodup _ _ _ _ _ H c) as Hndc. rewrite Hc in Hndc. apply list.NoDup_cons in Hndc as [Hpl Hndl].
  assert (Hm : forall x y, y ∈ moved p c np ch x <-> (y = p /\ x = np) \/ (y ∈ ch x /\ y <> p)).
  { intros x y. unfold moved. destruct (Z.eqb_spec x np) as [-> | Hx]; [rewrite elem_of_cons; split; [|tauto]; intros [|Hy]; [tauto|right; split; [done|by intros ->]]|].
    destruct (Z.eqb_spec x c) as [-> | Hxc]; [rewrite Hc, elem_of_cons; cbn [drop]; split; [intros Hy; right; split; [tauto|by intros ->]|tauto]|].
    split; [|tauto]. intros Hy. right. split; [done|]. intros ->. destruct (rep_ch _ _ _ _ _ H _ _ Hy) as (_ & _ & ? & _). congruence. }
  assert (Eos : l_p_osptr (L s p) = head0 l).
  { rewrite (rep_os _ _ _ _ _ H p Hp), Epp, Hc. cbn [next_in]. rewrite Z.eqb_refl. symmetry. apply head0_head. }
  rewrite Eos in HL. split.
  - apply (rep_nodup _ _ _ _ _ H).
  - apply eq_None_not_Some. rewrite D, (rep_null _ _ _ _ _ H). by intros [? ?].
  - intros x Hx. apply D. by apply (rep_dom _ _ _ _ _ H).
  - intros x Hx. destruct (HL x) as (-> & _). by apply (rep_next _ _ _ _ _ H).
  - intros x Hx. destruct (HL x) as (_ & -> & _). by apply (rep_prev _ _ _ _ _ H).
  - intros x Hx. destruct (HL x) as (_ & _ & _ & -> & _). unfold moved. destruct (x =? np); [done|].
    destruct (Z.eqb_spec x c) as [-> |]; [by rewrite Hc|]. by apply (rep_cptr _ _ _ _ _ H).
  - intros x. unfold moved. destruct (Z.eqb_spec x np) as [-> |]; [apply list.NoDup_cons; split; [done|]; apply (rep_ch_nodup _ _ _ _ _ H)|].
    destruct (Z.eqb_spec x c) as [-> |]; [by rewrite Hc|]. apply (rep_ch_nodup _ _ _ _ _ H).
  - intros x y Hy%Hm. destruct (HL y) as (_ & _ & _ & _ & _ & _ & ->). destruct Hy as [[-> ->] | [Hy Hyp]].
    + rewrite Z.eqb_refl, app_nil_r. repeat split; done.
    + apply Z.eqb_neq in Hyp. rewrite Hyp. by apply (rep_ch _ _ _ _ _ H).
  - intros y Hy. apply Hm. destruct (HL y) as (_ & _ & _ & _ & _ & _ & ->). destruct (Z.eqb_spec y p) as [-> |]; [by left|right].
    split; [|done]. by apply (rep_parent _ _ _ _ _ H).
  - intros y Hy. destruct (HL y) as (_ & _ & _ & _ & _ & -> & ->). destruct (Z.eqb_spec y p) as [-> | Hyp].
    + unfold moved. rewrite Z.eqb_refl. cbn [next_in]. by rewrite Z.eqb_refl, <- head0_head.
    + rewrite (rep_os _ _ _ _ _ H y Hy). unfold moved. destruct (l_p_pptr (L s y) =? np).
      { cbn [next_in]. by destruct (Z.eqb_spec p y). }
      destruct (Z.eqb_spec (l_p_pptr (L s y)) c) as [-> |]; [|done]. rewrite Hc. cbn [next_in drop]. by destruct (Z.eqb_spec p y).
  - intros y Hy Hyl. destruct (HL y) as (_ & _ & _ & _ & -> & _ & ->). pose proof (rep_parent _ _ _ _ _ H y Hy) as Hyc.
    destruct (Z.eqb_spec y p) as [-> | Hyp].
    { unfold moved. rewrite Z.eqb_refl. cbn [prev_in]. rewrite Z.eqb_refl. by destruct (Z.eqb_spec p nc). }
    rewrite (rep_ys _ _ _ _ _ H y Hy Hyp). unfold moved. destruct (Z.eqb_spec (l_p_pptr (L s y)) np) as [Ey|Ny].
    { rewrite Ey in *. by rewrite prev_in_cons. }
    destruct (Z.eqb_spec y nc) as [-> |]; [done|]. destruct (Z.eqb_spec (l_p_pptr (L s y)) c) as [Ey|]; [|done].
    rewrite Ey, Hc in *. cbn [drop]. apply elem_of_cons in Hyc as [|Hyc]; [done|]. rewrite prev_in_cons by done.
    by destruct (Z.eqb_spec y (head0 l)).
Qed.

Lemma quiet_calm_fine b s s' ts ch e : quiet b s s' -> fine s ts ch e b -> calm b s s' /\ fine s' ts ch e b /\ forall x, L s' x = L s x.
Proof. intros Q F. split; [by apply calm_quiet|]. split; [by eapply fine_quiet|]. intros x. by eapply quiet_L. Qed.

(** One round of the loop of [do_exit]. *)
Lemma exit_child_spec b p l s ts ch i1 :
  let c := current s in let np := new_parent i1 c in
  fine s ts ch p b -> ch c = p :: l -> get (tasks s) 1 = Some i1 ->
  np ∈ init_task :: ts -> np <> c -> np <> p -> ch np <> [] ->
  exists s', exit_child p s = Some s' /\ calm b s s' /\ fine s' ts (moved p c np ch) (head0 l) b /\
    forall x, l_p_opptr (L s' x) = l_p_opptr (L s x) /\ l_p_pptr (L s' x) = (if x =? p then np else l_p_pptr (L s x)).
Proof.
  intros c np F Hc H1 Dnp N2 N3 Hne. pose proof (fine_ok _ _ _ _ _ F) as H.
  assert (H0 : get (tasks s) 0 = Some init_task) by apply (table_init _ _ (ok_table _ _ _ _ H)).
  assert (Hp : p ∈ ts) by (apply (rep_ch _ _ _ _ _ (ok_rep _ _ _ _ H) c); rewrite Hc; left).
  pose proof (reparent_rep b p l s ts ch i1) as RR. cbv zeta in RR. fold c np in RR.
  destruct (RR (ok_rep _ _ _ _ H) Hc H1 H0 (ok_current _ _ _ _ H) Dnp N2 N3 Hne) as (s1 & E1 & C1 & R1 & HL1). assert (F1 : fine s1 ts (moved p c np ch) (head0 l) b) by (eapply fine_calm; done).
  unfold exit_child, rd. rewrite E1. cbn [mbind option_bind].
  destruct (ok_dom _ _ _ _ p (fine_ok _ _ _ _ _ F1)) as [t1 Ht1]; [by right|]. rewrite Ht1. cbn [fmap option_fmap option_map mbind option_bind].
  assert (exists s2, (if state (sched t1) =? TASK_ZOMBIE then notify_parent p s1 else Some s1) = Some s2 /\ quiet b s1 s2) as (s2 & -> & Q2).
  { destruct (_ =? _); [|eauto using quiet_refl]. by eapply notify_quiet. }
  destruct (quiet_calm_fine _ _ _ _ _ _ Q2 F1) as (C2 & F2 & L2). cbn [mbind option_bind].
  destruct (ok_dom _ _ _ _ p (fine_ok _ _ _ _ _ F2)) as [t2 Ht2]; [by right|].
  destruct (current_some _ _ _ _ (fine_ok _ _ _ _ _ F2)) as [c2 Hc2]. rewrite Ht2, Hc2. cbn [mbind option_bind].
  match goal with |- context [orphan_check ?cond ?pg s2] => destruct (orphan_quiet cond pg s2 _ _ _ _ F2) as (s3 & -> & Q3) end.
  destruct (quiet_calm_fine _ _ _ _ _ _ Q3 F2) as (C3 & F3 & L3).
  exists s3. split; [done|]. split; [eauto using calm_trans|]. split; [done|]. intros x. by rewrite L3, L2.
Qed.

Lemma current_child s ts ch e : ok s ts ch e -> rd (current s) p_cptr s = Some (head0 (ch (current s))).
Proof.
  intros H. unfold p_cptr. rewrite (rd_lk l_p_cptr) by exact (ok_dom _ _ _ _ _ H (ok_current _ _ _ _ H)).
  rewrite (rep_cptr _ _ _ _ _ (ok_rep _ _ _ _ H)); [done|]. rewrite app_nil_r. apply (ok_current _ _ _ _ H).
Qed.

(** The loop gives all children to [np]. *)
Lemma exit_loop_spec b l n s ts ch i1 :
  let c := current s in let np := new_parent i1 c in
  (length l < n)%nat -> fine s ts ch (head0 l) b -> ch c = l -> get (tasks s) 1 = Some i1 ->
  np ∈ init_task :: ts -> np <> c -> np ∉ l -> ch np <> [] ->
  exists s' ch', exit_loop n s = Some s' /\ calm b s s' /\ fine s' ts ch' 0 b /\ ch' c = [] /\
    (forall x, x <> c -> x <> np -> ch' x = ch x) /\ (forall y, y ∈ ch' np <-> y ∈ ch np \/ y ∈ l) /\
    forall x, l_p_opptr (L s' x) = l_p_opptr (L s x) /\
      l_p_pptr (L s' x) = (if bool_decide (x ∈ l) then np else l_p_pptr (L s x)).
Proof.
  intros c np. revert n s ts ch c np. induction l as [|p l IH]; intros n s ts ch c np Hn F Hc H1 Dnp N2 N3 Hne;
    (destruct n as [|n]; [simpl in Hn; lia|]); cbn [exit_loop]; pose proof (fine_ok _ _ _ _ _ F) as H;
    rewrite (current_child _ _ _ _ H); fold c; rewrite Hc; cbn [mbind option_bind head0].
  { exists s, ch. split; [done|]. split; [apply calm_refl|]. split; [done|]. split; [done|]. split; [done|].
    split; [intros y; rewrite elem_of_nil; tauto|]. intros x. by rewrite bool_decide_false by apply not_elem_of_nil. }
  assert (Hp : p ∈ ch c) by (rewrite Hc; left). pose proof (rep_ch_zero _ _ _ _ _ c (ok_rep _ _ _ _ H)) as Hz.
  destruct (Z.eqb_spec p 0) as [-> | Hp0]; [done|]. apply not_elem_of_cons in N3 as [N3 N4].
  pose proof (rep_ch_nodup _ _ _ _ _ (ok_rep _ _ _ _ H) c) as Hnd. rewrite Hc in Hnd. apply list.NoDup_cons in Hnd as [Hpl Hnd].
  pose proof (exit_child_spec b p l s ts ch i1) as EC. cbv zeta in EC. fold c np in EC.
  destruct EC as (s1 & -> & C1 & F1 & HL1); try done. cbn [mbind option_bind].
  pose proof (q_current _ _ _ C1) as Ecu. cbn in Ecu. pose proof (q_tasks _ _ _ C1) as Eta. cbn in Eta.
  assert (Mc : moved p c np ch c = l) by (unfold moved; rewrite Z.eqb_refl; destruct (Z.eqb_spec c np); [congruence|by rewrite Hc]).
  assert (Mnp : moved p c np ch np = p :: ch np) by (unfold moved; by rewrite Z.eqb_refl).
  destruct (IH n s1 ts (moved p c np ch)) as (s2 & ch2 & E2 & C2 & F2 & A1 & A2 & A3 & A4); rewrite ?Ecu, ?Eta; fold c; fold np; try done;
    [simpl in Hn; lia|by rewrite Mnp|].
  rewrite Ecu in *. fold c in A1, A2, A3, A4. fold np in A2, A3, A4.
  exists s2, ch2. split; [done|]. split; [by eapply calm_trans|]. split; [done|]. split; [done|]. split; [|split].
  - intros x Hx Hxn. rewrite A2 by done. unfold moved. destruct (Z.eqb_spec x np), (Z.eqb_spec x c); done.
  - intros y. rewrite A3, Mnp, !elem_of_cons. tauto.
  - intros x. destruct (A4 x) as [-> ->]. destruct (HL1 x) as [-> ->]. split; [done|].
    destruct (bool_decide (x ∈ l)) eqn:Ex; [apply bool_decide_eq_true in Ex|apply bool_decide_eq_false in Ex].
    + rewrite bool_decide_true; [done|by right].
    + destruct (Z.eqb_spec x p) as [-> |]; [rewrite bool_decide_true; [done|left]|].
      rewrite bool_decide_false; [done|]. rewrite elem_of_cons. tauto.
Qed.

(** A quiet change but for the state of the process that dies. *)
Lemma zombie_fine b s ts ch e t code :
  fine s ts ch e b -> current s ∉ b -> store s !! current s = Some t ->
  exists s1, upd (current s) (on_sched (fun k => set_exit_code (Sched.set_state k TASK_ZOMBIE) code)) s = Some s1 /\
    s1 = set_store (<[current s := on_sched (fun k => set_exit_code (Sched.set_state k TASK_ZOMBIE) code) t]> (store s)) s /\
    fine s1 ts ch e b /\ forall x, L s1 x = L s x.
Proof.
  intros F Hb Ht. pose proof (fine_ok _ _ _ _ _ F) as H. unfold upd. rewrite Ht. eexists. split; [done|]. split; [done|].
  set (s1 := set_store _ s). assert (HL : forall x, L s1 x = L s x).
  { intros x. unfold s1. rewrite L_insert. destruct (Z.eqb_spec x (current s)) as [-> |]; [|done]. unfold L. by rewrite Ht. }
  assert (HS : forall x, is_Some (store s1 !! x) <-> is_Some (store s !! x)).
  { intros x. unfold s1. cbn [store set_store]. destruct (decide (x = current s)) as [-> |]; [|by rewrite lookup_insert_ne].
    rewrite lookup_insert_eq, Ht. split; eauto. }
  split; [|done]. destruct F as [[O1 O2 O3 O4] B Q]. split; [split; [by eapply rep_ext|by apply (table_ext s)| |done]| |]; intros x u;
    unfold s1; cbn [store set_store]; (destruct (decide (x = current s)) as [-> |]; [rewrite lookup_insert_eq|rewrite lookup_insert_ne by done]).
  - intros [= <-]. exact (O3 _ t Ht).
  - apply O3.
  - done.
  - apply B.
  - intros y [= <-]. exact (Q _ t y Ht).
  - intros y. apply Q.
Qed.

(** [do_exit] after the process is dead. *)
Lemma exit_end_spec b code s ts ch i1 t :
  let c := current s in let np := new_parent i1 c in
  fine s ts ch 0 b -> c ∈ ts -> c ∉ b -> store s !! c = Some t -> get (tasks s) 1 = Some i1 ->
  np ∈ init_task :: ts -> np <> c -> np ∉ ch c -> ch np <> [] ->
  exists s' ch', exit_end code s = Some s' /\
    calm b (set_store (<[c := on_sched (fun k => set_exit_code (Sched.set_state k TASK_ZOMBIE) code) t]> (store s)) s) s' /\
    fine s' ts ch' 0 b /\ ch' c = [] /\
    (forall x, x <> c -> x <> np -> ch' x = ch x) /\ (forall y, y ∈ ch' np <-> y ∈ ch np \/ y ∈ ch c) /\
    forall x, l_p_opptr (L s' x) = l_p_opptr (L s x) /\
      l_p_pptr (L s' x) = (if bool_decide (x ∈ ch c) then np else l_p_pptr (L s x)).
Proof.
  intros c np F Hc Hb Ht H1 Dnp N2 N3 Hne. unfold exit_end. fold c.
  destruct (zombie_fine b s ts ch 0 t code F Hb Ht) as (s1 & E1 & Es1 & F1 & L1). fold c in E1, Es1. rewrite E1. cbn [mbind option_bind].
  rewrite <- Es1. assert (Ecu1 : current s1 = c) by (by rewrite Es1). assert (Eta1 : tasks s1 = tasks s) by (by rewrite Es1).
  rewrite Ecu1. destruct (ok_dom _ _ _ _ c (fine_ok _ _ _ _ _ F1)) as [t1 Ht1]; [by right|]. rewrite Ht1. cbn [mbind option_bind].
  destruct (ok_dom _ _ _ _ (p_pptr t1) (fine_ok _ _ _ _ _ F1)) as [pp Hpp].
  { pose proof (rep_parent_in _ _ _ _ _ c (ok_rep _ _ _ _ (fine_ok _ _ _ _ _ F1)) Hc) as Hin. rewrite app_nil_r in Hin. unfold L in Hin. by rewrite Ht1 in Hin. }
  rewrite Hpp. cbn [mbind option_bind].
  match goal with |- context [orphan_check ?cond ?pg s1] => destruct (orphan_quiet cond pg s1 _ _ _ _ F1) as (s2 & -> & Q2) end.
  cbn [mbind option_bind]. destruct (quiet_calm_fine _ _ _ _ _ _ Q2 F1) as (C2 & F2 & L2). rewrite (q_current _ _ _ Q2), Ecu1.
  destruct (notify_quiet c s2 ts ch 0 b F2 Hc) as (s3 & -> & Q3). cbn [mbind option_bind].
  destruct (quiet_calm_fine _ _ _ _ _ _ Q3 F2) as (C3 & F3 & L3).
  assert (Ecu3 : current s3 = c) by (by rewrite (q_current _ _ _ Q3), (q_current _ _ _ Q2)).
  assert (Eta3 : tasks s3 = tasks s) by (by rewrite (q_tasks _ _ _ Q3), (q_tasks _ _ _ Q2)).
  pose proof (exit_loop_spec b (ch c) fuel s3 ts ch i1) as EL. cbv zeta in EL. rewrite Ecu3, Eta3 in EL. fold np in EL.
  destruct EL as (s4 & ch' & -> & C4 & F4 & A1 & A2 & A3 & A4); [|apply fine_weaken; done|done|done|done|done|done|done|].
  { eapply Nat.le_lt_trans; [|eapply table_bound; apply (fine_ok _ _ _ _ _ F)]. apply submseteq_length, NoDup_submseteq.
    - apply (rep_ch_nodup _ _ _ _ _ (ok_rep _ _ _ _ (fine_ok _ _ _ _ _ F))).
    - intros y Hy. by apply (rep_ch _ _ _ _ _ (ok_rep _ _ _ _ (fine_ok _ _ _ _ _ F)) c). }
  cbn [mbind option_bind]. destruct (current_some _ _ _ _ (fine_ok _ _ _ _ _ F4)) as [c4 Hc4]. unfold rd. rewrite Hc4.
  cbn [fmap option_fmap option_map mbind option_bind].
  assert (exists s5, (if negb (leader c4 =? 0) then disassociate_ctty true s4 else Some s4) = Some s5 /\ quiet b s4 s5) as (s5 & -> & Q5).
  { destruct (negb _); [by eapply ctty_quiet|eauto using quiet_refl]. }
  destruct (quiet_calm_fine _ _ _ _ _ _ Q5 F4) as (C5 & F5 & L5).
  exists s5, ch'. split; [done|]. split; [eauto using calm_trans|]. split; [done|]. split; [done|]. split; [done|]. split; [done|].
  intros x. rewrite L5. destruct (A4 x) as [-> ->]. by rewrite L3, L2, L1.
Qed.

(** ** Another parent, and removal *)

Lemma rep_set_pptr p q s ts ch e :
  rep s ts [p] ch e ->
  exists s', upd p (set_p_pptr q) s = Some s' /\ links_only s s' /\ rep s' ts [p] ch e /\
    forall x, L s' x = if x =? p then setl_p_pptr q (L s x) else L s x.
Proof.
  intros H. destruct (rep_out _ _ _ _ _ H) as (Hp0 & Hp & Hnd & Hin & Hpin).
  destruct (upd_lk (setl_p_pptr q) p s) as (s' & E & F & HL); [by apply (rep_dom _ _ _ _ _ H)|].
  exists s'. split; [done|]. split; [done|]. split; [|done].
  assert (Hne : forall y, y ∈ ts -> L s' y = L s y).
  { intros y Hy. rewrite HL. destruct (Z.eqb_spec y p) as [-> |]; [|done]. exfalso. apply Hp. by right. }
  assert (Hring : forall y, y ∈ init_task :: ts -> L s' y = L s y).
  { intros y Hy. rewrite HL. destruct (Z.eqb_spec y p) as [-> |]; done. }
  destruct (links_only_dom s s' (init_task :: ts ++ [p]) F (rep_dom _ _ _ _ _ H) (rep_null _ _ _ _ _ H)) as [D N].
  destruct H as [R1 R2 R3 R4 R5 R6 R7 R8 R9 R10 R11]. split; try done.
  - intros x Hx. rewrite Hring by done. auto.
  - intros x Hx. rewrite Hring by done. auto.
  - intros x Hx. rewrite <- R6 by done. rewrite HL. by destruct (x =? p).
  - intros x y Hy. destruct (R8 x y Hy) as (A & B & C). rewrite Hne by done. done.
  - intros y Hy. rewrite Hne by done. auto.
  - intros y Hy. rewrite Hne by done. auto.
  - intros y Hy Hye. rewrite Hne by done. auto.
Qed.

Lemma ring_move p ts x : p ∈ ts -> x ∈ init_task :: without p ts ++ [p] <-> x ∈ init_task :: ts.
Proof.
  intros Hp. rewrite !elem_of_cons, elem_of_app, elem_of_without, list_elem_of_singleton.
  destruct (decide (x = p)) as [-> |]; tauto.
Qed.

(** [p] becomes the youngest child of [q] and the last task. *)
Lemma relink_spec b p q s ts ch :
  fine s ts ch 0 b -> p ∈ ts -> q ∈ init_task :: ts -> q <> p ->
  exists s' ch', relink p q s = Some s' /\ links_only s s' /\ fine s' (without p ts ++ [p]) ch' 0 b /\
    (forall x y, y ∈ ch' x <-> (y <> p /\ y ∈ ch x) \/ (y = p /\ x = q)) /\
    forall x, l_p_opptr (L s' x) = l_p_opptr (L s x) /\ l_p_pptr (L s' x) = (if x =? p then q else l_p_pptr (L s x)).
Proof.
  intros F Hp Hq Hqp. pose proof (ok_rep _ _ _ _ (fine_ok _ _ _ _ _ F)) as R. unfold relink.
  destruct (REMOVE_LINKS_rep p s ts ch R Hp) as (s1 & -> & F1 & P1 & R1). cbn [mbind option_bind].
  destruct (rep_set_pptr p q s1 _ _ _ R1) as (s2 & -> & F2 & R2 & L2). cbn [mbind option_bind].
  assert (Epp : l_p_pptr (L s2 p) = q) by (by rewrite L2, Z.eqb_refl).
  assert (Hq' : q ∈ init_task :: without p ts).
  { apply elem_of_cons in Hq as [-> | Hq]; [left|right]. by apply elem_of_without. }
  destruct (SET_LINKS_rep p s2 _ _ R2) as (s3 & E3 & F3 & P3 & R3); [by rewrite Epp|].
  eexists s3, _. split; [done|]. assert (F' : links_only s s3) by eauto using links_only_trans. split; [done|].
  split; [eapply fine_links; [done|done|exact R3|intros x; by apply ring_move]|]. rewrite Epp. split.
  - intros x y. cbv beta. set (pp := l_p_pptr (L s p)).
    assert (Hp' : p ∈ ch x -> x = pp) by (intros Hx; symmetry; by apply (rep_ch _ _ _ _ _ R x p)).
    destruct (Z.eqb_spec x q) as [-> | Hxq]; rewrite ?elem_of_cons.
    + destruct (Z.eqb_spec q pp) as [Eq|]; [rewrite elem_of_without|]; destruct (decide (y = p)) as [-> |]; naive_solver.
    + destruct (Z.eqb_spec x pp) as [Eq|]; [rewrite elem_of_without|]; destruct (decide (y = p)) as [-> |]; naive_solver.
  - intros x. destruct (P3 x) as [-> ->]. rewrite L2. destruct (P1 x) as [E1 E2].
    destruct (Z.eqb_spec x p) as [-> |]; [split; [exact E2|done]|done].
Qed.

(** A task that is gone. *)
Lemma rep_drop p s s' ts ch e :
  rep s ts [p] ch e -> ch p = [] -> p ∉ init_task :: ts ->
  store s' = delete p (store s) -> rep s' ts [] ch e.
Proof.
  intros R Hch Hp Hs. assert (HL : forall x, x <> p -> L s' x = L s x) by (intros x Hx; unfold L; by rewrite Hs, lookup_delete_ne).
  assert (Hne : forall x, x ∈ init_task :: ts -> x <> p) by (by intros x Hx ->).
  assert (Hin : forall x, x ∈ init_task :: ts -> x ∈ init_task :: ts ++ [p]).
  { intros x Hx. rewrite app_comm_cons, elem_of_app. by left. }
  destruct R as [R1 R2 R3 R4 R5 R6 R7 R8 R9 R10 R11]. split; rewrite ?app_nil_r.
  - rewrite app_comm_cons, app_comm_cons in R1. by apply NoDup_app_l in R1.
  - rewrite Hs. rewrite lookup_delete_None. by right.
  - intros x Hx. rewrite Hs, lookup_delete_ne by (apply not_eq_sym; auto). auto.
  - intros x Hx. rewrite HL by auto. auto.
  - intros x Hx. rewrite HL by auto. auto.
  - intros x Hx. rewrite HL by auto. auto.
  - done.
  - intros x y Hy. destruct (R8 x y Hy) as (A & B & C & D). rewrite HL by (apply Hne; by right). split; [done|]. split; [|done].
    rewrite app_comm_cons in B. apply elem_of_app in B as [ | ->%list_elem_of_singleton]; [done|]. rewrite Hch in Hy. by apply elem_of_nil in Hy.
  - intros y Hy. rewrite HL by (apply Hne; by right). auto.
  - intros y Hy. rewrite HL by (apply Hne; by right). auto.
  - intros y Hy Hye. rewrite HL by (apply Hne; by right). auto.
Qed.

Definition removed (p pp : Z) (ch : Z -> list Z) (x : Z) : list Z := if x =? pp then without p (ch x) else ch x.

Lemma removed_elem p pp ch x y s ts o e :
  rep s ts o ch e -> pp = l_p_pptr (L s p) -> y ∈ removed p pp ch x <-> y <> p /\ y ∈ ch x.
Proof.
  intros R ->. unfold removed. destruct (Z.eqb_spec x (l_p_pptr (L s p))) as [-> | Hx]; [apply elem_of_without|].
  split; [|tauto]. intros Hy. split; [|done]. intros ->. by destruct (rep_ch _ _ _ _ _ R x p Hy) as (_ & _ & ? & _).
Qed.

Lemma table_remove s s' ts p i :
  table s ts -> p ∈ ts -> init_task ∉ ts -> tasks s !! i = Some p -> tasks s' = <[i := 0]> (tasks s) -> table s' (without p ts).
Proof.
  intros [T1 T2 T3 T4] Hp Hinit Hi E. assert (p <> init_task) by (by intros ->).
  assert (Hi0 : i <> 0%nat) by (intros ->; congruence).
  assert (Hlt : (i < length (tasks s))%nat) by (by eapply lookup_lt_Some).
  assert (Hz : forall j q, q <> 0 -> tasks s' !! j = Some q -> j <> i /\ tasks s !! j = Some q).
  { intros j q Hq. rewrite E. destruct (decide (j = i)) as [-> |]; [rewrite list_lookup_insert_eq by done; congruence|].
    by rewrite list_lookup_insert_ne. }
  split; rewrite ?E.
  - by rewrite length_insert.
  - by rewrite list_lookup_insert_ne.
  - intros q Hq. split.
    + intros [j Hj]%list_elem_of_lookup. rewrite <- E in Hj. apply (Hz j q Hq) in Hj as [Hji Hj].
      assert (Hin : q ∈ init_task :: ts) by (apply T3; [done|by eapply list_elem_of_lookup_2]).
      assert (q <> p) by (intros ->; apply Hji; by eapply T4).
      apply elem_of_cons in Hin as [-> | Hin]; [left|right]. by apply elem_of_without.
    + intros Hin. assert (Hqp : q <> p /\ q ∈ init_task :: ts).
      { apply elem_of_cons in Hin as [-> | Hin]; [split; [done|left]|]. apply elem_of_without in Hin as [? ?]. split; [done|by right]. }
      destruct Hqp as [Hqp Hqt]. apply T3 in Hqt; [|done]. apply list_elem_of_lookup in Hqt as [j Hj].
      assert (j <> i) by (intros ->; congruence). apply list_elem_of_lookup. exists j. by rewrite list_lookup_insert_ne.
  - intros j k q Hq Hj Hk. rewrite <- E in Hj, Hk. apply (Hz j q Hq) in Hj as [_ Hj]. apply (Hz k q Hq) in Hk as [_ Hk]. by eapply T4.
Qed.

(** [task[i] = NULL; REMOVE_LINKS(p); free_page(p->kernel_stack_page);
    free_page((long) p);] *)
Lemma remove_spec b p i s ts ch :
  fine s ts ch 0 b -> p ∈ ts -> ch p = [] -> p <> current s -> p ∉ b -> tasks s !! i = Some p ->
  exists s1 k, REMOVE_LINKS p (set_tasks (<[i := 0]> (tasks s)) s) = Some s1 /\ rd p kernel_stack_page s1 = Some k /\
    let s' := free_task p (free_page k s1) in
    fine s' (without p ts) (removed p (l_p_pptr (L s p)) ch) 0 b /\
    current s' = current s /\ last_pid s' = last_pid s /\ tasks s' = <[i := 0]> (tasks s) /\
    store s' !! p = None /\
    forall x, x <> p -> l_p_opptr (L s' x) = l_p_opptr (L s x) /\ l_p_pptr (L s' x) = l_p_pptr (L s x) /\
      strip <$> store s' !! x = strip <$> store s !! x.
Proof.
  intros F Hp Hch Hcur Hb Hi. pose proof (fine_ok _ _ _ _ _ F) as [O1 O2 O3 O4]. set (s0 := set_tasks _ s).
  assert (R0 : rep s0 ts [] ch 0) by (by apply (rep_ext s)).
  destruct (REMOVE_LINKS_rep p s0 ts ch R0 Hp) as (s1 & E1 & F1 & P1 & R1).
  destruct (rep_out _ _ _ _ _ R1) as (Hp0 & Hpr & _ & _ & Hpin). destruct (rep_dom _ _ _ _ _ R1 p Hpin) as [t1 Ht1].
  exists s1, (kernel_stack_page t1). split; [done|]. split; [unfold rd; by rewrite Ht1|]. cbv zeta. set (s' := free_task p _).
  assert (Hst : store s' = delete p (store s1)) by done. change (L s0 p) with (L s p) in R1.
  fold (removed p (l_p_pptr (L s p)) ch) in R1. assert (Hch1 : removed p (l_p_pptr (L s p)) ch p = []) by (unfold removed; rewrite Hch; by case_bool).
  pose proof (rep_drop p s1 s' _ _ _ R1 Hch1 Hpr Hst) as R'. pose proof (lo_rest _ _ F1) as Hr. unfold rest in Hr. injection Hr as Q1 Q2 Q3 _ _ _.
  assert (Hx : forall x t', store s' !! x = Some t' -> x <> p /\ exists t, store s !! x = Some t /\ strip t' = strip t).
  { intros x t'. rewrite Hst. intros [Hxp Hx]%lookup_delete_Some. split; [congruence|]. by apply (links_only_some s0 s1). }
  split; [split; [split; [done| | |]| |]|].
  - apply (table_remove s s' ts p i); [done|done|apply (ok_nodup _ _ _ _ (fine_ok _ _ _ _ _ F))|done|]. change (tasks s') with (tasks s1). by rewrite Q1.
  - intros x t' Ht'. destruct (Hx x t' Ht') as (_ & t & Ht & E). change (length (handlers (sched (strip t'))) = 32%nat). rewrite E. exact (O3 x t Ht).
  - change (current s') with (current s1). rewrite Q2. change (current s0) with (current s).
    apply elem_of_cons in O4 as [-> | O4]; [left|right]. by apply elem_of_without.
  - intros x t' Hxb Ht'. destruct (Hx x t' Ht') as (_ & t & Ht & E). change (state (sched (strip t')) = TASK_UNINTERRUPTIBLE). rewrite E.
    exact (fine_building _ _ _ _ _ F x t Hxb Ht).
  - intros x t' y Ht' Hy. destruct (Hx x t' Ht') as (Hxp & t & Ht & E). change (y ∈ wait_chldexit (strip t')) in Hy. rewrite E in Hy.
    destruct (fine_queues _ _ _ _ _ F x t y Ht Hy) as [-> Hin]. split; [done|].
    apply elem_of_cons in Hin as [-> | Hin]; [left|right]. by apply elem_of_without.
  - split; [done|]. split; [done|]. split; [done|]. split; [rewrite Hst; apply lookup_delete_eq|]. intros x Hxp.
    assert (EL : L s' x = L s1 x) by (unfold L; rewrite Hst; by rewrite lookup_delete_ne).
    rewrite EL. destruct (P1 x) as [-> ->]. split; [done|]. split; [done|]. rewrite Hst, lookup_delete_ne by done. apply (lo_store _ _ F1).
Qed.

End ProcsInv.
