(* ===== verification/ProcsStep.v ===== *)
(** * All processes together ([src/kernel/fork.c], [src/kernel/exit.c],
      [src/kernel/ptrace.c])

    A state machine of the parts of [fork], [exit], [wait4] and [ptrace] that run
    without sleeping, of all processes in any order, with arbitrary other activity
    ([Quiet]) in between.  [inv] is its invariant: the pointers stand for a ring
    and a family tree under [init], every pointer to a parent leads to a live
    task, process numbers are unique.  It is preserved, and no step uses a null
    pointer or a task that was freed, as long as nobody traces one of its own
    ancestors: with that, [exit] can use a null pointer. *)

From S2P Require Import Prelude Sched Sys Dll Tasks Kill Procs ProcsFork ProcsInv.
From Stdlib Require Import ZArith Lia.
From stdpp Require Import base list gmap sets relations.
Local Open Scope Z_scope.

Module ProcsStep.
Import Sched Tasks Kill Procs ProcsFork ProcsInv.

(** ** The machine *)

(** Where a process is: in no call that sleeps, in [fork] with its child linked, in
    [wait4], in [do_exit] before its death, dead. *)
Inductive phase := Running | Forking (nr p : Z) | Waiting (pd options : Z) | Exiting | Dead.

Record world := World { sy : system; ph : Z -> phase }.

Definition set_ph (x : Z) (f : phase) (ph : Z -> phase) : Z -> phase := fun y => if y =? x then f else ph y.

(** The tasks that [fork] is building. *)
Definition built (w : world) (ts : list Z) : list Z :=
  omap (fun c => match ph w c with Forking _ p => Some p | _ => None end) (init_task :: ts).

Definition pid_fuel : nat := 382.

Inductive cmd :=
  | Switch (x : Z)
  | Quiet (s : system)
  | Fork (p : Z)
  | ForkStack (stack flags : Z)
  | ForkEnd
  | ForkFail
  | ExitBegin
  | ExitEnd (code : Z)
  | WaitStart (verify pd options : Z)
  | WaitResume
  | Attach (pd : Z)
  | Detach (pd data : Z).

(** After a part of [wait4]. *)
Definition waited (r : option report) (pd options : Z) : phase :=
  match r with Some _ => Running | None => Waiting pd options end.

Definition run (k : cmd) (w : world) : option world :=
  let s := sy w in let c := current s in
  match k, ph w c with
  | Switch x, _ => Some (World (set_current x s) (ph w))
  | Quiet s', _ => Some (World s' (ph w))
  | Fork p, _ =>
      '(r, s) ← fork_start pid_fuel p s;
      Some (World s (match r with
                     | Started nr => set_ph p Running (set_ph c (Forking nr p) (ph w))
                     | Failed _ => ph w
                     end))
  | ForkStack stack flags, Forking nr p => s ← fork_stack stack flags p s; Some (World s (ph w))
  | ForkEnd, Forking nr p => '(_, s) ← fork_end p s; Some (World s (set_ph c Running (ph w)))
  | ForkFail, Forking nr p => '(_, s) ← fork_fail nr p s; Some (World s (set_ph c Running (ph w)))
  | ExitBegin, _ => s ← exit_begin s; Some (World s (set_ph c Exiting (ph w)))
  | ExitEnd code, _ => s ← exit_end code s; Some (World s (set_ph c Dead (ph w)))
  | WaitStart verify pd options, _ =>
      '(r, s) ← wait_start verify pd options s; Some (World s (set_ph c (waited r pd options) (ph w)))
  | WaitResume, Waiting pd options =>
      '(r, s) ← wait_resume pd options s; Some (World s (set_ph c (waited r pd options) (ph w)))
  | Attach pd, _ => '(_, s) ← ptrace_attach pd s; Some (World s (ph w))
  | Detach pd data, _ => '(_, s) ← ptrace_detach pd data s; Some (World s (ph w))
  | _, _ => None
  end.

(** ** The invariant *)

Definition par (s : system) (x : Z) : Z := l_p_pptr (L s x).
Definition opar (s : system) (x : Z) : Z := l_p_opptr (L s x).
Definition zombie (s : system) (x : Z) : Prop := exists t, store s !! x = Some t /\ state (sched t) = TASK_ZOMBIE.
Definition pid_of (s : system) (x : Z) : option Z := pid <$> store s !! x.

Definition queue_of (s : system) (x : Z) : option (list Z) := wait_chldexit <$> store s !! x.

(** One step towards [init], whose task is [i1]. *)
Definition up (s : system) (i1 a z : Z) : Prop := a <> i1 /\ a <> init_task /\ par s a = z.

(** The queue of a process in a phase: only [wait4] enters it. *)
Definition queue_for (f : phase) (x : Z) : list Z := match f with Waiting _ _ => [x] | _ => [] end.

Definition forking (f : phase) : bool := match f with Forking _ _ => true | _ => false end.

Record inv (w : world) (ts : list Z) (ch : Z -> list Z) (i1 : Z) : Prop := {
  i_fine : fine (sy w) ts ch 0 (built w ts);
  i_slot1 : get (tasks (sy w)) 1 = Some i1;
  i_last : 0 <= last_pid (sy w) <= 32767;
  i_pid0 : pid_of (sy w) init_task = Some 0;
  i_pid : forall x n, x ∈ ts -> pid_of (sy w) x = Some n -> 1 <= n <= 32767;
  i_pids : forall x y, x ∈ ts -> y ∈ ts -> pid_of (sy w) x = pid_of (sy w) y -> x = y;
  i_init : i1 = 0 /\ ts = [] \/
    i1 ∈ ts /\ par (sy w) i1 = init_task /\ opar (sy w) i1 = init_task /\ pid_of (sy w) i1 = Some 1 /\
    ~ zombie (sy w) i1 /\ ph w i1 <> Exiting;
  i_idle : ph w init_task <> Exiting /\ ~ zombie (sy w) init_task;
  i_up : forall y, y ∈ ts -> rtc (up (sy w) i1) y i1;
  i_opar : forall y, y ∈ ts -> y <> i1 -> opar (sy w) y ∈ ts /\ opar (sy w) y <> y;
  i_zombie : forall y, y ∈ ts -> zombie (sy w) y ->
    ph w y = Dead /\ ch y = [] /\ forall z, z ∈ ts -> opar (sy w) z <> y;
  i_built : forall c nr p, c ∈ init_task :: ts -> ph w c = Forking nr p ->
    p ∈ ts /\ p <> c /\ ch p = [] /\ (forall z, z ∈ ts -> opar (sy w) z <> p) /\
    get (tasks (sy w)) nr = Some p /\ ph w p = Running /\
    forall c' nr', c' ∈ init_task :: ts -> ph w c' = Forking nr' p -> c' = c;
  i_exiting : forall c, c ∈ ts -> ph w c = Exiting -> forall z, z ∈ ts -> opar (sy w) z <> c;
  i_queue : forall x q, queue_of (sy w) x = Some q -> q = queue_for (ph w x) x;
  i_current : current (sy w) ∉ built w ts
}.

(** ** Facts *)

Lemma built_elem w ts p : p ∈ built w ts <-> exists c nr, c ∈ init_task :: ts /\ ph w c = Forking nr p.
Proof.
  unfold built. rewrite list_elem_of_omap. split.
  - intros (c & Hc & E). destruct (ph w c) as [|nr q| | |] eqn:Ep; try done. injection E as ->. eauto.
  - intros (c & nr & Hc & E). exists c. by rewrite E.
Qed.

Lemma building_sub b b' s : (forall x, x ∈ b' -> x ∈ b) -> building b s -> building b' s.
Proof. intros Hb H x t Hx. by apply H, Hb. Qed.

Lemma fine_sub s ts ch e b b' : (forall x, x ∈ b' -> x ∈ b) -> fine s ts ch e b -> fine s ts ch e b'.
Proof. intros Hb [A B C]. split; [done|by eapply building_sub|done]. Qed.

(** What a change of links or a quiet change leaves alone. *)
Record view (s s' : system) : Prop := {
  v_tasks : tasks s' = tasks s;
  v_current : current s' = current s;
  v_last : last_pid s' = last_pid s;
  v_pid : forall x, pid_of s' x = pid_of s x;
  v_zombie : forall x, zombie s' x <-> zombie s x;
  v_queue : forall x, queue_of s' x = queue_of s x
}.

Lemma calm_view b s s' : calm b s s' -> view s s'.
Proof.
  intros C. pose proof (q_tasks _ _ _ C) as E1. pose proof (q_current _ _ _ C) as E2. pose proof (q_pid _ _ _ C) as E3.
  assert (Hn : forall x, store s !! x = None -> store s' !! x = None).
  { intros x Hx. destruct (store s' !! x) as [t'|] eqn:E; [|done]. destruct (calm_back _ _ _ _ _ C E) as (t & Ht & _). congruence. }
  split; try done; intros x; unfold pid_of, zombie, queue_of; destruct (store s !! x) as [t|] eqn:Ht.
  - destruct (calm_some _ _ _ _ _ C Ht) as (t' & -> & _ & K & _). cbn in *. congruence.
  - by rewrite (Hn x Ht).
  - destruct (calm_some _ _ _ _ _ C Ht) as (t' & -> & _ & _ & _ & K & _). cbn in K. naive_solver.
  - rewrite (Hn x Ht). split; intros (t & E & _); congruence.
  - destruct (calm_some _ _ _ _ _ C Ht) as (t' & -> & _ & _ & _ & _ & K & _). cbn in *. congruence.
  - by rewrite (Hn x Ht).
Qed.

Lemma quiet_view b s s' : quiet b s s' -> view s s'.
Proof. intros Q. by apply (calm_view b), calm_quiet. Qed.

Lemma links_view s s' : links_only s s' -> view s s'.
Proof. intros Q. by apply (calm_view []), calm_links. Qed.

Lemma view_trans s1 s2 s3 : view s1 s2 -> view s2 s3 -> view s1 s3.
Proof.
  intros [A1 A2 A3 A4 A5 A6] [B1 B2 B3 B4 B5 B6]. split; try congruence. intros x. by rewrite B5.
Qed.

(** A chain of parents in a state where each parent is the same or one from which
    a chain leads to [i1]. *)
Lemma up_mono s s' i1 (P : Z -> Prop) y :
  rtc (up s i1) y i1 -> P y -> (forall a, P a -> a <> i1 -> P (par s a)) ->
  (forall a, P a -> a <> i1 -> par s' a = par s a \/ rtc (up s' i1) (par s' a) i1) -> rtc (up s' i1) y i1.
Proof.
  intros H. remember i1 as e eqn:He in H at 2 |- * at 3. revert He.
  induction H as [y|y z e (Hy & Hi & Hp) H IH]; intros -> HP Hstep Hpar; [done|].
  destruct (Hpar y HP Hy) as [E|E].
  - apply (rtc_l _ y z); [split; [done|]; split; [done|congruence]|]. apply IH; [done| |done|done]. rewrite <- Hp. by apply Hstep.
  - by apply (rtc_l _ y (par s' y)).
Qed.

Section facts.
Context {w : world} {ts : list Z} {ch : Z -> list Z} {i1 : Z}.
Hypothesis (I : inv w ts ch i1).
Let s := sy w.

Lemma inv_ok : ok s ts ch 0.
Proof. apply I. Qed.

Lemma inv_rep : rep s ts [] ch 0.
Proof. apply I. Qed.

Lemma inv_nodup : NoDup ts /\ (0 ∉ ts) /\ init_task ∉ ts.
Proof. eapply ok_nodup, inv_ok. Qed.

Lemma inv_dom x : x ∈ init_task :: ts -> exists t, store s !! x = Some t.
Proof. intros Hx. exact (ok_dom s ts ch 0 x inv_ok Hx). Qed.

(** A task that is not [init_task] is in the ring, so is [init]. *)
Lemma inv_in x : x ∈ init_task :: ts -> x <> init_task -> x ∈ ts /\ i1 ∈ ts /\ i1 <> 0 /\ i1 <> init_task.
Proof.
  intros Hx Hne. apply elem_of_cons in Hx as [|Hx]; [done|]. destruct inv_nodup as (_ & H0 & Hi).
  destruct (i_init _ _ _ _ I) as [[_ ->]|(H1 & _)]; [by apply elem_of_nil in Hx|].
  split; [done|]. split; [done|]. split; intros E; rewrite E in H1; done.
Qed.

Lemma inv_init : i1 ∈ ts ->
  par s i1 = init_task /\ opar s i1 = init_task /\ pid_of s i1 = Some 1 /\ (~ zombie s i1) /\ ph w i1 <> Exiting.
Proof. intros H1. destruct (i_init _ _ _ _ I) as [[_ E]|(_ & H)]; [by rewrite E in H1; apply elem_of_nil in H1|done]. Qed.

Lemma par_in y : y ∈ ts -> par s y ∈ init_task :: ts.
Proof. intros Hy. pose proof (rep_parent_in _ _ _ _ _ y inv_rep Hy) as H. by rewrite app_nil_r in H. Qed.

Lemma ch_par x y : y ∈ ch x <-> y ∈ ts /\ par s y = x.
Proof.
  split; [intros Hy; by destruct (rep_ch _ _ _ _ _ inv_rep x y Hy) as (? & _ & ? & _)|].
  intros [Hy <-]. by apply (rep_parent _ _ _ _ _ inv_rep).
Qed.

Lemma ch_not_self x : x ∉ ch x.
Proof. intros Hx. by destruct (rep_ch _ _ _ _ _ inv_rep x x Hx) as (_ & _ & _ & ?). Qed.

Lemma par_not_init y : y ∈ ts -> y <> i1 -> par s y ∈ ts.
Proof.
  intros Hy Hne. pose proof (par_in y Hy) as Hp. destruct (inv_in y) as (_ & H1 & _ & Hi); [by right|intros ->; by destruct inv_nodup as (_ & _ & ?)|].
  apply elem_of_cons in Hp as [E|]; [|done]. exfalso.
  destruct (rtc_inv _ _ (i_up _ _ _ _ I y Hy)) as [|(z & (_ & _ & Hz) & H)]; [done|]. fold s in Hz, H. rewrite E in Hz. subst z.
  destruct (rtc_inv _ _ H) as [|(z & (_ & ? & _) & _)]; [congruence|done].
Qed.

(** What a chain leads to has children. *)
Lemma path_child y z : y ∈ ts -> rtc (up s i1) y z -> y = z \/ ch z <> [].
Proof.
  intros Hy H. assert (forall z, rtc (up s i1) y z -> z ∈ ts) as Hin.
  { clear H z. intros z H. revert Hy. induction H as [|y z u (Hn & _ & <-) _ IH]; [done|]. intros Hy. by apply IH, par_not_init. }
  destruct (rtc_inv_r _ _ H) as [|(u & Hu & (_ & _ & E))]; [by left|right].
  assert (u ∈ ch z) as Hzc by (apply ch_par; split; [by apply Hin|done]). intros Ec. rewrite Ec in Hzc. by apply elem_of_nil in Hzc.
Qed.

(** If there is another task, [init] has children. *)
Lemma init_children y : y ∈ ts -> y <> i1 -> ch i1 <> [].
Proof.
  intros Hy Hne. by destruct (path_child y i1 Hy (i_up _ _ _ _ I y Hy)).
Qed.

(** While [init] is built, it is alone. *)
Lemma built_init y : i1 ∈ built w ts -> y ∈ ts -> y = i1.
Proof.
  intros (c & nr & Hc & E)%built_elem Hy. destruct (decide (y = i1)) as [|Hne]; [done|]. exfalso.
  destruct (i_built _ _ _ _ I c nr i1 Hc E) as (_ & _ & Hn & _). by apply (init_children y Hy Hne).
Qed.

Lemma built_in p : p ∈ built w ts -> p ∈ ts /\ ch p = [] /\ (forall z, z ∈ ts -> opar s z <> p) /\ ph w p = Running.
Proof. intros (c & nr & Hc & E)%built_elem. by destruct (i_built _ _ _ _ I c nr p Hc E) as (? & _ & ? & ? & _ & ? & _). Qed.

Lemma built_state p t : p ∈ built w ts -> store s !! p = Some t -> state (sched t) = TASK_UNINTERRUPTIBLE.
Proof. apply (fine_building _ _ _ _ _ (i_fine _ _ _ _ I)). Qed.

Lemma zombie_not_built p : zombie s p -> p ∉ built w ts.
Proof. intros (t & Ht & E) Hb. rewrite (built_state p t Hb Ht) in E. done. Qed.

Lemma inv_up s' y :
  (forall a, a ∈ ts -> a <> i1 -> par s' a = par s a \/ rtc (up s' i1) (par s' a) i1) -> y ∈ ts -> rtc (up s' i1) y i1.
Proof.
  intros H Hy. apply (up_mono s s' i1 (fun a => a ∈ ts)); [by apply (i_up _ _ _ _ I)|done| |done]. intros a. apply par_not_init.
Qed.

End facts.

(** ** Preservation *)

Lemma inv_ext s f g ts ch i1 : (forall x, g x = f x) -> inv (World s f) ts ch i1 -> inv (World s g) ts ch i1.
Proof.
  intros E I. assert (Eb : built (World s g) ts = built (World s f) ts) by (apply list_omap_ext; apply Forall_Forall2_diag, Forall_true; intros c; cbn [ph]; by rewrite E).
  destruct I. split; cbn [sy ph] in *; rewrite ?Eb, ?E; try done.
  - intros y. rewrite E. apply i_zombie0.
  - intros c nr p Hc. rewrite E. intros Hf. destruct (i_built0 c nr p Hc Hf) as (? & ? & ? & ? & ? & ? & H). rewrite E. do 6 (split; [done|]).
    intros c' nr'. rewrite E. apply H.
  - intros c. rewrite E. apply i_exiting0.
  - intros x q. rewrite E. apply i_queue0.
Qed.

(** A change of links and quiet things. *)
Lemma inv_same w s' ts ts' ch ch' i1 :
  inv w ts ch i1 -> view (sy w) s' -> (forall x, x ∈ ts' <-> x ∈ ts) -> fine s' ts' ch' 0 (built w ts) ->
  par s' i1 = par (sy w) i1 -> (forall y, y ∈ ts -> rtc (up s' i1) y i1) ->
  (forall y, y ∈ ts -> opar s' y = opar (sy w) y \/ y <> i1 /\ opar s' y = i1) ->
  (forall y, y ∈ ts -> ch y = [] -> ch' y = [] \/ ~ zombie (sy w) y /\ y ∉ built w ts) ->
  inv (World s' (ph w)) ts' ch' i1.
Proof.
  intros I [V1 V2 V3 V4 V5 V6] Hts F Hp1 Hup Hop Hch.
  assert (Hring : forall x, x ∈ init_task :: ts' <-> x ∈ init_task :: ts) by (intros x; rewrite !elem_of_cons, Hts; done).
  assert (Hb : forall x, x ∈ built (World s' (ph w)) ts' <-> x ∈ built w ts).
  { intros x. rewrite !built_elem. cbn [ph]. by setoid_rewrite Hring. }
  assert (H1 : forall y, y ∈ ts -> i1 ∈ ts /\ ~ zombie (sy w) i1 /\ ph w i1 <> Exiting).
  { intros y Hy. destruct (i_init _ _ _ _ I) as [[_ ->]|(? & _ & _ & _ & ? & ?)]; [by apply elem_of_nil in Hy|done]. }
  assert (Hno : forall c, (forall z, z ∈ ts -> opar (sy w) z <> c) -> (forall y, y ∈ ts -> y <> i1 -> i1 <> c) -> forall z, z ∈ ts -> opar s' z <> c).
  { intros c Hc Hc1 z Hz. destruct (Hop z Hz) as [-> |[? ->]]; [by apply Hc|by eapply Hc1]. }
  split; cbn [sy ph] in *; try (rewrite ?V1, ?V2, ?V3, ?V4; apply I).
  - eapply fine_sub; [|exact F]. intros x. by rewrite Hb.
  - intros x n. rewrite Hts, V4. apply I.
  - intros x y. rewrite !Hts, !V4. apply I.
  - destruct (i_init _ _ _ _ I) as [[? ->]|(Hi & ? & Ho & ? & Hz & ?)].
    + left. split; [done|]. destruct ts' as [|x ts']; [done|]. exfalso. apply (elem_of_nil x), Hts. left.
    + right. rewrite Hts, Hp1, V4, V5. destruct (Hop i1 Hi) as [-> |[? _]]; done.
  - rewrite V5. apply I.
  - intros y Hy%Hts. by apply Hup.
  - intros y Hy%Hts Hne. rewrite Hts. destruct (Hop y Hy) as [-> |[_ ->]]; [by apply I|]. split; [by apply (H1 y)|done].
  - intros y Hy%Hts Hz%V5. destruct (i_zombie _ _ _ _ I y Hy Hz) as (Hd & Hc & Ho). split; [done|]. split.
    + destruct (Hch y Hy Hc) as [|[? _]]; done.
    + intros z Hzt%Hts. apply Hno; [done| |done]. intros y' Hy' _ E. destruct (H1 y' Hy') as (_ & Hn & _). by rewrite E in Hn.
  - intros c nr p Hc%Hring E. destruct (i_built _ _ _ _ I c nr p Hc E) as (A1 & A2 & A3 & A4 & A5 & A6 & A7).
    assert (Hpb : p ∈ built w ts) by (apply built_elem; eauto). rewrite Hts, V1.
    split; [done|]. split; [done|]. split; [destruct (Hch p A1 A3) as [|[_ ?]]; done|]. split.
    + intros z Hz%Hts. apply Hno; [done| |done]. intros y Hy Hne ->. apply Hne. by apply (built_init I).
    + split; [done|]. split; [done|]. intros c' nr' Hc'%Hring. by apply A7.
  - intros c Hc%Hts E z Hz%Hts. apply Hno; [by apply (i_exiting _ _ _ _ I)| |done]. intros y Hy _ E1. destruct (H1 y Hy) as (_ & _ & Hn). by rewrite E1 in Hn.
  - intros x q. rewrite V6. apply I.
  - rewrite V2, Hb. apply I.
Qed.

Lemma inv_quiet w s' ts ch i1 : inv w ts ch i1 -> quiet (built w ts) (sy w) s' -> inv (World s' (ph w)) ts ch i1.
Proof.
  intros I Q. assert (HL : forall x, L s' x = L (sy w) x) by (intros x; by eapply quiet_L).
  apply (inv_same w s' ts ts ch ch); try done.
  - by eapply quiet_view.
  - by eapply fine_quiet; [|apply I].
  - unfold par. by rewrite HL.
  - intros y. apply (inv_up I). intros a _ _. left. unfold par. by rewrite HL.
  - intros y _. unfold opar. rewrite HL. by left.
  - by left.
Qed.

Lemma set_ph_eq c f g : set_ph c f g c = f.
Proof. unfold set_ph. by rewrite Z.eqb_refl. Qed.

Lemma set_ph_ne c f g x : x <> c -> set_ph c f g x = g x.
Proof. intros H. unfold set_ph. by apply Z.eqb_neq in H as ->. Qed.

Lemma built_set_ph w s' c f ts p :
  forking f = false -> p ∈ built (World s' (set_ph c f (ph w))) ts ->
  exists c' nr, c' <> c /\ c' ∈ init_task :: ts /\ ph w c' = Forking nr p.
Proof.
  rewrite built_elem. cbn [ph]. intros Hf (c' & nr & Hc' & E). destruct (decide (c' = c)) as [-> |Hne].
  - rewrite set_ph_eq in E. by rewrite E in Hf.
  - rewrite set_ph_ne in E by done. eauto.
Qed.

Lemma built_set_sub w s' c f ts p :
  forking f = false -> p ∈ built (World s' (set_ph c f (ph w))) ts -> p ∈ built w ts.
Proof. intros Hf (c' & nr & _ & Hc & E)%built_set_ph; [|done]. apply built_elem. eauto. Qed.

(** The running process goes on to a phase in which it builds nothing, and may
    enter or leave its queue. *)
Lemma inv_phase_queue w s' ts ch i1 f :
  let c := current (sy w) in
  inv w ts ch i1 -> forking f = false -> ~ zombie (sy w) c ->
  (f = Exiting -> c <> init_task /\ c <> i1 /\ forall z, z ∈ ts -> opar (sy w) z <> c) ->
  rest s' = rest (sy w) -> (forall x, L s' x = L (sy w) x) -> (forall x, pid_of s' x = pid_of (sy w) x) ->
  (forall x, zombie s' x <-> zombie (sy w) x) -> fine s' ts ch 0 (built w ts) ->
  (forall x q, queue_of s' x = Some q -> q = queue_for (set_ph c f (ph w) x) x) ->
  inv (World s' (set_ph c f (ph w))) ts ch i1.
Proof.
  intros c I Hf Hz Hx Hr HL Hpid Hzz F Hq. pose proof (i_current _ _ _ _ I) as Hcb. fold c in Hcb.
  unfold rest in Hr. injection Hr as V1 V2 V3 _ _ _.
  assert (Hpar : forall x, par s' x = par (sy w) x) by (intros x; unfold par; by rewrite HL).
  assert (Hop : forall x, opar s' x = opar (sy w) x) by (intros x; unfold opar; by rewrite HL).
  split; cbn [sy ph]; rewrite ?V1, ?V2, ?V3, ?Hpid; try apply I; try done.
  - eapply fine_sub; [|exact F]. intros x. by apply built_set_sub.
  - intros x n. rewrite Hpid. apply I.
  - intros x y. rewrite !Hpid. apply I.
  - rewrite Hpar, Hop, Hzz. destruct (i_init _ _ _ _ I) as [|(? & ? & ? & ? & ? & ?)]; [by left|right]. repeat (split; [done|]).
    destruct (decide (i1 = c)) as [E|]; [|by rewrite set_ph_ne]. rewrite E, set_ph_eq. intros ->. by destruct Hx as (_ & ? & _).
  - rewrite Hzz. split; [|apply (i_idle _ _ _ _ I)]. destruct (decide (init_task = c)) as [E|]; [|by rewrite set_ph_ne; [apply (i_idle _ _ _ _ I)|]].
    rewrite E, set_ph_eq. intros ->. by destruct Hx as (? & _).
  - intros y. apply (inv_up I). intros a _ _. by left.
  - intros y. rewrite Hop. apply I.
  - intros y Hy Hzy%Hzz. destruct (i_zombie _ _ _ _ I y Hy Hzy) as (Hd & ? & Ho). split; [rewrite set_ph_ne; [done|]; by intros ->|].
    split; [done|]. intros z. rewrite Hop. apply Ho.
  - intros c' nr p Hc' E. destruct (decide (c' = c)) as [-> |Hne]; [rewrite set_ph_eq in E; by rewrite E in Hf|].
    rewrite set_ph_ne in E by done. destruct (i_built _ _ _ _ I c' nr p Hc' E) as (A1 & A2 & A3 & A4 & A5 & A6 & A7).
    split; [done|]. split; [done|]. split; [done|]. split; [intros z; rewrite Hop; apply A4|]. split; [done|]. split.
    + rewrite set_ph_ne; [done|]. intros ->. apply Hcb, built_elem. eauto.
    + intros c2 nr' Hc2 E2. destruct (decide (c2 = c)) as [-> |]; [rewrite set_ph_eq in E2; by rewrite E2 in Hf|].
      rewrite set_ph_ne in E2 by done. by eapply A7.
  - intros x Hxt E z. rewrite Hop. destruct (decide (x = c)) as [-> |]; [rewrite set_ph_eq in E; by apply Hx|].
    rewrite set_ph_ne in E by done. by apply (i_exiting _ _ _ _ I).
  - intros Hb%built_set_sub; [|done]. done.
Qed.

Lemma inv_phase w ts ch i1 f :
  let c := current (sy w) in
  inv w ts ch i1 -> forking f = false -> ~ zombie (sy w) c -> queue_for f c = queue_for (ph w c) c ->
  (f = Exiting -> c <> init_task /\ c <> i1 /\ forall z, z ∈ ts -> opar (sy w) z <> c) ->
  inv (World (sy w) (set_ph c f (ph w))) ts ch i1.
Proof.
  intros c I Hf Hz Hq Hx. apply (inv_phase_queue w (sy w) ts ch i1 f); try done; [apply I|].
  intros x q Hxq. rewrite (i_queue _ _ _ _ I x q Hxq). fold c. destruct (decide (x = c)) as [-> |]; [by rewrite set_ph_eq|by rewrite set_ph_ne].
Qed.

(** Another parent [q], that is no descendant of [p]. *)
Lemma inv_relink w ts ch i1 p q :
  inv w ts ch i1 -> p ∈ ts -> p <> i1 -> q ∈ ts -> ~ zombie (sy w) q -> q ∉ built w ts -> ~ rtc (up (sy w) i1) q p ->
  exists s' ch', relink p q (sy w) = Some s' /\ links_only (sy w) s' /\
    inv (World s' (ph w)) (without p ts ++ [p]) ch' i1 /\ forall x, par s' x = if x =? p then q else par (sy w) x.
Proof.
  intros I Hp Hp1 Hq Hqz Hqb Hpath. assert (Hqp : q <> p) by (intros ->; by apply Hpath).
  destruct (relink_spec _ p q _ ts ch (i_fine _ _ _ _ I) Hp) as (s' & ch' & E & F & Hf & Hch & HL); [by right|done|].
  assert (Hpar : forall x, par s' x = if x =? p then q else par (sy w) x) by (intros x; apply HL).
  exists s', ch'. split; [done|]. split; [done|]. split; [|done]. apply (inv_same w s' ts _ ch ch'); [done|by apply links_view| |done|..].
  - intros x. rewrite elem_of_app, list_elem_of_singleton, elem_of_without. destruct (decide (x = p)) as [-> |]; naive_solver.
  - rewrite Hpar. apply not_eq_sym, Z.eqb_neq in Hp1 as ->. done.
  - assert (Hq1 : rtc (up s' i1) q i1).
    { apply (up_mono (sy w) s' i1 (fun a => a ∈ ts /\ rtc (up (sy w) i1) q a)); [by apply I|done| |].
      - intros a [Ha Hqa] Hne. split; [by apply (par_not_init I)|]. eapply rtc_r; [done|]. split; [done|]. split; [|done].
        intros ->. by destruct (inv_nodup I) as (_ & _ & ?).
      - intros a [_ Hqa] _. left. rewrite Hpar. destruct (Z.eqb_spec a p) as [-> |]; done. }
    intros y. apply (inv_up I). intros a _ _. rewrite Hpar. destruct (a =? p); [by right|by left].
  - intros y _. left. apply HL.
  - intros y Hy Hcy. destruct (decide (y = q)) as [-> |Hyq]; [by right|left]. destruct (ch' y) as [|z l] eqn:Ez; [done|].
    assert (Hz : z ∈ ch' y) by (rewrite Ez; left). apply Hch in Hz as [[_ Hz]|[_ ?]]; [|done]. rewrite Hcy in Hz. by apply elem_of_nil in Hz.
Qed.

Lemma strip_views s s' x : strip <$> store s' !! x = strip <$> store s !! x ->
  pid_of s' x = pid_of s x /\ (zombie s' x <-> zombie s x) /\ queue_of s' x = queue_of s x.
Proof.
  unfold pid_of, zombie, queue_of. intros E. destruct (store s' !! x) as [t'|], (store s !! x) as [t|]; try done.
  change (Some (strip t') = Some (strip t)) in E. injection E as Es Ep _ _ _ _ _ _ _ _ _ _ Ew. cbn. rewrite Ep, Ew.
  split; [done|]. split; [|done]. split; intros (u & [= <-] & Hu); eexists; (split; [done|]); congruence.
Qed.

(** A task that nobody has as a parent goes. *)
Lemma inv_gone w s' ts ch ch' i1 p nr :
  inv w ts ch i1 -> p ∈ ts -> ch p = [] -> (forall z, z ∈ ts -> opar (sy w) z <> p) -> p ∉ built w ts ->
  get (tasks (sy w)) nr = Some p -> put (tasks (sy w)) nr 0 = Some (tasks s') ->
  fine s' (without p ts) ch' 0 (built w ts) -> (forall x, ch x = [] -> ch' x = []) -> current s' = current (sy w) -> last_pid s' = last_pid (sy w) ->
  store s' !! p = None ->
  (forall x, x <> p -> opar s' x = opar (sy w) x /\ par s' x = par (sy w) x /\ strip <$> store s' !! x = strip <$> store (sy w) !! x) ->
  inv (World s' (ph w)) (without p ts) ch' (if p =? i1 then 0 else i1).
Proof.
  intros I Hp Hcp Hop Hb Hnr Hput F Hch Hcur Hlast Hnone Hx. destruct (inv_nodup I) as (Hnd & H0 & Hinit).
  assert (Hip : init_task <> p) by (intros E; by rewrite E in Hinit).
  assert (Hsub : forall x, x ∈ init_task :: without p ts -> x ∈ init_task :: ts /\ x <> p).
  { intros x. rewrite !elem_of_cons, elem_of_without. naive_solver. }
  assert (Hbs : forall x, x ∈ built (World s' (ph w)) (without p ts) -> x ∈ built w ts).
  { intros x (c & n & [Hc _]%Hsub & E)%built_elem. apply built_elem. eauto. }
  assert (Hv : forall x, x <> p -> pid_of s' x = pid_of (sy w) x /\ (zombie s' x <-> zombie (sy w) x) /\ queue_of s' x = queue_of (sy w) x).
  { intros x Hxp. by apply strip_views, Hx. }
  assert (Hslot : nr = 1 <-> p = i1).
  { pose proof (i_slot1 _ _ _ _ I) as H1. split; [intros ->; congruence|]. intros ->.
    assert (Hne : i1 <> 0) by (by intros ->). pose proof (get_Some_range _ _ _ Hnr) as [Hn _]. unfold get in Hnr, H1.
    destruct (Z.ltb_spec nr 0); [done|]. pose proof (table_once _ _ (ok_table _ _ _ _ (inv_ok I)) _ _ _ Hne Hnr H1). lia. }
  split; cbn [sy ph].
  - by eapply fine_sub.
  - rewrite (get_put _ _ _ _ _ Hput). destruct (Z.eqb_spec 1 nr) as [E|E], (Z.eqb_spec p i1) as [E'|E']; try done; [naive_solver..|]. apply I.
  - rewrite Hlast. apply I.
  - rewrite (proj1 (Hv _ Hip)). apply I.
  - intros x n [Hxp Hxt]%elem_of_without. rewrite (proj1 (Hv x Hxp)). by apply I.
  - intros x y [Hxp Hxt]%elem_of_without [Hyp Hyt]%elem_of_without. rewrite (proj1 (Hv x Hxp)), (proj1 (Hv y Hyp)). by apply I.
  - destruct (Z.eqb_spec p i1) as [-> |Hne].
    + left. split; [done|]. destruct (without i1 ts) as [|y l] eqn:Ey; [done|]. exfalso.
      assert (Hy : y ∈ without i1 ts) by (rewrite Ey; left). apply elem_of_without in Hy as [Hy1 Hy]. by apply (init_children I y).
    + right. destruct (inv_in I p) as (_ & H1 & _ & _); [by right|done|]. destruct (Hx i1) as (-> & -> & _); [done|]. destruct (Hv i1) as (-> & -> & _); [done|].
      split; [by apply elem_of_without|]. by destruct (inv_init I H1) as (? & ? & ? & ? & ?).
  - rewrite (proj1 (proj2 (Hv _ Hip))). apply I.
  - intros y [Hyp Hyt]%elem_of_without. destruct (Z.eqb_spec p i1) as [-> |Hne]; [exfalso; by apply (init_children I y)|].
    apply (up_mono (sy w) s' i1 (fun a => a ∈ ts /\ a <> p)); [by apply I|done| |].
    + intros a [Ha Hap] Ha1. split; [by apply (par_not_init I)|]. intros E. assert (Hin : a ∈ ch p) by (by apply (ch_par I)). rewrite Hcp in Hin. by apply elem_of_nil in Hin.
    + intros a [_ Hap] _. left. by apply Hx.
  - intros y [Hyp Hyt]%elem_of_without Hy1. destruct (Hx y Hyp) as (-> & _). destruct (Z.eqb_spec p i1) as [-> |Hne]; [exfalso; by apply (init_children I y)|].
    destruct (i_opar _ _ _ _ I y Hyt Hy1) as [A B]. split; [|done]. apply elem_of_without. split; [by apply Hop|done].
  - intros y [Hyp Hyt]%elem_of_without Hz. apply Hv in Hz; [|done]. destruct (i_zombie _ _ _ _ I y Hyt Hz) as (? & ? & Ho). split; [done|]. split; [by apply Hch|].
    intros z [Hzp Hzt]%elem_of_without. destruct (Hx z Hzp) as (-> & _). by apply Ho.
  - intros c n q [Hc Hcp']%Hsub E. destruct (i_built _ _ _ _ I c n q Hc E) as (A1 & A2 & A3 & A4 & A5 & A6 & A7).
    assert (Hqp : q <> p) by (intros ->; apply Hb, built_elem; eauto). split; [by apply elem_of_without|]. split; [done|]. split; [by apply Hch|]. split; [|split; [|split; [done|]]].
    + intros z [Hzp Hzt]%elem_of_without. destruct (Hx z Hzp) as (-> & _). by apply A4.
    + rewrite (get_put _ _ _ _ _ Hput). destruct (Z.eqb_spec n nr) as [-> |]; [congruence|done].
    + intros c' n' [Hc' _]%Hsub. by apply A7.
  - intros c [Hcp' Hc]%elem_of_without E z [Hzp Hzt]%elem_of_without. destruct (Hx z Hzp) as (-> & _). by apply (i_exiting _ _ _ _ I).
  - intros x q Hq. assert (x <> p) by (intros ->; unfold queue_of in Hq; by rewrite Hnone in Hq). destruct (Hv x) as (_ & _ & E); [done|]. rewrite E in Hq. by apply I.
  - rewrite Hcur. intros Hc%Hbs. by apply (i_current _ _ _ _ I).
Qed.

(** [task[nr] = NULL; REMOVE_LINKS(p)] and the pages are freed. *)
Lemma inv_remove w ts ch i1 p nr :
  inv w ts ch i1 -> p ∈ ts -> ch p = [] -> (forall z, z ∈ ts -> opar (sy w) z <> p) -> p <> current (sy w) -> p ∉ built w ts ->
  get (tasks (sy w)) nr = Some p ->
  exists l s1 k ch', put (tasks (sy w)) nr 0 = Some l /\ REMOVE_LINKS p (set_tasks l (sy w)) = Some s1 /\
    rd p kernel_stack_page s1 = Some k /\ let s' := free_task p (free_page k s1) in
    inv (World s' (ph w)) (without p ts) ch' (if p =? i1 then 0 else i1) /\ current s' = current (sy w) /\ store s' !! p = None /\
    forall x, x <> p -> strip <$> store s' !! x = strip <$> store (sy w) !! x.
Proof.
  intros I Hp Hch Hop Hcur Hb Hnr. assert (Hput : put (tasks (sy w)) nr 0 = Some (<[Z.to_nat nr := 0]> (tasks (sy w)))).
  { apply put_in_range. by apply get_Some_range in Hnr. }
  assert (Hi : tasks (sy w) !! Z.to_nat nr = Some p) by (unfold get in Hnr; by destruct (nr <? 0)).
  destruct (remove_spec _ p (Z.to_nat nr) _ ts ch (i_fine _ _ _ _ I)) as (s1 & k & E1 & E2 & H); [done..|]. cbv zeta in H.
  eexists _, s1, k, _. split; [done|]. split; [done|]. split; [done|]. cbv zeta.
  destruct H as (F & H1 & H2 & H3 & H4 & H5). split; [|repeat split; [done..|]; intros x Hx; by apply H5].
  apply (inv_gone w _ ts ch _ i1 p nr); try done; [by rewrite H3|].
  intros x Hx. unfold removed. destruct (_ =? _); [|done]. by rewrite Hx.
Qed.

End ProcsStep.
