(* ===== verification/ProcsSafe.v ===== *)
(** * The parts of [fork], [exit], [wait4] and [ptrace] are safe

    For every command of [ProcsStep.run]: in a state with the invariant it has a
    result, so it uses no null pointer and no task that is gone, and the
    invariant holds again. *)

From S2P Require Import Prelude Sched Sys Dll Tasks Kill Procs ProcsFork ProcsInv ProcsStep.
From Stdlib Require Import ZArith Lia.
From stdpp Require Import base list gmap sets relations.
Local Open Scope Z_scope.

Module ProcsSafe.
Import Sched Tasks Kill Procs ProcsFork ProcsInv ProcsStep.

(** ** [exit] *)

Lemma exit_begin_inv w ts ch i1 :
  let c := current (sy w) in
  inv w ts ch i1 -> c <> init_task -> c <> i1 -> ph w c = Running ->
  exists s', exit_begin (sy w) = Some s' /\ inv (World s' (set_ph c Exiting (ph w))) ts ch i1.
Proof.
  intros c I Hi Hc1 Hph. pose proof (ok_current _ _ _ _ (inv_ok I)) as Hc. fold c in Hc.
  destruct (inv_in I c Hc Hi) as (Hct & H1 & H10 & _).
  destruct (forget_spec c (sy w) ts ch 0 _ i1 (i_fine _ _ _ _ I) (i_slot1 _ _ _ _ I)) as (s' & E & F & Ff & HL).
  assert (Hl : forall x, par s' x = par (sy w) x /\ opar s' x = if bool_decide (x ∈ ts) && (opar (sy w) x =? c) then i1 else opar (sy w) x).
  { intros x. unfold par, opar. rewrite HL. apply Z.eqb_neq in H10. rewrite H10. by destruct (_ && _). }
  destruct (inv_init I H1) as (_ & Ho1 & _).
  assert (Hop : forall y, y ∈ ts -> opar s' y = opar (sy w) y \/ y <> i1 /\ opar s' y = i1).
  { intros y Hy. destruct (Hl y) as [_ ->]. rewrite bool_decide_true by done. destruct (Z.eqb_spec (opar (sy w) y) c) as [Ey|]; [|by left].
    right. split; [|done]. intros ->. congruence. }
  assert (I' : inv (World s' (ph w)) ts ch i1).
  { apply (inv_same w s' ts ts ch ch); try done; [by apply links_view|apply Hl| |by left].
    intros y. apply (inv_up I). intros a _ _. left. apply Hl. }
  assert (Hcur : current s' = c) by apply (links_view _ _ F).
  exists s'. split; [done|]. pose proof (inv_phase (World s' (ph w)) ts ch i1 Exiting I') as X. cbn [sy ph] in X. rewrite Hcur in X. apply X; try done.
  - intros Hz. apply (links_view _ _ F) in Hz. destruct (i_zombie _ _ _ _ I c Hct Hz) as [Hd _]. congruence.
  - by rewrite Hph.
  - intros _. split; [done|]. split; [done|]. intros z Hz. destruct (Hl z) as [_ ->]. rewrite bool_decide_true by done.
    destruct (Z.eqb_spec (opar (sy w) z) c); [by apply not_eq_sym|done].
Qed.

(** The state after the process died, before its children got another parent. *)
Definition dying (code : Z) (t : task_struct) (s : system) : system :=
  set_store (<[current s := on_sched (fun k => set_exit_code (Sched.set_state k TASK_ZOMBIE) code) t]> (store s)) s.

Lemma dying_views code t s x :
  store s !! current s = Some t ->
  pid_of (dying code t s) x = pid_of s x /\ queue_of (dying code t s) x = queue_of s x /\
  (zombie (dying code t s) x <-> zombie s x \/ x = current s).
Proof.
  intros Ht. unfold pid_of, queue_of, zombie, dying. cbn [store set_store]. destruct (decide (x = current s)) as [-> |Hne].
  - rewrite lookup_insert_eq, Ht. split; [done|]. split; [done|]. split; [by right|]. intros _. by eexists.
  - rewrite lookup_insert_ne by done. split; [done|]. split; [done|]. naive_solver.
Qed.

Lemma exit_end_inv w ts ch i1 code :
  let c := current (sy w) in
  inv w ts ch i1 -> ph w c = Exiting ->
  exists s' ch', exit_end code (sy w) = Some s' /\ inv (World s' (set_ph c Dead (ph w))) ts ch' i1.
Proof.
  intros c I Hph. pose proof (ok_current _ _ _ _ (inv_ok I)) as Hc. fold c in Hc.
  destruct (inv_in I c Hc) as (Hct & H1 & H10 & H1i); [intros E; rewrite E in Hph; by apply (i_idle _ _ _ _ I) in Hph|].
  destruct (inv_init I H1) as (Hp1 & Ho1 & Hpid1 & Hz1 & Hx1).
  assert (Hc1 : i1 <> c) by congruence. destruct (inv_dom I c Hc) as [t Ht].
  assert (Hnp : new_parent i1 c = i1) by (unfold new_parent; apply Z.eqb_neq in H10, Hc1; by rewrite H10, Hc1).
  pose proof (exit_end_spec (built w ts) code (sy w) ts ch i1 t) as X. cbv zeta in X. fold c in X. rewrite Hnp in X.
  destruct X as (s' & ch' & E & C & F & Hc' & Hch & Hch1 & HL);
    [apply I|done|apply (i_current _ _ _ _ I)|done|apply I|by right|done| |by apply (init_children I c)|].
  { intros Hin%(ch_par I). destruct Hin as [_ Hin]. rewrite Hp1 in Hin. apply (inv_nodup I). by rewrite Hin. }
  exists s', ch'. split; [done|]. pose proof (calm_view _ _ _ C) as [V1 V2 V3 V4 V5 V6]. cbn in V1, V2, V3.
  assert (Hz : forall x, zombie s' x <-> zombie (sy w) x \/ x = c).
  { intros x. rewrite V5. apply (dying_views code t (sy w) x Ht). }
  assert (Hp : forall x, pid_of s' x = pid_of (sy w) x) by (intros x; rewrite V4; apply (dying_views code t (sy w) x Ht)).
  assert (Hq : forall x, queue_of s' x = queue_of (sy w) x) by (intros x; rewrite V6; apply (dying_views code t (sy w) x Ht)).
  assert (Hpar : forall x, par s' x = if bool_decide (x ∈ ch c) then i1 else par (sy w) x) by (intros x; apply HL).
  assert (Hop : forall x, opar s' x = opar (sy w) x) by (intros x; apply HL).
  assert (Hb : forall x, x ∈ built (World s' (set_ph c Dead (ph w))) ts -> x ∈ built w ts) by (intros x; by apply built_set_sub).
  pose proof (i_current _ _ _ _ I) as Hcb. fold c in Hcb.
  split; cbn [sy ph]; rewrite ?V1, ?V2, ?V3.
  - by eapply fine_sub.
  - apply I.
  - apply I.
  - rewrite Hp. apply I.
  - intros x n. rewrite Hp. apply I.
  - intros x y. rewrite !Hp. apply I.
  - right. rewrite Hz, Hp, Hop, Hpar, set_ph_ne by done. rewrite bool_decide_false; [naive_solver|].
    intros [_ Hin]%(ch_par I). rewrite Hp1 in Hin. apply (inv_nodup I). by rewrite Hin.
  - rewrite Hz. destruct (i_idle _ _ _ _ I) as [Hn Hn2]. assert (init_task <> c) by (intros E1; rewrite E1 in Hn; done).
    rewrite set_ph_ne by done. naive_solver.
  - intros y. apply (inv_up I). intros a _ _. rewrite Hpar. case_bool_decide; [by right|by left].
  - intros y. rewrite Hop. apply I.
  - intros y Hy [Hzy| ->]%Hz.
    + destruct (i_zombie _ _ _ _ I y Hy Hzy) as (Hd & Hcy & Ho). assert (y <> c) by congruence. rewrite set_ph_ne by done.
      split; [done|]. split; [rewrite Hch; [done|done|congruence]|]. intros z. rewrite Hop. apply Ho.
    + rewrite set_ph_eq. split; [done|]. split; [done|]. intros z Hzt. rewrite Hop. by apply (i_exiting _ _ _ _ I).
  - intros c' nr p Hc'' E'. destruct (decide (c' = c)) as [-> |Hne]; [by rewrite set_ph_eq in E'|]. rewrite set_ph_ne in E' by done.
    destruct (i_built _ _ _ _ I c' nr p Hc'' E') as (A1 & A2 & A3 & A4 & A5 & A6 & A7).
    assert (Hpb : p ∈ built w ts) by (apply built_elem; eauto). assert (Hpc : p <> c) by (by intros ->).
    split; [done|]. split; [done|]. split; [|split; [|split; [done|split]]].
    + rewrite Hch; [done|done|]. intros ->. apply Hc1. symmetry. by apply (built_init I).
    + intros z. rewrite Hop. apply A4.
    + by rewrite set_ph_ne.
    + intros c2 nr' Hc2 E2. destruct (decide (c2 = c)) as [-> |]; [by rewrite set_ph_eq in E2|]. rewrite set_ph_ne in E2 by done. by eapply A7.
  - intros x Hxt E' z. rewrite Hop. destruct (decide (x = c)) as [-> |]; [by rewrite set_ph_eq in E'|]. rewrite set_ph_ne in E' by done. by apply (i_exiting _ _ _ _ I).
  - intros x q. rewrite Hq. intros Hxq%(i_queue _ _ _ _ I). rewrite Hxq. destruct (decide (x = c)) as [-> |]; [by rewrite set_ph_eq, Hph|by rewrite set_ph_ne].
  - intros Hx%Hb. done.
Qed.

(** ** [wait4] *)

(** One task changes, but for its links. *)
Lemma fine_upd s ts ch e b p t t' :
  fine s ts ch e b -> store s !! p = Some t -> lk t' = lk t -> length (handlers (sched t')) = length (handlers (sched t)) ->
  (p ∈ b -> state (sched t') = state (sched t)) -> (forall y, y ∈ wait_chldexit t' -> y = p /\ y ∈ init_task :: ts) ->
  fine (set_store (<[p := t']> (store s)) s) ts ch e b.
Proof.
  intros [[O1 O2 O3 O4] B Q] Ht El Eh Es Hw. set (s' := set_store _ s).
  assert (Hs : forall x u, store s' !! x = Some u -> x = p /\ u = t' \/ store s !! x = Some u).
  { intros x u. unfold s'. cbn [store set_store]. intros [[-> ->]|[_ ?]]%lookup_insert_Some; auto. }
  split; [split; [|by apply (table_ext s)| |done]| |].
  - apply (rep_ext s); [| |done]; intros x.
    + unfold s'. rewrite L_insert. destruct (Z.eqb_spec x p) as [-> |]; [|done]. unfold L. by rewrite Ht.
    + unfold s'. cbn [store set_store]. destruct (decide (x = p)) as [-> |]; [rewrite lookup_insert_eq, Ht; split; eauto|by rewrite lookup_insert_ne].
  - intros x u [[-> ->]|Hu]%Hs; [rewrite Eh|]; by eapply O3.
  - intros x u Hx [[-> ->]|Hu]%Hs; [rewrite Es by done|]; by eapply B.
  - intros x u y [[-> ->]|Hu]%Hs; [apply Hw|by apply Q].
Qed.

Definition waits (f : phase) : Prop := f = Running \/ exists pd options, f = Waiting pd options.

(** Entering and leaving the queue. *)
Lemma inv_queue w ts ch i1 f t :
  let c := current (sy w) in
  inv w ts ch i1 -> waits (ph w c) -> waits f -> store (sy w) !! c = Some t ->
  exists s', upd c (set_wait_chldexit (queue_for f c)) (sy w) = Some s' /\ current s' = c /\
    s' = set_store (<[c := set_wait_chldexit (queue_for f c) t]> (store (sy w))) (sy w) /\
    inv (World s' (set_ph c f (ph w))) ts ch i1.
Proof.
  intros c I Hw Hf Ht. unfold upd. rewrite Ht. eexists. split; [done|]. split; [done|]. split; [done|].
  pose proof (ok_current _ _ _ _ (inv_ok I)) as Hc. fold c in Hc.
  assert (Hff : forking f = false /\ f <> Exiting) by (destruct Hf as [-> |(? & ? & ->)]; done). set (s' := set_store _ _).
  assert (Hs : forall x, x <> c -> store s' !! x = store (sy w) !! x) by (intros x Hx; by apply lookup_insert_ne).
  assert (Hsc : store s' !! c = Some (set_wait_chldexit (queue_for f c) t)) by apply lookup_insert_eq.
  apply (inv_phase_queue w s' ts ch i1 f); try done; try apply Hff.
  - fold c. intros Hz. apply elem_of_cons in Hc as [E|Hct]; [rewrite E in Hz; by apply (i_idle _ _ _ _ I) in Hz|].
    destruct (i_zombie _ _ _ _ I c Hct Hz) as [Hd _]. rewrite Hd in Hw. destruct Hw as [|(? & ? & ?)]; done.
  - intros Hx. by apply Hff in Hx.
  - intros x. unfold s'. rewrite L_insert. destruct (Z.eqb_spec x c) as [-> |]; [|done]. unfold L. by rewrite Ht.
  - intros x. unfold pid_of. destruct (decide (x = c)) as [-> |]; [by rewrite Hsc, Ht|by rewrite Hs].
  - intros x. unfold zombie. destruct (decide (x = c)) as [-> |]; [|by rewrite Hs]. rewrite Hsc, Ht. naive_solver.
  - apply (fine_upd _ ts ch 0 _ c t); try done; [apply I|]. intros y Hy. destruct f; cbn in Hy; try by apply elem_of_nil in Hy.
    apply list_elem_of_singleton in Hy as ->. done.
  - intros x q. unfold queue_of. destruct (decide (x = c)) as [-> |Hx]; [rewrite Hsc, set_ph_eq; by intros [= <-]|].
    rewrite Hs, set_ph_ne by done. apply I.
Qed.

Lemma find_slot_spec l k p :
  p ∈ l -> exists i, find_slot l k p = Some i /\ k <= i /\ l !! Z.to_nat (i - k) = Some p.
Proof.
  revert k. induction l as [|q l IH]; intros k Hp; [by apply elem_of_nil in Hp|]. cbn [find_slot].
  destruct (Z.eqb_spec q p) as [-> |Hq]; [exists k; split; [done|]; split; [lia|]; by rewrite Z.sub_diag|].
  destruct (IH (k + 1)) as (i & -> & Hi & E); [by apply elem_of_cons in Hp as [<- |]|]. exists i. split; [done|]. split; [lia|].
  replace (Z.to_nat (i - k)) with (S (Z.to_nat (i - (k + 1)))) by lia. done.
Qed.

Lemma slot_of w ts ch i1 p :
  inv w ts ch i1 -> p ∈ ts -> exists i, find_slot (drop 1 (tasks (sy w))) 1 p = Some i /\ get (tasks (sy w)) i = Some p.
Proof.
  intros I Hp. destruct (inv_nodup I) as (_ & H0 & Hi). pose proof (ok_table _ _ _ _ (inv_ok I)) as T.
  assert (Hp0 : p <> 0) by (by intros ->). assert (Hin : p ∈ tasks (sy w)) by (apply (table_in _ _ T); [done|by right]).
  assert (Hd : p ∈ drop 1 (tasks (sy w))).
  { pose proof (table_init _ _ T) as T0. destruct (tasks (sy w)) as [|x l]; [done|]. injection T0 as ->. by apply elem_of_cons in Hin as [-> |]. }
  destruct (find_slot_spec _ 1 _ Hd) as (i & -> & Hi1 & E). exists i. split; [done|]. rewrite lookup_drop in E. unfold get.
  destruct (Z.ltb_spec i 0); [lia|]. by replace (Z.to_nat i) with (1 + Z.to_nat (i - 1))%nat by lia.
Qed.

Lemma release_inv w ts ch i1 p :
  inv w ts ch i1 -> p ∈ ts -> zombie (sy w) p -> p <> current (sy w) ->
  exists s' ch', release p (sy w) = Some s' /\ inv (World s' (ph w)) (without p ts) ch' i1 /\ current s' = current (sy w) /\
    store s' !! p = None /\ forall x, x <> p -> strip <$> store s' !! x = strip <$> store (sy w) !! x.
Proof.
  intros I Hp Hz Hc. destruct (i_zombie _ _ _ _ I p Hp Hz) as (_ & Hch & Ho). destruct (inv_nodup I) as (_ & H0 & _).
  destruct (slot_of w ts ch i1 p I Hp) as (i & Hs & Hg). unfold release.
  destruct (Z.eqb_spec p 0) as [-> |]; [done|]. destruct (Z.eqb_spec p (current (sy w))); [done|]. rewrite Hs. cbn [mbind option_bind].
  destruct (inv_remove w ts ch i1 p i) as (l & s1 & k & ch' & -> & E1 & E2 & H); [done..|by apply (zombie_not_built I)|done|].
  cbn [mbind option_bind]. rewrite E1. cbn [mbind option_bind]. rewrite E2. cbn [mbind option_bind]. cbv zeta in H.
  eexists _, ch'. split; [done|]. destruct (Z.eqb_spec p i1) as [-> |]; [|done].
  destruct (inv_init I Hp) as (_ & _ & _ & ? & _). done.
Qed.

Lemma inv_zombie w ts ch i1 x :
  inv w ts ch i1 -> x ∈ init_task :: ts -> ph w x <> Dead -> ~ zombie (sy w) x.
Proof.
  intros I Hx Hd Hz. apply elem_of_cons in Hx as [-> |Hx]; [by apply (i_idle _ _ _ _ I) in Hz|].
  by destruct (i_zombie _ _ _ _ I x Hx Hz) as [? _].
Qed.

(** The report on a dead child. *)
Definition reaped (t : task_struct) : report :=
  Report (pid t) (exit_code (sched t)) (Sys.getrusage (usage_of t) RUSAGE_BOTH 0).2.

(** What becomes of a child that [wait4] reported: the stop of a stopped one counts as
    reported; a dead one is gone, or if it was traced, it is given back to the process
    that created it. *)
Definition collected (p : Z) (s s' : system) : Prop :=
  exists t, store s !! p = Some t /\
    if state (sched t) =? TASK_STOPPED then exists t', store s' !! p = Some t' /\ exit_code (sched t') = 0
    else if p_opptr t =? p_pptr t then store s' !! p = None
    else is_Some (store s' !! p) /\ par s' p = p_opptr t.

Lemma reap_inv w ts ch i1 p t :
  let c := current (sy w) in
  inv w ts ch i1 -> p ∈ ch c -> store (sy w) !! p = Some t -> state (sched t) = TASK_ZOMBIE ->
  exists s' ts' ch', reap p (sy w) = Some (reaped t, s') /\ inv (World s' (ph w)) ts' ch' i1 /\ current s' = c /\
    (p_opptr t = p_pptr t -> ts' = without p ts) /\ collected p (sy w) s'.
Proof.
  intros c I Hpc Ht Hst. apply (ch_par I) in Hpc as [Hp Hpp]. assert (Hz : zombie (sy w) p) by (by exists t).
  assert (Hcp : p <> c). { intros E. pose proof (rep_parent _ _ _ _ _ (inv_rep I) p Hp) as H. apply (ch_not_self I c). unfold par in Hpp. congruence. }
  destruct (inv_dom I c (ok_current _ _ _ _ (inv_ok I))) as [tc Htc]. unfold reap. rewrite Ht. cbn [mbind option_bind]. fold c.
  destruct (quiet_upd (built w ts) c (charge t) (sy w) tc) as (s1 & -> & Q & _); [done|by repeat split|]. cbn [mbind option_bind].
  pose proof (inv_quiet w s1 ts ch i1 I Q) as I1. pose proof (quiet_view _ _ _ Q) as [V1 V2 V3 V4 V5 V6].
  assert (Hz1 : zombie s1 p) by (by apply V5). fold c in V2.
  assert (Ho : p_opptr t = opar s1 p) by (unfold opar; rewrite (quiet_L _ _ _ p Q); unfold L; by rewrite Ht).
  destruct (i_zombie _ _ _ _ I1 p Hp Hz1) as (_ & Hch & Hno).
  destruct (Z.eqb_spec (p_opptr t) (p_pptr t)) as [E|E]; cbn [negb].
  - destruct (release_inv (World s1 (ph w)) ts ch i1 p) as (s2 & ch' & E2 & I2 & Hcur & Hgone & _); [done..|cbn [sy]; congruence|]. cbn [sy] in E2.
    rewrite E2. cbn [mbind option_bind]. exists s2, (without p ts), ch'. split; [done|]. split; [done|]. split; [by rewrite Hcur|]. split; [done|].
    exists t. split; [done|]. rewrite Hst, E, Z.eqb_refl. exact Hgone.
  - assert (Hp1 : p <> i1). { intros ->. destruct (inv_init I1 Hp) as (_ & _ & _ & ? & _). done. }
    destruct (i_opar _ _ _ _ I1 p Hp Hp1) as [Hot Hop]. cbn [sy] in Hot, Hop.
    destruct (inv_relink (World s1 (ph w)) ts ch i1 p (p_opptr t)) as (s2 & ch' & E2 & F2 & I2 & Hpar2); [done..| | | | |]; rewrite ?Ho; try done; cbn [sy].
    + intros Hzo. destruct (i_zombie _ _ _ _ I1 _ Hot Hzo) as (_ & _ & Hn). by apply (Hn p Hp).
    + intros Hb. destruct (built_in I1 _ Hb) as (_ & _ & Hn & _). by apply (Hn p Hp).
    + intros [?|?]%(path_child I1); done.
    + cbn [sy] in E2. rewrite <- Ho, E2. cbn [mbind option_bind].
      destruct (notify_quiet p s2 _ ch' 0 _ (i_fine _ _ _ _ I2)) as (s3 & -> & Q3); [apply elem_of_app; right; left|].
      cbn [mbind option_bind]. pose proof (inv_quiet (World s2 (ph w)) s3 _ ch' i1 I2 Q3) as I3. eexists s3, _, ch'.
      split; [done|]. split; [exact I3|]. split; [|split; [done|]].
      2: { exists t. split; [done|]. rewrite Hst. destruct (Z.eqb_spec (p_opptr t) (p_pptr t)); [done|]. split.
        - apply (inv_dom I3). right. apply elem_of_app. right. left.
        - unfold par. rewrite (quiet_L _ _ _ p Q3). specialize (Hpar2 p). rewrite Z.eqb_refl in Hpar2. exact Hpar2. }
      rewrite (q_current _ _ _ Q3). by rewrite (v_current _ _ (links_view _ _ F2)).
Qed.

(** Whether [wait4] with these arguments, called by [c], reports the child [t]. *)
Definition ready (pd options : Z) (c t : task_struct) : bool :=
  selected pd options c t &&
  (if state (sched t) =? TASK_STOPPED
   then negb (exit_code (sched t) =? 0) && (has options WUNTRACED || has (flags (sched t)) PF_PTRACED)
   else state (sched t) =? TASK_ZOMBIE).

Definition stopped (t : task_struct) : report :=
  Report (pid t) (Z.lor (s32 (Z.shiftl (exit_code (sched t)) 8)) 0x7f) (Sys.getrusage (usage_of t) RUSAGE_BOTH 0).2.

(** The report, and what goes with it. *)
Definition take_report (p : Z) (s : system) : option (report * system) :=
  t ← store s !! p;
  if state (sched t) =? TASK_STOPPED then s ← upd p (on_sched (fun k => set_exit_code k 0)) s; Some (stopped t, s)
  else reap p s.

Lemma first_cons P p l s t :
  store s !! p = Some t -> first P (p :: l) s = if P t then Some p else first P l s.
Proof.
  intros Ht. unfold first. rewrite filter_cons, Ht. cbn [fmap option_fmap option_map]. destruct (P t) eqn:E; by case_decide.
Qed.

Lemma next_sibling w ts ch i1 x p l1 l t :
  inv w ts ch i1 -> ch x = l1 ++ p :: l -> store (sy w) !! p = Some t -> p_osptr t = head0 l.
Proof.
  intros I E Ht. assert (Hp : p ∈ ch x) by (rewrite E; apply elem_of_app; right; left). apply (ch_par I) in Hp as [Hp Hpp].
  pose proof (rep_os _ _ _ _ _ (inv_rep I) p Hp) as Ho. unfold par in Hpp. rewrite Hpp, E in Ho. unfold L in Ho. rewrite Ht in Ho. cbn in Ho.
  unfold p_osptr. rewrite Ho. pose proof (rep_ch_nodup _ _ _ _ _ (inv_rep I) x) as Hnd. rewrite E in Hnd.
  assert (El : l1 ++ p :: l = (l1 ++ [p]) ++ l) by (by rewrite <- app_assoc). rewrite El in *.
  pose proof (next_in_split 0 (l1 ++ [p]) l) as Hs. rewrite last0_snoc in Hs. rewrite Hs; [by destruct l|by destruct l1|done].
Qed.

Lemma wait_scan_first w ts ch i1 c pd options l1 l n flag :
  inv w ts ch i1 -> ch (current (sy w)) = l1 ++ l -> (length l < n)%nat -> store (sy w) !! current (sy w) = Some c ->
  wait_scan n (head0 l) pd options flag (sy w)
  = match first (ready pd options c) l (sy w) with
    | Some p => '(r, s) ← take_report p (sy w); Some (inl r, s)
    | None => Some (inr (flag || bool_decide (is_Some (first (selected pd options c) l (sy w)))), sy w)
    end.
Proof.
  intros I. revert l1 n flag. induction l as [|p l IH]; intros l1 n flag El Hn Hc; (destruct n as [|n]; [simpl in Hn; lia|]).
  { cbn. by rewrite orb_false_r. }
  assert (Hp : p ∈ ch (current (sy w))) by (rewrite El; apply elem_of_app; right; left).
  assert (Hpt : p ∈ ts) by exact (proj1 (proj1 (ch_par I _ p) Hp)). destruct (inv_dom I p) as [t Ht]; [by right|].
  destruct (inv_nodup I) as (_ & H0 & _). cbn [head0 wait_scan length] in *. destruct (Z.eqb_spec p 0) as [-> |]; [done|].
  rewrite Ht, Hc. cbn [mbind option_bind]. rewrite !(first_cons _ p l (sy w) t Ht). rewrite (next_sibling w ts ch i1 _ p l1 l t I El Ht).
  assert (El' : ch (current (sy w)) = (l1 ++ [p]) ++ l) by (by rewrite <- app_assoc).
  assert (Htr : take_report p (sy w) = if state (sched t) =? TASK_STOPPED
    then s ← upd p (on_sched (fun k => set_exit_code k 0)) (sy w); Some (stopped t, s) else reap p (sy w)).
  { unfold take_report. by rewrite Ht. }
  unfold ready at 1. destruct (selected pd options c t); cbn [negb andb].
  - assert (Hsel : bool_decide (is_Some (Some p)) = true) by (by apply bool_decide_eq_true). rewrite Hsel, orb_true_r.
    destruct (state (sched t) =? TASK_STOPPED) eqn:Es.
    + destruct (exit_code (sched t) =? 0), (has options WUNTRACED), (has (flags (sched t)) PF_PTRACED); cbn [negb andb orb];
        rewrite ?(IH (l1 ++ [p]) n true El') by (done || lia); cbn [orb]; rewrite ?Htr; try done;
        by destruct (upd p _ _).
    + destruct (state (sched t) =? TASK_ZOMBIE) eqn:Ez; [by rewrite Htr|].
      rewrite (IH (l1 ++ [p]) n true El') by (done || lia). done.
  - by rewrite (IH (l1 ++ [p]) n flag El') by (done || lia).
Qed.

Lemma take_report_inv w ts ch i1 p t :
  let c := current (sy w) in
  inv w ts ch i1 -> p ∈ ch c -> store (sy w) !! p = Some t -> state (sched t) = TASK_STOPPED \/ state (sched t) = TASK_ZOMBIE ->
  exists s' ts' ch', take_report p (sy w) = Some (if state (sched t) =? TASK_STOPPED then stopped t else reaped t, s') /\
    inv (World s' (ph w)) ts' ch' i1 /\ current s' = c /\ collected p (sy w) s'.
Proof.
  intros c I Hp Ht Hst. unfold take_report. rewrite Ht. cbn [mbind option_bind].
  destruct (Z.eqb_spec (state (sched t)) TASK_STOPPED) as [E|E].
  - destruct (quiet_upd (built w ts) p (on_sched (fun k => set_exit_code k 0)) (sy w) t) as (s1 & -> & Q & Hs1); [done|by repeat split|].
    exists s1, ts, ch. split; [done|]. split; [by apply inv_quiet|]. split; [apply Q|].
    exists t. split; [done|]. rewrite E, Z.eqb_refl. eexists. by split.
  - destruct Hst as [|Hst]; [done|]. destruct (reap_inv w ts ch i1 p t I Hp Ht Hst) as (s' & ts' & ch' & ? & ? & ? & _ & ?). eauto 8.
Qed.

(** What [wait4] finds among the children [l]. *)
Definition found (pd options : Z) (c : task_struct) (l : list Z) (s : system) : option report :=
  match first (ready pd options c) l s with
  | Some p => t ← store s !! p; Some (if state (sched t) =? TASK_STOPPED then stopped t else reaped t)
  | None =>
      if bool_decide (is_Some (first (selected pd options c) l s)) then
        if has options WNOHANG then Some (Report 0 0 None) else None
      else Some (Report (- ECHILD) 0 None)
  end.

(** The child that is reported is taken care of, nobody else than the caller changes when
    none is. *)
Definition settled (pd options : Z) (c : task_struct) (l : list Z) (s s' : system) : Prop :=
  match first (ready pd options c) l s with
  | Some p => collected p s s'
  | None => forall x, x <> current s -> store s' !! x = store s !! x
  end.

Lemma wait_pass_inv w ts ch i1 t pd options :
  let c := current (sy w) in
  inv w ts ch i1 -> ph w c <> Dead -> store (sy w) !! c = Some t ->
  exists s' ts' ch', wait_pass pd options (sy w) = Some (found pd options t (ch c) (sy w), s') /\
    inv (World s' (ph w)) ts' ch' i1 /\ current s' = c /\ settled pd options t (ch c) (sy w) s'.
Proof.
  intros c I Hph Ht. unfold wait_pass, found, settled. rewrite (current_child _ _ _ _ (inv_ok I)). cbn [mbind option_bind]. fold c.
  assert (Hlen : (length (ch c) < S fuel)%nat).
  { pose proof (table_bound _ _ _ _ (inv_rep I) (ok_table _ _ _ _ (inv_ok I))) as Hb. unfold fuel.
    assert (length (ch c) <= length ts)%nat; [|lia]. apply submseteq_length, NoDup_submseteq; [apply (rep_ch_nodup _ _ _ _ _ (inv_rep I))|].
    intros y Hy. by apply (ch_par I) in Hy as [? _]. }
  rewrite (wait_scan_first w ts ch i1 t pd options [] (ch c)); [|done|done|done|done]. cbn [orb].
  pose proof (first_spec (ready pd options t) (ch c) (sy w)) as Hf. destruct (first (ready pd options t) (ch c) (sy w)) as [p|].
  - destruct Hf as (Hp & u & Hu & Hr). destruct (take_report_inv w ts ch i1 p u I Hp Hu) as (s' & ts' & ch' & -> & I' & Hc & Hcol).
    { unfold ready in Hr. apply andb_true_iff in Hr as [_ Hr]. destruct (Z.eqb_spec (state (sched u)) TASK_STOPPED); [by left|right].
      by apply Z.eqb_eq. }
    cbn [mbind option_bind]. rewrite Hu. cbn [mbind option_bind]. eauto 8.
  - cbn [mbind option_bind]. case_bool_decide; [|exists (sy w), ts, ch; by destruct w].
    destruct (has options WNOHANG); [exists (sy w), ts, ch; by destruct w|].
    destruct (quiet_upd (built w ts) c (set_state TASK_INTERRUPTIBLE) (sy w) t) as (s1 & E1 & Q & _); [done| |].
    + rewrite (bool_decide_false (c ∈ _)) by apply (i_current _ _ _ _ I). repeat split; try done. intros Hz. exfalso.
      apply (inv_zombie w ts ch i1 c I); [apply (ok_current _ _ _ _ (inv_ok I))|done|by exists t].
    + fold c. rewrite E1. cbn [mbind option_bind]. exists s1, ts, ch. split; [done|]. split; [by apply inv_quiet|]. split; [apply Q|].
      intros x Hx. unfold upd in E1. rewrite Ht in E1. injection E1 as <-. cbn. by rewrite lookup_insert_ne.
Qed.

(** The end of [wait4], with the report or asleep. *)
Lemma wait_leave_inv w ts ch i1 r pd options :
  let c := current (sy w) in
  inv w ts ch i1 -> ph w c = Waiting pd options ->
  exists s', wait_leave r (sy w) = Some (r, s') /\ inv (World s' (set_ph c (waited r pd options) (ph w))) ts ch i1
    /\ forall x, x <> c -> store s' !! x = store (sy w) !! x.
Proof.
  intros c I Hph. destruct (inv_dom I c (ok_current _ _ _ _ (inv_ok I))) as [t Ht]. unfold wait_leave. destruct r as [r|]; cbn [waited].
  - destruct (inv_queue w ts ch i1 Running t) as (s' & E & _ & Es & I'); [done|right; eauto|by left|done|]. cbn [queue_for] in E.
    assert (Hw : wait_chldexit t = [c]) by (rewrite (i_queue _ _ _ _ I c (wait_chldexit t)); [by rewrite Hph|unfold queue_of; by rewrite Ht]).
    assert (Eu : upd c (fun t => set_wait_chldexit (filter (fun x => x <> c) (wait_chldexit t)) t) (sy w) = Some s').
    { fold c in E. rewrite <- E. unfold upd. rewrite Ht. cbn. rewrite Hw. rewrite filter_cons_False, filter_nil; [done|]. intros X. by apply X. }
    fold c. rewrite Eu. cbn [mbind option_bind]. exists s'. split; [done|]. split; [done|].
    intros x Hx. rewrite Es. cbn. by rewrite lookup_insert_ne.
  - exists (sy w). split; [done|]. split; [|done]. destruct w as [s f]. cbn [sy ph] in *. eapply inv_ext; [|exact I]. intros x. unfold set_ph.
    destruct (Z.eqb_spec x c) as [-> |]; done.
Qed.

(** The caller's own entry does not matter. *)
Lemma collected_ext p s s1 s' s2 : store s1 !! p = store s !! p -> store s2 !! p = store s' !! p -> collected p s s' -> collected p s1 s2.
Proof.
  intros E E' (t & Ht & H). exists t. split; [by rewrite E|]. unfold par, L in *. by rewrite E'.
Qed.

Lemma wait_rest_inv w ts ch i1 t pd options :
  let c := current (sy w) in
  inv w ts ch i1 -> ph w c = Waiting pd options -> store (sy w) !! c = Some t ->
  exists s' ts' ch', ('(r, s) ← wait_pass pd options (sy w); wait_leave r s) = Some (found pd options t (ch c) (sy w), s') /\
    inv (World s' (set_ph c (waited (found pd options t (ch c) (sy w)) pd options) (ph w))) ts' ch' i1 /\ settled pd options t (ch c) (sy w) s'.
Proof.
  intros c I Hph Ht. destruct (wait_pass_inv w ts ch i1 t pd options I) as (s1 & ts1 & ch1 & -> & I1 & Hc & S1); [fold c; by rewrite Hph|done|].
  cbn [mbind option_bind]. fold c. destruct (wait_leave_inv (World s1 (ph w)) ts1 ch1 i1 (found pd options t (ch c) (sy w)) pd options) as (s2 & E2 & I2 & O2);
    [done|cbn [sy ph]; by rewrite Hc|]. cbn [sy ph] in *. rewrite E2. rewrite Hc in I2, O2. exists s2, ts1, ch1. split; [done|]. split; [done|].
  unfold settled in *. fold c in S1. pose proof (first_spec (ready pd options t) (ch c) (sy w)) as Hf. destruct (first _ (ch c) (sy w)) as [p|].
  - apply (collected_ext p (sy w) _ s1); [done| |done]. apply O2. intros ->. destruct Hf as [Hf _]. by apply (ch_not_self I c).
  - intros x Hx. rewrite O2, S1 by done. done.
Qed.

Lemma first_ext P P' l s s' :
  (forall p, p ∈ l -> store s' !! p = store s !! p) -> (forall t, P' t = P t) -> first P' l s' = first P l s.
Proof.
  intros Hs HP. unfold first. f_equal. induction l as [|p l IH]; [done|]. rewrite !filter_cons, Hs by left.
  rewrite IH by (intros q Hq; apply Hs; by right). destruct (store s !! p) as [t|]; cbn; [by rewrite HP|done].
Qed.

Lemma found_ext pd options c c' l s s' :
  (forall p, p ∈ l -> store s' !! p = store s !! p) -> pgrp c' = pgrp c -> found pd options c' l s' = found pd options c l s.
Proof.
  intros Hs Hc. assert (Hsel : forall t, selected pd options c' t = selected pd options c t) by (intros t; unfold selected; by rewrite Hc).
  unfold found. rewrite (first_ext (selected pd options c) (selected pd options c') l s s') by done.
  rewrite (first_ext (ready pd options c) (ready pd options c') l s s'); [|done|intros t; unfold ready; by rewrite Hsel].
  pose proof (first_spec (ready pd options c) l s) as Hf. destruct (first _ l s) as [p|]; [|done]. by rewrite Hs by apply Hf.
Qed.

Lemma wait_start_inv w ts ch i1 t verify pd options :
  let c := current (sy w) in
  inv w ts ch i1 -> ph w c = Running -> store (sy w) !! c = Some t ->
  exists r s' ts' ch', wait_start verify pd options (sy w) = Some (r, s') /\
    inv (World s' (set_ph c (waited r pd options) (ph w))) ts' ch' i1 /\
    r = (if verify =? 0 then found pd options t (ch c) (sy w) else Some (Report verify 0 None)) /\
    (verify = 0 -> settled pd options t (ch c) (sy w) s').
Proof.
  intros c I Hph Ht. unfold wait_start. destruct (Z.eqb_spec verify 0) as [-> |Hv]; cbn [negb].
  - destruct (inv_queue w ts ch i1 (Waiting pd options) t) as (s1 & E1 & Hc & Es & I1); [done|by left|right; eauto|done|]. fold c in E1, Hc, I1.
    assert (Hw : wait_chldexit t = []) by (rewrite (i_queue _ _ _ _ I c (wait_chldexit t)); [by rewrite Hph|unfold queue_of; by rewrite Ht]).
    assert (Eu : upd (current (sy w)) (fun t => set_wait_chldexit (current (sy w) :: wait_chldexit t) t) (sy w) = Some s1).
    { rewrite <- E1. fold c. unfold upd. rewrite Ht. cbn. by rewrite Hw. }
    rewrite Eu. cbn [mbind option_bind]. set (t1 := set_wait_chldexit [c] t).
    assert (Ht1 : store s1 !! current s1 = Some t1) by (rewrite Hc, Es; apply lookup_insert_eq).
    destruct (wait_rest_inv (World s1 (set_ph c (Waiting pd options) (ph w))) ts ch i1 t1 pd options) as (s2 & ts2 & ch2 & E2 & I2 & S2);
      [done|cbn [sy ph]; rewrite Hc; apply set_ph_eq|done|]. cbn [sy ph] in E2, I2, S2. rewrite E2.
    assert (Eo : forall p, p ∈ ch c -> store s1 !! p = store (sy w) !! p).
    { intros p Hp. rewrite Es. cbn [store set_store]. apply lookup_insert_ne. intros E. fold c in E. rewrite E in Hp. by apply (ch_not_self I p). }
    assert (Ef : found pd options t1 (ch (current s1)) s1 = found pd options t (ch c) (sy w)).
    { rewrite Hc. apply found_ext; [|done]. intros p Hp. by apply Eo. }
    rewrite Ef in *. eexists _, s2, ts2, ch2. split; [done|]. split; [|split; [done|intros _]].
    + rewrite Hc in I2. eapply inv_ext; [|exact I2]. intros x. unfold set_ph. by destruct (x =? c).
    + unfold settled in *. rewrite Hc in S2. rewrite (first_ext (ready pd options t) (ready pd options t1) (ch c) (sy w) s1 Eo) in S2 by done.
      pose proof (first_spec (ready pd options t) (ch c) (sy w)) as Hf. destruct (first _ (ch c) (sy w)) as [p|].
      * apply (collected_ext p s1 _ s2); [symmetry; apply Eo, Hf|done|done].
      * intros x Hx. rewrite S2 by done. rewrite Es. cbn [store set_store]. by apply lookup_insert_ne.
  - exists (Some (Report verify 0 None)), (sy w), ts, ch. split; [done|]. split; [|split; [done|by intros ->]]. cbn [waited]. destruct w as [s f]. cbn [sy ph] in *.
    eapply inv_ext; [|exact I]. intros x. unfold set_ph. destruct (Z.eqb_spec x c) as [-> |]; done.
Qed.

Lemma wait_resume_inv w ts ch i1 pd options :
  let c := current (sy w) in
  inv w ts ch i1 -> ph w c = Waiting pd options ->
  exists r s' ts' ch', wait_resume pd options (sy w) = Some (r, s') /\ inv (World s' (set_ph c (waited r pd options) (ph w))) ts' ch' i1.
Proof.
  intros c I Hph. destruct (inv_dom I c (ok_current _ _ _ _ (inv_ok I))) as [t Ht]. unfold wait_resume. fold c.
  destruct (quiet_upd (built w ts) c (on_sched (fun k => set_signal k (Z.land (signal k) (Z.lnot (sigmask SIGCHLD))))) (sy w) t) as (s1 & -> & Q & Ht1);
    [done|by repeat split|]. cbn [mbind option_bind]. pose proof (inv_quiet w s1 ts ch i1 I Q) as I1. pose proof (q_current _ _ _ Q) as Hc. fold c in Hc.
  unfold rd. rewrite Hc, Ht1. cbn [fmap option_fmap option_map mbind option_bind].
  destruct (_ =? 0); cbn [negb].
  - edestruct (wait_rest_inv (World s1 (ph w)) ts ch i1) as (s2 & ts2 & ch2 & E2 & I2 & _); [exact I1|cbn [sy ph]; rewrite Hc; exact Hph|cbn [sy]; rewrite Hc; exact Ht1|].
    cbn [sy ph] in E2, I2. rewrite Hc in E2, I2. eexists _, s2, ts2, ch2. split; [exact E2|exact I2].
  - destruct (wait_leave_inv (World s1 (ph w)) ts ch i1 (Some (Report (- ERESTARTSYS) 0 None)) pd options I1) as (s2 & E2 & I2 & _); [cbn [sy ph]; by rewrite Hc|].
    cbn [sy ph] in *. rewrite E2. rewrite Hc in I2. eauto 6.
Qed.

(** ** [ptrace] *)

Lemma get_task_spec w ts ch i1 pd :
  inv w ts ch i1 -> exists p, get_task pd (sy w) = Some p /\ (p = 0 \/ p ∈ ts /\ pid_of (sy w) p = Some pd).
Proof.
  intros I. unfold get_task. pose proof (ok_table _ _ _ _ (inv_ok I)) as T. destruct (inv_nodup I) as (_ & _ & Hi).
  assert (Hl : forall p, p ∈ drop 1 (tasks (sy w)) -> p <> 0 -> p ∈ ts).
  { intros p [i Hp]%list_elem_of_lookup Hp0. rewrite lookup_drop in Hp.
    assert (Hin : p ∈ init_task :: ts) by (apply (table_in _ _ T); [done|by eapply list_elem_of_lookup_2]).
    apply elem_of_cons in Hin as [-> |]; [|done]. pose proof (table_once _ _ T _ _ _ Hp0 (table_init _ _ T) Hp). lia. }
  induction (drop 1 (tasks (sy w))) as [|p l IH]; cbn [get_task_loop]; [eauto|].
  assert (IH' : exists q, get_task_loop l pd (sy w) = Some q /\ (q = 0 \/ q ∈ ts /\ pid_of (sy w) q = Some pd)) by (apply IH; intros q Hq; apply Hl; by right).
  destruct (Z.eqb_spec p 0) as [|Hp]; [done|]. assert (Hpt : p ∈ ts) by (apply Hl; [left|done]). destruct (inv_dom I p) as [t Ht]; [by right|].
  rewrite Ht. cbn [mbind option_bind]. destruct (Z.eqb_spec (pid t) pd) as [E|]; [|done]. exists p. split; [done|]. right. split; [done|].
  unfold pid_of. by rewrite Ht, <- E.
Qed.

(** Nobody becomes the parent of its own ancestor. *)
Definition no_cycle (p q : Z) (s : system) : Prop := forall i1, get (tasks s) 1 = Some i1 -> ~ rtc (up s i1) q p.

Lemma attach_inv w ts ch i1 pd :
  let c := current (sy w) in
  inv w ts ch i1 -> c <> init_task -> ph w c = Running ->
  (forall p, get_task pd (sy w) = Some p -> no_cycle p c (sy w)) ->
  exists r s' ts' ch', ptrace_attach pd (sy w) = Some (r, s') /\ inv (World s' (ph w)) ts' ch' i1.
Proof.
  intros c I Hi Hph Hcyc. unfold ptrace_attach. assert (Hsame : forall r : Z, exists r' s' ts' ch', Some (r, sy w) = Some (r', s') /\ inv (World s' (ph w)) ts' ch' i1).
  { intros r. exists r, (sy w), ts, ch. by destruct w. }
  destruct (Z.eqb_spec pd 1) as [|Hpd]; [apply Hsame|]. destruct (get_task_spec w ts ch i1 pd I) as (p & Hg & Hp). rewrite Hg. cbn [mbind option_bind].
  destruct (Z.eqb_spec p 0) as [|Hp0]; [apply Hsame|]. destruct Hp as [|[Hp Hpid]]; [done|]. destruct (Z.eqb_spec p (current (sy w))) as [|Hpc]; [apply Hsame|].
  pose proof (ok_current _ _ _ _ (inv_ok I)) as Hc. fold c in Hc, Hpc. destruct (inv_in I c Hc Hi) as (Hct & H1 & _). destruct (inv_dom I c Hc) as [tc Htc].
  destruct (inv_dom I p) as [t Ht]; [by right|]. fold c. rewrite Htc, Ht. cbn [mbind option_bind]. destruct (_ && _); [apply Hsame|].
  destruct (has _ _); [apply Hsame|].
  assert (Hp1 : p <> i1). { intros ->. destruct (inv_init I H1) as (_ & _ & Hpid1 & _). rewrite Hpid in Hpid1. congruence. }
  destruct (quiet_upd (built w ts) p (on_sched (fun k => set_flags (Z.lor (flags k) PF_PTRACED) k)) (sy w) t) as (s1 & -> & Q & Ht1);
    [done|by repeat split|]. cbn [mbind option_bind]. pose proof (inv_quiet w s1 ts ch i1 I Q) as I1. pose proof (q_current _ _ _ Q) as Hc1. fold c in Hc1.
  assert (exists s2 ts2 ch2, (if negb (p_pptr t =? current s1) then relink p (current s1) s1 else Some s1) = Some s2 /\ p ∈ ts2 /\ inv (World s2 (ph w)) ts2 ch2 i1)
    as (s2 & ts2 & ch2 & -> & Hp2 & I2).
  { destruct (negb _); [|by exists s1, ts, ch]. rewrite Hc1.
    destruct (inv_relink (World s1 (ph w)) ts ch i1 p c) as (s2 & ch2 & E2 & F2 & I2 & _); [done|done|done|done| | | |]; cbn [sy].
    - apply (inv_zombie (World s1 (ph w)) ts ch i1); [done|done|cbn [ph]; by rewrite Hph].
    - pose proof (i_current _ _ _ _ I1) as H. cbn [sy] in H. by rewrite Hc1 in H.
    - intros Hr. apply (Hcyc p Hg i1 (i_slot1 _ _ _ _ I)). revert Hr. apply rtc_subrel. intros a z. unfold up, par. by rewrite (quiet_L _ _ _ a Q).
    - cbn [sy] in E2. exists s2, (without p ts ++ [p]), ch2. split; [done|]. split; [|done]. apply elem_of_app. right. left. }
  cbn [mbind option_bind]. destruct (send_sig_quiet (built (World s2 (ph w)) ts2) SIGSTOP p true s2 ts2 ch2 0) as (r & s3 & -> & Q3);
    [apply I2|apply I2|done|by right|]. cbn [mbind option_bind]. eexists _, s3, ts2, ch2. split; [done|]. by apply (inv_quiet (World s2 (ph w))).
Qed.

Lemma detach_inv w ts ch i1 pd data :
  let c := current (sy w) in
  inv w ts ch i1 ->
  (forall p, get_task pd (sy w) = Some p -> no_cycle p (opar (sy w) p) (sy w)) ->
  exists r s' ts' ch', ptrace_detach pd data (sy w) = Some (r, s') /\ inv (World s' (ph w)) ts' ch' i1.
Proof.
  intros c I Hcyc. unfold ptrace_detach. assert (Hsame : forall r : Z, exists r' s' ts' ch', Some (r, sy w) = Some (r', s') /\ inv (World s' (ph w)) ts' ch' i1).
  { intros r. exists r, (sy w), ts, ch. by destruct w. }
  destruct (Z.eqb_spec pd 1) as [|Hpd]; [apply Hsame|]. destruct (get_task_spec w ts ch i1 pd I) as (p & Hg & Hp). rewrite Hg. cbn [mbind option_bind].
  destruct (Z.eqb_spec p 0) as [|Hp0]; [apply Hsame|]. destruct Hp as [|[Hp Hpid]]; [done|].
  destruct (inv_dom I p) as [t Ht]; [by right|]. unfold ptrace_check. rewrite Ht. cbn [mbind option_bind].
  destruct (negb (has _ _)); [cbn; apply Hsame|]. destruct (Z.eqb_spec (state (sched t)) TASK_STOPPED) as [Hst|]; cbn [negb andb]; [|cbn; apply Hsame].
  destruct (negb _); [cbn; apply Hsame|]. cbn [mbind option_bind Z.eqb negb]. destruct (32 <? u32 data); [apply Hsame|].
  assert (Hp1 : p <> i1). { intros ->. destruct (inv_init I Hp) as (_ & _ & Hpid1 & _). rewrite Hpid in Hpid1. congruence. }
  assert (Hpb : p ∉ built w ts). { intros Hb. pose proof (built_state I p t Hb Ht) as Hu. by rewrite Hst in Hu. }
  match goal with |- context [upd p ?f _] => destruct (quiet_upd (built w ts) p f (sy w) t) as (s1 & -> & Q & Ht1) end.
  { done. }
  { rewrite bool_decide_false by done. repeat split; try done. cbn. rewrite Hst. done. }
  cbn [mbind option_bind]. pose proof (inv_quiet w s1 ts ch i1 I Q) as I1.
  assert (Ho : rd p p_opptr s1 = Some (opar s1 p)) by (unfold rd, opar, L; by rewrite Ht1). rewrite Ho. cbn [mbind option_bind].
  destruct (i_opar _ _ _ _ I1 p Hp Hp1) as [Hot Hop]. cbn [sy] in Hot, Hop.
  destruct (inv_relink (World s1 (ph w)) ts ch i1 p (opar s1 p)) as (s2 & ch2 & E2 & F2 & I2 & _); [done|done|done|done| | | |]; cbn [sy].
  - intros Hzo. destruct (i_zombie _ _ _ _ I1 _ Hot Hzo) as (_ & _ & Hn). by apply (Hn p Hp).
  - intros Hb. destruct (built_in I1 _ Hb) as (_ & _ & Hn & _). by apply (Hn p Hp).
  - intros Hr. apply (Hcyc p Hg i1 (i_slot1 _ _ _ _ I)). assert (E : opar (sy w) p = opar s1 p) by (unfold opar; by rewrite (quiet_L _ _ _ p Q)).
    rewrite E. revert Hr. apply rtc_subrel. intros a z. unfold up, par. by rewrite (quiet_L _ _ _ a Q).
  - cbn [sy] in E2. rewrite E2. cbn [mbind option_bind]. eauto 6.
Qed.

(** A [SIGCONT] to a process that is dead and not yet waited for, from anyone who
    may send it, replaces its exit status by 0: it is this status that [wait4]
    then reports. *)
Theorem sigcont_clears_status s p priv c t :
  store s !! current s = Some c -> store s !! p = Some t -> p <> 0 -> length (handlers (sched t)) = 32%nat ->
  state (sched t) = TASK_ZOMBIE -> priv || may_signal SIGCONT c t = true ->
  exists s' t', send_sig SIGCONT p priv s = Some (0, s') /\ store s' !! p = Some t' /\ state (sched t') = TASK_ZOMBIE /\
    pid t' = pid t /\ exit_code (sched t') = 0 /\ status (reaped t') = 0.
Proof.
  intros Hc Ht Hp Hh Hz Hok. unfold send_sig. apply Z.eqb_neq in Hp as ->. rewrite Hc, Ht. cbn [mbind option_bind].
  assert (exists k, Sched.send_sig SIGCONT (sched t) priv (may_signal SIGCONT c t) = Some (0, k) /\ state k = TASK_ZOMBIE /\ exit_code k = 0) as (k & -> & Ek & Ec).
  { unfold Sched.send_sig. change (32 <? SIGCONT) with false. cbv iota.
    replace (negb priv && negb (may_signal SIGCONT c t)) with false by (destruct priv, (may_signal SIGCONT c t); done).
    change (SIGCONT =? 0) with false. change ((SIGCONT =? SIGKILL) || (SIGCONT =? SIGCONT)) with true.
    change ((SIGSTOP <=? SIGCONT) && (SIGCONT <=? SIGTTOU)) with false. cbv iota zeta. rewrite Hz. change (TASK_ZOMBIE =? TASK_STOPPED) with false. cbv iota.
    match goal with |- context [generate SIGCONT ?k0] => destruct (generate_spec SIGCONT k0) as (r & k' & -> & Hk) end; [by compute|done|].
    cbn [mbind option_bind]. exists k'. split; [done|]. destruct Hk as [-> | ->]; done. }
  cbn [mbind option_bind]. unfold upd. rewrite Ht. cbn [mbind option_bind]. eexists _, (set_sched k t). split; [done|].
  split; [apply lookup_insert_eq|]. cbn. done.
Qed.

End ProcsSafe.
