(* ===== verification/ProcsBorn.v ===== *)
(** * [fork] is safe

    The parts of [fork] in a state with the invariant of [ProcsStep]. *)

From S2P Require Import Prelude Sched Sys Dll Tasks Kill Procs ProcsFork ProcsInv ProcsStep ProcsSafe.
From Stdlib Require Import ZArith Lia.
From stdpp Require Import base list gmap sets relations.
Local Open Scope Z_scope.

Module ProcsBorn.
Import Sched Tasks Kill Procs ProcsFork ProcsInv ProcsStep ProcsSafe.

Lemma fork_stack_inv w ts ch i1 nr p stack flags :
  let c := current (sy w) in
  inv w ts ch i1 -> ph w c = Forking nr p ->
  exists s', fork_stack stack flags p (sy w) = Some s' /\ inv (World s' (ph w)) ts ch i1.
Proof.
  intros c I Hph. destruct (i_built _ _ _ _ I c nr p (ok_current _ _ _ _ (inv_ok I)) Hph) as (Hp & _).
  destruct (inv_dom I p) as [t Ht]; [by right|]. unfold fork_stack.
  match goal with |- context [upd p ?f _] => destruct (quiet_upd (built w ts) p f (sy w) t) as (s1 & -> & Q & _) end; [done|by repeat split|].
  exists s1. split; [done|by apply inv_quiet].
Qed.

(** The process that forked goes on; nobody builds [p] any more. *)
Lemma forked_phase w ts ch i1 nr p :
  let c := current (sy w) in let w' := World (sy w) (set_ph c Running (ph w)) in
  inv w ts ch i1 -> ph w c = Forking nr p -> inv w' ts ch i1 /\ p ∉ built w' ts.
Proof.
  intros c w' I Hph. pose proof (ok_current _ _ _ _ (inv_ok I)) as Hc. split.
  - apply (inv_phase w ts ch i1 Running); fold c; try done; [apply (inv_zombie w ts ch i1); [done|done|by rewrite Hph]|by rewrite Hph].
  - intros (c' & nr' & Hne & Hc' & E)%built_set_ph; [|done]. destruct (i_built _ _ _ _ I c nr p Hc Hph) as (_ & _ & _ & _ & _ & _ & Hu).
    by apply Hne, (Hu c' nr').
Qed.

Lemma fork_end_inv w ts ch i1 nr p :
  let c := current (sy w) in
  inv w ts ch i1 -> ph w c = Forking nr p ->
  exists r s', fork_end p (sy w) = Some (r, s') /\ pid_of (sy w) p = Some r /\ inv (World s' (set_ph c Running (ph w))) ts ch i1.
Proof.
  intros c I Hph. destruct (forked_phase w ts ch i1 nr p I Hph) as [I1 Hpb]. pose proof (ok_current _ _ _ _ (inv_ok I)) as Hc.
  destruct (i_built _ _ _ _ I c nr p Hc Hph) as (Hp & _). destruct (inv_dom I p) as [t Ht]; [by right|]. destruct (inv_dom I c Hc) as [tc Htc].
  assert (Hst : state (sched t) = TASK_UNINTERRUPTIBLE) by (apply (built_state I p t); [apply built_elem; eauto|done]).
  unfold fork_end. fold c. rewrite Htc. cbn [mbind option_bind].
  match goal with |- context [upd p ?f _] => destruct (quiet_upd (built (World (sy w) (set_ph c Running (ph w))) ts) p f (sy w) t) as (s1 & -> & Q & Ht1) end.
  { done. }
  { rewrite bool_decide_false by done. repeat split; try done. cbn. by rewrite Hst. }
  cbn [mbind option_bind]. unfold rd. rewrite Ht1. cbn [fmap option_fmap option_map mbind option_bind]. eexists _, s1. split; [done|].
  split; [unfold pid_of; by rewrite Ht|]. by apply (inv_quiet (World (sy w) (set_ph c Running (ph w)))).
Qed.

Lemma fork_fail_inv w ts ch i1 nr p :
  let c := current (sy w) in
  inv w ts ch i1 -> ph w c = Forking nr p ->
  exists s' ch' i1', fork_fail nr p (sy w) = Some (- EAGAIN, s') /\ inv (World s' (set_ph c Running (ph w))) (without p ts) ch' i1' /\
    store s' !! p = None.
Proof.
  intros c I Hph. destruct (forked_phase w ts ch i1 nr p I Hph) as [I1 Hpb]. pose proof (ok_current _ _ _ _ (inv_ok I)) as Hc.
  destruct (i_built _ _ _ _ I c nr p Hc Hph) as (Hp & Hpc & Hch & Ho & Hg & _).
  destruct (inv_remove (World (sy w) (set_ph c Running (ph w))) ts ch i1 p nr) as (l & s1 & k & ch' & E0 & E1 & E2 & I2 & _ & Hn & _); [done..|].
  cbn [sy] in *. unfold fork_fail. rewrite E0. cbn [mbind option_bind]. rewrite E1. cbn [mbind option_bind]. rewrite E2. cbn [mbind option_bind]. eauto 6.
Qed.

(** ** The new task *)

Lemma fine_rest s s' ts ch e b :
  store s' = store s -> tasks s' = tasks s -> current s' = current s -> fine s ts ch e b -> fine s' ts ch e b.
Proof.
  intros E1 E2 E3 [[O1 O2 O3 O4] B Q]. split; [split| |]; unfold actions_ok, building, queues_in in *; rewrite ?E1, ?E3; try done.
  - apply (rep_ext s); [|by rewrite E1|done]. intros x. unfold L. by rewrite E1.
  - by apply (table_ext s).
Qed.

Lemma inv_rest w s' ts ch i1 :
  inv w ts ch i1 -> store s' = store (sy w) -> tasks s' = tasks (sy w) -> current s' = current (sy w) -> 0 <= last_pid s' <= 32767 ->
  inv (World s' (ph w)) ts ch i1.
Proof.
  intros I E1 E2 E3 Hl. assert (HL : forall x, L s' x = L (sy w) x) by (intros x; unfold L; by rewrite E1).
  pose proof (fine_rest _ _ _ _ _ _ E1 E2 E3 (i_fine _ _ _ _ I)) as F.
  assert (Hup : forall y, y ∈ ts -> rtc (up s' i1) y i1) by (intros y; apply (inv_up I); intros a _ _; left; unfold par; by rewrite HL).
  assert (Hb : built (World s' (ph w)) ts = built w ts) by done. destruct I.
  unfold par, opar, pid_of, queue_of, zombie in *. split; cbn [sy ph]; unfold par, opar, pid_of, queue_of, zombie; rewrite ?Hb, ?E1, ?E2, ?E3, ?HL; try done.
  - intros y Hy. rewrite HL. by apply i_opar0.
  - intros y Hy Hz. destruct (i_zombie0 y Hy Hz) as (? & ? & H). split; [done|]. split; [done|]. intros z. rewrite HL. apply H.
  - intros c nr p Hc Hf. destruct (i_built0 c nr p Hc Hf) as (? & ? & ? & H & ?). do 3 (split; [done|]). split; [|done]. intros z. rewrite HL. apply H.
  - intros c Hc Hf z. rewrite HL. by apply i_exiting0.
Qed.

Lemma table_insert s s' ts nr p :
  table s ts -> (1 <= nr)%nat -> tasks s !! nr = Some 0 -> p <> 0 -> p ∉ init_task :: ts -> tasks s' = <[nr := p]> (tasks s) ->
  table s' (ts ++ [p]).
Proof.
  intros [T1 T2 T3 T4] Hn H0 Hp0 Hp E. pose proof (lookup_lt_Some _ _ _ H0) as Hlt.
  assert (Hl : forall j q, tasks s' !! j = Some q <-> j = nr /\ q = p \/ j <> nr /\ tasks s !! j = Some q).
  { intros j q. rewrite E, list_lookup_insert_Some. naive_solver. }
  assert (Hnp : forall j, tasks s !! j <> Some p). { intros j Hj. apply Hp, T3; [done|]. by eapply list_elem_of_lookup_2. }
  split.
  - by rewrite E, length_insert.
  - apply Hl. right. split; [lia|done].
  - intros q Hq. rewrite app_comm_cons, elem_of_app, list_elem_of_singleton, <- T3, !list_elem_of_lookup by done. split.
    + intros [j [[_ ->]|[_ Hj]]%Hl]; eauto.
    + intros [[j Hj]| ->]; [|exists nr; apply Hl; by left]. exists j. apply Hl. right. split; [|done]. intros ->. congruence.
  - intros i j q Hq [[-> ->]|[Hi Hiq]]%Hl [[-> Eq]|[Hj Hjq]]%Hl; [done|by apply Hnp in Hjq|subst q; by apply Hnp in Hiq|by eapply T4].
Qed.

(** From [task[nr] = p] to the last assignment before [fork] can sleep. *)
Lemma fork_link b s ts ch nr p c lp :
  fine s ts ch 0 b -> p <> 0 -> store s !! p = None -> store s !! current s = Some c -> wait_chldexit c = [] ->
  1 <= nr -> get (tasks s) nr = Some 0 ->
  exists l s', put (tasks s) nr p = Some l /\
    (s ← SET_LINKS p (set_store (<[p := child_of c (current s) lp]> (store s)) (set_tasks l s)); upd p fork_reset s) = Some s' /\
    fine s' (ts ++ [p]) (fun x => if x =? current s then p :: ch x else ch x) 0 (p :: b) /\
    tasks s' = l /\ current s' = current s /\ last_pid s' = last_pid s /\
    par s' p = current s /\ opar s' p = current s /\ pid_of s' p = Some lp /\ (~ zombie s' p) /\ queue_of s' p = Some [] /\
    forall x, x <> p -> opar s' x = opar s x /\ par s' x = par s x /\ strip <$> store s' !! x = strip <$> store s !! x.
Proof.
  intros F Hp0 Hn Hc Hw Hnr Hg. pose proof (fine_ok _ _ _ _ _ F) as [O1 O2 O3 O4].
  assert (Hput : put (tasks s) nr p = Some (<[Z.to_nat nr := p]> (tasks s))) by (apply put_in_range; by apply get_Some_range in Hg).
  assert (Hpr : p ∉ init_task :: ts). { intros Hin. destruct (ok_dom s ts ch 0 p (fine_ok _ _ _ _ _ F) Hin) as [? ?]. congruence. }
  set (l := <[Z.to_nat nr := p]> (tasks s)) in *. set (t := child_of c (current s) lp). set (s1 := set_store (<[p := t]> (store s)) (set_tasks l s)).
  assert (R1 : rep s1 ts [p] ch 0) by (apply (rep_new (set_tasks l s)); [by apply (rep_ext s)|done..]).
  assert (Lp : L s1 p = lk t) by (unfold s1; rewrite (L_insert (set_tasks l s)), Z.eqb_refl; done).
  assert (Epp : l_p_pptr (L s1 p) = current s) by (by rewrite Lp).
  destruct (SET_LINKS_rep p s1 ts ch R1) as (s2 & E2 & F2 & P2 & R2); [by rewrite Epp|]. rewrite Epp in R2.
  assert (Ht1 : store s1 !! p = Some t) by apply lookup_insert_eq.
  destruct (links_only_back _ _ _ _ F2 Ht1) as (t2 & Ht2 & Es2). injection Es2 as Es Ep _ _ _ _ _ _ _ _ _ _ Ew. cbn in Ep, Ew.
  exists l, (set_store (<[p := fork_reset t2]> (store s2)) s2). split; [done|]. split; [fold t; fold s1; rewrite E2; cbn [mbind option_bind]; unfold upd; by rewrite Ht2|].
  pose proof (lo_rest _ _ F2) as Hr. unfold rest in Hr. injection Hr as V1 V2 V3 _ _ _. cbn in V1, V2, V3.
  assert (HL : forall x, L (set_store (<[p := fork_reset t2]> (store s2)) s2) x = L s2 x).
  { intros x. rewrite L_insert. destruct (Z.eqb_spec x p) as [-> |]; [|done]. unfold L. by rewrite Ht2. }
  assert (Hx : forall x u, x <> p -> store s2 !! x = Some u -> exists u0, store s !! x = Some u0 /\ strip u = strip u0).
  { intros x u Hxp Hu. destruct (links_only_some _ _ _ _ F2 Hu) as (u0 & Hu0 & E). exists u0. split; [|done]. unfold s1 in Hu0. cbn in Hu0. by rewrite lookup_insert_ne in Hu0. }
  assert (Hin : forall x, x ∈ init_task :: ts -> x ∈ init_task :: ts ++ [p]) by (intros x; rewrite app_comm_cons, elem_of_app; by left).
  assert (F3 : fine s2 (ts ++ [p]) (fun x => if x =? current s then p :: ch x else ch x) 0 (p :: b)).
  { split; [split; [done| | |]| |].
    - apply (table_insert s s2 ts (Z.to_nat nr) p); [done|lia| |done|done|by rewrite V1]. unfold get in Hg. by destruct (nr <? 0).
    - intros x u Hu. destruct (decide (x = p)) as [-> |Hxp]; [assert (u = t2) as -> by congruence; rewrite Es; exact (O3 _ _ Hc)|].
      destruct (Hx x u Hxp Hu) as (u0 & Hu0 & E). change (length (handlers (sched (strip u))) = 32%nat). rewrite E. exact (O3 x u0 Hu0).
    - rewrite V2. by apply Hin.
    - intros x u Hxb Hu. destruct (decide (x = p)) as [-> |Hxp]; [assert (u = t2) as -> by congruence; by rewrite Es|].
      destruct (Hx x u Hxp Hu) as (u0 & Hu0 & E). change (state (sched (strip u)) = TASK_UNINTERRUPTIBLE). rewrite E.
      apply (fine_building _ _ _ _ _ F x u0); [|done]. by apply elem_of_cons in Hxb as [|].
    - intros x u y Hu Hy. destruct (decide (x = p)) as [-> |Hxp]; [assert (u = t2) as -> by congruence; rewrite Ew, Hw in Hy; by apply elem_of_nil in Hy|].
      destruct (Hx x u Hxp Hu) as (u0 & Hu0 & E). change (y ∈ wait_chldexit (strip u)) in Hy. rewrite E in Hy.
      destruct (fine_queues _ _ _ _ _ F x u0 y Hu0 Hy) as [-> Hin']. split; [done|by apply Hin]. }
  assert (Hp2 : par s2 p = current s /\ opar s2 p = current s) by (unfold par, opar; destruct (P2 p) as [-> ->]; by rewrite Lp).
  split; [|split; [done|split; [done|split; [done|]]]].
  { apply (fine_upd s2 _ _ _ _ p t2); try done. cbn. rewrite Ew, Hw. intros y Hy. by apply elem_of_nil in Hy. }
  unfold par, opar. rewrite HL. split; [apply Hp2|]. split; [apply Hp2|]. unfold pid_of, queue_of, zombie. cbn [store set_store]. rewrite lookup_insert_eq.
  split; [cbn; by rewrite Ep|]. split; [intros (u & [= <-] & Hu); cbn in Hu; by rewrite Es in Hu|]. split; [cbn; by rewrite Ew, Hw|].
  intros x Hxp. rewrite HL, lookup_insert_ne by done. destruct (P2 x) as [-> ->]. rewrite (lo_store _ _ F2). unfold s1.
  rewrite (L_insert (set_tasks l s)). apply Z.eqb_neq in Hxp as Hxp'. rewrite Hxp'. split; [done|]. split; [done|]. cbn [store set_store]. by rewrite lookup_insert_ne.
Qed.

(** The world after: [c] builds [p]. *)
Definition born (s' : system) (nr p c : Z) (w : world) : world := World s' (set_ph p Running (set_ph c (Forking nr p) (ph w))).

Lemma born_ph s' nr p c w x :
  p <> c -> ph (born s' nr p c w) x = if x =? p then Running else if x =? c then Forking nr p else ph w x.
Proof. done. Qed.

Lemma born_built s' nr p c w ts x :
  p <> c -> c ∈ init_task :: ts -> p ∉ init_task :: ts -> x ∈ built (born s' nr p c w) (ts ++ [p]) -> x = p \/ x ∈ built w ts.
Proof.
  intros Hpc Hc Hp (c' & nr' & Hc' & E)%built_elem. rewrite born_ph in E by done.
  destruct (Z.eqb_spec c' p) as [|Hcp]; [done|]. destruct (Z.eqb_spec c' c) as [-> |Hcc]; [injection E as _ ->; by left|]. right.
  apply built_elem. exists c', nr'. split; [|done]. rewrite app_comm_cons, elem_of_app, list_elem_of_singleton in Hc'. by destruct Hc'.
Qed.

Section born.
Context (w : world) (s' : system) (ts : list Z) (ch : Z -> list Z) (i1 nr p lp : Z).
Let c := current (sy w).
Let ch' := fun x => if x =? c then p :: ch x else ch x.
Let w' := born s' nr p c w.
Let i1' := if nr =? 1 then p else i1.
Hypothesis (I : inv w ts ch i1) (Hph : ph w c = Running) (Hp0 : p <> 0) (Hp : p ∉ init_task :: ts).
Hypothesis (Hnr : 1 <= nr) (Hg : get (tasks (sy w)) nr = Some 0) (Hinit : c = init_task -> nr = 1 /\ lp = 1).
Hypothesis (Hlp : 1 <= lp <= 32767) (Hfresh : forall x, x ∈ ts -> pid_of (sy w) x <> Some lp).
Hypothesis (Hput : put (tasks (sy w)) nr p = Some (tasks s')) (F : fine s' (ts ++ [p]) ch' 0 (p :: built w ts)).
Hypothesis (Hcur : current s' = c) (Hlast : 0 <= last_pid s' <= 32767).
Hypothesis (Hpar : par s' p = c) (Hopar : opar s' p = c) (Hpid : pid_of s' p = Some lp) (Hz : ~ zombie s' p) (Hq : queue_of s' p = Some []).
Hypothesis (Hx : forall x, x <> p ->
  opar s' x = opar (sy w) x /\ par s' x = par (sy w) x /\ strip <$> store s' !! x = strip <$> store (sy w) !! x).

Lemma born_c : c ∈ init_task :: ts.
Proof. apply (ok_current _ _ _ _ (inv_ok I)). Qed.

Lemma born_pc : p <> c.
Proof. intros E. apply Hp. rewrite E. apply born_c. Qed.

Lemma born_ts x : x ∈ ts ++ [p] <-> x = p \/ x <> p /\ x ∈ ts.
Proof. rewrite elem_of_app, list_elem_of_singleton. assert (x ∈ ts -> x <> p); [|naive_solver]. intros Hxt ->. apply Hp. by right. Qed.

Lemma born_ring x : x ∈ init_task :: ts ++ [p] <-> x = p \/ x <> p /\ x ∈ init_task :: ts.
Proof. rewrite !elem_of_cons, born_ts. assert (init_task <> p) by (intros E; apply Hp; rewrite <- E; left). naive_solver. Qed.

Lemma born_views x : x <> p -> pid_of s' x = pid_of (sy w) x /\ (zombie s' x <-> zombie (sy w) x) /\ queue_of s' x = queue_of (sy w) x.
Proof. intros Hxp. by apply strip_views, Hx. Qed.

Lemma born_alive : ~ zombie (sy w) c.
Proof. apply (inv_zombie w ts ch i1); [done|apply born_c|by rewrite Hph]. Qed.

Lemma born_first : nr = 1 -> c = init_task /\ ts = [] /\ i1 = 0.
Proof.
  intros E1. pose proof (i_slot1 _ _ _ _ I) as H1. rewrite <- E1, Hg in H1. injection H1 as H1. destruct (inv_nodup I) as (_ & H0 & _).
  destruct (i_init _ _ _ _ I) as [[_ E]|[Hin _]]; [|by rewrite <- H1 in Hin]. split; [|done]. pose proof born_c as Hc. rewrite E in Hc. by apply elem_of_cons in Hc as [|?%elem_of_nil].
Qed.

Lemma born_ch x : x <> c -> ch x = [] -> ch' x = [].
Proof. intros Hxc. unfold ch'. by apply Z.eqb_neq in Hxc as ->. Qed.

(** Not the first process: the parent is a process. *)
Lemma born_later : nr <> 1 -> c ∈ ts /\ i1 ∈ ts /\ i1 <> p /\ i1' = i1.
Proof.
  intros Hn. destruct (inv_in I c born_c) as (Hc & H1 & _); [naive_solver|]. split; [done|]. split; [done|]. split; [intros E; apply Hp; rewrite <- E; by right|].
  unfold i1'. by apply Z.eqb_neq in Hn as ->.
Qed.

Lemma born_init : i1' ∈ ts ++ [p] /\ par s' i1' = init_task /\ opar s' i1' = init_task /\ pid_of s' i1' = Some 1 /\
  (~ zombie s' i1') /\ ph w' i1' <> Exiting.
Proof.
  destruct (decide (nr = 1)) as [E|E].
  - destruct (born_first E) as (Hc & _). unfold i1'. rewrite E. cbn [Z.eqb Pos.eqb]. rewrite born_ts. unfold w'. rewrite born_ph, Z.eqb_refl by apply born_pc.
    rewrite Hpar, Hopar, Hpid. destruct (Hinit Hc) as [_ El]. rewrite Hc, El. naive_solver.
  - destruct (born_later E) as (Hct & H1 & H1p & Ei). rewrite Ei. destruct (inv_init I H1) as (A1 & A2 & A3 & A4 & A5).
    destruct (Hx i1 H1p) as (-> & -> & _). destruct (born_views i1 H1p) as (-> & -> & _). rewrite born_ts. split; [by right|]. do 4 (split; [done|]).
    unfold w'. rewrite born_ph by apply born_pc. destruct (i1 =? p); [done|].
    destruct (i1 =? c); [done|exact A5].
Qed.

Lemma born_up y : y ∈ ts ++ [p] -> rtc (up s' i1') y i1'.
Proof.
  destruct (decide (nr = 1)) as [E|E].
  - destruct (born_first E) as (_ & En & _). rewrite En. intros ->%list_elem_of_singleton. unfold i1'. by rewrite E.
  - destruct (born_later E) as (Hct & H1 & H1p & Ei). rewrite Ei.
    assert (Hold : forall y, y ∈ ts -> rtc (up s' i1) y i1).
    { intros x. apply (inv_up I). intros a Ha _. left. apply Hx. intros Ea. apply Hp. rewrite <- Ea. by right. }
    intros [-> |[_ Hy]]%born_ts; [|by apply Hold]. apply (rtc_l _ p c); [|by apply Hold]. split; [done|]. split; [|done].
    intros Ep. apply Hp. rewrite Ep. left.
Qed.

Lemma born_opar y : y ∈ ts ++ [p] -> y <> i1' -> opar s' y ∈ ts ++ [p] /\ opar s' y <> y.
Proof.
  destruct (decide (nr = 1)) as [E|E].
  - destruct (born_first E) as (_ & En & _). rewrite En. intros ->%list_elem_of_singleton. unfold i1'. by rewrite E.
  - destruct (born_later E) as (Hct & _ & _ & Ei). rewrite Ei, !born_ts. pose proof born_pc. intros [-> |[Hyp Hy]] Hy1.
    + rewrite Hopar. naive_solver.
    + destruct (Hx y Hyp) as (-> & _). destruct (i_opar _ _ _ _ I y Hy Hy1) as [A B]. split; [|done]. right. split; [|done].
      intros E'. apply Hp. rewrite <- E'. by right.
Qed.

(** Nobody but the new task has a new original parent. *)
Lemma born_opar_ne x : x <> c -> (forall z, z ∈ ts -> opar (sy w) z <> x) -> forall z, z ∈ ts ++ [p] -> opar s' z <> x.
Proof. intros Hxc Ho z [-> |[Hzp Hzt]]%born_ts; [rewrite Hopar; congruence|]. destruct (Hx z Hzp) as (-> & _). by apply Ho. Qed.

Lemma opar_ring z : z ∈ ts -> opar (sy w) z <> p.
Proof.
  intros Hzt E. apply Hp. rewrite <- E. destruct (decide (z = i1)) as [Ez|Hz1].
  - rewrite Ez in Hzt. destruct (inv_init I Hzt) as (_ & A2 & _). rewrite Ez, A2. left.
  - right. by apply (i_opar _ _ _ _ I z Hzt Hz1).
Qed.

Lemma born_builds c' nr' q : c' ∈ init_task :: ts ++ [p] -> ph w' c' = Forking nr' q ->
    q ∈ ts ++ [p] /\ q <> c' /\ ch' q = [] /\ (forall z, z ∈ ts ++ [p] -> opar s' z <> q) /\
    get (tasks s') nr' = Some q /\ ph w' q = Running /\
    forall c2 nr2, c2 ∈ init_task :: ts ++ [p] -> ph w' c2 = Forking nr2 q -> c2 = c'.
Proof.
  pose proof born_pc as Hpc. unfold w'. rewrite !born_ph by done. rewrite !(get_put _ _ _ _ _ Hput).
  assert (Hold : forall c2 nr2, c2 ∈ init_task :: ts ++ [p] -> c2 <> p -> c2 <> c -> ph w c2 = Forking nr2 q -> q <> p).
  { intros c2 nr2 [|[_ Hc2]]%born_ring H2p H2c E2 ->; [done|]. destruct (i_built _ _ _ _ I c2 nr2 p Hc2 E2) as (Hin & _). apply Hp. by right. }
  intros Hc' E. destruct (Z.eqb_spec c' p) as [|Hcp]; [done|]. rewrite born_ts. destruct (Z.eqb_spec c' c) as [-> |Hcc].
  - injection E as <- <-. rewrite !Z.eqb_refl. split; [by left|]. split; [done|]. split.
    { apply born_ch; [done|]. apply (rep_ch_nil _ _ _ _ _ _ (inv_rep I)). by rewrite app_nil_r. }
    split; [apply born_opar_ne; [done|apply opar_ring]|]. split; [done|]. split; [done|].
    intros c2 nr2 Hc2. rewrite born_ph by done. destruct (Z.eqb_spec c2 p) as [|H2p]; [done|]. destruct (Z.eqb_spec c2 c) as [|H2c]; [done|].
    intros E2. exfalso. by apply (Hold c2 nr2).
  - pose proof (Hold c' nr' Hc' Hcp Hcc E) as Hqp. apply born_ring in Hc' as [|[_ Hc']]; [done|].
    destruct (i_built _ _ _ _ I c' nr' q Hc' E) as (A1 & A2 & A3 & A4 & A5 & A6 & A7).
    assert (Hqc : q <> c). { intros ->. apply (i_current _ _ _ _ I), built_elem. eauto. }
    apply Z.eqb_neq in Hqp as Hqp'. apply Z.eqb_neq in Hqc as Hqc'. rewrite Hqp', Hqc'.
    split; [by right|]. split; [done|]. split; [by apply born_ch|]. split; [by apply born_opar_ne|]. split.
    { destruct (Z.eqb_spec nr' nr) as [-> |]; [|done]. rewrite Hg in A5. injection A5 as <-. destruct (inv_nodup I) as (_ & ? & _). done. }
    split; [done|]. intros c2 nr2 Hc2. rewrite born_ph by done. destruct (Z.eqb_spec c2 p) as [|H2p]; [done|].
    destruct (Z.eqb_spec c2 c) as [|H2c]; [congruence|]. apply A7. by apply born_ring in Hc2 as [|[_ ?]].
Qed.

Lemma inv_born : inv w' (ts ++ [p]) ch' i1'.
Proof.
  pose proof born_pc as Hpc. pose proof born_c as Hc. destruct (inv_nodup I) as (_ & H0 & Hi).
  assert (Hip : init_task <> p) by (intros E; apply Hp; rewrite <- E; left). split; unfold w'; change (sy (born s' nr p c w)) with s'.
  - eapply fine_sub; [|exact F]. intros x [-> | ]%born_built; [left|by right|done..].
  - rewrite (get_put _ _ _ _ _ Hput). unfold i1'. rewrite (Z.eqb_sym 1 nr). destruct (nr =? 1); [done|]. apply I.
  - done.
  - rewrite (proj1 (born_views _ Hip)). apply I.
  - intros x n [-> |[Hxp Hxt]]%born_ts; [rewrite Hpid; by intros [= <-]|]. rewrite (proj1 (born_views x Hxp)). by apply I.
  - intros x y [-> |[Hxp Hxt]]%born_ts [-> |[Hyp Hyt]]%born_ts; rewrite ?Hpid, ?(proj1 (born_views _ Hxp)), ?(proj1 (born_views _ Hyp)); try done.
    + intros E. symmetry in E. by apply Hfresh in E.
    + intros E. by apply Hfresh in E.
    + by apply I.
  - right. apply born_init.
  - rewrite (proj1 (proj2 (born_views _ Hip))), born_ph by done. split; [|apply (i_idle _ _ _ _ I)].
    destruct (init_task =? p); [done|]. destruct (init_task =? c); [done|]. apply (i_idle _ _ _ _ I).
  - apply born_up.
  - apply born_opar.
  - intros y [-> |[Hyp Hyt]]%born_ts Hzy; [done|]. apply born_views in Hzy; [|done]. destruct (i_zombie _ _ _ _ I y Hyt Hzy) as (Hd & Hcy & Ho).
    assert (Hyc : y <> c) by (intros ->; by apply born_alive). split; [|split; [by apply born_ch|by apply born_opar_ne]].
    rewrite born_ph by done. apply Z.eqb_neq in Hyp as ->. apply Z.eqb_neq in Hyc as ->. done.
  - apply born_builds.
  - intros x [-> |[Hxp Hxt]]%born_ts; rewrite born_ph by done; [by rewrite Z.eqb_refl|]. apply Z.eqb_neq in Hxp as ->.
    destruct (Z.eqb_spec x c) as [|Hxc]; [done|]. intros E. apply born_opar_ne; [done|]. by apply (i_exiting _ _ _ _ I).
  - intros x q. rewrite born_ph by done. destruct (Z.eqb_spec x p) as [-> |Hxp]; [rewrite Hq; by intros [= <-]|].
    rewrite (proj2 (proj2 (born_views x Hxp))). intros E. rewrite (i_queue _ _ _ _ I x q E). destruct (Z.eqb_spec x c) as [-> |]; [by rewrite Hph|done].
  - rewrite Hcur. intros [E|Hb]%born_built; [by apply Hpc|by apply (i_current _ _ _ _ I)|done..].
Qed.

End born.

(** ** [fork_start] *)

Lemma slot_result_spec s user :
  slot_result s user = - EAGAIN \/ 1 <= slot_result s user /\ get (tasks s) (slot_result s user) = Some 0 /\
    (get (tasks s) 1 = Some 0 -> slot_result s user = 1).
Proof.
  unfold slot_result. destruct (_ && _); [by left|]. destruct (head (free_slots s last_slot)) as [nr|] eqn:E; [|by left]. right. cbn [default].
  assert (Hin : nr ∈ free_slots s last_slot) by (destruct (free_slots s last_slot); [done|injection E as ->; left]).
  unfold free_slots in Hin. apply list_elem_of_filter in Hin as [Hg Hr]. apply elem_of_seqZ in Hr. split; [exact (proj1 Hr)|]. split; [done|]. intros H1.
  unfold free_slots in E. rewrite last_slot_eq in E. change (Z.of_nat 127) with (Z.succ 126) in E. rewrite seqZ_cons in E by lia.
  rewrite filter_cons_True in E by done. by injection E as <-.
Qed.

(** The first process gets number 1. *)
Lemma first_pid s ch user :
  ok s [] ch 0 -> last_pid s = 0 -> rd (current s) (fun t => Sys.uid (cred t)) s = Some user ->
  find_empty_process 382 s = Some (slot_result s user, set_last_pid 1 s).
Proof.
  intros [O1 O2 O3 O4] Hl Hu. assert (Hnil : in_use s last_slot = []).
  { unfold in_use. assert (H : forall x, x ∈ take last_slot (drop 1 (tasks s)) -> numbers s x = []).
    { intros x Hx. apply elem_of_take in Hx as (i & Hi & _). rewrite lookup_drop in Hi. unfold numbers.
      destruct (decide (x = 0)) as [-> |Hx0]; [by rewrite (rep_null _ _ _ _ _ O1)|]. exfalso.
      assert (Hin : x ∈ [init_task]) by (apply (table_in _ _ O2); [done|by eapply list_elem_of_lookup_2]). apply list_elem_of_singleton in Hin as ->.
      pose proof (table_once _ _ O2 _ _ _ Hx0 (table_init _ _ O2) Hi). lia. }
    induction (take last_slot (drop 1 (tasks s))) as [|x l IH]; [done|]. rewrite bind_cons, (H x) by left. apply IH. intros y Hy. apply H. by right. }
  change 1 with (pid_after 1 0). destruct (find_one 381 1 user s) as [[E _]|[_ Hin]].
  - exact (table_length _ _ O2).
  - exact (rep_null _ _ _ _ _ O1).
  - intros x Hx Hx0. apply (rep_dom _ _ _ _ _ O1). by apply (table_in _ _ O2).
  - done.
  - by rewrite Hl.
  - exact E.
  - rewrite Hnil in Hin. by apply elem_of_nil in Hin.
Qed.

Opaque find_empty_process.

Lemma fork_start_inv w ts ch i1 p :
  let c := current (sy w) in
  inv w ts ch i1 -> ph w c = Running -> store (sy w) !! p = None ->
  (c = init_task -> get (tasks (sy w)) 1 = Some 0 /\ last_pid (sy w) = 0) ->
  exists r s', fork_start pid_fuel p (sy w) = Some (r, s') /\
    match r with
    | Failed e => e = - EAGAIN /\ inv (World s' (ph w)) ts ch i1
    | Started nr => exists ch' i1', inv (born s' nr p c w) (ts ++ [p]) ch' i1'
    end.
Proof.
  intros c I Hph Hn Hinit. unfold fork_start, pid_fuel. destruct (Z.eqb_spec p 0) as [|Hp0].
  { eexists _, (sy w). split; [done|]. by destruct w. }
  destruct (inv_dom I c (ok_current _ _ _ _ (inv_ok I))) as [tc Htc].
  assert (Hu : rd (current (sy w)) (fun t => Sys.uid (cred t)) (sy w) = Some (Sys.uid (cred tc))) by (unfold rd; fold c; by rewrite Htc).
  destruct (find_empty_ok (sy w) ts ch 0 (Sys.uid (cred tc)) (inv_ok I) (i_last _ _ _ _ I) Hu) as (lp & E & Hlp & Hfresh).
  assert (Hlp1 : c = init_task -> lp = 1).
  { intros Hc. destruct (Hinit Hc) as [H1 Hl]. pose proof (i_slot1 _ _ _ _ I) as Hs. rewrite H1 in Hs. injection Hs as <-. destruct (inv_nodup I) as (_ & H0 & _).
    destruct (i_init _ _ _ _ I) as [[_ ->]|[? _]]; [|done]. pose proof (first_pid (sy w) ch _ (inv_ok I) Hl Hu) as E'. rewrite E in E'.
    injection E' as Elp. exact Elp. }
  rewrite E. cbn [mbind option_bind]. set (nr := slot_result (sy w) (Sys.uid (cred tc))).
  destruct (slot_result_spec (sy w) (Sys.uid (cred tc))) as [Hnr|(Hnr & Hg & Hfirst)]; fold nr in Hnr.
  { rewrite Hnr. change (- EAGAIN <? 0) with true. eexists _, _. split; [done|]. split; [done|]. apply inv_rest; try done. cbn. lia. }
  fold nr in Hg, Hfirst. destruct (Z.ltb_spec nr 0); [lia|]. set (s0 := set_last_pid lp (sy w)).
  assert (I0 : inv (World s0 (ph w)) ts ch i1) by (apply inv_rest; try done; cbn; lia).
  assert (Hw : wait_chldexit tc = []) by (rewrite (i_queue _ _ _ _ I c (wait_chldexit tc)); [by rewrite Hph|unfold queue_of; by rewrite Htc]).
  destruct (fork_link (built (World s0 (ph w)) ts) s0 ts ch nr p tc lp) as (l & s' & Hput & Es & F & Hl & Hc & Hlast & Hpar & Hopar & Hpid & Hz & Hq & Hx);
    [apply I0|done|done|exact Htc|done|done|done|].
  rewrite Hput. cbn [mbind option_bind]. change (store (set_tasks l s0) !! current (set_tasks l s0)) with (store (sy w) !! c). rewrite Htc. cbn [mbind option_bind].
  change (store (set_tasks l s0)) with (store s0). change (current (set_tasks l s0)) with (current s0). change (last_pid (set_tasks l s0)) with lp.
  exists (Started nr), s'. split.
  { destruct (SET_LINKS p _) as [s2|]; [|done]. cbn [mbind option_bind] in Es |- *. by rewrite Es. }
  eexists _, _. apply (inv_born (World s0 (ph w)) s' ts ch i1 nr p lp); try done.
  - intros Hin. destruct (inv_dom I p Hin) as [t Ht]. congruence.
  - intros Hci. split; [apply Hfirst; by apply Hinit|by apply Hlp1].
  - intros x Hxt. destruct (inv_dom I x) as [t Ht]; [by right|]. destruct (Hfresh x t Hxt Ht) as (Hne & _). cbn [sy]. unfold pid_of. change (store s0) with (store (sy w)).
    rewrite Ht. cbn. congruence.
  - cbn [sy]. by rewrite Hl.
  - rewrite Hlast. cbn. lia.
Qed.

End ProcsBorn.
