(* ===== verification/ProcsReach.v ===== *)
(** * What holds of all processes at all times

    [reach]: the states that the commands of [ProcsStep] lead to from [boot], each
    given under its [guard], the conditions under which the kernel or a process
    does such a thing.  In each of them every command whose guard holds has a
    result, the audit of the process tree finds nothing and process numbers are
    unique; [wait4] and [exit] are described on these states. *)

From S2P Require Import Prelude Sched Sys Dll Tasks Kill Procs ProcsFork ProcsInv ProcsStep ProcsSafe ProcsBorn.
From Stdlib Require Import ZArith Lia.
From stdpp Require Import base list gmap sets relations.
Local Open Scope Z_scope.

Module ProcsReach.
Import Sched Tasks Kill Procs ProcsFork ProcsInv ProcsStep ProcsSafe ProcsBorn.

(** A task in [task[]]. *)
Definition is_task (x : Z) (s : system) : Prop := x <> 0 /\ x ∈ tasks s.

(** [p] is being built by some task. *)
Definition builds (w : world) (p : Z) : Prop := exists c nr, is_task c (sy w) /\ ph w c = Forking nr p.

(** When a command is given: [Switch] goes to the idle task or one that can run;
    [Quiet] is any change of other things, which leaves alone the links, the
    process numbers, who is dead and who waits, and the state of a task under
    construction; the page for a new task is not in use; [init_task] forks once,
    as the first thing, and does nothing else; [init] does not exit; the new
    parent of a traced process is none of its descendants. *)
Definition guard (k : cmd) (w : world) : Prop :=
  let s := sy w in let c := current s in
  match k with
  | Switch x => is_task x s /\ (x = init_task \/ rd x (fun t => state (sched t)) s = Some TASK_RUNNING)
  | Quiet s' => exists b, (forall p, builds w p -> p ∈ b) /\ quiet b s s'
  | Fork p => ph w c = Running /\ store s !! p = None /\ (c = init_task -> get (tasks s) 1 = Some 0 /\ last_pid s = 0)
  | ForkStack _ _ | ForkEnd | ForkFail => forking (ph w c) = true
  | ExitBegin => ph w c = Running /\ c <> init_task /\ get (tasks s) 1 <> Some c
  | ExitEnd _ => ph w c = Exiting
  | WaitStart _ _ _ => ph w c = Running
  | WaitResume => waits (ph w c) /\ ph w c <> Running
  | Attach pd => ph w c = Running /\ c <> init_task /\ forall p, get_task pd s = Some p -> no_cycle p c s
  | Detach pd _ => forall p, get_task pd s = Some p -> no_cycle p (opar s p) s
  end.

Inductive reach : world -> Prop :=
  | reach_boot : reach (World boot (fun _ => Running))
  | reach_step w k w' : reach w -> guard k w -> run k w = Some w' -> reach w'.

(** ** The invariant holds *)

Lemma boot_inv : inv (World boot (fun _ => Running)) [] (fun _ => []) 0.
Proof.
  assert (Hb : built (World boot (fun _ => Running)) [] = []) by done.
  assert (Hs : forall x t, store boot !! x = Some t -> t = idle_struct (idle_task TASK_RUNNING 15) (Links init_task init_task init_task init_task 0 0 0)).
  { intros x t H. unfold boot in H. cbn [store] in H. by apply lookup_singleton_Some in H as [_ <-]. }
  split; rewrite ?Hb; cbn [sy ph]; try done; try (intros; exfalso; by eapply elem_of_nil).
  - split; [split; [apply boot_rep|apply boot_table| |left]| |].
    + intros x t ->%Hs. done.
    + intros x t Hx. by apply elem_of_nil in Hx.
    + intros x t y ->%Hs Hy. by apply elem_of_nil in Hy.
  - by left.
  - split; [done|]. intros (t & ->%Hs & E). done.
  - intros x q. unfold queue_of. destruct (store boot !! x) as [t|] eqn:E; [|done]. apply Hs in E as ->. by intros [= <-].
  - apply not_elem_of_nil.
Qed.

Lemma task_ring w ts ch i1 x : inv w ts ch i1 -> is_task x (sy w) <-> x ∈ init_task :: ts.
Proof.
  intros I. pose proof (ok_table _ _ _ _ (inv_ok I)) as T. unfold is_task. split; [intros [? ?]; by apply (table_in _ _ T)|].
  intros Hx. assert (Hx0 : x <> 0); [|split; [done|by apply (table_in _ _ T)]]. intros ->. destruct (inv_dom I 0 Hx) as [t Ht].
  by rewrite (rep_null _ _ _ _ _ (inv_rep I)) in Ht.
Qed.

Lemma quiet_sub b b' s s' : (forall x, x ∈ b' -> x ∈ b) -> quiet b s s' -> quiet b' s s'.
Proof.
  intros Hb [A1 A2 A3 A4 A5 A6]. split; try done. intros x t Ht. destruct (A1 x t Ht) as (t' & Ht' & K1 & K2 & K3 & K4 & K5 & K6).
  exists t'. split; [done|]. repeat (split; [done|]). intros Hx%bool_decide_eq_true. by apply K6, bool_decide_eq_true, Hb.
Qed.

Lemma switch_inv w ts ch i1 x :
  inv w ts ch i1 -> is_task x (sy w) -> x = init_task \/ rd x (fun t => state (sched t)) (sy w) = Some TASK_RUNNING ->
  inv (World (set_current x (sy w)) (ph w)) ts ch i1.
Proof.
  intros I Hx Hr. assert (Hxb : x ∉ built w ts).
  { intros Hb. destruct (inv_nodup I) as (_ & _ & Hi). destruct Hr as [-> |Hr]; [by apply (built_in I) in Hb as [? _]|].
    unfold rd in Hr. destruct (store (sy w) !! x) as [t|] eqn:Ht; [|done]. pose proof (built_state I x t Hb Ht) as Hs. cbn in Hr. by rewrite Hs in Hr. }
  destruct I. split; try done. cbn [sy]. destruct i_fine0 as [[O1 O2 O3 O4] B Q]. split; [|done|done]. split; [by apply (rep_ext (sy w))|by apply (table_ext (sy w))|exact O3|].
  cbn [current set_current]. destruct Hx. by apply (table_in _ _ O2).
Qed.

(** Every command succeeds and keeps the invariant. *)
Lemma run_inv k w ts ch i1 :
  inv w ts ch i1 -> guard k w -> exists w' ts' ch' i1', run k w = Some w' /\ inv w' ts' ch' i1'.
Proof.
  intros I. pose proof (inv_dom I _ (ok_current _ _ _ _ (inv_ok I))) as [t Ht].
  destruct k as [x|s'|p|stack flags| | | |code|verify pd options| |pd|pd data]; cbn [guard run]; unfold forking.
  - intros [Hx Hr]. do 4 eexists. split; [done|by eapply switch_inv].
  - intros (b & Hb & Q). do 4 eexists. split; [done|]. apply (inv_quiet w s' ts ch i1 I). eapply quiet_sub; [|exact Q].
    intros x (c & nr & Hc & E)%built_elem. apply Hb. exists c, nr. split; [by apply (task_ring w ts ch i1)|done].
  - intros (Hph & Hp & Hi). destruct (fork_start_inv w ts ch i1 p I Hph Hp Hi) as (r & s' & E & H). rewrite ?Hph, E. cbn [mbind option_bind].
    destruct r as [e|nr]; [destruct H as [_ H]; by do 4 eexists|]. destruct H as (ch' & i1' & H). do 4 eexists. split; [done|exact H].
  - destruct (ph w (current (sy w))) as [|nr p| | |] eqn:Hph; try done. intros _. destruct (fork_stack_inv w ts ch i1 nr p stack flags I Hph) as (s' & -> & I').
    by do 4 eexists.
  - destruct (ph w (current (sy w))) as [|nr p| | |] eqn:Hph; try done. intros _. destruct (fork_end_inv w ts ch i1 nr p I Hph) as (r & s' & -> & _ & I').
    by do 4 eexists.
  - destruct (ph w (current (sy w))) as [|nr p| | |] eqn:Hph; try done. intros _. destruct (fork_fail_inv w ts ch i1 nr p I Hph) as (s' & ch' & i1' & -> & I' & _).
    by do 4 eexists.
  - intros (Hph & Hi & H1). destruct (exit_begin_inv w ts ch i1 I Hi) as (s' & E & I'); [|done|].
    { intros Hc. apply H1. rewrite Hc. apply I. }
    rewrite ?Hph, E. by do 4 eexists.
  - intros Hph. destruct (exit_end_inv w ts ch i1 code I Hph) as (s' & ch' & E & I'). rewrite ?Hph, E. by do 4 eexists.
  - intros Hph. destruct (wait_start_inv w ts ch i1 t verify pd options I Hph Ht) as (r & s' & ts' & ch' & E & I' & _). rewrite ?Hph, E. by do 4 eexists.
  - intros [[|(pd & options & Hph)] Hne]; [done|]. destruct (wait_resume_inv w ts ch i1 pd options I Hph) as (r & s' & ts' & ch' & E & I'). rewrite ?Hph, E. by do 4 eexists.
  - intros (Hph & Hi & Hc). destruct (attach_inv w ts ch i1 pd I Hi Hph Hc) as (r & s' & ts' & ch' & E & I'). rewrite ?Hph, E. by do 4 eexists.
  - intros Hc. destruct (detach_inv w ts ch i1 pd data I Hc) as (r & s' & ts' & ch' & E & I'). rewrite E. by do 4 eexists.
Qed.

Lemma reach_tree_inv w : reach w -> exists ts ch i1, inv w ts ch i1.
Proof.
  induction 1 as [|w k w' H (ts & ch & i1 & I) Hg Hr]; [eauto using boot_inv|].
  destruct (run_inv k w ts ch i1 I Hg) as (w2 & ts' & ch' & i1' & E & I'). rewrite Hr in E. injection E as <-. eauto.
Qed.

(** ** The process tree *)


(** C2: Process numbers identify tasks: they are between 1 and 32767 but for the idle
    task, and no two tasks have the same. *)
Theorem pids_unique w x y n :
  reach w -> is_task x (sy w) -> is_task y (sy w) -> pid_of (sy w) x = Some n -> pid_of (sy w) y = Some n ->
  x = y /\ 0 <= n <= 32767 /\ (n = 0 <-> x = init_task).
Proof.
  intros (ts & ch & i1 & I)%reach_tree_inv Hx%(task_ring _ _ _ _ _ I) Hy%(task_ring _ _ _ _ _ I) Ex Ey. pose proof (i_pid0 _ _ _ _ I) as E0.
  destruct (inv_nodup I) as (_ & _ & Hi).
  apply elem_of_cons in Hx as [-> |Hx], Hy as [-> |Hy].
  - rewrite E0 in Ex. injection Ex as <-. repeat split; done || lia.
  - pose proof (i_pid _ _ _ _ I y n Hy Ey). rewrite E0 in Ex. injection Ex as <-. lia.
  - pose proof (i_pid _ _ _ _ I x n Hx Ex). rewrite E0 in Ey. injection Ey as <-. lia.
  - assert (x = y) by (apply (i_pids _ _ _ _ I); [done|done|congruence]). pose proof (i_pid _ _ _ _ I x n Hx Ex).
    split; [done|]. split; [lia|]. split; [lia|]. by intros ->.
Qed.


(** The children from [p] on, each one followed by the next older one: [p_cptr] of a task
    is its youngest child, [p_osptr] the next older sibling. *)
Fixpoint siblings (p : Z) (l : list Z) (s : system) : Prop :=
  match l with
  | [] => p = 0
  | y :: l => p = y /\ exists t, store s !! y = Some t /\ siblings (p_osptr t) l s
  end.

Lemma siblings_children w ts ch i1 x l1 l : inv w ts ch i1 -> ch x = l1 ++ l -> siblings (head0 l) l (sy w).
Proof.
  intros I. revert l1. induction l as [|y l IH]; intros l1 E; [done|]. cbn [siblings head0]. split; [done|].
  assert (Hy : y ∈ ch x) by (rewrite E; apply elem_of_app; right; left). apply (ch_par I) in Hy as [Hy _].
  destruct (inv_dom I y) as [t Ht]; [by right|]. exists t. split; [done|].
  rewrite (next_sibling w ts ch i1 x y l1 l t I E Ht). apply (IH (l1 ++ [y])). by rewrite <- app_assoc.
Qed.

(** C27: [wait4] answers from the children of the caller in the order of the sibling pointers,
    the youngest first: the first one it is for that is dead, or stopped and not yet
    reported, is reported; if it is for none of them the answer is [ECHILD];
    otherwise it is 0 with [WNOHANG], and without it the caller sleeps.  A stop that
    was reported is not reported again, a dead child that was reported is gone or
    with the process that created it, and if none is reported no other task
    changes. *)
Theorem wait4_finds w c pd options :
  reach w -> ph w (current (sy w)) = Running -> store (sy w) !! current (sy w) = Some c ->
  exists l s', siblings (p_cptr c) l (sy w) /\ NoDup l /\
    (forall y, y ∈ l <-> is_task y (sy w) /\ y <> init_task /\ par (sy w) y = current (sy w)) /\
    wait_start 0 pd options (sy w) = Some (found pd options c l (sy w), s') /\
    settled pd options c l (sy w) s'.
Proof.
  intros (ts & ch & i1 & I)%reach_tree_inv Hph Hc. destruct (wait_start_inv w ts ch i1 c 0 pd options I Hph Hc) as (r & s' & ts' & ch' & E & _ & -> & S).
  exists (ch (current (sy w))), s'. split; [|split; [apply (rep_ch_nodup _ _ _ _ _ (inv_rep I))|split; [|split; [exact E|by apply S]]]].
  - pose proof (current_child _ _ _ _ (inv_ok I)) as Hh. unfold rd in Hh. rewrite Hc in Hh. assert (Eh : p_cptr c = head0 (ch (current (sy w)))) by (by injection Hh). rewrite Eh. by apply (siblings_children w ts ch i1 (current (sy w)) []).
  - intros y. rewrite (ch_par I), (task_ring _ _ _ _ _ I), elem_of_cons. destruct (inv_nodup I) as (_ & _ & Hi).
    split; [intros [Hy ?]; split; [by right|]; split; [by intros ->|done]|]. intros ([|] & ? & ?); done.
Qed.

(** ** An example *)

Definition next (k : cmd) (w : world) : world := default w (run k w).

Lemma reach_next w k : reach w -> guard k w -> reach (next k w).
Proof.
  intros H Hg. destruct (reach_tree_inv w H) as (ts & ch & i1 & I). destruct (run_inv k w ts ch i1 I Hg) as (w' & _ & _ & _ & E & _).
  unfold next. rewrite E. by eapply reach_step.
Qed.

(** [init] is created and runs; it creates a process, which runs and creates
    another; the first one runs. *)
Definition forks (p : Z) (w : world) : world :=
  next ForkEnd (next (ForkStack (p + 0x100000) (clone_flags false 0 0 0)) (next (Fork p) w)).
Definition ex1 : world := next (Switch 4096) (forks 4096 (World boot (fun _ => Running))).
Definition ex2 : world := next (Switch 8192) (forks 8192 ex1).
Definition ex3 : world := next (Switch 4096) (forks 12288 ex2).

Ltac compute_guard :=
  cbn [guard]; unfold is_task; split_and?;
  lazymatch goal with
  | |- _ \/ _ => right; vm_compute; reflexivity
  | |- _ = _ => vm_compute; reflexivity
  | |- _ ∈ _ => apply (bool_decide_unpack _); vm_compute; exact Logic.I
  | |- _ -> _ = _ /\ _ => intros E; try (vm_compute in E; discriminate E); split; vm_compute; reflexivity
  | |- _ => intros E; vm_compute in E; discriminate E
  end.

Lemma ex1_reach : reach ex1.
Proof. apply reach_next; [apply reach_next; [apply reach_next; [apply reach_next; [constructor|]|]|]|]; compute_guard. Qed.

Lemma ex2_reach : reach ex2.
Proof. apply reach_next; [apply reach_next; [apply reach_next; [apply reach_next; [apply ex1_reach|]|]|]|]; compute_guard. Qed.

Lemma ex3_reach : reach ex3.
Proof. apply reach_next; [apply reach_next; [apply reach_next; [apply reach_next; [apply ex2_reach|]|]|]|]; compute_guard. Qed.

Lemma reach_ok w : reach w -> exists ts ch, ok (sy w) ts ch 0.
Proof. intros (ts & ch & i1 & I)%reach_tree_inv. exists ts, ch. apply (inv_ok I). Qed.

(** ** Further theorems *)

Lemma wake_one x s t :
  store s !! x = Some t -> is_Some (store s !! current s) ->
  exists s' t', wake_up_interruptible [x] s = Some s' /\ store s' !! x = Some t' /\ state (sched t') <> TASK_INTERRUPTIBLE.
Proof.
  intros Ht [c Hc]. cbn [wake_up_interruptible]. rewrite Ht. cbn [mbind option_bind]. destruct (Z.eqb_spec (state (sched t)) TASK_INTERRUPTIBLE); [|eauto].
  unfold upd. rewrite Ht. cbn [mbind option_bind]. set (s1 := set_store _ s).
  assert (Hs1 : store s1 !! x = Some (set_state TASK_RUNNING t)) by apply lookup_insert_eq.
  assert (is_Some (store s1 !! current s1)) as [c1 ->].
  { unfold s1. cbn [store set_store current]. destruct (decide (current s = x)) as [-> |]; [rewrite lookup_insert_eq; eauto|rewrite lookup_insert_ne by done; eauto]. }
  cbn [mbind option_bind]. exists (if counter (sched c1) <? counter (sched t) then set_need_resched true s1 else s1), (set_state TASK_RUNNING t).
  split; [done|]. split; [by destruct (_ <? _)|done].
Qed.

(** C39: A parent that sleeps in [wait4] is woken when [notify_parent] is called for its
    child: it does not sleep afterwards, so it will look at its children again. *)
Theorem notify_wakes w p pd options :
  reach w -> is_task p (sy w) -> p <> init_task -> ph w (par (sy w) p) = Waiting pd options ->
  exists s' t, notify_parent p (sy w) = Some s' /\ store s' !! par (sy w) p = Some t /\ state (sched t) <> TASK_INTERRUPTIBLE.
Proof.
  intros (ts & ch & i1 & I)%reach_tree_inv Hp%(task_ring _ _ _ _ _ I) Hpi Hph. destruct (inv_in I p Hp Hpi) as (Hpt & _). destruct (inv_dom I p Hp) as [t Ht].
  pose proof (par_in I p Hpt) as Hpp. assert (Epp : p_pptr t = par (sy w) p) by (unfold par, L; by rewrite Ht). unfold notify_parent, rd.
  rewrite Ht, (i_slot1 _ _ _ _ I). cbn [fmap option_fmap option_map mbind option_bind].
  assert (exists s1, (if p_pptr t =? i1 then upd p (set_exit_signal SIGCHLD) (sy w) else Some (sy w)) = Some s1 /\ quiet (built w ts) (sy w) s1) as (s1 & -> & Q1).
  { destruct (_ =? i1); [|eauto using quiet_refl].
    destruct (quiet_upd (built w ts) p (set_exit_signal SIGCHLD) (sy w) t) as (s1 & -> & Q1 & _); eauto. by repeat split. }
  cbn [mbind option_bind]. destruct (q_some _ _ _ Q1 p t Ht) as (t1 & -> & E1 & _). cbn [fmap option_fmap option_map mbind option_bind].
  assert (Ep1 : p_pptr t1 = par (sy w) p) by (unfold p_pptr in *; by rewrite E1). rewrite Ep1. pose proof (inv_quiet w s1 ts ch i1 I Q1) as I1.
  destruct (send_sig_quiet (built w ts) (u32 (exit_signal t1)) (par (sy w) p) true s1 ts ch 0) as (r & s2 & -> & Q2);
    [apply (inv_ok I1)|apply (i_fine _ _ _ _ I1)|apply u32_range|done|].
  cbn [mbind option_bind]. pose proof (inv_quiet (World s1 (ph w)) s2 ts ch i1 I1 Q2) as I2. pose proof (quiet_trans _ _ _ _ Q1 Q2) as Q12.
  destruct (q_some _ _ _ Q12 p t Ht) as (t2 & -> & E2 & _). cbn [fmap option_fmap option_map mbind option_bind].
  assert (Ep2 : p_pptr t2 = par (sy w) p) by (unfold p_pptr in *; by rewrite E2). rewrite Ep2. destruct (inv_dom I2 _ Hpp) as [pp Hpp2]. cbn [sy] in Hpp2.
  rewrite Hpp2. cbn [fmap option_fmap option_map mbind option_bind].
  assert (Hq : wait_chldexit pp = [par (sy w) p]).
  { rewrite (i_queue _ _ _ _ I2 (par (sy w) p) (wait_chldexit pp)); [cbn [ph]; by rewrite Hph|unfold queue_of; cbn [sy]; by rewrite Hpp2]. }
  rewrite Hq. destruct (wake_one _ s2 pp Hpp2) as (s3 & t3 & E3 & Ht3 & Hst); [apply (inv_dom I2), (ok_current _ _ _ _ (inv_ok I2))|]. eauto.
Qed.

(** With [ptrace] a process can make [exit] use a null pointer: the only child of
    [init] has a child, which attaches to its parent, so that [init] has no child
    left, and exits. *)
Theorem attach_parent_exit_fails :
  let w := next (Switch 12288) ex3 in
  reach w /\ exists w1 w2, run (Attach 2) w = Some w1 /\ run ExitBegin w1 = Some w2 /\ run (ExitEnd 0) w2 = None.
Proof.
  cbv zeta. split; [apply reach_next; [apply ex3_reach|]; compute_guard|].
  eexists _, _. split; [vm_compute; reflexivity|]. split; [vm_compute; reflexivity|]. vm_compute. reflexivity.
Qed.

(** ** The theorems at the example *)

(** [init] sleeps in [wait4]; the first process exits, and [init] runs. *)
Definition ex4 : world := next (WaitStart 0 (-1) 0) ex3.
Definition ex5 : world := next (Switch 4096) (next (ExitEnd 0x500) (next ExitBegin ex2)).

Lemma ex4_reach : reach ex4.
Proof. apply reach_next; [apply ex3_reach|]; compute_guard. Qed.

Lemma ex_task x w : bool_decide (x <> 0 /\ x ∈ tasks (sy w)) = true -> is_task x (sy w).
Proof. apply bool_decide_eq_true. Qed.

Definition task_at (x : Z) (w : world) : task_struct := default (idle_struct (idle_task 0 0) nolinks) (store (sy w) !! x).

Lemma task_at_some x w : bool_decide (is_Some (store (sy w) !! x)) = true -> store (sy w) !! x = Some (task_at x w).
Proof. intros [t Ht]%bool_decide_eq_true. unfold task_at. by rewrite Ht. Qed.

Ltac ex_compute := vm_compute; reflexivity.


Lemma pids_unique_witness : pid_of (sy ex3) 8192 = Some 2 /\ 8192 = 8192 /\ 0 <= 2 <= 32767 /\ (2 = 0 <-> 8192 = init_task).
Proof.
  split; [ex_compute|]. apply (pids_unique ex3 8192 8192 2 ex3_reach); [apply ex_task; ex_compute|apply ex_task; ex_compute|ex_compute|ex_compute].
Defined.


Lemma wait4_finds_witness : exists l s', siblings (p_cptr (task_at 4096 ex3)) l (sy ex3) /\
  wait_start 0 (-1) WNOHANG (sy ex3) = Some (found (-1) WNOHANG (task_at 4096 ex3) l (sy ex3), s').
Proof.
  destruct (wait4_finds ex3 (task_at 4096 ex3) (-1) WNOHANG ex3_reach) as (l & s' & E1 & _ & _ & E2 & _); [ex_compute|apply (task_at_some 4096); ex_compute|eauto].
Defined.

Lemma notify_wakes_witness : exists s' t,
  notify_parent 8192 (sy ex4) = Some s' /\ store s' !! par (sy ex4) 8192 = Some t /\ state (sched t) <> TASK_INTERRUPTIBLE.
Proof. apply (notify_wakes ex4 8192 (-1) 0 ex4_reach); [apply ex_task; ex_compute|done|ex_compute]. Defined.

Lemma sigcont_clears_status_witness : exit_code (sched (task_at 8192 ex5)) = 0x500 /\ exists s' t',
  send_sig SIGCONT 8192 false (sy ex5) = Some (0, s') /\ store s' !! 8192 = Some t' /\ status (reaped t') = 0.
Proof.
  split; [ex_compute|]. destruct (sigcont_clears_status (sy ex5) 8192 false (task_at 4096 ex5) (task_at 8192 ex5)) as (s' & t' & A & B & _ & _ & _ & C);
    [apply (task_at_some 4096); ex_compute|apply task_at_some; ex_compute|done|ex_compute|ex_compute|ex_compute|eauto].
Defined.

Lemma kill_pg_spec_witness : exists ts s',
  kill_pg 1 SIGHUP false (sy ex3) = Some (kill_result SIGHUP false (task_at 4096 ex3) (targets (fun t => pgrp t =? 1) ts (sy ex3)), s').
Proof.
  destruct (reach_ok ex3 ex3_reach) as (ts & ch & H).
  destruct (kill_pg_spec 1 SIGHUP false (sy ex3) ts ch 0 (task_at 4096 ex3)) as (s' & E & _); [by compute|done|done|apply (task_at_some 4096); ex_compute|eauto].
Defined.

Lemma kill_authorised_witness : exists r s', sys_kill 2 SIGKILL (sy ex3) = Some (r, s') /\ rest s' = rest (sy ex3).
Proof.
  destruct (reach_ok ex3 ex3_reach) as (ts & ch & H).
  destruct (kill_authorised 2 SIGKILL (sy ex3) ts ch 0 (task_at 4096 ex3)) as (r & s' & E & Er & _); [done|apply (task_at_some 4096); ex_compute|by compute|eauto].
Defined.

Lemma find_empty_process_spec_witness : exists lp,
  find_empty_process 382 (sy ex3) = Some (slot_result (sy ex3) 0, set_last_pid lp (sy ex3)) /\ 1 <= lp <= 32767.
Proof.
  destruct (reach_ok ex3 ex3_reach) as (ts & ch & H).
  destruct (find_empty_process_spec (sy ex3) ts ch 0 0 H) as (lp & E & Hlp & _); [vm_compute; split; discriminate|ex_compute|eauto].
Defined.

End ProcsReach.
