(* ===== verification/Jobs.v ===== *)
(** * Priorities, process groups and sessions ([src/kernel/sys.c])

    [setpriority], [getpriority], [setpgid], [getpgid], [getpgrp] and [setsid] on the
    task table.  As they change nothing the process tree depends on, each is a step of
    the machine of [ProcsStep]; what they do is described case by case. *)

From S2P Require Import Prelude Sched Sys Dll Tasks Kill Procs ProcsFork ProcsInv ProcsStep ProcsSafe ProcsBorn ProcsReach.
From Stdlib Require Import ZArith Lia.
From stdpp Require Import base list gmap sets relations.
Local Open Scope Z_scope.

Module Jobs.
Import Sched Tasks Kill Procs ProcsFork ProcsInv ProcsStep ProcsSafe ProcsReach.

Definition PZERO : Z := 15.
Definition PRIO_PROCESS : Z := 0.
Definition PRIO_PGRP : Z := 1.
Definition PRIO_USER : Z := 2.

(** [p] is the address of the task [t], [cp] that of the current task [c]. *)
Definition proc_sel (p : Z) (t : task_struct) (cp : Z) (c : task_struct) (which who : Z) : bool :=
  if which =? PRIO_PROCESS then
    if (who =? 0) && (p =? cp) then true else pid t =? who
  else if which =? PRIO_PGRP then
    pgrp t =? (if who =? 0 then pgrp c else who)
  else if which =? PRIO_USER then
    Sys.uid (cred t) =? (if who =? 0 then Sys.uid (cred c) else who)
  else false.

Definition set_prio (x : Z) (t : task_struct) : task_struct := set_sched (Sched.set_priority (sched t) x) t.

(** The loop of [setpriority] over [l], the entries of [task] from the last on. *)
Fixpoint setpriority_loop (l : list Z) (which who priority error : Z) (s : system) : option (Z * system) :=
  match l with
  | [] => Some (error, s)
  | p :: l =>
      if p =? 0 then setpriority_loop l which who priority error s
      else
        t ← store s !! p; c ← store s !! current s;
        if negb (proc_sel p t (current s) c which who) then setpriority_loop l which who priority error s
        else if negb (Sys.uid (cred t) =? Sys.euid (cred c)) && negb (Sys.uid (cred t) =? Sys.uid (cred c))
                && negb (Sys.suser (cred c))
        then setpriority_loop l which who priority EPERM s
        else
          let error := if error =? ESRCH then 0 else error in
          if (Sched.priority (sched t) <? priority) && negb (Sys.suser (cred c))
          then setpriority_loop l which who priority EACCES s
          else s ← upd p (set_prio priority) s; setpriority_loop l which who priority error s
  end.

Definition nice_priority (niceval : Z) : Z :=
  let priority := s32 (PZERO - niceval) in if priority <=? 0 then 1 else priority.

(** [&LAST_TASK] down to, but without, [&FIRST_TASK]. *)
Definition from_last (s : system) : list Z := reverse (drop 1 (tasks s)).

Definition sys_setpriority (which who niceval : Z) (s : system) : option (Z * system) :=
  if (2 <? which) || (which <? 0) then Some (- EINVAL, s)
  else
    '(error, s) ← setpriority_loop (from_last s) which who (nice_priority niceval) ESRCH s;
    Some (- error, s).

Fixpoint getpriority_loop (l : list Z) (which who max_prio : Z) (s : system) : option Z :=
  match l with
  | [] => Some max_prio
  | p :: l =>
      if p =? 0 then getpriority_loop l which who max_prio s
      else
        t ← store s !! p; c ← store s !! current s;
        if negb (proc_sel p t (current s) c which who) then getpriority_loop l which who max_prio s
        else getpriority_loop l which who
               (if max_prio <? Sched.priority (sched t) then Sched.priority (sched t) else max_prio) s
  end.

Definition sys_getpriority (which who : Z) (s : system) : option Z :=
  if (2 <? which) || (which <? 0) then Some (- EINVAL)
  else
    max_prio ← getpriority_loop (from_last s) which who 0 s;
    Some (if negb (max_prio =? 0) then max_prio else - ESRCH).

(** [for_each_task(p) if (P(p)) goto found;]: the task found. *)
Definition find_task (P : task_struct -> bool) (s : system) : option (option Z) :=
  '(_, r) ← for_each_task fuel
    (fun p _ s => t ← store s !! p; if P t then Some (s, inr p) else Some (s, inl tt)) init_task tt s;
  Some (match r with inl _ => None | inr p => Some p end).

Definition sys_setpgid (pd pgid : Z) (s : system) : option (Z * system) :=
  c ← store s !! current s;
  let pd := if pd =? 0 then pid c else pd in
  let pgid := if pgid =? 0 then pd else pgid in
  if pgid <? 0 then Some (- EINVAL, s)
  else
    found ← find_task (fun t => pid t =? pd) s;
    match found with
    | None => Some (- ESRCH, s)
    | Some p =>
        t ← store s !! p;
        let go_on :=
          if negb (leader t =? 0) then Some (- EPERM, s)
          else if negb (pgid =? pd) then
            tmp ← find_task (fun t => (pgrp t =? pgid) && (session t =? session c)) s;
            match tmp with
            | None => Some (- EPERM, s)
            | Some _ => s ← upd p (set_pgrp pgid) s; Some (0, s)
            end
          else s ← upd p (set_pgrp pgid) s; Some (0, s) in
        if (p_pptr t =? current s) || (p_opptr t =? current s) then
          if negb (session t =? session c) then Some (- EPERM, s)
          else if did_exec t then Some (- EACCES, s)
          else go_on
        else if negb (p =? current s) then Some (- ESRCH, s)
        else go_on
    end.

Definition sys_getpgid (pd : Z) (s : system) : option Z :=
  c ← store s !! current s;
  if pd =? 0 then Some (pgrp c)
  else
    found ← find_task (fun t => pid t =? pd) s;
    match found with
    | None => Some (- ESRCH)
    | Some p => rd p pgrp s
    end.

Definition sys_getpgrp (s : system) : option Z := rd (current s) pgrp s.

Definition sys_setsid (s : system) : option (Z * system) :=
  l ← rd (current s) leader s;
  if negb (l =? 0) then Some (- EPERM, s)
  else
    s ← upd (current s) (set_leader 1) s;
    n ← rd (current s) pid s;
    s ← upd (current s) (fun t => set_session n (set_pgrp n t)) s;
    s ← upd (current s) (set_tty (-1)) s;
    r ← rd (current s) pgrp s; Some (r, s).

(** ** What the loops find *)

Section State.
Context (s : system) (ts : list Z) (ch : Z -> list Z) (e : Z) (O : ok s ts ch e).

Lemma find_task_spec P : find_task P s = Some (first P ts s).
Proof.
  unfold find_task.
  rewrite (for_each_first P (fun p s => Some (s, p)) _ s ts ch e); [|apply O|eapply table_bound; apply O|].
  2:{ intros p t Ht. rewrite Ht. cbn [mbind option_bind]. by destruct (P t). }
  by destruct (first P ts s).
Qed.

Lemma first_some P p : first P ts s = Some p -> exists t, store s !! p = Some t /\ P t = true /\ p ∈ ts.
Proof. intros E. pose proof (first_spec P ts s) as H. rewrite E in H. destruct H as (Hp & t & Ht & HP). eauto. Qed.

Lemma from_last_dom p : p ∈ from_last s -> p <> 0 -> exists t, store s !! p = Some t.
Proof.
  intros Hp N. unfold from_last in Hp. rewrite elem_of_reverse in Hp.
  assert (Hin : p ∈ tasks s).
  { destruct (tasks s) as [|q l]; cbn in Hp; [done|]. by apply list_elem_of_further. }
  apply (ok_dom s ts ch e p O). by apply (table_in _ _ (ok_table _ _ _ _ O)).
Qed.
End State.

(** ** Quiet changes *)

Lemma keeps_prio b x t : keeps b t (set_prio x t).
Proof. by repeat split. Qed.

Lemma setpriority_quiet b l : forall which who priority error s c,
  store s !! current s = Some c -> (forall p, p ∈ l -> p <> 0 -> is_Some (store s !! p)) ->
  exists r s', setpriority_loop l which who priority error s = Some (r, s') /\ quiet b s s'.
Proof.
  induction l as [|p l IH]; intros which who priority error s c Hc D; cbn [setpriority_loop];
    [eexists _, _; split; [done|apply quiet_refl]|].
  assert (Dl : forall q, q ∈ l -> q <> 0 -> is_Some (store s !! q)) by (intros q Hq; apply D; by right).
  destruct (Z.eqb_spec p 0) as [|Np]; [by apply (IH _ _ _ _ _ c)|].
  destruct (D p) as [t Ht]; [left|done|]. rewrite Ht, Hc. cbn [mbind option_bind].
  destruct (negb _); [by apply (IH _ _ _ _ _ c)|]. destruct (_ && _ && _); [by apply (IH _ _ _ _ _ c)|].
  destruct (_ && _); [by apply (IH _ _ _ _ _ c)|].
  destruct (quiet_upd b p (set_prio priority) s t Ht (keeps_prio _ _ _)) as (s1 & -> & Q & _). cbn [mbind option_bind].
  assert (Hc1 : exists c1, store s1 !! current s1 = Some c1).
  { rewrite (q_current _ _ _ Q). destruct (q_some _ _ _ Q _ _ Hc) as (c1 & ? & _). eauto. }
  destruct Hc1 as [c1 Hc1].
  destruct (IH which who priority (if error =? ESRCH then 0 else error) s1 c1 Hc1) as (r & s' & -> & Q').
  { intros q Hq Nq. apply (quiet_is_Some b s s1 q Q). auto. }
  eexists _, _. split; [done|]. by eapply quiet_trans.
Qed.

Inductive job :=
  | Setpriority (which who niceval : Z)
  | Setpgid (pd pgid : Z)
  | Setsid.

Definition job_run (j : job) (s : system) : option (Z * system) :=
  match j with
  | Setpriority which who niceval => sys_setpriority which who niceval s
  | Setpgid pd pgid => sys_setpgid pd pgid s
  | Setsid => sys_setsid s
  end.

Lemma setpgid_quiet b pd pgid s ts ch e : ok s ts ch e ->
  exists r s', sys_setpgid pd pgid s = Some (r, s') /\ quiet b s s'.
Proof.
  intros O. unfold sys_setpgid. destruct (ok_dom s ts ch e _ O (ok_current _ _ _ _ O)) as [c Hc]. rewrite Hc.
  cbn [mbind option_bind]. assert (Same : forall r : Z, exists r' s', Some (r, s) = Some (r', s') /\ quiet b s s').
  { intros r. eexists _, _. split; [done|apply quiet_refl]. }
  set (pd1 := if pd =? 0 then _ else _). set (g := if pgid =? 0 then _ else _).
  destruct (g <? 0); [apply Same|]. rewrite (find_task_spec s ts ch e O (fun t => pid t =? pd1)). cbn [mbind option_bind].
  destruct (first (fun t => pid t =? pd1) ts s) as [p|] eqn:F; [|apply Same]. apply first_some in F as (t & Ht & _ & _). rewrite Ht.
  cbn [mbind option_bind]. rewrite !(find_task_spec s ts ch e O). cbn [mbind option_bind].
  assert (Do : exists r s', (s ← upd p (set_pgrp g) s; Some (0, s)) = Some (r, s') /\ quiet b s s').
  { destruct (quiet_upd b p (set_pgrp g) s t Ht) as (s1 & -> & Q & _); [by repeat split|]. eexists _, _. split; [done|exact Q]. }
  destruct (_ || _).
  - destruct (negb _); [apply Same|]. destruct (did_exec t); [apply Same|].
    destruct (negb _); [apply Same|]. destruct (negb _); [|exact Do]. by destruct (first _ ts s).
  - destruct (negb _); [apply Same|].
    destruct (negb _); [apply Same|]. destruct (negb _); [|exact Do]. by destruct (first _ ts s).
Qed.

Lemma setsid_spec s c : store s !! current s = Some c ->
  sys_setsid s = if negb (leader c =? 0) then Some (- EPERM, s)
    else Some (pid c, set_store (<[current s := set_tty (-1) (set_session (pid c) (set_pgrp (pid c) (set_leader 1 c)))]> (store s)) s).
Proof.
  intros Hc. unfold sys_setsid, rd, upd. rewrite Hc. cbn [fmap option_fmap option_map mbind option_bind].
  destruct (negb _); [done|]. cbn [store set_store current]. rewrite !lookup_insert_eq.
  cbn [fmap option_fmap option_map mbind option_bind store set_store current].
  rewrite !lookup_insert_eq. cbn [fmap option_fmap option_map mbind option_bind store set_store current].
  rewrite !insert_insert_eq, !lookup_insert_eq. done.
Qed.

Lemma job_quiet b j s ts ch e : ok s ts ch e -> exists r s', job_run j s = Some (r, s') /\ quiet b s s'.
Proof.
  intros O. destruct (ok_dom s ts ch e _ O (ok_current _ _ _ _ O)) as [c Hc].
  destruct j as [which who niceval|pd pgid|]; cbn [job_run].
  - unfold sys_setpriority. destruct (_ || _); [eexists _, _; split; [done|apply quiet_refl]|].
    destruct (setpriority_quiet b (from_last s) which who (nice_priority niceval) ESRCH s c Hc) as (r & s' & -> & Q).
    { intros p Hp N. by destruct (from_last_dom s ts ch e O p Hp N) as [t ->]. }
    eexists _, _. split; [done|exact Q].
  - by eapply setpgid_quiet.
  - rewrite (setsid_spec s c Hc). destruct (negb _); [eexists _, _; split; [done|apply quiet_refl]|].
    eexists _, _. split; [done|].
    destruct (quiet_upd b (current s) (fun c => set_tty (-1) (set_session (pid c) (set_pgrp (pid c) (set_leader 1 c)))) s c Hc)
      as (s1 & E & Q & _); [by repeat split|]. unfold upd in E. rewrite Hc in E. by injection E as <-.
Qed.

(** ** [setpriority] *)

(** Whether the current task [c] at [cp] may give the task [t] at [x] the priority. *)
Definition may_renice (priority : Z) (c t : task_struct) : bool :=
  ((Sys.uid (cred t) =? Sys.euid (cred c)) || (Sys.uid (cred t) =? Sys.uid (cred c)) || Sys.suser (cred c))
  && ((priority <=? Sched.priority (sched t)) || Sys.suser (cred c)).

(** The store after the loop. *)
Definition reniced (which who priority cp : Z) (c : task_struct) (l : list Z) (s : system) (x : Z) : option task_struct :=
  t ← store s !! x;
  Some (if bool_decide (x ∈ l) && negb (x =? 0) && proc_sel x t cp c which who && may_renice priority c t
        then set_prio priority t else t).

(** The tasks of [l] that the loop selects. *)
Definition selects (which who cp : Z) (c : task_struct) (l : list Z) (s : system) (x : Z) (t : task_struct) : Prop :=
  x ∈ l /\ x <> 0 /\ store s !! x = Some t /\ proc_sel x t cp c which who = true.

Definition same_creds (c c' : task_struct) : Prop := cred c' = cred c /\ pgrp c' = pgrp c.

Lemma proc_sel_creds x t cp c c' which who : same_creds c c' -> proc_sel x t cp c' which who = proc_sel x t cp c which who.
Proof. intros [E1 E2]. unfold proc_sel. by rewrite E1, E2. Qed.

Lemma may_renice_creds p c c' t : same_creds c c' -> may_renice p c' t = may_renice p c t.
Proof. intros [E1 E2]. unfold may_renice. by rewrite E1. Qed.

Lemma selects_cons_not which who cp c p l s x t : (forall t', store s !! p = Some t' -> p <> 0 -> proc_sel p t' cp c which who = false) ->
  selects which who cp c (p :: l) s x t <-> selects which who cp c l s x t.
Proof.
  intros N. unfold selects. rewrite elem_of_cons. split; [|tauto].
  intros ([-> |Hx] & H0 & Ht & Hs); [|tauto]. by rewrite (N t Ht H0) in Hs.
Qed.

Lemma reniced_cons_not which who priority cp c p l s x :
  (forall t', store s !! p = Some t' -> p <> 0 -> proc_sel p t' cp c which who && may_renice priority c t' = false) ->
  reniced which who priority cp c (p :: l) s x = reniced which who priority cp c l s x.
Proof.
  intros N. unfold reniced. destruct (store s !! x) as [t|] eqn:Ht; [|done]. cbn [mbind option_bind]. f_equal.
  destruct (decide (x = p)) as [-> |Nx].
  - destruct (Z.eqb_spec p 0) as [|Np]; [cbn; by rewrite !andb_false_r|]. specialize (N t Ht Np).
    rewrite <- !andb_assoc, N. by rewrite !andb_false_r.
  - replace (bool_decide (x ∈ p :: l)) with (bool_decide (x ∈ l)); [done|].
    apply bool_decide_ext. rewrite elem_of_cons. tauto.
Qed.

(** What the loop returns, from the error so far. *)
Definition loop_result (which who priority cp error : Z) (c : task_struct) (l : list Z) (s : system) (r : Z) : Prop :=
  (r = 0 <-> (error = 0 \/ error = ESRCH /\ exists x t, selects which who cp c l s x t)
             /\ forall x t, selects which who cp c l s x t -> may_renice priority c t = true)
  /\ (r = ESRCH <-> error = ESRCH /\ forall x t, ~ selects which who cp c l s x t).

Lemma loop_result_cons_not which who priority cp error c p l s r :
  (forall t', store s !! p = Some t' -> p <> 0 -> proc_sel p t' cp c which who = false) ->
  loop_result which who priority cp error c l s r -> loop_result which who priority cp error c (p :: l) s r.
Proof.
  intros N [H1 H2]. unfold loop_result. setoid_rewrite (selects_cons_not which who cp c p l s _ _ N). done.
Qed.

Lemma loop_result_refused which who priority cp error e' c p t l s r :
  p <> 0 -> store s !! p = Some t -> proc_sel p t cp c which who = true -> may_renice priority c t = false ->
  e' <> 0 -> e' <> ESRCH ->
  loop_result which who priority cp e' c l s r -> loop_result which who priority cp error c (p :: l) s r.
Proof.
  intros Np Ht Hs Hm N0 NE [H1 H2]. assert (S : selects which who cp c (p :: l) s p t) by (split; [left|done]).
  split; split.
  - intros R. apply H1 in R as [[?|[? _]] _]; done.
  - intros [_ R]. by rewrite (R p t S) in Hm.
  - intros R. by apply H2 in R as [? _].
  - intros [_ R]. by destruct (R p t S).
Qed.

Lemma may_renice_set q c t : may_renice q c t = true -> may_renice q c (set_prio q t) = true.
Proof.
  unfold may_renice. cbn. intros [H1 H2]%andb_true_iff. rewrite H1. by destruct (Z.leb_spec q q); [|lia].
Qed.

(** A step that gives a task its new priority. *)
Lemma loop_result_done which who priority cp error c p t l s s1 r :
  p <> 0 -> store s !! p = Some t -> proc_sel p t cp c which who = true -> may_renice priority c t = true ->
  store s1 = <[p := set_prio priority t]> (store s) ->
  loop_result which who priority cp (if error =? ESRCH then 0 else error) c l s1 r ->
  loop_result which who priority cp error c (p :: l) s r.
Proof.
  intros Np Ht Hs Hm E1 [H1 H2]. assert (S : selects which who cp c (p :: l) s p t) by (split; [left|done]).
  assert (Sx : (forall x u, selects which who cp c (p :: l) s x u -> may_renice priority c u = true)
               <-> forall x u, selects which who cp c l s1 x u -> may_renice priority c u = true).
  { split; intros A x u (Hx & Nx & Hu & Hsel).
    - rewrite E1 in Hu. destruct (decide (x = p)) as [-> |Ne].
      + rewrite lookup_insert_eq in Hu. injection Hu as <-. by apply may_renice_set.
      + rewrite lookup_insert_ne in Hu by done. apply (A x). split; [by right|done].
    - destruct (decide (x = p)) as [-> |Ne]; [by simplify_eq|]. apply elem_of_cons in Hx as [|Hx]; [done|].
      apply (A x). split; [done|]. split; [done|]. split; [|done]. by rewrite E1, lookup_insert_ne. }
  unfold loop_result. rewrite H1, H2, Sx. clear H1 H2 Sx. unfold ESRCH.
  destruct (Z.eqb_spec error 3) as [-> |Ne].
  - split; split; try tauto.
    + intros [_ A]. split; [right; split; [done|by exists p, t]|done].
    + intros [A _]. done.
    + intros [_ A]. by destruct (A p t S).
  - split; tauto.
Qed.

Lemma reniced_done which who priority cp c p t l s s1 x :
  p <> 0 -> store s !! p = Some t -> proc_sel p t cp c which who = true -> may_renice priority c t = true ->
  store s1 = <[p := set_prio priority t]> (store s) ->
  reniced which who priority cp c l s1 x = reniced which who priority cp c (p :: l) s x.
Proof.
  intros Np Ht Hs Hm E1. unfold reniced. rewrite E1. destruct (decide (x = p)) as [-> |Ne].
  - rewrite lookup_insert_eq, Ht. cbn [mbind option_bind]. f_equal.
    rewrite (bool_decide_true (p ∈ p :: l)) by left. rewrite Hs, Hm. destruct (Z.eqb_spec p 0); [done|]. cbn [andb negb].
    by case_bool.
  - rewrite lookup_insert_ne by done. replace (bool_decide (x ∈ p :: l)) with (bool_decide (x ∈ l)); [done|].
    apply bool_decide_ext. rewrite elem_of_cons. tauto.
Qed.

(** The two refusals and the grant of the loop body. *)
Lemma may_renice_foreign priority c t :
  negb (Sys.uid (cred t) =? Sys.euid (cred c)) && negb (Sys.uid (cred t) =? Sys.uid (cred c)) && negb (Sys.suser (cred c)) = true ->
  may_renice priority c t = false.
Proof.
  unfold may_renice. destruct (Sys.uid (cred t) =? Sys.euid (cred c)), (Sys.uid (cred t) =? Sys.uid (cred c)), (Sys.suser (cred c)); done.
Qed.

Lemma may_renice_up priority c t :
  (Sched.priority (sched t) <? priority) && negb (Sys.suser (cred c)) = true -> may_renice priority c t = false.
Proof.
  unfold may_renice. intros [B2 B3]%andb_true_iff. apply negb_true_iff in B3. rewrite B3, orb_false_r.
  replace (priority <=? _) with false by lia. apply andb_false_r.
Qed.

Lemma may_renice_own priority c t :
  negb (Sys.uid (cred t) =? Sys.euid (cred c)) && negb (Sys.uid (cred t) =? Sys.uid (cred c)) && negb (Sys.suser (cred c)) = false ->
  (Sched.priority (sched t) <? priority) && negb (Sys.suser (cred c)) = false -> may_renice priority c t = true.
Proof.
  unfold may_renice. destruct (Sys.uid (cred t) =? Sys.euid (cred c)), (Sys.uid (cred t) =? Sys.uid (cred c)), (Sys.suser (cred c));
    cbn; try done; lia.
Qed.

Lemma setpriority_loop_spec l : forall which who priority error s c c0,
  store s !! current s = Some c -> same_creds c0 c -> (forall p, p ∈ l -> p <> 0 -> is_Some (store s !! p)) ->
  exists r s', setpriority_loop l which who priority error s = Some (r, s')
    /\ (forall x, store s' !! x = reniced which who priority (current s) c0 l s x) /\ rest s' = rest s
    /\ loop_result which who priority (current s) error c0 l s r.
Proof.
  induction l as [|p l IH]; intros which who priority error s c c0 Hc SC D; cbn [setpriority_loop].
  { eexists _, _. split; [done|]. split; [|split; [done|]].
    - intros x. unfold reniced. destruct (store s !! x); cbn; [|done]. by rewrite bool_decide_false by apply not_elem_of_nil.
    - assert (N : forall x t, ~ selects which who (current s) c0 [] s x t) by (by intros x t [?%elem_of_nil _]).
      split; split; try done.
      + intros ->. split; [by left|]. intros x t S. by destruct (N x t S).
      + intros [[|(_ & x & t & S)] _]; [done|]. by destruct (N x t S).
      + by intros [? _]. }
  assert (Dl : forall q, q ∈ l -> q <> 0 -> is_Some (store s !! q)) by (intros q Hq; apply D; by right).
  assert (Pass : forall e', 
    (forall t', store s !! p = Some t' -> p <> 0 -> proc_sel p t' (current s) c0 which who && may_renice priority c0 t' = false) ->
    (forall r, loop_result which who priority (current s) e' c0 l s r -> loop_result which who priority (current s) error c0 (p :: l) s r) ->
    exists r s', setpriority_loop l which who priority e' s = Some (r, s')
      /\ (forall x, store s' !! x = reniced which who priority (current s) c0 (p :: l) s x) /\ rest s' = rest s
      /\ loop_result which who priority (current s) error c0 (p :: l) s r).
  { intros e' N LR. destruct (IH which who priority e' s c c0 Hc SC Dl) as (r & s' & E & Hx & Hr & Hl).
    exists r, s'. split; [done|]. split; [|split; [done|by apply LR]].
    intros x. rewrite Hx. symmetry. by apply reniced_cons_not. }
  destruct (Z.eqb_spec p 0) as [-> |Np].
  { apply Pass; [done|]. intros r. by apply loop_result_cons_not. }
  destruct (D p) as [t Ht]; [left|done|]. rewrite Ht, Hc. cbn [mbind option_bind].
  rewrite (proc_sel_creds _ _ _ c0 c) by done. destruct SC as [SC1 SC2]. rewrite SC1.
  destruct (proc_sel p t (current s) c0 which who) eqn:Hs; cbn [negb].
  2:{ apply Pass; [|intros r; apply loop_result_cons_not]; intros t' Ht' _; simplify_eq; by rewrite Hs. }
  destruct (negb (_ =? _) && negb (_ =? _) && negb _) eqn:B1.
  { assert (Hm := may_renice_foreign priority c0 t B1).
    apply Pass; [intros t' Ht' _; simplify_eq; by rewrite Hm, andb_false_r|].
    intros r. by apply (loop_result_refused _ _ _ _ _ EPERM _ _ t). }
  destruct ((_ <? _) && negb _) eqn:B2.
  { assert (Hm := may_renice_up priority c0 t B2).
    apply Pass; [intros t' Ht' _; simplify_eq; by rewrite Hm, andb_false_r|].
    intros r. by apply (loop_result_refused _ _ _ _ _ EACCES _ _ t). }
  assert (Hm := may_renice_own priority c0 t B1 B2).
  unfold upd. rewrite Ht. cbn [mbind option_bind]. set (s1 := set_store _ s).
  assert (Hc1 : exists c1, store s1 !! current s1 = Some c1 /\ same_creds c0 c1).
  { cbn. destruct (decide (current s = p)) as [<-|Ne].
    - rewrite lookup_insert_eq. eexists. split; [done|]. simplify_eq. done.
    - rewrite lookup_insert_ne by done. by eexists. }
  destruct Hc1 as (c1 & Hc1 & SC').
  destruct (IH which who priority (if error =? ESRCH then 0 else error) s1 c1 c0 Hc1 SC') as (r & s' & E & Hx & Hr & Hl).
  { intros q Hq Nq. cbn. destruct (decide (q = p)) as [-> |]; [rewrite lookup_insert_eq; eauto|].
    rewrite lookup_insert_ne by done. auto. }
  exists r, s'. split; [done|]. split; [|split; [done|]].
  - intros x. rewrite Hx. by apply (reniced_done _ _ _ _ _ _ t).
  - by apply (loop_result_done _ _ _ _ _ _ _ t l s s1).
Qed.

Lemma job_reach w j : reach w ->
  exists r s', job_run j (sy w) = Some (r, s') /\ reach (World s' (ph w)).
Proof.
  intros R. destruct (reach_tree_inv w R) as (ts & ch & i1 & I).
  destruct (job_quiet (built w ts) j (sy w) ts ch 0 (inv_ok I)) as (r & s' & E & Q). exists r, s'. split; [done|].
  apply (reach_step w (Quiet s')); [done| |done]. exists (built w ts). split; [|done].
  intros x (c & nr & Hc & Ec). apply built_elem. exists c, nr. split; [by apply (task_ring w ts ch i1)|done].
Qed.

(** ** Theorems *)

(** In every state of the process tree [setpriority], [setpgid] and [setsid] have a
    result, and what they leave is again such a state. *)
Theorem jobs_keep_tree w j : reach w ->
  exists r s', job_run j (sy w) = Some (r, s') /\ reach (World s' (ph w)).
Proof. apply job_reach. Qed.

(** [setpriority] gives the new priority to exactly the selected tasks that the caller
    may renice (its own, and without privilege only to a lower priority), succeeds
    when there is one and all may be, and reports [ESRCH] when there is none. *)
Theorem setpriority_spec w which who niceval c : reach w -> 0 <= which <= 2 -> store (sy w) !! current (sy w) = Some c ->
  exists r s', sys_setpriority which who niceval (sy w) = Some (r, s') /\ rest s' = rest (sy w)
    /\ (forall x, store s' !! x = reniced which who (nice_priority niceval) (current (sy w)) c (from_last (sy w)) (sy w) x)
    /\ (r = 0 <-> (exists x t, selects which who (current (sy w)) c (from_last (sy w)) (sy w) x t)
                  /\ forall x t, selects which who (current (sy w)) c (from_last (sy w)) (sy w) x t ->
                       may_renice (nice_priority niceval) c t = true)
    /\ (r = - ESRCH <-> forall x t, ~ selects which who (current (sy w)) c (from_last (sy w)) (sy w) x t).
Proof.
  intros R W Hc. destruct (reach_tree_inv w R) as (ts & ch & i1 & I). unfold sys_setpriority.
  replace ((2 <? which) || (which <? 0)) with false by lia.
  destruct (setpriority_loop_spec (from_last (sy w)) which who (nice_priority niceval) ESRCH (sy w) c c Hc) as (r & s' & -> & Hx & Hr & H0 & H3).
  { done. }
  { intros p Hp N. by destruct (from_last_dom (sy w) ts ch 0 (inv_ok I) p Hp N) as [t ->]. }
  cbn [mbind option_bind]. exists (- r), s'. split; [done|]. split; [done|]. split; [done|]. split.
  - transitivity (r = 0); [lia|]. rewrite H0. unfold ESRCH.
    split; [intros [[|[_ A]] B]; done|]. intros [A B]. split; [by right|done].
  - transitivity (r = ESRCH); [lia|]. rewrite H3. tauto.
Qed.

(** Who may put the task [t] at [p] into the group [g]: a process itself, or its
    parent until it has executed a program, within one session; never a session
    leader, and only into a group of the session or its own. *)
Definition may_join (p : Z) (t : task_struct) (g : Z) (c : task_struct) (s : system) : Prop :=
  0 <= g /\ leader t = 0
  /\ ((p_pptr t = current s \/ p_opptr t = current s) /\ session t = session c /\ did_exec t = false \/ p = current s)
  /\ (g = pid t \/ exists q u, is_task q s /\ store s !! q = Some u /\ pgrp u = g /\ session u = session c).

(** The outcome of [setpgid] for the process number [n] and the group [g]. *)
Definition setpgid_post (n g : Z) (c : task_struct) (s : system) (r : Z) (s' : system) : Prop :=
  (r = 0 -> exists p t, is_task p s /\ store s !! p = Some t /\ pid t = n
     /\ may_join p t g c s /\ s' = set_store (<[p := set_pgrp g t]> (store s)) s)
  /\ (r <> 0 -> s' = s /\ r ∈ [- EINVAL; - ESRCH; - EPERM; - EACCES]).

Lemma setpgid_no n g c s r : r ∈ [- EINVAL; - ESRCH; - EPERM; - EACCES] ->
  exists r' s', Some (r, s) = Some (r', s') /\ setpgid_post n g c s r' s'.
Proof.
  intros Hr. exists r, s. split; [done|]. split; [|done]. intros ->.
  rewrite !elem_of_cons in Hr. destruct Hr as [?|[?|[?|[?|?%elem_of_nil]]]]; done.
Qed.

Lemma setpgid_yes n g c s p t : is_task p s -> store s !! p = Some t -> pid t = n -> may_join p t g c s ->
  exists r s', (s ← upd p (set_pgrp g) s; Some (0, s)) = Some (r, s') /\ setpgid_post n g c s r s'.
Proof.
  intros T Ht Hn J. unfold upd. rewrite Ht. eexists _, _. split; [done|]. split; [|done]. intros _. by exists p, t.
Qed.

(** [setpgid] succeeds only on a process of that number that may join the group, of
    which it then is, and nothing else changes; when it fails nothing changes. *)
Theorem setpgid_spec w pd pgid c : reach w -> store (sy w) !! current (sy w) = Some c ->
  let n := if pd =? 0 then pid c else pd in let g := if pgid =? 0 then n else pgid in
  exists r s', sys_setpgid pd pgid (sy w) = Some (r, s') /\ setpgid_post n g c (sy w) r s'.
Proof.
  intros R Hc n g. destruct (reach_tree_inv w R) as (ts & ch & i1 & I). assert (O := inv_ok I). unfold sys_setpgid. rewrite Hc.
  cbn [mbind option_bind]. fold n. fold g.
  destruct (Z.ltb_spec g 0); [apply setpgid_no; set_solver|].
  rewrite !(find_task_spec (sy w) ts ch 0 O (fun t => pid t =? n)). cbn [mbind option_bind].
  destruct (first (fun t => pid t =? n) ts (sy w)) as [p|] eqn:F; [|apply setpgid_no; set_solver].
  apply first_some in F as (t & Ht & Hn%Z.eqb_eq & Hp). rewrite Ht. cbn [mbind option_bind].
  assert (Tp : is_task p (sy w)) by (apply (task_ring w ts ch i1 p I); by right).
  rewrite !(find_task_spec (sy w) ts ch 0 O). cbn [mbind option_bind].
  pose proof (first_spec (fun t => (pgrp t =? g) && (session t =? session c)) ts (sy w)) as G.
  set (go := if negb (leader t =? 0) then _ else _).
  assert (Go : (p_pptr t = current (sy w) \/ p_opptr t = current (sy w)) /\ session t = session c /\ did_exec t = false \/ p = current (sy w) ->
    exists r s', go = Some (r, s') /\ setpgid_post n g c (sy w) r s').
  { intros A. unfold go. destruct (Z.eqb_spec (leader t) 0) as [L0|]; [|apply setpgid_no; set_solver]. cbn [negb].
    destruct (Z.eqb_spec g n) as [Eg|Ng]; cbn [negb].
    { apply (setpgid_yes _ _ _ _ p t Tp Ht Hn). split_and!; auto. left. congruence. }
    destruct (first _ ts (sy w)) as [q|]; [|apply setpgid_no; set_solver].
    apply (setpgid_yes _ _ _ _ p t Tp Ht Hn). split_and!; auto. right.
    destruct G as (Hq & u & Hu & [E1%Z.eqb_eq E2%Z.eqb_eq]%andb_true_iff). exists q, u.
    split; [apply (task_ring w ts ch i1 q I); by right|done]. }
  destruct (_ || _) eqn:B.
  - destruct (Z.eqb_spec (session t) (session c)) as [S|]; [|apply setpgid_no; set_solver]. cbn [negb].
    destruct (did_exec t); [apply setpgid_no; set_solver|]. apply Go. left. split; [|done].
    apply orb_true_iff in B as [B|B]; apply Z.eqb_eq in B; auto.
  - destruct (Z.eqb_spec p (current (sy w))) as [Ep|]; cbn [negb]; [apply Go; by right|apply setpgid_no; set_solver].
Qed.

(** ** A group in two sessions *)

Definition do_job (j : job) (w : world) : world :=
  match job_run j (sy w) with Some (_, s) => World s (ph w) | None => w end.

Lemma do_job_reach j w : reach w -> reach (do_job j w).
Proof.
  intros R. destruct (job_reach w j R) as (r & s' & E & R'). unfold do_job. by rewrite E.
Qed.

Lemma do_job_world j w : World (sy (do_job j w)) (ph w) = do_job j w.
Proof. unfold do_job. destruct (job_run j (sy w)) as [[r s]|]; [done|by destruct w]. Qed.

(** Process 2 makes itself a group, puts its child in it and starts a session. *)
Definition leads : world := do_job (Setpgid 3 2) (do_job (Setpgid 0 0) (next (Switch 8192) ex3)).

(** Two processes of a group can be in different sessions: [setsid] does not refuse a
    process that leads a group. *)
Theorem setsid_splits_group : reach leads
  /\ exists s' t u, job_run Setsid (sy leads) = Some (2, s') /\ reach (World s' (ph leads))
      /\ store s' !! 8192 = Some t /\ store s' !! 12288 = Some u /\ pgrp t = pgrp u /\ session t <> session u.
Proof.
  assert (R0 : reach leads).
  { apply do_job_reach, do_job_reach, reach_next; [apply ex3_reach|]; compute_guard. }
  split; [exact R0|]. assert (R1 := do_job_reach Setsid leads R0).
  eexists (sy (do_job Setsid leads)), (task_at 8192 (do_job Setsid leads)), (task_at 12288 (do_job Setsid leads)).
  split; [vm_compute; reflexivity|]. split; [rewrite do_job_world; exact R1|].
  split; [apply task_at_some; vm_compute; reflexivity|]. split; [apply task_at_some; vm_compute; reflexivity|].
  split; [vm_compute; reflexivity|]. intros E. vm_compute in E. discriminate E.
Qed.

(** ** The theorems at the example *)

Lemma jobs_keep_tree_witness : exists r s', job_run Setsid (sy ex3) = Some (r, s') /\ reach (World s' (ph ex3)).
Proof. apply (jobs_keep_tree ex3 Setsid ex3_reach). Defined.

Lemma setpriority_spec_witness : exists r s', sys_setpriority PRIO_PROCESS 2 5 (sy ex3) = Some (r, s') /\ rest s' = rest (sy ex3).
Proof.
  destruct (setpriority_spec ex3 PRIO_PROCESS 2 5 (task_at 4096 ex3) ex3_reach) as (r & s' & E & Er & _);
    [by compute|apply (task_at_some 4096); vm_compute; reflexivity|eauto].
Defined.

Lemma setpgid_spec_witness : exists r s', sys_setpgid 2 0 (sy ex3) = Some (r, s')
  /\ setpgid_post 2 2 (task_at 4096 ex3) (sy ex3) r s'.
Proof. apply (setpgid_spec ex3 2 0 (task_at 4096 ex3) ex3_reach). apply (task_at_some 4096); vm_compute; reflexivity. Defined.
End Jobs.
