(* ===== verification/Pipe.v ===== *)
(** * Pipes and FIFOs ([src/fs/pipe.c], [src/fs/fifo.c],
      [src/include/linux/pipe_fs_i.h], [get_pipe_inode] of [src/fs/inode.c])

    One pipe and all processes that use it.  A process in a call runs until it
    returns or can sleep; it can sleep on the wait queue of the pipe, while it
    copies from or to user memory (a page fault), and in [__get_free_page].  What
    it needs to go on is recorded in [procs], with whether it was woken.  Each
    function below is one run without sleep; it ends in [Ret] or [Blocked].

    [sent] and [recv] are a history, not part of the kernel: what each writer and
    each reader transferred between taking and releasing the lock. *)

From S2P Require Import Prelude.
From Stdlib Require Import ZArith Lia.
From stdpp Require Import base list gmap.
Local Open Scope Z_scope.

Module Pipe.

Definition PIPE_BUF : Z := 4096.

(** ** The pipe *)

(** [base] is the contents of the page, [None] for a null pointer. *)
Record pipe_inode_info := Pipe {
  base : option (list Z);
  start : Z;
  len : Z;
  lock : Z;
  rd_openers : Z;
  wr_openers : Z;
  readers : Z;
  writers : Z
}.

Definition set_base (x : option (list Z)) (p : pipe_inode_info) : pipe_inode_info :=
  Pipe x (start p) (len p) (lock p) (rd_openers p) (wr_openers p) (readers p) (writers p).
Definition set_start (x : Z) (p : pipe_inode_info) : pipe_inode_info :=
  Pipe (base p) x (len p) (lock p) (rd_openers p) (wr_openers p) (readers p) (writers p).
Definition set_len (x : Z) (p : pipe_inode_info) : pipe_inode_info :=
  Pipe (base p) (start p) x (lock p) (rd_openers p) (wr_openers p) (readers p) (writers p).
Definition set_lock (x : Z) (p : pipe_inode_info) : pipe_inode_info :=
  Pipe (base p) (start p) (len p) x (rd_openers p) (wr_openers p) (readers p) (writers p).
Definition set_rd_openers (x : Z) (p : pipe_inode_info) : pipe_inode_info :=
  Pipe (base p) (start p) (len p) (lock p) x (wr_openers p) (readers p) (writers p).
Definition set_wr_openers (x : Z) (p : pipe_inode_info) : pipe_inode_info :=
  Pipe (base p) (start p) (len p) (lock p) (rd_openers p) x (readers p) (writers p).
Definition set_readers (x : Z) (p : pipe_inode_info) : pipe_inode_info :=
  Pipe (base p) (start p) (len p) (lock p) (rd_openers p) (wr_openers p) x (writers p).
Definition set_writers (x : Z) (p : pipe_inode_info) : pipe_inode_info :=
  Pipe (base p) (start p) (len p) (lock p) (rd_openers p) (wr_openers p) (readers p) x.

Definition PIPE_EMPTY (p : pipe_inode_info) : bool := len p =? 0.
Definition PIPE_FULL (p : pipe_inode_info) : bool := len p =? PIPE_BUF.
Definition PIPE_FREE (p : pipe_inode_info) : Z := u32 (PIPE_BUF - len p).
Definition PIPE_END (p : pipe_inode_info) : Z := Z.land (u32 (start p + len p)) (PIPE_BUF - 1).
Definition PIPE_MAX_RCHUNK (p : pipe_inode_info) : Z := u32 (PIPE_BUF - start p).
Definition PIPE_MAX_WCHUNK (p : pipe_inode_info) : Z := u32 (PIPE_BUF - PIPE_END p).

(** The tables of file operations. *)
Inductive fops :=
  | connecting_fifo_fops | read_fifo_fops | write_fifo_fops | rdwr_fifo_fops
  | read_pipe_fops | write_pipe_fops | rdwr_pipe_fops.

Record file := File { f_op : fops; f_nonblock : bool }.

(** Where a process is in a call on the file [f]. *)
Inductive phase :=
  | RSleep (f count : Z)                                    (* pipe_read: interruptible_sleep_on *)
  | RCopy (f count : Z) (got : list Z) (chars from : Z)     (* pipe_read: memcpy_tofs *)
  | WSleep (f : Z) (buf : list Z) (written free : Z)        (* pipe_write: interruptible_sleep_on *)
  | WCopy (f : Z) (buf : list Z) (written chars at_ : Z) (done : list Z)  (* pipe_write: memcpy_fromfs *)
  | CSleep (f count : Z)                                    (* connect_read *)
  | ORd1 (f : Z) (nonblock : bool)                          (* fifo_open: for a writer *)
  | ORd2 (f : Z) (nonblock : bool) (retval : Z)             (* fifo_open, mode 1: for wr_openers *)
  | OWr1 (f : Z) (nonblock : bool)
  | OWr2 (f : Z) (nonblock : bool) (retval : Z)
  | ORw1 (f : Z) (nonblock : bool)
  | ORw2 (f : Z) (nonblock : bool)
  | OPage (f : Z) (nonblock : bool) (op : fops).            (* fifo_open: __get_free_page *)

Record world := World {
  pp : pipe_inode_info;
  files : gmap Z file;
  procs : gmap Z (phase * bool);
  sent : list (Z * list Z);
  recv : list (Z * list Z)
}.

Definition set_pp (x : pipe_inode_info) (w : world) : world := World x (files w) (procs w) (sent w) (recv w).
Definition set_files (x : gmap Z file) (w : world) : world := World (pp w) x (procs w) (sent w) (recv w).
Definition set_procs (x : gmap Z (phase * bool)) (w : world) : world := World (pp w) (files w) x (sent w) (recv w).
Definition set_sent (x : list (Z * list Z)) (w : world) : world := World (pp w) (files w) (procs w) x (recv w).
Definition set_recv (x : list (Z * list Z)) (w : world) : world := World (pp w) (files w) (procs w) (sent w) x.
Definition on_pp (g : pipe_inode_info -> pipe_inode_info) (w : world) : world := set_pp (g (pp w)) w.

(** [wake_up_interruptible] on the wait queue of the pipe. *)
Definition wake_up (w : world) : world := set_procs ((fun pr => (pr.1, true)) <$> procs w) w.

(** The process that runs, whether it has a pending signal, and what
    [__get_free_page] answers: a page with arbitrary contents. *)
Record ctx := Ctx { me : Z; signal : bool; page : option (list Z) }.

(** [sigpipe]: the call sent [SIGPIPE] to the caller. *)
Inductive outcome := Ret (r : Z) (data : list Z) (sigpipe : bool) | Blocked.

Definition ret (c : ctx) (r : Z) (w : world) : option (world * outcome) :=
  Some (set_procs (delete (me c) (procs w)) w, Ret r [] false).
Definition ret_data (c : ctx) (r : Z) (data : list Z) (w : world) : option (world * outcome) :=
  Some (set_procs (delete (me c) (procs w)) w, Ret r data false).
Definition ret_sigpipe (c : ctx) (r : Z) (w : world) : option (world * outcome) :=
  Some (set_procs (delete (me c) (procs w)) w, Ret r [] true).
Definition sleep (c : ctx) (f : phase) (w : world) : option (world * outcome) :=
  Some (set_procs (<[me c := (f, false)]> (procs w)) w, Blocked).

Definition nonblock (f : Z) (w : world) : option bool := f_nonblock <$> files w !! f.

(** ** Reading *)

(** The loop over the chunks. *)
Definition read_next (c : ctx) (f count : Z) (got : list Z) (w : world) : option (world * outcome) :=
  let p := pp w in
  let size := len p in
  if (0 <? count) && negb (size =? 0) then
    let chars := PIPE_MAX_RCHUNK p in
    let chars := if count <? chars then count else chars in
    let chars := if size <? chars then size else chars in
    let p' := set_start (Z.land (u32 (start p + chars)) (PIPE_BUF - 1)) p in
    let p' := set_len (u32 (len p - chars)) p' in
    sleep c (RCopy f (count - chars) got chars (start p)) (set_pp p' w)
  else
    let w := set_recv (recv w ++ [(me c, got)]) w in
    let w := wake_up (on_pp (fun p => set_lock (u32 (lock p - 1)) p) w) in
    let read := Z.of_nat (length got) in
    if negb (read =? 0) then ret_data c read got w
    else if negb (writers (pp w) =? 0) then ret c (- EAGAIN) w
    else ret c 0 w.

Definition begin_read (c : ctx) (f count : Z) (w : world) : option (world * outcome) :=
  read_next c f count [] (on_pp (fun p => set_lock (u32 (lock p + 1)) p) w).

(** The loop of a blocking read, until the pipe is neither empty nor locked. *)
Definition read_wait (c : ctx) (f count : Z) (w : world) : option (world * outcome) :=
  let p := pp w in
  if PIPE_EMPTY p || negb (lock p =? 0) then
    if PIPE_EMPTY p && (writers p =? 0) then ret c 0 w
    else if signal c then ret c (- ERESTARTSYS) w
    else sleep c (RSleep f count) w
  else begin_read c f count w.

Definition pipe_read (c : ctx) (f count : Z) (w : world) : option (world * outcome) :=
  let p := pp w in
  nb ← nonblock f w;
  if nb : bool then
    if negb (lock p =? 0) then ret c (- EAGAIN) w
    else if PIPE_EMPTY p then if negb (writers p =? 0) then ret c (- EAGAIN) w else ret c 0 w
    else begin_read c f count w
  else read_wait c f count w.

(** The loop of [connect_read]. *)
Definition connect_read (c : ctx) (f count : Z) (w : world) : option (world * outcome) :=
  let p := pp w in
  fl ← files w !! f;
  if (len p =? 0) && (writers p =? 0) then
    if f_nonblock fl then ret c (- EAGAIN) w
    else
      let w := wake_up w in
      if signal c then ret c (- ERESTARTSYS) w else sleep c (CSleep f count) w
  else pipe_read c f count (set_files (<[f := File read_fifo_fops (f_nonblock fl)]> (files w)) w).

(** ** Writing *)

(** [written ? written : r] *)
Definition written_or (written r : Z) : Z := if negb (written =? 0) then written else r.

(** The loop of [pipe_write], with [written] bytes of [buf] done: where the code moves
    [buf] on and counts [count] down, the rest is [drop written buf] here. *)
Definition write_wait (c : ctx) (f : Z) (begin : world -> option (world * outcome)) (buf : list Z) (written free : Z)
    (w : world) : option (world * outcome) :=
  let p := pp w in
  let count := Z.of_nat (length buf) - written in
  if negb (0 <? count) then ret c written w
  else if (PIPE_FREE p <? u32 free) || negb (lock p =? 0) then
    if readers p =? 0 then ret_sigpipe c (written_or written (- EPIPE)) w
    else if signal c then ret c (written_or written (- ERESTARTSYS)) w
    else
      nb ← nonblock f w;
      if nb : bool then ret c (written_or written (- EAGAIN)) w
      else sleep c (WSleep f buf written free) w
  else begin (on_pp (fun p => set_lock (u32 (lock p + 1)) p) w).

(** A chunk of the loop inside. *)
Definition write_chunk (c : ctx) (f : Z) (buf : list Z) (written : Z) (done : list Z) (w : world) : option (world * outcome) :=
  let p := pp w in
  let count := Z.of_nat (length buf) - written in
  let free := PIPE_FREE p in
  let chars := PIPE_MAX_WCHUNK p in
  let chars := if count <? chars then count else chars in
  let chars := if free <? chars then free else chars in
  sleep c (WCopy f buf (written + chars) chars (PIPE_END p) done) (set_pp (set_len (u32 (len p + chars)) p) w).

(** The loop inside, entered with the lock just taken.  If it did not run at all the
    loop around would spin for ever; [None] stands for that, and it is proved not
    to happen. *)
Definition write_begin (c : ctx) (f : Z) (buf : list Z) (written : Z) (w : world) : option (world * outcome) :=
  if (0 <? Z.of_nat (length buf) - written) && negb (PIPE_FREE (pp w) =? 0) then write_chunk c f buf written [] w
  else None.

Definition write_next (c : ctx) (f : Z) (buf : list Z) (written : Z) (done : list Z) (w : world) : option (world * outcome) :=
  if (0 <? Z.of_nat (length buf) - written) && negb (PIPE_FREE (pp w) =? 0) then write_chunk c f buf written done w
  else
    let w := set_sent (sent w ++ [(me c, done)]) w in
    let w := wake_up (on_pp (fun p => set_lock (u32 (lock p - 1)) p) w) in
    write_wait c f (write_begin c f buf written) buf written 1 w.

Definition pipe_write (c : ctx) (f : Z) (buf : list Z) (w : world) : option (world * outcome) :=
  if readers (pp w) =? 0 then ret_sigpipe c (- EPIPE) w
  else
    let count := Z.of_nat (length buf) in
    let free := if count <=? PIPE_BUF then count else 1 in
    write_wait c f (write_begin c f buf 0) buf 0 free w.

(** ** Opening a FIFO *)

(** [do_open] gives the process its file when [fifo_open] returned 0. *)
Definition opened (c : ctx) (f : Z) (nb : bool) (op : fops) (w : world) : option (world * outcome) :=
  ret c 0 (set_files (<[f := File op nb]> (files w)) w).

(** [iput]: the page goes with the last user of the inode. *)
Definition iput (w : world) : world :=
  let w := wake_up w in
  if bool_decide (files w = ∅) && bool_decide (procs w = ∅) then on_pp (set_base None) w else w.

(** [do_open] drops the inode when [fifo_open] failed. *)
Definition open_fails (c : ctx) (r : Z) (w : world) : option (world * outcome) :=
  '(w, o) ← ret c r w;
  Some (iput w, o).

(** The end of [fifo_open], up to [__get_free_page] and after it. *)
Definition open_page (c : ctx) (f : Z) (nb : bool) (op : fops) (retval : Z) (w : world) : option (world * outcome) :=
  if negb (retval =? 0) then open_fails c retval w
  else match base (pp w) with
  | Some _ => opened c f nb op w
  | None => sleep c (OPage f nb op) w
  end.

Definition open_got_page (c : ctx) (f : Z) (nb : bool) (op : fops) (w : world) : option (world * outcome) :=
  match base (pp w), page c with
  | Some _, _ => opened c f nb op w
  | None, None => open_fails c (- ENOMEM) w
  | None, Some b =>
      let w := on_pp (fun p => set_base (Some b) (set_start 0 (set_len 0 (set_lock 0 p)))) w in
      opened c f nb op (set_sent [] (set_recv [] w))
  end.

(** [if (!PIPE_READERS++) wake_up_interruptible(...)] and the like. *)
Definition inc_readers (w : world) : world :=
  let w' := on_pp (fun p => set_readers (u32 (readers p + 1)) p) w in
  if readers (pp w) =? 0 then wake_up w' else w'.
Definition dec_readers (w : world) : world :=
  let w' := on_pp (fun p => set_readers (u32 (readers p - 1)) p) w in
  if readers (pp w') =? 0 then wake_up w' else w'.
Definition inc_writers (w : world) : world :=
  let w' := on_pp (fun p => set_writers (u32 (writers p + 1)) p) w in
  if writers (pp w) =? 0 then wake_up w' else w'.
Definition dec_writers (w : world) : world :=
  let w' := on_pp (fun p => set_writers (u32 (writers p - 1)) p) w in
  if writers (pp w') =? 0 then wake_up w' else w'.
Definition dec_rd_openers (w : world) : world :=
  let w' := on_pp (fun p => set_rd_openers (u32 (rd_openers p - 1)) p) w in
  if rd_openers (pp w') =? 0 then wake_up w' else w'.
Definition dec_wr_openers (w : world) : world :=
  let w' := on_pp (fun p => set_wr_openers (u32 (wr_openers p - 1)) p) w in
  if wr_openers (pp w') =? 0 then wake_up w' else w'.

(** Mode 1, from [while (PIPE_WR_OPENERS)] on. *)
Definition open_rd_rest (c : ctx) (f : Z) (nb : bool) (retval : Z) (w : world) : option (world * outcome) :=
  if negb (wr_openers (pp w) =? 0) then sleep c (ORd2 f nb retval) w
  else
    let op := if negb (writers (pp w) =? 0) then read_fifo_fops else connecting_fifo_fops in
    open_page c f nb op retval (if negb (retval =? 0) then dec_readers w else w).

(** [while (!PIPE_WRITERS)] *)
Definition open_rd_wait (c : ctx) (f : Z) (nb : bool) (w : world) : option (world * outcome) :=
  if writers (pp w) =? 0 then
    if signal c then open_rd_rest c f nb (- ERESTARTSYS) (dec_rd_openers w)
    else sleep c (ORd1 f nb) w
  else open_rd_rest c f nb 0 (dec_rd_openers w).

Definition open_rd (c : ctx) (f : Z) (nb : bool) (w : world) : option (world * outcome) :=
  let w := inc_readers w in
  if negb nb && (writers (pp w) =? 0)
  then open_rd_wait c f nb (on_pp (fun p => set_rd_openers (u32 (rd_openers p + 1)) p) w)
  else open_rd_rest c f nb 0 w.

(** Mode 2, from [while (PIPE_RD_OPENERS)] on. *)
Definition open_wr_rest (c : ctx) (f : Z) (nb : bool) (retval : Z) (w : world) : option (world * outcome) :=
  if negb (rd_openers (pp w) =? 0) then sleep c (OWr2 f nb retval) w
  else open_page c f nb write_fifo_fops retval (if negb (retval =? 0) then dec_writers w else w).

Definition open_wr_wait (c : ctx) (f : Z) (nb : bool) (w : world) : option (world * outcome) :=
  if readers (pp w) =? 0 then
    if signal c then open_wr_rest c f nb (- ERESTARTSYS) (dec_wr_openers w)
    else sleep c (OWr1 f nb) w
  else open_wr_rest c f nb 0 (dec_wr_openers w).

Definition open_wr (c : ctx) (f : Z) (nb : bool) (w : world) : option (world * outcome) :=
  if nb && (readers (pp w) =? 0) then open_fails c (- ENXIO) w
  else
    let w := inc_writers w in
    if readers (pp w) =? 0
    then open_wr_wait c f nb (on_pp (fun p => set_wr_openers (u32 (wr_openers p + 1)) p) w)
    else open_wr_rest c f nb 0 w.

(** Mode 3. *)
Definition open_rdwr_rest (c : ctx) (f : Z) (nb : bool) (w : world) : option (world * outcome) :=
  if negb (rd_openers (pp w) =? 0) then sleep c (ORw2 f nb) w
  else open_page c f nb rdwr_fifo_fops 0 w.

Definition open_rdwr_wait (c : ctx) (f : Z) (nb : bool) (w : world) : option (world * outcome) :=
  if negb (wr_openers (pp w) =? 0) then sleep c (ORw1 f nb) w
  else open_rdwr_rest c f nb (inc_writers w).

Definition fifo_open (c : ctx) (f f_mode : Z) (nb : bool) (w : world) : option (world * outcome) :=
  if f_mode =? 1 then open_rd c f nb w
  else if f_mode =? 2 then open_wr c f nb w
  else if f_mode =? 3 then open_rdwr_wait c f nb (inc_readers w)
  else open_fails c (- EINVAL) w.

(** ** The tables of operations *)

Definition bad_pipe_rw (c : ctx) (w : world) : option (world * outcome) := ret c (- EBADF) w.
Definition pipe_lseek : Z := - ESPIPE.
Definition pipe_readdir : Z := - ENOTDIR.

Definition FIONREAD : Z := 0x541B.

(** [verify] is what [verify_area] answers; the second component is what is stored at
    the address [arg]. *)
Definition pipe_ioctl (p : pipe_inode_info) (cmd verify : Z) : Z * option Z :=
  if cmd =? FIONREAD then (verify, if verify =? 0 then Some (len p) else None)
  else (- EINVAL, None).

Definition pipe_read_release (w : world) : world := wake_up (on_pp (fun p => set_readers (u32 (readers p - 1)) p) w).
Definition pipe_write_release (w : world) : world := wake_up (on_pp (fun p => set_writers (u32 (writers p - 1)) p) w).
Definition pipe_rdwr_release (w : world) : world :=
  wake_up (on_pp (fun p => set_writers (u32 (writers p - 1)) (set_readers (u32 (readers p - 1)) p)) w).

(** A table: its [read], [write] and [release]. *)
Definition op_read (o : fops) : ctx -> Z -> Z -> world -> option (world * outcome) :=
  match o with
  | connecting_fifo_fops => connect_read
  | read_fifo_fops | rdwr_fifo_fops | read_pipe_fops | rdwr_pipe_fops => pipe_read
  | write_fifo_fops | write_pipe_fops => fun c _ _ w => bad_pipe_rw c w
  end.

Definition op_write (o : fops) : ctx -> Z -> list Z -> world -> option (world * outcome) :=
  match o with
  | write_fifo_fops | rdwr_fifo_fops | write_pipe_fops | rdwr_pipe_fops => pipe_write
  | connecting_fifo_fops | read_fifo_fops | read_pipe_fops => fun c _ _ w => bad_pipe_rw c w
  end.

Definition op_release (o : fops) : world -> world :=
  match o with
  | connecting_fifo_fops | read_fifo_fops | read_pipe_fops => pipe_read_release
  | write_fifo_fops | write_pipe_fops => pipe_write_release
  | rdwr_fifo_fops | rdwr_pipe_fops => pipe_rdwr_release
  end.

(** ** [select] *)

Inductive sel := SEL_IN | SEL_OUT | SEL_EX.

(** The queue [select_wait] puts the process on. *)
Inductive sel_queue := PIPE_WAIT | i_wait.

Definition pipe_select (s : sel) (p : pipe_inode_info) : Z * option sel_queue :=
  match s with
  | SEL_IN => if negb (PIPE_EMPTY p) || (writers p =? 0) then (1, None) else (0, Some PIPE_WAIT)
  | SEL_OUT => if negb (PIPE_FULL p) || (readers p =? 0) then (1, None) else (0, Some PIPE_WAIT)
  | SEL_EX => if (readers p =? 0) || (writers p =? 0) then (1, None) else (0, Some i_wait)
  end.

Definition fifo_select (s : sel) (p : pipe_inode_info) : Z * option sel_queue :=
  match s with
  | SEL_IN => if negb (PIPE_EMPTY p) then (1, None) else (0, Some PIPE_WAIT)
  | SEL_OUT => if negb (PIPE_FULL p) || (readers p =? 0) then (1, None) else (0, Some PIPE_WAIT)
  | SEL_EX => if (readers p =? 0) || (writers p =? 0) then (1, None) else (0, Some i_wait)
  end.

(** It may change the table of the file. *)
Definition connect_select (s : sel) (p : pipe_inode_info) (fl : file) : Z * option sel_queue * file :=
  match s with
  | SEL_IN => if negb (PIPE_EMPTY p) then (1, None, File read_fifo_fops (f_nonblock fl)) else (0, Some PIPE_WAIT, fl)
  | SEL_OUT => if negb (PIPE_FULL p) then (1, None, fl) else (0, Some PIPE_WAIT, fl)
  | SEL_EX => if (readers p =? 0) || (writers p =? 0) then (1, None, fl) else (0, Some i_wait, fl)
  end.

Definition op_select (fl : file) (s : sel) (p : pipe_inode_info) : Z * option sel_queue * file :=
  match f_op fl with
  | connecting_fifo_fops => connect_select s p fl
  | read_fifo_fops | write_fifo_fops | rdwr_fifo_fops => (fifo_select s p, fl)
  | read_pipe_fops | write_pipe_fops | rdwr_pipe_fops => (pipe_select s p, fl)
  end.

(** ** The steps of a process *)

(** [memcpy_tofs] or [memcpy_fromfs] copies [n] more bytes; the process may sleep
    after them. *)
Definition copy (c : ctx) (n : Z) (w : world) : option (world * outcome) :=
  match procs w !! me c with
  | Some (RCopy f count got chars from, _) =>
      b ← base (pp w);
      if from + n <=? Z.of_nat (length b) then
        let got := got ++ take (Z.to_nat n) (drop (Z.to_nat from) b) in
        if n =? chars then read_next c f count got w
        else sleep c (RCopy f count got (chars - n) (from + n)) w
      else None
  | Some (WCopy f buf written chars at_ done, _) =>
      b ← base (pp w);
      if at_ + n <=? Z.of_nat (length b) then
        let bytes := take (Z.to_nat n) (drop (Z.to_nat (written - chars)) buf) in
        let w := on_pp (set_base (Some (list_inserts (Z.to_nat at_) bytes b))) w in
        if n =? chars then write_next c f buf written (done ++ bytes) w
        else sleep c (WCopy f buf written (chars - n) (at_ + n) (done ++ bytes)) w
      else None
  | _ => None
  end.

(** A process that slept goes on. *)
Definition resume (c : ctx) (w : world) : option (world * outcome) :=
  match procs w !! me c with
  | Some (RSleep f count, _) => read_wait c f count w
  | Some (WSleep f buf written free, _) => write_wait c f (write_begin c f buf written) buf written free w
  | Some (CSleep f count, _) => connect_read c f count w
  | Some (ORd1 f nb, _) => open_rd_wait c f nb w
  | Some (ORd2 f nb retval, _) => open_rd_rest c f nb retval w
  | Some (OWr1 f nb, _) => open_wr_wait c f nb w
  | Some (OWr2 f nb retval, _) => open_wr_rest c f nb retval w
  | Some (ORw1 f nb, _) => open_rdwr_wait c f nb w
  | Some (ORw2 f nb, _) => open_rdwr_rest c f nb w
  | Some (OPage f nb op, _) => open_got_page c f nb op w
  | Some (RCopy _ _ _ _ _, _) | Some (WCopy _ _ _ _ _ _, _) | None => None
  end.

(** [sys_read], [sys_write] and [close_fp] on an open file; [sys_read] and
    [sys_write] call no operation when the count is 0. *)
Definition do_read (c : ctx) (f count : Z) (w : world) : option (world * outcome) :=
  fl ← files w !! f;
  if count =? 0 then ret c 0 w else op_read (f_op fl) c f (s32 count) w.

Definition do_write (c : ctx) (f : Z) (buf : list Z) (w : world) : option (world * outcome) :=
  fl ← files w !! f;
  if bool_decide (buf = []) then ret c 0 w else op_write (f_op fl) c f buf w.

Definition do_close (c : ctx) (f : Z) (w : world) : option (world * outcome) :=
  fl ← files w !! f;
  let w := op_release (f_op fl) w in
  ret c 0 (iput (set_files (delete f (files w)) w)).

Definition do_select (c : ctx) (f : Z) (s : sel) (w : world) : option (world * outcome) :=
  fl ← files w !! f;
  let '(r, _, fl') := op_select fl s (pp w) in
  ret c r (set_files (<[f := fl']> (files w)) w).

(** [fcntl(F_SETFL)] *)
Definition do_setfl (c : ctx) (f : Z) (nb : bool) (w : world) : option (world * outcome) :=
  fl ← files w !! f;
  ret c 0 (set_files (<[f := File (f_op fl) nb]> (files w)) w).

Inductive cmd :=
  | Open (f f_mode : Z) (nb : bool)
  | Read (f count : Z)
  | Write (f : Z) (buf : list Z)
  | Close (f : Z)
  | Select (f : Z) (s : sel)
  | SetFl (f : Z) (nb : bool)
  | Copy (n : Z)
  | Resume.

Definition run (c : ctx) (x : cmd) (w : world) : option (world * outcome) :=
  match x with
  | Open f f_mode nb => fifo_open c f f_mode nb w
  | Read f count => do_read c f count w
  | Write f buf => do_write c f buf w
  | Close f => do_close c f w
  | Select f s => do_select c f s w
  | SetFl f nb => do_setfl c f nb w
  | Copy n => copy c n w
  | Resume => resume c w
  end.

(** [init_fifo]: a FIFO nobody has open. *)
Definition init_fifo : world := World (Pipe None 0 0 0 0 0 0 0) ∅ ∅ [] [].

(** [get_pipe_inode] and the two files of [sys_pipe]. *)
Definition get_pipe_inode (b : list Z) (f0 f1 : Z) : world :=
  World (Pipe (Some b) 0 0 0 0 0 1 1) (<[f0 := File read_pipe_fops false]> (<[f1 := File write_pipe_fops false]> ∅)) ∅ [] [].

End Pipe.
