(* ===== verification/PipeInv.v ===== *)
(** * The invariant of a pipe

    The page as a ring of bytes ([ring]), what each sleeping process may rely on
    ([wf], [waits]), the counters as sums over files and processes, and where
    the bytes in transit are ([stream]).  [inv_at] is the invariant while one
    process runs: the others are in [ps], and the numbers are what the running
    process contributes to the counters. *)

From S2P Require Import Prelude Pipe.
From Stdlib Require Import ZArith Lia.
From stdpp Require Import base list gmap.
Local Open Scope Z_scope.

Module PipeInv.
Import Pipe.

(** ** The ring *)

Definition ring (b : list Z) (s l : Z) : list Z :=
  (fun i => nth (Z.to_nat ((s + Z.of_nat i) mod PIPE_BUF)) b 0) <$> seq 0 (Z.to_nat l).

Lemma ring_length b s l : 0 <= l -> Z.of_nat (length (ring b s l)) = l.
Proof. intros. unfold ring. rewrite length_fmap, length_seq. lia. Qed.

Lemma ring_nil b s : ring b s 0 = [].
Proof. reflexivity. Qed.

Lemma ring_split b s a c : 0 <= a -> 0 <= c -> ring b s (a + c) = ring b s a ++ ring b (s + a) c.
Proof.
  intros Ha Hc. unfold ring. rewrite Z2Nat.inj_add by lia. rewrite seq_app, fmap_app. f_equal.
  simpl. rewrite <- (Nat.add_0_r (Z.to_nat a)) at 1. rewrite <- fmap_add_seq, <- list_fmap_compose.
  apply list_fmap_ext. intros i x _. simpl. do 3 f_equal. lia.
Qed.

Lemma ring_mod b s l : ring b (s mod PIPE_BUF) l = ring b s l.
Proof.
  unfold ring. apply list_fmap_ext. intros i x _. do 2 f_equal. apply Zplus_mod_idemp_l.
Qed.

Lemma nth_lookup_Z (b : list Z) i : nth i b 0 = default 0 (b !! i).
Proof. rewrite nth_lookup. reflexivity. Qed.

Lemma ring_lookup b s l i : (i < Z.to_nat l)%nat ->
  ring b s l !! i = Some (default 0 (b !! Z.to_nat ((s + Z.of_nat i) mod PIPE_BUF))).
Proof.
  intros Hi. unfold ring. rewrite list_lookup_fmap, lookup_seq_lt by done. simpl.
  f_equal. apply nth_lookup_Z.
Qed.

Lemma ring_slice b s l : Z.of_nat (length b) = PIPE_BUF -> 0 <= s -> 0 <= l -> s + l <= PIPE_BUF ->
  take (Z.to_nat l) (drop (Z.to_nat s) b) = ring b s l.
Proof.
  intros Hb Hs Hl Hsl. apply list_eq. intros i. destruct (decide (i < Z.to_nat l)%nat) as [Hi|Hi].
  - rewrite ring_lookup by done. rewrite lookup_take_lt, lookup_drop by lia.
    rewrite Z.mod_small by lia.
    replace (Z.to_nat (s + Z.of_nat i)) with (Z.to_nat s + i)%nat by lia.
    destruct (lookup_lt_is_Some_2 b (Z.to_nat s + i)) as [x Hx]; [lia|]. by rewrite Hx.
  - rewrite !(proj2 (lookup_ge_None _ _)); [done| |].
    + pose proof (ring_length b s l). lia.
    + rewrite length_take. lia.
Qed.

Lemma pring_ext b b' s l :
  (forall i, 0 <= i < l -> b !! Z.to_nat ((s + i) mod PIPE_BUF) = b' !! Z.to_nat ((s + i) mod PIPE_BUF)) ->
  ring b s l = ring b' s l.
Proof.
  intros H. apply list_eq. intros i. destruct (decide (i < Z.to_nat l)%nat) as [Hi|Hi].
  - rewrite !ring_lookup by done. do 2 f_equal. apply H. lia.
  - destruct (decide (0 <= l)).
    + rewrite !(proj2 (lookup_ge_None _ _)); [done| |].
      * pose proof (ring_length b' s l). lia.
      * pose proof (ring_length b s l). lia.
    + unfold ring. replace (Z.to_nat l) with 0%nat by lia. done.
Qed.

(** What is stored right after a stretch of the ring does not change the stretch. *)
Lemma ring_put_before b s l e bytes :
  0 <= l -> e = (s + l) mod PIPE_BUF -> e + Z.of_nat (length bytes) <= PIPE_BUF ->
  l + Z.of_nat (length bytes) <= PIPE_BUF ->
  ring (list_inserts (Z.to_nat e) bytes b) s l = ring b s l.
Proof.
  intros Hl He H1 H2. apply pring_ext. intros i Hi. unfold PIPE_BUF in *.
  pose proof (Z.mod_pos_bound (s + i) 4096 ltac:(lia)). pose proof (Z.mod_pos_bound (s + l) 4096 ltac:(lia)).
  destruct (decide (e <= (s + i) mod 4096 < e + Z.of_nat (length bytes))) as [Hin|Hout].
  - exfalso. pose proof (Z.div_mod (s + i) 4096 ltac:(lia)). pose proof (Z.div_mod (s + l) 4096 ltac:(lia)). nia.
  - destruct (decide ((s + i) mod 4096 < e)).
    + rewrite list_lookup_inserts_lt by lia. done.
    + rewrite list_lookup_inserts_ge by lia. done.
Qed.

Lemma ring_put b e bytes :
  Z.of_nat (length b) = PIPE_BUF -> 0 <= e -> e + Z.of_nat (length bytes) <= PIPE_BUF ->
  ring (list_inserts (Z.to_nat e) bytes b) e (Z.of_nat (length bytes)) = bytes.
Proof.
  intros Hb He H1. rewrite <- ring_slice by (rewrite ?length_inserts; lia).
  apply list_eq. intros i. rewrite Nat2Z.id. destruct (decide (i < length bytes)%nat) as [Hi|Hi].
  - rewrite lookup_take_lt, lookup_drop by lia. rewrite list_lookup_inserts by lia.
    f_equal. lia.
  - rewrite !(proj2 (lookup_ge_None _ _)); [done| |]; rewrite ?length_take; lia.
Qed.

(** ** What a process may rely on *)

Definition is_reader (o : fops) : bool :=
  match o with write_fifo_fops | write_pipe_fops => false | _ => true end.
Definition is_writer (o : fops) : bool :=
  match o with write_fifo_fops | rdwr_fifo_fops | write_pipe_fops | rdwr_pipe_fops => true | _ => false end.

Definition rdf (fl : file) : Z := Z.b2z (is_reader (f_op fl)).
Definition wrf (fl : file) : Z := Z.b2z (is_writer (f_op fl)).

(** What a process contributes to [lock], [readers], [writers], [rd_openers] and
    [wr_openers]. *)
Definition holds (ph : phase) : Z := match ph with RCopy _ _ _ _ _ | WCopy _ _ _ _ _ _ => 1 | _ => 0 end.
Definition rdp (ph : phase) : Z :=
  match ph with
  | ORd1 _ _ | ORd2 _ _ _ | ORw1 _ _ | ORw2 _ _ => 1
  | OPage _ _ op => Z.b2z (is_reader op)
  | _ => 0
  end.
Definition wrp (ph : phase) : Z :=
  match ph with
  | OWr1 _ _ | OWr2 _ _ _ | ORw2 _ _ => 1
  | OPage _ _ op => Z.b2z (is_writer op)
  | _ => 0
  end.
Definition rdo (ph : phase) : Z := match ph with ORd1 _ _ => 1 | _ => 0 end.
Definition wro (ph : phase) : Z := match ph with OWr1 _ _ => 1 | _ => 0 end.

(** The file a process is opening. *)
Definition opens (ph : phase) : option Z :=
  match ph with
  | ORd1 f _ | ORd2 f _ _ | OWr1 f _ | OWr2 f _ _ | ORw1 f _ | ORw2 f _ | OPage f _ _ => Some f
  | _ => None
  end.

(** The open file a process uses. *)
Definition uses (ph : phase) : option Z :=
  match ph with
  | RSleep f _ | RCopy f _ _ _ _ | WSleep f _ _ _ | WCopy f _ _ _ _ _ | CSleep f _ => Some f
  | _ => None
  end.

Definition reader_file (fs : gmap Z file) (f : Z) : Prop := exists fl, fs !! f = Some fl /\ is_reader (f_op fl) = true.
Definition writer_file (fs : gmap Z file) (f : Z) : Prop := exists fl, fs !! f = Some fl /\ is_writer (f_op fl) = true.

Definition len_of (l : list Z) : Z := Z.of_nat (length l).

(** The files it needs are open, its variables are in range. *)
Definition wf (fs : gmap Z file) (ph : phase) : Prop :=
  match ph with
  | RSleep f count => reader_file fs f /\ count < 2 ^ 31
  | CSleep f count => reader_file fs f /\ ~ writer_file fs f /\ count < 2 ^ 31
  | RCopy f count got chars from =>
      reader_file fs f /\ 0 < chars /\ 0 <= from /\ from + chars <= PIPE_BUF /\
      len_of got + chars + Z.max 0 count < 2 ^ 31
  | WSleep f buf written free =>
      writer_file fs f /\ 0 <= written < len_of buf /\ len_of buf < 2 ^ 31 /\ 1 <= free <= PIPE_BUF /\
      (len_of buf <= PIPE_BUF -> written = 0 /\ free = len_of buf)
  | WCopy f buf written chars at_ done =>
      writer_file fs f /\ 0 < chars <= written /\ written <= len_of buf < 2 ^ 31 /\
      0 <= at_ /\ at_ + chars <= PIPE_BUF /\
      len_of done <= written - chars /\
      done = take (length done) (drop (Z.to_nat (written - chars - len_of done)) buf)
  | ORd2 f _ r | OWr2 f _ r => fs !! f = None /\ r <= 0
  | ORd1 f _ | OWr1 f _ | ORw1 f _ | ORw2 f _ | OPage f _ _ => fs !! f = None
  end.

(** Why a process that was not woken sleeps. *)
Definition waits (p : pipe_inode_info) (ph : phase) : Prop :=
  match ph with
  | RSleep _ _ => lock p <> 0 \/ (len p = 0 /\ writers p <> 0)
  | WSleep _ _ _ free => lock p <> 0 \/ (PIPE_BUF - len p < free /\ readers p <> 0)
  | CSleep _ _ => len p = 0 /\ writers p = 0
  | ORd1 _ _ => writers p = 0
  | OWr1 _ _ => readers p = 0
  | ORd2 _ _ _ | ORw1 _ _ => wr_openers p <> 0
  | OWr2 _ _ _ | ORw2 _ _ => rd_openers p <> 0
  | RCopy _ _ _ _ _ | WCopy _ _ _ _ _ _ | OPage _ _ _ => True
  end.

(** The bytes of a history in order. *)
Definition flat (h : list (Z * list Z)) : list Z := concat h.*2.

(** Where the bytes are while the process in [ph] holds the lock. *)
Definition stream (w : world) (b : list Z) (ph : phase) : Prop :=
  let p := pp w in
  match ph with
  | RCopy _ _ got chars from =>
      flat (recv w) ++ got ++ ring b from chars ++ ring b (start p) (len p) = flat (sent w)
  | WCopy _ buf written chars at_ done =>
      chars <= len p /\ at_ = (start p + len p - chars) mod PIPE_BUF /\
      flat (recv w) ++ ring b (start p) (len p - chars) = flat (sent w) ++ done /\
      (len_of buf <= PIPE_BUF -> len_of done = written - chars /\ len_of buf - written <= PIPE_BUF - len p)
  | _ => True
  end.

Definition at_rest (w : world) : Prop :=
  forall b, base (pp w) = Some b -> flat (recv w) ++ ring b (start (pp w)) (len (pp w)) = flat (sent w).

Definition psum (g : phase -> Z) (ps : gmap Z (phase * bool)) : Z := msum (fun pr => g pr.1) ps.

Record core (ps : gmap Z (phase * bool)) (l r wr ro wo : Z) (w : world) : Prop := {
  i_base : match base (pp w) with None => files w = ∅ | Some b => len_of b = PIPE_BUF end;
  i_start : 0 <= start (pp w) < PIPE_BUF;
  i_len : 0 <= len (pp w) <= PIPE_BUF;
  i_lock : lock (pp w) = l + psum holds ps;
  i_lock1 : 0 <= l /\ lock (pp w) <= 1;
  i_readers : readers (pp w) = r + msum rdf (files w) + psum rdp ps;
  i_writers : writers (pp w) = wr + msum wrf (files w) + psum wrp ps;
  i_rdo : rd_openers (pp w) = ro + psum rdo ps;
  i_wro : wr_openers (pp w) = wo + psum wro ps;
  i_pos : 0 <= ro <= r /\ 0 <= wo <= wr;
  i_max : readers (pp w) < 2 ^ 32 /\ writers (pp w) < 2 ^ 32;
  i_wf : forall p ph k, ps !! p = Some (ph, k) -> wf (files w) ph;
  i_open : forall p q ph ph' k k' f, ps !! p = Some (ph, k) -> ps !! q = Some (ph', k') ->
      opens ph = Some f -> opens ph' = Some f -> p = q;
  i_rest : lock (pp w) = 0 -> at_rest w;
  i_stream : forall p ph k b, ps !! p = Some (ph, k) -> base (pp w) = Some b -> stream w b ph
}.

(** Every process that was not woken still has to wait. *)
Definition alert (ps : gmap Z (phase * bool)) (p : pipe_inode_info) : Prop :=
  forall q ph, ps !! q = Some (ph, false) -> waits p ph.

(** The invariant between two steps.  [sr] and [sw] count the opens that failed for
    want of a page and left [readers] or [writers] too high. *)
Definition inv (sr sw : Z) (w : world) : Prop :=
  core (procs w) 0 sr sw 0 0 w /\ alert (procs w) (pp w).

Definition others (c : ctx) (w : world) : gmap Z (phase * bool) := delete (me c) (procs w).

(** ** Sums *)

Lemma psum_delete g (ps : gmap Z (phase * bool)) p ph k :
  ps !! p = Some (ph, k) -> psum g ps = g ph + psum g (delete p ps).
Proof. intros E. unfold psum. by rewrite (msum_delete _ _ _ _ E). Qed.

Lemma psum_insert g (ps : gmap Z (phase * bool)) p ph k : psum g (<[p := (ph, k)]> ps) = g ph + psum g (delete p ps).
Proof. unfold psum. by rewrite msum_insert_gen. Qed.

Lemma psum_nonneg g ps : (forall ph, 0 <= g ph) -> 0 <= psum g ps.
Proof. intros H. apply msum_nonneg. intros k x _. apply H. Qed.

Lemma holds_nonneg ph : 0 <= holds ph.
Proof. destruct ph; simpl; lia. Qed.
Lemma rdp_nonneg ph : 0 <= rdp ph.
Proof. destruct ph as [| | | | | | | | | | |? ? []]; simpl; lia. Qed.
Lemma wrp_nonneg ph : 0 <= wrp ph.
Proof. destruct ph as [| | | | | | | | | | |? ? []]; simpl; lia. Qed.
Lemma rdo_nonneg ph : 0 <= rdo ph.
Proof. destruct ph; simpl; lia. Qed.
Lemma wro_nonneg ph : 0 <= wro ph.
Proof. destruct ph; simpl; lia. Qed.
Lemma rdf_nonneg fl : 0 <= rdf fl.
Proof. unfold rdf. destruct (is_reader _); simpl; lia. Qed.
Lemma wrf_nonneg fl : 0 <= wrf fl.
Proof. unfold wrf. destruct (is_writer _); simpl; lia. Qed.

Create HintDb pipe.
#[export] Hint Resolve psum_nonneg holds_nonneg rdp_nonneg wrp_nonneg rdo_nonneg wro_nonneg rdf_nonneg wrf_nonneg : pipe.

Lemma rdf_sum_nonneg fs : 0 <= msum rdf fs.
Proof. apply msum_nonneg. intros k x _. apply rdf_nonneg. Qed.
Lemma wrf_sum_nonneg fs : 0 <= msum wrf fs.
Proof. apply msum_nonneg. intros k x _. apply wrf_nonneg. Qed.

Lemma psum_le g h ps : (forall ph, g ph <= h ph) -> psum g ps <= psum h ps.
Proof.
  intros H. induction ps as [|k x ps Hk IH] using map_ind; [done|].
  unfold psum in *. rewrite !msum_insert by done. specialize (H x.1). lia.
Qed.

Lemma psum_holds_0 ps p ph k : psum holds ps = 0 -> ps !! p = Some (ph, k) -> holds ph = 0.
Proof.
  intros H E. rewrite (psum_delete _ _ _ _ _ E) in H.
  pose proof (psum_nonneg holds (delete p ps) holds_nonneg). pose proof (holds_nonneg ph). lia.
Qed.

Lemma stream_not_holding w b ph : holds ph = 0 -> stream w b ph.
Proof. destruct ph; simpl; intros; done. Qed.

Section core.
Context (ps : gmap Z (phase * bool)) (l r wr ro wo : Z) (w : world).
Hypothesis I : core ps l r wr ro wo w.

Lemma core_holders : psum holds ps = lock (pp w) - l.
Proof. rewrite (i_lock _ _ _ _ _ _ _ I). lia. Qed.

Lemma core_lock_range : 0 <= l /\ l <= lock (pp w) <= 1.
Proof.
  pose proof (i_lock1 _ _ _ _ _ _ _ I) as [H1 H2]. rewrite (i_lock _ _ _ _ _ _ _ I) in *.
  pose proof (psum_nonneg holds ps holds_nonneg). lia.
Qed.

Lemma core_openers_range :
  0 <= ro <= rd_openers (pp w) /\ rd_openers (pp w) <= readers (pp w) /\
  0 <= wo <= wr_openers (pp w) /\ wr_openers (pp w) <= writers (pp w).
Proof.
  pose proof (i_pos _ _ _ _ _ _ _ I).
  rewrite (i_rdo _ _ _ _ _ _ _ I), (i_wro _ _ _ _ _ _ _ I), (i_readers _ _ _ _ _ _ _ I), (i_writers _ _ _ _ _ _ _ I).
  pose proof (psum_nonneg rdo ps rdo_nonneg). pose proof (psum_nonneg wro ps wro_nonneg).
  pose proof (rdf_sum_nonneg (files w)). pose proof (wrf_sum_nonneg (files w)).
  assert (psum rdo ps <= psum rdp ps) by (apply psum_le; intros ph; destruct ph as [| | | | | | | | | | |? ? []]; simpl; lia).
  assert (psum wro ps <= psum wrp ps) by (apply psum_le; intros ph; destruct ph as [| | | | | | | | | | |? ? []]; simpl; lia).
  lia.
Qed.

Lemma core_counts_range : r <= readers (pp w) < 2 ^ 32 /\ wr <= writers (pp w) < 2 ^ 32.
Proof.
  pose proof (i_max _ _ _ _ _ _ _ I). rewrite (i_readers _ _ _ _ _ _ _ I), (i_writers _ _ _ _ _ _ _ I) in *.
  pose proof (psum_nonneg rdp ps rdp_nonneg). pose proof (psum_nonneg wrp ps wrp_nonneg).
  pose proof (rdf_sum_nonneg (files w)). pose proof (wrf_sum_nonneg (files w)). lia.
Qed.

Lemma core_reader_file f : reader_file (files w) f -> r < readers (pp w).
Proof.
  intros (fl & E & H). rewrite (i_readers _ _ _ _ _ _ _ I), (msum_delete _ _ _ _ E).
  pose proof (psum_nonneg rdp ps rdp_nonneg). pose proof (rdf_sum_nonneg (delete f (files w))).
  unfold rdf at 1. rewrite H. simpl. lia.
Qed.

Lemma core_writer_file f : writer_file (files w) f -> wr < writers (pp w).
Proof.
  intros (fl & E & H). rewrite (i_writers _ _ _ _ _ _ _ I), (msum_delete _ _ _ _ E).
  pose proof (psum_nonneg wrp ps wrp_nonneg). pose proof (wrf_sum_nonneg (delete f (files w))).
  unfold wrf at 1. rewrite H. simpl. lia.
Qed.

Lemma core_base f fl : files w !! f = Some fl -> exists b, base (pp w) = Some b /\ len_of b = PIPE_BUF.
Proof.
  intros E. pose proof (i_base _ _ _ _ _ _ _ I) as H. destruct (base (pp w)) as [b|]; [eauto|].
  rewrite H in E. done.
Qed.

(** *** Changes of the pipe *)

Lemma core_pp p' l' r' wr' ro' wo' :
  match base p' with None => files w = ∅ | Some b => len_of b = PIPE_BUF end ->
  0 <= start p' < PIPE_BUF -> 0 <= len p' <= PIPE_BUF ->
  lock p' = lock (pp w) + (l' - l) -> 0 <= l' -> lock p' <= 1 ->
  readers p' = readers (pp w) + (r' - r) -> writers p' = writers (pp w) + (wr' - wr) ->
  rd_openers p' = rd_openers (pp w) + (ro' - ro) -> wr_openers p' = wr_openers (pp w) + (wo' - wo) ->
  0 <= ro' <= r' /\ 0 <= wo' <= wr' -> readers p' < 2 ^ 32 -> writers p' < 2 ^ 32 ->
  (lock p' = 0 -> at_rest (set_pp p' w)) ->
  psum holds ps = 0 \/ (base p' = base (pp w) /\ start p' = start (pp w) /\ len p' = len (pp w)) ->
  core ps l' r' wr' ro' wo' (set_pp p' w).
Proof.
  intros Hb Hs Hl Hlk Hl' Hl1 Hr Hw Hro Hwo Hpos Hr1 Hw1 Hrest Hst. destruct I. split; simpl; try done; try lia.
  intros p ph k b E Eb. destruct Hst as [H0 | (E1 & E2 & E3)].
  - apply stream_not_holding. eapply psum_holds_0; eauto.
  - rewrite E1 in Eb. specialize (i_stream0 p ph k b E Eb). unfold stream in *. simpl. by rewrite E2, E3.
Qed.

(** The counters of openers, readers and writers. *)
Lemma core_counters p' r' wr' ro' wo' :
  base p' = base (pp w) -> start p' = start (pp w) -> len p' = len (pp w) -> lock p' = lock (pp w) ->
  readers p' = readers (pp w) + (r' - r) -> writers p' = writers (pp w) + (wr' - wr) ->
  rd_openers p' = rd_openers (pp w) + (ro' - ro) -> wr_openers p' = wr_openers (pp w) + (wo' - wo) ->
  0 <= ro' <= r' /\ 0 <= wo' <= wr' -> readers p' < 2 ^ 32 -> writers p' < 2 ^ 32 ->
  core ps l r' wr' ro' wo' (set_pp p' w).
Proof.
  intros E1 E2 E3 E4. intros. pose proof core_lock_range.
  apply core_pp; rewrite ?E1, ?E2, ?E3, ?E4; try done; try apply I; try lia; auto.
  - intros L0. pose proof (i_rest _ _ _ _ _ _ _ I L0) as R. intros b. simpl. rewrite E1, E2, E3. apply R.
Qed.

End core.

(** ** Waking, taking a process out, and putting it back *)

Lemma lookup_woken (ps : gmap Z (phase * bool)) p ph k :
  ((fun pr => (pr.1, true)) <$> ps) !! p = Some (ph, k) -> k = true /\ exists k', ps !! p = Some (ph, k').
Proof.
  rewrite lookup_fmap. destruct (ps !! p) as [[ph' k']|]; simpl; [|done]. intros. simplify_eq. eauto.
Qed.

Lemma psum_woken g (ps : gmap Z (phase * bool)) : psum g ((fun pr => (pr.1, true)) <$> ps) = psum g ps.
Proof. unfold psum. by rewrite msum_fmap. Qed.

Lemma core_procs ps l r wr ro wo w x : core ps l r wr ro wo w -> core ps l r wr ro wo (set_procs x w).
Proof. by intros []; split. Qed.

Lemma others_wake c w : others c (wake_up w) = (fun pr => (pr.1, true)) <$> others c w.
Proof. unfold others, wake_up. simpl. by rewrite fmap_delete. Qed.

Lemma core_wake c l r wr ro wo w :
  core (others c w) l r wr ro wo w -> core (others c (wake_up w)) l r wr ro wo (wake_up w).
Proof.
  rewrite others_wake. unfold wake_up. intros I. apply core_procs. destruct I.
  split; rewrite ?psum_woken; try done.
  - intros p ph k E. apply lookup_woken in E as (_ & k' & E). eauto.
  - intros p q ph ph' k k' f E E'. apply lookup_woken in E as (_ & k1 & E). apply lookup_woken in E' as (_ & k1' & E'). eauto.
  - intros p ph k b E. apply lookup_woken in E as (_ & k' & E). eauto.
Qed.

Lemma alert_wake c w p : alert (others c (wake_up w)) p.
Proof. rewrite others_wake. intros q ph E. by apply lookup_woken in E as (? & _). Qed.

Lemma others_set_pp c p w : others c (set_pp p w) = others c w.
Proof. reflexivity. Qed.

Lemma pipe_inv_out sr sw c w : inv sr sw w -> procs w !! me c = None ->
  core (others c w) 0 sr sw 0 0 w /\ alert (others c w) (pp w).
Proof. intros I E. unfold others. by rewrite delete_id. Qed.

Lemma pipe_inv_take sr sw c w ph k : inv sr sw w -> procs w !! me c = Some (ph, k) ->
  core (others c w) (holds ph) (sr + rdp ph) (sw + wrp ph) (rdo ph) (wro ph) w /\
  alert (others c w) (pp w) /\ wf (files w) ph /\
  (forall b, base (pp w) = Some b -> stream w b ph) /\
  (forall f p ph' k', opens ph = Some f -> others c w !! p = Some (ph', k') -> opens ph' <> Some f).
Proof.
  intros [I A] E. unfold others. split_and!.
  - destruct I. rewrite (psum_delete holds _ _ _ _ E) in i_lock0.
    rewrite (psum_delete rdp _ _ _ _ E) in i_readers0. rewrite (psum_delete wrp _ _ _ _ E) in i_writers0.
    rewrite (psum_delete rdo _ _ _ _ E) in i_rdo0. rewrite (psum_delete wro _ _ _ _ E) in i_wro0.
    pose proof (holds_nonneg ph). pose proof (rdo_nonneg ph). pose proof (wro_nonneg ph).
    assert (rdo ph <= rdp ph) by (destruct ph as [| | | | | | | | | | |? ? []]; simpl; lia).
    assert (wro ph <= wrp ph) by (destruct ph as [| | | | | | | | | | |? ? []]; simpl; lia).
    split; try done; try lia.
    + intros p ph' k' [_ H']%lookup_delete_Some. eauto.
    + intros p q ph1 ph2 k1 k2 f [_ L1]%lookup_delete_Some [_ L2]%lookup_delete_Some. eauto.
    + intros p ph' k' b [_ H']%lookup_delete_Some. eauto.
  - intros q ph' [_ H']%lookup_delete_Some. eauto.
  - eapply i_wf; eauto.
  - intros b Eb. eapply i_stream; eauto.
  - intros f p ph' k' Ef [Hne H']%lookup_delete_Some Ef'. apply Hne. eapply i_open; eauto.
Qed.

(** What a step of [c] leads to: no fault, and the invariant again. *)
Definition good (c : ctx) (sr sw : Z) (x : option (world * outcome)) : Prop :=
  exists w' o sr' sw', x = Some (w', o) /\ inv sr' sw' w' /\ sr <= sr' /\ sw <= sw' /\
    (page c <> None -> sr' = sr /\ sw' = sw).

Lemma core_ret c sr sw w :
  core (others c w) 0 sr sw 0 0 w -> alert (others c w) (pp w) -> inv sr sw (set_procs (delete (me c) (procs w)) w).
Proof. intros I A. split; [by apply core_procs|done]. Qed.

Lemma good_inv c sr sw w o : inv sr sw w -> good c sr sw (Some (w, o)).
Proof. intros I. exists w, o, sr, sw. split_and!; try done; lia. Qed.

Lemma good_ret c sr sw w r :
  core (others c w) 0 sr sw 0 0 w -> alert (others c w) (pp w) -> good c sr sw (ret c r w).
Proof. intros. by apply good_inv, core_ret. Qed.
Lemma good_ret_data c sr sw w r d :
  core (others c w) 0 sr sw 0 0 w -> alert (others c w) (pp w) -> good c sr sw (ret_data c r d w).
Proof. intros. by apply good_inv, core_ret. Qed.
Lemma good_ret_sigpipe c sr sw w r :
  core (others c w) 0 sr sw 0 0 w -> alert (others c w) (pp w) -> good c sr sw (ret_sigpipe c r w).
Proof. intros. by apply good_inv, core_ret. Qed.

Lemma good_sleep c sr sw l r wr ro wo w ph :
  core (others c w) l r wr ro wo w -> alert (others c w) (pp w) ->
  l = holds ph -> r = sr + rdp ph -> wr = sw + wrp ph -> ro = rdo ph -> wo = wro ph -> 0 <= sr -> 0 <= sw ->
  wf (files w) ph -> waits (pp w) ph -> (forall b, base (pp w) = Some b -> stream w b ph) ->
  (forall f p ph' k', opens ph = Some f -> others c w !! p = Some (ph', k') -> opens ph' <> Some f) ->
  good c sr sw (sleep c ph w).
Proof.
  intros I A -> -> -> -> -> Hsr Hsw Hwf Hwt Hst Hop. apply good_inv. split.
  - apply core_procs. unfold others in *. simpl. destruct I. split; rewrite ?psum_insert; try done; try lia.
    + intros p ph' k'. rewrite lookup_insert_Some. intros [[<- ?]|[Hne H']]; [by simplify_eq|].
      eapply i_wf0. by rewrite lookup_delete_ne.
    + intros p q ph1 ph2 k1 k2 f. rewrite !lookup_insert_Some.
      intros [[<- ?]|[N1 H1]] [[<- ?]|[N2 H2]] O1 O2; simplify_eq; [done|..].
      * exfalso. eapply (Hop f q ph2 k2); [done| |done]. by rewrite lookup_delete_ne.
      * exfalso. eapply (Hop f p ph1 k1); [done| |done]. by rewrite lookup_delete_ne.
      * eapply i_open0; [| |exact O1|exact O2]; rewrite lookup_delete_ne; eauto.
    + intros p ph' k' b. rewrite lookup_insert_Some. intros [[<- ?]|[Hne H']] Eb; [simplify_eq; by apply Hst|].
      eapply i_stream0; [|done]. by rewrite lookup_delete_ne.
  - intros q ph'. simpl. rewrite lookup_insert_Some. intros [[<- ?]|[Hne H']]; [by simplify_eq|].
    apply A with q. unfold others. by rewrite lookup_delete_ne.
Qed.

End PipeInv.
