(* ===== verification/PipeSafe.v ===== *)
(** * Reading, writing and opening keep the invariant of a pipe

    One lemma for each run of [Pipe]: it does not fault and leads to the
    invariant again. *)

From S2P Require Import Prelude Pipe PipeInv.
From Stdlib Require Import ZArith Lia.
From stdpp Require Import base list gmap.
Local Open Scope Z_scope.

Module PipeSafe.
Import Pipe PipeInv.

Lemma flat_app h p d : flat (h ++ [(p, d)]) = flat h ++ d.
Proof. unfold flat. rewrite fmap_app, concat_app. simpl. by rewrite app_nil_r. Qed.

Lemma land_mask z : Z.land z (PIPE_BUF - 1) = z mod PIPE_BUF.
Proof. change (PIPE_BUF - 1) with (Z.ones 12). rewrite Z.land_ones by lia. reflexivity. Qed.

(** The three bounds on a chunk. *)
Lemma chunk_min a b d : (if d <? (if b <? a then b else a) then d else if b <? a then b else a) = Z.min (Z.min a b) d.
Proof. destruct (Z.ltb_spec b a); case_bool; lia. Qed.

(** ** The lock *)

Definition locked (w : world) : world := on_pp (fun p => set_lock (u32 (lock p + 1)) p) w.
Definition unlocked (w : world) : world := on_pp (fun p => set_lock (u32 (lock p - 1)) p) w.

Lemma core_lock ps r wr ro wo w :
  core ps 0 r wr ro wo w -> lock (pp w) = 0 -> core ps 1 r wr ro wo (locked w).
Proof.
  intros I E. unfold locked, on_pp. apply (core_pp _ _ _ _ _ _ _ I); simpl; rewrite ?E; simpl; try apply I; try lia; auto.
  intros H. discriminate H.
Qed.

Lemma core_unlock ps r wr ro wo w :
  core ps 1 r wr ro wo w -> at_rest w -> core ps 0 r wr ro wo (unlocked w).
Proof.
  intros I R. unfold unlocked, on_pp. pose proof (core_lock_range _ _ _ _ _ _ _ I) as L.
  assert (lock (pp w) = 1) as E by lia.
  apply (core_pp _ _ _ _ _ _ _ I); simpl; rewrite ?E; simpl; try apply I; try lia; auto.
Qed.

Lemma alert_lock ps w : alert ps (pp w) -> lock (pp w) = 0 -> alert ps (pp (locked w)).
Proof.
  intros A E q ph Hq. specialize (A q ph Hq). unfold locked; simpl.
  destruct ph; simpl in *; auto; left; rewrite E; done.
Qed.

(** With the lock taken the history may be changed and the bytes moved. *)
Lemma core_hist ps r wr ro wo w s v :
  core ps 1 r wr ro wo w -> core ps 1 r wr ro wo (set_sent s (set_recv v w)).
Proof.
  intros I. pose proof (core_lock_range _ _ _ _ _ _ _ I). pose proof (core_holders _ _ _ _ _ _ _ I) as HH.
  destruct I. split; simpl; try done.
  - intros L0. lia.
  - intros p ph k b E Eb. apply stream_not_holding. eapply psum_holds_0; [|exact E]. lia.
Qed.

Lemma core_data ps r wr ro wo w b s l :
  core ps 1 r wr ro wo w -> len_of b = PIPE_BUF -> 0 <= s < PIPE_BUF -> 0 <= l <= PIPE_BUF ->
  core ps 1 r wr ro wo (on_pp (fun p => set_base (Some b) (set_start s (set_len l p))) w).
Proof.
  intros I Hb Hs Hl. pose proof (core_lock_range _ _ _ _ _ _ _ I). pose proof (core_holders _ _ _ _ _ _ _ I).
  apply (core_pp _ _ _ _ _ _ _ I); simpl; try done; try apply I; try lia.
Qed.

(** With the lock taken the contents change, and nobody who sleeps minds. *)
Lemma alert_data ps p p' :
  alert ps p -> lock p <> 0 -> lock p' = lock p -> readers p' = readers p -> writers p' = writers p ->
  rd_openers p' = rd_openers p -> wr_openers p' = wr_openers p ->
  (len p = 0 -> writers p = 0 -> len p' = 0) -> alert ps p'.
Proof.
  intros A L E1 E2 E3 E4 E5 E6 q ph Hq. specialize (A q ph Hq).
  destruct ph; simpl in *; rewrite ?E1, ?E2, ?E3, ?E4, ?E5; auto. destruct A; auto.
Qed.

Lemma nonneg_of ps l r wr w : core ps l r wr 0 0 w -> 0 <= r /\ 0 <= wr.
Proof. intros I. pose proof (i_pos _ _ _ _ _ _ _ I). lia. Qed.

(** ** Reading *)

Section read.
Context (c : ctx) (sr sw : Z).

Lemma read_next_ok f count got w :
  core (others c w) 1 sr sw 0 0 w -> alert (others c w) (pp w) -> reader_file (files w) f ->
  len_of got + Z.max 0 count < 2 ^ 31 ->
  (forall b, base (pp w) = Some b -> flat (recv w) ++ got ++ ring b (start (pp w)) (len (pp w)) = flat (sent w)) ->
  good c sr sw (read_next c f count got w).
Proof.
  intros I A Hf Hn Hst. unfold read_next. pose proof (core_lock_range _ _ _ _ _ _ _ I) as L.
  pose proof (nonneg_of _ _ _ _ _ I). pose proof (i_start _ _ _ _ _ _ _ I). pose proof (i_len _ _ _ _ _ _ _ I).
  destruct ((0 <? count) && negb (len (pp w) =? 0)) eqn:C.
  - apply andb_true_iff in C as [C1 C2]. apply Z.ltb_lt in C1. apply negb_true_iff, Z.eqb_neq in C2.
    destruct Hf as (fl & Ef & Hr). destruct (core_base _ _ _ _ _ _ _ I _ _ Ef) as (b & Eb & Lb).
    unfold PIPE_MAX_RCHUNK. rewrite u32_small by (unfold PIPE_BUF in *; lia).
    rewrite chunk_min. set (n := Z.min _ _).
    assert (0 < n /\ n <= count /\ n <= len (pp w) /\ start (pp w) + n <= PIPE_BUF) as Hn1 by lia.
    clearbody n. rewrite land_mask. rewrite !u32_small by (unfold PIPE_BUF in *; lia).
    replace (set_pp _ w) with (on_pp (fun p => set_base (Some b) (set_start ((start (pp w) + n) mod PIPE_BUF) (set_len (len (pp w) - n) p))) w)
      by (unfold on_pp, set_base, set_start, set_len; simpl; by rewrite Eb).
    apply good_sleep with 1 sr sw 0 0; simpl; try lia; try done.
    + apply core_data; try done; [|lia]. apply Z.mod_pos_bound. unfold PIPE_BUF; lia.
    + eapply alert_data; [exact A|..]; simpl; try done; lia.
    + split_and!; try lia. exists fl. done.
    + intros b' [= <-]. rewrite <- (Hst b Eb). rewrite ring_mod.
      do 2 f_equal. replace (len (pp w)) with (n + (len (pp w) - n)) at 2 by lia.
      symmetry. apply ring_split; lia.
  - set (w1 := set_recv (recv w ++ [(me c, got)]) w).
    assert (core (others c w1) 1 sr sw 0 0 w1) as I1 by exact (core_hist _ _ _ _ _ w (sent w) (recv w ++ [(me c, got)]) I).
    assert (core (others c (unlocked w1)) 0 sr sw 0 0 (unlocked w1)) as I2.
    { apply core_unlock; [done|]. intros b Eb. unfold w1; simpl. rewrite flat_app, <- app_assoc. by apply Hst. }
    apply core_wake in I2. fold (unlocked w1). cbv zeta.
    pose proof (alert_wake c (unlocked w1) (pp (wake_up (unlocked w1)))) as A2.
    case_bool; [by apply good_ret_data|]. case_bool; by apply good_ret.
Qed.

Lemma begin_read_ok f count w :
  core (others c w) 0 sr sw 0 0 w -> alert (others c w) (pp w) -> reader_file (files w) f ->
  lock (pp w) = 0 -> count < 2 ^ 31 -> good c sr sw (begin_read c f count w).
Proof.
  intros I A Hf L Hc. apply read_next_ok.
  - by apply core_lock.
  - by apply alert_lock.
  - done.
  - unfold len_of. simpl. lia.
  - intros b Eb. simpl. by apply (i_rest _ _ _ _ _ _ _ I L).
Qed.

Lemma read_wait_ok f count w :
  core (others c w) 0 sr sw 0 0 w -> alert (others c w) (pp w) -> reader_file (files w) f ->
  count < 2 ^ 31 -> good c sr sw (read_wait c f count w).
Proof.
  intros I A Hf Hc. pose proof (nonneg_of _ _ _ _ _ I). unfold read_wait, PIPE_EMPTY.
  destruct ((len (pp w) =? 0) || negb (lock (pp w) =? 0)) eqn:C.
  - destruct ((len (pp w) =? 0) && (writers (pp w) =? 0)) eqn:C2; [by apply good_ret|].
    destruct (signal c); [by apply good_ret|].
    apply good_sleep with 0 sr sw 0 0; simpl; try lia; try done.
  - apply orb_false_iff in C as [_ C]. apply negb_false_iff, Z.eqb_eq in C. by apply begin_read_ok.
Qed.

Lemma pipe_read_ok f count w :
  core (others c w) 0 sr sw 0 0 w -> alert (others c w) (pp w) -> reader_file (files w) f ->
  count < 2 ^ 31 -> good c sr sw (pipe_read c f count w).
Proof.
  intros I A Hf Hc. destruct Hf as (fl & Ef & Hr). unfold pipe_read, nonblock. rewrite Ef. simpl.
  destruct (f_nonblock fl); [|apply read_wait_ok; auto; by exists fl].
  destruct (negb (lock (pp w) =? 0)) eqn:L; [by apply good_ret|].
  apply negb_false_iff, Z.eqb_eq in L.
  destruct (PIPE_EMPTY _); [case_bool; by apply good_ret|].
  apply begin_read_ok; auto. by exists fl.
Qed.

End read.

(** The running process changes nothing about a file but its table. *)
Lemma core_set_op ps l r wr ro wo w f fl op nb :
  core ps l r wr ro wo w -> files w !! f = Some fl ->
  is_reader op = is_reader (f_op fl) -> is_writer op = is_writer (f_op fl) ->
  core ps l r wr ro wo (set_files (<[f := File op nb]> (files w)) w).
Proof.
  intros I E Hr Hw. destruct (core_base _ _ _ _ _ _ _ I _ _ E) as (b & Eb & Lb). destruct I. rewrite Eb in *.
  split; simpl; rewrite ?Eb; try done.
  - rewrite i_readers0, msum_insert_gen, (msum_delete rdf _ _ _ E). unfold rdf at 1 3. simpl. by rewrite Hr.
  - rewrite i_writers0, msum_insert_gen, (msum_delete wrf _ _ _ E). unfold wrf at 1 3. simpl. by rewrite Hw.
  - intros p ph k Hp. specialize (i_wf0 p ph k Hp).
    assert (forall g, reader_file (files w) g -> reader_file (<[f := File op nb]> (files w)) g) as R1.
    { intros g (fl' & E' & H'). destruct (decide (f = g)) as [<-|Hne].
      - exists (File op nb). rewrite lookup_insert_eq. simplify_eq. simpl. split; [done|congruence].
      - exists fl'. by rewrite lookup_insert_ne. }
    assert (forall g, writer_file (files w) g -> writer_file (<[f := File op nb]> (files w)) g) as R2.
    { intros g (fl' & E' & H'). destruct (decide (f = g)) as [<-|Hne].
      - exists (File op nb). rewrite lookup_insert_eq. simplify_eq. simpl. split; [done|congruence].
      - exists fl'. by rewrite lookup_insert_ne. }
    assert (forall g, writer_file (<[f := File op nb]> (files w)) g -> writer_file (files w) g) as R4.
    { intros g (fl' & E' & H'). destruct (decide (f = g)) as [<-|Hne].
      - exists fl. rewrite lookup_insert_eq in E'. simplify_eq. simpl in H'. split; [done|congruence].
      - exists fl'. by rewrite lookup_insert_ne in E'. }
    assert (forall g, files w !! g = None -> <[f := File op nb]> (files w) !! g = None) as R3.
    { intros g Hg. rewrite lookup_insert_ne; [done|]. by intros ->; simplify_eq. }
    destruct ph; simpl in *; naive_solver.
Qed.

Lemma connect_read_ok c sr sw f count w :
  core (others c w) 0 sr sw 0 0 w -> alert (others c w) (pp w) -> reader_file (files w) f -> ~ writer_file (files w) f ->
  count < 2 ^ 31 -> good c sr sw (connect_read c f count w).
Proof.
  intros I A Hf Nw Hc. pose proof (nonneg_of _ _ _ _ _ I). destruct Hf as (fl & Ef & Hr).
  assert (is_writer (f_op fl) = false) as Hw.
  { destruct (is_writer (f_op fl)) eqn:E; [|done]. destruct Nw. by exists fl. }
  unfold connect_read. rewrite Ef. simpl. destruct ((len (pp w) =? 0) && (writers (pp w) =? 0)) eqn:C.
  - destruct (f_nonblock fl); [by apply good_ret|]. pose proof (core_wake _ _ _ _ _ _ _ I) as I'.
    pose proof (alert_wake c w (pp w)) as A'. destruct (signal c); [by apply good_ret|].
    apply good_sleep with 0 sr sw 0 0; simpl; try lia; try done. split; [by exists fl|split; [done|lia]].
  - apply pipe_read_ok; try done.
    + by apply core_set_op with fl.
    + exists (File read_fifo_fops (f_nonblock fl)). simpl. by rewrite lookup_insert_eq.
Qed.

(** ** Writing *)

Section write.
Context (c : ctx) (sr sw : Z) (f : Z) (buf : list Z).
Hypothesis Hbuf : len_of buf < 2 ^ 31.

(** What holds of the bytes [done] copied since the lock was taken. *)
Definition progress (written : Z) (done : list Z) (w : world) : Prop :=
  len_of done <= written /\ done = take (length done) (drop (Z.to_nat (written - len_of done)) buf) /\
  (forall b, base (pp w) = Some b ->
    flat (recv w) ++ ring b (start (pp w)) (len (pp w)) = flat (sent w) ++ done) /\
  (len_of buf <= PIPE_BUF -> len_of done = written /\ len_of buf - written <= PIPE_BUF - len (pp w)).

Lemma write_chunk_ok written done w :
  core (others c w) 1 sr sw 0 0 w -> alert (others c w) (pp w) -> writer_file (files w) f ->
  0 <= written < len_of buf -> len (pp w) < PIPE_BUF -> progress written done w ->
  good c sr sw (write_chunk c f buf written done w).
Proof.
  intros I A Hf Hw Hfree (P1 & P2 & P3 & P4). unfold write_chunk. pose proof (core_lock_range _ _ _ _ _ _ _ I) as L.
  pose proof (nonneg_of _ _ _ _ _ I). pose proof (i_start _ _ _ _ _ _ _ I). pose proof (i_len _ _ _ _ _ _ _ I).
  pose proof (core_writer_file _ _ _ _ _ _ _ I _ Hf) as Hwr.
  destruct Hf as (fl & Ef & Hr). destruct (core_base _ _ _ _ _ _ _ I _ _ Ef) as (b & Eb & Lb).
  unfold PIPE_MAX_WCHUNK, PIPE_END, PIPE_FREE. rewrite land_mask. unfold PIPE_BUF in *.
  rewrite (u32_small (start _ + _)) by lia. pose proof (Z.mod_pos_bound (start (pp w) + len (pp w)) 4096 ltac:(lia)).
  rewrite !(u32_small (4096 - _)) by lia. fold (len_of buf). rewrite chunk_min. set (n := Z.min _ _).
  set (e := (start (pp w) + len (pp w)) mod 4096) in *.
  assert (0 < n /\ n <= len_of buf - written /\ len (pp w) + n <= 4096 /\ e + n <= 4096) as Hn by lia.
  clearbody n. rewrite !u32_small by lia.
  replace (set_pp _ w) with (on_pp (fun p => set_base (Some b) (set_start (start (pp w)) (set_len (len (pp w) + n) p))) w)
    by (unfold on_pp, set_base, set_start, set_len; simpl; by rewrite Eb).
  apply good_sleep with 1 sr sw 0 0; simpl; try lia; try done.
  - apply core_data; unfold PIPE_BUF; try done; lia.
  - eapply alert_data; [exact A|..]; simpl; try done; lia.
  - replace (written + n - n) with written by lia. unfold PIPE_BUF. split_and!; try lia; try done. by exists fl.
  - intros b' [= <-]. replace (start (pp w) + (len (pp w) + n) - n) with (start (pp w) + len (pp w)) by lia.
    replace (len (pp w) + n - n) with (len (pp w)) by lia. unfold PIPE_BUF. split_and!; try lia; try done. by apply P3.
Qed.

Lemma write_wait_ok written free w :
  core (others c w) 0 sr sw 0 0 w -> alert (others c w) (pp w) -> writer_file (files w) f ->
  0 <= written <= len_of buf -> (written < len_of buf -> 1 <= free <= PIPE_BUF) ->
  (len_of buf <= PIPE_BUF -> written < len_of buf -> written = 0 /\ free = len_of buf) ->
  good c sr sw (write_wait c f (write_begin c f buf written) buf written free w).
Proof.
  intros I A Hf Hw Hfree Hat. unfold write_wait. pose proof (nonneg_of _ _ _ _ _ I).
  pose proof (i_len _ _ _ _ _ _ _ I). fold (len_of buf).
  destruct (Z.ltb_spec 0 (len_of buf - written)) as [C|C]; simpl; [|by apply good_ret].
  unfold PIPE_FREE. unfold PIPE_BUF in *. rewrite !u32_small by lia.
  destruct ((4096 - len (pp w) <? free) || negb (lock (pp w) =? 0)) eqn:D.
  - destruct (readers (pp w) =? 0) eqn:R; [by apply good_ret_sigpipe|].
    destruct (signal c); [by apply good_ret|]. destruct Hf as (fl & Ef & Hr). unfold nonblock. rewrite Ef. simpl.
    destruct (f_nonblock fl); [by apply good_ret|].
    apply good_sleep with 0 sr sw 0 0; simpl; try lia; try done; unfold PIPE_BUF; [|lia].
    split_and!; try lia. by exists fl.
  - apply orb_false_iff in D as [D1 D2]. apply Z.ltb_ge in D1. apply negb_false_iff, Z.eqb_eq in D2.
    fold (locked w). unfold write_begin. fold (len_of buf). unfold PIPE_FREE, PIPE_BUF. simpl.
    rewrite u32_small by lia.
    replace ((0 <? len_of buf - written) && negb (4096 - len (pp w) =? 0)) with true by lia.
    apply write_chunk_ok; try done; simpl; unfold PIPE_BUF; try lia.
    + by apply core_lock.
    + by apply alert_lock.
    + unfold progress. rewrite app_nil_r. simpl. split_and!; try done; unfold len_of, PIPE_BUF in *; simpl in *; try lia.
      by apply (i_rest _ _ _ _ _ _ _ I D2).
Qed.

Lemma write_next_ok written done w :
  core (others c w) 1 sr sw 0 0 w -> alert (others c w) (pp w) -> writer_file (files w) f ->
  0 <= written <= len_of buf -> progress written done w ->
  good c sr sw (write_next c f buf written done w).
Proof.
  intros I A Hf Hw P. unfold write_next. fold (len_of buf). pose proof (i_len _ _ _ _ _ _ _ I).
  unfold PIPE_FREE. rewrite u32_small by (unfold PIPE_BUF in *; lia).
  destruct ((0 <? len_of buf - written) && negb (PIPE_BUF - len (pp w) =? 0)) eqn:C.
  - apply write_chunk_ok; try done; lia.
  - cbv zeta. set (w1 := set_sent (sent w ++ [(me c, done)]) w).
    assert (core (others c w1) 1 sr sw 0 0 w1) as I1 by exact (core_hist _ _ _ _ _ w (sent w ++ [(me c, done)]) (recv w) I).
    fold (unlocked w1). destruct P as (P1 & P2 & P3 & P4).
    assert (core (others c (unlocked w1)) 0 sr sw 0 0 (unlocked w1)) as I2.
    { apply core_unlock; [done|]. intros b Eb. unfold w1; simpl. rewrite flat_app. by apply P3. }
    apply core_wake in I2. apply write_wait_ok; try done; try apply alert_wake; unfold PIPE_BUF in *; lia.
Qed.

Lemma pipe_write_ok w :
  core (others c w) 0 sr sw 0 0 w -> alert (others c w) (pp w) -> writer_file (files w) f -> 0 < len_of buf ->
  good c sr sw (pipe_write c f buf w).
Proof.
  intros I A Hf Hpos. unfold pipe_write. destruct (readers _ =? 0); [by apply good_ret_sigpipe|].
  fold (len_of buf). apply write_wait_ok; try done; unfold PIPE_BUF; try lia; intros; destruct (Z.leb_spec (len_of buf) 4096); lia.
Qed.

End write.

(** ** Copying *)

Lemma copy_read_ok c sr sw w n f count got chars from k :
  inv sr sw w -> procs w !! me c = Some (RCopy f count got chars from, k) -> 0 < n <= chars ->
  good c sr sw (copy c n w).
Proof.
  intros I E Hn. destruct (pipe_inv_take _ _ c _ _ _ I E) as (I1 & A1 & (Hf & W1 & W2 & W3 & W4) & St & _). simpl in I1.
  rewrite !Z.add_0_r in I1. unfold copy. rewrite E. pose proof (nonneg_of _ _ _ _ _ I1).
  pose proof Hf as (fl & Ef & _). destruct (core_base _ _ _ _ _ _ _ I1 _ _ Ef) as (b & Eb & Lb).
  rewrite Eb. simpl. fold (len_of b). rewrite Lb. replace (from + n <=? PIPE_BUF) with true by lia.
  rewrite ring_slice by (unfold len_of in *; lia). specialize (St b Eb). simpl in St.
  pose proof (ring_length b from n ltac:(lia)) as Ln.
  destruct (Z.eqb_spec n chars) as [->|Hne].
  - apply read_next_ok; try done.
    + unfold len_of in *. rewrite length_app. lia.
    + intros b' Eb'. simplify_eq. by rewrite <- !app_assoc.
  - apply good_sleep with 1 sr sw 0 0; simpl; try lia; try done.
    + split_and!; try lia; [done|]. unfold len_of in *. rewrite length_app. lia.
    + intros b' Eb'. simplify_eq. rewrite <- St, <- !app_assoc. do 2 f_equal. rewrite app_assoc. f_equal.
      replace chars with (n + (chars - n)) at 2 by lia. symmetry. apply ring_split; lia.
Qed.

Lemma slice_app (buf : list Z) x d n :
  take d (drop x buf) ++ take n (drop (x + d) buf) = take (d + n) (drop x buf).
Proof. rewrite <- drop_drop. apply take_take_drop. Qed.

Lemma copy_write_ok c sr sw w n f buf written chars at_ done k :
  inv sr sw w -> procs w !! me c = Some (WCopy f buf written chars at_ done, k) -> 0 < n <= chars ->
  good c sr sw (copy c n w).
Proof.
  intros I E Hn. destruct (pipe_inv_take _ _ c _ _ _ I E) as (I1 & A1 & (Hf & W1 & W2 & W3 & W4 & W5 & W6) & St & _).
  simpl in I1. rewrite !Z.add_0_r in I1. unfold copy. rewrite E. pose proof (nonneg_of _ _ _ _ _ I1).
  pose proof (i_start _ _ _ _ _ _ _ I1). pose proof (i_len _ _ _ _ _ _ _ I1).
  pose proof (core_lock_range _ _ _ _ _ _ _ I1).
  pose proof Hf as (fl & Ef & _). destruct (core_base _ _ _ _ _ _ _ I1 _ _ Ef) as (b & Eb & Lb).
  rewrite Eb. simpl. fold (len_of b). rewrite Lb. replace (at_ + n <=? PIPE_BUF) with true by lia.
  destruct (St b Eb) as (S1 & S2 & S3 & S4).
  set (bytes := take (Z.to_nat n) (drop (Z.to_nat (written - chars)) buf)).
  assert (Z.of_nat (length bytes) = n) as Lby by (unfold bytes, len_of in *; rewrite length_take, length_drop; lia).
  set (b' := list_inserts (Z.to_nat at_) bytes b).
  replace (on_pp (set_base (Some b')) w) with
    (on_pp (fun p => set_base (Some b') (set_start (start (pp w)) (set_len (len (pp w)) p))) w) by done.
  set (w1 := on_pp _ w).
  assert (core (others c w1) 1 sr sw 0 0 w1) as I2.
  { apply core_data; try done. unfold b', len_of in *. by rewrite length_inserts. }
  assert (alert (others c w1) (pp w1)) as A2 by (eapply alert_data; [exact A1|..]; simpl; try done; lia).
  assert (len_of (done ++ bytes) = len_of done + n) as Ld by (unfold len_of; rewrite length_app; lia).
  assert (done ++ bytes = take (length (done ++ bytes)) (drop (Z.to_nat (written - chars - len_of done)) buf)) as Sl.
  { rewrite length_app. rewrite <- slice_app, <- W6. f_equal. unfold bytes at 1.
    replace (length bytes) with (Z.to_nat n) by lia. do 2 f_equal. unfold len_of in *. lia. }
  assert (flat (recv w) ++ ring b' (start (pp w)) (len (pp w) - chars + n) = flat (sent w) ++ done ++ bytes) as R.
  { rewrite ring_split by lia. rewrite !app_assoc, <- S3. f_equal.
    - f_equal. apply ring_put_before; [lia| |unfold len_of in *; lia|lia]. rewrite S2. f_equal. lia.
    - rewrite <- ring_mod. replace (start (pp w) + (len (pp w) - chars)) with (start (pp w) + len (pp w) - chars) by lia.
      rewrite <- S2, <- Lby. apply ring_put; unfold len_of in *; lia. }
  destruct (Z.eqb_spec n chars) as [->|Hne].
  - apply write_next_ok; try done; try lia. unfold progress. split_and!; try lia.
    + by replace (written - len_of (done ++ bytes)) with (written - chars - len_of done) by lia.
    + intros b1 [= <-]. simpl. rewrite <- R. do 2 f_equal. lia.
    + simpl. lia.
  - apply good_sleep with 1 sr sw 0 0; simpl; try lia; try done.
    + split_and!; try lia; [done|].
      by replace (written - (chars - n) - len_of (done ++ bytes)) with (written - chars - len_of done) by lia.
    + intros b1 [= <-]. split_and!; try lia.
      * replace (start (pp w) + len (pp w) - (chars - n)) with (start (pp w) + len (pp w) - chars + n) by lia.
        rewrite <- Z.add_mod_idemp_l by done. rewrite <- S2. symmetry. apply Z.mod_small. lia.
      * rewrite <- R. do 2 f_equal. lia.
Qed.

End PipeSafe.
