(* ===== verification/PipeOpen.v ===== *)
(** * Opening and closing keep the invariant of a pipe *)

From S2P Require Import Prelude Pipe PipeInv PipeSafe.
From Stdlib Require Import ZArith Lia.
From stdpp Require Import base list gmap.
Local Open Scope Z_scope.

Module PipeOpen.
Import Pipe PipeInv PipeSafe.

(** The invariant while [c] runs and opens [f]. *)
Record mid (c : ctx) (f r wr ro wo : Z) (w : world) : Prop := {
  m_core : core (others c w) 0 r wr ro wo w;
  m_alert : alert (others c w) (pp w);
  m_files : files w !! f = None;
  m_fresh : forall p ph k, others c w !! p = Some (ph, k) -> opens ph <> Some f
}.

Lemma mid_wake c f r wr ro wo w :
  core (others c w) 0 r wr ro wo w -> files w !! f = None ->
  (forall p ph k, others c w !! p = Some (ph, k) -> opens ph <> Some f) ->
  mid c f r wr ro wo (wake_up w).
Proof.
  intros I F H. split; [by apply core_wake|apply alert_wake|done|].
  rewrite others_wake. intros p ph k E. apply lookup_woken in E as (_ & k' & E). eauto.
Qed.

(** ** The counters *)

Lemma alert_counters ps p p' :
  alert ps p -> lock p' = lock p -> len p' = len p -> (readers p = 0 <-> readers p' = 0) ->
  (writers p = 0 <-> writers p' = 0) -> (wr_openers p <> 0 -> wr_openers p' <> 0) ->
  (rd_openers p <> 0 -> rd_openers p' <> 0) -> alert ps p'.
Proof.
  intros A E1 E2 E3 E4 E5 E6 q ph Hq. specialize (A q ph Hq).
  destruct ph; simpl in *; rewrite ?E1, ?E2; auto; lia.
Qed.

(** A counter changes and the sleepers are woken when [b] holds. *)
Lemma mid_count c f r wr ro wo w p' r' wr' ro' wo' (b : bool) :
  mid c f r wr ro wo w ->
  base p' = base (pp w) -> start p' = start (pp w) -> len p' = len (pp w) -> lock p' = lock (pp w) ->
  readers p' = readers (pp w) + (r' - r) -> writers p' = writers (pp w) + (wr' - wr) ->
  rd_openers p' = rd_openers (pp w) + (ro' - ro) -> wr_openers p' = wr_openers (pp w) + (wo' - wo) ->
  0 <= ro' <= r' /\ 0 <= wo' <= wr' -> readers p' < 2 ^ 32 -> writers p' < 2 ^ 32 ->
  (b = false -> (readers (pp w) = 0 <-> readers p' = 0) /\ (writers (pp w) = 0 <-> writers p' = 0) /\
     (wr_openers (pp w) <> 0 -> wr_openers p' <> 0) /\ (rd_openers (pp w) <> 0 -> rd_openers p' <> 0)) ->
  mid c f r' wr' ro' wo' (if b then wake_up (set_pp p' w) else set_pp p' w).
Proof.
  intros [I A F Fr] E1 E2 E3 E4 E5 E6 E7 E8 E9 E10 E11 Hb.
  pose proof (core_counters _ _ _ _ _ _ _ I p' r' wr' ro' wo' E1 E2 E3 E4 E5 E6 E7 E8 E9 E10 E11) as I'.
  destruct b; [by apply mid_wake|]. destruct (Hb eq_refl) as (H1 & H2 & H3 & H4).
  split; [done| |done|done]. by eapply alert_counters.
Qed.

Ltac count_facts M :=
  pose proof (core_counts_range _ _ _ _ _ _ _ (m_core _ _ _ _ _ _ _ M));
  pose proof (core_openers_range _ _ _ _ _ _ _ (m_core _ _ _ _ _ _ _ M));
  pose proof (i_pos _ _ _ _ _ _ _ (m_core _ _ _ _ _ _ _ M)).

Ltac count_step M :=
  count_facts M; apply (mid_count _ _ _ _ _ _ _ _ _ _ _ _ _ M); simpl; rewrite ?u32_small by lia; try done; try lia.

Lemma inc_readers_mid c f r wr ro wo w :
  mid c f r wr ro wo w -> readers (pp w) < 2 ^ 32 - 1 -> mid c f (r + 1) wr ro wo (inc_readers w).
Proof. intros M H. unfold inc_readers, on_pp. count_step M. Qed.

Lemma inc_writers_mid c f r wr ro wo w :
  mid c f r wr ro wo w -> writers (pp w) < 2 ^ 32 - 1 -> mid c f r (wr + 1) ro wo (inc_writers w).
Proof. intros M H. unfold inc_writers, on_pp. count_step M. Qed.

Lemma dec_readers_mid c f r wr ro wo w :
  mid c f r wr ro wo w -> ro < r -> mid c f (r - 1) wr ro wo (dec_readers w).
Proof. intros M H. unfold dec_readers, on_pp. count_step M. Qed.

Lemma dec_writers_mid c f r wr ro wo w :
  mid c f r wr ro wo w -> wo < wr -> mid c f r (wr - 1) ro wo (dec_writers w).
Proof. intros M H. unfold dec_writers, on_pp. count_step M. Qed.

Lemma dec_rd_openers_mid c f r wr ro wo w :
  mid c f r wr ro wo w -> 0 < ro -> mid c f r wr (ro - 1) wo (dec_rd_openers w).
Proof. intros M H. unfold dec_rd_openers, on_pp. count_step M. Qed.

Lemma dec_wr_openers_mid c f r wr ro wo w :
  mid c f r wr ro wo w -> 0 < wo -> mid c f r wr ro (wo - 1) (dec_wr_openers w).
Proof. intros M H. unfold dec_wr_openers, on_pp. count_step M. Qed.

Lemma openers_below c f r wr ro wo w : mid c f r wr ro wo w ->
  rd_openers (pp w) - ro <= readers (pp w) - r /\ wr_openers (pp w) - wo <= writers (pp w) - wr.
Proof.
  intros [[]]. rewrite i_rdo0, i_readers0, i_wro0, i_writers0.
  pose proof (rdf_sum_nonneg (files w)). pose proof (wrf_sum_nonneg (files w)).
  assert (psum rdo (others c w) <= psum rdp (others c w))
    by (apply psum_le; intros ph; destruct ph as [| | | | | | | | | | |? ? []]; simpl; lia).
  assert (psum wro (others c w) <= psum wrp (others c w))
    by (apply psum_le; intros ph; destruct ph as [| | | | | | | | | | |? ? []]; simpl; lia).
  lia.
Qed.

Lemma inc_rd_openers_mid c f r wr ro wo w :
  mid c f r wr ro wo w -> ro < r ->
  mid c f r wr (ro + 1) wo (on_pp (fun p => set_rd_openers (u32 (rd_openers p + 1)) p) w).
Proof.
  intros M H. pose proof (openers_below _ _ _ _ _ _ _ M). count_facts M.
  apply (mid_count _ _ _ _ _ _ w _ _ _ _ _ false M); simpl; rewrite ?u32_small by lia; try done; lia.
Qed.

Lemma inc_wr_openers_mid c f r wr ro wo w :
  mid c f r wr ro wo w -> wo < wr ->
  mid c f r wr ro (wo + 1) (on_pp (fun p => set_wr_openers (u32 (wr_openers p + 1)) p) w).
Proof.
  intros M H. pose proof (openers_below _ _ _ _ _ _ _ M). count_facts M.
  apply (mid_count _ _ _ _ _ _ w _ _ _ _ _ false M); simpl; rewrite ?u32_small by lia; try done; lia.
Qed.

(** ** The end of an open *)

Lemma wf_new_file fs f fl ph : fs !! f = None -> opens ph <> Some f -> wf fs ph -> wf (<[f := fl]> fs) ph.
Proof.
  intros F O.
  assert (forall g, reader_file fs g -> reader_file (<[f := fl]> fs) g) as R1.
  { intros g (fl' & E & H). exists fl'. rewrite lookup_insert_ne; [done|]. by intros ->; simplify_eq. }
  assert (forall g, writer_file fs g -> writer_file (<[f := fl]> fs) g) as R2.
  { intros g (fl' & E & H). exists fl'. rewrite lookup_insert_ne; [done|]. by intros ->; simplify_eq. }
  assert (forall g, reader_file fs g -> writer_file (<[f := fl]> fs) g -> writer_file fs g) as R3.
  { intros g (fl1 & E1 & _) (fl' & E & H). exists fl'. rewrite lookup_insert_ne in E; [done|]. by intros ->; simplify_eq. }
  assert (forall g, g <> f -> fs !! g = None -> <[f := fl]> fs !! g = None) as R4.
  { intros g Hg E. by rewrite lookup_insert_ne. }
  destruct ph; simpl in *; naive_solver.
Qed.

Lemma opened_ok c f nb op sr sw w :
  mid c f (sr + Z.b2z (is_reader op)) (sw + Z.b2z (is_writer op)) 0 0 w -> base (pp w) <> None ->
  0 <= sr -> 0 <= sw -> good c sr sw (opened c f nb op w).
Proof.
  intros [I A F Fr] Hb Hsr Hsw. apply good_ret; [|done]. destruct I.
  split; simpl; try done; try lia.
  - by destruct (base (pp w)).
  - rewrite i_readers0, msum_insert by done. unfold rdf at 2. simpl. unfold others. simpl. lia.
  - rewrite i_writers0, msum_insert by done. unfold wrf at 2. simpl. unfold others. simpl. lia.
  - intros p ph k E. eapply wf_new_file; [done|by eapply Fr|by eapply i_wf0].
Qed.

Lemma others_ret c w : others c (set_procs (delete (me c) (procs w)) w) = delete (me c) (procs w).
Proof. unfold others. simpl. apply delete_delete_eq. Qed.

Lemma iput_ok c sr sw w : inv sr sw w -> procs w !! me c = None -> inv sr sw (iput w).
Proof.
  intros I E. destruct (pipe_inv_out _ _ c _ I E) as [I1 _]. apply core_wake in I1.
  assert (others c (wake_up w) = procs (wake_up w)) as Eo.
  { unfold others. apply delete_id. simpl. by rewrite lookup_fmap, E. }
  pose proof (alert_wake c w (pp w)) as A. rewrite Eo in *.
  unfold iput. destruct (bool_decide _ && bool_decide _) eqn:C; [|by split].
  apply andb_true_iff in C as [C1%bool_decide_eq_true C2%bool_decide_eq_true].
  split; [|intros q ph Hq; change (procs (wake_up w) !! q = Some (ph, false)) in Hq; rewrite C2 in Hq; done]. unfold on_pp.
  change (core (procs (wake_up w)) 0 sr sw 0 0 (set_pp (set_base None (pp (wake_up w))) (wake_up w))).
  rewrite C2 in *. pose proof (core_lock_range _ _ _ _ _ _ _ I1).
  apply (core_pp _ _ _ _ _ _ _ I1); simpl; try done; try apply I1; try lia.
  by left.
Qed.

Lemma open_fails_ok c f r sr sw w : mid c f sr sw 0 0 w -> good c sr sw (open_fails c r w).
Proof.
  intros [I A F Fr]. unfold open_fails, ret. simpl. apply good_inv. apply iput_ok with c.
  - by apply core_ret.
  - simpl. apply lookup_delete_eq.
Qed.

Lemma fifo_page_ok c f nb op retval sr sw w :
  (retval = 0 -> mid c f (sr + Z.b2z (is_reader op)) (sw + Z.b2z (is_writer op)) 0 0 w) ->
  (retval <> 0 -> mid c f sr sw 0 0 w) -> 0 <= sr -> 0 <= sw -> good c sr sw (open_page c f nb op retval w).
Proof.
  intros M0 M1 Hsr Hsw. unfold open_page. destruct (Z.eqb_spec retval 0) as [E|E]; simpl.
  - specialize (M0 E). destruct (base (pp w)) eqn:B; [apply opened_ok; by rewrite ?B|].
    destruct M0 as [I A F Fr]. eapply good_sleep; simpl; [exact I|..]; try done. intros ? ? ? ? [= <-]. apply Fr.
  - eapply open_fails_ok, M1, E.
Qed.

Lemma good_weaken c sr sw sr' sw' x :
  good c sr' sw' x -> page c = None -> sr <= sr' -> sw <= sw' -> good c sr sw x.
Proof.
  intros (w' & o & a & b & E & I & H1 & H2 & _) P ? ?. exists w', o, a, b. split_and!; try done; lia.
Qed.

Lemma open_got_page_ok c f nb op sr sw w :
  mid c f (sr + Z.b2z (is_reader op)) (sw + Z.b2z (is_writer op)) 0 0 w -> 0 <= sr -> 0 <= sw ->
  (forall b, page c = Some b -> len_of b = PIPE_BUF) -> good c sr sw (open_got_page c f nb op w).
Proof.
  intros M Hsr Hsw Hp. unfold open_got_page. destruct (base (pp w)) eqn:B.
  { apply opened_ok; try done. by rewrite B. }
  destruct (page c) as [b|] eqn:P.
  - apply opened_ok; try done. pose proof M as [I A F Fr]. split; try done.
    + pose proof I as []. rewrite B in i_base0.
      assert (psum holds (others c w) = 0) as H0.
      { apply msum_zero. intros q [ph k] E. specialize (i_wf0 q ph k E). rewrite i_base0 in i_wf0.
        destruct ph; simpl in *; try done; destruct i_wf0 as [(fl & E' & _) _]; done. }
      split; simpl; try done; try (unfold PIPE_BUF; lia).
      * by apply Hp.
      * intros q ph k b' E. change (others c _) with (others c w) in E. intros _.
        apply stream_not_holding. eapply psum_holds_0; eauto.
    + assert (files w = ∅) as E by (pose proof (i_base _ _ _ _ _ _ _ I) as E; by rewrite B in E).
      intros q ph Hq. change (others c _) with (others c w) in Hq. specialize (A q ph Hq).
      pose proof (i_wf _ _ _ _ _ _ _ I q ph _ Hq) as W. rewrite E in W.
      destruct ph; simpl in *; try done; exfalso.
      all: by destruct W as [(fl & W & _) _].
  - pose proof (i_pos _ _ _ _ _ _ _ (m_core _ _ _ _ _ _ _ M)).
    eapply good_weaken; [by eapply open_fails_ok|done|..]; destruct op; simpl; lia.
Qed.

(** ** Opening *)

Section opening.
Context (c : ctx) (f : Z) (nb : bool) (sr sw : Z).
Hypotheses (Hsr : 0 <= sr) (Hsw : 0 <= sw).

Ltac sleeps := eapply good_sleep; simpl; [eassumption|..]; try done; try lia; intros ? ? ? ? [= <-]; eauto.

Lemma open_rd_rest_ok retval w : mid c f (sr + 1) sw 0 0 w -> retval <= 0 -> good c sr sw (open_rd_rest c f nb retval w).
Proof.
  intros M Hr. unfold open_rd_rest. destruct (Z.eqb_spec (wr_openers (pp w)) 0) as [C|C]; simpl.
  - apply fifo_page_ok; try done; intros E.
    + rewrite E. simpl. destruct (negb (writers (pp w) =? 0)); simpl; by rewrite Z.add_0_r.
    + apply Z.eqb_neq in E. rewrite E. simpl. replace sr with (sr + 1 - 1) by lia. apply dec_readers_mid; [done|lia].
  - destruct M. sleeps.
Qed.

Lemma open_rd_wait_ok w : mid c f (sr + 1) sw 1 0 w -> good c sr sw (open_rd_wait c f nb w).
Proof.
  intros M. unfold open_rd_wait. pose proof (dec_rd_openers_mid _ _ _ _ _ _ _ M ltac:(lia)) as M'.
  destruct (Z.eqb_spec (writers (pp w)) 0) as [C|C]; [|by apply open_rd_rest_ok].
  destruct (signal c); [by apply open_rd_rest_ok|]. destruct M. sleeps.
Qed.

Lemma open_rd_ok w : mid c f sr sw 0 0 w -> readers (pp w) < 2 ^ 32 - 1 -> good c sr sw (open_rd c f nb w).
Proof.
  intros M H. unfold open_rd. pose proof (inc_readers_mid _ _ _ _ _ _ _ M H) as M'. case_bool.
  - apply open_rd_wait_ok. apply (inc_rd_openers_mid _ _ _ _ 0); [done|lia].
  - by apply open_rd_rest_ok.
Qed.

Lemma open_wr_rest_ok retval w : mid c f sr (sw + 1) 0 0 w -> retval <= 0 -> good c sr sw (open_wr_rest c f nb retval w).
Proof.
  intros M Hr. unfold open_wr_rest. destruct (Z.eqb_spec (rd_openers (pp w)) 0) as [C|C]; simpl.
  - apply fifo_page_ok; try done; intros E.
    + rewrite E. simpl. by rewrite Z.add_0_r.
    + apply Z.eqb_neq in E. rewrite E. simpl. replace sw with (sw + 1 - 1) by lia. apply dec_writers_mid; [done|lia].
  - destruct M. sleeps.
Qed.

Lemma open_wr_wait_ok w : mid c f sr (sw + 1) 0 1 w -> good c sr sw (open_wr_wait c f nb w).
Proof.
  intros M. unfold open_wr_wait. pose proof (dec_wr_openers_mid _ _ _ _ _ _ _ M ltac:(lia)) as M'.
  destruct (Z.eqb_spec (readers (pp w)) 0) as [C|C]; [|by apply open_wr_rest_ok].
  destruct (signal c); [by apply open_wr_rest_ok|]. destruct M. sleeps.
Qed.

Lemma open_wr_ok w : mid c f sr sw 0 0 w -> writers (pp w) < 2 ^ 32 - 1 -> good c sr sw (open_wr c f nb w).
Proof.
  intros M H. unfold open_wr. pose proof (inc_writers_mid _ _ _ _ _ _ _ M H) as M'.
  case_bool; [by eapply open_fails_ok|]. case_bool.
  - apply open_wr_wait_ok. apply (inc_wr_openers_mid _ _ _ _ _ 0); [done|lia].
  - by apply open_wr_rest_ok.
Qed.

Lemma open_rdwr_rest_ok w : mid c f (sr + 1) (sw + 1) 0 0 w -> good c sr sw (open_rdwr_rest c f nb w).
Proof.
  intros M. unfold open_rdwr_rest. destruct (Z.eqb_spec (rd_openers (pp w)) 0) as [C|C]; simpl.
  - apply fifo_page_ok; done.
  - destruct M. sleeps.
Qed.

Lemma open_rdwr_wait_ok w : mid c f (sr + 1) sw 0 0 w -> writers (pp w) < 2 ^ 32 - 1 ->
  good c sr sw (open_rdwr_wait c f nb w).
Proof.
  intros M H. unfold open_rdwr_wait. destruct (Z.eqb_spec (wr_openers (pp w)) 0) as [C|C]; simpl.
  - apply open_rdwr_rest_ok. by apply inc_writers_mid.
  - destruct M. sleeps.
Qed.

Lemma fifo_open_ok f_mode w : mid c f sr sw 0 0 w -> readers (pp w) < 2 ^ 32 - 1 -> writers (pp w) < 2 ^ 32 - 1 ->
  good c sr sw (fifo_open c f f_mode nb w).
Proof.
  intros M Hr Hw. unfold fifo_open. case_bool; [by apply open_rd_ok|]. case_bool; [by apply open_wr_ok|].
  case_bool; [|by eapply open_fails_ok]. apply open_rdwr_wait_ok; [by apply inc_readers_mid|].
  unfold inc_readers. destruct (readers (pp w) =? 0); done.
Qed.

End opening.

End PipeOpen.
