(* ===== verification/PipeReach.v ===== *)
(** * Pipes and FIFOs: what holds in every reachable state

    [reach]: the states of one pipe under any sequence of calls and steps of its
    processes.  Theorems: no step faults, bytes come out in the order they went
    in, a write of at most [PIPE_BUF] bytes is atomic, nobody sleeps for
    something that already happened. *)

From S2P Require Import Prelude Pipe PipeInv PipeSafe PipeOpen.
From Stdlib Require Import ZArith Lia.
From stdpp Require Import base list gmap.
Local Open Scope Z_scope.

Module PipeReach.
Import Pipe PipeInv PipeSafe PipeOpen.

(** ** Which steps are possible *)

Definition copying (ph : phase) : option Z :=
  match ph with RCopy _ _ _ chars _ | WCopy _ _ _ chars _ _ => Some chars | _ => None end.

Definition in_page (ph : phase) : bool := match ph with OPage _ _ _ => true | _ => false end.

Definition idle (c : ctx) (w : world) : bool := bool_decide (procs w !! me c = None).

(** A process is in one call at a time; [f] is a new file when it is opened, an open
    one when it is used, and not in use when it is closed; a process that sleeps
    goes on when it was woken, has a signal or waited for a page.  The counters
    are not at their maximum. *)
Definition guard (c : ctx) (x : cmd) (w : world) : bool :=
  (readers (pp w) <? 2 ^ 32 - 1) && (writers (pp w) <? 2 ^ 32 - 1) &&
  match page c with Some b => len_of b =? PIPE_BUF | None => true end &&
  match x with
  | Open f _ _ => idle c w && bool_decide (files w !! f = None) &&
      bool_decide (map_Forall (fun _ pr => opens pr.1 <> Some f) (procs w))
  | Read f count => idle c w && bool_decide (is_Some (files w !! f)) && (0 <=? count) && (count <? 2 ^ 32)
  | Write f buf => idle c w && bool_decide (is_Some (files w !! f)) && (len_of buf <? 2 ^ 31)
  | Close f => idle c w && bool_decide (is_Some (files w !! f)) &&
      bool_decide (map_Forall (fun _ pr => uses pr.1 <> Some f) (procs w))
  | Select f _ | SetFl f _ => idle c w && bool_decide (is_Some (files w !! f))
  | Copy n =>
      match procs w !! me c with
      | Some (ph, _) => match copying ph with Some chars => (0 <? n) && (n <=? chars) | None => false end
      | None => false
      end
  | Resume =>
      match procs w !! me c with
      | Some (ph, woken) => negb (bool_decide (is_Some (copying ph))) && (woken || signal c || in_page ph)
      | None => false
      end
  end.

(** [mem]: [__get_free_page] never fails. *)
Inductive reach (mem : bool) : world -> Prop :=
  | reach_fifo : reach mem init_fifo
  | reach_pipe b f0 f1 : len_of b = PIPE_BUF -> f0 <> f1 -> reach mem (get_pipe_inode b f0 f1)
  | reach_step c x w w' o :
      reach mem w -> guard c x w = true -> (mem = true -> page c <> None) ->
      run c x w = Some (w', o) -> reach mem w'.

(** ** Closing and the rest *)

Lemma wf_del_file fs f ph : uses ph <> Some f -> wf fs ph -> wf (delete f fs) ph.
Proof.
  intros U.
  assert (forall g, g <> f -> reader_file fs g -> reader_file (delete f fs) g) as R1.
  { intros g Hg (fl' & E & H). exists fl'. by rewrite lookup_delete_ne. }
  assert (forall g, g <> f -> writer_file fs g -> writer_file (delete f fs) g) as R2.
  { intros g Hg (fl' & E & H). exists fl'. by rewrite lookup_delete_ne. }
  assert (forall g, g <> f -> writer_file (delete f fs) g -> writer_file fs g) as R3.
  { intros g Hg (fl' & E & H). exists fl'. by rewrite lookup_delete_ne in E. }
  assert (forall g, fs !! g = None -> delete f fs !! g = None) as R4.
  { intros g E. apply lookup_delete_None. by right. }
  destruct ph; simpl in *; naive_solver.
Qed.

Lemma op_release_eq sr sw w f fl :
  inv sr sw w -> files w !! f = Some fl ->
  op_release (f_op fl) w =
  wake_up (on_pp (fun p => set_writers (writers p - wrf fl) (set_readers (readers p - rdf fl) p)) w).
Proof.
  intros [I _] E. pose proof (core_counts_range _ _ _ _ _ _ _ I). pose proof (i_pos _ _ _ _ _ _ _ I).
  assert (rdf fl = 1 -> 1 <= readers (pp w)) as Hr.
  { intros H1. assert (sr < readers (pp w)); [|lia]. eapply core_reader_file; [done|].
    exists fl. split; [done|]. unfold rdf in H1. by destruct (is_reader _). }
  assert (wrf fl = 1 -> 1 <= writers (pp w)) as Hw.
  { intros H1. assert (sw < writers (pp w)); [|lia]. eapply core_writer_file; [done|].
    exists fl. split; [done|]. unfold wrf in H1. by destruct (is_writer _). }
  unfold rdf, wrf in *. destruct w as [p fs ps s r], p. unfold on_pp, set_pp, set_readers, set_writers in *.
  destruct (f_op fl); simpl in *; unfold pipe_read_release, pipe_write_release, pipe_rdwr_release,
    on_pp, set_pp, set_readers, set_writers; simpl; rewrite ?Z.sub_0_r, ?u32_small by lia; done.
Qed.

Lemma do_close_ok c sr sw f w :
  inv sr sw w -> procs w !! me c = None -> is_Some (files w !! f) ->
  (forall p ph k, procs w !! p = Some (ph, k) -> uses ph <> Some f) -> good c sr sw (do_close c f w).
Proof.
  intros I E [fl Ef] U. unfold do_close. rewrite Ef. simpl.
  rewrite (op_release_eq _ _ _ _ _ I Ef). set (p' := on_pp _ w).
  destruct (pipe_inv_out _ _ c _ I E) as [I1 _].
  assert (core (others c (wake_up (set_files (delete f (files w)) p'))) 0 sr sw 0 0 (wake_up (set_files (delete f (files w)) p'))) as I2.
  { apply core_wake. change (others c _) with (others c w). unfold p'.
    destruct (core_base _ _ _ _ _ _ _ I1 _ _ Ef) as (b & Eb & Lb).
    pose proof (core_counts_range _ _ _ _ _ _ _ I1). pose proof (rdf_nonneg fl). pose proof (wrf_nonneg fl).
    destruct I1. split; simpl; try done; try lia.
    - rewrite Eb. done.
    - rewrite i_readers0, (msum_delete rdf _ _ _ Ef). lia.
    - rewrite i_writers0, (msum_delete wrf _ _ _ Ef). lia.
    - intros p ph k Hp. apply wf_del_file; [|by eapply i_wf0]. eapply U.
      unfold others in Hp. by rewrite delete_id in Hp. }
  change (set_files (delete f (files (wake_up p'))) (wake_up p')) with (wake_up (set_files (delete f (files w)) p')).
  set (w2 := wake_up _) in *.
  assert (procs w2 !! me c = None) as E2 by (simpl; by rewrite lookup_fmap, E).
  assert (inv sr sw w2) as I3.
  { split; [|intros q ph Hq; simpl in Hq; by apply lookup_woken in Hq as (? & _)].
    unfold others in I2. by rewrite delete_id in I2. }
  pose proof (iput_ok c _ _ _ I3 E2) as I4.
  assert (procs (iput w2) !! me c = None) as E4.
  { unfold iput. case_bool; simpl; by rewrite !lookup_fmap, E. }
  destruct (pipe_inv_out _ _ c _ I4 E4). by apply good_ret.
Qed.

Lemma set_op_ok c sr sw r f fl op nb w :
  inv sr sw w -> procs w !! me c = None -> files w !! f = Some fl ->
  is_reader op = is_reader (f_op fl) -> is_writer op = is_writer (f_op fl) ->
  good c sr sw (ret c r (set_files (<[f := File op nb]> (files w)) w)).
Proof.
  intros I E Ef Hr Hw. destruct (pipe_inv_out _ _ c _ I E) as [I1 A1]. apply good_ret; [|done].
  by eapply core_set_op.
Qed.

Lemma op_select_file fl s p :
  exists op, (op_select fl s p).2 = File op (f_nonblock fl) /\ is_reader op = is_reader (f_op fl) /\ is_writer op = is_writer (f_op fl).
Proof.
  destruct fl as [op nb]. unfold op_select. destruct op, s; simpl; try (eexists; done).
  all: repeat case_bool; simpl; by eexists.
Qed.

Lemma do_read_ok c sr sw f count w :
  inv sr sw w -> procs w !! me c = None -> is_Some (files w !! f) -> good c sr sw (do_read c f count w).
Proof.
  intros I E [fl Ef]. destruct (pipe_inv_out _ _ c _ I E) as [I1 A1]. unfold do_read. rewrite Ef. simpl.
  case_bool; [by apply good_ret|]. pose proof (s32_range count).
  destruct fl as [op nb]. destruct op; simpl; try (apply pipe_read_ok; [done|done|by eexists|lia]); try by apply good_ret.
  apply connect_read_ok; [done|done|by eexists| |lia]. intros (fl & E' & H'). rewrite Ef in E'. by simplify_eq.
Qed.

Lemma do_write_ok c sr sw f buf w :
  inv sr sw w -> procs w !! me c = None -> is_Some (files w !! f) -> len_of buf < 2 ^ 31 -> good c sr sw (do_write c f buf w).
Proof.
  intros I E [fl Ef] Hb. destruct (pipe_inv_out _ _ c _ I E) as [I1 A1]. unfold do_write. rewrite Ef. simpl.
  case_bool; [by apply good_ret|]. assert (0 < len_of buf) by (destruct buf; simplify_eq/=; unfold len_of; simpl; lia).
  destruct fl as [op nb]. destruct op; simpl; try (apply pipe_write_ok; [done..|by eexists|lia]); by apply good_ret.
Qed.

Lemma resume_ok c sr sw w ph k :
  inv sr sw w -> procs w !! me c = Some (ph, k) -> copying ph = None ->
  writers (pp w) < 2 ^ 32 - 1 -> (forall b, page c = Some b -> len_of b = PIPE_BUF) -> good c sr sw (resume c w).
Proof.
  intros I E Hc Hw Hp. destruct (pipe_inv_take _ _ c _ _ _ I E) as (I1 & A1 & W & St & Op).
  assert (0 <= sr /\ 0 <= sw) as [Hsr Hsw] by (destruct I as [I _]; eapply nonneg_of, I).
  assert (forall f, opens ph = Some f -> files w !! f = None -> mid c f (sr + rdp ph) (sw + wrp ph) (rdo ph) (wro ph) w) as M.
  { intros f Ho Hf. split; try done; [by destruct ph|]. intros p ph' k' Hq. by eapply Op. }
  unfold resume. rewrite E. destruct ph; simpl in *; try done; rewrite ?Z.add_0_r in *.
  - destruct W. by apply read_wait_ok.
  - destruct W as (W1 & W2 & W3 & W4 & W5). apply write_wait_ok; try done; lia.
  - destruct W as (W1 & W2 & W3). by apply connect_read_ok.
  - apply open_rd_wait_ok; auto.
  - destruct W as [W1 W2]. apply open_rd_rest_ok; auto.
  - apply open_wr_wait_ok; auto.
  - destruct W as [W1 W2]. apply open_wr_rest_ok; auto.
  - apply open_rdwr_wait_ok; auto.
  - apply open_rdwr_rest_ok; auto.
  - apply open_got_page_ok; auto.
Qed.

Lemma copy_ok c sr sw w n ph k chars :
  inv sr sw w -> procs w !! me c = Some (ph, k) -> copying ph = Some chars -> 0 < n <= chars ->
  good c sr sw (copy c n w).
Proof.
  intros I E Hc Hn. destruct ph; simplify_eq/=; [by eapply copy_read_ok|by eapply copy_write_ok].
Qed.

Lemma idle_spec c w : idle c w = true <-> procs w !! me c = None.
Proof. unfold idle. apply bool_decide_eq_true. Qed.

(** No step faults, and every step keeps the invariant. *)
Lemma pipe_run_ok c x sr sw w : inv sr sw w -> guard c x w = true -> good c sr sw (run c x w).
Proof.
  intros I G. unfold guard in G. rewrite !andb_true_iff in G. destruct G as (((G1 & G2) & G3) & G).
  apply Z.ltb_lt in G1, G2.
  assert (forall b, page c = Some b -> len_of b = PIPE_BUF) as Hp by (intros b Eb; rewrite Eb in G3; lia).
  assert (0 <= sr /\ 0 <= sw) as [Hsr Hsw] by (destruct I as [I' _]; eapply nonneg_of, I').
  destruct x; simpl in *; rewrite ?andb_true_iff, ?idle_spec, ?bool_decide_eq_true in G.
  - destruct G as ((E & F) & O). destruct (pipe_inv_out _ _ c _ I E) as [I1 A1]. apply fifo_open_ok; try done.
    split; try done. unfold others. intros p ph k Hq. apply lookup_delete_Some in Hq as [_ Hq]. exact (O p (ph, k) Hq).
  - destruct G as (((E & F) & _) & _). by apply do_read_ok.
  - destruct G as ((E & F) & L). apply do_write_ok; try done. lia.
  - destruct G as ((E & F) & U). apply do_close_ok; try done. intros p ph k Hq. exact (U p (ph, k) Hq).
  - destruct G as (E & [fl Ef]). unfold do_select. rewrite Ef. simpl.
    destruct (op_select_file fl s (pp w)) as (op & E1 & E2 & E3). destruct (op_select fl s (pp w)) as [[r q] fl'].
    simpl in E1. rewrite E1. by eapply set_op_ok.
  - destruct G as (E & [fl Ef]). unfold do_setfl. rewrite Ef. simpl. by eapply set_op_ok.
  - destruct (procs w !! me c) as [[ph k]|] eqn:E; [|done]. destruct (copying ph) eqn:C; [|done].
    eapply copy_ok; [done|done|done|lia].
  - destruct (procs w !! me c) as [[ph k]|] eqn:E; [|done]. eapply resume_ok; try done.
    apply andb_true_iff in G as [G _]. apply negb_true_iff, bool_decide_eq_false in G.
    destruct (copying ph); [|done]. by destruct G.
Qed.

Lemma init_fifo_inv : inv 0 0 init_fifo.
Proof. split; [split|]; simpl; try done. Qed.

Lemma get_pipe_inode_inv b f0 f1 : len_of b = PIPE_BUF -> f0 <> f1 -> inv 0 0 (get_pipe_inode b f0 f1).
Proof.
  intros L N. split; [split|]; simpl; try done.
  - rewrite !msum_insert; [done|done|]. by rewrite lookup_insert_ne.
  - rewrite !msum_insert; [done|done|]. by rewrite lookup_insert_ne.
Qed.

Lemma pipe_reach_inv mem w : reach mem w -> exists sr sw, inv sr sw w /\ (mem = true -> sr = 0 /\ sw = 0).
Proof.
  induction 1 as [|b f0 f1|c x w w' o H (sr & sw & I & Hm) G M E].
  - exists 0, 0. split; [apply init_fifo_inv|done].
  - exists 0, 0. split; [by apply get_pipe_inode_inv|done].
  - destruct (pipe_run_ok c x sr sw w I G) as (w1 & o1 & sr' & sw' & E1 & I' & _ & _ & P). simplify_eq.
    exists sr', sw'. split; [done|]. intros T. destruct (P (M T)) as [-> ->]. by apply Hm.
Qed.

(** ** Which calls return data *)

Definition quiet (x : option (world * outcome)) : Prop :=
  forall w r d s, x = Some (w, Ret r d s) -> d = [].

Lemma quiet_ret c r w : quiet (ret c r w).
Proof. intros ? ? ? ? [=]. done. Qed.
Lemma quiet_ret_sigpipe c r w : quiet (ret_sigpipe c r w).
Proof. intros ? ? ? ? [=]. done. Qed.
Lemma quiet_sleep c ph w : quiet (sleep c ph w).
Proof. intros ? ? ? ? [=]. Qed.
Lemma quiet_open_fails c r w : quiet (open_fails c r w).
Proof. intros ? ? ? ? [=]. done. Qed.
Lemma quiet_opened c f nb op w : quiet (opened c f nb op w).
Proof. apply quiet_ret. Qed.
#[local] Hint Resolve quiet_ret quiet_ret_sigpipe quiet_sleep quiet_open_fails quiet_opened : pipe.

Ltac quiet_tac := cbv zeta; repeat (case_bool; try discriminate); auto with pipe.

Lemma quiet_read_wait c f count w : quiet (read_wait c f count w).
Proof. unfold read_wait, begin_read, read_next. quiet_tac. Qed.
#[local] Hint Resolve quiet_read_wait : pipe.

Lemma quiet_pipe_read c f count w : quiet (pipe_read c f count w).
Proof.
  unfold pipe_read. destruct (nonblock f w) as [[]|]; simpl; auto with pipe; [|done].
  unfold begin_read, read_next. quiet_tac.
Qed.
#[local] Hint Resolve quiet_pipe_read : pipe.

Lemma quiet_connect_read c f count w : quiet (connect_read c f count w).
Proof. unfold connect_read. destruct (files w !! f) as [fl|]; simpl; [|done]. quiet_tac. Qed.

Lemma quiet_write_wait c f buf written free w :
  quiet (write_wait c f (write_begin c f buf written) buf written free w).
Proof.
  unfold write_wait, write_begin, write_chunk. cbv zeta. repeat (case_bool; auto with pipe); [|done].
  destruct (nonblock f w) as [[]|]; simpl; auto with pipe. done.
Qed.
#[local] Hint Resolve quiet_connect_read quiet_write_wait : pipe.

Lemma quiet_write_next c f buf written done w : quiet (write_next c f buf written done w).
Proof. unfold write_next, write_chunk. quiet_tac. Qed.

Lemma quiet_open_page c f nb op r w : quiet (open_page c f nb op r w).
Proof. unfold open_page. destruct (negb _); auto with pipe. destruct (base _); auto with pipe. Qed.
#[local] Hint Resolve quiet_write_next quiet_open_page : pipe.

Lemma quiet_open_rd_rest c f nb r w : quiet (open_rd_rest c f nb r w).
Proof. unfold open_rd_rest. destruct (negb (wr_openers _ =? 0)); auto with pipe. Qed.
Lemma quiet_open_wr_rest c f nb r w : quiet (open_wr_rest c f nb r w).
Proof. unfold open_wr_rest. destruct (negb (rd_openers _ =? 0)); auto with pipe. Qed.
Lemma quiet_open_rdwr_rest c f nb w : quiet (open_rdwr_rest c f nb w).
Proof. unfold open_rdwr_rest. quiet_tac. Qed.
#[local] Hint Resolve quiet_open_rd_rest quiet_open_wr_rest quiet_open_rdwr_rest : pipe.

Lemma quiet_open_rd_wait c f nb w : quiet (open_rd_wait c f nb w).
Proof. unfold open_rd_wait. destruct (writers _ =? 0), (signal c); auto with pipe. Qed.
Lemma quiet_open_wr_wait c f nb w : quiet (open_wr_wait c f nb w).
Proof. unfold open_wr_wait. destruct (readers _ =? 0), (signal c); auto with pipe. Qed.
Lemma quiet_open_rdwr_wait c f nb w : quiet (open_rdwr_wait c f nb w).
Proof. unfold open_rdwr_wait. destruct (negb _); auto with pipe. Qed.
#[local] Hint Resolve quiet_open_rd_wait quiet_open_wr_wait quiet_open_rdwr_wait : pipe.

Lemma quiet_fifo_open c f m nb w : quiet (fifo_open c f m nb w).
Proof.
  unfold fifo_open. destruct (m =? 1); [unfold open_rd; destruct (negb nb && _); auto with pipe|].
  destruct (m =? 2); [|destruct (m =? 3); auto with pipe].
  unfold open_wr. destruct (nb && _); auto with pipe. destruct (readers (pp (inc_writers w)) =? 0); auto with pipe.
Qed.
#[local] Hint Resolve quiet_fifo_open : pipe.

Lemma quiet_resume c w : quiet (resume c w).
Proof.
  unfold resume. destruct (procs w !! me c) as [[[] k]|]; simpl; auto with pipe; try done.
  unfold open_got_page. destruct (base _), (page c); auto with pipe.
Qed.

Lemma quiet_run c x w : (forall n, x <> Copy n) -> quiet (run c x w).
Proof.
  intros Hx. destruct x; simpl.
  - auto with pipe.
  - unfold do_read. destruct (files w !! f) as [[[] ?]|]; simpl; try done; unfold bad_pipe_rw; quiet_tac.
  - unfold do_write. destruct (files w !! f) as [[[] ?]|]; simpl; try done; unfold bad_pipe_rw, pipe_write; quiet_tac.
  - unfold do_close. destruct (files w !! f) as [fl|]; simpl; [auto with pipe|done].
  - unfold do_select. destruct (files w !! f) as [fl|]; simpl; [|done]. destruct (op_select fl s (pp w)) as [[]]. auto with pipe.
  - unfold do_setfl. destruct (files w !! f) as [fl|]; simpl; [auto with pipe|done].
  - by destruct (Hx n).
  - apply quiet_resume.
Qed.

Lemma read_next_data c f count got w w' r d s :
  read_next c f count got w = Some (w', Ret r d s) -> d <> [] ->
  r = len_of d /\ d = got /\ s = false /\ recv w' = recv w ++ [(me c, got)] /\ sent w' = sent w /\
  lock (pp w') = u32 (lock (pp w) - 1) /\ base (pp w') = base (pp w) /\ len (pp w') = len (pp w).
Proof.
  unfold read_next, sleep, ret_data, ret. cbv zeta. intros E Hd.
  destruct ((0 <? count) && negb (len (pp w) =? 0)); [by simplify_eq/=|].
  destruct (negb (Z.of_nat (length got) =? 0)); [by simplify_eq/=|].
  destruct (negb _); by simplify_eq/=.
Qed.

Lemma copy_data c n w w' r d s :
  copy c n w = Some (w', Ret r d s) -> d <> [] ->
  r = len_of d /\ s = false /\ recv w' = recv w ++ [(me c, d)] /\ sent w' = sent w /\
  lock (pp w') = u32 (lock (pp w) - 1) /\ base (pp w') = base (pp w) /\ len (pp w') = len (pp w) /\
  exists f count got chars from k, procs w !! me c = Some (RCopy f count got chars from, k).
Proof.
  unfold copy. intros E Hd. destruct (procs w !! me c) as [[[] k]|]; try done.
  - destruct (base (pp w)) as [b|] eqn:B; simpl in E; [|done]. case_bool_in E; [|done]. case_bool_in E; [|done].
    destruct (read_next_data _ _ _ _ _ _ _ _ _ E Hd) as (-> & -> & -> & E1 & E2 & E3 & E4 & E5).
    split_and!; try done; [congruence|]. eauto 10.
  - destruct (base (pp w)) as [b|] eqn:B; simpl in E; [|done]. case_bool_in E; [|done].
    exfalso. apply Hd. case_bool_in E; [|done]. by apply quiet_write_next in E.
Qed.

(** ** Safety *)

(** C13: whatever the processes that use a pipe or FIFO do, in whatever order they run,
    no call accesses memory outside the page of the pipe or through a null page
    pointer, and the loop of [pipe_write] never spins with the lock taken. *)
Theorem pipe_safe mem w c x :
  reach mem w -> guard c x w = true -> exists w' o, run c x w = Some (w', o).
Proof.
  intros R G. destruct (pipe_reach_inv _ _ R) as (sr & sw & I & _).
  destruct (pipe_run_ok c x sr sw w I G) as (w' & o & _ & _ & E & _). eauto.
Qed.

(** ** First in, first out *)

(** C14: the bytes a read returns are the next bytes of the stream that the writers put
    in, after everything read before, and what is left is what the pipe says it
    holds: nothing is lost, duplicated or reordered. *)
Theorem pipe_fifo mem w c x w' r d s :
  reach mem w -> guard c x w = true -> run c x w = Some (w', Ret r d s) -> d <> [] ->
  r = len_of d /\ exists rest, flat (sent w') = flat (recv w) ++ d ++ rest /\ len_of rest = len (pp w').
Proof.
  intros R G E Hd. destruct (pipe_reach_inv _ _ R) as (sr & sw & I & _).
  destruct (pipe_run_ok c x sr sw w I G) as (w1 & o1 & sr' & sw' & E1 & [I' _] & _). simplify_eq.
  assert (exists n, x = Copy n) as [n ->].
  { destruct x as [| | | | | |n|]; [exfalso; apply Hd; eapply quiet_run, E; done..|by exists n|exfalso; apply Hd; eapply quiet_run, E; done]. }
  destruct (copy_data _ _ _ _ _ _ _ E Hd) as (-> & -> & E2 & E3 & E4 & E5 & E6 & f & count & got & chars & from & k & Eph).
  split; [done|]. destruct (pipe_inv_take _ _ c _ _ _ I Eph) as (I1 & _ & ((fl & Ef & _) & _) & _).
  destruct (core_base _ _ _ _ _ _ _ I1 _ _ Ef) as (b & Eb & _).
  pose proof (core_lock_range _ _ _ _ _ _ _ I1) as L. simpl in L.
  assert (lock (pp w') = 0) as L0 by (rewrite E4; replace (lock (pp w)) with 1 by lia; done).
  pose proof (i_rest _ _ _ _ _ _ _ I' L0 b) as Hr. rewrite E5 in Hr. specialize (Hr Eb).
  exists (ring b (start (pp w')) (len (pp w'))). split.
  - rewrite <- Hr, E2, flat_app. by rewrite <- app_assoc.
  - apply ring_length. apply I'.
Qed.

(** ** Atomic writes *)

(** The buffer of the call of [write] that the step [x] of [c] belongs to. *)
Definition write_of (c : ctx) (x : cmd) (w : world) : option (list Z) :=
  match x with
  | Write f buf => Some buf
  | Copy _ | Resume =>
      match procs w !! me c with
      | Some (WSleep _ buf _ _, _) | Some (WCopy _ buf _ _ _ _, _) => Some buf
      | _ => None
      end
  | _ => None
  end.

(** The step [x] of [c] returns the whole of [buf] as one entry of the history, or an
    error with nothing written, or does not return yet. *)
Definition all_or_nothing (c : ctx) (buf : list Z) (w w' : world) (o : outcome) : Prop :=
  match o with
  | Ret r _ _ => (r = len_of buf /\ (buf = [] \/ sent w' = sent w ++ [(me c, buf)])) \/ (r < 0 /\ sent w' = sent w)
  | Blocked => sent w' = sent w
  end.

Lemma write_wait_atomic c f buf free w w' o :
  write_wait c f (write_begin c f buf 0) buf 0 free w = Some (w', o) -> 0 < len_of buf ->
  all_or_nothing c buf w w' o.
Proof.
  unfold write_wait, write_begin, write_chunk, written_or, sleep, ret_sigpipe, ret. cbv zeta. fold (len_of buf). intros E Hb.
  replace (0 <? len_of buf - 0) with true in E by lia. simpl in E.
  case_bool_in E.
  - case_bool_in E; [simplify_eq/=; right; split; [unfold EPIPE; lia|done]|].
    case_bool_in E; [simplify_eq/=; right; split; [unfold ERESTARTSYS; lia|done]|].
    destruct (nonblock f w) as [[]|]; simplify_eq/=; [|done]. right; split; [unfold EAGAIN; lia|done].
  - case_bool_in E; [|done]. by simplify_eq/=.
Qed.

Lemma copy_atomic c sr sw w n f buf written chars at_ done k w' o :
  inv sr sw w -> procs w !! me c = Some (WCopy f buf written chars at_ done, k) -> 0 < n <= chars ->
  len_of buf <= PIPE_BUF -> copy c n w = Some (w', o) -> all_or_nothing c buf w w' o.
Proof.
  intros I E Hn Hb. destruct (pipe_inv_take _ _ c _ _ _ I E) as (I1 & _ & (Hf & W1 & W2 & W3 & W4 & W5 & W6) & St & _).
  unfold copy. rewrite E. destruct Hf as (fl & Ef & _). destruct (core_base _ _ _ _ _ _ _ I1 _ _ Ef) as (b & Eb & Lb).
  destruct (St b Eb) as (_ & _ & _ & S4). destruct (S4 Hb) as [S5 S6]. rewrite Eb. simpl.
  pose proof (i_len _ _ _ _ _ _ _ I1). destruct (at_ + n <=? _); [|done].
  destruct (Z.eqb_spec n chars) as [->|]; [|by intros [= <- <-]]. unfold write_next. fold (len_of buf).
  unfold PIPE_FREE. simpl. rewrite u32_small by (unfold PIPE_BUF in *; lia). case_bool; [by intros [= <- <-]|].
  assert (written = len_of buf) as -> by lia. unfold write_wait. fold (len_of buf).
  replace (0 <? len_of buf - len_of buf) with false by lia. simpl. intros [= <- <-]. left. split; [done|]. right. simpl.
  do 3 f_equal. rewrite W6. replace (Z.to_nat (len_of buf - chars - len_of done)) with 0%nat by lia. simpl.
  replace (Z.to_nat (len_of buf - chars)) with (length done) by (unfold len_of in *; lia).
  rewrite take_take_drop. apply take_ge. unfold len_of in *. lia.
Qed.

(** C19: a write of at most [PIPE_BUF] bytes is atomic: its bytes enter the stream as one
    piece with no bytes of another writer between them, or not at all and the
    call returns an error. *)
Theorem write_atomic mem w c x buf w' o :
  reach mem w -> guard c x w = true -> write_of c x w = Some buf -> len_of buf <= PIPE_BUF ->
  run c x w = Some (w', o) -> all_or_nothing c buf w w' o.
Proof.
  intros R G Hw Hb. destruct (pipe_reach_inv _ _ R) as (sr & sw & I & _).
  unfold guard in G. rewrite !andb_true_iff in G. destruct G as (_ & G).
  destruct x; simplify_eq/=.
  - unfold do_write. destruct (files w !! f) as [fl|]; simpl; [|done].
    case_bool; [intros [= <- <-]; left; split; [|left]; by apply bool_decide_eq_true in Heqb as ->|].
    apply bool_decide_eq_false in Heqb. assert (0 < len_of buf) by (destruct buf; [done|unfold len_of; simpl; lia]).
    destruct (f_op fl); simpl; try (intros [= <- <-]; right; split; [unfold EBADF; lia|done]);
      unfold pipe_write; (destruct (readers _ =? 0); [intros [= <- <-]; right; split; [unfold EPIPE; lia|done]|]);
      intros E; by eapply write_wait_atomic.
  - destruct (procs w !! me c) as [[[] k]|] eqn:E; simplify_eq/=. intros. eapply copy_atomic; try done. lia.
  - destruct (procs w !! me c) as [[[] k]|] eqn:E; simplify_eq/=.
    destruct (pipe_inv_take _ _ c _ _ _ I E) as (_ & _ & (_ & W1 & _ & _ & W2) & _). destruct (W2 Hb) as [-> _].
    unfold resume. rewrite E. intros E'. eapply write_wait_atomic; [done|lia].
Qed.

(** ** Waking up *)

Lemma holder_exists ps : psum holds ps <> 0 -> exists p ph k, ps !! p = Some (ph, k) /\ is_Some (copying ph).
Proof.
  induction ps as [|p [ph k] ps Hp IH] using map_ind; [done|]. unfold psum. rewrite msum_insert by done. intros H.
  destruct (copying ph) as [n|] eqn:C.
  - exists p, ph, k. rewrite lookup_insert_eq. by rewrite C.
  - assert (holds ph = 0) as H0 by (by destruct ph). simpl in H. rewrite H0 in H.
    destruct (IH H) as (q & ph' & k' & E & C'). exists q, ph', k'. rewrite lookup_insert_ne; [done|].
    by intros ->; simplify_eq.
Qed.

(** The process sleeps on the wait queue of the pipe. *)
Definition on_queue (ph : phase) : bool := negb (in_page ph) && negb (bool_decide (is_Some (copying ph))).

(** What the process waits for has not happened: a reader for data while there are
    writers, a writer for room while there are readers, an opener for the other side. *)
Definition must_wait (ph : phase) (p : pipe_inode_info) : bool :=
  match ph with
  | RSleep _ _ => (len p =? 0) && negb (writers p =? 0)
  | WSleep _ _ _ free => (PIPE_BUF - len p <? free) && negb (readers p =? 0)
  | CSleep _ _ => (len p =? 0) && (writers p =? 0)
  | ORd1 _ _ => writers p =? 0
  | ORd2 _ _ _ | ORw1 _ _ => negb (wr_openers p =? 0)
  | OWr1 _ _ => readers p =? 0
  | OWr2 _ _ _ | ORw2 _ _ => negb (rd_openers p =? 0)
  | _ => false
  end.

Lemma asleep_waits mem w p ph : reach mem w -> procs w !! p = Some (ph, false) -> on_queue ph = true -> lock (pp w) = 0 -> must_wait ph (pp w) = true.
Proof.
  intros R E P L. destruct (pipe_reach_inv _ _ R) as (sr & sw & [I A] & _). pose proof (A p ph E) as W.
  pose proof (i_wf _ _ _ _ _ _ _ I _ _ _ E) as Wf. pose proof (i_len _ _ _ _ _ _ _ I) as Hl. destruct ph; simplify_eq/=; try lia.
Qed.

(** A process that must wait goes back to the same sleep. *)
Lemma wait_again mem w p ph : reach mem w -> procs w !! p = Some (ph, false) -> on_queue ph = true -> lock (pp w) = 0 -> must_wait ph (pp w) = true ->
  (forall f, uses ph = Some f -> nonblock f w = Some false) ->
  exists w', run (Ctx p false None) Resume w = Some (w', Blocked) /\ procs w' !! p = Some (ph, false) /\ pp w' = pp w.
Proof.
  intros R E P L M N. destruct (pipe_reach_inv _ _ R) as (sr & sw & [I A] & _).
  pose proof (i_wf _ _ _ _ _ _ _ I _ _ _ E) as Wf. pose proof (i_len _ _ _ _ _ _ _ I) as Hl. simpl. unfold resume. simpl.
  assert (G : forall ph' w1, pp w1 = pp w -> exists w', sleep (Ctx p false None) ph' w1 = Some (w', Blocked) /\ procs w' !! p = Some (ph', false) /\ pp w' = pp w).
  { intros ph' w1 Ep. eexists. split; [done|]. split; [apply lookup_insert_eq|done]. }
  rewrite E. destruct ph; simplify_eq/=.
  - unfold read_wait, PIPE_EMPTY. simpl. replace ((len (pp w) =? 0) || negb (lock (pp w) =? 0)) with true by lia.
    replace ((len (pp w) =? 0) && (writers (pp w) =? 0)) with false by lia. by apply G.
  - destruct Wf as (_ & W1 & W2 & W3 & _). unfold write_wait, PIPE_FREE.
    fold (len_of buf). unfold PIPE_BUF in *. rewrite !u32_small by lia. simpl.
    replace (negb (0 <? len_of buf - written)) with false by lia.
    replace ((4096 - len (pp w) <? free) || negb (lock (pp w) =? 0)) with true by lia.
    replace (readers (pp w) =? 0) with false by lia. rewrite (N _ eq_refl). by apply G.
  - unfold connect_read. destruct Wf as ((fl & Ef & _) & _). specialize (N _ eq_refl). unfold nonblock in N.
    rewrite Ef in *. simplify_eq/=. rewrite M, N. by apply G.
  - unfold open_rd_wait. simpl. rewrite M. by apply G.
  - unfold open_rd_rest. rewrite M. by apply G.
  - unfold open_wr_wait. simpl. rewrite M. by apply G.
  - unfold open_wr_rest. rewrite M. by apply G.
  - unfold open_rdwr_wait. rewrite M. by apply G.
  - unfold open_rdwr_rest. rewrite M. by apply G.
Qed.

(** C24: Nobody sleeps for something that has already happened.  When a process is asleep on
    the wait queue and was not woken, then either what it waits for has not happened
    ([must_wait]) and if it ran now, in blocking mode and without a signal, it would
    leave the pipe as it is and sleep again for the same; or another process holds
    the lock and is copying: it can go on, and it wakes everybody when it is done. *)
Theorem pipe_no_lost_wakeup mem w p ph :
  reach mem w -> procs w !! p = Some (ph, false) -> on_queue ph = true ->
  must_wait ph (pp w) = true /\ ((forall f, uses ph = Some f -> nonblock f w = Some false) ->
    exists w', run (Ctx p false None) Resume w = Some (w', Blocked) /\ procs w' !! p = Some (ph, false) /\ pp w' = pp w) \/
  (exists q ph' k, procs w !! q = Some (ph', k) /\ is_Some (copying ph')).
Proof.
  intros R E P. destruct (pipe_reach_inv _ _ R) as (sr & sw & [I A] & _). destruct (decide (lock (pp w) = 0)) as [L|L].
  - left. assert (M := asleep_waits mem w p ph R E P L). split; [done|]. by apply (wait_again mem).
  - right. apply holder_exists. rewrite (i_lock _ _ _ _ _ _ _ I) in L. lia.
Qed.

(** a reader and a writer never wait for each other: when both are asleep on the
    pipe and were not woken, a third process holds the lock and is copying. *)
Theorem reader_writer_no_deadlock mem w p f count q g buf written free :
  reach mem w -> procs w !! p = Some (RSleep f count, false) ->
  procs w !! q = Some (WSleep g buf written free, false) ->
  exists q' ph' k, procs w !! q' = Some (ph', k) /\ is_Some (copying ph').
Proof.
  intros R Ep Eq. destruct (pipe_reach_inv _ _ R) as (sr & sw & [I A] & _).
  pose proof (A _ _ Ep) as Wp. pose proof (A _ _ Eq) as Wq. simpl in *.
  destruct (i_wf _ _ _ _ _ _ _ I _ _ _ Eq) as (_ & _ & _ & W & _).
  apply holder_exists. rewrite (i_lock _ _ _ _ _ _ _ I) in *. unfold PIPE_BUF in *. lia.
Qed.

(** ** End of file and broken pipe *)

(** when page allocations did not fail, the counters are exact: with no writer left
    and nothing in the pipe a read returns 0 at once, with no reader left a write
    returns [-EPIPE] and sends [SIGPIPE], whether the file blocks or not. *)
Theorem pipe_ends w c f fl :
  reach true w -> procs w = ∅ -> files w !! f = Some fl ->
  ((forall g fl', files w !! g = Some fl' -> is_writer (f_op fl') = false) -> f_op fl <> connecting_fifo_fops ->
   len (pp w) = 0 -> forall count, exists w', run c (Read f count) w = Some (w', Ret 0 [] false)) /\
  ((forall g fl', files w !! g = Some fl' -> is_reader (f_op fl') = false) ->
   forall buf, buf <> [] -> exists w', run c (Write f buf) w = Some (w', Ret (- EPIPE) [] true)).
Proof.
  intros R Hp Ef. destruct (pipe_reach_inv _ _ R) as (sr & sw & [I A] & Hm). destruct (Hm eq_refl) as [-> ->].
  rewrite Hp in I. split.
  - intros Hw Hc Hl count. assert (writers (pp w) = 0) as W0.
    { rewrite (i_writers _ _ _ _ _ _ _ I), msum_zero; [done|]. intros k x Hk. unfold wrf. by rewrite (Hw _ _ Hk). }
    pose proof (i_lock _ _ _ _ _ _ _ I) as L. unfold psum in L. simpl in L.
    pose proof (Hw _ _ Ef) as Nw. simpl. unfold do_read. rewrite Ef. simpl. case_bool; [unfold ret; eauto|].
    destruct (f_op fl) eqn:O; simplify_eq/=; unfold pipe_read, read_wait, nonblock, PIPE_EMPTY; rewrite Ef; simpl;
      rewrite Hl, W0, L; simpl; destruct (f_nonblock fl); unfold ret; eauto.
  - intros Hr buf Hb. assert (readers (pp w) = 0) as R0.
    { rewrite (i_readers _ _ _ _ _ _ _ I), msum_zero; [done|]. intros k x Hk. unfold rdf. by rewrite (Hr _ _ Hk). }
    pose proof (Hr _ _ Ef) as Nr. simpl. unfold do_write. rewrite Ef. simpl.
    rewrite bool_decide_eq_false_2 by done.
    destruct (f_op fl) eqn:O; simplify_eq/=; unfold pipe_write; rewrite R0; simpl; unfold ret_sigpipe; eauto.
Qed.

(** ** Examples *)

(** A sequence of steps, each of them possible. *)
Fixpoint steps (mem : bool) (l : list (ctx * cmd)) (w : world) : option world :=
  match l with
  | [] => Some w
  | (c, x) :: l =>
      if guard c x w && (negb mem || bool_decide (is_Some (page c))) then '(w', _) ← run c x w; steps mem l w' else None
  end.

Lemma reach_steps mem l w w' : reach mem w -> steps mem l w = Some w' -> reach mem w'.
Proof.
  revert w. induction l as [|[c x] l IH]; intros w R E; simplify_eq/=; [done|].
  destruct (guard c x w) eqn:G; [|done]. destruct (negb mem || _) eqn:M; [|done]. simpl in E.
  destruct (run c x w) as [[w1 o]|] eqn:E1; [|done]. simpl in E. apply (IH w1); [|done].
  eapply reach_step; try done. intros ->. simpl in M. apply bool_decide_eq_true in M as [b M]. by rewrite M.
Qed.

Definition blank : list Z := replicate 4096 0.

(** A pipe, a reader [1] that waits, a writer [2] that writes three bytes; with the
    third step done the reader copies. *)
Definition by_ (p : Z) : ctx := Ctx p false (Some blank).
Definition ex_pipe : world := get_pipe_inode blank 10 11.
Definition ex_reading : option world :=
  steps true [(by_ 1, Read 10 5); (by_ 2, Write 11 [7; 8; 9]); (by_ 2, Copy 3); (by_ 1, Resume)] ex_pipe.
Definition ex_writing : option world :=
  steps true [(by_ 1, Read 10 5); (by_ 2, Write 11 [7; 8; 9]); (by_ 2, Copy 1)] ex_pipe.

Lemma ex_pipe_reach mem : reach mem ex_pipe.
Proof. apply reach_pipe; [vm_compute; reflexivity|lia]. Qed.

Definition ex_world (w : option world) : world := default ex_pipe w.

Lemma ex_reach mem l : is_Some (steps mem l ex_pipe) -> reach mem (ex_world (steps mem l ex_pipe)).
Proof. intros [w E]. rewrite E. simpl. eapply reach_steps; [apply ex_pipe_reach|done]. Qed.

Ltac reach_ex := apply ex_reach; vm_compute; eexists; reflexivity.

Lemma pipe_safe_witness : exists w' o, run (by_ 2) (Copy 2) (ex_world ex_writing) = Some (w', o).
Proof. apply (pipe_safe true); [reach_ex|vm_compute; reflexivity]. Defined.

Lemma pipe_fifo_witness :
  exists w', run (by_ 1) (Copy 3) (ex_world ex_reading) = Some (w', Ret 3 [7; 8; 9] false) /\
  3 = len_of [7; 8; 9] /\
  exists rest, flat (sent w') = flat (recv (ex_world ex_reading)) ++ [7; 8; 9] ++ rest /\ len_of rest = len (pp w').
Proof.
  eexists. split; [vm_compute; reflexivity|].
  eapply (pipe_fifo true (ex_world ex_reading) (by_ 1) (Copy 3) _ 3 [7; 8; 9] false);
    [reach_ex|vm_compute; reflexivity|vm_compute; reflexivity|done].
Defined.

Lemma write_atomic_witness :
  exists w' o, run (by_ 2) (Copy 2) (ex_world ex_writing) = Some (w', o) /\
  all_or_nothing (by_ 2) [7; 8; 9] (ex_world ex_writing) w' o.
Proof.
  eexists _, _. split; [vm_compute; reflexivity|].
  eapply (write_atomic true (ex_world ex_writing) (by_ 2) (Copy 2));
    [reach_ex|vm_compute; reflexivity|vm_compute; reflexivity|vm_compute; discriminate|vm_compute; reflexivity].
Defined.

Lemma pipe_no_lost_wakeup_witness :
  let w := ex_world (steps true [(by_ 1, Read 10 5)] ex_pipe) in
  must_wait (RSleep 10 5) (pp w) = true /\ ((forall f, Some 10 = Some f -> nonblock f w = Some false) ->
    exists w', run (Ctx 1 false None) Resume w = Some (w', Blocked) /\ procs w' !! 1 = Some (RSleep 10 5, false) /\ pp w' = pp w) \/
  (exists q ph' k, procs w !! q = Some (ph', k) /\ is_Some (copying ph')).
Proof. apply (pipe_no_lost_wakeup true _ 1 (RSleep 10 5)); [reach_ex|vm_compute; reflexivity|reflexivity]. Defined.

Lemma reader_writer_no_deadlock_witness :
  let w := ex_world (steps true [(by_ 2, Write 11 [7]); (by_ 1, Read 10 5); (by_ 3, Write 11 [8])] ex_pipe) in
  exists q' ph' k, procs w !! q' = Some (ph', k) /\ is_Some (copying ph').
Proof.
  apply (reader_writer_no_deadlock true _ 1 10 5 3 11 [8] 0 1); [reach_ex|vm_compute; reflexivity..].
Defined.

Definition ex_closed : world := ex_world (steps true [(by_ 2, Close 11)] ex_pipe).

Lemma ex_closed_files : files ex_closed = {[10 := File read_pipe_fops false]}.
Proof. vm_compute. reflexivity. Qed.

Lemma pipe_ends_witness : exists w', run (by_ 1) (Read 10 5) ex_closed = Some (w', Ret 0 [] false).
Proof.
  refine (proj1 (pipe_ends ex_closed (by_ 1) 10 (File read_pipe_fops false) _ _ _) _ _ _ 5).
  - reach_ex.
  - vm_compute; reflexivity.
  - vm_compute; reflexivity.
  - intros g fl' E. rewrite ex_closed_files, lookup_singleton_Some in E. by destruct E as [_ <-].
  - discriminate.
  - vm_compute; reflexivity.
Defined.

(** a FIFO whose open failed for want of a page keeps the count of the reader that
    never came to be: nobody has it open, [readers] is 1, and a non-blocking open
    for writing succeeds where it returns [-ENXIO] on a FIFO nobody reads. *)
Theorem fifo_open_enomem_leaks :
  exists w, reach false w /\ files w = ∅ /\ procs w = ∅ /\ readers (pp w) = 1 /\
  (exists w', steps false [(by_ 2, Open 20 2 true); (by_ 2, Resume)] w = Some w' /\
     files w' !! 20 = Some (File write_fifo_fops true)) /\
  exists w', run (by_ 2) (Open 20 2 true) init_fifo = Some (w', Ret (- ENXIO) [] false).
Proof.
  exists (ex_world (steps false [(Ctx 1 false None, Open 10 1 true); (Ctx 1 false None, Resume)] init_fifo)).
  split_and!; try (vm_compute; reflexivity).
  - apply (reach_steps false [(Ctx 1 false None, Open 10 1 true); (Ctx 1 false None, Resume)] init_fifo);
      [apply reach_fifo|vm_compute; reflexivity].
  - eexists. split; vm_compute; reflexivity.
  - eexists. vm_compute. reflexivity.
Qed.

End PipeReach.
