(* ===== verification/FileTable.v ===== *)
(** * The table of open files ([src/fs/file_table.c])

    All [struct file]s are in one ring, free or not; [get_empty_filp] takes the
    first one that is not in use and moves it to the end.  The files are named by
    their addresses; [None] is an access through a pointer to no file. *)

From S2P Require Import Prelude Dll Ring.
From Stdlib Require Import ZArith Lia.
From stdpp Require Import base list gmap sets.
Local Open Scope Z_scope.

Module FileTable.

Definition NR_OPEN : Z := 256.
Definition NR_FILE : Z := 1024.

(** [f_inode] and [f_op] are addresses, 0 for null. *)
Record file := File {
  f_mode : Z;
  f_rdev : Z;
  f_pos : Z;
  f_flags : Z;
  f_count : Z;
  f_reada : Z;
  f_next : Z;
  f_prev : Z;
  f_inode : Z;
  f_op : Z
}.

Definition set_count (x : Z) (f : file) : file :=
  File (f_mode f) (f_rdev f) (f_pos f) (f_flags f) x (f_reada f) (f_next f) (f_prev f) (f_inode f) (f_op f).
Definition set_next (x : Z) (f : file) : file :=
  File (f_mode f) (f_rdev f) (f_pos f) (f_flags f) (f_count f) (f_reada f) x (f_prev f) (f_inode f) (f_op f).
Definition set_prev (x : Z) (f : file) : file :=
  File (f_mode f) (f_rdev f) (f_pos f) (f_flags f) (f_count f) (f_reada f) (f_next f) x (f_inode f) (f_op f).

Definition zero_file : file := File 0 0 0 0 0 0 0 0 0 0.

Record ftable := Table { first_file : Z; nr_files : Z; fheap : gmap Z file }.

Definition set_first (x : Z) (t : ftable) : ftable := Table x (nr_files t) (fheap t).
Definition upd (p : Z) (g : file -> file) (t : ftable) : option ftable :=
  f ← fheap t !! p;
  Some (Table (first_file t) (nr_files t) (<[p := g f]> (fheap t))).

Definition insert_file_free (p : Z) (t : ftable) : option ftable :=
  t ← upd p (set_next (first_file t)) t;
  first ← fheap t !! first_file t;
  t ← upd p (set_prev (f_prev first)) t;
  f ← fheap t !! p;
  t ← upd (f_next f) (set_prev p) t;
  f ← fheap t !! p;
  t ← upd (f_prev f) (set_next p) t;
  Some (set_first p t).

Definition remove_file_free (p : Z) (t : ftable) : option ftable :=
  t ← (if first_file t =? p then first ← fheap t !! first_file t; Some (set_first (f_next first) t) else Some t);
  f ← fheap t !! p;
  t ← (if negb (f_next f =? 0) then upd (f_next f) (set_prev (f_prev f)) t else Some t);
  f ← fheap t !! p;
  t ← (if negb (f_prev f =? 0) then upd (f_prev f) (set_next (f_next f)) t else Some t);
  upd p (fun f => set_next 0 (set_prev 0 f)) t.

Definition put_last_free (p : Z) (t : ftable) : option ftable :=
  t ← remove_file_free p t;
  first ← fheap t !! first_file t;
  t ← upd p (set_prev (f_prev first)) t;
  f ← fheap t !! p;
  t ← upd (f_prev f) (set_next p) t;
  t ← upd p (set_next (first_file t)) t;
  f ← fheap t !! p;
  upd (f_next f) (set_prev p) t.

Definition SIZEOF_FILE : Z := 32.
Definition PER_PAGE : nat := 128.  (* PAGE_SIZE / sizeof(struct file) *)

(** The files of a page of zeros. *)
Definition new_files (pg : Z) : list Z := (fun i => pg + SIZEOF_FILE * Z.of_nat i) <$> seq 0 PER_PAGE.

Fixpoint insert_all (l : list Z) (t : ftable) : option ftable :=
  match l with
  | [] => Some t
  | p :: l => t ← insert_file_free p t; insert_all l t
  end.

(** [grow_files], after [get_free_page] answered [pg]; 0 for no page. *)
Definition grow_files (pg : Z) (t : ftable) : option ftable :=
  if pg =? 0 then Some t
  else
    let heap := foldr (fun p h => <[p := zero_file]> h) (fheap t) (new_files pg) in
    let t := Table (first_file t) (nr_files t + Z.of_nat PER_PAGE) heap in
    if first_file t =? 0 then
      t ← upd pg (fun f => set_next pg (set_prev pg f)) t;
      insert_all (tail (new_files pg)) (set_first pg t)
    else insert_all (new_files pg) t.

(** The loop of [get_empty_filp]: the first file not in use. *)
Fixpoint find_free (n : nat) (p : Z) (t : ftable) : option (option Z) :=
  match n with
  | O => Some None
  | S n =>
      f ← fheap t !! p;
      if f_count f =? 0 then Some (Some p) else find_free n (f_next f) t
  end.

Definition take_file (p : Z) (t : ftable) : option ftable :=
  t ← remove_file_free p t;
  t ← upd p (fun _ => zero_file) t;
  t ← put_last_free p t;
  upd p (set_count 1) t.

(** How far [get_empty_filp] gets without a page: it has a file, there is none, or it
    calls [grow_files], which may sleep. *)
Inductive got := Got (p : Z) (t : ftable) | Full (t : ftable) | NeedPage (t : ftable).

Definition scan_files (t : ftable) : option got :=
  r ← find_free (Z.to_nat (nr_files t)) (first_file t) t;
  match r with
  | Some p => t ← take_file p t; Some (Got p t)
  | None => Some (if nr_files t <? NR_FILE then NeedPage t else Full t)
  end.

Definition get_empty_filp (t : ftable) : option got :=
  if first_file t =? 0 then Some (NeedPage t) else scan_files t.

(** Back from [get_free_page]: the label [repeat]. *)
Definition get_empty_filp_page (pg : Z) (t : ftable) : option got :=
  t ← grow_files pg t;
  scan_files t.

(** ** The ring *)

Definition nx (t : ftable) (p : Z) : Z := match fheap t !! p with Some f => f_next f | None => 0 end.
Definition pv (t : ftable) (p : Z) : Z := match fheap t !! p with Some f => f_prev f | None => 0 end.

(** Everything but the pointers of the ring. *)
Definition body (f : file) : file := set_next 0 (set_prev 0 f).

Definition live (t : ftable) (p : Z) : Prop := is_Some (fheap t !! p).

(** [l]: the files in the ring, from [first_file] on. *)
Record ring_at (t : ftable) (l : list Z) : Prop := {
  r_first : first_file t = head0 l;
  r_nodup : NoDup l;
  r_zero : 0 ∉ l;
  r_live : forall p, p ∈ l -> live t p;
  r_ring : ring (nx t) (pv t) l
}.

(** All files are in the ring, and [nr_files] counts them. *)
Definition ring_of (t : ftable) (l : list Z) : Prop :=
  ring_at t l /\ (forall p, live t p -> p ∈ l) /\ nr_files t = Z.of_nat (length l).

(** *** Single updates *)

Definition alt (p : Z) (g : file -> file) (t : ftable) : ftable := Table (first_file t) (nr_files t) (alter g p (fheap t)).

(** Updates that change at most the pointers. *)
Definition links_only (g : file -> file) : Prop := forall f, body (g f) = body f.

Lemma upd_alt p g t : live t p -> upd p g t = Some (alt p g t).
Proof.
  intros [f E]. unfold upd, alt. rewrite E. simpl. do 2 f_equal. apply map_eq. intros q.
  destruct (decide (q = p)) as [-> |N].
  - by rewrite lookup_insert_eq, lookup_alter_eq, E.
  - by rewrite lookup_insert_ne, lookup_alter_ne.
Qed.

Lemma live_alt p g t q : live (alt p g t) q <-> live t q.
Proof. unfold live, alt. simpl. rewrite lookup_alter. case_decide as E; [rewrite <- E; by rewrite fmap_is_Some|done]. Qed.

Lemma live_file p t : live t p -> exists f, fheap t !! p = Some f /\ f_next f = nx t p /\ f_prev f = pv t p.
Proof. intros [f E]. exists f. unfold nx, pv. by rewrite E. Qed.

Lemma nx_alt p g t q :
  live t p -> nx (alt p g t) q = if q =? p then f_next (g (default zero_file (fheap t !! p))) else nx t q.
Proof.
  intros [f E]. unfold nx, alt. simpl. destruct (Z.eqb_spec q p) as [-> |N].
  - by rewrite lookup_alter_eq, E.
  - by rewrite lookup_alter_ne.
Qed.

Lemma pv_alt p g t q :
  live t p -> pv (alt p g t) q = if q =? p then f_prev (g (default zero_file (fheap t !! p))) else pv t q.
Proof.
  intros [f E]. unfold pv, alt. simpl. destruct (Z.eqb_spec q p) as [-> |N].
  - by rewrite lookup_alter_eq, E.
  - by rewrite lookup_alter_ne.
Qed.

Lemma nx_set_next p x t q : live t p -> nx (alt p (set_next x) t) q = if q =? p then x else nx t q.
Proof. intros L. by rewrite nx_alt. Qed.
Lemma nx_set_prev p x t q : live t p -> nx (alt p (set_prev x) t) q = nx t q.
Proof. intros L. rewrite nx_alt by done. destruct (Z.eqb_spec q p) as [-> |]; [|done]. destruct L as [f E]. unfold nx. by rewrite E. Qed.
Lemma pv_set_prev p x t q : live t p -> pv (alt p (set_prev x) t) q = if q =? p then x else pv t q.
Proof. intros L. by rewrite pv_alt. Qed.
Lemma pv_set_next p x t q : live t p -> pv (alt p (set_next x) t) q = pv t q.
Proof. intros L. rewrite pv_alt by done. destruct (Z.eqb_spec q p) as [-> |]; [|done]. destruct L as [f E]. unfold pv. by rewrite E. Qed.

Lemma body_alt p g t q : links_only g -> body <$> fheap (alt p g t) !! q = body <$> fheap t !! q.
Proof.
  intros G. unfold alt. simpl. rewrite lookup_alter. case_decide as E; [|done]. rewrite <- E. destruct (fheap t !! p) as [f|]; simpl; [|done].
  by rewrite G.
Qed.

(** [t'] has the files of [t] with other pointers. *)
Definition relinked (t t' : ftable) : Prop :=
  nr_files t' = nr_files t /\ forall q, body <$> fheap t' !! q = body <$> fheap t !! q.

#[export] Instance relinked_preorder : PreOrder relinked.
Proof.
  split; [by split|]. intros t1 t2 t3 [A1 A2] [B1 B2]. split; [congruence|]. intros q. by rewrite B2.
Qed.

Lemma relinked_alt p g t : links_only g -> relinked t (alt p g t).
Proof. intros G. split; [done|]. intros q. by apply body_alt. Qed.

Lemma relinked_first t t' x : relinked t t' -> relinked t (set_first x t').
Proof. done. Qed.

Lemma relinked_live t t' p : relinked t t' -> live t' p <-> live t p.
Proof. intros [_ H]. unfold live. rewrite <- (fmap_is_Some body), H. apply fmap_is_Some. Qed.

Lemma relinked_body t t' p f : relinked t t' -> fheap t !! p = Some f -> exists f', fheap t' !! p = Some f' /\ body f' = body f.
Proof. intros [_ H] E. specialize (H p). rewrite E in H. simpl in H. apply fmap_Some in H as (f' & -> & ->). eauto. Qed.

Lemma links_next x : links_only (set_next x).
Proof. done. Qed.
Lemma links_prev x : links_only (set_prev x).
Proof. done. Qed.
Lemma links_both x y : links_only (fun f => set_next x (set_prev y f)).
Proof. done. Qed.
#[local] Hint Resolve links_both links_next links_prev relinked_alt relinked_first : core.

Section ops.
Context (t : ftable) (l : list Z).
Hypothesis R : ring_at t l.

Lemma ring_live p : p ∈ l -> live t p.
Proof. apply R. Qed.

Lemma ring_pointers p : p ∈ l -> nx t p ∈ l /\ pv t p ∈ l /\ nx t p <> 0 /\ pv t p <> 0.
Proof.
  intros Hp. destruct (ring_around _ _ _ _ Hp (r_ring _ _ R)) as (H1 & H2 & _).
  split_and!; try done; intros E; rewrite E in *; by apply (r_zero _ _ R).
Qed.

Lemma ring_not_self p : p ∈ l -> without p l <> [] -> nx t p <> p /\ pv t p <> p.
Proof.
  intros Hp Hne. pose proof (r_nodup _ _ R) as Hnd. pose proof (r_ring _ _ R) as Rg.
  apply list_elem_of_split in Hp as (l1 & l2 & El). rewrite El in *.
  assert ((p ∉ l1) /\ (p ∉ l2)) as [N1 N2].
  { apply list.NoDup_app in Hnd as (A1 & A2 & A3). apply list.NoDup_cons in A3 as [A3 A4]. set_solver. }
  rewrite without_app, without_cons, Z.eqb_refl, !without_notin in Hne by done.
  apply ring_rotate in Rg. simpl in Rg. assert (l2 ++ l1 <> []) as Hne' by (intros [-> ->]%app_nil; done).
  destruct (ring_cons _ _ _ _ Hne' Rg) as (E1 & _ & _ & E4). rewrite E1, E4.
  pose proof (last0_in _ Hne'). assert (head0 (l2 ++ l1) ∈ l2 ++ l1) by (destruct (l2 ++ l1); [done|left]).
  split; intros E; rewrite E in *; set_solver.
Qed.

Lemma head_of_without p : p ∈ l -> without p l <> [] ->
  first_file (if head0 l =? p then set_first (nx t p) t else t) = head0 (without p l).
Proof.
  intros Hp Hne. pose proof (r_first _ _ R) as F. pose proof (r_ring _ _ R) as Rg. pose proof (r_nodup _ _ R) as Hnd.
  destruct l as [|h r] eqn:El; [by apply not_elem_of_nil in Hp|]. simpl in *. rewrite without_cons in *.
  destruct (Z.eqb_spec h p) as [-> |N]; [|done]. apply list.NoDup_cons in Hnd as [N _].
  rewrite without_notin in * by done. simpl. by apply (ring_cons _ _ _ _ Hne Rg).
Qed.

(** The next access reads a file that is there. *)
Ltac read_file H :=
  let f := fresh "f" in let Ef := fresh "Ef" in let En := fresh "En" in let Ep := fresh "Ep" in
  destruct H as (f & Ef & En & Ep); rewrite Ef; cbn [mbind option_bind]; rewrite ?En, ?Ep.

(** *** [remove_file_free] *)

Lemma remove_file_free_ok p :
  p ∈ l -> without p l <> [] ->
  exists t', remove_file_free p t = Some t' /\ relinked t t' /\ first_file t' = head0 (without p l) /\
    ring (nx t') (pv t') (without p l) /\ nx t' p = 0 /\ pv t' p = 0.
Proof.
  intros Hp Hne. destruct (ring_pointers p Hp) as (P1 & P2 & P3 & P4). destruct (ring_not_self p Hp Hne) as [S1 S2].
  unfold remove_file_free. rewrite (r_first _ _ R).
  set (t1 := if head0 l =? p then set_first (nx t p) t else t).
  replace (if head0 l =? p then _ else Some t) with (Some t1).
  2: { unfold t1. destruct (Z.eqb_spec (head0 l) p) as [-> |]; [|done]. destruct (ring_live p Hp) as [f E].
       unfold nx. by rewrite E. }
  simpl. assert (live t1 p /\ nx t1 = nx t /\ pv t1 = pv t /\ fheap t1 = fheap t) as (L1 & N1 & V1 & H1).
  { unfold t1. pose proof (ring_live p Hp). by destruct (_ =? p). }
  assert (relinked t t1) as K1 by (unfold t1; by destruct (_ =? p)).
  assert (forall q, live t1 q <-> live t q) as LL by (intros q; unfold live; by rewrite H1).
  destruct L1 as [f E]. rewrite E. simpl. assert (f_next f = nx t p /\ f_prev f = pv t p) as [-> ->].
  { unfold nx, pv. rewrite <- H1, E. done. }
  replace (nx t p =? 0) with false by lia. cbn [negb]. rewrite upd_alt by (apply LL, ring_live; done). cbn [mbind option_bind].
  set (t2 := alt (nx t p) (set_prev (pv t p)) t1).
  assert (fheap t2 !! p = Some f) as E2 by (unfold t2, alt; simpl; by rewrite lookup_alter_ne).
  rewrite E2. cbn [mbind option_bind]. assert (f_next f = nx t p /\ f_prev f = pv t p) as [-> ->].
  { unfold nx, pv. rewrite <- H1, E. done. }
  replace (pv t p =? 0) with false by lia. cbn [negb].
  rewrite upd_alt by (apply live_alt, LL, ring_live; done). cbn [mbind option_bind]. set (t3 := alt (pv t p) (set_next (nx t p)) t2).
  assert (live t3 p) as L3 by (apply live_alt, live_alt, LL, ring_live; done). rewrite upd_alt by done.
  set (t4 := alt p _ t3). exists t4. split; [done|].
  assert (forall q, q <> p -> nx t4 q = if q =? pv t p then nx t p else nx t q) as Nx.
  { intros q Hq. unfold t4, t3, t2. rewrite nx_alt by done. replace (q =? p) with false by lia.
    rewrite nx_set_next by (apply live_alt, LL, ring_live; done).
    rewrite nx_set_prev by (apply LL, ring_live; done). by rewrite N1. }
  assert (forall q, q <> p -> pv t4 q = if q =? nx t p then pv t p else pv t q) as Pv.
  { intros q Hq. unfold t4, t3, t2. rewrite pv_alt by done. replace (q =? p) with false by lia.
    rewrite pv_set_next by (apply live_alt, LL, ring_live; done).
    rewrite pv_set_prev by (apply LL, ring_live; done). by rewrite V1. }
  split_and!.
  - trans t1; [done|]. trans t2; [by apply relinked_alt|]. trans t3; by apply relinked_alt.
  - apply (head_of_without p Hp Hne).
  - eapply ring_remove; [apply R|done|done|apply R|intros; by apply Nx|intros; by apply Pv].
  - unfold t4. rewrite nx_alt by done. by rewrite Z.eqb_refl.
  - unfold t4. rewrite pv_alt by done. by rewrite Z.eqb_refl.
Qed.

(** *** Putting a file in *)

(** [p] is not in the ring; afterwards it is before the first and after the last. *)
Definition linked_in (p : Z) (t' : ftable) : Prop :=
  (forall q, nx t' q = if q =? p then head0 l else if q =? pv t (head0 l) then p else nx t q) /\
  (forall q, pv t' q = if q =? p then pv t (head0 l) else if q =? head0 l then p else pv t q).

Lemma linked_in_ring p t' : l <> [] -> p ∉ l -> linked_in p t' ->
  ring (nx t') (pv t') (p :: l) /\ ring (nx t') (pv t') (l ++ [p]).
Proof.
  intros Hne Hp [H1 H2].
  assert (forall q, q ∈ l -> (q =? p) = false) as Hq by (intros q Hq; apply Z.eqb_neq; intros ->; done).
  assert (ring (nx t') (pv t') (p :: l)) as Rg.
  { eapply ring_insert; [by apply list.NoDup_cons; split; [|apply R]|done|apply R| | | |].
    - by rewrite H1, Z.eqb_refl.
    - by rewrite H2, Z.eqb_refl.
    - intros q Hl. by rewrite H1, Hq.
    - intros q Hl. by rewrite H2, Hq. }
  split; [done|]. by apply (ring_rotate _ _ [p] l).
Qed.

Lemma head_live : l <> [] -> head0 l ∈ l /\ pv t (head0 l) ∈ l.
Proof.
  intros Hne. assert (head0 l ∈ l) as H by (destruct l; [done|left]). split; [done|]. by apply ring_pointers.
Qed.

Ltac eqb_cases := repeat (case_bool; rewrite ?Z.eqb_eq, ?Z.eqb_neq in *); subst; try congruence; try done.

Lemma insert_file_free_ok p :
  l <> [] -> p ∉ l -> live t p ->
  exists t', insert_file_free p t = Some t' /\ relinked t t' /\ first_file t' = p /\ linked_in p t'.
Proof.
  intros Hne Hp Lp. destruct (head_live Hne) as [Hh Hv]. set (h := head0 l) in *. set (v := pv t h) in *.
  assert (h <> p /\ v <> p) as [Nh Nv] by (split; intros E; rewrite E in *; done).
  unfold insert_file_free. rewrite (r_first _ _ R). fold h. rewrite upd_alt by done. cbn [mbind option_bind].
  set (t1 := alt p (set_next h) t). assert (first_file t1 = h) as F1 by apply R. rewrite F1.
  read_file (live_file h t1 ltac:(apply live_alt, ring_live; done)).
  assert (pv t1 h = v) as -> by (unfold t1; by rewrite pv_set_next).
  rewrite upd_alt by (apply live_alt; done). cbn [mbind option_bind]. set (t2 := alt p (set_prev v) t1).
  assert (forall q, live t q -> live t2 q) as L2 by (intros q Hq; by apply live_alt, live_alt).
  assert (nx t2 p = h) as E2.
  { unfold t2, t1. rewrite nx_set_prev by (by apply live_alt). rewrite nx_set_next by done. by rewrite Z.eqb_refl. }
  read_file (live_file p t2 ltac:(auto)). rewrite E2. rewrite upd_alt by (apply L2, ring_live; done).
  cbn [mbind option_bind]. set (t3 := alt h (set_prev p) t2).
  assert (forall q, live t q -> live t3 q) as L3 by (intros q Hq; by apply live_alt, L2).
  assert (pv t3 p = v) as E3.
  { unfold t3, t2. rewrite pv_set_prev by (apply L2, ring_live; done). replace (p =? h) with false by lia.
    rewrite pv_set_prev by (by apply live_alt). by rewrite Z.eqb_refl. }
  read_file (live_file p t3 ltac:(auto)). rewrite E3. rewrite upd_alt by (apply L3, ring_live; done).
  cbn [mbind option_bind]. set (t4 := alt v (set_next p) t3). exists (set_first p t4). split; [done|]. split; [|split; [done|split]].
  - apply relinked_first. trans t1; [by apply relinked_alt|]. trans t2; [by apply relinked_alt|].
    trans t3; by apply relinked_alt.
  - intros q. fold h. fold v. change (nx (set_first p t4) q) with (nx t4 q). unfold t4, t3, t2, t1.
    rewrite nx_set_next by (apply L3, ring_live; done). rewrite nx_set_prev by (apply L2, ring_live; done).
    rewrite nx_set_prev by (by apply live_alt). rewrite nx_set_next by done. eqb_cases.
  - intros q. fold h. fold v. change (pv (set_first p t4) q) with (pv t4 q). unfold t4, t3, t2, t1.
    rewrite pv_set_next by (apply L3, ring_live; done). rewrite pv_set_prev by (apply L2, ring_live; done).
    rewrite pv_set_prev by (by apply live_alt). rewrite pv_set_next by done. eqb_cases.
Qed.

(** A file that is in no ring. *)
Definition detached (p : Z) : Prop := (p ∉ l) /\ live t p /\ nx t p = 0 /\ pv t p = 0.

Lemma remove_detached p : l <> [] -> detached p -> exists t', remove_file_free p t = Some t' /\ relinked t t' /\
  first_file t' = head0 l /\ (forall q, nx t' q = nx t q) /\ (forall q, pv t' q = pv t q).
Proof.
  intros Hne (Hp & Lp & N0 & V0). unfold remove_file_free. rewrite (r_first _ _ R).
  assert ((head0 l =? p) = false) as -> by (apply Z.eqb_neq; intros E; destruct (head_live Hne); rewrite E in *; done).
  cbn [mbind option_bind]. read_file (live_file p t Lp). rewrite N0. simpl. rewrite Ef. simpl. rewrite Ep, V0. simpl.
  rewrite upd_alt by done. eexists. split; [done|]. split_and!; [by apply relinked_alt|apply R|..].
  - intros q. rewrite nx_alt by done. destruct (Z.eqb_spec q p) as [-> |]; [by rewrite N0|done].
  - intros q. rewrite pv_alt by done. destruct (Z.eqb_spec q p) as [-> |]; [by rewrite V0|done].
Qed.

Lemma put_last_free_ok p : l <> [] -> detached p ->
  exists t', put_last_free p t = Some t' /\ relinked t t' /\ first_file t' = head0 l /\ linked_in p t'.
Proof.
  intros Hne D. destruct (remove_detached p Hne D) as (t0 & E0 & K0 & F0 & N0 & V0). destruct D as (Hp & Lp & _ & _).
  destruct (head_live Hne) as [Hh Hv]. set (h := head0 l) in *. set (v := pv t h) in *.
  assert (h <> p /\ v <> p) as [Nh Nv] by (split; intros E; rewrite E in *; done).
  assert (forall q, live t q -> live t0 q) as L0 by (intros q; by apply relinked_live).
  unfold put_last_free. rewrite E0. cbn [mbind option_bind]. rewrite F0.
  read_file (live_file h t0 ltac:(apply L0, ring_live; done)). rewrite V0. fold v.
  rewrite upd_alt by auto. cbn [mbind option_bind]. set (t1 := alt p (set_prev v) t0).
  assert (forall q, live t q -> live t1 q) as L1 by (intros q Hq; by apply live_alt, L0).
  assert (pv t1 p = v) as E1 by (unfold t1; rewrite pv_set_prev by auto; by rewrite Z.eqb_refl).
  read_file (live_file p t1 ltac:(auto)). rewrite E1. rewrite upd_alt by (apply L1, ring_live; done).
  cbn [mbind option_bind]. set (t2 := alt v (set_next p) t1).
  assert (forall q, live t q -> live t2 q) as L2 by (intros q Hq; by apply live_alt, L1).
  assert (first_file t2 = h) as F2 by done. rewrite F2. rewrite upd_alt by auto. cbn [mbind option_bind].
  set (t3 := alt p (set_next h) t2). assert (forall q, live t q -> live t3 q) as L3 by (intros q Hq; by apply live_alt, L2).
  assert (nx t3 p = h) as E3 by (unfold t3; rewrite nx_set_next by auto; by rewrite Z.eqb_refl).
  read_file (live_file p t3 ltac:(auto)). rewrite E3. rewrite upd_alt by (apply L3, ring_live; done).
  set (t4 := alt h (set_prev p) t3). exists t4. split; [done|]. split; [|split; [done|split]].
  - trans t0; [done|]. trans t1; [by apply relinked_alt|]. trans t2; [by apply relinked_alt|]. trans t3; by apply relinked_alt.
  - intros q. fold h. fold v. unfold t4, t3, t2, t1. rewrite nx_set_prev by (apply L3, ring_live; done).
    rewrite nx_set_next by auto. rewrite nx_set_next by (apply L1, ring_live; done). rewrite nx_set_prev by auto. rewrite N0. eqb_cases.
  - intros q. fold h. fold v. unfold t4, t3, t2, t1. rewrite pv_set_prev by (apply L3, ring_live; done).
    rewrite pv_set_next by auto. rewrite pv_set_next by (apply L1, ring_live; done). rewrite pv_set_prev by auto. rewrite V0. eqb_cases.
Qed.

End ops.

(** *** Taking a file *)

Lemma nx_pv_ext t t' : fheap t' = fheap t -> nx t' = nx t /\ pv t' = pv t.
Proof. intros E. unfold nx, pv. by rewrite E. Qed.

(** The file goes to the end of the ring with all its fields 0 but the count; the
    other files keep theirs. *)
Lemma take_file_ok t l p :
  ring_of t l -> p ∈ l -> without p l <> [] ->
  exists t', take_file p t = Some t' /\ ring_of t' (without p l ++ [p]) /\
    (exists f, fheap t' !! p = Some f /\ body f = set_count 1 zero_file) /\
    forall q, q <> p -> body <$> fheap t' !! q = body <$> fheap t !! q.
Proof.
  intros (R & Dom & Nr) Hp Hne. unfold take_file.
  destruct (remove_file_free_ok t l R p Hp Hne) as (t1 & -> & K1 & F1 & R1 & N1 & V1). cbn [mbind option_bind].
  assert (forall q, live t q -> live t1 q) as L1 by (intros q; by apply relinked_live).
  rewrite upd_alt by (apply L1, (r_live _ _ R); done). cbn [mbind option_bind]. set (t2 := alt p _ t1).
  assert (forall q, live t q -> live t2 q) as L2 by (intros q Hq; by apply live_alt, L1).
  assert (forall q, nx t2 q = nx t1 q) as N2.
  { intros q. unfold t2. rewrite nx_alt by (apply L1, (r_live _ _ R); done). destruct (Z.eqb_spec q p) as [-> |]; [by rewrite N1|done]. }
  assert (forall q, pv t2 q = pv t1 q) as V2.
  { intros q. unfold t2. rewrite pv_alt by (apply L1, (r_live _ _ R); done). destruct (Z.eqb_spec q p) as [-> |]; [by rewrite V1|done]. }
  assert (p ∉ without p l) as Np by (rewrite elem_of_without; tauto).
  assert (ring_at t2 (without p l)) as R2.
  { split; [done|apply NoDup_without, R| | |].
    - intros [_ H0]%elem_of_without. by apply (r_zero _ _ R).
    - intros q [_ Hq]%elem_of_without. by apply L2, (r_live _ _ R).
    - eapply ring_ext; [done| |exact R1]. intros; by rewrite N2, V2. }
  assert (detached t2 (without p l) p) as D2.
  { split_and!; [done|by apply L2, (r_live _ _ R)|by rewrite N2|by rewrite V2]. }
  destruct (put_last_free_ok t2 _ R2 p Hne D2) as (t3 & -> & K3 & F3 & In3). cbn [mbind option_bind].
  assert (live t3 p) as L3 by (apply (relinked_live _ _ _ K3), D2). rewrite upd_alt by done. eexists. split; [done|].
  assert (fheap t2 !! p = Some zero_file) as E2.
  { unfold t2, alt. simpl. rewrite lookup_alter_eq. by destruct (L1 p (r_live _ _ R p Hp)) as [f ->]. }
  destruct (relinked_body _ _ _ _ K3 E2) as (f3 & E3 & B3). split; [|split].
  - assert (forall q, nx (alt p (set_count 1) t3) q = nx t3 q /\ pv (alt p (set_count 1) t3) q = pv t3 q) as Ext.
    { intros q. rewrite nx_alt, pv_alt by done. destruct (Z.eqb_spec q p) as [-> |]; [|done].
      unfold nx, pv. rewrite E3. done. }
    split; [|split].
    + split; simpl.
      * rewrite F3. destruct (without p l); done.
      * apply list.NoDup_app. split_and!; [apply NoDup_without, R|set_solver|apply NoDup_singleton].
      * rewrite elem_of_app, list_elem_of_singleton. intros [H|H]; [by apply (r_zero _ _ R2)|].
        apply (r_zero _ _ R). by rewrite H.
      * intros q Hq. apply live_alt. apply (relinked_live _ _ _ K3), L2, (r_live _ _ R).
        apply elem_of_app in Hq as [[_ Hq]%elem_of_without | ->%list_elem_of_singleton]; done.
      * eapply ring_ext; [by destruct (without p l)|intros q _; apply Ext|]. by apply (linked_in_ring t2 _ R2).
    + intros q Hq. rewrite live_alt, (relinked_live _ _ _ K3) in Hq. unfold t2 in Hq. rewrite live_alt, (relinked_live _ _ _ K1) in Hq.
      apply elem_of_app. rewrite elem_of_without, list_elem_of_singleton. destruct (decide (q = p)); auto.
    + simpl. destruct K3 as [-> _]. simpl. destruct K1 as [-> _]. rewrite Nr, length_app. simpl.
      pose proof (length_without p l (r_nodup _ _ R) Hp). lia.
  - exists (set_count 1 f3). unfold alt. simpl. rewrite lookup_alter_eq, E3. split; [done|]. destruct f3. unfold zero_file, body, set_next, set_prev, set_count in *.
    simpl in *. by inversion B3.
  - intros q Hq. unfold alt. simpl. rewrite lookup_alter_ne by done. rewrite (proj2 K3). unfold t2, alt. simpl.
    rewrite lookup_alter_ne by done. apply K1.
Qed.

(** *** Finding a file *)

(** The number of users of a file. *)
Definition count (t : ftable) (p : Z) : Z := match fheap t !! p with Some f => f_count f | None => 0 end.

Lemma find_free_ok t l n : ring_at t l -> forall l1 l2, l = l1 ++ l2 -> n = length l2 ->
  find_free n (head0 (l2 ++ l1)) t = Some (head (filter (fun p => count t p = 0) l2)).
Proof.
  intros R. induction n as [|n IH]; intros l1 l2 El En; [by destruct l2|]. destruct l2 as [|p l2]; [done|].
  simpl in En. assert (p ∈ l) as Hp by (rewrite El; set_solver). destruct (r_live _ _ R p Hp) as [f E].
  assert (count t p = f_count f) as Ec by (unfold count; by rewrite E).
  simpl. rewrite E. simpl. rewrite filter_cons, Ec. destruct (Z.eqb_spec (f_count f) 0) as [C|C].
  - by rewrite decide_True.
  - rewrite decide_False by done. specialize (IH (l1 ++ [p]) l2 ltac:(rewrite <- app_assoc; done) ltac:(lia)).
    assert (f_next f = head0 (l2 ++ l1 ++ [p])) as ->; [|done].
    pose proof (r_ring _ _ R) as Rg. rewrite El in Rg. apply ring_rotate in Rg. simpl in Rg.
    assert (f_next f = nx t p) as -> by (unfold nx; by rewrite E). rewrite app_assoc. destruct (decide (l2 ++ l1 = [])) as [Z0|Z0].
    + rewrite Z0 in *. simpl. unfold ring in Rg. simpl in Rg. tauto.
    + destruct (ring_cons _ _ _ _ Z0 Rg) as (-> & _). by destruct (l2 ++ l1).
Qed.

Lemma without_nonempty p l : NoDup l -> p ∈ l -> (2 <= length l)%nat -> without p l <> [].
Proof. intros Hnd Hp H E. pose proof (length_without p l Hnd Hp) as L. rewrite E in L. simpl in L. lia. Qed.

(** What [scan_files] promises: the free file that is first in the ring, moved to its end and
    wiped; or that every file is in use. *)
Definition scan_post (t : ftable) (l : list Z) (r : option got) : Prop :=
  match head (filter (fun p => count t p = 0) l) with
  | Some p => exists t' f, r = Some (Got p t') /\ ring_of t' (without p l ++ [p]) /\
      fheap t' !! p = Some f /\ body f = set_count 1 zero_file /\
      forall q, q <> p -> body <$> fheap t' !! q = body <$> fheap t !! q
  | None => r = Some (if Z.of_nat (length l) <? NR_FILE then NeedPage t else Full t)
  end.

Lemma scan_files_ok t l : ring_of t l -> length l <> 1%nat -> scan_post t l (scan_files t).
Proof.
  intros (R & Dom & Nr) Hl. unfold scan_files, scan_post. rewrite Nr, Nat2Z.id, (r_first _ _ R).
  pose proof (find_free_ok t l (length l) R [] l eq_refl eq_refl) as F. rewrite app_nil_r in F. rewrite F.
  cbn [mbind option_bind]. clear F.
  destruct (head _) as [p|] eqn:E; [|done].
  assert (p ∈ l) as Hp.
  { assert (p ∈ filter (fun p => count t p = 0) l) as H; [|by apply list_elem_of_filter in H as [_ H]].
    destruct (filter _ l); simplify_eq/=. left. }
  assert (2 <= length l)%nat as H2 by (destruct l as [|? [|]]; [by apply not_elem_of_nil in Hp|done|simpl; lia]).
  destruct (take_file_ok t l p (conj R (conj Dom Nr)) Hp (without_nonempty _ _ (r_nodup _ _ R) Hp H2))
    as (t' & -> & R' & (f & Ef & Bf) & Oth).
  exists t', f. done.
Qed.

(** *** New files *)

Lemma insert_all_ok ps t l :
  ring_at t l -> l <> [] -> NoDup (ps ++ l) -> 0 ∉ ps -> (forall p, p ∈ ps -> live t p) ->
  exists t', insert_all ps t = Some t' /\ relinked t t' /\ ring_at t' (reverse ps ++ l).
Proof.
  revert t l. induction ps as [|p ps IH]; intros t l R Hne Hnd Hz Hl; [exists t; done|].
  simpl app in Hnd. apply list.NoDup_cons in Hnd as [Hp Hnd]. rewrite elem_of_app in Hp.
  destruct (insert_file_free_ok t l R p Hne ltac:(tauto) (Hl p ltac:(left))) as (t1 & E1 & K1 & F1 & In1).
  assert (ring_at t1 (p :: l)) as R1.
  { split; [done| | | |exact (proj1 (linked_in_ring t l R p t1 Hne ltac:(tauto) In1))].
    - apply list.NoDup_cons. split; [tauto|apply R].
    - apply not_elem_of_cons. split; [set_solver|apply R].
    - intros q Hq. apply (relinked_live _ _ _ K1). apply elem_of_cons in Hq as [-> |Hq]; [apply Hl; left|by apply R]. }
  destruct (IH t1 (p :: l) R1) as (t' & E' & K' & R'); [done| | | |].
  - apply list.NoDup_app in Hnd as (A1 & A2 & A3). apply list.NoDup_app. split_and!; [done| |by apply R1].
    intros q Hq. apply not_elem_of_cons. split; [intros ->; tauto|by apply A2].
  - set_solver.
  - intros q Hq. apply (relinked_live _ _ _ K1), Hl. by right.
  - exists t'. simpl. rewrite E1. simpl. split; [done|]. split; [by trans t1|].
    rewrite reverse_cons, <- app_assoc. done.
Qed.

Lemma new_files_heap h ps p :
  foldr (fun p h => <[p := zero_file]> h) h ps !! p = if decide (p ∈ ps) then Some zero_file else (h : gmap Z file) !! p.
Proof.
  induction ps as [|q ps IH]; simpl; [done|]. destruct (decide (p = q)) as [-> |N].
  - rewrite lookup_insert_eq, decide_True by left. done.
  - rewrite lookup_insert_ne, IH by done. destruct (decide (p ∈ ps)) as [H|H].
    + rewrite decide_True by (by right). done.
    + rewrite decide_False by (apply not_elem_of_cons; done). done.
Qed.

Lemma new_files_NoDup pg : NoDup (new_files pg).
Proof.
  apply NoDup_fmap_2; [|apply NoDup_seq]. intros i j H. unfold SIZEOF_FILE in H. lia.
Qed.

Lemma new_files_length pg : length (new_files pg) = PER_PAGE.
Proof. unfold new_files. by rewrite length_fmap, length_seq. Qed.

(** The page is none of the kernel's: no file lies in it, and it is not at address 0. *)
Definition fresh_page (pg : Z) (t : ftable) : Prop :=
  0 < pg /\ forall p, p ∈ new_files pg -> ~ live t p.

Lemma new_files_pos pg : 0 < pg -> 0 ∉ new_files pg.
Proof.
  intros H (i & E & _)%list_elem_of_fmap. unfold SIZEOF_FILE in E. lia.
Qed.

Lemma new_files_cons pg : new_files pg = pg :: tail (new_files pg).
Proof. unfold new_files, PER_PAGE. cbn [seq fmap list_fmap tail]. f_equal. lia. Qed.

(** The first page: its first file is a ring of its own. *)
Lemma first_page_ok pg t :
  0 < pg -> (forall q, q ∈ new_files pg -> live t q) ->
  exists t', (t0 ← upd pg (fun f => set_next pg (set_prev pg f)) t; insert_all (tail (new_files pg)) (set_first pg t0)) = Some t' /\
    relinked t t' /\ ring_at t' (reverse (new_files pg)).
Proof.
  intros Hpg L. pose proof (new_files_cons pg) as En. pose proof (new_files_NoDup pg) as Hnd.
  assert (live t pg) as Lpg by (apply L; rewrite En; left). rewrite upd_alt by done. cbn [mbind option_bind].
  set (t2 := alt pg _ t). rewrite En in Hnd. apply list.NoDup_cons in Hnd as [N1 N2].
  destruct (insert_all_ok (tail (new_files pg)) (set_first pg t2) [pg]) as (t' & E' & K' & R').
  - split; [done|apply NoDup_singleton|rewrite list_elem_of_singleton; lia| |].
    + intros q ->%list_elem_of_singleton. change (live t2 pg). by apply live_alt.
    + unfold ring. simpl. change (nx t2 pg = pg /\ pv t2 pg = pg /\ True). unfold t2.
      rewrite nx_alt, pv_alt by done. by rewrite Z.eqb_refl.
  - done.
  - apply list.NoDup_app. split_and!; [done|set_solver|apply NoDup_singleton].
  - intros H. apply (new_files_pos pg Hpg). rewrite En. by right.
  - intros q Hq. change (live t2 q). apply live_alt, L. rewrite En. by right.
  - exists t'. split; [done|]. split; [trans t2; [by apply relinked_alt|done]|].
    rewrite En, reverse_cons. done.
Qed.

(** The new files come before the others; they are free. *)
Lemma grow_files_ok pg t l :
  ring_of t l -> fresh_page pg t ->
  exists t', grow_files pg t = Some t' /\ ring_of t' (reverse (new_files pg) ++ l) /\
    (forall p, p ∈ new_files pg -> body <$> fheap t' !! p = Some zero_file) /\
    (forall p, p ∉ new_files pg -> body <$> fheap t' !! p = body <$> fheap t !! p).
Proof.
  intros (R & Dom & Nr) [Hpg Hfr]. unfold grow_files. replace (pg =? 0) with false by lia. cbv zeta.
  set (t1 := Table _ _ _).
  assert (forall q, q ∉ new_files pg -> fheap t1 !! q = fheap t !! q) as O1.
  { intros q Hq. unfold t1. cbn [fheap]. rewrite new_files_heap, decide_False by done. done. }
  assert (forall q, q ∈ new_files pg -> fheap t1 !! q = Some zero_file) as O2.
  { intros q Hq. unfold t1. cbn [fheap]. rewrite new_files_heap, decide_True by done. done. }
  assert (forall q, live t1 q <-> q ∈ new_files pg \/ live t q) as L1.
  { intros q. unfold live. destruct (decide (q ∈ new_files pg)) as [H|H]; [rewrite O2 by done|rewrite O1 by done]; naive_solver. }
  assert (exists t', (if first_file t1 =? 0
      then t0 ← upd pg (fun f => set_next pg (set_prev pg f)) t1; insert_all (tail (new_files pg)) (set_first pg t0)
      else insert_all (new_files pg) t1) = Some t' /\ relinked t1 t' /\ ring_at t' (reverse (new_files pg) ++ l))
    as (t' & E' & K' & R').
  { destruct (Z.eqb_spec (first_file t1) 0) as [Z0|Z0].
    - assert (l = []) as ->.
      { destruct l as [|h l']; [done|]. exfalso. apply (r_zero _ _ R). rewrite <- Z0. unfold t1. cbn [first_file]. rewrite (r_first _ _ R). left. }
      rewrite app_nil_r. apply first_page_ok; [done|]. intros q Hq. apply L1. auto.
    - assert (forall q, q ∈ l -> q ∉ new_files pg) as Dis by (intros q Hq Hn; apply (Hfr q Hn), R; done).
      assert (l <> []) as Hne by (intros ->; apply Z0; apply R). apply insert_all_ok; try done.
      + destruct R. split; try done.
        * intros q Hq. apply L1. auto.
        * eapply ring_ext; [done| |done]. intros q Hq. unfold nx, pv. rewrite O1 by auto. done.
      + apply list.NoDup_app. split_and!; [apply new_files_NoDup| |apply R]. intros q Hq Hl. by apply (Dis q).
      + by apply new_files_pos.
      + intros q Hq. apply L1. auto. }
  exists t'. split; [exact E'|]. split; [split; [done|split]|split].
  - intros q Hq. apply (relinked_live _ _ _ K'), L1 in Hq. rewrite elem_of_app, elem_of_reverse. destruct Hq; auto.
  - destruct K' as [-> _]. unfold t1. cbn [nr_files]. rewrite Nr, length_app, length_reverse, new_files_length. lia.
  - intros p Hp. rewrite (proj2 K'), O2 by done. done.
  - intros p Hp. rewrite (proj2 K'), O1 by done. done.
Qed.

Lemma get_empty_filp_ok t l : ring_of t l -> length l <> 1%nat -> scan_post t l (get_empty_filp t).
Proof.
  intros R Hl. unfold get_empty_filp. destruct (Z.eqb_spec (first_file t) 0) as [Z0|Z0]; [|by apply scan_files_ok].
  assert (l = []) as ->; [|done]. destruct R as (R & _). destruct l as [|h l]; [done|]. exfalso.
  apply (r_zero _ _ R). rewrite <- Z0, (r_first _ _ R). left.
Qed.

(** [get_empty_filp] searches the ring in order and takes the first file that nobody
    uses, the one unused for longest; it wipes the file, counts one user and
    moves it to the end, and changes no other file.  If all are in use it asks
    for a page as long as there are fewer than [NR_FILE] files. *)
Theorem get_empty_filp_refines t l : ring_of t l -> length l <> 1%nat -> scan_post t l (get_empty_filp t).
Proof. apply get_empty_filp_ok. Qed.

Lemma count_body f f' : body f = body f' -> f_count f = f_count f'.
Proof. intros E. change (f_count (body f) = f_count (body f')). by rewrite E. Qed.

Lemma get_empty_filp_page_ok pg t l :
  ring_of t l -> fresh_page pg t ->
  exists t' p l', get_empty_filp_page pg t = Some (Got p t') /\ ring_of t' l' /\ l' ≡ₚ new_files pg ++ l /\
    (exists f, fheap t' !! p = Some f /\ body f = set_count 1 zero_file) /\ (p ∈ new_files pg) /\
    (forall q, q ∈ new_files pg -> q <> p -> body <$> fheap t' !! q = Some zero_file) /\
    (forall q, q ∉ new_files pg -> body <$> fheap t' !! q = body <$> fheap t !! q).
Proof.
  intros R F. destruct (grow_files_ok pg t l R F) as (t1 & E1 & R1 & N1 & O1). unfold get_empty_filp_page. rewrite E1.
  cbn [mbind option_bind]. pose proof (scan_files_ok t1 _ R1) as S. unfold scan_post in S.
  assert (length (reverse (new_files pg) ++ l) <> 1%nat) as Hl by (rewrite length_app, length_reverse, new_files_length; unfold PER_PAGE; lia).
  specialize (S Hl).
  assert (filter (fun p => count t1 p = 0) (reverse (new_files pg) ++ l) = reverse (new_files pg) ++ filter (fun p => count t1 p = 0) l) as Ef.
  { rewrite filter_app. f_equal. apply filter_all, list.Forall_forall. intros q Hq%elem_of_reverse. specialize (N1 q Hq).
    apply fmap_Some in N1 as (f & Ef & Eb). unfold count. rewrite Ef. by apply (count_body f zero_file). }
  rewrite Ef in S. destruct (reverse (new_files pg)) as [|p r] eqn:Er.
  { apply (f_equal length) in Er. rewrite length_reverse, new_files_length in Er. done. }
  simpl in S. destruct S as (t' & f & -> & R' & Ep & Bp & O').
  assert (p ∈ new_files pg) as Hp by (rewrite <- elem_of_reverse, Er; left).
  exists t', p, (without p (p :: r ++ l) ++ [p]). split; [done|]. split; [done|]. split; [|split; [eauto|split; [done|split]]].
  - assert (NoDup (p :: r ++ l)) as Hnd by apply R1.
    rewrite without_cons, Z.eqb_refl, without_notin by (apply list.NoDup_cons in Hnd as [H _]; done).
    rewrite <- (reverse_Permutation (new_files pg)), Er. simpl. by rewrite Permutation_app_comm.
  - intros q Hq Hne. rewrite O' by done. by apply N1.
  - intros q Hq. rewrite O' by (intros ->; done). by apply O1.
Qed.

(** without memory [get_empty_filp] never returns: when all files are in use, fewer
    than [NR_FILE] of them exist and there is no page, [grow_files] does nothing
    and the search starts over in the same state, for ever. *)
Theorem get_empty_filp_spins t l :
  ring_of t l -> length l <> 1%nat -> Z.of_nat (length l) < NR_FILE -> Forall (fun p => count t p <> 0) l ->
  get_empty_filp_page 0 t = Some (NeedPage t).
Proof.
  intros R Hl Hn Hf. unfold get_empty_filp_page, grow_files. cbn. pose proof (scan_files_ok t l R Hl) as S. unfold scan_post in S.
  rewrite filter_none in S by (eapply Forall_impl; [exact Hf|done]). simpl in S. rewrite S.
  by replace (Z.of_nat (length l) <? NR_FILE) with true by lia.
Qed.

End FileTable.
