(* ===== verification/Fd.v ===== *)
(** * File descriptors ([src/fs/open.c], [src/fs/fcntl.c], [sys_pipe] of
      [src/fs/pipe.c], and what [fork], [exec] and [exit] do to descriptors)

    Each process has an array [filp] of pointers to files.  A call runs until it
    returns or can sleep: in [get_free_page] under [get_empty_filp], in
    [open_namei], in the [open] of the file and in [get_pipe_inode]; what it
    needs to go on is in [busy].  What these answer are arguments.  [irefs] are
    the references to inodes that the file table holds: taken by [open_namei]
    and [get_pipe_inode], given back by [iput]. *)

From S2P Require Import Prelude Dll Ring FileTable.
From Stdlib Require Import ZArith Lia.
From stdpp Require Import base list gmap.
Local Open Scope Z_scope.

Module Fd.
Import FileTable.

Definition O_ACCMODE : Z := 3.
Definition O_WRONLY : Z := 1.
Definition O_CREAT : Z := 64.
Definition O_EXCL : Z := 128.
Definition O_NOCTTY : Z := 256.
Definition O_TRUNC : Z := 512.
Definition O_APPEND : Z := 1024.
Definition O_NONBLOCK : Z := 2048.

Definition F_DUPFD : Z := 0.
Definition F_GETFD : Z := 1.
Definition F_SETFD : Z := 2.
Definition F_GETFL : Z := 3.
Definition F_SETFL : Z := 4.

Record fdtask := Task { filp : list Z; close_on_exec : list bool }.

Definition set_filp (x : list Z) (t : fdtask) : fdtask := Task x (close_on_exec t).

(** Where a process is in a call that sleeps. *)
Inductive phase :=
  | InOpen (fd flags : Z)               (* do_open: get_empty_filp *)
  | InNamei (fd f : Z)                  (* do_open: open_namei *)
  | InFopen (fd f : Z)                  (* do_open: f_op->open *)
  | InPipe0                             (* sys_pipe: the first get_empty_filp *)
  | InPipe1 (f0 : Z)                    (* sys_pipe: the second *)
  | InPipeIno (fd0 fd1 f0 f1 : Z).      (* sys_pipe: get_pipe_inode *)

Record world := World {
  tab : ftable;
  tasks : gmap Z fdtask;
  busy : gmap Z phase;
  irefs : gmap Z Z
}.

Definition set_tab (x : ftable) (w : world) : world := World x (tasks w) (busy w) (irefs w).
Definition set_tasks (x : gmap Z fdtask) (w : world) : world := World (tab w) x (busy w) (irefs w).
Definition set_busy (x : gmap Z phase) (w : world) : world := World (tab w) (tasks w) x (irefs w).
Definition set_irefs (x : gmap Z Z) (w : world) : world := World (tab w) (tasks w) (busy w) x.

Inductive outcome := Ret (r : Z) | RetPair (fd0 fd1 : Z) | Blocked.

Definition ret (p r : Z) (w : world) : option (world * outcome) := Some (set_busy (delete p (busy w)) w, Ret r).
Definition wait (p : Z) (ph : phase) (w : world) : option (world * outcome) :=
  Some (set_busy (<[p := ph]> (busy w)) w, Blocked).

(** [current->filp[fd] = f] *)
Definition put_fd (p fd f : Z) (w : world) : option world :=
  t ← tasks w !! p;
  l ← put (filp t) fd f;
  Some (set_tasks (<[p := set_filp l t]> (tasks w)) w).

(** [FD_CLR], [FD_SET] *)
Definition put_cloexec (p fd : Z) (b : bool) (w : world) : option world :=
  t ← tasks w !! p;
  l ← put (close_on_exec t) fd b;
  Some (set_tasks (<[p := Task (filp t) l]> (tasks w)) w).

Definition FD_CLR (p fd : Z) (w : world) : option world := put_cloexec p fd false w.
Definition FD_SET (p fd : Z) (w : world) : option world := put_cloexec p fd true w.

Definition upd_file (f : Z) (g : file -> file) (w : world) : option world :=
  t ← upd f g (tab w);
  Some (set_tab t w).

(** [f->f_count++] and [f->f_count--], on an [unsigned short]. *)
Definition inc_count (f : Z) (w : world) : option world := upd_file f (fun fl => set_count (u16 (f_count fl + 1)) fl) w.
Definition dec_count (f : Z) (w : world) : option world := upd_file f (fun fl => set_count (u16 (f_count fl - 1)) fl) w.

Definition iget (i : Z) (w : world) : world := set_irefs (<[i := default 0 (irefs w !! i) + 1]> (irefs w)) w.
Definition iput (i : Z) (w : world) : world :=
  if i =? 0 then w else set_irefs (<[i := default 0 (irefs w !! i) - 1]> (irefs w)) w.

(** The first descriptor from [i] on that is free: [l] is the array from there. *)
Fixpoint first_free (l : list Z) (i : Z) : Z :=
  match l with
  | [] => i
  | x :: l => if x =? 0 then i else first_free l (i + 1)
  end.

(** ** [fcntl.c] *)

Definition dupfd (p fd arg : Z) (w : world) : option (world * Z) :=
  t ← tasks w !! p;
  if NR_OPEN <=? fd then Some (w, - EBADF)
  else
    f ← get (filp t) fd;
    if f =? 0 then Some (w, - EBADF)
    else if NR_OPEN <=? arg then Some (w, - EINVAL)
    else
      let arg := first_free (drop (Z.to_nat arg) (filp t)) arg in
      if NR_OPEN <=? arg then Some (w, - EMFILE)
      else
        w ← FD_CLR p arg w;
        w ← put_fd p arg f w;
        w ← inc_count f w;
        Some (w, arg).

(** [close_fp]; the locks of the process and the [release] of the file are other
    components. *)
Definition close_fp (f : Z) (w : world) : option world :=
  fl ← fheap (tab w) !! f;
  if f_count fl =? 0 then Some w
  else if 1 <? f_count fl then dec_count f w
  else
    w ← dec_count f w;
    w ← upd_file f (fun fl => File (f_mode fl) (f_rdev fl) (f_pos fl) (f_flags fl) (f_count fl) (f_reada fl) (f_next fl) (f_prev fl) 0 (f_op fl)) w;
    Some (iput (f_inode fl) w).

Definition sys_close (p fd : Z) (w : world) : option (world * Z) :=
  if NR_OPEN <=? fd then Some (w, - EBADF)
  else
    w ← FD_CLR p fd w;
    t ← tasks w !! p;
    f ← get (filp t) fd;
    if f =? 0 then Some (w, - EBADF)
    else
      w ← put_fd p fd 0 w;
      w ← close_fp f w;
      Some (w, 0).

Definition sys_dup2 (p oldfd newfd : Z) (w : world) : option (world * Z) :=
  t ← tasks w !! p;
  if NR_OPEN <=? oldfd then Some (w, - EBADF)
  else
    f ← get (filp t) oldfd;
    if f =? 0 then Some (w, - EBADF)
    else if newfd =? oldfd then Some (w, newfd)
    else if NR_OPEN <? newfd then Some (w, - EBADF)
    else if newfd =? NR_OPEN then Some (w, - EBADF)
    else
      '(w, _) ← sys_close p newfd w;
      dupfd p oldfd newfd w.

Definition sys_dup (p fildes : Z) (w : world) : option (world * Z) := dupfd p fildes 0 w.

(** The commands on descriptors and flags; [other] is what the record locks and the
    sockets answer for the rest. *)
Definition sys_fcntl (p fd cmd arg other : Z) (w : world) : option (world * Z) :=
  t ← tasks w !! p;
  if NR_OPEN <=? fd then Some (w, - EBADF)
  else
    f ← get (filp t) fd;
    if f =? 0 then Some (w, - EBADF)
    else if cmd =? F_DUPFD then dupfd p fd arg w
    else if cmd =? F_GETFD then b ← get (close_on_exec t) fd; Some (w, Z.b2z b)
    else if cmd =? F_SETFD then
      w ← (if negb (Z.land arg 1 =? 0) then FD_SET p fd w else FD_CLR p fd w);
      Some (w, 0)
    else
      fl ← fheap (tab w) !! f;
      if cmd =? F_GETFL then Some (w, f_flags fl)
      else if cmd =? F_SETFL then
        let flags := Z.lor (Z.ldiff (f_flags fl) (Z.lor O_APPEND O_NONBLOCK)) (Z.land arg (Z.lor O_APPEND O_NONBLOCK)) in
        w ← upd_file f (fun fl => File (f_mode fl) (f_rdev fl) (f_pos fl) flags (f_count fl) (f_reada fl) (f_next fl) (f_prev fl) (f_inode fl) (f_op fl)) w;
        Some (w, 0)
      else Some (w, other).

(** ** [do_open] *)

Definition open_installed (p fd f flags : Z) (w : world) : option (world * outcome) :=
  w ← put_fd p fd f w;
  w ← upd_file f (fun fl => File (Z.land (flags + 1) O_ACCMODE) (f_rdev fl) (f_pos fl) (u16 flags) (f_count fl) (f_reada fl) (f_next fl) (f_prev fl) (f_inode fl) (f_op fl)) w;
  wait p (InNamei fd f) w.

Definition open_got (p fd flags : Z) (g : got) (w : world) : option (world * outcome) :=
  match g with
  | Got f t => open_installed p fd f flags (set_tab t w)
  | Full t => ret p (- ENFILE) (set_tab t w)
  | NeedPage t => wait p (InOpen fd flags) (set_tab t w)
  end.

Definition do_open (p flags : Z) (w : world) : option (world * outcome) :=
  t ← tasks w !! p;
  let fd := first_free (filp t) 0 in
  if NR_OPEN <=? fd then ret p (- EMFILE) w
  else
    w ← FD_CLR p fd w;
    g ← get_empty_filp (tab w);
    open_got p fd flags g w.

(** [get_free_page] answered [pg]. *)
Definition do_open_page (p pg : Z) (w : world) : option (world * outcome) :=
  match busy w !! p with
  | Some (InOpen fd flags) => g ← get_empty_filp_page pg (tab w); open_got p fd flags g w
  | _ => None
  end.

(** [open_namei] answered: an error, or an inode with its default operations. *)
Definition open_namei (p : Z) (r : Z + Z * Z) (w : world) : option (world * outcome) :=
  match busy w !! p with
  | Some (InNamei fd f) =>
      match r with
      | inl error =>
          w ← put_fd p fd 0 w;
          w ← dec_count f w;
          ret p error w
      | inr (inode, op) =>
          w ← upd_file f (fun fl => File (f_mode fl) (f_rdev fl) 0 (f_flags fl) (f_count fl) 0 (f_next fl) (f_prev fl) inode op) w;
          wait p (InFopen fd f) (iget inode w)
      end
  | _ => None
  end.

(** The [open] of the file answered. *)
Definition open_done (p error : Z) (w : world) : option (world * outcome) :=
  match busy w !! p with
  | Some (InFopen fd f) =>
      fl ← fheap (tab w) !! f;
      if negb (error =? 0) then
        let w := iput (f_inode fl) w in
        w ← dec_count f w;
        w ← put_fd p fd 0 w;
        ret p error w
      else
        let flags := Z.ldiff (f_flags fl) (Z.lor (Z.lor O_CREAT O_EXCL) (Z.lor O_NOCTTY O_TRUNC)) in
        w ← upd_file f (fun fl => File (f_mode fl) (f_rdev fl) (f_pos fl) flags (f_count fl) (f_reada fl) (f_next fl) (f_prev fl) (f_inode fl) (f_op fl)) w;
        ret p fd w
  | _ => None
  end.

(** ** [sys_pipe] *)

(** The loop that installs [f0] and [f1] in the first two free descriptors. *)
Definition pipe_fds (p f0 f1 : Z) (w : world) : option (world * outcome) :=
  t ← tasks w !! p;
  let fd0 := first_free (filp t) 0 in
  if NR_OPEN <=? fd0 then w ← dec_count f0 w; w ← dec_count f1 w; ret p (- EMFILE) w
  else
    w ← put_fd p fd0 f0 w;
    let fd1 := first_free (drop (Z.to_nat (fd0 + 1)) (filp t)) (fd0 + 1) in
    if NR_OPEN <=? fd1 then
      w ← put_fd p fd0 0 w;
      w ← dec_count f0 w;
      w ← dec_count f1 w;
      ret p (- EMFILE) w
    else
      w ← put_fd p fd1 f1 w;
      wait p (InPipeIno fd0 fd1 f0 f1) w.

Definition pipe_got1 (p f0 : Z) (g : got) (w : world) : option (world * outcome) :=
  match g with
  | Got f1 t => pipe_fds p f0 f1 (set_tab t w)
  | Full t => w ← dec_count f0 (set_tab t w); ret p (- ENFILE) w
  | NeedPage t => wait p (InPipe1 f0) (set_tab t w)
  end.

Definition pipe_got0 (p : Z) (g : got) (w : world) : option (world * outcome) :=
  match g with
  | Got f0 t =>
      let w := set_tab t w in
      g ← get_empty_filp (tab w);
      pipe_got1 p f0 g w
  | Full t => ret p (- ENFILE) (set_tab t w)
  | NeedPage t => wait p InPipe0 (set_tab t w)
  end.

(** [verify] is the answer of [verify_area]. *)
Definition sys_pipe (p verify : Z) (w : world) : option (world * outcome) :=
  if negb (verify =? 0) then ret p verify w
  else
    g ← get_empty_filp (tab w);
    pipe_got0 p g w.

Definition pipe_page (p pg : Z) (w : world) : option (world * outcome) :=
  match busy w !! p with
  | Some InPipe0 => g ← get_empty_filp_page pg (tab w); pipe_got0 p g w
  | Some (InPipe1 f0) => g ← get_empty_filp_page pg (tab w); pipe_got1 p f0 g w
  | _ => None
  end.

(** The operations of the two ends. *)
Definition read_pipe_fops : Z := 1.
Definition write_pipe_fops : Z := 2.

(** [get_pipe_inode] answered [inode], 0 for none; it has two references. *)
Definition pipe_inode (p inode : Z) (w : world) : option (world * outcome) :=
  match busy w !! p with
  | Some (InPipeIno fd0 fd1 f0 f1) =>
      if inode =? 0 then
        w ← put_fd p fd0 0 w;
        w ← put_fd p fd1 0 w;
        w ← dec_count f0 w;
        w ← dec_count f1 w;
        ret p (- ENFILE) w
      else
        w ← upd_file f0 (fun fl => File 1 (f_rdev fl) 0 0 (f_count fl) (f_reada fl) (f_next fl) (f_prev fl) inode read_pipe_fops) w;
        w ← upd_file f1 (fun fl => File 2 (f_rdev fl) 0 O_WRONLY (f_count fl) (f_reada fl) (f_next fl) (f_prev fl) inode write_pipe_fops) w;
        let w := iget inode (iget inode w) in
        Some (set_busy (delete p (busy w)) w, RetPair fd0 fd1)
  | _ => None
  end.

(** ** [fork], [exec], [exit] *)

Fixpoint inc_counts (l : list Z) (w : world) : option world :=
  match l with
  | [] => Some w
  | f :: l => w ← (if negb (f =? 0) then inc_count f w else Some w); inc_counts l w
  end.

(** [sys_fork] without [COPYFD]: the child has the descriptors of its parent. *)
Definition fork_files (p child : Z) (w : world) : option world :=
  t ← tasks w !! p;
  w ← inc_counts (filp t) w;
  Some (set_tasks (<[child := t]> (tasks w)) w).

(** [flush_old_exec]: from descriptor [i] on. *)
Fixpoint close_marked (n : nat) (p i : Z) (w : world) : option world :=
  match n with
  | O => Some w
  | S n =>
      t ← tasks w !! p;
      b ← get (close_on_exec t) i;
      w ← (if b : bool then '(w, _) ← sys_close p i w; Some w else Some w);
      close_marked n p (i + 1) w
  end.

(** The part of [exec] that is about descriptors: the end of [flush_old_exec]. *)
Definition exec_files (p : Z) (w : world) : option world :=
  w ← close_marked (Z.to_nat NR_OPEN) p 0 w;
  t ← tasks w !! p;
  Some (set_tasks (<[p := Task (filp t) (replicate (Z.to_nat NR_OPEN) false)]> (tasks w)) w).

(** [do_exit]: from descriptor [i] on. *)
Fixpoint close_all (n : nat) (p i : Z) (w : world) : option world :=
  match n with
  | O => Some w
  | S n =>
      t ← tasks w !! p;
      f ← get (filp t) i;
      w ← (if negb (f =? 0) then '(w, _) ← sys_close p i w; Some w else Some w);
      close_all n p (i + 1) w
  end.

Definition exit_files (p : Z) (w : world) : option world := close_all (Z.to_nat NR_OPEN) p 0 w.

(** ** Parts with faults *)

(** [copy_fd] of [sys_fork] with [COPYFD], after [get_empty_filp]: the copy of the
    whole structure, its pointers included. *)
Definition copy_fd (new old : Z) (w : world) : option world :=
  fl ← fheap (tab w) !! old;
  w ← upd_file new (fun _ => set_count 1 fl) w;
  Some (if f_inode fl =? 0 then w else iget (f_inode fl) w).

(** The loop of [open_inode] ([src/fs/exec.c]): [l] is the array from [fd] on; reading
    behind its end is [None]. *)
Fixpoint open_inode_fd (l : list Z) (fd : Z) : option (Z + Z) :=
  match l with
  | [] => None
  | x :: l => if x =? 0 then Some (inr fd) else if NR_OPEN <? fd + 1 then Some (inl (- ENFILE)) else open_inode_fd l (fd + 1)
  end.

End Fd.
