(* ===== verification/FdInv.v ===== *)
(** * The reference counts of open files

    [core]: the count of a file is the number of descriptors that point to it, over
    all processes, and of references that calls in progress hold; the file table
    holds one reference to the inode of each file in use.  [held] are the
    references of the process that runs. *)

From S2P Require Import Prelude Dll Ring FileTable Fd.
From Stdlib Require Import ZArith Lia.
From stdpp Require Import base list gmap.
Local Open Scope Z_scope.

Module FdInv.
Import FileTable Fd.

Definition MAX_TASKS : Z := 128.

#[export] Instance live_dec t f : Decision (live t f).
Proof. unfold live. apply _. Defined.

Definition occ (f : Z) (l : list Z) : Z := lsum (fun x => Z.b2z (x =? f)) l.

#[global] Arguments occ : simpl never.

(** The references a sleeping call holds outside of [filp]. *)
Definition hold (ph : phase) : list Z := match ph with InPipe1 f0 => [f0] | _ => [] end.

(** The files that only this call knows. *)
Definition own (ph : phase) : list Z :=
  match ph with
  | InNamei _ f | InFopen _ f | InPipe1 f => [f]
  | InPipeIno _ _ f0 f1 => [f0; f1]
  | InOpen _ _ | InPipe0 => []
  end.

Definition trefs (f : Z) (w : world) : Z := msum (fun t => occ f (filp t)) (tasks w).
Definition brefs (f : Z) (bs : gmap Z phase) : Z := msum (fun ph => occ f (hold ph)) bs.

(** What a file contributes to the references of inode [i]. *)
Definition icontrib (i : Z) (fl : file) : Z := Z.b2z ((0 <? f_count fl) && (f_inode fl =? i)).
Definition icnt (i : Z) (t : ftable) : Z := msum (icontrib i) (fheap t).

(** [f] has one user and the inode [i]. *)
Definition private (t : ftable) (f i : Z) : Prop :=
  f <> 0 /\ exists fl, fheap t !! f = Some fl /\ f_count fl = 1 /\ f_inode fl = i.

Definition phase_ok (t : ftable) (tk : fdtask) (ph : phase) : Prop :=
  match ph with
  | InOpen fd flags => get (filp tk) fd = Some 0
  | InNamei fd f => get (filp tk) fd = Some f /\ private t f 0
  | InFopen fd f => get (filp tk) fd = Some f /\ exists i, i <> 0 /\ private t f i
  | InPipe0 => True
  | InPipe1 f0 => private t f0 0
  | InPipeIno fd0 fd1 f0 f1 =>
      get (filp tk) fd0 = Some f0 /\ get (filp tk) fd1 = Some f1 /\ fd0 <> fd1 /\ f0 <> f1 /\ private t f0 0 /\ private t f1 0
  end.

Definition task_ok (t : ftable) (tk : fdtask) : Prop :=
  Z.of_nat (length (filp tk)) = NR_OPEN /\ Z.of_nat (length (close_on_exec tk)) = NR_OPEN /\
  forall f, f ∈ filp tk -> f <> 0 -> live t f.

Record core (held : list Z) (bs : gmap Z phase) (w : world) : Prop := {
  c_ring : exists l, ring_of (tab w) l /\ length l <> 1%nat;
  c_task : forall p tk, tasks w !! p = Some tk -> task_ok (tab w) tk;
  c_held : forall f, f ∈ held -> live (tab w) f;
  c_count : forall f, live (tab w) f -> count (tab w) f = trefs f w + brefs f bs + occ f held;
  c_busy : forall p ph, bs !! p = Some ph -> exists tk, tasks w !! p = Some tk /\ phase_ok (tab w) tk ph;
  c_irefs : forall i, i <> 0 -> default 0 (irefs w !! i) = icnt i (tab w);
  c_size : Z.of_nat (size (tasks w)) <= MAX_TASKS
}.

(** Between two steps. *)
Definition inv (w : world) : Prop := core [] (busy w) w.

(** ** Occurrences *)

Lemma occ_nonneg f l : 0 <= occ f l.
Proof. apply lsum_nonneg. intros x _. destruct (x =? f); simpl; lia. Qed.

Lemma occ_cons f x l : occ f (x :: l) = Z.b2z (x =? f) + occ f l.
Proof. done. Qed.

Lemma occ_in f l : f ∈ l -> 1 <= occ f l.
Proof.
  induction l as [|x l IH]; [by intros ?%not_elem_of_nil|]. intros [-> |H]%elem_of_cons; rewrite occ_cons.
  - rewrite Z.eqb_refl. pose proof (occ_nonneg x l). simpl. lia.
  - specialize (IH H). destruct (x =? f); simpl; lia.
Qed.

Lemma occ_le f l : occ f l <= Z.of_nat (length l).
Proof. induction l as [|x l IH]; [unfold occ; simpl; lia|]. rewrite occ_cons. simpl length. destruct (x =? f); simpl; lia. Qed.

Lemma elem_of_get (l : list Z) i x : get l i = Some x -> x ∈ l.
Proof. unfold get. destruct (i <? 0); [done|]. intros H. by eapply list_elem_of_lookup_2. Qed.

Lemma occ_put f l i x y l' : get l i = Some y -> put l i x = Some l' -> occ f l' = occ f l - Z.b2z (y =? f) + Z.b2z (x =? f).
Proof.
  unfold get, put. intros G P. repeat case_bool_in G; repeat case_bool_in P; simplify_eq.
  unfold occ. by rewrite (lsum_insert _ _ _ _ y).
Qed.

Lemma elem_of_put (l l' : list Z) i y x : put l i y = Some l' -> x ∈ l' -> x = y \/ x ∈ l.
Proof.
  unfold put. intros P [j Hj]%list_elem_of_lookup. case_bool_in P; [done|]. simplify_eq.
  apply list_lookup_insert_Some in Hj as [(_ & <- & _)|(_ & Hj)]; [by left|right]. by eapply list_elem_of_lookup_2.
Qed.

Lemma trefs_nonneg f w : 0 <= trefs f w.
Proof. apply msum_nonneg. intros. apply occ_nonneg. Qed.
Lemma brefs_nonneg f bs : 0 <= brefs f bs.
Proof. apply msum_nonneg. intros. apply occ_nonneg. Qed.

Lemma trefs_ge f w p tk : tasks w !! p = Some tk -> occ f (filp tk) <= trefs f w.
Proof.
  intros E. unfold trefs. rewrite (msum_delete _ _ _ _ E).
  assert (0 <= msum (fun t => occ f (filp t)) (delete p (tasks w))); [|lia]. apply msum_nonneg. intros. apply occ_nonneg.
Qed.

Lemma trefs_ge2 f w p tk q tk' : p <> q -> tasks w !! p = Some tk -> tasks w !! q = Some tk' ->
  occ f (filp tk) + occ f (filp tk') <= trefs f w.
Proof.
  intros N E E'. unfold trefs. rewrite (msum_delete _ _ _ _ E).
  rewrite (msum_delete _ _ q tk') by (by rewrite lookup_delete_ne).
  assert (0 <= msum (fun t => occ f (filp t)) (delete q (delete p (tasks w)))); [|lia]. apply msum_nonneg. intros. apply occ_nonneg.
Qed.

Lemma brefs_ge f bs p ph : bs !! p = Some ph -> occ f (hold ph) <= brefs f bs.
Proof.
  intros E. unfold brefs. rewrite (msum_delete _ _ _ _ E).
  assert (0 <= msum (fun ph => occ f (hold ph)) (delete p bs)); [|lia]. apply msum_nonneg. intros. apply occ_nonneg.
Qed.

(** ** Files that only a sleeping call knows *)

Lemma own_refs held bs w p ph f :
  core held bs w -> bs !! p = Some ph -> f ∈ own ph ->
  f <> 0 /\ live (tab w) f /\ count (tab w) f = 1 /\
  exists tk, tasks w !! p = Some tk /\ 1 <= occ f (filp tk) + occ f (hold ph).
Proof.
  intros I E Hf. destruct (c_busy _ _ _ I p ph E) as (tk & Et & P).
  assert (forall i, private (tab w) f i -> f <> 0 /\ live (tab w) f /\ count (tab w) f = 1) as Pr.
  { intros i (H0 & fl & E1 & E2 & E3). unfold live, count. rewrite E1. eauto. }
  pose proof (occ_nonneg f (filp tk)) as ON. pose proof (occ_nonneg f (hold ph)).
  destruct ph; simpl in *; rewrite ?elem_of_cons in Hf; try (by apply not_elem_of_nil in Hf).
  - destruct Hf as [-> |?%not_elem_of_nil]; [|done]. destruct P as (G & P). apply elem_of_get, occ_in in G. destruct (Pr _ P) as (? & ? & ?).
    split_and!; try done. exists tk. split; [done|lia].
  - destruct Hf as [-> |?%not_elem_of_nil]; [|done]. destruct P as (G & i & _ & P). apply elem_of_get, occ_in in G. destruct (Pr _ P) as (? & ? & ?).
    split_and!; try done. exists tk. split; [done|lia].
  - destruct Hf as [-> |?%not_elem_of_nil]; [|done]. destruct (Pr _ P) as (? & ? & ?).
    split_and!; try done. exists tk. split; [done|]. rewrite occ_cons, Z.eqb_refl. unfold occ at 2. simpl. lia.
  - destruct P as (G0 & G1 & _ & _ & P0 & P1). apply elem_of_get, occ_in in G0, G1.
    destruct Hf as [-> |[-> |?%not_elem_of_nil]]; [| |done].
    + destruct (Pr _ P0) as (? & ? & ?). split_and!; try done. exists tk. split; [done|lia].
    + destruct (Pr _ P1) as (? & ? & ?). split_and!; try done. exists tk. split; [done|lia].
Qed.

(** Nobody else refers to them. *)
Lemma own_not_filp held bs w p ph f q tk :
  core held bs w -> bs !! p = Some ph -> f ∈ own ph -> tasks w !! q = Some tk -> q <> p -> f ∉ filp tk.
Proof.
  intros I E Hf Eq N Hq. destruct (own_refs _ _ _ _ _ _ I E Hf) as (_ & L & C & tk' & Et & O).
  rewrite (c_count _ _ _ I f L) in C. pose proof (trefs_ge2 f w p tk' q tk ltac:(done) Et Eq) as T2.
  pose proof (brefs_ge f bs p ph E). pose proof (occ_in _ _ Hq). pose proof (occ_nonneg f held). lia.
Qed.

Lemma own_not_held held bs w p ph f : core held bs w -> bs !! p = Some ph -> f ∈ own ph -> f ∉ held.
Proof.
  intros I E Hf Hq. destruct (own_refs _ _ _ _ _ _ I E Hf) as (_ & L & C & tk' & Et & O).
  rewrite (c_count _ _ _ I f L) in C. pose proof (trefs_ge f w p tk' Et).
  pose proof (brefs_ge f bs p ph E). pose proof (occ_in _ _ Hq). lia.
Qed.

(** The files a running process can reach. *)
Definition reachable (held : list Z) (bs : gmap Z phase) (w : world) (f : Z) : Prop :=
  f ∈ held \/ exists q tk, bs !! q = None /\ tasks w !! q = Some tk /\ f ∈ filp tk.

Lemma reachable_not_own held bs w f p ph : core held bs w -> reachable held bs w f -> bs !! p = Some ph -> f ∉ own ph.
Proof.
  intros I [H|(q & tk & N & E & H)] Ep Hf; [by eapply own_not_held|]. eapply own_not_filp; [done|done|done|exact E| |done].
  by intros ->; simplify_eq.
Qed.

Lemma phase_ok_ext t t' tk ph :
  (forall f, f ∈ own ph -> body <$> fheap t' !! f = body <$> fheap t !! f) -> phase_ok t tk ph -> phase_ok t' tk ph.
Proof.
  intros H.
  assert (forall f i, f ∈ own ph -> private t f i -> private t' f i) as P.
  { intros f i Hf (H0 & fl & E1 & E2 & E3). split; [done|]. specialize (H f Hf). rewrite E1 in H. simpl in H.
    apply fmap_Some in H as (fl' & -> & Eb). exists fl'. split; [done|].
    assert (f_count (body fl) = f_count (body fl') /\ f_inode (body fl) = f_inode (body fl')) as [A B] by (rewrite Eb; done).
    simpl in A, B. split; congruence. }
  destruct ph; simpl in *; try done; intros.
  - destruct H0 as [G Q]. split; [done|]. apply P; [left|done].
  - destruct H0 as (G & i & N & Q). split; [done|]. exists i. split; [done|]. apply P; [left|done].
  - apply P; [left|done].
  - destruct H0 as (G0 & G1 & N & N' & Q0 & Q1). split_and!; try done; (apply P; [set_solver|done]).
Qed.

Lemma live_body t t' f : body <$> fheap t' !! f = body <$> fheap t !! f -> live t' f <-> live t f.
Proof. intros H. unfold live. rewrite <- (fmap_is_Some body), H. apply fmap_is_Some. Qed.

Lemma count_of_body t t' f : body <$> fheap t' !! f = body <$> fheap t !! f -> count t' f = count t f.
Proof.
  intros H. unfold count. destruct (fheap t' !! f) as [a|], (fheap t !! f) as [b|]; try done.
  by apply (inj Some), count_body in H.
Qed.

Lemma icontrib_of_body i t t' f : body <$> fheap t' !! f = body <$> fheap t !! f ->
  from_option (icontrib i) 0 (fheap t' !! f) = from_option (icontrib i) 0 (fheap t !! f).
Proof.
  intros H. destruct (fheap t' !! f) as [a|], (fheap t !! f) as [b|]; try done. apply (inj Some) in H. simpl.
  unfold icontrib. change (f_count a) with (f_count (body a)). change (f_inode a) with (f_inode (body a)). by rewrite H.
Qed.

(** ** Bounds *)

Lemma count_bound held bs w f : core held bs w -> live (tab w) f ->
  0 <= count (tab w) f <= MAX_TASKS * NR_OPEN + MAX_TASKS + Z.of_nat (length held).
Proof.
  intros I L. rewrite (c_count _ _ _ I f L). pose proof (c_size _ _ _ I) as S.
  pose proof (trefs_nonneg f w). pose proof (brefs_nonneg f bs). pose proof (occ_nonneg f held). pose proof (occ_le f held).
  assert (trefs f w <= NR_OPEN * Z.of_nat (size (tasks w))) as T.
  { apply msum_le_size. intros p tk E. destruct (c_task _ _ _ I p tk E) as (Lf & _). rewrite <- Lf. apply occ_le. }
  assert (brefs f bs <= 1 * Z.of_nat (size bs)) as B.
  { apply msum_le_size. intros p ph E. etrans; [apply occ_le|]. destruct ph; simpl; lia. }
  assert (Z.of_nat (size bs) <= Z.of_nat (size (tasks w))) as Bs.
  { assert (size (dom bs) <= size (dom (tasks w)))%nat as Hd.
    { apply subseteq_size. intros p [ph E]%elem_of_dom. apply elem_of_dom. destruct (c_busy _ _ _ I p ph E) as (tk & -> & _). eauto. }
    rewrite !size_dom in Hd. lia. }
  unfold MAX_TASKS, NR_OPEN in *. lia.
Qed.

(** ** Changes of one file *)

(** [g] leaves the pointers of the ring alone. *)
Definition keeps_links (g : file -> file) : Prop := forall fl, f_next (g fl) = f_next fl /\ f_prev (g fl) = f_prev fl.

Lemma ring_of_alt t l f g : keeps_links g -> ring_of t l -> ring_of (alt f g t) l.
Proof.
  intros K (R & Dom & Nr).
  assert (forall q, nx (alt f g t) q = nx t q /\ pv (alt f g t) q = pv t q) as Ext.
  { intros q. unfold nx, pv, alt. simpl. rewrite lookup_alter. case_decide as E; [|done]. rewrite E.
    destruct (fheap t !! q) as [fl|]; simpl; [|done]. apply K. }
  split; [|split; [|done]].
  - destruct R. split; try done.
    + intros p Hp. apply live_alt. auto.
    + destruct l as [|x l]; [done|]. eapply ring_ext; [done| |done]. intros q _. apply Ext.
  - intros p. rewrite live_alt. apply Dom.
Qed.

Lemma core_alt held bs w f fl g held' ir' :
  core held bs w -> fheap (tab w) !! f = Some fl -> keeps_links g ->
  (forall p ph, bs !! p = Some ph -> f ∉ own ph) ->
  f_count (g fl) = f_count fl + occ f held' - occ f held ->
  (forall x, x <> f -> occ x held' = occ x held) -> (forall x, x ∈ held' -> x ∈ held \/ x = f) ->
  (forall i, i <> 0 -> default 0 (ir' !! i) = default 0 (irefs w !! i) + (icontrib i (g fl) - icontrib i fl)) ->
  core held' bs (set_irefs ir' (set_tab (alt f g (tab w)) w)).
Proof.
  intros I E K Own Cnt Oth Sub Ir. destruct I.
  assert (fheap (alt f g (tab w)) !! f = Some (g fl)) as Ef by (simpl; by rewrite lookup_alter_eq, E).
  assert (forall q, q <> f -> fheap (alt f g (tab w)) !! q = fheap (tab w) !! q) as Eq by (intros q N; simpl; by rewrite lookup_alter_ne).
  split; simpl.
  - destruct c_ring0 as (l & R & N). exists l. split; [by apply ring_of_alt|done].
  - intros p tk Et. destruct (c_task0 p tk Et) as (A & B & C). split_and!; try done. intros x Hx N. apply live_alt. auto.
  - intros x Hx. apply live_alt. destruct (Sub x Hx) as [Hx' | ->]; [auto|by exists fl].
  - intros x. rewrite live_alt. intros L. specialize (c_count0 x L). unfold count in *. destruct (decide (x = f)) as [-> |N].
    + rewrite Ef, Cnt. rewrite E in c_count0. change (trefs f _) with (trefs f w). lia.
    + rewrite Eq, Oth by done. exact c_count0.
  - intros p ph Ep. destruct (c_busy0 p ph Ep) as (tk & Et & P). exists tk. split; [done|].
    eapply phase_ok_ext; [|exact P]. intros x Hx. rewrite Eq; [done|]. intros ->. by eapply Own.
  - intros i Hi. rewrite Ir, c_irefs0 by done. unfold icnt.
    rewrite (msum_contrib_at (icontrib i) (fheap (tab w)) (fheap (alt f g (tab w))) f).
    + rewrite Ef, E. simpl. lia.
    + intros j N. by rewrite Eq.
  - done.
Qed.

Lemma set_irefs_id w : set_irefs (irefs w) w = w.
Proof. by destruct w. Qed.

Lemma upd_file_alt f g w : live (tab w) f -> upd_file f g w = Some (set_tab (alt f g (tab w)) w).
Proof. intros L. unfold upd_file. by rewrite upd_alt. Qed.

(** One more user. *)
Lemma inc_count_ok held bs w f :
  core held bs w -> reachable held bs w f -> f <> 0 -> Z.of_nat (length held) <= 1000 ->
  live (tab w) f /\ inc_count f w = Some (set_tab (alt f (fun fl => set_count (u16 (f_count fl + 1)) fl) (tab w)) w) /\
  core (f :: held) bs (set_tab (alt f (fun fl => set_count (u16 (f_count fl + 1)) fl) (tab w)) w).
Proof.
  intros I Rc N0 Hh.
  assert (live (tab w) f) as L.
  { destruct Rc as [H|(q & tk & _ & Et & H)]; [by eapply c_held|]. destruct (c_task _ _ _ I q tk Et) as (_ & _ & T). auto. }
  split; [done|]. split; [by apply upd_file_alt|]. pose proof L as [fl E].
  pose proof (count_bound _ _ _ _ I L) as Cb. unfold count in Cb. rewrite E in Cb. unfold MAX_TASKS, NR_OPEN in Cb.
  assert (1 <= f_count fl) as C1.
  { pose proof (c_count _ _ _ I f L) as C. unfold count in C. rewrite E in C. rewrite C.
    pose proof (trefs_nonneg f w). pose proof (brefs_nonneg f bs). pose proof (occ_nonneg f held).
    destruct Rc as [H2|(q & tk & _ & Et & H2)]; apply occ_in in H2; [lia|]. pose proof (trefs_ge f w q tk Et). lia. }
  rewrite <- (set_irefs_id (set_tab _ w)). apply core_alt with held fl; simpl; try done.
  - intros p ph Ep. by eapply reachable_not_own.
  - rewrite u16_small by lia. rewrite occ_cons, Z.eqb_refl. simpl. lia.
  - intros x Nx. rewrite occ_cons. replace (f =? x) with false by lia. simpl. lia.
  - intros x Hx. apply elem_of_cons in Hx. tauto.
  - intros i Hi. unfold icontrib. simpl. rewrite u16_small by lia.
    replace (0 <? f_count fl + 1) with true by lia. replace (0 <? f_count fl) with true by lia. lia.
Qed.

(** One user less, not the last. *)
Lemma dec_count_ok held bs w f :
  core (f :: held) bs w -> 1 < count (tab w) f -> Z.of_nat (length held) <= 1000 ->
  dec_count f w = Some (set_tab (alt f (fun fl => set_count (u16 (f_count fl - 1)) fl) (tab w)) w) /\
  core held bs (set_tab (alt f (fun fl => set_count (u16 (f_count fl - 1)) fl) (tab w)) w).
Proof.
  intros I C Hh. assert (live (tab w) f) as L by (eapply (c_held _ _ _ I); left). pose proof L as [fl E].
  split; [by apply upd_file_alt|]. pose proof (count_bound _ _ _ _ I L) as Cb. unfold count in *. rewrite E in *.
  unfold MAX_TASKS, NR_OPEN in Cb. simpl length in Cb.
  rewrite <- (set_irefs_id (set_tab _ w)). apply core_alt with (f :: held) fl; simpl; try done.
  - intros p ph Ep. eapply reachable_not_own; [done| |done]. left. left.
  - rewrite u16_small by lia. rewrite occ_cons, Z.eqb_refl. simpl. lia.
  - intros x Nx. rewrite occ_cons. replace (f =? x) with false by lia. simpl. lia.
  - intros x Hx. left. by right.
  - intros i Hi. unfold icontrib. simpl. rewrite u16_small by lia.
    replace (0 <? f_count fl - 1) with true by lia. replace (0 <? f_count fl) with true by lia. lia.
Qed.

(** The last user: the inode is given up. *)
Lemma free_file_ok held bs w f fl g ir' :
  core (f :: held) bs w -> fheap (tab w) !! f = Some fl -> f_count fl = 1 -> keeps_links g -> f_count (g fl) = 0 ->
  (forall i, i <> 0 -> default 0 (ir' !! i) = default 0 (irefs w !! i) - Z.b2z (f_inode fl =? i)) ->
  core held bs (set_irefs ir' (set_tab (alt f g (tab w)) w)).
Proof.
  intros I E C K G Ir. apply core_alt with (f :: held) fl; simpl; try done.
  - intros p ph Ep. eapply reachable_not_own; [done| |done]. left. left.
  - rewrite occ_cons, Z.eqb_refl, G, C. simpl. lia.
  - intros x Nx. rewrite occ_cons. replace (f =? x) with false by lia. simpl. lia.
  - intros x Hx. left. by right.
  - intros i Hi. rewrite Ir by done. unfold icontrib. rewrite G, C. simpl. lia.
Qed.

(** ** Changes of the descriptors of the running process *)

Section running.
Context (p : Z) (bs : gmap Z phase).
Hypothesis Np : bs !! p = None.

Lemma core_task held held' w tk tk' :
  core held bs w -> tasks w !! p = Some tk -> task_ok (tab w) tk' ->
  (forall f, f <> 0 -> occ f (filp tk') + occ f held' = occ f (filp tk) + occ f held) ->
  (forall f, f ∈ held' -> live (tab w) f) ->
  core held' bs (set_tasks (<[p := tk']> (tasks w)) w).
Proof.
  intros I E T Occ Hl. destruct I. split; simpl; try done.
  - intros q tk1. rewrite lookup_insert_Some. intros [[<- <-]|[_ H]]; [done|by eapply c_task0].
  - intros f L. rewrite c_count0 by done. unfold trefs. simpl. rewrite msum_insert_gen, (msum_delete _ _ _ _ E).
    assert (f <> 0) as N0.
    { intros ->. destruct c_ring0 as (l & (R & Dom & _) & _). by apply (r_zero _ _ R), Dom. }
    specialize (Occ f N0). lia.
  - intros q ph Eq. destruct (c_busy0 q ph Eq) as (tk1 & E1 & P). exists tk1. split; [|done].
    rewrite lookup_insert_ne; [done|]. by intros ->; simplify_eq.
  - rewrite map_size_insert_Some; [done|by exists tk].
Qed.

Lemma task_ok_put t tk fd f l' : task_ok t tk -> put (filp tk) fd f = Some l' -> (f = 0 \/ live t f) -> task_ok t (set_filp l' tk).
Proof.
  intros (A & B & C) P L. split_and!; simpl; [by rewrite (put_length _ _ _ _ P)|done|].
  intros x Hx N. destruct (elem_of_put _ _ _ _ _ P Hx) as [-> |Hx']; [|auto]. by destruct L.
Qed.

(** [filp[fd]] was free, and a reference goes into it. *)
Lemma install_ok held w tk fd f :
  core (f :: held) bs w -> tasks w !! p = Some tk -> get (filp tk) fd = Some 0 ->
  exists l, put (filp tk) fd f = Some l /\ put_fd p fd f w = Some (set_tasks (<[p := set_filp l tk]> (tasks w)) w) /\
    core held bs (set_tasks (<[p := set_filp l tk]> (tasks w)) w).
Proof.
  intros I E G. destruct (put_of_get _ _ f _ G) as [l Pl]. exists l. unfold put_fd. rewrite E. simpl. rewrite Pl. simpl.
  split; [done|]. split; [done|]. eapply core_task; [done|done| | |].
  - eapply task_ok_put; [by eapply c_task|done|]. right. eapply c_held; [done|left].
  - intros x Nx. simpl. rewrite (occ_put _ _ _ _ _ _ G Pl), occ_cons. replace (0 =? x) with false by lia. simpl. lia.
  - intros x Hx. eapply c_held; [done|by right].
Qed.

(** [filp[fd]] is cleared, and its reference taken. *)
Lemma uninstall_ok held w tk fd f :
  core held bs w -> tasks w !! p = Some tk -> get (filp tk) fd = Some f -> f <> 0 ->
  exists l, put (filp tk) fd 0 = Some l /\ put_fd p fd 0 w = Some (set_tasks (<[p := set_filp l tk]> (tasks w)) w) /\
    core (f :: held) bs (set_tasks (<[p := set_filp l tk]> (tasks w)) w).
Proof.
  intros I E G N. destruct (put_of_get _ _ 0 _ G) as [l Pl]. exists l. unfold put_fd. rewrite E. simpl. rewrite Pl. simpl.
  split; [done|]. split; [done|]. eapply core_task; [done|done| | |].
  - eapply task_ok_put; [by eapply c_task|done|by left].
  - intros x Nx. simpl. rewrite (occ_put _ _ _ _ _ _ G Pl), occ_cons. replace (0 =? x) with false by lia. simpl. lia.
  - intros x [-> |Hx]%elem_of_cons; [|by eapply c_held]. destruct (c_task _ _ _ I p tk E) as (_ & _ & T). apply T; [|done].
    by eapply elem_of_get.
Qed.

Lemma cloexec_ok held w tk fd b :
  core held bs w -> tasks w !! p = Some tk -> 0 <= fd < NR_OPEN ->
  exists l, put_cloexec p fd b w = Some (set_tasks (<[p := Task (filp tk) l]> (tasks w)) w) /\
    put (close_on_exec tk) fd b = Some l /\
    core held bs (set_tasks (<[p := Task (filp tk) l]> (tasks w)) w).
Proof.
  intros I E H. destruct (c_task _ _ _ I p tk E) as (A & B & C).
  pose proof (put_in_range (close_on_exec tk) fd b ltac:(lia)) as Pl. eexists. unfold put_cloexec. rewrite E. simpl. rewrite Pl.
  split; [done|]. split; [done|]. eapply core_task; [done|done| |done|].
  - split_and!; simpl; [done| |done]. by rewrite (put_length _ _ _ _ Pl).
  - intros f Hf. by eapply c_held.
Qed.

(** ** A new file *)

Lemma zero_count_unused held w f : core held bs w -> count (tab w) f = 0 -> live (tab w) f ->
  (f ∉ held) /\ (forall q tk, tasks w !! q = Some tk -> f ∉ filp tk).
Proof.
  intros I C L. rewrite (c_count _ _ _ I f L) in C. pose proof (trefs_nonneg f w). pose proof (brefs_nonneg f bs).
  pose proof (occ_nonneg f held). split.
  - intros Hf%occ_in. lia.
  - intros q tk E Hf%occ_in. pose proof (trefs_ge f w q tk E). lia.
Qed.

Lemma dead_refs held w f : core held bs w -> f <> 0 -> ~ live (tab w) f ->
  trefs f w = 0 /\ brefs f bs = 0 /\ occ f held = 0.
Proof.
  intros I N L.
  assert (forall l, f ∉ l -> occ f l = 0) as O0.
  { induction l as [|x l IH]; [done|]. intros [Nx Nl]%not_elem_of_cons. rewrite occ_cons, IH by done.
    by replace (x =? f) with false by lia. }
  split_and!.
  - apply msum_zero. intros q tk E. apply O0. intros H. destruct (c_task _ _ _ I q tk E) as (_ & _ & T). by apply L, T.
  - apply msum_zero. intros q ph E. apply O0. intros H. destruct ph; try by apply not_elem_of_nil in H.
    apply list_elem_of_singleton in H as ->. destruct (c_busy _ _ _ I q _ E) as (_ & _ & _ & fl & Ef & _). apply L. by exists fl.
  - apply O0. intros H. by apply L, (c_held _ _ _ I).
Qed.

(** Files that appear in the table are free but for the one taken; that one was free. *)
Lemma core_got held w t' f l' :
  core held bs w -> ring_of t' l' -> length l' <> 1%nat -> private t' f 0 -> count (tab w) f = 0 ->
  (forall q, q <> f -> live (tab w) q -> body <$> fheap t' !! q = body <$> fheap (tab w) !! q) ->
  (forall q, q <> f -> ~ live (tab w) q -> count t' q = 0) ->
  core (f :: held) bs (set_tab t' w).
Proof.
  intros I R' Hl Pf C0 Old New. pose proof Pf as (N0 & fl & Ef & Cf & If).
  assert (forall q, live (tab w) q -> live t' q) as Lv.
  { intros q L. destruct (decide (q = f)) as [-> |N]; [by exists fl|]. apply (live_body (tab w)); auto. }
  split; simpl.
  - eauto.
  - intros q tk Et. destruct (c_task _ _ _ I q tk Et) as (A & B & C). split_and!; try done. auto.
  - intros q [-> |Hq]%elem_of_cons; [by exists fl|]. apply Lv. by eapply c_held.
  - intros q L. change (trefs q (set_tab t' w)) with (trefs q w). rewrite occ_cons.
    destruct (decide (live (tab w) q)) as [Lq|Lq].
    + pose proof (c_count _ _ _ I q Lq) as Cq. destruct (decide (q = f)) as [-> |N].
      * unfold count at 1. rewrite Ef, Cf, Z.eqb_refl. simpl. lia.
      * rewrite (count_of_body (tab w)) by auto. replace (f =? q) with false by lia. simpl. lia.
    + assert (q <> 0) as Nq by (intros ->; destruct R' as (R' & Dom & _); by apply (r_zero _ _ R'), Dom).
      destruct (dead_refs _ _ _ I Nq Lq) as (T0 & B0 & O0). rewrite T0, B0, O0. destruct (decide (q = f)) as [-> |N].
      * unfold count. rewrite Ef, Cf, Z.eqb_refl. done.
      * rewrite New by done. replace (f =? q) with false by lia. done.
  - intros q ph Eq. destruct (c_busy _ _ _ I q ph Eq) as (tk & Et & P). exists tk. split; [done|].
    eapply phase_ok_ext; [|exact P]. intros x Hx. destruct (own_refs _ _ _ _ _ _ I Eq Hx) as (_ & L & C & _).
    apply Old; [|done]. intros ->. lia.
  - intros i Hi. rewrite (c_irefs _ _ _ I) by done. unfold icnt. apply msum_contrib. intros q.
    destruct (decide (q = f)) as [-> |N].
    + rewrite Ef. simpl. unfold icontrib at 2. rewrite If. replace (0 =? i) with false by lia. rewrite andb_false_r.
      unfold count in C0. destruct (fheap (tab w) !! f) as [fl0|]; simpl; [|done]. unfold icontrib. by rewrite C0.
    + destruct (decide (live (tab w) q)) as [L|L]; [symmetry; by apply icontrib_of_body, Old|].
      specialize (New q N L). unfold live in L. destruct (fheap (tab w) !! q) as [x|]; [by destruct L; eauto|]. simpl.
      unfold count in New. destruct (fheap t' !! q) as [x|]; simpl; [|done]. unfold icontrib. by rewrite New.
  - apply I.
Qed.

End running.

End FdInv.
