(* ===== verification/FdSafe.v ===== *)
(** * Calls on descriptors keep the reference counts right *)

From S2P Require Import Prelude Dll Ring FileTable Fd FdInv.
From Stdlib Require Import ZArith Lia.
From stdpp Require Import base list gmap.
Local Open Scope Z_scope.

Module FdSafe.
Import FileTable Fd FdInv.

(** While [p] runs. *)
Definition mid (p : Z) (held : list Z) (w : world) : Prop := core held (delete p (busy w)) w.

Definition good (x : option (world * outcome)) : Prop := exists w' o, x = Some (w', o) /\ inv w'.

Lemma core_busy held bs w b : core held bs w -> core held bs (set_busy b w).
Proof. by intros []; split. Qed.

Lemma fd_inv_out p w : inv w -> busy w !! p = None -> mid p [] w.
Proof. intros I E. unfold mid. by rewrite delete_id. Qed.

Lemma fd_inv_take p ph w : inv w -> busy w !! p = Some ph ->
  mid p (hold ph) w /\ exists tk, tasks w !! p = Some tk /\ phase_ok (tab w) tk ph.
Proof.
  intros I E. split; [|by apply (c_busy _ _ _ I)]. pose proof (c_busy _ _ _ I p ph E) as (tk & Et & P). destruct I.
  split; try done.
  - intros f Hf. destruct ph; try by apply not_elem_of_nil in Hf. apply list_elem_of_singleton in Hf as ->.
    destruct P as (_ & fl & Ef & _). by exists fl.
  - intros f L. rewrite c_count0 by done. unfold brefs. rewrite (msum_delete _ _ _ _ E). change (occ f []) with 0. lia.
  - intros q ph' [_ E']%lookup_delete_Some. by apply c_busy0.
Qed.

Lemma mid_ret p r w : mid p [] w -> good (ret p r w).
Proof. intros M. eexists _, _. split; [done|]. unfold inv. simpl. by apply core_busy. Qed.

Lemma mid_wait p ph w tk : mid p (hold ph) w -> tasks w !! p = Some tk -> phase_ok (tab w) tk ph -> good (wait p ph w).
Proof.
  intros M E P. eexists _, _. split; [done|]. unfold inv. simpl. apply core_busy. destruct M. split; try done.
  - intros f Hf. by apply not_elem_of_nil in Hf.
  - intros f L. rewrite c_count0 by done. unfold brefs. rewrite msum_insert_gen. change (occ f []) with 0.
    change (trefs f (set_busy _ w)) with (trefs f w). lia.
  - intros q ph'. rewrite lookup_insert_Some. intros [[<- <-]|[N E']]; [by exists tk|].
    apply c_busy0. by rewrite lookup_delete_ne.
Qed.

Lemma alt_alt f g1 g2 t : alt f g2 (alt f g1 t) = alt f (g2 ∘ g1) t.
Proof.
  unfold alt. simpl. f_equal. apply map_eq. intros q. destruct (decide (q = f)) as [-> |N].
  - rewrite !lookup_alter_eq. by destruct (fheap t !! f).
  - by rewrite !lookup_alter_ne.
Qed.

Lemma set_tab_tab t t' w : set_tab t (set_tab t' w) = set_tab t w.
Proof. done. Qed.

Lemma not_busy p (w : world) : delete p (busy w) !! p = None.
Proof. apply lookup_delete_eq. Qed.

(** ** Closing *)

Lemma iput_refs i w j : j <> 0 -> default 0 (irefs (iput i w) !! j) = default 0 (irefs w !! j) - Z.b2z (i =? j).
Proof.
  intros Hj. unfold iput. destruct (Z.eqb_spec i 0) as [-> |N]; simpl.
  - destruct j; simpl; by rewrite ?Z.sub_0_r.
  - destruct (Z.eqb_spec i j) as [-> |N']; [by rewrite lookup_insert_eq|]. rewrite lookup_insert_ne by done. simpl. by rewrite Z.sub_0_r.
Qed.

Lemma close_fp_ok p held f w :
  mid p (f :: held) w -> Z.of_nat (length held) <= 1000 ->
  exists w', close_fp f w = Some w' /\ mid p held w' /\ tasks w' = tasks w /\ busy w' = busy w.
Proof.
  intros M Hh. assert (live (tab w) f) as L by (eapply (c_held _ _ _ M); left). pose proof L as [fl E].
  pose proof (c_count _ _ _ M f L) as C. rewrite occ_cons, Z.eqb_refl in C. simpl in C.
  pose proof (trefs_nonneg f w). pose proof (brefs_nonneg f (delete p (busy w))). pose proof (occ_nonneg f held).
  assert (count (tab w) f = f_count fl) as Cf by (unfold count; by rewrite E).
  unfold close_fp. rewrite E. simpl. replace (f_count fl =? 0) with false by lia.
  destruct (Z.ltb_spec 1 (f_count fl)) as [Hc|Hc].
  - destruct (dec_count_ok _ _ _ _ M ltac:(lia) Hh) as (-> & I). eexists. split; [done|]. by split.
  - assert (f_count fl = 1) as C1 by lia. unfold dec_count. rewrite upd_file_alt by done. cbn [mbind option_bind].
    rewrite upd_file_alt by (simpl; by apply live_alt). cbn [mbind option_bind]. simpl tab. rewrite alt_alt, set_tab_tab.
    eexists. split; [done|]. set (g := _ ∘ _).
    assert (forall w1, iput (f_inode fl) w1 = set_irefs (irefs (iput (f_inode fl) w1)) w1) as Ei.
    { intros w1. unfold iput. destruct (_ =? 0); [|done]. by rewrite set_irefs_id. }
    rewrite Ei. split; [|split; done]. unfold mid. cbn [busy set_irefs set_tab].
    eapply free_file_ok with fl; [exact M|done|done|done| |].
    + unfold g. simpl. rewrite C1. done.
    + intros i Hi. rewrite iput_refs by done. done.
Qed.

(** The state after a step of [p] that changes only its own descriptors and files. *)
Definition moved (p : Z) (w w' : world) (tk' : fdtask) : Prop :=
  tasks w' = <[p := tk']> (tasks w) /\ busy w' = busy w.

Lemma moved_trans p w w1 w2 tk1 tk2 : moved p w w1 tk1 -> moved p w1 w2 tk2 -> moved p w w2 tk2.
Proof. intros [A B] [C D]. split; [|congruence]. by rewrite C, A, insert_insert_eq. Qed.

Lemma moved_task p w w' tk : moved p w w' tk -> tasks w' !! p = Some tk.
Proof. intros [-> _]. apply lookup_insert_eq. Qed.

Lemma sys_close_ok p held fd w tk :
  mid p held w -> tasks w !! p = Some tk -> 0 <= fd -> Z.of_nat (length held) <= 1000 ->
  exists w' r tk', sys_close p fd w = Some (w', r) /\ mid p held w' /\ moved p w w' tk' /\
    (fd < NR_OPEN -> put (filp tk) fd 0 = Some (filp tk') /\ put (close_on_exec tk) fd false = Some (close_on_exec tk')).
Proof.
  intros M E H0 Hh. unfold sys_close. destruct (Z.leb_spec NR_OPEN fd) as [Hfd|Hfd].
  { exists w, (- EBADF), tk. split_and!; try done; [|lia]. split; [|done]. by rewrite insert_id. }
  destruct (cloexec_ok p _ (not_busy p w) _ _ _ fd false M E ltac:(lia)) as (l & Ec & Pl & M1).
  unfold FD_CLR. rewrite Ec. cbn [mbind option_bind]. set (w1 := set_tasks _ w) in *. set (tk1 := Task (filp tk) l) in *.
  assert (moved p w w1 tk1) as V1 by done. rewrite (moved_task _ _ _ _ V1). cbn [mbind option_bind].
  destruct (c_task _ _ _ M p tk E) as (A & B & C).
  destruct (get_in_range (filp tk) fd ltac:(lia)) as [f G]. simpl filp. rewrite G. cbn [mbind option_bind].
  destruct (Z.eqb_spec f 0) as [-> |N].
  { exists w1, (- EBADF), tk1. split_and!; try done. intros _. split; [by apply put_same|done]. }
  destruct (uninstall_ok p _ (not_busy p w1) _ w1 tk1 fd f M1 (moved_task _ _ _ _ V1) G N) as (l2 & Pl2 & -> & M2).
  cbn [mbind option_bind]. set (w2 := set_tasks _ w1) in *.
  destruct (close_fp_ok p held f w2 M2 Hh) as (w3 & -> & M3 & T3 & B3). cbn [mbind option_bind].
  exists w3, 0, (set_filp l2 tk1). split; [done|]. split; [done|]. split; [|done].
  eapply moved_trans; [exact V1|]. split; [by rewrite T3|by rewrite B3].
Qed.

Lemma put_put {A} (l l' : list A) i x y : put l i x = Some l' -> put l' i y = put l i y.
Proof.
  unfold put. case_bool; [done|]. intros [= <-]. rewrite length_insert, Heqb. by rewrite list_insert_insert_eq.
Qed.

(** ** Duplicating *)

Lemma first_free_spec l i :
  i <= first_free l i <= i + Z.of_nat (length l) /\
  (first_free l i < i + Z.of_nat (length l) -> l !! Z.to_nat (first_free l i - i) = Some 0) /\
  (forall j, i <= j < first_free l i -> l !! Z.to_nat (j - i) <> Some 0).
Proof.
  revert i. induction l as [|x l IH]; intros i; simpl; [split_and!; lia|]. destruct (Z.eqb_spec x 0) as [-> |N].
  - rewrite Z.sub_diag. split_and!; try lia. done.
  - destruct (IH (i + 1)) as (A & B & C). split; [lia|split].
    + intros H. replace (Z.to_nat (first_free l (i + 1) - i)) with (S (Z.to_nat (first_free l (i + 1) - (i + 1)))) by lia.
      simpl. apply B. lia.
    + intros j Hj. destruct (decide (j = i)) as [-> |Nj]; [rewrite Z.sub_diag; simpl; congruence|].
      replace (Z.to_nat (j - i)) with (S (Z.to_nat (j - (i + 1)))) by lia. simpl. apply C. lia.
Qed.

(** As [dupfd] uses it: the first free descriptor of the array from [a] on. *)
Lemma first_free_from (l : list Z) a :
  0 <= a <= Z.of_nat (length l) -> let r := first_free (drop (Z.to_nat a) l) a in
  a <= r <= Z.of_nat (length l) /\ (r < Z.of_nat (length l) -> get l r = Some 0) /\
  (forall j, a <= j < r -> get l j <> Some 0).
Proof.
  intros H r. destruct (first_free_spec (drop (Z.to_nat a) l) a) as (A & B & C). fold r in A, B, C.
  rewrite length_drop in A, B. split; [lia|split].
  - intros Hr. unfold get. replace (r <? 0) with false by lia. specialize (B ltac:(lia)). rewrite lookup_drop in B.
    by replace (Z.to_nat a + Z.to_nat (r - a))%nat with (Z.to_nat r) in B by lia.
  - intros j Hj. unfold get. replace (j <? 0) with false by lia. specialize (C j Hj). rewrite lookup_drop in C.
    by replace (Z.to_nat a + Z.to_nat (j - a))%nat with (Z.to_nat j) in C by lia.
Qed.

(** An error and nothing changed, or the first free descriptor from [arg] on. *)
Definition dup_post (tk : fdtask) (fd arg r : Z) (tk' : fdtask) : Prop :=
  r < 0 /\ tk' = tk /\
    (NR_OPEN <= fd \/ get (filp tk) fd = Some 0 \/ forall j, arg <= j < NR_OPEN -> get (filp tk) j <> Some 0) \/
  exists f, get (filp tk) fd = Some f /\ f <> 0 /\ arg <= r < NR_OPEN /\ get (filp tk) r = Some 0 /\
    (forall j, arg <= j < r -> get (filp tk) j <> Some 0) /\ put (filp tk) r f = Some (filp tk') /\
    put (close_on_exec tk) r false = Some (close_on_exec tk').

Lemma dupfd_ok p fd arg w tk :
  mid p [] w -> tasks w !! p = Some tk -> 0 <= fd -> 0 <= arg ->
  exists w' r tk', dupfd p fd arg w = Some (w', r) /\ mid p [] w' /\ moved p w w' tk' /\ dup_post tk fd arg r tk'.
Proof.
  intros M E H0 Ha. unfold dupfd. rewrite E. cbn [mbind option_bind].
  assert (forall r, r < 0 -> NR_OPEN <= fd \/ get (filp tk) fd = Some 0 \/ (forall j, arg <= j < NR_OPEN -> get (filp tk) j <> Some 0) ->
    exists w' r' tk', Some (w, r) = Some (w', r') /\ mid p [] w' /\ moved p w w' tk' /\ dup_post tk fd arg r' tk') as Err.
  { intros r Hr Why. exists w, r, tk. split_and!; try done; [|by left]. split; [|done]. by rewrite insert_id. }
  destruct (Z.leb_spec NR_OPEN fd) as [Hfd|Hfd]; [apply Err; auto; done|]. destruct (c_task _ _ _ M p tk E) as (A & B & C).
  destruct (get_in_range (filp tk) fd ltac:(lia)) as [f G]. rewrite G. cbn [mbind option_bind].
  destruct (Z.eqb_spec f 0) as [-> |N]; [apply Err; auto; done|].
  destruct (Z.leb_spec NR_OPEN arg) as [Har|Har]; [apply Err; [done|]; right; right; lia|].
  cbv zeta. destruct (first_free_from (filp tk) arg ltac:(lia)) as (R1 & R2 & R3).
  set (r := first_free _ arg) in *. destruct (Z.leb_spec NR_OPEN r) as [Hr|Hr].
  { apply Err; [done|]. right. right. intros j Hj. apply R3. lia. }
  clear Err.
  specialize (R2 ltac:(lia)).
  destruct (cloexec_ok p _ (not_busy p w) _ _ _ r false M E ltac:(lia)) as (l & Ec & Pl & M1).
  unfold FD_CLR. rewrite Ec. cbn [mbind option_bind]. set (w1 := set_tasks _ w) in *. set (tk1 := Task (filp tk) l) in *.
  assert (moved p w w1 tk1) as V1 by done.
  assert (reachable [] (delete p (busy w1)) w1 f) as Rc.
  { right. exists p, tk1. split_and!; [apply not_busy|apply (moved_task _ _ _ _ V1)|]. by eapply elem_of_get. }
  destruct (inc_count_ok [] _ w1 f M1 Rc N ltac:(simpl; lia)) as (L & Ei & M2). set (w2 := set_tab _ w1) in *.
  destruct (install_ok p _ (not_busy p w2) [] w2 tk1 r f M2 (moved_task _ _ _ _ V1) R2) as (l3 & Pl3 & Ep & M3).
  unfold put_fd. rewrite (moved_task _ _ _ _ V1). cbn [mbind option_bind]. rewrite Pl3. cbn [mbind option_bind].
  unfold inc_count. rewrite upd_file_alt by exact L. cbn [mbind option_bind].
  eexists _, r, (set_filp l3 tk1). split; [done|]. split; [exact M3|]. split.
  - split; [|done]. simpl. by rewrite insert_insert_eq.
  - right. exists f. split_and!; first [done|lia].
Qed.

Definition dup2_post (tk : fdtask) (oldfd newfd r : Z) (tk' : fdtask) : Prop :=
  r < 0 /\ tk' = tk /\ (NR_OPEN <= oldfd \/ get (filp tk) oldfd = Some 0 \/ NR_OPEN <= newfd) \/
  exists f, get (filp tk) oldfd = Some f /\ f <> 0 /\ r = newfd /\ newfd < NR_OPEN /\
    (newfd = oldfd /\ tk' = tk \/ newfd <> oldfd /\ put (filp tk) newfd f = Some (filp tk')).

Ltac dup_err := eexists _, _, _; split_and!; try done; left; split; [done|split; [done|]]; first [by auto|right; right; lia].

(** The first free descriptor after [newfd] was closed is [newfd] itself. *)
Lemma sys_dup2_ok p oldfd newfd w tk :
  mid p [] w -> tasks w !! p = Some tk -> 0 <= oldfd -> 0 <= newfd ->
  exists w' r tk', sys_dup2 p oldfd newfd w = Some (w', r) /\ mid p [] w' /\ moved p w w' tk' /\ dup2_post tk oldfd newfd r tk'.
Proof.
  intros M E H0 H1. unfold sys_dup2. rewrite E. cbn [mbind option_bind].
  assert (moved p w w tk) as V0 by (split; [by rewrite insert_id|done]).
  destruct (Z.leb_spec NR_OPEN oldfd) as [Hfd|Hfd]; [dup_err|].
  destruct (c_task _ _ _ M p tk E) as (A & B & C).
  destruct (get_in_range (filp tk) oldfd ltac:(lia)) as [f G]. rewrite G. cbn [mbind option_bind].
  destruct (Z.eqb_spec f 0) as [-> |N]; [dup_err|].
  destruct (Z.eqb_spec newfd oldfd) as [-> |Nf].
  { exists w, oldfd, tk. split_and!; try done. right. exists f. split_and!; auto. }
  destruct (Z.ltb_spec NR_OPEN newfd) as [Hn|Hn]; [dup_err|].
  destruct (Z.eqb_spec newfd NR_OPEN) as [Hn'|Hn']; [dup_err|].
  destruct (sys_close_ok p [] newfd w tk M E H1 ltac:(simpl; lia)) as (w1 & r1 & tk1 & -> & M1 & V1 & P1).
  cbn [mbind option_bind]. destruct (P1 ltac:(lia)) as [P2 P3].
  destruct (dupfd_ok p oldfd newfd w1 tk1 M1 (moved_task _ _ _ _ V1) H0 H1) as (w2 & r2 & tk2 & -> & M2 & V2 & Post).
  assert (get (filp tk1) oldfd = Some f) as G1 by (rewrite (get_put _ _ _ _ _ P2); by replace (oldfd =? newfd) with false by lia).
  assert (get (filp tk1) newfd = Some 0) as G2 by (rewrite (get_put _ _ _ _ _ P2); by rewrite Z.eqb_refl).
  exists w2, r2, tk2. split; [done|]. split; [done|]. split; [by eapply moved_trans|]. right. exists f.
  destruct Post as [(_ & _ & [Bad|[Bad|Bad]])|(f' & G' & _ & R1 & _ & R2 & P4 & _)].
  - lia.
  - congruence.
  - by destruct (Bad newfd ltac:(lia)).
  - assert (r2 = newfd) as ->.
    { destruct (decide (r2 = newfd)); [done|]. by destruct (R2 newfd ltac:(lia)). }
    assert (f' = f) as -> by congruence. split_and!; try done; [lia|]. right. split; [done|]. rewrite <- P4. symmetry. by apply put_put with 0.
Qed.

(** ** Fields that do not matter *)

Definition keeps_refs (g : file -> file) : Prop :=
  keeps_links g /\ forall fl, f_count (g fl) = f_count fl /\ f_inode (g fl) = f_inode fl.

Lemma core_fields held bs w f g :
  core held bs w -> live (tab w) f -> keeps_refs g -> (forall p ph, bs !! p = Some ph -> f ∉ own ph) ->
  core held bs (set_tab (alt f g (tab w)) w).
Proof.
  intros I [fl E] [K1 K2] O. destruct (K2 fl) as [K3 K4]. rewrite <- (set_irefs_id (set_tab _ w)).
  apply core_alt with held fl; simpl; try done; [lia|auto|]. intros i Hi. unfold icontrib. rewrite K3, K4. lia.
Qed.

Lemma filp_live held bs w p tk f : core held bs w -> tasks w !! p = Some tk -> f ∈ filp tk -> f <> 0 -> live (tab w) f.
Proof. intros I E Hf N. destruct (c_task _ _ _ I p tk E) as (_ & _ & T). auto. Qed.

Lemma filp_not_own held w p tk f q ph :
  mid p held w -> tasks w !! p = Some tk -> f ∈ filp tk -> delete p (busy w) !! q = Some ph -> f ∉ own ph.
Proof.
  intros M E Hf Eq. eapply reachable_not_own; [exact M| |exact Eq]. right. exists p, tk. split_and!; [apply not_busy|done|done].
Qed.

Definition good_z (p : Z) (x : option (world * Z)) : Prop := exists w' r, x = Some (w', r) /\ mid p [] w' /\ is_Some (tasks w' !! p) /\ busy w' !! p = None.

Lemma moved_is_Some p w w' tk : moved p w w' tk -> is_Some (tasks w' !! p).
Proof. intros V. exists tk. by eapply moved_task. Qed.

Lemma sys_fcntl_ok p fd cmd arg other w tk :
  mid p [] w -> tasks w !! p = Some tk -> busy w !! p = None -> 0 <= fd -> 0 <= arg -> good_z p (sys_fcntl p fd cmd arg other w).
Proof.
  intros M E Nb H0 Ha. unfold sys_fcntl. rewrite E. cbn [mbind option_bind].
  assert (forall r, good_z p (Some (w, r))) as Same by (intros r; exists w, r; rewrite E; split_and!; eauto).
  destruct (Z.leb_spec NR_OPEN fd) as [Hfd|Hfd]; [apply Same|]. destruct (c_task _ _ _ M p tk E) as (A & B & C).
  destruct (get_in_range (filp tk) fd ltac:(lia)) as [f G]. rewrite G. cbn [mbind option_bind].
  destruct (Z.eqb_spec f 0) as [-> |N]; [apply Same|]. case_bool.
  { destruct (dupfd_ok p fd arg w tk M E H0 Ha) as (w' & r & tk' & -> & M' & V & _). exists w', r.
    split_and!; try done; [by eapply moved_is_Some|]. by rewrite (proj2 V). }
  case_bool.
  { destruct (get_in_range (close_on_exec tk) fd ltac:(lia)) as [b Gb]. rewrite Gb. apply Same. }
  case_bool.
  { assert (forall b, exists w', put_cloexec p fd b w = Some w' /\ good_z p (Some (w', 0))) as Cl.
    { intros b. destruct (cloexec_ok p _ (not_busy p w) _ _ _ fd b M E ltac:(lia)) as (l & Ec & Pl & M1). rewrite Ec.
      eexists. split; [done|]. eexists _, _. split; [done|]. split; [exact M1|]. simpl. rewrite lookup_insert_eq. eauto. }
    unfold FD_SET, FD_CLR. destruct (Cl true) as (w1 & E1 & G1), (Cl false) as (w2 & E2 & G2). case_bool; [rewrite E1|rewrite E2]; done. }
  pose proof (filp_live _ _ _ _ _ _ M E (elem_of_get _ _ _ G) N) as L. destruct L as [fl Ef]. rewrite Ef. cbn [mbind option_bind].
  case_bool; [apply Same|]. case_bool; [|apply Same]. rewrite upd_file_alt by (by exists fl). cbn [mbind option_bind].
  eexists _, _. split; [done|]. split; [|simpl; rewrite E; eauto].
  eapply core_fields; [exact M|by exists fl|done|]. intros q ph Eq.
  eapply filp_not_own; [exact M|exact E|by eapply elem_of_get|exact Eq].
Qed.

(** ** [exec] and [exit] *)

Lemma moved_busy p w w' tk : moved p w w' tk -> busy w' !! p = busy w !! p.
Proof. intros [_ ->]. done. Qed.

Lemma close_marked_ok n p i w tk :
  mid p [] w -> tasks w !! p = Some tk -> busy w !! p = None -> 0 <= i -> i + Z.of_nat n <= NR_OPEN ->
  exists w' tk', close_marked n p i w = Some w' /\ mid p [] w' /\ moved p w w' tk'.
Proof.
  revert i w tk. induction n as [|n IH]; intros i w tk M E Nb H0 Hn.
  { exists w, tk. split_and!; try done. split; [by rewrite insert_id|done]. }
  simpl. rewrite E. cbn [mbind option_bind]. destruct (c_task _ _ _ M p tk E) as (A & B & C).
  destruct (get_in_range (close_on_exec tk) i ltac:(lia)) as [b G]. rewrite G. cbn [mbind option_bind]. destruct b.
  - destruct (sys_close_ok p [] i w tk M E H0 ltac:(simpl; lia)) as (w1 & r1 & tk1 & -> & M1 & V1 & _). cbn [mbind option_bind].
    destruct (IH (i + 1) w1 tk1 M1) as (w' & tk' & -> & M' & V'); [by eapply moved_task|by rewrite (moved_busy _ _ _ _ V1)|lia|lia|].
    exists w', tk'. split_and!; try done. by eapply moved_trans.
  - apply (IH (i + 1) w tk); try done; lia.
Qed.

Lemma exec_files_ok p w tk :
  mid p [] w -> tasks w !! p = Some tk -> busy w !! p = None ->
  exists w' tk', exec_files p w = Some w' /\ mid p [] w' /\ moved p w w' tk' /\ (forall b, b ∈ close_on_exec tk' -> b = false).
Proof.
  intros M E Nb. unfold exec_files.
  destruct (close_marked_ok (Z.to_nat NR_OPEN) p 0 w tk M E Nb ltac:(done) ltac:(done)) as (w1 & tk1 & -> & M1 & V1).
  cbn [mbind option_bind]. pose proof (moved_task _ _ _ _ V1) as E1. rewrite E1. cbn [mbind option_bind].
  eexists _, (Task (filp tk1) (replicate (Z.to_nat NR_OPEN) false)). split; [done|]. split; [|split].
  - eapply core_task; [apply not_busy|exact M1|done| |done|].
    + destruct (c_task _ _ _ M1 p tk1 E1) as (A & B & C). split_and!; [done|by vm_compute|done].
    + intros f Hf. by apply not_elem_of_nil in Hf.
  - split; simpl; [by rewrite (proj1 V1), insert_insert_eq|apply V1].
  - cbn [close_on_exec]. intros b Hb. by apply elem_of_replicate in Hb as [-> _].
Qed.

Lemma close_all_ok n p i w tk :
  mid p [] w -> tasks w !! p = Some tk -> busy w !! p = None -> 0 <= i -> i + Z.of_nat n = NR_OPEN ->
  (forall j, 0 <= j < i -> get (filp tk) j = Some 0) ->
  exists w' tk', close_all n p i w = Some w' /\ mid p [] w' /\ moved p w w' tk' /\ forall j, 0 <= j < NR_OPEN -> get (filp tk') j = Some 0.
Proof.
  revert i w tk. induction n as [|n IH]; intros i w tk M E Nb H0 Hn Hz.
  { exists w, tk. split_and!; try done; [split; [by rewrite insert_id|done]|]. intros j Hj. apply Hz. lia. }
  simpl. rewrite E. cbn [mbind option_bind]. destruct (c_task _ _ _ M p tk E) as (A & B & C).
  destruct (get_in_range (filp tk) i ltac:(lia)) as [f G]. rewrite G. cbn [mbind option_bind].
  destruct (Z.eqb_spec f 0) as [-> |N]; cbn [negb].
  - apply (IH (i + 1) w tk); try done; try lia. intros j Hj. destruct (decide (j = i)) as [-> |]; [done|]. apply Hz. lia.
  - destruct (sys_close_ok p [] i w tk M E H0 ltac:(simpl; lia)) as (w1 & r1 & tk1 & -> & M1 & V1 & P1). cbn [mbind option_bind].
    destruct (P1 ltac:(lia)) as [P2 _].
    destruct (IH (i + 1) w1 tk1 M1) as (w' & tk' & -> & M' & V' & Z'); [by eapply moved_task|by rewrite (moved_busy _ _ _ _ V1)|lia|lia| |].
    + intros j Hj. rewrite (get_put _ _ _ _ _ P2). destruct (Z.eqb_spec j i); [done|]. apply Hz. lia.
    + exists w', tk'. split_and!; try done. by eapply moved_trans.
Qed.

(** ** [fork] *)

Lemma inc_counts_ok l p held w tk :
  mid p held w -> tasks w !! p = Some tk -> (forall f, f ∈ l -> f ∈ filp tk) ->
  Z.of_nat (length held + length l) <= 1000 ->
  exists w' held', inc_counts l w = Some w' /\ mid p held' w' /\ tasks w' = tasks w /\ busy w' = busy w /\
    (forall f, f <> 0 -> occ f held' = occ f held + occ f l).
Proof.
  revert held w. induction l as [|f l IH]; intros held w M E Sub Hl.
  { exists w, held. split_and!; try done. intros f _. change (occ f []) with 0. lia. }
  simpl in Hl. simpl. destruct (Z.eqb_spec f 0) as [-> |N]; cbn [negb mbind option_bind].
  - destruct (IH held w M E) as (w' & held' & -> & M' & T & B & O); [set_solver|lia|]. exists w', held'. split_and!; try done.
    intros f Nf. rewrite O, occ_cons by done. replace (0 =? f) with false by lia. simpl. lia.
  - assert (reachable held (delete p (busy w)) w f) as Rc.
    { right. exists p, tk. split_and!; [apply not_busy|done|]. apply Sub. left. }
    destruct (inc_count_ok _ _ w f M Rc N ltac:(lia)) as (L & -> & M1). cbn [mbind option_bind].
    set (w1 := set_tab _ w) in *. destruct (IH (f :: held) w1 M1 E) as (w' & held' & -> & M' & T & B & O); [set_solver|simpl; lia|].
    exists w', held'. split_and!; try done. intros x Nx. rewrite O, !occ_cons by done. lia.
Qed.

Lemma fork_files_ok p child w tk :
  mid p [] w -> tasks w !! p = Some tk -> busy w !! p = None -> tasks w !! child = None ->
  Z.of_nat (size (tasks w)) < MAX_TASKS ->
  exists w', fork_files p child w = Some w' /\ inv w' /\ tasks w' = <[child := tk]> (tasks w) /\ busy w' = busy w.
Proof.
  intros M E Nb Ec Sz. unfold fork_files. rewrite E. cbn [mbind option_bind].
  destruct (c_task _ _ _ M p tk E) as (A & B & C). unfold NR_OPEN in *.
  destruct (inc_counts_ok (filp tk) p [] w tk M E ltac:(done) ltac:(simpl; lia)) as (w1 & held & -> & M1 & T1 & B1 & O1).
  cbn [mbind option_bind]. eexists. split; [done|]. unfold inv. cbn [busy set_tasks]. rewrite B1.
  unfold mid in M1. rewrite B1, delete_id in M1 by done.
  assert (busy w !! child = None) as Nc.
  { destruct (busy w !! child) as [ph|] eqn:Eb; [|done]. destruct (c_busy _ _ _ M1 child ph Eb) as (tk' & Et & _). rewrite T1 in Et. congruence. }
  split; [|by rewrite T1]. destruct M1. split; simpl; try done.
  - intros q tk'. rewrite lookup_insert_Some. intros [[<- <-]|[_ H]]; [|by eapply c_task0]. by apply (c_task0 p); rewrite T1.
  - intros f Hf. by apply not_elem_of_nil in Hf.
  - intros f L. rewrite c_count0 by done. unfold trefs. simpl. rewrite msum_insert by (by rewrite T1).
    change (occ f []) with 0. assert (f <> 0) as N0.
    { intros ->. destruct c_ring0 as (l & (R & Dom & _) & _). by apply (r_zero _ _ R), Dom. }
    rewrite O1 by done. change (occ f []) with 0. lia.
  - intros q ph Eq. destruct (c_busy0 q ph Eq) as (tk' & Et & P). exists tk'. split; [|done].
    rewrite lookup_insert_ne; [done|]. intros ->. congruence.
  - rewrite map_size_insert_None by (by rewrite T1). rewrite T1. lia.
Qed.

(** ** Taking a file *)

Lemma body_private t f fl : f <> 0 -> fheap t !! f = Some fl -> body fl = set_count 1 zero_file -> private t f 0.
Proof.
  intros N E B. split; [done|]. exists fl. split; [done|].
  assert (f_count (body fl) = 1 /\ f_inode (body fl) = 0) as [H1 H2] by (by rewrite B). done.
Qed.

(** What [get_empty_filp] may answer while [p] runs. *)
Definition got_post (p : Z) (held : list Z) (w : world) (g : option got) : Prop :=
  exists g', g = Some g' /\
  match g' with
  | Got f t => mid p (f :: held) (set_tab t w) /\ private t f 0 /\ (f ∉ held) /\
      (forall q, q ∈ held -> body <$> fheap t !! q = body <$> fheap (tab w) !! q)
  | Full t | NeedPage t => t = tab w
  end.

Lemma scan_post_got p held w l g :
  mid p held w -> ring_of (tab w) l -> length l <> 1%nat -> scan_post (tab w) l g -> got_post p held w g.
Proof.
  intros M R Hl S. unfold scan_post in S. destruct (head _) as [f|] eqn:Eh.
  - destruct S as (t' & fl & -> & R' & Ef & Bf & Oth). exists (Got f t'). split; [done|].
    assert (f ∈ filter (fun p => count (tab w) p = 0) l) as Hf by (destruct (filter _ l); simplify_eq/=; left).
    apply list_elem_of_filter in Hf as [C0 Hf]. destruct R as (R & Dom & Nr). pose proof (r_live _ _ R f Hf) as L.
    assert (f <> 0) as N0 by (intros ->; by apply (r_zero _ _ R)). pose proof (body_private _ _ _ N0 Ef Bf) as Pf.
    destruct (zero_count_unused _ _ _ _ M C0 L) as [Nh _]. split_and!; try done.
    + eapply core_got with (without f l ++ [f]); try done.
      * rewrite length_app. simpl. pose proof (length_without f l (r_nodup _ _ R) Hf). lia.
      * intros q Nq _. by apply Oth.
      * intros q Nq Lq. specialize (Oth q Nq). rewrite (count_of_body (tab w)) by done. unfold count, live in *.
        destruct (fheap (tab w) !! q); [by destruct Lq; eauto|done].
    + intros q Hq. apply Oth. intros ->. done.
  - exists (if Z.of_nat (length l) <? NR_FILE then NeedPage (tab w) else Full (tab w)). split; [done|]. by case_bool.
Qed.

Lemma get_empty_filp_got p held w : mid p held w -> got_post p held w (get_empty_filp (tab w)).
Proof.
  intros M. destruct (c_ring _ _ _ M) as (l & R & Hl). eapply scan_post_got; try done. by apply get_empty_filp_ok.
Qed.

(** A page that is the kernel's own, or none. *)
Definition page_ok (pg : Z) (t : ftable) : Prop := pg = 0 \/ fresh_page pg t.

Lemma get_empty_filp_page_got p held w pg :
  mid p held w -> page_ok pg (tab w) -> got_post p held w (get_empty_filp_page pg (tab w)).
Proof.
  intros M Hp. destruct (c_ring _ _ _ M) as (l & R & Hl). destruct Hp as [-> |F].
  - unfold get_empty_filp_page, grow_files. cbn. eapply scan_post_got; try done. by apply scan_files_ok.
  - destruct (get_empty_filp_page_ok pg (tab w) l R F) as (t' & f & l' & -> & R' & Pl & (fl & Ef & Bf) & Hf & New & Old).
    exists (Got f t'). split; [done|]. destruct F as [Hpg Fr]. pose proof (Fr f Hf) as Lf.
    assert (f <> 0) as N0 by (intros ->; by apply (new_files_pos pg)). pose proof (body_private _ _ _ N0 Ef Bf) as Pf.
    assert (forall q, live (tab w) q -> q ∉ new_files pg) as Dis by (intros q L Hq; by apply (Fr q)).
    split_and!; try done.
    + eapply core_got with l'; try done.
      * rewrite Pl, length_app, new_files_length. unfold PER_PAGE. lia.
      * unfold count, live in *. destruct (fheap (tab w) !! f); [by destruct Lf; eauto|done].
      * intros q Nq Lq. apply Old. auto.
      * intros q Nq Lq. destruct (decide (q ∈ new_files pg)) as [Hq|Hq].
        -- specialize (New q Hq Nq). apply fmap_Some in New as (x & Ex & Bx). unfold count. rewrite Ex.
           by apply (count_body x zero_file).
        -- rewrite (count_of_body (tab w)) by auto. unfold count, live in *.
           destruct (fheap (tab w) !! q); [by destruct Lq; eauto|done].
    + intros Hh. apply Lf. by eapply c_held.
    + intros q Hq. apply Old, Dis. by eapply c_held.
Qed.

End FdSafe.
