(* ===== verification/FdOpen.v ===== *)
(** * [open] and [pipe] keep the reference counts right; reachable states

    Theorems: no call follows a dangling pointer; the counts of files and inodes are
    exact; what [dup2] and [close] do; and three faults. *)

From S2P Require Import Prelude Dll Ring FileTable Fd FdInv FdSafe.
From Stdlib Require Import ZArith Lia.
From stdpp Require Import base list gmap.
Local Open Scope Z_scope.

Module FdOpen.
Import FileTable Fd FdInv FdSafe.

(** ** Steps of an open *)

Lemma set_tab_id w : set_tab (tab w) w = w.
Proof. by destruct w. Qed.

Lemma mid_swap p a b w : mid p [a; b] w -> mid p [b; a] w.
Proof.
  intros []. split; try done.
  - intros f Hf. apply c_held0. set_solver.
  - intros f L. rewrite c_count0 by done. rewrite !occ_cons. change (occ f []) with 0. lia.
Qed.

(** The last reference of a file without inode is dropped. *)
Lemma dec_free_ok p held f w :
  mid p (f :: held) w -> private (tab w) f 0 ->
  exists w', dec_count f w = Some w' /\ mid p held w' /\ tasks w' = tasks w /\ busy w' = busy w /\
    forall q, q <> f -> fheap (tab w') !! q = fheap (tab w) !! q.
Proof.
  intros M (N & fl & E & C & I0). unfold dec_count. rewrite upd_file_alt by (by exists fl). eexists. split; [done|].
  split_and!; try done.
  - unfold mid. cbn [busy set_tab]. rewrite <- (set_irefs_id (set_tab _ w)).
    eapply free_file_ok with fl; [exact M|done|done|done|simpl; by rewrite C|].
    intros i Hi. rewrite I0. replace (0 =? i) with false by lia. cbn [irefs set_tab]. simpl Z.b2z. lia.
  - intros q Nq. simpl. by rewrite lookup_alter_ne.
Qed.

Lemma private_same t t' f i : fheap t' !! f = fheap t !! f -> private t f i -> private t' f i.
Proof. intros E (N & fl & H). split; [done|]. exists fl. by rewrite E. Qed.

Lemma private_body t t' f i : body <$> fheap t' !! f = body <$> fheap t !! f -> private t f i -> private t' f i.
Proof.
  intros E (N & fl & H & C & I0). split; [done|]. rewrite H in E. simpl in E. apply fmap_Some in E as (fl' & -> & B).
  exists fl'. split; [done|]. assert (f_count (body fl) = f_count (body fl') /\ f_inode (body fl) = f_inode (body fl')) as [? ?] by (by rewrite B).
  simpl in *. split; congruence.
Qed.

(** The running process changes the fields of a file it alone knows. *)
Lemma upd_private_ok p held w f g :
  mid p held w -> private (tab w) f 0 -> keeps_refs g ->
  (forall q ph, delete p (busy w) !! q = Some ph -> f ∉ own ph) ->
  upd_file f g w = Some (set_tab (alt f g (tab w)) w) /\ mid p held (set_tab (alt f g (tab w)) w) /\
  private (alt f g (tab w)) f 0.
Proof.
  intros M (N & fl & E & C & I0) K O. split; [apply upd_file_alt; by exists fl|]. split.
  - apply core_fields; try done. by exists fl.
  - split; [done|]. exists (g fl). simpl. rewrite lookup_alter_eq, E. destruct K as [_ K]. destruct (K fl) as [-> ->]. done.
Qed.

Lemma open_installed_ok p fd f flags w tk :
  mid p [f] w -> private (tab w) f 0 -> tasks w !! p = Some tk -> get (filp tk) fd = Some 0 ->
  good (open_installed p fd f flags w).
Proof.
  intros M P E G. unfold open_installed.
  destruct (install_ok p _ (not_busy p w) [] w tk fd f M E G) as (l & Pl & -> & M1). cbn [mbind option_bind].
  set (w1 := set_tasks _ w) in *. set (tk1 := set_filp l tk) in *.
  assert (tasks w1 !! p = Some tk1) as E1 by (simpl; apply lookup_insert_eq).
  assert (get (filp tk1) fd = Some f) as G1 by (simpl; rewrite (get_put _ _ _ _ _ Pl); by rewrite Z.eqb_refl).
  destruct (upd_private_ok p [] w1 f (fun fl => File (Z.land (flags + 1) O_ACCMODE) (f_rdev fl) (f_pos fl) (u16 flags) (f_count fl)
    (f_reada fl) (f_next fl) (f_prev fl) (f_inode fl) (f_op fl)) M1 P) as (-> & M2 & P2); [done| |].
  { intros q ph Eq. eapply (filp_not_own [] w1); [exact M1|exact E1|by eapply elem_of_get|exact Eq]. }
  cbn [mbind option_bind]. eapply mid_wait; [exact M2|exact E1|]. by split.
Qed.

Lemma open_got_ok p fd flags g w tk :
  got_post p [] w (Some g) -> mid p [] w -> tasks w !! p = Some tk -> get (filp tk) fd = Some 0 -> good (open_got p fd flags g w).
Proof.
  intros (g' & [= <-] & S) M E G. destruct g as [f t|t|t]; simpl.
  - destruct S as (M1 & P & _). by eapply open_installed_ok.
  - rewrite S, set_tab_id. by apply mid_ret.
  - rewrite S, set_tab_id. by eapply mid_wait.
Qed.

Lemma do_open_ok p flags w tk : mid p [] w -> tasks w !! p = Some tk -> good (do_open p flags w).
Proof.
  intros M E. unfold do_open. rewrite E. cbn [mbind option_bind]. destruct (c_task _ _ _ M p tk E) as (A & B & C).
  pose proof (first_free_from (filp tk) 0 ltac:(lia)) as (R1 & R2 & R3). change (Z.to_nat 0) with 0%nat in *. rewrite drop_0 in *. cbv zeta.
  set (fd := first_free (filp tk) 0) in *. destruct (Z.leb_spec NR_OPEN fd) as [H|H]; [by apply mid_ret|].
  destruct (cloexec_ok p _ (not_busy p w) _ _ _ fd false M E ltac:(lia)) as (l & Ec & Pl & M1).
  unfold FD_CLR. rewrite Ec. cbn [mbind option_bind]. set (w1 := set_tasks _ w) in *.
  pose proof (get_empty_filp_got p [] w1 M1) as S. pose proof S as (g & Eg & _). rewrite Eg in *. cbn [mbind option_bind].
  eapply open_got_ok; [done|done|simpl; apply lookup_insert_eq|]. apply R2. lia.
Qed.

Lemma do_open_page_ok p pg fd flags w :
  inv w -> busy w !! p = Some (InOpen fd flags) -> page_ok pg (tab w) -> good (do_open_page p pg w).
Proof.
  intros I Eb Pg. destruct (fd_inv_take p _ w I Eb) as (M & tk & E & P). unfold do_open_page. rewrite Eb.
  pose proof (get_empty_filp_page_got p _ w pg M Pg) as S. pose proof S as (g & Eg & _). rewrite Eg in *. cbn [mbind option_bind].
  by eapply open_got_ok.
Qed.

Lemma open_namei_ok p r fd f w :
  inv w -> busy w !! p = Some (InNamei fd f) -> (forall i op, r = inr (i, op) -> i <> 0) -> good (open_namei p r w).
Proof.
  intros I Eb Hr. destruct (fd_inv_take p _ w I Eb) as (M & tk & E & G & P). simpl in M. unfold open_namei. rewrite Eb.
  pose proof P as (N & fl & Ef & C & I0). destruct r as [error|[i op]].
  - destruct (uninstall_ok p _ (not_busy p w) [] w tk fd f M E G N) as (l & Pl & -> & M1). cbn [mbind option_bind].
    set (w1 := set_tasks _ w) in *. destruct (dec_free_ok p [] f w1 M1 P) as (w2 & -> & M2 & _). cbn [mbind option_bind]. by apply mid_ret.
  - rewrite upd_file_alt by (by exists fl). cbn [mbind option_bind]. specialize (Hr i op eq_refl). set (g := fun fl => _).
    eapply mid_wait; [|exact E|].
    + unfold mid, iget. cbn [busy set_irefs set_tab irefs hold].
      eapply core_alt; [exact M|exact Ef|done| |simpl; lia|done|auto|].
      * intros q ph Eq. eapply filp_not_own; [exact M|exact E|by eapply elem_of_get|exact Eq].
      * intros j Hj. unfold icontrib, g. cbn [f_count f_inode]. rewrite C, I0. change (0 <? 1) with true. rewrite !andb_true_l.
        replace (0 =? j) with false by lia. destruct (Z.eqb_spec i j) as [-> |Nj]; [rewrite lookup_insert_eq; simpl; lia|]. rewrite lookup_insert_ne by done. simpl. lia.
    + split; [done|]. exists i. split; [done|]. split; [done|]. exists (g fl). simpl. by rewrite lookup_alter_eq, Ef.
Qed.

Lemma open_done_ok p error fd f w : inv w -> busy w !! p = Some (InFopen fd f) -> good (open_done p error w).
Proof.
  intros I Eb. destruct (fd_inv_take p _ w I Eb) as (M & tk & E & G & i & Ni & P). simpl in M. unfold open_done. rewrite Eb.
  pose proof P as (N & fl & Ef & C & I0). rewrite Ef. cbn [mbind option_bind].
  assert (forall q ph, delete p (busy w) !! q = Some ph -> f ∉ own ph) as O.
  { intros q ph Eq. eapply filp_not_own; [exact M|exact E|by eapply elem_of_get|exact Eq]. }
  destruct (negb (error =? 0)).
  - destruct (uninstall_ok p _ (not_busy p w) [] w tk fd f M E G N) as (l & Pl & _ & M1). cbv zeta.
    assert (iput (f_inode fl) w = set_irefs (irefs (iput (f_inode fl) w)) w) as Ei.
    { unfold iput. destruct (_ =? 0); [|done]. by rewrite set_irefs_id. }
    rewrite Ei. unfold dec_count. rewrite upd_file_alt by (simpl; by exists fl). cbn [mbind option_bind].
    unfold put_fd. cbn [tasks set_tab set_irefs]. rewrite E. cbn [mbind option_bind]. rewrite Pl. cbn [mbind option_bind].
    apply mid_ret. eapply (free_file_ok [] _ _ f fl (fun fl => set_count (u16 (f_count fl - 1)) fl) (irefs (iput (f_inode fl) w)) M1); try done.
    + simpl. by rewrite C.
    + intros j Hj. exact (iput_refs (f_inode fl) w j Hj).
  - rewrite upd_file_alt by (by exists fl). cbn [mbind option_bind]. apply mid_ret.
    apply core_fields; try done. by exists fl.
Qed.

(** ** Steps of a pipe *)

Lemma drop_both_ok p f0 f1 w :
  mid p [f0; f1] w -> private (tab w) f0 0 -> private (tab w) f1 0 -> f0 <> f1 ->
  exists w1 w2, dec_count f0 w = Some w1 /\ dec_count f1 w1 = Some w2 /\ mid p [] w2.
Proof.
  intros M P0 P1 N. destruct (dec_free_ok p [f1] f0 w M P0) as (w1 & E1 & M1 & _ & _ & O1).
  destruct (dec_free_ok p [] f1 w1 M1) as (w2 & E2 & M2 & _).
  { eapply private_same; [|exact P1]. by apply O1. }
  eauto 10.
Qed.

Lemma pipe_fds_ok p f0 f1 w tk :
  mid p [f0; f1] w -> private (tab w) f0 0 -> private (tab w) f1 0 -> f0 <> f1 -> tasks w !! p = Some tk ->
  good (pipe_fds p f0 f1 w).
Proof.
  intros M P0 P1 N E. unfold pipe_fds. rewrite E. cbn [mbind option_bind]. destruct (c_task _ _ _ M p tk E) as (A & B & C).
  pose proof (first_free_from (filp tk) 0 ltac:(lia)) as (R1 & R2 & R3). change (Z.to_nat 0) with 0%nat in *. rewrite drop_0 in *.
  cbv zeta. set (fd0 := first_free (filp tk) 0) in *. destruct (Z.leb_spec NR_OPEN fd0) as [H|H].
  { destruct (drop_both_ok p f0 f1 w M P0 P1 N) as (w1 & w2 & -> & E2 & M2). cbn [mbind option_bind]. rewrite E2. by apply mid_ret. }
  specialize (R2 ltac:(lia)).
  destruct (install_ok p _ (not_busy p w) [f1] w tk fd0 f0 M E R2) as (l & Pl & -> & M1). cbn [mbind option_bind].
  set (w1 := set_tasks _ w) in *. set (tk1 := set_filp l tk) in *. assert (tasks w1 !! p = Some tk1) as E1 by (simpl; apply lookup_insert_eq).
  pose proof (first_free_from (filp tk) (fd0 + 1) ltac:(lia)) as (Q1 & Q2 & Q3).
  set (fd1 := first_free _ (fd0 + 1)) in *. destruct (Z.leb_spec NR_OPEN fd1) as [H'|H'].
  - assert (get (filp tk1) fd0 = Some f0) as G0 by (simpl; rewrite (get_put _ _ _ _ _ Pl); by rewrite Z.eqb_refl).
    destruct (uninstall_ok p _ (not_busy p w1) [f1] w1 tk1 fd0 f0 M1 E1 G0 ltac:(apply P0)) as (l2 & Pl2 & -> & M2).
    cbn [mbind option_bind]. set (w2 := set_tasks _ w1) in *.
    destruct (drop_both_ok p f0 f1 w2 M2 P0 P1 N) as (w3 & w4 & -> & E4 & M4). cbn [mbind option_bind]. rewrite E4. by apply mid_ret.
  - specialize (Q2 ltac:(lia)).
    assert (get (filp tk1) fd1 = Some 0) as G1.
    { simpl. rewrite (get_put _ _ _ _ _ Pl). by replace (fd1 =? fd0) with false by lia. }
    destruct (install_ok p _ (not_busy p w1) [] w1 tk1 fd1 f1 M1 E1 G1) as (l2 & Pl2 & -> & M2). cbn [mbind option_bind].
    eapply mid_wait; [exact M2|simpl; apply lookup_insert_eq|]. simpl.
    rewrite !(get_put _ _ _ _ _ Pl2), (get_put _ _ _ _ _ Pl), !Z.eqb_refl. replace (fd0 =? fd1) with false by lia.
    split_and!; try done; lia.
Qed.

Lemma pipe_got1_ok p f0 g w tk :
  got_post p [f0] w (Some g) -> mid p [f0] w -> private (tab w) f0 0 -> tasks w !! p = Some tk -> good (pipe_got1 p f0 g w).
Proof.
  intros (g' & [= <-] & S) M P E. destruct g as [f1 t|t|t]; simpl.
  - destruct S as (M1 & P1 & N1 & O). eapply pipe_fds_ok; [by apply mid_swap| |done| |done].
    + eapply private_body; [|exact P]. apply O. left.
    + intros ->. apply N1. left.
  - rewrite S, set_tab_id. destruct (dec_free_ok p [] f0 w M P) as (w1 & -> & M1 & _). cbn [mbind option_bind]. by apply mid_ret.
  - rewrite S, set_tab_id. by eapply mid_wait.
Qed.

Lemma pipe_got0_ok p g w tk :
  got_post p [] w (Some g) -> mid p [] w -> tasks w !! p = Some tk -> good (pipe_got0 p g w).
Proof.
  intros (g' & [= <-] & S) M E. destruct g as [f0 t|t|t]; simpl.
  - destruct S as (M1 & P1 & N1 & O). pose proof (get_empty_filp_got p [f0] (set_tab t w) M1) as S1.
    pose proof S1 as (g & Eg & _). simpl in Eg. rewrite Eg. cbn [mbind option_bind]. eapply pipe_got1_ok; try done. by rewrite <- Eg.
  - rewrite S, set_tab_id. by apply mid_ret.
  - rewrite S, set_tab_id. by eapply mid_wait.
Qed.

Lemma sys_pipe_ok p verify w tk : mid p [] w -> tasks w !! p = Some tk -> good (sys_pipe p verify w).
Proof.
  intros M E. unfold sys_pipe. destruct (negb _); [by apply mid_ret|].
  pose proof (get_empty_filp_got p [] w M) as S. pose proof S as (g & Eg & _). rewrite Eg in *. cbn [mbind option_bind].
  by eapply pipe_got0_ok.
Qed.

Lemma pipe_page_ok p pg ph w :
  inv w -> busy w !! p = Some ph -> ph = InPipe0 \/ (exists f0, ph = InPipe1 f0) -> page_ok pg (tab w) -> good (pipe_page p pg w).
Proof.
  intros I Eb Hph Pg. destruct (fd_inv_take p _ w I Eb) as (M & tk & E & P). unfold pipe_page. rewrite Eb.
  pose proof (get_empty_filp_page_got p _ w pg M Pg) as S. pose proof S as (g & Eg & _).
  destruct Hph as [-> |[f0 ->]]; rewrite Eg in *; cbn [mbind option_bind]; [by eapply pipe_got0_ok|by eapply pipe_got1_ok].
Qed.

(** A file the running process alone knows gets its inode. *)
Lemma set_inode_ok p w f g i :
  mid p [] w -> private (tab w) f 0 -> (forall q ph, delete p (busy w) !! q = Some ph -> f ∉ own ph) ->
  keeps_links g -> (forall fl, f_count (g fl) = f_count fl /\ f_inode (g fl) = i) -> i <> 0 ->
  mid p [] (iget i (set_tab (alt f g (tab w)) w)).
Proof.
  intros M (N & fl & E & C & I0) O K G Ni. destruct (G fl) as [G1 G2]. unfold mid, iget. cbn [busy set_irefs set_tab irefs].
  eapply core_alt; [exact M|exact E|done|done|rewrite G1; lia|done|auto|].
  intros j Hj. unfold icontrib. rewrite G1, G2, C, I0. change (0 <? 1) with true. rewrite !andb_true_l.
  replace (0 =? j) with false by lia. destruct (Z.eqb_spec i j) as [-> |Nj]; [rewrite lookup_insert_eq; simpl; lia|].
  rewrite lookup_insert_ne by done. simpl. lia.
Qed.

Lemma pipe_inode_ok p i fd0 fd1 f0 f1 w : inv w -> busy w !! p = Some (InPipeIno fd0 fd1 f0 f1) -> good (pipe_inode p i w).
Proof.
  intros I Eb. destruct (fd_inv_take p _ w I Eb) as (M & tk & E & G0 & G1 & Nf & N & P0 & P1). simpl in M. unfold pipe_inode. rewrite Eb.
  destruct (Z.eqb_spec i 0) as [-> |Ni].
  - destruct (uninstall_ok p _ (not_busy p w) [] w tk fd0 f0 M E G0 ltac:(apply P0)) as (l & Pl & -> & M1). cbn [mbind option_bind].
    set (w1 := set_tasks _ w) in *. set (tk1 := set_filp l tk) in *. assert (tasks w1 !! p = Some tk1) as E1 by (simpl; apply lookup_insert_eq).
    assert (get (filp tk1) fd1 = Some f1) as G2 by (simpl; rewrite (get_put _ _ _ _ _ Pl); by replace (fd1 =? fd0) with false by lia).
    destruct (uninstall_ok p _ (not_busy p w1) [f0] w1 tk1 fd1 f1 M1 E1 G2 ltac:(apply P1)) as (l2 & Pl2 & -> & M2). cbn [mbind option_bind].
    set (w2 := set_tasks _ w1) in *. apply (mid_swap p f1 f0 w2) in M2.
    destruct (drop_both_ok p f0 f1 w2 M2 P0 P1 N) as (w3 & w4 & -> & E4 & M4). cbn [mbind option_bind]. rewrite E4. by apply mid_ret.
  - pose proof P0 as (N0 & fl0 & Ef0 & _). pose proof P1 as (N1 & fl1 & Ef1 & _).
    rewrite upd_file_alt by (by exists fl0). cbn [mbind option_bind]. set (g0 := fun fl => File 1 _ _ _ _ _ _ _ _ _).
    rewrite upd_file_alt by (apply live_alt; by exists fl1). cbn [mbind option_bind]. set (g1 := fun fl => File 2 _ _ _ _ _ _ _ _ _).
    assert (forall f, f ∈ filp tk -> forall q ph, delete p (busy w) !! q = Some ph -> f ∉ own ph) as O.
    { intros f Hf q ph Eq. eapply filp_not_own; [exact M|exact E|done|exact Eq]. }
    assert (mid p [] (iget i (set_tab (alt f0 g0 (tab w)) w))) as M1.
    { apply set_inode_ok; try done. apply O. by eapply elem_of_get. }
    set (w1 := iget i _) in *.
    assert (mid p [] (iget i (set_tab (alt f1 g1 (tab w1)) w1))) as M2.
    { apply set_inode_ok; try done.
      - eapply private_same; [|exact P1]. simpl. by rewrite lookup_alter_ne.
      - apply O. by eapply elem_of_get. }
    eexists _, _. split; [done|]. unfold inv. apply core_busy. exact M2.
Qed.

(** ** All calls *)

Inductive cmd :=
  | Close (fd : Z) | Dup (fd : Z) | Dup2 (oldfd newfd : Z) | Fcntl (fd cmd arg other : Z)
  | Open (flags : Z) | OpenPage (pg : Z) | Namei (r : Z + Z * Z) | OpenDone (error : Z)
  | Pipe (verify : Z) | PipePage (pg : Z) | PipeInode (i : Z)
  | Fork (child : Z) | Exec | Exit | Release.

Definition ret_z (x : option (world * Z)) : option (world * outcome) := '(w, r) ← x; Some (w, Ret r).
Definition ret_w (x : option world) : option (world * outcome) := w ← x; Some (w, Ret 0).

(** [Release]: the process that called [exit] is gone. *)
Definition run (p : Z) (x : cmd) (w : world) : option (world * outcome) :=
  match x with
  | Close fd => ret_z (sys_close p fd w)
  | Dup fd => ret_z (sys_dup p fd w)
  | Dup2 o n => ret_z (sys_dup2 p o n w)
  | Fcntl fd c a o => ret_z (sys_fcntl p fd c a o w)
  | Open flags => do_open p flags w
  | OpenPage pg => do_open_page p pg w
  | Namei r => open_namei p r w
  | OpenDone e => open_done p e w
  | Pipe v => sys_pipe p v w
  | PipePage pg => pipe_page p pg w
  | PipeInode i => pipe_inode p i w
  | Fork c => ret_w (fork_files p c w)
  | Exec => ret_w (exec_files p w)
  | Exit => ret_w (exit_files p w)
  | Release => ret_w (Some (set_tasks (delete p (tasks w)) w))
  end.

(** A call needs a process that is not in another; an answer comes to the call that
    waits for it.  Descriptors are [unsigned].  A page that [get_free_page] gives
    holds no file. *)
Definition guard (p : Z) (x : cmd) (w : world) : Prop :=
  match x with
  | OpenPage pg => (exists fd flags, busy w !! p = Some (InOpen fd flags)) /\ page_ok pg (tab w)
  | Namei r => (exists fd f, busy w !! p = Some (InNamei fd f)) /\ (forall i op, r = inr (i, op) -> i <> 0)
  | OpenDone _ => exists fd f, busy w !! p = Some (InFopen fd f)
  | PipePage pg => (exists ph, busy w !! p = Some ph /\ (ph = InPipe0 \/ exists f0, ph = InPipe1 f0)) /\ page_ok pg (tab w)
  | PipeInode _ => exists fd0 fd1 f0 f1, busy w !! p = Some (InPipeIno fd0 fd1 f0 f1)
  | _ => busy w !! p = None /\ is_Some (tasks w !! p) /\
      match x with
      | Close fd | Dup fd => 0 <= fd
      | Dup2 o n => 0 <= o /\ 0 <= n
      | Fcntl fd _ a _ => 0 <= fd /\ 0 <= a
      | Fork c => tasks w !! c = None /\ Z.of_nat (size (tasks w)) < MAX_TASKS
      | Release => forall tk f, tasks w !! p = Some tk -> f ∈ filp tk -> f = 0
      | _ => True
      end
  end.

Definition no_files : list Z := replicate (Z.to_nat NR_OPEN) 0.

(** No file exists yet, and one process runs. *)
Definition init (p : Z) : world :=
  World (Table 0 0 ∅) (<[p := Task no_files (replicate (Z.to_nat NR_OPEN) false)]> ∅) ∅ ∅.

Inductive reach : world -> Prop :=
  | reach_init p : reach (init p)
  | reach_step p x w w' o : reach w -> guard p x w -> run p x w = Some (w', o) -> reach w'.

Lemma init_inv p : inv (init p).
Proof.
  unfold inv. split; simpl.
  - exists []. split; [|done]. split; [|split; [|done]].
    + split; try done; [apply NoDup_nil_2|set_solver|]. intros q Hq. by apply not_elem_of_nil in Hq.
    + intros q [fl E]. done.
  - intros q tk. rewrite lookup_insert_Some, lookup_empty. intros [[_ <-]|[_ ?]]; [|done].
    split_and!; [by vm_compute|by vm_compute|]. intros f Hf N. by apply elem_of_replicate in Hf as [-> _].
  - intros f Hf. by apply not_elem_of_nil in Hf.
  - intros f [fl E]. done.
  - done.
  - done.
  - rewrite map_size_insert_None by done. rewrite map_size_empty. done.
Qed.

Lemma mid_inv p w : mid p [] w -> busy w !! p = None -> inv w.
Proof. intros M E. unfold mid in M. by rewrite delete_id in M. Qed.

Lemma fd_run_ok p x w : inv w -> guard p x w -> good (run p x w).
Proof.
  intros I G. destruct x; simpl in G.
  all: try (destruct G as (Nb & [tk E] & G); pose proof (fd_inv_out p w I Nb) as M).
  - destruct (sys_close_ok p [] fd w tk M E G ltac:(simpl; lia)) as (w' & r & tk' & Er & M' & V & _). simpl. rewrite Er.
    eexists _, _. split; [done|]. eapply mid_inv; [done|]. by rewrite (moved_busy _ _ _ _ V).
  - destruct (dupfd_ok p fd 0 w tk M E G ltac:(lia)) as (w' & r & tk' & Er & M' & V & _). simpl. unfold sys_dup. rewrite Er.
    eexists _, _. split; [done|]. eapply mid_inv; [done|]. by rewrite (moved_busy _ _ _ _ V).
  - destruct G as [G1 G2]. destruct (sys_dup2_ok p oldfd newfd w tk M E G1 G2) as (w' & r & tk' & Er & M' & V & _). simpl. rewrite Er.
    eexists _, _. split; [done|]. eapply mid_inv; [done|]. by rewrite (moved_busy _ _ _ _ V).
  - destruct G as [G1 G2]. destruct (sys_fcntl_ok p fd cmd0 arg other w tk M E Nb G1 G2) as (w' & r & Er & M' & _ & Nb'). simpl. rewrite Er.
    eexists _, _. split; [done|]. by eapply mid_inv.
  - by eapply do_open_ok.
  - destruct G as ((fd & flags & E) & Pg). by eapply do_open_page_ok.
  - destruct G as ((fd & f & E) & Hr). by eapply open_namei_ok.
  - destruct G as (fd & f & E). by eapply open_done_ok.
  - by eapply sys_pipe_ok.
  - destruct G as ((ph & E & Hph) & Pg). by eapply pipe_page_ok.
  - destruct G as (fd0 & fd1 & f0 & f1 & E). by eapply pipe_inode_ok.
  - destruct G as [G1 G2]. destruct (fork_files_ok p child w tk M E Nb G1 G2) as (w' & Er & I' & _). simpl. rewrite Er. by eexists _, _.
  - destruct (exec_files_ok p w tk M E Nb) as (w' & tk' & Er & M' & V & _). simpl. rewrite Er.
    eexists _, _. split; [done|]. eapply mid_inv; [done|]. by rewrite (moved_busy _ _ _ _ V).
  - destruct (close_all_ok (Z.to_nat NR_OPEN) p 0 w tk M E Nb ltac:(done) ltac:(done) ltac:(lia)) as (w' & tk' & Er & M' & V & _).
    simpl. unfold exit_files. rewrite Er. eexists _, _. split; [done|]. eapply mid_inv; [done|]. by rewrite (moved_busy _ _ _ _ V).
  - simpl. eexists _, _. split; [done|]. unfold inv. cbn [busy set_tasks]. specialize (G tk).
    assert (forall f, f <> 0 -> occ f (filp tk) = 0) as O.
    { intros f Nf. assert (forall l, (forall x, x ∈ l -> x = 0) -> occ f l = 0) as Oz; [|by apply Oz; auto].
      induction l as [|x l IH]; [done|]. intros H. rewrite occ_cons, IH by set_solver. rewrite (H x) by left.
      by replace (0 =? f) with false by lia. }
    destruct I. split; simpl; try done.
    + intros q tk' [_ H]%lookup_delete_Some. by eapply c_task0.
    + intros f L. rewrite c_count0 by done. unfold trefs. simpl. rewrite (msum_delete _ _ _ _ E), O; [lia|].
      intros ->. destruct c_ring0 as (l & (R & Dom & _) & _). by apply (r_zero _ _ R), Dom.
    + intros q ph Eq. destruct (c_busy0 q ph Eq) as (tk' & Et & P). exists tk'. split; [|done].
      rewrite lookup_delete_ne; [done|]. by intros ->; simplify_eq.
    + rewrite map_size_delete, E. simpl. lia.
Qed.

Lemma fd_reach_inv w : reach w -> inv w.
Proof.
  induction 1 as [p|p x w w' o R I G E]; [apply init_inv|]. destruct (fd_run_ok p x w I G) as (w1 & o1 & E1 & I'). by simplify_eq.
Qed.

(** ** Theorems *)

(** C21: Whatever sequence of open, close, dup, dup2, fcntl, pipe, fork, closing on
    exec and exit the processes perform, with any interleaving where they sleep, no
    call follows a pointer to something that is no file or indexes outside an array.
    Of [exec] this is the loop of [flush_old_exec] that closes descriptors; the
    descriptor that a loader opens with [open_inode] is not a step of this system,
    and can be out of range ([open_inode_overruns]). *)
Theorem fd_safe w p x : reach w -> guard p x w -> exists w' o, run p x w = Some (w', o).
Proof. intros R G. destruct (fd_run_ok p x w (fd_reach_inv w R) G) as (w' & o & E & _). eauto. Qed.

(** C22: in all these states the count of a file is the number of descriptors that refer
    to it, over all processes, and of calls in progress that hold it; so a file
    some descriptor refers to is never taken for a free one. *)
Theorem fd_counts w f : reach w ->
  (live (tab w) f -> count (tab w) f = trefs f w + brefs f (busy w)) /\
  (forall p tk, tasks w !! p = Some tk -> f ∈ filp tk -> f <> 0 -> live (tab w) f /\ 1 <= count (tab w) f).
Proof.
  intros R. pose proof (fd_reach_inv w R) as I.
  assert (live (tab w) f -> count (tab w) f = trefs f w + brefs f (busy w)) as C.
  { intros L. rewrite (c_count _ _ _ I f L). change (occ f []) with 0. lia. }
  split; [done|]. intros p tk E Hf N. pose proof (filp_live _ _ _ _ _ _ I E Hf N) as L. split; [done|].
  rewrite C by done. pose proof (trefs_ge f w p tk E). pose proof (occ_in _ _ Hf). pose proof (brefs_nonneg f (busy w)). lia.
Qed.

(** C33: the file table holds exactly one reference to the inode of each file in use: when
    the last descriptors are closed and no call is in progress, every reference
    that an open took has been given back, none twice. *)
Theorem inode_refs_exact w i : reach w -> i <> 0 ->
  default 0 (irefs w !! i) = icnt i (tab w) /\
  ((forall p tk f, tasks w !! p = Some tk -> f ∈ filp tk -> f = 0) -> busy w = ∅ -> default 0 (irefs w !! i) = 0).
Proof.
  intros R N. pose proof (fd_reach_inv w R) as I. pose proof (c_irefs _ _ _ I i N) as E. split; [done|].
  intros Hz Hb. rewrite E. apply msum_zero. intros f fl Ef. unfold icontrib.
  assert (live (tab w) f) as L by (by exists fl). pose proof (c_count _ _ _ I f L) as C. unfold count in C. rewrite Ef, Hb in C.
  assert (trefs f w = 0) as T.
  { apply msum_zero. intros p tk Et. assert (forall l, (forall x, x ∈ l -> x = 0) -> occ f l = 0) as Oz; [|apply Oz; eauto].
    assert (f <> 0) as N0.
    { intros ->. destruct (c_ring _ _ _ I) as (l & (Rg & Dom & _) & _). by apply (r_zero _ _ Rg), Dom. }
    induction l as [|x l IH]; [done|]. intros H. rewrite occ_cons, IH by set_solver. rewrite (H x) by left.
    by replace (0 =? f) with false by lia. }
  rewrite T in C. change (brefs f ∅) with 0 in C. change (occ f []) with 0 in C.
  replace (0 <? f_count fl) with false by lia. done.
Qed.

(** [dup2] fails and changes no descriptor, or afterwards [newfd] refers to the file of
    [oldfd], all other descriptors are as before, and it returns [newfd]. *)
Theorem dup2_spec w p tk oldfd newfd :
  reach w -> tasks w !! p = Some tk -> busy w !! p = None -> 0 <= oldfd -> 0 <= newfd ->
  exists w' r tk', run p (Dup2 oldfd newfd) w = Some (w', Ret r) /\ tasks w' = <[p := tk']> (tasks w) /\
    dup2_post tk oldfd newfd r tk'.
Proof.
  intros R E Nb H1 H2. pose proof (fd_inv_out p w (fd_reach_inv w R) Nb) as M.
  destruct (sys_dup2_ok p oldfd newfd w tk M E H1 H2) as (w' & r & tk' & Er & _ & [V _] & Post).
  exists w', r, tk'. simpl. by rewrite Er.
Qed.

(** [copy_fd] breaks the ring of files: it copies the whole structure over the new
    file, the pointers of the ring included, so that afterwards the files are in
    no ring at all. *)
Theorem copy_fd_breaks_ring w w' new old l :
  ring_of (tab w) l -> new ∈ l -> old ∈ l -> new <> old -> copy_fd new old w = Some w' ->
  forall l', ~ ring_of (tab w') l'.
Proof.
  intros (R & Dom & _) Hn Ho N E l' (R' & Dom' & _). unfold copy_fd in E.
  destruct (r_live _ _ R old Ho) as [fl Ef]. rewrite Ef in E. cbn [mbind option_bind] in E.
  rewrite upd_file_alt in E by (by apply (r_live _ _ R)). cbn [mbind option_bind] in E.
  assert (tab w' = alt new (fun _ => set_count 1 fl) (tab w)) as Et by (destruct (f_inode fl =? 0); simplify_eq; done).
  pose proof (r_live _ _ R new Hn) as Ln. rewrite Et in *. set (g := fun _ => _) in *.
  assert (nx (alt new g (tab w)) new = nx (alt new g (tab w)) old) as En.
  { rewrite !nx_alt by done. rewrite Z.eqb_refl. replace (old =? new) with false by lia. simpl. unfold nx. by rewrite Ef. }
  assert (new ∈ l' /\ old ∈ l') as [Hn' Ho'] by (split; apply Dom', live_alt; [done|by exists fl]).
  destruct (ring_around _ _ _ _ Hn' (r_ring _ _ R')) as (_ & _ & _ & A).
  destruct (ring_around _ _ _ _ Ho' (r_ring _ _ R')) as (_ & _ & _ & B). congruence.
Qed.

(** [open_inode] reads behind the end of the array of descriptors when none is free:
    its test for the end comes one step too late. *)
Theorem open_inode_overruns l :
  Z.of_nat (length l) = NR_OPEN -> (forall f, f ∈ l -> f <> 0) -> open_inode_fd l 0 = None.
Proof.
  intros Hl Hz. assert (forall l fd, fd + Z.of_nat (length l) = NR_OPEN -> (forall f, f ∈ l -> f <> 0) -> open_inode_fd l fd = None) as G.
  { clear. induction l as [|x l IH]; intros fd Hl Hz; [done|]. simpl in *. pose proof (Hz x ltac:(left)).
    replace (x =? 0) with false by lia. replace (NR_OPEN <? fd + 1) with false by lia. apply IH; [lia|set_solver]. }
  by apply G.
Qed.

(** ** Examples *)

(** Process 1 opens a file with inode 7. *)
Definition after (p : Z) (x : cmd) (w : world) : world := match run p x w with Some (w', _) => w' | None => w end.
Definition ex1 : world := after 1 (Open 0) (init 1).
Definition ex2 : world := after 1 (OpenPage 4096) ex1.
Definition ex3 : world := after 1 (Namei (inr (7, 1))) ex2.
Definition ex4 : world := after 1 (OpenDone 0) ex3.

Lemma reach_after p x w : reach w -> guard p x w -> reach (after p x w).
Proof.
  intros R G. unfold after. destruct (run p x w) as [[w' o]|] eqn:E; [|done]. by eapply reach_step.
Qed.

Lemma fd_ex4_reach : reach ex4.
Proof.
  assert (reach ex1) as R1.
  { apply reach_after; [apply reach_init|]. simpl. split; [done|]. split; [|done]. rewrite lookup_insert_eq. eauto. }
  assert (reach ex2) as R2.
  { apply reach_after; [done|]. split; [exists 0, 0; vm_compute; reflexivity|]. right. split; [lia|]. intros f Hf [fl E].
    vm_compute in E. done. }
  assert (reach ex3) as R3.
  { apply reach_after; [done|]. split; [exists 0; eexists; vm_compute; reflexivity|]. intros i op [= <- <-]. lia. }
  apply reach_after; [done|]. exists 0. eexists. vm_compute. reflexivity.
Qed.

Lemma fd_safe_witness : exists w' o, run 1 (Close 0) ex4 = Some (w', o).
Proof. apply (fd_safe ex4 1 (Close 0)); [apply fd_ex4_reach|]. simpl. split_and!; [vm_compute; reflexivity|vm_compute; eauto|lia]. Defined.

Lemma fd_counts_witness :
  let f := 8160 in
  (live (tab ex4) f -> count (tab ex4) f = trefs f ex4 + brefs f (busy ex4)) /\
  (forall p tk, tasks ex4 !! p = Some tk -> f ∈ filp tk -> f <> 0 -> live (tab ex4) f /\ 1 <= count (tab ex4) f).
Proof. apply (fd_counts ex4 8160 fd_ex4_reach). Defined.

Lemma inode_refs_exact_witness : default 0 (irefs ex4 !! 7) = icnt 7 (tab ex4).
Proof. apply (inode_refs_exact ex4 7 fd_ex4_reach). lia. Defined.

Lemma dup2_spec_witness :
  exists tk w' r tk', tasks ex4 !! 1 = Some tk /\ run 1 (Dup2 0 5) ex4 = Some (w', Ret r) /\ tasks w' = <[1 := tk']> (tasks ex4) /\ dup2_post tk 0 5 r tk'.
Proof.
  destruct (tasks ex4 !! 1) as [tk|] eqn:E; [|vm_compute in E; discriminate].
  destruct (dup2_spec ex4 1 tk 0 5 fd_ex4_reach E ltac:(vm_compute; reflexivity) ltac:(lia) ltac:(lia)) as (w' & r & tk' & H). eauto 10.
Defined.

Lemma copy_fd_breaks_ring_witness : exists w', copy_fd 8128 8160 ex4 = Some w' /\ forall l', ~ ring_of (tab w') l'.
Proof.
  destruct (copy_fd 8128 8160 ex4) as [w'|] eqn:E; [|vm_compute in E; discriminate]. exists w'. split; [done|].
  destruct (c_ring _ _ _ (fd_reach_inv _ fd_ex4_reach)) as (l & R & _).
  apply (copy_fd_breaks_ring ex4 w' 8128 8160 l R); [apply R; vm_compute; eauto|apply R; vm_compute; eauto|lia|done].
Defined.

Lemma open_inode_overruns_witness : open_inode_fd (replicate 256 1) 0 = None.
Proof. apply (open_inode_overruns (replicate 256 1)); [vm_compute; reflexivity|]. intros f [-> _]%elem_of_replicate. lia. Defined.

(** The witnesses of the theorems on the table. *)
Lemma get_empty_filp_refines_witness : exists l, ring_of (tab ex4) l /\ FileTable.scan_post (tab ex4) l (get_empty_filp (tab ex4)).
Proof.
  destruct (c_ring _ _ _ (fd_reach_inv _ fd_ex4_reach)) as (l & R & Hl). exists l. split; [done|].
  exact (get_empty_filp_refines (tab ex4) l R Hl).
Defined.

Lemma get_empty_filp_spins_witness : get_empty_filp_page 0 (tab (init 1)) = Some (NeedPage (tab (init 1))).
Proof.
  assert (ring_of (tab (init 1)) []) as R.
  { split; [|split; [|done]].
    - split; try done; [apply NoDup_nil_2|set_solver|]. intros q Hq. by apply not_elem_of_nil in Hq.
    - intros q [fl E]. done. }
  apply (get_empty_filp_spins (tab (init 1)) [] R); [done|done|by apply list.Forall_nil].
Defined.

End FdOpen.
