(* ===== verification/Signal.v ===== *)
(** * Signal delivery ([src/kernel/signal.c])

    The signal masks and actions of a process ([sigprocmask], [sgetmask],
    [ssetmask], [sigpending], [signal], [sigaction], [sigsuspend]) and the delivery
    of signals on the way back to user mode: [do_signal], [setup_frame] and
    [sigreturn], on the saved registers and on user memory byte by byte.

    The state is the current process.  At a call of [schedule] other processes run:
    what they do is the next function of a list [wakes]; when there is none the
    process does not wake up ([Asleep]). *)

From S2P Require Import Prelude Sched.
From Stdlib Require Import ZArith Lia.
From stdpp Require Import base list gmap sets.
Local Open Scope Z_scope.

Module Signal.
Import Sched.

Definition SIGQUIT : Z := 3.
Definition SIGILL : Z := 4.
Definition SIGTRAP : Z := 5.
Definition SIGIOT : Z := 6.
Definition SIGFPE : Z := 8.
Definition SIGSEGV : Z := 11.

Definition SA_RESTART : Z := 0x10000000.
Definition SA_NOMASK : Z := 0x40000000.
Definition SA_ONESHOT : Z := 0x80000000.

Definition SIG_BLOCK : Z := 0.
Definition SIG_UNBLOCK : Z := 1.
Definition SIG_SETMASK : Z := 2.

Definition USER_CS : Z := 0x23.
Definition USER_DS : Z := 0x2B.
Definition TASK_SIZE : Z := 0xc0000000.
Definition NR_sigreturn : Z := 119.
Definition ERESTARTNOINTR : Z := 513.

(** [_BLOCKABLE]; [_S(nr)] is [Sched.sigmask]. *)
Definition BLOCKABLE : Z := u32 (Z.lnot (Z.lor (sigmask SIGKILL) (sigmask SIGSTOP))).

(** ** State *)

Record sigaction := Sigaction { sa_handler : Z; sa_mask : Z; sa_flags : Z; sa_restorer : Z }.

(** [struct pt_regs]; the general registers as unsigned words. *)
Record pt_regs := PtRegs {
  ebx : Z; ecx : Z; edx : Z; esi : Z; edi : Z; ebp : Z; eax : Z;
  ds : Z; es : Z; fs : Z; gs : Z;
  orig_eax : Z; eip : Z; cs : Z; eflags : Z; esp : Z; ss : Z
}.

(** The fields of [struct task_struct] that signals use. *)
Record proc := Proc {
  p_state : Z;
  p_signal : Z;
  p_blocked : Z;
  p_flags : Z;
  p_exit_code : Z;
  p_pid : Z;
  actions : list sigaction;
  trap_no : Z;
  error_code : Z;
  cr2 : Z;
  nocldstop : bool           (* the parent's action for SIGCHLD has SA_NOCLDSTOP *)
}.

(** What the process does to its relatives. *)
Inductive event :=
  | Notify (code : Z)        (* [notify_parent] with this exit code *)
  | Reap.                    (* the [sys_waitpid] loop for an ignored SIGCHLD *)

(** Memory that is not in [mem] holds zero. *)
Record world := World { cur : proc; regs : pt_regs; mem : gmap Z Z; log : list event }.

Definition on_cur (f : proc -> proc) (w : world) : world := World (f (cur w)) (regs w) (mem w) (log w).
Definition set_regs (r : pt_regs) (w : world) : world := World (cur w) r (mem w) (log w).
Definition set_mem (m : gmap Z Z) (w : world) : world := World (cur w) (regs w) m (log w).
Definition tell (e : event) (w : world) : world := World (cur w) (regs w) (mem w) (log w ++ [e]).

Definition with_state (x : Z) (p : proc) : proc :=
  Proc x (p_signal p) (p_blocked p) (p_flags p) (p_exit_code p) (p_pid p) (actions p)
    (trap_no p) (error_code p) (cr2 p) (nocldstop p).
Definition with_signal (x : Z) (p : proc) : proc :=
  Proc (p_state p) x (p_blocked p) (p_flags p) (p_exit_code p) (p_pid p) (actions p)
    (trap_no p) (error_code p) (cr2 p) (nocldstop p).
Definition with_blocked (x : Z) (p : proc) : proc :=
  Proc (p_state p) (p_signal p) x (p_flags p) (p_exit_code p) (p_pid p) (actions p)
    (trap_no p) (error_code p) (cr2 p) (nocldstop p).
Definition with_exit_code (x : Z) (p : proc) : proc :=
  Proc (p_state p) (p_signal p) (p_blocked p) (p_flags p) x (p_pid p) (actions p)
    (trap_no p) (error_code p) (cr2 p) (nocldstop p).
Definition with_actions (x : list sigaction) (p : proc) : proc :=
  Proc (p_state p) (p_signal p) (p_blocked p) (p_flags p) (p_exit_code p) (p_pid p) x
    (trap_no p) (error_code p) (cr2 p) (nocldstop p).
Definition with_trap (t e : Z) (p : proc) : proc :=
  Proc (p_state p) (p_signal p) (p_blocked p) (p_flags p) (p_exit_code p) (p_pid p) (actions p)
    t e (cr2 p) (nocldstop p).

Definition with_eax (x : Z) (r : pt_regs) : pt_regs :=
  PtRegs (ebx r) (ecx r) (edx r) (esi r) (edi r) (ebp r) x (ds r) (es r) (fs r) (gs r)
    (orig_eax r) (eip r) (cs r) (eflags r) (esp r) (ss r).
Definition with_eip (x : Z) (r : pt_regs) : pt_regs :=
  PtRegs (ebx r) (ecx r) (edx r) (esi r) (edi r) (ebp r) (eax r) (ds r) (es r) (fs r) (gs r)
    (orig_eax r) x (cs r) (eflags r) (esp r) (ss r).
Definition with_esp (x : Z) (r : pt_regs) : pt_regs :=
  PtRegs (ebx r) (ecx r) (edx r) (esi r) (edi r) (ebp r) (eax r) (ds r) (es r) (fs r) (gs r)
    (orig_eax r) (eip r) (cs r) (eflags r) x (ss r).
Definition with_segs (c d : Z) (r : pt_regs) : pt_regs :=
  PtRegs (ebx r) (ecx r) (edx r) (esi r) (edi r) (ebp r) (eax r) d d d d
    (orig_eax r) (eip r) c (eflags r) (esp r) d.

Definition set_signal (x : Z) : world -> world := on_cur (with_signal x).
Definition set_blocked (x : Z) : world -> world := on_cur (with_blocked x).
Definition set_exit_code (x : Z) : world -> world := on_cur (with_exit_code x).
Definition set_state (x : Z) : world -> world := on_cur (with_state x).
Definition set_actions (x : list sigaction) : world -> world := on_cur (with_actions x).

(** ** User memory *)

Definition get_fs_byte (a : Z) (m : gmap Z Z) : Z := u8 (default 0 (m !! a)).
Definition put_fs_byte (v a : Z) (m : gmap Z Z) : gmap Z Z := <[a := u8 v]> m.

Definition get_fs_long (a : Z) (m : gmap Z Z) : Z :=
  get_fs_byte a m + 2 ^ 8 * get_fs_byte (a + 1) m + 2 ^ 16 * get_fs_byte (a + 2) m
    + 2 ^ 24 * get_fs_byte (a + 3) m.

Definition put_fs_long (v a : Z) (m : gmap Z Z) : gmap Z Z :=
  put_fs_byte (Z.shiftr v 24) (a + 3) (put_fs_byte (Z.shiftr v 16) (a + 2)
    (put_fs_byte (Z.shiftr v 8) (a + 1) (put_fs_byte v a m))).

(** Whether the hardware checks write protection in supervisor mode, and the
    answer of [__verify_write], which walks the page tables. *)
Section Memory.
Context (wp_works_ok : bool) (verify_write : Z -> Z -> Z).

Definition verify_area (write : bool) (addr size : Z) : Z :=
  if TASK_SIZE <=? addr then - EFAULT
  else if TASK_SIZE - addr <? size then - EFAULT
  else if wp_works_ok || negb write || (size =? 0) then 0
  else verify_write addr size.

(** ** Masks *)

(** A null pointer is the address 0. *)
Definition sys_sigprocmask (how set oset : Z) (w : world) : Z * world :=
  let old_set := p_blocked (cur w) in
  let fin w :=
    if negb (oset =? 0) then
      let error := verify_area true oset 4 in
      if negb (error =? 0) then (error, w)
      else (0, set_mem (put_fs_long old_set oset (mem w)) w)
    else (0, w) in
  if negb (set =? 0) then
    let error := verify_area false set 4 in
    if negb (error =? 0) then (error, w)
    else
      let new_set := Z.land (get_fs_long set (mem w)) BLOCKABLE in
      if how =? SIG_BLOCK then fin (set_blocked (Z.lor (p_blocked (cur w)) new_set) w)
      else if how =? SIG_UNBLOCK then fin (set_blocked (Z.land (p_blocked (cur w)) (u32 (Z.lnot new_set))) w)
      else if how =? SIG_SETMASK then fin (set_blocked new_set w)
      else (- EINVAL, w)
  else fin w.

Definition sys_sgetmask (w : world) : Z := s32 (p_blocked (cur w)).

Definition sys_ssetmask (newmask : Z) (w : world) : Z * world :=
  (s32 (p_blocked (cur w)), set_blocked (Z.land (u32 newmask) BLOCKABLE) w).

Definition sys_sigpending (set : Z) (w : world) : Z * world :=
  let error := verify_area true set 4 in
  if error =? 0 then (error, set_mem (put_fs_long (Z.land (p_blocked (cur w)) (p_signal (cur w))) set (mem w)) w)
  else (error, w).

(** ** Actions *)

Definition check_pending (signum : Z) (w : world) : option world :=
  p ← get (actions (cur w)) (signum - 1);
  let discard := set_signal (Z.land (p_signal (cur w)) (u32 (Z.lnot (sigmask signum)))) w in
  if sa_handler p =? SIG_IGN then
    if signum =? SIGCHLD then Some w else Some discard
  else if sa_handler p =? SIG_DFL then
    if negb (signum =? SIGCONT) && negb (signum =? SIGCHLD) && negb (signum =? SIGWINCH) then Some w
    else Some discard
  else Some w.

Definition no_action (signum : Z) : bool :=
  (signum <? 1) || (32 <? signum) || (signum =? SIGKILL) || (signum =? SIGSTOP).

Definition sys_signal (signum handler : Z) (w : world) : option (Z * world) :=
  if no_action signum then Some (- EINVAL, w)
  else if TASK_SIZE <=? handler then Some (- EFAULT, w)
  else
    let tmp := Sigaction handler 0 (Z.lor SA_ONESHOT SA_NOMASK) 0 in
    old ← get (actions (cur w)) (signum - 1);
    acts ← put (actions (cur w)) (signum - 1) tmp;
    w ← check_pending signum (set_actions acts w);
    Some (s32 (sa_handler old), w).

(** [memcpy_fromfs] and [memcpy_tofs] of a [struct sigaction]. *)
Definition read_action (a : Z) (m : gmap Z Z) : sigaction :=
  Sigaction (get_fs_long a m) (get_fs_long (a + 4) m) (get_fs_long (a + 8) m) (get_fs_long (a + 12) m).

Definition write_action (sa : sigaction) (a : Z) (m : gmap Z Z) : gmap Z Z :=
  put_fs_long (sa_restorer sa) (a + 12) (put_fs_long (sa_flags sa) (a + 8)
    (put_fs_long (sa_mask sa) (a + 4) (put_fs_long (sa_handler sa) a m))).

(** The mask that is stored for a new action. *)
Definition new_action (signum : Z) (sa : sigaction) : sigaction :=
  Sigaction (sa_handler sa)
    (if has (sa_flags sa) SA_NOMASK then 0
     else Z.land (Z.lor (sa_mask sa) (sigmask signum)) BLOCKABLE)
    (sa_flags sa) (sa_restorer sa).

Definition sys_sigaction (signum action oldaction : Z) (w : world) : option (Z * world) :=
  if no_action signum then Some (- EINVAL, w)
  else
    p ← get (actions (cur w)) (signum - 1);
    let new_sa := new_action signum (read_action action (mem w)) in
    let store w :=
      if negb (action =? 0) then
        acts ← put (actions (cur w)) (signum - 1) new_sa;
        w ← check_pending signum (set_actions acts w);
        Some (0, w)
      else Some (0, w) in
    let copy_old w :=
      if negb (oldaction =? 0) then
        let err := verify_area true oldaction 16 in
        if negb (err =? 0) then Some (err, w)
        else store (set_mem (write_action p oldaction (mem w)) w)
      else store w in
    if negb (action =? 0) then
      let err := verify_area false action 16 in
      if negb (err =? 0) then Some (err, w)
      else if TASK_SIZE <=? sa_handler new_sa then Some (- EFAULT, w)
      else copy_old w
    else copy_old w.

(** ** Delivery *)

(** How a path through this code ends: it returns a value to its caller, the
    process exits, or it sleeps in [schedule] and is not woken. *)
Inductive outcome :=
  | Returned (r : Z) (w : world) (wakes : list (world -> world))
  | Exited (code : Z) (w : world)
  | Asleep (w : world).

(** The word at offset [4 * i] of the signal frame [frame]. *)
Definition word (frame i : Z) : Z := u32 (frame + 4 * i).

(** The words of the frame and then the return code, in the order of the code. *)
Definition frame_words (frame fp eip signr oldmask : Z) (r : pt_regs) (p : proc) : list (Z * Z) :=
  let code := word frame 24 in
  [(code, word frame 0); (signr, word frame 1);
   (gs r, word frame 2); (fs r, word frame 3); (es r, word frame 4); (ds r, word frame 5);
   (edi r, word frame 6); (esi r, word frame 7); (ebp r, word frame 8); (fp, word frame 9);
   (ebx r, word frame 10); (edx r, word frame 11); (ecx r, word frame 12); (eax r, word frame 13);
   (trap_no p, word frame 14); (error_code p, word frame 15); (eip, word frame 16);
   (cs r, word frame 17); (eflags r, word frame 18); (esp r, word frame 19); (ss r, word frame 20);
   (0, word frame 21); (oldmask, word frame 22); (cr2 p, word frame 23);
   (0x0000b858, u32 (0 + code)); (0x80cd0000, u32 (4 + code)); (NR_sigreturn, u32 (2 + code))].

Definition put_words (l : list (Z * Z)) (m : gmap Z Z) : gmap Z Z :=
  foldl (fun m '(v, a) => put_fs_long v a m) m l.

(** [inl]: the new frame pointer and memory; [inr]: [do_exit]. *)
Definition setup_frame (sa : sigaction) (fp eip signr oldmask : Z) (w : world) : Z * world + Z :=
  let frame := if negb (ss (regs w) =? USER_DS) then sa_restorer sa else fp in
  let frame := u32 (frame - 128) in
  if negb (verify_area true frame 128 =? 0) then inr SIGSEGV
  else inl (frame, set_mem (put_words (frame_words frame fp eip signr oldmask (regs w) (cur w)) (mem w)) w).

(** [bsf]: the number of the lowest bit that is set. *)
Definition bsf (x : Z) : Z := Z.log2 (Z.land x (- x)).

(** The stop of a traced process: [Some signr] is the signal to go on with. *)
Inductive stop :=
  | Go (signr : Z) (w : world) (wakes : list (world -> world))
  | Skip (w : world) (wakes : list (world -> world))
  | Sleep (w : world).

Definition traced (signr : Z) (w : world) (wakes : list (world -> world)) : option stop :=
  if has (p_flags (cur w)) PF_PTRACED && negb (signr =? SIGKILL) then
    let w := tell (Notify signr) (set_state TASK_STOPPED (set_exit_code signr w)) in
    match wakes with
    | [] => Some (Sleep w)
    | e :: wakes =>
        let w := e w in
        let signr := p_exit_code (cur w) in
        if signr =? 0 then Some (Skip w wakes)
        else
          let w := set_exit_code 0 w in
          if signr =? SIGSTOP then Some (Skip w wakes)
          else if (signr <? 1) || (32 <? signr) then None
          else if has (sigmask signr) (p_blocked (cur w)) then
            Some (Skip (set_signal (Z.lor (p_signal (cur w)) (sigmask signr)) w) wakes)
          else Some (Go signr w wakes)
    end
  else Some (Go signr w wakes).

Definition is_stop (signr : Z) : bool :=
  (signr =? SIGSTOP) || (signr =? SIGTSTP) || (signr =? SIGTTIN) || (signr =? SIGTTOU).
Definition is_core (signr : Z) : bool :=
  (signr =? SIGQUIT) || (signr =? SIGILL) || (signr =? SIGTRAP) || (signr =? SIGIOT)
  || (signr =? SIGFPE) || (signr =? SIGSEGV).
Definition is_quiet (signr : Z) : bool :=
  (signr =? SIGCONT) || (signr =? SIGCHLD) || (signr =? SIGWINCH).

(** The answer of [core_dump]. *)
Context (core_dump : Z -> bool).

(** An interrupted system call that a handler ends. *)
Definition interrupt (sa : sigaction) (r : pt_regs) : pt_regs :=
  if (0 <=? s32 (orig_eax r))
     && ((s32 (eax r) =? - ERESTARTNOHAND)
         || ((s32 (eax r) =? - ERESTARTSYS) && negb (has (sa_flags sa) SA_RESTART)))
  then with_eax (u32 (- EINTR)) r else r.

(** The rest of the loop body for a signal whose action is [sa]. *)
Inductive action :=
  | Ignored (w : world) (wakes : list (world -> world))
  | Handled (w : world)
  | Dies (code : Z) (w : world)
  | Stops (w : world).

Definition act (signr : Z) (sa : sigaction) (w : world) (wakes : list (world -> world)) : action :=
  if sa_handler sa =? SIG_IGN then
    if negb (signr =? SIGCHLD) then Ignored w wakes else Ignored (tell Reap w) wakes
  else if sa_handler sa =? SIG_DFL then
    if p_pid (cur w) =? 1 then Ignored w wakes
    else if is_quiet signr then Ignored w wakes
    else if is_stop signr then
      if has (p_flags (cur w)) PF_PTRACED then Ignored w wakes
      else
        let w := set_exit_code signr (set_state TASK_STOPPED w) in
        let w := if negb (nocldstop (cur w)) then tell (Notify signr) w else w in
        match wakes with
        | [] => Stops w
        | e :: wakes => Ignored (e w) wakes
        end
    else
      let code := if is_core signr && core_dump signr then Z.lor signr 0x80 else signr in
      Dies code (set_signal (Z.lor (p_signal (cur w)) (sigmask (Z.land code 0x7f))) w)
  else Handled (set_regs (interrupt sa (regs w)) w).

(** The first loop of [do_signal]. *)
Inductive sigscan :=
  | Scanned (handler_signal : Z) (w : world) (wakes : list (world -> world))
  | ScanExit (code : Z) (w : world)
  | ScanAsleep (w : world).

Fixpoint deliver (fuel : nat) (mask handler_signal : Z) (w : world) (wakes : list (world -> world))
    : option sigscan :=
  match fuel with
  | O => None
  | S fuel =>
      let pending := Z.land (p_signal (cur w)) mask in
      if pending =? 0 then Some (Scanned handler_signal w wakes)
      else
        let n := bsf pending in
        let w := set_signal (Z.clearbit (p_signal (cur w)) n) w in
        t ← traced (n + 1) w wakes;
        match t with
        | Sleep w => Some (ScanAsleep w)
        | Skip w wakes => deliver fuel mask handler_signal w wakes
        | Go signr w wakes =>
            sa ← get (actions (cur w)) (signr - 1);
            match act signr sa w wakes with
            | Ignored w wakes => deliver fuel mask handler_signal w wakes
            | Dies code w => Some (ScanExit code w)
            | Stops w => Some (ScanAsleep w)
            | Handled w =>
                deliver fuel (Z.land mask (u32 (Z.lnot (sa_mask sa))))
                  (Z.lor handler_signal (sigmask signr)) w wakes
            end
        end
  end.

(** The interrupted system call starts again. *)
Definition restart (r : pt_regs) : pt_regs :=
  if (0 <=? s32 (orig_eax r))
     && ((s32 (eax r) =? - ERESTARTNOHAND) || (s32 (eax r) =? - ERESTARTSYS)
         || (s32 (eax r) =? - ERESTARTNOINTR))
  then with_eip (u32 (eip r - 2)) (with_eax (orig_eax r) r) else r.

(** The second loop, from the signal [signr]: the frame, the instruction pointer
    and the state.  [inr]: [do_exit], with the state in which it is called.
    The access that pages in the handler does not change the state. *)
Fixpoint build (fuel : nat) (signr mask handler_signal frame eip oldmask : Z) (w : world)
    : option (Z * Z * world + Z * world) :=
  match fuel with
  | O => None
  | S fuel =>
      if mask =? 0 then Some (inl (frame, eip, w))
      else if handler_signal <? mask then Some (inl (frame, eip, w))
      else if negb (has mask handler_signal) then
        build fuel (signr + 1) (u32 (mask + mask)) handler_signal frame eip oldmask w
      else
        sa ← get (actions (cur w)) (signr - 1);
        match setup_frame sa frame eip signr oldmask w with
        | inr code => Some (inr (code, w))
        | inl (frame, w) =>
            let eip := sa_handler sa in
            acts ← (if has (sa_flags sa) SA_ONESHOT
                    then put (actions (cur w)) (signr - 1)
                           (Sigaction 0 (sa_mask sa) (sa_flags sa) (sa_restorer sa))
                    else Some (actions (cur w)));
            let w := set_actions acts w in
            let w := set_regs (with_segs USER_CS USER_DS (regs w)) w in
            let w := set_blocked (Z.lor (p_blocked (cur w)) (sa_mask sa)) w in
            build fuel (signr + 1) (u32 (mask + mask)) handler_signal frame eip
              (Z.lor oldmask (sa_mask sa)) w
        end
  end.

Definition deliver_fuel (wakes : list (world -> world)) : nat := 33 * S (length wakes).
Definition build_fuel : nat := 33.

Definition do_signal (oldmask : Z) (w : world) (wakes : list (world -> world)) : option outcome :=
  r ← deliver (deliver_fuel wakes) (u32 (Z.lnot (p_blocked (cur w)))) 0 w wakes;
  match r with
  | ScanExit code w => Some (Exited code w)
  | ScanAsleep w => Some (Asleep w)
  | Scanned handler_signal w wakes =>
      let w := set_regs (restart (regs w)) w in
      if handler_signal =? 0 then Some (Returned 0 w wakes)
      else
        b ← build build_fuel 1 1 handler_signal (esp (regs w)) (eip (regs w)) oldmask w;
        match b with
        | inr (code, w) => Some (Exited code w)
        | inl (frame, eip, w) =>
            let w := set_regs (with_eip eip (with_esp frame (regs w))) w in
            Some (Returned 1 (on_cur (with_trap 0 0) w) wakes)
        end
  end.

(** The loop of [sigsuspend]; every round sleeps. *)
Fixpoint suspend (mask : Z) (fuel : nat) (w : world) (wakes : list (world -> world)) : option outcome :=
  match fuel with
  | O => None
  | S fuel =>
      let w := set_state TASK_INTERRUPTIBLE w in
      match wakes with
      | [] => Some (Asleep w)
      | e :: wakes =>
          o ← do_signal mask (e w) wakes;
          match o with
          | Returned r w wakes =>
              if negb (r =? 0) then Some (Returned (- EINTR) w wakes) else suspend mask fuel w wakes
          | o => Some o
          end
      end
  end.

Definition sys_sigsuspend (set : Z) (w : world) (wakes : list (world -> world)) : option outcome :=
  let mask := p_blocked (cur w) in
  let w := set_blocked (Z.land set BLOCKABLE) w in
  let w := set_regs (with_eax (u32 (- EINTR)) (regs w)) w in
  suspend mask (S (length wakes)) w wakes.

(** ** [sigreturn] *)

Definition seg_ok (x : Z) : bool := negb (has x 0xfffc && negb (Z.land x 3 =? 3)).
Definition seg_strict (x : Z) : bool := negb (negb (has x 0xfffc) || negb (Z.land x 3 =? 3)).

(** The word [i] of the context at [a], and a segment register in it. *)
Definition ctx (a i : Z) (m : gmap Z Z) : Z := get_fs_long (a + 4 * i) m.
Definition ctx16 (a i : Z) (m : gmap Z Z) : Z := u16 (ctx a i m).

(** The registers when all of them are copied; those of a process that exits
    before that are not used again. *)
Definition copy_context (a : Z) (m : gmap Z Z) (r : pt_regs) : pt_regs :=
  PtRegs (ctx a 8 m) (ctx a 10 m) (ctx a 9 m) (ctx a 5 m) (ctx a 4 m) (ctx a 6 m) (eax r)
    (ctx16 a 3 m) (ctx16 a 2 m) (ctx16 a 1 m) (ctx16 a 0 m)
    (u32 (-1)) (ctx a 14 m) (ctx16 a 15 m)
    (Z.lor (Z.land (eflags r) (u32 (Z.lnot 0xCD5))) (Z.land (ctx a 16 m) 0xCD5))
    (ctx a 7 m) (ctx16 a 18 m).

Definition sys_sigreturn (w : world) : outcome :=
  let a := esp (regs w) in
  if negb (verify_area false a 88 =? 0) then Exited SIGSEGV w
  else
    let m := mem w in
    let w := set_blocked (Z.land (ctx a 20 m) BLOCKABLE) w in
    if seg_ok (ctx16 a 3 m) && seg_ok (ctx16 a 2 m) && seg_ok (ctx16 a 1 m) && seg_ok (ctx16 a 0 m)
       && seg_strict (ctx16 a 18 m) && seg_strict (ctx16 a 15 m)
    then Returned (s32 (ctx a 11 m)) (set_regs (copy_context a m (regs w)) w) []
    else Exited SIGSEGV w.

End Memory.
End Signal.
