(* ===== verification/SignalFrame.v ===== *)
(** * Signal frames ([src/kernel/signal.c])

    What [setup_frame] writes on the user stack and that [sigreturn] undoes it:
    any number of handlers that one [do_signal] starts run one after the other,
    each returns through the code in its frame, and the last return restores the
    registers and the signal mask of the interrupted program. *)

From S2P Require Import Prelude Sched Signal.
From Stdlib Require Import ZArith Lia.
From stdpp Require Import base list gmap sets.
Local Open Scope Z_scope.

Module SignalFrame.
Import Sched Signal.

(** ** User memory *)

Lemma get_put_byte_eq v a m : get_fs_byte a (put_fs_byte v a m) = u8 v.
Proof. unfold get_fs_byte, put_fs_byte. rewrite lookup_insert_eq. apply Z.mod_mod. done. Qed.

Lemma get_put_byte_ne v a b m : a <> b -> get_fs_byte b (put_fs_byte v a m) = get_fs_byte b m.
Proof. intros N. unfold get_fs_byte, put_fs_byte. by rewrite lookup_insert_ne. Qed.

Lemma byte_outside v a b m : b < a \/ a + 4 <= b -> get_fs_byte b (put_fs_long v a m) = get_fs_byte b m.
Proof. intros H. unfold put_fs_long. by rewrite !get_put_byte_ne by lia. Qed.

Lemma u8_shift v k : 0 <= k -> u8 (Z.shiftr v k) = v / 2 ^ k mod 2 ^ 8.
Proof. intros H. unfold u8. by rewrite Z.shiftr_div_pow2. Qed.

Lemma get_put_long_eq v a m : 0 <= v < 2 ^ 32 -> get_fs_long a (put_fs_long v a m) = v.
Proof.
  intros H. unfold get_fs_long, put_fs_long. rewrite get_put_byte_eq. rewrite !(get_put_byte_ne _ (a + 3)) by lia.
  rewrite get_put_byte_eq. rewrite !(get_put_byte_ne _ (a + 2)) by lia.
  rewrite get_put_byte_eq. rewrite !(get_put_byte_ne _ (a + 1)) by lia.
  rewrite get_put_byte_eq. rewrite !u8_shift by lia. unfold u8. change (2 ^ 8) with 256. change (2 ^ 16) with 65536. change (2 ^ 24) with 16777216.
  change (2 ^ 32) with 4294967296 in H. Z.to_euclidean_division_equations. lia.
Qed.

Lemma get_put_long_ne v a b m : b + 4 <= a \/ a + 4 <= b ->
  get_fs_long b (put_fs_long v a m) = get_fs_long b m.
Proof. intros H. unfold get_fs_long. by rewrite !byte_outside by lia. Qed.

Lemma put_words_app l1 l2 m : put_words (l1 ++ l2) m = put_words l2 (put_words l1 m).
Proof. apply foldl_app. Qed.

Lemma put_words_byte lo hi l m b :
  Forall (fun '(v, a) => lo <= a /\ a + 4 <= hi) l -> b < lo \/ hi <= b ->
  get_fs_byte b (put_words l m) = get_fs_byte b m.
Proof.
  revert m. induction l as [|[v a] l IH]; intros m F H; [done|].
  inversion F as [|? ? F1 F2]; subst. cbn [put_words foldl].
  change (foldl _ ?m0 l) with (put_words l m0).
  rewrite IH by done. apply byte_outside. lia.
Qed.

Lemma put_words_long lo hi l m b :
  Forall (fun '(v, a) => lo <= a /\ a + 4 <= hi) l -> b + 4 <= lo \/ hi <= b ->
  get_fs_long b (put_words l m) = get_fs_long b m.
Proof.
  intros F H. unfold get_fs_long. by rewrite !(put_words_byte lo hi) by (done || lia).
Qed.

(** Consecutive words. *)
Definition words_at (f : Z) (vs : list Z) : list (Z * Z) := imap (fun i v => (v, f + 4 * Z.of_nat i)) vs.

Lemma words_at_cons f v vs : words_at f (v :: vs) = (v, f) :: words_at (f + 4) vs.
Proof.
  unfold words_at. rewrite imap_cons. f_equal; [f_equal; lia|]. apply imap_ext. intros i x _. cbn. f_equal. lia.
Qed.

Lemma words_at_range f vs : Forall (fun '(v, a) => f <= a /\ a + 4 <= f + 4 * Z.of_nat (length vs)) (words_at f vs).
Proof.
  revert f. induction vs as [|v vs IH]; intros f; [by apply list.Forall_nil|].
  rewrite words_at_cons. constructor; [cbn; lia|].
  eapply Forall_impl; [apply IH|]. intros [x a]. cbn [length]. lia.
Qed.

Lemma get_words f vs m i v :
  vs !! i = Some v -> 0 <= v < 2 ^ 32 ->
  get_fs_long (f + 4 * Z.of_nat i) (put_words (words_at f vs) m) = v.
Proof.
  revert f m i. induction vs as [|x vs IH]; intros f m i L R; [done|].
  rewrite words_at_cons. cbn [put_words foldl]. change (foldl _ ?m0 ?l) with (put_words l m0).
  destruct i as [|i]; cbn in L.
  - apply (inj Some) in L as ->.
    rewrite (put_words_long (f + 4) _ _ _ _ (words_at_range _ _)) by lia.
    replace (f + 4 * Z.of_nat 0) with f by lia. by apply get_put_long_eq.
  - replace (f + 4 * Z.of_nat (S i)) with (f + 4 + 4 * Z.of_nat i) by lia. by apply IH.
Qed.

Lemma get_fs_byte_range a m : 0 <= get_fs_byte a m < 2 ^ 8.
Proof. by apply Z.mod_pos_bound. Qed.

Lemma get_fs_long_range a m : 0 <= get_fs_long a m < 2 ^ 32.
Proof.
  unfold get_fs_long.
  pose proof (get_fs_byte_range a m). pose proof (get_fs_byte_range (a + 1) m).
  pose proof (get_fs_byte_range (a + 2) m). pose proof (get_fs_byte_range (a + 3) m). lia.
Qed.

(** ** The frame *)

Definition frame_vals (frame fp eip signr oldmask : Z) (r : pt_regs) (p : proc) : list Z :=
  [frame + 96; signr; gs r; fs r; es r; ds r; edi r; esi r; ebp r; fp; ebx r; edx r; ecx r; eax r;
   trap_no p; error_code p; eip; cs r; eflags r; esp r; ss r; 0; oldmask; cr2 p].

Definition code_words (code : Z) : list (Z * Z) :=
  [(0x0000b858, code); (0x80cd0000, code + 4); (NR_sigreturn, code + 2)].

Definition frame_ok (frame : Z) : Prop := 0 <= frame /\ frame + 128 <= TASK_SIZE.

Lemma frame_words_eq frame fp eip signr oldmask r p : frame_ok frame ->
  frame_words frame fp eip signr oldmask r p
  = words_at frame (frame_vals frame fp eip signr oldmask r p) ++ code_words (frame + 96).
Proof.
  intros [H1 H2]. unfold TASK_SIZE in H2. change (2 ^ 32) with 4294967296.
  assert (W : forall i, 0 <= i <= 24 -> word frame i = frame + 4 * i)
    by (intros i Hi; unfold word; apply u32_small; lia).
  unfold frame_words. rewrite !W by lia. rewrite !(u32_small (_ + (frame + _))) by lia.
  unfold words_at, frame_vals, code_words. cbn [imap app].
  cbv [compose]. repeat (f_equal; try lia).
Qed.

Lemma code_words_range code : Forall (fun '(v, a) => code <= a /\ a + 4 <= code + 8) (code_words code).
Proof. repeat constructor; cbn; lia. Qed.

Section Frame.
Context (frame fp eip signr oldmask : Z) (r : pt_regs) (p : proc) (m : gmap Z Z) (F : frame_ok frame).

Let m' := put_words (frame_words frame fp eip signr oldmask r p) m.

Lemma frame_get i v :
  frame_vals frame fp eip signr oldmask r p !! i = Some v -> 0 <= v < 2 ^ 32 ->
  get_fs_long (frame + 4 * Z.of_nat i) m' = v.
Proof.
  intros L R. unfold m'. rewrite frame_words_eq by done. rewrite put_words_app.
  assert (i < 24)%nat by (apply lookup_lt_Some in L; cbn in L; lia).
  rewrite (put_words_long (frame + 96) _ _ _ _ (code_words_range _)) by lia.
  by apply get_words.
Qed.

Lemma frame_outside b : b < frame \/ frame + 128 <= b -> get_fs_byte b m' = get_fs_byte b m.
Proof.
  intros H. unfold m'. rewrite frame_words_eq by done. rewrite put_words_app.
  rewrite (put_words_byte (frame + 96) _ _ _ _ (code_words_range _)) by lia.
  rewrite (put_words_byte frame _ _ _ _ (words_at_range _ _)) by (unfold frame_vals; cbn [length]; lia). done.
Qed.

(** The return code: [popl %eax; movl $119,%eax; int $0x80]. *)
Definition return_code : list Z := [0x58; 0xb8; 0x77; 0; 0; 0; 0xcd; 0x80].

Lemma frame_code i x : return_code !! i = Some x -> get_fs_byte (frame + 96 + Z.of_nat i) m' = x.
Proof.
  intros L. unfold m'. rewrite frame_words_eq by done. rewrite put_words_app.
  generalize (put_words (words_at frame (frame_vals frame fp eip signr oldmask r p)) m). intros m0.
  cbn [put_words code_words foldl]. unfold put_fs_long.
  do 8 (destruct i as [|i]; [apply (inj Some) in L as <-; 
    rewrite ?get_put_byte_ne by lia;
    match goal with |- get_fs_byte ?a (put_fs_byte _ ?b _) = _ => replace a with b by lia end;
    rewrite get_put_byte_eq; reflexivity|]).
  done.
Qed.
End Frame.

(** ** Returning from handlers *)

(** [ret] of the handler, and the three instructions of the return code up to the
    system call. *)
Definition near_ret (w : world) : world :=
  set_regs (with_eip (get_fs_long (esp (regs w)) (mem w)) (with_esp (u32 (esp (regs w) + 4)) (regs w))) w.

Definition run_code (w : world) : option world :=
  let a := eip (regs w) in
  let byte i := get_fs_byte (a + i) (mem w) in
  if (byte 0 =? 0x58) && (byte 1 =? 0xb8) && (byte 6 =? 0xcd) && (byte 7 =? 0x80) then
    Some (set_regs (with_eip (u32 (a + 8)) (with_eax (get_fs_long (a + 2) (mem w))
                     (with_esp (u32 (esp (regs w) + 4)) (regs w)))) w)
  else None.

Section Unwind.
Context (wp : bool) (vw : Z -> Z -> Z).

Definition handler_return (w : world) : option world :=
  w ← run_code (near_ret w);
  if eax (regs w) =? NR_sigreturn then
    match sys_sigreturn wp vw w with
    | Returned r w _ => Some (set_regs (with_eax (u32 r) (regs w)) w)
    | _ => None
    end
  else None.

(** The handlers [hs] run in turn, each a function on the state from its first
    instruction to its [ret]. *)
Fixpoint unwind (hs : list (world -> world)) (w : world) : option world :=
  match hs with
  | [] => Some w
  | h :: hs => w ← handler_return (h w); unwind hs w
  end.

Lemma unwind_app l1 l2 w : unwind (l1 ++ l2) w = w1 ← unwind l1 w; unwind l2 w1.
Proof.
  revert w. induction l1 as [|h l1 IH]; intros w; [done|]. cbn [app unwind].
  destruct (handler_return (h w)) as [w1|]; [apply IH|done].
Qed.

(** A handler keeps its stack pointer and what is above it up to [top], where
    the stack of the interrupted program starts; it may change all else. *)
Definition same_mem (lo hi : Z) (w w' : world) : Prop :=
  forall a, lo <= a < hi -> get_fs_byte a (mem w') = get_fs_byte a (mem w).

Definition keeps_stack (top : Z) (h : world -> world) : Prop :=
  forall w, esp (regs (h w)) = esp (regs w) /\ same_mem (esp (regs w)) top w (h w).

(** Registers of a program in user mode. *)
Record user_regs (r : pt_regs) : Prop := {
  ur_words : Forall (fun x => 0 <= x < 2 ^ 32) [ebx r; ecx r; edx r; esi r; edi r; ebp r; eax r; eflags r; eip r; esp r; orig_eax r];
  ur_segs : Forall (fun x => 0 <= x < 2 ^ 16 /\ seg_ok x = true) [ds r; es r; fs r; gs r];
  ur_cs : 0 <= cs r < 2 ^ 16 /\ seg_strict (cs r) = true;
  ur_ss : ss r = USER_DS
}.

(** The registers [r] with another place to go on and the flags that a program
    may change. *)
Definition resumed (r : pt_regs) (eip esp fl : Z) : pt_regs :=
  PtRegs (ebx r) (ecx r) (edx r) (esi r) (edi r) (ebp r) (eax r) (ds r) (es r) (fs r) (gs r)
    (u32 (-1)) eip (cs r) (Z.lor (Z.land fl (u32 (Z.lnot 0xCD5))) (Z.land (eflags r) 0xCD5)) esp (ss r).

Lemma same_mem_long lo hi w w' a : same_mem lo hi w w' -> lo <= a -> a + 4 <= hi ->
  get_fs_long a (mem w') = get_fs_long a (mem w).
Proof. intros S H1 H2. unfold get_fs_long. by rewrite !S by lia. Qed.

Lemma same_mem_trans lo hi w1 w2 w3 : same_mem lo hi w1 w2 -> same_mem lo hi w2 w3 -> same_mem lo hi w1 w3.
Proof. intros S1 S2 a H. by rewrite S2, S1. Qed.

Lemma same_mem_sub lo hi lo' hi' w1 w2 : same_mem lo hi w1 w2 -> lo <= lo' -> hi' <= hi -> same_mem lo' hi' w1 w2.
Proof. intros S H1 H2 a H. apply S. lia. Qed.

Lemma setup_frame_spec sa fp eip signr oldmask w frame w' :
  ss (regs w) = USER_DS -> 0 <= fp < 2 ^ 32 ->
  setup_frame wp vw sa fp eip signr oldmask w = inl (frame, w') ->
  frame = fp - 128 /\ frame_ok frame /\
  w' = set_mem (put_words (frame_words frame fp eip signr oldmask (regs w) (cur w)) (mem w)) w.
Proof.
  intros S R. unfold setup_frame. rewrite S. cbn [negb]. rewrite Z.eqb_refl. cbn [negb].
  destruct (verify_area wp vw true (u32 (fp - 128)) 128 =? 0) eqn:V; cbn [negb]; [|done].
  intros E. injection E as <- <-. apply Z.eqb_eq in V. unfold verify_area in V.
  pose proof (u32_range (fp - 128)) as U.
  destruct (TASK_SIZE <=? u32 (fp - 128)) eqn:B1; [done|].
  destruct (TASK_SIZE - u32 (fp - 128) <? 128) eqn:B2; [done|].
  assert (u32 (fp - 128) = fp - 128).
  { unfold u32, TASK_SIZE in *. change (2 ^ 32) with 4294967296 in *. 
    destruct (decide (128 <= fp)); [apply Z.mod_small; lia|].
    rewrite <- (Z.mod_unique (fp - 128) 4294967296 (-1) (fp - 128 + 4294967296)) in B1 by lia. lia. }
  rewrite H in *. split; [done|]. split; [unfold frame_ok; lia|done].
Qed.

Lemma u32_s32 x : 0 <= x < 2 ^ 32 -> u32 (s32 x) = x.
Proof.
  intros H. unfold u32, s32. change (2 ^ 32) with 4294967296 in *. change (2 ^ 31) with 2147483648.
  Z.to_euclidean_division_equations. lia.
Qed.

Ltac frame_side := first [assumption | reflexivity | lia].

(** A state [w2] that still has the frame that was made in [w]. *)
Section Return.
Context (frame fp ip signr oldmask top : Z) (w w2 : world).
Context (F : frame_ok frame) (T : frame + 128 <= top) (U : user_regs (regs w)).
Context (Rfp : 0 <= fp < 2 ^ 32) (Reip : 0 <= ip < 2 ^ 32) (Rmask : 0 <= oldmask < 2 ^ 32).
Context (M : same_mem frame top
  (set_mem (put_words (frame_words frame fp ip signr oldmask (regs w) (cur w)) (mem w)) w) w2).
Context (E : esp (regs w2) = frame).

Lemma frame_word i v :
  frame_vals frame fp ip signr oldmask (regs w) (cur w) !! i = Some v -> 0 <= v < 2 ^ 32 ->
  get_fs_long (frame + 4 * Z.of_nat i) (mem w2) = v.
Proof.
  intros L R. assert (i < 24)%nat by (apply lookup_lt_Some in L; cbn in L; lia).
  rewrite (same_mem_long _ _ _ _ _ M) by lia. by apply frame_get.
Qed.

Lemma frame_byte k x : 0 <= k -> return_code !! Z.to_nat k = Some x ->
  get_fs_byte (frame + 96 + k) (mem w2) = x.
Proof.
  intros K L. assert (Z.to_nat k < 8)%nat by (apply lookup_lt_Some in L; cbn in L; lia).
  rewrite M by lia. replace k with (Z.of_nat (Z.to_nat k)) at 1 by lia. by apply frame_code.
Qed.

Lemma run_return : exists r,
  run_code (near_ret w2) = Some (set_regs r w2) /\ eax r = NR_sigreturn /\ esp r = frame + 8.
Proof.
  assert (F' := F). destruct F' as [F1 F2]. unfold TASK_SIZE in F2.
  assert (R : get_fs_long frame (mem w2) = frame + 96).
  { replace frame with (frame + 4 * Z.of_nat 0) at 1 by lia. apply frame_word; [done|lia]. }
  unfold run_code, near_ret. cbn [regs mem set_regs eip with_eip esp with_esp]. rewrite E, R.
  rewrite (frame_byte 0 0x58), (frame_byte 1 0xb8), (frame_byte 6 0xcd), (frame_byte 7 0x80) by done.
  cbn [Z.eqb andb Pos.eqb]. eexists. split; [reflexivity|]. cbn [eax esp with_eip with_eax with_esp].
  split.
  - unfold get_fs_long, NR_sigreturn.
    replace (frame + 96 + 2 + 1) with (frame + 96 + 3) by lia.
    replace (frame + 96 + 2 + 2) with (frame + 96 + 4) by lia.
    replace (frame + 96 + 2 + 3) with (frame + 96 + 5) by lia.
    by rewrite (frame_byte 2 0x77), (frame_byte 3 0), (frame_byte 4 0), (frame_byte 5 0) by done.
  - rewrite !u32_small; rewrite ?u32_small; lia.
Qed.

Lemma frame_ctx i v : 0 <= i ->
  frame_vals frame fp ip signr oldmask (regs w) (cur w) !! Z.to_nat (i + 2) = Some v -> 0 <= v < 2 ^ 32 ->
  ctx (frame + 8) i (mem w2) = v.
Proof.
  intros I L R. unfold ctx. rewrite <- (frame_word _ _ L R). f_equal. lia.
Qed.

Lemma frame_ctx16 i v : 0 <= i ->
  frame_vals frame fp ip signr oldmask (regs w) (cur w) !! Z.to_nat (i + 2) = Some v -> 0 <= v < 2 ^ 16 ->
  ctx16 (frame + 8) i (mem w2) = v.
Proof.
  intros I L R. unfold ctx16. rewrite (frame_ctx _ v I L) by lia. by apply u16_small.
Qed.

Lemma handler_return_spec : exists w3 fl, handler_return w2 = Some w3
  /\ regs w3 = resumed (regs w) ip fp fl
  /\ cur w3 = with_blocked (Z.land oldmask BLOCKABLE) (cur w2) /\ mem w3 = mem w2.
Proof.
  destruct run_return as (r & Hr & Ha & He). destruct F as [F1 F2]. unfold handler_return.
  rewrite Hr. cbn [mbind option_bind]. cbn [regs set_regs]. rewrite Ha, Z.eqb_refl.
  destruct U as [UW US UC UD].
  repeat match goal with H : Forall _ (_ :: _) |- _ => apply list.Forall_cons in H as [? H] end.
  repeat match goal with H : _ /\ seg_ok _ = true |- _ => destruct H end. destruct UC as [UC1 UC2].
  assert (US16 : 0 <= ss (regs w) < 2 ^ 16) by (rewrite UD; unfold USER_DS; lia).
  unfold sys_sigreturn. cbn [regs set_regs mem]. rewrite He.
  assert (V : verify_area wp vw false (frame + 8) 88 = 0).
  { unfold verify_area. destruct (Z.leb_spec TASK_SIZE (frame + 8)); [lia|].
    destruct (Z.ltb_spec (TASK_SIZE - (frame + 8)) 88); [lia|]. by rewrite orb_true_r. }
  rewrite V. cbn [negb Z.eqb].
  rewrite (frame_ctx 20 oldmask), (frame_ctx16 3 (ds (regs w))), (frame_ctx16 2 (es (regs w))),
    (frame_ctx16 1 (fs (regs w))), (frame_ctx16 0 (gs (regs w))), (frame_ctx16 18 (ss (regs w))),
    (frame_ctx16 15 (cs (regs w))) by frame_side.
  replace (seg_strict (ss (regs w))) with true by (rewrite UD; reflexivity).
  rewrite (frame_ctx 11 (eax (regs w))) by frame_side.
  repeat match goal with H : seg_ok _ = true |- _ => rewrite H; clear H end. rewrite UC2. cbn [andb].
  eexists _, (eflags r). split; [reflexivity|]. split; [|done].
  unfold copy_context. cbn [regs set_regs with_eax set_blocked on_cur eflags].
  rewrite (frame_ctx 8 (ebx (regs w))), (frame_ctx 10 (ecx (regs w))), (frame_ctx 9 (edx (regs w))),
    (frame_ctx 5 (esi (regs w))), (frame_ctx 4 (edi (regs w))), (frame_ctx 6 (ebp (regs w))),
    (frame_ctx 14 ip), (frame_ctx 16 (eflags (regs w))), (frame_ctx 7 fp), (frame_ctx16 3 (ds (regs w))),
    (frame_ctx16 2 (es (regs w))), (frame_ctx16 1 (fs (regs w))), (frame_ctx16 0 (gs (regs w))),
    (frame_ctx16 18 (ss (regs w))), (frame_ctx16 15 (cs (regs w))) by frame_side.
  unfold resumed, with_eax. cbn. by rewrite u32_s32.
Qed.
End Return.

(** ** The loop that builds the frames *)

(** The signals of a set, from the signal [k]. *)
Definition sigs_from (k set : Z) : list Z := filter (fun s => Z.testbit set (s - 1) = true) (seqZ k (33 - k)).
Definition sigs (set : Z) : list Z := sigs_from 1 set.

(** The second loop of [do_signal] as a recursion on the signals to handle. *)
Fixpoint build_list (l : list Z) (frame ip oldmask : Z) (w : world) : option (Z * Z * world + Z * world) :=
  match l with
  | [] => Some (inl (frame, ip, w))
  | s :: l =>
      sa ← get (actions (cur w)) (s - 1);
      match setup_frame wp vw sa frame ip s oldmask w with
      | inr code => Some (inr (code, w))
      | inl (frame, w) =>
          acts ← (if has (sa_flags sa) SA_ONESHOT
                  then put (actions (cur w)) (s - 1)
                         (Sigaction 0 (sa_mask sa) (sa_flags sa) (sa_restorer sa))
                  else Some (actions (cur w)));
          let w := set_actions acts w in
          let w := set_regs (with_segs USER_CS USER_DS (regs w)) w in
          let w := set_blocked (Z.lor (p_blocked (cur w)) (sa_mask sa)) w in
          build_list l frame (sa_handler sa) (Z.lor oldmask (sa_mask sa)) w
      end
  end.

Lemma sigs_from_step k set : 1 <= k <= 32 ->
  sigs_from k set = if Z.testbit set (k - 1) then k :: sigs_from (k + 1) set else sigs_from (k + 1) set.
Proof.
  intros H. unfold sigs_from. rewrite seqZ_cons by lia.
  replace (Z.pred (33 - k)) with (33 - (k + 1)) by lia. replace (Z.succ k) with (k + 1) by lia.
  rewrite filter_cons. destruct (Z.testbit set (k - 1)); by case_decide.
Qed.

Lemma sigs_from_none k set : 1 <= k -> 0 <= set < 2 ^ (k - 1) -> sigs_from k set = [].
Proof.
  intros K H. unfold sigs_from. apply elem_of_nil_inv. intros s I.
  apply list_elem_of_filter in I as [E I]. apply elem_of_seqZ in I.
  destruct (decide (set = 0)) as [-> |N]; [by rewrite Z.testbit_0_l in E|].
  rewrite Z.bits_above_log2 in E; [done|lia|].
  apply Z.log2_lt_pow2; [lia|]. eapply Z.lt_le_trans; [apply H|]. apply Z.pow_le_mono_r; lia.
Qed.

Lemma has_bit n set : 0 <= n -> has (2 ^ n) set = Z.testbit set n.
Proof.
  intros H. unfold has. destruct (Z.testbit set n) eqn:B.
  - apply negb_true_iff, Z.eqb_neq. intros E. apply (f_equal (fun x => Z.testbit x n)) in E.
    rewrite Z.land_spec, Z.pow2_bits_true, B, Z.testbit_0_l in E by lia. done.
  - apply negb_false_iff, Z.eqb_eq. apply Z.bits_inj'. intros i Hi.
    rewrite Z.land_spec, Z.testbit_0_l. destruct (decide (i = n)) as [-> |N].
    + rewrite B. apply andb_false_r.
    + by rewrite Z.pow2_bits_false by lia.
Qed.

Lemma build_list_eq n k set frame ip oldmask w :
  Z.of_nat n = 34 - k -> 1 <= k <= 33 -> 0 <= set < 2 ^ 32 ->
  build wp vw n k (u32 (2 ^ (k - 1))) set frame ip oldmask w = build_list (sigs_from k set) frame ip oldmask w.
Proof.
  revert k frame ip oldmask w. induction n as [|n IH]; intros k frame ip oldmask w N K R; [lia|].
  cbn [build]. destruct (decide (k = 33)) as [-> |K'].
  { by rewrite sigs_from_none by (cbn; lia). }
  assert (P : 0 < 2 ^ (k - 1) < 2 ^ 32).
  { split; [apply Z.pow_pos_nonneg; lia|apply Z.pow_lt_mono_r; lia]. }
  assert (D : u32 (2 ^ (k - 1) + 2 ^ (k - 1)) = u32 (2 ^ (k + 1 - 1))).
  { f_equal. replace (k + 1 - 1) with (Z.succ (k - 1)) by lia. rewrite Z.pow_succ_r by lia. lia. }
  rewrite (u32_small (2 ^ (k - 1))), D by lia.
  destruct (Z.eqb_spec (2 ^ (k - 1)) 0); [lia|].
  destruct (Z.ltb_spec set (2 ^ (k - 1))); [by rewrite sigs_from_none by lia|].
  rewrite has_bit by lia. rewrite sigs_from_step by lia.
  destruct (Z.testbit set (k - 1)); cbn [negb]; [|by apply IH; lia].
  cbn [build_list]. destruct (get _ _) as [sa|]; [|done]. cbn [mbind option_bind].
  destruct (setup_frame _ _ _ _ _ _ _ _) as [[f w1]|c]; [|done].
  destruct (if has (sa_flags sa) SA_ONESHOT then _ else _) as [acts|]; [|done].
  cbn [mbind option_bind]. by apply IH; lia.
Qed.

Lemma build_sigs set frame ip oldmask w : 0 <= set < 2 ^ 32 ->
  build wp vw build_fuel 1 1 set frame ip oldmask w = build_list (sigs set) frame ip oldmask w.
Proof. intros H. apply (build_list_eq build_fuel 1); [done|lia|done]. Qed.

(** What is stored as the action of a signal. *)
Record action_ok (sa : sigaction) : Prop := {
  ao_handler : 0 <= sa_handler sa < TASK_SIZE;
  ao_mask : 0 <= sa_mask sa < 2 ^ 32;
  ao_blockable : Z.land (sa_mask sa) BLOCKABLE = sa_mask sa
}.

Definition actions_ok (l : list sigaction) : Prop := length l = 32%nat /\ Forall action_ok l.

Lemma actions_get l i sa : actions_ok l -> get l i = Some sa -> action_ok sa.
Proof.
  intros [_ F]. unfold get. destruct (i <? 0); [done|]. intros H. by eapply Forall_lookup_1.
Qed.

Lemma actions_put l i sa l' : actions_ok l -> action_ok sa -> put l i sa = Some l' -> actions_ok l'.
Proof.
  intros [L F] A. unfold put. destruct (_ || _); [done|]. intros E. injection E as <-.
  split; [by rewrite length_insert|]. by apply Forall_insert.
Qed.

Lemma action_reset sa : action_ok sa -> action_ok (Sigaction 0 (sa_mask sa) (sa_flags sa) (sa_restorer sa)).
Proof. intros [H1 H2 H3]. split; cbn; [unfold TASK_SIZE; lia|done|done]. Qed.

Lemma reset_actions (b : bool) l i sa l' : actions_ok l -> action_ok sa ->
  (if b then put l i (Sigaction 0 (sa_mask sa) (sa_flags sa) (sa_restorer sa)) else Some l) = Some l' ->
  actions_ok l'.
Proof.
  intros L A. destruct b; [|by intros E; injection E as <-].
  apply actions_put; [done|by apply action_reset].
Qed.

Lemma user_regs_segs r : user_regs r -> user_regs (with_segs USER_CS USER_DS r).
Proof.
  intros [W S C D]. split; cbn; [done| |done|done].
  repeat constructor; try done.
Qed.

Lemma lor_range a b : 0 <= a < 2 ^ 32 -> 0 <= b < 2 ^ 32 -> 0 <= Z.lor a b < 2 ^ 32.
Proof.
  intros A B. split; [apply Z.lor_nonneg; lia|].
  destruct (decide (Z.lor a b = 0)) as [-> |N]; [lia|].
  apply Z.log2_lt_pow2; [pose proof (proj2 (Z.lor_nonneg a b)); lia|].
  rewrite Z.log2_lor by lia. apply Z.max_lub_lt.
  - destruct (decide (a = 0)) as [-> |]; [cbn; lia|apply Z.log2_lt_pow2; lia].
  - destruct (decide (b = 0)) as [-> |]; [cbn; lia|apply Z.log2_lt_pow2; lia].
Qed.

(** The state in which frames are built. *)
Record build_ok (frame ip oldmask : Z) (w : world) : Prop := {
  bo_regs : user_regs (regs w);
  bo_actions : actions_ok (actions (cur w));
  bo_frame : 0 <= frame < 2 ^ 32;
  bo_ip : 0 <= ip < 2 ^ 32;
  bo_mask : 0 <= oldmask < 2 ^ 32
}.

(** One round of the loop. *)
Lemma build_list_step s l frame ip oldmask w frame' ip' w' :
  build_ok frame ip oldmask w ->
  build_list (s :: l) frame ip oldmask w = Some (inl (frame', ip', w')) ->
  exists sa w1 w2, get (actions (cur w)) (s - 1) = Some sa /\ frame_ok (frame - 128)
    /\ w1 = set_mem (put_words (frame_words (frame - 128) frame ip s oldmask (regs w) (cur w)) (mem w)) w
    /\ mem w2 = mem w1
    /\ build_ok (frame - 128) (sa_handler sa) (Z.lor oldmask (sa_mask sa)) w2
    /\ build_list l (frame - 128) (sa_handler sa) (Z.lor oldmask (sa_mask sa)) w2 = Some (inl (frame', ip', w')).
Proof.
  intros [U A RF RI RM]. cbn [build_list].
  destruct (get (actions (cur w)) (s - 1)) as [sa|] eqn:G; [|done]. cbn [mbind option_bind].
  destruct (setup_frame wp vw sa frame ip s oldmask w) as [[f w1]|c] eqn:S; [|done].
  apply setup_frame_spec in S as (-> & FO & ->); [|apply U|done].
  assert (AO := actions_get _ _ _ A G).
  cbn [cur set_mem regs mem].
  destruct (if has (sa_flags sa) SA_ONESHOT then _ else _) as [acts|] eqn:P; [|done]. cbn [mbind option_bind].
  apply reset_actions in P; [|done|done]. intros B.
  eexists sa, _, _. split; [done|]. split; [done|]. split; [reflexivity|]. split; [|split; [|exact B]]; [done|].
  destruct AO as [AH AM AB]. split; cbn.
  - by apply user_regs_segs.
  - done.
  - destruct FO as [F1 F2]. unfold TASK_SIZE in F2. lia.
  - unfold TASK_SIZE in AH. lia.
  - by apply lor_range.
Qed.

Lemma build_list_unwind top l : forall frame ip oldmask w frame' ip' w',
  build_ok frame ip oldmask w -> frame <= top ->
  build_list l frame ip oldmask w = Some (inl (frame', ip', w')) ->
  frame' = frame - 128 * Z.of_nat (length l) /\ (l <> [] -> 0 <= frame' /\ frame <= TASK_SIZE)
  /\ (forall b, b < frame' \/ frame <= b -> get_fs_byte b (mem w') = get_fs_byte b (mem w))
  /\ forall hl w1, length hl = length l -> Forall (keeps_stack top) hl ->
     esp (regs w1) = frame' -> same_mem frame' top w' w1 ->
     exists w2, unwind hl w1 = Some w2 /\ esp (regs w2) = frame /\ same_mem frame top w w2
       /\ (l <> [] -> (exists fl, regs w2 = resumed (regs w) ip frame fl)
                     /\ p_blocked (cur w2) = Z.land oldmask BLOCKABLE).
Proof.
  induction l as [|s l IH]; intros frame ip oldmask w frame' ip' w' O T B.
  { cbn in B. injection B as <- <- <-. split_and!; [cbn; lia|done|done|].
    intros hl w1 L _ E S. destruct hl; [|done]. by exists w1. }
  apply build_list_step in B as (sa & wf & wn & G & FO & Ewf & Em & O' & B); [|done].
  assert (FO' := FO). destruct FO' as [FO1 FO2].
  apply IH in B as (-> & Hpos & Hout & Hun); [|done|lia]. cbn [length]. clear IH.
  split; [lia|]. split; [|split].
  - intros _. split; [|lia]. destruct l; [cbn; lia|by apply Hpos].
  - intros b Hb. rewrite Hout by lia. rewrite Em. subst wf. cbn [mem set_mem].
    apply frame_outside; [done|lia].
  - intros hl w1 L F E S. destruct hl as [|h hl _] using rev_ind; [done|].
    rewrite length_app in L. cbn in L. apply Forall_app in F as [F Fh]. apply list.Forall_cons in Fh as [Fh _].
    destruct (Hun hl w1) as (wa & Ua & Ea & Sa & _); [lia|done|lia|..].
    { eapply same_mem_sub; [exact S|lia|lia]. }
    destruct (Fh wa) as [Eh Sh]. rewrite Ea in Eh, Sh.
    destruct O as [U A RF RI RM].
    destruct (handler_return_spec (frame - 128) frame ip s oldmask top w (h wa)) as (w3 & fl & H3 & R3 & C3 & M3);
      [done|lia|done|done|done|done| |done|].
    { eapply same_mem_trans; [|exact Sh]. intros a Ha. rewrite Sa by done. by rewrite Em, Ewf. }
    exists w3. split; [|split; [|split]].
    + rewrite unwind_app, Ua. cbn [mbind option_bind unwind]. by rewrite H3.
    + by rewrite R3.
    + intros a Ha. rewrite M3, Sh by lia. rewrite Sa by lia. rewrite Em, Ewf. cbn [mem set_mem].
      apply frame_outside; [done|lia].
    + intros _. split; [by exists fl|]. by rewrite C3.
Qed.
End Unwind.
End SignalFrame.
