(* ===== verification/SignalDeliver.v ===== *)
(** * Choosing the signals to deliver ([src/kernel/signal.c])

    The first loop of [do_signal]: it ends, it takes the signals in increasing order
    with the masks of the handlers chosen so far in effect, SIGKILL ends the
    process, and a system call that was interrupted is restarted or not as the
    actions say. *)

From S2P Require Import Prelude Ipc Sched Signal SignalFrame.
From Stdlib Require Import ZArith Lia.
From stdpp Require Import base list gmap sets.
Local Open Scope Z_scope.

Module SignalDeliver.
Import Sched Signal SignalFrame.

(** ** Sets of signals *)

Definition sub (a b : Z) : Prop := forall i, 0 <= i -> Z.testbit a i = true -> Z.testbit b i = true.

Lemma sub_land_l a b : sub (Z.land a b) a.
Proof. intros i _. rewrite Z.land_spec. by intros [? _]%andb_true_iff. Qed.

Lemma sub_trans a b c : sub a b -> sub b c -> sub a c.
Proof. intros H1 H2 i I B. auto. Qed.

Lemma sub_land_mono a a' b b' : sub a a' -> sub b b' -> sub (Z.land a b) (Z.land a' b').
Proof.
  intros H1 H2 i I. rewrite !Z.land_spec. intros [B1 B2]%andb_true_iff.
  apply andb_true_iff. auto.
Qed.

Definition count (x : Z) : nat := length (sigs x).

Lemma count_le x : (count x <= 32)%nat.
Proof.
  unfold count, sigs, sigs_from. etransitivity; [apply length_filter|]. by rewrite length_seqZ.
Qed.

Lemma count_filter (P : Z -> bool) (Q : Z -> bool) l :
  (forall s, s ∈ l -> P s = true -> Q s = true) ->
  (length (filter (fun s => P s = true) l) <= length (filter (fun s => Q s = true) l))%nat.
Proof.
  induction l as [|x l IH]; intros H; [done|]. rewrite !filter_cons.
  assert (IHl := IH (fun s I => H s (list_elem_of_further _ _ _ I))).
  specialize (H x (list_elem_of_here _ _)).
  case_decide; case_decide; cbn; try lia. naive_solver.
Qed.

Lemma count_filter_lt (P : Z -> bool) (Q : Z -> bool) l x :
  (forall s, s ∈ l -> P s = true -> Q s = true) -> x ∈ l -> P x = false -> Q x = true ->
  (length (filter (fun s => P s = true) l) < length (filter (fun s => Q s = true) l))%nat.
Proof.
  induction l as [|y l IH]; intros H I Px Qx; [by apply not_elem_of_nil in I|].
  assert (Hl : forall s, s ∈ l -> P s = true -> Q s = true)
    by (intros s Is; apply H; by apply list_elem_of_further).
  rewrite !filter_cons. apply elem_of_cons in I as [-> |I].
  - rewrite Px, Qx. rewrite decide_False, decide_True by done. cbn. pose proof (count_filter P Q l Hl). lia.
  - specialize (IH Hl I Px Qx). specialize (H y (list_elem_of_here _ _)).
    case_decide; case_decide; cbn; try lia. naive_solver.
Qed.

Lemma count_sub a b : sub a b -> (count a <= count b)%nat.
Proof.
  intros S. unfold count, sigs, sigs_from.
  apply (count_filter (fun s => Z.testbit a (s - 1)) (fun s => Z.testbit b (s - 1))).
  intros s I. apply elem_of_seqZ in I. apply S. lia.
Qed.

Lemma count_sub_lt a b n : sub a b -> 0 <= n < 32 -> Z.testbit a n = false -> Z.testbit b n = true ->
  (count a < count b)%nat.
Proof.
  intros S N A B. unfold count, sigs, sigs_from.
  apply (count_filter_lt (fun s => Z.testbit a (s - 1)) (fun s => Z.testbit b (s - 1)) _ (n + 1)).
  - intros s I. apply elem_of_seqZ in I. apply S. lia.
  - apply elem_of_seqZ. lia.
  - by replace (n + 1 - 1) with n by lia.
  - by replace (n + 1 - 1) with n by lia.
Qed.

Lemma land_range a b : 0 <= a < 2 ^ 32 -> 0 <= b < 2 ^ 32 -> 0 <= Z.land a b < 2 ^ 32.
Proof.
  intros A B. assert (0 <= Z.land a b) by (apply Z.land_nonneg; lia). split; [done|].
  destruct (decide (Z.land a b = 0)) as [-> |N]; [lia|].
  apply Z.log2_lt_pow2; [lia|]. eapply Z.le_lt_trans; [apply Z.log2_land; lia|].
  eapply Z.le_lt_trans; [apply Z.le_min_l|].
  destruct (decide (a = 0)) as [-> |]; [cbn; lia|apply Z.log2_lt_pow2; lia].
Qed.

Lemma clearbit_range a n : 0 <= a < 2 ^ 32 -> 0 <= Z.clearbit a n < 2 ^ 32.
Proof.
  intros A. assert (0 <= Z.clearbit a n).
  { unfold Z.clearbit. rewrite Z.ldiff_nonneg. lia. }
  split; [done|]. destruct (decide (Z.clearbit a n = 0)) as [-> |N]; [lia|].
  apply Z.log2_lt_pow2; [lia|].
  destruct (Z_lt_le_dec (Z.log2 (Z.clearbit a n)) 32) as [|G]; [done|].
  assert (B := Z.bit_log2 (Z.clearbit a n) ltac:(lia)).
  rewrite Z.clearbit_eqb in B. apply andb_true_iff in B as [B _].
  by rewrite (bits_above_u32 a _ A G) in B.
Qed.

(** ** The lowest signal *)

(** The bits of [x & -x], for an [x] whose lowest bit is [n]. *)
Lemma lowest_land x n : 0 <= n -> Z.testbit x n = true -> (forall j, 0 <= j < n -> Z.testbit x j = false) ->
  Z.land x (- x) = 2 ^ n.
Proof.
  intros N B L. assert (E : x = 2 ^ n * (2 * (x / 2 ^ (n + 1)) + 1)).
  { assert (M : x mod 2 ^ n = 0).
    { apply Z.bits_inj'. intros i I. rewrite Z.testbit_0_l.
      destruct (decide (i < n)).
      - rewrite Z.mod_pow2_bits_low by lia. apply L. lia.
      - by rewrite Z.mod_pow2_bits_high by lia. }
    assert (O : Z.odd (x / 2 ^ n) = true).
    { rewrite <- Z.bit0_odd, Z.div_pow2_bits by lia. by rewrite Z.add_0_l. }
    rewrite Z.pow_add_r, <- Z.div_div by lia.
    apply Z.odd_spec in O as [q Hq]. rewrite Hq. change (2 ^ 1) with 2.
    replace ((2 * q + 1) / 2) with q by (Z.to_euclidean_division_equations; lia).
    rewrite <- Hq. apply Z.div_exact in M; [lia|]. apply Z.pow_nonzero; lia. }
  generalize dependent (x / 2 ^ (n + 1)). intros q E. subst x. clear B L.
  replace (- (2 ^ n * (2 * q + 1))) with (2 ^ n * (2 * (- q - 1) + 1)) by lia.
  rewrite !(Z.mul_comm (2 ^ n)), <- !Z.shiftl_mul_pow2 by done. rewrite <- Z.shiftl_land.
  replace (Z.land (2 * q + 1) (2 * (- q - 1) + 1)) with 1.
  { rewrite Z.shiftl_mul_pow2 by done. lia. }
  apply Z.bits_inj'. intros i I. rewrite Z.land_spec.
  destruct (decide (i = 0)) as [-> |]; [by rewrite !Z.testbit_odd_0|].
  replace i with (Z.succ (i - 1)) by lia. rewrite !Z.testbit_odd_succ by lia.
  replace (- q - 1) with (Z.lnot q) by (unfold Z.lnot; lia). rewrite Z.lnot_spec by lia.
  rewrite andb_negb_r. change 1 with (2 * 0 + 1). by rewrite Z.testbit_odd_succ, Z.testbit_0_l by lia.
Qed.

Lemma lowest_exists x k : 0 <= k -> Z.testbit x k = true ->
  exists n, 0 <= n <= k /\ Z.testbit x n = true /\ forall j, 0 <= j < n -> Z.testbit x j = false.
Proof.
  intros K. pattern k. apply Zlt_0_ind; [|done]. clear k K. intros k IH K B.
  destruct (Exists_dec (fun j => Z.testbit x j = true) (seqZ 0 k)) as [E|E].
  - apply Exists_exists in E as (j & J & Bj). apply elem_of_seqZ in J.
    destruct (IH j) as (n & N & H); [lia|done|]. exists n. split; [lia|done].
  - exists k. split; [lia|]. split; [done|]. intros j J. apply not_true_is_false. intros Bj. apply E.
    apply Exists_exists. exists j. split; [apply elem_of_seqZ; lia|done].
Qed.

Lemma bsf_spec x : 0 < x < 2 ^ 32 ->
  0 <= bsf x < 32 /\ Z.testbit x (bsf x) = true /\ forall j, 0 <= j < bsf x -> Z.testbit x j = false.
Proof.
  intros X. destruct (lowest_exists x (Z.log2 x)) as (n & N & B & L).
  { apply Z.log2_nonneg. }
  { apply Z.bit_log2. lia. }
  assert (Z.log2 x < 32) by (apply Z.log2_lt_pow2; lia).
  unfold bsf. rewrite (lowest_land x n) by (done || lia). rewrite Z.log2_pow2 by lia. split; [lia|done].
Qed.

(** ** Invariant *)

Record sig_inv (p : proc) : Prop := {
  si_actions : actions_ok (actions p);
  si_kill : sa_handler <$> get (actions p) (SIGKILL - 1) = Some SIG_DFL;
  si_stop : sa_handler <$> get (actions p) (SIGSTOP - 1) = Some SIG_DFL;
  si_signal : 0 <= p_signal p < 2 ^ 32;
  si_blocked : 0 <= p_blocked p < 2 ^ 32;
  si_blockable : Z.land (p_blocked p) BLOCKABLE = p_blocked p
}.

(** What other processes may do to this one while it sleeps: send signals, attach
    to it or detach, store a signal for it to go on with, and change its memory
    and registers. *)
Record others (e : world -> world) : Prop := {
  ot_actions w : actions (cur (e w)) = actions (cur w);
  ot_blocked w : p_blocked (cur (e w)) = p_blocked (cur w);
  ot_pid w : p_pid (cur (e w)) = p_pid (cur w);
  ot_signal w : 0 <= p_signal (cur w) < 2 ^ 32 -> 0 <= p_signal (cur (e w)) < 2 ^ 32;
  ot_exit_code w : 0 <= p_exit_code (cur w) <= 32 -> 0 <= p_exit_code (cur (e w)) <= 32
}.

Lemma others_inv e w : others e -> sig_inv (cur w) -> sig_inv (cur (e w)).
Proof.
  intros O [A K S R B BB]. split; rewrite ?ot_actions, ?ot_blocked by done; try done. by apply ot_signal.
Qed.

Lemma inv_signal x p : sig_inv p -> 0 <= x < 2 ^ 32 -> sig_inv (with_signal x p).
Proof. intros [A K S R B BB] X. by split. Qed.

Lemma inv_blocked x p : sig_inv p -> 0 <= x < 2 ^ 32 -> Z.land x BLOCKABLE = x -> sig_inv (with_blocked x p).
Proof. intros [A K S R B BB] X XB. by split. Qed.

Lemma inv_exit_code x p : sig_inv p -> sig_inv (with_exit_code x p).
Proof. intros [A K S R B BB]. by split. Qed.

Lemma inv_state x p : sig_inv p -> sig_inv (with_state x p).
Proof. intros [A K S R B BB]. by split. Qed.

Lemma sigmask_range s : 1 <= s <= 32 -> 0 <= sigmask s < 2 ^ 32.
Proof.
  intros H. unfold sigmask. split; [apply Z.pow_nonneg; lia|apply Z.pow_lt_mono_r; lia].
Qed.

Lemma actions_some l s : actions_ok l -> 1 <= s <= 32 -> exists sa, get l (s - 1) = Some sa /\ action_ok sa.
Proof.
  intros A S. assert (A' := A). destruct A' as [L F].
  destruct (get l (s - 1)) as [sa|] eqn:G; [exists sa; split; [done|by eapply actions_get]|].
  unfold get in G. destruct (Z.ltb_spec (s - 1) 0); [lia|]. apply lookup_ge_None in G. lia.
Qed.

Create HintDb siginv.
#[local] Hint Resolve inv_signal inv_blocked inv_exit_code inv_state others_inv sigmask_range
  lor_range land_range clearbit_range : siginv.

(** Every round of the loop takes a signal away or sleeps once. *)
Lemma traced_spec s w wakes : 1 <= s <= 32 -> sig_inv (cur w) -> Forall others wakes ->
  exists r, traced s w wakes = Some r /\
  match r with
  | Sleep w' => sig_inv (cur w')
  | Skip w' wk => sig_inv (cur w') /\ Forall others wk /\ length wakes = S (length wk)
  | Go s' w' wk => sig_inv (cur w') /\ Forall others wk /\ 1 <= s' <= 32
      /\ ((s' = s /\ w' = w /\ wk = wakes) \/ length wakes = S (length wk))
  end.
Proof.
  intros S I O. unfold traced. destruct (_ && _); [|eexists; split; [done|]; split; [done|]; split; [done|]; split; [done|by left]].
  set (w1 := tell _ _). assert (I1 : sig_inv (cur w1)) by (cbn; auto with siginv).
  destruct wakes as [|e wakes]; [eexists; split; [done|exact I1]|].
  apply list.Forall_cons in O as [Oe O].
  assert (E := ot_exit_code e Oe w1 ltac:(cbn; lia)). assert (I2 : sig_inv (cur (e w1))) by auto with siginv.
  destruct (p_exit_code (cur (e w1)) =? 0) eqn:Z0; [eexists; split; [done|]; cbn; auto|].
  assert (I3 : sig_inv (cur (set_exit_code 0 (e w1)))) by (cbn; auto with siginv).
  destruct (p_exit_code (cur (e w1)) =? SIGSTOP); [eexists; split; [done|]; cbn; auto|].
  destruct (Z.ltb_spec (p_exit_code (cur (e w1))) 1); [lia|].
  destruct (Z.ltb_spec 32 (p_exit_code (cur (e w1)))); [lia|]. cbn [orb].
  destruct (has _ _); eexists; (split; [done|]).
  - split; [|done]. cbn. apply inv_signal; [exact I3|]. apply lor_range; [apply I3|apply sigmask_range; lia].
  - split; [exact I3|]. split; [done|]. split; [lia|]. by right.
Qed.

Section Deliver.
Context (core_dump : Z -> bool).

Lemma die_code s : 1 <= s <= 32 ->
  let code := if is_core s && core_dump s then Z.lor s 0x80 else s in
  Z.land code 0x7f = s /\ (code = s \/ code = s + 0x80).
Proof.
  intros S. assert (E : Z.lor s 0x80 = s + 0x80 /\ Z.land (Z.lor s 0x80) 0x7f = s /\ Z.land s 0x7f = s).
  { assert (D : s ∈ seqZ 1 32) by (apply elem_of_seqZ; lia).
    clear S. revert s D. apply list.Forall_forall. vm_compute. repeat constructor. }
  destruct (_ && _); cbn zeta; tauto.
Qed.

Lemma act_spec s sa w wakes : 1 <= s <= 32 -> sig_inv (cur w) -> Forall others wakes ->
  match act core_dump s sa w wakes with
  | Ignored w' wk => sig_inv (cur w') /\ Forall others wk
      /\ ((p_signal (cur w') = p_signal (cur w) /\ wk = wakes) \/ length wakes = S (length wk))
  | Handled w' => cur w' = cur w
  | Dies _ w' | Stops w' => sig_inv (cur w')
  end.
Proof.
  intros S I O. unfold act. destruct (sa_handler sa =? SIG_IGN).
  { destruct (negb _); cbn; auto. }
  destruct (sa_handler sa =? SIG_DFL); [|done].
  destruct (p_pid (cur w) =? 1); [by auto|]. destruct (is_quiet s); [by auto|].
  destruct (is_stop s).
  - destruct (has _ _); [by auto|].
    set (w1 := if negb _ then _ else _). assert (I1 : sig_inv (cur w1)).
    { unfold w1. destruct (negb _); cbn; auto with siginv. }
    destruct wakes as [|e wakes]; [done|]. apply list.Forall_cons in O as [Oe O]. auto with siginv.
  - destruct (die_code s S) as [-> _]. cbn. apply inv_signal; [done|].
    apply lor_range; [apply I|by apply sigmask_range].
Qed.

Definition pending_count (mask : Z) (w : world) : nat := count (Z.land (p_signal (cur w)) mask).

Lemma cleared_count mask w n w' :
  0 <= mask < 2 ^ 32 -> sig_inv (cur w) -> Z.land (p_signal (cur w)) mask <> 0 ->
  n = bsf (Z.land (p_signal (cur w)) mask) -> p_signal (cur w') = Z.clearbit (p_signal (cur w)) n ->
  0 <= n < 32 /\ forall mask', sub mask' mask -> (pending_count mask' w' < pending_count mask w)%nat.
Proof.
  intros M I NZ -> E. assert (R := land_range _ _ (si_signal _ I) M).
  destruct (bsf_spec (Z.land (p_signal (cur w)) mask)) as (N & B & _); [lia|].
  split; [done|]. intros mask' S. unfold pending_count. rewrite E.
  eapply count_sub_lt; [|exact N| |exact B].
  - apply sub_land_mono; [|done]. intros i Hi. rewrite Z.clearbit_eqb. by intros [? _]%andb_true_iff.
  - rewrite Z.land_spec, Z.clearbit_eqb, Z.eqb_refl. cbn. by rewrite andb_false_r.
Qed.

Definition scan_ok (r : sigscan) (n : nat) : Prop :=
  match r with
  | Scanned hs w wk => sig_inv (cur w) /\ 0 <= hs < 2 ^ 32 /\ Forall others wk /\ (length wk <= n)%nat
  | ScanExit _ w | ScanAsleep w => sig_inv (cur w)
  end.

Lemma scan_ok_le r n n' : (n <= n')%nat -> scan_ok r n -> scan_ok r n'.
Proof. intros H. destruct r; cbn; [|done|done]. intros (? & ? & ? & ?). split_and!; try done; lia. Qed.

Lemma deliver_total fuel : forall mask hs w wakes,
  (33 * length wakes + pending_count mask w < fuel)%nat ->
  0 <= mask < 2 ^ 32 -> 0 <= hs < 2 ^ 32 -> sig_inv (cur w) -> Forall others wakes ->
  exists r, deliver core_dump fuel mask hs w wakes = Some r /\ scan_ok r (length wakes).
Proof.
  induction fuel as [|fuel IH]; intros mask hs w wakes L M HS I O; [lia|]. cbn [deliver].
  destruct (Z.eqb_spec (Z.land (p_signal (cur w)) mask) 0) as [Z0|NZ].
  { eexists. split; [done|]. cbn. auto. }
  set (n := bsf _). set (w1 := set_signal _ w).
  destruct (cleared_count mask w n w1) as [N C]; [done|done|done|done|done|].
  assert (I1 : sig_inv (cur w1)) by (cbn; apply inv_signal; [done|]; apply clearbit_range, I).
  destruct (traced_spec (n + 1) w1 wakes) as (r & -> & R); [lia|done|done|]. cbn [mbind option_bind].
  assert (CW : forall m w0, (pending_count m w0 <= 32)%nat) by (intros; apply count_le).
  destruct r as [s w2 wk|w2 wk|w2].
  - destruct R as (I2 & O2 & S & Hd). destruct (actions_some _ s (si_actions _ I2) S) as (sa & -> & AO).
    cbn [mbind option_bind].
    assert (A := act_spec s sa w2 wk S I2 O2). destruct (act _ _ _ _ _) as [w3 wk3|w3|c w3|w3].
    + destruct A as (I3 & O3 & Hd3).
      destruct (IH mask hs w3 wk3) as (r & -> & Hr); [|done|done|done|done|].
      * destruct Hd3 as [[E3 ->]|E3]; [|pose proof (CW mask w3); destruct Hd as [(_ & _ & ->)|Hd]; lia].
        destruct Hd as [(-> & -> & ->)|Hd]; [|pose proof (CW mask w3); lia].
        replace (pending_count mask w3) with (pending_count mask w1)
          by (unfold pending_count; by rewrite E3).
        specialize (C mask (fun i _ B => B)). lia.
      * eexists. split; [done|]. eapply scan_ok_le; [|done].
        destruct Hd as [(_ & _ & ->)|Hd], Hd3 as [(_ & ->)|Hd3]; lia.
    + assert (MR : 0 <= Z.land mask (u32 (Z.lnot (sa_mask sa))) < 2 ^ 32)
        by (apply land_range; [done|apply u32_range]).
      destruct (IH (Z.land mask (u32 (Z.lnot (sa_mask sa)))) (Z.lor hs (sigmask s)) w3 wk) as (r & -> & Hr);
        [|done|apply lor_range; [done|by apply sigmask_range]|by rewrite A|done|].
      * destruct Hd as [(-> & -> & ->)|Hd]; [|pose proof (CW (Z.land mask (u32 (Z.lnot (sa_mask sa)))) w3); lia].
        unfold pending_count at 1. rewrite A.
        specialize (C (Z.land mask (u32 (Z.lnot (sa_mask sa)))) (sub_land_l _ _)). unfold pending_count in C at 1. lia.
      * eexists. split; [done|]. eapply scan_ok_le; [|done]. destruct Hd as [(_ & _ & ->)|Hd]; lia.
    + eexists. by split.
    + eexists. by split.
  - destruct R as (I2 & O2 & Hd). pose proof (CW mask w2).
    destruct (IH mask hs w2 wk) as (r & -> & Hr); [lia|done|done|done|done|].
    eexists. split; [done|]. eapply scan_ok_le; [|done]. lia.
  - eexists. by split.
Qed.
(** ** Order *)

(** The signals one by one, of a process that nobody traces and nobody wakes. *)
Fixpoint in_order (l : list Z) (mask hs : Z) (w : world) : option sigscan :=
  match l with
  | [] => Some (Scanned hs w [])
  | s :: l =>
      if Z.testbit (Z.land (p_signal (cur w)) mask) (s - 1) then
        let w := set_signal (Z.clearbit (p_signal (cur w)) (s - 1)) w in
        sa ← get (actions (cur w)) (s - 1);
        match act core_dump s sa w [] with
        | Ignored w _ => in_order l mask hs w
        | Handled w =>
            in_order l (Z.land mask (u32 (Z.lnot (sa_mask sa)))) (Z.lor hs (sigmask s)) w
        | Dies code w => Some (ScanExit code w)
        | Stops w => Some (ScanAsleep w)
        end
      else in_order l mask hs w
  end.

Definition untraced (w : world) : Prop := has (p_flags (cur w)) PF_PTRACED = false.

Lemma traced_off s w wakes : untraced w -> traced s w wakes = Some (Go s w wakes).
Proof. intros U. unfold traced. by rewrite U. Qed.

(** What a round leaves alone when the process does not sleep. *)
Lemma act_quiet s sa w wakes : untraced w ->
  match act core_dump s sa w wakes with
  | Ignored w' wk => wk = wakes -> cur w' = cur w /\ regs w' = regs w
  | Handled w' => cur w' = cur w /\ regs w' = interrupt sa (regs w)
  | _ => True
  end.
Proof.
  intros U. unfold act. destruct (sa_handler sa =? SIG_IGN); [by destruct (negb _)|].
  destruct (sa_handler sa =? SIG_DFL); [|done].
  destruct (p_pid (cur w) =? 1); [done|]. destruct (is_quiet s); [done|].
  destruct (is_stop s); [|done]. rewrite U. destruct wakes as [|e wakes]; [done|].
  intros E. apply (f_equal length) in E. cbn in E. lia.
Qed.

Lemma act_wakes_nil s sa w w' wk : act core_dump s sa w [] = Ignored w' wk -> wk = [].
Proof.
  unfold act. repeat (case_match; try done); intros; simplify_eq; done.
Qed.

Definition none_below (k x : Z) : Prop := forall j, 0 <= j < k - 1 -> Z.testbit x j = false.

Lemma lowest_is k x : 1 <= k <= 32 -> 0 <= x < 2 ^ 32 -> none_below k x -> Z.testbit x (k - 1) = true ->
  x <> 0 /\ bsf x = k - 1.
Proof.
  intros K X L B. assert (x <> 0) by (intros ->; by rewrite Z.testbit_0_l in B). split; [done|].
  destruct (bsf_spec x) as (N & Bn & Ln); [lia|].
  destruct (Z.lt_trichotomy (bsf x) (k - 1)) as [H1|[H1|H1]]; [|done|].
  - by rewrite L in Bn by lia.
  - by rewrite Ln in B by lia.
Qed.

Lemma none_below_succ k x : 1 <= k -> none_below k x -> Z.testbit x (k - 1) = false -> none_below (k + 1) x.
Proof.
  intros K L B j J. destruct (decide (j = k - 1)) as [-> |]; [done|]. apply L. lia.
Qed.

Lemma none_below_cleared k x m m' : 1 <= k -> none_below k (Z.land x m) -> sub m' m ->
  none_below (k + 1) (Z.land (Z.clearbit x (k - 1)) m').
Proof.
  intros K L S j J. rewrite Z.land_spec, Z.clearbit_eqb.
  destruct (Z.eqb_spec (k - 1) j) as [|N]; [cbn; by rewrite andb_false_r|].
  specialize (L j ltac:(lia)). rewrite Z.land_spec in L.
  destruct (Z.testbit m' j) eqn:B'; [|by rewrite andb_false_r].
  rewrite (S j) in L by (done || lia). rewrite andb_true_r in L. by rewrite L.
Qed.

Lemma deliver_list n : forall k fuel mask hs w,
  Z.of_nat n = 33 - k -> 1 <= k -> (pending_count mask w < fuel)%nat -> 0 <= mask < 2 ^ 32 ->
  sig_inv (cur w) -> untraced w -> none_below k (Z.land (p_signal (cur w)) mask) ->
  deliver core_dump fuel mask hs w [] = in_order (seqZ k (33 - k)) mask hs w.
Proof.
  induction n as [|n IH]; intros k fuel mask hs w N K L M I U B.
  { replace k with 33 by lia. destruct fuel as [|fuel]; [lia|]. cbn [deliver seqZ].
    assert (Z.land (p_signal (cur w)) mask = 0) as ->; [|done].
    apply Z.bits_inj'. intros i Hi. rewrite Z.testbit_0_l. destruct (decide (i < 32)); [apply B; lia|].
    apply bits_above_u32; [apply land_range; [apply I|done]|lia]. }
  rewrite seqZ_cons by lia. replace (Z.succ k) with (k + 1) by lia.
  replace (Z.pred (33 - k)) with (33 - (k + 1)) by lia. cbn [in_order].
  destruct (Z.testbit _ (k - 1)) eqn:T; [|apply IH; try done; try lia; by apply none_below_succ].
  destruct fuel as [|fuel]; [lia|]. cbn [deliver].
  destruct (lowest_is k _ ltac:(lia) (land_range _ _ (si_signal _ I) M) B T) as [NZ ->].
  destruct (Z.eqb_spec (Z.land (p_signal (cur w)) mask) 0); [done|].
  set (w1 := set_signal _ w).
  destruct (cleared_count mask w (k - 1) w1) as [_ C]; [done|done|done|by destruct (lowest_is k _ ltac:(lia) (land_range _ _ (si_signal _ I) M) B T)|done|].
  assert (I1 : sig_inv (cur w1)) by (cbn; apply inv_signal; [done|]; apply clearbit_range, I).
  rewrite traced_off by done. cbn [mbind option_bind]. replace (k - 1 + 1) with k by lia.
  destruct (get _ _) as [sa|]; [|done]. cbn [mbind option_bind].
  assert (Q := act_quiet k sa w1 [] U). 
  destruct (act _ _ _ _ _) as [w3 wk3|w3|c w3|w3] eqn:A; [| |done|done].
  - apply act_wakes_nil in A as ->. destruct (Q eq_refl) as [Qc _]. specialize (C mask (fun i _ X => X)).
    apply IH; try done; try lia; rewrite ?Qc; try done.
    + unfold pending_count in *. rewrite Qc. lia.
    + unfold untraced. by rewrite Qc.
    + apply (none_below_cleared k _ mask); [lia|done|by intros i].
  - destruct Q as [Qc _]. set (mask' := Z.land mask _).
    assert (S : sub mask' mask) by apply sub_land_l. specialize (C mask' S).
    apply IH; try done; try lia; rewrite ?Qc; try done.
    + unfold pending_count in *. rewrite Qc. lia.
    + apply land_range; [done|apply u32_range].
    + unfold untraced. by rewrite Qc.
    + apply (none_below_cleared k _ mask); [lia|done|done].
Qed.
(** ** SIGKILL *)

Lemma blockable_no_kill x : Z.land x BLOCKABLE = x -> Z.testbit x (SIGKILL - 1) = false /\ Z.testbit x (SIGSTOP - 1) = false.
Proof.
  intros H. rewrite <- H, !Z.land_spec.
  replace (Z.testbit BLOCKABLE (SIGKILL - 1)) with false by reflexivity.
  replace (Z.testbit BLOCKABLE (SIGSTOP - 1)) with false by reflexivity. by rewrite !andb_false_r.
Qed.

Lemma unmasked x i : 0 <= i < 32 -> Z.testbit (u32 (Z.lnot x)) i = negb (Z.testbit x i).
Proof.
  intros H. rewrite testbit_u32, Z.lnot_spec by lia. destruct (Z.ltb_spec i 32); [done|lia].
Qed.

(** Up to SIGKILL no signal stops a process. *)
Lemma act_low s sa w wakes : 1 <= s <= SIGKILL -> untraced w ->
  match act core_dump s sa w wakes with
  | Ignored w' wk => cur w' = cur w /\ wk = wakes
  | Handled w' => cur w' = cur w
  | Dies code _ => code = s \/ code = s + 0x80
  | Stops _ => False
  end.
Proof.
  unfold SIGKILL. intros S U.
  assert (NS : is_stop s = false) by (unfold is_stop, SIGSTOP, SIGTSTP, SIGTTIN, SIGTTOU; lia).
  unfold act. destruct (sa_handler sa =? SIG_IGN); [by destruct (negb _)|].
  destruct (sa_handler sa =? SIG_DFL); [|done].
  destruct (p_pid (cur w) =? 1); [done|]. destruct (is_quiet s); [done|]. rewrite NS.
  by destruct (die_code s ltac:(lia)).
Qed.

Lemma act_kill sa w wakes : sa_handler sa = SIG_DFL -> p_pid (cur w) <> 1 ->
  exists w', act core_dump SIGKILL sa w wakes = Dies SIGKILL w'.
Proof.
  intros H P. unfold act. rewrite H. cbn. destruct (Z.eqb_spec (p_pid (cur w)) 1); [done|]. by eexists.
Qed.

Lemma deliver_kill fuel : forall mask hs w wakes,
  (pending_count mask w < fuel)%nat -> 0 <= mask < 2 ^ 32 -> sig_inv (cur w) -> untraced w ->
  p_pid (cur w) <> 1 -> Z.testbit (Z.land (p_signal (cur w)) mask) (SIGKILL - 1) = true ->
  exists code w' s, deliver core_dump fuel mask hs w wakes = Some (ScanExit code w')
    /\ 1 <= s <= SIGKILL /\ (code = s \/ code = s + 0x80).
Proof.
  induction fuel as [|fuel IH]; intros mask hs w wakes L M I U P K; [lia|]. cbn [deliver].
  assert (R := land_range _ _ (si_signal _ I) M).
  destruct (Z.eqb_spec (Z.land (p_signal (cur w)) mask) 0) as [Z0|NZ]; [by rewrite Z0, Z.testbit_0_l in K|].
  destruct (bsf_spec (Z.land (p_signal (cur w)) mask)) as (N & B & Lo); [lia|].
  set (n := bsf _) in *. set (w1 := set_signal _ w).
  assert (NK : n <= SIGKILL - 1).
  { destruct (Z_lt_le_dec (SIGKILL - 1) n) as [G|]; [|lia]. rewrite Lo in K; [done|]. unfold SIGKILL in *. lia. }
  destruct (cleared_count mask w n w1) as [_ C]; [done|done|done|done|done|].
  assert (I1 : sig_inv (cur w1)) by (cbn; apply inv_signal; [done|]; apply clearbit_range, I).
  rewrite traced_off by done. cbn [mbind option_bind].
  destruct (actions_some _ (n + 1) (si_actions _ I1) ltac:(lia)) as (sa & G & AO). rewrite G. cbn [mbind option_bind].
  assert (Q := act_low (n + 1) sa w1 wakes ltac:(lia) U).
  destruct (decide (n + 1 = SIGKILL)) as [E|NE].
  { rewrite E in *. assert (D := si_kill _ I1). rewrite G in D. apply (inj Some) in D.
    destruct (act_kill sa w1 wakes D P) as [w2 ->]. exists SIGKILL, w2, SIGKILL. unfold SIGKILL. split; [done|]. lia. }
  assert (K' : forall mask', Z.testbit mask' (SIGKILL - 1) = true ->
    Z.testbit (Z.land (p_signal (cur w1)) mask') (SIGKILL - 1) = true).
  { intros mask' KM. rewrite Z.land_spec in K |- *. apply andb_true_iff in K as [K1 K2].
    cbn [w1 set_signal on_cur cur p_signal with_signal]. rewrite Z.clearbit_eqb, K1, KM.
    destruct (Z.eqb_spec n (SIGKILL - 1)); [lia|done]. }
  assert (KM : Z.testbit mask (SIGKILL - 1) = true) by (rewrite Z.land_spec in K; by apply andb_true_iff in K as [_ K]).
  destruct (act _ _ _ _ _) as [w3 wk3|w3|c w3|w3]; [| | |done].
  - destruct Q as [Qc ->]. specialize (C mask (fun i _ X => X)). apply IH; rewrite ?Qc; try done.
    + unfold pending_count in *. rewrite Qc. lia.
    + unfold untraced. by rewrite Qc.
    + by apply K'.
  - set (mask' := Z.land mask _). specialize (C mask' (sub_land_l _ _)). apply IH; rewrite ?Q; try done.
    + unfold pending_count in *. rewrite Q. lia.
    + apply land_range; [done|apply u32_range].
    + unfold untraced. by rewrite Q.
    + apply K'. unfold mask'. rewrite Z.land_spec, KM, unmasked by (unfold SIGKILL; lia).
      by destruct (blockable_no_kill _ (ao_blockable _ AO)) as [-> _].
  - exists c, w3, (n + 1). split; [done|]. split; [lia|done].
Qed.
(** ** Interrupted system calls *)

Definition action_of (p : proc) (s : Z) : sigaction := default (Sigaction 0 0 0 0) (get (actions p) (s - 1)).

Definition interrupts (p : proc) (l : list Z) (r : pt_regs) : pt_regs :=
  foldl (fun r s => interrupt (action_of p s) r) r l.

(** A handled signal is added to a set that has only lower ones. *)
Lemma set_above k hs : 1 <= k -> (forall j, k - 1 <= j -> Z.testbit hs j = false) ->
  forall j, k <= j -> Z.testbit (Z.lor hs (sigmask k)) j = false.
Proof.
  intros K H j J. unfold sigmask. rewrite Z.lor_spec, H, Z.pow2_bits_false by lia. done.
Qed.

Lemma in_order_regs n : forall k mask hs w hs' w' wk,
  Z.of_nat n = 33 - k -> 1 <= k -> untraced w -> (forall j, k - 1 <= j -> Z.testbit hs j = false) ->
  in_order (seqZ k (33 - k)) mask hs w = Some (Scanned hs' w' wk) ->
  (forall j, 0 <= j < k - 1 -> Z.testbit hs' j = Z.testbit hs j)
  /\ regs w' = interrupts (cur w) (sigs_from k hs') (regs w).
Proof.
  induction n as [|n IH]; intros k mask hs w hs' w' wk N K U HS E.
  { replace k with 33 in * by lia. cbn in E. injection E as <- <- <-. done. }
  rewrite seqZ_cons in E by lia. replace (Z.succ k) with (k + 1) in E by lia.
  replace (Z.pred (33 - k)) with (33 - (k + 1)) in E by lia. cbn [in_order] in E.
  rewrite sigs_from_step by lia.
  assert (Skip : forall w1, untraced w1 -> actions (cur w1) = actions (cur w) -> regs w1 = regs w ->
    in_order (seqZ (k + 1) (33 - (k + 1))) mask hs w1 = Some (Scanned hs' w' wk) ->
    (forall j, 0 <= j < k - 1 -> Z.testbit hs' j = Z.testbit hs j)
    /\ regs w' = interrupts (cur w)
         (if Z.testbit hs' (k - 1) then k :: sigs_from (k + 1) hs' else sigs_from (k + 1) hs') (regs w)).
  { intros w1 U1 A1 R1 E1. apply IH in E1 as [E1 ER]; [|lia|lia|done|intros j J; apply HS; lia].
    split; [intros j J; apply E1; lia|]. rewrite (E1 (k - 1)), HS by lia. rewrite ER, R1.
    unfold interrupts, action_of. by rewrite A1. }
  destruct (Z.testbit _ (k - 1)); [|by apply (Skip w)].
  destruct (get _ _) as [sa|] eqn:G; [|done]. cbn [mbind option_bind] in E.
  set (w1 := set_signal _ w) in *. assert (Q := act_quiet k sa w1 [] U).
  destruct (act _ _ _ _ _) as [w3 wk3|w3|c w3|w3] eqn:A; [| |done|done].
  - apply act_wakes_nil in A as ->. destruct (Q eq_refl) as [Qc Qr]. apply (Skip w3); try done.
    + unfold untraced. by rewrite Qc.
    + by rewrite Qc.
  - destruct Q as [Qc Qr]. apply IH in E as [E ER]; [|lia|lia|unfold untraced; by rewrite Qc|].
    2:{ replace (k + 1 - 1) with k by lia. by apply set_above. }
    split.
    + intros j J. rewrite E by lia. unfold sigmask. by rewrite Z.lor_spec, Z.pow2_bits_false, orb_false_r by lia.
    + rewrite (E (k - 1)) by lia. unfold sigmask at 1. rewrite Z.lor_spec, Z.pow2_bits_true, orb_true_r by lia.
      rewrite ER, Qr. unfold interrupts. cbn [foldl]. unfold action_of. rewrite Qc.
      change (actions (cur w1)) with (actions (cur w)) in G. cbn [w1 set_signal on_cur cur actions with_signal].
      rewrite G. done.
Qed.
(** Whether a call that ended with [err] is made again when the handlers of the
    signals [l] run. *)
Definition restarts (p : proc) (l : list Z) (err : Z) : bool :=
  if err =? - ERESTARTNOINTR then true
  else if err =? - ERESTARTNOHAND then bool_decide (l = [])
  else if err =? - ERESTARTSYS then forallb (fun s => has (sa_flags (action_of p s)) SA_RESTART) l
  else false.

(** The registers with which the program goes on after the system call. *)
Definition syscall_end (p : proc) (l : list Z) (r : pt_regs) : pt_regs :=
  let err := s32 (eax r) in
  if s32 (orig_eax r) <? 0 then r
  else if restarts p l err then with_eip (u32 (eip r - 2)) (with_eax (orig_eax r) r)
  else if (err =? - ERESTARTNOHAND) || (err =? - ERESTARTSYS) then with_eax (u32 (- EINTR)) r
  else r.

Lemma with_eax_twice x y r : with_eax x (with_eax y r) = with_eax x r.
Proof. done. Qed.

Lemma interrupts_stable p l r x : s32 (eax r) <> - ERESTARTNOHAND -> s32 (eax r) <> - ERESTARTSYS ->
  interrupts p l r = r /\ (x = u32 (- EINTR) -> interrupts p l (with_eax x r) = with_eax x r).
Proof.
  intros N1 N2. split.
  - induction l as [|s l IH]; [done|]. unfold interrupts in *. cbn [foldl]. unfold interrupt at 2.
    destruct (Z.eqb_spec (s32 (eax r)) (- ERESTARTNOHAND)); [done|].
    destruct (Z.eqb_spec (s32 (eax r)) (- ERESTARTSYS)); [done|]. by rewrite andb_false_r.
  - intros ->. induction l as [|s l IH]; [done|]. unfold interrupts in *. cbn [foldl]. unfold interrupt at 2.
    replace (s32 (eax (with_eax (u32 (- EINTR)) r))) with (- EINTR) by reflexivity. cbn [Z.eqb EINTR ERESTARTNOHAND ERESTARTSYS Z.opp Pos.eqb orb andb].
    by rewrite andb_false_r.
Qed.

Lemma interrupts_eintr p l r : interrupts p l (with_eax (u32 (- EINTR)) r) = with_eax (u32 (- EINTR)) r.
Proof. by apply (interrupts_stable p l (with_eax (u32 (- EINTR)) r) 0). Qed.

Lemma interrupts_spec p l r : 0 <= s32 (orig_eax r) ->
  interrupts p l r =
    if ((s32 (eax r) =? - ERESTARTNOHAND) && negb (bool_decide (l = [])))
       || ((s32 (eax r) =? - ERESTARTSYS) && negb (forallb (fun s => has (sa_flags (action_of p s)) SA_RESTART) l))
    then with_eax (u32 (- EINTR)) r else r.
Proof.
  intros O. induction l as [|s l IH]; [cbn; by rewrite !andb_false_r|].
  unfold interrupts in *. cbn [foldl forallb]. unfold interrupt at 2.
  destruct (Z.leb_spec 0 (s32 (orig_eax r))); [|lia]. cbn [andb].
  rewrite (bool_decide_eq_false_2 (s :: l = [])) by done. cbn [negb]. rewrite andb_true_r.
  destruct (Z.eqb_spec (s32 (eax r)) (- ERESTARTNOHAND)) as [E|NE]; cbn [orb andb].
  { apply interrupts_eintr. }
  destruct (Z.eqb_spec (s32 (eax r)) (- ERESTARTSYS)) as [E'|NE']; cbn [orb andb].
  - destruct (has _ SA_RESTART); cbn [negb andb].
    + rewrite IH. cbn [orb andb]. done.
    + apply interrupts_eintr.
  - by rewrite IH.
Qed.

Lemma restart_end p l r : restart (interrupts p l r) = syscall_end p l r.
Proof.
  unfold syscall_end, restarts. destruct (Z.ltb_spec (s32 (orig_eax r)) 0) as [O|O].
  - assert (interrupts p l r = r) as ->.
    { unfold interrupts. induction l as [|s l IH]; [done|]. cbn [foldl]. unfold interrupt at 2.
      by destruct (Z.leb_spec 0 (s32 (orig_eax r))); [lia|]. }
    unfold restart. by destruct (Z.leb_spec 0 (s32 (orig_eax r))); [lia|].
  - rewrite interrupts_spec by done.
    assert (RO : forall x, (0 <=? s32 (orig_eax (with_eax x r))) = true) by (intros x; cbn; lia).
    assert (RE : restart (with_eax (u32 (- EINTR)) r) = with_eax (u32 (- EINTR)) r).
    { unfold restart. rewrite RO. done. }
    destruct (Z.leb_spec 0 (s32 (orig_eax r))) as [_|]; [|lia].
    assert (RR : restart r = if (s32 (eax r) =? - ERESTARTNOHAND) || (s32 (eax r) =? - ERESTARTSYS)
                                || (s32 (eax r) =? - ERESTARTNOINTR)
                 then with_eip (u32 (eip r - 2)) (with_eax (orig_eax r) r) else r).
    { unfold restart. by destruct (Z.leb_spec 0 (s32 (orig_eax r))); [|lia]. }
    change (- ERESTARTNOHAND) with (-514) in *. change (- ERESTARTSYS) with (-512) in *.
    change (- ERESTARTNOINTR) with (-513) in *.
    destruct (Z.eqb_spec (s32 (eax r)) (- 513)) as [E|N1]; [rewrite E in *; exact RR|].
    destruct (Z.eqb_spec (s32 (eax r)) (- 514)) as [E|N2].
    { rewrite E in *. cbn [andb orb negb Z.eqb Z.opp Pos.eqb] in *. destruct (bool_decide (l = [])); cbn [negb]; [exact RR|exact RE]. }
    destruct (Z.eqb_spec (s32 (eax r)) (- 512)) as [E|N3]; cbn [andb orb] in *; [|exact RR].
    destruct (forallb _ l); [exact RR|exact RE].
Qed.
End Deliver.
End SignalDeliver.
