(* ===== verification/SignalProps.v ===== *)
(** * The signals of a process over its life ([src/kernel/signal.c])

    The calls of [kernel/signal.c] by a process, with user code and other processes
    in between: every call has a result, SIGKILL and SIGSTOP are never blocked or
    caught, SIGKILL ends the process, and the handlers that a delivery starts return
    to the interrupted program. *)

From S2P Require Import Prelude Ipc Sched Signal SignalFrame SignalDeliver.
From Stdlib Require Import ZArith Lia.
From stdpp Require Import base list gmap sets.
Local Open Scope Z_scope.

Module SignalProps.
Import Sched Signal SignalFrame SignalDeliver.

Section Props.
Context (wp : bool) (vw : Z -> Z -> Z) (core_dump : Z -> bool).

(** The entries from user mode. [Deliver] is the end of a system call or an
    interrupt, where [do_signal] gets the blocked signals. *)
Inductive call :=
  | Sigprocmask (how set oset : Z)
  | Ssetmask (newmask : Z)
  | Sigpending (set : Z)
  | Signal_ (signum handler : Z)
  | Sigaction_ (signum action oldaction : Z)
  | Sigsuspend (set : Z)
  | Sigreturn
  | Deliver.

(** An address is an unsigned word. *)
Definition call_ok (c : call) : Prop := if c is Signal_ _ handler then 0 <= handler else True.

Definition ret (x : Z * world) (wakes : list (world -> world)) : outcome := Returned x.1 x.2 wakes.

Definition sig_run (c : call) (w : world) (wakes : list (world -> world)) : option outcome :=
  match c with
  | Sigprocmask how set oset => Some (ret (sys_sigprocmask wp vw how set oset w) wakes)
  | Ssetmask newmask => Some (ret (sys_ssetmask newmask w) wakes)
  | Sigpending set => Some (ret (sys_sigpending wp vw set w) wakes)
  | Signal_ signum handler => x ← sys_signal signum handler w; Some (ret x wakes)
  | Sigaction_ signum action oldaction => x ← sys_sigaction wp vw signum action oldaction w; Some (ret x wakes)
  | Sigsuspend set => sys_sigsuspend wp vw core_dump set w wakes
  | Sigreturn => Some (sys_sigreturn wp vw w)
  | Deliver => do_signal wp vw core_dump (p_blocked (cur w)) w wakes
  end.

Definition outcome_world (o : outcome) : world :=
  match o with Returned _ w _ | Exited _ w | Asleep w => w end.

(** ** Masks *)

Lemma land_blockable x : 0 <= Z.land x BLOCKABLE < 2 ^ 32 /\ Z.land (Z.land x BLOCKABLE) BLOCKABLE = Z.land x BLOCKABLE.
Proof.
  split; [|by rewrite <- Z.land_assoc, Z.land_diag].
  assert (B : 0 <= BLOCKABLE < 2 ^ 32) by by vm_compute.
  assert (0 <= Z.land x BLOCKABLE) by (apply Z.land_nonneg; lia). split; [done|].
  destruct (decide (Z.land x BLOCKABLE = 0)) as [-> |N]; [lia|].
  apply Z.log2_lt_pow2; [lia|]. destruct (Z_lt_le_dec (Z.log2 (Z.land x BLOCKABLE)) 32) as [|G]; [done|].
  assert (T := Z.bit_log2 (Z.land x BLOCKABLE) ltac:(lia)).
  rewrite Z.land_spec, (bits_above_u32 BLOCKABLE _ B G), andb_false_r in T. done.
Qed.

Lemma lor_blockable a b : Z.land a BLOCKABLE = a -> Z.land b BLOCKABLE = b -> Z.land (Z.lor a b) BLOCKABLE = Z.lor a b.
Proof. intros A B. by rewrite Z.land_lor_distr_l, A, B. Qed.

Lemma land_l_blockable a b : Z.land a BLOCKABLE = a -> Z.land (Z.land a b) BLOCKABLE = Z.land a b.
Proof. intros A. by rewrite <- Z.land_assoc, (Z.land_comm b), Z.land_assoc, A. Qed.

Lemma inv_set_blocked x w : sig_inv (cur w) -> sig_inv (cur (set_blocked (Z.land x BLOCKABLE) w)).
Proof. intros I. destruct (land_blockable x). by apply inv_blocked. Qed.

Lemma sigprocmask_inv how set oset w : sig_inv (cur w) -> sig_inv (cur (sys_sigprocmask wp vw how set oset w).2).
Proof.
  intros I. destruct (land_blockable (get_fs_long set (mem w))) as [R B].
  assert (I1 : sig_inv (cur (set_blocked (Z.lor (p_blocked (cur w)) (Z.land (get_fs_long set (mem w)) BLOCKABLE)) w))).
  { apply inv_blocked; [done|apply lor_range; [apply I|done]|apply lor_blockable; [apply I|done]]. }
  assert (I2 : sig_inv (cur (set_blocked
    (Z.land (p_blocked (cur w)) (u32 (Z.lnot (Z.land (get_fs_long set (mem w)) BLOCKABLE)))) w))).
  { apply inv_blocked; [done|apply land_range; [apply I|apply u32_range]|apply land_l_blockable, I]. }
  assert (I3 := inv_set_blocked (get_fs_long set (mem w)) w I).
  unfold sys_sigprocmask. repeat case_bool; done.
Qed.

(** ** Actions *)

Lemma check_pending_inv s w : 1 <= s <= 32 -> sig_inv (cur w) ->
  exists w', check_pending s w = Some w' /\ sig_inv (cur w').
Proof.
  intros S I. unfold check_pending.
  destruct (actions_some _ s (si_actions _ I) S) as (sa & -> & _). cbn [mbind option_bind].
  assert (D : sig_inv (cur (set_signal (Z.land (p_signal (cur w)) (u32 (Z.lnot (sigmask s)))) w))).
  { apply inv_signal; [done|]. apply land_range; [apply I|apply u32_range]. }
  repeat case_match; eexists; split; try reflexivity; done.
Qed.

Lemma get_put_ne {A} (l : list A) i j x l' : put l i x = Some l' -> i <> j -> get l' j = get l j.
Proof.
  unfold put, get. intros H N. destruct (_ || _) eqn:B; [done|]. injection H as <-.
  destruct (Z.ltb_spec j 0); [done|]. apply list_lookup_insert_ne. lia.
Qed.

Lemma get_put_eq {A} (l : list A) i x l' : put l i x = Some l' -> get l' i = Some x.
Proof.
  unfold put, get. intros H. destruct (_ || _) eqn:B; [done|]. injection H as <-.
  destruct (Z.ltb_spec i 0); [lia|]. apply list_lookup_insert_eq. lia.
Qed.

Lemma put_action_inv s sa w l : sig_inv (cur w) -> action_ok sa -> s <> SIGKILL -> s <> SIGSTOP ->
  put (actions (cur w)) (s - 1) sa = Some l -> sig_inv (cur (set_actions l w)).
Proof.
  intros [A K T R B BB] AO NK NS P. split; cbn; try done.
  - by eapply actions_put.
  - by rewrite (get_put_ne _ _ _ _ _ P) by lia.
  - by rewrite (get_put_ne _ _ _ _ _ P) by lia.
Qed.

Lemma put_some {A} (l : list A) i x : 0 <= i < Z.of_nat (length l) -> exists l', put l i x = Some l'.
Proof. intros H. unfold put. destruct (_ || _) eqn:B; [lia|by eexists]. Qed.

Lemma no_action_false s : no_action s = false -> 1 <= s <= 32 /\ s <> SIGKILL /\ s <> SIGSTOP.
Proof. unfold no_action, SIGKILL, SIGSTOP. lia. Qed.

Lemma store_action s sa w : sig_inv (cur w) -> action_ok sa -> no_action s = false ->
  exists l w', put (actions (cur w)) (s - 1) sa = Some l
    /\ check_pending s (set_actions l w) = Some w' /\ sig_inv (cur w').
Proof.
  intros I AO N. apply no_action_false in N as (S & NK & NS).
  destruct (put_some (actions (cur w)) (s - 1) sa) as [l P].
  { destruct (si_actions _ I) as [-> _]. lia. }
  assert (I' := put_action_inv _ _ _ _ I AO NK NS P).
  destruct (check_pending_inv s _ S I') as (w' & C & Iw). by exists l, w'.
Qed.

Lemma signal_inv s h w : 0 <= h -> sig_inv (cur w) ->
  exists x, sys_signal s h w = Some x /\ sig_inv (cur x.2).
Proof.
  intros H I. unfold sys_signal. destruct (no_action s) eqn:N; [by eexists|].
  destruct (Z.leb_spec TASK_SIZE h); [by eexists|].
  set (sa := Sigaction _ _ _ _). assert (AO : action_ok sa) by (split; cbn; [lia|lia|done]).
  destruct (store_action s sa w I AO N) as (l & w' & P & C & Iw).
  apply no_action_false in N as (S & _).
  destruct (actions_some _ s (si_actions _ I) S) as (old & -> & _). cbn [mbind option_bind].
  rewrite P. cbn [mbind option_bind]. rewrite C. by eexists.
Qed.

Lemma new_action_ok s a m : 1 <= s <= 32 -> sa_handler (new_action s (read_action a m)) < TASK_SIZE ->
  action_ok (new_action s (read_action a m)).
Proof.
  intros S H. split.
  - split; [apply get_fs_long_range|done].
  - cbn. destruct (has _ _); [lia|]. apply land_blockable.
  - cbn. destruct (has _ _); [done|]. apply land_blockable.
Qed.

Lemma sigaction_inv s a o w : sig_inv (cur w) ->
  exists x, sys_sigaction wp vw s a o w = Some x /\ sig_inv (cur x.2).
Proof.
  intros I. unfold sys_sigaction. destruct (no_action s) eqn:N; [by eexists|].
  assert (N' := N). apply no_action_false in N' as (S & _).
  destruct (actions_some _ s (si_actions _ I) S) as (old & -> & _). cbn [mbind option_bind].
  set (sa := new_action _ _).
  assert (ST : forall w1, sig_inv (cur w1) -> negb (a =? 0) = true -> action_ok sa ->
    exists x, (acts ← put (actions (cur w1)) (s - 1) sa; w ← check_pending s (set_actions acts w1); Some (0, w)) = Some x
      /\ sig_inv (cur x.2)).
  { intros w1 I1 _ AO. destruct (store_action s sa w1 I1 AO N) as (l & w' & -> & C & Iw).
    cbn [mbind option_bind]. rewrite C. by eexists. }
  destruct (negb (a =? 0)).
  - destruct (negb _); [by eexists|]. destruct (Z.leb_spec TASK_SIZE (sa_handler sa)); [by eexists|].
    assert (AO : action_ok sa) by by apply new_action_ok.
    destruct (negb (o =? 0)); [|by apply ST]. destruct (negb _); [by eexists|]. by apply ST.
  - destruct (negb (o =? 0)); [|by eexists]. destruct (negb _); by eexists.
Qed.

(** ** Delivery *)

Lemma reset_inv (b : bool) s sa w l : sig_inv (cur w) -> action_ok sa ->
  (if b then put (actions (cur w)) (s - 1) (Sigaction 0 (sa_mask sa) (sa_flags sa) (sa_restorer sa))
   else Some (actions (cur w))) = Some l -> sig_inv (cur (set_actions l w)).
Proof.
  intros [A K T R B BB] AO P. split; cbn; try done.
  - by eapply reset_actions.
  - destruct b; [|by injection P as <-]. destruct (decide (s = SIGKILL)) as [-> |N].
    + by rewrite (get_put_eq _ _ _ _ P).
    + by rewrite (get_put_ne _ _ _ _ _ P) by lia.
  - destruct b; [|by injection P as <-]. destruct (decide (s = SIGSTOP)) as [-> |N].
    + by rewrite (get_put_eq _ _ _ _ P).
    + by rewrite (get_put_ne _ _ _ _ _ P) by lia.
Qed.

Lemma build_list_inv l : forall frame ip oldmask w, Forall (fun s => 1 <= s <= 32) l -> sig_inv (cur w) ->
  exists r, build_list wp vw l frame ip oldmask w = Some r
    /\ match r with inl (_, _, w') => sig_inv (cur w') | inr (_, w') => sig_inv (cur w') end.
Proof.
  induction l as [|s l IH]; intros frame ip oldmask w F I; [by eexists|]. cbn [build_list].
  apply list.Forall_cons in F as [S F].
  destruct (actions_some _ s (si_actions _ I) S) as (sa & -> & AO). cbn [mbind option_bind].
  destruct (setup_frame _ _ _ _ _ _ _ _) as [[f w1]|c] eqn:SF; [|by eexists].
  assert (E : cur w1 = cur w).
  { unfold setup_frame in SF. cbv zeta in SF. destruct (negb (verify_area _ _ _ _ _ =? 0)); by simplify_eq. }
  rewrite E.
  destruct (if has (sa_flags sa) SA_ONESHOT then _ else _) as [acts|] eqn:P.
  2:{ destruct (has _ _); [|done].
      destruct (put_some (actions (cur w)) (s - 1) (Sigaction 0 (sa_mask sa) (sa_flags sa) (sa_restorer sa))) as [l' Hl];
        [|by rewrite Hl in P]. destruct (si_actions _ I) as [-> _]. lia. }
  cbn [mbind option_bind]. apply IH; [done|].
  apply (inv_blocked _ (cur (set_actions acts w1))).
  - rewrite <- E in *. by eapply reset_inv.
  - cbn. rewrite E. apply lor_range; [apply I|apply AO].
  - cbn. rewrite E. apply lor_blockable; [apply I|apply AO].
Qed.

Lemma sigs_range set : Forall (fun s => 1 <= s <= 32) (sigs set).
Proof.
  apply list.Forall_forall. intros s H. apply list_elem_of_filter in H as [_ H]. apply elem_of_seqZ in H. lia.
Qed.

Definition outcome_ok (wakes : list (world -> world)) (o : outcome) : Prop :=
  sig_inv (cur (outcome_world o))
  /\ if o is Returned _ _ wk then Forall others wk /\ (length wk <= length wakes)%nat else True.

Lemma do_signal_ok oldmask w wakes : sig_inv (cur w) -> Forall others wakes ->
  exists o, do_signal wp vw core_dump oldmask w wakes = Some o /\ outcome_ok wakes o.
Proof.
  intros I O. unfold do_signal.
  destruct (deliver_total core_dump (deliver_fuel wakes) (u32 (Z.lnot (p_blocked (cur w)))) 0 w wakes)
    as (r & -> & R); [|apply u32_range|lia|done|done|].
  { unfold deliver_fuel, pending_count. pose proof (count_le (Z.land (p_signal (cur w)) (u32 (Z.lnot (p_blocked (cur w)))))). lia. }
  cbn [mbind option_bind]. destruct r as [hs w1 wk|c w1|w1]; [|by eexists|by eexists].
  destruct R as (I1 & HS & O1 & L1). destruct (hs =? 0); [by eexists|].
  rewrite build_sigs by done. cbn [regs set_regs].
  destruct (build_list_inv (sigs hs) (esp (restart (regs w1))) (eip (restart (regs w1))) oldmask
    (set_regs (restart (regs w1)) w1) (sigs_range hs) I1) as (b & -> & B).
  cbn [mbind option_bind]. destruct b as [[[f ip] w2]|[c w2]]; [|by eexists].
  eexists. split; [done|]. split; [|done]. destruct B as [A K T R2 B BB]. by split.
Qed.

Lemma suspend_ok mask fuel : forall w wakes, (length wakes < fuel)%nat -> sig_inv (cur w) -> Forall others wakes ->
  exists o, suspend wp vw core_dump mask fuel w wakes = Some o /\ sig_inv (cur (outcome_world o)).
Proof.
  induction fuel as [|fuel IH]; intros w wakes L I O; [lia|]. cbn [suspend].
  assert (I1 : sig_inv (cur (set_state TASK_INTERRUPTIBLE w))) by by apply inv_state.
  destruct wakes as [|e wakes]; [by eexists|]. apply list.Forall_cons in O as [Oe O]. cbn in L.
  destruct (do_signal_ok mask (e (set_state TASK_INTERRUPTIBLE w)) wakes) as (o & -> & Io & Ro);
    [by apply others_inv|done|]. cbn [mbind option_bind].
  destruct o as [r w1 wk|c w1|w1]; [|by eexists|by eexists].
  destruct (negb (r =? 0)); [by eexists|]. destruct Ro as [Ro1 Ro2]. apply IH; [lia|done|done].
Qed.

Lemma sigreturn_inv w : sig_inv (cur w) -> sig_inv (cur (outcome_world (sys_sigreturn wp vw w))).
Proof.
  intros I. unfold sys_sigreturn. destruct (negb _); [done|].
  assert (I1 := inv_set_blocked (ctx (esp (regs w)) 20 (mem w)) w I).
  destruct (_ && _); done.
Qed.

Lemma sig_run_ok c w wakes : call_ok c -> sig_inv (cur w) -> Forall others wakes ->
  exists o, sig_run c w wakes = Some o /\ sig_inv (cur (outcome_world o)).
Proof.
  intros C I O. destruct c as [how set oset|m|set|s h|s a o|set| |]; cbn [sig_run].
  - eexists. split; [done|]. by apply sigprocmask_inv.
  - eexists. split; [done|]. by apply inv_set_blocked.
  - eexists. split; [done|]. unfold sys_sigpending. by destruct (_ =? 0).
  - destruct (signal_inv s h w C I) as (x & -> & Ix). by eexists.
  - destruct (sigaction_inv s a o w I) as (x & -> & Ix). by eexists.
  - apply suspend_ok; [lia| |done]. by apply inv_set_blocked.
  - eexists. split; [done|]. by apply sigreturn_inv.
  - destruct (do_signal_ok (p_blocked (cur w)) w wakes I O) as (o & -> & Io & _). by exists o.
Qed.

(** A process that starts with no signal blocked and the default action for
    SIGKILL and SIGSTOP, runs in user mode, makes calls, and is acted on by others. *)
Definition sig_boot (w : world) : Prop :=
  p_signal (cur w) = 0 /\ p_blocked (cur w) = 0 /\ actions_ok (actions (cur w))
  /\ sa_handler <$> get (actions (cur w)) (SIGKILL - 1) = Some SIG_DFL
  /\ sa_handler <$> get (actions (cur w)) (SIGSTOP - 1) = Some SIG_DFL.

Inductive sig_reach : world -> Prop :=
  | reach_boot w : sig_boot w -> sig_reach w
  | reach_user w r m : sig_reach w -> sig_reach (set_mem m (set_regs r w))
  | reach_others e w : sig_reach w -> others e -> sig_reach (e w)
  | reach_call c w wakes o : sig_reach w -> call_ok c -> Forall others wakes -> sig_run c w wakes = Some o ->
      sig_reach (outcome_world o).

Lemma sig_reach_inv w : sig_reach w -> sig_inv (cur w).
Proof.
  induction 1 as [w (S & B & A & K & T)|w r m _ IH|e w _ IH O|c w wakes o _ IH C O R].
  - split; rewrite ?S, ?B; try done.
  - destruct IH as [A K T R B BB]. by split.
  - by apply others_inv.
  - destruct (sig_run_ok c w wakes C IH O) as (o' & E & I). rewrite R in E. by injection E as <-.
Qed.

Lemma init_act s sa w wakes : p_pid (cur w) = 1 -> sa_handler sa = SIG_IGN \/ sa_handler sa = SIG_DFL ->
  exists w', act core_dump s sa w wakes = Ignored w' wakes /\ cur w' = cur w.
Proof.
  intros P [H|H]; unfold act; rewrite H; cbn.
  - destruct (negb _); by eexists.
  - rewrite P. by eexists.
Qed.

Lemma init_traced s w wakes r : p_pid (cur w) = 1 -> Forall others wakes -> traced s w wakes = Some r ->
  match r with
  | Go _ w' wk | Skip w' wk => p_pid (cur w') = 1 /\ actions (cur w') = actions (cur w) /\ Forall others wk
  | Sleep _ => True
  end.
Proof.
  intros P O. unfold traced. destruct (_ && _); [|intros E; by injection E as <-].
  destruct wakes as [|e wakes]; [intros E; by injection E as <-|]. apply list.Forall_cons in O as [Oe O].
  set (w1 := tell _ _).
  assert (P1 : p_pid (cur (e w1)) = 1) by (rewrite ot_pid by done; done).
  assert (A1 : actions (cur (e w1)) = actions (cur w)) by (rewrite ot_actions by done; done).
  repeat case_bool; intros E; try discriminate E; by injection E as <-.
Qed.

(** init is not ended by a signal that it does not handle. *)
Lemma init_deliver fuel : forall mask w wakes r,
  p_pid (cur w) = 1 -> Forall (fun sa => sa_handler sa = SIG_IGN \/ sa_handler sa = SIG_DFL) (actions (cur w)) ->
  Forall others wakes -> deliver core_dump fuel mask 0 w wakes = Some r ->
  match r with Scanned hs _ _ => hs = 0 | ScanExit _ _ => False | ScanAsleep _ => True end.
Proof.
  induction fuel as [|fuel IH]; intros mask w wakes r P A O; [done|]. cbn [deliver].
  destruct (_ =? 0); [intros E; by injection E as <-|].
  set (w1 := set_signal _ w).
  destruct (traced _ w1 wakes) as [t|] eqn:T; [|done]. cbn [mbind option_bind].
  apply init_traced in T; [|done|done].
  destruct t as [s w2 wk|w2 wk|w2]; [| |intros E; by injection E as <-]; destruct T as (P2 & A2 & O2).
  - destruct (get _ _) as [sa|] eqn:G; [|done]. cbn [mbind option_bind].
    assert (H : sa_handler sa = SIG_IGN \/ sa_handler sa = SIG_DFL).
    { rewrite A2 in G. unfold get in G. destruct (_ <? 0); [done|]. by eapply Forall_lookup_1 in A. }
    destruct (init_act s sa w2 wk P2 H) as (w3 & -> & E3). apply IH; [by rewrite E3|by rewrite E3, A2|done].
  - apply IH; [done|by rewrite A2|done].
Qed.

(** ** Delivery as a function of the pending signals *)

Definition delivery (oldmask : Z) (w : world) : option outcome :=
  r ← in_order core_dump (seqZ 1 32) (u32 (Z.lnot (p_blocked (cur w)))) 0 w;
  match r with
  | ScanExit code w => Some (Exited code w)
  | ScanAsleep w => Some (Asleep w)
  | Scanned hs w1 _ =>
      let w1 := set_regs (syscall_end (cur w) (sigs hs) (regs w)) w1 in
      if hs =? 0 then Some (Returned 0 w1 [])
      else
        b ← build_list wp vw (sigs hs) (esp (regs w1)) (eip (regs w1)) oldmask w1;
        match b with
        | inr (code, w) => Some (Exited code w)
        | inl (frame, ip, w) =>
            Some (Returned 1 (on_cur (with_trap 0 0) (set_regs (with_eip ip (with_esp frame (regs w))) w)) [])
        end
  end.

Lemma deliver_in_order w : sig_inv (cur w) -> untraced w ->
  let mask := u32 (Z.lnot (p_blocked (cur w))) in
  exists r, deliver core_dump (deliver_fuel []) mask 0 w [] = Some r
    /\ in_order core_dump (seqZ 1 32) mask 0 w = Some r /\ scan_ok r 0.
Proof.
  intros I U mask. assert (M : 0 <= mask < 2 ^ 32) by apply u32_range.
  assert (L : (pending_count mask w < deliver_fuel [])%nat).
  { unfold deliver_fuel, pending_count. pose proof (count_le (Z.land (p_signal (cur w)) mask)). cbn. lia. }
  destruct (deliver_total core_dump (deliver_fuel []) mask 0 w []) as (r & E & R); [exact L|done|lia|done|done|].
  exists r. split; [done|]. split; [|done].
  rewrite <- E. symmetry. apply (deliver_list core_dump 32 1); try done; try lia. intros j J. lia.
Qed.

Lemma do_signal_delivery oldmask w : sig_inv (cur w) -> untraced w ->
  do_signal wp vw core_dump oldmask w [] = delivery oldmask w.
Proof.
  intros I U. unfold do_signal, delivery.
  destruct (deliver_in_order w I U) as (r & E & D & R). set (mask := u32 _) in *.
  rewrite E, D. cbn [mbind option_bind]. destruct r as [hs w1 wk|c w1|w1]; [|done|done].
  destruct R as (_ & HS & _ & Lw). destruct wk; [|cbn in Lw; lia].
  destruct (in_order_regs core_dump 32 1 mask 0 w hs w1 []) as [_ Er];
    [done|lia|done|intros; apply Z.testbit_0_l|done|].
  change (sigs_from 1 hs) with (sigs hs) in Er. rewrite Er, restart_end.
  destruct (hs =? 0); [done|]. by rewrite build_sigs.
Qed.

Lemma act_mem s sa w : match act core_dump s sa w [] with
  | Ignored w' _ | Handled w' => mem w' = mem w | _ => True end.
Proof. unfold act. repeat case_bool; done. Qed.

Lemma in_order_mem l : forall mask hs w hs' w' wk,
  in_order core_dump l mask hs w = Some (Scanned hs' w' wk) -> mem w' = mem w.
Proof.
  induction l as [|s l IH]; intros mask hs w hs' w' wk; cbn [in_order]; [intros E; by injection E as <- <- <-|].
  destruct (Z.testbit _ _); [|apply IH]. destruct (get _ _) as [sa|]; [|done]. cbn [mbind option_bind].
  assert (Q := act_mem s sa (set_signal (Z.clearbit (p_signal (cur w)) (s - 1)) w)).
  destruct (act _ _ _ _ _) as [w1 wk1|w1|c w1|w1]; [| |done|done]; intros E; apply IH in E; by rewrite E, Q.
Qed.

Lemma user_regs_end p l r : user_regs r -> user_regs (syscall_end p l r).
Proof.
  intros U. unfold syscall_end. destruct (_ <? 0); [done|].
  destruct U as [W S C D]. assert (E := u32_range (eip r - 2)).
  repeat (apply list.Forall_cons in W as [? W]).
  repeat case_bool; split; try done; repeat constructor; cbn; try lia; try done.
Qed.

Lemma end_esp p l r : esp (syscall_end p l r) = esp r.
Proof. unfold syscall_end. by repeat case_match. Qed.

(** What a delivery that starts handlers consists of. *)
Lemma delivery_frames oldmask w w' wk : sig_inv (cur w) -> user_regs (regs w) -> untraced w -> 0 <= oldmask < 2 ^ 32 ->
  do_signal wp vw core_dump oldmask w [] = Some (Returned 1 w' wk) ->
  exists hs w1 ip w2, in_order core_dump (seqZ 1 32) (u32 (Z.lnot (p_blocked (cur w)))) 0 w = Some (Scanned hs w1 [])
    /\ sigs hs <> [] /\ mem w1 = mem w /\ mem w' = mem w2
    /\ let r := syscall_end (cur w) (sigs hs) (regs w) in
       build_list wp vw (sigs hs) (esp (regs w)) (eip r) oldmask (set_regs r w1) = Some (inl (esp (regs w'), ip, w2))
       /\ build_ok (esp (regs w)) (eip r) oldmask (set_regs r w1).
Proof.
  intros I U T M. rewrite do_signal_delivery by done. unfold delivery.
  destruct (deliver_in_order w I T) as (r & _ & D & R).
  rewrite D. cbn [mbind option_bind]. destruct r as [hs w1 wk1|c w1|w1]; [|done|done].
  destruct R as (I1 & HS & _ & Lw). destruct wk1; [|cbn in Lw; lia].
  destruct (Z.eqb_spec hs 0) as [|NZ]; [done|]. cbn [regs set_regs]. rewrite end_esp.
  destruct (build_list _ _ _ _ _ _ _) as [[[[f ip] w2]|[c w2]]|] eqn:B; [|done|done]. cbn [mbind option_bind].
  intros X. injection X as <- <-. exists hs, w1, ip, w2.
  split; [done|]. split; [|split; [eapply in_order_mem, D|split; [done|]]].
  - intros N. destruct (bsf_spec hs) as (Rn & Bn & _); [lia|].
    assert (El : bsf hs + 1 ∈ sigs hs); [|rewrite N in El; by apply not_elem_of_nil in El].
    apply list_elem_of_filter. replace (bsf hs + 1 - 1) with (bsf hs) by lia.
    split; [done|]. apply elem_of_seqZ. lia.
  - split; [exact B|]. assert (U' := user_regs_end (cur w) (sigs hs) _ U).
    split; [done|apply I1| | |done]; idtac.
    + destruct U as [W _ _ _]. repeat (apply list.Forall_cons in W as [? W]). done.
    + destruct U' as [W _ _ _]. repeat (apply list.Forall_cons in W as [? W]). done.
Qed.

(** ** Theorems *)

(** C17: In every state that a process reaches SIGKILL and SIGSTOP are not blocked and
    have the default action, and every call of [kernel/signal.c] has a result:
    no access outside the actions, no loop without end. *)
Theorem signal_calls_safe w (R : sig_reach w) :
  Z.testbit (p_blocked (cur w)) (SIGKILL - 1) = false
  /\ Z.testbit (p_blocked (cur w)) (SIGSTOP - 1) = false
  /\ sa_handler <$> get (actions (cur w)) (SIGKILL - 1) = Some SIG_DFL
  /\ sa_handler <$> get (actions (cur w)) (SIGSTOP - 1) = Some SIG_DFL
  /\ forall c wakes, call_ok c -> Forall others wakes -> exists o, sig_run c w wakes = Some o.
Proof.
  assert (I := sig_reach_inv w R). destruct (blockable_no_kill _ (si_blockable _ I)) as [B1 B2].
  split_and!; [done|done|apply I|apply I|]. intros c wakes C O.
  destruct (sig_run_ok c w wakes C I O) as (o & E & _). by exists o.
Qed.

(** C30: A pending SIGKILL ends a process that is not traced and is not init, whatever it
    blocks or handles and whatever else is pending: [do_signal] exits with SIGKILL or
    a lower signal.  And init, when it handles no signal, is not ended by any. *)
Theorem sigkill_ends w (R : sig_reach w) :
  (untraced w -> p_pid (cur w) <> 1 -> Z.testbit (p_signal (cur w)) (SIGKILL - 1) = true ->
   forall oldmask wakes, exists code w' s, do_signal wp vw core_dump oldmask w wakes = Some (Exited code w')
     /\ 1 <= s <= SIGKILL /\ (code = s \/ code = s + 0x80))
  /\ (p_pid (cur w) = 1 ->
      Forall (fun sa => sa_handler sa = SIG_IGN \/ sa_handler sa = SIG_DFL) (actions (cur w)) ->
      forall oldmask wakes code w', Forall others wakes -> do_signal wp vw core_dump oldmask w wakes <> Some (Exited code w')).
Proof.
  assert (I := sig_reach_inv w R). destruct (blockable_no_kill _ (si_blockable _ I)) as [B _].
  assert (M := u32_range (Z.lnot (p_blocked (cur w)))). split.
  - intros U P K oldmask wakes.
    destruct (deliver_kill core_dump (deliver_fuel wakes) (u32 (Z.lnot (p_blocked (cur w)))) 0 w wakes)
      as (code & w' & s & E & S & C); try done.
    + unfold deliver_fuel, pending_count.
      pose proof (count_le (Z.land (p_signal (cur w)) (u32 (Z.lnot (p_blocked (cur w)))))). lia.
    + rewrite Z.land_spec, K, unmasked, B by (unfold SIGKILL; lia). done.
    + exists code, w', s. unfold do_signal. by rewrite E.
  - intros P A oldmask wakes code w' O. unfold do_signal.
    destruct (deliver _ _ _ _ _ _) as [r|] eqn:D; [|done]. cbn [mbind option_bind].
    apply init_deliver in D; [|done|done|done]. destruct r as [hs w1 wk|c w1|w1]; [|done|done]. by subst hs.
Qed.

(** C31: For a process that is not traced, and is not continued after a stop within the
    call (the list of wake-ups is empty), [do_signal] is the recursion [delivery]: the
    signals are taken once each in increasing order, a chosen handler's mask holds off
    the later ones, the interrupted system call is made again exactly when
    [restarts] says so, and the handlers' frames are built in the same order. *)
Theorem do_signal_refines w (R : sig_reach w) (U : untraced w) oldmask :
  do_signal wp vw core_dump oldmask w [] = delivery oldmask w.
Proof. apply do_signal_delivery; [by apply sig_reach_inv|done]. Qed.

(** C16: When [do_signal] has started handlers, and each of them keeps its stack and
    returns, the return code and [sigreturn] take the process back through all of
    them: it goes on with the registers, the stack and the signal mask it had, at the
    interrupted instruction or the system call that is made again. *)
Theorem handlers_return w (R : sig_reach w) (U : untraced w) (G : user_regs (regs w)) w' wk
    (D : do_signal wp vw core_dump (p_blocked (cur w)) w [] = Some (Returned 1 w' wk)) top (T : esp (regs w) <= top) :
  exists l, l <> [] /\ forall hl, length hl = length l -> Forall (keeps_stack top) hl ->
    exists w2 fl, unwind wp vw hl w' = Some w2
      /\ regs w2 = resumed (syscall_end (cur w) l (regs w)) (eip (syscall_end (cur w) l (regs w))) (esp (regs w)) fl
      /\ p_blocked (cur w2) = p_blocked (cur w)
      /\ same_mem (esp (regs w)) top w w2.
Proof.
  assert (I := sig_reach_inv w R).
  apply delivery_frames in D as (hs & w1 & ip & w2 & _ & NE & M1 & M2 & B & O); [|done|done|done|apply I].
  destruct (build_list_unwind wp vw top _ _ _ _ _ _ _ _ O T B) as (_ & _ & _ & H).
  exists (sigs hs). split; [done|]. intros hl L F.
  destruct (H hl w' L F eq_refl) as (w3 & U3 & E3 & S3 & C3); [by intros a _; rewrite M2|].
  destruct (C3 NE) as [[fl Hr] Hb]. exists w3, fl. split; [done|]. split; [exact Hr|].
  split; [rewrite Hb; apply I|]. intros a Ha. rewrite S3 by done. cbn. by rewrite M1.
Qed.

(** C32: The frames are inside user space: at most 32 of 128 bytes below the stack
    pointer of the program, which gets the lowest of them, and no other byte of memory
    changes.  The process is not traced, is not continued after a stop within the
    call, and was interrupted in user mode with its stack in its data segment
    ([user_regs]). *)
Theorem frames_in_user_space w (R : sig_reach w) (U : untraced w) (G : user_regs (regs w)) oldmask
    (M : 0 <= oldmask < 2 ^ 32) w' wk (D : do_signal wp vw core_dump oldmask w [] = Some (Returned 1 w' wk)) :
  exists n, 1 <= n <= 32 /\ esp (regs w') = esp (regs w) - 128 * n
    /\ 0 <= esp (regs w') /\ esp (regs w) <= TASK_SIZE
    /\ forall b, b < esp (regs w') \/ esp (regs w) <= b -> get_fs_byte b (mem w') = get_fs_byte b (mem w).
Proof.
  assert (I := sig_reach_inv w R).
  apply delivery_frames in D as (hs & w1 & ip & w2 & _ & NE & M1 & M2 & B & O); [|done|done|done|done].
  destruct (build_list_unwind wp vw (esp (regs w)) _ _ _ _ _ _ _ _ O ltac:(done) B) as (E & P & F & _).
  destruct (P NE) as [P1 P2]. exists (Z.of_nat (length (sigs hs))).
  assert (L := count_le hs). unfold count in L. assert (length (sigs hs) <> 0)%nat by (by destruct (sigs hs)).
  split; [lia|]. split; [done|]. split; [done|]. split; [done|].
  intros b Hb. rewrite M2, F by done. cbn. by rewrite M1.
Qed.
End Props.

(** ** Witnesses *)

Definition act0 : sigaction := Sigaction SIG_DFL 0 0 0.
(** Handlers for signals 2 (which blocks 3) and 15. *)
Definition some_actions : list sigaction :=
  <[1%nat := Sigaction 0x1000 (sigmask 3) SA_RESTART 0]> (<[14%nat := Sigaction 0x2000 0 SA_ONESHOT 0]> (replicate 32 act0)).
Definition some_regs : pt_regs :=
  PtRegs 1 2 3 4 5 6 (u32 (- ERESTARTSYS)) USER_DS USER_DS USER_DS USER_DS 7 0x400 USER_CS 0x202 0xbffff000 USER_DS.
Definition some_proc (pid : Z) : proc := Proc 0 0 0 0 0 pid some_actions 0 0 0 false.
Definition some_world (pid : Z) : world := World (some_proc pid) some_regs ∅ [].

Lemma some_boot pid : sig_boot (some_world pid).
Proof.
  unfold sig_boot. split_and!; try reflexivity.
  split; [reflexivity|]. cbn [actions cur some_world some_proc]. unfold some_actions.
  repeat (apply Forall_insert || apply Forall_replicate); (split; [|by vm_compute|by vm_compute]);
    cbn; unfold TASK_SIZE, SIG_DFL; lia.
Qed.

(** Another process sends the signals of a set. *)
Definition send (set : Z) (w : world) : world := set_signal (u32 (Z.lor (p_signal (cur w)) set)) w.

Lemma send_others set : others (send set).
Proof.
  split; try done. intros w _. apply u32_range.
Qed.

Lemma some_reach pid set : sig_reach true (fun _ _ => 0) (fun _ => false) (send set (some_world pid)).
Proof. apply (reach_others _ _ _ (send set)); [apply reach_boot, some_boot|apply send_others]. Qed.

Lemma some_user pid set : user_regs (regs (send set (some_world pid))).
Proof. split; repeat constructor; cbn; try done; lia. Qed.

Lemma signal_calls_safe_witness : exists o,
  sig_run true (fun _ _ => 0) (fun _ => false) (Sigprocmask SIG_SETMASK 16 0)
    (set_mem (put_fs_long 0xffffffff 16 ∅) (some_world 7)) [] = Some o
  /\ Z.testbit (p_blocked (cur (outcome_world o))) (SIGKILL - 1) = false
  /\ p_blocked (cur (outcome_world o)) = BLOCKABLE.
Proof.
  eexists. split; [reflexivity|]. split; [|vm_compute; reflexivity].
  refine (proj1 (signal_calls_safe true (fun _ _ => 0) (fun _ => false) _ _)).
  eapply (reach_call _ _ _ (Sigprocmask SIG_SETMASK 16 0) (set_mem (put_fs_long 0xffffffff 16 ∅) (set_regs some_regs (some_world 7))));
    [apply reach_user, reach_boot, some_boot|exact I|apply list.Forall_nil; exact I|reflexivity].
Defined.

Lemma sigkill_ends_witness : exists code w' s,
  do_signal true (fun _ _ => 0) (fun _ => false) 0 (send (sigmask SIGKILL) (some_world 7)) [] = Some (Exited code w')
  /\ 1 <= s <= SIGKILL /\ (code = s \/ code = s + 0x80).
Proof.
  refine (proj1 (sigkill_ends true (fun _ _ => 0) (fun _ => false) _ (some_reach 7 _)) _ _ _ 0 []);
    [reflexivity|discriminate|reflexivity].
Defined.

Lemma do_signal_refines_witness :
  do_signal true (fun _ _ => 0) (fun _ => false) 0 (send (sigmask 2) (some_world 7)) []
  = delivery true (fun _ _ => 0) (fun _ => false) 0 (send (sigmask 2) (some_world 7)).
Proof. apply do_signal_refines; [apply some_reach|reflexivity]. Defined.

(** The signals 2 and 15 during a system call. *)
Definition two_signals : world := send (Z.lor (sigmask 2) (sigmask 15)) (some_world 7).
Definition two_delivered : outcome :=
  default (Asleep two_signals) (do_signal true (fun _ _ => 0) (fun _ => false) 0 two_signals []).

Lemma handlers_return_witness : exists l, l <> [] /\
  forall hl, length hl = length l -> Forall (keeps_stack 0xc0000000) hl ->
    exists w2 fl, unwind true (fun _ _ => 0) hl (outcome_world two_delivered) = Some w2
      /\ regs w2 = resumed (syscall_end (cur two_signals) l (regs two_signals))
                     (eip (syscall_end (cur two_signals) l (regs two_signals))) (esp (regs two_signals)) fl
      /\ p_blocked (cur w2) = p_blocked (cur two_signals)
      /\ same_mem (esp (regs two_signals)) 0xc0000000 two_signals w2.
Proof.
  eapply (handlers_return true (fun _ _ => 0) (fun _ => false) two_signals (some_reach 7 _) eq_refl (some_user 7 _));
    [vm_compute; reflexivity|cbn; lia].
Defined.

Lemma frames_in_user_space_witness : exists n, 1 <= n <= 32
  /\ esp (regs (outcome_world two_delivered)) = esp (regs two_signals) - 128 * n.
Proof.
  destruct (frames_in_user_space true (fun _ _ => 0) (fun _ => false) two_signals (some_reach 7 _) eq_refl (some_user 7 _) 0
    ltac:(lia) (outcome_world two_delivered) [] ltac:(vm_compute; reflexivity)) as (n & N & E & _).
  exists n. split; [exact N|exact E].
Defined.
End SignalProps.
